(* ===== verification/_CoqProject ===== *)
-Q . S2P
Prelude.v
GoStrings.v
GoCase.v
Values.v
GoSha256.v
Domain.v
GoTime.v
GoTimeParse.v
Policy.v
PolicyFacts.v
Action.v
ActionFacts.v
RoomState.v
RoomStateFacts.v
Projection.v
EventStream.v
EventStreamFacts.v
Operations.v
OperationsFacts.v
OperationIdentity.v
KeyedLock.v
OperationIdentityFacts.v
MemoryTables.v
MemoryTablesFacts.v
Calls.v
CallsFacts.v
ChannelContent.v
ChannelContentFacts.v
Workflow.v
RemotePublic.v
Prepared.v
PreparedFacts.v
Conversation.v
Blocks.v
Contacts.v
ContactWorkflows.v
Rooms.v
RoomWorkflows.v
Members.v
MemberWorkflows.v
Content.v
ContentFlow.v
Projector.v
ServiceWiring.v
RoomWiring.v
ContentWiring.v
ProjectorWiring.v
MemberFacts.v
MemberFlowFacts.v
MemberActionFacts.v
RoomFlowFacts.v
ContactsFacts.v
ContactProjectionFacts.v
ServiceFacts.v
ProjectorFacts.v
ProjectorReplayFacts.v
ContentFacts.v
ContentReactionFacts.v
ContentCommentFacts.v
Recovery.v
RecoveryFacts.v
RecoveryRunFacts.v
ChannelBackfill.v
MessagePages.v
GroupAgent.v
RetainedJoin.v
CapabilityLedger.v
CapabilityServer.v
CapabilityCalls.v
Social.v
Portal.v
RemotePublicFacts.v
ChannelBackfillFacts.v
RetainedJoinFacts.v
MessagePagesFacts.v
GroupAgentFacts.v
CapabilityLedgerFacts.v
CapabilityFacts.v
SocialFacts.v
PortalFacts.v
