(* ===== verification/Prelude.v ===== *)
(** * Dirextalk Message Server: verification library (root file)

    ** The program

    The repository is a Matrix homeserver (a Dendrite fork) with a product
    layer, ProductCore, on top.  A deployment serves one owner.  Clients call
    product actions over HTTP ([p2p/internal/httpapi]), the actions are
    handled by modules ([p2p/internal/...]) that [p2p/service.go] wires
    together over one store ([p2p/storage]), Matrix rooms carry product state
    events ([internal/dirextalkstate]) and the room server asks the product
    policy ([internal/productpolicy]) before it accepts a client event.  An
    agent reaches product actions through the capability service
    ([internal/productcapability]), whose operations are kept in a ledger, and
    group members reach the owner's agent through [p2p/service_group_agent.go].
    This library models the product layer's own logic, not the inherited
    homeserver.

    ** Files and what they model

    - [Prelude]: results, int64 arithmetic, map iteration, stable sorting.
    - [GoStrings], [GoCase], [Values], [GoTime], [GoTimeParse], [GoSha256]: what the
      sources use of Go: [strings.TrimSpace], [ToLower], [EqualFold] and
      [Cut] on bytes, dynamic JSON values and [action.Params], times as
      nanoseconds with RFC 3339 text, SHA-256.
    - [Domain]: the records of [internal/dirextalkdomain] and their
      normalisers and conversation builders.
    - [Policy], [PolicyFacts]: [internal/productpolicy], the validators of
      client events, memberships and redactions over a queried room state.
    - [RoomState], [RoomStateFacts]: [internal/dirextalkstate], builders and
      parsers of profiles, member policies, join requests, post settings.
    - [Action], [ActionFacts]: [p2p/internal/action], [p2p/serviceapi],
      the registry, authorisation and the Product HTTP adapter.
    - [EventStream], [EventStreamFacts]: [p2p/internal/events],
      [p2p/events_http.go] and [p2p/storage/memory_events.go]; writers,
      pruning and one server-sent event connection as interleaved steps.
    - [Operations], [OperationsFacts], [OperationIdentity],
      [OperationIdentityFacts], [KeyedLock]: [p2p/internal/operations],
      [p2p/storage/memory_operations.go] and the identity and locking parts of
      [p2p/service_operation_recovery.go]; claims, leases and trackers as a
      protocol of several owners.
    - [Recovery], [RecoveryFacts], [RecoveryRunFacts]: the execution of
      recoverable operations in the same file and the dispatch of actions in
      [p2p/service.go].
    - [MemoryTables], [MemoryTablesFacts], [ChannelContent],
      [ChannelContentFacts]: the tables of [p2p/storage/memory_*.go].
    - [Calls], [CallsFacts]: [p2p/internal/calls].
    - [Workflow]: the state and error monad of product actions with the rules
      to prove that a workflow keeps an invariant.
    - [Conversation], [Blocks], [Contacts], [ContactWorkflows]:
      [p2p/internal/conversation], [p2p/internal/blocks] and
      [p2p/internal/contacts], one definition per method, each over a store
      interface and optional ports.
    - [Social], [SocialFacts]: [p2p/internal/social], [p2p/internal/reports]
      and the read markers of [p2p/service_profile_sync.go].
    - [Portal], [PortalFacts]: [p2p/internal/portal], [p2p/internal/profile]
      and [p2p/service_portal.go].
    - [Rooms], [RoomWorkflows]: [p2p/internal/channels] ([module.go],
      [workflows.go], [public.go]) and [p2p/internal/groups].
    - [Members], [MemberWorkflows]: [p2p/internal/members], all its actions,
      and the persistence of member rows ([p2p/service_member_*.go]).
    - [RemotePublic], [RemotePublicFacts], [RetainedJoin],
      [RetainedJoinFacts]: [p2p/remote_public.go],
      [p2p/service_room_reactivation.go] and [p2p/service_channel_join.go],
      calls of other nodes and the joins of rooms of which rows are retained.
    - [ChannelBackfill], [ChannelBackfillFacts], [MessagePages],
      [MessagePagesFacts]: [p2p/service_channel_backfill.go],
      [internal/dirextalkmatrix/message_reader.go] and
      [internal/dirextalkmcp], room history and its pages.
    - [GroupAgent], [GroupAgentFacts]: [p2p/service_group_agent.go] and
      [p2p/storage/memory_group_agent.go], grants, requests and schedules of
      the agent in groups and its private channel.
    - [CapabilityLedger], [CapabilityLedgerFacts], [CapabilityServer],
      [CapabilityCalls], [CapabilityFacts]: [internal/productcapability], the
      ledger of operations, the registry, schemas, permissions and private
      channels, and the calls with the authentication of the peer.
    - [Prepared], [PreparedFacts]: [internal/dirextalktransport], the staged
      Matrix write of a capability operation and the table of staged events.
    - [Content], [ContentFlow]: [p2p/internal/channels/content_*.go], posts,
      comments, reactions, their pages and their projection.
    - [Projection], [Projector]: [internal/dirextalkprojection] and
      [p2p/internal/projector], how room server output becomes product
      records, and the batches of its consumer.
    - [ServiceWiring], [RoomWiring], [ContentWiring], [ProjectorWiring]: how
      [p2p/service.go], [p2p/conversation_service.go],
      [p2p/projector_ports.go] and the adapters of [p2p/service_*.go] connect
      these modules over the memory store and Matrix.
    - [ContactsFacts], [ContactProjectionFacts], [ServiceFacts],
      [MemberFacts], [MemberFlowFacts], [MemberActionFacts],
      [RoomFlowFacts], [ContentFacts], [ContentReactionFacts],
      [ContentCommentFacts], [ProjectorFacts], [ProjectorReplayFacts]: their
      theorems.

    ** Interfaces

    Components are written and, where possible, verified against type classes
    that state what one promises to another: [EventStore] with
    [EventStoreLaws] (discharged by the memory event log), [OperationStore],
    [CallStore] with [CallStoreLaws], [ConversationStore], [BlockStore],
    [ContactStore], [MatrixIDs] for the identifier parsers of
    gomatrixserverlib, [GoText] for JSON, quoting and [jsonb], [NetText] for
    URLs, [Capv1] for the capability protocol library (nothing is assumed of
    what a verified grant claims: the handlers check it),
    [SocialStore], [MarkerStore], and [GoRange] for the order of Go's map
    iteration.  Go interfaces with many optional
    methods are records of operations ([PreparedStore], [ContentStore],
    [Dependencies] of the projector).  [ConversationRule] with [rule_ports]
    states what a property of conversation records needs of the projector's
    ports; the service's ports discharge it once, and every such property is
    an instance.  The PostgreSQL store implements the same Go interfaces; the
    memory store, which the tests run on, is the reference semantics here.

    ** Modelling choices

    - A string is its bytes.  Case mapping covers ASCII and the runes that map
      to ASCII letters, which is what comparisons with ASCII words observe.
    - A Go pair of a value and an error is a [result]; a panic does not occur
      on the modelled paths, but for the write to a nil map in the callback of
      a join result, which is an outcome of its own.  A method that writes before it fails keeps the
      written state, as the code does: there is no implicit transaction.
    - [int64] values are integers in range, with [wrap64] where an addition
      can leave the range; a float64 is what the code observes of it.
    - Map iteration order is a parameter ([GoRange]); theorems hold for all
      orders, and say so where the code sorts.
    - The clock is a parameter of every operation that reads it.
    - Ports to Matrix and to other nodes are arbitrary functions on the whole
      world, so that anything may happen during a call; theorems name what
      they need of them.  Waiting for a peer's lock runs an arbitrary function
      that stands for the work of other requests; mutual exclusion itself is
      proved in [KeyedLock], whose code the contacts module repeats.
    - What other requests may write meanwhile is a relation on the shared
      tables, made of the writes the code has, not an assumption that they
      keep what is to be shown: [contact_write] ([ContactsFacts]), [write]
      ([CapabilityLedgerFacts], with the rows that the group agent's
      publications put into the ledger's table), [party] ([PreparedFacts], with
      the deletion of staged events of operations that are over) and
      [others_write] ([ProjectorFacts]).
    - JSON text is [GoText] or a parameter; where a builder of room state is
      read back ([publish]) its texts are valid UTF-8, since [json.Marshal]
      replaces other bytes.
    - The HTTP client of calls to other nodes is built from single round trips
      and follows redirects as [net/http] does without [CheckRedirect].
    - A transaction of the capability ledger is one step with its statements
      written out; its commit takes effect, does not, or takes effect with the
      reply lost, and another writer may insert before it where no row is
      locked.  [protojson] gives back the event it was given.
    - Where the code releases a lock between steps, the steps of other
      requests in between are a parameter ([meanwhile], [others]).
    - Concurrency of the event stream, of operations and of locks is a step
      relation over interleavings with reachability.
    - Fuel: [read_all] follows page cursors for one page more than there are
      records, which [keyset_pages_enumerate] proves to be enough; readers of
      room history take one page more than there are page tokens
      ([history_reading_ends], [ordinary_reading_ends]); texts are scanned with
      their length; the loops that wait for a claim make 41 attempts and the
      HTTP client at most ten requests, as the code does; every other
      recursion is structural.

    ** What the theorems show

    - Policy: the validators accept exactly the events the rules of a product
      room allow, privilege comes only from the create event, and the policy
      enforced is the one the product published (round trips of room state).
    - Boundary: a handler runs exactly for admitted requests; the registry
      holds exactly the registered handlers of the published table.
    - Contacts: in every reachable world contacts are filed under their room
      and no peer has two; a saved contact and its conversation agree; blocked
      peers are refused; conversation capabilities are exactly what stored
      contacts and memberships justify.
    - Members: a removed member stays out of a room, decisions on join
      requests are fenced by generation, joins are admitted exactly by the
      stored invitations and grants, leaving and removal ask Matrix first, and
      the member list is exactly the visible rows with canonical roles.
    - Rooms: only the owner updates or dissolves a channel, what is stored,
      published and returned agrees, and muting reaches exactly the members
      it is for.
    - Prepared writes: all submissions of an operation are one PDU, whatever
      calls are lost or repeated, whatever others stage, submit, record and
      delete, and an agent's retried comment is one comment; an error that does
      not say otherwise submitted nothing.
    - Channel content: who may comment and as whom, what a reaction toggle
      does, public listings are public, pages are the listing and stay in
      range, settings written are the settings read back from Matrix.
    - Projection: creators come from creation events only, conversations stay
      within the product's enumerations and projecting adds no value of them
      but the ones of direct, group and channel rooms, and redelivered content
      is absorbed.
    - Events: indexes are exact, sequence numbers increase, a connection
      delivers every event exactly once when publications do not overlap.
    - Operations: updates are never lost, leases exclude other owners, expired
      operations can be claimed, identities cannot be forged from requests; an
      executed operation leaves no lease behind, its answer is stored and
      replayed as it decodes without running it again, its failure is recorded
      as what it was while the lease is held and not at all when it was lost,
      and an operation that another owner holds is not run.
    - Joins and other nodes: a member is stored as joined only on the word of
      Matrix (an attempt that another request overtook reports the row that
      one stored), and a call of another node posts exactly what it should to
      the public address it was given, or nothing; redirects are not checked.
    - History: reading ends whatever tokens come back, and pages follow one
      another without gaps or repeats.
    - Group agents: pending requests are covered by the grant of their room
      and bounded, the agent reads and answers only under the grant, answers
      are published once, display names are one short line.
    - Capability ledger: rows and event streams agree in every reachable
      state, settled operations are final, watchers get the log, a staged
      Matrix event is not cancelled; the rows of group agent publications,
      which are in the same table, are excepted.
    - Capability service: no effect, work or disclosure without an
      authenticated peer and a verified grant for exactly that; exchanged
      grants are never wider than their parent and are accepted where they
      were issued for, when their claims fit; retries run nothing, and started
      operations settle unless others settled them or the result is not JSON.
    - Portal: no session without the password, and a new session replaces the
      old one in service, store and credentials file (a login without an
      issuer of Matrix sessions changes nothing).
    - Favourites never overwrite each other; read markers only advance, those
      from before positions were kept included.
    - Tables: compare-and-swap operations fence, listings are deterministic,
      read markers and post settings never go back, pages enumerate.
    - Calls: terminal states are final, records stay well formed, the
      announced records rebuild the table.
    - Some theorems exhibit behaviour the code or its documentation does not
      intend: an event lost to overlapping publications, a wake-up that waits
      for the next heartbeat, a decision that gives a contact to another peer,
      a mute that is stored although Matrix refuses it, a comment that its
      recovery does not find, an author's name that a post's echo blanks, a
      membership that another node makes up, an answer that panics, a progress
      message that cancels a scheduled request, a page that repeats a message,
      a publication that completes without an event, a redirect to a private
      host, and a login that overtakes a change of the password and learns it.

    ** Not modelled

    - SQL text and PostgreSQL behaviour, but for the two capability tables,
      whose statements are modelled row by row; HTTP and gRPC transport, TLS
      and process management (input and output).
    - Plugins, releases and voice relay (processes, files and sockets), and
      the deletion of an account (a sequence of deletions in other systems).
    - The descriptors and handlers of single capabilities
      ([internal/productcapability/contacts.go] and the like) and the external
      MCP module, which forward to the product actions modelled here.
    - [syncBootstrap], a composition of listings modelled by themselves.
    - The inherited homeserver (room server, sync, federation, user and media
      API), which rests on gomatrixserverlib. *)

From stdpp Require Import base tactics list gmap strings sorting.
From Stdlib Require Import ZArith Lia.

(** ** Results: Go's [(value, error)] pairs

    A Go function that returns [(T, error)] returns either a value or an
    error; the callers in this code base never look at the value when the
    error is not nil, so the pair is a sum. *)

Inductive result (E A : Type) : Type :=
| Ok (a : A)
| Err (e : E).
Arguments Ok {E A} a.
Arguments Err {E A} e.

Declare Scope go_scope.
Delimit Scope go_scope with go.

Definition rbind {E A B} (r : result E A) (k : A -> result E B) : result E B :=
  match r with
  | Ok a => k a
  | Err e => Err e
  end.

Notation "'let?' x := r 'in' k" := (rbind r (fun x => k))
  (at level 10, x pattern, r at level 100, k at level 200)
  : go_scope.

Definition is_Ok {E A} (r : result E A) : Prop := exists a, r = Ok a.

Definition result_map {E A B} (f : A -> B) (r : result E A) : result E B :=
  match r with Ok a => Ok (f a) | Err e => Err e end.

Lemma rbind_Ok_inv {E A B} (r : result E A) (k : A -> result E B) b :
  rbind r k = Ok b -> exists a, r = Ok a /\ k a = Ok b.
Proof. destruct r; simpl; [eauto | discriminate]. Qed.

(** ** Machine integers

    [int64] values are integers of [Z] in their range; an addition that can
    leave the range is written with [wrap64]. *)

Definition int64_min : Z := (- 2 ^ 63)%Z.
Definition int64_max : Z := (2 ^ 63 - 1)%Z.
Definition wrap64 (z : Z) : Z := ((z + 2 ^ 63) mod 2 ^ 64 - 2 ^ 63)%Z.
Definition in_int64 (z : Z) : Prop := (int64_min <= z <= int64_max)%Z.

Lemma wrap64_id z : in_int64 z -> wrap64 z = z.
Proof.
  unfold in_int64, int64_min, int64_max, wrap64; intros H.
  rewrite Z.mod_small by lia. lia.
Qed.

Lemma wrap64_range z : in_int64 (wrap64 z).
Proof.
  unfold in_int64, int64_min, int64_max, wrap64.
  pose proof (Z.mod_pos_bound (z + 2 ^ 63) (2 ^ 64)). lia.
Qed.

(** ** Iteration over a Go map

    Go's [range] over a map visits the entries in an unspecified order.  The
    order is a parameter: an instance of [GoRange] picks one enumeration per
    map, and theorems are stated for every instance. *)

Class GoRange := {
  go_range : forall {K : Type} `{Countable K} {V : Type}, gmap K V -> list (K * V);
  go_range_perm : forall {K : Type} `{Countable K} {V : Type} (m : gmap K V),
      go_range m ≡ₚ map_to_list m;
}.

(** The order that [map_to_list] gives is one such order. *)
#[global] Instance map_to_list_range : GoRange | 100 := {
  go_range K _ _ V m := map_to_list m;
  go_range_perm K _ _ V m := Permutation_refl _;
}.

Section Range.
Context `{GoRange} {K : Type} `{Countable K} {V : Type}.
Implicit Types (m : gmap K V) (k : K) (v : V).

Lemma elem_of_go_range m k v : (k, v) ∈ go_range m <-> m !! k = Some v.
Proof. rewrite go_range_perm. apply elem_of_map_to_list. Qed.

Definition go_values m : list V := (go_range m).*2.

Lemma elem_of_go_values m v : v ∈ go_values m <-> exists k, m !! k = Some v.
Proof.
  unfold go_values. rewrite list_elem_of_fmap. split.
  - intros [[k w] [-> Hin]]. exists k. by apply elem_of_go_range.
  - intros [k Hk]. exists (k, v). split; [done|]. by apply elem_of_go_range.
Qed.

Lemma go_values_perm m : go_values m ≡ₚ (map_to_list m).*2.
Proof. unfold go_values. by rewrite go_range_perm. Qed.
End Range.

(** First element that satisfies a boolean test, as a [for] loop that returns. *)
Fixpoint first_match {A} (p : A -> bool) (l : list A) : option A :=
  match l with
  | [] => None
  | x :: l => if p x then Some x else first_match p l
  end.

Lemma first_match_Some {A} (p : A -> bool) l x :
  first_match p l = Some x -> x ∈ l /\ p x = true.
Proof.
  induction l as [|y l IH]; simpl; [done|].
  destruct (p y) eqn:E; intros H; simplify_eq.
  - split; [left|done].
  - destruct (IH H). split; [by right|done].
Qed.

Lemma first_match_None {A} (p : A -> bool) l :
  first_match p l = None <-> forall x, x ∈ l -> p x = false.
Proof.
  induction l as [|y l IH]; simpl.
  - split; [intros _ x Hx; by apply elem_of_nil in Hx | done].
  - destruct (p y) eqn:E.
    + split; [done|]. intros H. specialize (H y (list_elem_of_here _ _)). congruence.
    + rewrite IH. split.
      * intros H x [->|Hx]%elem_of_cons; auto.
      * intros H x Hx. apply H. by right.
Qed.

Lemma bool_filter_perm {A} (p : A -> bool) l1 l2 :
  l1 ≡ₚ l2 -> List.filter p l1 ≡ₚ List.filter p l2.
Proof.
  induction 1 as [|x l1 l2 _ IH|x y l|l1 l2 l3 _ IH1 _ IH2]; cbn; [done| | |by etrans].
  - by destruct (p x); [constructor|].
  - destruct (p x), (p y); try done. apply perm_swap.
Qed.

(** ** Sorting with a boolean [less]

    [sort.SliceStable] is a stable sort: insertion sort in which an element is
    put before the first element of the sorted rest that is not smaller. *)

Section Sort.
Context {A : Type} (less : A -> A -> bool).

Fixpoint insert_sorted (x : A) (l : list A) : list A :=
  match l with
  | [] => [x]
  | y :: l' => if less y x then y :: insert_sorted x l' else x :: l
  end.

Fixpoint stable_sort (l : list A) : list A :=
  match l with
  | [] => []
  | x :: l' => insert_sorted x (stable_sort l')
  end.

Lemma insert_sorted_perm x l : insert_sorted x l ≡ₚ x :: l.
Proof.
  induction l as [|y l IH]; simpl; [done|].
  destruct (less y x); [|done]. rewrite IH. apply perm_swap.
Qed.

Lemma stable_sort_perm l : stable_sort l ≡ₚ l.
Proof.
  induction l as [|x l IH]; simpl; [done|].
  by rewrite insert_sorted_perm, IH.
Qed.

Lemma elem_of_stable_sort x l : x ∈ stable_sort l <-> x ∈ l.
Proof. by rewrite stable_sort_perm. Qed.

Lemma length_stable_sort l : length (stable_sort l) = length l.
Proof. by rewrite stable_sort_perm. Qed.

(** [le x y] is "not [y] before [x]". *)
Definition not_after (x y : A) : Prop := less y x = false.

Context (Hasym : forall x y, less x y = true -> less y x = false).
Context (Htrans : forall x y z, not_after x y -> not_after y z -> not_after x z).

Lemma insert_sorted_sorted x l :
  StronglySorted not_after l -> StronglySorted not_after (insert_sorted x l).
Proof.
  induction 1 as [|y l Hs IH Hall]; simpl.
  - repeat constructor.
  - destruct (less y x) eqn:E.
    + constructor; [done|]. rewrite insert_sorted_perm. constructor; [|done].
      by apply Hasym.
    + constructor; [by constructor|]. constructor; [done|].
      eapply Forall_impl; [done|]. intros z Hz. by eapply Htrans.
Qed.

Lemma stable_sort_sorted l : StronglySorted not_after (stable_sort l).
Proof. induction l; simpl; [constructor|]. by apply insert_sorted_sorted. Qed.

Lemma insert_sorted_head x l : Forall (not_after x) l -> insert_sorted x l = x :: l.
Proof using Type. intros H. destruct H as [|y l Hy _]; simpl; [done|]. by rewrite Hy. Qed.

Lemma insert_sorted_filter p x l :
  StronglySorted not_after l ->
  List.filter p (insert_sorted x l) =
  if p x then insert_sorted x (List.filter p l) else List.filter p l.
Proof using Htrans.
  induction 1 as [|y l Hs IH Hall]; simpl; [by destruct (p x)|].
  destruct (less y x) eqn:E; simpl.
  - rewrite IH. destruct (p y), (p x); simpl; rewrite ?E; done.
  - destruct (p x); [|done]. rewrite insert_sorted_head; [done|].
    assert (Hx : Forall (not_after x) (y :: l)).
    { constructor; [done|]. eapply Forall_impl; [done|]. intros z Hz. by eapply Htrans. }
    apply Forall_forall. intros z Hz. rewrite Forall_forall in Hx. apply Hx.
    rewrite list_elem_of_In in *. by apply (filter_In p _ (y :: l)).
Qed.

(** Sorting and selecting commute. *)
Lemma stable_sort_filter p l :
  stable_sort (List.filter p l) = List.filter p (stable_sort l).
Proof using Hasym Htrans.
  induction l as [|x l IH]; simpl; [done|].
  rewrite insert_sorted_filter by apply stable_sort_sorted. rewrite <- IH.
  by destruct (p x).
Qed.
End Sort.

(** ** Automation

    [go_cases] splits every [match] and [if] of the goal and of the
    hypotheses; [go_bool] turns boolean connectives into propositions. *)

Ltac go_bool :=
  repeat match goal with
  | H : _ && _ = true |- _ => apply andb_true_iff in H as [? ?]
  | H : _ || _ = false |- _ => apply orb_false_iff in H as [? ?]
  | H : negb _ = true |- _ => apply negb_true_iff in H
  | H : negb _ = false |- _ => apply negb_false_iff in H
  | H : bool_decide _ = true |- _ => apply bool_decide_eq_true_1 in H
  | H : bool_decide _ = false |- _ => apply bool_decide_eq_false_1 in H
  | H : Z.eqb _ _ = true |- _ => apply Z.eqb_eq in H
  | H : Z.eqb _ _ = false |- _ => apply Z.eqb_neq in H
  | H : Z.leb _ _ = true |- _ => apply Z.leb_le in H
  | H : Z.leb _ _ = false |- _ => apply Z.leb_gt in H
  | H : Z.ltb _ _ = true |- _ => apply Z.ltb_lt in H
  | H : Z.ltb _ _ = false |- _ => apply Z.ltb_ge in H
  end.

Ltac go_step :=
  match goal with
  | H : context [match ?x with _ => _ end] |- _ =>
      lazymatch x with context [match _ with _ => _ end] => fail | _ => idtac end;
      let E := fresh "E" in destruct x eqn:E; simplify_eq/=
  | |- context [match ?x with _ => _ end] =>
      lazymatch x with context [match _ with _ => _ end] => fail | _ => idtac end;
      let E := fresh "E" in destruct x eqn:E; simplify_eq/=
  end.

Ltac go_cases := repeat go_step.

Create HintDb go discriminated.
