(* ===== verification/GoStrings.v ===== *)
(** * Go strings and the [strings] package

    A Go string is a sequence of bytes, here a [string] of [ascii].
    [TrimSpace] removes every Unicode white space, also the multi-byte ones,
    so it is exact on every byte string.  [ToLower] and [EqualFold] map the
    ASCII letters and the non-ASCII runes whose lower case (or case fold) is an
    ASCII letter; other letters stay as they are.  The code compares folded and
    lowered strings with ASCII literals only, where this is exact. *)

From Stdlib Require Import Ascii String ZArith Wf_nat Lia.
From stdpp Require Import base tactics list strings.
From S2P Require Import Prelude.

Definition byte_of (n : nat) : ascii := ascii_of_nat n.
Definition bytes := list ascii.

(** ** White space ([unicode.IsSpace]) by the length of its UTF-8 encoding *)

Definition space1 (a : ascii) : bool :=
  let n := nat_of_ascii a in ((9 <=? n) && (n <=? 13) || (n =? 32))%nat.

Definition space2 (a b : ascii) : bool :=
  ((nat_of_ascii a =? 194) && ((nat_of_ascii b =? 133) || (nat_of_ascii b =? 160)))%nat.

Definition space3 (a b c : ascii) : bool :=
  let x := nat_of_ascii a in let y := nat_of_ascii b in let z := nat_of_ascii c in
  ((x =? 225) && (y =? 154) && (z =? 128) ||
   (x =? 226) && (y =? 128) && ((128 <=? z) && (z <=? 138) || (z =? 168) || (z =? 169) || (z =? 175)) ||
   (x =? 226) && (y =? 129) && (z =? 159) ||
   (x =? 227) && (y =? 128) && (z =? 128))%nat.

Section Strip.
Context (s1 : ascii -> bool) (s2 : ascii -> ascii -> bool)
        (s3 : ascii -> ascii -> ascii -> bool).

(** Remove white space encodings from the front. *)
Fixpoint strip (l : bytes) : bytes :=
  match l with
  | [] => []
  | a :: l1 =>
      if s1 a then strip l1
      else match l1 with
           | [] => l
           | b :: l2 =>
               if s2 a b then strip l2
               else match l2 with
                    | [] => l
                    | c :: l3 => if s3 a b c then strip l3 else l
                    end
           end
  end.

(** Whether the front of [l] is a white space encoding. *)
Definition starts (l : bytes) : bool :=
  match l with
  | a :: b :: c :: _ => s1 a || s2 a b || s3 a b c
  | [a; b] => s1 a || s2 a b
  | [a] => s1 a
  | [] => false
  end.

Lemma bytes_ind3 (P : bytes -> Prop) :
  (forall l, (forall k, (length k < length l)%nat -> P k) -> P l) -> forall l, P l.
Proof.
  intros H l. induction l as [l IH] using (induction_ltof1 _ (@length _)).
  apply H. intros k Hk. by apply IH.
Qed.

Lemma strip_starts l : starts (strip l) = false.
Proof.
  induction l as [l IH] using bytes_ind3.
  destruct l as [|a [|b [|c l]]]; [done|..]; simpl; repeat case_match;
    try (apply IH; simpl; lia); simpl;
    repeat match goal with H : _ = false |- _ => rewrite H; clear H end; done.
Qed.

Lemma strip_fix l : starts l = false -> strip l = l.
Proof.
  destruct l as [|a [|b [|c l]]]; simpl; intros H; [done|..];
    repeat (apply orb_false_iff in H as [H ?]).
  - by rewrite H.
  - by rewrite H, H0.
  - by rewrite H, H0, H1.
Qed.

Lemma strip_idemp l : strip (strip l) = strip l.
Proof. apply strip_fix, strip_starts. Qed.

Lemma strip_suffix l : exists p, l = p ++ strip l.
Proof.
  induction l as [l IH] using bytes_ind3.
  assert (Hdrop : forall p k, l = p ++ k -> p <> [] -> exists q, l = q ++ strip k).
  { intros p k Hl Hp. destruct (IH k) as [q Hq].
    - rewrite Hl, length_app. destruct p; [done|]; simpl; lia.
    - exists (p ++ q). rewrite Hl at 1. rewrite Hq at 1. by rewrite app_assoc. }
  destruct l as [|a l1]; [by exists []|].
  cbn [strip]. destruct (s1 a); [by apply (Hdrop [a])|].
  destruct l1 as [|b l2]; [by exists []|].
  destruct (s2 a b); [by apply (Hdrop [a; b])|].
  destruct l2 as [|c l3]; [by exists []|].
  destruct (s3 a b c); [by apply (Hdrop [a; b; c]) | by exists []].
Qed.

(** White space at the front of a prefix is white space at the front. *)
Lemma starts_app l k : starts (l ++ k) = false -> starts l = false.
Proof.
  destruct l as [|a [|b [|c l]]]; simpl; try done.
  - destruct k as [|b [|c k]]; simpl; intros H;
      repeat (apply orb_false_iff in H as [H ?]); done.
  - destruct k as [|c k]; simpl; intros H;
      repeat (apply orb_false_iff in H as [H ?]); by rewrite ?H, ?H0.
Qed.
End Strip.

Definition trim_left : bytes -> bytes := strip space1 space2 space3.
Definition trim_right (l : bytes) : bytes :=
  rev (strip space1 (fun a b => space2 b a) (fun a b c => space3 c b a) (rev l)).
Definition trim_bytes (l : bytes) : bytes := trim_right (trim_left l).

(** [strings.TrimSpace] *)
Definition trim_space (s : string) : string :=
  string_of_list_ascii (trim_bytes (list_ascii_of_string s)).

Lemma trim_right_prefix l : exists k, l = trim_right l ++ k.
Proof.
  unfold trim_right.
  destruct (strip_suffix space1 (fun a b => space2 b a) (fun a b c => space3 c b a) (rev l))
    as [p Hp].
  exists (rev p). rewrite <- rev_app_distr, <- Hp. by rewrite rev_involutive.
Qed.

Lemma trim_right_idemp l : trim_right (trim_right l) = trim_right l.
Proof. unfold trim_right. by rewrite rev_involutive, strip_idemp. Qed.

Lemma trim_bytes_idemp l : trim_bytes (trim_bytes l) = trim_bytes l.
Proof.
  unfold trim_bytes.
  assert (trim_left (trim_right (trim_left l)) = trim_right (trim_left l)) as ->.
  { apply strip_fix. destruct (trim_right_prefix (trim_left l)) as [k Hk].
    apply (starts_app _ _ _ _ k). rewrite <- Hk. apply strip_starts. }
  apply trim_right_idemp.
Qed.

Lemma trim_space_idemp s : trim_space (trim_space s) = trim_space s.
Proof.
  unfold trim_space. by rewrite list_ascii_of_string_of_list_ascii, trim_bytes_idemp.
Qed.

(** Printable ASCII bytes are no part of a white space encoding. *)
Definition plain (a : ascii) : bool :=
  ((33 <=? nat_of_ascii a) && (nat_of_ascii a <=? 127))%nat.

Lemma plain_space1 a : plain a = true -> space1 a = false.
Proof.
  unfold plain, space1. intros [H1%Nat.leb_le H2%Nat.leb_le]%andb_true_iff.
  rewrite (proj2 (Nat.leb_gt _ 13)), (proj2 (Nat.eqb_neq _ _)) by lia. by rewrite andb_false_r.
Qed.

Lemma plain_range a n : plain a = true -> (127 < n)%nat -> (nat_of_ascii a =? n)%nat = false.
Proof.
  unfold plain. intros [H1%Nat.leb_le H2%Nat.leb_le]%andb_true_iff Hn. apply Nat.eqb_neq. lia.
Qed.

Lemma plain_space2 a b : plain a = true \/ plain b = true -> space2 a b = false.
Proof.
  unfold space2. intros [H|H]; rewrite !(plain_range _ _ H) by lia; [done|apply andb_false_r].
Qed.

Lemma plain_space3 a b c : plain a = true \/ plain c = true -> space3 a b c = false.
Proof.
  unfold space3. intros [H|H]; rewrite !(plain_range _ _ H) by lia; [done|].
  assert ((128 <=? nat_of_ascii c)%nat = false) as ->.
  { unfold plain in H. apply andb_true_iff in H as [_ H%Nat.leb_le]. apply Nat.leb_gt. lia. }
  by rewrite !andb_false_r.
Qed.

Lemma trim_bytes_plain a l b :
  plain a = true -> plain b = true -> trim_bytes (a :: l ++ [b]) = a :: l ++ [b].
Proof.
  intros Ha Hb. unfold trim_bytes, trim_left, trim_right. rewrite (strip_fix _ _ _ (a :: _)).
  - rewrite strip_fix; [apply rev_involutive|]. cbn [rev]. rewrite rev_app_distr. cbn [rev app].
    destruct (rev l ++ [a]) as [|c [|d r]] eqn:E; cbn;
      rewrite ?(plain_space1 b Hb), ?plain_space2, ?plain_space3 by auto; done.
  - destruct (l ++ [b]) as [|c [|d r]] eqn:E; cbn;
      rewrite ?(plain_space1 a Ha), ?plain_space2, ?plain_space3 by auto; done.
Qed.

(** A byte that is part of no white space encoding survives stripping. *)
Lemma strip_elem s1 s2 s3 a l :
  s1 a = false -> (forall b, s2 a b = false /\ s2 b a = false) ->
  (forall b c, s3 a b c = false /\ s3 b a c = false /\ s3 b c a = false) ->
  a ∈ l -> a ∈ strip s1 s2 s3 l.
Proof.
  intros H1 H2 H3. induction l as [l IH] using (induction_ltof1 _ (@length ascii)).
  unfold ltof in IH. destruct l as [|x l1]; [done|]. intros Hin. cbn [strip].
  destruct (s1 x) eqn:E1.
  { apply IH; [cbn; lia|]. apply elem_of_cons in Hin as [<-|?]; [congruence|done]. }
  destruct l1 as [|y l2]; [done|]. destruct (s2 x y) eqn:E2.
  { apply IH; [cbn; lia|]. destruct (H2 x), (H2 y).
    apply elem_of_cons in Hin as [<-|[<-|?]%elem_of_cons]; [congruence..|done]. }
  destruct l2 as [|z l3]; [done|]. destruct (s3 x y z) eqn:E3; [|done].
  apply IH; [cbn; lia|]. destruct (H3 x y) as (? & ? & ?), (H3 y z) as (? & ? & ?),
    (H3 x z) as (? & ? & ?).
  apply elem_of_cons in Hin as [<-|[<-|[<-|?]%elem_of_cons]%elem_of_cons]; [congruence..|done].
Qed.

Lemma plain_space3_mid a b c : plain b = true -> space3 a b c = false.
Proof.
  intros H. unfold space3. rewrite !(plain_range _ _ H) by lia. by rewrite !andb_false_r.
Qed.

Lemma trim_space_plain s a : plain a = true -> a ∈ list_ascii_of_string s -> trim_space s <> "".
Proof.
  intros Ha Hin Ht. enough (a ∈ trim_bytes (list_ascii_of_string s)) as Hb.
  { unfold trim_space in Ht. apply (f_equal list_ascii_of_string) in Ht.
    rewrite list_ascii_of_string_of_list_ascii in Ht. rewrite Ht in Hb. by apply not_elem_of_nil in Hb. }
  unfold trim_bytes, trim_right, trim_left. apply list_elem_of_In. rewrite <- in_rev.
  apply list_elem_of_In, strip_elem.
  - by apply plain_space1.
  - intros b. split; apply plain_space2; auto.
  - intros b c. split_and!; [apply plain_space3; auto|by apply plain_space3_mid|apply plain_space3; auto].
  - apply list_elem_of_In. rewrite <- in_rev. apply list_elem_of_In, strip_elem; [by apply plain_space1| | |done].
    + intros b. split; apply plain_space2; auto.
    + intros b c. split_and!; [apply plain_space3; auto|by apply plain_space3_mid|apply plain_space3; auto].
Qed.

(** A string is trimmed when [TrimSpace] returns it unchanged. *)
Definition trimmed (s : string) : Prop := trim_space s = s.

#[export] Instance trimmed_dec s : Decision (trimmed s).
Proof. unfold trimmed. apply _. Defined.

Lemma trimmed_trim s : trimmed (trim_space s).
Proof. apply trim_space_idemp. Qed.

Lemma trimmed_empty : trimmed "".
Proof. reflexivity. Qed.

#[export] Hint Resolve trimmed_trim trimmed_empty : go.
Create Rewrite HintDb go_strings.
#[export] Hint Rewrite trim_space_idemp : go_strings.

(** ** Case mapping *)

Definition lower_ascii (a : ascii) : ascii :=
  let n := nat_of_ascii a in
  if ((65 <=? n) && (n <=? 90))%nat then ascii_of_nat (n + 32) else a.

(** [unicode.ToLower] with the two runes that lower to ASCII:
    U+0130 (C4 B0) to [i] and U+212A (E2 84 AA) to [k]. *)
Fixpoint lower_bytes (l : bytes) : bytes :=
  match l with
  | [] => []
  | a :: l1 =>
      match l1 with
      | b :: l2 =>
          if ((nat_of_ascii a =? 196) && (nat_of_ascii b =? 176))%nat
          then "i"%char :: lower_bytes l2
          else match l2 with
               | c :: l3 =>
                   if ((nat_of_ascii a =? 226) && (nat_of_ascii b =? 132) &&
                       (nat_of_ascii c =? 170))%nat
                   then "k"%char :: lower_bytes l3
                   else lower_ascii a :: lower_bytes l1
               | [] => lower_ascii a :: lower_bytes l1
               end
      | [] => [lower_ascii a]
      end
  end.

(** [strings.ToLower] *)
Definition to_lower (s : string) : string :=
  string_of_list_ascii (lower_bytes (list_ascii_of_string s)).

(** Simple case folding: U+017F (C5 BF) folds with [s], U+212A with [k]. *)
Fixpoint fold_bytes (l : bytes) : bytes :=
  match l with
  | [] => []
  | a :: l1 =>
      match l1 with
      | b :: l2 =>
          if ((nat_of_ascii a =? 197) && (nat_of_ascii b =? 191))%nat
          then "s"%char :: fold_bytes l2
          else match l2 with
               | c :: l3 =>
                   if ((nat_of_ascii a =? 226) && (nat_of_ascii b =? 132) &&
                       (nat_of_ascii c =? 170))%nat
                   then "k"%char :: fold_bytes l3
                   else lower_ascii a :: fold_bytes l1
               | [] => lower_ascii a :: fold_bytes l1
               end
      | [] => [lower_ascii a]
      end
  end.

(** [strings.EqualFold] *)
Definition equal_fold (s t : string) : bool :=
  bool_decide (fold_bytes (list_ascii_of_string s) = fold_bytes (list_ascii_of_string t)).

Lemma equal_fold_refl s : equal_fold s s = true.
Proof. by apply bool_decide_eq_true_2. Qed.

Lemma plain_lower a : plain (lower_ascii a) = true -> plain a = true.
Proof.
  unfold lower_ascii. destruct (_ && _) eqn:E; [|done]. intros _.
  apply andb_true_iff in E as [E1%Nat.leb_le E2%Nat.leb_le]. unfold plain.
  apply andb_true_iff. split; apply Nat.leb_le; lia.
Qed.

(** A string that folds to a word of letters other than [k] and [s] in front
    is not blank. *)
Lemma equal_fold_word s a t :
  plain a = true -> a <> "s"%char -> a <> "k"%char ->
  fold_bytes (list_ascii_of_string s) = a :: t -> trim_space s <> "".
Proof.
  intros Ha Hs Hk Hf. destruct (list_ascii_of_string s) as [|b l] eqn:El; [done|].
  apply (trim_space_plain s b); [|rewrite El; by left]. apply plain_lower.
  enough (lower_ascii b = a) as -> by done. cbn [fold_bytes] in Hf.
  destruct l as [|c l]; [by injection Hf|]. destruct (_ && _); [by injection Hf|].
  destruct l as [|d l]; [by injection Hf|]. destruct (_ && _); by injection Hf.
Qed.

Lemma equal_fold_sym s t : equal_fold s t = equal_fold t s.
Proof. unfold equal_fold. apply bool_decide_ext. naive_solver. Qed.

Lemma equal_fold_trans s t u :
  equal_fold s t = true -> equal_fold t u = true -> equal_fold s u = true.
Proof. unfold equal_fold. rewrite !bool_decide_eq_true. congruence. Qed.

(** ** Searching and cutting *)

Fixpoint strip_prefix (p s : string) : option string :=
  match p, s with
  | EmptyString, _ => Some s
  | String a p', String b s' => if Ascii.eqb a b then strip_prefix p' s' else None
  | String _ _, EmptyString => None
  end.

(** [strings.HasPrefix] and [strings.TrimPrefix] *)
Definition has_prefix (s p : string) : bool :=
  match strip_prefix p s with Some _ => true | None => false end.
Definition trim_prefix (s p : string) : string :=
  match strip_prefix p s with Some rest => rest | None => s end.

(** The parts of [s] before and after the first [sep]: [i := strings.Index(s, sep)]
    with [s[:i]] and [s[i+1:]]; [None] when the index is -1. *)
Fixpoint cut (sep : ascii) (s : string) : option (string * string) :=
  match s with
  | EmptyString => None
  | String a s' =>
      if Ascii.eqb a sep then Some (EmptyString, s')
      else match cut sep s' with
           | Some (before, after) => Some (String a before, after)
           | None => None
           end
  end.

(** [strings.Contains] *)
Fixpoint contains (s sub : string) : bool :=
  has_prefix s sub ||
  match s with EmptyString => false | String _ s' => contains s' sub end.

Definition str_empty (s : string) : bool := bool_decide (s = "").
Definition str_eqb (s t : string) : bool := bool_decide (s = t).
(** Go's [<] on strings is the byte order. *)
Definition str_ltb (s t : string) : bool := String.ltb s t.

Lemma strip_prefix_app p s : strip_prefix p (p +:+ s) = Some s.
Proof.
  induction p as [|a p IH]; [done|].
  change (strip_prefix (String a p) (String a (p +:+ s)) = Some s).
  simpl. by rewrite Ascii.eqb_refl.
Qed.

Lemma strip_prefix_Some p s r : strip_prefix p s = Some r -> s = p +:+ r.
Proof.
  revert s. induction p as [|a p IH]; intros s; simpl; [by intros [= ->]|].
  destruct s as [|b s]; [done|]. destruct (Ascii.eqb_spec a b) as [->|]; [|done].
  intros ->%IH. done.
Qed.

Lemma trim_prefix_app p s : trim_prefix (p +:+ s) p = s.
Proof. unfold trim_prefix. by rewrite strip_prefix_app. Qed.

Lemma has_prefix_app p s : has_prefix (p +:+ s) p = true.
Proof. unfold has_prefix. by rewrite strip_prefix_app. Qed.

Lemma str_ltb_irrefl s : str_ltb s s = false.
Proof.
  unfold str_ltb, String.ltb.
  pose proof (String.compare_antisym s s). by destruct (String.compare s s).
Qed.

Lemma str_ltb_asym s t : str_ltb s t = true -> str_ltb t s = false.
Proof.
  unfold str_ltb, String.ltb. rewrite (String.compare_antisym t s).
  by destruct (String.compare s t).
Qed.

Lemma str_ltb_total s t : str_ltb s t = false -> str_ltb t s = false -> s = t.
Proof.
  unfold str_ltb, String.ltb. rewrite (String.compare_antisym t s).
  destruct (String.compare s t) eqn:E; try done.
  intros _ _. by apply String.compare_eq_iff.
Qed.

Lemma str_ltb_trans s t u : str_ltb s t = true -> str_ltb t u = true -> str_ltb s u = true.
Proof.
  unfold str_ltb, String.ltb. revert t u.
  induction s as [|a s IH]; intros [|b t] [|c u]; simpl; try done.
  destruct (Ascii.compare a b) eqn:E1, (Ascii.compare b c) eqn:E2,
    (Ascii.compare a c) eqn:E3; try done; intros H1 H2; try (by eapply IH);
    unfold Ascii.compare in *;
    rewrite ?N.compare_eq_iff, ?N.compare_lt_iff, ?N.compare_gt_iff in *; lia.
Qed.
