(* ===== verification/GoCase.v ===== *)
(** * Lower case and white space

    [strings.ToLower(strings.TrimSpace(s))] is a normal form: normalising a
    second time changes nothing.  Stored memberships, roles and statuses are
    compared in this form throughout the product. *)

From Stdlib Require Import Ascii String ZArith Lia Arith.
From stdpp Require Import base tactics list strings.
From S2P Require Import Prelude GoStrings.

(** ** Lower case and trimming commute *)

(** A byte that is no lower-case letter. *)
Definition no_letter (a : ascii) : Prop := (nat_of_ascii a < 97 \/ 122 < nat_of_ascii a)%nat.

Lemma lower_no_letter a x : lower_ascii a = x -> no_letter x -> a = x.
Proof.
  unfold lower_ascii, no_letter. destruct (_ && _) eqn:E; [|done]. intros <- Hx.
  apply andb_true_iff in E as [E1%Nat.leb_le E2%Nat.leb_le].
  rewrite nat_ascii_embedding in Hx by lia. lia.
Qed.

(** The cases of [lower_bytes] at the front of a string. *)
Lemma lower_bytes_cons a l :
  (exists b l', l = b :: l' /\ nat_of_ascii a = 196%nat /\ nat_of_ascii b = 176%nat /\
     lower_bytes (a :: l) = "i"%char :: lower_bytes l') \/
  (exists b c l', l = b :: c :: l' /\
     (nat_of_ascii a = 226%nat /\ nat_of_ascii b = 132%nat /\ nat_of_ascii c = 170%nat) /\
     lower_bytes (a :: l) = "k"%char :: lower_bytes l') \/
  lower_bytes (a :: l) = lower_ascii a :: lower_bytes l.
Proof.
  destruct l as [|b l2]; [by right; right|]. cbn [lower_bytes].
  destruct (_ && _) eqn:E1.
  { left. apply andb_true_iff in E1 as [?%Nat.eqb_eq ?%Nat.eqb_eq]. eauto 10. }
  destruct l2 as [|c l3]; [by right; right|]. destruct (_ && _ && _) eqn:E2; [|by right; right].
  right; left. apply andb_true_iff in E2 as [[?%Nat.eqb_eq ?%Nat.eqb_eq]%andb_true_iff ?%Nat.eqb_eq].
  eauto 10.
Qed.

Lemma lower_bytes_front l v u :
  lower_bytes l = v ++ u -> Forall no_letter v -> exists u', l = v ++ u' /\ lower_bytes u' = u.
Proof.
  revert l. induction v as [|x v IH]; intros l Hl Hv; [by exists l|].
  apply Forall_cons in Hv as [Hx Hv]. destruct l as [|a l]; [done|].
  destruct (lower_bytes_cons a l) as [(b & l' & _ & _ & _ & E)|[(b & c & l' & _ & _ & E)|E]]; rewrite E in Hl.
  - injection Hl as <- _. unfold no_letter in Hx. cbv in Hx. lia.
  - injection Hl as <- _. unfold no_letter in Hx. cbv in Hx. lia.
  - injection Hl as Ha Hl. apply lower_no_letter in Ha; [|done]. subst a.
    destruct (IH _ Hl Hv) as (u' & -> & ?). by exists u'.
Qed.

Lemma lower_bytes_nil l : lower_bytes l = [] -> l = [].
Proof.
  destruct l as [|a l]; [done|].
  by destruct (lower_bytes_cons a l) as [(? & ? & _ & _ & _ & ->)|[(? & ? & ? & _ & _ & ->)| ->]].
Qed.

Lemma lower_bytes_back l u v :
  lower_bytes l = u ++ v -> Forall no_letter v -> exists u', l = u' ++ v.
Proof.
  intros Hl Hv. revert u Hl. induction l as [l IH] using bytes_ind3. intros [|y u] Hl.
  { destruct (lower_bytes_front l v []) as (u' & -> & ->%lower_bytes_nil);
      [by rewrite app_nil_r|done|]. exists []. by rewrite app_nil_r. }
  destruct l as [|a l]; [done|].
  destruct (lower_bytes_cons a l) as [(b & l' & -> & _ & _ & E)|[(b & c & l' & -> & _ & E)|E]];
    rewrite E in Hl; injection Hl as _ Hl.
  - destruct (IH l' ltac:(cbn in *; lia) _ Hl) as [u' ->]. by exists (a :: b :: u').
  - destruct (IH l' ltac:(cbn in *; lia) _ Hl) as [u' ->]. by exists (a :: b :: c :: u').
  - destruct (IH l ltac:(cbn; lia) _ Hl) as [u' ->]. by exists (a :: u').
Qed.

(** The encodings of white space have no letters. *)
Ltac no_letters :=
  repeat match goal with
  | H : (_ || _) = true |- _ => apply orb_true_iff in H as [H|H]
  | H : (_ && _) = true |- _ => apply andb_true_iff in H as [H ?]
  | H : (_ =? _)%nat = true |- _ => apply Nat.eqb_eq in H
  | H : (_ <=? _)%nat = true |- _ => apply Nat.leb_le in H
  end; unfold no_letter; lia.

Lemma space1_no_letter a : space1 a = true -> no_letter a.
Proof. unfold space1. intros H. no_letters. Qed.

Lemma space2_no_letter a b : space2 a b = true -> no_letter a /\ no_letter b.
Proof. unfold space2. intros H. split; no_letters. Qed.

Lemma space3_no_letter a b c : space3 a b c = true -> no_letter a /\ no_letter b /\ no_letter c.
Proof. unfold space3. cbv zeta. intros H. split_and!; no_letters. Qed.

(** White space at the front, as a prefix. *)
Lemma starts_prefix s1 s2 s3 l :
  starts s1 s2 s3 l = true <->
  exists v u, l = v ++ u /\
    ((exists a, v = [a] /\ s1 a = true) \/ (exists a b, v = [a; b] /\ s2 a b = true) \/
     (exists a b c, v = [a; b; c] /\ s3 a b c = true)).
Proof.
  split.
  - destruct l as [|a [|b [|c l]]]; cbn; [done| | |]; intros H.
    + exists [a], []. eauto 10.
    + apply orb_true_iff in H as [H|H]; [exists [a], [b]|exists [a; b], []]; eauto 10.
    + rewrite !orb_true_iff in H.
      destruct H as [[H|H]|H]; [exists [a], (b :: c :: l)|exists [a; b], (c :: l)|
        exists [a; b; c], l]; eauto 10.
  - intros (v & u & -> & [(a & -> & H)|[(a & b & -> & H)|(a & b & c & -> & H)]]).
    + destruct u as [|b [|c u]]; cbn; by rewrite H.
    + destruct u as [|c u]; cbn; by rewrite H, ?orb_true_r.
    + cbn. by rewrite H, !orb_true_r.
Qed.

Lemma lower_starts l :
  starts space1 space2 space3 (lower_bytes l) = true -> starts space1 space2 space3 l = true.
Proof.
  rewrite !starts_prefix. intros (v & u & Hl & Hv).
  assert (Forall no_letter v) as Hn.
  { destruct Hv as [(a & -> & H%space1_no_letter)|[(a & b & -> & H%space2_no_letter)|
      (a & b & c & -> & H%space3_no_letter)]]; rewrite !Forall_cons, Forall_nil; tauto. }
  destruct (lower_bytes_front l v u Hl Hn) as (u' & -> & _). eauto.
Qed.

Lemma lower_ends l :
  starts space1 (fun a b => space2 b a) (fun a b c => space3 c b a) (rev (lower_bytes l)) = true ->
  starts space1 (fun a b => space2 b a) (fun a b c => space3 c b a) (rev l) = true.
Proof.
  rewrite !starts_prefix. intros (v & u & Hl & Hv).
  assert (Forall no_letter (rev v)) as Hn.
  { destruct Hv as [(a & -> & H%space1_no_letter)|[(a & b & -> & H%space2_no_letter)|
      (a & b & c & -> & H%space3_no_letter)]]; cbn; rewrite ?Forall_cons, Forall_nil; tauto. }
  apply (f_equal (@rev ascii)) in Hl. rewrite rev_involutive, rev_app_distr in Hl.
  destruct (lower_bytes_back l _ _ Hl Hn) as (u' & ->).
  exists v, (rev u'). by rewrite rev_app_distr, rev_involutive.
Qed.

Lemma trim_bytes_starts l : starts space1 space2 space3 (trim_bytes l) = false.
Proof.
  unfold trim_bytes. destruct (trim_right_prefix (trim_left l)) as [k Hk].
  apply (starts_app _ _ _ _ k). rewrite <- Hk. apply strip_starts.
Qed.

Lemma trim_bytes_ends l :
  starts space1 (fun a b => space2 b a) (fun a b c => space3 c b a) (rev (trim_bytes l)) = false.
Proof. unfold trim_bytes, trim_right. rewrite rev_involutive. apply strip_starts. Qed.

Lemma trim_lower_bytes l :
  trim_bytes (lower_bytes (trim_bytes l)) = lower_bytes (trim_bytes l).
Proof.
  unfold trim_bytes at 1, trim_left, trim_right. rewrite strip_fix, strip_fix, rev_involutive.
  - done.
  - apply not_true_is_false. intros H%lower_starts. by rewrite trim_bytes_starts in H.
  - apply not_true_is_false. rewrite strip_fix; [intros H%lower_ends; by rewrite trim_bytes_ends in H|].
    apply not_true_is_false. intros H%lower_starts. by rewrite trim_bytes_starts in H.
Qed.

Lemma lower_ascii_idemp a : lower_ascii (lower_ascii a) = lower_ascii a.
Proof.
  unfold lower_ascii at 2 3. destruct (_ && _) eqn:E.
  - apply andb_true_iff in E as [E1%Nat.leb_le E2%Nat.leb_le]. unfold lower_ascii.
    rewrite nat_ascii_embedding by lia. by rewrite (proj2 (Nat.leb_gt _ 90)), andb_false_r by lia.
  - unfold lower_ascii. by rewrite E.
Qed.

Lemma lower_bytes_idemp l : lower_bytes (lower_bytes l) = lower_bytes l.
Proof.
  induction l as [l IH] using bytes_ind3. destruct l as [|a l]; [done|].
  assert (Hx : forall x r, plain x = true -> lower_bytes (x :: r) = lower_ascii x :: lower_bytes r).
  { intros x r Hx. destruct r as [|b [|c r]]; cbn [lower_bytes]; [done| |];
      rewrite !(plain_range x) by (done || lia); done. }
  destruct (lower_bytes_cons a l) as [(b & l' & -> & _ & _ & E)|[(b & c & l' & -> & _ & E)|E]];
    rewrite E; [rewrite Hx, IH by (done || cbn; lia); done..|].
  destruct (lower_bytes_cons (lower_ascii a) (lower_bytes l)) as
    [(b & l' & Hl & Ha & Hb & _)|[(b & c & l' & Hl & (Ha & Hb & Hc) & _)|E']].
  - exfalso. assert (a = lower_ascii a) as Heq by (apply lower_no_letter; [done|right; lia]).
    destruct (lower_bytes_front l [b] l' Hl) as (u & -> & _);
      [rewrite !Forall_cons, Forall_nil; unfold no_letter; lia|].
    rewrite <- Heq in *. cbn [lower_bytes app] in E. rewrite Ha, Hb in E. cbn in E.
    injection E as E _. rewrite <- E in Ha. done.
  - exfalso. assert (a = lower_ascii a) as Heq by (apply lower_no_letter; [done|right; lia]).
    destruct (lower_bytes_front l [b; c] l' Hl) as (u & -> & _);
      [rewrite !Forall_cons, Forall_nil; unfold no_letter; lia|].
    rewrite <- Heq in *. cbn [lower_bytes app] in E. rewrite Ha, Hb, Hc in E. cbn in E.
    injection E as E _. rewrite <- E in Ha. done.
  - by rewrite E', lower_ascii_idemp, IH by (cbn; lia).
Qed.

Lemma lower_trim_idemp s :
  to_lower (trim_space (to_lower (trim_space s))) = to_lower (trim_space s).
Proof.
  unfold to_lower, trim_space. rewrite !list_ascii_of_string_of_list_ascii.
  by rewrite trim_lower_bytes, lower_bytes_idemp.
Qed.

Lemma trim_lower_trim s : trim_space (to_lower (trim_space s)) = to_lower (trim_space s).
Proof.
  unfold to_lower, trim_space. rewrite !list_ascii_of_string_of_list_ascii.
  by rewrite trim_lower_bytes.
Qed.
