(* ===== verification/Values.v ===== *)
(** * Dynamic values and request parameters

    [any] is Go's [any] as it occurs in the product code: the values the JSON
    decoder builds (with and without [UseNumber]) and the Go values handlers
    put in a content or parameter map themselves.  [Params] models
    [p2p/internal/action/params.go]; [sprint] is [fmt.Sprint] of one value. *)

From Stdlib Require Import Ascii String ZArith Lia.
From stdpp Require Import base tactics list gmap strings pretty.
From S2P Require Import Prelude GoStrings.

(** A [float64] as the code observes it: whether it differs from zero, its
    conversion to [int64], its [%v] rendering, and what decoding its JSON text
    into an [int64] field gives ([None] for an error). *)
Record float64 := Float64 {
  f64_nonzero : bool;
  f64_int64 : Z;
  f64_text : string;
  f64_json_int64 : option Z;
}.

Inductive any : Type :=
| ANil
| ABool (b : bool)
| AString (s : string)
| AFloat64 (f : float64)
| AInt (n : Z)
| AInt64 (n : Z)
| ANumber (text : string)            (* json.Number *)
| AStrings (l : list string)         (* []string *)
| AInt64s (l : list Z)               (* []int64 *)
| AInts (l : list Z)                 (* []int *)
| AFloat64s (l : list float64)       (* []float64 *)
| AList (l : list any)               (* []any *)
| AMap (l : list (string * any)).    (* map[string]any, in iteration order *)

(** The type of a decoded JSON object at the top of a content or request. *)
Abbreviation content := (gmap string any).

(** A JSON object decoded into a map: the last of equal keys wins. *)
Definition object_map (entries : list (string * any)) : content :=
  foldl (fun (m : content) kv => <[kv.1 := kv.2]> m) ∅ entries.

(** ** [strconv.ParseInt(s, 10, 64)]

    [parse_signed] reads the sign and the digits ([None] for a syntax error).
    [parse_int] is the value alone, for callers that ignore the error: 0 on a
    syntax error, clamped when out of range.  [parse_int_strict] keeps the
    error. *)

Definition digit_of (a : ascii) : option Z :=
  let n := Z.of_nat (nat_of_ascii a) in
  if ((48 <=? n) && (n <=? 57))%Z then Some (n - 48)%Z else None.

Fixpoint parse_digits (acc : Z) (s : string) : option Z :=
  match s with
  | EmptyString => Some acc
  | String a s' =>
      match digit_of a with
      | Some d => parse_digits (10 * acc + d) s'
      | None => None
      end
  end.

Definition parse_uint (s : string) : option Z :=
  if str_empty s then None else parse_digits 0 s.

Definition parse_signed (s : string) : option Z :=
  match s with
  | String "-" s' => Z.opp <$> parse_uint s'
  | String "+" s' => parse_uint s'
  | _ => parse_uint s
  end.

Definition clamp64 (z : Z) : Z := Z.max int64_min (Z.min int64_max z).

Definition parse_int (s : string) : Z :=
  match parse_signed s with Some n => clamp64 n | None => 0 end.

Definition parse_int_strict (s : string) : option Z :=
  match parse_signed s with
  | Some n => if bool_decide (clamp64 n = n) then Some n else None
  | None => None
  end.

(** ** Decoding a JSON object into a struct

    A key belongs to a field when it is the field's name up to case; keys are
    read in order, [null] leaves the field alone and a value of another type
    is an error. *)
Definition field_values (entries : list (string * any)) (name : string) : list any :=
  (List.filter (fun kv => equal_fold kv.1 name) entries).*2.

Definition decode_string (entries : list (string * any)) (name : string) : option string :=
  foldl (fun acc v => match acc, v with
                      | Some _, AString s => Some s
                      | Some x, ANil => Some x
                      | _, _ => None
                      end) (Some "") (field_values entries name).

Definition decode_bool (entries : list (string * any)) (name : string) : option bool :=
  foldl (fun acc v => match acc, v with
                      | Some _, ABool b => Some b
                      | Some x, ANil => Some x
                      | _, _ => None
                      end) (Some false) (field_values entries name).

Definition decode_int64 (entries : list (string * any)) (name : string) : option Z :=
  foldl (fun acc v => match acc, v with
                      | Some _, AFloat64 f => f64_json_int64 f
                      | Some _, (AInt n | AInt64 n) => Some n
                      | Some _, ANumber t => parse_int_strict t
                      | Some x, ANil => Some x
                      | _, _ => None
                      end) (Some 0%Z) (field_values entries name).

(** The entries of [json.Marshal] of a value that decodes into a struct: a map
    is written with its keys sorted, [null] has no entries, anything else is
    an error. *)
Definition marshal_object (v : any) : option (list (string * any)) :=
  match v with
  | ANil => Some []
  | AMap m => Some (stable_sort (fun a b => str_ltb a.1 b.1) m)
  | _ => None
  end.

(** [m[key]]: the zero value of [any] is nil. *)
Definition get (m : content) (key : string) : any := default ANil (m !! key).

(** [_, ok := m[key]] *)
Definition has (m : content) (key : string) : bool := bool_decide (is_Some (m !! key)).

Definition words (l : list string) : string := String.concat " " l.

(** [fmt.Sprint(v)] *)
Fixpoint sprint (v : any) : string :=
  match v with
  | ANil => "<nil>"
  | ABool true => "true"
  | ABool false => "false"
  | AString s => s
  | AFloat64 f => f64_text f
  | AInt n | AInt64 n => pretty n
  | ANumber t => t
  | AStrings l => "[" +:+ words l +:+ "]"
  | AInt64s l | AInts l => "[" +:+ words (map pretty l) +:+ "]"
  | AFloat64s l => "[" +:+ words (map f64_text l) +:+ "]"
  | AList l => "[" +:+ words (map sprint l) +:+ "]"
  | AMap m =>
      let rendered := map (fun kv => (kv.1, sprint kv.2)) m in
      let sorted := stable_sort (fun a b => str_ltb a.1 b.1) rendered in
      "map[" +:+ words (map (fun kv => kv.1 +:+ ":" +:+ kv.2) sorted) +:+ "]"
  end.

Module Params.
Definition String (value : any) : string :=
  match value with
  | AString s => trim_space s
  | ANumber s => trim_space s      (* json.Number is a fmt.Stringer *)
  | _ => ""
  end.

(** The loop of [normalizedStrings], with the [seen] map. *)
Fixpoint normalizedStrings_loop (seen : gset string) (values : list string) : list string :=
  match values with
  | [] => []
  | v :: values =>
      let value := trim_space v in
      if str_empty value then normalizedStrings_loop seen values
      else if bool_decide (value ∈ seen) then normalizedStrings_loop seen values
      else value :: normalizedStrings_loop ({[value]} ∪ seen) values
  end.

Definition normalizedStrings (values : list string) : list string :=
  normalizedStrings_loop ∅ values.

(** A nil slice and an empty slice are not distinguished by the callers. *)
Definition Strings (value : any) : list string :=
  match value with
  | AStrings v => normalizedStrings v
  | AList v => normalizedStrings (map String v)
  | _ => []
  end.

Definition Int64 (value : any) : Z :=
  match value with
  | AInt64 v => v
  | AInt v => v
  | AFloat64 v => f64_int64 v
  | ANumber v => parse_int v
  | AString v => parse_int (trim_space v)
  | _ => 0
  end.

Definition Int64s (value : any) : list Z :=
  match value with
  | AInt64s v => v
  | AInts v => v
  | AFloat64s v => map f64_int64 v
  | AList v => List.filter (fun n => negb (Z.eqb n 0)) (map Int64 v)
  | _ => if Z.eqb (Int64 value) 0 then [] else [Int64 value]
  end.

Definition Bool (value : any) : bool :=
  match value with
  | ABool v => v
  | AString v => equal_fold (trim_space v) "true" || str_eqb (trim_space v) "1"
  | AFloat64 v => f64_nonzero v
  | AInt v => negb (Z.eqb v 0)
  | AInt64 v => negb (Z.eqb v 0)
  | _ => false
  end.

(** [None] is the nil map. *)
Definition BoolMap (value : any) : option (gmap string bool) :=
  match value with
  | AMap raw =>
      let flags := foldl (fun (flags : gmap string bool) kv =>
                     let key := trim_space kv.1 in
                     if str_empty key then flags else <[key := Bool kv.2]> flags) ∅ raw in
      if bool_decide (flags = ∅) then None else Some flags
  | _ => None
  end.

Definition get_string (p : content) (key : string) : string := String (get p key).
Definition get_strings (p : content) (key : string) : list string := Strings (get p key).
Definition get_int64 (p : content) (key : string) : Z := Int64 (get p key).
Definition get_bool (p : content) (key : string) : bool := Bool (get p key).

Fixpoint FirstString (p : content) (keys : list string) : string :=
  match keys with
  | [] => ""
  | key :: keys =>
      let value := get_string p key in
      if str_empty value then FirstString p keys else value
  end.

Fixpoint FirstListString (p : content) (keys : list string) : string :=
  match keys with
  | [] => ""
  | key :: keys =>
      match get_strings p key with
      | v :: _ => v
      | [] => FirstListString p keys
      end
  end.
End Params.

(** ** The readers normalise *)

Lemma String_trimmed v : trimmed (Params.String v).
Proof. destruct v; simpl; auto with go. Qed.

Lemma get_string_trimmed p k : trimmed (Params.get_string p k).
Proof. apply String_trimmed. Qed.
#[export] Hint Resolve String_trimmed get_string_trimmed : go.

Lemma FirstString_trimmed p keys : trimmed (Params.FirstString p keys).
Proof.
  induction keys as [|k keys IH]; simpl; [auto with go|].
  destruct (str_empty _); auto with go.
Qed.
#[export] Hint Resolve FirstString_trimmed : go.

Lemma normalizedStrings_loop_spec seen values :
  let out := Params.normalizedStrings_loop seen values in
  NoDup out /\
  (forall s, s ∈ out <-> s <> "" /\ s ∉ seen /\ s ∈ trim_space <$> values).
Proof.
  revert seen. induction values as [|v values IH]; intros seen; simpl.
  { split; [constructor|]. intros s. set_solver. }
  unfold str_empty. case_bool_decide as Hempty.
  { destruct (IH seen) as [Hnd Hin]. split; [done|]. intros s. rewrite Hin. set_solver. }
  case_bool_decide as Hseen.
  { destruct (IH seen) as [Hnd Hin]. split; [done|]. intros s. rewrite Hin. set_solver. }
  destruct (IH ({[trim_space v]} ∪ seen)) as [Hnd Hin]. split.
  - constructor; [|done]. rewrite Hin. set_solver.
  - intros s. rewrite elem_of_cons, Hin. destruct (decide (s = trim_space v)); set_solver.
Qed.

Lemma parse_int_range s : in_int64 (parse_int s).
Proof.
  unfold parse_int, in_int64, clamp64, int64_min, int64_max.
  destruct (parse_signed s); lia.
Qed.
