(* ===== verification/GoSha256.v ===== *)
(** * [crypto/sha256] and [encoding/hex]

    The digest that names conversations and group-agent requests, on byte
    strings: FIPS 180-4 with 32-bit words as [Z]. *)

From Stdlib Require Import Ascii String ZArith Lia.
From stdpp Require Import base list strings.
From S2P Require Import Prelude GoStrings.
Local Open Scope Z_scope.

Definition w32 (x : Z) : Z := x mod 2 ^ 32.
Definition add32 (x y : Z) : Z := w32 (x + y).
Definition rotr (n x : Z) : Z :=
  Z.lor (Z.shiftr x n) (w32 (Z.shiftl x (32 - n))).
Definition not32 (x : Z) : Z := 2 ^ 32 - 1 - x.

Definition ch (x y z : Z) : Z := Z.lxor (Z.land x y) (Z.land (not32 x) z).
Definition maj (x y z : Z) : Z :=
  Z.lxor (Z.land x y) (Z.lxor (Z.land x z) (Z.land y z)).
Definition big0 (x : Z) : Z := Z.lxor (rotr 2 x) (Z.lxor (rotr 13 x) (rotr 22 x)).
Definition big1 (x : Z) : Z := Z.lxor (rotr 6 x) (Z.lxor (rotr 11 x) (rotr 25 x)).
Definition small0 (x : Z) : Z := Z.lxor (rotr 7 x) (Z.lxor (rotr 18 x) (Z.shiftr x 3)).
Definition small1 (x : Z) : Z := Z.lxor (rotr 17 x) (Z.lxor (rotr 19 x) (Z.shiftr x 10)).

(** The first [n] primes: a candidate with no smaller prime divisor. *)
Definition primes (n : nat) : list Z :=
  take n (foldl (fun ps c => if existsb (fun p => c mod p =? 0) ps then ps else ps ++ [c]) []
            (map Z.of_nat (seq 2 320))).

(** The largest [x] below [2^40] with [x ^ 3 <= n], bit by bit. *)
Definition cube_root (n : Z) : Z :=
  foldl (fun x b => let y := x + 2 ^ Z.of_nat b in if y ^ 3 <=? n then y else x) 0
    (rev (seq 0 40)).

(** The first 32 bits of the fractional parts of the cube roots of the first
    64 primes, and of the square roots of the first 8. *)
Definition round_constants : list Z :=
  Eval vm_compute in map (fun p => cube_root (p * 2 ^ 96) mod 2 ^ 32) (primes 64).

Definition initial_hash : list Z :=
  Eval vm_compute in map (fun p => Z.sqrt (p * 2 ^ 64) mod 2 ^ 32) (primes 8).

(** The message schedule, newest word first. *)
Fixpoint extend (n : nat) (w : list Z) : list Z :=
  match n with
  | O => w
  | S n =>
      let at_ i := nth i w 0 in
      let new := add32 (add32 (small1 (at_ 1%nat)) (at_ 6%nat))
                       (add32 (small0 (at_ 14%nat)) (at_ 15%nat)) in
      extend n (new :: w)
  end.

Definition sha_round (st : list Z) (kw : Z * Z) : list Z :=
  match st with
  | [a; b; c; d; e; f; g; h] =>
      let t1 := add32 (add32 h (big1 e)) (add32 (ch e f g) (add32 kw.1 kw.2)) in
      let t2 := add32 (big0 a) (maj a b c) in
      [add32 t1 t2; a; b; c; add32 d t1; e; f; g]
  | _ => st
  end.

Definition compress (h : list Z) (block : list Z) : list Z :=
  let schedule := rev (extend 48 (rev block)) in
  zip_with add32 h (foldl sha_round h (zip round_constants schedule)).

Fixpoint words_of (n : nat) (l : list Z) : list Z :=
  match n, l with
  | S n, a :: b :: c :: d :: l =>
      (a * 2 ^ 24 + b * 2 ^ 16 + c * 2 ^ 8 + d) :: words_of n l
  | _, _ => []
  end.

Fixpoint be_bytes (n : nat) (x : Z) : list Z :=
  match n with
  | O => []
  | S n => be_bytes n (x / 256) ++ [x mod 256]
  end.

Definition pad (l : list Z) : list Z :=
  let len := Z.of_nat (length l) in
  let zeros := Z.to_nat ((55 - len) mod 64) in
  l ++ [128] ++ repeat 0 zeros ++ be_bytes 8 (8 * len).

Fixpoint blocks (n : nat) (h : list Z) (w : list Z) : list Z :=
  match n with
  | O => h
  | S n => blocks n (compress h (take 16 w)) (drop 16 w)
  end.

Definition bytes_of (s : string) : list Z :=
  map (fun a => Z.of_nat (nat_of_ascii a)) (list_ascii_of_string s).

(** [sha256.Sum256] as a list of 32 bytes *)
Definition sha256 (s : string) : list Z :=
  let m := pad (bytes_of s) in
  let n := (length m / 64)%nat in
  mjoin (map (be_bytes 4) (blocks n initial_hash (words_of (16 * n) m))).

Definition hex_digit (d : Z) : ascii :=
  ascii_of_nat (Z.to_nat (if d <? 10 then d + 48 else d + 87)).

(** [hex.EncodeToString] *)
Definition hex (l : list Z) : string :=
  string_of_list_ascii (mjoin (map (fun b => [hex_digit (b / 16); hex_digit (b mod 16)]) l)).

Example sha256_abc :
  hex (sha256 "abc") = "ba7816bf8f01cfea414140de5dae2223b00361a396177a9cb410ff61f20015ad".
Proof. vm_compute. reflexivity. Qed.

Example sha256_empty :
  hex (sha256 "") = "e3b0c44298fc1c149afbf4c8996fb92427ae41e4649b934ca495991b7852b855".
Proof. vm_compute. reflexivity. Qed.
