(* ===== verification/Domain.v ===== *)
(** * Product domain records ([internal/dirextalkdomain])

    One module per Go struct: [Contact.ContactRecord] is the struct
    [ContactRecord], its projections have the Go field names and [set_F]
    assigns field [F].  The pure helpers of [types.go] and [conversation.go]
    follow; string enums ([ConversationKind], ...) stay strings as in Go. *)

From Stdlib Require Import Ascii String ZArith Lia.
From stdpp Require Import base tactics list gmap strings.
From S2P Require Import Prelude GoStrings Values GoSha256.

Module Owner.
Record OwnerProfile := mk {
  UserID : string;
  DisplayName : string;
  Domain : string;
  AvatarURL : string;
  Gender : string;
  Birthday : string;
  Phone : string;
  Email : string;
}.
#[global] Instance OwnerProfile_eq_dec : EqDecision OwnerProfile.
Proof. solve_decision. Defined.
End Owner.

Module Contact.
Record ContactRecord := mk {
  PeerMXID : string;
  DisplayName : string;
  DisplayNameOverride : bool;
  AvatarURL : string;
  Domain : string;
  RoomID : string;
  Status : string;
  Remark : string;
  RequestID : string;
}.
Definition set_DisplayName (v : string) (r : ContactRecord) : ContactRecord :=
  {| PeerMXID := PeerMXID r; DisplayName := v;
     DisplayNameOverride := DisplayNameOverride r; AvatarURL := AvatarURL r;
     Domain := Domain r; RoomID := RoomID r; Status := Status r;
     Remark := Remark r; RequestID := RequestID r |}.
Definition set_DisplayNameOverride (v : bool) (r : ContactRecord) : ContactRecord :=
  {| PeerMXID := PeerMXID r; DisplayName := DisplayName r;
     DisplayNameOverride := v; AvatarURL := AvatarURL r; Domain := Domain r;
     RoomID := RoomID r; Status := Status r; Remark := Remark r;
     RequestID := RequestID r |}.
Definition set_AvatarURL (v : string) (r : ContactRecord) : ContactRecord :=
  {| PeerMXID := PeerMXID r; DisplayName := DisplayName r;
     DisplayNameOverride := DisplayNameOverride r; AvatarURL := v;
     Domain := Domain r; RoomID := RoomID r; Status := Status r;
     Remark := Remark r; RequestID := RequestID r |}.
Definition set_Domain (v : string) (r : ContactRecord) : ContactRecord :=
  {| PeerMXID := PeerMXID r; DisplayName := DisplayName r;
     DisplayNameOverride := DisplayNameOverride r; AvatarURL := AvatarURL r;
     Domain := v; RoomID := RoomID r; Status := Status r; Remark := Remark r;
     RequestID := RequestID r |}.
Definition set_RoomID (v : string) (r : ContactRecord) : ContactRecord :=
  {| PeerMXID := PeerMXID r; DisplayName := DisplayName r;
     DisplayNameOverride := DisplayNameOverride r; AvatarURL := AvatarURL r;
     Domain := Domain r; RoomID := v; Status := Status r; Remark := Remark r;
     RequestID := RequestID r |}.
Definition set_Status (v : string) (r : ContactRecord) : ContactRecord :=
  {| PeerMXID := PeerMXID r; DisplayName := DisplayName r;
     DisplayNameOverride := DisplayNameOverride r; AvatarURL := AvatarURL r;
     Domain := Domain r; RoomID := RoomID r; Status := v; Remark := Remark r;
     RequestID := RequestID r |}.
Definition set_Remark (v : string) (r : ContactRecord) : ContactRecord :=
  {| PeerMXID := PeerMXID r; DisplayName := DisplayName r;
     DisplayNameOverride := DisplayNameOverride r; AvatarURL := AvatarURL r;
     Domain := Domain r; RoomID := RoomID r; Status := Status r; Remark := v;
     RequestID := RequestID r |}.
Definition set_RequestID (v : string) (r : ContactRecord) : ContactRecord :=
  {| PeerMXID := PeerMXID r; DisplayName := DisplayName r;
     DisplayNameOverride := DisplayNameOverride r; AvatarURL := AvatarURL r;
     Domain := Domain r; RoomID := RoomID r; Status := Status r;
     Remark := Remark r; RequestID := v |}.
Definition set_PeerMXID (v : string) (r : ContactRecord) : ContactRecord :=
  {| PeerMXID := v; DisplayName := DisplayName r; DisplayNameOverride := DisplayNameOverride r;
     AvatarURL := AvatarURL r; Domain := Domain r; RoomID := RoomID r;
     Status := Status r; Remark := Remark r; RequestID := RequestID r |}.
#[global] Instance ContactRecord_eq_dec : EqDecision ContactRecord.
Proof. solve_decision. Defined.
End Contact.

Module Chan.
Record Channel := mk {
  ChannelID : string;
  RoomID : string;
  Name : string;
  Description : string;
  AvatarURL : string;
  Visibility : string;
  JoinPolicy : string;
  ChannelType : string;
  CommentsEnabled : bool;
  Muted : bool;
  MemberCount : Z;
  PendingJoinCount : Z;
  IsOwned : bool;
  Role : string;
  MemberStatus : string;
}.
Definition set_MemberCount (v : Z) (r : Channel) : Channel :=
  {| ChannelID := ChannelID r; RoomID := RoomID r; Name := Name r; Description :=
     Description r; AvatarURL := AvatarURL r; Visibility := Visibility r; JoinPolicy :=
     JoinPolicy r; ChannelType := ChannelType r; CommentsEnabled := CommentsEnabled r;
     Muted := Muted r; MemberCount := v; PendingJoinCount := PendingJoinCount r; IsOwned
     := IsOwned r; Role := Role r; MemberStatus := MemberStatus r |}.
Definition set_PendingJoinCount (v : Z) (r : Channel) : Channel :=
  {| ChannelID := ChannelID r; RoomID := RoomID r; Name := Name r; Description :=
     Description r; AvatarURL := AvatarURL r; Visibility := Visibility r; JoinPolicy :=
     JoinPolicy r; ChannelType := ChannelType r; CommentsEnabled := CommentsEnabled r;
     Muted := Muted r; MemberCount := MemberCount r; PendingJoinCount := v; IsOwned :=
     IsOwned r; Role := Role r; MemberStatus := MemberStatus r |}.
Definition set_Muted (v : bool) (r : Channel) : Channel :=
  {| ChannelID := ChannelID r; RoomID := RoomID r; Name := Name r;
     Description := Description r; AvatarURL := AvatarURL r; Visibility := Visibility r;
     JoinPolicy := JoinPolicy r; ChannelType := ChannelType r;
     CommentsEnabled := CommentsEnabled r; Muted := v; MemberCount := MemberCount r;
     PendingJoinCount := PendingJoinCount r; IsOwned := IsOwned r; Role := Role r;
     MemberStatus := MemberStatus r |}.
Definition set_RoomID (v : string) (r : Channel) : Channel :=
  {| ChannelID := ChannelID r; RoomID := v; Name := Name r;
     Description := Description r; AvatarURL := AvatarURL r; Visibility := Visibility r;
     JoinPolicy := JoinPolicy r; ChannelType := ChannelType r;
     CommentsEnabled := CommentsEnabled r; Muted := Muted r; MemberCount := MemberCount r;
     PendingJoinCount := PendingJoinCount r; IsOwned := IsOwned r; Role := Role r;
     MemberStatus := MemberStatus r |}.
Definition set_Role (v : string) (r : Channel) : Channel :=
  {| ChannelID := ChannelID r; RoomID := RoomID r; Name := Name r;
     Description := Description r; AvatarURL := AvatarURL r;
     Visibility := Visibility r; JoinPolicy := JoinPolicy r;
     ChannelType := ChannelType r; CommentsEnabled := CommentsEnabled r;
     Muted := Muted r; MemberCount := MemberCount r;
     PendingJoinCount := PendingJoinCount r; IsOwned := IsOwned r; Role := v;
     MemberStatus := MemberStatus r |}.
Definition set_MemberStatus (v : string) (r : Channel) : Channel :=
  {| ChannelID := ChannelID r; RoomID := RoomID r; Name := Name r;
     Description := Description r; AvatarURL := AvatarURL r;
     Visibility := Visibility r; JoinPolicy := JoinPolicy r;
     ChannelType := ChannelType r; CommentsEnabled := CommentsEnabled r;
     Muted := Muted r; MemberCount := MemberCount r;
     PendingJoinCount := PendingJoinCount r; IsOwned := IsOwned r; Role := Role r;
     MemberStatus := v |}.
Definition set_IsOwned (v : bool) (r : Channel) : Channel :=
  {| ChannelID := ChannelID r; RoomID := RoomID r; Name := Name r;
     Description := Description r; AvatarURL := AvatarURL r;
     Visibility := Visibility r; JoinPolicy := JoinPolicy r;
     ChannelType := ChannelType r; CommentsEnabled := CommentsEnabled r;
     Muted := Muted r; MemberCount := MemberCount r;
     PendingJoinCount := PendingJoinCount r; IsOwned := v; Role := Role r;
     MemberStatus := MemberStatus r |}.
#[global] Instance Channel_eq_dec : EqDecision Channel.
Proof. solve_decision. Defined.
End Chan.

Module Post.
Record ChannelPostRecord := mk {
  PostID : string;
  ChannelID : string;
  RoomID : string;
  EventID : string;
  AuthorMXID : string;
  AuthorName : string;
  Title : string;
  Body : string;
  MessageType : string;
  MediaJSON : string;
  Visibility : string;
  CommentsEnabled : bool;
  CommentsEnabledSet : bool;
  SettingsUpdated : bool;
  OriginServerTS : Z;
  CommentCount : Z;
}.
Definition set_Visibility (v : string) (r : ChannelPostRecord) : ChannelPostRecord :=
  {| PostID := PostID r; ChannelID := ChannelID r; RoomID := RoomID r;
     EventID := EventID r; AuthorMXID := AuthorMXID r; AuthorName := AuthorName r;
     Title := Title r; Body := Body r; MessageType := MessageType r;
     MediaJSON := MediaJSON r; Visibility := v;
     CommentsEnabled := CommentsEnabled r;
     CommentsEnabledSet := CommentsEnabledSet r;
     SettingsUpdated := SettingsUpdated r; OriginServerTS := OriginServerTS r;
     CommentCount := CommentCount r |}.
Definition set_CommentsEnabled (v : bool) (r : ChannelPostRecord) : ChannelPostRecord :=
  {| PostID := PostID r; ChannelID := ChannelID r; RoomID := RoomID r;
     EventID := EventID r; AuthorMXID := AuthorMXID r; AuthorName := AuthorName r;
     Title := Title r; Body := Body r; MessageType := MessageType r;
     MediaJSON := MediaJSON r; Visibility := Visibility r; CommentsEnabled := v;
     CommentsEnabledSet := CommentsEnabledSet r;
     SettingsUpdated := SettingsUpdated r; OriginServerTS := OriginServerTS r;
     CommentCount := CommentCount r |}.
Definition set_CommentsEnabledSet (v : bool) (r : ChannelPostRecord) : ChannelPostRecord :=
  {| PostID := PostID r; ChannelID := ChannelID r; RoomID := RoomID r;
     EventID := EventID r; AuthorMXID := AuthorMXID r; AuthorName := AuthorName r;
     Title := Title r; Body := Body r; MessageType := MessageType r;
     MediaJSON := MediaJSON r; Visibility := Visibility r;
     CommentsEnabled := CommentsEnabled r; CommentsEnabledSet := v;
     SettingsUpdated := SettingsUpdated r; OriginServerTS := OriginServerTS r;
     CommentCount := CommentCount r |}.
Definition set_SettingsUpdated (v : bool) (r : ChannelPostRecord) : ChannelPostRecord :=
  {| PostID := PostID r; ChannelID := ChannelID r; RoomID := RoomID r;
     EventID := EventID r; AuthorMXID := AuthorMXID r; AuthorName := AuthorName r;
     Title := Title r; Body := Body r; MessageType := MessageType r;
     MediaJSON := MediaJSON r; Visibility := Visibility r;
     CommentsEnabled := CommentsEnabled r;
     CommentsEnabledSet := CommentsEnabledSet r; SettingsUpdated := v;
     OriginServerTS := OriginServerTS r; CommentCount := CommentCount r |}.
#[global] Instance ChannelPostRecord_eq_dec : EqDecision ChannelPostRecord.
Proof. solve_decision. Defined.
End Post.

Module PostSettings.
Record ChannelPostSettingsRecord := mk {
  PostID : string;
  ChannelID : string;
  RoomID : string;
  PostEventID : string;
  Visibility : string;
  CommentsEnabled : bool;
  UpdatedAt : Z;
}.
#[global] Instance ChannelPostSettingsRecord_eq_dec : EqDecision ChannelPostSettingsRecord.
Proof. solve_decision. Defined.
End PostSettings.

Module Comment.
Record ChannelCommentRecord := mk {
  CommentID : string;
  PostID : string;
  ChannelID : string;
  EventID : string;
  AuthorMXID : string;
  AuthorName : string;
  Body : string;
  MessageType : string;
  MediaJSON : string;
  ReplyToCommentID : string;
  ReplyToAuthorMXID : string;
  MentionsJSON : string;
  OriginServerTS : Z;
}.
#[global] Instance ChannelCommentRecord_eq_dec : EqDecision ChannelCommentRecord.
Proof. solve_decision. Defined.
End Comment.

Module Group.
Record GroupRecord := mk {
  RoomID : string;
  Name : string;
  Topic : string;
  AvatarURL : string;
  MemberCount : Z;
  InvitePolicy : string;
  Muted : bool;
}.
Definition set_MemberCount (v : Z) (r : GroupRecord) : GroupRecord :=
  {| RoomID := RoomID r; Name := Name r; Topic := Topic r; AvatarURL := AvatarURL r;
     MemberCount := v; InvitePolicy := InvitePolicy r; Muted := Muted r |}.
Definition set_Muted (v : bool) (r : GroupRecord) : GroupRecord :=
  {| RoomID := RoomID r; Name := Name r; Topic := Topic r; AvatarURL := AvatarURL r;
     MemberCount := MemberCount r; InvitePolicy := InvitePolicy r; Muted := v |}.
Definition set_InvitePolicy (v : string) (r : GroupRecord) : GroupRecord :=
  {| RoomID := RoomID r; Name := Name r; Topic := Topic r; AvatarURL := AvatarURL r;
     MemberCount := MemberCount r; InvitePolicy := v; Muted := Muted r |}.
#[global] Instance GroupRecord_eq_dec : EqDecision GroupRecord.
Proof. solve_decision. Defined.
End Group.

Module Member.
Record MemberRecord := mk {
  RoomID : string;
  ChannelID : string;
  UserID : string;
  DisplayName : string;
  AvatarURL : string;
  Domain : string;
  Membership : string;
  Role : string;
  Muted : bool;
  JoinedAt : Z;
  RequesterNodeBaseURL : string;
  RequestID : string;
}.
Definition set_RoomID (v : string) (r : MemberRecord) : MemberRecord :=
  {| RoomID := v; ChannelID := ChannelID r; UserID := UserID r;
     DisplayName := DisplayName r; AvatarURL := AvatarURL r; Domain := Domain r;
     Membership := Membership r; Role := Role r; Muted := Muted r;
     JoinedAt := JoinedAt r; RequesterNodeBaseURL := RequesterNodeBaseURL r;
     RequestID := RequestID r |}.
Definition set_ChannelID (v : string) (r : MemberRecord) : MemberRecord :=
  {| RoomID := RoomID r; ChannelID := v; UserID := UserID r;
     DisplayName := DisplayName r; AvatarURL := AvatarURL r; Domain := Domain r;
     Membership := Membership r; Role := Role r; Muted := Muted r;
     JoinedAt := JoinedAt r; RequesterNodeBaseURL := RequesterNodeBaseURL r;
     RequestID := RequestID r |}.
Definition set_UserID (v : string) (r : MemberRecord) : MemberRecord :=
  {| RoomID := RoomID r; ChannelID := ChannelID r; UserID := v;
     DisplayName := DisplayName r; AvatarURL := AvatarURL r; Domain := Domain r;
     Membership := Membership r; Role := Role r; Muted := Muted r;
     JoinedAt := JoinedAt r; RequesterNodeBaseURL := RequesterNodeBaseURL r;
     RequestID := RequestID r |}.
Definition set_DisplayName (v : string) (r : MemberRecord) : MemberRecord :=
  {| RoomID := RoomID r; ChannelID := ChannelID r; UserID := UserID r;
     DisplayName := v; AvatarURL := AvatarURL r; Domain := Domain r;
     Membership := Membership r; Role := Role r; Muted := Muted r;
     JoinedAt := JoinedAt r; RequesterNodeBaseURL := RequesterNodeBaseURL r;
     RequestID := RequestID r |}.
Definition set_AvatarURL (v : string) (r : MemberRecord) : MemberRecord :=
  {| RoomID := RoomID r; ChannelID := ChannelID r; UserID := UserID r;
     DisplayName := DisplayName r; AvatarURL := v; Domain := Domain r;
     Membership := Membership r; Role := Role r; Muted := Muted r;
     JoinedAt := JoinedAt r; RequesterNodeBaseURL := RequesterNodeBaseURL r;
     RequestID := RequestID r |}.
Definition set_Domain (v : string) (r : MemberRecord) : MemberRecord :=
  {| RoomID := RoomID r; ChannelID := ChannelID r; UserID := UserID r;
     DisplayName := DisplayName r; AvatarURL := AvatarURL r; Domain := v;
     Membership := Membership r; Role := Role r; Muted := Muted r;
     JoinedAt := JoinedAt r; RequesterNodeBaseURL := RequesterNodeBaseURL r;
     RequestID := RequestID r |}.
Definition set_Membership (v : string) (r : MemberRecord) : MemberRecord :=
  {| RoomID := RoomID r; ChannelID := ChannelID r; UserID := UserID r;
     DisplayName := DisplayName r; AvatarURL := AvatarURL r; Domain := Domain r;
     Membership := v; Role := Role r; Muted := Muted r; JoinedAt := JoinedAt r;
     RequesterNodeBaseURL := RequesterNodeBaseURL r; RequestID := RequestID r |}.
Definition set_Role (v : string) (r : MemberRecord) : MemberRecord :=
  {| RoomID := RoomID r; ChannelID := ChannelID r; UserID := UserID r;
     DisplayName := DisplayName r; AvatarURL := AvatarURL r; Domain := Domain r;
     Membership := Membership r; Role := v; Muted := Muted r;
     JoinedAt := JoinedAt r; RequesterNodeBaseURL := RequesterNodeBaseURL r;
     RequestID := RequestID r |}.
Definition set_Muted (v : bool) (r : MemberRecord) : MemberRecord :=
  {| RoomID := RoomID r; ChannelID := ChannelID r; UserID := UserID r;
     DisplayName := DisplayName r; AvatarURL := AvatarURL r; Domain := Domain r;
     Membership := Membership r; Role := Role r; Muted := v;
     JoinedAt := JoinedAt r; RequesterNodeBaseURL := RequesterNodeBaseURL r;
     RequestID := RequestID r |}.
Definition set_JoinedAt (v : Z) (r : MemberRecord) : MemberRecord :=
  {| RoomID := RoomID r; ChannelID := ChannelID r; UserID := UserID r;
     DisplayName := DisplayName r; AvatarURL := AvatarURL r; Domain := Domain r;
     Membership := Membership r; Role := Role r; Muted := Muted r; JoinedAt := v;
     RequesterNodeBaseURL := RequesterNodeBaseURL r; RequestID := RequestID r |}.
Definition set_RequesterNodeBaseURL (v : string) (r : MemberRecord) : MemberRecord :=
  {| RoomID := RoomID r; ChannelID := ChannelID r; UserID := UserID r;
     DisplayName := DisplayName r; AvatarURL := AvatarURL r; Domain := Domain r;
     Membership := Membership r; Role := Role r; Muted := Muted r;
     JoinedAt := JoinedAt r; RequesterNodeBaseURL := v; RequestID := RequestID r |}.
Definition set_RequestID (v : string) (r : MemberRecord) : MemberRecord :=
  {| RoomID := RoomID r; ChannelID := ChannelID r; UserID := UserID r;
     DisplayName := DisplayName r; AvatarURL := AvatarURL r; Domain := Domain r;
     Membership := Membership r; Role := Role r; Muted := Muted r;
     JoinedAt := JoinedAt r; RequesterNodeBaseURL := RequesterNodeBaseURL r;
     RequestID := v |}.
#[global] Instance MemberRecord_eq_dec : EqDecision MemberRecord.
Proof. solve_decision. Defined.
End Member.

Module Marker.
Record ReadMarker := mk {
  RoomID : string;
  EventID : string;
  OriginServerTS : Z;
  TopologicalPosition : Z;
  StreamPosition : Z;
}.
#[global] Instance ReadMarker_eq_dec : EqDecision ReadMarker.
Proof. solve_decision. Defined.
End Marker.

Module Grant.
Record ChannelInviteGrant := mk {
  GrantID : string;
  ChannelID : string;
  RoomID : string;
  ShareRoomID : string;
  CreatedBy : string;
  CreatedAt : Z;
}.
#[global] Instance ChannelInviteGrant_eq_dec : EqDecision ChannelInviteGrant.
Proof. solve_decision. Defined.
End Grant.

Module Block.
Record BlockRecord := mk {
  TargetType : string;
  TargetID : string;
  RoomID : string;
  ChannelID : string;
  PeerMXID : string;
  DisplayName : string;
  AvatarURL : string;
  CreatedAt : Z;
}.
Definition set_TargetType (v : string) (r : BlockRecord) : BlockRecord :=
  {| TargetType := v; TargetID := TargetID r; RoomID := RoomID r;
     ChannelID := ChannelID r; PeerMXID := PeerMXID r;
     DisplayName := DisplayName r; AvatarURL := AvatarURL r;
     CreatedAt := CreatedAt r |}.
Definition set_TargetID (v : string) (r : BlockRecord) : BlockRecord :=
  {| TargetType := TargetType r; TargetID := v; RoomID := RoomID r;
     ChannelID := ChannelID r; PeerMXID := PeerMXID r;
     DisplayName := DisplayName r; AvatarURL := AvatarURL r;
     CreatedAt := CreatedAt r |}.
Definition set_RoomID (v : string) (r : BlockRecord) : BlockRecord :=
  {| TargetType := TargetType r; TargetID := TargetID r; RoomID := v;
     ChannelID := ChannelID r; PeerMXID := PeerMXID r;
     DisplayName := DisplayName r; AvatarURL := AvatarURL r;
     CreatedAt := CreatedAt r |}.
Definition set_ChannelID (v : string) (r : BlockRecord) : BlockRecord :=
  {| TargetType := TargetType r; TargetID := TargetID r; RoomID := RoomID r;
     ChannelID := v; PeerMXID := PeerMXID r; DisplayName := DisplayName r;
     AvatarURL := AvatarURL r; CreatedAt := CreatedAt r |}.
Definition set_PeerMXID (v : string) (r : BlockRecord) : BlockRecord :=
  {| TargetType := TargetType r; TargetID := TargetID r; RoomID := RoomID r;
     ChannelID := ChannelID r; PeerMXID := v; DisplayName := DisplayName r;
     AvatarURL := AvatarURL r; CreatedAt := CreatedAt r |}.
Definition set_DisplayName (v : string) (r : BlockRecord) : BlockRecord :=
  {| TargetType := TargetType r; TargetID := TargetID r; RoomID := RoomID r;
     ChannelID := ChannelID r; PeerMXID := PeerMXID r; DisplayName := v;
     AvatarURL := AvatarURL r; CreatedAt := CreatedAt r |}.
Definition set_AvatarURL (v : string) (r : BlockRecord) : BlockRecord :=
  {| TargetType := TargetType r; TargetID := TargetID r; RoomID := RoomID r;
     ChannelID := ChannelID r; PeerMXID := PeerMXID r;
     DisplayName := DisplayName r; AvatarURL := v; CreatedAt := CreatedAt r |}.
Definition set_CreatedAt (v : Z) (r : BlockRecord) : BlockRecord :=
  {| TargetType := TargetType r; TargetID := TargetID r; RoomID := RoomID r;
     ChannelID := ChannelID r; PeerMXID := PeerMXID r;
     DisplayName := DisplayName r; AvatarURL := AvatarURL r; CreatedAt := v |}.
#[global] Instance BlockRecord_eq_dec : EqDecision BlockRecord.
Proof. solve_decision. Defined.
End Block.

Module Call.
Record CallRecord := mk {
  CallID : string;
  RoomID : string;
  RoomType : string;
  MediaType : string;
  CreatedByMXID : string;
  State : string;
  CreatedAt : string;
  AnsweredAt : string;
  EndedAt : string;
  EndedByMXID : string;
  EndReason : string;
  DurationMS : Z;
}.
Definition set_MediaType (v : string) (r : CallRecord) : CallRecord :=
  {| CallID := CallID r; RoomID := RoomID r; RoomType := RoomType r;
     MediaType := v; CreatedByMXID := CreatedByMXID r; State := State r;
     CreatedAt := CreatedAt r; AnsweredAt := AnsweredAt r; EndedAt := EndedAt r;
     EndedByMXID := EndedByMXID r; EndReason := EndReason r;
     DurationMS := DurationMS r |}.
Definition set_State (v : string) (r : CallRecord) : CallRecord :=
  {| CallID := CallID r; RoomID := RoomID r; RoomType := RoomType r;
     MediaType := MediaType r; CreatedByMXID := CreatedByMXID r; State := v;
     CreatedAt := CreatedAt r; AnsweredAt := AnsweredAt r; EndedAt := EndedAt r;
     EndedByMXID := EndedByMXID r; EndReason := EndReason r;
     DurationMS := DurationMS r |}.
Definition set_AnsweredAt (v : string) (r : CallRecord) : CallRecord :=
  {| CallID := CallID r; RoomID := RoomID r; RoomType := RoomType r;
     MediaType := MediaType r; CreatedByMXID := CreatedByMXID r; State := State r;
     CreatedAt := CreatedAt r; AnsweredAt := v; EndedAt := EndedAt r;
     EndedByMXID := EndedByMXID r; EndReason := EndReason r;
     DurationMS := DurationMS r |}.
Definition set_EndedAt (v : string) (r : CallRecord) : CallRecord :=
  {| CallID := CallID r; RoomID := RoomID r; RoomType := RoomType r;
     MediaType := MediaType r; CreatedByMXID := CreatedByMXID r; State := State r;
     CreatedAt := CreatedAt r; AnsweredAt := AnsweredAt r; EndedAt := v;
     EndedByMXID := EndedByMXID r; EndReason := EndReason r;
     DurationMS := DurationMS r |}.
Definition set_EndedByMXID (v : string) (r : CallRecord) : CallRecord :=
  {| CallID := CallID r; RoomID := RoomID r; RoomType := RoomType r;
     MediaType := MediaType r; CreatedByMXID := CreatedByMXID r; State := State r;
     CreatedAt := CreatedAt r; AnsweredAt := AnsweredAt r; EndedAt := EndedAt r;
     EndedByMXID := v; EndReason := EndReason r; DurationMS := DurationMS r |}.
Definition set_EndReason (v : string) (r : CallRecord) : CallRecord :=
  {| CallID := CallID r; RoomID := RoomID r; RoomType := RoomType r;
     MediaType := MediaType r; CreatedByMXID := CreatedByMXID r; State := State r;
     CreatedAt := CreatedAt r; AnsweredAt := AnsweredAt r; EndedAt := EndedAt r;
     EndedByMXID := EndedByMXID r; EndReason := v; DurationMS := DurationMS r |}.
Definition set_DurationMS (v : Z) (r : CallRecord) : CallRecord :=
  {| CallID := CallID r; RoomID := RoomID r; RoomType := RoomType r;
     MediaType := MediaType r; CreatedByMXID := CreatedByMXID r; State := State r;
     CreatedAt := CreatedAt r; AnsweredAt := AnsweredAt r; EndedAt := EndedAt r;
     EndedByMXID := EndedByMXID r; EndReason := EndReason r; DurationMS := v |}.
#[global] Instance CallRecord_eq_dec : EqDecision CallRecord.
Proof. solve_decision. Defined.
End Call.

Module Favorite.
Record FavoriteRecord := mk {
  ID : Z;
  EventID : string;
  RoomID : string;
  SenderID : string;
  SenderName : string;
  Content : string;
  MessageType : string;
  OriginServerTS : Z;
  CreatedAt : string;
}.
#[global] Instance FavoriteRecord_eq_dec : EqDecision FavoriteRecord.
Proof. solve_decision. Defined.
End Favorite.

Module Follow.
Record FollowRecord := mk {
  Domain : string;
  CreatedAt : string;
}.
#[global] Instance FollowRecord_eq_dec : EqDecision FollowRecord.
Proof. solve_decision. Defined.
End Follow.

Module Reaction.
Record ReactionRecord := mk {
  EventID : string;
  TargetType : string;
  TargetID : string;
  ChannelID : string;
  PostID : string;
  CommentID : string;
  Reaction : string;
  UserID : string;
  Active : bool;
  CreatedAt : string;
}.
Definition set_Active (v : bool) (r : ReactionRecord) : ReactionRecord :=
  {| EventID := EventID r; TargetType := TargetType r; TargetID := TargetID r;
     ChannelID := ChannelID r; PostID := PostID r; CommentID := CommentID r;
     Reaction := Reaction r; UserID := UserID r; Active := v;
     CreatedAt := CreatedAt r |}.
#[global] Instance ReactionRecord_eq_dec : EqDecision ReactionRecord.
Proof. solve_decision. Defined.
End Reaction.

Module Event.
Record EventRecord := mk {
  Seq : Z;
  Type_ : string;
  RoomID : string;
  EventID : string;
  DedupeKey : string;
  Payload : gmap string any;
  CreatedAt : string;
}.
Definition set_Seq (v : Z) (r : EventRecord) : EventRecord :=
  {| Seq := v; Type_ := Type_ r; RoomID := RoomID r; EventID := EventID r;
     DedupeKey := DedupeKey r; Payload := Payload r; CreatedAt := CreatedAt r |}.
Definition set_DedupeKey (v : string) (r : EventRecord) : EventRecord :=
  {| Seq := Seq r; Type_ := Type_ r; RoomID := RoomID r; EventID := EventID r;
     DedupeKey := v; Payload := Payload r; CreatedAt := CreatedAt r |}.
Definition set_CreatedAt (v : string) (r : EventRecord) : EventRecord :=
  {| Seq := Seq r; Type_ := Type_ r; RoomID := RoomID r; EventID := EventID r;
     DedupeKey := DedupeKey r; Payload := Payload r; CreatedAt := v |}.
End Event.

Module Bounds.
Record EventBounds := mk {
  MinSeq : Z;
  MaxSeq : Z;
  Count : Z;
}.
#[global] Instance EventBounds_eq_dec : EqDecision EventBounds.
Proof. solve_decision. Defined.
End Bounds.

Module Conv.
Record ConversationRecord := mk {
  ConversationID : string;
  MatrixRoomID : string;
  Kind : string;
  Lifecycle : string;
  CreatedByMXID : string;
  PeerMXID : string;
  Title : string;
  AvatarURL : string;
  LastEventID : string;
  LastMessage : string;
  LastActivityAt : Z;
  ProjectionState : string;
  ProjectionReason : string;
  CreatedAt : Z;
  UpdatedAt : Z;
}.
Definition set_ConversationID (v : string) (r : ConversationRecord) : ConversationRecord :=
  {| ConversationID := v; MatrixRoomID := MatrixRoomID r; Kind := Kind r;
     Lifecycle := Lifecycle r; CreatedByMXID := CreatedByMXID r;
     PeerMXID := PeerMXID r; Title := Title r; AvatarURL := AvatarURL r;
     LastEventID := LastEventID r; LastMessage := LastMessage r;
     LastActivityAt := LastActivityAt r; ProjectionState := ProjectionState r;
     ProjectionReason := ProjectionReason r; CreatedAt := CreatedAt r;
     UpdatedAt := UpdatedAt r |}.
Definition set_CreatedByMXID (v : string) (r : ConversationRecord) : ConversationRecord :=
  {| ConversationID := ConversationID r; MatrixRoomID := MatrixRoomID r;
     Kind := Kind r; Lifecycle := Lifecycle r; CreatedByMXID := v;
     PeerMXID := PeerMXID r; Title := Title r; AvatarURL := AvatarURL r;
     LastEventID := LastEventID r; LastMessage := LastMessage r;
     LastActivityAt := LastActivityAt r; ProjectionState := ProjectionState r;
     ProjectionReason := ProjectionReason r; CreatedAt := CreatedAt r;
     UpdatedAt := UpdatedAt r |}.
Definition set_PeerMXID (v : string) (r : ConversationRecord) : ConversationRecord :=
  {| ConversationID := ConversationID r; MatrixRoomID := MatrixRoomID r;
     Kind := Kind r; Lifecycle := Lifecycle r; CreatedByMXID := CreatedByMXID r;
     PeerMXID := v; Title := Title r; AvatarURL := AvatarURL r;
     LastEventID := LastEventID r; LastMessage := LastMessage r;
     LastActivityAt := LastActivityAt r; ProjectionState := ProjectionState r;
     ProjectionReason := ProjectionReason r; CreatedAt := CreatedAt r;
     UpdatedAt := UpdatedAt r |}.
Definition set_Title (v : string) (r : ConversationRecord) : ConversationRecord :=
  {| ConversationID := ConversationID r; MatrixRoomID := MatrixRoomID r;
     Kind := Kind r; Lifecycle := Lifecycle r; CreatedByMXID := CreatedByMXID r;
     PeerMXID := PeerMXID r; Title := v; AvatarURL := AvatarURL r;
     LastEventID := LastEventID r; LastMessage := LastMessage r;
     LastActivityAt := LastActivityAt r; ProjectionState := ProjectionState r;
     ProjectionReason := ProjectionReason r; CreatedAt := CreatedAt r;
     UpdatedAt := UpdatedAt r |}.
Definition set_AvatarURL (v : string) (r : ConversationRecord) : ConversationRecord :=
  {| ConversationID := ConversationID r; MatrixRoomID := MatrixRoomID r;
     Kind := Kind r; Lifecycle := Lifecycle r; CreatedByMXID := CreatedByMXID r;
     PeerMXID := PeerMXID r; Title := Title r; AvatarURL := v;
     LastEventID := LastEventID r; LastMessage := LastMessage r;
     LastActivityAt := LastActivityAt r; ProjectionState := ProjectionState r;
     ProjectionReason := ProjectionReason r; CreatedAt := CreatedAt r;
     UpdatedAt := UpdatedAt r |}.
Definition set_LastEventID (v : string) (r : ConversationRecord) : ConversationRecord :=
  {| ConversationID := ConversationID r; MatrixRoomID := MatrixRoomID r;
     Kind := Kind r; Lifecycle := Lifecycle r; CreatedByMXID := CreatedByMXID r;
     PeerMXID := PeerMXID r; Title := Title r; AvatarURL := AvatarURL r;
     LastEventID := v; LastMessage := LastMessage r;
     LastActivityAt := LastActivityAt r; ProjectionState := ProjectionState r;
     ProjectionReason := ProjectionReason r; CreatedAt := CreatedAt r;
     UpdatedAt := UpdatedAt r |}.
Definition set_LastMessage (v : string) (r : ConversationRecord) : ConversationRecord :=
  {| ConversationID := ConversationID r; MatrixRoomID := MatrixRoomID r;
     Kind := Kind r; Lifecycle := Lifecycle r; CreatedByMXID := CreatedByMXID r;
     PeerMXID := PeerMXID r; Title := Title r; AvatarURL := AvatarURL r;
     LastEventID := LastEventID r; LastMessage := v;
     LastActivityAt := LastActivityAt r; ProjectionState := ProjectionState r;
     ProjectionReason := ProjectionReason r; CreatedAt := CreatedAt r;
     UpdatedAt := UpdatedAt r |}.
Definition set_LastActivityAt (v : Z) (r : ConversationRecord) : ConversationRecord :=
  {| ConversationID := ConversationID r; MatrixRoomID := MatrixRoomID r;
     Kind := Kind r; Lifecycle := Lifecycle r; CreatedByMXID := CreatedByMXID r;
     PeerMXID := PeerMXID r; Title := Title r; AvatarURL := AvatarURL r;
     LastEventID := LastEventID r; LastMessage := LastMessage r;
     LastActivityAt := v; ProjectionState := ProjectionState r;
     ProjectionReason := ProjectionReason r; CreatedAt := CreatedAt r;
     UpdatedAt := UpdatedAt r |}.
Definition set_CreatedAt (v : Z) (r : ConversationRecord) : ConversationRecord :=
  {| ConversationID := ConversationID r; MatrixRoomID := MatrixRoomID r;
     Kind := Kind r; Lifecycle := Lifecycle r; CreatedByMXID := CreatedByMXID r;
     PeerMXID := PeerMXID r; Title := Title r; AvatarURL := AvatarURL r;
     LastEventID := LastEventID r; LastMessage := LastMessage r;
     LastActivityAt := LastActivityAt r; ProjectionState := ProjectionState r;
     ProjectionReason := ProjectionReason r; CreatedAt := v;
     UpdatedAt := UpdatedAt r |}.
#[global] Instance ConversationRecord_eq_dec : EqDecision ConversationRecord.
Proof. solve_decision. Defined.
End Conv.

(** ** Helpers of [types.go] *)

Definition NormalizeMemberMembership (membership : string) : string :=
  let membership := to_lower (trim_space membership) in
  if str_eqb membership "joined" then "join" else membership.

Definition MemberMembershipJoined (membership : string) : bool :=
  equal_fold (trim_space membership) "join".

Definition NormalizeChannelPostVisibility (visibility : string) : string :=
  if equal_fold (trim_space visibility) "public" then "public" else "private".

Definition NormalizeBlockTargetType (value : string) : string :=
  if bool_decide (to_lower (trim_space value) ∈ ["friend"; "user"; "member"; "contact"])
  then "contact" else "".

Definition BlockKey (targetType targetID : string) : string :=
  NormalizeBlockTargetType targetType +:+ "|" +:+ trim_space targetID.

(** [FallbackString] (conversation.go) does not trim the value it returns. *)
Definition FallbackString (value fallback : string) : string :=
  if str_empty (trim_space value) then fallback else value.

Definition DisplayNameFromMXID (mxid : string) : string :=
  let localpart := trim_prefix mxid "@" in
  let localpart := match cut ":" localpart with
                   | Some (before, _) => before
                   | None => localpart
                   end in
  FallbackString localpart mxid.

(** With [index] the position of the first colon of [mxid] without its [@],
    [mxid[index+1:]] is what follows that colon. *)
Definition DomainFromMXID (mxid : string) : string :=
  match cut ":" (trim_prefix mxid "@") with
  | None => ""
  | Some (_, after) => after
  end.

Definition TerminalCallState (state : string) : bool :=
  bool_decide (to_lower (trim_space state) ∈ ["ended"; "rejected"; "missed"; "failed"]).

Definition MemberHidden (membership : string) : bool :=
  bool_decide (to_lower (trim_space membership) ∈
    ["leave"; "left"; "remove"; "removed"; "reject"; "rejected"; "ban"; "banned"]).

Definition ProductOwnerRole (role : string) : bool := equal_fold (trim_space role) "owner".

Definition NormalizeProductMemberRole (role : string) : string :=
  if ProductOwnerRole role then "owner" else "member".

(** ** Helpers of [conversation.go] *)

Definition ConversationIDForRoomID (roomID : string) : string :=
  "conv_" +:+ hex (take 12 (sha256 (trim_space roomID))).

Definition ContactDeleted (status : string) : bool :=
  equal_fold (trim_space status) "deleted".

(** [now] is [time.Now().UTC().UnixMilli()]. *)
Definition NormalizeConversationRecord (now : Z) (r : Conv.ConversationRecord)
    : Conv.ConversationRecord :=
  let conversationID := trim_space (Conv.ConversationID r) in
  let matrixRoomID := trim_space (Conv.MatrixRoomID r) in
  let createdAt := if (Conv.CreatedAt r <=? 0)%Z then now else Conv.CreatedAt r in
  {| Conv.ConversationID :=
       if str_empty conversationID && negb (str_empty matrixRoomID)
       then ConversationIDForRoomID matrixRoomID else conversationID;
     Conv.MatrixRoomID := matrixRoomID;
     Conv.Kind := Conv.Kind r;
     Conv.Lifecycle := if str_empty (Conv.Lifecycle r) then "active" else Conv.Lifecycle r;
     Conv.CreatedByMXID := trim_space (Conv.CreatedByMXID r);
     Conv.PeerMXID := trim_space (Conv.PeerMXID r);
     Conv.Title := trim_space (Conv.Title r);
     Conv.AvatarURL := trim_space (Conv.AvatarURL r);
     Conv.LastEventID := trim_space (Conv.LastEventID r);
     Conv.LastMessage := trim_space (Conv.LastMessage r);
     Conv.LastActivityAt := Conv.LastActivityAt r;
     Conv.ProjectionState :=
       if str_empty (Conv.ProjectionState r) then "ready" else Conv.ProjectionState r;
     Conv.ProjectionReason := trim_space (Conv.ProjectionReason r);
     Conv.CreatedAt := createdAt;
     Conv.UpdatedAt := if (Conv.UpdatedAt r <=? 0)%Z then createdAt else Conv.UpdatedAt r |}.

Definition ConversationFromContact (contact : Contact.ContactRecord) : Conv.ConversationRecord :=
  {| Conv.ConversationID := "";
     Conv.MatrixRoomID := Contact.RoomID contact;
     Conv.Kind := "direct";
     Conv.Lifecycle :=
       if ContactDeleted (Contact.Status contact) then "deleted"
       else if negb (equal_fold (Contact.Status contact) "accepted") then "pending"
       else "active";
     Conv.CreatedByMXID := "";
     Conv.PeerMXID := Contact.PeerMXID contact;
     Conv.Title := FallbackString (Contact.DisplayName contact) (Contact.PeerMXID contact);
     Conv.AvatarURL := Contact.AvatarURL contact;
     Conv.LastEventID := ""; Conv.LastMessage := ""; Conv.LastActivityAt := 0;
     Conv.ProjectionState := "ready"; Conv.ProjectionReason := "";
     Conv.CreatedAt := 0; Conv.UpdatedAt := 0 |}.

(** The values of [ConversationKind], [ConversationLifecycle] and
    [ConversationProjectionState]. *)
Definition ConversationKinds : list string := ["direct"; "group"; "channel"; "agent"; "system"].
Definition ConversationLifecycles : list string :=
  ["active"; "pending"; "left"; "dissolved"; "deleted"; "blocked"].
Definition ConversationProjectionStates : list string := ["ready"; "pending"; "conflict"; "failed"].

(** The record both [ConversationFromGroup] and [ConversationFromChannel] build. *)
Definition conversation_of (kind roomID title avatarURL : string) : Conv.ConversationRecord :=
  {| Conv.ConversationID := ""; Conv.MatrixRoomID := roomID; Conv.Kind := kind;
     Conv.Lifecycle := "active"; Conv.CreatedByMXID := ""; Conv.PeerMXID := "";
     Conv.Title := title; Conv.AvatarURL := avatarURL;
     Conv.LastEventID := ""; Conv.LastMessage := ""; Conv.LastActivityAt := 0;
     Conv.ProjectionState := "ready"; Conv.ProjectionReason := "";
     Conv.CreatedAt := 0; Conv.UpdatedAt := 0 |}.

Definition ConversationFromGroup (group : Group.GroupRecord) : Conv.ConversationRecord :=
  conversation_of "group" (Group.RoomID group) (Group.Name group) (Group.AvatarURL group).

Definition ConversationFromChannel (ch : Chan.Channel) : Conv.ConversationRecord :=
  conversation_of "channel" (Chan.RoomID ch) (Chan.Name ch) (Chan.AvatarURL ch).

(** ** Facts about the helpers *)

Lemma str_empty_true s : str_empty s = true <-> s = "".
Proof. apply bool_decide_eq_true. Qed.

Lemma str_empty_false s : str_empty s = false <-> s <> "".
Proof. apply bool_decide_eq_false. Qed.

Lemma trim_empty_trimmed s : trimmed s -> str_empty (trim_space s) = str_empty s.
Proof. by intros ->. Qed.

Lemma NormalizeProductMemberRole_cases role :
  NormalizeProductMemberRole role = "owner" \/ NormalizeProductMemberRole role = "member".
Proof. unfold NormalizeProductMemberRole. destruct (ProductOwnerRole role); auto. Qed.

Lemma NormalizeProductMemberRole_idemp role :
  NormalizeProductMemberRole (NormalizeProductMemberRole role) = NormalizeProductMemberRole role.
Proof. by destruct (NormalizeProductMemberRole_cases role) as [-> | ->]. Qed.
