(* ===== verification/GoTime.v ===== *)
(** * [time.Time] in UTC

    A time is its number of nanoseconds since the Unix epoch.  The file has
    the calendar and the [time.RFC3339Nano] rendering the product code uses. *)

From Stdlib Require Import Ascii String ZArith Lia.
From stdpp Require Import base tactics list strings pretty.
From S2P Require Import Prelude GoStrings Values.
Local Open Scope Z_scope.

Definition ns_per_s : Z := 1000000000.
Definition s_per_day : Z := 86400.

(** [time.UnixMilli(ms)], [t.UnixMilli()] and [t.UnixNano()] *)
Definition of_unix_milli (ms : Z) : Z := ms * 1000000.
Definition unix_milli (t : Z) : Z := t / 1000000.
Definition unix_nano (t : Z) : Z := t.

(** ** The proleptic Gregorian calendar, by eras of 400 years *)

(** Days since 1970-01-01 of a civil date. *)
Definition days_from_civil (y m d : Z) : Z :=
  let y := if m <=? 2 then y - 1 else y in
  let era := y / 400 in
  let yoe := y - era * 400 in
  let mp := if m <=? 2 then m + 9 else m - 3 in
  let doy := (153 * mp + 2) / 5 + d - 1 in
  let doe := yoe * 365 + yoe / 4 - yoe / 100 + doy in
  era * 146097 + doe - 719468.

Definition civil_from_days (days : Z) : Z * Z * Z :=
  let z := days + 719468 in
  let era := z / 146097 in
  let doe := z - era * 146097 in
  let yoe := (doe - doe / 1460 + doe / 36524 - doe / 146096) / 365 in
  let y := yoe + era * 400 in
  let doy := doe - (365 * yoe + yoe / 4 - yoe / 100) in
  let mp := (5 * doy + 2) / 153 in
  let d := doy - (153 * mp + 2) / 5 + 1 in
  let m := if mp <? 10 then mp + 3 else mp - 9 in
  (if m <=? 2 then y + 1 else y, m, d).

Definition is_leap (y : Z) : bool :=
  (y mod 4 =? 0) && (negb (y mod 100 =? 0) || (y mod 400 =? 0)).

Definition days_in_month (y m : Z) : Z :=
  if m =? 2 then (if is_leap y then 29 else 28)
  else if (m =? 4) || (m =? 6) || (m =? 9) || (m =? 11) then 30 else 31.

(** ** Digits *)

Definition digit (d : Z) : ascii := ascii_of_nat (Z.to_nat (d + 48)).

(** [n] decimal digits of a non-negative number, with leading zeros. *)
Fixpoint digits (n : nat) (x : Z) : bytes :=
  match n with
  | O => []
  | S n => digits n (x / 10) ++ [digit (x mod 10)]
  end.

(** The year: at least four digits. *)
Definition year_digits (y : Z) : bytes :=
  if (0 <=? y) && (y <? 10000) then digits 4 y
  else if y <? 0 then "-"%char :: (if - y <? 10000 then digits 4 (- y)
                                  else list_ascii_of_string (pretty (- y)))
  else list_ascii_of_string (pretty y).

Definition is_zero_digit (a : ascii) : bool := Ascii.eqb a "0".

(** Drop trailing zeros. *)
Definition trim_zeros (l : bytes) : bytes :=
  rev ((fix go l := match l with
                    | a :: l' => if is_zero_digit a then go l' else l
                    | [] => []
                    end) (rev l)).

(** [.999999999]: the fraction without trailing zeros, nothing when it is 0. *)
Definition fraction (ns : Z) : bytes :=
  if ns =? 0 then [] else "."%char :: trim_zeros (digits 9 ns).

(** [t.UTC().Format(time.RFC3339Nano)] *)
Definition format_bytes (t : Z) : bytes :=
  let secs := t / ns_per_s in
  let ns := t mod ns_per_s in
  let days := secs / s_per_day in
  let sod := secs mod s_per_day in
  let '(y, m, d) := civil_from_days days in
  year_digits y ++ ["-"%char] ++ digits 2 m ++ ["-"%char] ++ digits 2 d ++ ["T"%char] ++
  digits 2 (sod / 3600) ++ [":"%char] ++ digits 2 (sod / 60 mod 60) ++ [":"%char] ++
  digits 2 (sod mod 60) ++ fraction ns ++ ["Z"%char].

Definition format_rfc3339nano (t : Z) : string := string_of_list_ascii (format_bytes t).

Example format_ex1 : format_rfc3339nano 1767225600123000000 = "2026-01-01T00:00:00.123Z".
Proof. vm_compute. reflexivity. Qed.
Example format_ex2 : format_rfc3339nano 0 = "1970-01-01T00:00:00Z".
Proof. vm_compute. reflexivity. Qed.
Example format_ex3 : format_rfc3339nano 951782400000000000 = "2000-02-29T00:00:00Z".
Proof. vm_compute. reflexivity. Qed.
