(* ===== verification/GoTimeParse.v ===== *)
(** * Parsing [time.RFC3339Nano]

    [time.Parse(time.RFC3339Nano, s)] as the instant it denotes, with the
    leniencies of Go's parser (one digit hours, comma or period, any number
    of fraction digits, offsets up to 24:60), and the theorem that it reads
    back what formatting wrote. *)

From Stdlib Require Import Ascii String ZArith Lia.
From stdpp Require Import base tactics list strings.
From S2P Require Import Prelude GoStrings Values GoTime.
Local Open Scope Z_scope.

Definition is_digit (a : ascii) : bool := match digit_of a with Some _ => true | None => false end.

(** [getnum(s, fixed)]: one or two digits, exactly two when fixed. *)
Definition getnum (fixed : bool) (l : bytes) : option (Z * bytes) :=
  match l with
  | a :: rest =>
      match digit_of a with
      | None => None
      | Some x =>
          match rest with
          | b :: rest' =>
              match digit_of b with
              | Some y => Some (10 * x + y, rest')
              | None => if fixed then None else Some (x, rest)
              end
          | [] => if fixed then None else Some (x, rest)
          end
      end
  | [] => None
  end.

(** A four digit year. *)
Definition getyear (l : bytes) : option (Z * bytes) :=
  match l with
  | a :: b :: c :: d :: rest =>
      match digit_of a, digit_of b, digit_of c, digit_of d with
      | Some w, Some x, Some y, Some z => Some (1000 * w + 100 * x + 10 * y + z, rest)
      | _, _, _, _ => None
      end
  | _ => None
  end.

Definition skip (c : ascii) (l : bytes) : option bytes :=
  match l with
  | a :: rest => if Ascii.eqb a c then Some rest else None
  | [] => None
  end.

Definition comma_or_period (a : ascii) : bool := Ascii.eqb a "," || Ascii.eqb a ".".

(** The leading digits and the rest. *)
Fixpoint span_digits (l : bytes) : list Z * bytes :=
  match l with
  | a :: rest =>
      match digit_of a with
      | Some x => let '(xs, r) := span_digits rest in (x :: xs, r)
      | None => ([], l)
      end
  | [] => ([], l)
  end.

Definition number (xs : list Z) : Z := foldl (fun acc x => 10 * acc + x) 0 xs.

(** [parseNanoseconds]: at most nine digits count. *)
Definition nanoseconds (xs : list Z) : Z :=
  let xs := take 9 xs in number xs * 10 ^ (9 - Z.of_nat (length xs)).

Definition getfraction (l : bytes) : Z * bytes :=
  match l with
  | a :: (b :: _) as rest =>
      if comma_or_period a && is_digit b then
        let '(xs, r) := span_digits (tail l) in (nanoseconds xs, r)
      else (0, l)
  | _ => (0, l)
  end.

(** The offset in seconds east of UTC. *)
Definition getzone (l : bytes) : option (Z * bytes) :=
  match l with
  | a :: rest =>
      if Ascii.eqb a "Z" then Some (0, rest)
      else
        match rest with
        | h1 :: h2 :: c :: m1 :: m2 :: rest' =>
            if negb (Ascii.eqb c ":") then None
            else match getnum true [h1; h2], getnum true [m1; m2] with
                 | Some (hr, _), Some (mm, _) =>
                     if (24 <? hr) || (60 <? mm) then None
                     else if Ascii.eqb a "+" then Some ((hr * 60 + mm) * 60, rest')
                     else if Ascii.eqb a "-" then Some (- ((hr * 60 + mm) * 60), rest')
                     else None
                 | _, _ => None
                 end
        | _ => None
        end
  | [] => None
  end.

Definition in_range (lo hi x : Z) : option unit :=
  if (lo <=? x) && (x <=? hi) then Some () else None.

Definition instant (y m d hour minute sec ns offset : Z) : Z :=
  ((days_from_civil y m d * s_per_day + hour * 3600 + minute * 60 + sec) - offset) * ns_per_s + ns.

Definition parse_bytes (l : bytes) : option Z :=
  '(y, l) ← getyear l; l ← skip "-" l;
  '(m, l) ← getnum true l; _ ← in_range 1 12 m; l ← skip "-" l;
  '(d, l) ← getnum true l; l ← skip "T" l;
  '(hour, l) ← getnum false l; _ ← in_range 0 23 hour; l ← skip ":" l;
  '(minute, l) ← getnum true l; _ ← in_range 0 59 minute; l ← skip ":" l;
  '(sec, l) ← getnum true l; _ ← in_range 0 59 sec;
  let '(ns, l) := getfraction l in
  '(offset, l) ← getzone l;
  match l with
  | [] => _ ← in_range 1 (days_in_month y m) d;
          Some (instant y m d hour minute sec ns offset)
  | _ => None
  end.

Definition parse_rfc3339nano (s : string) : option Z := parse_bytes (list_ascii_of_string s).

Example parse_ex1 : parse_rfc3339nano "2026-01-01T00:00:00.123Z" = Some 1767225600123000000.
Proof. vm_compute. reflexivity. Qed.
Example parse_ex2 : parse_rfc3339nano "1970-01-01T2:00:00,5+02:00" = Some 500000000.
Proof. vm_compute. reflexivity. Qed.
Example parse_ex3 : parse_rfc3339nano "2001-02-29T00:00:00Z" = None.
Proof. vm_compute. reflexivity. Qed.

(** ** The calendar

    Within an era of 400 years (of 146097 days, starting on 1 March),
    [year_start] is the first day of a year and [year_of] the year of a day.
    [year_of] is monotone, so it is enough to check it at the ends of the 400
    years. *)

Definition year_start (yoe : Z) : Z := 365 * yoe + yoe / 4 - yoe / 100.
Definition year_of (doe : Z) : Z := (doe - doe / 1460 + doe / 36524 - doe / 146096) / 365.

Definition upto (n : nat) (p : Z -> bool) : bool := forallb (fun i => p (Z.of_nat i)) (seq 0 n).

Lemma upto_spec n p x : upto n p = true -> 0 <= x < Z.of_nat n -> p x = true.
Proof.
  unfold upto. rewrite forallb_forall. intros Hall Hx.
  rewrite <- (Z2Nat.id x) by lia. apply Hall, in_seq. lia.
Qed.

Definition year_end_day (yoe : Z) : Z := if yoe =? 399 then 146096 else year_start (yoe + 1) - 1.

Definition year_check (yoe : Z) : bool :=
  (year_of (year_start yoe) =? yoe) && (year_of (year_end_day yoe) =? yoe) &&
  (year_end_day yoe - year_start yoe <=? 365) &&
  ((year_end_day yoe - year_start yoe <=? 364) || is_leap (yoe + 1)).

Lemma years_checked : upto 400 year_check = true.
Proof. vm_compute. reflexivity. Qed.

Definition month_of (doy : Z) : Z := (5 * doy + 2) / 153.
Definition day_of (doy : Z) : Z := doy - (153 * month_of doy + 2) / 5 + 1.
Definition civil_month (mp : Z) : Z := if mp <? 10 then mp + 3 else mp - 9.

Definition month_check (doy : Z) : bool :=
  let m := civil_month (month_of doy) in
  (0 <=? month_of doy) && (month_of doy <=? 11) && (1 <=? day_of doy) &&
  (day_of doy <=? (if m =? 2 then (if doy =? 365 then 29 else 28)
                   else if (m =? 4) || (m =? 6) || (m =? 9) || (m =? 11) then 30 else 31)).

Lemma months_checked : upto 366 month_check = true.
Proof. vm_compute. reflexivity. Qed.

Lemma year_of_mono a b : 0 <= a <= b -> year_of a <= year_of b.
Proof.
  intros H. unfold year_of. apply Z.div_le_mono; [lia|].
  assert (Hs : forall n : nat, a - a / 1460 + a / 36524 - a / 146096 <=
    (a + Z.of_nat n) - (a + Z.of_nat n) / 1460 + (a + Z.of_nat n) / 36524
      - (a + Z.of_nat n) / 146096).
  { induction n as [|n IH]; [by rewrite Z.add_0_r|]. etrans; [exact IH|].
    rewrite Nat2Z.inj_succ. unfold Z.succ. rewrite Z.add_assoc.
    set (x := a + Z.of_nat n). assert (0 <= x) by lia. clearbody x. clear IH.
    Z.to_euclidean_division_equations. lia. }
  specialize (Hs (Z.to_nat (b - a))). rewrite Z2Nat.id in Hs by lia.
  replace (a + (b - a)) with b in Hs by lia. exact Hs.
Qed.

(** Every day of an era lies in the year [year_of] gives. *)
Lemma year_of_spec doe :
  0 <= doe < 146097 ->
  0 <= year_of doe < 400 /\ 0 <= doe - year_start (year_of doe) <= 365 /\
  (doe - year_start (year_of doe) = 365 -> is_leap (year_of doe + 1) = true).
Proof.
  intros Hdoe.
  assert (Hex : exists y : nat, (y < 400)%nat /\
    year_start (Z.of_nat y) <= doe <= year_end_day (Z.of_nat y)).
  { assert (Hs : forall n : nat, (n < 400)%nat -> year_start (Z.of_nat n) <= doe ->
      exists y : nat, (y < 400)%nat /\ year_start (Z.of_nat y) <= doe <= year_end_day (Z.of_nat y)).
    { intros n. remember (399 - n)%nat as k eqn:Hk. revert n Hk.
      induction k as [|k IH]; intros n Hk Hn Hle.
      - exists n. assert (n = 399%nat) as -> by lia. split; [lia|].
        replace (year_end_day (Z.of_nat 399)) with 146096 by reflexivity. lia.
      - destruct (Z_le_gt_dec (year_start (Z.of_nat n + 1)) doe) as [Hnext|Hgt].
        + apply (IH (S n)); [lia|lia|]. by rewrite Nat2Z.inj_succ.
        + exists n. split; [done|]. unfold year_end_day. rewrite (proj2 (Z.eqb_neq _ _)) by lia. lia. }
    apply (Hs 0%nat); [lia|]. replace (year_start _) with 0 by reflexivity. lia. }
  destruct Hex as (y & Hy & Hrange).
  assert (Hc := upto_spec _ _ (Z.of_nat y) years_checked ltac:(lia)).
  unfold year_check in Hc. go_bool.
  assert (Hyear : year_of doe = Z.of_nat y).
  { assert (0 <= year_start (Z.of_nat y)).
    { unfold year_start. clear. assert (0 <= Z.of_nat y) by lia.
      Z.to_euclidean_division_equations. lia. }
    pose proof (year_of_mono (year_start (Z.of_nat y)) doe).
    pose proof (year_of_mono doe (year_end_day (Z.of_nat y))). lia. }
  rewrite Hyear. split; [lia|]. split; [lia|]. intros H365.
  match goal with H : _ || _ = true |- _ => apply orb_true_iff in H as [H|H] end; go_bool; [lia|done].
Qed.

Lemma is_leap_era y era : is_leap (y + era * 400) = is_leap y.
Proof.
  unfold is_leap.
  replace ((y + era * 400) mod 4) with (y mod 4)
    by (replace (y + era * 400) with (y + (era * 100) * 4) by lia; by rewrite Z_mod_plus_full).
  replace ((y + era * 400) mod 100) with (y mod 100)
    by (replace (y + era * 400) with (y + (era * 4) * 100) by lia; by rewrite Z_mod_plus_full).
  by rewrite Z_mod_plus_full.
Qed.

Lemma civil_spec days :
  let '(y, m, d) := civil_from_days days in
  1 <= m <= 12 /\ 1 <= d <= days_in_month y m /\ days_from_civil y m d = days.
Proof.
  unfold civil_from_days. set (z := days + 719468). set (era := z / 146097).
  set (doe := z - era * 146097).
  assert (Hdoe : 0 <= doe < 146097).
  { unfold doe, era. pose proof (Z.mod_pos_bound z 146097). pose proof (Z.div_mod z 146097). lia. }
  change ((doe - doe / 1460 + doe / 36524 - doe / 146096) / 365) with (year_of doe).
  destruct (year_of_spec doe Hdoe) as (Hy & Hdoy & Hleap).
  unfold year_start in *. set (yoe := year_of doe) in *.
  set (doy := doe - (365 * yoe + yoe / 4 - yoe / 100)) in *.
  change ((5 * doy + 2) / 153) with (month_of doy).
  assert (Hm := upto_spec _ _ doy months_checked ltac:(lia)).
  unfold month_check in Hm. apply andb_true_iff in Hm as [Hm Hd].
  change (doy - (153 * month_of doy + 2) / 5 + 1) with (day_of doy).
  change (if month_of doy <? 10 then month_of doy + 3 else month_of doy - 9)
    with (civil_month (month_of doy)).
  assert (Hdd : day_of doy + (153 * month_of doy + 2) / 5 - 1 = doy) by (unfold day_of; lia).
  generalize dependent (day_of doy). intros d Hm Hd Hdd.
  generalize dependent (month_of doy). intros mp Hm Hd Hdd. go_bool.
  assert (Hcm : civil_month mp = mp + 3 /\ mp < 10 \/ civil_month mp = mp - 9 /\ 10 <= mp).
  { unfold civil_month. destruct (mp <? 10) eqn:E; go_bool; lia. }
  generalize dependent (civil_month mp). intros m Hd Hcm.
  split; [lia|]. split.
  - split; [lia|]. unfold days_in_month. destruct (m =? 2) eqn:E2; go_bool; [|done].
    rewrite (proj2 (Z.leb_le m 2)) by lia.
    replace (yoe + era * 400 + 1) with ((yoe + 1) + era * 400) by lia. rewrite is_leap_era.
    destruct (doy =? 365) eqn:E5; go_bool; [rewrite Hleap by done; lia|].
    destruct (is_leap (yoe + 1)); lia.
  - unfold days_from_civil.
    assert (Hyear : (if m <=? 2 then (if m <=? 2 then yoe + era * 400 + 1 else yoe + era * 400) - 1
      else if m <=? 2 then yoe + era * 400 + 1 else yoe + era * 400) = yoe + era * 400)
      by (destruct (m <=? 2); lia).
    rewrite Hyear. assert (Hera : (yoe + era * 400) / 400 = era)
      by (rewrite Z.div_add by lia; rewrite Z.div_small by lia; lia).
    rewrite Hera. replace (yoe + era * 400 - era * 400) with yoe by lia.
    replace (if m <=? 2 then m + 9 else m - 3) with mp
      by (destruct (m <=? 2) eqn:E; go_bool; lia).
    unfold doy, doe, z in *. lia.
Qed.

(** ** Digits *)

Lemma digit_of_digit d : 0 <= d <= 9 -> digit_of (digit d) = Some d.
Proof.
  intros Hd. assert (Hc : upto 10 (fun d => bool_decide (digit_of (digit d) = Some d)) = true)
    by (vm_compute; reflexivity).
  apply (upto_spec _ _ d) in Hc; [|lia]. by apply bool_decide_eq_true in Hc.
Qed.

Lemma mod10 x : 0 <= x mod 10 <= 9.
Proof. pose proof (Z.mod_pos_bound x 10). lia. Qed.

Lemma getnum_digits fixed x l :
  0 <= x < 100 -> getnum fixed (digits 2 x ++ l) = Some (x, l).
Proof.
  intros Hx. cbn. rewrite !digit_of_digit by (apply mod10).
  do 2 f_equal. Z.to_euclidean_division_equations. lia.
Qed.

Lemma getyear_digits x l :
  0 <= x < 10000 -> getyear (digits 4 x ++ l) = Some (x, l).
Proof.
  intros Hx. cbn. rewrite !digit_of_digit by (apply mod10).
  do 2 f_equal. Z.to_euclidean_division_equations. lia.
Qed.

(** Values of a run of digits. *)
Definition digit_values (n : nat) (x : Z) : list Z :=
  (fix go n x := match n with
                 | O => []
                 | S n => go n (x / 10) ++ [x mod 10]
                 end) n x.

Lemma digits_values n x : digits n x = digit <$> digit_values n x.
Proof.
  revert x. induction n as [|n IH]; intros x; [done|]. cbn. by rewrite IH, fmap_app.
Qed.

Lemma digit_values_range n x : Forall (fun d => 0 <= d <= 9) (digit_values n x).
Proof.
  revert x. induction n as [|n IH]; intros x; cbn; [constructor|].
  apply Forall_app. split; [apply IH|]. repeat constructor; apply mod10.
Qed.

Lemma digit_values_length n x : length (digit_values n x) = n.
Proof. revert x. induction n as [|n IH]; intros x; cbn; [done|]. rewrite length_app, IH. cbn. lia. Qed.

Lemma number_snoc xs x : number (xs ++ [x]) = 10 * number xs + x.
Proof. unfold number. by rewrite foldl_app. Qed.

Lemma number_values n x : 0 <= x < 10 ^ Z.of_nat n -> number (digit_values n x) = x.
Proof.
  revert x. induction n as [|n IH]; intros x Hx; [cbn in *; lia|]. cbn [digit_values].
  fold (digit_values n (x / 10)). rewrite number_snoc, IH.
  - pose proof (Z.div_mod x 10). lia.
  - rewrite Nat2Z.inj_succ, Z.pow_succ_r in Hx by lia. split; [apply Z.div_pos; lia|].
    apply Z.div_lt_upper_bound; lia.
Qed.

Lemma number_zeros xs k : number (xs ++ replicate k 0) = number xs * 10 ^ Z.of_nat k.
Proof.
  induction k as [|k IH]; [rewrite app_nil_r; cbn; lia|].
  rewrite replicate_S_end, app_assoc, number_snoc, IH, Nat2Z.inj_succ, Z.pow_succ_r by lia. lia.
Qed.

Lemma span_digits_values xs r :
  Forall (fun d => 0 <= d <= 9) xs ->
  match r with a :: _ => digit_of a = None | [] => True end ->
  span_digits ((digit <$> xs) ++ r) = (xs, r).
Proof.
  intros Hxs Hr. induction Hxs as [|x xs Hx _ IH]; cbn.
  - destruct r as [|a r]; [done|]. cbn. by rewrite Hr.
  - by rewrite digit_of_digit, IH.
Qed.

Lemma fmap_rev {A B} (f : A -> B) (l : list A) : f <$> rev l = rev (f <$> l).
Proof. induction l as [|x l IH]; cbn; [done|]. by rewrite fmap_app, IH. Qed.

(** Dropping trailing zeros of a run of digits. *)
Lemma trim_zeros_values xs :
  Forall (fun d => 0 <= d <= 9) xs ->
  exists ys k, xs = ys ++ replicate k 0 /\ trim_zeros (digit <$> xs) = digit <$> ys.
Proof.
  intros Hxs. assert (exists l, xs = rev l) as [l ->] by (exists (rev xs); by rewrite rev_involutive).
  unfold trim_zeros. rewrite <- fmap_rev, rev_involutive.
  apply Forall_rev in Hxs. rewrite rev_involutive in Hxs.
  induction Hxs as [|x l Hx _ IH]; [by exists [], 0%nat|]. cbn.
  assert (Hz : is_zero_digit (digit x) = (x =? 0)).
  { assert (Hc : upto 10 (fun d => Bool.eqb (is_zero_digit (digit d)) (d =? 0)) = true)
      by (vm_compute; reflexivity).
    apply (upto_spec _ _ x) in Hc; [|lia]. by apply Bool.eqb_prop in Hc. }
  rewrite Hz. destruct (x =? 0) eqn:E; go_bool.
  - destruct IH as (ys & k & Hys & Htrim). exists ys, (S k). subst x.
    rewrite replicate_S_end, app_assoc, <- Hys. done.
  - exists (rev l ++ [x]), 0%nat. cbn. rewrite app_nil_r. split; [done|].
    rewrite fmap_app, <- fmap_rev. done.
Qed.

Lemma getfraction_fraction ns l :
  0 <= ns < 10 ^ 9 -> getfraction (fraction ns ++ "Z"%char :: l) = (ns, "Z"%char :: l).
Proof.
  intros Hns. unfold fraction. destruct (ns =? 0) eqn:E0; go_bool.
  { subst ns. cbn. by destruct l. }
  rewrite digits_values.
  destruct (trim_zeros_values _ (digit_values_range 9 ns)) as (ys & k & Hys & ->).
  assert (Hlen := digit_values_length 9 ns). rewrite Hys, length_app, length_replicate in Hlen.
  assert (Hnum := number_values 9 ns ltac:(lia)). rewrite Hys, number_zeros in Hnum.
  assert (Hr := digit_values_range 9 ns). rewrite Hys in Hr. apply Forall_app in Hr as [Hr _].
  assert (Hspan := span_digits_values ys ("Z"%char :: l) Hr eq_refl).
  destruct ys as [|y ys]; [cbn in Hnum; lia|]. apply Forall_cons in Hr as [Hy _].
  cbn [app fmap list_fmap getfraction] in *.
  replace (is_digit (digit y)) with true by (unfold is_digit; by rewrite digit_of_digit).
  cbn [comma_or_period Ascii.eqb andb orb Bool.eqb tail]. rewrite Hspan. f_equal.
  unfold nanoseconds. rewrite take_ge by (cbn [length] in *; lia).
  rewrite <- Hnum at 1. f_equal. f_equal. lia.
Qed.

Definition year_of_time (t : Z) : Z := (civil_from_days (t / ns_per_s / s_per_day)).1.1.

(** Times whose year has four digits, all that RFC 3339 can write. *)
Definition four_digit_year (t : Z) : Prop := 0 <= year_of_time t < 10000.

Lemma in_range_ok lo hi x : lo <= x <= hi -> in_range lo hi x = Some ().
Proof.
  intros H. unfold in_range. rewrite (proj2 (Z.leb_le _ _)), (proj2 (Z.leb_le _ _)) by lia. done.
Qed.

Lemma parse_format t :
  four_digit_year t -> parse_rfc3339nano (format_rfc3339nano t) = Some t.
Proof.
  unfold four_digit_year, year_of_time, parse_rfc3339nano, format_rfc3339nano, format_bytes.
  intros Hyear. rewrite list_ascii_of_string_of_list_ascii.
  set (secs := t / ns_per_s) in *. set (sod := secs mod s_per_day).
  pose proof (civil_spec (secs / s_per_day)) as Hciv.
  destruct (civil_from_days (secs / s_per_day)) as [[y m] d]. destruct Hciv as (Hm & Hd & Hdays).
  cbn [fst] in Hyear. unfold year_digits.
  rewrite (proj2 (Z.leb_le _ _)), (proj2 (Z.ltb_lt _ _)) by lia. cbn [andb].
  assert (Hsod : 0 <= sod < 86400)
    by (unfold sod, s_per_day; pose proof (Z.mod_pos_bound secs 86400); lia).
  assert (Hdm : days_in_month y m <= 31).
  { unfold days_in_month. destruct (m =? 2); [destruct (is_leap y)|
      destruct ((m =? 4) || (m =? 6) || (m =? 9) || (m =? 11))]; lia. }
  assert (Hh : 0 <= sod / 3600 < 24) by (Z.to_euclidean_division_equations; lia).
  assert (Hmi : 0 <= sod / 60 mod 60 < 60) by (apply Z.mod_pos_bound; lia).
  assert (Hse : 0 <= sod mod 60 < 60) by (apply Z.mod_pos_bound; lia).
  assert (Hns : 0 <= t mod ns_per_s < 10 ^ 9) by (apply Z.mod_pos_bound; reflexivity).
  unfold parse_bytes. cbn [app].
  rewrite getyear_digits by lia. cbn [mbind option_bind skip Ascii.eqb Bool.eqb].
  rewrite getnum_digits by lia. cbn [mbind option_bind]. rewrite in_range_ok by lia.
  cbn [mbind option_bind skip Ascii.eqb Bool.eqb].
  rewrite getnum_digits by lia. cbn [mbind option_bind skip Ascii.eqb Bool.eqb].
  rewrite getnum_digits by lia. cbn [mbind option_bind]. rewrite in_range_ok by lia.
  cbn [mbind option_bind skip Ascii.eqb Bool.eqb].
  rewrite getnum_digits by lia. cbn [mbind option_bind]. rewrite in_range_ok by lia.
  cbn [mbind option_bind skip Ascii.eqb Bool.eqb].
  rewrite getnum_digits by lia. cbn [mbind option_bind]. rewrite in_range_ok by lia.
  cbn [mbind option_bind]. rewrite getfraction_fraction by done.
  cbn [getzone Ascii.eqb Bool.eqb mbind option_bind]. rewrite in_range_ok by lia.
  cbn [mbind option_bind]. f_equal. unfold instant. rewrite Hdays.
  assert (Ht : t = secs * ns_per_s + t mod ns_per_s)
    by (unfold secs; pose proof (Z.div_mod t ns_per_s ltac:(discriminate)); lia).
  assert (Hs : secs = secs / s_per_day * s_per_day + sod)
    by (unfold sod; pose proof (Z.div_mod secs s_per_day ltac:(discriminate)); lia).
  assert (Hhms : sod / 3600 * 3600 + sod / 60 mod 60 * 60 + sod mod 60 = sod).
  { clear -Hsod. Z.to_euclidean_division_equations. lia. }
  rewrite Ht at 2. f_equal. rewrite Hs at 2. lia.
Qed.

Lemma digit_plain d : 0 <= d <= 9 -> plain (digit d) = true.
Proof.
  intros Hd. assert (Hc : upto 10 (fun d => plain (digit d)) = true) by (vm_compute; reflexivity).
  by apply (upto_spec _ _ d) in Hc; [|lia].
Qed.

(** A formatted time has no white space at its ends. *)
Lemma format_trimmed t :
  four_digit_year t -> trim_space (format_rfc3339nano t) = format_rfc3339nano t.
Proof.
  unfold four_digit_year, year_of_time, format_rfc3339nano, format_bytes, trim_space.
  intros Hyear. destruct (civil_from_days _) as [[y m] d]. cbn [fst] in Hyear.
  unfold year_digits. rewrite (proj2 (Z.leb_le _ _)), (proj2 (Z.ltb_lt _ _)) by lia.
  rewrite list_ascii_of_string_of_list_ascii. f_equal. cbn [andb].
  change (digits 4 y) with (digit (y / 10 / 10 / 10 mod 10) ::
    [digit (y / 10 / 10 mod 10); digit (y / 10 mod 10); digit (y mod 10)]).
  rewrite !(app_assoc _ _ ["Z"%char]).
  lazymatch goal with
  | |- trim_bytes (((?a :: ?r) ++ ?x) ++ [?b]) = _ =>
      apply (trim_bytes_plain a (r ++ x) b); [apply digit_plain, mod10|done]
  end.
Qed.
