(* ===== verification/Policy.v ===== *)
(** * Product policy ([internal/productpolicy])

    Validation of Matrix client writes before they enter the roomserver: the
    state snapshot of a room ([resolveRoom]) and the three validators for
    events, redactions and membership changes.

    The roomserver is a parameter: a [CurrentStateQuerier] record whose
    optional methods are the Go type assertions.  The identifier parsers of
    gomatrixserverlib are the class [MatrixIDs]. *)

From Stdlib Require Import Ascii String ZArith Lia.
From stdpp Require Import base tactics list gmap strings.
From S2P Require Import Prelude GoStrings Values.
Local Open Scope go_scope.

(** ** Errors *)

Inductive goerror :=
| ErrRoomNoExists                             (* eventutil.ErrRoomNoExists *)
| PolicyError (Code : Z) (Message : string)
| ErrOther (message : string).

Definition error_text (e : goerror) : string :=
  match e with
  | ErrRoomNoExists => "room does not exist"
  | PolicyError _ message => message
  | ErrOther message => message
  end.

Definition Forbidden (message : string) : goerror := PolicyError 403 message.

Definition roomDoesNotExistError (e : goerror) : bool :=
  match e with
  | ErrRoomNoExists => true
  | _ =>
      let message := to_lower (error_text e) in
      contains message "room " &&
      (contains message "doesn't exist" || contains message "does not exist")
  end.

(** ** Constants, state keys *)

Definition DirextalkRoomTypeDirect := "io.dirextalk.room.direct".
Definition DirextalkRoomTypeGroup := "io.dirextalk.room.group".
Definition DirextalkRoomTypeChannel := "io.dirextalk.room.channel".
Definition DirextalkRoomProfileEventType := "io.dirextalk.room.profile".
Definition DirextalkMemberPolicyEventType := "io.dirextalk.member.policy".
Definition DirextalkJoinRequestEventType := "io.dirextalk.join_request".
Definition DirextalkChannelPostSettingsEventType := "io.dirextalk.channel.post.settings".
Definition MRoomCreate := "m.room.create".
Definition MRoomMember := "m.room.member".

Definition UserStateKey (mxid : string) : string := "user:" +:+ trim_space mxid.

Definition UserIDFromStateKey (stateKey : string) : string :=
  trim_prefix (trim_space stateKey) "user:".

(** ** Readers of dynamic content *)

Definition stringValue (value : any) : string :=
  match value with
  | ANil => ""
  | AString v => trim_space v
  | v => trim_space (sprint v)
  end.

Definition boolValue (value : any) : bool :=
  match value with
  | ABool v => v
  | AString v => bool_decide (to_lower (trim_space v) ∈ ["true"; "1"; "yes"])
  | AFloat64 v => f64_nonzero v
  | AInt v => negb (Z.eqb v 0)
  | _ => false
  end.

Definition isDirextalkRoomType (value : string) : bool :=
  bool_decide (trim_space value ∈
    [DirextalkRoomTypeDirect; DirextalkRoomTypeGroup; DirextalkRoomTypeChannel]).

(** ** The roomserver as the policy sees it *)

(** A state event: [Content] holds the entries of its content object, or the
    error of [json.Unmarshal] when it is not an object. *)
Record HeaderedEvent := {
  SenderID : string;
  EvStateKey : option string;
  Content : result goerror (list (string * any));
}.

Record QueryMembershipForUserResponse := {
  Membership : string;
  RoomExists : bool;
  HasBeenInRoom : bool;
  IsInRoom : bool;
}.

Abbreviation StateEvents := (gmap (string * string) HeaderedEvent).

Record CurrentStateQuerier := {
  QueryCurrentState : string -> list (string * string) -> bool -> result goerror StateEvents;
  QueryMembershipForUser : string -> string -> result goerror QueryMembershipForUserResponse;
  QueryUserIDForSender : option (string -> string -> result goerror (option string));
  InvitePending : option (string -> string -> result goerror bool);
  QueryEventsByID : string -> list string -> result goerror (list HeaderedEvent);
}.

(** Identifier parsers of gomatrixserverlib: [NewUserID(id, true)] with
    [UserID.String()], [NewRoomID] and [SplitID('@', id)]. *)
Class MatrixIDs := {
  NewUserID : string -> result goerror string;
  NewRoomID : string -> result goerror string;
  SplitID : string -> result goerror (string * string);
}.

Definition eventContent (event : option HeaderedEvent) : result goerror content :=
  match event with
  | None => Ok ∅
  | Some e => result_map object_map (Content e)
  end.

(** [roomPolicy]: what one snapshot of the room state says about the room and the sender. *)
Module RP.
Record roomPolicy := mk {
  Product : bool;
  RoomType : string;
  Dissolved : bool;
  CommentsEnabled : bool;
  InvitePolicy : string;
  JoinPolicy : string;
  DirectRequester : string;
  DirectTarget : string;
  SenderRole : string;
  SenderMuted : bool;
  SenderMembership : string;
  SenderJoined : bool;
  DirectPeerJoined : bool;
  JoinRequestStatus : string;
}.
Definition set_Product (v : bool) (r : roomPolicy) : roomPolicy :=
  {| Product := v; RoomType := RoomType r; Dissolved := Dissolved r;
     CommentsEnabled := CommentsEnabled r; InvitePolicy := InvitePolicy r;
     JoinPolicy := JoinPolicy r; DirectRequester := DirectRequester r;
     DirectTarget := DirectTarget r; SenderRole := SenderRole r;
     SenderMuted := SenderMuted r; SenderMembership := SenderMembership r;
     SenderJoined := SenderJoined r; DirectPeerJoined := DirectPeerJoined r;
     JoinRequestStatus := JoinRequestStatus r |}.
Definition set_RoomType (v : string) (r : roomPolicy) : roomPolicy :=
  {| Product := Product r; RoomType := v; Dissolved := Dissolved r;
     CommentsEnabled := CommentsEnabled r; InvitePolicy := InvitePolicy r;
     JoinPolicy := JoinPolicy r; DirectRequester := DirectRequester r;
     DirectTarget := DirectTarget r; SenderRole := SenderRole r;
     SenderMuted := SenderMuted r; SenderMembership := SenderMembership r;
     SenderJoined := SenderJoined r; DirectPeerJoined := DirectPeerJoined r;
     JoinRequestStatus := JoinRequestStatus r |}.
Definition set_Dissolved (v : bool) (r : roomPolicy) : roomPolicy :=
  {| Product := Product r; RoomType := RoomType r; Dissolved := v;
     CommentsEnabled := CommentsEnabled r; InvitePolicy := InvitePolicy r;
     JoinPolicy := JoinPolicy r; DirectRequester := DirectRequester r;
     DirectTarget := DirectTarget r; SenderRole := SenderRole r;
     SenderMuted := SenderMuted r; SenderMembership := SenderMembership r;
     SenderJoined := SenderJoined r; DirectPeerJoined := DirectPeerJoined r;
     JoinRequestStatus := JoinRequestStatus r |}.
Definition set_CommentsEnabled (v : bool) (r : roomPolicy) : roomPolicy :=
  {| Product := Product r; RoomType := RoomType r; Dissolved := Dissolved r;
     CommentsEnabled := v; InvitePolicy := InvitePolicy r;
     JoinPolicy := JoinPolicy r; DirectRequester := DirectRequester r;
     DirectTarget := DirectTarget r; SenderRole := SenderRole r;
     SenderMuted := SenderMuted r; SenderMembership := SenderMembership r;
     SenderJoined := SenderJoined r; DirectPeerJoined := DirectPeerJoined r;
     JoinRequestStatus := JoinRequestStatus r |}.
Definition set_InvitePolicy (v : string) (r : roomPolicy) : roomPolicy :=
  {| Product := Product r; RoomType := RoomType r; Dissolved := Dissolved r;
     CommentsEnabled := CommentsEnabled r; InvitePolicy := v;
     JoinPolicy := JoinPolicy r; DirectRequester := DirectRequester r;
     DirectTarget := DirectTarget r; SenderRole := SenderRole r;
     SenderMuted := SenderMuted r; SenderMembership := SenderMembership r;
     SenderJoined := SenderJoined r; DirectPeerJoined := DirectPeerJoined r;
     JoinRequestStatus := JoinRequestStatus r |}.
Definition set_JoinPolicy (v : string) (r : roomPolicy) : roomPolicy :=
  {| Product := Product r; RoomType := RoomType r; Dissolved := Dissolved r;
     CommentsEnabled := CommentsEnabled r; InvitePolicy := InvitePolicy r;
     JoinPolicy := v; DirectRequester := DirectRequester r;
     DirectTarget := DirectTarget r; SenderRole := SenderRole r;
     SenderMuted := SenderMuted r; SenderMembership := SenderMembership r;
     SenderJoined := SenderJoined r; DirectPeerJoined := DirectPeerJoined r;
     JoinRequestStatus := JoinRequestStatus r |}.
Definition set_DirectRequester (v : string) (r : roomPolicy) : roomPolicy :=
  {| Product := Product r; RoomType := RoomType r; Dissolved := Dissolved r;
     CommentsEnabled := CommentsEnabled r; InvitePolicy := InvitePolicy r;
     JoinPolicy := JoinPolicy r; DirectRequester := v;
     DirectTarget := DirectTarget r; SenderRole := SenderRole r;
     SenderMuted := SenderMuted r; SenderMembership := SenderMembership r;
     SenderJoined := SenderJoined r; DirectPeerJoined := DirectPeerJoined r;
     JoinRequestStatus := JoinRequestStatus r |}.
Definition set_DirectTarget (v : string) (r : roomPolicy) : roomPolicy :=
  {| Product := Product r; RoomType := RoomType r; Dissolved := Dissolved r;
     CommentsEnabled := CommentsEnabled r; InvitePolicy := InvitePolicy r;
     JoinPolicy := JoinPolicy r; DirectRequester := DirectRequester r;
     DirectTarget := v; SenderRole := SenderRole r; SenderMuted := SenderMuted r;
     SenderMembership := SenderMembership r; SenderJoined := SenderJoined r;
     DirectPeerJoined := DirectPeerJoined r;
     JoinRequestStatus := JoinRequestStatus r |}.
Definition set_SenderRole (v : string) (r : roomPolicy) : roomPolicy :=
  {| Product := Product r; RoomType := RoomType r; Dissolved := Dissolved r;
     CommentsEnabled := CommentsEnabled r; InvitePolicy := InvitePolicy r;
     JoinPolicy := JoinPolicy r; DirectRequester := DirectRequester r;
     DirectTarget := DirectTarget r; SenderRole := v;
     SenderMuted := SenderMuted r; SenderMembership := SenderMembership r;
     SenderJoined := SenderJoined r; DirectPeerJoined := DirectPeerJoined r;
     JoinRequestStatus := JoinRequestStatus r |}.
Definition set_SenderMuted (v : bool) (r : roomPolicy) : roomPolicy :=
  {| Product := Product r; RoomType := RoomType r; Dissolved := Dissolved r;
     CommentsEnabled := CommentsEnabled r; InvitePolicy := InvitePolicy r;
     JoinPolicy := JoinPolicy r; DirectRequester := DirectRequester r;
     DirectTarget := DirectTarget r; SenderRole := SenderRole r; SenderMuted := v;
     SenderMembership := SenderMembership r; SenderJoined := SenderJoined r;
     DirectPeerJoined := DirectPeerJoined r;
     JoinRequestStatus := JoinRequestStatus r |}.
Definition set_SenderMembership (v : string) (r : roomPolicy) : roomPolicy :=
  {| Product := Product r; RoomType := RoomType r; Dissolved := Dissolved r;
     CommentsEnabled := CommentsEnabled r; InvitePolicy := InvitePolicy r;
     JoinPolicy := JoinPolicy r; DirectRequester := DirectRequester r;
     DirectTarget := DirectTarget r; SenderRole := SenderRole r;
     SenderMuted := SenderMuted r; SenderMembership := v;
     SenderJoined := SenderJoined r; DirectPeerJoined := DirectPeerJoined r;
     JoinRequestStatus := JoinRequestStatus r |}.
Definition set_SenderJoined (v : bool) (r : roomPolicy) : roomPolicy :=
  {| Product := Product r; RoomType := RoomType r; Dissolved := Dissolved r;
     CommentsEnabled := CommentsEnabled r; InvitePolicy := InvitePolicy r;
     JoinPolicy := JoinPolicy r; DirectRequester := DirectRequester r;
     DirectTarget := DirectTarget r; SenderRole := SenderRole r;
     SenderMuted := SenderMuted r; SenderMembership := SenderMembership r;
     SenderJoined := v; DirectPeerJoined := DirectPeerJoined r;
     JoinRequestStatus := JoinRequestStatus r |}.
Definition set_DirectPeerJoined (v : bool) (r : roomPolicy) : roomPolicy :=
  {| Product := Product r; RoomType := RoomType r; Dissolved := Dissolved r;
     CommentsEnabled := CommentsEnabled r; InvitePolicy := InvitePolicy r;
     JoinPolicy := JoinPolicy r; DirectRequester := DirectRequester r;
     DirectTarget := DirectTarget r; SenderRole := SenderRole r;
     SenderMuted := SenderMuted r; SenderMembership := SenderMembership r;
     SenderJoined := SenderJoined r; DirectPeerJoined := v;
     JoinRequestStatus := JoinRequestStatus r |}.
Definition set_JoinRequestStatus (v : string) (r : roomPolicy) : roomPolicy :=
  {| Product := Product r; RoomType := RoomType r; Dissolved := Dissolved r;
     CommentsEnabled := CommentsEnabled r; InvitePolicy := InvitePolicy r;
     JoinPolicy := JoinPolicy r; DirectRequester := DirectRequester r;
     DirectTarget := DirectTarget r; SenderRole := SenderRole r;
     SenderMuted := SenderMuted r; SenderMembership := SenderMembership r;
     SenderJoined := SenderJoined r; DirectPeerJoined := DirectPeerJoined r;
     JoinRequestStatus := v |}.
#[global] Instance roomPolicy_eq_dec : EqDecision roomPolicy.
Proof. solve_decision. Defined.
End RP.


Definition SenderPrivileged (p : RP.roomPolicy) : bool :=
  equal_fold (trim_space (RP.SenderRole p)) "owner".

Definition DirectPeerInvite (p : RP.roomPolicy) (senderMXID targetMXID : string) : bool :=
  if negb (str_eqb (RP.RoomType p) DirextalkRoomTypeDirect) then false
  else
    let requester := trim_space (RP.DirectRequester p) in
    let target := trim_space (RP.DirectTarget p) in
    let senderMXID := trim_space senderMXID in
    let targetMXID := trim_space targetMXID in
    negb (str_empty requester) && negb (str_empty target) &&
    (str_eqb senderMXID requester && str_eqb targetMXID target ||
     str_eqb senderMXID target && str_eqb targetMXID requester).

Definition applyRoomPolicyContent (p : RP.roomPolicy) (c : content)
    (requireChannelComments : bool) : RP.roomPolicy :=
  let p := if has c "dissolved"
           then RP.set_Dissolved (boolValue (get c "dissolved")) p else p in
  let p := if str_eqb (RP.RoomType p) DirextalkRoomTypeChannel &&
              (has c "comments_enabled" || requireChannelComments)
           then RP.set_CommentsEnabled (boolValue (get c "comments_enabled")) p else p in
  let invitePolicy := stringValue (get c "invite_policy") in
  let p := if str_empty invitePolicy then p else RP.set_InvitePolicy invitePolicy p in
  let joinPolicy := stringValue (get c "join_policy") in
  let p := if str_empty joinPolicy then p else RP.set_JoinPolicy joinPolicy p in
  if str_eqb (RP.RoomType p) DirextalkRoomTypeDirect then
    let requester := stringValue (get c "requester_mxid") in
    let p := if str_empty requester then p else RP.set_DirectRequester requester p in
    let target := stringValue (get c "target_mxid") in
    if str_empty target then p else RP.set_DirectTarget target p
  else p.

Definition membershipValue (queryMembership stateMembership : string) : string :=
  if str_empty queryMembership then stateMembership else queryMembership.

Definition zeroPolicy : RP.roomPolicy :=
  {| RP.Product := false; RP.RoomType := ""; RP.Dissolved := false; RP.CommentsEnabled := false;
     RP.InvitePolicy := ""; RP.JoinPolicy := ""; RP.DirectRequester := ""; RP.DirectTarget := "";
     RP.SenderRole := ""; RP.SenderMuted := false; RP.SenderMembership := "";
     RP.SenderJoined := false; RP.DirectPeerJoined := false; RP.JoinRequestStatus := "" |}.

Definition defaultPolicy : RP.roomPolicy :=
  RP.set_SenderRole "member" (RP.set_JoinPolicy "invite" (RP.set_InvitePolicy "member"
    (RP.set_CommentsEnabled true zeroPolicy))).

Section Policy.
Context `{MatrixIDs} `{GoRange}.

Definition IsNativeYingMXID (mxid : string) : bool :=
  match SplitID mxid with
  | Ok (local_, _) => str_eqb local_ "ying"
  | Err _ => false
  end.

Definition authoritativeCreateSenderMXID (q : CurrentStateQuerier) (roomID : string)
    (event : option HeaderedEvent) : result goerror string :=
  match event with
  | None => Ok ""
  | Some e =>
      match NewUserID (trim_space (SenderID e)) with
      | Ok userID => Ok userID
      | Err _ =>
          match QueryUserIDForSender q with
          | None => Ok ""
          | Some resolve =>
              if str_empty (trim_space (SenderID e)) then Ok ""
              else
                let? validRoomID := NewRoomID (trim_space roomID) in
                let? userID := resolve validRoomID (SenderID e) in
                Ok (default "" userID)
          end
      end
  end.

(** The loop of [directPeerJoined] over the member events. *)
Fixpoint directPeerJoined_loop (senderMXID : string)
    (entries : list ((string * string) * HeaderedEvent)) : result goerror bool :=
  match entries with
  | [] => Ok false
  | (tuple, event) :: entries =>
      if negb (str_eqb tuple.1 MRoomMember) then directPeerJoined_loop senderMXID entries
      else
        let userID := if str_empty tuple.2 then default "" (EvStateKey event) else tuple.2 in
        if str_empty userID || str_eqb userID senderMXID
        then directPeerJoined_loop senderMXID entries
        else
          let? c := eventContent (Some event) in
          if str_eqb (stringValue (get c "membership")) "join" then Ok true
          else directPeerJoined_loop senderMXID entries
  end.

Definition directPeerJoined (q : CurrentStateQuerier) (roomID senderMXID : string)
    : result goerror bool :=
  let? res := QueryCurrentState q roomID [(MRoomMember, "*")] true in
  directPeerJoined_loop senderMXID (go_range res).

Definition senderMembership (q : CurrentStateQuerier) (roomID senderMXID : string)
    (event : option HeaderedEvent) : result goerror (string * bool) :=
  let? c := eventContent event in
  let stateMembership := stringValue (get c "membership") in
  if str_eqb stateMembership "join" then Ok (stateMembership, true)
  else
    let? userID := NewUserID senderMXID in
    let? res := QueryMembershipForUser q roomID userID in
    if str_eqb (Membership res) "join" then Ok (Membership res, true)
    else
      let fallthrough :=
        (membershipValue (Membership res) stateMembership,
         IsInRoom res || str_eqb (Membership res) "join") in
      if str_empty (Membership res) || negb (str_empty stateMembership) then
        match InvitePending q with
        | None => Ok fallthrough
        | Some pending =>
            let? validRoomID := NewRoomID roomID in
            let? isPending := pending validRoomID senderMXID in
            if isPending : bool then Ok ("invite", false) else Ok fallthrough
        end
      else Ok fallthrough.

Definition priorRoomMember (q : CurrentStateQuerier) (roomID userMXID : string)
    : result goerror bool :=
  let? userID := NewUserID userMXID in
  let? res := QueryMembershipForUser q roomID userID in
  Ok (RoomExists res && HasBeenInRoom res).

(** [res[user:sender]], else [res[sender]]. *)
Definition userStateEvent (res : StateEvents) (eventType senderMXID : string)
    : option HeaderedEvent :=
  match res !! (eventType, UserStateKey senderMXID) with
  | Some e => Some e
  | None => res !! (eventType, senderMXID)
  end.

(** The part of [resolveRoom] that reads create and profile: room type,
    flags and policies. *)
Definition resolveRoomProfile (res : StateEvents) : result goerror RP.roomPolicy :=
  let? createContent := eventContent (res !! (MRoomCreate, "")) in
  let roomType := stringValue (get createContent "type") in
  let p := if isDirextalkRoomType roomType
           then RP.set_RoomType roomType (RP.set_Product true defaultPolicy)
           else defaultPolicy in
  match res !! (DirextalkRoomProfileEventType, "") with
  | None => Ok p
  | Some event =>
      let? c := eventContent (Some event) in
      let roomType := stringValue (get c "room_type") in
      let p := if isDirextalkRoomType roomType
               then RP.set_RoomType roomType (RP.set_Product true p) else p in
      Ok (if RP.Product p then applyRoomPolicyContent p c true else p)
  end.

(** The part of [resolveRoom] that reads the sender's role, mute, join
    request and membership. *)
Definition resolveRoomSender (q : CurrentStateQuerier) (roomID senderMXID : string)
    (res : StateEvents) (p : RP.roomPolicy) : result goerror RP.roomPolicy :=
  let? creatorMXID := authoritativeCreateSenderMXID q roomID (res !! (MRoomCreate, "")) in
  let p := if str_eqb creatorMXID senderMXID then RP.set_SenderRole "owner" p else p in
  let? memberPolicy :=
    eventContent (userStateEvent res DirextalkMemberPolicyEventType senderMXID) in
  let p := if boolValue (get memberPolicy "muted") then RP.set_SenderMuted true p else p in
  let? joinRequest :=
    eventContent (userStateEvent res DirextalkJoinRequestEventType senderMXID) in
  let p := RP.set_JoinRequestStatus (to_lower (stringValue (get joinRequest "status"))) p in
  let? m := senderMembership q roomID senderMXID (res !! (MRoomMember, senderMXID)) in
  let p := RP.set_SenderJoined m.2 (RP.set_SenderMembership m.1 p) in
  if str_eqb (RP.RoomType p) DirextalkRoomTypeDirect then
    let? joined := directPeerJoined q roomID senderMXID in
    Ok (RP.set_DirectPeerJoined joined p)
  else Ok p.

(** The tuples of the one snapshot query. *)
Definition resolveRoomTuples (senderMXID : string) : list (string * string) :=
  [(MRoomCreate, ""); (DirextalkRoomProfileEventType, "");
   (DirextalkMemberPolicyEventType, senderMXID);
   (DirextalkMemberPolicyEventType, UserStateKey senderMXID);
   (DirextalkJoinRequestEventType, senderMXID);
   (DirextalkJoinRequestEventType, UserStateKey senderMXID);
   (MRoomMember, senderMXID)].

Definition resolveRoom (q : CurrentStateQuerier) (roomID senderMXID : string)
    : result goerror RP.roomPolicy :=
  match QueryCurrentState q roomID (resolveRoomTuples senderMXID) false with
  | Err e => if roomDoesNotExistError e then Ok zeroPolicy else Err e
  | Ok res =>
      let? p := resolveRoomProfile res in
      if negb (RP.Product p) then Ok p
      else resolveRoomSender q roomID senderMXID res p
  end.

(** ** Room type lookups *)

Definition ProductRoomType (querier : option CurrentStateQuerier) (roomID : string)
    : result goerror string :=
  match querier with
  | None => Ok ""
  | Some q =>
      match QueryCurrentState q roomID
              [(MRoomCreate, ""); (DirextalkRoomProfileEventType, "")] false with
      | Err e => if roomDoesNotExistError e then Ok "" else Err e
      | Ok res =>
          let? createContent := eventContent (res !! (MRoomCreate, "")) in
          let createType := stringValue (get createContent "type") in
          if isDirextalkRoomType createType then Ok createType
          else
            let? profileContent := eventContent (res !! (DirextalkRoomProfileEventType, "")) in
            let roomType := stringValue (get profileContent "room_type") in
            if isDirextalkRoomType roomType then Ok roomType else Ok ""
      end
  end.

Definition IsDirextalkDirectRoom (querier : option CurrentStateQuerier) (roomID : string)
    : result goerror bool :=
  let? roomType := ProductRoomType querier roomID in
  Ok (str_eqb roomType DirextalkRoomTypeDirect).

(** ** Events *)

Record ClientEventRequest := {
  er_RoomID : string;
  er_SenderMXID : string;
  er_EventType : string;
  er_Content : content;
  er_BlockChecker : option (string -> string -> result goerror bool);
}.

Definition ValidateBlockedDirectMessage (querier : option CurrentStateQuerier)
    (req : ClientEventRequest) : result goerror bool :=
  match querier, er_BlockChecker req with
  | Some q, Some check =>
      let? room := resolveRoom q (er_RoomID req) (er_SenderMXID req) in
      if negb (RP.Product room) || negb (str_eqb (RP.RoomType room) DirextalkRoomTypeDirect)
      then Ok false
      else check (trim_space (er_RoomID req)) (trim_space (er_SenderMXID req))
  | _, _ => Ok false
  end.

Definition isProductPolicyEvent (eventType : string) : bool :=
  bool_decide (eventType ∈ ["m.room.message"; "m.reaction"]).

Definition channelEventKind (c : content) : string := stringValue (get c "p2p_kind").

Definition isChannelPostEvent (c : content) : bool :=
  equal_fold (channelEventKind c) "channel_post".

Definition isChannelCommentEvent (eventType : string) (c : content) : bool :=
  if str_eqb eventType "m.reaction" then true
  else equal_fold (channelEventKind c) "channel_comment".

Definition channelPostCommentsEnabled (q : CurrentStateQuerier) (roomID postID : string)
    : result goerror bool :=
  let postID := trim_space postID in
  if str_empty postID then Ok false
  else
    let tuple := (DirextalkChannelPostSettingsEventType, postID) in
    let? res := QueryCurrentState q roomID [tuple] false in
    match res !! tuple with
    | None => Ok true
    | Some event =>
        let? c := eventContent (Some event) in
        let statePostID := trim_space (stringValue (get c "post_id")) in
        if negb (str_empty statePostID) && negb (str_eqb statePostID postID) then Ok false
        else match get c "comments_enabled" with
             | ABool enabled => Ok enabled
             | _ => Ok false
             end
    end.

(** The marker of a group-agent message, decoded into its struct. *)
Record groupAgentOrigin := {
  go_OwnerMXID : string;
  go_AgentMXID : string;
  go_BindingRevision : Z;
  go_RequestID : string;
}.

Definition decode_origin (marker : any) : option groupAgentOrigin :=
  entries ← marshal_object marker;
  owner ← decode_string entries "owner_mxid";
  agent ← decode_string entries "agent_mxid";
  revision ← decode_int64 entries "binding_revision";
  request ← decode_string entries "request_id";
  Some {| go_OwnerMXID := owner; go_AgentMXID := agent;
          go_BindingRevision := revision; go_RequestID := request |}.

Record groupAgentGrant := {
  gg_Enabled : bool;
  gg_RoomID : string;
  gg_OwnerMXID : string;
  gg_AgentMXID : string;
  gg_Revision : Z;
}.

Definition decode_grant (event : HeaderedEvent) : option groupAgentGrant :=
  match Content event with
  | Err _ => None
  | Ok entries =>
      enabled ← decode_bool entries "enabled";
      room ← decode_string entries "room_id";
      owner ← decode_string entries "owner_mxid";
      agent ← decode_string entries "agent_mxid";
      revision ← decode_int64 entries "revision";
      Some {| gg_Enabled := enabled; gg_RoomID := room; gg_OwnerMXID := owner;
              gg_AgentMXID := agent; gg_Revision := revision |}
  end.

Definition validateGroupAgentMessage (q : CurrentStateQuerier) (r : ClientEventRequest)
    : result goerror unit :=
  let marker := get (er_Content r) "io.dirextalk.group_agent" in
  let present := has (er_Content r) "io.dirextalk.group_agent" in
  if negb present &&
     negb (has_prefix (stringValue (get (er_Content r) "msg_type")) "group_agent_") &&
     negb (IsNativeYingMXID (er_SenderMXID r))
  then Ok tt
  else
    match decode_origin marker with
    | None => Err (Forbidden "group Agent identity cannot be impersonated")
    | Some origin =>
        if negb (IsNativeYingMXID (er_SenderMXID r)) ||
           negb (str_eqb (go_AgentMXID origin) (er_SenderMXID r)) ||
           (go_BindingRevision origin <=? 0)%Z || str_empty (go_RequestID origin)
        then Err (Forbidden "group Agent identity cannot be impersonated")
        else
          let tuple := ("io.dirextalk.group_agent", "") in
          let? state := QueryCurrentState q (er_RoomID r) [tuple] false in
          match state !! tuple with
          | None => Err (Forbidden "group Agent binding is unavailable")
          | Some event =>
              match decode_grant event with
              | None => Err (Forbidden "group Agent binding was revoked")
              | Some binding =>
                  if negb (gg_Enabled binding) ||
                     negb (str_eqb (gg_RoomID binding) (er_RoomID r)) ||
                     negb (str_eqb (gg_OwnerMXID binding) (go_OwnerMXID origin)) ||
                     negb (str_eqb (gg_AgentMXID binding) (er_SenderMXID r)) ||
                     negb (Z.eqb (gg_Revision binding) (go_BindingRevision origin))
                  then Err (Forbidden "group Agent binding was revoked")
                  else Ok tt
              end
          end
    end.

(** The channel rules at the end of [ValidateClientEvent]. *)
Definition validateChannelEvent (q : CurrentStateQuerier) (room : RP.roomPolicy)
    (eventType : string) (req : ClientEventRequest) : result goerror unit :=
  if isChannelPostEvent (er_Content req) then
    Err (Forbidden "sender cannot create channel posts in this dirextalk room")
  else if isChannelCommentEvent eventType (er_Content req) then
    if negb (RP.CommentsEnabled room) then Err (Forbidden "channel comments are disabled")
    else if negb (equal_fold (channelEventKind (er_Content req)) "channel_comment") then Ok tt
    else
      let? enabled := channelPostCommentsEnabled q (er_RoomID req)
                        (stringValue (get (er_Content req) "post_id")) in
      if enabled : bool then Ok tt
      else Err (Forbidden "comments are disabled for this channel post")
  else Ok tt.

Definition ValidateClientEvent (querier : option CurrentStateQuerier)
    (req : ClientEventRequest) : result goerror unit :=
  match querier with
  | None => Ok tt
  | Some q =>
      let eventType := trim_space (er_EventType req) in
      if negb (isProductPolicyEvent eventType) then Ok tt
      else
        let? room := resolveRoom q (er_RoomID req) (er_SenderMXID req) in
        if negb (RP.Product room) then Ok tt
        else if RP.Dissolved room then Err (Forbidden "dirextalk room is dissolved")
        else if negb (RP.SenderJoined room) then
          Err (Forbidden "sender is not joined to the dirextalk room")
        else if RP.SenderMuted room then
          Err (Forbidden "sender is muted in the dirextalk room")
        else
          let? _ := (if str_eqb (RP.RoomType room) DirextalkRoomTypeGroup &&
                        str_eqb eventType "m.room.message"
                     then validateGroupAgentMessage q req else Ok tt) in
          if str_eqb (RP.RoomType room) DirextalkRoomTypeDirect &&
             negb (RP.DirectPeerJoined room)
          then Err (Forbidden "direct room peer is not joined to the dirextalk room")
          else
            let? blocked := (if str_eqb (RP.RoomType room) DirextalkRoomTypeDirect &&
                                str_eqb eventType "m.room.message" &&
                                bool_decide (is_Some (er_BlockChecker req))
                             then ValidateBlockedDirectMessage querier req else Ok false) in
            if blocked : bool then
              Err (Forbidden "sender is blocked in this dirextalk direct room")
            else if str_eqb (RP.RoomType room) DirextalkRoomTypeChannel &&
                    negb (SenderPrivileged room)
            then validateChannelEvent q room eventType req
            else Ok tt
  end.

(** ** Redactions *)

Record ClientRedactionRequest := {
  rr_RoomID : string;
  rr_SenderMXID : string;
  rr_TargetEventID : string;
}.

Definition queryTargetEvent (q : CurrentStateQuerier) (roomID eventID : string)
    : result goerror (option HeaderedEvent) :=
  let? events := QueryEventsByID q roomID [eventID] in
  Ok (head events).

Definition ValidateClientRedaction (querier : option CurrentStateQuerier)
    (req : ClientRedactionRequest) : result goerror unit :=
  match querier with
  | None => Ok tt
  | Some q =>
      let? room := resolveRoom q (rr_RoomID req) (rr_SenderMXID req) in
      if negb (RP.Product room) then Ok tt
      else if RP.Dissolved room then Err (Forbidden "dirextalk room is dissolved")
      else if negb (RP.SenderJoined room) then
        Err (Forbidden "sender is not joined to the dirextalk room")
      else if RP.SenderMuted room then
        Err (Forbidden "sender is muted in the dirextalk room")
      else
        let? target := queryTargetEvent q (rr_RoomID req) (rr_TargetEventID req) in
        match target with
        | None => Ok tt
        | Some target =>
            if str_eqb (SenderID target) (rr_SenderMXID req) || SenderPrivileged room
            then Ok tt
            else Err (Forbidden "sender cannot redact another sender in dirextalk room")
        end
  end.

(** ** Membership changes *)

Record ClientMembershipRequest := {
  mr_GroupAgentControl : bool;
  mr_RoomID : string;
  mr_SenderMXID : string;
  mr_TargetMXID : string;
  mr_Membership : string;
}.

Definition validateJoin (room : RP.roomPolicy) : result goerror unit :=
  if RP.SenderJoined room then Ok tt
  else if equal_fold (RP.SenderMembership room) "invite" then Ok tt
  else if str_eqb (RP.RoomType room) DirextalkRoomTypeChannel then
    if equal_fold (RP.JoinPolicy room) "open" then Ok tt
    else if equal_fold (RP.JoinRequestStatus room) "approved" then Ok tt
    else Err (Forbidden "channel join requires approved join request")
  else if str_eqb (RP.RoomType room) DirextalkRoomTypeGroup then
    Err (Forbidden "group join requires invite")
  else if str_eqb (RP.RoomType room) DirextalkRoomTypeDirect then
    Err (Forbidden "direct room join requires invite")
  else Err (Forbidden "sender is not joined to the dirextalk room").

(** The [invite] case of the switch. *)
Definition validateInvite (q : CurrentStateQuerier) (room : RP.roomPolicy)
    (req : ClientMembershipRequest) : result goerror unit :=
  if DirectPeerInvite room (mr_SenderMXID req) (mr_TargetMXID req) then Ok tt
  else
    let? wasMember := (if str_eqb (RP.RoomType room) DirextalkRoomTypeDirect
                       then priorRoomMember q (mr_RoomID req) (mr_TargetMXID req)
                       else Ok false) in
    if wasMember : bool then Ok tt
    else if str_eqb (RP.RoomType room) DirextalkRoomTypeGroup &&
            equal_fold (RP.InvitePolicy room) "member" then Ok tt
    else if SenderPrivileged room then Ok tt
    else Err (Forbidden "sender cannot invite members to this dirextalk room").

(** [ValidateClientMembership] once the room is known to be a product room. *)
Definition validateMembershipIn (q : CurrentStateQuerier) (room : RP.roomPolicy)
    (req : ClientMembershipRequest) : result goerror unit :=
  let membership := to_lower (trim_space (mr_Membership req)) in
  let self := str_eqb (trim_space (mr_SenderMXID req)) (trim_space (mr_TargetMXID req)) in
  if str_eqb (RP.RoomType room) DirextalkRoomTypeGroup && str_eqb membership "invite" &&
     IsNativeYingMXID (mr_TargetMXID req) && negb (mr_GroupAgentControl req)
  then Err (Forbidden "Native Ying can only be enabled by the group owner")
  else if str_eqb membership "join" && self then
    if RP.Dissolved room then Err (Forbidden "dirextalk room is dissolved")
    else validateJoin room
  else if str_eqb membership "leave" && self then Ok tt
  else if RP.Dissolved room then Err (Forbidden "dirextalk room is dissolved")
  else if negb (RP.SenderJoined room) then
    Err (Forbidden "sender is not joined to the dirextalk room")
  else if str_eqb membership "invite" then validateInvite q room req
  else if str_eqb membership "ban" then
    if SenderPrivileged room then Ok tt
    else Err (Forbidden "sender cannot ban members in this dirextalk room")
  else if str_eqb membership "leave" then
    if SenderPrivileged room then Ok tt
    else Err (Forbidden "sender cannot remove another member from this dirextalk room")
  else Ok tt.

Definition ValidateClientMembership (querier : option CurrentStateQuerier)
    (req : ClientMembershipRequest) : result goerror unit :=
  match querier with
  | None => Ok tt
  | Some q =>
      let? room := resolveRoom q (mr_RoomID req) (mr_SenderMXID req) in
      if negb (RP.Product room) then Ok tt else validateMembershipIn q room req
  end.
End Policy.
