(* ===== verification/PolicyFacts.v ===== *)
(** * Correctness of the product policy

    Declarative rules for events, redactions and membership changes, and the
    theorems that the validators of [Policy] accept exactly what the rules
    allow; who is privileged; and that the member scan does not depend on the
    order in which Go visits the state map. *)

From Stdlib Require Import Ascii String ZArith Lia.
From stdpp Require Import base tactics list gmap strings.
From S2P Require Import Prelude GoStrings Values Policy.
Local Open Scope go_scope.

#[local] Opaque equal_fold to_lower trim_space contains has_prefix stringValue.

Lemma str_eqb_true s t : str_eqb s t = true <-> s = t.
Proof. apply bool_decide_eq_true. Qed.

Lemma str_eqb_false s t : str_eqb s t = false <-> s <> t.
Proof. apply bool_decide_eq_false. Qed.

(** Turn string tests and boolean connectives into propositions. *)
Ltac str_bool :=
  repeat match goal with
  | H : str_eqb _ _ = true |- _ => apply str_eqb_true in H
  | H : str_eqb _ _ = false |- _ => apply str_eqb_false in H
  | H : str_empty _ = true |- _ => apply bool_decide_eq_true in H
  | H : str_empty _ = false |- _ => apply bool_decide_eq_false in H
  | H : _ && _ = true |- _ => apply andb_true_iff in H as [? ?]
  | H : _ && _ = false |- _ => apply andb_false_iff in H
  | H : _ || _ = false |- _ => apply orb_false_iff in H as [? ?]
  | H : _ || _ = true |- _ => apply orb_true_iff in H
  | H : negb _ = true |- _ => apply negb_true_iff in H
  | H : negb _ = false |- _ => apply negb_false_iff in H
  end.

Section Facts.
Context `{MatrixIDs} `{GoRange}.
Implicit Types (q : CurrentStateQuerier) (p room : RP.roomPolicy).

(** ** The rules *)

Definition is_type (room : RP.roomPolicy) (t : string) : Prop := RP.RoomType room = t.

(** The sender may act at all: the room lives, the sender is in it and not
    muted. *)
Definition MaySpeak (room : RP.roomPolicy) : Prop :=
  RP.Dissolved room = false /\ RP.SenderJoined room = true /\ RP.SenderMuted room = false.

(** A message that claims to come from the group agent. *)
Definition ClaimsGroupAgent (req : ClientEventRequest) : Prop :=
  has (er_Content req) "io.dirextalk.group_agent" = true \/
  has_prefix (stringValue (get (er_Content req) "msg_type")) "group_agent_" = true \/
  IsNativeYingMXID (er_SenderMXID req) = true.

(** The current grant of the room covers the agent's message. *)
Definition GroupAgentGranted q (req : ClientEventRequest) : Prop :=
  IsNativeYingMXID (er_SenderMXID req) = true /\
  exists origin state event grant,
    decode_origin (get (er_Content req) "io.dirextalk.group_agent") = Some origin /\
    go_AgentMXID origin = er_SenderMXID req /\
    (0 < go_BindingRevision origin)%Z /\ go_RequestID origin <> "" /\
    QueryCurrentState q (er_RoomID req) [("io.dirextalk.group_agent", "")] false = Ok state /\
    state !! ("io.dirextalk.group_agent", "") = Some event /\
    decode_grant event = Some grant /\
    gg_Enabled grant = true /\ gg_RoomID grant = er_RoomID req /\
    gg_OwnerMXID grant = go_OwnerMXID origin /\ gg_AgentMXID grant = er_SenderMXID req /\
    gg_Revision grant = go_BindingRevision origin.

(** What a channel member who does not own the channel may send. *)
Definition ChannelMemberRule q room (req : ClientEventRequest) : Prop :=
  equal_fold (channelEventKind (er_Content req)) "channel_post" = false /\
  (trim_space (er_EventType req) = "m.reaction" -> RP.CommentsEnabled room = true) /\
  (equal_fold (channelEventKind (er_Content req)) "channel_comment" = true ->
     RP.CommentsEnabled room = true /\
     channelPostCommentsEnabled q (er_RoomID req)
       (stringValue (get (er_Content req) "post_id")) = Ok true).

Definition EventRules q room (req : ClientEventRequest) : Prop :=
  let message := trim_space (er_EventType req) = "m.room.message" in
  MaySpeak room /\
  (is_type room DirextalkRoomTypeGroup -> message -> ClaimsGroupAgent req ->
     GroupAgentGranted q req) /\
  (is_type room DirextalkRoomTypeDirect ->
     RP.DirectPeerJoined room = true /\
     (forall check, message -> er_BlockChecker req = Some check ->
        check (trim_space (er_RoomID req)) (trim_space (er_SenderMXID req)) = Ok false)) /\
  (is_type room DirextalkRoomTypeChannel -> SenderPrivileged room = false ->
     ChannelMemberRule q room req).

Lemma validateGroupAgentMessage_ok q req :
  validateGroupAgentMessage q req = Ok tt <->
  (ClaimsGroupAgent req -> GroupAgentGranted q req).
Proof.
  unfold validateGroupAgentMessage, ClaimsGroupAgent, GroupAgentGranted.
  destruct (negb _ && _ && _) eqn:Hclaim.
  { str_bool. split; [|done]. intros _ [?|[?|?]]; congruence. }
  assert (Hc : ClaimsGroupAgent req).
  { unfold ClaimsGroupAgent. revert Hclaim.
    destruct (has _ _), (has_prefix _ _), (IsNativeYingMXID _); simpl; auto. }
  split.
  - intros Hok _. revert Hok.
    destruct (decode_origin _) as [origin|] eqn:Ho; [|done].
    destruct (negb _ || _ || _ || _) eqn:Hv; [done|]. str_bool. go_bool.
    intros (state & Hstate & Hok)%rbind_Ok_inv.
    destruct (state !! _) as [event|] eqn:He; [|done].
    destruct (decode_grant event) as [grant|] eqn:Hg; [|done].
    destruct (negb _ || _ || _ || _ || _) eqn:Hb; [done|]. str_bool. go_bool.
    split; [done|]. exists origin, state, event, grant. naive_solver.
  - intros Hg. destruct (Hg Hc) as (Hy & origin & state & event & grant & Ho & Ha & Hr & Hid &
                                     Hs & He & Hd & Hen & Hroom & Hown & Hag & Hrev).
    rewrite Ho, Hy, Ha. unfold str_eqb, str_empty.
    rewrite bool_decide_eq_true_2, (bool_decide_eq_false_2 (go_RequestID origin = "")) by done.
    rewrite (proj2 (Z.leb_gt _ _) Hr), Hs. simpl. rewrite He, Hd, Hen, Hroom, Hown, Hag, Hrev.
    by rewrite !bool_decide_eq_true_2, Z.eqb_refl by done.
Qed.

Lemma validateChannelEvent_ok q room req :
  validateChannelEvent q room (trim_space (er_EventType req)) req = Ok tt <->
  ChannelMemberRule q room req.
Proof.
  unfold validateChannelEvent, ChannelMemberRule, isChannelPostEvent, isChannelCommentEvent.
  generalize (channelEventKind (er_Content req)); intros kind.
  generalize (stringValue (get (er_Content req) "post_id")); intros postID.
  generalize (trim_space (er_EventType req)); intros eventType.
  destruct (equal_fold kind "channel_post").
  { split; [done | by intros [? _]]. }
  destruct (str_eqb eventType "m.reaction") eqn:Hreact,
    (equal_fold kind "channel_comment"),
    (RP.CommentsEnabled room); simpl; str_bool.
  all: try destruct (channelPostCommentsEnabled q (er_RoomID req) postID) as [[]|]; simpl.
  all: split; [intros Hok | intros (_ & Hr & Hc)]; try discriminate Hok.
  all: try (destruct (Hc eq_refl) as [Hc1 Hc2]; discriminate).
  all: try (specialize (Hr Hreact); discriminate).
  all: try reflexivity.
  all: repeat split; intros; first [done | congruence].
Qed.
Lemma ValidateBlockedDirectMessage_ok q req room check :
  resolveRoom q (er_RoomID req) (er_SenderMXID req) = Ok room ->
  RP.Product room = true -> is_type room DirextalkRoomTypeDirect ->
  er_BlockChecker req = Some check ->
  ValidateBlockedDirectMessage (Some q) req =
    check (trim_space (er_RoomID req)) (trim_space (er_SenderMXID req)).
Proof.
  intros Hroom Hp Ht Hc. unfold ValidateBlockedDirectMessage.
  rewrite Hc, Hroom. simpl. rewrite Hp, Ht. by rewrite (proj2 (str_eqb_true _ _) eq_refl).
Qed.

#[local] Arguments ValidateBlockedDirectMessage : simpl never.

(** The block check of [ValidateClientEvent] lets the event pass exactly when
    the checker, if it is consulted, says it is not blocked. *)
Lemma block_check_ok q req room :
  resolveRoom q (er_RoomID req) (er_SenderMXID req) = Ok room ->
  RP.Product room = true ->
  (if str_eqb (RP.RoomType room) DirextalkRoomTypeDirect &&
      str_eqb (trim_space (er_EventType req)) "m.room.message" &&
      bool_decide (is_Some (er_BlockChecker req))
   then ValidateBlockedDirectMessage (Some q) req else Ok false) = Ok false <->
  (is_type room DirextalkRoomTypeDirect ->
   forall check, trim_space (er_EventType req) = "m.room.message" ->
     er_BlockChecker req = Some check ->
     check (trim_space (er_RoomID req)) (trim_space (er_SenderMXID req)) = Ok false).
Proof.
  intros Hroom Hp. unfold is_type.
  destruct (str_eqb (RP.RoomType room) DirextalkRoomTypeDirect) eqn:Ht; str_bool;
    [|naive_solver].
  destruct (str_eqb (trim_space (er_EventType req)) "m.room.message") eqn:Hm; str_bool;
    [|naive_solver].
  destruct (er_BlockChecker req) as [check|] eqn:Hc.
  - rewrite bool_decide_eq_true_2 by eauto. cbn [andb].
    rewrite (ValidateBlockedDirectMessage_ok q req room check) by done. naive_solver.
  - rewrite bool_decide_eq_false_2 by (intros [? ?]; done). naive_solver.
Qed.

(** The three product room types exclude each other. *)
Lemma types_distinct t :
  (t = DirextalkRoomTypeGroup ->
     t <> DirextalkRoomTypeDirect /\ str_eqb t DirextalkRoomTypeDirect = false) /\
  (t = DirextalkRoomTypeGroup ->
     t <> DirextalkRoomTypeChannel /\ str_eqb t DirextalkRoomTypeChannel = false) /\
  (t = DirextalkRoomTypeDirect ->
     t <> DirextalkRoomTypeChannel /\ str_eqb t DirextalkRoomTypeChannel = false).
Proof. rewrite !str_eqb_false. split_and!; by intros ->. Qed.

(** C2.  the event validator accepts exactly the events that are outside the
    policy, or go to a room that is no product room, or satisfy the rules of
    the product room they go to: living room, joined and unmuted sender, no
    impersonated group agent, joined and unblocking direct peer, no channel
    post and no disabled comment by a sender who does not own the channel. *)
Theorem ValidateClientEvent_iff q req :
  ValidateClientEvent (Some q) req = Ok tt <->
  isProductPolicyEvent (trim_space (er_EventType req)) = false \/
  exists room, resolveRoom q (er_RoomID req) (er_SenderMXID req) = Ok room /\
    (RP.Product room = false \/ EventRules q room req).
Proof.
  unfold ValidateClientEvent. destruct (isProductPolicyEvent _); simpl; [|naive_solver].
  destruct (resolveRoom _ _ _) as [room|e] eqn:Hroom; simpl; [|naive_solver].
  destruct (RP.Product room) eqn:Hp; simpl; [|naive_solver].
  trans (EventRules q room req);
    [|split; [eauto | intros [? | (r & [= <-] & [? | ?])]; [done | congruence | done]]].
  unfold EventRules, MaySpeak.
  destruct (RP.Dissolved room), (RP.SenderJoined room), (RP.SenderMuted room); simpl;
    try (split; [done | intros ((? & ? & ?) & _); discriminate]).
  pose proof (block_check_ok q req room Hroom Hp) as Hblock. unfold is_type in *.
  destruct (types_distinct (RP.RoomType room)) as (Hgd & Hgc & Hdc).
  destruct (decide (RP.RoomType room = DirextalkRoomTypeGroup)) as [Hg|Hg].
  { destruct (Hgd Hg) as [Hnd ->]. destruct (Hgc Hg) as [Hnc ->].
    rewrite (proj2 (str_eqb_true _ _) Hg). simpl.
    destruct (str_eqb (trim_space (er_EventType req)) "m.room.message") eqn:Hm; str_bool; simpl.
    - pose proof (validateGroupAgentMessage_ok q req) as [Ha1 Ha2]. split.
      + intros Hok. destruct (validateGroupAgentMessage q req) as [[]|]; [|done].
        split_and!; try done; intros; by auto.
      + intros (_ & Ha & _). by rewrite Ha2 by auto.
    - split; [|done]. intros _. split_and!; intros; first [done | congruence]. }
  rewrite (proj2 (str_eqb_false _ _) Hg). simpl.
  destruct (decide (RP.RoomType room = DirextalkRoomTypeDirect)) as [Hd|Hd].
  { destruct (Hdc Hd) as [Hnc ->]. rewrite (proj2 (str_eqb_true _ _) Hd) in *. simpl in *.
    destruct (RP.DirectPeerJoined room); simpl;
      [| split; [done | intros (_ & _ & Hx & _); by destruct (Hx Hd)]].
    destruct Hblock as [Hb1 Hb2]. split.
    - intros Hok. match goal with H : rbind ?x _ = _ |- _ => destruct x as [[]|] eqn:Hx end;
        simpl in Hok; try discriminate.
      split_and!; try done. intros _. split; [done|]. intros check; exact (Hb1 eq_refl Hd check).
    - intros (_ & _ & Hx & _). rewrite Hb2; [done|]. intros _. by apply (Hx Hd). }
  rewrite (proj2 (str_eqb_false _ _) Hd). simpl.
  destruct (decide (RP.RoomType room = DirextalkRoomTypeChannel)) as [Hc|Hc].
  2: { rewrite (proj2 (str_eqb_false _ _) Hc). simpl. split; [|done]. intros _. split_and!; intros; first [done | congruence]. }
  rewrite (proj2 (str_eqb_true _ _) Hc). simpl.
  pose proof (validateChannelEvent_ok q room req) as [Hch1 Hch2].
  destruct (SenderPrivileged room); simpl.
  - split; [|done]. intros _. split_and!; intros; first [done | congruence].
  - split.
    + intros Hok. split_and!; try done. intros _ _. by apply Hch1.
    + intros (_ & _ & _ & Hx). apply Hch2. by apply Hx.
Qed.

(** ** Membership changes *)

Definition wanted (req : ClientMembershipRequest) : string :=
  to_lower (trim_space (mr_Membership req)).

Definition about_self (req : ClientMembershipRequest) : Prop :=
  trim_space (mr_SenderMXID req) = trim_space (mr_TargetMXID req).

Definition JoinAllowed room : Prop :=
  RP.SenderJoined room = true \/
  equal_fold (RP.SenderMembership room) "invite" = true \/
  (is_type room DirextalkRoomTypeChannel /\
     (equal_fold (RP.JoinPolicy room) "open" = true \/
      equal_fold (RP.JoinRequestStatus room) "approved" = true)).

Definition InviteAllowed q room (req : ClientMembershipRequest) : Prop :=
  DirectPeerInvite room (mr_SenderMXID req) (mr_TargetMXID req) = true \/
  (is_type room DirextalkRoomTypeDirect /\
     exists was, priorRoomMember q (mr_RoomID req) (mr_TargetMXID req) = Ok was /\
       (was = true \/ SenderPrivileged room = true)) \/
  (~ is_type room DirextalkRoomTypeDirect /\
     (is_type room DirextalkRoomTypeGroup /\ equal_fold (RP.InvitePolicy room) "member" = true \/
      SenderPrivileged room = true)).

Definition LiveMember room : Prop :=
  RP.Dissolved room = false /\ RP.SenderJoined room = true.

Inductive MembershipAllowed q room (req : ClientMembershipRequest) : Prop :=
| allow_self_leave :
    wanted req = "leave" -> about_self req -> MembershipAllowed q room req
| allow_self_join :
    wanted req = "join" -> about_self req -> RP.Dissolved room = false ->
    JoinAllowed room -> MembershipAllowed q room req
| allow_invite :
    wanted req = "invite" -> LiveMember room ->
    (is_type room DirextalkRoomTypeGroup -> IsNativeYingMXID (mr_TargetMXID req) = true ->
       mr_GroupAgentControl req = true) ->
    InviteAllowed q room req -> MembershipAllowed q room req
| allow_ban :
    wanted req = "ban" -> LiveMember room -> SenderPrivileged room = true ->
    MembershipAllowed q room req
| allow_remove :
    wanted req = "leave" -> ~ about_self req -> LiveMember room ->
    SenderPrivileged room = true -> MembershipAllowed q room req
| allow_other :
    wanted req <> "invite" -> wanted req <> "ban" -> wanted req <> "leave" ->
    ~ (wanted req = "join" /\ about_self req) -> LiveMember room ->
    MembershipAllowed q room req.

Lemma validateJoin_ok room : validateJoin room = Ok tt <-> JoinAllowed room.
Proof.
  unfold validateJoin, JoinAllowed, is_type.
  destruct (RP.SenderJoined room); [naive_solver|].
  destruct (equal_fold (RP.SenderMembership room) "invite"); [naive_solver|].
  destruct (str_eqb (RP.RoomType room) DirextalkRoomTypeChannel) eqn:Hc; str_bool.
  - destruct (equal_fold (RP.JoinPolicy room) "open"),
      (equal_fold (RP.JoinRequestStatus room) "approved"); naive_solver.
  - split; [|naive_solver]. repeat case_match; naive_solver.
Qed.

Lemma validateInvite_ok q room req :
  validateInvite q room req = Ok tt <-> InviteAllowed q room req.
Proof.
  unfold validateInvite, InviteAllowed, is_type.
  destruct (DirectPeerInvite _ _ _); [naive_solver|].
  destruct (str_eqb (RP.RoomType room) DirextalkRoomTypeDirect) eqn:Hd; str_bool.
  - destruct (types_distinct (RP.RoomType room)) as (Hgd & _ & _).
    assert (str_eqb (RP.RoomType room) DirextalkRoomTypeGroup = false) as ->.
    { apply str_eqb_false. intros Hg. by destruct (Hgd Hg). }
    destruct (priorRoomMember _ _ _) as [[]|], (SenderPrivileged room); simpl; naive_solver.
  - simpl. destruct (str_eqb (RP.RoomType room) DirextalkRoomTypeGroup) eqn:Hg,
      (equal_fold (RP.InvitePolicy room) "member"), (SenderPrivileged room);
      str_bool; simpl; naive_solver.
Qed.

Lemma membership_invite q room req :
  wanted req = "invite" ->
  validateMembershipIn q room req = Ok tt <-> MembershipAllowed q room req.
Proof.
  intros Hm. pose proof (validateInvite_ok q room req) as Hinv.
  unfold validateMembershipIn.
  change (to_lower (trim_space (mr_Membership req))) with (wanted req). rewrite Hm.
  change (str_eqb "invite" "invite") with true.
  change (str_eqb "invite" "join") with false. change (str_eqb "invite" "leave") with false.
  simpl. split.
  - intros Hok. destruct (str_eqb (RP.RoomType room) _ && _ && _ && _) eqn:Hy; [done|].
    destruct (RP.Dissolved room) eqn:Hd, (RP.SenderJoined room) eqn:Hj; try done.
    apply allow_invite; [done | done | | by apply Hinv].
    intros Hg Hying. destruct (mr_GroupAgentControl req); [done|].
    by rewrite (proj2 (str_eqb_true _ _) Hg), Hying in Hy.
  - intros Ha. inversion Ha as [| |_ [Hd Hj] Hctl Hi| | |]; try congruence.
    rewrite Hd, Hj. simpl.
    assert (str_eqb (RP.RoomType room) DirextalkRoomTypeGroup && true &&
            IsNativeYingMXID (mr_TargetMXID req) && negb (mr_GroupAgentControl req) = false)
      as ->; [|by apply Hinv].
    destruct (str_eqb _ _) eqn:Hg, (IsNativeYingMXID _) eqn:Hy; try done. str_bool.
    by rewrite (Hctl Hg eq_refl).
Qed.

(** A change that is no invite, by a joined member of a living room. *)
Lemma membership_live q room req :
  wanted req <> "invite" -> ~ (about_self req /\ (wanted req = "join" \/ wanted req = "leave")) ->
  (if str_eqb (wanted req) "ban" then
     if SenderPrivileged room then Ok tt
     else Err (Forbidden "sender cannot ban members in this dirextalk room")
   else if str_eqb (wanted req) "leave" then
     if SenderPrivileged room then Ok tt
     else Err (Forbidden "sender cannot remove another member from this dirextalk room")
   else Ok tt) = Ok tt /\ LiveMember room <-> MembershipAllowed q room req.
Proof.
  intros Hni Hns.
  destruct (str_eqb (wanted req) "ban") eqn:Hb; str_bool.
  { destruct (SenderPrivileged room) eqn:Hpr.
    - split; [intros [_ ?]; by apply allow_ban|]. intros Ha. inversion Ha; first [congruence | naive_solver].
    - split; [by intros []|]. intros Ha. inversion Ha; congruence. }
  destruct (str_eqb (wanted req) "leave") eqn:Hl; str_bool.
  { destruct (SenderPrivileged room) eqn:Hpr.
    - split; [intros [_ ?]; apply allow_remove; naive_solver|].
      intros Ha. inversion Ha; first [congruence | naive_solver].
    - split; [by intros []|]. intros Ha. inversion Ha; first [congruence | naive_solver]. }
  split; [intros [_ ?]; apply allow_other; naive_solver|].
  intros Ha. inversion Ha; first [congruence | naive_solver].
Qed.

Lemma validateMembershipIn_ok q room req :
  validateMembershipIn q room req = Ok tt <-> MembershipAllowed q room req.
Proof.
  destruct (decide (wanted req = "invite")) as [Hm|Hni]; [by apply membership_invite|].
  pose proof (validateJoin_ok room) as Hjoin. pose proof (membership_live q room req Hni) as Hlive.
  unfold validateMembershipIn.
  change (to_lower (trim_space (mr_Membership req))) with (wanted req).
  change (str_eqb (trim_space (mr_SenderMXID req)) (trim_space (mr_TargetMXID req)))
    with (bool_decide (about_self req)).
  rewrite (proj2 (str_eqb_false _ _) Hni), andb_false_r. simpl.
  destruct (str_eqb (wanted req) "join" && bool_decide (about_self req)) eqn:Hj.
  { str_bool. go_bool. destruct (RP.Dissolved room) eqn:Hd.
    - split; [done|]. intros Ha. inversion Ha; first [congruence | tauto].
    - rewrite Hjoin. split; [by eauto using allow_self_join|].
      intros Ha; inversion Ha; first [congruence | tauto]. }
  destruct (str_eqb (wanted req) "leave" && bool_decide (about_self req)) eqn:Hl.
  { str_bool. go_bool. split; [by eauto using allow_self_leave | done]. }
  rewrite <- Hlive.
  2: { intros [Hs Hw]. rewrite bool_decide_eq_true_2, !andb_true_r in * by done.
       str_bool. tauto. }
  unfold LiveMember.
  destruct (RP.Dissolved room), (RP.SenderJoined room); simpl; intuition congruence.
Qed.

(** C6.  the membership validator accepts exactly the changes the rules
    allow: leaving is always possible, a user joins with an invite or, in a
    channel, an open policy or an approved request; invites follow the room's
    invite policy; only the owner bans or removes others; nothing but
    leaving happens in a dissolved room. *)
Theorem ValidateClientMembership_iff q req :
  ValidateClientMembership (Some q) req = Ok tt <->
  exists room, resolveRoom q (mr_RoomID req) (mr_SenderMXID req) = Ok room /\
    (RP.Product room = false \/ MembershipAllowed q room req).
Proof.
  unfold ValidateClientMembership.
  destruct (resolveRoom _ _ _) as [room|e]; simpl; [|naive_solver].
  destruct (RP.Product room) eqn:Hp; simpl; [|split; [eauto | done]].
  rewrite validateMembershipIn_ok.
  split; [eauto | intros (r & [= <-] & [? | ?]); [congruence | done]].
Qed.

(** ** Group agent identity *)

(** A group message passes the agent check exactly when it does not claim
    the agent's identity, or it is sent by the agent itself under a marker
    that the room's current, enabled grant confirms (room, owner, agent and
    revision). *)
Theorem group_agent_message_iff q req :
  validateGroupAgentMessage q req = Ok tt <->
  (ClaimsGroupAgent req -> GroupAgentGranted q req).
Proof. apply validateGroupAgentMessage_ok. Qed.

(** ** Redactions *)

(** A redaction passes exactly when the room is no product room, or the
    sender may speak in it and the target is unknown, the sender's own, or
    the sender owns the room. *)
Theorem ValidateClientRedaction_iff q req :
  ValidateClientRedaction (Some q) req = Ok tt <->
  exists room, resolveRoom q (rr_RoomID req) (rr_SenderMXID req) = Ok room /\
    (RP.Product room = false \/
     (MaySpeak room /\ exists target,
        queryTargetEvent q (rr_RoomID req) (rr_TargetEventID req) = Ok target /\
        forall event, target = Some event ->
          SenderID event = rr_SenderMXID req \/ SenderPrivileged room = true)).
Proof.
  unfold ValidateClientRedaction, MaySpeak.
  destruct (resolveRoom _ _ _) as [room|e]; simpl; [|naive_solver].
  destruct (RP.Product room) eqn:Hp; simpl; [|split; [eauto | done]].
  destruct (RP.Dissolved room) eqn:Hd, (RP.SenderJoined room) eqn:Hj,
    (RP.SenderMuted room) eqn:Hm; cbn [negb];
    try (split; [done | intros (r & [= <-] & [? | ((? & ? & ?) & _)]); congruence]).
  destruct (queryTargetEvent _ _ _) as [[event|]|] eqn:Ht; cbn [rbind];
    [| |split; [done | intros (r & [= <-] & [? | (_ & t & ? & _)]); congruence]].
  - destruct (str_eqb (SenderID event) (rr_SenderMXID req) || SenderPrivileged room) eqn:Hs.
    + split; [|done]. intros _. exists room. split; [done|]. right. split; [done|].
      exists (Some event). split; [done|]. intros ? [= <-].
      apply orb_true_iff in Hs as [?%str_eqb_true|?]; auto.
    + split; [done|]. intros (r & [= <-] & [?|(_ & t & [= <-] & Hx)]); [congruence|].
      apply orb_false_iff in Hs as [?%str_eqb_false ?].
      destruct (Hx event eq_refl); congruence.
  - split; [|done]. intros _. exists room. split; [done|]. right. split; [done|].
    exists None. by split.
Qed.

(** ** Who is privileged *)

Lemma applyRoomPolicyContent_role p c b :
  RP.SenderRole (applyRoomPolicyContent p c b) = RP.SenderRole p.
Proof. unfold applyRoomPolicyContent. by repeat case_match. Qed.

#[local] Arguments applyRoomPolicyContent : simpl never.

Lemma resolveRoomProfile_role res p :
  resolveRoomProfile res = Ok p -> RP.SenderRole p = "member".
Proof.
  unfold resolveRoomProfile. intros (c & _ & Hok)%rbind_Ok_inv.
  destruct (res !! (DirextalkRoomProfileEventType, "")) as [e|].
  - apply rbind_Ok_inv in Hok as (c' & _ & [= <-]).
    repeat case_match; rewrite ?applyRoomPolicyContent_role; reflexivity.
  - injection Hok as <-. case_match; reflexivity.
Qed.

Lemma resolveRoomSender_role q roomID sender res p p' :
  resolveRoomSender q roomID sender res p = Ok p' ->
  exists creator,
    authoritativeCreateSenderMXID q roomID (res !! (MRoomCreate, "")) = Ok creator /\
    RP.SenderRole p' = if str_eqb creator sender then "owner" else RP.SenderRole p.
Proof.
  unfold resolveRoomSender.
  intros (creator & Hc & Hrest)%rbind_Ok_inv. exists creator. split; [done|].
  apply rbind_Ok_inv in Hrest as (mp & _ & Hrest).
  apply rbind_Ok_inv in Hrest as (jr & _ & Hrest).
  apply rbind_Ok_inv in Hrest as (m & _ & Hrest).
  destruct (str_eqb creator sender); destruct (boolValue _); simpl in Hrest;
    (destruct (str_eqb (RP.RoomType p) _);
     [apply rbind_Ok_inv in Hrest as (j & _ & [= <-]) | injection Hrest as <-]); done.
Qed.

(** C22.  in a product room the sender is privileged exactly when the sender is
    the authoritative author of the room's create event; no role a member
    policy or a profile event claims makes anybody an owner. *)
Theorem resolveRoom_privileged_iff q roomID sender res p
  (Hquery : QueryCurrentState q roomID (resolveRoomTuples sender) false = Ok res)
  (Hroom : resolveRoom q roomID sender = Ok p) (Hproduct : RP.Product p = true) :
  SenderPrivileged p = true <->
  authoritativeCreateSenderMXID q roomID (res !! (MRoomCreate, "")) = Ok sender.
Proof.
  unfold resolveRoom in Hroom. rewrite Hquery in Hroom.
  apply rbind_Ok_inv in Hroom as (p0 & Hp0 & Hroom).
  apply resolveRoomProfile_role in Hp0.
  destruct (RP.Product p0) eqn:Hprod; simpl in Hroom; [|congruence].
  apply resolveRoomSender_role in Hroom as (creator & Hc & Hrole).
  unfold SenderPrivileged. rewrite Hrole, Hp0, Hc.
  destruct (str_eqb creator sender) eqn:Hs; str_bool.
  - subst. split; [done|]. intros _. reflexivity.
  - split; [intros Hx; by vm_compute in Hx | intros [= ?]; done].
Qed.

(** ** The member scan *)

(** The user a member event is about. *)
Definition member_of (tuple : string * string) (event : HeaderedEvent) : string :=
  if str_empty tuple.2 then default "" (EvStateKey event) else tuple.2.

Definition PeerEntry (sender : string) (kv : (string * string) * HeaderedEvent) : Prop :=
  kv.1.1 = MRoomMember /\ member_of kv.1 kv.2 <> "" /\ member_of kv.1 kv.2 <> sender /\
  exists c, eventContent (Some kv.2) = Ok c /\ stringValue (get c "membership") = "join".

Lemma directPeerJoined_loop_spec sender entries :
  Forall (fun kv => is_Ok (eventContent (Some kv.2))) entries ->
  exists b, directPeerJoined_loop sender entries = Ok b /\
    (b = true <-> Exists (PeerEntry sender) entries).
Proof.
  induction 1 as [|[tuple event] entries [c Hc] _ (b & Hb & IH)].
  { exists false. split; [done|]. split; [done|]. inversion 1. }
  setoid_rewrite Exists_cons. setoid_rewrite <- IH. unfold PeerEntry.
  cbn [directPeerJoined_loop fst snd] in *. rewrite Hc, Hb. cbn [rbind].
  change (if str_empty tuple.2 then default "" (EvStateKey event) else tuple.2)
    with (member_of tuple event).
  destruct (str_eqb tuple.1 MRoomMember) eqn:Ht; cbn [negb]; str_bool;
    [|exists b; split; [done|]; split; [by right | by intros [[? _]|?]]].
  destruct (str_empty (member_of tuple event) || str_eqb (member_of tuple event) sender) eqn:Hu.
  { exists b. split; [done|]. split; [by right|]. intros [(_ & He & Hs & _)|]; [|done].
    apply orb_true_iff in Hu as [?%bool_decide_eq_true|?%str_eqb_true]; done. }
  str_bool.
  destruct (str_eqb (stringValue (get c "membership")) "join") eqn:Hj; str_bool.
  - exists true. split; [done|]. split; [|done]. intros _. left. eauto 10.
  - exists b. split; [done|]. split; [by right|].
    intros [(_ & _ & _ & c' & [= <-] & Hx)|]; [|done]. congruence.
Qed.

(** whether a direct peer is joined does not depend on the order in which
    Go visits the member events: when every content is a JSON object, the
    scan succeeds and finds a peer exactly when some other member is joined. *)
Theorem directPeerJoined_order_free q roomID sender res
  (Hquery : QueryCurrentState q roomID [(MRoomMember, "*")] true = Ok res)
  (Hjson : forall k e, res !! k = Some e -> is_Ok (eventContent (Some e))) :
  exists b, directPeerJoined q roomID sender = Ok b /\
    (b = true <-> exists k e, res !! k = Some e /\ PeerEntry sender (k, e)).
Proof.
  unfold directPeerJoined. rewrite Hquery. simpl.
  destruct (directPeerJoined_loop_spec sender (go_range res)) as (b & Hb & Hx).
  - apply Forall_forall. intros [k e] Hin%elem_of_go_range. simpl. by eapply Hjson.
  - exists b. split; [done|]. rewrite Hx, Exists_exists. split.
    + intros ([k e] & Hin%elem_of_go_range & HP). eauto.
    + intros (k & e & Hin%elem_of_go_range & HP). eauto.
Qed.
End Facts.

(** ** A concrete room

    A group room created by its owner with a second member, used to apply the
    theorems that have hypotheses. *)
Module Demo.
Definition ids : MatrixIDs := {|
  NewUserID s := if has_prefix s "@" && contains s ":" then Ok s else Err (ErrOther "user id");
  NewRoomID s := if has_prefix s "!" && contains s ":" then Ok s else Err (ErrOther "room id");
  SplitID s := match strip_prefix "@" s with
               | Some r => match cut ":" r with
                           | Some p => Ok p
                           | None => Err (ErrOther "id")
                           end
               | None => Err (ErrOther "id")
               end;
|}.

Definition event (sender : string) (key : string) (c : list (string * any)) : HeaderedEvent :=
  {| SenderID := sender; EvStateKey := Some key; Content := Ok c |}.

Definition state : StateEvents :=
  <[(MRoomCreate, "") := event "@owner:a" "" [("type", AString DirextalkRoomTypeGroup)]]>
  (<[(MRoomMember, "@owner:a") := event "@owner:a" "@owner:a" [("membership", AString "join")]]>
   {[(MRoomMember, "@peer:b") := event "@peer:b" "@peer:b" [("membership", AString "join")]]}).

Definition querier : CurrentStateQuerier := {|
  QueryCurrentState _ _ _ := Ok state;
  QueryMembershipForUser _ _ :=
    Ok {| Membership := ""; RoomExists := true; HasBeenInRoom := false; IsInRoom := false |};
  QueryUserIDForSender := None;
  InvitePending := None;
  QueryEventsByID _ _ := Ok [];
|}.

Definition policy : RP.roomPolicy :=
  match @resolveRoom ids map_to_list_range querier "!r:a" "@owner:a" with
  | Ok p => p
  | Err _ => zeroPolicy
  end.
End Demo.

Lemma resolveRoom_privileged_witness :
  SenderPrivileged Demo.policy = true <->
  @authoritativeCreateSenderMXID Demo.ids Demo.querier "!r:a" (Demo.state !! (MRoomCreate, ""))
    = Ok "@owner:a".
Proof.
  refine (@resolveRoom_privileged_iff Demo.ids map_to_list_range Demo.querier "!r:a" "@owner:a"
            Demo.state Demo.policy _ _ _);
    [reflexivity | vm_compute; reflexivity | vm_compute; reflexivity].
Defined.

Lemma directPeerJoined_witness :
  exists b, @directPeerJoined map_to_list_range Demo.querier "!r:a" "@owner:a" = Ok b /\
    (b = true <-> exists k e, Demo.state !! k = Some e /\ PeerEntry "@owner:a" (k, e)).
Proof.
  refine (@directPeerJoined_order_free map_to_list_range Demo.querier "!r:a" "@owner:a"
            Demo.state _ _).
  - reflexivity.
  - intros k e Hk. unfold Demo.state in Hk.
    repeat (apply lookup_insert_Some in Hk as [[_ <-]|[_ Hk]]; [eexists; reflexivity|]).
    apply lookup_singleton_Some in Hk as [_ <-]. eexists; reflexivity.
Defined.
