(* ===== verification/Action.v ===== *)
(** * The product action boundary

    Errors and the handler registry ([p2p/internal/action]), the published
    action table ([p2p/serviceapi/actions.go]), the authorisation of the
    service ([p2p/service.go], [p2p/routing.go]) and the HTTP adapter
    ([p2p/internal/httpapi]). *)

From Stdlib Require Import Ascii String ZArith Lia.
From stdpp Require Import base tactics list gmap strings.
From S2P Require Import Prelude GoStrings Values Policy.
Local Open Scope go_scope.

(** ** Errors ([action.go]) *)

Module Api.
Record Error := mk {
  Status : Z;
  Error_ : string;
  Code : string;
  OperationID : string;
  CurrentRoomID : string;
}.
#[global] Instance Error_eq_dec : EqDecision Error.
Proof. solve_decision. Defined.

Definition StatusError (status : Z) (message : string) : Error :=
  {| Status := status; Error_ := message; Code := ""; OperationID := ""; CurrentRoomID := "" |}.

Definition BadRequest (message : string) : Error := StatusError 400 message.

Definition CodedError (status : Z) (code message : string) : Error :=
  {| Status := status; Error_ := message; Code := code; OperationID := "";
     CurrentRoomID := "" |}.

Definition InternalError (err : string) : Error :=
  let message :=
    if str_eqb err "matrix member lookup is not configured"
    then "Matrix member lookup is not configured"
    else if str_eqb err "matrix transport is not configured"
    then "Matrix transport is not configured" else err in
  StatusError 500 ("internal error: " +:+ message).
End Api.

(** ** The action table ([actions.go]) *)

Inductive ActionAuth := ActionAuthPublic | ActionAuthOwner | ActionAuthAgent.
Inductive ActionTransport := ActionTransportHTTPOnly | ActionTransportInternalOnly.
#[global] Instance ActionAuth_eq_dec : EqDecision ActionAuth.
Proof. solve_decision. Defined.
#[global] Instance ActionTransport_eq_dec : EqDecision ActionTransport.
Proof. solve_decision. Defined.

(** The request and response schemas of a spec are documentation only. *)
Record ActionSpec := spec {
  Name : string;
  Auth : ActionAuth;
  Transport : ActionTransport;
}.
#[global] Instance ActionSpec_eq_dec : EqDecision ActionSpec.
Proof. solve_decision. Defined.

Definition actionSpecs : list ActionSpec := [
    spec "portal.bootstrap" ActionAuthPublic ActionTransportHTTPOnly;
    spec "portal.auth" ActionAuthPublic ActionTransportHTTPOnly;
    spec "portal.status" ActionAuthPublic ActionTransportHTTPOnly;
    spec "portal.password" ActionAuthOwner ActionTransportHTTPOnly;
    spec "portal.account.delete" ActionAuthOwner ActionTransportHTTPOnly;
    spec "client.version.report" ActionAuthOwner ActionTransportHTTPOnly;
    spec "release.v2.status" ActionAuthOwner ActionTransportHTTPOnly;
    spec "release.v2.apply" ActionAuthOwner ActionTransportHTTPOnly;
    spec "profile.get" ActionAuthOwner ActionTransportHTTPOnly;
    spec "profile.update" ActionAuthOwner ActionTransportHTTPOnly;
    spec "sync.bootstrap" ActionAuthOwner ActionTransportHTTPOnly;
    spec "sync.read_marker" ActionAuthOwner ActionTransportHTTPOnly;
    spec "conversations.list" ActionAuthOwner ActionTransportHTTPOnly;
    spec "conversations.get" ActionAuthOwner ActionTransportHTTPOnly;
    spec "agent.password" ActionAuthOwner ActionTransportHTTPOnly;
    spec "agent.session.create" ActionAuthOwner ActionTransportHTTPOnly;
    spec "agent.matrix_session.create" ActionAuthAgent ActionTransportHTTPOnly;
    spec "agent.config.get" ActionAuthOwner ActionTransportHTTPOnly;
    spec "agent.config.update" ActionAuthOwner ActionTransportHTTPOnly;
    spec "plugins.catalog.list" ActionAuthOwner ActionTransportHTTPOnly;
    spec "plugins.installed.list" ActionAuthOwner ActionTransportHTTPOnly;
    spec "plugins.install" ActionAuthOwner ActionTransportHTTPOnly;
    spec "plugins.enable" ActionAuthOwner ActionTransportHTTPOnly;
    spec "plugins.disable" ActionAuthOwner ActionTransportHTTPOnly;
    spec "plugins.uninstall" ActionAuthOwner ActionTransportHTTPOnly;
    spec "plugins.config.get" ActionAuthOwner ActionTransportHTTPOnly;
    spec "plugins.config.update" ActionAuthOwner ActionTransportHTTPOnly;
    spec "plugins.job.get" ActionAuthOwner ActionTransportHTTPOnly;
    spec "plugins.health" ActionAuthOwner ActionTransportHTTPOnly;
    spec "plugins.logs.tail" ActionAuthOwner ActionTransportHTTPOnly;
    spec "plugins.invoke" ActionAuthOwner ActionTransportHTTPOnly;
    spec "contacts.list" ActionAuthOwner ActionTransportHTTPOnly;
    spec "contacts.request" ActionAuthOwner ActionTransportHTTPOnly;
    spec "contacts.reactivate" ActionAuthPublic ActionTransportHTTPOnly;
    spec "rooms.reactivate" ActionAuthPublic ActionTransportHTTPOnly;
    spec "contacts.requests.accept" ActionAuthOwner ActionTransportHTTPOnly;
    spec "contacts.requests.reject" ActionAuthOwner ActionTransportHTTPOnly;
    spec "contacts.requests.delete" ActionAuthOwner ActionTransportHTTPOnly;
    spec "contacts.delete" ActionAuthOwner ActionTransportHTTPOnly;
    spec "contacts.update" ActionAuthOwner ActionTransportHTTPOnly;
    spec "blocks.list" ActionAuthOwner ActionTransportHTTPOnly;
    spec "blocks.add" ActionAuthOwner ActionTransportHTTPOnly;
    spec "blocks.remove" ActionAuthOwner ActionTransportHTTPOnly;
    spec "follows.list" ActionAuthOwner ActionTransportHTTPOnly;
    spec "follows.add" ActionAuthOwner ActionTransportHTTPOnly;
    spec "follows.remove" ActionAuthOwner ActionTransportHTTPOnly;
    spec "favorites.list" ActionAuthOwner ActionTransportHTTPOnly;
    spec "favorites.add" ActionAuthOwner ActionTransportHTTPOnly;
    spec "favorites.delete" ActionAuthOwner ActionTransportHTTPOnly;
    spec "favorites.delete_batch" ActionAuthOwner ActionTransportHTTPOnly;
    spec "reports.submit" ActionAuthPublic ActionTransportHTTPOnly;
    spec "calls.create" ActionAuthOwner ActionTransportHTTPOnly;
    spec "calls.incoming" ActionAuthOwner ActionTransportHTTPOnly;
    spec "calls.get" ActionAuthOwner ActionTransportHTTPOnly;
    spec "calls.event" ActionAuthOwner ActionTransportHTTPOnly;
    spec "calls.active" ActionAuthOwner ActionTransportHTTPOnly;
    spec "calls.list" ActionAuthOwner ActionTransportHTTPOnly;
    spec "groups.create" ActionAuthOwner ActionTransportHTTPOnly;
    spec "groups.agent.get" ActionAuthOwner ActionTransportHTTPOnly;
    spec "groups.agent.update" ActionAuthOwner ActionTransportHTTPOnly;
    spec "groups.agent.schedules" ActionAuthOwner ActionTransportHTTPOnly;
    spec "groups.update" ActionAuthOwner ActionTransportHTTPOnly;
    spec "groups.invite" ActionAuthOwner ActionTransportHTTPOnly;
    spec "groups.join" ActionAuthOwner ActionTransportHTTPOnly;
    spec "groups.list" ActionAuthOwner ActionTransportHTTPOnly;
    spec "groups.members" ActionAuthOwner ActionTransportHTTPOnly;
    spec "groups.dissolve" ActionAuthOwner ActionTransportHTTPOnly;
    spec "groups.leave" ActionAuthOwner ActionTransportHTTPOnly;
    spec "groups.invite.reject" ActionAuthOwner ActionTransportHTTPOnly;
    spec "groups.member.remove" ActionAuthOwner ActionTransportHTTPOnly;
    spec "groups.member.mute" ActionAuthOwner ActionTransportHTTPOnly;
    spec "groups.member.unmute" ActionAuthOwner ActionTransportHTTPOnly;
    spec "groups.mute" ActionAuthOwner ActionTransportHTTPOnly;
    spec "groups.unmute" ActionAuthOwner ActionTransportHTTPOnly;
    spec "groups.invite_policy.update" ActionAuthOwner ActionTransportHTTPOnly;
    spec "channels.create" ActionAuthOwner ActionTransportHTTPOnly;
    spec "channels.update" ActionAuthOwner ActionTransportHTTPOnly;
    spec "channels.join" ActionAuthOwner ActionTransportHTTPOnly;
    spec "channels.invite_grant.create" ActionAuthOwner ActionTransportHTTPOnly;
    spec "channels.invite" ActionAuthOwner ActionTransportHTTPOnly;
    spec "channels.dissolve" ActionAuthOwner ActionTransportHTTPOnly;
    spec "channels.leave" ActionAuthOwner ActionTransportHTTPOnly;
    spec "channels.member.remove" ActionAuthOwner ActionTransportHTTPOnly;
    spec "channels.member.mute" ActionAuthOwner ActionTransportHTTPOnly;
    spec "channels.member.unmute" ActionAuthOwner ActionTransportHTTPOnly;
    spec "channels.join_request.approve" ActionAuthOwner ActionTransportHTTPOnly;
    spec "channels.join_request.reject" ActionAuthOwner ActionTransportHTTPOnly;
    spec "channels.mute" ActionAuthOwner ActionTransportHTTPOnly;
    spec "channels.unmute" ActionAuthOwner ActionTransportHTTPOnly;
    spec "channels.read_marker" ActionAuthOwner ActionTransportHTTPOnly;
    spec "channels.list" ActionAuthOwner ActionTransportHTTPOnly;
    spec "channels.members" ActionAuthOwner ActionTransportHTTPOnly;
    spec "channels.public.search" ActionAuthPublic ActionTransportHTTPOnly;
    spec "channels.public.get" ActionAuthPublic ActionTransportHTTPOnly;
    spec "channels.public.posts.list" ActionAuthPublic ActionTransportHTTPOnly;
    spec "channels.public.join_request" ActionAuthPublic ActionTransportHTTPOnly;
    spec "channels.public.join_result" ActionAuthPublic ActionTransportHTTPOnly;
    spec "users.public_channels" ActionAuthPublic ActionTransportHTTPOnly;
    spec "channels.posts.list" ActionAuthOwner ActionTransportHTTPOnly;
    spec "channels.posts.create" ActionAuthOwner ActionTransportHTTPOnly;
    spec "channels.posts.update" ActionAuthOwner ActionTransportHTTPOnly;
    spec "channels.posts.recall" ActionAuthOwner ActionTransportHTTPOnly;
    spec "channels.comments.recall" ActionAuthOwner ActionTransportHTTPOnly;
    spec "channels.comments.list" ActionAuthOwner ActionTransportHTTPOnly;
    spec "channels.comments.create" ActionAuthOwner ActionTransportHTTPOnly;
    spec "channels.post_reaction.toggle" ActionAuthOwner ActionTransportHTTPOnly;
    spec "channels.comment_reaction.toggle" ActionAuthOwner ActionTransportHTTPOnly;
    spec "channels.my_comments" ActionAuthOwner ActionTransportHTTPOnly;
    spec "channels.my_reactions" ActionAuthOwner ActionTransportHTTPOnly].

(** [None] is the error "duplicate action spec name". *)
Fixpoint buildActionSpecIndex_loop (index : gmap string ActionSpec) (specs : list ActionSpec)
    : option (gmap string ActionSpec) :=
  match specs with
  | [] => Some index
  | s :: specs => match index !! Name s with
                  | Some _ => None
                  | None => buildActionSpecIndex_loop (<[Name s := s]> index) specs
                  end
  end.

Definition buildActionSpecIndex (specs : list ActionSpec) : option (gmap string ActionSpec) :=
  buildActionSpecIndex_loop ∅ specs.

(** [mustBuildActionSpecIndex] panics on [None]. *)
Definition actionSpecIndex : gmap string ActionSpec :=
  default ∅ (buildActionSpecIndex actionSpecs).

Definition ActionSpecFor (action : string) : option ActionSpec :=
  actionSpecIndex !! trim_space action.

Definition has_auth (auth : ActionAuth) (action : string) : bool :=
  match ActionSpecFor action with
  | Some s => bool_decide (Auth s = auth)
  | None => false
  end.

Definition PublicAction : string -> bool := has_auth ActionAuthPublic.
Definition AgentAction : string -> bool := has_auth ActionAuthAgent.

Definition HTTPAction (action : string) : bool :=
  match ActionSpecFor action with
  | Some s => bool_decide (Transport s = ActionTransportHTTPOnly)
  | None => false
  end.

Definition actionsWithAuth (auth : ActionAuth) : list string :=
  map Name (List.filter (fun s => bool_decide (Auth s = auth)) actionSpecs).

(** ** The handler registry ([registry.go]) *)

Module Registry.
Inductive error :=
| SpecNameNotCanonical (name : string)
| DuplicateSpec (name : string)
| SpecialNotCanonical (name : string)
| SpecialWithoutSpec (name : string)
| DuplicateSpecial (name : string)
| ModuleNameRequired
| HandlerNotCanonical (name module : string)
| NilHandler (name module : string)
| HandlerWithoutSpec (name module : string)
| HandlerForSpecial (name : string)
| DuplicateHandler (name owner module : string)
| MissingHandler (name : string).

Definition canonical (name : string) : bool :=
  negb (str_empty name || negb (str_eqb (trim_space name) name)).

Section Handlers.
(** The type of handlers; a nil handler is [None] in a module's map. *)
Context {H : Type}.

Record Registry_ := mk {
  specs : list ActionSpec;
  specByName : gmap string ActionSpec;
  routeSpecial : gset string;
  handlers : gmap string H;
  owners : gmap string string;
}.

Fixpoint index_specs (m : gmap string ActionSpec) (l : list ActionSpec)
    : result error (gmap string ActionSpec) :=
  match l with
  | [] => Ok m
  | s :: l =>
      if negb (canonical (Name s)) then Err (SpecNameNotCanonical (Name s))
      else match m !! Name s with
           | Some _ => Err (DuplicateSpec (Name s))
           | None => index_specs (<[Name s := s]> m) l
           end
  end.

Fixpoint add_special (m : gmap string ActionSpec) (special : gset string) (l : list string)
    : result error (gset string) :=
  match l with
  | [] => Ok special
  | name :: l =>
      if negb (canonical name) then Err (SpecialNotCanonical name)
      else match m !! name with
           | None => Err (SpecialWithoutSpec name)
           | Some _ => if bool_decide (name ∈ special) then Err (DuplicateSpecial name)
                       else add_special m ({[name]} ∪ special) l
           end
  end.

Definition NewRegistry (l : list ActionSpec) (special : list string)
    : result error Registry_ :=
  let? m := index_specs ∅ l in
  let? sp := add_special m ∅ special in
  Ok {| specs := l; specByName := m; routeSpecial := sp; handlers := ∅; owners := ∅ |}.

(** The checks of [Merge] on one name. *)
Definition check_handler (r : Registry_) (module name : string) (handler : option H)
    : result error unit :=
  if negb (canonical name) then Err (HandlerNotCanonical name module)
  else match handler with
       | None => Err (NilHandler name module)
       | Some _ =>
           match specByName r !! name with
           | None => Err (HandlerWithoutSpec name module)
           | Some _ =>
               if bool_decide (name ∈ routeSpecial r) then Err (HandlerForSpecial name)
               else match owners r !! name with
                    | Some owner => Err (DuplicateHandler name owner module)
                    | None => Ok ()
                    end
           end
       end.

Fixpoint check_handlers (r : Registry_) (module : string) (l : list (string * option H))
    : result error unit :=
  match l with
  | [] => Ok ()
  | (name, handler) :: l =>
      let? _ := check_handler r module name handler in check_handlers r module l
  end.

Definition add_handler (module : string) (r : Registry_) (nh : string * option H)
    : Registry_ :=
  match nh.2 with
  | Some h => {| specs := specs r; specByName := specByName r;
                 routeSpecial := routeSpecial r;
                 handlers := <[nh.1 := h]> (handlers r);
                 owners := <[nh.1 := module]> (owners r) |}
  | None => r                         (* excluded by the checks *)
  end.

(** The names of the module in sorted order, with their handlers. *)
Definition sorted_handlers (m : gmap string (option H)) : list (string * option H) :=
  stable_sort (fun a b => str_ltb a.1 b.1) (map_to_list m).

Definition Merge (r : Registry_) (module : string) (m : gmap string (option H))
    : result error Registry_ :=
  let module := trim_space module in
  if str_empty module then Err ModuleNameRequired
  else
    let? _ := check_handlers r module (sorted_handlers m) in
    Ok (foldl (add_handler module) r (sorted_handlers m)).

Fixpoint Validate_loop (r : Registry_) (l : list ActionSpec) : result error unit :=
  match l with
  | [] => Ok ()
  | s :: l =>
      if bool_decide (Name s ∈ routeSpecial r) then Validate_loop r l
      else match handlers r !! Name s with
           | None => Err (MissingHandler (Name s))
           | Some _ => Validate_loop r l
           end
  end.

Definition Validate (r : Registry_) : result error unit := Validate_loop r (specs r).

Fixpoint merge_all (r : Registry_) (modules : list (string * gmap string (option H)))
    : result error Registry_ :=
  match modules with
  | [] => Ok r
  | (name, m) :: modules => let? r := Merge r name m in merge_all r modules
  end.

(** [mustBuildActionHandlers] ([p2p/action_registry.go]); an error is a panic. *)
Definition mustBuildActionHandlers (l : list ActionSpec) (special : list string)
    (modules : list (string * gmap string (option H))) : result error (gmap string H) :=
  let? r := NewRegistry l special in
  let? r := merge_all r modules in
  let? _ := Validate r in
  Ok (handlers r).
End Handlers.
Arguments Registry_ : clear implicits.
End Registry.

(** ** Authorisation and the HTTP adapter *)

Module HTTP.
Definition matrixPortalDeviceID := "P2P_PORTAL".

Record portalActionSession := { DeviceID : string; Generation : Z }.

(** What authorisation reads of the service. *)
Record credentials := {
  accessToken : string;
  agentToken : string;
  matrixDeviceID : string;
  portalSessionGeneration : Z;
}.

Definition cleanMatrixDeviceID (deviceID : string) : string :=
  let deviceID := trim_space deviceID in
  if str_empty deviceID then matrixPortalDeviceID else deviceID.

Definition no_session : portalActionSession := {| DeviceID := ""; Generation := 0 |}.

Definition authorizeProductAction (s : credentials) (token action : string)
    : portalActionSession * bool :=
  if str_empty token then (no_session, false)
  else match ActionSpecFor action with
       | None => (no_session, false)
       | Some _ =>
           if str_eqb token (accessToken s)
           then ({| DeviceID := cleanMatrixDeviceID (matrixDeviceID s);
                    Generation := portalSessionGeneration s |}, true)
           else (no_session, str_eqb token (agentToken s) && AgentAction action)
       end.

Definition BearerToken (header : string) : string :=
  if negb (has_prefix header "Bearer ") then "" else trim_prefix header "Bearer ".

(** [ctx] as the session value it carries. *)
Abbreviation context := (option portalActionSession).

Definition Authorize (s : credentials) (token action : string) : context * bool :=
  let '(identity, authorized) := authorizeProductAction s token action in
  if negb authorized then (None, false)
  else (if Z.eqb (Generation identity) 0 then None else Some identity, true).

(** A request: its method, its [Authorization] header and its decoded body
    ([None] when it is not a JSON envelope of at most 1 MiB). *)
Record request := {
  Method : string;
  Authorization : string;
  Body : option (string * option content);
}.

Inductive response :=
| NoContent
| ErrorReply (e : Api.Error)
| JSONReply (value : any).

Section Product.
(** The state of the service and its actions. *)
Context {St : Type}.
Context (actions : gmap string (St -> context -> content -> St * result Api.Error any)).
Context (creds : St -> credentials).
(** [ResponseForRequest]: resolves an automatic homeserver. *)
Context (ResponseForRequest : any -> any).

Definition ProductHandler (st : St) (r : request) : St * response :=
  if str_eqb (Method r) "OPTIONS" then (st, NoContent)
  else match Body r with
  | None => (st, ErrorReply (Api.BadRequest "invalid json"))
  | Some (rawAction, params) =>
      let params := default ∅ params in
      let action := trim_space rawAction in
      if str_empty action then (st, ErrorReply (Api.BadRequest "action is required"))
      else match ActionSpecFor action, actions !! action with
      | None, _ | _, None => (st, ErrorReply (Api.BadRequest "unknown action"))
      | Some _, Some handler =>
          if negb (HTTPAction action) then
            (st, ErrorReply (Api.StatusError 400
                   "action is not available over Product HTTP"))
          else
            let run ctx :=
              match handler st ctx params with
              | (st, Err e) => (st, ErrorReply e)
              | (st, Ok v) => (st, JSONReply (ResponseForRequest v))
              end in
            if PublicAction action then run None
            else
              let '(ctx, authorized) :=
                Authorize (creds st) (BearerToken (Authorization r)) action in
              if negb authorized
              then (st, ErrorReply (Api.StatusError 401 "M_UNKNOWN_TOKEN"))
              else run ctx
      end
  end.
End Product.
End HTTP.
