(* ===== verification/ActionFacts.v ===== *)
(** * Correctness of the action boundary

    The handler registry is built exactly when modules and table fit each
    other, and the HTTP adapter runs an action exactly when the caller is
    allowed to. *)

From Stdlib Require Import Ascii String ZArith Lia.
From stdpp Require Import base tactics list gmap strings.
From S2P Require Import Prelude GoStrings Values Policy PolicyFacts Action.
Local Open Scope go_scope.

#[local] Opaque trim_space.

(** ** The index of the table *)

Lemma index_loop_spec specs index r :
  buildActionSpecIndex_loop index specs = Some r ->
  forall name s, r !! name = Some s <->
    index !! name = Some s \/ (s ∈ specs /\ Name s = name).
Proof.
  revert index. induction specs as [|x specs IH]; cbn; intros index Hr name s.
  { simplify_eq. set_solver. }
  destruct (index !! Name x) eqn:Hx; [done|]. rewrite (IH _ Hr), lookup_insert_Some, elem_of_cons.
  destruct (decide (Name x = name)) as [<-|]; naive_solver.
Qed.

Lemma index_built : is_Some (buildActionSpecIndex actionSpecs).
Proof.
  assert (Hb : (if buildActionSpecIndex actionSpecs then true else false) = true)
    by (vm_compute; reflexivity).
  destruct (buildActionSpecIndex actionSpecs); [eauto|discriminate].
Qed.
#[local] Opaque actionSpecs buildActionSpecIndex.

Lemma ActionSpecFor_spec action s :
  ActionSpecFor action = Some s <-> s ∈ actionSpecs /\ Name s = trim_space action.
Proof.
  unfold ActionSpecFor, actionSpecIndex. destruct index_built as [index Hi].
  rewrite Hi. cbn [default from_option id].
  rewrite (index_loop_spec _ _ _ Hi), lookup_empty. split; [by intros [?|?]|by right].
Qed.

Lemma index_unique specs index s t :
  buildActionSpecIndex_loop ∅ specs = Some index ->
  s ∈ specs -> t ∈ specs -> Name s = Name t -> s = t.
Proof.
  intros Hi Hs Ht Hn.
  assert (index !! Name s = Some s) as H1 by (apply (index_loop_spec _ _ _ Hi); by right).
  assert (index !! Name s = Some t) as H2 by (apply (index_loop_spec _ _ _ Hi); by right).
  congruence.
Qed.

Lemma spec_unique s t : s ∈ actionSpecs -> t ∈ actionSpecs -> Name s = Name t -> s = t.
Proof. destruct index_built as [index Hi]. exact (index_unique _ _ s t Hi). Qed.

Lemma ActionSpecFor_trim a : ActionSpecFor (trim_space a) = ActionSpecFor a.
Proof. unfold ActionSpecFor. by rewrite trim_space_idemp. Qed.
#[local] Opaque ActionSpecFor actionSpecIndex.

(** ** The HTTP adapter *)

Section Adapter.
Context {St : Type}.
Context (actions : gmap string (St -> HTTP.context -> content -> St * result Api.Error any)).
Context (creds : St -> HTTP.credentials) (respond : any -> any).

(** Who may run an action, and the session it runs under. *)
Definition allowed (c : HTTP.credentials) (token : string) (s : ActionSpec)
    (ctx : HTTP.context) : Prop :=
  match Auth s with
  | ActionAuthPublic => ctx = None
  | _ =>
      token <> "" /\
      ((token = HTTP.accessToken c /\
        ctx = if Z.eqb (HTTP.portalSessionGeneration c) 0 then None
              else Some {| HTTP.DeviceID := HTTP.cleanMatrixDeviceID (HTTP.matrixDeviceID c);
                           HTTP.Generation := HTTP.portalSessionGeneration c |}) \/
       (token <> HTTP.accessToken c /\ token = HTTP.agentToken c /\
        Auth s = ActionAuthAgent /\ ctx = None))
  end.

(** The request asks for a published and registered HTTP action and the
    caller may run it. *)
Definition admitted (st : St) (r : HTTP.request) (params : content) (ctx : HTTP.context)
    (handler : St -> HTTP.context -> content -> St * result Api.Error any) : Prop :=
  exists raw s, HTTP.Method r <> "OPTIONS" /\
    (exists p, HTTP.Body r = Some (raw, p) /\ params = default ∅ p) /\
    trim_space raw <> "" /\ s ∈ actionSpecs /\ Name s = trim_space raw /\
    Transport s = ActionTransportHTTPOnly /\ actions !! trim_space raw = Some handler /\
    allowed (creds st) (HTTP.BearerToken (HTTP.Authorization r)) s ctx.

Definition reply (out : St * result Api.Error any) : St * HTTP.response :=
  match out with
  | (st, Err e) => (st, HTTP.ErrorReply e)
  | (st, Ok v) => (st, HTTP.JSONReply (respond v))
  end.

Lemma Authorize_spec c token a s :
  ActionSpecFor a = Some s -> Auth s <> ActionAuthPublic ->
  match HTTP.Authorize c token a with
  | (ctx, true) => allowed c token s ctx
  | (_, false) => forall ctx, ~ allowed c token s ctx
  end.
Proof.
  intros Hs Hp. unfold HTTP.Authorize, HTTP.authorizeProductAction, allowed, AgentAction, has_auth.
  rewrite Hs. clear Hs. destruct (str_empty token) eqn:E1; str_bool.
  { intros ctx. destruct (Auth s); [done| |]; intros [? _]; congruence. }
  destruct (str_eqb token (HTTP.accessToken c)) eqn:E2; str_bool; cbn [negb].
  { destruct (Auth s); [done| |]; auto. }
  destruct (str_eqb token (HTTP.agentToken c)) eqn:E3; str_bool; cbn [andb].
  - destruct (Auth s); [done| |]; cbn; [naive_solver|]. split; [done|]. right. done.
  - intros ctx. destruct (Auth s); naive_solver.
Qed.

(** C27.  The Product HTTP adapter runs a handler exactly for requests it
    should admit: the envelope decodes, the trimmed action is published for
    HTTP and registered, and it is public, or the bearer token is the owner's
    access token, or it is the agent's token and the action is an agent
    action.  Such a request runs that handler once, under the owner session
    when the owner called, and returns its result; every other request
    leaves the service unchanged and gets no result. *)
Theorem product_handler_admits st r :
  (exists params ctx handler, admitted st r params ctx handler /\
     HTTP.ProductHandler actions creds respond st r = reply (handler st ctx params)) \/
  ((forall params ctx handler, ~ admitted st r params ctx handler) /\
   (HTTP.ProductHandler actions creds respond st r).1 = st /\
   forall v, (HTTP.ProductHandler actions creds respond st r).2 <> HTTP.JSONReply v).
Proof.
  unfold HTTP.ProductHandler, admitted, HTTPAction, PublicAction, has_auth.
  pose proof ActionSpecFor_spec as Hspec. pose proof ActionSpecFor_trim as Htrim.
  pose proof spec_unique as Hsame. pose proof Authorize_spec as Hauthorize.
  revert Hspec Htrim Hsame Hauthorize. generalize ActionSpecFor as spec_for.
  generalize actionSpecs as specs. generalize HTTP.Authorize as authorize.
  intros authorize specs spec_for Hspec Htrim Hsame Hauthorize.
  destruct (str_eqb (HTTP.Method r) "OPTIONS") eqn:Em; str_bool; [right; naive_solver|].
  destruct (HTTP.Body r) as [[raw p]|] eqn:Eb; [|right; naive_solver].
  destruct (str_empty (trim_space raw)) eqn:Ea; str_bool; [right; naive_solver|].
  rewrite Htrim. destruct (spec_for raw) as [s|] eqn:Es; cycle 1.
  { right. split; [|done]. intros params ctx h (raw' & s & _ & (p' & Hb & _) & _ & Hin & Hn & _).
    simplify_eq. rewrite (proj2 (Hspec raw' s)) in Es; done. }
  pose proof (proj1 (Hspec raw s) Es) as [Hin Hn].
  destruct (actions !! trim_space raw) as [h|] eqn:Eh; cycle 1.
  { right. split; [|done]. intros params ctx h (raw' & s' & _ & (p' & Hb & _) & _ & _ & _ & _ & Hh & _).
    simplify_eq. }
  assert (Huniq : forall raw' s' p', HTTP.Body r = Some (raw', p') -> s' ∈ specs ->
    Name s' = trim_space raw' -> s' = s /\ raw' = raw).
  { intros raw' s' p' Hb Hin' Hn'. rewrite Eb in Hb. simplify_eq.
    split; [apply Hsame; congruence|done]. }
  case_bool_decide as Ht; cbn [negb]; cycle 1.
  { right. split; [|done].
    intros params ctx h' (raw' & s' & _ & (p' & Hb & _) & _ & Hin' & Hn' & Ht' & _).
    rewrite <- Eb in Hb. destruct (Huniq raw' s' p' Hb Hin' Hn') as [-> ->]. done. }
  case_bool_decide as Hpub.
  { left. exists (default ∅ p), None, h. split; [|by destruct (h st None _) as [? []]].
    exists raw, s. unfold allowed. rewrite Hpub. naive_solver. }
  rewrite <- (Htrim raw) in Es.
  pose proof (Hauthorize (creds st) (HTTP.BearerToken (HTTP.Authorization r)) _ _ Es Hpub)
    as Hauth.
  destruct (authorize _ _ _) as [ctx []]; cbn [negb].
  { left. exists (default ∅ p), ctx, h. split; [|by destruct (h st ctx _) as [? []]].
    exists raw, s. naive_solver. }
  right. split; [|done].
  intros params ctx' h' (raw' & s' & _ & (p' & Hb & _) & _ & Hin' & Hn' & _ & _ & Hal).
  rewrite <- Eb in Hb. destruct (Huniq raw' s' p' Hb Hin' Hn') as [-> ->]. by apply (Hauth ctx').
Qed.
End Adapter.

(** ** The registry *)

Section Registry.
Context {H : Type}.
Implicit Types (r : Registry.Registry_ H) (m : gmap string (option H)).
Import Registry.

Abbreviation names := (map Name).

Lemma index_specs_Ok (m0 : gmap string ActionSpec) l (m : gmap string ActionSpec) :
  index_specs m0 l = Ok m <->
  Forall (fun s => canonical (Name s) = true) l /\ NoDup (names l) /\
  (forall n, n ∈ names l -> m0 !! n = None) /\
  m = foldl (fun ix s => <[Name s := s]> ix) m0 l.
Proof.
  revert m0. induction l as [|s l IH]; intros m0; cbn.
  { split; [intros [= <-]; split_and!; [constructor|constructor|set_solver|done]|].
    by intros (_ & _ & _ & ->). }
  destruct (canonical (Name s)) eqn:Ec; cbn [negb]; cycle 1.
  { split; [done|]. intros (Hf & _). apply Forall_cons in Hf as [? _]. congruence. }
  destruct (m0 !! Name s) eqn:Em.
  { split; [done|]. intros (_ & _ & Hn & _). rewrite Hn in Em by set_solver. done. }
  rewrite IH, Forall_cons, NoDup_cons. split.
  - intros (Hf & Hnd & Hfree & ->). split_and!; try done.
    + intros Hin. apply Hfree in Hin. by rewrite lookup_insert_eq in Hin.
    + intros n [->|Hin]%elem_of_cons; [done|]. apply Hfree, lookup_insert_None in Hin. tauto.
  - intros ([_ Hf] & [Hni Hnd] & Hfree & ->). split_and!; try done.
    intros n Hn. rewrite lookup_insert_ne by (intros Heq; by rewrite Heq in Hni).
    apply Hfree. by right.
Qed.

Lemma foldl_index_dom l (m0 : gmap string ActionSpec) n :
  is_Some (foldl (fun ix s => <[Name s := s]> ix) m0 l !! n) <-> is_Some (m0 !! n) \/ n ∈ names l.
Proof.
  revert m0. induction l as [|s l IH]; intros m0; cbn; [set_solver|].
  rewrite IH, elem_of_cons. destruct (decide (Name s = n)) as [->|].
  - rewrite lookup_insert_eq. naive_solver.
  - rewrite lookup_insert_ne by done. naive_solver.
Qed.

Lemma add_special_Ok (m : gmap string ActionSpec) sp0 l sp :
  add_special m sp0 l = Ok sp <->
  Forall (fun n => canonical n = true /\ is_Some (m !! n)) l /\ NoDup l /\
  (forall n, n ∈ l -> n ∉ sp0) /\ sp = foldl (fun sp n => {[n]} ∪ sp) sp0 l.
Proof.
  revert sp0. induction l as [|n l IH]; intros sp0; cbn.
  { split; [intros [= <-]; split_and!; [constructor|constructor|set_solver|done]|].
    by intros (_ & _ & _ & ->). }
  destruct (canonical n) eqn:Ec; cbn [negb]; cycle 1.
  { split; [done|]. intros (Hf & _). apply Forall_cons in Hf as [[? _] _]. congruence. }
  destruct (m !! n) eqn:Em; cycle 1.
  { split; [done|]. intros (Hf & _). apply Forall_cons in Hf as [[_ [? ?]] _]. congruence. }
  case_bool_decide as Hin.
  { split; [done|]. intros (_ & _ & Hn & _). exfalso. apply (Hn n); set_solver. }
  rewrite IH, Forall_cons, NoDup_cons, Em. split.
  - intros (Hf & Hnd & Hfree & ->). split_and!; try done; set_solver.
  - intros (Hf & [Hni Hnd] & Hfree & ->). split_and!; try done; set_solver.
Qed.

Lemma foldl_special l (sp0 : gset string) n :
  n ∈ foldl (fun sp n => {[n]} ∪ sp) sp0 l <-> n ∈ sp0 \/ n ∈ l.
Proof. revert sp0. induction l as [|x l IH]; intros sp0; cbn; [set_solver|]. rewrite IH. set_solver. Qed.

(** A name and handler [Merge] accepts. *)
Definition acceptable r (name : string) (h : option H) : Prop :=
  canonical name = true /\ is_Some h /\ is_Some (specByName r !! name) /\
  name ∉ routeSpecial r /\ owners r !! name = None.

Lemma check_handlers_Ok r module l :
  check_handlers r module l = Ok () <-> forall n h, (n, h) ∈ l -> acceptable r n h.
Proof.
  unfold acceptable. induction l as [|[n h] l IH]; cbn; [set_solver|].
  assert (Hone : check_handler r module n h = Ok () <-> acceptable r n h).
  { unfold check_handler, acceptable. destruct (canonical n); cbn; [|naive_solver].
    destruct h; [|naive_solver]. destruct (specByName r !! n); [|naive_solver].
    case_bool_decide; [naive_solver|]. destruct (owners r !! n); naive_solver. }
  destruct (check_handler r module n h) as [[]|] eqn:E; cbn.
  - rewrite IH. setoid_rewrite elem_of_cons. naive_solver.
  - split; [done|]. intros Hall. apply Hone. apply Hall. set_solver.
Qed.

(** What a merged module adds. *)
Definition merged r (module : string) m : Registry_ H :=
  {| specs := specs r; specByName := specByName r; routeSpecial := routeSpecial r;
     handlers := omap id m ∪ handlers r;
     owners := ((fun _ => module) <$> omap id m) ∪ owners r |}.

Lemma add_handlers_merged r module l m :
  l ≡ₚ map_to_list m -> foldl (add_handler module) r l = merged r module m.
Proof.
  revert m. induction l as [|[n h] l IH] using rev_ind; intros m Hl.
  { symmetry in Hl. apply Permutation_nil_r, map_to_list_empty_iff in Hl as ->.
    unfold merged. rewrite omap_empty, fmap_empty.
    rewrite (left_id_L ∅ (∪) (handlers r)), (left_id_L ∅ (∪) (owners r)). by destruct r. }
  assert (Hm : m !! n = Some h) by (apply elem_of_map_to_list; rewrite <- Hl; set_solver).
  rewrite foldl_app. cbn. rewrite (IH (delete n m)); cycle 1.
  { apply (Permutation_cons_inv (a := (n, h))). rewrite map_to_list_delete by done.
    rewrite <- Hl. by rewrite Permutation_app_comm. }
  unfold add_handler, merged. cbn. destruct h as [h|].
  - f_equal; rewrite insert_union_l; f_equal; apply map_eq; intros k;
      destruct (decide (n = k)) as [<-|Hne];
      rewrite ?lookup_insert_eq, ?lookup_insert_ne by done;
      rewrite ?lookup_fmap, ?lookup_omap, ?Hm; try done;
      by rewrite lookup_delete_ne.
  - f_equal; f_equal; apply map_eq; intros k; destruct (decide (n = k)) as [<-|Hne];
      rewrite ?lookup_fmap, !lookup_omap, ?Hm, ?lookup_delete_eq; try done;
      by rewrite lookup_delete_ne.
Qed.

Lemma Merge_Ok r module m r' :
  Merge r module m = Ok r' <->
  trim_space module <> "" /\ (forall n h, m !! n = Some h -> acceptable r n h) /\
  r' = merged r (trim_space module) m.
Proof.
  unfold Merge. destruct (str_empty (trim_space module)) eqn:E; str_bool.
  { split; [done|]. by intros [? _]. }
  assert (Hp : sorted_handlers m ≡ₚ map_to_list m) by apply stable_sort_perm.
  assert (Hc : check_handlers r (trim_space module) (sorted_handlers m) = Ok () <->
    forall n h, m !! n = Some h -> acceptable r n h).
  { rewrite check_handlers_Ok. by setoid_rewrite Hp; setoid_rewrite elem_of_map_to_list. }
  rewrite (add_handlers_merged _ _ _ _ Hp).
  destruct (check_handlers _ _ _) as [[]|e]; cbn.
  - split; [intros [= <-]; split_and!; try done; by apply Hc|]. by intros (_ & _ & ->).
  - split; [done|]. intros (_ & Hall & _). by apply Hc in Hall.
Qed.

(** The modules fit the table: named, with canonical, non-nil handlers of
    published actions that are not served by a route, no two modules with a
    common action. *)
Definition module_ok (l : list ActionSpec) (special : list string)
    (module : string * gmap string (option H)) : Prop :=
  trim_space module.1 <> "" /\
  forall n h, module.2 !! n = Some h ->
    canonical n = true /\ is_Some h /\ n ∈ names l /\ n ∉ special.

Fixpoint disjoint_modules (modules : list (string * gmap string (option H))) : Prop :=
  match modules with
  | [] => True
  | x :: modules => Forall (fun y => x.2 ##ₘ y.2) modules /\ disjoint_modules modules
  end.

Definition contract (l : list ActionSpec) (special : list string)
    (modules : list (string * gmap string (option H))) : Prop :=
  Forall (fun s => canonical (Name s) = true) l /\ NoDup (names l) /\
  Forall (fun n => canonical n = true /\ n ∈ names l) special /\ NoDup special /\
  Forall (module_ok l special) modules /\ disjoint_modules modules /\
  (forall n, n ∈ names l -> n ∉ special -> exists x, x ∈ modules /\ is_Some (x.2 !! n)).

(** The registry after some modules: the table is fixed and the handlers and
    owners cover the same names. *)
Definition registry_for (l : list ActionSpec) (special : list string) r : Prop :=
  specs r = l /\ (forall n, is_Some (specByName r !! n) <-> n ∈ names l) /\
  (forall n, n ∈ routeSpecial r <-> n ∈ special) /\
  (forall n, is_Some (owners r !! n) <-> is_Some (handlers r !! n)).

Lemma merged_for l special r module m :
  registry_for l special r -> registry_for l special (merged r module m).
Proof.
  intros (Hl & Hs & Hsp & Ho). split_and!; try done. intros n. cbn.
  rewrite !lookup_union_is_Some, lookup_fmap, fmap_is_Some, Ho. done.
Qed.

Lemma acceptable_for l special r module m :
  registry_for l special r -> trim_space module <> "" ->
  (forall n h, m !! n = Some h -> acceptable r n h) <->
  module_ok l special (module, m) /\ forall n, is_Some (m !! n) -> handlers r !! n = None.
Proof.
  intros (_ & Hs & Hsp & Ho) Hm. unfold module_ok, acceptable. cbn. split.
  - intros Hall. split; [split; [done|]|].
    + intros n h Hn. destruct (Hall n h Hn) as (? & ? & ? & Hns & _).
      rewrite Hsp in Hns. rewrite <- Hs. done.
    + intros n [h Hn]. destruct (Hall n h Hn) as (_ & _ & _ & _ & Hf).
      apply eq_None_not_Some. rewrite <- Ho, Hf. by intros [? ?].
  - intros [[_ Hall] Hfree] n h Hn. destruct (Hall n h Hn) as (? & ? & ? & ?).
    rewrite Hs, Hsp. split_and!; try done. apply eq_None_not_Some. rewrite Ho.
    rewrite Hfree by eauto. by intros [? ?].
Qed.

(** The handlers of a list of modules. *)
Definition provides (modules : list (string * gmap string (option H))) (n : string) (h : H)
    : Prop := exists x, x ∈ modules /\ x.2 !! n = Some (Some h).

Lemma merge_all_Ok l special modules r r' :
  registry_for l special r ->
  merge_all r modules = Ok r' ->
  registry_for l special r' /\ Forall (module_ok l special) modules /\
  disjoint_modules modules /\
  Forall (fun x => forall n, is_Some (x.2 !! n) -> handlers r !! n = None) modules /\
  (forall n h, handlers r' !! n = Some h <-> handlers r !! n = Some h \/ provides modules n h).
Proof.
  revert r. induction modules as [|[name m] modules IH]; intros r Hr; cbn.
  { intros [= <-]. split_and!; try done. unfold provides. set_solver. }
  intros (r1 & Hm & Hrest)%rbind_Ok_inv. apply Merge_Ok in Hm as (Hname & Hacc & ->).
  apply (acceptable_for l special r name m Hr Hname) in Hacc as [Hok Hfree].
  destruct (IH _ (merged_for _ _ _ (trim_space name) m Hr) Hrest)
    as (Hr' & Hoks & Hdis & Hnew & Hh).
  assert (Hdom : forall n, is_Some (m !! n) -> is_Some (omap id m !! n)).
  { intros n [o Ho]. rewrite lookup_omap, Ho. cbn. destruct Hok as [_ Hok].
    by destruct (Hok n o Ho) as (_ & ? & _). }
  cbn [handlers merged] in *. setoid_rewrite lookup_union_None in Hnew. split_and!.
  - done.
  - by constructor.
  - eapply Forall_impl; [exact Hnew|]. cbn. intros y Hy. apply map_disjoint_spec.
    intros n o1 o2 H1 H2. destruct (Hy n) as [Hno _]; [eauto|].
    destruct (Hdom n) as [? Hsome]; [eauto|]. congruence.
  - done.
  - constructor; [done|]. eapply Forall_impl; [exact Hnew|]. cbn. intros y Hy n Hn. by apply Hy.
  - intros n h. rewrite Hh, lookup_union_Some_raw, lookup_omap. unfold provides.
    setoid_rewrite elem_of_cons. split.
    + intros [[Ho|[_ Hr0]]|(x & Hx & Hxn)]; [|by left|right; eauto].
      destruct (m !! n) as [o|] eqn:Emn; [|done]. cbn in Ho. subst o.
      right. exists (name, m). auto.
    + intros [Hr0|(x & [->|Hx] & Hxn)]; [| |right; eauto].
      * left. right. split; [|done]. destruct (m !! n) eqn:Emn; [|done].
        rewrite (Hfree n) in Hr0 by eauto. done.
      * left. left. cbn in Hxn. by rewrite Hxn.
Qed.
Lemma merge_all_total l special modules r :
  registry_for l special r -> Forall (module_ok l special) modules ->
  disjoint_modules modules ->
  Forall (fun x => forall n, is_Some (x.2 !! n) -> handlers r !! n = None) modules ->
  exists r', merge_all r modules = Ok r'.
Proof.
  revert r. induction modules as [|[name m] modules IH]; intros r Hr; cbn; [eauto|].
  intros [Hok Hoks]%Forall_cons [Hd Hdis] [Hfree Hfrees]%Forall_cons.
  assert (Hm : Merge r name m = Ok (merged r (trim_space name) m)).
  { apply Merge_Ok. split; [apply Hok|]. split; [|done].
    apply (acceptable_for l special r name m Hr (proj1 Hok)). done. }
  rewrite Hm. cbn. apply IH; [by apply merged_for|done|done|].
  apply Forall_forall. intros y Hy n Hn. cbn.
  rewrite Forall_forall in Hd, Hfrees. apply lookup_union_None. split; [|by apply (Hfrees y Hy)].
  rewrite lookup_omap. destruct (m !! n) as [o|] eqn:Em; [|done].
  destruct Hn as [o' Hn]. exfalso. specialize (Hd y Hy). cbn in Hd.
  by rewrite map_disjoint_spec in Hd; eapply Hd.
Qed.

Lemma Validate_Ok r :
  Validate r = Ok () <->
  forall n, n ∈ names (specs r) -> n ∉ routeSpecial r -> is_Some (handlers r !! n).
Proof.
  unfold Validate. generalize (specs r). intros l. induction l as [|s l IH]; cbn; [set_solver|].
  case_bool_decide as Hs.
  - rewrite IH. setoid_rewrite elem_of_cons. naive_solver.
  - destruct (handlers r !! Name s) eqn:Eh.
    + rewrite IH. setoid_rewrite elem_of_cons. naive_solver.
    + split; [done|]. intros Hall. destruct (Hall (Name s)) as [? ?]; [set_solver|done|congruence].
Qed.

Lemma NewRegistry_Ok l special r :
  NewRegistry l special = Ok r ->
  registry_for l special r /\ handlers r = ∅ /\
  Forall (fun s => canonical (Name s) = true) l /\ NoDup (names l) /\
  Forall (fun n => canonical n = true /\ n ∈ names l) special /\ NoDup special.
Proof.
  unfold NewRegistry. intros (m & Hm & Hr)%rbind_Ok_inv.
  apply rbind_Ok_inv in Hr as (sp & Hsp & [= <-]).
  apply index_specs_Ok in Hm as (Hf & Hnd & _ & ->).
  apply add_special_Ok in Hsp as (Hsf & Hsnd & _ & ->).
  assert (Hdom : forall n, is_Some (foldl (fun ix s => <[Name s := s]> ix)
    (∅ : gmap string ActionSpec) l !! n) <-> n ∈ names l).
  { intros n. rewrite foldl_index_dom, lookup_empty. split; [|auto].
    by intros [[? ?]|?]. }
  unfold registry_for. cbn. split_and!; try done.
  - intros n. rewrite foldl_special. set_solver.
  - intros n. rewrite !lookup_empty. split; by intros [? ?].
  - eapply Forall_impl; [exact Hsf|]. cbn. intros n. by rewrite Hdom.
Qed.

Lemma NewRegistry_total l special :
  Forall (fun s => canonical (Name s) = true) l -> NoDup (names l) ->
  Forall (fun n => canonical n = true /\ n ∈ names l) special -> NoDup special ->
  exists r, NewRegistry l special = Ok r.
Proof.
  intros Hf Hnd Hsf Hsnd. unfold NewRegistry.
  rewrite (proj2 (index_specs_Ok ∅ l _) (conj Hf (conj Hnd (conj (fun n _ => lookup_empty n)
    eq_refl)))). cbn [rbind].
  erewrite (proj2 (add_special_Ok _ ∅ special _)); [cbn; eauto|].
  split; [|split; [done|split; [|reflexivity]]]; [|set_solver].
  eapply Forall_impl; [exact Hsf|]. cbn. intros n [? ?]. split; [done|].
  apply foldl_index_dom. by right.
Qed.

(** The service starts with an action registry exactly when the
    handler modules and the published table fit: names are canonical and
    distinct, every handler is non-nil and belongs to a published action
    that no route serves, no two modules claim the same action, and every
    published action without a route has a handler.  The resulting dispatch
    table then maps an action to a handler exactly when some module
    registered that handler for it. *)
Theorem action_registry_exact l special modules :
  (contract l special modules <->
   exists hs, mustBuildActionHandlers l special modules = Ok hs) /\
  (forall hs, mustBuildActionHandlers l special modules = Ok hs ->
     forall n h, hs !! n = Some h <-> provides modules n h).
Proof.
  assert (Hfwd : forall hs, mustBuildActionHandlers l special modules = Ok hs ->
    contract l special modules /\ forall n h, hs !! n = Some h <-> provides modules n h).
  { intros hs (r & Hr & Hrest)%rbind_Ok_inv.
    apply rbind_Ok_inv in Hrest as (r' & Hm & Hrest).
    apply rbind_Ok_inv in Hrest as ([] & Hv & [= <-]).
    apply NewRegistry_Ok in Hr as (Hr & He & Hf & Hnd & Hsf & Hsnd).
    destruct (merge_all_Ok _ _ _ _ _ Hr Hm) as (Hr' & Hoks & Hdis & _ & Hh).
    rewrite He in Hh.
    assert (Hprov : forall n h, handlers r' !! n = Some h <-> provides modules n h).
    { intros n h. rewrite Hh, lookup_empty. split; [by intros [?|?]|auto]. }
    split; [|done]. split_and!; try done. intros n Hn Hns.
    destruct Hr' as (Hl & _ & Hsp & _).
    destruct (proj1 (Validate_Ok r') Hv n) as [h Hnh]; [by rewrite Hl|by rewrite Hsp|].
    apply Hprov in Hnh as (x & Hx & Hxn). eauto. }
  split; [|intros hs Hhs; by apply Hfwd].
  split; [|intros [hs Hhs]; by apply (Hfwd hs)].
  intros (Hf & Hnd & Hsf & Hsnd & Hoks & Hdis & Hcov).
  destruct (NewRegistry_total l special Hf Hnd Hsf Hsnd) as [r Hr].
  pose proof (NewRegistry_Ok _ _ _ Hr) as (Hfor & He & _).
  destruct (merge_all_total l special modules r) as [r' Hm]; try done.
  { apply Forall_forall. intros x _ n _. by rewrite He. }
  destruct (merge_all_Ok _ _ _ _ _ Hfor Hm) as ((Hl & _ & Hsp & _) & _ & _ & _ & Hh).
  exists (handlers r'). unfold mustBuildActionHandlers. rewrite Hr. cbn. rewrite Hm. cbn.
  rewrite (proj2 (Validate_Ok r')); [done|]. rewrite Hl. intros n Hn Hns.
  rewrite Hsp in Hns. destruct (Hcov n Hn Hns) as (x & Hx & [o Ho]).
  rewrite Forall_forall in Hoks. destruct (Hoks x Hx) as [_ Hok].
  destruct (Hok n o Ho) as (_ & [h ->] & _). exists h. apply Hh. right. exists x. auto.
Qed.
End Registry.
