(* ===== verification/RoomState.v ===== *)
(** * Native room state content ([internal/dirextalkstate])

    Builders of the product state events (room profile, member policy, join
    request, channel post settings) and their parsers. *)

From Stdlib Require Import Ascii String ZArith Lia.
From stdpp Require Import base tactics list gmap strings.
From S2P Require Import Prelude GoStrings Values Domain GoTime Policy.

Module RoomState.
Record StateEvent := {
  Type_ : string;
  StateKey : string;
  EvContent : content;
}.

Record DirectRoomProfileInput := {
  di_Name : string;
  di_RequesterMXID : string;
  di_TargetMXID : string;
  di_RequesterDisplayName : string;
  di_RequesterAvatarURL : string;
  di_Remark : string;
  di_Dissolved : bool;
  di_AccountDeleted : bool;
  di_DeletedMXID : string;
}.

Record GroupProfile := {
  gp_RoomID : string;
  gp_Name : string;
  gp_Topic : string;
  gp_AvatarURL : string;
  gp_InvitePolicy : string;
  gp_Muted : bool;
}.

Record ChannelPostSettingsInput := {
  ci_PostID : string;
  ci_ChannelID : string;
  ci_RoomID : string;
  ci_PostEventID : string;
  ci_Visibility : string;
  ci_CommentsEnabled : bool;
  ci_UpdatedAt : Z;
}.

(** This [fallbackString] trims the value it returns. *)
Definition fallbackString (value fallback : string) : string :=
  let value := trim_space value in
  if str_empty value then fallback else value.

Definition domainFromMXID (mxid : string) : string :=
  let mxid := trim_space mxid in
  match strip_prefix "@" mxid with
  | None => ""
  | Some rest =>
      match cut ":" rest with      (* SplitN(mxid[1:], ":", 2) *)
      | Some (_, domain) => domain
      | None => ""
      end
  end.

Definition obj (l : list (string * any)) : content := list_to_map l.

(** ** Builders *)

Definition DirectRoomProfile (input : DirectRoomProfileInput) : StateEvent :=
  let requesterMXID := trim_space (di_RequesterMXID input) in
  let c := obj
    [("room_type", AString DirextalkRoomTypeDirect);
     ("name", AString (trim_space (di_Name input)));
     ("visibility", AString "private");
     ("join_policy", AString "invite");
     ("invite_policy", AString "owner");
     ("requester_mxid", AString requesterMXID);
     ("target_mxid", AString (trim_space (di_TargetMXID input)));
     ("display_name", AString (trim_space (di_RequesterDisplayName input)));
     ("avatar_url", AString (trim_space (di_RequesterAvatarURL input)));
     ("domain", AString (domainFromMXID requesterMXID));
     ("remark", AString (trim_space (di_Remark input)));
     ("dissolved", ABool (di_Dissolved input))] in
  let c := if di_AccountDeleted input
           then <["deleted_mxid" := AString (trim_space (di_DeletedMXID input))]>
                (<["account_deleted" := ABool true]> c)
           else c in
  {| Type_ := DirextalkRoomProfileEventType; StateKey := ""; EvContent := c |}.

Definition GroupRoomProfile (group : GroupProfile) (dissolved : bool) : StateEvent :=
  {| Type_ := DirextalkRoomProfileEventType;
     StateKey := "";
     EvContent := obj
       [("room_type", AString DirextalkRoomTypeGroup);
        ("room_id", AString (gp_RoomID group));
        ("name", AString (gp_Name group));
        ("topic", AString (gp_Topic group));
        ("avatar_url", AString (gp_AvatarURL group));
        ("invite_policy", AString (fallbackString (gp_InvitePolicy group) "member"));
        ("muted", ABool (gp_Muted group));
        ("dissolved", ABool dissolved)] |}.

Definition ChannelRoomProfile (ch : Chan.Channel) (dissolved : bool) : StateEvent :=
  {| Type_ := DirextalkRoomProfileEventType;
     StateKey := "";
     EvContent := obj
       [("room_type", AString DirextalkRoomTypeChannel);
        ("channel_id", AString (Chan.ChannelID ch));
        ("room_id", AString (Chan.RoomID ch));
        ("name", AString (Chan.Name ch));
        ("description", AString (Chan.Description ch));
        ("avatar_url", AString (Chan.AvatarURL ch));
        ("visibility", AString (fallbackString (Chan.Visibility ch) "private"));
        ("join_policy", AString (fallbackString (Chan.JoinPolicy ch) "invite"));
        ("channel_type", AString (fallbackString (Chan.ChannelType ch) "post"));
        ("comments_enabled", ABool (Chan.CommentsEnabled ch));
        ("muted", ABool (Chan.Muted ch));
        ("dissolved", ABool dissolved)] |}.

Definition ChannelPostSettings (input : ChannelPostSettingsInput) : StateEvent :=
  {| Type_ := DirextalkChannelPostSettingsEventType;
     StateKey := trim_space (ci_PostID input);
     EvContent := obj
       [("post_id", AString (trim_space (ci_PostID input)));
        ("channel_id", AString (trim_space (ci_ChannelID input)));
        ("room_id", AString (trim_space (ci_RoomID input)));
        ("post_event_id", AString (trim_space (ci_PostEventID input)));
        ("visibility", AString (fallbackString (ci_Visibility input) "private"));
        ("comments_enabled", ABool (ci_CommentsEnabled input));
        ("updated_at", AString (format_rfc3339nano (ci_UpdatedAt input)))] |}.

Definition MemberPolicyState (member : Member.MemberRecord) : StateEvent :=
  {| Type_ := DirextalkMemberPolicyEventType;
     StateKey := UserStateKey (Member.UserID member);
     EvContent := obj
       [("role", AString (fallbackString (Member.Role member) "member"));
        ("muted", ABool (Member.Muted member));
        ("user_id", AString (Member.UserID member));
        ("room_id", AString (Member.RoomID member))] |}.

Definition JoinRequestState (roomID userID status reason requestID : string) (at_ : Z)
    : StateEvent :=
  let timestamp := format_rfc3339nano at_ in
  let c := obj
    [("status", AString (to_lower (trim_space status)));
     ("room_id", AString roomID);
     ("user_id", AString userID);
     ("created_at", AString timestamp);
     ("updated_at", AString timestamp)] in
  let c := if str_empty (trim_space reason) then c
           else <["reason" := AString (trim_space reason)]> c in
  let c := if str_empty (trim_space requestID) then c
           else <["request_id" := AString (trim_space requestID)]> c in
  {| Type_ := DirextalkJoinRequestEventType;
     StateKey := UserStateKey userID;
     EvContent := c |}.

(** ** Parsers *)

Definition trimAny (value : any) : string :=
  match value with
  | AString v => trim_space v
  | _ => ""
  end.

Definition boolValue (value : any) : bool :=
  match value with
  | ABool v => v
  | AString v => equal_fold (trim_space v) "true" || str_eqb (trim_space v) "1"
  | AFloat64 v => f64_nonzero v
  | AInt v => negb (Z.eqb v 0)
  | AInt64 v => negb (Z.eqb v 0)
  | _ => false
  end.

Definition RoomKindFromRoomType (roomType : string) : string :=
  let t := to_lower (trim_space roomType) in
  if str_eqb t DirextalkRoomTypeDirect then "direct"
  else if str_eqb t DirextalkRoomTypeGroup then "group"
  else if str_eqb t DirextalkRoomTypeChannel then "channel"
  else "".

Record RoomProfileContent := {
  Raw : content;
  Kind : string; RoomType : string;
  RoomID : string; ChannelID : string; Name : string; Topic : string;
  Description : string; AvatarURL : string; Visibility : string; JoinPolicy : string;
  InvitePolicy : string; ChannelType : string; DisplayName : string; Domain_ : string;
  Remark : string; RequesterMXID : string; TargetMXID : string;
  Dissolved : bool; Muted : bool; HasMuted : bool;
  CommentsEnabled : bool; HasCommentsEnabled : bool;
  AccountDeleted : bool; DeletedMXID : string;
}.

Definition RoomProfileFromContent (c : content) : RoomProfileContent :=
  let roomType := trimAny (get c "room_type") in
  {| Raw := c;
     Kind := RoomKindFromRoomType roomType;
     RoomType := trim_space roomType;
     RoomID := trimAny (get c "room_id");
     ChannelID := trimAny (get c "channel_id");
     Name := trimAny (get c "name");
     Topic := trimAny (get c "topic");
     Description := trimAny (get c "description");
     AvatarURL := trimAny (get c "avatar_url");
     Visibility := trimAny (get c "visibility");
     JoinPolicy := trimAny (get c "join_policy");
     InvitePolicy := trimAny (get c "invite_policy");
     ChannelType := trimAny (get c "channel_type");
     DisplayName := trimAny (get c "display_name");
     Domain_ := trimAny (get c "domain");
     Remark := trimAny (get c "remark");
     RequesterMXID := trimAny (get c "requester_mxid");
     TargetMXID := trimAny (get c "target_mxid");
     Dissolved := boolValue (get c "dissolved");
     Muted := boolValue (get c "muted");
     HasMuted := has c "muted";
     CommentsEnabled := boolValue (get c "comments_enabled");
     HasCommentsEnabled := has c "comments_enabled";
     AccountDeleted := boolValue (get c "account_deleted");
     DeletedMXID := trimAny (get c "deleted_mxid") |}.

Definition userIDFromStateKey (stateKey : option string) : string :=
  match stateKey with
  | None => ""
  | Some k => trim_space (UserIDFromStateKey k)
  end.

Record MemberPolicyContent := {
  mp_Raw : content;
  mp_UserID : string;
  mp_Role : string;
  mp_Muted : bool;
  mp_HasMuted : bool;
}.

Definition MemberPolicyFromContent (c : content) (stateKey : option string)
    : MemberPolicyContent :=
  {| mp_Raw := c;
     mp_UserID := userIDFromStateKey stateKey;
     mp_Role := trimAny (get c "role");
     mp_Muted := boolValue (get c "muted");
     mp_HasMuted := has c "muted" |}.

Record JoinRequestContent := {
  jr_Raw : content;
  jr_UserID : string;
  jr_ChannelID : string;
  jr_Status : string;
  jr_Reason : string;
  jr_RequestID : string;
}.

Definition JoinRequestFromContent (c : content) (stateKey : option string)
    : JoinRequestContent :=
  let userID := userIDFromStateKey stateKey in
  let override := trimAny (get c "user_id") in
  {| jr_Raw := c;
     jr_UserID := if str_empty override then userID else override;
     jr_ChannelID := trimAny (get c "channel_id");
     jr_Status := to_lower (trim_space (trimAny (get c "status")));
     jr_Reason := trimAny (get c "reason");
     jr_RequestID := trimAny (get c "request_id") |}.

(** [unmarshalContent] on the content object of an event. *)
Definition unmarshalContent (data : result goerror (list (string * any)))
    : result goerror content := result_map object_map data.

Definition ParseRoomProfileContent (data : result goerror (list (string * any)))
    : result goerror RoomProfileContent :=
  result_map RoomProfileFromContent (unmarshalContent data).

Definition ParseMemberPolicyContent (data : result goerror (list (string * any)))
    (stateKey : option string) : result goerror MemberPolicyContent :=
  result_map (fun c => MemberPolicyFromContent c stateKey) (unmarshalContent data).

Definition ParseJoinRequestContent (data : result goerror (list (string * any)))
    (stateKey : option string) : result goerror JoinRequestContent :=
  result_map (fun c => JoinRequestFromContent c stateKey) (unmarshalContent data).
End RoomState.
