(* ===== verification/RoomStateFacts.v ===== *)
(** * Writers and readers of the native room state agree

    What the builders of [RoomState] publish is what its parsers and the
    product policy read back, and user state keys name the user they were
    built from. *)

From Stdlib Require Import Ascii String ZArith Lia.
From stdpp Require Import base tactics list gmap strings.
From S2P Require Import Prelude GoStrings Values Domain GoTime Policy PolicyFacts RoomState.
Import RoomState.
Local Open Scope go_scope.

#[local] Opaque equal_fold to_lower trim_space format_rfc3339nano.

(** ** Reading a literal object *)

Fixpoint assoc (key : string) (l : list (string * any)) : option any :=
  match l with
  | [] => None
  | (k, v) :: l => if String.eqb k key then Some v else assoc key l
  end.

Lemma lookup_obj l key : obj l !! key = assoc key l.
Proof.
  induction l as [|[k v] l IH]; [done|]. unfold obj in *. rewrite list_to_map_cons.
  cbn [assoc]. destruct (String.eqb_spec k key) as [->|Hk].
  - by rewrite lookup_insert_eq.
  - by rewrite lookup_insert_ne.
Qed.

Lemma get_obj l key : get (obj l) key = default ANil (assoc key l).
Proof. unfold get. by rewrite lookup_obj. Qed.

Definition present {A} (o : option A) : bool := if o then true else false.

Lemma has_obj l key : has (obj l) key = present (assoc key l).
Proof.
  unfold has. rewrite lookup_obj. destruct (assoc key l).
  - by apply bool_decide_eq_true_2.
  - apply bool_decide_eq_false_2. by intros [? ?].
Qed.

Lemma obj_insert l k v : <[k := v]> (obj l) = obj ((k, v) :: l).
Proof. done. Qed.

(** Evaluate the reads of a content built from literal keys. *)
Ltac read_content :=
  rewrite ?obj_insert, ?get_obj, ?has_obj;
  cbv [assoc String.eqb Ascii.eqb Bool.eqb present default from_option id];
  cbn [trimAny boolValue Policy.boolValue stringValue].

(** ** Fallbacks *)

Lemma fallbackString_trimmed v f : trimmed f -> trimmed (fallbackString v f).
Proof. unfold fallbackString. intros. destruct (str_empty _); auto with go. Qed.

Lemma fallbackString_nonempty v f : f <> "" -> fallbackString v f <> "".
Proof.
  unfold fallbackString. intros. destruct (str_empty _) eqn:E; [done|].
  by apply str_empty_false.
Qed.

Lemma fallbackString_trim v f :
  trim_space f = f -> trim_space (fallbackString v f) = fallbackString v f.
Proof. apply fallbackString_trimmed. Qed.

Lemma fallbackString_empty v f : f <> "" -> str_empty (fallbackString v f) = false.
Proof. intros. by apply bool_decide_eq_false, fallbackString_nonempty. Qed.

(** ** User state keys *)

Lemma trim_user_key t : trimmed t -> trim_space ("user:" +:+ t) = "user:" +:+ t.
Proof.
  Transparent trim_space. intros Ht. unfold trimmed, trim_space in *.
  apply (f_equal list_ascii_of_string) in Ht.
  rewrite list_ascii_of_string_of_list_ascii in Ht.
  rewrite <- (string_of_list_ascii_of_string ("user:" +:+ t)) at 2. f_equal.
  change (list_ascii_of_string ("user:" +:+ t))
    with (["u"; "s"; "e"; "r"; ":"]%char ++ list_ascii_of_string t).
  set (l := list_ascii_of_string t) in *. clearbody l.
  assert (Hr : trim_right l = l).
  { rewrite <- Ht. unfold trim_bytes. apply trim_right_idemp. }
  unfold trim_bytes.
  assert (trim_left (["u"; "s"; "e"; "r"; ":"]%char ++ l) = ["u"; "s"; "e"; "r"; ":"]%char ++ l)
    as -> by reflexivity.
  unfold trim_right in *. rewrite rev_app_distr.
  rewrite strip_fix; [by rewrite rev_app_distr, !rev_involutive|].
  assert (Hs : starts space1 (fun a b => space2 b a) (fun a b c => space3 c b a) (rev l) = false).
  { apply (f_equal (@rev ascii)) in Hr. rewrite rev_involutive in Hr. rewrite <- Hr.
    apply strip_starts. }
  revert Hs. generalize (rev l). clear. intros l.
  destruct l as [|a [|b [|c l]]]; simpl; intros Hs; try done.
  - by rewrite Hs.
  - apply orb_false_iff in Hs as [Ha Hb]. by rewrite Ha, Hb.
Qed.

Lemma user_state_key_roundtrip mxid :
  UserIDFromStateKey (UserStateKey mxid) = trim_space mxid.
Proof.
  unfold UserIDFromStateKey, UserStateKey.
  rewrite trim_user_key by auto with go. apply trim_prefix_app.
Qed.

(** ** Published state

    [publish] is the event the roomserver stores for a state content: its
    content is the object [json.Marshal] writes.  The texts are taken to be
    valid UTF-8: [json.Marshal] replaces other bytes by U+FFFD, and the policy
    then reads the replaced text. *)

Definition publish (sender : string) (st : StateEvent) : HeaderedEvent :=
  {| SenderID := sender;
     EvStateKey := Some (StateKey st);
     Content := Ok (stable_sort (fun a b => str_ltb a.1 b.1) (map_to_list (EvContent st))) |}.

Lemma object_map_snoc l kv : object_map (l ++ [kv]) = <[kv.1 := kv.2]> (object_map l).
Proof. unfold object_map. by rewrite foldl_app. Qed.

Lemma object_map_lookup l k v : NoDup l.*1 -> (k, v) ∈ l -> object_map l !! k = Some v.
Proof.
  induction l as [|[k' v'] l IH] using rev_ind; [set_solver|].
  rewrite fmap_app, object_map_snoc. intros (Hnd & Hnew & _)%NoDup_app. simpl in *.
  intros [Hin|Hin]%elem_of_app.
  - rewrite lookup_insert_ne; [auto|]. intros ->. apply (Hnew k); [|set_solver].
    apply list_elem_of_fmap. by exists (k, v).
  - apply list_elem_of_singleton in Hin. simplify_eq. by rewrite lookup_insert_eq.
Qed.

Lemma object_map_lookup_inv l k v : object_map l !! k = Some v -> (k, v) ∈ l.
Proof.
  induction l as [|[k' v'] l IH] using rev_ind; [done|].
  rewrite object_map_snoc, lookup_insert_Some. set_solver.
Qed.

Lemma object_map_perm (c : content) l : l ≡ₚ map_to_list c -> object_map l = c.
Proof.
  intros Hl. apply map_eq. intros k. apply option_eq. intros v.
  assert (NoDup l.*1) by (rewrite Hl; apply NoDup_fst_map_to_list).
  rewrite <- (elem_of_map_to_list c), <- Hl. split; [apply object_map_lookup_inv|].
  by apply object_map_lookup.
Qed.

Lemma eventContent_publish sender st :
  eventContent (Some (publish sender st)) = Ok (EvContent st).
Proof. simpl. f_equal. apply object_map_perm, stable_sort_perm. Qed.

(** ** What the policy reads is what the builders wrote *)

Lemma stringValue_trimmed s : trimmed s -> stringValue (AString s) = s.
Proof. done. Qed.

(** [applyRoomPolicyContent] field by field. *)
Lemma applyRoomPolicyContent_eq p c :
  let invite := stringValue (get c "invite_policy") in
  let join := stringValue (get c "join_policy") in
  let requester := stringValue (get c "requester_mxid") in
  let target := stringValue (get c "target_mxid") in
  let direct := str_eqb (RP.RoomType p) DirextalkRoomTypeDirect in
  applyRoomPolicyContent p c true =
  {| RP.Product := RP.Product p; RP.RoomType := RP.RoomType p;
     RP.Dissolved := if has c "dissolved" then Policy.boolValue (get c "dissolved")
                     else RP.Dissolved p;
     RP.CommentsEnabled := if str_eqb (RP.RoomType p) DirextalkRoomTypeChannel
                           then Policy.boolValue (get c "comments_enabled")
                           else RP.CommentsEnabled p;
     RP.InvitePolicy := if str_empty invite then RP.InvitePolicy p else invite;
     RP.JoinPolicy := if str_empty join then RP.JoinPolicy p else join;
     RP.DirectRequester := if direct && negb (str_empty requester) then requester
                           else RP.DirectRequester p;
     RP.DirectTarget := if direct && negb (str_empty target) then target
                        else RP.DirectTarget p;
     RP.SenderRole := RP.SenderRole p; RP.SenderMuted := RP.SenderMuted p;
     RP.SenderMembership := RP.SenderMembership p; RP.SenderJoined := RP.SenderJoined p;
     RP.DirectPeerJoined := RP.DirectPeerJoined p;
     RP.JoinRequestStatus := RP.JoinRequestStatus p |}.
Proof.
  intros invite join requester target direct.
  unfold applyRoomPolicyContent.
  fold invite join requester target. subst direct. rewrite orb_true_r, andb_true_r.
  clearbody invite join requester target. destruct p as [? t]; cbn.
  destruct (str_eqb t DirextalkRoomTypeDirect) eqn:Hd;
  destruct (has c "dissolved"); cbn;
  destruct (str_eqb t DirextalkRoomTypeChannel); cbn;
  destruct (str_empty invite); cbn; destruct (str_empty join); cbn; rewrite Hd;
  cbn; try reflexivity;
  destruct (str_empty requester); cbn; destruct (str_empty target); reflexivity.
Qed.

Lemma or_empty s : (if negb (str_empty s) then s else "") = s.
Proof. unfold str_empty. by case_bool_decide as E; [subst|]. Qed.

Lemma result_map_ext {E A B} (f g : A -> B) (r : result E A) :
  (forall a, f a = g a) -> result_map f r = result_map g r.
Proof. intros Hfg. destruct r; simpl; by rewrite ?Hfg. Qed.

Ltac profile_fields :=
  rewrite applyRoomPolicyContent_eq;
  cbn [EvContent ChannelRoomProfile GroupRoomProfile]; read_content;
  rewrite ?fallbackString_trim by reflexivity;
  rewrite ?fallbackString_empty by discriminate; rewrite ?trim_space_idemp;
  cbn [RP.RoomType RP.set_RoomType]; cbv beta; f_equal; try reflexivity; apply or_empty.

Section Agreement.
Context `{MatrixIDs}.

Definition with_profile (res : StateEvents) (sender : string) (st : StateEvent)
    : StateEvents :=
  <[(DirextalkRoomProfileEventType, "") := publish sender st]> res.

Lemma resolve_with_profile res sender st t :
  stringValue (get (EvContent st) "room_type") = t ->
  isDirextalkRoomType t = true ->
  resolveRoomProfile (with_profile res sender st) =
  result_map (fun _ : content =>
    applyRoomPolicyContent (RP.set_RoomType t (RP.set_Product true defaultPolicy))
      (EvContent st) true) (eventContent (res !! (MRoomCreate, ""))).
Proof.
  intros Ht Hd. unfold resolveRoomProfile, with_profile.
  rewrite lookup_insert_ne by done. destruct (eventContent _) as [c|]; [|done].
  cbn [rbind result_map]. rewrite lookup_insert_eq, eventContent_publish.
  cbn [rbind]. rewrite Ht, Hd. destruct (isDirextalkRoomType (stringValue (get c "type"))); reflexivity.
Qed.

(** C21.  The policy the server enforces in a room is the policy the product
    published: once the profile event of a room is the one built for a
    channel, a group or a direct room, the snapshot of the room has exactly
    the kind, dissolved flag, comments flag, invite and join policies and
    direct participants that were written, whatever the rest of the state
    says; only an unreadable create event is an error. *)
Theorem policy_reads_published_profile res sender ch group input dissolved :
  let read st p := resolveRoomProfile (with_profile res sender st) =
    result_map (fun _ : content => p) (eventContent (res !! (MRoomCreate, ""))) in
  read (ChannelRoomProfile ch dissolved)
    {| RP.Product := true; RP.RoomType := DirextalkRoomTypeChannel;
       RP.Dissolved := dissolved; RP.CommentsEnabled := Chan.CommentsEnabled ch;
       RP.InvitePolicy := "member";
       RP.JoinPolicy := fallbackString (Chan.JoinPolicy ch) "invite";
       RP.DirectRequester := ""; RP.DirectTarget := ""; RP.SenderRole := "member";
       RP.SenderMuted := false; RP.SenderMembership := ""; RP.SenderJoined := false;
       RP.DirectPeerJoined := false; RP.JoinRequestStatus := "" |} /\
  read (GroupRoomProfile group dissolved)
    {| RP.Product := true; RP.RoomType := DirextalkRoomTypeGroup;
       RP.Dissolved := dissolved; RP.CommentsEnabled := true;
       RP.InvitePolicy := fallbackString (gp_InvitePolicy group) "member";
       RP.JoinPolicy := "invite";
       RP.DirectRequester := ""; RP.DirectTarget := ""; RP.SenderRole := "member";
       RP.SenderMuted := false; RP.SenderMembership := ""; RP.SenderJoined := false;
       RP.DirectPeerJoined := false; RP.JoinRequestStatus := "" |} /\
  read (DirectRoomProfile input)
    {| RP.Product := true; RP.RoomType := DirextalkRoomTypeDirect;
       RP.Dissolved := di_Dissolved input; RP.CommentsEnabled := true;
       RP.InvitePolicy := "owner"; RP.JoinPolicy := "invite";
       RP.DirectRequester := trim_space (di_RequesterMXID input);
       RP.DirectTarget := trim_space (di_TargetMXID input); RP.SenderRole := "member";
       RP.SenderMuted := false; RP.SenderMembership := ""; RP.SenderJoined := false;
       RP.DirectPeerJoined := false; RP.JoinRequestStatus := "" |}.
Proof.
  intros read. unfold read. split; [|split].
  - rewrite (resolve_with_profile _ _ _ DirextalkRoomTypeChannel) by reflexivity.
    apply result_map_ext. intros _. profile_fields.
  - rewrite (resolve_with_profile _ _ _ DirextalkRoomTypeGroup) by reflexivity.
    apply result_map_ext. intros _. profile_fields.
  - rewrite (resolve_with_profile _ _ _ DirextalkRoomTypeDirect)
      by (unfold DirectRoomProfile; destruct (di_AccountDeleted input); reflexivity).
    apply result_map_ext. intros _. unfold DirectRoomProfile.
    destruct (di_AccountDeleted input); profile_fields.
Qed.
End Agreement.

(** ** What the projection parses is what the builders wrote *)

Lemma trimAny_fallback v f :
  trim_space f = f -> trimAny (AString (fallbackString v f)) = fallbackString v f.
Proof. apply fallbackString_trim. Qed.

(** Two records agree field by field, after the reads are evaluated. *)
Ltac parse_fields :=
  unfold RoomProfileFromContent; cbn [EvContent]; read_content;
  rewrite ?fallbackString_trim by reflexivity; rewrite ?trim_space_idemp;
  f_equal; reflexivity.

(** Room profiles survive the trip through the room state: parsing the
    content built for a channel, a group or a direct room gives back its kind
    and every field that was written, trimmed, with the defaults of the
    builder filled in; the mute and comment flags are reported as present
    exactly when the builder writes them. *)
Theorem room_profile_roundtrip ch group input dissolved :
  RoomProfileFromContent (EvContent (ChannelRoomProfile ch dissolved)) =
  {| Raw := EvContent (ChannelRoomProfile ch dissolved);
     Kind := "channel"; RoomType := DirextalkRoomTypeChannel;
     RoomID := trim_space (Chan.RoomID ch); ChannelID := trim_space (Chan.ChannelID ch);
     Name := trim_space (Chan.Name ch); Topic := "";
     Description := trim_space (Chan.Description ch);
     AvatarURL := trim_space (Chan.AvatarURL ch);
     Visibility := fallbackString (Chan.Visibility ch) "private";
     JoinPolicy := fallbackString (Chan.JoinPolicy ch) "invite"; InvitePolicy := "";
     ChannelType := fallbackString (Chan.ChannelType ch) "post";
     DisplayName := ""; Domain_ := ""; Remark := ""; RequesterMXID := ""; TargetMXID := "";
     Dissolved := dissolved; Muted := Chan.Muted ch; HasMuted := true;
     CommentsEnabled := Chan.CommentsEnabled ch; HasCommentsEnabled := true;
     AccountDeleted := false; DeletedMXID := "" |} /\
  RoomProfileFromContent (EvContent (GroupRoomProfile group dissolved)) =
  {| Raw := EvContent (GroupRoomProfile group dissolved);
     Kind := "group"; RoomType := DirextalkRoomTypeGroup;
     RoomID := trim_space (gp_RoomID group); ChannelID := "";
     Name := trim_space (gp_Name group); Topic := trim_space (gp_Topic group);
     Description := ""; AvatarURL := trim_space (gp_AvatarURL group);
     Visibility := ""; JoinPolicy := "";
     InvitePolicy := fallbackString (gp_InvitePolicy group) "member"; ChannelType := "";
     DisplayName := ""; Domain_ := ""; Remark := ""; RequesterMXID := ""; TargetMXID := "";
     Dissolved := dissolved; Muted := gp_Muted group; HasMuted := true;
     CommentsEnabled := false; HasCommentsEnabled := false;
     AccountDeleted := false; DeletedMXID := "" |} /\
  RoomProfileFromContent (EvContent (DirectRoomProfile input)) =
  {| Raw := EvContent (DirectRoomProfile input);
     Kind := "direct"; RoomType := DirextalkRoomTypeDirect;
     RoomID := ""; ChannelID := ""; Name := trim_space (di_Name input); Topic := "";
     Description := ""; AvatarURL := trim_space (di_RequesterAvatarURL input);
     Visibility := "private"; JoinPolicy := "invite"; InvitePolicy := "owner";
     ChannelType := ""; DisplayName := trim_space (di_RequesterDisplayName input);
     Domain_ := trim_space (domainFromMXID (trim_space (di_RequesterMXID input)));
     Remark := trim_space (di_Remark input);
     RequesterMXID := trim_space (di_RequesterMXID input);
     TargetMXID := trim_space (di_TargetMXID input);
     Dissolved := di_Dissolved input; Muted := false; HasMuted := false;
     CommentsEnabled := false; HasCommentsEnabled := false;
     AccountDeleted := di_AccountDeleted input;
     DeletedMXID := if di_AccountDeleted input then trim_space (di_DeletedMXID input)
                    else "" |}.
Proof.
  split; [|split].
  - unfold ChannelRoomProfile. parse_fields.
  - unfold GroupRoomProfile. parse_fields.
  - unfold DirectRoomProfile. destruct (di_AccountDeleted input); parse_fields.
Qed.

(** Member policies and join requests name the user and carry the data
    they were written for: the parsed user is the trimmed MXID (the state key
    [user:<mxid>] for a policy, the content's [user_id] first for a request),
    the role defaults to member, and a request keeps its normalised status,
    reason and request id. *)
Theorem member_state_roundtrip member roomID userID status reason requestID at_ :
  (let st := MemberPolicyState member in
   MemberPolicyFromContent (EvContent st) (Some (StateKey st)) =
   {| mp_Raw := EvContent st; mp_UserID := trim_space (Member.UserID member);
      mp_Role := fallbackString (Member.Role member) "member";
      mp_Muted := Member.Muted member; mp_HasMuted := true |}) /\
  (let st := JoinRequestState roomID userID status reason requestID at_ in
   JoinRequestFromContent (EvContent st) (Some (StateKey st)) =
   {| jr_Raw := EvContent st; jr_UserID := trim_space userID; jr_ChannelID := "";
      jr_Status := to_lower (trim_space (to_lower (trim_space status)));
      jr_Reason := trim_space reason; jr_RequestID := trim_space requestID |}).
Proof.
  split; cbv zeta.
  - unfold MemberPolicyFromContent, userIDFromStateKey. cbn [StateKey MemberPolicyState].
    rewrite user_state_key_roundtrip, trim_space_idemp.
    unfold MemberPolicyState. cbn [EvContent]. read_content.
    by rewrite fallbackString_trim.
  - unfold JoinRequestFromContent, userIDFromStateKey, JoinRequestState. cbn [StateKey].
    rewrite user_state_key_roundtrip, trim_space_idemp. cbn [EvContent].
    destruct (str_empty (trim_space reason)) eqn:Er, (str_empty (trim_space requestID)) eqn:Eq;
      read_content; rewrite ?trim_space_idemp;
      destruct (str_empty (trim_space userID)) eqn:Eu; str_bool; congruence.
Qed.
