(* ===== verification/Projection.v ===== *)
(** * Projection of Matrix state into records

    [internal/dirextalkprojection]: the records that room profiles, member
    policies and join requests project to, given what is stored. *)

From Stdlib Require Import Ascii String ZArith Lia.
From stdpp Require Import base tactics list gmap strings.
From S2P Require Import Prelude GoStrings Values Domain GoTime Policy RoomState.
Local Open Scope Z_scope.

Module Projection.
(** [trimString] and [boolParam] are the readers of [RoomState]. *)
Notation trimString := RoomState.trimAny.
Notation boolParam := RoomState.boolValue.
Notation fallbackString := RoomState.fallbackString.

(** [if _, ok := content[key]; ok { field = read(content[key]) }] *)
Definition given_text (c : content) (key stored : string) : string :=
  if has c key then trimString (get c key) else stored.
Definition given_flag (c : content) (key : string) (stored : bool) : bool :=
  if has c key then boolParam (get c key) else stored.

(** Unlike that of [RoomState], this one does not trim, and a colon at the end
    leaves nothing. *)
Definition domainFromMXID (mxid : string) : string :=
  match cut ":" (trim_prefix mxid "@") with
  | Some (_, domain) => domain
  | None => ""
  end.

Definition ProductMemberCounts (members : list Member.MemberRecord) : Z * Z :=
  let count kind := Z.of_nat (length (List.filter
    (fun m => str_eqb (to_lower (trim_space (Member.Membership m))) kind) members)) in
  (count "join", count "pending").

Definition ChannelProfile (roomID channelID : string) (existing : Chan.Channel) (c : content)
    : Chan.Channel :=
  {| Chan.ChannelID := channelID; Chan.RoomID := roomID;
     Chan.Name := fallbackString (trimString (get c "name"))
                    (fallbackString (Chan.Name existing) channelID);
     Chan.Description := given_text c "description" (Chan.Description existing);
     Chan.AvatarURL := given_text c "avatar_url" (Chan.AvatarURL existing);
     Chan.Visibility := fallbackString (trimString (get c "visibility"))
                          (fallbackString (Chan.Visibility existing) "private");
     Chan.JoinPolicy := fallbackString (trimString (get c "join_policy"))
                          (fallbackString (Chan.JoinPolicy existing) "invite");
     Chan.ChannelType := fallbackString (trimString (get c "channel_type"))
                           (fallbackString (Chan.ChannelType existing) "post");
     Chan.CommentsEnabled := given_flag c "comments_enabled" (Chan.CommentsEnabled existing);
     Chan.Muted := given_flag c "muted" (Chan.Muted existing);
     Chan.MemberCount := if Chan.MemberCount existing =? 0 then 1 else Chan.MemberCount existing;
     Chan.PendingJoinCount := Chan.PendingJoinCount existing;
     Chan.IsOwned := false; Chan.Role := ""; Chan.MemberStatus := "" |}.

Definition GroupProfile (roomID : string) (existing : Group.GroupRecord) (c : content)
    : Group.GroupRecord :=
  {| Group.RoomID := roomID;
     Group.Name := fallbackString (trimString (get c "name"))
                     (fallbackString (Group.Name existing) roomID);
     Group.Topic := given_text c "topic" (Group.Topic existing);
     Group.AvatarURL := given_text c "avatar_url" (Group.AvatarURL existing);
     Group.MemberCount := if Group.MemberCount existing =? 0 then 1
                          else Group.MemberCount existing;
     Group.InvitePolicy := fallbackString (trimString (get c "invite_policy"))
                             (fallbackString (Group.InvitePolicy existing) "member");
     Group.Muted := given_flag c "muted" (Group.Muted existing) |}.

(** [MemberRecord{RoomID: ..., ChannelID: ..., UserID: ...}] *)
Definition bare_member (roomID channelID userID : string) : Member.MemberRecord :=
  {| Member.RoomID := roomID; Member.ChannelID := channelID; Member.UserID := userID;
     Member.DisplayName := ""; Member.AvatarURL := ""; Member.Domain := "";
     Member.Membership := ""; Member.Role := ""; Member.Muted := false; Member.JoinedAt := 0;
     Member.RequesterNodeBaseURL := ""; Member.RequestID := "" |}.

(** [now] in nanoseconds. *)
Definition MemberPolicy (roomID userID : string) (existing : option Member.MemberRecord)
    (c : content) (now : Z) : Member.MemberRecord :=
  let member := match existing with
    | Some existing => existing
    | None => Member.set_JoinedAt (unix_milli now) (Member.set_Role "member"
                (Member.set_Membership "join" (Member.set_Domain (domainFromMXID userID)
                  (bare_member roomID "" userID))))
    end in
  let member := if str_empty (trimString (get c "role")) then member
                else Member.set_Role (trimString (get c "role")) member in
  Member.set_Muted (given_flag c "muted" (Member.Muted member)) member.

Definition preserveApprovedJoinRequestWorkflow (existing : Member.MemberRecord) : bool :=
  bool_decide (to_lower (trim_space (Member.Membership existing)) ∈
               ["approved"; "joining"; "join_failed"; "join"]).

Definition preserveJoinRequestGeneration (existing : Member.MemberRecord) (requestID : string)
    : bool :=
  negb (str_empty (trim_space (Member.RequestID existing))) &&
  negb (str_eqb (trim_space (Member.RequestID existing)) (trim_space requestID)).

(** The membership a request status stands for. *)
Definition requested_membership (status : string) : option string :=
  if str_eqb status "pending" then Some "pending"
  else if str_eqb status "approved" then Some "invite"
  else if str_eqb status "rejected" then Some "reject"
  else None.

(** [None]: the status is not one of a join request. *)
Definition JoinRequestMember (roomID channelID userID : string)
    (existing : option Member.MemberRecord) (status requestID : string) (now : Z)
    : option Member.MemberRecord :=
  let status := to_lower (trim_space status) in
  let requestID := trim_space requestID in
  match requested_membership status with
  | None => None
  | Some membership =>
      if match existing with
         | Some existing => str_eqb status "approved" && preserveApprovedJoinRequestWorkflow existing
                            || preserveJoinRequestGeneration existing requestID
         | None => false
         end then existing
      else
      let member := default (bare_member roomID channelID userID) existing in
      let member := Member.set_Membership membership
        (Member.set_UserID userID (Member.set_RoomID roomID member)) in
      let member := Member.set_Domain
        (fallbackString (Member.Domain member) (domainFromMXID userID))
        (Member.set_Role (fallbackString (Member.Role member) "member") member) in
      let member := if Member.JoinedAt member =? 0
                    then Member.set_JoinedAt (unix_milli now) member else member in
      Some (if str_empty requestID then member else Member.set_RequestID requestID member)
  end.
End Projection.
