(* ===== verification/EventStream.v ===== *)
(** * The product event stream

    [Module MemoryEvents] is the event log of the memory store
    ([p2p/storage/memory_events.go]), [Module Events] the module that
    allocates sequence numbers, applies retention and wakes consumers
    ([p2p/internal/events/module.go]) over any store that implements the class
    [EventStore], and [Module SSE] the consumer loop of
    [p2p/events_http.go]. *)

From Stdlib Require Import Ascii String ZArith Lia.
From stdpp Require Import base tactics list gmap strings sorting.
From S2P Require Import Prelude GoStrings Values Domain GoTime Policy.
Local Open Scope Z_scope.

(** The repository interface [events.Store].  A call returns the new store
    with its result. *)
Class EventStore (S : Type) := {
  InsertEvent : S -> Event.EventRecord -> S * result goerror bool;
  ListEvents : S -> Z -> Z -> result goerror (list Event.EventRecord);
  EventBounds : S -> result goerror Bounds.EventBounds;
  PruneEventsToMaxRows : S -> Z -> S * result goerror Z;
}.

Module MemoryEvents.
Record store := mk {
  events : list Event.EventRecord;
  eventSeq : gset Z;
  eventDedupe : gmap string Z;
}.

Definition empty : store := {| events := []; eventSeq := ∅; eventDedupe := ∅ |}.

(** [cloneEvent] copies the payload; values are immutable here. *)
Definition InsertEvent (s : store) (event : Event.EventRecord)
    : store * result goerror bool :=
  if bool_decide (Event.Seq event ∈ eventSeq s) then (s, Ok false)
  else
    let key := Event.DedupeKey event in
    let insert dedupe :=
      ({| events := events s ++ [event];
          eventSeq := {[Event.Seq event]} ∪ eventSeq s;
          eventDedupe := dedupe |}, Ok true) in
    if str_empty key then insert (eventDedupe s)
    else match eventDedupe s !! key with
         | Some _ => (s, Ok false)
         | None => insert (<[key := Event.Seq event]> (eventDedupe s))
         end.

Definition page_limit (limit : Z) : Z :=
  if (limit <=? 0) || (500 <? limit) then 100 else limit.

Fixpoint ListEvents_loop (since limit : Z) (acc rest : list Event.EventRecord)
    : list Event.EventRecord :=
  match rest with
  | [] => acc
  | event :: rest =>
      if Event.Seq event <=? since then ListEvents_loop since limit acc rest
      else
        let acc := acc ++ [event] in
        if limit <=? Z.of_nat (length acc) then acc
        else ListEvents_loop since limit acc rest
  end.

Definition ListEvents (s : store) (since limit : Z)
    : result goerror (list Event.EventRecord) :=
  Ok (ListEvents_loop since (page_limit limit) [] (events s)).

Fixpoint EventBounds_loop (i : nat) (bounds : Bounds.EventBounds)
    (rest : list Event.EventRecord) : Bounds.EventBounds :=
  match rest with
  | [] => bounds
  | event :: rest =>
      let seq := Event.Seq event in
      let first := Nat.eqb i 0 in
      let minSeq := if first || (seq <? Bounds.MinSeq bounds) then seq
                    else Bounds.MinSeq bounds in
      let maxSeq := if first || (Bounds.MaxSeq bounds <? seq) then seq
                    else Bounds.MaxSeq bounds in
      EventBounds_loop (S i)
        {| Bounds.MinSeq := minSeq; Bounds.MaxSeq := maxSeq;
           Bounds.Count := Bounds.Count bounds + 1 |} rest
  end.

Definition EventBounds (s : store) : result goerror Bounds.EventBounds :=
  Ok (EventBounds_loop 0 {| Bounds.MinSeq := 0; Bounds.MaxSeq := 0; Bounds.Count := 0 |}
        (events s)).

(** The loop of [PruneEventsBefore]: kept events, both indexes, deletions. *)
Fixpoint PruneEventsBefore_loop (beforeSeq : Z) (s : store) (deleted : Z)
    (rest : list Event.EventRecord) : store * Z :=
  match rest with
  | [] => (s, deleted)
  | event :: rest =>
      if Event.Seq event <? beforeSeq then
        PruneEventsBefore_loop beforeSeq
          {| events := events s;
             eventSeq := eventSeq s ∖ {[Event.Seq event]};
             eventDedupe := if str_empty (Event.DedupeKey event) then eventDedupe s
                            else delete (Event.DedupeKey event) (eventDedupe s) |}
          (deleted + 1) rest
      else
        PruneEventsBefore_loop beforeSeq
          {| events := events s ++ [event]; eventSeq := eventSeq s;
             eventDedupe := eventDedupe s |} deleted rest
  end.

Definition PruneEventsBefore (s : store) (beforeSeq : Z) : store * result goerror Z :=
  if beforeSeq <=? 0 then (s, Ok 0)
  else
    let '(s', deleted) :=
      PruneEventsBefore_loop beforeSeq
        {| events := []; eventSeq := eventSeq s; eventDedupe := eventDedupe s |}
        0 (events s) in
    (s', Ok deleted).

Definition rebuildEventIndexesLocked (l : list Event.EventRecord) : store :=
  {| events := l;
     eventSeq := foldl (fun (idx : gset Z) event => {[Event.Seq event]} ∪ idx) ∅ l;
     eventDedupe := foldl (fun (idx : gmap string Z) event =>
         if str_empty (Event.DedupeKey event) then idx
         else <[Event.DedupeKey event := Event.Seq event]> idx) ∅ l |}.

Definition seq_less (a b : Event.EventRecord) : bool := Event.Seq a <? Event.Seq b.

Definition PruneEventsToMaxRows (s : store) (maxRows : Z) : store * result goerror Z :=
  if maxRows <=? 0 then (s, Ok 0)
  else
    let len := Z.of_nat (length (events s)) in
    if len <=? maxRows then (s, Ok 0)
    else
      let sorted := stable_sort seq_less (events s) in
      let kept := drop (length sorted - Z.to_nat maxRows) sorted in
      (rebuildEventIndexesLocked kept, Ok (len - maxRows)).

#[global] Instance memory_event_store : EventStore store := {
  InsertEvent := InsertEvent;
  ListEvents := ListEvents;
  EventBounds := EventBounds;
  PruneEventsToMaxRows := PruneEventsToMaxRows;
}.
End MemoryEvents.

Module Events.
Record Config := {
  RetentionMaxRows : Z;
  RetentionPruneOnWrite : bool;
}.

Section Module_.
Context {S : Type} `{EventStore S}.

(** [eventWake] is the identity of the open channel: a channel with a
    smaller number has been closed, and a consumer waiting on it runs. *)
Record Module := mk {
  store : option S;
  config : Config;
  nextSeq : Z;
  eventWake : nat;
}.

Definition New (st : option S) (cfg : Config) : Module :=
  {| store := st; config := cfg; nextSeq := 0; eventWake := 0 |}.

Definition with_store (m : Module) (s : S) : Module :=
  {| store := Some s; config := config m; nextSeq := nextSeq m;
     eventWake := eventWake m |}.

Definition unavailable : goerror := ErrOther "event store is unavailable".

(** The event as [Append] completes it before it takes the lock. *)
Definition prepare (now : Z) (event : Event.EventRecord) : Event.EventRecord :=
  let event := if str_empty (Event.CreatedAt event)
               then Event.set_CreatedAt (format_rfc3339nano now) event else event in
  Event.set_DedupeKey (trim_space (Event.DedupeKey event)) event.

(** The critical section of [Append]. *)
Definition allocate (now : Z) (m : Module) (event : Event.EventRecord)
    : Module * Event.EventRecord :=
  let seq := Event.Seq event in
  let seq := if (seq <=? 0) || (seq <=? nextSeq m) then
               if unix_nano now <=? nextSeq m then wrap64 (nextSeq m + 1)
               else unix_nano now
             else seq in
  ({| store := store m; config := config m; nextSeq := seq; eventWake := eventWake m |},
   Event.set_Seq seq event).

(** Close the open channel and open the next. *)
Definition notify (m : Module) : Module :=
  {| store := store m; config := config m; nextSeq := nextSeq m;
     eventWake := Datatypes.S (eventWake m) |}.

Definition Append (now : Z) (m : Module) (event : Event.EventRecord)
    : Module * result goerror unit :=
  match store m with
  | None => (m, Err unavailable)
  | Some st =>
      let '(m, event) := allocate now m (prepare now event) in
      let '(st, inserted) := InsertEvent st event in
      let m := with_store m st in
      match inserted with
      | Err e => (m, Err e)
      | Ok false => (m, Ok ())
      | Ok true =>
          if RetentionPruneOnWrite (config m) && (0 <? RetentionMaxRows (config m)) then
            let '(st, pruned) := PruneEventsToMaxRows st (RetentionMaxRows (config m)) in
            let m := with_store m st in
            match pruned with
            | Err e => (m, Err e)
            | Ok _ => (notify m, Ok ())
            end
          else (notify m, Ok ())
      end
  end.

Definition List_ (m : Module) (since limit : Z)
    : result goerror (list Event.EventRecord) :=
  match store m with
  | None => Err unavailable
  | Some st =>
      let limit := if (limit <=? 0) || (500 <? limit) then 100 else limit in
      ListEvents st since limit
  end.

Record CursorStatusRecord := {
  Expired : bool;
  Since : Z;
  StatusBounds : Bounds.EventBounds;
}.

Definition zero_bounds : Bounds.EventBounds :=
  {| Bounds.MinSeq := 0; Bounds.MaxSeq := 0; Bounds.Count := 0 |}.

Definition CursorStatus (m : Module) (since : Z) : result goerror CursorStatusRecord :=
  if since <=? 0
  then Ok {| Expired := false; Since := since; StatusBounds := zero_bounds |}
  else match store m with
       | None => Err unavailable
       | Some st =>
           rbind (EventBounds st) (fun bounds =>
             Ok {| Expired := (0 <? Bounds.Count bounds) && (0 <? Bounds.MinSeq bounds)
                              && (since <? Bounds.MinSeq bounds);
                   Since := since; StatusBounds := bounds |})
       end.

Definition Waiter (m : Module) : nat := eventWake m.

Definition ResetSequence (m : Module) : Module :=
  {| store := store m; config := config m; nextSeq := 0; eventWake := eventWake m |}.

Definition NotifyPersisted (sequence : Z) (m : Module) : Module :=
  if sequence <=? 0 then m
  else notify {| store := store m; config := config m;
                 nextSeq := if nextSeq m <? sequence then sequence else nextSeq m;
                 eventWake := eventWake m |}.
End Module_.
Arguments Module : clear implicits.
End Events.

(** ** The stream over HTTP

    Writers run [Append] in their own goroutine: the lock of the module covers
    only the allocation of the sequence number, so the store calls and the
    wake-up of different writers and the steps of a consumer interleave.  A
    label is one such atomic step; [step] is [None] when it is not enabled. *)
Module SSE.
Definition productEventBatchLimit : Z := 100.

Definition parse_seq (value name : string) : result string Z :=
  match parse_int_strict value with
  | Some parsed => if parsed <? 0 then Err (name +:+ " must be a non-negative integer")
                   else Ok parsed
  | None => Err (name +:+ " must be a non-negative integer")
  end.

(** [query] and [header] are the values of [after_seq] and [Last-Event-Id],
    [None] when absent. *)
Definition productAfterSeq (query header : option (list string)) : result string Z :=
  let single o name := match o with
                       | None => Ok None
                       | Some [v] => Ok (Some (trim_space v))
                       | Some _ => Err (name +:+ " must appear once")
                       end in
  let parse o name := match o with
                      | None => Ok None
                      | Some v => result_map Some (parse_seq v name)
                      end in
  rbind (single query "after_seq") (fun query =>
  rbind (single header "Last-Event-ID") (fun header =>
  rbind (parse query "after_seq") (fun querySeq =>
  rbind (parse header "Last-Event-ID") (fun headerSeq =>
  match querySeq, headerSeq with
  | None, None => Ok 0
  | Some q, Some h => if Z.eqb q h then Ok h
                      else Err "after_seq and Last-Event-ID must agree"
  | None, Some h => Ok h
  | Some q, None => Ok q
  end)))).

(** The check of [writeProductEventSSE]. *)
Definition event_valid (event : Event.EventRecord) : bool :=
  negb ((Event.Seq event <=? 0) || str_empty (trim_space (Event.Type_ event))).

Inductive phase :=
| Polling                    (* at the top of the loop *)
| Idle                       (* [List] gave nothing, [Waiter] not yet called *)
| Waiting (waiter : nat)     (* in the [select] *)
| Closed.

Record conn := mkConn {
  afterSeq : Z;
  delivered : list Event.EventRecord;
  at_ : phase;
}.

(** The loop over one batch; an invalid event ends the stream. *)
Fixpoint deliver (c : conn) (batch : list Event.EventRecord) : conn :=
  match batch with
  | [] => c
  | event :: batch =>
      if event_valid event then
        deliver {| afterSeq := Event.Seq event; delivered := delivered c ++ [event];
                   at_ := Polling |} batch
      else {| afterSeq := afterSeq c; delivered := delivered c; at_ := Closed |}
  end.

Definition set_phase (p : phase) (c : conn) : conn :=
  {| afterSeq := afterSeq c; delivered := delivered c; at_ := p |}.

Inductive writer :=
| WInsert (event : Event.EventRecord)   (* sequence allocated *)
| WPrune                                (* inserted *)
| WNotify.                              (* retention applied *)

Section System.
Context {S : Type} `{EventStore S}.

Record sys := mkSys {
  events_module : Events.Module S;
  writers : gmap nat writer;
  stream : conn;
  allocated : list Z;                 (* ghost: sequence numbers, newest first *)
}.

Inductive label :=
| LBegin (tid : nat) (now : Z) (event : Event.EventRecord)
| LInsert (tid : nat)
| LPrune (tid : nat)
| LNotify (tid : nat)
| LPersisted (sequence : Z)
| LPoll
| LSubscribe
| LWake
| LHeartbeat
| LDisconnect.

Definition poll (m : Events.Module S) (c : conn) : conn :=
  match Events.List_ m (afterSeq c) productEventBatchLimit with
  | Err _ => set_phase Closed c
  | Ok [] => set_phase Idle c
  | Ok batch => deliver c batch
  end.

Definition step (s : sys) (l : label) : option sys :=
  let m := events_module s in
  let c := stream s in
  let writer_step m w := {| events_module := m; writers := w; stream := c;
                            allocated := allocated s |} in
  let conn_step c := {| events_module := m; writers := writers s; stream := c;
                        allocated := allocated s |} in
  match l with
  | LBegin tid now event =>
      match writers s !! tid, Events.store m with
      | None, Some _ =>
          let '(m, event) := Events.allocate now m (Events.prepare now event) in
          Some {| events_module := m; writers := <[tid := WInsert event]> (writers s);
                  stream := c; allocated := Event.Seq event :: allocated s |}
      | _, _ => None
      end
  | LInsert tid =>
      match writers s !! tid, Events.store m with
      | Some (WInsert event), Some st =>
          let '(st, inserted) := InsertEvent st event in
          let m := Events.with_store m st in
          Some (writer_step m (match inserted with
                               | Ok true => <[tid := WPrune]> (writers s)
                               | _ => delete tid (writers s)
                               end))
      | _, _ => None
      end
  | LPrune tid =>
      match writers s !! tid, Events.store m with
      | Some WPrune, Some st =>
          if Events.RetentionPruneOnWrite (Events.config m) &&
             (0 <? Events.RetentionMaxRows (Events.config m)) then
            let '(st, pruned) :=
              PruneEventsToMaxRows st (Events.RetentionMaxRows (Events.config m)) in
            Some (writer_step (Events.with_store m st)
                    (match pruned with
                     | Ok _ => <[tid := WNotify]> (writers s)
                     | Err _ => delete tid (writers s)
                     end))
          else Some (writer_step m (<[tid := WNotify]> (writers s)))
      | _, _ => None
      end
  | LNotify tid =>
      match writers s !! tid with
      | Some WNotify => Some (writer_step (Events.notify m) (delete tid (writers s)))
      | _ => None
      end
  | LPersisted sequence =>
      Some (writer_step (Events.NotifyPersisted sequence m) (writers s))
  | LPoll => match at_ c with
             | Polling => Some (conn_step (poll m c))
             | _ => None
             end
  | LSubscribe => match at_ c with
                  | Idle => Some (conn_step (set_phase (Waiting (Events.Waiter m)) c))
                  | _ => None
                  end
  | LWake => match at_ c with
             | Waiting w => if Nat.ltb w (Events.eventWake m)
                            then Some (conn_step (set_phase Polling c)) else None
             | _ => None
             end
  | LHeartbeat => match at_ c with
                  | Waiting _ => Some (conn_step (set_phase Polling c))
                  | _ => None
                  end
  | LDisconnect => Some (conn_step (set_phase Closed c))
  end.

Fixpoint run (s : sys) (ls : list label) : option sys :=
  match ls with
  | [] => Some s
  | l :: ls => match step s l with Some s => run s ls | None => None end
  end.

(** One writer that runs [Append] without interruption. *)
Definition append_labels (tid : nat) (now : Z) (event : Event.EventRecord) : list label :=
  [LBegin tid now event; LInsert tid; LPrune tid; LNotify tid].
End System.
Arguments sys : clear implicits.
End SSE.
