(* ===== verification/EventStreamFacts.v ===== *)
(** * Correctness of the event stream

    The contract of an event store ([EventStoreLaws]), the proof that the
    memory log meets it, what [Append] guarantees over any store that does,
    and what a consumer of the stream sees. *)

From Stdlib Require Import Ascii String ZArith Lia.
From stdpp Require Import base tactics list gmap strings sorting.
From S2P Require Import Prelude GoStrings Values Domain GoTime Policy EventStream.
Local Open Scope Z_scope.

#[local] Opaque trim_space format_rfc3339nano.

Abbreviation seqs := (fmap Event.Seq).

(** ** The contract *)

(** A row may be added: its sequence number and its dedupe key are new. *)
Definition fresh_row (l : list Event.EventRecord) (e : Event.EventRecord) : Prop :=
  Event.Seq e ∉ seqs l /\
  (Event.DedupeKey e <> "" -> forall x, x ∈ l -> Event.DedupeKey x <> Event.DedupeKey e).

(** Sequence numbers and dedupe keys identify the rows. *)
Definition unique_rows (l : list Event.EventRecord) : Prop :=
  NoDup (seqs l) /\
  (forall x y, x ∈ l -> y ∈ l -> Event.DedupeKey x <> "" ->
     Event.DedupeKey x = Event.DedupeKey y -> x = y).

(** [l'] is the [n] newest rows of [l]. *)
Definition newest (n : Z) (l l' : list Event.EventRecord) : Prop :=
  exists dropped, l ≡ₚ dropped ++ l' /\
    Z.of_nat (length l') = Z.min n (Z.of_nat (length l)) /\
    (forall x y, x ∈ dropped -> y ∈ l' -> Event.Seq x < Event.Seq y).

Class EventStoreLaws (S : Type) `{EventStore S} := {
  rows : S -> list Event.EventRecord;
  valid : S -> Prop;
  valid_unique : forall s, valid s -> unique_rows (rows s);
  insert_law : forall s e, valid s ->
    valid (InsertEvent s e).1 /\
    match InsertEvent s e with
    | (s', Ok true) => fresh_row (rows s) e /\ rows s' = rows s ++ [e]
    | (s', Ok false) => ~ fresh_row (rows s) e /\ rows s' = rows s
    | (s', Err _) => rows s' = rows s
    end;
  prune_law : forall s n, valid s -> 0 < n ->
    valid (PruneEventsToMaxRows s n).1 /\
    match PruneEventsToMaxRows s n with
    | (s', Ok deleted) =>
        newest n (rows s) (rows s') /\
        deleted = Z.of_nat (length (rows s)) - Z.of_nat (length (rows s'))
    | (s', Err _) => rows s' = rows s
    end;
  bounds_law : forall s b, valid s -> EventBounds s = Ok b ->
    Bounds.Count b = Z.of_nat (length (rows s)) /\
    (rows s <> [] -> (exists e, e ∈ rows s /\ Event.Seq e = Bounds.MinSeq b) /\
                     (exists e, e ∈ rows s /\ Event.Seq e = Bounds.MaxSeq b)) /\
    (forall e, e ∈ rows s -> Bounds.MinSeq b <= Event.Seq e <= Bounds.MaxSeq b);
}.

(** ** The memory log *)

Section Memory.
Import MemoryEvents.
Implicit Types (s : MemoryEvents.store) (l : list Event.EventRecord).

(** The indexes are those of the rows. *)
Definition indexed s : Prop :=
  NoDup (seqs (events s)) /\
  (forall q, q ∈ eventSeq s <-> q ∈ seqs (events s)) /\
  (forall k q, eventDedupe s !! k = Some q <->
     k <> "" /\ exists e, e ∈ events s /\ Event.DedupeKey e = k /\ Event.Seq e = q).

Lemma seq_inj l x y :
  NoDup (seqs l) -> x ∈ l -> y ∈ l -> Event.Seq x = Event.Seq y -> x = y.
Proof.
  intros Hnd [i Hi]%list_elem_of_lookup [j Hj]%list_elem_of_lookup Heq.
  assert (i = j) as ->.
  { eapply (NoDup_lookup (seqs l)); [done| |];
      rewrite list_lookup_fmap, ?Hi, ?Hj; simpl; by rewrite ?Heq. }
  congruence.
Qed.

Lemma indexed_unique s : indexed s -> unique_rows (events s).
Proof.
  intros (Hnd & _ & Hded). split; [done|]. intros x y Hx Hy Hk Heq.
  eapply seq_inj; [done..|].
  assert (eventDedupe s !! Event.DedupeKey x = Some (Event.Seq x)) as H1
    by (apply Hded; eauto).
  assert (eventDedupe s !! Event.DedupeKey x = Some (Event.Seq y)) as H2
    by (apply Hded; eauto). congruence.
Qed.

Lemma empty_indexed : indexed MemoryEvents.empty.
Proof. split; [constructor|]. split; set_solver. Qed.

Lemma indexed_snoc s e dedupe :
  indexed s -> Event.Seq e ∉ eventSeq s ->
  (forall k q, dedupe !! k = Some q <-> eventDedupe s !! k = Some q \/
     (k <> "" /\ k = Event.DedupeKey e /\ q = Event.Seq e)) ->
  indexed {| events := events s ++ [e]; eventSeq := {[Event.Seq e]} ∪ eventSeq s;
             eventDedupe := dedupe |}.
Proof.
  intros (Hnd & Hseq & Hded) Hnew Hd. split; [|split]; cbn [events eventSeq eventDedupe].
  - rewrite fmap_app. apply NoDup_app. split; [done|]. split; [|apply NoDup_singleton].
    intros q Hq. apply Hseq in Hq. set_solver.
  - intros q. rewrite fmap_app, elem_of_app, elem_of_union, Hseq. set_solver.
  - intros k q. rewrite Hd, Hded. setoid_rewrite elem_of_app.
    setoid_rewrite list_elem_of_singleton. naive_solver.
Qed.

Lemma insert_indexed s e :
  indexed s ->
  indexed (MemoryEvents.InsertEvent s e).1 /\
  match MemoryEvents.InsertEvent s e with
  | (s', Ok true) => fresh_row (events s) e /\ events s' = events s ++ [e]
  | (s', Ok false) => ~ fresh_row (events s) e /\ events s' = events s
  | (s', Err _) => events s' = events s
  end.
Proof.
  intros Hs. pose proof Hs as (Hnd & Hseq & Hded). unfold MemoryEvents.InsertEvent.
  case_bool_decide as Hin.
  { split; [done|]. split; [|done]. intros [Hf _]. by apply Hf, Hseq. }
  unfold str_empty. case_bool_decide as Hk.
  - cbn. split; [|split; [|done]].
    + apply indexed_snoc; [done..|]. intros k q. split; [eauto|]. naive_solver.
    + split; [by rewrite <- Hseq|done].
  - destruct (eventDedupe s !! Event.DedupeKey e) as [q|] eqn:Hl.
    + split; [done|]. split; [|done]. intros [_ Hf].
      apply Hded in Hl as (_ & x & Hx & Hxk & _). by apply (Hf Hk x Hx).
    + cbn. split; [|split; [|done]].
      * apply indexed_snoc; [done..|]. intros k q. rewrite lookup_insert_Some.
        destruct (decide (k = Event.DedupeKey e)) as [->|]; naive_solver.
      * split; [by rewrite <- Hseq|]. intros _ x Hx Heq.
        assert (eventDedupe s !! Event.DedupeKey e = Some (Event.Seq x))
          by (apply Hded; eauto). congruence.
Qed.

(** *** Retention *)

Lemma rebuild_seq l : forall q, q ∈ eventSeq (rebuildEventIndexesLocked l) <-> q ∈ seqs l.
Proof.
  cbn. induction l as [|e l IH] using rev_ind; intros q; [set_solver|].
  rewrite foldl_app, fmap_app, elem_of_app. cbn. rewrite elem_of_union, IH. set_solver.
Qed.

Lemma rebuild_dedupe l :
  unique_rows l ->
  forall k q, eventDedupe (rebuildEventIndexesLocked l) !! k = Some q <->
    k <> "" /\ exists e, e ∈ l /\ Event.DedupeKey e = k /\ Event.Seq e = q.
Proof.
  cbn. induction l as [|e l IH] using rev_ind; intros [Hnd Hkey] k q; [set_solver|].
  assert (Hl : unique_rows l).
  { split; [rewrite fmap_app in Hnd; by apply NoDup_app in Hnd as [? _]|].
    intros x y Hx Hy. apply Hkey; set_solver. }
  rewrite foldl_app. cbn. setoid_rewrite elem_of_app.
  setoid_rewrite list_elem_of_singleton. unfold str_empty at 1. case_bool_decide as Hk.
  { rewrite (IH Hl). naive_solver. }
  rewrite lookup_insert_Some, (IH Hl).
  split; [naive_solver|]. intros (Hk' & x & [Hx| ->] & <- & <-); [|naive_solver].
  destruct (decide (Event.DedupeKey e = Event.DedupeKey x)) as [E|]; [|naive_solver].
  left. split; [done|]. f_equal. apply (Hkey e x); set_solver.
Qed.

Lemma rebuild_indexed l : unique_rows l -> indexed (rebuildEventIndexesLocked l).
Proof.
  intros Hl. split; [apply Hl|]. split; [apply rebuild_seq|by apply rebuild_dedupe].
Qed.

Lemma unique_rows_perm l l' : l ≡ₚ l' -> unique_rows l -> unique_rows l'.
Proof.
  intros Hp [Hnd Hkey]. split; [by rewrite <- Hp|]. intros x y. rewrite <- !Hp. auto.
Qed.

Lemma unique_rows_suffix l1 l2 : unique_rows (l1 ++ l2) -> unique_rows l2.
Proof.
  intros [Hnd Hkey]. split; [rewrite fmap_app in Hnd; by apply NoDup_app in Hnd as (_ & _ & ?)|].
  intros x y Hx Hy. apply Hkey; set_solver.
Qed.

Lemma sorted_by_seq l : StronglySorted (not_after seq_less) (stable_sort seq_less l).
Proof.
  apply stable_sort_sorted; unfold seq_less, not_after; intros; go_bool; apply Z.ltb_ge; lia.
Qed.

Lemma StronglySorted_split {A} (R : A -> A -> Prop) (l1 l2 : list A) x y :
  StronglySorted R (l1 ++ l2) -> x ∈ l1 -> y ∈ l2 -> R x y.
Proof.
  induction l1 as [|z l1 IH]; simpl; [set_solver|].
  intros [Hs Hall]%StronglySorted_inv [->|Hx]%elem_of_cons Hy; [|auto].
  rewrite Forall_forall in Hall. apply Hall. set_solver.
Qed.

Lemma sorted_drop_newest l k :
  unique_rows l ->
  newest (Z.of_nat (length l - k)) l (drop k (stable_sort seq_less l)).
Proof.
  intros Hu. set (sl := stable_sort seq_less l).
  assert (Hp : sl ≡ₚ l) by apply stable_sort_perm.
  exists (take k sl). split; [by rewrite take_drop, Hp|]. split.
  { rewrite length_drop, Hp. lia. }
  intros x y Hx Hy. pose proof (sorted_by_seq l) as Hs. fold sl in Hs.
  rewrite <- (take_drop k sl) in Hs.
  pose proof (StronglySorted_split _ _ _ _ _ Hs Hx Hy) as Hle.
  unfold not_after, seq_less in Hle. go_bool.
  enough (Event.Seq x <> Event.Seq y) by lia. intros Heq.
  assert (Hnd : NoDup (seqs sl)) by (rewrite Hp; apply Hu).
  rewrite <- (take_drop k sl), fmap_app in Hnd. apply NoDup_app in Hnd as (_ & Hd & _).
  apply (Hd (Event.Seq x)); [by apply list_elem_of_fmap_2|].
  rewrite Heq. by apply list_elem_of_fmap_2.
Qed.

Lemma newest_all l n : Z.of_nat (length l) <= n -> newest n l l.
Proof. intros. exists []. split; [done|]. split; [lia|set_solver]. Qed.

Lemma prune_indexed s n :
  indexed s -> 0 < n ->
  indexed (MemoryEvents.PruneEventsToMaxRows s n).1 /\
  match MemoryEvents.PruneEventsToMaxRows s n with
  | (s', Ok deleted) =>
      newest n (events s) (events s') /\
      deleted = Z.of_nat (length (events s)) - Z.of_nat (length (events s'))
  | (s', Err _) => events s' = events s
  end.
Proof.
  intros Hs Hn. unfold MemoryEvents.PruneEventsToMaxRows.
  rewrite (proj2 (Z.leb_gt _ _)) by lia.
  destruct (_ <=? n) eqn:Hle; go_bool.
  { cbn. split; [done|]. split; [by apply newest_all|lia]. }
  pose proof (indexed_unique _ Hs) as Hu.
  set (sl := stable_sort seq_less (events s)).
  assert (Hp : sl ≡ₚ events s) by apply stable_sort_perm.
  assert (Hnew := sorted_drop_newest (events s) (length sl - Z.to_nat n) Hu).
  assert (Hlen : length sl = length (events s)) by (by rewrite Hp).
  fold sl in Hnew. rewrite Hlen in *.
  replace (Z.of_nat (_ - _)) with n in Hnew by lia.
  cbn [fst events rebuildEventIndexesLocked]. split.
  - apply rebuild_indexed, (unique_rows_suffix (take (length (events s) - Z.to_nat n) sl)).
    rewrite take_drop. by eapply unique_rows_perm; [symmetry|].
  - split; [done|]. destruct Hnew as (? & _ & Hlen' & _). lia.
Qed.

Definition since_seq (before : Z) (e : Event.EventRecord) : bool :=
  negb (Event.Seq e <? before).

Definition index_of s l : MemoryEvents.store :=
  {| events := l; eventSeq := eventSeq s; eventDedupe := eventDedupe s |}.

Lemma indexed_remove s l1 e l2 :
  indexed (index_of s (l1 ++ e :: l2)) ->
  indexed {| events := l1 ++ l2; eventSeq := eventSeq s ∖ {[Event.Seq e]};
             eventDedupe := if str_empty (Event.DedupeKey e) then eventDedupe s
                            else delete (Event.DedupeKey e) (eventDedupe s) |}.
Proof.
  intros Hs. pose proof (indexed_unique _ Hs) as [Hnd Hkey].
  destruct Hs as (_ & Hseq & Hded). cbn in *.
  assert (Hin : forall x, x ∈ l1 ++ e :: l2 <-> x = e \/ x ∈ l1 ++ l2) by set_solver.
  rewrite fmap_app, fmap_cons, <- Permutation_middle, <- fmap_app in Hnd.
  apply NoDup_cons in Hnd as [He Hnd].
  split; [done|]. split; cbn [events eventSeq eventDedupe].
  - intros q. rewrite elem_of_difference, Hseq, fmap_app, fmap_cons, elem_of_app, elem_of_cons.
    rewrite fmap_app, elem_of_app in *. set_unfold. naive_solver.
  - intros k q. trans (k <> "" /\ exists x, x ∈ l1 ++ l2 /\ Event.DedupeKey x = k
      /\ Event.Seq x = q); [|done].
    unfold str_empty. case_bool_decide as Hk.
    { rewrite Hded. setoid_rewrite Hin. naive_solver. }
    rewrite lookup_delete_Some, Hded. setoid_rewrite Hin. split; [naive_solver|].
    intros (Hk' & x & Hx & <- & <-). split; [|split; [done|eauto]].
    intros Heq. assert (e = x) as ->.
    { apply Hkey; rewrite ?Hin; auto. }
    apply He, list_elem_of_fmap. eauto.
Qed.

Lemma PruneEventsBefore_loop_spec before rest s deleted :
  indexed (index_of s (events s ++ rest)) ->
  let r := PruneEventsBefore_loop before s deleted rest in
  indexed r.1 /\
  events r.1 = events s ++ List.filter (since_seq before) rest /\
  r.2 = deleted + Z.of_nat (length rest - length (List.filter (since_seq before) rest)).
Proof.
  revert s deleted. induction rest as [|e rest IH]; intros s deleted Hs; cbn.
  { rewrite app_nil_r in *. split; [by destruct s|]. split; [done|lia]. }
  assert (Hf : (length (List.filter (since_seq before) rest) <= length rest)%nat)
    by apply List.filter_length_le.
  unfold since_seq at 1 3. destruct (Event.Seq e <? before) eqn:E; cbn [negb].
  - edestruct (IH {| events := events s; eventSeq := eventSeq s ∖ {[Event.Seq e]};
                     eventDedupe := if str_empty (Event.DedupeKey e) then eventDedupe s
                       else delete (Event.DedupeKey e) (eventDedupe s) |} (deleted + 1))
      as (H1 & H2 & H3); [exact (indexed_remove _ _ _ _ Hs)|].
    split; [done|]. split; [done|]. cbn [List.filter length] in *. rewrite H3.
    unfold since_seq. rewrite E. cbn. fold (since_seq before). lia.
  - destruct (IH {| events := events s ++ [e]; eventSeq := eventSeq s;
                    eventDedupe := eventDedupe s |} deleted) as (H1 & H2 & H3).
    { cbn. by rewrite <- app_assoc. }
    split; [done|]. cbn in H2. rewrite H2, <- app_assoc. split; [done|].
    rewrite H3. unfold since_seq. rewrite E. cbn. fold (since_seq before). lia.
Qed.

(** *** Reading *)

Definition min_bound (i : nat) b l : Prop :=
  (i = 0%nat \/ exists x, x ∈ l /\ Event.Seq x = Bounds.MinSeq b) /\
  (i = 0%nat \/ exists x, x ∈ l /\ Event.Seq x = Bounds.MaxSeq b) /\
  (forall e, e ∈ l -> Bounds.MinSeq b <= Event.Seq e <= Bounds.MaxSeq b) /\
  Bounds.Count b = Z.of_nat (length l).

Lemma EventBounds_loop_spec rest seen b :
  min_bound (length seen) b seen ->
  let l := seen ++ rest in
  min_bound (length l) (EventBounds_loop (length seen) b rest) l.
Proof.
  revert seen b. induction rest as [|e rest IH]; intros seen b Hb; cbn.
  { by rewrite app_nil_r. }
  rewrite (cons_middle e), app_assoc.
  replace (Datatypes.S (length seen)) with (length (seen ++ [e]))
    by (rewrite length_app; simpl; lia).
  apply IH. destruct Hb as (Hmin & Hmax & Hall & Hc). unfold min_bound. cbn.
  rewrite length_app. cbn [length].
  assert (Hin : forall x, x ∈ seen ++ [e] <-> x ∈ seen \/ x = e) by set_solver.
  setoid_rewrite Hin.
  destruct (Nat.eqb_spec (length seen) 0) as [H0|H0]; cbn [orb].
  { destruct seen; [|done]. split; [naive_solver|]. split; [naive_solver|].
    split; [|simpl in *; lia]. intros x [Hx| ->]; [set_solver|lia]. }
  destruct Hmin as [|(x1 & Hx1 & Hm1)]; [done|]. destruct Hmax as [|(x2 & Hx2 & Hm2)]; [done|].
  split; [|split; [|split; [|lia]]].
  - right. destruct (_ <? _); eauto.
  - right. destruct (Bounds.MaxSeq b <? _); eauto.
  - intros x Hx. destruct (_ <? _) eqn:E1, (Bounds.MaxSeq b <? _) eqn:E2; go_bool;
      (destruct Hx as [Hx| ->]; [apply Hall in Hx; lia|lia]).
Qed.

Lemma bounds_indexed s b :
  MemoryEvents.EventBounds s = Ok b ->
  Bounds.Count b = Z.of_nat (length (events s)) /\
  (events s <> [] -> (exists e, e ∈ events s /\ Event.Seq e = Bounds.MinSeq b) /\
                     (exists e, e ∈ events s /\ Event.Seq e = Bounds.MaxSeq b)) /\
  (forall e, e ∈ events s -> Bounds.MinSeq b <= Event.Seq e <= Bounds.MaxSeq b).
Proof.
  unfold MemoryEvents.EventBounds. intros [= <-].
  destruct (EventBounds_loop_spec (events s) []
    {| Bounds.MinSeq := 0; Bounds.MaxSeq := 0; Bounds.Count := 0 |}) as (H1 & H2 & H3 & H4).
  { split; [by left|]. split; [by left|]. split; [set_solver|done]. }
  cbn in *. split; [done|]. split; [|done]. intros Hne.
  destruct (events s); [done|]. destruct H1, H2; try done; auto.
Qed.

Lemma ListEvents_loop_spec since limit acc l :
  Z.of_nat (length acc) < limit ->
  ListEvents_loop since limit acc l =
  take (Z.to_nat limit) (acc ++ List.filter (fun e => negb (Event.Seq e <=? since)) l).
Proof.
  revert acc. induction l as [|e l IH]; intros acc Hlen; cbn.
  { rewrite app_nil_r, take_ge by lia. done. }
  destruct (Event.Seq e <=? since); cbn; [by apply IH|].
  rewrite (cons_middle e acc (List.filter _ l)), app_assoc.
  destruct (_ <=? _) eqn:E; go_bool.
  - rewrite length_app in E. cbn [length] in E.
    assert (Hl : length (acc ++ [e]) = Z.to_nat limit) by (rewrite length_app; cbn [length]; lia).
    by rewrite <- Hl, take_app_length.
  - by apply IH.
Qed.
End Memory.

#[export] Instance memory_event_store_laws : EventStoreLaws MemoryEvents.store := {
  rows := MemoryEvents.events;
  valid := indexed;
  valid_unique := indexed_unique;
  insert_law := insert_indexed;
  prune_law := prune_indexed;
  bounds_law := fun s b _ => bounds_indexed s b;
}.

(** ** Claims about the log *)

Inductive log_op :=
| OpInsert (e : Event.EventRecord)
| OpPruneBefore (seq : Z)
| OpPruneToMax (rows : Z).

Definition log_step (s : MemoryEvents.store) (op : log_op) : MemoryEvents.store :=
  match op with
  | OpInsert e => (MemoryEvents.InsertEvent s e).1
  | OpPruneBefore seq => (MemoryEvents.PruneEventsBefore s seq).1
  | OpPruneToMax n => (MemoryEvents.PruneEventsToMaxRows s n).1
  end.

Lemma log_step_indexed s op : indexed s -> indexed (log_step s op).
Proof.
  intros Hs. destruct op as [e|seq|n]; cbn [log_step].
  - by apply insert_indexed.
  - unfold MemoryEvents.PruneEventsBefore. destruct (seq <=? 0); [done|].
    destruct (PruneEventsBefore_loop_spec seq (MemoryEvents.events s)
      {| MemoryEvents.events := []; MemoryEvents.eventSeq := MemoryEvents.eventSeq s;
         MemoryEvents.eventDedupe := MemoryEvents.eventDedupe s |} 0) as (H & _).
    { cbn. unfold index_of. cbn. by destruct s. }
    by destruct (MemoryEvents.PruneEventsBefore_loop _ _ _ _).
  - destruct (decide (0 < n)); [by apply prune_indexed|].
    unfold MemoryEvents.PruneEventsToMaxRows. by rewrite (proj2 (Z.leb_le _ _)) by lia.
Qed.

(** After any sequence of inserts and prunes the two indexes of the
    memory event log are exactly the sequence numbers and the dedupe keys of
    the rows, no two rows share a sequence number, and no two rows share a
    non-empty dedupe key; a pruned event's key can therefore be used again,
    and a retained one cannot. *)
Theorem event_log_indexes_exact ops :
  let s := foldl log_step MemoryEvents.empty ops in
  NoDup (seqs (MemoryEvents.events s)) /\
  (forall q, q ∈ MemoryEvents.eventSeq s <-> q ∈ seqs (MemoryEvents.events s)) /\
  (forall k q, MemoryEvents.eventDedupe s !! k = Some q <->
     k <> "" /\ exists e, e ∈ MemoryEvents.events s /\ Event.DedupeKey e = k /\ Event.Seq e = q) /\
  (forall x y, x ∈ MemoryEvents.events s -> y ∈ MemoryEvents.events s ->
     Event.DedupeKey x <> "" -> Event.DedupeKey x = Event.DedupeKey y -> x = y).
Proof.
  intros s. assert (Hs : indexed s).
  { unfold s. generalize empty_indexed. generalize MemoryEvents.empty.
    induction ops as [|op ops IH]; intros s0 H0; cbn; [done|]. by apply IH, log_step_indexed. }
  pose proof (indexed_unique s Hs) as [_ Hk]. destruct Hs as (? & ? & ?). auto.
Qed.

(** ** [Append] over any store that keeps the contract *)

Section Append.
Context {S : Type} `{EventStoreLaws S}.
Implicit Types (m : Events.Module S) (s : S).

Definition retention_on m : bool :=
  Events.RetentionPruneOnWrite (Events.config m) &&
  (0 <? Events.RetentionMaxRows (Events.config m)).

(** What one call may do to the rows and to the wake-up channel. *)
Definition append_outcome (now : Z) m m' s s' event (r : result goerror unit) : Prop :=
  let e := (Events.allocate now m (Events.prepare now event)).2 in
  let added := fresh_row (rows s) e /\ rows s' = rows s ++ [e] in
  match r with
  | Ok _ =>
      (~ fresh_row (rows s) e /\ rows s' = rows s /\
       Events.eventWake m' = Events.eventWake m) \/
      (fresh_row (rows s) e /\ Events.eventWake m' = Datatypes.S (Events.eventWake m) /\
       if retention_on m
       then newest (Events.RetentionMaxRows (Events.config m)) (rows s ++ [e]) (rows s')
       else rows s' = rows s ++ [e])
  | Err _ => Events.eventWake m' = Events.eventWake m /\ (rows s' = rows s \/ added)
  end.

(** [Append] over any store that keeps the contract: the store stays
    valid; on success either the event repeats a known sequence number or
    dedupe key and nothing is stored or announced, or the completed event
    (sequence allocated, dedupe key trimmed, creation time set) is stored,
    retention keeps exactly the newest configured number of rows, and
    waiting consumers are woken once; on an error nobody is woken. *)
Theorem Append_contract now m event s :
  Events.store m = Some s -> valid s ->
  exists s', Events.store (Events.Append now m event).1 = Some s' /\ valid s' /\
    append_outcome now m (Events.Append now m event).1 s s' event
      (Events.Append now m event).2.
Proof.
  intros Hst Hv. unfold Events.Append, append_outcome, retention_on. rewrite Hst.
  destruct (Events.allocate now m (Events.prepare now event)) as [m1 e] eqn:Ha.
  assert (Hc : Events.config m1 = Events.config m /\ Events.eventWake m1 = Events.eventWake m)
    by (unfold Events.allocate in Ha; simplify_eq/=; done).
  destruct Hc as [Hc Hw]. cbn [snd].
  destruct (insert_law s e Hv) as [Hv1 Hins].
  destruct (InsertEvent s e) as [s1 [[] | err]]; cbn [fst snd] in *.
  - destruct Hins as [Hf Hr]. cbn [Events.config Events.with_store]. rewrite Hc.
    destruct (Events.RetentionPruneOnWrite _ && _) eqn:Hret.
    + apply andb_true_iff in Hret as [_ Hpos]. go_bool.
      destruct (prune_law s1 _ Hv1 Hpos) as [Hv2 Hpr].
      destruct (PruneEventsToMaxRows s1 _) as [s2 [d|err]]; cbn in *; exists s2;
        (split; [done|]; split; [done|]); rewrite Hr in Hpr.
      * right. rewrite Hw. split; [done|]. split; [done|]. by destruct Hpr.
      * split; [done|]. right. by rewrite Hpr.
    + cbn. exists s1. split; [done|]. split; [done|]. right. by rewrite Hw.
  - destruct Hins as [Hf Hr]. exists s1. split; [done|]. split; [done|]. left. by rewrite Hr.
  - exists s1. cbn. split; [done|]. split; [done|]. split; [done|]. left. done.
Qed.

(** A cursor is reported as expired exactly when it is a real cursor
    (positive), the log has rows, and every row lies beyond it, so that
    retention may have removed rows the client has not seen. *)
Theorem CursorStatus_expired_iff m s since status :
  Events.store m = Some s -> valid s -> Events.CursorStatus m since = Ok status ->
  (Events.Expired status = true <->
   0 < since /\ rows s <> [] /\ forall e, e ∈ rows s -> since < Event.Seq e).
Proof.
  intros Hst Hv. unfold Events.CursorStatus. rewrite Hst.
  destruct (since <=? 0) eqn:E; go_bool; intros Heq; simplify_eq/=.
  { split; [done|]. lia. }
  destruct (EventBounds s) as [b|] eqn:Hb; simplify_eq/=.
  destruct (bounds_law s b Hv Hb) as (Hc & Hex & Hall).
  rewrite !andb_true_iff, !Z.ltb_lt, Hc. split.
  - intros [[Hlen _] Hlt]. split; [done|]. split; [by intros Hn; rewrite Hn in Hlen|].
    intros e He. apply Hall in He. lia.
  - intros (_ & Hne & Hlt). destruct (Hex Hne) as [(e & He & <-) _].
    pose proof (Hlt e He). destruct (rows s); [done|]. simpl. lia.
Qed.
End Append.

(** ** Interleaved writers *)

Section Interleaved.
Context {S : Type} `{EventStore S}.
Implicit Types (s : SSE.sys S).

(** The sequence counter has not reached the last [int64] before any step. *)
Fixpoint not_exhausted s (ls : list SSE.label) : Prop :=
  Events.nextSeq (SSE.events_module s) < int64_max /\
  match ls with
  | [] => True
  | l :: ls => match SSE.step s l with Some s => not_exhausted s ls | None => True end
  end.

Definition allocation_ok s : Prop :=
  0 <= Events.nextSeq (SSE.events_module s) /\
  StronglySorted Z.gt (SSE.allocated s) /\
  Forall (fun q => 0 < q <= Events.nextSeq (SSE.events_module s)) (SSE.allocated s).

Lemma allocate_next now (m : Events.Module S) e :
  0 <= Events.nextSeq m < int64_max ->
  let r := Events.allocate now m e in
  Events.nextSeq m < Event.Seq r.2 /\ Events.nextSeq r.1 = Event.Seq r.2.
Proof.
  intros Hn. unfold Events.allocate. cbn.
  split; [|done]. destruct (_ || _) eqn:E.
  - destruct (unix_nano now <=? _) eqn:E2; go_bool; [|lia].
    rewrite wrap64_id; [lia|]. unfold in_int64, int64_min, int64_max in *. lia.
  - go_bool. lia.
Qed.

Lemma allocation_grow s n :
  allocation_ok s -> Events.nextSeq (SSE.events_module s) <= n ->
  0 <= n /\ StronglySorted Z.gt (SSE.allocated s) /\
  Forall (fun q => 0 < q <= n) (SSE.allocated s).
Proof.
  intros (H0 & Hs & Hf) Hn. split; [lia|]. split; [done|].
  eapply Forall_impl; [exact Hf|]. cbn. intros q Hq. lia.
Qed.

Lemma step_allocation s l s' :
  SSE.step s l = Some s' -> Events.nextSeq (SSE.events_module s) < int64_max ->
  allocation_ok s -> allocation_ok s'.
Proof.
  intros Hstep Hlt Hok. pose proof Hok as (H0 & Hs & Hf).
  destruct l; cbn [SSE.step] in Hstep; try by (go_cases; simplify_eq/=; exact Hok).
  - destruct (SSE.writers s !! tid), (Events.store (SSE.events_module s)); try done.
    pose proof (allocate_next now (SSE.events_module s) (Events.prepare now event)
      (conj H0 Hlt)) as [Hgt Hnext].
    destruct (Events.allocate _ _ _) as [m e]. cbn in *. injection Hstep as <-. cbn.
    unfold allocation_ok. cbn. rewrite Hnext. split; [lia|]. split.
    + constructor; [done|]. eapply Forall_impl; [exact Hf|]. cbn. intros q Hq. lia.
    + constructor; [lia|]. eapply Forall_impl; [exact Hf|]. cbn. intros q Hq. lia.
  - injection Hstep as <-. unfold allocation_ok. cbn. unfold Events.NotifyPersisted.
    destruct (_ <=? 0); cbn; [done|]. destruct (_ <? _) eqn:E; go_bool.
    + by apply allocation_grow; [|lia].
    + done.
Qed.

Lemma run_allocation ls s s' :
  SSE.run s ls = Some s' -> not_exhausted s ls -> allocation_ok s -> allocation_ok s'.
Proof.
  revert s. induction ls as [|l ls IH]; cbn; intros s Hrun [Hlt Hne] Hok; [by simplify_eq|].
  destruct (SSE.step s l) as [s1|] eqn:Hs; [|done].
  eapply IH; [done..|]. by eapply step_allocation.
Qed.

(** Whatever the interleaving of writers, externally persisted
    sequences and consumers, a process that starts with a non-negative
    counter hands out positive sequence numbers, each larger than all
    earlier ones, as long as the counter has not reached the largest
    [int64] (there the increment wraps). *)
Theorem allocated_sequences_increase ls m writers stream s :
  let start := {| SSE.events_module := m; SSE.writers := writers; SSE.stream := stream;
                  SSE.allocated := [] |} in
  0 <= Events.nextSeq m -> SSE.run start ls = Some s -> not_exhausted start ls ->
  StronglySorted Z.gt (SSE.allocated s) /\
  Forall (fun q => 0 < q <= Events.nextSeq (SSE.events_module s)) (SSE.allocated s).
Proof.
  intros start H0 Hrun Hne. apply (run_allocation ls start s Hrun Hne).
  split; [done|]. split; constructor.
Qed.

(** An uninterrupted writer performs [Append]. *)
Lemma Append_is_steps s tid now event st s' :
  SSE.writers s !! tid = None -> Events.store (SSE.events_module s) = Some st ->
  (InsertEvent st (Events.allocate now (SSE.events_module s)
     (Events.prepare now event)).2).2 = Ok true ->
  SSE.run s (SSE.append_labels tid now event) = Some s' ->
  Events.Append now (SSE.events_module s) event = (SSE.events_module s', Ok ()).
Proof.
  intros Hw Hst Hins. unfold Events.Append. rewrite Hst.
  cbn [SSE.run SSE.append_labels SSE.step]. rewrite Hw, Hst.
  destruct (Events.allocate now (SSE.events_module s) _) as [m e] eqn:Ha.
  assert (Hm : Events.store m = Some st)
    by (unfold Events.allocate in Ha; by simplify_eq/=).
  cbn [SSE.writers SSE.events_module snd] in *. rewrite lookup_insert_eq, Hm.
  destruct (InsertEvent st e) as [st' r]. cbn in Hins. subst r.
  cbn [SSE.writers SSE.events_module]. rewrite lookup_insert_eq.
  cbn [Events.store Events.with_store Events.config].
  destruct (Events.RetentionPruneOnWrite _ && _).
  - destruct (PruneEventsToMaxRows st' _) as [st2 [d|]]; cbn.
    + rewrite lookup_insert_eq. by intros [= <-].
    + rewrite lookup_delete_eq. done.
  - cbn. rewrite lookup_insert_eq. by intros [= <-].
Qed.
End Interleaved.

(** ** Delivery when writers do not overlap *)

(** Events beyond a cursor, in log order. *)
Definition later (q : Z) (l : list Event.EventRecord) : list Event.EventRecord :=
  List.filter (fun e => negb (Event.Seq e <=? q)) l.

Definition ascending (l : list Event.EventRecord) : Prop := StronglySorted Z.lt (seqs l).

Inductive act :=
| APublish (now : Z) (event : Event.EventRecord)
| AConsume (l : SSE.label).

Definition consumer_label (l : SSE.label) : bool :=
  match l with
  | SSE.LPoll | SSE.LSubscribe | SSE.LWake | SSE.LHeartbeat | SSE.LDisconnect => true
  | _ => false
  end.

(** Each publication runs [Append] to its end before anything else happens. *)
Definition seq_step (s : SSE.sys MemoryEvents.store) (a : act)
    : option (SSE.sys MemoryEvents.store) :=
  match a with
  | APublish now event =>
      Some {| SSE.events_module := (Events.Append now (SSE.events_module s) event).1;
              SSE.writers := SSE.writers s; SSE.stream := SSE.stream s;
              SSE.allocated := SSE.allocated s |}
  | AConsume l => if consumer_label l then SSE.step s l else None
  end.

Fixpoint seq_run (s : SSE.sys MemoryEvents.store) (l : list act)
    : option (SSE.sys MemoryEvents.store) :=
  match l with
  | [] => Some s
  | a :: l => if Events.nextSeq (SSE.events_module s) <? int64_max
              then match seq_step s a with Some s => seq_run s l | None => None end
              else None
  end.

Lemma later_app q l1 l2 : later q (l1 ++ l2) = later q l1 ++ later q l2.
Proof. apply List.filter_app. Qed.

Lemma later_all q l : (forall e, e ∈ l -> q < Event.Seq e) -> later q l = l.
Proof.
  induction l as [|e l IH]; intros Hall; [done|]. unfold later in *. cbn.
  rewrite (proj2 (Z.leb_gt _ _)) by (apply Hall; set_solver). cbn. f_equal.
  apply IH. set_solver.
Qed.

Lemma elem_of_later q l e : e ∈ later q l <-> e ∈ l /\ q < Event.Seq e.
Proof.
  unfold later. rewrite !list_elem_of_In, List.filter_In, negb_true_iff, Z.leb_gt. done.
Qed.

Lemma later_next q l e rest :
  ascending l -> later q l = e :: rest -> later (Event.Seq e) l = rest.
Proof.
  unfold ascending. induction l as [|x l IH]; [done|]. cbn [fmap list_fmap].
  intros [Hs Hall]%StronglySorted_inv. unfold later. cbn [List.filter].
  destruct (Event.Seq x <=? q) eqn:E; cbn [negb].
  - intros Hl. assert (Hx : Event.Seq x <= Event.Seq e).
    { assert (e ∈ later q l) as [_ ?]%elem_of_later by (unfold later; rewrite Hl; set_solver).
      go_bool. lia. }
    rewrite (proj2 (Z.leb_le _ _)) by done. cbn. by apply IH.
  - intros [= -> <-]. rewrite Z.leb_refl. cbn.
    rewrite Forall_fmap, Forall_forall in Hall. cbn in Hall.
    change (later (Event.Seq e) l = later q l). go_bool.
    rewrite !later_all; [done| |]; intros y Hy; specialize (Hall y Hy); simpl in *; lia.
Qed.

Lemma deliver_prefix l batch rest c :
  ascending l -> later (SSE.afterSeq c) l = batch ++ rest ->
  let c' := SSE.deliver c batch in
  SSE.delivered c' ++ later (SSE.afterSeq c') l =
    SSE.delivered c ++ later (SSE.afterSeq c) l /\
  SSE.afterSeq c <= SSE.afterSeq c' /\
  (SSE.afterSeq c' = SSE.afterSeq c \/ SSE.afterSeq c' ∈ seqs l).
Proof.
  intros Hasc. revert c rest. induction batch as [|e batch IH]; intros c rest Hl; cbn.
  { split; [done|]. split; [lia|by left]. }
  destruct (SSE.event_valid e); cbn; [|split; [done|]; split; [lia|by left]].
  assert (He : e ∈ later (SSE.afterSeq c) l) by (rewrite Hl; set_solver).
  apply elem_of_later in He as [He Hlt]. pose proof (later_next _ _ _ _ Hasc Hl) as Hnext.
  destruct (IH {| SSE.afterSeq := Event.Seq e; SSE.delivered := SSE.delivered c ++ [e];
                  SSE.at_ := SSE.Polling |} rest Hnext) as (H1 & H2 & H3). cbn in *.
  split; [|split; [lia|]].
  - rewrite H1, Hnext, Hl, <- app_assoc. done.
  - right. destruct H3 as [-> |H3]; [by apply list_elem_of_fmap_2|done].
Qed.

(** What holds between two steps of a sequential run. *)
Definition stream_inv (start : Z) (s : SSE.sys MemoryEvents.store) : Prop :=
  let m := SSE.events_module s in
  let c := SSE.stream s in
  exists st, Events.store m = Some st /\ indexed st /\
    Events.RetentionPruneOnWrite (Events.config m) = false /\
    0 <= Events.nextSeq m /\ ascending (MemoryEvents.events st) /\
    (forall e, e ∈ MemoryEvents.events st -> Event.Seq e <= Events.nextSeq m) /\
    start <= SSE.afterSeq c /\
    (SSE.afterSeq c = start \/ SSE.afterSeq c <= Events.nextSeq m) /\
    SSE.delivered c ++ later (SSE.afterSeq c) (MemoryEvents.events st) =
      later start (MemoryEvents.events st).

Lemma ascending_snoc l e :
  ascending l -> (forall x, x ∈ l -> Event.Seq x < Event.Seq e) -> ascending (l ++ [e]).
Proof.
  unfold ascending. rewrite fmap_app. intros Hs Hall.
  induction l as [|x l IH]; cbn in *; [repeat constructor|].
  apply StronglySorted_inv in Hs as [Hs Hx]. constructor.
  - apply IH; [done|]. set_solver.
  - apply Forall_app. split; [done|]. repeat constructor. apply Hall. set_solver.
Qed.

Lemma later_snoc start after next l e delivered :
  start <= after -> after = start \/ after <= next -> next < Event.Seq e ->
  delivered ++ later after l = later start l ->
  delivered ++ later after (l ++ [e]) = later start (l ++ [e]).
Proof.
  intros Hle Hor Hlt Heq. rewrite !later_app, app_assoc, Heq. f_equal.
  destruct Hor as [-> |Hor]; [done|].
  rewrite !later_all; [done| |]; intros x ->%list_elem_of_singleton; lia.
Qed.

Lemma publish_inv start s now event :
  Events.nextSeq (SSE.events_module s) < int64_max -> stream_inv start s ->
  forall s', seq_step s (APublish now event) = Some s' -> stream_inv start s'.
Proof.
  intros Hlt (st & Hst & Hidx & Hret & H0 & Hasc & Hmax & Hle & Hor & Heq) s' [= <-].
  unfold stream_inv. cbn [SSE.events_module SSE.stream].
  pose proof (allocate_next now (SSE.events_module s) (Events.prepare now event)
    (conj H0 Hlt)) as [Hgt Hnext].
  unfold Events.Append. rewrite Hst.
  destruct (Events.allocate now _ _) as [m e] eqn:Ha. cbn [fst snd] in *.
  assert (Hc : Events.config m = Events.config (SSE.events_module s))
    by (unfold Events.allocate in Ha; by simplify_eq/=).
  destruct (insert_indexed st e Hidx) as [Hidx' Hins].
  change (@InsertEvent MemoryEvents.store _) with MemoryEvents.InsertEvent.
  destruct (MemoryEvents.InsertEvent st e) as [st' [[]|]]; cbn [fst snd] in *.
  - destruct Hins as [_ Hrows]. cbn [Events.config Events.with_store]. rewrite Hc, Hret.
    cbn. exists st'. rewrite Hc, Hrows, Hnext. split_and!; try done; try lia.
    + apply ascending_snoc; [done|]. intros x Hx. apply Hmax in Hx. lia.
    + intros x [Hx| ->%list_elem_of_singleton]%elem_of_app; [apply Hmax in Hx; lia|lia].
    + by eapply later_snoc.
  - destruct Hins as [_ Hrows]. cbn. exists st'. rewrite Hc, Hrows, Hnext.
    split_and!; try done; try lia. intros x Hx. apply Hmax in Hx. lia.
  - cbn. exists st'. rewrite Hc, Hins, Hnext.
    split_and!; try done; try lia. intros x Hx. apply Hmax in Hx. lia.
Qed.

Lemma poll_inv start s : stream_inv start s ->
  stream_inv start {| SSE.events_module := SSE.events_module s; SSE.writers := SSE.writers s;
    SSE.stream := SSE.poll (SSE.events_module s) (SSE.stream s);
    SSE.allocated := SSE.allocated s |}.
Proof.
  intros (st & Hst & Hidx & Hret & H0 & Hasc & Hmax & Hle & Hor & Heq).
  exists st. cbn [SSE.events_module SSE.stream].
  assert (Hpoll : exists k, SSE.poll (SSE.events_module s) (SSE.stream s) =
    match take k (later (SSE.afterSeq (SSE.stream s)) (MemoryEvents.events st)) with
    | [] => SSE.set_phase SSE.Idle (SSE.stream s)
    | batch => SSE.deliver (SSE.stream s) batch end).
  { exists 100%nat. unfold SSE.poll, Events.List_. rewrite Hst. cbn -[take].
    unfold MemoryEvents.ListEvents. cbn -[take]. rewrite ListEvents_loop_spec by done.
    cbn -[take]. unfold later. by destruct (take _ _). }
  destruct Hpoll as [k Hpoll].
  destruct (take k (later _ _)) as [|x batch] eqn:Hb; rewrite Hpoll.
  { split_and!; done. }
  destruct (deliver_prefix (MemoryEvents.events st) (x :: batch)
    (drop k (later (SSE.afterSeq (SSE.stream s)) (MemoryEvents.events st)))
    (SSE.stream s) Hasc) as (H1 & H2 & H3); [by rewrite <- Hb, take_drop|].
  rewrite H1. split_and!; try done; [lia|].
  destruct H3 as [-> |H3]; [done|]. right.
  apply list_elem_of_fmap in H3 as (e & -> & He). auto.
Qed.

Lemma seq_step_inv start s a s' :
  Events.nextSeq (SSE.events_module s) < int64_max ->
  stream_inv start s -> seq_step s a = Some s' -> stream_inv start s'.
Proof.
  intros Hlt Hinv Hstep. destruct a as [now event|l]; [by eapply publish_inv|].
  cbn [seq_step] in Hstep. destruct l; cbn [consumer_label SSE.step] in Hstep; try done.
  - destruct (SSE.at_ _); simplify_eq. by apply poll_inv.
  - destruct (SSE.at_ _); simplify_eq. exact Hinv.
  - destruct (SSE.at_ _); simplify_eq. destruct (Nat.ltb _ _); simplify_eq. exact Hinv.
  - destruct (SSE.at_ _); simplify_eq. exact Hinv.
  - simplify_eq. exact Hinv.
Qed.

(** The process at start: an empty log without retention, one client at
    cursor [start]. *)
Definition stream_start (start rows : Z) : SSE.sys MemoryEvents.store :=
  {| SSE.events_module := Events.New (Some MemoryEvents.empty)
       {| Events.RetentionMaxRows := rows; Events.RetentionPruneOnWrite := false |};
     SSE.writers := ∅;
     SSE.stream := {| SSE.afterSeq := start; SSE.delivered := []; SSE.at_ := SSE.Polling |};
     SSE.allocated := [] |}.

Lemma seq_run_inv start l s s' : seq_run s l = Some s' -> stream_inv start s -> stream_inv start s'.
Proof.
  revert s. induction l as [|a l IH]; cbn; intros s Hrun Hinv; [by simplify_eq|].
  destruct (_ <? _) eqn:Hlt; [|done]. go_bool.
  destruct (seq_step s a) as [s1|] eqn:Hs; [|done].
  eapply IH; [done|]. by eapply seq_step_inv.
Qed.

(** C28.  When publications do not overlap and nothing is pruned, a client of
    the stream receives every event beyond its starting cursor exactly once
    and in order: what it has received followed by what the log still has for
    it is the log beyond the start, and the log is in increasing sequence
    order.  This holds at every moment, whatever the interleaving of polls,
    waits, wake-ups, heartbeats and disconnects with the publications. *)
Theorem stream_exactly_once start rows l s :
  seq_run (stream_start start rows) l = Some s ->
  exists st, Events.store (SSE.events_module s) = Some st /\
    ascending (MemoryEvents.events st) /\
    SSE.delivered (SSE.stream s) ++
      later (SSE.afterSeq (SSE.stream s)) (MemoryEvents.events st) =
    later start (MemoryEvents.events st).
Proof.
  intros Hrun. assert (Hinv : stream_inv start s).
  { eapply seq_run_inv; [done|]. exists MemoryEvents.empty. cbn.
    split_and!; try done; [apply empty_indexed|constructor|set_solver|by left]. }
  destruct Hinv as (st & Hst & _ & _ & _ & Hasc & _ & _ & _ & Heq). eauto.
Qed.

(** ** Overlapping writers *)

(** An event at or behind the cursor is never delivered any more. *)
Definition passed (e : Event.EventRecord) (c : SSE.conn) : Prop :=
  Event.Seq e <= SSE.afterSeq c /\ e ∉ SSE.delivered c.

Lemma deliver_passed e batch q c :
  Event.Seq e <= q -> passed e c -> (forall x, x ∈ batch -> q < Event.Seq x) ->
  passed e (SSE.deliver c batch).
Proof.
  intros Hq. revert c. induction batch as [|x batch IH]; cbn; intros c Hp Hall; [done|].
  destruct (SSE.event_valid x); [|done].
  assert (Hx : q < Event.Seq x) by (apply Hall; set_solver). apply IH; [|set_solver].
  split; cbn; [lia|]. destruct Hp as [_ Hp].
  intros [?| ->%list_elem_of_singleton]%elem_of_app; [done|lia].
Qed.

Lemma poll_passed e (m : Events.Module MemoryEvents.store) c :
  passed e c -> passed e (SSE.poll m c).
Proof.
  intros Hp. unfold SSE.poll, Events.List_. destruct (Events.store m) as [st|]; [|done].
  cbn -[take]. unfold MemoryEvents.ListEvents. rewrite ListEvents_loop_spec by done.
  cbn -[take]. change (List.filter _ (MemoryEvents.events st))
    with (later (SSE.afterSeq c) (MemoryEvents.events st)).
  destruct (take _ _) as [|x batch] eqn:Hb; [done|].
  apply (deliver_passed e _ (SSE.afterSeq c)); [apply Hp|done|].
  intros y Hy. rewrite <- Hb in Hy. apply elem_of_take in Hy as (i & Hi & _).
  apply list_elem_of_lookup_2, elem_of_later in Hi. lia.
Qed.

Lemma step_passed e (s : SSE.sys MemoryEvents.store) l s' :
  SSE.step s l = Some s' -> passed e (SSE.stream s) -> passed e (SSE.stream s').
Proof.
  intros Hstep Hp. destruct l; cbn [SSE.step] in Hstep; try by (go_cases; simplify_eq/=).
  destruct (SSE.at_ _); simplify_eq/=. by apply poll_passed.
Qed.

Lemma run_passed e ls (s s' : SSE.sys MemoryEvents.store) :
  SSE.run s ls = Some s' -> passed e (SSE.stream s) -> passed e (SSE.stream s').
Proof.
  revert s. induction ls as [|l ls IH]; cbn; intros s Hrun Hp; [by simplify_eq|].
  destruct (SSE.step s l) eqn:Hs; [|done]. eapply IH; [done|]. by eapply step_passed.
Qed.

Definition demo_event (type : string) : Event.EventRecord :=
  {| Event.Seq := 0; Event.Type_ := type; Event.RoomID := ""; Event.EventID := "";
     Event.DedupeKey := ""; Event.Payload := ∅; Event.CreatedAt := "t" |}.

Definition demo_row (seq : Z) (type : string) : Event.EventRecord :=
  Event.set_Seq seq (demo_event type).

(** Writer 2 overtakes writer 1 between the allocation and the insert. *)
Definition overtaking : list SSE.label :=
  [SSE.LBegin 1 10 (demo_event "first"); SSE.LBegin 2 20 (demo_event "second");
   SSE.LInsert 2; SSE.LPrune 2; SSE.LNotify 2; SSE.LPoll;
   SSE.LInsert 1; SSE.LPrune 1; SSE.LNotify 1].

(** Overlapping publications can lose an event for a connected client:
    the sequence number is allocated under the module's lock but the insert
    happens after it, so a later number can be stored, delivered and become
    the client's cursor before the earlier one is stored.  The earlier event
    is then in the log, is beyond the cursor the client started from, and is
    never delivered on that connection, whatever happens next. *)
Theorem overlapping_appends_lose_event :
  exists s st lost,
    SSE.run (stream_start 0 0) overtaking = Some s /\
    Events.store (SSE.events_module s) = Some st /\
    lost ∈ MemoryEvents.events st /\ SSE.event_valid lost = true /\ 0 < Event.Seq lost /\
    forall ls s', SSE.run s ls = Some s' -> lost ∉ SSE.delivered (SSE.stream s').
Proof.
  destruct (SSE.run (stream_start 0 0) overtaking) as [s|] eqn:Hrun; [|by vm_compute in Hrun].
  assert (Hs : Events.store (SSE.events_module s) = Some (MemoryEvents.mk
      [demo_row 20 "second"; demo_row 10 "first"] {[10; 20]} ∅) /\
    SSE.afterSeq (SSE.stream s) = 20 /\
    SSE.delivered (SSE.stream s) = [demo_row 20 "second"]).
  { vm_compute in Hrun. injection Hrun as <-. split_and!; reflexivity. }
  destruct Hs as (Hst & Ha & Hd).
  eexists s, _, (demo_row 10 "first"). split_and!;
    [reflexivity|exact Hst|right; left|vm_compute; reflexivity|reflexivity|].
  intros ls s' Hls. eapply run_passed in Hls as [_ Hn]; [exact Hn|].
  split; [by rewrite Ha|]. rewrite Hd, list_elem_of_singleton. discriminate.
Qed.

(** A publication between [List] and [Waiter]. *)
Definition missed_wake : list SSE.label :=
  [SSE.LPoll; SSE.LBegin 1 10 (demo_event "news"); SSE.LInsert 1; SSE.LPrune 1;
   SSE.LNotify 1; SSE.LSubscribe].

(** The wake-up of a publication that falls between the empty [List] and
    the call of [Waiter] is lost: the client waits on the new channel with an
    undelivered event in the log, and no wake-up is pending for it; the next
    heartbeat makes it poll and deliver the event. *)
Theorem wake_up_can_wait_for_heartbeat :
  exists s s',
    SSE.run (stream_start 0 0) missed_wake = Some s /\
    SSE.at_ (SSE.stream s) = SSE.Waiting (Events.eventWake (SSE.events_module s)) /\
    SSE.step s SSE.LWake = None /\ SSE.delivered (SSE.stream s) = [] /\
    SSE.run s [SSE.LHeartbeat; SSE.LPoll] = Some s' /\
    SSE.delivered (SSE.stream s') = [demo_row 10 "news"].
Proof.
  eexists _, _. split_and!; vm_compute; reflexivity.
Qed.

(** ** Witnesses *)

Definition demo_config : Events.Config :=
  {| Events.RetentionMaxRows := 1; Events.RetentionPruneOnWrite := true |}.

Definition demo_store : MemoryEvents.store :=
  (MemoryEvents.InsertEvent MemoryEvents.empty (demo_row 5 "old")).1.

Definition demo_module : Events.Module MemoryEvents.store :=
  Events.New (Some demo_store) demo_config.

Lemma demo_store_valid : valid demo_store.
Proof. exact (proj1 (insert_law MemoryEvents.empty (demo_row 5 "old") empty_indexed)). Qed.

Lemma Append_contract_witness :
  let r := Events.Append 7 demo_module (demo_event "new") in
  exists s', Events.store r.1 = Some s' /\ valid s' /\
    append_outcome 7 demo_module r.1 demo_store s' (demo_event "new") r.2.
Proof.
  refine (Append_contract 7 demo_module (demo_event "new") demo_store _ _);
    [reflexivity|exact demo_store_valid].
Defined.

Lemma CursorStatus_expired_witness :
  true = true <->
  0 < 3 /\ rows demo_store <> [] /\ forall e, e ∈ rows demo_store -> 3 < Event.Seq e.
Proof.
  refine (CursorStatus_expired_iff demo_module demo_store 3
    {| Events.Expired := true; Events.Since := 3;
       Events.StatusBounds := {| Bounds.MinSeq := 5; Bounds.MaxSeq := 5; Bounds.Count := 1 |} |}
    _ _ _); [reflexivity|exact demo_store_valid|vm_compute; reflexivity].
Defined.

Lemma allocated_sequences_witness :
  exists s, SSE.run (stream_start 0 0) overtaking = Some s /\
    StronglySorted Z.gt (SSE.allocated s) /\
    Forall (fun q => 0 < q <= Events.nextSeq (SSE.events_module s)) (SSE.allocated s).
Proof.
  eexists. split; [vm_compute; reflexivity|].
  refine (allocated_sequences_increase overtaking (SSE.events_module (stream_start 0 0)) ∅
    (SSE.stream (stream_start 0 0)) _ _ _ _);
    [vm_compute; discriminate|vm_compute; reflexivity|vm_compute; repeat split].
Defined.

Lemma stream_exactly_once_witness :
  exists s, seq_run (stream_start 0 0)
      [APublish 3 (demo_event "a"); AConsume SSE.LPoll; APublish 4 (demo_event "b")] = Some s /\
    exists st, Events.store (SSE.events_module s) = Some st /\
      ascending (MemoryEvents.events st) /\
      SSE.delivered (SSE.stream s) ++
        later (SSE.afterSeq (SSE.stream s)) (MemoryEvents.events st) =
      later 0 (MemoryEvents.events st).
Proof.
  eexists. split; [vm_compute; reflexivity|].
  refine (stream_exactly_once 0 0
    [APublish 3 (demo_event "a"); AConsume SSE.LPoll; APublish 4 (demo_event "b")] _ _).
  vm_compute; reflexivity.
Defined.
