(* ===== verification/Operations.v ===== *)
(** * Recoverable operations

    Durable operation records with revisions and leases
    ([p2p/internal/operations], [p2p/storage/memory_operations.go]), and how
    the service derives the identity of an operation
    ([p2p/service_operation_recovery.go]).  [Module Protocol] is the system of
    claimants, trackers and the store, one store call or tracker call per
    step. *)

From Stdlib Require Import Ascii String ZArith Lia.
From stdpp Require Import base tactics list gmap strings.
From S2P Require Import Prelude GoStrings Values GoSha256 Domain GoTime Policy.
Local Open Scope Z_scope.

(** The record [operations.Record]. *)
Module Op.
Record Record_ := mk {
  OperationID : string;
  Action : string;
  Status : string;
  Phase : string;
  RoomID : string;
  CurrentRoomID : string;
  UserID : string;
  PeerMXID : string;
  RequestID : string;
  BaseRequestID : string;
  ResultJSON : string;
  ErrorCode : string;
  Revision : Z;
  LeaseOwner : string;
  LeaseUntil : Z;
  CreatedAt : Z;
  UpdatedAt : Z;
}.
Definition set_Status (v : string) (r : Record_) : Record_ :=
  {| OperationID := OperationID r; Action := Action r; Status := v;
     Phase := Phase r; RoomID := RoomID r; CurrentRoomID := CurrentRoomID r;
     UserID := UserID r; PeerMXID := PeerMXID r; RequestID := RequestID r;
     BaseRequestID := BaseRequestID r; ResultJSON := ResultJSON r;
     ErrorCode := ErrorCode r; Revision := Revision r; LeaseOwner := LeaseOwner r;
     LeaseUntil := LeaseUntil r; CreatedAt := CreatedAt r;
     UpdatedAt := UpdatedAt r |}.
Definition set_Phase (v : string) (r : Record_) : Record_ :=
  {| OperationID := OperationID r; Action := Action r; Status := Status r;
     Phase := v; RoomID := RoomID r; CurrentRoomID := CurrentRoomID r;
     UserID := UserID r; PeerMXID := PeerMXID r; RequestID := RequestID r;
     BaseRequestID := BaseRequestID r; ResultJSON := ResultJSON r;
     ErrorCode := ErrorCode r; Revision := Revision r; LeaseOwner := LeaseOwner r;
     LeaseUntil := LeaseUntil r; CreatedAt := CreatedAt r;
     UpdatedAt := UpdatedAt r |}.
Definition set_CurrentRoomID (v : string) (r : Record_) : Record_ :=
  {| OperationID := OperationID r; Action := Action r; Status := Status r;
     Phase := Phase r; RoomID := RoomID r; CurrentRoomID := v; UserID := UserID r;
     PeerMXID := PeerMXID r; RequestID := RequestID r;
     BaseRequestID := BaseRequestID r; ResultJSON := ResultJSON r;
     ErrorCode := ErrorCode r; Revision := Revision r; LeaseOwner := LeaseOwner r;
     LeaseUntil := LeaseUntil r; CreatedAt := CreatedAt r;
     UpdatedAt := UpdatedAt r |}.
Definition set_ResultJSON (v : string) (r : Record_) : Record_ :=
  {| OperationID := OperationID r; Action := Action r; Status := Status r;
     Phase := Phase r; RoomID := RoomID r; CurrentRoomID := CurrentRoomID r;
     UserID := UserID r; PeerMXID := PeerMXID r; RequestID := RequestID r;
     BaseRequestID := BaseRequestID r; ResultJSON := v; ErrorCode := ErrorCode r;
     Revision := Revision r; LeaseOwner := LeaseOwner r;
     LeaseUntil := LeaseUntil r; CreatedAt := CreatedAt r;
     UpdatedAt := UpdatedAt r |}.
Definition set_ErrorCode (v : string) (r : Record_) : Record_ :=
  {| OperationID := OperationID r; Action := Action r; Status := Status r;
     Phase := Phase r; RoomID := RoomID r; CurrentRoomID := CurrentRoomID r;
     UserID := UserID r; PeerMXID := PeerMXID r; RequestID := RequestID r;
     BaseRequestID := BaseRequestID r; ResultJSON := ResultJSON r; ErrorCode := v;
     Revision := Revision r; LeaseOwner := LeaseOwner r;
     LeaseUntil := LeaseUntil r; CreatedAt := CreatedAt r;
     UpdatedAt := UpdatedAt r |}.
Definition set_Revision (v : Z) (r : Record_) : Record_ :=
  {| OperationID := OperationID r; Action := Action r; Status := Status r;
     Phase := Phase r; RoomID := RoomID r; CurrentRoomID := CurrentRoomID r;
     UserID := UserID r; PeerMXID := PeerMXID r; RequestID := RequestID r;
     BaseRequestID := BaseRequestID r; ResultJSON := ResultJSON r;
     ErrorCode := ErrorCode r; Revision := v; LeaseOwner := LeaseOwner r;
     LeaseUntil := LeaseUntil r; CreatedAt := CreatedAt r;
     UpdatedAt := UpdatedAt r |}.
Definition set_LeaseOwner (v : string) (r : Record_) : Record_ :=
  {| OperationID := OperationID r; Action := Action r; Status := Status r;
     Phase := Phase r; RoomID := RoomID r; CurrentRoomID := CurrentRoomID r;
     UserID := UserID r; PeerMXID := PeerMXID r; RequestID := RequestID r;
     BaseRequestID := BaseRequestID r; ResultJSON := ResultJSON r;
     ErrorCode := ErrorCode r; Revision := Revision r; LeaseOwner := v;
     LeaseUntil := LeaseUntil r; CreatedAt := CreatedAt r;
     UpdatedAt := UpdatedAt r |}.
Definition set_LeaseUntil (v : Z) (r : Record_) : Record_ :=
  {| OperationID := OperationID r; Action := Action r; Status := Status r;
     Phase := Phase r; RoomID := RoomID r; CurrentRoomID := CurrentRoomID r;
     UserID := UserID r; PeerMXID := PeerMXID r; RequestID := RequestID r;
     BaseRequestID := BaseRequestID r; ResultJSON := ResultJSON r;
     ErrorCode := ErrorCode r; Revision := Revision r; LeaseOwner := LeaseOwner r;
     LeaseUntil := v; CreatedAt := CreatedAt r; UpdatedAt := UpdatedAt r |}.
Definition set_UpdatedAt (v : Z) (r : Record_) : Record_ :=
  {| OperationID := OperationID r; Action := Action r; Status := Status r;
     Phase := Phase r; RoomID := RoomID r; CurrentRoomID := CurrentRoomID r;
     UserID := UserID r; PeerMXID := PeerMXID r; RequestID := RequestID r;
     BaseRequestID := BaseRequestID r; ResultJSON := ResultJSON r;
     ErrorCode := ErrorCode r; Revision := Revision r; LeaseOwner := LeaseOwner r;
     LeaseUntil := LeaseUntil r; CreatedAt := CreatedAt r; UpdatedAt := v |}.
#[global] Instance Record__eq_dec : EqDecision Record_.
Proof. solve_decision. Defined.
End Op.

(** The interface [operations.Store], for the calls the tracker and the
    service make.  Clock readings are arguments. *)
Class OperationStore (S : Type) := {
  LookupOperation : S -> string -> result goerror (option Op.Record_);
  ClaimOperation : Z -> S -> Op.Record_ -> string -> Z -> S * result goerror (Op.Record_ * bool);
  CompareAndSwapOperation :
    Z -> Z -> S -> Op.Record_ -> Z -> string -> Z -> S * result goerror (option Op.Record_);
}.

Module MemoryOperations.
Abbreviation store := (gmap string Op.Record_).

Definition LookupOperation (s : store) (operationID : string)
    : result goerror (option Op.Record_) := Ok (s !! operationID).

Definition UpsertOperation (s : store) (record : Op.Record_) : store :=
  <[Op.OperationID record := record]> s.

Definition lease (owner : string) (now duration : Z) : string * Z :=
  if negb (str_empty owner) && (0 <? duration)
  then (owner, wrap64 (now + duration)) else ("", 0).

Definition with_lease (r : Op.Record_) (l : string * Z) : Op.Record_ :=
  Op.set_LeaseUntil l.2 (Op.set_LeaseOwner l.1 r).

(** The incoming record names another request. *)
Definition identity_mismatch (current record : Op.Record_) : bool :=
  let differs f := negb (str_empty (f record)) && negb (str_eqb (f current) (f record)) in
  negb (str_eqb (Op.Action current) (Op.Action record)) ||
  differs Op.RoomID || differs Op.UserID || differs Op.PeerMXID || differs Op.RequestID.

Definition ClaimOperation (now : Z) (s : store) (record : Op.Record_) (owner : string)
    (leaseDurationMillis : Z) : store * result goerror (Op.Record_ * bool) :=
  let l := lease owner now leaseDurationMillis in
  match s !! Op.OperationID record with
  | None =>
      let record := with_lease (Op.set_Revision 1 record) l in
      (<[Op.OperationID record := record]> s, Ok (record, true))
  | Some current =>
      if identity_mismatch current record then (s, Ok (current, false))
      else if negb (str_empty (Op.LeaseOwner current)) &&
              negb (str_eqb (Op.LeaseOwner current) owner) &&
              (now <? Op.LeaseUntil current)
      then (s, Ok (current, false))
      else
        let current :=
          with_lease (Op.set_Revision (wrap64 (Op.Revision current + 1)) current) l in
        (<[Op.OperationID current := current]> s, Ok (current, true))
  end.

(** [now] and [now'] are the two readings of the clock; [None] is the zero
    record with [false]. *)
Definition CompareAndSwapOperation (now now' : Z) (s : store) (record : Op.Record_)
    (expectedRevision : Z) (owner : string) (leaseDurationMillis : Z)
    : store * result goerror (option Op.Record_) :=
  match s !! Op.OperationID record with
  | None => (s, Ok None)
  | Some current =>
      if negb (Op.Revision current =? expectedRevision) ||
         negb (str_eqb (Op.LeaseOwner current) owner) ||
         (Op.LeaseUntil current <=? now)
      then (s, Ok None)
      else
        let record := Op.set_Revision (wrap64 (Op.Revision current + 1)) record in
        let record := with_lease record (lease (Op.LeaseOwner record) now' leaseDurationMillis) in
        (<[Op.OperationID record := record]> s, Ok (Some record))
  end.

#[global] Instance memory_operation_store : OperationStore store := {
  LookupOperation := LookupOperation;
  ClaimOperation := ClaimOperation;
  CompareAndSwapOperation := CompareAndSwapOperation;
}.
End MemoryOperations.

Module Tracker.
Record Tracker_ := mk {
  owner : string;
  record : Op.Record_;
  leaseDurationMillis : Z;
}.

Definition NewTracker (owner : string) (record : Op.Record_) (leaseDurationMillis : Z)
    : Tracker_ :=
  {| owner := owner; record := record; leaseDurationMillis := leaseDurationMillis |}.

Definition Snapshot (t : Tracker_) : Op.Record_ := record t.

Definition with_record (t : Tracker_) (r : Op.Record_) : Tracker_ :=
  {| owner := owner t; record := r; leaseDurationMillis := leaseDurationMillis t |}.

Definition lost := ErrOther "recoverable operation lease or revision was lost".
Definition lost_releasing :=
  ErrOther "recoverable operation lease or revision was lost while releasing".

Section Tracker_ops.
Context {S : Type} `{OperationStore S}.

(** The record an update asks the store to write; [now] is its timestamp. *)
Definition updated (now : Z) (r : Op.Record_)
    (status phase currentRoomID errorCode resultJSON : string) : Op.Record_ :=
  let r := if str_empty status then r else Op.set_Status status r in
  let r := if str_empty phase then r else Op.set_Phase phase r in
  let r := if str_empty currentRoomID then r else Op.set_CurrentRoomID currentRoomID r in
  Op.set_UpdatedAt now (Op.set_ResultJSON resultJSON (Op.set_ErrorCode errorCode r)).

Definition settle (t : Tracker_) (r : S * result goerror (option Op.Record_))
    (e : goerror) : S * Tracker_ * result goerror unit :=
  match r with
  | (s, Err err) => (s, t, Err err)
  | (s, Ok None) => (s, t, Err e)
  | (s, Ok (Some updated)) => (s, with_record t updated, Ok ())
  end.

Definition Update (now now' : Z) (s : S) (t : Tracker_)
    (status phase currentRoomID errorCode resultJSON : string)
    : S * Tracker_ * result goerror unit :=
  let r := updated now (record t) status phase currentRoomID errorCode resultJSON in
  settle t (CompareAndSwapOperation now now' s r (Op.Revision (record t)) (owner t)
              (leaseDurationMillis t)) lost.

Definition Heartbeat (now now' : Z) (s : S) (t : Tracker_)
    : S * Tracker_ * result goerror unit :=
  let current := Snapshot t in
  Update now now' s t (Op.Status current) (Op.Phase current) (Op.CurrentRoomID current)
    (Op.ErrorCode current) (Op.ResultJSON current).

Definition Release (now now' : Z) (s : S) (t : Tracker_)
    : S * Tracker_ * result goerror unit :=
  if str_empty (Op.LeaseOwner (record t)) then (s, t, Ok ())
  else
    let r := Op.set_UpdatedAt now
               (Op.set_LeaseUntil 0 (Op.set_LeaseOwner "" (record t))) in
    settle t (CompareAndSwapOperation now now' s r (Op.Revision (record t)) (owner t) 0)
      lost_releasing.
End Tracker_ops.
End Tracker.

(** ** Claimants over the memory store

    Every process may claim an operation at any time under an owner token of
    its own; a successful claim gives it a tracker.  Time only moves forward. *)
Module Protocol.
Record sys := mkSys {
  clock : Z;
  operations : MemoryOperations.store;
  trackers : gmap nat Tracker.Tracker_;
}.

Definition initial (now : Z) : sys :=
  {| clock := now; operations := ∅; trackers := ∅ |}.

Inductive label :=
| Tick (delta : Z)
| Claim (tid : nat) (record : Op.Record_) (owner : string) (duration : Z)
| Update (tid : nat) (status phase currentRoomID errorCode resultJSON : string)
| Heartbeat (tid : nat)
| Release (tid : nat)
| Crash (tid : nat).

Definition tracker_step (s : sys) (tid : nat)
    (r : MemoryOperations.store * Tracker.Tracker_ * result goerror unit) : sys :=
  {| clock := clock s; operations := r.1.1; trackers := <[tid := r.1.2]> (trackers s) |}.

Definition step (s : sys) (l : label) : option sys :=
  let now := clock s in
  match l with
  | Tick delta =>
      if delta <? 0 then None
      else Some {| clock := now + delta; operations := operations s; trackers := trackers s |}
  | Claim tid record owner duration =>
      match trackers s !! tid with
      | Some _ => None
      | None =>
          match MemoryOperations.ClaimOperation now (operations s) record owner duration with
          | (ops, Ok (claimed, true)) =>
              Some {| clock := now; operations := ops;
                      trackers := <[tid := Tracker.NewTracker owner claimed duration]>
                                    (trackers s) |}
          | (ops, _) => Some {| clock := now; operations := ops; trackers := trackers s |}
          end
      end
  | Update tid status phase room code json =>
      match trackers s !! tid with
      | None => None
      | Some t => Some (tracker_step s tid
          (Tracker.Update now now (operations s) t status phase room code json))
      end
  | Heartbeat tid =>
      match trackers s !! tid with
      | None => None
      | Some t => Some (tracker_step s tid (Tracker.Heartbeat now now (operations s) t))
      end
  | Release tid =>
      match trackers s !! tid with
      | None => None
      | Some t => Some (tracker_step s tid (Tracker.Release now now (operations s) t))
      end
  | Crash tid =>
      Some {| clock := now; operations := operations s;
              trackers := delete tid (trackers s) |}
  end.

(** States reached in a number of steps. *)
Inductive reachable (start : Z) : nat -> sys -> Prop :=
| reach_initial : reachable start 0 (initial start)
| reach_step n s l s' :
    reachable start n s -> step s l = Some s' -> reachable start (S n) s'.
End Protocol.
