(* ===== verification/OperationsFacts.v ===== *)
(** * Correctness of recoverable operations

    Revisions fence stale trackers, a live lease excludes other owners, and
    an expired or released operation can always be taken up again. *)

From Stdlib Require Import Ascii String ZArith Lia.
From stdpp Require Import base tactics list gmap strings.
From S2P Require Import Prelude GoStrings Values Domain GoTime Policy PolicyFacts Operations.
Local Open Scope Z_scope.

Import MemoryOperations Protocol.

(** ** One store call *)

Section Store.
Implicit Types (s : MemoryOperations.store) (r c : Op.Record_).

(** The request of [r] may take over the stored operation [c] at [now]. *)
Definition claimable (now : Z) (c r : Op.Record_) (owner : string) : Prop :=
  identity_mismatch c r = false /\
  (Op.LeaseOwner c = "" \/ Op.LeaseOwner c = owner \/ Op.LeaseUntil c <= now).

Definition renewed (now : Z) c (owner : string) (duration : Z) : Op.Record_ :=
  with_lease (Op.set_Revision (wrap64 (Op.Revision c + 1)) c) (lease owner now duration).

Lemma ClaimOperation_new now s r owner d :
  s !! Op.OperationID r = None ->
  let r' := with_lease (Op.set_Revision 1 r) (lease owner now d) in
  ClaimOperation now s r owner d = (<[Op.OperationID r := r']> s, Ok (r', true)).
Proof. unfold ClaimOperation, MemoryOperations.ClaimOperation. cbn. by intros ->. Qed.

Lemma ClaimOperation_taken now s r c owner d :
  s !! Op.OperationID r = Some c ->
  (claimable now c r owner /\
   ClaimOperation now s r owner d =
     (<[Op.OperationID c := renewed now c owner d]> s, Ok (renewed now c owner d, true))) \/
  (~ claimable now c r owner /\ ClaimOperation now s r owner d = (s, Ok (c, false))).
Proof.
  unfold ClaimOperation; cbn; unfold MemoryOperations.ClaimOperation, claimable. intros ->.
  destruct (identity_mismatch c r); [by right; split; [naive_solver|]|].
  destruct (str_empty (Op.LeaseOwner c)) eqn:E1, (str_eqb (Op.LeaseOwner c) owner) eqn:E2,
    (now <? Op.LeaseUntil c) eqn:E3; cbn; str_bool; go_bool;
    first [left; split; [split; [done|]; first [by left|by right; left|right; right; lia]|done]
          |right; split; [|done]; intros [_ [?|[?|?]]]; [done|done|lia]].
Qed.

(** A compare-and-swap goes through. *)
Definition swappable (now : Z) c (rev : Z) (owner : string) : Prop :=
  Op.Revision c = rev /\ Op.LeaseOwner c = owner /\ now < Op.LeaseUntil c.

Definition swapped (now' : Z) c r (d : Z) : Op.Record_ :=
  with_lease (Op.set_Revision (wrap64 (Op.Revision c + 1)) r)
    (lease (Op.LeaseOwner r) now' d).

Lemma CompareAndSwap_cases now now' s r rev owner d :
  (exists c, s !! Op.OperationID r = Some c /\ swappable now c rev owner /\
     CompareAndSwapOperation now now' s r rev owner d =
       (<[Op.OperationID r := swapped now' c r d]> s, Ok (Some (swapped now' c r d)))) \/
  ((forall c, s !! Op.OperationID r = Some c -> ~ swappable now c rev owner) /\
   CompareAndSwapOperation now now' s r rev owner d = (s, Ok None)).
Proof.
  unfold CompareAndSwapOperation; cbn; unfold MemoryOperations.CompareAndSwapOperation, swappable.
  destruct (s !! Op.OperationID r) as [c|]; [|right; split; [done|done]].
  destruct (Op.Revision c =? rev) eqn:E1, (str_eqb (Op.LeaseOwner c) owner) eqn:E2,
    (Op.LeaseUntil c <=? now) eqn:E3; cbn; str_bool; go_bool;
    first [left; exists c; split; [done|]; split; [split_and!; done|done]
          |right; split; [|done]; intros c' [= <-] (? & ? & ?); (done || lia)].
Qed.
End Store.

(** ** The system of claimants *)

(** After [n] steps: records are filed under their id with a revision between
    1 and [n], and every tracker either knows exactly the stored record or has
    an older revision. *)
Definition inv (n : nat) (s : sys) : Prop :=
  (forall id r, operations s !! id = Some r ->
     Op.OperationID r = id /\ 1 <= Op.Revision r <= Z.of_nat n) /\
  (forall tid t, trackers s !! tid = Some t ->
     exists c, operations s !! Op.OperationID (Tracker.record t) = Some c /\
       (c = Tracker.record t \/ Op.Revision (Tracker.record t) < Op.Revision c)).

(** The store changes one record, to a revision the trackers have not seen. *)
Lemma inv_store n s id r clk :
  inv n s -> Op.OperationID r = id -> 1 <= Op.Revision r <= Z.of_nat (S n) ->
  (forall c, operations s !! id = Some c -> Op.Revision c < Op.Revision r) ->
  inv (S n) {| clock := clk; operations := <[id := r]> (operations s); trackers := trackers s |}.
Proof.
  intros [Ha Hb] Hid Hrev Hnew. split; cbn [operations trackers].
  - intros id' r'. rewrite lookup_insert_Some. intros [[<- <-]|[_ Hr]]; [done|].
    apply Ha in Hr as [? ?]. split; [done|lia].
  - intros tid t Ht. destruct (Hb tid t Ht) as (c & Hc & Hcase).
    destruct (decide (id = Op.OperationID (Tracker.record t))) as [E|Hne].
    + exists r. rewrite E, lookup_insert_eq. split; [done|]. right. rewrite <- E in Hc.
      apply Hnew in Hc. destruct Hcase as [->|]; lia.
    + exists c. by rewrite lookup_insert_ne.
Qed.

Lemma inv_mono n s s' :
  inv n s -> operations s' = operations s ->
  (forall tid t, trackers s' !! tid = Some t -> trackers s !! tid = Some t) -> inv (S n) s'.
Proof.
  intros [Ha Hb] Ho Ht. split; rewrite Ho.
  - intros id r Hr. apply Ha in Hr as [? ?]. split; [done|lia].
  - intros tid t Htt. eauto.
Qed.

(** A tracker that knows the stored record may be added. *)
Lemma inv_tracker n s tid t :
  inv n s -> operations s !! Op.OperationID (Tracker.record t) = Some (Tracker.record t) ->
  inv n {| clock := clock s; operations := operations s;
           trackers := <[tid := t]> (trackers s) |}.
Proof.
  intros [Ha Hb] Hr. split; [done|]. cbn. intros tid' t'. rewrite lookup_insert_Some.
  intros [[<- <-]|[_ Ht]]; eauto.
Qed.

Lemma next_revision n r :
  1 <= r <= Z.of_nat n -> Z.of_nat n < int64_max -> wrap64 (r + 1) = r + 1.
Proof. intros. apply wrap64_id. unfold in_int64, int64_min, int64_max in *. lia. Qed.

Lemma inv_swap n s tid t r now' d owner :
  inv n s -> Z.of_nat n < int64_max -> trackers s !! tid = Some t ->
  Op.OperationID r = Op.OperationID (Tracker.record t) ->
  inv (S n) (tracker_step s tid
    (Tracker.settle t (CompareAndSwapOperation (clock s) now' (operations s) r
       (Op.Revision (Tracker.record t)) owner d) Tracker.lost)).
Proof.
  intros Hinv Hn Ht Hid.
  destruct (CompareAndSwap_cases (clock s) now' (operations s) r
    (Op.Revision (Tracker.record t)) owner d) as [(c & Hc & Hsw & ->)|[_ ->]];
    cbn [Tracker.settle]; unfold tracker_step; cbn [fst snd].
  - pose proof Hinv as [Ha _]. destruct (Ha _ _ Hc) as [Hcid Hrev].
    assert (Hw := next_revision _ _ Hrev Hn).
    apply (inv_tracker _ {| clock := clock s; operations := _; trackers := trackers s |}).
    + apply inv_store; [done..| |]; cbn; rewrite Hw; [lia|].
      intros c' Hc'. rewrite Hc in Hc'. simplify_eq. lia.
    + exact (lookup_insert_eq _ _ _).
  - eapply inv_mono; [done|done|]. cbn. intros tid' t'. rewrite lookup_insert_Some.
    naive_solver.
Qed.

(** The error text of a lost lease does not matter to the state. *)
Lemma settle_state s tid t r e1 e2 :
  tracker_step s tid (Tracker.settle t r e1) = tracker_step s tid (Tracker.settle t r e2).
Proof. by destruct r as [? [[]|]]. Qed.

Lemma inv_claim n s tid r owner d s' :
  inv n s -> Z.of_nat n < int64_max ->
  step s (Claim tid r owner d) = Some s' -> inv (S n) s'.
Proof.
  intros Hinv Hn. cbn [step]. destruct (trackers s !! tid) eqn:Ht; [done|].
  destruct (operations s !! Op.OperationID r) as [c|] eqn:Hc.
  - destruct (ClaimOperation_taken (clock s) _ r c owner d Hc) as [[_ ->]|[_ ->]];
      intros [= <-].
    + pose proof Hinv as [Ha _]. destruct (Ha _ _ Hc) as [Hid Hrev].
      assert (Hw := next_revision _ _ Hrev Hn).
      apply (inv_tracker _ {| clock := clock s; operations := _; trackers := trackers s |}).
      * apply inv_store; [done..| |]; cbn; rewrite Hw; [lia|].
        intros c' Hc'. rewrite Hid, Hc in Hc'. simplify_eq. lia.
      * exact (lookup_insert_eq _ _ _).
    + eapply inv_mono; [done..|]. done.
  - rewrite ClaimOperation_new by done. intros [= <-].
    apply (inv_tracker _ {| clock := clock s; operations := _; trackers := trackers s |}).
    + apply inv_store; [done..| |]; cbn; [lia|]. intros c'. by rewrite Hc.
    + exact (lookup_insert_eq _ _ _).
Qed.

Lemma step_inv n s l s' :
  inv n s -> Z.of_nat n < int64_max -> step s l = Some s' -> inv (S n) s'.
Proof.
  intros Hinv Hn. destruct l; [| by apply inv_claim | | | |]; cbn [step].
  - destruct (_ <? _); [done|]. intros [= <-]. by eapply inv_mono.
  - destruct (trackers s !! tid) as [t|] eqn:Ht; [|done]. intros [= <-].
    apply inv_swap; [done..|]. unfold Tracker.updated.
    by destruct (str_empty status), (str_empty phase), (str_empty currentRoomID).
  - destruct (trackers s !! tid) as [t|] eqn:Ht; [|done]. intros [= <-].
    apply inv_swap; [done..|]. unfold Tracker.updated.
    by destruct (str_empty (Op.Status _)), (str_empty (Op.Phase _)),
      (str_empty (Op.CurrentRoomID _)).
  - destruct (trackers s !! tid) as [t|] eqn:Ht; [|done]. intros [= <-].
    unfold Tracker.Release. destruct (str_empty _).
    + eapply inv_mono; [done|done|]. cbn. intros tid' t'. rewrite lookup_insert_Some. naive_solver.
    + rewrite (settle_state _ _ _ _ _ Tracker.lost). by apply inv_swap.
  - intros [= <-]. eapply inv_mono; [done|done|]. cbn. intros tid' t'.
    rewrite lookup_delete_Some. naive_solver.
Qed.

Lemma reachable_inv start n s : reachable start n s -> Z.of_nat n <= int64_max -> inv n s.
Proof.
  induction 1 as [|n s l s' Hr IH Hs]; intros Hn.
  - split; intros ??; cbn; by rewrite lookup_empty.
  - eapply step_inv; [apply IH; lia|lia|done].
Qed.

(** ** Claims *)

(** The tracker holds the lease of its operation. *)
Definition holds (s : sys) (t : Tracker.Tracker_) : Prop :=
  operations s !! Op.OperationID (Tracker.record t) = Some (Tracker.record t) /\
  Op.LeaseOwner (Tracker.record t) = Tracker.owner t /\
  clock s < Op.LeaseUntil (Tracker.record t).

Lemma updated_id now r status phase room code json :
  Op.OperationID (Tracker.updated now r status phase room code json) = Op.OperationID r.
Proof.
  unfold Tracker.updated. by destruct (str_empty status), (str_empty phase), (str_empty room).
Qed.

(** Of a known revision, the tracker knows the whole record. *)
Lemma same_revision n s tid t c :
  inv n s -> trackers s !! tid = Some t ->
  operations s !! Op.OperationID (Tracker.record t) = Some c ->
  Op.Revision c = Op.Revision (Tracker.record t) -> c = Tracker.record t.
Proof.
  intros [_ Hb] Ht Hc Hrev. destruct (Hb _ _ Ht) as (c' & Hc' & [->|Hlt]); simplify_eq; [done|lia].
Qed.

(** Updates are never lost: in every reachable state an update by a
    tracker succeeds exactly when the stored record is, field for field, the
    one the tracker last saw and its own lease on it has not run out; the
    store then holds that record with the requested status, phase, room,
    error and result, the next revision and a renewed lease, which is also
    what the tracker remembers.  Otherwise neither the store nor the tracker
    changes.  (Revisions are counted for fewer than 2^63 - 1 steps.) *)
Theorem update_never_lost start n s tid t now' status phase room code json :
  reachable start n s -> Z.of_nat n < int64_max -> trackers s !! tid = Some t ->
  let '(ops, t', r) :=
    Tracker.Update (clock s) now' (operations s) t status phase room code json in
  (r = Ok () <-> holds s t) /\
  (r = Ok () ->
     Tracker.record t' =
       with_lease (Op.set_Revision (Op.Revision (Tracker.record t) + 1)
           (Tracker.updated (clock s) (Tracker.record t) status phase room code json))
         (lease (Tracker.owner t) now' (Tracker.leaseDurationMillis t)) /\
     Tracker.owner t' = Tracker.owner t /\
     ops = <[Op.OperationID (Tracker.record t) := Tracker.record t']> (operations s)) /\
  (r <> Ok () -> ops = operations s /\ t' = t).
Proof.
  intros Hreach Hn Ht. assert (Hinv : inv n s) by (eapply reachable_inv; [done|lia]).
  unfold Tracker.Update, holds. cbn [Operations.CompareAndSwapOperation memory_operation_store].
  set (u := Tracker.updated _ _ _ _ _ _ _).
  assert (Hid : Op.OperationID u = Op.OperationID (Tracker.record t)) by apply updated_id.
  assert (Hown : Op.LeaseOwner u = Op.LeaseOwner (Tracker.record t))
    by (unfold u, Tracker.updated;
        by destruct (str_empty status), (str_empty phase), (str_empty room)).
  destruct (CompareAndSwap_cases (clock s) now' (operations s) u
    (Op.Revision (Tracker.record t)) (Tracker.owner t) (Tracker.leaseDurationMillis t))
    as [(c & Hc & (Hrev & Ho & Hlt) & ->)|[Hno ->]]; cbn [Tracker.settle].
  - rewrite Hid in Hc. pose proof (same_revision _ _ _ _ _ Hinv Ht Hc Hrev) as ->.
    pose proof Hinv as [Ha _]. destruct (Ha _ _ Hc) as [_ Hr].
    split; [split; [done|done]|]. split; [|done]. intros _.
    unfold swapped. rewrite (next_revision _ _ Hr Hn), Hown, Ho.
    split; [reflexivity|]. split; [reflexivity|]. rewrite <- Hid. reflexivity.
  - split; [|by split]. split; [done|]. intros (Hc & Ho & Hlt). exfalso.
    rewrite Hid in Hno. by apply (Hno _ Hc).
Qed.

(** Who performs a step. *)
Definition actor (s : sys) (l : label) : option string :=
  match l with
  | Claim _ _ owner _ => Some owner
  | Update tid _ _ _ _ _ | Heartbeat tid | Release tid => Tracker.owner <$> trackers s !! tid
  | Tick _ | Crash _ => None
  end.

Lemma swap_other now now' (ops : MemoryOperations.store) r rev owner d id c :
  ops !! id = Some c -> Op.LeaseOwner c <> owner ->
  (CompareAndSwapOperation now now' ops r rev owner d).1 !! id = Some c.
Proof.
  intros Hc Hne. destruct (CompareAndSwap_cases now now' ops r rev owner d)
    as [(c' & Hc' & (_ & Ho & _) & ->)|[_ ->]]; cbn [fst]; [|done].
  destruct (decide (Op.OperationID r = id)) as [<-|Hid]; [naive_solver|].
  by rewrite lookup_insert_ne.
Qed.

Lemma settle_store t (r : MemoryOperations.store * result goerror (option Op.Record_)) e :
  (Tracker.settle t r e).1.1 = r.1.
Proof. by destruct r as [? [[]|]]. Qed.

(** A lease excludes everybody else: while a tracker holds the lease of
    its operation, no step of another owner, be it a claim, an update, a
    heartbeat or a release, changes the stored record, and neither do the
    passing of time or crashes; the tracker still holds its lease after the
    step unless the clock passed its end. *)
Theorem lease_is_exclusive start n s tid t l s' :
  reachable start n s -> Z.of_nat n < int64_max -> trackers s !! tid = Some t ->
  holds s t -> Tracker.owner t <> "" ->
  step s l = Some s' -> actor s l <> Some (Tracker.owner t) ->
  operations s' !! Op.OperationID (Tracker.record t) = Some (Tracker.record t) /\
  (clock s' < Op.LeaseUntil (Tracker.record t) -> holds s' t).
Proof.
  intros Hreach Hn Ht (Hc & Ho & Hlt) Hne Hstep Hact.
  assert (Hinv : inv n s) by (eapply reachable_inv; [done|lia]).
  enough (Hkeep : operations s' !! Op.OperationID (Tracker.record t) = Some (Tracker.record t))
    by (split; [done|]; by intros ?).
  destruct l as [delta|tid' r owner d|tid' st ph room code json|tid'|tid'|tid'];
    cbn [step actor] in *.
  - destruct (_ <? _); by simplify_eq/=.
  - destruct (trackers s !! tid'); [done|]. assert (Hown : Tracker.owner t <> owner) by congruence.
    destruct (operations s !! Op.OperationID r) as [c|] eqn:Hr.
    + destruct (ClaimOperation_taken (clock s) _ r c owner d Hr) as [[[_ Hcl] E]|[_ E]];
        rewrite E in Hstep; simplify_eq/=; [|done].
      destruct Hinv as [Ha _]. destruct (Ha _ _ Hr) as [Hid _].
      rewrite lookup_insert_ne; [done|]. intros Heq. rewrite Heq in Hid. rewrite <- Hid in Hr.
      rewrite Hc in Hr. simplify_eq. rewrite Ho in Hcl. destruct Hcl as [?|[?|?]]; [done|done|lia].
    + rewrite ClaimOperation_new in Hstep by done. simplify_eq/=.
      rewrite lookup_insert_ne; [done|]. intros Heq. congruence.
  - destruct (trackers s !! tid') as [t'|]; simplify_eq/=.
    unfold Tracker.Update. rewrite settle_store. apply swap_other; [done|congruence].
  - destruct (trackers s !! tid') as [t'|]; simplify_eq/=.
    unfold Tracker.Heartbeat, Tracker.Update. rewrite settle_store.
    apply swap_other; [done|congruence].
  - destruct (trackers s !! tid') as [t'|]; simplify_eq/=. unfold Tracker.Release.
    destruct (str_empty _); [done|]. rewrite settle_store. apply swap_other; [done|congruence].
  - by simplify_eq/=.
Qed.

(** Work is never stuck: an operation that does not exist yet, or whose
    lease was released or has run out, can be claimed by any owner for the
    same request; the new owner then holds the lease for the asked duration
    over a record that keeps the identity, status, phase, room and result of
    the stored one. *)
Theorem expired_operation_can_be_claimed s tid r owner d :
  trackers s !! tid = None -> owner <> "" -> 0 < d -> in_int64 (clock s + d) ->
  (forall c, operations s !! Op.OperationID r = Some c ->
     Op.OperationID c = Op.OperationID r /\ identity_mismatch c r = false /\
     (Op.LeaseOwner c = "" \/ Op.LeaseUntil c <= clock s)) ->
  exists s' t, step s (Claim tid r owner d) = Some s' /\ trackers s' !! tid = Some t /\
    holds s' t /\ Op.LeaseUntil (Tracker.record t) = clock s + d /\
    Tracker.record t =
      with_lease (Op.set_Revision (Op.Revision (Tracker.record t))
        (default r (operations s !! Op.OperationID r))) (owner, clock s + d).
Proof.
  intros Ht Hne Hd Hin Hold. cbn [step]. rewrite Ht.
  assert (Hl : lease owner (clock s) d = (owner, clock s + d)).
  { unfold lease. rewrite wrap64_id by done. destruct (str_empty owner) eqn:E; str_bool; [done|].
    rewrite (proj2 (Z.ltb_lt _ _)) by lia. done. }
  destruct (operations s !! Op.OperationID r) as [c|] eqn:Hr.
  - destruct (Hold c eq_refl) as (Hid & Hm & Hex).
    destruct (ClaimOperation_taken (clock s) _ r c owner d Hr) as [[_ ->]|[Hno _]];
      [|exfalso; apply Hno; split; [done|]; tauto].
    unfold renewed. rewrite Hl. eexists _, _. split; [done|]. cbn [trackers].
    split; [apply lookup_insert_eq|]. cbn. split; [|done].
    split; [apply (lookup_insert_eq (operations s))|]. cbn. split; [done|lia].
  - rewrite ClaimOperation_new by done. rewrite Hl. eexists _, _. split; [done|].
    cbn [trackers]. split; [apply lookup_insert_eq|]. cbn. split; [|done].
    split; [apply (lookup_insert_eq (operations s))|]. cbn. split; [done|lia].
Qed.

(** ** Witnesses *)

Definition demo_record : Op.Record_ :=
  {| Op.OperationID := "op_1"; Op.Action := "groups.join"; Op.Status := "running";
     Op.Phase := "prepared"; Op.RoomID := "!r:a"; Op.CurrentRoomID := ""; Op.UserID := "@u:a";
     Op.PeerMXID := ""; Op.RequestID := "q"; Op.BaseRequestID := ""; Op.ResultJSON := "";
     Op.ErrorCode := ""; Op.Revision := 0; Op.LeaseOwner := ""; Op.LeaseUntil := 0;
     Op.CreatedAt := 5; Op.UpdatedAt := 5 |}.

Definition demo_claimed : Op.Record_ :=
  with_lease (Op.set_Revision 1 demo_record) ("claim_a", 110).

Definition demo_tracker : Tracker.Tracker_ := Tracker.NewTracker "claim_a" demo_claimed 100.

Definition demo_sys : sys :=
  {| clock := 10; operations := {["op_1" := demo_claimed]}; trackers := {[1%nat := demo_tracker]} |}.

Lemma demo_reachable : reachable 10 1 demo_sys.
Proof.
  eapply (reach_step 10 0 _ (Claim 1 demo_record "claim_a" 100)); [constructor|reflexivity].
Qed.

Lemma update_never_lost_witness :
  let '(ops, t', r) :=
    Tracker.Update (clock demo_sys) 10 (operations demo_sys) demo_tracker "completed" "" "" "" "{}" in
  (r = Ok () <-> holds demo_sys demo_tracker).
Proof.
  assert (Hn : Z.of_nat 1 < int64_max) by reflexivity.
  assert (Ht : trackers demo_sys !! 1%nat = Some demo_tracker) by reflexivity.
  pose proof (update_never_lost 10 1 demo_sys 1 demo_tracker 10 "completed" "" "" "" "{}"
    demo_reachable Hn Ht) as H.
  destruct (Tracker.Update _ _ _ _ _ _ _ _ _) as [[ops t'] r]. exact (proj1 H).
Defined.

Lemma lease_is_exclusive_witness :
  operations demo_sys !! "op_1" = Some demo_claimed /\
  (clock demo_sys < 110 -> holds demo_sys demo_tracker).
Proof.
  refine (lease_is_exclusive 10 1 demo_sys 1 demo_tracker (Claim 2 demo_record "claim_b" 100)
    demo_sys demo_reachable _ _ _ _ _ _).
  - reflexivity.
  - reflexivity.
  - split; [reflexivity|]. split; reflexivity.
  - discriminate.
  - reflexivity.
  - discriminate.
Defined.

Lemma expired_operation_witness :
  exists s' t, step (initial 10) (Claim 1 demo_record "claim_a" 100) = Some s' /\
    trackers s' !! 1%nat = Some t /\ holds s' t /\ Op.LeaseUntil (Tracker.record t) = 110 /\
    Tracker.record t = with_lease (Op.set_Revision (Op.Revision (Tracker.record t)) demo_record)
      ("claim_a", 110).
Proof.
  refine (expired_operation_can_be_claimed (initial 10) 1 demo_record "claim_a" 100 _ _ _ _ _).
  - reflexivity.
  - discriminate.
  - reflexivity.
  - unfold in_int64, int64_min, int64_max. cbn. lia.
  - intros c Hc. discriminate Hc.
Defined.
