(* ===== verification/OperationIdentity.v ===== *)
(** * Identity of recoverable operations

    How the service names an operation and its business workflow, which
    requests share one, when a stored generation is stale, and the reference
    counted lock per operation ([p2p/service_operation_recovery.go]). *)

From Stdlib Require Import Ascii String ZArith Lia.
From stdpp Require Import base tactics list gmap strings.
From S2P Require Import Prelude GoStrings Values GoSha256 Domain GoTime Policy Action Operations.
Local Open Scope go_scope.

Module Identity.
(** ** Constants and classes of actions *)

Definition operationStatusRunning := "running".
Definition operationStatusReconciling := "reconciling".
Definition operationStatusCompleted := "completed".
Definition operationStatusFailed := "failed".
Definition operationPhasePrepared := "prepared".
Definition operationPhaseMatrixUnconfirmed := "matrix_unconfirmed".
Definition operationPhaseMatrixCommitted := "matrix_committed".
Definition operationPhaseCallbackAcknowledged := "callback_acknowledged".
Definition operationPhaseCompleted := "completed".

Definition RequestNotFoundCode := "request_not_found".
Definition RequestExpiredCode := "request_expired".
Definition MatrixJoinUnconfirmedCode := "matrix_join_unconfirmed".
Definition JoinResultUnconfirmedCode := "join_result_unconfirmed".
Definition MatrixJoinFailedCode := "matrix_join_failed".
Definition OperationIDInvalidCode := "operation_id_invalid".
Definition OperationRecoveryCode := "operation_recovery_failed".

Definition one_of (s : string) (l : list string) : bool := bool_decide (s ∈ l).

Definition recoverableProductAction (action : string) : bool :=
  one_of action
    ["contacts.request"; "contacts.requests.accept"; "contacts.requests.reject";
     "groups.join"; "groups.invite.reject"; "channels.join";
     "channels.join_request.approve"; "channels.join_request.reject";
     "channels.public.join_request"; "channels.public.join_result"].

Definition retainedRoomInviteAction (action : string) : bool :=
  str_eqb action "groups.invite" || str_eqb action "channels.invite".

Definition trimString : any -> string := Params.String.

(** [fallbackString] of package p2p trims the value it returns. *)
Definition fallbackString (value fallback : string) : string :=
  if negb (str_empty (trim_space value)) then trim_space value else fallback.

Definition explicitRetainedRoomRebuildAction (action : string) (params : content) : bool :=
  retainedRoomInviteAction action &&
  negb (str_empty (trimString (get params "rebuild_generation"))).

(** The closure [add] of [retainedRoomInviteMemberIDs]. *)
Definition add_user (st : gset string * list string) (userID : string)
    : gset string * list string :=
  let userID := trim_space userID in
  if str_empty userID then st
  else if bool_decide (userID ∈ st.1) then st
  else ({[userID]} ∪ st.1, st.2 ++ [userID]).

Definition retainedRoomInviteMemberIDs (raw : content) : list string :=
  let st := foldl (fun st key => add_user st (Params.get_string raw key)) (∅, [])
              ["user_id"; "user_mxid"; "peer_mxid"; "mxid"] in
  (foldl (fun st key => foldl add_user st (Params.get_strings raw key)) st
     ["user_ids"; "user_mxids"; "peer_mxids"; "invitees"; "invite"]).2.

(** ** Patterns *)

Definition code (a : ascii) : nat := nat_of_ascii a.
Definition between (lo hi : nat) (a : ascii) : bool :=
  Nat.leb lo (code a) && Nat.leb (code a) hi.
Definition alnum (a : ascii) : bool :=
  between 65 90 a || between 97 122 a || between 48 57 a.
Definition word_char (a : ascii) : bool :=
  alnum a || (between 46 46 a || between 95 95 a || between 58 58 a || between 45 45 a).

(** [^[A-Za-z0-9][A-Za-z0-9._:-]{0,127}$] *)
Definition operationIDPattern (s : string) : bool :=
  match list_ascii_of_string s with
  | [] => false
  | a :: l => alnum a && forallb word_char l && Nat.leb (length l) 127
  end.

(** [^[\x21-\x7e]{1,512}$] *)
Definition publicRequestIDPattern (s : string) : bool :=
  let l := list_ascii_of_string s in
  forallb (between 33 126) l && Nat.leb 1 (length l) && Nat.leb (length l) 512.

(** [^[A-Za-z0-9._:-]{1,128}$] *)
Definition rebuildGenerationPattern (s : string) : bool :=
  let l := list_ascii_of_string s in
  forallb word_char l && Nat.leb 1 (length l) && Nat.leb (length l) 128.

Definition ValidRebuildGeneration (value : string) : bool :=
  rebuildGenerationPattern (trim_space value).

(** [None] is the nil error. *)
Definition validateExplicitRetainedRoomRebuild (action : string) (params : content)
    : option Api.Error :=
  if negb (explicitRetainedRoomRebuildAction action params) then None
  else if negb (ValidRebuildGeneration (trimString (get params "rebuild_generation")))
  then Some (Api.BadRequest "rebuild_generation is invalid")
  else if negb (Nat.eqb (length (retainedRoomInviteMemberIDs params)) 1)
  then Some (Api.BadRequest "retained-room rebuild requires exactly one user")
  else None.

Definition memberWorkflowProductAction (action : string) : bool :=
  one_of action ["groups.join"; "groups.invite.reject"; "channels.join";
                 "channels.join_request.approve"; "channels.join_request.reject"].

Definition durableBusinessWorkflowAction (action : string) : bool :=
  memberWorkflowProductAction action ||
  one_of action ["contacts.request"; "contacts.requests.accept"; "contacts.requests.reject";
                 "channels.public.join_request"; "groups.invite"; "channels.invite"].

(** ** What the service looks up

    The stores and modules behind an identity: channels by id or room,
    contacts by room or peer ([None] when the contacts module is absent),
    members, and the owner. *)
Record Contacts := {
  LookupByRoom : string -> result goerror (option Contact.ContactRecord);
  LookupByPeer : string -> result goerror (option Contact.ContactRecord);
}.

Record Directory := {
  channelByIDOrRoom : string -> string -> result goerror (option Chan.Channel);
  contactsModule : option Contacts;
  memberStore : option (string -> string -> result goerror (option Member.MemberRecord));
  OwnerMXID : string;
}.

Definition lookupMember (d : Directory) (roomID userID : string)
    : result goerror (option Member.MemberRecord) :=
  if str_empty roomID || str_empty userID then Ok None
  else match memberStore d with
       | None => Ok None
       | Some lookup => lookup roomID userID
       end.

Definition memberTarget (d : Directory) (params : content) : result goerror (string * string) :=
  let roomID := trimString (get params "room_id") in
  let channelID := trimString (get params "channel_id") in
  let? roomID :=
    if str_empty roomID && negb (str_empty channelID) then
      let? ch := channelByIDOrRoom d channelID "" in
      Ok (match ch with Some ch => Chan.RoomID ch | None => roomID end)
    else Ok roomID in
  let? channelID :=
    if str_empty channelID && negb (str_empty roomID) then
      let? ch := channelByIDOrRoom d "" roomID in
      Ok (match ch with Some ch => Chan.ChannelID ch | None => channelID end)
    else Ok channelID in
  Ok (roomID, channelID).

Definition firstMemberID (params : content) : string :=
  let userID := Params.FirstString params ["user_id"; "user_mxid"; "peer_mxid"; "mxid"] in
  if negb (str_empty userID) then userID
  else Params.FirstListString params ["user_ids"; "user_mxids"; "peer_mxids"; "invitees"].

(** ** Derived identifiers *)

Definition nul : string := String "000" EmptyString.
Definition join_nul (parts : list string) : string := String.concat nul parts.
Definition digest16 (s : string) : string := hex (take 16 (sha256 s)).

Definition publicJoinRequestGeneration (roomID channelID userID currentRequestID : string)
    : string :=
  "request_" +:+ digest16 (join_nul
    ["channels.public.join_request"; roomID; channelID; userID; currentRequestID; "next"]).

Definition firstNonEmptyOperationPart (params : content) (keys : list string) : string :=
  default "" (first_match (fun v => negb (str_empty v))
                (map (fun k => trimString (get params k)) keys)).

Definition formatOperationGeneration (value : Z) : string :=
  format_rfc3339nano (of_unix_milli value).

Definition channelJoinGenerationMayRestart (membership : string) : bool :=
  one_of (to_lower (trim_space membership)) ["reject"; "rejected"; "leave"; "left"].

Definition internal {A} (r : result goerror A) : result Api.Error A :=
  match r with
  | Ok a => Ok a
  | Err e => Err (Api.InternalError (error_text e))
  end.

(** The operation id of the request, if it names one. *)
Definition providedOperation (params : content) : result Api.Error (option string) :=
  match params !! "operation_id" with
  | None => Ok None
  | Some raw =>
      let invalid := Err (Api.CodedError 400 OperationIDInvalidCode "operation_id is invalid") in
      match raw with
      | AString value =>
          let operationID := trim_space value in
          if operationIDPattern operationID then Ok (Some operationID) else invalid
      | _ => invalid
      end
  end.

(** What a contact contributes: base generation, request, peer and room. *)
Definition contactGeneration (d : Directory) (action explicitRequestID : string)
    (provided : bool) (requestID peerMXID roomID : string)
    : result goerror (string * string * string * string) :=
  match contactsModule d with
  | Some contacts =>
      if negb (has_prefix action "contacts.") then Ok ("", requestID, peerMXID, roomID)
      else
        let? found := if str_empty roomID then Ok None else LookupByRoom contacts roomID in
        let? found := match found with
                      | Some c => Ok (Some c)
                      | None => if str_empty peerMXID then Ok None
                                else LookupByPeer contacts peerMXID
                      end in
        Ok (match found with
            | None => ("", requestID, peerMXID, roomID)
            | Some c =>
                let requestID :=
                  if str_eqb action "contacts.request" && str_empty explicitRequestID &&
                     negb provided && ContactDeleted (Contact.Status c)
                  then "request_" +:+ digest16 (join_nul
                         [action; Contact.PeerMXID c; Contact.RequestID c; "deleted-next"])
                  else fallbackString requestID (Contact.RequestID c) in
                (Contact.RequestID c, requestID,
                 fallbackString peerMXID (Contact.PeerMXID c),
                 fallbackString roomID (Contact.RoomID c))
            end)
  | None => Ok ("", requestID, peerMXID, roomID)
  end.

(** What a member contributes: base generation, request and join time. *)
Definition memberGeneration (action roomID operationChannelID userID requestID : string)
    (baseRequestID : string) (member : option Member.MemberRecord) : string * string * Z :=
  match member with
  | None => (baseRequestID, requestID, 0%Z)
  | Some m =>
      let memberRequest := Member.RequestID m in
      let requestID :=
        if str_eqb action "channels.public.join_request" then
          if negb (str_empty memberRequest) &&
             negb (channelJoinGenerationMayRestart (Member.Membership m))
          then memberRequest
          else publicJoinRequestGeneration roomID operationChannelID userID memberRequest
        else if str_eqb action "channels.public.join_result" then
          fallbackString memberRequest
            (publicJoinRequestGeneration roomID operationChannelID userID "")
        else if (str_eqb action "groups.join" || str_eqb action "groups.invite.reject") &&
                negb (str_empty memberRequest) then memberRequest
        else if str_empty requestID then memberRequest
        else requestID in
      (memberRequest, requestID, Member.JoinedAt m)
  end.

(** [now] is [time.Now().UTC().UnixMilli()]. *)
Definition operationRecordFor (d : Directory) (now : Z) (action : string) (params : content)
    : result Api.Error Op.Record_ :=
  let? provided := providedOperation params in
  let? target := internal (memberTarget d params) in
  let roomID := if str_empty target.1 then trimString (get params "room_id") else target.1 in
  let channelID :=
    if str_empty target.2 then trimString (get params "channel_id") else target.2 in
  let operationChannelID := if negb (str_empty roomID) then "" else channelID in
  let userID := firstMemberID params in
  let userID :=
    if str_empty userID &&
       (has_prefix action "channels." || str_eqb action "groups.join" ||
        str_eqb action "groups.invite.reject") then OwnerMXID d else userID in
  let peerMXID :=
    fallbackString (trimString (get params "peer_mxid")) (trimString (get params "mxid")) in
  let explicitRequestID := trimString (get params "request_id") in
  let requestID := firstNonEmptyOperationPart params
                     ["request_id"; "invite_event_id"; "grant_id"; "direct_room_id"] in
  let rebuild := explicitRetainedRoomRebuildAction action params in
  let requestID := if rebuild then trimString (get params "rebuild_generation")
                   else requestID in
  let requestID :=
    match provided with
    | Some operationID =>
        if str_eqb action "contacts.request" && str_empty explicitRequestID
        then "request_" +:+ digest16 (action +:+ nul +:+ operationID) else requestID
    | None => requestID
    end in
  let isProvided := match provided with Some _ => true | None => false end in
  let? contact := internal (contactGeneration d action explicitRequestID isProvided
                              requestID peerMXID roomID) in
  let '(baseRequestID, requestID, peerMXID, roomID) := contact in
  let roomID := if str_eqb action "contacts.request" then "" else roomID in
  let? member :=
    if negb (str_empty roomID) && negb (str_empty userID)
    then internal (lookupMember d roomID userID) else Ok None in
  let '(baseRequestID, requestID, joinedAt) :=
    memberGeneration action roomID operationChannelID userID requestID baseRequestID member in
  let requestID :=
    if str_eqb action "channels.public.join_request" && str_empty baseRequestID
    then publicJoinRequestGeneration roomID operationChannelID userID "" else requestID in
  let requestID := if str_empty requestID && (0 <? joinedAt)%Z
                   then formatOperationGeneration joinedAt else requestID in
  let requestID :=
    if str_empty requestID
    then "req_" +:+ digest16 (join_nul [roomID; operationChannelID; userID; peerMXID])
    else requestID in
  let provided :=
    if str_eqb action "channels.public.join_request" ||
       str_eqb action "channels.public.join_result" || rebuild then None else provided in
  let operationID :=
    match provided with
    | Some operationID => operationID
    | None => "op_" +:+ digest16 (join_nul
                [action; roomID; operationChannelID; userID; peerMXID; requestID])
    end in
  Ok {| Op.OperationID := operationID; Op.Action := action;
        Op.Status := operationStatusRunning; Op.Phase := operationPhasePrepared;
        Op.RoomID := roomID; Op.CurrentRoomID := ""; Op.UserID := userID;
        Op.PeerMXID := peerMXID; Op.RequestID := requestID;
        Op.BaseRequestID := baseRequestID; Op.ResultJSON := ""; Op.ErrorCode := "";
        Op.Revision := 0; Op.LeaseOwner := ""; Op.LeaseUntil := 0;
        Op.CreatedAt := now; Op.UpdatedAt := now |}.

(** ** Workflows, conflicts and generations *)

Definition workflowOperation (operationID action roomID userID peerMXID : string) (now : Z)
    : Op.Record_ :=
  {| Op.OperationID := operationID; Op.Action := action;
     Op.Status := operationStatusRunning; Op.Phase := operationPhasePrepared;
     Op.RoomID := roomID; Op.CurrentRoomID := ""; Op.UserID := userID;
     Op.PeerMXID := peerMXID; Op.RequestID := ""; Op.BaseRequestID := "";
     Op.ResultJSON := ""; Op.ErrorCode := ""; Op.Revision := 0; Op.LeaseOwner := "";
     Op.LeaseUntil := 0; Op.CreatedAt := now; Op.UpdatedAt := now |}.

Definition durableBusinessWorkflowRecord (now : Z) (record : Op.Record_) : option Op.Record_ :=
  if negb (durableBusinessWorkflowAction (Op.Action record)) then None
  else
    let contact := has_prefix (Op.Action record) "contacts." in
    let kind := if contact then "contact" else "member" in
    let identity := if contact then [Op.PeerMXID record]
                    else [Op.RoomID record; Op.UserID record] in
    if existsb (fun part => str_empty (trim_space part)) identity then None
    else
      let id := "_workflow_" +:+ digest16 (kind +:+ nul +:+ join_nul identity) in
      Some (if contact
            then workflowOperation id "_workflow.contact" "" "" (Op.PeerMXID record) now
            else workflowOperation id "_workflow.member" (Op.RoomID record)
                   (Op.UserID record) "" now).

Definition conflictingOperationValue (left_ right_ : string) : bool :=
  if str_empty left_ then negb (str_empty right_)
  else negb (str_empty right_) && negb (str_eqb left_ right_).

Definition operationIdentityConflict (stored incoming : Op.Record_) : bool :=
  conflictingOperationValue (Op.RoomID stored) (Op.RoomID incoming) ||
  conflictingOperationValue (Op.UserID stored) (Op.UserID incoming) ||
  conflictingOperationValue (Op.PeerMXID stored) (Op.PeerMXID incoming) ||
  conflictingOperationValue (Op.RequestID stored) (Op.RequestID incoming).

Definition operationHasExternalCommit (phase : string) : bool :=
  str_eqb phase operationPhaseMatrixCommitted ||
  str_eqb phase operationPhaseCallbackAcknowledged ||
  str_eqb phase operationPhaseCompleted.

Definition operationNeedsRecovery (phase : string) : bool :=
  str_eqb phase operationPhaseMatrixUnconfirmed || operationHasExternalCommit phase.

Definition operationResultNeedsReconciliation (status errorCode : string) : bool :=
  one_of errorCode [MatrixJoinUnconfirmedCode; JoinResultUnconfirmedCode;
                    MatrixJoinFailedCode; OperationRecoveryCode] ||
  one_of (to_lower (trim_space status)) ["approved"; "joining"; "join_failed"].

Definition operationGenerationSuperseded (d : Directory) (record : Op.Record_)
    : result goerror bool :=
  let memberCase :=
    if str_empty (Op.RoomID record) || str_empty (Op.UserID record) then Ok false
    else
      let? found := lookupMember d (Op.RoomID record) (Op.UserID record) in
      Ok (match found with
          | None => false
          | Some m =>
              if str_eqb (Op.Action record) "channels.public.join_request" &&
                 channelJoinGenerationMayRestart (Member.Membership m) &&
                 negb (str_eqb (Op.Status record) operationStatusCompleted) &&
                 str_eqb (Member.RequestID m) (Op.BaseRequestID record) then false
              else negb (str_empty (Member.RequestID m)) &&
                   negb (str_eqb (Member.RequestID m) (Op.RequestID record))
          end) in
  if str_empty (Op.RequestID record) then Ok false
  else match contactsModule d with
       | Some contacts =>
           if has_prefix (Op.Action record) "contacts." then
             let? found := LookupByPeer contacts (Op.PeerMXID record) in
             Ok (match found with
                 | None => false
                 | Some c =>
                     if str_eqb (Op.Action record) "contacts.request" &&
                        ContactDeleted (Contact.Status c) &&
                        negb (str_eqb (Op.Status record) operationStatusCompleted) &&
                        str_eqb (Contact.RequestID c) (Op.BaseRequestID record) then false
                     else negb (str_empty (Contact.RequestID c)) &&
                          negb (str_eqb (Contact.RequestID c) (Op.RequestID record))
                 end)
           else memberCase
       | None => memberCase
       end.

Definition publicJoinCanAdvanceTerminalGeneration (d : Directory) (record : Op.Record_)
    : result goerror bool :=
  if str_empty (Op.RoomID record) || str_empty (Op.UserID record) ||
     str_empty (Op.RequestID record) || str_empty (Op.BaseRequestID record) ||
     str_eqb (Op.RequestID record) (Op.BaseRequestID record) then Ok false
  else
    let? found := lookupMember d (Op.RoomID record) (Op.UserID record) in
    Ok (match found with
        | None => false
        | Some m => str_eqb (Member.RequestID m) (Op.BaseRequestID record) &&
                    channelJoinGenerationMayRestart (Member.Membership m)
        end).
End Identity.
