(* ===== verification/KeyedLock.v ===== *)
(** * The lock per operation and per workflow

    [lockRecoverableOperation] and [lockMemberWorkflow] of
    [p2p/service_operation_recovery.go]: a map from keys to reference counted
    mutexes, guarded by a mutex of its own.  Every critical section is one
    step; the theorems are about every interleaving of them. *)

From Stdlib Require Import Ascii String ZArith Lia.
From stdpp Require Import base tactics list gmap strings.
From S2P Require Import Prelude GoStrings.

Module KeyedLock.
(** [recoverableOperationEntry]; [locked] is the state of its mutex. *)
Record entry := mkEntry {
  refs : Z;
  locked : bool;
}.

(** A goroutine between the call of the lock function and the end of the
    release function it returned. *)
Inductive phase :=
| Queued        (* registered, waits for [entry.mu] *)
| Holding       (* the lock function has returned *)
| Leaving.      (* [entry.mu] unlocked, reference not yet dropped *)

Record thread := mkThread {
  key : string;
  ptr : nat;               (* the entry it points to *)
  at_ : phase;
}.

Record state := mkState {
  entries : gmap string nat;    (* the map of the service *)
  heap : gmap nat entry;        (* every entry ever allocated *)
  threads : gmap nat thread;
}.

Definition initial : state := {| entries := ∅; heap := ∅; threads := ∅ |}.

Inductive label :=
| Enter (tid : nat) (k : string)
| Acquire (tid : nat)
| Unlock (tid : nat)
| Leave (tid : nat).

Definition set_locked (b : bool) (e : entry) : entry := {| refs := refs e; locked := b |}.
Definition add_refs (d : Z) (e : entry) : entry := {| refs := refs e + d; locked := locked e |}.

Definition step (s : state) (l : label) : option state :=
  match l with
  | Enter tid k =>
      match threads s !! tid with
      | Some _ => None
      | None =>
          let '(p, e) := match entries s !! k with
                         | Some p => (p, default (mkEntry 0 false) (heap s !! p))
                         | None => (fresh (dom (heap s)), mkEntry 0 false)
                         end in
          Some {| entries := <[k := p]> (entries s);
                  heap := <[p := add_refs 1 e]> (heap s);
                  threads := <[tid := mkThread k p Queued]> (threads s) |}
      end
  | Acquire tid =>
      match threads s !! tid with
      | Some (mkThread k p Queued) =>
          match heap s !! p with
          | Some e => if locked e then None
                      else Some {| entries := entries s;
                                   heap := <[p := set_locked true e]> (heap s);
                                   threads := <[tid := mkThread k p Holding]> (threads s) |}
          | None => None
          end
      | _ => None
      end
  | Unlock tid =>
      match threads s !! tid with
      | Some (mkThread k p Holding) =>
          match heap s !! p with
          | Some e => Some {| entries := entries s;
                              heap := <[p := set_locked false e]> (heap s);
                              threads := <[tid := mkThread k p Leaving]> (threads s) |}
          | None => None
          end
      | _ => None
      end
  | Leave tid =>
      match threads s !! tid with
      | Some (mkThread k p Leaving) =>
          match heap s !! p with
          | Some e =>
              let e := add_refs (-1) e in
              Some {| entries := if Z.eqb (refs e) 0 && bool_decide (entries s !! k = Some p)
                                 then delete k (entries s) else entries s;
                      heap := <[p := e]> (heap s);
                      threads := delete tid (threads s) |}
          | None => None
          end
      | _ => None
      end
  end.

Inductive reachable : state -> Prop :=
| reach_initial : reachable initial
| reach_step s l s' : reachable s -> step s l = Some s' -> reachable s'.
End KeyedLock.

Section Facts.
Import KeyedLock.
Implicit Types (s : state) (t : thread).

Definition users s (p : nat) : gmap nat thread := filter (fun it => ptr it.2 = p) (threads s).

Definition inv s : Prop :=
  (* everybody who uses a key points to the entry filed under it *)
  (forall tid t, threads s !! tid = Some t -> entries s !! key t = Some (ptr t)) /\
  (* filed entries are allocated, belong to one key and are in use *)
  (forall k p, entries s !! k = Some p ->
     (exists e, heap s !! p = Some e) /\ users s p <> ∅ /\
     (forall k', entries s !! k' = Some p -> k' = k)) /\
  (* reference counts are exact *)
  (forall p e, heap s !! p = Some e -> refs e = Z.of_nat (size (users s p))) /\
  (* the mutex of an entry is held by exactly one user, or free *)
  (forall p e, heap s !! p = Some e ->
     (locked e = true <-> exists tid t, threads s !! tid = Some t /\ ptr t = p /\ at_ t = Holding) /\
     (forall i j ti tj, threads s !! i = Some ti -> threads s !! j = Some tj ->
        ptr ti = p -> ptr tj = p -> at_ ti = Holding -> at_ tj = Holding -> i = j)).

Lemma lookup_users s p tid t :
  users s p !! tid = Some t <-> threads s !! tid = Some t /\ ptr t = p.
Proof. unfold users. rewrite map_lookup_filter_Some. done. Qed.

Lemma users_heap s tid t :
  inv s -> threads s !! tid = Some t -> exists e, heap s !! ptr t = Some e.
Proof. intros (H1 & H2 & _) Ht. apply H1 in Ht. by destruct (H2 _ _ Ht) as [? _]. Qed.

(** Users of an entry after one thread changes. *)
Lemma users_insert_same tid t (ts : gmap nat thread) p :
  ptr t = p -> filter (fun it => ptr it.2 = p) (<[tid := t]> ts) =
  <[tid := t]> (filter (fun it => ptr it.2 = p) ts).
Proof. intros. by rewrite map_filter_insert_True. Qed.

Lemma users_insert_other tid t (ts : gmap nat thread) p :
  ptr t <> p -> (forall t', ts !! tid = Some t' -> ptr t' <> p) ->
  filter (fun it => ptr it.2 = p) (<[tid := t]> ts) = filter (fun it => ptr it.2 = p) ts.
Proof. intros Hp Ho. apply map_filter_insert_not'; [done|]. intros y Hy. by apply Ho. Qed.

Lemma inv_initial : inv initial.
Proof. split_and!; intros ??; cbn; try rewrite lookup_empty; done. Qed.

Lemma users_unallocated s p : inv s -> heap s !! p = None -> users s p = ∅.
Proof.
  intros Hinv Hp. apply map_empty. intros tid. apply eq_None_not_Some. intros [t Ht].
  apply lookup_users in Ht as [Ht <-]. destruct (users_heap _ _ _ Hinv Ht). congruence.
Qed.

(** A user of [p] holds its mutex. *)
Definition held (ts : gmap nat thread) (p : nat) : Prop :=
  exists tid t, ts !! tid = Some t /\ ptr t = p /\ at_ t = Holding.

Lemma held_insert (ts : gmap nat thread) tid t p :
  at_ t <> Holding -> (forall t', ts !! tid = Some t' -> at_ t' <> Holding) ->
  held (<[tid := t]> ts) p <-> held ts p.
Proof.
  intros Hn Ho. split; intros (i & t' & Hi & Hp & Ha).
  - apply lookup_insert_Some in Hi as [[_ <-]|[_ Hi]]; [done|]. exists i, t'. done.
  - exists i, t'. split; [|done]. rewrite lookup_insert_ne; [done|].
    intros ->. by apply (Ho t').
Qed.

(** The heads of the four cases: which entry a thread uses. *)
Definition target s (k : string) (p : nat) (e : entry) : Prop :=
  (entries s !! k = Some p /\ heap s !! p = Some e) \/
  (entries s !! k = None /\ heap s !! p = None /\ e = mkEntry 0 false).

Lemma target_exact s k p e :
  inv s -> target s k p e ->
  refs e = Z.of_nat (size (users s p)) /\
  (locked e = true <->
     exists tid t, threads s !! tid = Some t /\ ptr t = p /\ at_ t = Holding) /\
  (forall k', entries s !! k' = Some p -> k' = k).
Proof.
  intros Hinv [[Hk Hp]|(Hk & Hp & ->)]; pose proof Hinv as (H1 & H2 & H3 & H4).
  - split_and!; [by apply H3|by apply H4|]. by destruct (H2 _ _ Hk) as (_ & _ & ?).
  - pose proof (users_unallocated _ _ Hinv Hp) as Hu. rewrite Hu, map_size_empty.
    split_and!; [done| |].
    + split; [done|]. intros (tid & t & Ht & Hpt & _).
      assert (users s p !! tid = Some t) by (by apply lookup_users).
      rewrite Hu, lookup_empty in *. done.
    + intros k' Hk'. destruct (H2 _ _ Hk') as [[? ?] _]. congruence.
Qed.

Lemma inv_enter s tid k p e :
  inv s -> threads s !! tid = None -> target s k p e ->
  inv {| entries := <[k := p]> (entries s); heap := <[p := add_refs 1 e]> (heap s);
         threads := <[tid := mkThread k p Queued]> (threads s) |}.
Proof.
  intros Hinv Ht Htg. destruct (target_exact _ _ _ _ Hinv Htg) as (Hrefs & Hlock & Hkey).
  pose proof Hinv as (H1 & H2 & H3 & H4).
  assert (Hother : forall q, q <> p -> users {| entries := <[k := p]> (entries s);
      heap := <[p := add_refs 1 e]> (heap s);
      threads := <[tid := mkThread k p Queued]> (threads s) |} q = users s q).
  { intros q Hq. apply users_insert_other; cbn; [done|]. by rewrite Ht. }
  assert (Hfree : users s p !! tid = None)
    by (apply map_lookup_filter_None; left; done).
  split_and!; cbn [entries heap threads].
  - intros i t. rewrite lookup_insert_Some. intros [[<- <-]|[_ Hi]]; [apply lookup_insert_eq|].
    pose proof (H1 _ _ Hi) as Hkt. destruct (decide (k = key t)) as [Heq|].
    + rewrite Heq, lookup_insert_eq. f_equal. rewrite <- Heq in Hkt.
      destruct Htg as [[Hk _]|[Hk _]]; congruence.
    + by rewrite lookup_insert_ne.
  - intros k' q. rewrite lookup_insert_Some. intros [[<- <-]|[Hne Hk']].
    + split; [rewrite lookup_insert_eq; eauto|]. split.
      * unfold users. cbn. rewrite users_insert_same by done. apply insert_non_empty.
      * intros k''. rewrite lookup_insert_Some. intros [[-> _]|[_ Hk'']]; [done|]. by apply Hkey.
    + assert (q <> p) by (intros ->; apply Hne; symmetry; by apply Hkey).
      destruct (H2 _ _ Hk') as ([e' He'] & Hu & Hkk). rewrite Hother by done.
      split; [rewrite lookup_insert_ne by done; eauto|]. split; [done|].
      intros k''. rewrite lookup_insert_Some. intros [[_ ?]|[_ ?]]; [congruence|by apply Hkk].
  - intros q e'. rewrite lookup_insert_Some. intros [[<- <-]|[Hne Hq]].
    + unfold users. cbn. rewrite users_insert_same by done.
      rewrite map_size_insert_None by done. fold (users s p). rewrite Hrefs. lia.
    + rewrite Hother by done. by apply H3.
  - intros q e' Hq. split.
    + fold (held (<[tid := mkThread k p Queued]> (threads s)) q).
      rewrite held_insert by (done || by rewrite Ht).
      apply lookup_insert_Some in Hq as [[<- <-]|[Hne Hq]]; [done|apply (H4 _ _ Hq)].
    + intros i j ti tj Hi Hj Hpi Hpj Hai Haj. rewrite lookup_insert_Some in Hi, Hj.
      destruct Hi as [[_ <-]|[_ Hi]]; [done|]. destruct Hj as [[_ <-]|[_ Hj]]; [done|].
      destruct (users_heap _ _ _ Hinv Hi) as [e0 He0]. rewrite Hpi in He0.
      by eapply (proj2 (H4 _ _ He0)).
Qed.

Lemma held_other (ts : gmap nat thread) tid t t0 p :
  ts !! tid = Some t0 -> ptr t0 <> p -> ptr t <> p ->
  held (<[tid := t]> ts) p <-> held ts p.
Proof.
  intros H0 Hp0 Hp. split; intros (i & t' & Hi & Hpt & Ha).
  - apply lookup_insert_Some in Hi as [[_ <-]|[_ Hi]]; [done|]. exists i, t'. done.
  - exists i, t'. split; [|done]. rewrite lookup_insert_ne; [done|]. congruence.
Qed.

(** A thread changes its phase and the mutex of its entry follows. *)
Lemma inv_phase s tid k p a a' e b :
  inv s -> threads s !! tid = Some (mkThread k p a) -> heap s !! p = Some e ->
  (b = true <-> held (<[tid := mkThread k p a']> (threads s)) p) ->
  (a' = Holding -> locked e = false) ->
  inv {| entries := entries s; heap := <[p := set_locked b e]> (heap s);
         threads := <[tid := mkThread k p a']> (threads s) |}.
Proof.
  intros Hinv Ht Hp Hb Hfree. pose proof Hinv as (H1 & H2 & H3 & H4).
  assert (Husers : forall q, size (filter (fun it => ptr it.2 = q)
      (<[tid := mkThread k p a']> (threads s))) = size (users s q)).
  { intros q. destruct (decide (p = q)) as [<-|Hq].
    - rewrite users_insert_same by done. rewrite map_size_insert_Some; [done|].
      exists (mkThread k p a). by apply lookup_users.
    - rewrite users_insert_other; [done|done|]. rewrite Ht. intros t' [= <-]. done. }
  split_and!; cbn [entries heap threads].
  - intros i t. rewrite lookup_insert_Some. intros [[<- <-]|[_ Hi]]; [apply (H1 _ _ Ht)|eauto].
  - intros k' q Hk'. destruct (H2 _ _ Hk') as ([e' He'] & Hu & Hkk). split_and!; [| |done].
    + destruct (decide (p = q)) as [<-|]; [rewrite lookup_insert_eq|rewrite lookup_insert_ne by done];
        eauto.
    + intros Hemp. apply Hu, map_size_empty_iff. rewrite <- Husers.
      by apply map_size_empty_iff.
  - intros q e'. unfold users. cbn. rewrite Husers, lookup_insert_Some.
    intros [[<- <-]|[_ Hq]]; [cbn; by apply H3|by apply H3].
  - intros q e' Hq. split.
    + fold (held (<[tid := mkThread k p a']> (threads s)) q).
      apply lookup_insert_Some in Hq as [[<- <-]|[Hne Hq]]; [done|].
      rewrite held_other; [apply (H4 _ _ Hq)|exact Ht|done|done].
    + intros i j ti tj Hi Hj Hpi Hpj Hai Haj.
      assert (Hcase : forall x tx, <[tid := mkThread k p a']> (threads s) !! x = Some tx ->
        at_ tx = Holding -> x <> tid -> ptr tx = p -> a' = Holding -> False).
      { intros x tx Hx Hax Hxt Hpx Ha'. rewrite lookup_insert_ne in Hx by done.
        assert (locked e = true) by (apply (proj1 (H4 _ _ Hp)); eauto).
        rewrite Hfree in * by done. done. }
      destruct (decide (i = tid)) as [->|Hi']; destruct (decide (j = tid)) as [->|Hj']; [done| | |].
      * rewrite lookup_insert_eq in Hi. simplify_eq/=. exfalso. by eapply (Hcase j tj).
      * rewrite lookup_insert_eq in Hj. simplify_eq/=. exfalso. by eapply (Hcase i ti).
      * rewrite lookup_insert_ne in Hi, Hj by done.
        destruct (users_heap _ _ _ Hinv Hi) as [e0 He0]. rewrite Hpi in He0.
        by eapply (proj2 (H4 _ _ He0)).
Qed.

Lemma inv_acquire s tid k p e :
  inv s -> threads s !! tid = Some (mkThread k p Queued) -> heap s !! p = Some e ->
  locked e = false ->
  inv {| entries := entries s; heap := <[p := set_locked true e]> (heap s);
         threads := <[tid := mkThread k p Holding]> (threads s) |}.
Proof.
  intros Hinv Ht Hp Hl. eapply inv_phase; [done..| |done]. split; [|done]. intros _.
  exists tid, (mkThread k p Holding). by rewrite lookup_insert_eq.
Qed.

Lemma inv_unlock s tid k p e :
  inv s -> threads s !! tid = Some (mkThread k p Holding) -> heap s !! p = Some e ->
  inv {| entries := entries s; heap := <[p := set_locked false e]> (heap s);
         threads := <[tid := mkThread k p Leaving]> (threads s) |}.
Proof.
  intros Hinv Ht Hp. eapply inv_phase; [done..| |done]. split; [done|].
  intros (i & t & Hi & Hpt & Ha). apply lookup_insert_Some in Hi as [[_ <-]|[Hne Hi]]; [done|].
  exfalso. apply Hne. destruct Hinv as (_ & _ & _ & H4).
  by eapply (proj2 (H4 _ _ Hp) tid i (mkThread k p Holding) t).
Qed.

Lemma users_delete s tid k p a q :
  threads s !! tid = Some (mkThread k p a) ->
  filter (fun it => ptr it.2 = q) (delete tid (threads s)) =
  if decide (q = p) then delete tid (users s q) else users s q.
Proof.
  intros Ht. unfold users. destruct (decide (q = p)) as [->|Hq].
  - by rewrite map_filter_delete.
  - rewrite map_filter_delete_not; [done|]. rewrite Ht. intros y [= <-]. cbn. congruence.
Qed.

Lemma inv_leave s tid k p e :
  inv s -> threads s !! tid = Some (mkThread k p Leaving) -> heap s !! p = Some e ->
  let e' := add_refs (-1) e in
  inv {| entries := if Z.eqb (refs e') 0 && bool_decide (entries s !! k = Some p)
                    then delete k (entries s) else entries s;
         heap := <[p := e']> (heap s); threads := delete tid (threads s) |}.
Proof.
  intros Hinv Ht Hp e'. pose proof Hinv as (H1 & H2 & H3 & H4).
  pose proof (H1 _ _ Ht) as Hk. cbn in Hk. rewrite (bool_decide_eq_true_2 _ Hk), andb_true_r.
  assert (Hu : forall q, filter (fun it => ptr it.2 = q) (delete tid (threads s)) =
    if decide (q = p) then delete tid (users s q) else users s q)
    by (intros; by eapply users_delete).
  assert (Hsize : Z.of_nat (size (delete tid (users s p))) = refs e').
  { cbn. rewrite (H3 _ _ Hp).
    rewrite (map_size_delete_Some tid (users s p)) by (eexists; by apply lookup_users).
    assert (size (users s p) <> 0%nat); [|lia].
    intros H0%map_size_empty_iff. assert (users s p !! tid = Some (mkThread k p Leaving))
      by (by apply lookup_users). by rewrite H0, lookup_empty in *. }
  assert (Hlast : refs e' = 0%Z -> forall i t, i <> tid -> threads s !! i = Some t -> ptr t <> p).
  { intros H0 i t Hi Hti Hpt. rewrite H0 in Hsize.
    assert (Hd : delete tid (users s p) = ∅) by (apply map_size_empty_iff; lia).
    assert (users s p !! i = Some t) as Hin by (by apply lookup_users).
    rewrite <- (lookup_delete_ne _ tid i) in Hin by done. by rewrite Hd, lookup_empty in Hin. }
  split_and!; cbn [entries heap threads].
  - intros i t [Hi Hti]%lookup_delete_Some. pose proof (H1 _ _ Hti) as Hkt.
    destruct (Z.eqb_spec (refs e') 0) as [H0|_]; [|done].
    rewrite lookup_delete_ne; [done|]. intros Heq. rewrite <- Heq, Hk in Hkt.
    apply (Hlast H0 i t); congruence.
  - intros k' q Hk'. assert (Hold : entries s !! k' = Some q /\ (refs e' = 0%Z -> k <> k')).
    { destruct (Z.eqb_spec (refs e') 0); [|done]. apply lookup_delete_Some in Hk'. naive_solver. }
    destruct Hold as [Hold Hne]. destruct (H2 _ _ Hold) as ([e0 He0] & Hne0 & Hkk). split_and!.
    + destruct (decide (p = q)) as [<-|]; [rewrite lookup_insert_eq|rewrite lookup_insert_ne by done];
        eauto.
    + unfold users. cbn. rewrite Hu. destruct (decide (q = p)) as [->|]; [|done].
      intros Hemp. apply Hne; [|by apply Hkk]. rewrite <- Hsize, Hemp. done.
    + intros k'' Hk''. apply Hkk. destruct (Z.eqb_spec (refs e') 0); [|done].
      apply lookup_delete_Some in Hk'' as [_ Hk'']. exact Hk''.
  - intros q e0. unfold users. cbn. rewrite Hu, lookup_insert_Some.
    intros [[<- <-]|[Hne Hq]].
    + rewrite decide_True by done. done.
    + rewrite decide_False by done. by apply H3.
  - intros q e0 Hq. split.
    + assert (Hheld : held (delete tid (threads s)) q <-> held (threads s) q).
      { split; intros (i & t & Hi & Hpt & Ha).
        - apply lookup_delete_Some in Hi as [_ Hi]. exists i, t. done.
        - exists i, t. split; [|done]. rewrite lookup_delete_ne; [done|]. intros ->.
          rewrite Ht in Hi. injection Hi as <-. done. }
      fold (held (delete tid (threads s)) q). rewrite Hheld.
      apply lookup_insert_Some in Hq as [[<- <-]|[_ Hq]]; [apply (H4 _ _ Hp)|apply (H4 _ _ Hq)].
    + intros i j ti tj [_ Hi]%lookup_delete_Some [_ Hj]%lookup_delete_Some Hpi Hpj.
      destruct (users_heap _ _ _ Hinv Hi) as [e1 He1]. rewrite Hpi in He1.
      exact (proj2 (H4 _ _ He1) i j ti tj Hi Hj Hpi Hpj).
Qed.

Lemma lock_step_inv s l s' : inv s -> step s l = Some s' -> inv s'.
Proof.
  intros Hinv. destruct l as [tid k|tid|tid|tid]; cbn [step].
  - destruct (threads s !! tid) eqn:Ht; [done|].
    destruct (entries s !! k) as [p|] eqn:Hk; intros [= <-].
    + pose proof Hinv as (_ & H2 & _). destruct (H2 _ _ Hk) as ([e He] & _).
      rewrite He. cbn. apply inv_enter; [done..|]. left. done.
    + apply inv_enter; [done..|]. right. split_and!; [done| |done].
      apply not_elem_of_dom, is_fresh.
  - destruct (threads s !! tid) as [[k p []]|] eqn:Ht; try done.
    destruct (heap s !! p) as [e|] eqn:Hp; [|done].
    destruct (locked e) eqn:Hl; [done|]. intros [= <-]. by apply inv_acquire.
  - destruct (threads s !! tid) as [[k p []]|] eqn:Ht; try done.
    destruct (heap s !! p) as [e|] eqn:Hp; [|done]. intros [= <-]. by apply inv_unlock.
  - destruct (threads s !! tid) as [[k p []]|] eqn:Ht; try done.
    destruct (heap s !! p) as [e|] eqn:Hp; [|done]. intros [= <-]. by apply inv_leave.
Qed.

Lemma lock_reachable_inv s : reachable s -> inv s.
Proof. induction 1; [apply inv_initial|by eapply lock_step_inv]. Qed.

(** C29.  The reference counted locks are mutual exclusion per key in every
    interleaving: two goroutines that hold the lock of the same key are the
    same goroutine, although entries are created and deleted on the way; a
    goroutine that waits while nobody holds the key can go on; and the map
    has an entry for a key exactly while some goroutine uses that key, so
    it does not leak. *)
Theorem keyed_lock_correct s :
  reachable s ->
  (forall i j ti tj, threads s !! i = Some ti -> threads s !! j = Some tj ->
     key ti = key tj -> at_ ti = Holding -> at_ tj = Holding -> i = j) /\
  (forall i ti, threads s !! i = Some ti -> at_ ti = Queued ->
     (forall j tj, threads s !! j = Some tj -> key tj = key ti -> at_ tj <> Holding) ->
     exists s', step s (Acquire i) = Some s' /\
       threads s' !! i = Some (mkThread (key ti) (ptr ti) Holding)) /\
  (forall k, is_Some (entries s !! k) <->
     exists i ti, threads s !! i = Some ti /\ key ti = k).
Proof.
  intros Hreach. pose proof (lock_reachable_inv s Hreach) as Hinv.
  pose proof Hinv as (H1 & H2 & H3 & H4). split_and!.
  - intros i j ti tj Hi Hj Hkey Hai Haj. pose proof (H1 _ _ Hi) as Hpi.
    pose proof (H1 _ _ Hj) as Hpj. rewrite Hkey, Hpj in Hpi. injection Hpi as Hpp.
    destruct (users_heap _ _ _ Hinv Hi) as [e He]. by eapply (proj2 (H4 _ _ He)).
  - intros i [k p a] Hi Ha Hnone. cbn in *. subst a. rewrite Hi.
    destruct (users_heap _ _ _ Hinv Hi) as [e He]. cbn in He. rewrite He.
    destruct (locked e) eqn:Hl; [|eexists; split; [done|]; apply lookup_insert_eq].
    exfalso. apply (proj1 (H4 _ _ He)) in Hl as (j & tj & Hj & Hpj & Haj).
    apply (Hnone j tj); [done| |done]. pose proof (H1 _ _ Hi) as Hki. cbn in Hki.
    destruct (H2 _ _ Hki) as (_ & _ & Hkk). apply Hkk. rewrite <- Hpj. exact (H1 j tj Hj).
  - intros k. split.
    + intros [p Hp]. destruct (H2 _ _ Hp) as (_ & Hu & Hkk).
      apply map_choose in Hu as (i & t & Ht). apply lookup_users in Ht as [Ht <-].
      exists i, t. split; [done|]. apply Hkk. exact (H1 i t Ht).
    + intros (i & t & Ht & <-). exists (ptr t). exact (H1 i t Ht).
Qed.
End Facts.

Lemma keyed_lock_witness :
  exists s, KeyedLock.step KeyedLock.initial (KeyedLock.Enter 1 "k") = Some s /\
    forall i j ti tj, KeyedLock.threads s !! i = Some ti -> KeyedLock.threads s !! j = Some tj ->
       KeyedLock.key ti = KeyedLock.key tj -> KeyedLock.at_ ti = KeyedLock.Holding ->
       KeyedLock.at_ tj = KeyedLock.Holding -> i = j.
Proof.
  eexists. split; [reflexivity|].
  refine (proj1 (keyed_lock_correct _ _)).
  refine (KeyedLock.reach_step KeyedLock.initial (KeyedLock.Enter 1 "k") _ _ _).
  - exact KeyedLock.reach_initial.
  - reflexivity.
Defined.
