(* ===== verification/OperationIdentityFacts.v ===== *)
(** * Who decides the identity of an operation

    Internal workflow records live in a namespace no request can name, and
    the identity of a public join request is derived from server state only. *)

From Stdlib Require Import Ascii String ZArith Lia.
From stdpp Require Import base tactics list gmap strings.
From S2P Require Import Prelude GoStrings Values Domain GoTime Policy PolicyFacts Action.
From S2P Require Import Operations OperationIdentity.
Local Open Scope go_scope.
Import Identity.

#[local] Opaque digest16 trim_space to_lower format_rfc3339nano equal_fold.

Definition first_char (s : string) : option ascii := head (list_ascii_of_string s).

Lemma pattern_first_char s :
  operationIDPattern s = true -> first_char s <> Some "_"%char.
Proof.
  unfold operationIDPattern, first_char. destruct (list_ascii_of_string s) as [|a l]; [done|].
  intros H%andb_true_iff. destruct H as [H%andb_true_iff _]. destruct H as [Ha _].
  cbn. intros [= ->]. by vm_compute in Ha.
Qed.

Lemma providedOperation_valid params id :
  providedOperation params = Ok (Some id) -> operationIDPattern id = true.
Proof.
  unfold providedOperation. destruct (params !! "operation_id") as [[]|]; try done.
  destruct (operationIDPattern _) eqn:E; [by intros [= <-]|done].
Qed.

Lemma operationRecordFor_id d now action params r :
  operationRecordFor d now action params = Ok r ->
  providedOperation params = Ok (Some (Op.OperationID r)) \/
  exists digest, Op.OperationID r = "op_" +:+ digest.
Proof.
  unfold operationRecordFor. intros (provided & Hp & Hr)%rbind_Ok_inv.
  apply rbind_Ok_inv in Hr as (target & _ & Hr).
  apply rbind_Ok_inv in Hr as ([[[base request] peer] room] & _ & Hr).
  apply rbind_Ok_inv in Hr as (member & _ & Hr).
  destruct (memberGeneration _ _ _ _ _ _ member) as [[base' request'] joined].
  injection Hr as <-. cbn [Op.OperationID].
  destruct (_ || _ || _); [right; eauto|]. destruct provided; [by left|right; eauto].
Qed.

(** No request can reach an internal workflow record: the operation id
    the service derives or accepts for a request never equals the id of a
    business workflow, so a caller can neither claim nor block a workflow in
    advance. *)
Theorem workflow_ids_are_internal d now action params now' record :
  match operationRecordFor d now action params, durableBusinessWorkflowRecord now' record with
  | Ok r, Some w => Op.OperationID r <> Op.OperationID w
  | _, _ => True
  end.
Proof.
  destruct (operationRecordFor d now action params) as [r|] eqn:Hr; [|done].
  destruct (durableBusinessWorkflowRecord now' record) as [w|] eqn:Hw; [|done].
  assert (Hfirst : first_char (Op.OperationID w) = Some "_"%char).
  { unfold durableBusinessWorkflowRecord in Hw. destruct (negb _); [done|].
    destruct (existsb _ _); [done|]. destruct (has_prefix _ _); by injection Hw as <-. }
  intros Heq. rewrite <- Heq in Hfirst.
  destruct (operationRecordFor_id _ _ _ _ _ Hr) as [Hp|[digest Hd]].
  - by apply providedOperation_valid, pattern_first_char in Hp.
  - rewrite Hd in Hfirst. discriminate.
Qed.

(** ** Public join requests *)

(** The two requests differ at most in the identifiers the caller chose. *)
Definition same_join (p q : content) : Prop :=
  forall k, k <> "request_id" -> k <> "operation_id" -> p !! k = q !! k.

Lemma same_get p q k :
  same_join p q -> k <> "request_id" -> k <> "operation_id" -> get p k = get q k.
Proof. intros H H1 H2. unfold get. by rewrite (H k H1 H2). Qed.

Lemma FirstString_same p q keys :
  same_join p q -> Forall (fun k => k <> "request_id" /\ k <> "operation_id") keys ->
  Params.FirstString p keys = Params.FirstString q keys.
Proof.
  intros Hs. induction 1 as [|k keys [H1 H2] _ IH]; [done|]. cbn.
  unfold Params.get_string. rewrite (same_get p q k), IH by done. done.
Qed.

Lemma FirstListString_same p q keys :
  same_join p q -> Forall (fun k => k <> "request_id" /\ k <> "operation_id") keys ->
  Params.FirstListString p keys = Params.FirstListString q keys.
Proof.
  intros Hs. induction 1 as [|k keys [H1 H2] _ IH]; [done|]. cbn.
  unfold Params.get_strings. rewrite (same_get p q k), IH by done. done.
Qed.

Lemma firstMemberID_same p q : same_join p q -> firstMemberID p = firstMemberID q.
Proof.
  intros Hs. unfold firstMemberID.
  rewrite (FirstString_same p q), (FirstListString_same p q); [done|done| |done|];
    repeat constructor; discriminate.
Qed.

Lemma memberTarget_same d p q : same_join p q -> memberTarget d p = memberTarget d q.
Proof.
  intros Hs. unfold memberTarget.
  by rewrite (same_get p q "room_id"), (same_get p q "channel_id") by done.
Qed.

Definition join_action := "channels.public.join_request".

(** Unauthenticated callers do not choose durable identity: two public
    join requests that differ only in the [request_id] and in a valid or
    absent [operation_id] denote the same operation, with the same operation
    id, request generation and base generation. *)
Theorem public_join_identity_is_server_owned d now p q a b :
  same_join p q -> providedOperation p = Ok a -> providedOperation q = Ok b ->
  operationRecordFor d now join_action p = operationRecordFor d now join_action q.
Proof.
  intros Hs Hp Hq. unfold operationRecordFor. rewrite Hp, Hq. cbn [rbind].
  rewrite (memberTarget_same d p q Hs), (firstMemberID_same p q Hs).
  rewrite (same_get p q "room_id"), (same_get p q "channel_id"),
    (same_get p q "peer_mxid"), (same_get p q "mxid") by done.
  destruct (internal (memberTarget d q)) as [target|]; [|done]. cbn [rbind].
  unfold contactGeneration.
  replace (has_prefix join_action "contacts.") with false by reflexivity.
  replace (str_eqb join_action "contacts.request") with false by reflexivity.
  replace (explicitRetainedRoomRebuildAction join_action p) with false by reflexivity.
  replace (explicitRetainedRoomRebuildAction join_action q) with false by reflexivity.
  cbn [negb]. destruct (contactsModule d) as [?|]; cbn [internal rbind];
    (destruct (if _ && _ then _ else _) as [member|]; [|done]); cbn [rbind];
    destruct member as [m|]; reflexivity.
Qed.

Definition demo_directory : Directory :=
  {| channelByIDOrRoom := fun _ _ => Ok None; contactsModule := None; memberStore := None;
     OwnerMXID := "@owner:a" |}.

Definition demo_join : content := {["room_id" := AString "!r:a"]}.

Lemma public_join_identity_witness :
  operationRecordFor demo_directory 1 join_action (<["request_id" := AString "x"]> demo_join) =
  operationRecordFor demo_directory 1 join_action demo_join.
Proof.
  refine (public_join_identity_is_server_owned demo_directory 1
    (<["request_id" := AString "x"]> demo_join) demo_join None None _ _ _).
  - intros k H1 H2. apply lookup_insert_ne. congruence.
  - reflexivity.
  - reflexivity.
Defined.
