(* ===== verification/MemoryTables.v ===== *)
(** * Tables of the memory store

    The product tables of [p2p/storage]: members, contacts and conversations,
    blocks, groups, calls, channels and grants, favourites, follows, reactions
    and read markers ([memory_members.go], [memory_relationships.go],
    [memory_conversations.go], [memory_channels.go], [memory_social.go],
    [memory_portal.go]).  Every operation runs under the store's lock, so it
    is one function on the tables; the order in which Go visits a map is the
    parameter [GoRange]. *)

From Stdlib Require Import Ascii String ZArith Lia.
From stdpp Require Import base tactics list gmap strings.
From S2P Require Import Prelude GoStrings Values Domain Policy.
Local Open Scope Z_scope.

Module T.
Record tables := mk {
  readMarks : gmap string Marker.ReadMarker;
  conversations : gmap string Conv.ConversationRecord;
  channels : gmap string Chan.Channel;
  inviteGrants : gmap string Grant.ChannelInviteGrant;
  contacts : gmap string Contact.ContactRecord;
  blocks : gmap string Block.BlockRecord;
  groups : gmap string Group.GroupRecord;
  calls : gmap string Call.CallRecord;
  favorites : gmap Z Favorite.FavoriteRecord;
  follows : gmap string Follow.FollowRecord;
  reactions : gmap string Reaction.ReactionRecord;
  members : gmap string Member.MemberRecord;
}.
Definition set_readMarks (v : gmap string Marker.ReadMarker) (r : tables) : tables :=
  {| readMarks := v; conversations := conversations r; channels := channels r;
     inviteGrants := inviteGrants r; contacts := contacts r; blocks := blocks r;
     groups := groups r; calls := calls r; favorites := favorites r;
     follows := follows r; reactions := reactions r; members := members r |}.
Definition set_conversations (v : gmap string Conv.ConversationRecord) (r : tables) : tables :=
  {| readMarks := readMarks r; conversations := v; channels := channels r;
     inviteGrants := inviteGrants r; contacts := contacts r; blocks := blocks r;
     groups := groups r; calls := calls r; favorites := favorites r;
     follows := follows r; reactions := reactions r; members := members r |}.
Definition set_channels (v : gmap string Chan.Channel) (r : tables) : tables :=
  {| readMarks := readMarks r; conversations := conversations r; channels := v;
     inviteGrants := inviteGrants r; contacts := contacts r; blocks := blocks r;
     groups := groups r; calls := calls r; favorites := favorites r;
     follows := follows r; reactions := reactions r; members := members r |}.
Definition set_inviteGrants (v : gmap string Grant.ChannelInviteGrant) (r : tables) : tables :=
  {| readMarks := readMarks r; conversations := conversations r;
     channels := channels r; inviteGrants := v; contacts := contacts r;
     blocks := blocks r; groups := groups r; calls := calls r;
     favorites := favorites r; follows := follows r; reactions := reactions r;
     members := members r |}.
Definition set_contacts (v : gmap string Contact.ContactRecord) (r : tables) : tables :=
  {| readMarks := readMarks r; conversations := conversations r;
     channels := channels r; inviteGrants := inviteGrants r; contacts := v;
     blocks := blocks r; groups := groups r; calls := calls r;
     favorites := favorites r; follows := follows r; reactions := reactions r;
     members := members r |}.
Definition set_blocks (v : gmap string Block.BlockRecord) (r : tables) : tables :=
  {| readMarks := readMarks r; conversations := conversations r;
     channels := channels r; inviteGrants := inviteGrants r;
     contacts := contacts r; blocks := v; groups := groups r; calls := calls r;
     favorites := favorites r; follows := follows r; reactions := reactions r;
     members := members r |}.
Definition set_groups (v : gmap string Group.GroupRecord) (r : tables) : tables :=
  {| readMarks := readMarks r; conversations := conversations r;
     channels := channels r; inviteGrants := inviteGrants r;
     contacts := contacts r; blocks := blocks r; groups := v; calls := calls r;
     favorites := favorites r; follows := follows r; reactions := reactions r;
     members := members r |}.
Definition set_calls (v : gmap string Call.CallRecord) (r : tables) : tables :=
  {| readMarks := readMarks r; conversations := conversations r;
     channels := channels r; inviteGrants := inviteGrants r;
     contacts := contacts r; blocks := blocks r; groups := groups r; calls := v;
     favorites := favorites r; follows := follows r; reactions := reactions r;
     members := members r |}.
Definition set_favorites (v : gmap Z Favorite.FavoriteRecord) (r : tables) : tables :=
  {| readMarks := readMarks r; conversations := conversations r;
     channels := channels r; inviteGrants := inviteGrants r;
     contacts := contacts r; blocks := blocks r; groups := groups r;
     calls := calls r; favorites := v; follows := follows r;
     reactions := reactions r; members := members r |}.
Definition set_follows (v : gmap string Follow.FollowRecord) (r : tables) : tables :=
  {| readMarks := readMarks r; conversations := conversations r;
     channels := channels r; inviteGrants := inviteGrants r;
     contacts := contacts r; blocks := blocks r; groups := groups r;
     calls := calls r; favorites := favorites r; follows := v;
     reactions := reactions r; members := members r |}.
Definition set_reactions (v : gmap string Reaction.ReactionRecord) (r : tables) : tables :=
  {| readMarks := readMarks r; conversations := conversations r;
     channels := channels r; inviteGrants := inviteGrants r;
     contacts := contacts r; blocks := blocks r; groups := groups r;
     calls := calls r; favorites := favorites r; follows := follows r;
     reactions := v; members := members r |}.
Definition set_members (v : gmap string Member.MemberRecord) (r : tables) : tables :=
  {| readMarks := readMarks r; conversations := conversations r;
     channels := channels r; inviteGrants := inviteGrants r;
     contacts := contacts r; blocks := blocks r; groups := groups r;
     calls := calls r; favorites := favorites r; follows := follows r;
     reactions := reactions r; members := v |}.

(** [NewMemoryStore]: empty tables. *)
Definition NewMemoryStore : tables :=
  {| readMarks := ∅; conversations := ∅; channels := ∅; inviteGrants := ∅; contacts := ∅;
     blocks := ∅; groups := ∅; calls := ∅; favorites := ∅; follows := ∅; reactions := ∅;
     members := ∅ |}.
End T.

Module MemoryTables.
Import T.

Section Ops.
Context `{GoRange}.
Implicit Types s : tables.

(** ** Members ([memory_members.go]) *)

Definition memoryMemberKey (roomID userID : string) : string := roomID +:+ "|" +:+ userID.

Definition normalizeMemberRecord (m : Member.MemberRecord) : Member.MemberRecord :=
  Member.set_Membership (NormalizeMemberMembership (Member.Membership m)) m.

Definition member_key (m : Member.MemberRecord) : string :=
  memoryMemberKey (Member.RoomID m) (Member.UserID m).

Definition UpsertMember s (member : Member.MemberRecord) : tables :=
  let member := normalizeMemberRecord member in
  set_members (<[member_key member := member]> (members s)) s.

Definition InsertMemberIfAbsent s (member : Member.MemberRecord) : tables * bool :=
  let member := normalizeMemberRecord member in
  match members s !! member_key member with
  | Some _ => (s, false)
  | None => (set_members (<[member_key member := member]> (members s)) s, true)
  end.

Definition CompareAndSwapMemberGeneration s (member : Member.MemberRecord)
    (expectedRequestID expectedMembership : string) : tables * bool :=
  let member := normalizeMemberRecord member in
  let expectedMembership := NormalizeMemberMembership expectedMembership in
  match members s !! member_key member with
  | None => (s, false)
  | Some current =>
      if negb (str_eqb (Member.RequestID current) expectedRequestID) ||
         (negb (str_empty expectedMembership) &&
          negb (equal_fold (trim_space (Member.Membership current))
                  (trim_space expectedMembership)))
      then (s, false)
      else (set_members (<[member_key member := member]> (members s)) s, true)
  end.

Definition LookupMember s (roomID userID : string) : option Member.MemberRecord :=
  members s !! memoryMemberKey roomID userID.

Definition memoryMemberHidden (membership : string) : bool :=
  bool_decide (to_lower (trim_space membership) ∈
    ["leave"; "left"; "remove"; "removed"; "reject"; "rejected"; "ban"; "banned"]).

Definition member_less (left_ right_ : Member.MemberRecord) : bool :=
  if negb (Member.JoinedAt left_ =? Member.JoinedAt right_) then
    if Member.JoinedAt left_ =? 0 then false
    else if Member.JoinedAt right_ =? 0 then true
    else Member.JoinedAt left_ <? Member.JoinedAt right_
  else str_ltb (Member.UserID left_) (Member.UserID right_).

Definition sortMemoryMembers : list Member.MemberRecord -> list Member.MemberRecord :=
  stable_sort member_less.

Definition in_scope (roomID channelID : string) (m : Member.MemberRecord) : bool :=
  negb (negb (str_empty roomID) && negb (str_eqb (Member.RoomID m) roomID)) &&
  negb (negb (str_empty channelID) && negb (str_eqb (Member.ChannelID m) channelID)).

Definition ListMembers s (roomID channelID : string) : list Member.MemberRecord :=
  sortMemoryMembers (List.filter (in_scope roomID channelID) (go_values (members s))).

Definition ListMembersForUser s (userID : string) : list Member.MemberRecord :=
  List.filter (fun m => str_eqb (Member.UserID m) userID &&
                        negb (memoryMemberHidden (Member.Membership m)))
    (go_values (members s)).

(** The loop of [CountProductMembers]: joined and pending so far. *)
Definition count_member (roomID channelID : string) (acc : Z * Z)
    (m : Member.MemberRecord) : Z * Z :=
  if str_empty roomID && str_empty channelID then acc
  else if negb (in_scope roomID channelID m) then acc
  else
    let membership := to_lower (trim_space (Member.Membership m)) in
    if str_eqb membership "join" then (acc.1 + 1, acc.2)
    else if str_eqb membership "pending" then (acc.1, acc.2 + 1)
    else acc.

Definition CountProductMembers s (roomID channelID : string) : Z * Z :=
  foldl (count_member roomID channelID) (0, 0) (go_values (members s)).

Definition CountJoinedMembers s (roomID channelID : string) : Z :=
  (CountProductMembers s roomID channelID).1.

(** ** Conversations ([memory_conversations.go]) *)

Definition mergeMemoryConversationUpdate (existing incoming : Conv.ConversationRecord)
    : Conv.ConversationRecord :=
  let r := incoming in
  let r := if 0 <? Conv.CreatedAt existing
           then Conv.set_CreatedAt (Conv.CreatedAt existing) r else r in
  let r := if str_empty (Conv.LastEventID r)
           then Conv.set_LastEventID (Conv.LastEventID existing) r else r in
  let r := if str_empty (Conv.LastMessage r)
           then Conv.set_LastMessage (Conv.LastMessage existing) r else r in
  let r := if Conv.LastActivityAt r <=? 0
           then Conv.set_LastActivityAt (Conv.LastActivityAt existing) r else r in
  let r := if negb (str_empty (Conv.CreatedByMXID existing))
           then Conv.set_CreatedByMXID (Conv.CreatedByMXID existing) r else r in
  let r := if str_empty (Conv.PeerMXID r)
           then Conv.set_PeerMXID (Conv.PeerMXID existing) r else r in
  let r := if str_empty (Conv.Title r)
           then Conv.set_Title (Conv.Title existing) r else r in
  if str_empty (Conv.AvatarURL r)
  then Conv.set_AvatarURL (Conv.AvatarURL existing) r else r.

(** File a normalised record, merged with what is stored under its id. *)
Definition file_conversation (m : gmap string Conv.ConversationRecord)
    (record : Conv.ConversationRecord) : gmap string Conv.ConversationRecord :=
  let record := match m !! Conv.ConversationID record with
                | Some existing => mergeMemoryConversationUpdate existing record
                | None => record
                end in
  <[Conv.ConversationID record := record]> m.

Definition kind_conflict (record existing : Conv.ConversationRecord) : bool :=
  str_eqb (Conv.MatrixRoomID existing) (Conv.MatrixRoomID record) &&
  negb (str_eqb (Conv.Kind existing) (Conv.Kind record)).

Definition UpsertConversation (now : Z) s (record : Conv.ConversationRecord)
    : tables * result goerror unit :=
  let record := NormalizeConversationRecord now record in
  match first_match (kind_conflict record) (go_values (conversations s)) with
  | Some existing =>
      (s, Err (ErrOther ("conversation kind conflict for room " +:+
             Conv.MatrixRoomID record +:+ ": existing " +:+ Conv.Kind existing +:+
             ", incoming " +:+ Conv.Kind record)))
  | None => (set_conversations (file_conversation (conversations s) record) s, Ok ())
  end.

Definition in_room (matrixRoomID : string) (kv : string * Conv.ConversationRecord) : bool :=
  str_eqb (Conv.MatrixRoomID kv.2) matrixRoomID.

Definition SetConversationCreator s (matrixRoomID creatorMXID : string)
    : tables * result goerror unit :=
  match first_match (in_room matrixRoomID) (go_range (conversations s)) with
  | Some (id, record) =>
      (set_conversations
         (<[id := Conv.set_CreatedByMXID creatorMXID record]> (conversations s)) s, Ok ())
  | None => (s, Err (ErrOther ("conversation not found for room " +:+ matrixRoomID)))
  end.

Definition GetConversationByID s (conversationID : string)
    : option Conv.ConversationRecord := conversations s !! conversationID.

Definition GetConversationByRoomID s (matrixRoomID : string)
    : option Conv.ConversationRecord :=
  snd <$> first_match (in_room matrixRoomID) (go_range (conversations s)).

Definition conversation_less (a b : Conv.ConversationRecord) : bool :=
  if Conv.LastActivityAt a =? Conv.LastActivityAt b then
    if Conv.UpdatedAt a =? Conv.UpdatedAt b
    then str_ltb (Conv.ConversationID a) (Conv.ConversationID b)
    else Conv.UpdatedAt b <? Conv.UpdatedAt a
  else Conv.LastActivityAt b <? Conv.LastActivityAt a.

Definition ListConversations s : list Conv.ConversationRecord :=
  stable_sort conversation_less
    (List.filter (fun r => negb (str_eqb (Conv.Lifecycle r) "deleted"))
       (go_values (conversations s))).

Definition DeleteConversationByRoomID s (matrixRoomID : string) : tables :=
  set_conversations
    (filter (fun kv => Conv.MatrixRoomID kv.2 <> matrixRoomID) (conversations s)) s.

(** ** Contacts ([memory_relationships.go]) *)

Definition UpsertContact s (contact : Contact.ContactRecord) : tables :=
  let kept :=
    if negb (str_empty (Contact.PeerMXID contact))
    then filter (fun kv => kv.1 = Contact.RoomID contact \/
                           Contact.PeerMXID kv.2 <> Contact.PeerMXID contact) (contacts s)
    else contacts s in
  set_contacts (<[Contact.RoomID contact := contact]> kept) s.

Definition with_peer (peer : string) (kv : string * Contact.ContactRecord) : bool :=
  str_eqb (Contact.PeerMXID kv.2) peer.

(** The entry the compare-and-swap is about, if it is the expected one. *)
Definition expected_contact s (expected : Contact.ContactRecord) : option string :=
  match first_match (with_peer (Contact.PeerMXID expected)) (go_range (contacts s)) with
  | None => None
  | Some (currentRoomID, current) =>
      if str_empty (Contact.PeerMXID current) ||
         negb (str_eqb (Contact.RoomID current) (Contact.RoomID expected)) ||
         negb (str_eqb (Contact.RequestID current) (Contact.RequestID expected)) ||
         negb (equal_fold (trim_space (Contact.Status current))
                 (trim_space (Contact.Status expected)))
      then None else Some currentRoomID
  end.

Definition CompareAndSwapContact s (contact expected : Contact.ContactRecord)
    : tables * bool :=
  match expected_contact s expected with
  | None => (s, false)
  | Some currentRoomID =>
      (set_contacts (<[Contact.RoomID contact := contact]>
         (delete currentRoomID (contacts s))) s, true)
  end.

Definition validateConversationRecord (now : Z) (record : Conv.ConversationRecord)
    : result goerror unit :=
  let record := NormalizeConversationRecord now record in
  if str_empty (Conv.ConversationID record)
  then Err (ErrOther "conversation_id is required")
  else if str_empty (Conv.MatrixRoomID record)
  then Err (ErrOther "matrix_room_id is required")
  else if str_empty (Conv.Kind record)
  then Err (ErrOther "conversation kind is required")
  else Ok ().

(** The conversations a contact's projection displaces. *)
Definition displaced (contact : Contact.ContactRecord) (r : Conv.ConversationRecord) : bool :=
  (str_eqb (Conv.MatrixRoomID r) (Contact.RoomID contact) &&
   negb (str_eqb (Conv.Kind r) "direct")) ||
  (negb (str_empty (Contact.PeerMXID contact)) && str_eqb (Conv.Kind r) "direct" &&
   str_eqb (Conv.PeerMXID r) (Contact.PeerMXID contact) &&
   negb (str_eqb (Conv.MatrixRoomID r) (Contact.RoomID contact))).

Definition CompareAndSwapContactProjection (now : Z) s
    (contact expected : Contact.ContactRecord) : tables * result goerror bool :=
  let conversation := NormalizeConversationRecord now (ConversationFromContact contact) in
  match validateConversationRecord now conversation with
  | Err e => (s, Err e)
  | Ok _ =>
      match expected_contact s expected with
      | None => (s, Ok false)
      | Some currentRoomID =>
          let s := set_contacts (<[Contact.RoomID contact := contact]>
                     (delete currentRoomID (contacts s))) s in
          let s := set_groups (delete (Contact.RoomID contact) (groups s)) s in
          let kept := filter (fun kv => displaced contact kv.2 = false) (conversations s) in
          (set_conversations (file_conversation kept conversation) s, Ok true)
      end
  end.

Definition ListContacts s : list Contact.ContactRecord := go_values (contacts s).

(** ** Blocks *)

Definition UpsertBlock s (block : Block.BlockRecord) : tables :=
  set_blocks (<[BlockKey (Block.TargetType block) (Block.TargetID block) := block]>
    (blocks s)) s.

Definition DeleteBlock s (targetType targetID : string) : tables * bool :=
  let key := BlockKey targetType targetID in
  (set_blocks (delete key (blocks s)) s, bool_decide (is_Some (blocks s !! key))).

Definition block_less (a b : Block.BlockRecord) : bool :=
  if negb (str_eqb (Block.TargetType a) (Block.TargetType b))
  then str_ltb (Block.TargetType a) (Block.TargetType b)
  else if negb (str_eqb (Block.DisplayName a) (Block.DisplayName b))
  then str_ltb (to_lower (Block.DisplayName a)) (to_lower (Block.DisplayName b))
  else str_ltb (Block.TargetID a) (Block.TargetID b).

Definition ListBlocks s : list Block.BlockRecord :=
  stable_sort block_less (go_values (blocks s)).

(** ** Groups and calls *)

Definition UpsertGroup s (group : Group.GroupRecord) : tables :=
  set_groups (<[Group.RoomID group := group]> (groups s)) s.

Definition DeleteGroup s (roomID : string) : tables :=
  set_groups (delete roomID (groups s)) s.

Definition ListGroups s : list Group.GroupRecord := go_values (groups s).

Definition GetGroupByRoom s (roomID : string) : option Group.GroupRecord :=
  if str_empty roomID then None else groups s !! roomID.

Definition joined_member (userID : string) (m : Member.MemberRecord) : bool :=
  str_eqb (Member.UserID m) userID && negb (memoryMemberHidden (Member.Membership m)) &&
  equal_fold (trim_space (Member.Membership m)) "join".

Definition ListJoinedGroupsForUser s (userID : string) : list Group.GroupRecord :=
  let joinedRooms : gset string :=
    foldl (fun (rooms : gset string) m =>
      if joined_member userID m && str_empty (Member.ChannelID m)
      then {[Member.RoomID m]} ∪ rooms else rooms) ∅ (go_values (members s)) in
  List.filter (fun g => bool_decide (Group.RoomID g ∈ joinedRooms)) (go_values (groups s)).

Definition UpsertCall s (call : Call.CallRecord) : tables :=
  set_calls (<[Call.CallID call := call]> (calls s)) s.

Definition ListCalls s (roomID : string) (activeOnly : bool) : list Call.CallRecord :=
  List.filter (fun call =>
    negb (negb (str_empty roomID) && negb (str_eqb (Call.RoomID call) roomID)) &&
    negb (activeOnly && TerminalCallState (Call.State call))) (go_values (calls s)).

(** ** Channels ([memory_channels.go]) *)

Definition UpsertChannel s (ch : Chan.Channel) : tables :=
  set_channels (<[Chan.ChannelID ch := ch]> (channels s)) s.

Definition DeleteChannel s (channelID : string) : tables :=
  set_channels (delete channelID (channels s)) s.

Definition ListChannels s : list Chan.Channel := go_values (channels s).

Definition GetChannelByIDOrRoom s (channelID roomID : string) : option Chan.Channel :=
  if str_empty channelID && str_empty roomID then None
  else first_match (fun ch =>
         (negb (str_empty channelID) && str_eqb (Chan.ChannelID ch) channelID) ||
         (negb (str_empty roomID) && str_eqb (Chan.RoomID ch) roomID))
         (go_values (channels s)).

Definition normalizeStoredProductMemberRole (role : string) : string :=
  if equal_fold (trim_space role) "owner" then "owner" else "member".

(** The two indexes of [ListJoinedChannelsForUser]: the last member visited
    for a channel or room wins. *)
Definition index_members (key : Member.MemberRecord -> string) (userID : string)
    (l : list Member.MemberRecord) : gmap string Member.MemberRecord :=
  foldl (fun (ix : gmap string Member.MemberRecord) m =>
    if joined_member userID m && negb (str_empty (key m)) then <[key m := m]> ix else ix) ∅ l.

Definition channel_for (m : Member.MemberRecord) (ch : Chan.Channel) : Chan.Channel :=
  let role := normalizeStoredProductMemberRole (Member.Role m) in
  Chan.set_IsOwned (equal_fold role "owner")
    (Chan.set_MemberStatus "join" (Chan.set_Role role ch)).

Definition ListJoinedChannelsForUser s (userID : string) : list Chan.Channel :=
  let byChannel := index_members Member.ChannelID userID (go_values (members s)) in
  let byRoom := index_members Member.RoomID userID (go_values (members s)) in
  omap (fun ch =>
    match byChannel !! Chan.ChannelID ch with
    | Some m => Some (channel_for m ch)
    | None => match byRoom !! Chan.RoomID ch with
              | Some m => Some (channel_for m ch)
              | None => None
              end
    end) (go_values (channels s)).

Fixpoint search_loop (query : string) (limit : Z) (results rest : list Chan.Channel)
    : list Chan.Channel :=
  match rest with
  | [] => results
  | ch :: rest =>
      let text := to_lower (Chan.ChannelID ch +:+ " " +:+ Chan.RoomID ch +:+ " " +:+
                            Chan.Name ch +:+ " " +:+ Chan.Description ch) in
      if negb (equal_fold (Chan.Visibility ch) "public") then
        search_loop query limit results rest
      else if negb (str_empty query) && negb (contains text query) then
        search_loop query limit results rest
      else
        let results := results ++ [ch] in
        if limit <=? Z.of_nat (length results) then results
        else search_loop query limit results rest
  end.

Definition SearchPublicChannels s (query : string) (limit : Z) : list Chan.Channel :=
  let limit := if (limit <=? 0) || (100 <? limit) then 20 else limit in
  search_loop (to_lower (trim_space query)) limit [] (go_values (channels s)).

Definition owned (key : Member.MemberRecord -> string) (userID : string)
    (l : list Member.MemberRecord) : gset string :=
  foldl (fun (ids : gset string) m =>
    if str_eqb (Member.UserID m) userID && negb (memoryMemberHidden (Member.Membership m)) &&
       equal_fold (Member.Role m) "owner" && negb (str_empty (key m))
    then {[key m]} ∪ ids else ids) ∅ l.

Definition channel_name_less (a b : Chan.Channel) : bool :=
  if str_eqb (Chan.Name a) (Chan.Name b) then str_ltb (Chan.ChannelID a) (Chan.ChannelID b)
  else str_ltb (Chan.Name a) (Chan.Name b).

Definition ListPublicChannelsForOwner s (userID : string) : list Chan.Channel :=
  let byChannel := owned Member.ChannelID userID (go_values (members s)) in
  let byRoom := owned Member.RoomID userID (go_values (members s)) in
  stable_sort channel_name_less
    (List.filter (fun ch =>
       (bool_decide (Chan.ChannelID ch ∈ byChannel) || bool_decide (Chan.RoomID ch ∈ byRoom)) &&
       equal_fold (Chan.Visibility ch) "public") (go_values (channels s))).

Definition UpsertChannelInviteGrant s (grant : Grant.ChannelInviteGrant) : tables :=
  set_inviteGrants (<[Grant.GrantID grant := grant]> (inviteGrants s)) s.

Definition grant_less (a b : Grant.ChannelInviteGrant) : bool :=
  if Grant.CreatedAt a =? Grant.CreatedAt b
  then str_ltb (Grant.GrantID a) (Grant.GrantID b)
  else Grant.CreatedAt b <? Grant.CreatedAt a.

Definition ListChannelInviteGrants s : list Grant.ChannelInviteGrant :=
  stable_sort grant_less (go_values (inviteGrants s)).

(** ** Favourites, follows and reactions ([memory_social.go]) *)

Definition UpsertFavorite s (favorite : Favorite.FavoriteRecord) : tables :=
  set_favorites (<[Favorite.ID favorite := favorite]> (favorites s)) s.

Definition FindFavoriteByEvent s (eventID roomID : string)
    : option Favorite.FavoriteRecord :=
  first_match (fun f =>
    negb (str_empty eventID || negb (str_eqb (Favorite.EventID f) eventID)) &&
    negb (negb (str_empty roomID) && negb (str_empty (Favorite.RoomID f)) &&
          negb (str_eqb (Favorite.RoomID f) roomID))) (go_values (favorites s)).

Definition ListFavorites s (messageType : string) : list Favorite.FavoriteRecord :=
  List.filter (fun f => str_empty messageType ||
                        str_eqb (Favorite.MessageType f) messageType)
    (go_values (favorites s)).

Definition DeleteFavorite s (id : Z) : tables :=
  set_favorites (delete id (favorites s)) s.

Definition UpsertFollow s (follow : Follow.FollowRecord) : tables :=
  set_follows (<[Follow.Domain follow := follow]> (follows s)) s.

Definition ListFollows s : list Follow.FollowRecord := go_values (follows s).

Definition DeleteFollow s (domain : string) : tables :=
  set_follows (delete domain (follows s)) s.

Definition memoryReactionKey (targetType targetID reaction userID : string) : string :=
  targetType +:+ "|" +:+ targetID +:+ "|" +:+ reaction +:+ "|" +:+ userID.

Definition UpsertReaction s (r : Reaction.ReactionRecord) : tables :=
  set_reactions
    (<[memoryReactionKey (Reaction.TargetType r) (Reaction.TargetID r)
         (Reaction.Reaction r) (Reaction.UserID r) := r]> (reactions s)) s.

Definition GetReaction s (targetType targetID reaction userID : string)
    : option Reaction.ReactionRecord :=
  reactions s !! memoryReactionKey targetType targetID reaction userID.

Definition DeactivateReactionByEventID s (eventID : string) : tables * bool :=
  match first_match (fun kv : string * Reaction.ReactionRecord =>
          str_eqb (Reaction.EventID kv.2) eventID && Reaction.Active kv.2)
          (go_range (reactions s)) with
  | Some (key, r) =>
      (set_reactions (<[key := Reaction.set_Active false r]> (reactions s)) s, true)
  | None => (s, false)
  end.

Definition CountActiveReactions s (targetType targetID reaction : string) : Z :=
  Z.of_nat (length (List.filter (fun r =>
    str_eqb (Reaction.TargetType r) targetType && str_eqb (Reaction.TargetID r) targetID &&
    str_eqb (Reaction.Reaction r) reaction && Reaction.Active r) (go_values (reactions s)))).

Definition ListReactions s (userID : string) : list Reaction.ReactionRecord :=
  List.filter (fun r => str_eqb (Reaction.UserID r) userID && Reaction.Active r)
    (go_values (reactions s)).

(** ** Read markers ([memory_portal.go]) *)

Definition readMarkerPositionAfter (candidate current : Marker.ReadMarker) : bool :=
  (Marker.TopologicalPosition current <? Marker.TopologicalPosition candidate) ||
  ((Marker.TopologicalPosition candidate =? Marker.TopologicalPosition current) &&
   (Marker.StreamPosition current <? Marker.StreamPosition candidate)).

Definition SaveReadMarker s (marker : Marker.ReadMarker) : tables :=
  let save := set_readMarks (<[Marker.RoomID marker := marker]> (readMarks s)) s in
  match readMarks s !! Marker.RoomID marker with
  | None => save
  | Some current => if readMarkerPositionAfter marker current then save else s
  end.

Definition GetReadMarker s (roomID : string) : option Marker.ReadMarker :=
  readMarks s !! roomID.

Definition ListReadMarkers s : list Marker.ReadMarker :=
  stable_sort (fun a b => str_ltb (Marker.RoomID a) (Marker.RoomID b))
    (go_values (readMarks s)).
End Ops.
End MemoryTables.
