(* ===== verification/MemoryTablesFacts.v ===== *)
(** * Correctness of the memory tables

    Read markers only move forward, there is one contact per peer, member
    generations are fenced, listings do not depend on the order of a map, and
    a room has conversations of one kind only. *)

From Stdlib Require Import Ascii String ZArith Lia.
From stdpp Require Import base tactics list gmap strings sorting.
From S2P Require Import Prelude GoStrings Values Domain Policy PolicyFacts MemoryTables.
Local Open Scope Z_scope.
Import T MemoryTables.

#[local] Opaque equal_fold to_lower trim_space ConversationIDForRoomID.

(** ** Read markers *)

(** Positions in a room, topological position first. *)
Definition pos_le (a b : Marker.ReadMarker) : Prop :=
  Marker.TopologicalPosition a < Marker.TopologicalPosition b \/
  (Marker.TopologicalPosition a = Marker.TopologicalPosition b /\
   Marker.StreamPosition a <= Marker.StreamPosition b).

Lemma pos_le_trans a b c : pos_le a b -> pos_le b c -> pos_le a c.
Proof. unfold pos_le. lia. Qed.

Lemma pos_le_refl a : pos_le a a.
Proof. unfold pos_le. lia. Qed.

Lemma after_spec a b :
  readMarkerPositionAfter a b = true <-> ~ pos_le a b.
Proof.
  unfold readMarkerPositionAfter, pos_le.
  rewrite orb_true_iff, andb_true_iff, Z.ltb_lt, Z.eqb_eq, Z.ltb_lt. lia.
Qed.

Lemma after_le a b : readMarkerPositionAfter a b = true -> pos_le b a.
Proof. rewrite after_spec. unfold pos_le. lia. Qed.

(** One save, seen from any room. *)
Lemma SaveReadMarker_step s m room :
  readMarks (SaveReadMarker s m) !! room =
  if str_eqb (Marker.RoomID m) room then
    match readMarks s !! room with
    | None => Some m
    | Some c => Some (if readMarkerPositionAfter m c then m else c)
    end
  else readMarks s !! room.
Proof.
  unfold SaveReadMarker. destruct (str_eqb (Marker.RoomID m) room) eqn:E; str_bool.
  - subst room. destruct (readMarks s !! Marker.RoomID m) as [c|] eqn:Ec.
    + destruct (readMarkerPositionAfter m c); [by cbn; rewrite lookup_insert_eq|done].
    + cbn. by rewrite lookup_insert_eq.
  - destruct (readMarks s !! Marker.RoomID m) as [c|]; [destruct (readMarkerPositionAfter m c)|];
      cbn; rewrite ?lookup_insert_ne by done; done.
Qed.

(** Read markers never move back and do not depend on the order of
    arrival: after any saves, the marker of a room is one of the markers saved
    for it (or the one stored before), and its position is at least that of
    every one of them. *)
Theorem read_marker_is_latest s ms room :
  let s' := foldl SaveReadMarker s ms in
  let seen m := readMarks s !! room = Some m \/ (m ∈ ms /\ Marker.RoomID m = room) in
  (forall m, seen m -> exists r, readMarks s' !! room = Some r /\ pos_le m r) /\
  (forall r, readMarks s' !! room = Some r -> seen r).
Proof.
  cbv zeta. induction ms as [|m ms IH] using rev_ind; cbn.
  { split; [|by left]. intros m [Hm|[Hm _]]; [|set_solver]. eauto using pos_le_refl. }
  rewrite foldl_app. cbn. rewrite SaveReadMarker_step. destruct IH as [IH1 IH2].
  destruct (str_eqb (Marker.RoomID m) room) eqn:E; str_bool.
  - destruct (readMarks (foldl SaveReadMarker s ms) !! room) as [c|] eqn:Ec.
    + split.
      * intros x Hx. eexists. split; [done|].
        assert (Hcase : pos_le x c \/ x = m).
        { destruct Hx as [Hx|[Hx Hr]].
          - destruct (IH1 x) as (r & [= <-] & ?); [by left|by left].
          - apply elem_of_app in Hx as [Hx| ->%list_elem_of_singleton]; [|by right].
            destruct (IH1 x) as (r & [= <-] & ?); [by right|by left]. }
        destruct (readMarkerPositionAfter m c) eqn:Ea.
        -- destruct Hcase as [Hc| ->]; [|apply pos_le_refl].
           eapply pos_le_trans; [done|]. by apply after_le.
        -- destruct Hcase as [Hc| ->]; [done|]. destruct (decide (pos_le m c)) as [?|Hn]; [done|].
           by apply after_spec in Hn; rewrite Hn in Ea.
      * intros r [= <-]. destruct (readMarkerPositionAfter m c); [right; set_solver|].
        destruct (IH2 c eq_refl) as [?|[? ?]]; [by left|right; set_solver].
    + split.
      * intros x [Hx|[Hx Hr]].
        -- destruct (IH1 x) as (? & ? & _); [by left|done].
        -- apply elem_of_app in Hx as [Hx| ->%list_elem_of_singleton]; [|eauto using pos_le_refl].
           destruct (IH1 x) as (? & ? & _); [by right|done].
      * intros r [= <-]. right. set_solver.
  - split.
    + intros x [Hx|[Hx Hr]]; [apply IH1; by left|].
      apply elem_of_app in Hx as [Hx| ->%list_elem_of_singleton]; [apply IH1; by right|done].
    + intros r Hr. destruct (IH2 r Hr) as [?|[? ?]]; [by left|right; set_solver].
Qed.

(** ** Contacts *)

Section Contacts.
Context `{GoRange}.
Implicit Types s : tables.

(** Contacts are filed under their room, and a peer has one contact. *)
Definition contacts_ok (m : gmap string Contact.ContactRecord) : Prop :=
  (forall k c, m !! k = Some c -> Contact.RoomID c = k) /\
  (forall k1 k2 c1 c2, m !! k1 = Some c1 -> m !! k2 = Some c2 ->
     Contact.PeerMXID c1 <> "" -> Contact.PeerMXID c1 = Contact.PeerMXID c2 -> k1 = k2).

(** Replacing all contacts of a peer by one keeps the table in order. *)
Lemma contacts_ok_insert m contact :
  contacts_ok m ->
  (Contact.PeerMXID contact <> "" -> forall k c, m !! k = Some c ->
     k <> Contact.RoomID contact -> Contact.PeerMXID c <> Contact.PeerMXID contact) ->
  contacts_ok (<[Contact.RoomID contact := contact]> m).
Proof.
  intros [Hk Hp] Hnew. split.
  - intros k c [[<- <-]|[_ Hc]]%lookup_insert_Some; [done|by apply Hk].
  - intros k1 k2 c1 c2 H1 H2 Hne Heq.
    apply lookup_insert_Some in H1 as [[<- <-]|[Hk1 H1]];
      apply lookup_insert_Some in H2 as [[<- <-]|[Hk2 H2]]; [done| | |by eapply Hp].
    + exfalso. by eapply (Hnew Hne k2 c2).
    + exfalso. rewrite Heq in Hne. by eapply (Hnew Hne k1 c1).
Qed.

Lemma contacts_ok_delete m k : contacts_ok m -> contacts_ok (delete k m).
Proof.
  intros [Hk Hp]. split; [intros k' c [_ ?]%lookup_delete_Some; eauto|].
  intros k1 k2 c1 c2 [_ H1]%lookup_delete_Some [_ H2]%lookup_delete_Some. eauto.
Qed.

Lemma UpsertContact_ok s contact :
  contacts_ok (contacts s) -> contacts_ok (contacts (UpsertContact s contact)).
Proof.
  intros [Hk Hp]. unfold UpsertContact. cbn.
  destruct (str_empty (Contact.PeerMXID contact)) eqn:E; cbn [negb]; str_bool.
  - apply contacts_ok_insert; done.
  - apply contacts_ok_insert.
    + split; [intros k c [? _]%map_lookup_filter_Some; eauto|].
      intros k1 k2 c1 c2 [H1 _]%map_lookup_filter_Some [H2 _]%map_lookup_filter_Some. eauto.
    + intros _ k c [_ [Hr|Hr]]%map_lookup_filter_Some Hne; [done|exact Hr].
Qed.

(** The stored contact is the one the caller expects. *)
Definition contact_matches s (expected : Contact.ContactRecord) (k : string) : Prop :=
  exists c, contacts s !! k = Some c /\ Contact.PeerMXID c = Contact.PeerMXID expected /\
    Contact.PeerMXID c <> "" /\ Contact.RoomID c = Contact.RoomID expected /\
    Contact.RequestID c = Contact.RequestID expected /\
    equal_fold (trim_space (Contact.Status c)) (trim_space (Contact.Status expected)) = true.

Lemma expected_contact_spec s expected k :
  contacts_ok (contacts s) ->
  expected_contact s expected = Some k <-> contact_matches s expected k.
Proof.
  intros [Hk Hp]. unfold expected_contact, contact_matches.
  destruct (first_match _ _) as [[k' c]|] eqn:Hf.
  - apply first_match_Some in Hf as [Hin Hpeer]. apply elem_of_go_range in Hin.
    unfold with_peer in Hpeer. cbn in Hpeer. str_bool. split.
    + destruct (_ || _) eqn:Eo; [done|]. intros [= <-]. str_bool. exists c. done.
    + intros (c' & Hc' & Hpc & Hne & Hroom & Hreq & Hst).
      assert (k' = k) as -> by (eapply Hp; [done|done|congruence|congruence]).
      simplify_eq. rewrite Hroom, Hreq, Hst, Hpeer.
      destruct (str_empty (Contact.PeerMXID expected)) eqn:E1; str_bool; [congruence|].
      rewrite !(proj2 (str_eqb_true _ _) eq_refl). done.
  - split; [done|]. intros (c' & Hc' & Hpc & _).
    apply (proj1 (first_match_None _ _)) with (x := (k, c')) in Hf; [|by apply elem_of_go_range].
    unfold with_peer in Hf. cbn in Hf. str_bool. done.
Qed.

(** The contact keeps its peer, as every caller of the swap does. *)
Lemma swap_ok s contact expected k :
  contacts_ok (contacts s) -> Contact.PeerMXID contact = Contact.PeerMXID expected ->
  contact_matches s expected k ->
  contacts_ok (<[Contact.RoomID contact := contact]> (delete k (contacts s))).
Proof.
  intros Hok Hpeer (c & Hc & Hpc & Hne & _). apply contacts_ok_insert; [by apply contacts_ok_delete|].
  intros _ k' c' [Hkk Hc']%lookup_delete_Some _ Heq. apply Hkk.
  destruct Hok as [_ Hp]. eapply Hp; [done|done|congruence|congruence].
Qed.

(** A contact compare-and-swap, with or without its projections, takes
    effect exactly when the peer's stored contact is in the expected room
    with the expected request and status (up to case), whatever order the
    table is visited in; it then replaces that entry and nothing else, and
    otherwise changes nothing. *)
Theorem contact_swap_exact s contact expected now :
  contacts_ok (contacts s) ->
  (forall k, contact_matches s expected k -> k = Contact.RoomID expected) /\
  (let r := CompareAndSwapContact s contact expected in
   (r.2 = true <-> contact_matches s expected (Contact.RoomID expected)) /\
   (r.2 = true -> contacts r.1 =
      <[Contact.RoomID contact := contact]> (delete (Contact.RoomID expected) (contacts s))) /\
   (r.2 = false -> r.1 = s)) /\
  (let r := CompareAndSwapContactProjection now s contact expected in
   r.2 = Ok true -> contact_matches s expected (Contact.RoomID expected) /\
     contacts r.1 = <[Contact.RoomID contact := contact]>
       (delete (Contact.RoomID expected) (contacts s)) /\
     groups r.1 = delete (Contact.RoomID contact) (groups s)) /\
  (let r := CompareAndSwapContactProjection now s contact expected in
   r.2 <> Ok true -> r.1 = s).
Proof.
  intros Hok. assert (Hroom : forall k, contact_matches s expected k -> k = Contact.RoomID expected).
  { intros k (c & Hc & _ & _ & Hr & _). destruct Hok as [Hk _]. rewrite <- Hr.
    symmetry. by apply Hk. }
  assert (Hex : match expected_contact s expected with
                | Some k => k = Contact.RoomID expected /\ contact_matches s expected k
                | None => ~ contact_matches s expected (Contact.RoomID expected) end).
  { destruct (expected_contact s expected) as [k|] eqn:E.
    - apply expected_contact_spec in E; [|done]. split; [by apply Hroom|done].
    - intros Hm. apply expected_contact_spec in Hm; [|done]. congruence. }
  split; [done|]. unfold CompareAndSwapContact, CompareAndSwapContactProjection.
  destruct (expected_contact s expected) as [k|].
  - destruct Hex as [-> Hm]. cbn. split_and!; try done.
    + destruct (validateConversationRecord now _); cbn; done.
    + destruct (validateConversationRecord now _); cbn; [|done]. intros Hne. done.
  - cbn. split_and!; try done.
    + destruct (validateConversationRecord now _); cbn; done.
    + destruct (validateConversationRecord now _); cbn; done.
Qed.

Inductive contact_op :=
| COUpsert (contact : Contact.ContactRecord)
| COSwap (contact expected : Contact.ContactRecord)
| COProject (now : Z) (contact expected : Contact.ContactRecord).

Definition contact_step s (op : contact_op) : tables :=
  match op with
  | COUpsert c => UpsertContact s c
  | COSwap c e => (CompareAndSwapContact s c e).1
  | COProject now c e => (CompareAndSwapContactProjection now s c e).1
  end.

Definition keeps_peer (op : contact_op) : Prop :=
  match op with
  | COUpsert _ => True
  | COSwap c e | COProject _ c e => Contact.PeerMXID c = Contact.PeerMXID e
  end.

Lemma contact_step_ok s op :
  keeps_peer op -> contacts_ok (contacts s) -> contacts_ok (contacts (contact_step s op)).
Proof.
  destruct op as [c|c e|now c e]; cbn [keeps_peer contact_step]; intros Hp Hok.
  - by apply UpsertContact_ok.
  - unfold CompareAndSwapContact. destruct (expected_contact s e) as [k|] eqn:E; cbn; [|done].
    apply expected_contact_spec in E; [|done]. by eapply swap_ok.
  - unfold CompareAndSwapContactProjection.
    destruct (validateConversationRecord _ _); cbn; [|done].
    destruct (expected_contact s e) as [k|] eqn:E; cbn; [|done].
    apply expected_contact_spec in E; [|done]. by eapply swap_ok.
Qed.

(** The contact table stays in order through any sequence of upserts
    and swaps that keep the peer: every contact is filed under its room and
    no peer has two contacts, so looking a peer up is unambiguous. *)
Theorem one_contact_per_peer s ops :
  contacts s = ∅ -> Forall keeps_peer ops ->
  contacts_ok (contacts (foldl contact_step s ops)).
Proof.
  intros He Hops. assert (Hok : contacts_ok (contacts s)).
  { rewrite He. split; intros *; by rewrite lookup_empty. }
  clear He. revert s Hok. induction Hops as [|op ops Hop _ IH]; intros s Hok; cbn; [done|].
  apply IH. by apply contact_step_ok.
Qed.
End Contacts.

(** ** Members *)

Section Members.
Context `{GoRange}.
Implicit Types s : tables.

(** Members are filed under their room and user. *)
Definition members_ok (m : gmap string Member.MemberRecord) : Prop :=
  forall k x, m !! k = Some x -> k = member_key x.

Inductive member_op :=
| MOUpsert (member : Member.MemberRecord)
| MOInsert (member : Member.MemberRecord)
| MOSwap (member : Member.MemberRecord) (requestID membership : string).

Definition member_step s (op : member_op) : tables :=
  match op with
  | MOUpsert m => UpsertMember s m
  | MOInsert m => (InsertMemberIfAbsent s m).1
  | MOSwap m r e => (CompareAndSwapMemberGeneration s m r e).1
  end.

Lemma members_ok_insert m x : members_ok m -> members_ok (<[member_key x := x]> m).
Proof. intros Hm k y [[<- <-]|[_ Hy]]%lookup_insert_Some; [done|by apply Hm]. Qed.

Lemma member_step_ok s op : members_ok (members s) -> members_ok (members (member_step s op)).
Proof.
  intros Hok. destruct op as [m|m|m r e]; cbn [member_step].
  - by apply members_ok_insert.
  - unfold InsertMemberIfAbsent. destruct (members s !! _); [done|]. by apply members_ok_insert.
  - unfold CompareAndSwapMemberGeneration. destruct (members s !! _) as [c|]; [|done].
    destruct (_ || _); [done|]. by apply members_ok_insert.
Qed.

(** The stored generation is the expected one. *)
Definition generation_matches (current : Member.MemberRecord) (requestID membership : string)
    : Prop :=
  Member.RequestID current = requestID /\
  (NormalizeMemberMembership membership = "" \/
   equal_fold (trim_space (Member.Membership current))
     (trim_space (NormalizeMemberMembership membership)) = true).

Lemma CAS_member_spec s m requestID membership :
  let k := member_key (normalizeMemberRecord m) in
  let r := CompareAndSwapMemberGeneration s m requestID membership in
  (exists c, members s !! k = Some c /\ generation_matches c requestID membership /\
     r = (set_members (<[k := normalizeMemberRecord m]> (members s)) s, true)) \/
  ((forall c, members s !! k = Some c -> ~ generation_matches c requestID membership) /\
   r = (s, false)).
Proof.
  cbv zeta. unfold CompareAndSwapMemberGeneration, generation_matches.
  destruct (members s !! _) as [c|]; [|right; done].
  destruct (str_eqb (Member.RequestID c) requestID) eqn:E1,
    (str_empty (NormalizeMemberMembership membership)) eqn:E2,
    (equal_fold (trim_space (Member.Membership c)) _) eqn:E3; cbn; str_bool;
    first [left; exists c; split; [done|]; split; [split; [done|]; auto|done]
          |right; split; [|done]; intros c' [= <-] [? [?|?]]; congruence].
Qed.

(** Generations of a membership have one winner: a swap succeeds
    exactly when the stored member carries the expected request and
    membership; after a swap to another request succeeded, every later swap
    of that member that still expects the old request fails and changes
    nothing; and an insert-if-absent never overwrites. *)
Theorem member_generation_fenced s m m' requestID e e' :
  let r := CompareAndSwapMemberGeneration s m requestID e in
  (r.2 = true <-> exists c, members s !! member_key m = Some c /\
                            generation_matches c requestID e) /\
  (r.2 = true -> members r.1 = <[member_key m := normalizeMemberRecord m]> (members s)) /\
  (r.2 = false -> r.1 = s) /\
  (r.2 = true -> Member.RequestID m <> requestID -> member_key m' = member_key m ->
     CompareAndSwapMemberGeneration r.1 m' requestID e' = (r.1, false)) /\
  (forall c, members s !! member_key m = Some c -> InsertMemberIfAbsent s m = (s, false)).
Proof.
  cbv zeta. assert (Hk : forall x, member_key (normalizeMemberRecord x) = member_key x) by done.
  destruct (CAS_member_spec s m requestID e) as [(c & Hc & Hm & Hr)|[Hno Hr]];
    cbv zeta in *; rewrite Hk in *; rewrite Hr; cbn [fst snd members set_members].
  - split_and!; try done; [split; [eauto|done]| |].
    + intros _ Hne Hkey.
      destruct (CAS_member_spec (set_members (<[member_key m := normalizeMemberRecord m]>
        (members s)) s) m' requestID e') as [(c' & Hc' & [Hreq _] & _)|[_ Hr']]; [|done].
      rewrite Hk, Hkey in Hc'. cbn in Hc'. rewrite lookup_insert_eq in Hc'.
      injection Hc' as <-. done.
    + intros c' Hc'. unfold InsertMemberIfAbsent. by rewrite Hk, Hc'.
  - split_and!; try done; [split; [done|]; by intros (c & Hc & Hm); destruct (Hno c)|].
    intros c Hc. unfold InsertMemberIfAbsent. by rewrite Hk, Hc.
Qed.
End Members.

(** *** Listing *)

(** Members without a join time come last. *)
Definition undated (m : Member.MemberRecord) : Prop := Member.JoinedAt m = 0.

Definition before (a b : Member.MemberRecord) : Prop :=
  (~ undated a /\ undated b) \/
  (~ undated a /\ ~ undated b /\ Member.JoinedAt a < Member.JoinedAt b) \/
  (Member.JoinedAt a = Member.JoinedAt b /\
   str_ltb (Member.UserID a) (Member.UserID b) = true).

Lemma member_less_spec a b : member_less a b = true <-> before a b.
Proof.
  unfold member_less, before, undated.
  destruct (Member.JoinedAt a =? Member.JoinedAt b) eqn:E; cbn [negb]; go_bool.
  - split; [auto|]. intros [?|[?|[_ ?]]]; [lia|lia|done].
  - destruct (Member.JoinedAt a =? 0) eqn:E1; go_bool; [split; [done|lia]|].
    destruct (Member.JoinedAt b =? 0) eqn:E2; go_bool; [split; [lia|done]|].
    rewrite Z.ltb_lt. lia.
Qed.

Lemma member_less_false a b : member_less a b = false <-> ~ before a b.
Proof. rewrite <- member_less_spec. by destruct (member_less a b). Qed.

Lemma member_less_asym a b : member_less a b = true -> member_less b a = false.
Proof.
  rewrite member_less_spec, member_less_false. unfold before, undated.
  intros Hab Hba. destruct (str_ltb (Member.UserID a) (Member.UserID b)) eqn:E.
  - apply str_ltb_asym in E. rewrite E in Hba. lia.
  - lia.
Qed.

Lemma member_less_trans a b c :
  not_after member_less a b -> not_after member_less b c -> not_after member_less a c.
Proof.
  unfold not_after. rewrite !member_less_false. unfold before, undated. intros Hba Hcb Hca.
  destruct (str_ltb (Member.UserID b) (Member.UserID a)) eqn:E1,
    (str_ltb (Member.UserID c) (Member.UserID b)) eqn:E2,
    (str_ltb (Member.UserID c) (Member.UserID a)) eqn:E3; try lia.
  destruct (str_ltb (Member.UserID a) (Member.UserID b)) eqn:E4.
  - rewrite (str_ltb_trans _ _ _ E3 E4) in E2. done.
  - rewrite (str_ltb_total _ _ E1 E4) in E2. congruence.
Qed.

Lemma sortMemoryMembers_sorted l :
  StronglySorted (not_after member_less) (sortMemoryMembers l).
Proof. apply stable_sort_sorted; [apply member_less_asym|apply member_less_trans]. Qed.

Lemma elem_of_ListMembers (G : GoRange) s roomID channelID m :
  roomID <> "" ->
  m ∈ @ListMembers G s roomID channelID <->
  (exists k, members s !! k = Some m) /\ Member.RoomID m = roomID /\
  (channelID <> "" -> Member.ChannelID m = channelID).
Proof.
  intros Hroom. unfold ListMembers, sortMemoryMembers. rewrite elem_of_stable_sort,
    !list_elem_of_In, List.filter_In, <- list_elem_of_In, elem_of_go_values. unfold in_scope.
  destruct (str_empty roomID) eqn:E1, (str_eqb (Member.RoomID m) roomID) eqn:E2,
    (str_empty channelID) eqn:E3, (str_eqb (Member.ChannelID m) channelID) eqn:E4;
    cbn; str_bool; split; try tauto; intros [? ?]; try done; split_and!; try done; tauto.
Qed.

(** Listing the members of a room does not depend on the order in which
    Go visits the table: any two visiting orders give the same list.  It holds
    exactly the members of the room (and of the channel, when one is given),
    ordered by join time with undated members last and by user id among
    equals. *)
Theorem list_members_deterministic (G1 G2 : GoRange) s roomID channelID :
  members_ok (members s) -> roomID <> "" ->
  @ListMembers G1 s roomID channelID = @ListMembers G2 s roomID channelID /\
  StronglySorted (fun a b => ~ before b a) (@ListMembers G1 s roomID channelID) /\
  (forall m, m ∈ @ListMembers G1 s roomID channelID <->
     (exists k, members s !! k = Some m) /\ Member.RoomID m = roomID /\
     (channelID <> "" -> Member.ChannelID m = channelID)).
Proof.
  intros Hok Hroom.
  pose proof (fun G m => elem_of_ListMembers G s roomID channelID m Hroom) as Hin.
  unfold ListMembers in *.
  split; [|split; [|apply Hin]].
  - eapply (StronglySorted_unique_strong (not_after member_less));
      [|apply sortMemoryMembers_sorted|apply sortMemoryMembers_sorted|].
    + intros a b [[ka Hka] [Hra _]]%Hin [[kb Hkb] [Hrb _]]%Hin Hab Hba.
      unfold not_after in *. apply member_less_false in Hab, Hba. unfold before, undated in *.
      assert (HJ : Member.JoinedAt a = Member.JoinedAt b) by lia.
      assert (HU : Member.UserID a = Member.UserID b).
      { apply str_ltb_total; [destruct (str_ltb (Member.UserID a) _) eqn:E; [|done]|
          destruct (str_ltb (Member.UserID b) _) eqn:E; [|done]]; exfalso; [apply Hba|apply Hab];
          right; right; done. }
      pose proof (Hok _ _ Hka) as ->. pose proof (Hok _ _ Hkb) as ->.
      assert (member_key a = member_key b) as Hkey
        by (unfold member_key; by rewrite Hra, Hrb, HU).
      rewrite Hkey in Hka. congruence.
    + unfold sortMemoryMembers. rewrite !stable_sort_perm. apply bool_filter_perm.
      by rewrite !go_values_perm.
  - eapply StronglySorted_ind with (P := fun l => StronglySorted (fun a b => ~ before b a) l);
      [constructor| |apply sortMemoryMembers_sorted].
    intros a l _ IH Hall. constructor; [done|]. eapply Forall_impl; [exact Hall|].
    intros b. unfold not_after. by rewrite member_less_false.
Qed.

(** ** Conversations *)

Section Conversations.
Context `{GoRange}.
Implicit Types (s : tables) (r existing incoming : Conv.ConversationRecord).

(** Conversations are filed under their id, and a room has one kind. *)
Definition conversations_ok (m : gmap string Conv.ConversationRecord) : Prop :=
  (forall k r, m !! k = Some r -> Conv.ConversationID r = k) /\
  (forall k1 k2 r1 r2, m !! k1 = Some r1 -> m !! k2 = Some r2 ->
     Conv.MatrixRoomID r1 = Conv.MatrixRoomID r2 -> Conv.Kind r1 = Conv.Kind r2).

(** What merging keeps and what it changes. *)
Lemma merge_fields existing incoming :
  let r := mergeMemoryConversationUpdate existing incoming in
  let keep (new old : string) := if str_empty new then old else new in
  Conv.ConversationID r = Conv.ConversationID incoming /\
  Conv.MatrixRoomID r = Conv.MatrixRoomID incoming /\
  Conv.Kind r = Conv.Kind incoming /\ Conv.Lifecycle r = Conv.Lifecycle incoming /\
  Conv.CreatedByMXID r =
    keep (Conv.CreatedByMXID existing) (Conv.CreatedByMXID incoming) /\
  Conv.PeerMXID r = keep (Conv.PeerMXID incoming) (Conv.PeerMXID existing) /\
  Conv.Title r = keep (Conv.Title incoming) (Conv.Title existing) /\
  Conv.AvatarURL r = keep (Conv.AvatarURL incoming) (Conv.AvatarURL existing) /\
  Conv.LastEventID r = keep (Conv.LastEventID incoming) (Conv.LastEventID existing) /\
  Conv.LastMessage r = keep (Conv.LastMessage incoming) (Conv.LastMessage existing) /\
  Conv.LastActivityAt r = (if Conv.LastActivityAt incoming <=? 0
                           then Conv.LastActivityAt existing
                           else Conv.LastActivityAt incoming) /\
  Conv.CreatedAt r = (if 0 <? Conv.CreatedAt existing then Conv.CreatedAt existing
                      else Conv.CreatedAt incoming) /\
  Conv.UpdatedAt r = Conv.UpdatedAt incoming /\
  Conv.ProjectionState r = Conv.ProjectionState incoming /\
  Conv.ProjectionReason r = Conv.ProjectionReason incoming.
Proof.
  cbv zeta. unfold mergeMemoryConversationUpdate.
  destruct (0 <? Conv.CreatedAt existing); cbn;
  destruct (str_empty (Conv.LastEventID incoming)); cbn;
  destruct (str_empty (Conv.LastMessage incoming)); cbn;
  destruct (Conv.LastActivityAt incoming <=? 0); cbn;
  destruct (str_empty (Conv.CreatedByMXID existing)); cbn;
  destruct (str_empty (Conv.PeerMXID incoming)); cbn;
  destruct (str_empty (Conv.Title incoming)); cbn;
  destruct (str_empty (Conv.AvatarURL incoming)); cbn; split_and!; reflexivity.
Qed.

Definition filed (m : gmap string Conv.ConversationRecord) r : Conv.ConversationRecord :=
  match m !! Conv.ConversationID r with
  | Some existing => mergeMemoryConversationUpdate existing r
  | None => r
  end.

Lemma filed_identity m r :
  Conv.ConversationID (filed m r) = Conv.ConversationID r /\
  Conv.MatrixRoomID (filed m r) = Conv.MatrixRoomID r /\ Conv.Kind (filed m r) = Conv.Kind r.
Proof.
  unfold filed. destruct (m !! _) as [existing|]; [|done].
  by destruct (merge_fields existing r) as (? & ? & ? & _).
Qed.

Lemma file_conversation_eq m r :
  file_conversation m r = <[Conv.ConversationID r := filed m r]> m.
Proof.
  unfold file_conversation. fold (filed m r). by rewrite (proj1 (filed_identity m r)).
Qed.

Lemma file_conversation_ok m r :
  conversations_ok m ->
  (forall k x, m !! k = Some x -> Conv.MatrixRoomID x = Conv.MatrixRoomID r ->
     Conv.Kind x = Conv.Kind r) ->
  conversations_ok (file_conversation m r).
Proof.
  intros [Hid Hkind] Hnew. rewrite file_conversation_eq.
  destruct (filed_identity m r) as (Hi & Hroom & Hk). split.
  - intros k x [[<- <-]|[_ Hx]]%lookup_insert_Some; [done|by apply Hid].
  - intros k1 k2 r1 r2 H1 H2 Heq.
    apply lookup_insert_Some in H1 as [[<- <-]|[_ H1]];
      apply lookup_insert_Some in H2 as [[<- <-]|[_ H2]]; [done| | |by eapply Hkind].
    + rewrite Hk. symmetry. eapply Hnew; [done|]. congruence.
    + rewrite Hk. eapply Hnew; [done|]. congruence.
Qed.

(** Some stored conversation of the room has another kind. *)
Definition conflicting s r : Prop :=
  exists k x, conversations s !! k = Some x /\ Conv.MatrixRoomID x = Conv.MatrixRoomID r /\
    Conv.Kind x <> Conv.Kind r.

Lemma UpsertConversation_cases now s r :
  let n := NormalizeConversationRecord now r in
  (conflicting s n /\ exists e, UpsertConversation now s r = (s, Err e)) \/
  (~ conflicting s n /\ UpsertConversation now s r =
     (set_conversations (file_conversation (conversations s) n) s, Ok ())).
Proof.
  cbv zeta. unfold UpsertConversation, conflicting.
  set (n := NormalizeConversationRecord now r).
  destruct (first_match _ _) as [x|] eqn:Hf.
  - left. apply first_match_Some in Hf as [Hin Hc]. apply elem_of_go_values in Hin as [k Hk].
    unfold kind_conflict in Hc. str_bool. split; [exists k, x; done|eauto].
  - right. split; [|done]. intros (k & x & Hx & Hroom & Hkind).
    apply (proj1 (first_match_None _ _)) with (x := x) in Hf;
      [|apply elem_of_go_values; eauto].
    unfold kind_conflict in Hf. rewrite Hroom in Hf.
    rewrite (proj2 (str_eqb_true _ _) eq_refl), (proj2 (str_eqb_false _ _)) in Hf; done.
Qed.

(** Upserting a conversation fails exactly when its room already has a
    conversation of another kind, and then changes nothing; otherwise it
    stores the normalised record under its id, keeping the creator and
    creation time once they are set and never blanking the peer, title,
    avatar, last event, last message or activity time. *)
Theorem conversation_upsert_effect now s record :
  let n := NormalizeConversationRecord now record in
  let out := UpsertConversation now s record in
  ((exists e, out.2 = Err e) <-> conflicting s n) /\
  (conflicting s n -> out.1 = s) /\
  (~ conflicting s n -> forall k,
     conversations out.1 !! k =
     if str_eqb k (Conv.ConversationID n) then Some (filed (conversations s) n)
     else conversations s !! k) /\
  (forall existing, conversations s !! Conv.ConversationID n = Some existing ->
     let f := filed (conversations s) n in
     (Conv.CreatedByMXID existing <> "" ->
        Conv.CreatedByMXID f = Conv.CreatedByMXID existing) /\
     (0 < Conv.CreatedAt existing -> Conv.CreatedAt f = Conv.CreatedAt existing) /\
     (Conv.LastEventID existing <> "" -> Conv.LastEventID f <> "") /\
     (Conv.LastMessage existing <> "" -> Conv.LastMessage f <> "") /\
     (Conv.PeerMXID existing <> "" -> Conv.PeerMXID f <> "") /\
     (Conv.Title existing <> "" -> Conv.Title f <> "") /\
     (Conv.AvatarURL existing <> "" -> Conv.AvatarURL f <> "") /\
     (0 < Conv.LastActivityAt existing -> 0 < Conv.LastActivityAt f)).
Proof.
  cbv zeta. set (n := NormalizeConversationRecord now record).
  assert (Hcases := UpsertConversation_cases now s record). cbv zeta in Hcases. fold n in Hcases.
  split_and!.
  - destruct Hcases as [[Hc [e ->]]|[Hc ->]]; cbn; [split; [done|eauto]|].
    split; [by intros [? ?]|done].
  - destruct Hcases as [[Hc [e ->]]|[Hc ->]]; done.
  - intros Hno k. destruct Hcases as [[Hc _]|[_ ->]]; [done|].
    cbn [fst conversations set_conversations]. rewrite file_conversation_eq. clearbody n.
    destruct (str_eqb k (Conv.ConversationID n)) eqn:E; str_bool.
    + rewrite E. exact (lookup_insert_eq _ _ _).
    + exact (lookup_insert_ne _ _ _ _ (not_eq_sym E)).
  - intros existing He. unfold filed. rewrite He.
    destruct (merge_fields existing n)
      as (_ & _ & _ & _ & -> & -> & -> & -> & -> & -> & -> & -> & _).
    split_and!;
      try (intros Hne; destruct (str_empty _) eqn:E; str_bool; congruence).
    + intros Hpos. by rewrite (proj2 (Z.ltb_lt _ _)).
    + intros Hpos. destruct (_ <=? 0) eqn:E; go_bool; lia.
Qed.

Inductive conversation_op :=
| VOUpsert (now : Z) (record : Conv.ConversationRecord)
| VOCreator (roomID creator : string)
| VODelete (roomID : string)
| VOProject (now : Z) (contact expected : Contact.ContactRecord).

Definition conversation_step s (op : conversation_op) : tables :=
  match op with
  | VOUpsert now r => (UpsertConversation now s r).1
  | VOCreator room creator => (SetConversationCreator s room creator).1
  | VODelete room => DeleteConversationByRoomID s room
  | VOProject now c e => (CompareAndSwapContactProjection now s c e).1
  end.

(** Projected contacts have canonical room ids. *)
Definition canonical_op (op : conversation_op) : Prop :=
  match op with
  | VOProject _ contact _ => trimmed (Contact.RoomID contact)
  | _ => True
  end.

Lemma conversations_ok_filter m (P : string * Conv.ConversationRecord -> Prop)
    `{!forall x, Decision (P x)} :
  conversations_ok m -> conversations_ok (filter P m).
Proof.
  intros [Hid Hk]. split; [intros k r [? _]%map_lookup_filter_Some; eauto|].
  intros k1 k2 r1 r2 [H1 _]%map_lookup_filter_Some [H2 _]%map_lookup_filter_Some. eauto.
Qed.

Lemma conversation_step_ok s op :
  canonical_op op -> conversations_ok (conversations s) ->
  conversations_ok (conversations (conversation_step s op)).
Proof.
  intros Hc Hok. destruct op as [now r|room creator|room|now c e]; cbn [conversation_step].
  - destruct (UpsertConversation_cases now s r) as [[_ [e ->]]|[Hno ->]]; [done|]. cbn.
    apply file_conversation_ok; [done|]. intros k x Hx Hroom.
    destruct (decide (Conv.Kind x = Conv.Kind (NormalizeConversationRecord now r))); [done|].
    exfalso. apply Hno. exists k, x. done.
  - unfold SetConversationCreator. destruct (first_match _ _) as [[id r]|] eqn:Hf; [|done].
    apply first_match_Some in Hf as [Hin _]. apply elem_of_go_range in Hin. cbn.
    destruct Hok as [Hid Hk]. split.
    + intros k x [[<- <-]|[_ Hx]]%lookup_insert_Some; [by apply (Hid id r)|eauto].
    + intros k1 k2 r1 r2 H1 H2 Heq.
      apply lookup_insert_Some in H1 as [[<- <-]|[_ H1]];
        apply lookup_insert_Some in H2 as [[<- <-]|[_ H2]]; [done| | |by eapply Hk].
      * by apply (Hk id k2 r r2).
      * by apply (Hk k1 id r1 r).
  - by apply conversations_ok_filter.
  - unfold CompareAndSwapContactProjection.
    destruct (validateConversationRecord _ _); [|done].
    destruct (expected_contact s e) as [k|]; [|done]. cbn.
    apply file_conversation_ok; [by apply conversations_ok_filter|].
    intros k' x [_ Hx]%map_lookup_filter_Some. cbn. rewrite Hc. intros Hroom.
    unfold displaced in Hx. cbn in Hx. apply orb_false_iff in Hx as [Hx _].
    rewrite Hroom, (proj2 (str_eqb_true _ _) eq_refl) in Hx. cbn in Hx. by str_bool.
Qed.

(** A room never has conversations of two kinds: through any sequence
    of upserts, creator updates, deletions and contact projections (for
    contacts whose room id has no surrounding space), conversations stay
    filed under their ids and all conversations of a room have the same
    kind. *)
Theorem conversation_kinds_consistent s ops :
  conversations s = ∅ -> Forall canonical_op ops ->
  let s' := foldl conversation_step s ops in
  (forall k r, conversations s' !! k = Some r -> Conv.ConversationID r = k) /\
  (forall k1 k2 r1 r2, conversations s' !! k1 = Some r1 -> conversations s' !! k2 = Some r2 ->
     Conv.MatrixRoomID r1 = Conv.MatrixRoomID r2 -> Conv.Kind r1 = Conv.Kind r2).
Proof.
  intros He Hops. assert (Hok : conversations_ok (conversations s)).
  { rewrite He. split; intros *; by rewrite lookup_empty. }
  clear He. revert s Hok. induction Hops as [|op ops Hop _ IH]; intros s Hok; cbn; [done|].
  apply IH. by apply conversation_step_ok.
Qed.
End Conversations.

(** ** Witnesses *)

Definition demo_contact (room status : string) : Contact.ContactRecord :=
  {| Contact.PeerMXID := "@b:x"; Contact.DisplayName := "B"; Contact.DisplayNameOverride := false;
     Contact.AvatarURL := ""; Contact.Domain := "x"; Contact.RoomID := room;
     Contact.Status := status; Contact.Remark := ""; Contact.RequestID := "q" |}.

Definition demo_ops : list contact_op :=
  [COUpsert (demo_contact "!1:x" "pending");
   COSwap (demo_contact "!2:x" "accepted") (demo_contact "!1:x" "pending")].

Lemma one_contact_per_peer_witness :
  contacts_ok (contacts (foldl contact_step NewMemoryStore demo_ops)).
Proof.
  refine (one_contact_per_peer NewMemoryStore demo_ops _ _); [reflexivity|].
  repeat constructor.
Defined.

Definition demo_tables : tables := UpsertContact NewMemoryStore (demo_contact "!1:x" "pending").

Lemma contact_swap_witness :
  let r := CompareAndSwapContact demo_tables (demo_contact "!2:x" "accepted")
             (demo_contact "!1:x" "pending") in
  (r.2 = true <-> contact_matches demo_tables (demo_contact "!1:x" "pending") "!1:x").
Proof.
  refine (proj1 (proj1 (proj2 (contact_swap_exact demo_tables (demo_contact "!2:x" "accepted")
    (demo_contact "!1:x" "pending") 0 _)))).
  apply UpsertContact_ok. split; intros *; cbn; by rewrite lookup_empty.
Defined.

Definition demo_member (user : string) (joined : Z) : Member.MemberRecord :=
  {| Member.RoomID := "!1:x"; Member.ChannelID := ""; Member.UserID := user;
     Member.DisplayName := ""; Member.AvatarURL := ""; Member.Domain := "";
     Member.Membership := "join"; Member.Role := "member"; Member.Muted := false;
     Member.JoinedAt := joined; Member.RequesterNodeBaseURL := ""; Member.RequestID := "" |}.

Definition demo_members : tables :=
  UpsertMember (UpsertMember NewMemoryStore (demo_member "@a:x" 0)) (demo_member "@b:x" 7).

Lemma list_members_witness :
  StronglySorted (fun a b => ~ before b a) (ListMembers demo_members "!1:x" "").
Proof.
  refine (proj1 (proj2 (list_members_deterministic map_to_list_range map_to_list_range
    demo_members "!1:x" "" _ _))); [|discriminate].
  apply (member_step_ok _ (MOUpsert _)), (member_step_ok _ (MOUpsert _)).
  intros k x Hk. cbn in Hk. by rewrite lookup_empty in Hk.
Defined.

Definition demo_conversation_ops : list conversation_op :=
  [VOUpsert 5 (ConversationFromContact (demo_contact "!1:x" "accepted")); VODelete "!2:x"].

Lemma conversation_kinds_witness :
  Forall canonical_op demo_conversation_ops /\
  (let s' := foldl conversation_step NewMemoryStore demo_conversation_ops in
   forall k1 k2 r1 r2, conversations s' !! k1 = Some r1 -> conversations s' !! k2 = Some r2 ->
     Conv.MatrixRoomID r1 = Conv.MatrixRoomID r2 -> Conv.Kind r1 = Conv.Kind r2).
Proof.
  assert (H : Forall canonical_op demo_conversation_ops) by repeat constructor.
  split; [exact H|].
  exact (proj2 (conversation_kinds_consistent NewMemoryStore demo_conversation_ops eq_refl H)).
Defined.
