(* ===== verification/Calls.v ===== *)
(** * Call sessions

    [Module Calls] models [p2p/internal/calls]: the lifecycle of a call record
    ([lifecycle.go]) and the handlers of the [calls.*] actions ([module.go])
    over any store that implements the class [CallStore].  The memory store is
    such a store.  A handler takes the time [now] and the generated call id
    that the configured functions return during the request, and holds the
    mutex of the module from its first store call to its last, so one call of
    a handler is one step. *)

From Stdlib Require Import Ascii String ZArith Lia.
From stdpp Require Import base tactics list gmap strings.
From S2P Require Import Prelude GoStrings Values Domain GoTime GoTimeParse Policy Action.
From S2P Require Import MemoryTables.
Local Open Scope Z_scope.

(** [calls.Store]: a call returns the new store with its result. *)
Class CallStore (S : Type) := {
  UpsertCall : S -> Call.CallRecord -> S * result goerror unit;
  ListCalls : S -> string -> bool -> result goerror (list Call.CallRecord);
}.

#[export] Instance memory_call_store `{GoRange} : CallStore T.tables := {
  UpsertCall s call := (MemoryTables.UpsertCall s call, Ok ());
  ListCalls s roomID activeOnly := Ok (MemoryTables.ListCalls s roomID activeOnly);
}.

Module Calls.
(** ** Lifecycle ([lifecycle.go]) *)

Fixpoint callTimeParam (values : list any) : string :=
  match values with
  | [] => ""
  | AString typed :: values =>
      let text := trim_space typed in
      if str_empty text then callTimeParam values
      else match parse_rfc3339nano text with
           | Some parsed => format_rfc3339nano parsed
           | None => callTimeParam values
           end
  | typed :: values =>
      let milliseconds := Params.Int64 typed in
      if 0 <? milliseconds then format_rfc3339nano (of_unix_milli milliseconds)
      else callTimeParam values
  end.

(** [Time.Sub] saturates; [Milliseconds] divides a duration that is not
    negative here. *)
Definition callDurationMS (start end_ : string) : Z :=
  match parse_rfc3339nano (trim_space start), parse_rfc3339nano (trim_space end_) with
  | Some startTime, Some endTime =>
      let duration := clamp64 (endTime - startTime) in
      if duration <? 0 then 0 else duration / 1000000
  | _, _ => 0
  end.

Definition fallback (value fallbackValue : string) : string :=
  if negb (str_empty value) then value else fallbackValue.

Definition terminal_event (event : string) : bool :=
  bool_decide (event ∈ ["ended"; "rejected"; "missed"; "failed"]).

Definition connect (params : content) (now : Z) (call : Call.CallRecord) : Call.CallRecord :=
  let answeredAt := callTimeParam [get params "answered_at"; get params "answered_at_ms"] in
  if negb (str_empty answeredAt) then Call.set_AnsweredAt answeredAt call
  else if str_empty (Call.AnsweredAt call)
  then Call.set_AnsweredAt (format_rfc3339nano now) call else call.

Definition finish (params : content) (now : Z) (localUserID : string)
    (call : Call.CallRecord) : Call.CallRecord :=
  let endedAt := callTimeParam [get params "ended_at"; get params "ended_at_ms"] in
  let call := if negb (str_empty endedAt) then Call.set_EndedAt endedAt call
              else if str_empty (Call.EndedAt call)
              then Call.set_EndedAt (format_rfc3339nano now) call else call in
  let call := Call.set_EndedByMXID
                (fallback (Params.get_string params "ended_by_mxid") localUserID) call in
  let call := Call.set_EndReason (Params.get_string params "reason") call in
  let durationMS := Params.get_int64 params "duration_ms" in
  if 0 <? durationMS then Call.set_DurationMS durationMS call
  else if Call.DurationMS call <=? 0
  then Call.set_DurationMS (callDurationMS (Call.AnsweredAt call) (Call.EndedAt call)) call
  else call.

Definition applyCallLifecycle (call : Call.CallRecord) (event : string) (params : content)
    (now : Z) (localUserID : string) : Call.CallRecord :=
  if str_eqb event "connected" then connect params now call
  else if terminal_event event then finish params now localUserID call
  else call.

(** ** Handlers ([module.go]) *)

(** The call as the JSON encoder writes it in an event payload. *)
Definition call_json (call : Call.CallRecord) : any :=
  let text name value := (name, AString value) in
  let optional name value := if str_empty value then [] else [text name value] in
  AMap ([text "call_id" (Call.CallID call); text "room_id" (Call.RoomID call);
         text "room_type" (Call.RoomType call); text "media_type" (Call.MediaType call);
         text "created_by_mxid" (Call.CreatedByMXID call); text "state" (Call.State call);
         text "created_at" (Call.CreatedAt call)] ++
        optional "answered_at" (Call.AnsweredAt call) ++
        optional "ended_at" (Call.EndedAt call) ++
        optional "ended_by_mxid" (Call.EndedByMXID call) ++
        optional "end_reason" (Call.EndReason call) ++
        (if Call.DurationMS call =? 0 then []
         else [("duration_ms", AInt64 (Call.DurationMS call))])).

Definition changed_event (call : Call.CallRecord) : Event.EventRecord :=
  {| Event.Seq := 0; Event.Type_ := "call.changed"; Event.RoomID := Call.RoomID call;
     Event.EventID := ""; Event.DedupeKey := "";
     Event.Payload := {["call" := call_json call]}; Event.CreatedAt := "" |}.

Record Config := {
  ServerName : string;
  OwnerMXID : string;
}.

Definition internal {A} (e : goerror) : result Api.Error A :=
  Err (Api.InternalError (error_text e)).

Section Module_.
Context {S : Type} `{CallStore S}.
(** The event boundary: [P] is the state behind [PublishEvent], which may
    be unset. *)
Context {P : Type} (PublishEvent : option (P -> Event.EventRecord -> P * result goerror unit)).
Context (m : Config).

Definition publishChanged (p : P) (call : Call.CallRecord) : P * result goerror unit :=
  match PublishEvent with
  | None => (p, Ok ())
  | Some publishEvent => publishEvent p (changed_event call)
  end.

(** [callByID]: the bool of the source is the option. *)
Definition callByID (s : S) (callID : string) : result goerror (option Call.CallRecord) :=
  match ListCalls s "" false with
  | Err e => Err e
  | Ok calls => Ok (first_match (fun call => str_eqb (Call.CallID call) callID) calls)
  end.

(** The end of both mutating handlers: store, then announce. *)
Definition commit (s : S) (p : P) (call : Call.CallRecord)
    : S * P * result Api.Error Call.CallRecord :=
  match UpsertCall s call with
  | (s, Err e) => (s, p, internal e)
  | (s, Ok _) =>
      match publishChanged p call with
      | (p, Err e) => (s, p, internal e)
      | (p, Ok _) => (s, p, Ok call)
      end
  end.

Definition new_call (params : content) (now : Z) (newCallID : string) : Call.CallRecord :=
  let callID := Params.get_string params "call_id" in
  let callID := if str_empty callID then newCallID else callID in
  let roomID := Params.get_string params "room_id" in
  let roomID := if str_empty roomID then "!call:" +:+ ServerName m else roomID in
  let createdAt := callTimeParam [get params "created_at"; get params "created_at_ms"] in
  let createdAt := if str_empty createdAt then format_rfc3339nano now else createdAt in
  {| Call.CallID := callID; Call.RoomID := roomID; Call.RoomType := "direct";
     Call.MediaType := fallback (Params.get_string params "media_type") "voice";
     Call.CreatedByMXID :=
       fallback (Params.get_string params "created_by_mxid") (OwnerMXID m);
     Call.State := fallback (Params.get_string params "event") "ringing";
     Call.CreatedAt := createdAt; Call.AnsweredAt := ""; Call.EndedAt := "";
     Call.EndedByMXID := ""; Call.EndReason := ""; Call.DurationMS := 0 |}.

Definition handleSession (now : Z) (newCallID : string) (s : S) (p : P) (params : content)
    : S * P * result Api.Error Call.CallRecord :=
  let call := new_call params now newCallID in
  let create :=
    commit s p (applyCallLifecycle call (Call.State call) params now (OwnerMXID m)) in
  match callByID s (Call.CallID call) with
  | Err e => (s, p, internal e)
  | Ok (Some existing) =>
      if TerminalCallState (Call.State existing) then (s, p, Ok existing) else create
  | Ok None => create
  end.

Definition handleGet (s : S) (params : content) : result Api.Error Call.CallRecord :=
  let callID := Params.get_string params "call_id" in
  if str_empty callID then Err (Api.BadRequest "call_id is required")
  else match callByID s callID with
       | Err e => internal e
       | Ok None => Err (Api.StatusError 404 "call not found")
       | Ok (Some call) => Ok call
       end.

Definition handleEvent (now : Z) (s : S) (p : P) (params : content)
    : S * P * result Api.Error Call.CallRecord :=
  let callID := Params.get_string params "call_id" in
  if str_empty callID then (s, p, Err (Api.BadRequest "call_id is required"))
  else
    let event := Params.get_string params "event" in
    if negb (str_eqb event "connected" || terminal_event event) then
      (s, p, Err (Api.BadRequest
         "event must be connected, ended, rejected, missed, or failed"))
    else match callByID s callID with
         | Err e => (s, p, internal e)
         | Ok None => (s, p, Err (Api.StatusError 404 "call not found"))
         | Ok (Some call) =>
             if TerminalCallState (Call.State call) && negb (str_eqb (Call.State call) event)
             then (s, p, Ok call)
             else
               let call := Call.set_State event call in
               let mediaType := Params.get_string params "media_type" in
               let call := if negb (str_empty mediaType)
                           then Call.set_MediaType mediaType call else call in
               commit s p (applyCallLifecycle call event params now (OwnerMXID m))
         end.

Definition listHandler (activeOnly : bool) (s : S) (params : content)
    : result Api.Error (list Call.CallRecord) :=
  match ListCalls s (Params.get_string params "room_id") activeOnly with
  | Err e => internal e
  | Ok calls => Ok calls
  end.

(** The mutating actions as requests arrive one after the other. *)
Inductive request :=
| CreateOrIncoming (now : Z) (newCallID : string) (params : content)
| CallEvent (now : Z) (params : content).

Definition serve (w : S * P) (r : request) : S * P :=
  match r with
  | CreateOrIncoming now newCallID params => (handleSession now newCallID w.1 w.2 params).1
  | CallEvent now params => (handleEvent now w.1 w.2 params).1
  end.
End Module_.
End Calls.
