(* ===== verification/CallsFacts.v ===== *)
(** * Correctness of call sessions

    The contract of a call store ([CallStoreLaws]), which the memory store
    meets, and what the handlers guarantee over any store that does: a call
    that has ended stays ended, the stored records are well formed, the
    announced records replay to the table, and the duration of a call. *)

From Stdlib Require Import Ascii String ZArith Lia.
From stdpp Require Import base tactics list gmap strings.
From S2P Require Import Prelude GoStrings Values Domain GoTime GoTimeParse Policy PolicyFacts.
From S2P Require Import Action MemoryTables Calls.
Local Open Scope Z_scope.
Import Calls.

#[local] Opaque trim_space to_lower format_rfc3339nano parse_rfc3339nano.

(** ** The contract *)

Class CallStoreLaws (S : Type) `{CallStore S} := {
  call_map : S -> gmap string Call.CallRecord;
  calls_valid : S -> Prop;
  calls_keyed : forall s id c, calls_valid s -> call_map s !! id = Some c -> Call.CallID c = id;
  upsert_law : forall s c, calls_valid s ->
    calls_valid (UpsertCall s c).1 /\
    match UpsertCall s c with
    | (s', Ok _) => call_map s' = <[Call.CallID c := c]> (call_map s)
    | (s', Err _) => call_map s' = call_map s
    end;
  list_law : forall s l, calls_valid s -> ListCalls s "" false = Ok l ->
    forall c, c ∈ l <-> exists id, call_map s !! id = Some c;
}.

Definition keyed (m : gmap string Call.CallRecord) : Prop :=
  forall id c, m !! id = Some c -> Call.CallID c = id.

Lemma keyed_insert m c : keyed m -> keyed (<[Call.CallID c := c]> m).
Proof. intros Hm id c'. rewrite lookup_insert_Some. intros [[<- <-]|[_ Hc]]; [done|by apply Hm]. Qed.

#[export] Instance memory_call_store_laws `{GoRange} : CallStoreLaws T.tables.
Proof.
  refine {| call_map s := T.calls s; calls_valid s := keyed (T.calls s) |}.
  - intros s id c Hs. apply Hs.
  - intros s c Hs. split; [by apply keyed_insert|done].
  - intros s l Hs [= <-] c. unfold MemoryTables.ListCalls. rewrite list_elem_of_In, filter_In, <- list_elem_of_In.
    rewrite elem_of_go_values. cbn. naive_solver.
Defined.

(** ** The lifecycle *)

(** A time the server wrote. *)
Definition server_time (x : string) : Prop := exists t, x = format_rfc3339nano t.

Lemma server_time_nonempty x : server_time x -> x <> "".
Proof.
  Transparent format_rfc3339nano.
  intros [t ->]. unfold format_rfc3339nano, format_bytes.
  destruct (civil_from_days _) as [[y mo] d].
  destruct (year_digits y); cbn; discriminate.
Qed.
#[local] Opaque format_rfc3339nano.

Lemma callTimeParam_time values :
  callTimeParam values = "" \/ server_time (callTimeParam values).
Proof.
  unfold server_time. induction values as [|v values IH]; [by left|].
  destruct v; cbn [callTimeParam];
    try (destruct (0 <? _); [right; eexists; reflexivity|exact IH]).
  destruct (str_empty _); [exact IH|].
  destruct (parse_rfc3339nano _); [right; eexists; reflexivity|exact IH].
Qed.

#[local] Arguments callTimeParam : simpl never.

Lemma callDurationMS_nonneg a b : 0 <= callDurationMS a b.
Proof.
  unfold callDurationMS. repeat case_match; try lia. go_bool. by apply Z.div_pos.
Qed.

(** The time a lifecycle field has after it was set from [values], if that
    gives a time, and else from the clock if it was empty. *)
Lemma stamped old values now :
  (old = "" \/ server_time old) ->
  let set := callTimeParam values in
  server_time (if negb (str_empty set) then set
               else if str_empty old then format_rfc3339nano now else old).
Proof.
  intros Hold set. destruct (callTimeParam_time values) as [Hset|Hset]; fold set in Hset.
  - rewrite Hset. cbn. destruct Hold as [->|Hold]; [by exists now|].
    pose proof (server_time_nonempty _ Hold) as Hne. apply str_empty_false in Hne.
    by rewrite Hne.
  - pose proof (server_time_nonempty _ Hset) as Hne. apply str_empty_false in Hne.
    by rewrite Hne.
Qed.

(** What the handlers keep true of a stored call. *)
Record well_formed (c : Call.CallRecord) : Prop := {
  created : server_time (Call.CreatedAt c);
  answered : Call.AnsweredAt c = "" \/ server_time (Call.AnsweredAt c);
  ended : Call.EndedAt c = "" \/ server_time (Call.EndedAt c);
  connected_answered : Call.State c = "connected" -> Call.AnsweredAt c <> "";
  terminal_ended : terminal_event (Call.State c) = true <-> Call.EndedAt c <> "";
  duration_nonneg : 0 <= Call.DurationMS c;
}.

(** The fields [connect] and [finish] leave alone. *)
Lemma connect_frame params now c :
  let f := connect params now c in f = Call.set_AnsweredAt (Call.AnsweredAt f) c.
Proof.
  unfold connect. destruct (negb _); [done|]. destruct (str_empty _); [done|]. by destruct c.
Qed.

Lemma finish_frame params now user c :
  let f := finish params now user c in
  f = Call.set_DurationMS (Call.DurationMS f) (Call.set_EndReason (Call.EndReason f)
        (Call.set_EndedByMXID (Call.EndedByMXID f) (Call.set_EndedAt (Call.EndedAt f) c))).
Proof.
  unfold finish. generalize (callTimeParam [get params "ended_at"; get params "ended_at_ms"]).
  generalize (Params.get_int64 params "duration_ms"). intros d t. cbv zeta.
  destruct (negb (str_empty t)), (str_empty (Call.EndedAt c)), (0 <? d); try case_match;
    by destruct c.
Qed.

Lemma connect_answered params now c :
  (Call.AnsweredAt c = "" \/ server_time (Call.AnsweredAt c)) ->
  server_time (Call.AnsweredAt (connect params now c)).
Proof.
  intros H. pose proof (stamped _ [get params "answered_at"; get params "answered_at_ms"] now H)
    as Ht. revert Ht. unfold connect. cbv zeta.
  by destruct (negb _); [|destruct (str_empty (Call.AnsweredAt c))].
Qed.

Lemma finish_ended params now user c :
  (Call.EndedAt c = "" \/ server_time (Call.EndedAt c)) ->
  server_time (Call.EndedAt (finish params now user c)).
Proof.
  intros H. pose proof (stamped _ [get params "ended_at"; get params "ended_at_ms"] now H)
    as Ht. revert Ht. unfold finish. cbv zeta.
  destruct (negb _); [|destruct (str_empty (Call.EndedAt c))]; by repeat case_match.
Qed.

Lemma finish_duration params now user c :
  0 <= Call.DurationMS c -> 0 <= Call.DurationMS (finish params now user c).
Proof.
  intros H. unfold finish. cbv zeta. case_match; [cbn; go_bool; lia|].
  case_match; [apply callDurationMS_nonneg|]. by repeat case_match.
Qed.

Lemma terminal_event_cases e :
  terminal_event e = true -> e = "ended" \/ e = "rejected" \/ e = "missed" \/ e = "failed".
Proof.
  unfold terminal_event. rewrite bool_decide_eq_true, !elem_of_cons, elem_of_nil. tauto.
Qed.

Lemma terminal_event_state e : terminal_event e = true -> TerminalCallState e = true.
Proof. by intros [->|[->|[->| ->]]]%terminal_event_cases; vm_compute. Qed.

(** Before the lifecycle is applied, an end time needs a terminal state. *)
Record startable (c : Call.CallRecord) : Prop := {
  start_created : server_time (Call.CreatedAt c);
  start_answered : Call.AnsweredAt c = "" \/ server_time (Call.AnsweredAt c);
  start_ended : Call.EndedAt c = "" \/ server_time (Call.EndedAt c);
  start_open : Call.EndedAt c <> "" -> terminal_event (Call.State c) = true;
  start_duration : 0 <= Call.DurationMS c;
}.

Lemma lifecycle_well_formed c params now user :
  startable c -> well_formed (applyCallLifecycle c (Call.State c) params now user).
Proof.
  intros [Hc Ha He Ho Hd]. unfold applyCallLifecycle.
  destruct (str_eqb (Call.State c) "connected") eqn:Econ; str_bool.
  - pose proof (connect_answered params now c Ha) as Ha'.
    rewrite connect_frame. split; cbn; try done; [by right| |].
    + intros _. by apply server_time_nonempty.
    + split; [by rewrite Econ|]. intros Hne. by apply Ho.
  - destruct (terminal_event (Call.State c)) eqn:Et.
    + pose proof (finish_ended params now user c He) as He'.
      pose proof (finish_duration params now user c Hd) as Hd'.
      rewrite finish_frame. split; cbn; try done; [by right|].
      split; [|done]. intros _. by apply server_time_nonempty.
    + split; try done. split; [congruence|]. intros Hne. specialize (Ho Hne). congruence.
Qed.

Lemma new_call_startable m params now id : startable (new_call m params now id).
Proof.
  unfold new_call. split; cbn; try done; [|by left|by left].
  destruct (callTimeParam_time [get params "created_at"; get params "created_at_ms"]) as [E|E].
  - rewrite E. cbn. by eexists.
  - pose proof (server_time_nonempty _ E) as Hne. apply str_empty_false in Hne.
    by rewrite Hne.
Qed.

(** ** One request *)

(** The record that the event [calls.event] leaves of a call it accepts. *)
Definition after_event (m : Config) (now : Z) (params : content) (call : Call.CallRecord)
    : Call.CallRecord :=
  let event := Params.get_string params "event" in
  let call := Call.set_State event call in
  let mediaType := Params.get_string params "media_type" in
  let call := if negb (str_empty mediaType) then Call.set_MediaType mediaType call else call in
  applyCallLifecycle call event params now (OwnerMXID m).

(** A call with this stored record may be replaced by a request in [event]. *)
Definition open_for (event : string) (call : Call.CallRecord) : Prop :=
  TerminalCallState (Call.State call) = false \/ Call.State call = event.

Lemma after_event_well_formed m now params c :
  well_formed c -> open_for (Params.get_string params "event") c ->
  well_formed (after_event m now params c).
Proof.
  intros [Hc Ha He Hco Ht Hd] Hopen. unfold after_event.
  set (event := Params.get_string params "event") in *.
  set (c' := if negb _ then _ else _).
  assert (Hstate : event = Call.State c') by (unfold c'; by case_match).
  rewrite Hstate at 1. apply lifecycle_well_formed.
  assert (Hso : Call.EndedAt c <> "" -> terminal_event event = true).
  { intros Hne. apply Ht in Hne. destruct Hopen as [Hopen| <-]; [|done].
    apply terminal_event_state in Hne. congruence. }
  unfold c'. case_match; by split.
Qed.

Lemma lifecycle_identity c event params now user :
  let f := applyCallLifecycle c event params now user in
  Call.CallID f = Call.CallID c /\ Call.RoomID f = Call.RoomID c /\
  Call.RoomType f = Call.RoomType c /\ Call.MediaType f = Call.MediaType c /\
  Call.CreatedByMXID f = Call.CreatedByMXID c /\ Call.State f = Call.State c /\
  Call.CreatedAt f = Call.CreatedAt c /\
  (event <> "connected" -> Call.AnsweredAt f = Call.AnsweredAt c).
Proof.
  cbv zeta. unfold applyCallLifecycle. destruct (str_eqb event "connected") eqn:E; str_bool.
  - rewrite connect_frame. by split_and!.
  - destruct (terminal_event event); [rewrite finish_frame|]; by split_and!.
Qed.

Section Handlers.
Context {S : Type} `{CallStoreLaws S}.
Context {P : Type} (PublishEvent : option (P -> Event.EventRecord -> P * result goerror unit)).
Context (m : Config).

Lemma callByID_spec s id o :
  calls_valid s -> callByID s id = Ok o -> call_map s !! id = o.
Proof using All.
  unfold callByID. intros Hs. destruct (ListCalls s "" false) as [l|] eqn:El; [|done].
  intros [= <-]. pose proof (list_law s l Hs El) as Hl.
  destruct (first_match _ l) as [c|] eqn:Ef.
  - apply first_match_Some in Ef as [Hin Hid]. str_bool.
    apply Hl in Hin as [id' Hid']. by rewrite <- Hid, (calls_keyed s id' c Hs Hid').
  - destruct (call_map s !! id) as [c|] eqn:Ec; [|done].
    pose proof (proj1 (first_match_None _ _) Ef c (proj2 (Hl c) (ex_intro _ id Ec))) as Hne.
    cbn in Hne. str_bool. by destruct Hne; apply (calls_keyed s id c Hs).
Qed.

(** A step writes nothing, or writes one record and announces it. *)
Definition unchanged (w w' : S * P) : Prop := call_map w'.1 = call_map w.1 /\ w'.2 = w.2.
Definition written (c : Call.CallRecord) (w w' : S * P) : Prop :=
  call_map w'.1 = <[Call.CallID c := c]> (call_map w.1) /\
  w'.2 = (publishChanged PublishEvent w.2 c).1.

Lemma commit_spec s p c :
  calls_valid s ->
  let w' := (commit PublishEvent s p c).1 in
  calls_valid w'.1 /\ (unchanged (s, p) w' \/ written c (s, p) w').
Proof using All.
  intros Hs. unfold commit. pose proof (upsert_law s c Hs) as [Hv Hm].
  destruct (UpsertCall s c) as [s' [[]|e]]; cbn in *; [|by split; [|left; split]].
  destruct (publishChanged PublishEvent p c) as [p' [[]|e]] eqn:Ep; cbn;
    (split; [done|right; split; [done|cbn; by rewrite Ep]]).
Qed.

(** The record a request writes when the stored record of its call is [o]. *)
Inductive writes : request -> option Call.CallRecord -> Call.CallRecord -> Prop :=
| writes_session now id params o :
    (forall c, o = Some c -> TerminalCallState (Call.State c) = false) ->
    let c := new_call m params now id in
    writes (CreateOrIncoming now id params) o
      (applyCallLifecycle c (Call.State c) params now (OwnerMXID m))
| writes_event now params c :
    open_for (Params.get_string params "event") c ->
    writes (CallEvent now params) (Some c) (after_event m now params c).

Lemma serve_spec w r :
  calls_valid w.1 ->
  let w' := serve PublishEvent m w r in
  calls_valid w'.1 /\
  (unchanged w w' \/
   exists c, writes r (call_map w.1 !! Call.CallID c) c /\ written c w w').
Proof using All.
  destruct w as [s p]. cbn [fst]. intros Hs. destruct r as [now id params|now params];
    cbn [serve fst snd].
  - unfold handleSession. set (c := new_call m params now id).
    set (c' := applyCallLifecycle c (Call.State c) params now (OwnerMXID m)).
    assert (Hid : Call.CallID c' = Call.CallID c) by apply lifecycle_identity.
    destruct (callByID s (Call.CallID c)) as [o|e] eqn:Eo; [|split; [exact Hs|left; split; reflexivity]].
    apply callByID_spec in Eo; [|done].
    pose proof (commit_spec s p c' Hs) as [Hv Hw].
    assert (Hcreate : (forall x, o = Some x -> TerminalCallState (Call.State x) = false) ->
      unchanged (s, p) (commit PublishEvent s p c').1 \/
      exists x, writes (CreateOrIncoming now id params) (call_map s !! Call.CallID x) x /\
                written x (s, p) (commit PublishEvent s p c').1).
    { intros Ho. destruct Hw as [Hw|Hw]; [by left|right]. exists c'. split; [|done].
      rewrite Hid, Eo. by apply writes_session. }
    destruct o as [x|]; [destruct (TerminalCallState (Call.State x)) eqn:Et|].
    + split; [exact Hs|left; split; reflexivity].
    + split; [done|]. apply Hcreate. by intros ? [= <-].
    + split; [done|]. by apply Hcreate.
  - unfold handleEvent. cbv zeta. destruct (str_empty _); [split; [exact Hs|left; split; reflexivity]|].
    destruct (negb _); [split; [exact Hs|left; split; reflexivity]|].
    destruct (callByID s _) as [[c|]|e] eqn:Eo; [|split; [exact Hs|left; split; reflexivity]..].
    apply callByID_spec in Eo; [|done].
    destruct (TerminalCallState (Call.State c) && _) eqn:Et; [split; [exact Hs|left; split; reflexivity]|].
    fold (after_event m now params c).
    pose proof (commit_spec s p (after_event m now params c) Hs) as [Hv [Hw|Hw]];
      (split; [done|]); [by left|right]. exists (after_event m now params c). split; [|done].
    assert (Call.CallID (after_event m now params c) = Params.get_string params "call_id") as ->.
    { unfold after_event. rewrite (proj1 (lifecycle_identity _ _ _ _ _)).
      case_match; cbn; by apply (calls_keyed s _ c Hs). }
    rewrite Eo. apply writes_event. unfold open_for.
    destruct (TerminalCallState (Call.State c)); [right|by left]. cbn in Et. go_bool. by str_bool.
Qed.

Lemma serve_valid w r : calls_valid w.1 -> calls_valid (serve PublishEvent m w r).1.
Proof using All. intros Hw. by apply serve_spec. Qed.

(** What a stored record keeps once its call is over. *)
Definition same_outcome (c c' : Call.CallRecord) : Prop :=
  Call.State c' = Call.State c /\ Call.CallID c' = Call.CallID c /\
  Call.RoomID c' = Call.RoomID c /\ Call.RoomType c' = Call.RoomType c /\
  Call.CreatedByMXID c' = Call.CreatedByMXID c /\ Call.CreatedAt c' = Call.CreatedAt c /\
  Call.AnsweredAt c' = Call.AnsweredAt c.

Lemma after_event_outcome now params c :
  TerminalCallState (Call.State c) = true ->
  open_for (Params.get_string params "event") c ->
  same_outcome c (after_event m now params c).
Proof using Type.
  intros Ht [Hopen|Hopen]; [congruence|]. unfold after_event.
  set (c' := if negb _ then _ else _).
  pose proof (lifecycle_identity c' (Params.get_string params "event") params now (OwnerMXID m))
    as (H1 & H2 & H3 & _ & H5 & H6 & H7 & H8). cbv zeta in *.
  assert (Hcon : Params.get_string params "event" <> "connected").
  { rewrite <- Hopen. intros E. rewrite E in Ht. by vm_compute in Ht. }
  specialize (H8 Hcon). unfold same_outcome.
  rewrite H1, H2, H3, H5, H6, H7, H8, Hopen. unfold c'. case_match; by split_and!.
Qed.

Lemma serve_terminal w r id c :
  calls_valid w.1 -> call_map w.1 !! id = Some c -> TerminalCallState (Call.State c) = true ->
  exists c', call_map (serve PublishEvent m w r).1 !! id = Some c' /\ same_outcome c c'.
Proof using All.
  intros Hw Hc Ht. destruct (serve_spec w r Hw) as [_ [[E _]|(x & Hx & E & _)]]; rewrite E.
  { exists c. by split. }
  destruct (decide (Call.CallID x = id)) as [<-|Hne].
  - rewrite Hc in Hx. exists x. split; [apply lookup_insert_eq|].
    inversion Hx as [? ? ? ? Ho|? ? ? Ho]; subst; [by rewrite (Ho c) in Ht|].
    by apply after_event_outcome.
  - exists c. by rewrite lookup_insert_ne.
Qed.

(** A finished call stays finished: whatever sequence of create,
    incoming and event requests follows, a call whose stored state is
    terminal keeps that state, its room, its creator and the times at which
    it was created and answered. *)
Theorem terminal_call_is_final w rs id c :
  calls_valid w.1 -> call_map w.1 !! id = Some c -> TerminalCallState (Call.State c) = true ->
  exists c', call_map (foldl (serve PublishEvent m) w rs).1 !! id = Some c' /\
             same_outcome c c'.
Proof using All.
  revert w c. induction rs as [|r rs IH]; intros w c Hw Hc Ht; cbn.
  { exists c. by split. }
  destruct (serve_terminal w r id c Hw Hc Ht) as (c1 & Hc1 & Ho1).
  destruct (IH (serve PublishEvent m w r) c1) as (c2 & Hc2 & Ho2);
    [by apply serve_valid|done|by rewrite (proj1 Ho1)|].
  exists c2. split; [done|]. unfold same_outcome in *. intuition congruence.
Qed.

(** The stored calls are well formed after any requests: times are
    empty or as the server formats them, a connected call has an answer
    time, a call has an end time exactly when its state is one of the four
    terminal events, and no duration is negative. *)
Theorem call_records_well_formed w rs :
  calls_valid w.1 -> (forall id c, call_map w.1 !! id = Some c -> well_formed c) ->
  forall id c, call_map (foldl (serve PublishEvent m) w rs).1 !! id = Some c ->
    Call.CallID c = id /\ well_formed c.
Proof using All.
  revert w. induction rs as [|r rs IH]; intros w Hw Hwf; cbn.
  { intros id c Hc. split; [by eapply calls_keyed|by eapply Hwf]. }
  apply IH; [by apply serve_valid|].
  destruct (serve_spec w r Hw) as [_ [[E _]|(x & Hx & E & _)]]; rewrite E; [done|].
  intros id c [[_ <-]|[_ Hc]]%lookup_insert_Some; [|by eapply Hwf].
  inversion Hx as [? ? ? ? _|? ? c0 Ho Eo]; subst.
  - apply lifecycle_well_formed, new_call_startable.
  - apply after_event_well_formed; [|done]. by eapply Hwf.
Qed.

(** C34.  The table can be rebuilt from the announcements: any requests
    write a list of records, and exactly these, in this order, are handed to
    the event publisher as [call.changed]. *)
Theorem announced_records_rebuild_table w rs :
  calls_valid w.1 ->
  exists cs,
    call_map (foldl (serve PublishEvent m) w rs).1
      = foldl (fun t c => <[Call.CallID c := c]> t) (call_map w.1) cs /\
    (foldl (serve PublishEvent m) w rs).2
      = foldl (fun p c => (publishChanged PublishEvent p c).1) w.2 cs.
Proof using All.
  revert w. induction rs as [|r rs IH]; intros w Hw; cbn.
  { by exists []. }
  destruct (IH (serve PublishEvent m w r) (serve_valid w r Hw)) as (cs & Ht & Hp).
  destruct (serve_spec w r Hw) as [_ [[E1 E2]|(x & _ & E1 & E2)]].
  - exists cs. by rewrite Ht, Hp, E1, E2.
  - exists (x :: cs). cbn. by rewrite Ht, Hp, E1, E2.
Qed.
End Handlers.

(** Ending an answered call: when the request gives neither an end time
    nor a duration and the call has none, the end is the server's clock and the
    duration is the time since the answer in whole milliseconds, 0 when the
    clock is before the answer. *)
Theorem ended_call_duration call event params now user t :
  terminal_event event = true -> Call.EndedAt call = "" -> Call.DurationMS call <= 0 ->
  Call.AnsweredAt call = format_rfc3339nano t ->
  callTimeParam [get params "ended_at"; get params "ended_at_ms"] = "" ->
  Params.get_int64 params "duration_ms" <= 0 ->
  four_digit_year t -> four_digit_year now -> now - t <= int64_max ->
  let call' := applyCallLifecycle call event params now user in
  Call.EndedAt call' = format_rfc3339nano now /\
  Call.DurationMS call' = Z.max 0 (now - t) / 1000000.
Proof.
  intros Hev Hend Hdur Hans Hp Hd Ht Hn Hmax. unfold applyCallLifecycle.
  destruct (str_eqb event "connected") eqn:E; str_bool.
  { subst event. by vm_compute in Hev. }
  rewrite Hev. unfold finish. cbv zeta. rewrite Hp, Hend. change (str_empty "") with true.
  cbn [negb]. destruct (Z.ltb_spec 0 (Params.get_int64 params "duration_ms")); [lia|].
  destruct (Z.leb_spec (Call.DurationMS (Call.set_EndReason (Params.get_string params "reason")
    (Call.set_EndedByMXID (fallback (Params.get_string params "ended_by_mxid") user)
       (Call.set_EndedAt (format_rfc3339nano now) call)))) 0) as [_|Hx]; [|cbn in Hx; lia].
  split; [done|]. cbn [Call.DurationMS Call.set_DurationMS].
  change (callDurationMS (Call.AnsweredAt call) (format_rfc3339nano now)
          = Z.max 0 (now - t) / 1000000).
  rewrite Hans. unfold callDurationMS. rewrite !format_trimmed, !parse_format by done.
  unfold clamp64, int64_min, int64_max in *. case_match; go_bool.
  - rewrite Z.max_l by lia. done.
  - f_equal. lia.
Qed.

(** ** Instances on a concrete call *)

Definition demo_call (state answered ended : string) : Call.CallRecord :=
  {| Call.CallID := "c1"; Call.RoomID := "!r:x"; Call.RoomType := "direct";
     Call.MediaType := "voice"; Call.CreatedByMXID := "@o:x"; Call.State := state;
     Call.CreatedAt := "2026-01-01T00:00:00Z"; Call.AnsweredAt := answered;
     Call.EndedAt := ended; Call.EndedByMXID := ""; Call.EndReason := "";
     Call.DurationMS := 0 |}.

Definition demo_calls (c : Call.CallRecord) : T.tables :=
  T.set_calls {[Call.CallID c := c]} T.NewMemoryStore.

Definition demo_config' : Config := {| ServerName := "x"; OwnerMXID := "@o:x" |}.
Definition recorder (log : list Event.EventRecord) (e : Event.EventRecord)
  : list Event.EventRecord * result goerror unit := (log ++ [e], Ok ()).

Definition demo_requests : list request :=
  [CallEvent 1767225600000000000 {["call_id" := AString "c1"; "event" := AString "connected"]};
   CreateOrIncoming 1767225601000000000 "c2" {["call_id" := AString "c1"]}].

Lemma demo_keyed c : calls_valid (demo_calls c).
Proof. intros id c'. cbn. by intros [<- <-]%lookup_singleton_Some. Qed.

Lemma demo_lookup c : call_map (demo_calls c) !! Call.CallID c = Some c.
Proof. apply lookup_singleton_eq. Qed.

Lemma terminal_call_witness :
  let c := demo_call "ended" "" "2026-01-01T00:00:01Z" in
  exists c', call_map (foldl (serve (Some recorder) demo_config') (demo_calls c, []) demo_requests).1
               !! "c1" = Some c' /\ same_outcome c c'.
Proof.
  intros c. refine (terminal_call_is_final (Some recorder) demo_config' (demo_calls c, [])
    demo_requests "c1" c (demo_keyed c) (demo_lookup c) _). vm_compute. reflexivity.
Defined.

Lemma call_records_witness :
  calls_valid T.NewMemoryStore /\
  forall id c, call_map (foldl (serve (Some recorder) demo_config') (T.NewMemoryStore, [])
    demo_requests).1 !! id = Some c -> Call.CallID c = id /\ well_formed c.
Proof.
  assert (H : calls_valid T.NewMemoryStore).
  { intros id c. cbn. rewrite lookup_empty. discriminate. }
  split; [exact H|].
  refine (call_records_well_formed (Some recorder) demo_config' (T.NewMemoryStore, [])
            demo_requests H _).
  intros id c. cbn. rewrite lookup_empty. discriminate.
Defined.

Lemma announced_records_witness :
  let c := demo_call "ringing" "" "" in
  exists cs,
    call_map (foldl (serve (Some recorder) demo_config') (demo_calls c, []) demo_requests).1
      = foldl (fun t c => <[Call.CallID c := c]> t) (call_map (demo_calls c)) cs /\
    (foldl (serve (Some recorder) demo_config') (demo_calls c, []) demo_requests).2
      = foldl (fun p c => (publishChanged (Some recorder) p c).1) [] cs.
Proof.
  intros c. exact (announced_records_rebuild_table (Some recorder) demo_config'
    (demo_calls c, []) demo_requests (demo_keyed c)).
Defined.

Lemma ended_call_witness :
  let call := demo_call "connected" (format_rfc3339nano 1767225600000000000) "" in
  let call' := applyCallLifecycle call "ended" ∅ 1767225661500000000 "@o:x" in
  Call.EndedAt call' = format_rfc3339nano 1767225661500000000 /\
  Call.DurationMS call' = Z.max 0 (1767225661500000000 - 1767225600000000000) / 1000000.
Proof.
  intros call.
  refine (ended_call_duration call "ended" ∅ 1767225661500000000 "@o:x" 1767225600000000000
            _ _ _ _ _ _ _ _ _); try reflexivity; try (vm_compute; discriminate);
    split; vm_compute; [discriminate|reflexivity|discriminate|reflexivity].
Defined.
