(* ===== verification/ChannelContent.v ===== *)
(** * Channel posts and comments of the memory store

    [p2p/storage/memory_channel_content.go]: the post and comment tables, the
    settings an owner gives a post, and the pages clients read.  A slice
    expression with a bound out of range panics in Go; the page functions
    return [None] there. *)

From Stdlib Require Import Ascii String ZArith Lia.
From stdpp Require Import base tactics list gmap strings.
From S2P Require Import Prelude GoStrings Values Domain.
Local Open Scope Z_scope.

Module ChannelContent.
Record store := mk {
  posts : list Post.ChannelPostRecord;
  comments : list Comment.ChannelCommentRecord;
  postSettings : gmap string PostSettings.ChannelPostSettingsRecord;
}.

Definition set_posts (v : list Post.ChannelPostRecord) (s : store) : store :=
  {| posts := v; comments := comments s; postSettings := postSettings s |}.
Definition set_comments (v : list Comment.ChannelCommentRecord) (s : store) : store :=
  {| posts := posts s; comments := v; postSettings := postSettings s |}.

Definition empty : store := {| posts := []; comments := []; postSettings := ∅ |}.

Definition normalizeChannelPostRecord (record : Post.ChannelPostRecord)
    : Post.ChannelPostRecord :=
  let record := Post.set_Visibility
                  (NormalizeChannelPostVisibility (Post.Visibility record)) record in
  if Post.CommentsEnabledSet record then record
  else Post.set_CommentsEnabledSet true (Post.set_CommentsEnabled true record).

(** The four assignments that give a post explicit settings. *)
Definition with_settings (visibility : string) (commentsEnabled : bool)
    (post : Post.ChannelPostRecord) : Post.ChannelPostRecord :=
  Post.set_SettingsUpdated true (Post.set_CommentsEnabledSet true
    (Post.set_CommentsEnabled commentsEnabled (Post.set_Visibility visibility post))).

(** The loop of [InsertChannelPost]: replace the first post with the id,
    keeping its explicit settings, or append. *)
Fixpoint put_post (post : Post.ChannelPostRecord) (l : list Post.ChannelPostRecord)
    : list Post.ChannelPostRecord :=
  match l with
  | [] => [post]
  | p :: l =>
      if str_eqb (Post.PostID p) (Post.PostID post) then
        (if Post.SettingsUpdated p
         then with_settings (Post.Visibility p) (Post.CommentsEnabled p) post
         else post) :: l
      else p :: put_post post l
  end.

Definition InsertChannelPost (s : store) (post : Post.ChannelPostRecord) : store :=
  let post := normalizeChannelPostRecord post in
  let post := match postSettings s !! Post.PostID post with
              | Some settings =>
                  if str_eqb (PostSettings.PostEventID settings) (Post.EventID post)
                  then with_settings (PostSettings.Visibility settings)
                         (PostSettings.CommentsEnabled settings) post
                  else post
              | None => post
              end in
  set_posts (put_post post (posts s)) s.

(** The loop of [ApplyChannelPostSettings], which stops at the first match. *)
Fixpoint settle_post (settings : PostSettings.ChannelPostSettingsRecord)
    (l : list Post.ChannelPostRecord) : list Post.ChannelPostRecord :=
  match l with
  | [] => []
  | p :: l =>
      if str_eqb (Post.PostID p) (PostSettings.PostID settings) &&
         str_eqb (Post.EventID p) (PostSettings.PostEventID settings)
      then with_settings (PostSettings.Visibility settings)
             (PostSettings.CommentsEnabled settings) p :: l
      else p :: settle_post settings l
  end.

Definition normalize_settings (settings : PostSettings.ChannelPostSettingsRecord)
    : PostSettings.ChannelPostSettingsRecord :=
  {| PostSettings.PostID := trim_space (PostSettings.PostID settings);
     PostSettings.ChannelID := PostSettings.ChannelID settings;
     PostSettings.RoomID := PostSettings.RoomID settings;
     PostSettings.PostEventID := trim_space (PostSettings.PostEventID settings);
     PostSettings.Visibility :=
       NormalizeChannelPostVisibility (PostSettings.Visibility settings);
     PostSettings.CommentsEnabled := PostSettings.CommentsEnabled settings;
     PostSettings.UpdatedAt := PostSettings.UpdatedAt settings |}.

Definition ApplyChannelPostSettings (s : store)
    (settings : PostSettings.ChannelPostSettingsRecord) : store :=
  let settings := normalize_settings settings in
  let apply := {| posts := settle_post settings (posts s); comments := comments s;
                  postSettings := <[PostSettings.PostID settings := settings]>
                                    (postSettings s) |} in
  match postSettings s !! PostSettings.PostID settings with
  | Some current =>
      if PostSettings.UpdatedAt settings <? PostSettings.UpdatedAt current then s else apply
  | None => apply
  end.

(** [want == "" || have == want] *)
Definition scoped (want have : string) : bool := str_empty want || str_eqb have want.

Definition GetChannelPostByID (s : store) (postID channelID : string)
    : option Post.ChannelPostRecord :=
  if str_empty postID then None
  else first_match (fun post => str_eqb (Post.PostID post) postID &&
                                scoped channelID (Post.ChannelID post)) (posts s).

Definition GetChannelPostByEventID (s : store) (eventID channelID : string)
    : option Post.ChannelPostRecord :=
  if str_empty eventID then None
  else first_match (fun post => str_eqb (Post.EventID post) eventID &&
                                scoped channelID (Post.ChannelID post)) (posts s).

Definition ListChannelPosts (s : store) (channelID : string) : list Post.ChannelPostRecord :=
  List.filter (fun post => scoped channelID (Post.ChannelID post)) (posts s).

(** ** Pages *)

Section Keyset.
Context {A : Type} (key : A -> Z * string).

(** The newest first; ids in descending order at the same time. *)
Definition newer (a b : A) : bool :=
  if (key a).1 =? (key b).1 then str_ltb (key b).2 (key a).2 else (key b).1 <? (key a).1.

Definition in_window (fromTS snapshotTS : Z) (matches : A -> bool) (r : A) : bool :=
  let ts := (key r).1 in
  negb (negb (matches r) || (0 <? fromTS) && (ts <? fromTS) ||
        (0 <? snapshotTS) && (snapshotTS <? ts)).

Definition past_cursor (cursorTS : Z) (cursorID : string) (r : A) : bool :=
  let '(ts, id) := key r in
  negb ((0 <? cursorTS) &&
        negb ((ts <? cursorTS) ||
              (ts =? cursorTS) && str_ltb (trim_space id) (trim_space cursorID))).

Definition memoryKeysetPage (records : list A) (fromTS snapshotTS cursorTS : Z)
    (cursorID : string) (limit : Z) (matches : A -> bool) : list A * bool :=
  let filtered := List.filter (fun r => in_window fromTS snapshotTS matches r &&
                                        past_cursor cursorTS cursorID r) records in
  let filtered := stable_sort newer filtered in
  let hasMore := (0 <=? limit) && (limit <? Z.of_nat (length filtered)) in
  (if hasMore then take (Z.to_nat limit) filtered else filtered, hasMore).
End Keyset.

Definition post_key (post : Post.ChannelPostRecord) : Z * string :=
  (Post.OriginServerTS post, Post.PostID post).
Definition comment_key (comment : Comment.ChannelCommentRecord) : Z * string :=
  (Comment.OriginServerTS comment, Comment.CommentID comment).

Definition ListChannelPostsPage (s : store) (channelID : string)
    (fromTS snapshotTS cursorTS : Z) (cursorID : string) (limit : Z)
    : list Post.ChannelPostRecord * bool :=
  memoryKeysetPage post_key (posts s) fromTS snapshotTS cursorTS cursorID limit
    (fun post => scoped channelID (Post.ChannelID post)).

(** [posts[offset:]] and [posts[:limit]] of both offset pages. *)
Definition offset_page (offset limit : Z) (l : list Post.ChannelPostRecord)
    : option (list Post.ChannelPostRecord * bool) :=
  if Z.of_nat (length l) <=? offset then Some ([], false)
  else if offset <? 0 then None
  else
    let l := drop (Z.to_nat offset) l in
    let hasMore := limit <? Z.of_nat (length l) in
    if hasMore then if limit <? 0 then None else Some (take (Z.to_nat limit) l, true)
    else Some (l, false).

Definition ListChannelPostsOffsetPage (s : store) (channelID : string) (offset limit : Z)
    : option (list Post.ChannelPostRecord * bool) :=
  offset_page offset limit (stable_sort (newer post_key) (ListChannelPosts s channelID)).

Definition ListChannelPostsByVisibilityPage (s : store) (channelID visibility : string)
    (offset limit : Z) : option (list Post.ChannelPostRecord * bool) :=
  let visibility := NormalizeChannelPostVisibility visibility in
  offset_page offset limit (stable_sort (newer post_key)
    (List.filter (fun post =>
       str_eqb (Post.ChannelID post) channelID &&
       str_eqb (Post.Visibility (normalizeChannelPostRecord post)) visibility) (posts s))).

(** ** Comments *)

Fixpoint put_comment (comment : Comment.ChannelCommentRecord)
    (l : list Comment.ChannelCommentRecord) : list Comment.ChannelCommentRecord :=
  match l with
  | [] => [comment]
  | c :: l => if str_eqb (Comment.CommentID c) (Comment.CommentID comment) then comment :: l
              else c :: put_comment comment l
  end.

Definition InsertChannelComment (s : store) (comment : Comment.ChannelCommentRecord) : store :=
  set_comments (put_comment comment (comments s)) s.

Definition GetChannelCommentByID (s : store) (commentID postID : string)
    : option Comment.ChannelCommentRecord :=
  if str_empty commentID then None
  else first_match (fun c => str_eqb (Comment.CommentID c) commentID &&
                             scoped postID (Comment.PostID c)) (comments s).

Definition GetChannelCommentByEventID (s : store) (eventID channelID : string)
    : option Comment.ChannelCommentRecord :=
  if str_empty eventID then None
  else first_match (fun c => str_eqb (Comment.EventID c) eventID &&
                             scoped channelID (Comment.ChannelID c)) (comments s).

Definition ListChannelComments (s : store) (postID : string)
    : list Comment.ChannelCommentRecord :=
  List.filter (fun c => scoped postID (Comment.PostID c)) (comments s).

Definition ListChannelCommentsPage (s : store) (postID : string)
    (fromTS snapshotTS cursorTS : Z) (cursorID : string) (limit : Z)
    : list Comment.ChannelCommentRecord * bool :=
  memoryKeysetPage comment_key (comments s) fromTS snapshotTS cursorTS cursorID limit
    (fun c => scoped postID (Comment.PostID c)).

(** ** Deletion, by record id or event id *)

Definition DeleteChannelPost (s : store) (postID : string) : store * bool :=
  let hit post := str_eqb (Post.PostID post) postID || str_eqb (Post.EventID post) postID in
  (set_posts (List.filter (fun post => negb (hit post)) (posts s)) s,
   existsb hit (posts s)).

Definition DeleteChannelComment (s : store) (commentID : string) : store * bool :=
  let hit c := str_eqb (Comment.CommentID c) commentID ||
               str_eqb (Comment.EventID c) commentID in
  (set_comments (List.filter (fun c => negb (hit c)) (comments s)) s,
   existsb hit (comments s)).
End ChannelContent.
