(* ===== verification/ChannelContentFacts.v ===== *)
(** * Correctness of channel posts and comments

    Reading page after page gives every record of the window exactly once, in
    order, and the settings an owner gives a post survive any replay of the
    post's event. *)

From Stdlib Require Import Ascii String ZArith Lia.
From stdpp Require Import base tactics list gmap strings sorting.
From S2P Require Import Prelude GoStrings Values Domain Policy PolicyFacts ChannelContent.
Local Open Scope Z_scope.
Import ChannelContent.

#[local] Opaque trim_space equal_fold str_ltb.

(** ** The order of a page *)

Lemma str_nlt_trans a b c :
  str_ltb b a = false -> str_ltb c b = false -> str_ltb c a = false.
Proof.
  intros Hba Hcb. destruct (str_ltb c a) eqn:E; [|done].
  destruct (str_ltb a b) eqn:E'.
  - by rewrite (str_ltb_trans _ _ _ E E') in Hcb.
  - rewrite (str_ltb_total _ _ E' Hba) in E. congruence.
Qed.

Section Pages.
Context {A : Type} (key : A -> Z * string).

Lemma newer_asym a b : newer key a b = true -> newer key b a = false.
Proof.
  unfold newer. rewrite (Z.eqb_sym (key b).1). destruct (Z.eqb_spec (key a).1 (key b).1).
  - apply str_ltb_asym.
  - rewrite Z.ltb_lt, Z.ltb_ge. lia.
Qed.

Lemma newer_trans a b c :
  not_after (newer key) a b -> not_after (newer key) b c -> not_after (newer key) a c.
Proof.
  unfold not_after, newer.
  destruct (Z.eqb_spec (key b).1 (key a).1), (Z.eqb_spec (key c).1 (key b).1),
    (Z.eqb_spec (key c).1 (key a).1); rewrite ?Z.ltb_ge; try lia.
  intros H1 H2. by eapply (str_nlt_trans _ (key b).2).
Qed.

Lemma newer_total a b :
  newer key a b = false -> newer key b a = false -> key a = key b.
Proof.
  unfold newer. rewrite (Z.eqb_sym (key b).1).
  destruct (Z.eqb_spec (key a).1 (key b).1) as [E|E]; rewrite ?Z.ltb_ge; [|lia].
  intros H1 H2. rewrite (surjective_pairing (key a)), (surjective_pairing (key b)), E.
  f_equal. by apply str_ltb_total.
Qed.

(** Sorted without equal keys is strictly sorted. *)
Lemma sorted_strict l :
  NoDup (key <$> l) -> StronglySorted (not_after (newer key)) l ->
  StronglySorted (fun a b => newer key a b = true) l.
Proof.
  intros Hnd. induction 1 as [|a l Hs IH Hall]; [constructor|].
  cbn in Hnd. apply NoDup_cons in Hnd as [Ha Hnd]. constructor; [by apply IH|].
  apply Forall_forall. intros b Hb. rewrite Forall_forall in Hall.
  destruct (newer key a b) eqn:E; [done|]. destruct Ha.
  rewrite (newer_total a b E (Hall b Hb)). by apply list_elem_of_fmap_2.
Qed.

(** In a strictly sorted list, what lies past an element is what follows it. *)
Lemma strict_past l1 r l2 :
  StronglySorted (fun a b => newer key a b = true) (l1 ++ r :: l2) ->
  List.filter (newer key r) (l1 ++ r :: l2) = l2.
Proof.
  assert (Hall : forall l, Forall (fun b => newer key r b = true) l -> List.filter (newer key r) l = l).
  { induction 1 as [|b l Hb _ IH]; cbn; [done|]. by rewrite Hb, IH. }
  induction l1 as [|a l1 IH]; cbn; intros Hs; inversion Hs as [|? ? Hs' Ha]; subst.
  - assert (newer key r r = false) as ->.
    { destruct (newer key r r) eqn:E; [|done]. pose proof (newer_asym _ _ E). congruence. }
    by apply Hall.
  - rewrite Forall_forall in Ha. rewrite (newer_asym a r) by (apply Ha; set_solver). by apply IH.
Qed.

Context (records : list A) (fromTS snapshotTS limit : Z) (matches : A -> bool).

(** Every record of the window, newest first. *)
Definition window : list A :=
  stable_sort (newer key) (List.filter (in_window key fromTS snapshotTS matches) records).

(** A client that asks for pages until there are no more, each time with the
    key of the last record it has.  [None] when [fuel] pages are not enough. *)
Fixpoint read_all (fuel : nat) (cursorTS : Z) (cursorID : string) : option (list A) :=
  match fuel with
  | O => None
  | S fuel =>
      let '(page, hasMore) :=
        memoryKeysetPage key records fromTS snapshotTS cursorTS cursorID limit matches in
      if hasMore then
        match last page with
        | Some r => app page <$> read_all fuel (key r).1 (key r).2
        | None => None
        end
      else Some page
  end.

Context (Htrim : forall r, r ∈ records -> trimmed (key r).2).
Context (Hts : forall r, r ∈ records -> 0 < (key r).1).
Context (Hkeys : NoDup (key <$> records)).
Context (Hlimit : 0 < limit).

Lemma elem_of_window r : r ∈ window -> r ∈ records.
Proof using Type.
  unfold window. rewrite elem_of_stable_sort, !list_elem_of_In, filter_In. tauto.
Qed.

Lemma window_strict : StronglySorted (fun a b => newer key a b = true) window.
Proof using Hkeys.
  apply sorted_strict; [|apply stable_sort_sorted; [apply newer_asym|apply newer_trans]].
  unfold window. rewrite stable_sort_perm. revert Hkeys. clear.
  induction records as [|r l IH]; cbn; [done|]. intros [Hr Hl]%NoDup_cons.
  destruct (in_window _ _ _ _ r); [|by apply IH]. cbn. constructor; [|by apply IH].
  intros (x & Ex & Hx)%list_elem_of_fmap. apply Hr. rewrite Ex. apply list_elem_of_fmap_2.
  rewrite list_elem_of_In in *. by apply filter_In in Hx as [? _].
Qed.

Lemma past_cursor_newer a b :
  a ∈ records -> b ∈ records ->
  past_cursor key (key a).1 (key a).2 b = newer key a b.
Proof using Htrim Hts.
  intros Ha Hb. unfold past_cursor, newer.
  rewrite (surjective_pairing (key b)), (proj2 (Z.ltb_lt _ _) (Hts a Ha)). cbn [fst snd andb].
  rewrite (Htrim a Ha), (Htrim b Hb), negb_involutive, (Z.eqb_sym (key b).1).
  destruct (Z.eqb_spec (key a).1 (key b).1) as [E|E]; [|by rewrite orb_false_r].
  rewrite E, Z.ltb_irrefl. done.
Qed.

Lemma page_filter cursorTS cursorID :
  stable_sort (newer key) (List.filter (fun r => in_window key fromTS snapshotTS matches r &&
                                         past_cursor key cursorTS cursorID r) records)
  = List.filter (past_cursor key cursorTS cursorID) window.
Proof using Type.
  unfold window. rewrite <- stable_sort_filter by (apply newer_asym || apply newer_trans).
  f_equal. clear. induction records as [|r l IH]; cbn; [done|]. rewrite IH.
  destruct (in_window _ _ _ _ r); cbn; [|done]. by destruct (past_cursor _ _ _ r).
Qed.

(** The records of the window from a cursor on: everything at the start, and
    what follows the last record read afterwards. *)
Inductive remaining : Z -> string -> list A -> Prop :=
| remaining_all : remaining 0 "" window
| remaining_after l1 r l2 : window = l1 ++ r :: l2 -> remaining (key r).1 (key r).2 l2.

Lemma remaining_past ts id l :
  remaining ts id l -> List.filter (past_cursor key ts id) window = l.
Proof using Htrim Hts Hkeys Hlimit.
  intros [|l1 r l2 E].
  - assert (Hall : forall l, List.filter (past_cursor key 0 "") l = l).
    { induction l0 as [|x l0 IH]; cbn; [done|]. unfold past_cursor at 1.
      destruct (key x). cbn. by rewrite IH. }
    apply Hall.
  - pose proof window_strict as Hs. rewrite E in Hs. rewrite <- (strict_past l1 r l2 Hs).
    rewrite <- E. assert (Hr : r ∈ records) by (apply elem_of_window; rewrite E; set_solver).
    assert (Hin : forall x, x ∈ window -> x ∈ records) by apply elem_of_window.
    clear E Hs. induction window as [|x l' IH]; cbn; [done|].
    rewrite past_cursor_newer, IH by (done || set_solver). done.
Qed.

Lemma read_all_remaining n ts id l :
  remaining ts id l -> (length l < n)%nat -> read_all n ts id = Some l.
Proof using Htrim Hts Hkeys Hlimit.
  revert ts id l. induction n as [|n IH]; intros ts id l Hl Hn; [lia|]. cbn.
  unfold memoryKeysetPage. rewrite page_filter, (remaining_past ts id l Hl).
  rewrite (proj2 (Z.leb_le _ _)) by lia. cbn [andb].
  destruct (Z.ltb_spec limit (Z.of_nat (length l))) as [Hlt|]; [|done].
  set (k := Z.to_nat limit). assert (Hk : (0 < k < length l)%nat) by (subst k; lia).
  destruct (lookup_lt_is_Some_2 l (pred k)) as [r Hr]; [lia|].
  assert (Htake : take k l = take (pred k) l ++ [r]).
  { replace k with (S (pred k)) at 1 by lia. by apply take_S_r. }
  rewrite Htake, last_snoc.
  rewrite (IH (key r).1 (key r).2 (drop k l)).
  - cbn. by rewrite <- Htake, take_drop.
  - assert (Hsplit : l = take (pred k) l ++ r :: drop k l).
    { rewrite <- (take_drop (pred k) l) at 1. f_equal. rewrite (drop_S _ r) by done.
      do 2 f_equal. lia. }
    destruct Hl as [|l1 r0 l2 E].
    + eapply remaining_after. exact Hsplit.
    + eapply (remaining_after (l1 ++ r0 :: take (pred k) l2)).
      rewrite E. rewrite Hsplit at 1. by rewrite <- app_assoc.
  - rewrite length_drop. lia.
Qed.

(** Reading page after page gives every record of the window exactly
    once, newest first, and stops: with trimmed, distinct keys, positive times
    and a positive limit, a client that follows the cursors gets the sorted
    window after at most one page more than there are records. *)
Theorem keyset_pages_enumerate :
  read_all (S (length records)) 0 "" = Some window.
Proof using Htrim Hts Hkeys Hlimit.
  apply read_all_remaining; [apply remaining_all|].
  unfold window. rewrite length_stable_sort.
  pose proof (List.filter_length_le (in_window key fromTS snapshotTS matches) records). lia.
Qed.
End Pages.

(** ** Post settings *)

Inductive content_op :=
| InsertPost (post : Post.ChannelPostRecord)
| ApplySettings (settings : PostSettings.ChannelPostSettingsRecord)
| DeletePost (id : string).

Definition content_step (s : store) (op : content_op) : store :=
  match op with
  | InsertPost post => InsertChannelPost s post
  | ApplySettings settings => ApplyChannelPostSettings s settings
  | DeletePost id => (DeleteChannelPost s id).1
  end.

Definition applied_to (id : string) (ops : list content_op)
    (a : PostSettings.ChannelPostSettingsRecord) : Prop :=
  ApplySettings a ∈ ops /\ trim_space (PostSettings.PostID a) = id.

Section Settings.
(** The event of a post id; a post event is immutable. *)
Context (event_of : string -> string).

Definition names_event (op : content_op) : Prop :=
  match op with
  | InsertPost post => Post.EventID post = event_of (Post.PostID post)
  | ApplySettings a =>
      trim_space (PostSettings.PostEventID a) = event_of (trim_space (PostSettings.PostID a))
  | DeletePost _ => True
  end.

Definition settled (st : PostSettings.ChannelPostSettingsRecord) (p : Post.ChannelPostRecord)
    : Prop :=
  Post.Visibility p = PostSettings.Visibility st /\
  Post.CommentsEnabled p = PostSettings.CommentsEnabled st /\
  Post.CommentsEnabledSet p = true /\ Post.SettingsUpdated p = true.

Record content_ok (s : store) : Prop := {
  posts_distinct : NoDup (Post.PostID <$> posts s);
  posts_events : forall p, p ∈ posts s -> Post.EventID p = event_of (Post.PostID p);
  settings_events : forall id st, postSettings s !! id = Some st ->
    PostSettings.PostEventID st = event_of id;
  posts_settled : forall p st, p ∈ posts s ->
    postSettings s !! Post.PostID p = Some st -> settled st p;
}.

Lemma with_settings_settled st p :
  settled st (with_settings (PostSettings.Visibility st) (PostSettings.CommentsEnabled st) p).
Proof. done. Qed.

Lemma put_post_ids post l :
  Post.PostID <$> put_post post l =
  if bool_decide (Post.PostID post ∈ (Post.PostID <$> l)) then Post.PostID <$> l
  else (Post.PostID <$> l) ++ [Post.PostID post].
Proof.
  induction l as [|p l IH]; cbn; [done|].
  destruct (str_eqb (Post.PostID p) (Post.PostID post)) eqn:E; str_bool.
  - rewrite bool_decide_eq_true_2 by (rewrite E; apply list_elem_of_here).
    cbn. rewrite E. by destruct (Post.SettingsUpdated p).
  - cbn. rewrite IH. repeat case_bool_decide; set_solver.
Qed.

(** What [put_post] leaves in the list: old posts with other ids, and the new
    post with its own settings or those of the post it replaces. *)
Lemma elem_of_put_post x post l :
  NoDup (Post.PostID <$> l) -> x ∈ put_post post l ->
  (x ∈ l /\ Post.PostID x <> Post.PostID post) \/
  (x = post /\ forall p, p ∈ l -> Post.PostID p = Post.PostID post ->
                         Post.SettingsUpdated p = false) \/
  exists p, p ∈ l /\ Post.PostID p = Post.PostID post /\
    x = with_settings (Post.Visibility p) (Post.CommentsEnabled p) post.
Proof.
  induction l as [|p l IH]; cbn; intros Hnd Hx.
  { apply list_elem_of_singleton in Hx as ->. right; left. split; [done|]. set_solver. }
  apply NoDup_cons in Hnd as [Hp Hnd].
  destruct (str_eqb (Post.PostID p) (Post.PostID post)) eqn:E; str_bool.
  - assert (Hrest : forall q, q ∈ l -> Post.PostID q <> Post.PostID post).
    { intros q Hq Eq. apply Hp. rewrite E, <- Eq. by apply list_elem_of_fmap_2. }
    apply elem_of_cons in Hx as [->|Hx].
    + destruct (Post.SettingsUpdated p) eqn:Ep.
      * right; right. exists p. split; [left|done].
      * right; left. split; [done|]. intros q [->|Hq]%elem_of_cons Eq; [done|].
        by apply Hrest in Hq.
    + left. split; [by right|]. by apply Hrest.
  - apply elem_of_cons in Hx as [->|Hx]; [left; split; [left|done]|].
    destruct (IH Hnd Hx) as [[Hin Hne]|[[-> Hu]|(q & Hq & Eq & ->)]].
    + left. split; [by right|done].
    + right; left. split; [done|]. intros q [->|Hq]%elem_of_cons Eq; [done|by apply Hu].
    + right; right. exists q. split; [by right|done].
Qed.

Lemma settle_post_ids st l : Post.PostID <$> settle_post st l = Post.PostID <$> l.
Proof. induction l as [|p l IH]; cbn; [done|]. destruct (_ && _); cbn; [done|by rewrite IH]. Qed.

Lemma elem_of_settle_post x st l :
  NoDup (Post.PostID <$> l) -> x ∈ settle_post st l ->
  (x ∈ l /\ ~ (Post.PostID x = PostSettings.PostID st /\
               Post.EventID x = PostSettings.PostEventID st)) \/
  exists p, p ∈ l /\ Post.PostID p = PostSettings.PostID st /\
    x = with_settings (PostSettings.Visibility st) (PostSettings.CommentsEnabled st) p.
Proof.
  induction l as [|p l IH]; cbn; intros Hnd Hx; [by apply elem_of_nil in Hx|].
  apply NoDup_cons in Hnd as [Hp Hnd]. destruct (_ && _) eqn:E.
  - go_bool. str_bool. apply elem_of_cons in Hx as [->|Hx].
    + right. exists p. split; [left|done].
    + left. split; [by right|]. intros [Eq _]. apply Hp. rewrite H, <- Eq.
      by apply list_elem_of_fmap_2.
  - apply elem_of_cons in Hx as [->|Hx].
    + left. split; [left|]. intros [E1 E2]. apply andb_false_iff in E as [E|E]; str_bool; done.
    + destruct (IH Hnd Hx) as [[Hin Hne]|(q & Hq & Eq & ->)].
      * left. split; [by right|done].
      * right. exists q. split; [by right|done].
Qed.

Lemma normalize_post_id p : Post.PostID (normalizeChannelPostRecord p) = Post.PostID p.
Proof. unfold normalizeChannelPostRecord. by case_match. Qed.
Lemma normalize_post_event p : Post.EventID (normalizeChannelPostRecord p) = Post.EventID p.
Proof. unfold normalizeChannelPostRecord. by case_match. Qed.

(** Putting a post that already has the settings of its event. *)
Lemma put_post_ok s post :
  content_ok s -> Post.EventID post = event_of (Post.PostID post) ->
  (forall st, postSettings s !! Post.PostID post = Some st -> settled st post) ->
  content_ok (set_posts (put_post post (posts s)) s).
Proof.
  intros [Hd He Hse Hst] Hev Hown. split; cbn [posts postSettings set_posts]; [| |done|].
  - rewrite put_post_ids. case_bool_decide; [done|].
    apply NoDup_app. split; [done|]. split; [set_solver|apply NoDup_singleton].
  - intros x Hx. destruct (elem_of_put_post x post _ Hd Hx) as [[Hin _]|[[-> _]|(p & _ & _ & ->)]];
      [by apply He|done|done].
  - intros x st Hx Hst'.
    destruct (elem_of_put_post x post _ Hd Hx) as [[Hin _]|[[-> _]|(p & Hp & Eid & ->)]].
    + by apply Hst.
    + by apply Hown.
    + cbn in Hst'. rewrite <- Eid in Hst'. destruct (Hst p st Hp Hst') as (E1 & E2 & _).
      unfold settled. cbn. by rewrite E1, E2.
Qed.

Lemma insert_ok s post :
  content_ok s -> names_event (InsertPost post) -> content_ok (InsertChannelPost s post).
Proof.
  intros Hs Hev. unfold InsertChannelPost. cbn in Hev.
  set (post' := normalizeChannelPostRecord post).
  assert (Hid : Post.PostID post' = Post.PostID post) by apply normalize_post_id.
  assert (Hev' : Post.EventID post' = event_of (Post.PostID post'))
    by (rewrite Hid; unfold post'; by rewrite normalize_post_event).
  destruct (postSettings s !! Post.PostID post') as [st|] eqn:Est.
  - rewrite (settings_events s Hs _ st Est), <- Hev'.
    rewrite (proj2 (str_eqb_true _ _) eq_refl). apply put_post_ok; [done|done|].
    cbn. intros st'. rewrite Est. intros [= <-]. apply with_settings_settled.
  - apply put_post_ok; [done|done|]. rewrite Est. done.
Qed.

Lemma apply_ok s a :
  content_ok s -> names_event (ApplySettings a) -> content_ok (ApplyChannelPostSettings s a).
Proof.
  intros Hs Hev. unfold ApplyChannelPostSettings. cbn in Hev. set (st := normalize_settings a).
  assert (Hst : PostSettings.PostEventID st = event_of (PostSettings.PostID st)) by done.
  assert (Hnew : content_ok {| posts := settle_post st (posts s); comments := comments s;
    postSettings := <[PostSettings.PostID st := st]> (postSettings s) |}).
  { destruct Hs as [Hd He Hse Hsettled]. split; cbn [posts postSettings].
    - by rewrite settle_post_ids.
    - intros x Hx. destruct (elem_of_settle_post x st _ Hd Hx) as [[Hin _]|(p & Hp & _ & ->)];
        [by apply He|exact (He p Hp)].
    - intros id st'. rewrite lookup_insert_Some. intros [[<- <-]|[_ E]]; [done|by apply Hse].
    - intros x st' Hx. destruct (elem_of_settle_post x st _ Hd Hx) as [[Hin Hno]|(p & Hp & Eid & ->)].
      + rewrite lookup_insert_ne; [by apply Hsettled|]. intros Eid. apply Hno.
        split; [done|]. by rewrite He, Hst, Eid.
      + assert (Post.PostID (with_settings (PostSettings.Visibility st)
          (PostSettings.CommentsEnabled st) p) = PostSettings.PostID st) as -> by exact Eid.
        rewrite lookup_insert_eq. intros [= <-]. apply with_settings_settled. }
  destruct (postSettings s !! _); [|done]. by destruct (_ <? _).
Qed.

Lemma delete_ok s id : content_ok s -> content_ok (DeleteChannelPost s id).1.
Proof.
  intros [Hd He Hse Hst]. unfold DeleteChannelPost.
  set (keep := fun _ => negb _).
  assert (Hsub : forall p, p ∈ List.filter keep (posts s) -> p ∈ posts s).
  { intros p. rewrite !list_elem_of_In, filter_In. tauto. }
  split; cbn [fst posts postSettings set_posts]; [|auto|auto|auto].
  clear -Hd. induction (posts s) as [|p l IH]; cbn in *; [done|].
  apply NoDup_cons in Hd as [Hp Hd]. destruct (keep p); [|by apply IH]. cbn. constructor; [|by apply IH].
  intros (x & Ex & Hx)%list_elem_of_fmap. apply Hp. rewrite Ex. apply list_elem_of_fmap_2.
  rewrite list_elem_of_In in *. by apply filter_In in Hx as [? _].
Qed.

Lemma content_step_ok s op : content_ok s -> names_event op -> content_ok (content_step s op).
Proof. destruct op; [apply insert_ok|apply apply_ok|intros H _; by apply delete_ok]. Qed.

(** The stored settings are the newest that were applied. *)
Definition newest_settings (ops : list content_op) (s : store) : Prop :=
  (forall id a, applied_to id ops a -> exists a', applied_to id ops a' /\
     postSettings s !! id = Some (normalize_settings a') /\
     PostSettings.UpdatedAt a <= PostSettings.UpdatedAt a') /\
  (forall id st, postSettings s !! id = Some st -> exists a, applied_to id ops a).

Lemma applied_to_snoc id ops op a :
  applied_to id (ops ++ [op]) a <->
  applied_to id ops a \/ (op = ApplySettings a /\ trim_space (PostSettings.PostID a) = id).
Proof. unfold applied_to. rewrite elem_of_app, list_elem_of_singleton. intuition. Qed.

Lemma newest_settings_other ops op s s' :
  postSettings s' = postSettings s -> (forall a, op <> ApplySettings a) ->
  newest_settings ops s -> newest_settings (ops ++ [op]) s'.
Proof.
  intros E Hop [H1 H2]. split.
  - intros id a [Ha|[-> _]]%applied_to_snoc; [|by destruct (Hop a)].
    destruct (H1 id a Ha) as (a' & Ha' & Hs & Hle). exists a'.
    rewrite applied_to_snoc, E. by split; [left|].
  - intros id st. rewrite E. intros Hst. destruct (H2 id st Hst) as [a Ha]. exists a.
    apply applied_to_snoc. by left.
Qed.

Lemma newest_settings_apply ops s a :
  newest_settings ops s ->
  newest_settings (ops ++ [ApplySettings a]) (ApplyChannelPostSettings s a).
Proof.
  intros [H1 H2]. unfold ApplyChannelPostSettings.
  set (st := normalize_settings a). set (new := {| posts := _; comments := _; postSettings := _ |}).
  assert (Happ : applied_to (PostSettings.PostID st) (ops ++ [ApplySettings a]) a)
    by (apply applied_to_snoc; by right).
  assert (Hnew : (forall c, postSettings s !! PostSettings.PostID st = Some c ->
                   PostSettings.UpdatedAt c <= PostSettings.UpdatedAt a) ->
                 newest_settings (ops ++ [ApplySettings a]) new).
  { intros Hc. split.
    - intros id b Hb. destruct (decide (PostSettings.PostID st = id)) as [<-|Hne].
      + exists a. split; [done|]. split; [apply lookup_insert_eq|].
        apply applied_to_snoc in Hb as [Hb|[[= <-] _]]; [|done].
        destruct (H1 _ b Hb) as (b' & _ & Hs & Hle). pose proof (Hc _ Hs) as Hc'. cbn in Hc'. lia.
      + apply applied_to_snoc in Hb as [Hb|[[= <-] Hid]]; [|done].
        destruct (H1 id b Hb) as (b' & Hb' & Hs & Hle). exists b'.
        rewrite applied_to_snoc. split; [by left|]. split; [|done].
        cbn [postSettings new]. by rewrite lookup_insert_ne.
    - intros id c. cbn [postSettings new]. rewrite lookup_insert_Some. intros [[<- _]|[_ Hs]].
      + by exists a.
      + destruct (H2 id c Hs) as [b Hb]. exists b. apply applied_to_snoc. by left. }
  destruct (postSettings s !! PostSettings.PostID st) as [c|] eqn:Ec; [|by apply Hnew].
  destruct (Z.ltb_spec (PostSettings.UpdatedAt st) (PostSettings.UpdatedAt c)) as [Hlt|Hge].
  - split.
    + intros id b [Hb|[[= <-] Hid]]%applied_to_snoc.
      * destruct (H1 id b Hb) as (b' & Hb' & Hs & Hle). exists b'.
        rewrite applied_to_snoc. by split; [left|].
      * change (PostSettings.PostID st = id) in Hid. subst id.
        destruct (H2 _ c Ec) as [b Hb]. destruct (H1 _ b Hb) as (b' & Hb' & Hs & _).
        exists b'. rewrite applied_to_snoc. split; [by left|]. split; [done|].
        rewrite Ec in Hs. injection Hs as ->. cbn in Hlt. lia.
    + intros id c' Hc'. destruct (H2 id c' Hc') as [b Hb]. exists b. apply applied_to_snoc. by left.
  - apply Hnew. intros c' [= <-]. exact Hge.
Qed.

Lemma newest_settings_step ops s op :
  newest_settings ops s -> newest_settings (ops ++ [op]) (content_step s op).
Proof.
  destruct op as [post|a|id]; cbn [content_step]; [|apply newest_settings_apply|];
    by apply newest_settings_other.
Qed.

(** What an owner decided about a post is never undone: in any history
    of inserted (also replayed) posts, applied settings and deletions in which
    a post id always names the same event, a stored post for which settings
    were ever applied has the visibility and the comment switch of applied
    settings at least as new, and is marked as explicitly set. *)
Theorem settings_survive_replay ops p a :
  Forall names_event ops ->
  p ∈ posts (foldl content_step empty ops) -> applied_to (Post.PostID p) ops a ->
  exists a', applied_to (Post.PostID p) ops a' /\
    PostSettings.UpdatedAt a <= PostSettings.UpdatedAt a' /\
    Post.Visibility p = NormalizeChannelPostVisibility (PostSettings.Visibility a') /\
    Post.CommentsEnabled p = PostSettings.CommentsEnabled a' /\ Post.SettingsUpdated p = true.
Proof.
  intros Hops. assert (Hinv : content_ok (foldl content_step empty ops) /\
                              newest_settings ops (foldl content_step empty ops)).
  { induction ops as [|op ops IH] using rev_ind.
    - split; split; cbn.
      + constructor.
      + by intros ? ?%elem_of_nil.
      + intros id st. by rewrite lookup_empty.
      + by intros ? ? ?%elem_of_nil.
      + by intros id b [?%elem_of_nil _].
      + intros id st. by rewrite lookup_empty.
    - apply Forall_app in Hops as [Hops Hop]. rewrite Forall_singleton in Hop.
      destruct (IH Hops) as [Hok Hnew]. rewrite foldl_app. cbn [foldl].
      split; [by apply content_step_ok|by apply newest_settings_step]. }
  destruct Hinv as [Hok [Hnew _]]. intros Hp Ha.
  destruct (Hnew _ a Ha) as (a' & Ha' & Hs & Hle). exists a'.
  destruct (posts_settled _ Hok p _ Hp Hs) as (E1 & E2 & _ & E3). by split_and!.
Qed.
End Settings.

(** ** Instances *)

Definition demo_post (id event visibility : string) (ts : Z) : Post.ChannelPostRecord :=
  {| Post.PostID := id; Post.ChannelID := "ch"; Post.RoomID := "!r:x"; Post.EventID := event;
     Post.AuthorMXID := "@o:x"; Post.AuthorName := "O"; Post.Title := ""; Post.Body := "hi";
     Post.MessageType := "text"; Post.MediaJSON := ""; Post.Visibility := visibility;
     Post.CommentsEnabled := true; Post.CommentsEnabledSet := false;
     Post.SettingsUpdated := false; Post.OriginServerTS := ts; Post.CommentCount := 0 |}.

Definition demo_posts : list Post.ChannelPostRecord :=
  [demo_post "p1" "$1" "public" 10; demo_post "p2" "$2" "public" 20;
   demo_post "p3" "$3" "public" 20].

Lemma keyset_pages_witness :
  read_all post_key demo_posts 0 0 1 (fun _ => true) 4 0 "" =
    Some (window post_key demo_posts 0 0 (fun _ => true)) /\
  Post.PostID <$> window post_key demo_posts 0 0 (fun _ => true) = ["p3"; "p2"; "p1"].
Proof.
  split; [|vm_compute; reflexivity].
  refine (keyset_pages_enumerate post_key demo_posts 0 0 1 (fun _ => true) _ _ _ _).
  - apply Forall_forall. repeat constructor.
  - apply Forall_forall. repeat constructor.
  - apply (bool_decide_eq_true_1 (NoDup (post_key <$> demo_posts))). vm_compute. reflexivity.
  - reflexivity.
Defined.

Definition demo_settings : PostSettings.ChannelPostSettingsRecord :=
  {| PostSettings.PostID := "p1"; PostSettings.ChannelID := "ch"; PostSettings.RoomID := "!r:x";
     PostSettings.PostEventID := "$1"; PostSettings.Visibility := "private";
     PostSettings.CommentsEnabled := false; PostSettings.UpdatedAt := 5 |}.

Definition demo_history : list content_op :=
  [InsertPost (demo_post "p1" "$1" "public" 10); ApplySettings demo_settings;
   InsertPost (demo_post "p1" "$1" "public" 10)].

(** The replayed post as it is stored. *)
Definition replayed : Post.ChannelPostRecord :=
  with_settings "private" false (demo_post "p1" "$1" "public" 10).

Lemma settings_survive_witness :
  exists a', applied_to "p1" demo_history a' /\ 5 <= PostSettings.UpdatedAt a' /\
    Post.Visibility replayed = NormalizeChannelPostVisibility (PostSettings.Visibility a') /\
    Post.CommentsEnabled replayed = PostSettings.CommentsEnabled a' /\
    Post.SettingsUpdated replayed = true.
Proof.
  refine (settings_survive_replay (fun _ => "$1") demo_history replayed demo_settings _ _ _).
  - repeat constructor.
  - assert (posts (foldl content_step empty demo_history) = [replayed]) as ->
      by (vm_compute; reflexivity). left.
  - split; [right; left|reflexivity].
Defined.
