(* ===== verification/Workflow.v ===== *)
(** * Workflows

    Product actions that read and write a shared world and can fail: a state
    and error monad, and the rules to prove that a workflow keeps an invariant
    of the world.  The world is the durable store together with everything a
    call to the Matrix side can change. *)

From Stdlib Require Import String ZArith.
From stdpp Require Import base tactics list.
From S2P Require Import Prelude GoStrings Policy Action.
Local Open Scope go_scope.

(** A workflow keeps the changes it made before an error: there is no
    transaction around an action. *)
Definition M (W E A : Type) : Type := W -> W * result E A.

Section Monad.
Context {W : Type}.

Definition ret {E A} (a : A) : M W E A := fun w => (w, Ok a).

Definition fail {E A} (e : E) : M W E A := fun w => (w, Err e).

Definition mbind_ {E A B} (m : M W E A) (k : A -> M W E B) : M W E B :=
  fun w => match m w with
           | (w, Ok a) => k a w
           | (w, Err e) => (w, Err e)
           end.

(** A read of the world that can fail. *)
Definition reads {E A} (f : W -> result E A) : M W E A := fun w => (w, f w).

(** A change of the world that cannot fail. *)
Definition run {E} (f : W -> W) : M W E unit := fun w => (f w, Ok tt).

(** A store error as the error of an action. *)
Definition internal {A} (m : M W goerror A) : M W Api.Error A :=
  fun w => match m w with
           | (w, Ok a) => (w, Ok a)
           | (w, Err e) => (w, Err (Api.InternalError (error_text e)))
           end.

(** [for _, x := range l { if err := f(x); err != nil { return err } }] *)
Fixpoint for_each {E A} (f : A -> M W E unit) (l : list A) : M W E unit :=
  match l with
  | [] => ret tt
  | x :: l => mbind_ (f x) (fun _ => for_each f l)
  end.

(** A loop that stops at the first error and appends what it keeps. *)
Fixpoint collect {E A B} (f : A -> M W E (option B)) (l : list A) : M W E (list B) :=
  match l with
  | [] => ret []
  | x :: l => mbind_ (f x) (fun y => mbind_ (collect f l) (fun ys =>
      ret (match y with Some y => y :: ys | None => ys end)))
  end.

(** An optional port: its absence makes the call a no-op. *)
Definition when_set {P E} (port : option P) (f : P -> M W E unit) : M W E unit :=
  match port with
  | Some p => f p
  | None => ret tt
  end.
End Monad.

Notation "'let!' x := m 'in' k" := (mbind_ m (fun x => k))
  (at level 10, x pattern, m at level 100, k at level 200) : go_scope.

(** ** Invariants of the world *)

Section Keeps.
Context {W : Type} (P : W -> Prop).

(** Whatever the outcome, the invariant holds afterwards. *)
Definition keeps {E A} (m : M W E A) : Prop := forall w, P w -> P (m w).1.

(** ... and a result satisfies [Q]. *)
Definition yields {E A} (m : M W E A) (Q : A -> Prop) : Prop :=
  forall w, P w -> P (m w).1 /\ forall a, (m w).2 = Ok a -> Q a.

Lemma keeps_ret {E A} (a : A) : keeps (ret (E:=E) a).
Proof. by intros w. Qed.

Lemma keeps_fail {E A} (e : E) : keeps (fail (A:=A) e).
Proof. by intros w. Qed.

Lemma keeps_reads {E A} (f : W -> result E A) : keeps (reads f).
Proof. by intros w. Qed.

Lemma keeps_run {E} (f : W -> W) : (forall w, P w -> P (f w)) -> keeps (run (E:=E) f).
Proof. by intros H w Hw; apply H. Qed.

Lemma keeps_bind {E A B} (m : M W E A) (k : A -> M W E B) :
  keeps m -> (forall a, keeps (k a)) -> keeps (mbind_ m k).
Proof.
  intros Hm Hk w Hw. specialize (Hm w Hw). unfold mbind_.
  destruct (m w) as [w' [a|e]]; [|exact Hm]. apply Hk, Hm.
Qed.

Lemma keeps_internal {A} (m : M W goerror A) : keeps m -> keeps (internal m).
Proof.
  intros Hm w Hw. specialize (Hm w Hw). unfold internal. by destruct (m w) as [w' [a|e]].
Qed.

Lemma keeps_for_each {E A} (f : A -> M W E unit) l :
  (forall a, keeps (f a)) -> keeps (for_each f l).
Proof.
  intros Hf. induction l as [|x l IH]; [apply keeps_ret|]. by apply keeps_bind.
Qed.

Lemma keeps_collect {E A B} (f : A -> M W E (option B)) l :
  (forall a, keeps (f a)) -> keeps (collect f l).
Proof.
  intros Hf. induction l as [|x l IH]; [apply keeps_ret|].
  apply keeps_bind; [done|]. intros y. apply keeps_bind; [done|]. intros ys. apply keeps_ret.
Qed.

Lemma keeps_when {X E} (port : option X) (f : X -> M W E unit) :
  (forall p, port = Some p -> keeps (f p)) -> keeps (when_set port f).
Proof. destruct port; simpl; [auto|intros _; apply keeps_ret]. Qed.

(** What a step yields can be used in the steps that follow. *)
Lemma keeps_bind_yields {E A B} (m : M W E A) (k : A -> M W E B) (Q : A -> Prop) :
  yields m Q -> (forall a, Q a -> keeps (k a)) -> keeps (mbind_ m k).
Proof.
  intros Hm Hk w Hw. destruct (Hm w Hw) as [H1 H2]. unfold mbind_.
  destruct (m w) as [w' [a|e]]; [|exact H1]. by apply Hk; [apply H2|].
Qed.

Lemma yields_ret {E A} (a : A) (Q : A -> Prop) : Q a -> yields (ret (E:=E) a) Q.
Proof. intros Ha w Hw. split; [done|]. by intros b [= <-]. Qed.

Lemma yields_fail {E A} (e : E) (Q : A -> Prop) : yields (fail e) Q.
Proof. intros w Hw. by split. Qed.

Lemma yields_bind {E A B} (m : M W E A) (k : A -> M W E B) (Q : A -> Prop) (R : B -> Prop) :
  yields m Q -> (forall a, Q a -> yields (k a) R) -> yields (mbind_ m k) R.
Proof.
  intros Hm Hk w Hw. destruct (Hm w Hw) as [H1 H2]. unfold mbind_.
  destruct (m w) as [w' [a|e]]; [|by split]. apply Hk; [by apply H2|done].
Qed.

Lemma keeps_yields {E A} (m : M W E A) : keeps m -> yields m (fun _ => True).
Proof. intros Hm w Hw. split; [by apply Hm|done]. Qed.

Lemma yields_internal {A} (m : M W goerror A) Q : yields m Q -> yields (internal m) Q.
Proof.
  intros Hm w Hw. destruct (Hm w Hw) as [H1 H2]. unfold internal.
  destruct (m w) as [w' [a|e]]; (split; [done|]); intros b Hb; [|discriminate].
  injection Hb as ->. by apply H2.
Qed.
End Keeps.

Create HintDb workflow discriminated.
#[export] Hint Resolve keeps_ret keeps_fail keeps_reads keeps_run keeps_bind keeps_internal
  keeps_for_each keeps_collect keeps_when : workflow.

(** ** Before and after a step

    [Q] holds after a result, [R] after an error. *)
Definition triple {S E A} (P : S -> Prop) (m : M S E A) (Q : A -> S -> Prop) (R : E -> S -> Prop)
    : Prop :=
  forall s, P s -> match m s with
                   | (s', Ok a) => Q a s'
                   | (s', Err e) => R e s'
                   end.

Section Rules.
Context {S : Type}.

Lemma triple_ret {E A} (P : S -> Prop) (a : A) (Q : A -> S -> Prop) (R : E -> S -> Prop) :
  (forall s, P s -> Q a s) -> triple P (ret a) Q R.
Proof. intros HQ s Hs. by apply HQ. Qed.

Lemma triple_fail {E A} (P : S -> Prop) (e : E) (Q : A -> S -> Prop) (R : E -> S -> Prop) :
  (forall s, P s -> R e s) -> triple P (fail e) Q R.
Proof. intros HR s Hs. by apply HR. Qed.

Lemma triple_bind {E A B} P (m : M S E A) (k : A -> M S E B) Q Q' R :
  triple P m Q R -> (forall a, triple (Q a) (k a) Q' R) -> triple P (mbind_ m k) Q' R.
Proof.
  intros Hm Hk s Hs. specialize (Hm s Hs). unfold mbind_.
  destruct (m s) as [s' [a|e]]; [|done]. by apply Hk.
Qed.

Lemma triple_post {E A} P (m : M S E A) (Q Q' : A -> S -> Prop) (R R' : E -> S -> Prop) :
  triple P m Q R -> (forall a s, Q a s -> Q' a s) -> (forall e s, R e s -> R' e s) ->
  triple P m Q' R'.
Proof. intros Hm HQ HR s Hs. specialize (Hm s Hs). destruct (m s) as [s' [a|e]]; auto. Qed.

Lemma triple_pre {E A} (P P' : S -> Prop) (m : M S E A) Q R :
  triple P m Q R -> (forall s, P' s -> P s) -> triple P' m Q R.
Proof. intros Hm HP s Hs. by apply Hm, HP. Qed.

Lemma triple_pure {E A} (phi : Prop) (P : S -> Prop) (m : M S E A) Q R :
  (phi -> triple P m Q R) -> triple (fun s => phi /\ P s) m Q R.
Proof. intros Hm s [Hphi Hs]. by apply Hm. Qed.

Lemma triple_keeps {E A} (P : S -> Prop) (m : M S E A) :
  keeps P m -> triple P m (fun _ => P) (fun _ => P).
Proof. intros Hm s Hs. specialize (Hm s Hs). by destruct (m s) as [s' [a|e]]. Qed.

Lemma keeps_triple {E A} (P : S -> Prop) (m : M S E A) :
  triple P m (fun _ => P) (fun _ => P) -> keeps P m.
Proof. intros Hm s Hs. specialize (Hm s Hs). by destruct (m s) as [s' [a|e]]. Qed.
End Rules.

(** Successful runs *)
Lemma mbind_Ok {W E A B} (m : M W E A) (k : A -> M W E B) w w' b :
  mbind_ m k w = (w', Ok b) <-> exists w1 a, m w = (w1, Ok a) /\ k a w1 = (w', Ok b).
Proof.
  unfold mbind_. destruct (m w) as [w1 [a|e]]; split.
  - intros H; eauto.
  - by intros (? & ? & [= <- <-] & ?).
  - discriminate.
  - by intros (? & ? & [=] & _).
Qed.

Lemma internal_Ok {W A} (m : M W goerror A) w w' a :
  internal m w = (w', Ok a) <-> m w = (w', Ok a).
Proof. unfold internal. by destruct (m w) as [? [?|?]]; split; intros [= -> ->]. Qed.

(** The case split over the branches of a workflow. *)
Ltac branches :=
  repeat match goal with
  | |- context [match ?x with _ => _ end] => destruct x eqn:?
  | |- context [if ?b then _ else _] => destruct b eqn:?
  end.
