(* ===== verification/RemotePublic.v ===== *)
(** * Calls of other nodes

    [p2p/remote_public.go]: which address a product call to another node may
    go to, what it carries, how its answer or its failure is read, and the
    lookups of public channels on other nodes.  [net/url], [net/netip],
    [encoding/json] and the HTTP client are parameters; the world is
    arbitrary. *)

From Stdlib Require Import Ascii String ZArith Lia.
From stdpp Require Import base tactics list gmap strings pretty.
From S2P Require Import Prelude GoStrings Values Domain Policy Action Operations.
From S2P Require Import OperationIdentity Workflow.
Local Open Scope Z_scope.
Local Open Scope go_scope.

Module Remote.
Import Identity.

(** ** Room servers *)

(** [strings.ContainsAny] *)
Definition has_any (chars : list ascii) (s : string) : bool :=
  existsb (fun a => existsb (Ascii.eqb a) chars) (list_ascii_of_string s).

(** [room_domain] is [spec.NewRoomID(id)] with its [Domain()]. *)
Definition roomServerFromMatrixRoomID (room_domain : string -> option string) (roomID : string)
    : option string :=
  match room_domain (trim_space roomID) with
  | None => None
  | Some server =>
      if str_empty (trim_space server) || contains server "://" ||
         has_any ["/"; "?"; "#"; "@"]%char server then None
      else Some server
  end.

Definition matrixRoomIDQuery (room_domain : string -> option string) (query : string) : bool :=
  bool_decide (is_Some (roomServerFromMatrixRoomID room_domain (trim_space query))).

(** ** Addresses *)

(** The fields of [url.URL] the code reads or writes, its user information as
    whether there is any, and [Hostname()]. *)
Record URL := {
  Scheme : string;
  hasUser : bool;
  Host : string;
  Hostname : string;
  Path : string;
  RawQuery : string;
  Fragment : string;
}.

Definition set_Path (path : string) (u : URL) : URL :=
  {| Scheme := Scheme u; hasUser := hasUser u; Host := Host u; Hostname := Hostname u;
     Path := path; RawQuery := RawQuery u; Fragment := Fragment u |}.

(** What [net/netip] says of an address. *)
Record Addr := {
  IsPrivate : bool;
  IsLoopback : bool;
  IsLinkLocalUnicast : bool;
  IsLinkLocalMulticast : bool;
  IsMulticast : bool;
  IsUnspecified : bool;
  IsGlobalUnicast : bool;
}.

(** [url.Parse], [URL.String], [netip.ParseAddr] *)
Class NetText := {
  url_Parse : string -> option URL;
  url_String : URL -> string;
  ParseAddr : string -> option Addr;
}.

(** [strings.TrimRight(s, "/")] *)
Fixpoint drop_slashes (l : list ascii) : list ascii :=
  match l with
  | a :: l' => if Ascii.eqb a "/" then drop_slashes l' else l
  | [] => []
  end.
Definition trim_slashes (s : string) : string :=
  string_of_list_ascii (rev (drop_slashes (rev (list_ascii_of_string s)))).

Definition has_suffix (s suffix : string) : bool :=
  let l := list_ascii_of_string s in
  let k := list_ascii_of_string suffix in
  bool_decide (drop (length l - length k)%nat l = k).

Section Addresses.
Context `{NetText}.

Definition normalizeRemoteNodeBaseURL (raw : string) : option URL :=
  match url_Parse (trim_space raw) with
  | None => None
  | Some parsed =>
      if str_empty (Scheme parsed) || str_empty (Host parsed) || hasUser parsed then None
      else if negb (str_eqb (Scheme parsed) "http") && negb (str_eqb (Scheme parsed) "https")
      then None
      else Some {| Scheme := Scheme parsed; hasUser := hasUser parsed; Host := Host parsed;
                   Hostname := Hostname parsed;
                   Path := if str_empty (Path parsed) || str_eqb (Path parsed) "/" then "/_p2p"
                           else Path parsed;
                   RawQuery := ""; Fragment := "" |}
  end.

Definition remoteNodeBaseURLParam (params : content) : string :=
  trimString (get params "remote_node_base_url").

Definition remoteNodeBaseURLUsesPrivateHost (base : URL) : bool :=
  let host := trim_space (Hostname base) in
  if str_empty host then true
  else
    let lower := to_lower host in
    if str_eqb lower "localhost" || has_suffix lower ".localhost" then true
    else match ParseAddr host with
         | None => false
         | Some addr =>
             IsPrivate addr || IsLoopback addr || IsLinkLocalUnicast addr ||
             IsLinkLocalMulticast addr || IsMulticast addr || IsUnspecified addr ||
             negb (IsGlobalUnicast addr)
         end.

(** [remoteAllowPrivate] is a setting of the service. *)
Definition remoteNodeBaseURL (remoteAllowPrivate : bool) (serverName : string) (params : content)
    : result Api.Error URL :=
  if str_empty (trim_space serverName)
  then Err (Api.BadRequest "valid Matrix room_id is required")
  else
  let raw := remoteNodeBaseURLParam params in
  if str_empty raw
  then Err (Api.BadRequest "remote_node_base_url is required for remote Matrix room_id")
  else match normalizeRemoteNodeBaseURL raw with
       | None => Err (Api.BadRequest "valid remote_node_base_url is required")
       | Some base =>
           if negb remoteAllowPrivate && remoteNodeBaseURLUsesPrivateHost base
           then Err (Api.BadRequest "remote_node_base_url host must be public")
           else Ok base
       end.

Definition publicP2PBaseURL (homeserver : string) : string :=
  match normalizeRemoteNodeBaseURL (trim_slashes homeserver +:+ "/_p2p") with
  | None => ""
  | Some base => url_String base
  end.
End Addresses.

(** [None] is the nil map. *)
Definition remotePublicForwardParams (params : content) : option content :=
  if bool_decide (params = ∅) then None
  else Some (delete "remote_node_base_url" params).

(** ** Failures of other nodes *)

(** [remotePublicActionError], or any other error of a call. *)
Record ActionError := {
  ae_Status : Z;
  ae_Message : string;
  ae_Code : string;
  ae_OperationID : string;
  ae_CurrentRoomID : string;
}.
Inductive RemoteError :=
| Refused (e : ActionError)
| Failed (e : goerror).

Definition remote_error_text (e : RemoteError) : string :=
  match e with
  | Refused e => "target node public action failed: status=" +:+ pretty (ae_Status e) +:+
                 " error=" +:+ ae_Message e
  | Failed e => error_text e
  end.

(** [json.Unmarshal] into a map ([null] leaves it empty), [json.Marshal] of the
    envelope and [http.StatusText]. *)
Class RemoteText := {
  unmarshal_payload : string -> option content;
  marshal_envelope : string -> option content -> result goerror string;
  StatusText : Z -> string;
}.

Definition first_given (keys : list string) (payload : content) (message : string) : string :=
  foldr (fun key rest => let value := trimString (get payload key) in
                         if str_empty value then rest else value) message keys.

Definition first_bytes (n : nat) (s : string) : string :=
  string_of_list_ascii (take n (list_ascii_of_string s)).

Definition remotePublicError `{RemoteText} (body : string) (status : Z) : ActionError :=
  let raw := first_bytes 4096 body in
  let message := trim_space raw in
  let payload := if str_empty message then None else unmarshal_payload raw in
  let message := match payload with
                 | Some payload => first_given ["error"; "message"] payload message
                 | None => message
                 end in
  let field key := match payload with
                   | Some payload => trimString (get payload key)
                   | None => ""
                   end in
  {| ae_Status := status;
     ae_Message := if str_empty message then StatusText status else message;
     ae_Code := fallbackString (field "error_code") (field "code");
     ae_OperationID := field "operation_id"; ae_CurrentRoomID := field "current_room_id" |}.

(** ** Calls *)

(** [Do] posts a body to an address and gives the status and the body of the
    last answer, where the client follows redirects. *)
Record Client (W : Type) := {
  remoteAllowPrivate : bool;
  Do : URL -> string -> M W goerror (Z * string);
}.
Arguments remoteAllowPrivate {W}.
Arguments Do {W}.

(** [http.Client.Do] of a client without [CheckRedirect]: 301, 302 and 303 are
    followed with a GET without body, 307 and 308 with the same request, and a
    redirect of the tenth request is an error.  [round_trip] sends one request
    and gives status, body and [Location] header; [resolve] is
    [URL.Parse] of a reference. *)
Record Request := {
  rq_Method : string;
  rq_URL : URL;
  rq_Body : option string;
}.

(** Whether a redirect keeps the method and the body. *)
Definition redirect_keeps (status : Z) : option bool :=
  if (status =? 301) || (status =? 302) || (status =? 303) then Some false
  else if (status =? 307) || (status =? 308) then Some true
  else None.

Definition redirected (keep : bool) (rq : Request) (url : URL) : Request :=
  {| rq_Method := if keep then rq_Method rq else "GET"; rq_URL := url;
     rq_Body := if keep then rq_Body rq else None |}.

Section HTTP.
Context {W : Type} (round_trip : Request -> M W goerror (Z * string * string)).
Context (resolve : URL -> string -> option URL).

Fixpoint follow (redirects : nat) (rq : Request) : M W goerror (Z * string) :=
  let! answer := round_trip rq in
  let '(status, body, location) := answer in
  match redirect_keeps status with
  | None => ret (status, body)
  | Some keep =>
      if str_empty location then ret (status, body)
      else match resolve (rq_URL rq) location with
      | None => fail (ErrOther "failed to parse Location header")
      | Some url =>
          match redirects with
          | S redirects => follow redirects (redirected keep rq url)
          | O => fail (ErrOther "stopped after 10 redirects")
          end
      end
  end.

(** The ten seconds of its [Timeout] and the transport are the round trip's. *)
Definition newRemotePublicHTTPClient (remoteAllowPrivate : bool) : Client W :=
  {| remoteAllowPrivate := remoteAllowPrivate;
     Do url body := follow 9 {| rq_Method := "POST"; rq_URL := url; rq_Body := Some body |} |}.
End HTTP.

Section Calls.
Context `{NetText} `{RemoteText} {W : Type} (client : Client W).

(** The address a call goes to. *)
Definition queryURL (base : URL) : URL := set_Path (trim_slashes (Path base) +:+ "/query") base.

(** [decode] is [json.Decoder.Decode] into the caller's variable.  A caller
    reads the variable only when there is no error. *)
Definition remotePublicAction {A} (decode : string -> result goerror A)
    (serverName action : string) (params : content) (w : W) : W * (Z * result RemoteError A) :=
  match remoteNodeBaseURL (remoteAllowPrivate client) serverName params with
  | Err e => (w, (Api.Status e, Err (Failed (ErrOther (Api.Error_ e)))))
  | Ok base =>
      match marshal_envelope action (remotePublicForwardParams params) with
      | Err e => (w, (400, Err (Failed e)))
      | Ok body =>
          match Do client (queryURL base) body w with
          | (w, Err e) => (w, (502, Err (Failed e)))
          | (w, Ok (status, answer)) =>
              if negb (status =? 200)
              then (w, (status, Err (Refused (remotePublicError answer status))))
              else match decode answer with
                   | Err e => (w, (502, Err (Failed e)))
                   | Ok a => (w, (status, Ok a))
                   end
          end
      end
  end.

(** An error of a call with the status it is reported with. *)
Definition gatewayError (status : Z) (e : RemoteError) : Api.Error :=
  Api.StatusError (if negb (status =? 0) && negb (status =? 502) then status else 502)
    (remote_error_text e).

(** ** Public channels of other nodes *)

(** [serverName] and the parser of room ids, [saveChannel] and the decoders of
    [encoding/json]. *)
Record ChannelPorts := {
  serverName : string;
  room_domain : string -> option string;
  saveChannel : Chan.Channel -> M W goerror unit;
  decode_channel : string -> result goerror Chan.Channel;
  decode_user_channels :
    string -> result goerror (string * option (list Chan.Channel) * list Chan.Channel);
}.
Context (ports : ChannelPorts).

Definition set_ChannelID (v : string) (ch : Chan.Channel) : Chan.Channel :=
  {| Chan.ChannelID := v; Chan.RoomID := Chan.RoomID ch; Chan.Name := Chan.Name ch;
     Chan.Description := Chan.Description ch; Chan.AvatarURL := Chan.AvatarURL ch;
     Chan.Visibility := Chan.Visibility ch; Chan.JoinPolicy := Chan.JoinPolicy ch;
     Chan.ChannelType := Chan.ChannelType ch; Chan.CommentsEnabled := Chan.CommentsEnabled ch;
     Chan.Muted := Chan.Muted ch; Chan.MemberCount := Chan.MemberCount ch;
     Chan.PendingJoinCount := Chan.PendingJoinCount ch; Chan.IsOwned := Chan.IsOwned ch;
     Chan.Role := Chan.Role ch; Chan.MemberStatus := Chan.MemberStatus ch |}.

Definition lookup_failed : string := "target node public channel lookup failed".

Definition remotePublicChannelGet (channelID roomID : string) (params : content)
    : M W Api.Error (option Chan.Channel) :=
  let roomID := trim_space roomID in
  if str_empty roomID then ret None
  else match roomServerFromMatrixRoomID (room_domain ports) roomID with
  | None => fail (Api.BadRequest "valid Matrix room_id is required")
  | Some roomServer =>
      if str_eqb roomServer (serverName ports) then ret None
      else fun w =>
        let request : content :=
          {["room_id" := AString roomID;
            "channel_id" := AString (fallbackString channelID roomID);
            "remote_node_base_url" := AString (remoteNodeBaseURLParam params)]} in
        let '(w, (status, answer)) :=
          remotePublicAction (decode_channel ports) roomServer "channels.public.get" request w in
        if status =? 404 then (w, Ok None)
        else match answer with
        | Err e => (w, Err (gatewayError status e))
        | Ok ch =>
            if negb (status =? 200) then (w, Err (Api.StatusError status lookup_failed))
            else if negb (equal_fold (Chan.Visibility ch) "public") then (w, Ok None)
            else
              let ch := if str_empty (Chan.RoomID ch) then Chan.set_RoomID roomID ch else ch in
              let ch := if str_empty (Chan.ChannelID ch) then set_ChannelID (Chan.RoomID ch) ch
                        else ch in
              (let! _ := Workflow.internal (saveChannel ports ch) in ret (Some ch)) w
        end
  end.

(** [channels], or [results] where an older node sends only those. *)
Definition remoteUserPublicChannels (userID : string) (params : content)
    : M W Api.Error (string * list Chan.Channel) :=
  let ownerNode := DomainFromMXID userID in
  if str_empty ownerNode then fail (Api.BadRequest "valid user_id is required")
  else fun w =>
    let '(w, (status, answer)) :=
      remotePublicAction (decode_user_channels ports) ownerNode "users.public_channels" params w in
    match answer with
    | Err e => (w, Err (gatewayError status e))
    | Ok (remoteUserID, channels, results) =>
        if negb (status =? 200)
        then (w, Err (Api.StatusError status "target node public channels lookup failed"))
        else (w, Ok (remoteUserID, default results channels))
    end.

(** The channel of the preflight, when it is for this room. *)
Definition publicJoinPreflightChannel (pre : option Chan.Channel) (roomID : string)
    : option Chan.Channel :=
  match pre with
  | Some ch => if str_eqb (Chan.RoomID ch) (trim_space roomID) then Some ch else None
  | None => None
  end.
End Calls.
Arguments ChannelPorts : clear implicits.
End Remote.
