(* ===== verification/Prepared.v ===== *)
(** * Prepared Matrix mutations

    [internal/dirextalktransport]: the crash-safe write of one Matrix event for
    a capability operation ([prepared.go], [capability_context.go]) and its
    PostgreSQL store ([prepared_store.go]), whose statements select, insert and
    update single rows by key.  A crash after a call is a call that has had its
    effect and reports an error. *)

From Stdlib Require Import Ascii String ZArith Lia.
From stdpp Require Import base tactics list gmap strings.
From S2P Require Import Prelude GoStrings Values GoSha256 Policy Action Workflow.
Local Open Scope Z_scope.
Local Open Scope go_scope.

(** [encoding/json] and [strconv.Quote] on texts, and the text PostgreSQL gives
    back for a [jsonb] value: parameters. *)
Class GoText := {
  Marshal : any -> option string;
  Unmarshal : string -> option any;
  ValidJSON : string -> bool;
  Quote : string -> string;
  jsonb : string -> string;
}.

(** [len] of a byte string *)
Definition byte_len (s : string) : Z := Z.of_nat (String.length s).

(** The errors that [errors.Is] tells apart here. *)
Inductive merror :=
| NoRows                              (* sql.ErrNoRows *)
| MatrixEventUnknown_ (text : string)   (* wraps ErrMatrixEventUnknown *)
| MatrixEventRejected_ (text : string)  (* wraps ErrMatrixEventRejected *)
| Plain (e : goerror).

Definition merror_error (e : merror) : goerror :=
  match e with
  | NoRows => ErrOther "sql: no rows in result set"
  | MatrixEventUnknown_ text | MatrixEventRejected_ text => ErrOther text
  | Plain e => e
  end.

Definition merror_text (e : merror) : string := error_text (merror_error e).

Definition plain (text : string) : merror := Plain (ErrOther text).

(** [fmt.Errorf("%w: ...", ErrMatrixEventUnknown, ...)] and its sibling *)
Definition event_unknown (text : string) : merror :=
  MatrixEventUnknown_ ("matrix event acceptance is unknown: " +:+ text).
Definition event_rejected (text : string) : merror :=
  MatrixEventRejected_ ("matrix event was rejected: " +:+ text).

Record CapabilityOperationContext := {
  co_OperationID : string;
  co_OwnerID : string;
  co_Generation : Z;
  co_RootDigest : string;
}.

Definition operation_complete (o : CapabilityOperationContext) : bool :=
  negb (str_empty (co_OperationID o) || str_empty (co_OwnerID o) || (co_Generation o <=? 0) ||
        negb (byte_len (co_RootDigest o) =? 32)).

(** [ctx] carries at most one operation. *)
Definition CapabilityOperationContextFrom (ctx : option CapabilityOperationContext)
    : option CapabilityOperationContext :=
  match ctx with
  | Some o => if operation_complete o then Some o else None
  | None => None
  end.

Record SendMessageRequest := {
  sm_SenderMXID : string;
  sm_RoomID : string;
  sm_EventType : string;
  sm_MessageType : string;
  sm_Content : content;
  sm_Timestamp : Z;
  sm_LogicalID : string;
  sm_PostID : string;
}.

Record SendMessageResult := {
  sr_EventID : string;
  sr_OriginServerTS : Z;
}.

Record PreparedMessage := {
  pm_EventID : string;
  pm_RoomID : string;
  pm_SenderMXID : string;
  pm_EventType : string;
  pm_MessageType : string;
  pm_OriginServerTS : Z;
  pm_RoomVersion : string;
  pm_EventJSON : string;
  pm_ContentDigest : string;
}.
#[global] Instance PreparedMessage_eq_dec : EqDecision PreparedMessage.
Proof. solve_decision. Defined.

Record PreparedMatrixEvent := {
  pe_OperationID : string;
  pe_Capability : string;
  pe_Operation : string;
  pe_OwnerID : string;
  pe_Generation : Z;
  pe_RootDigest : string;
  pe_LogicalID : string;
  pe_PostID : string;
  pe_State : string;
  pe_Attempt : Z;
  pe_Revision : Z;
  pe_ReceiptJSON : string;
  pe_Event : PreparedMessage;
}.

Definition MaxPreparedMatrixEventBytes : Z := 65536.

Definition validatePreparedMessage (message : PreparedMessage) : result merror unit :=
  if str_empty (pm_EventID message) || str_empty (pm_RoomID message) ||
     str_empty (pm_SenderMXID message) || str_empty (pm_RoomVersion message) ||
     str_empty (pm_EventJSON message) ||
     (MaxPreparedMatrixEventBytes <? byte_len (pm_EventJSON message)) ||
     negb (byte_len (pm_ContentDigest message) =? 32)
  then Err (plain "prepared Matrix PDU is incomplete") else Ok tt.

Definition validatePreparedReceipt (prepared : PreparedMessage) (receipt : SendMessageResult)
    : result merror SendMessageResult :=
  if str_empty (sr_EventID receipt)
  then Err (plain "matrix transport returned an empty event id")
  else if negb (str_eqb (sr_EventID receipt) (pm_EventID prepared))
  then Err (plain ("matrix transport returned event " +:+ sr_EventID receipt +:+
                   " for prepared event " +:+ pm_EventID prepared))
  else Ok (if sr_OriginServerTS receipt =? 0
           then {| sr_EventID := sr_EventID receipt; sr_OriginServerTS := pm_OriginServerTS prepared |}
           else receipt).

(** ** The algorithm *)

(** [PreparedMatrixMutationStore] with the optional receipt store, whose error
    is ignored.  A read is a call like any other. *)
Record PreparedStore (W : Type) := {
  PrepareMatrixEvent : PreparedMatrixEvent -> M W merror unit;
  GetMatrixPreparedEvent : CapabilityOperationContext -> M W merror (option PreparedMatrixEvent);
  MarkMatrixPreparedEventSent : option (CapabilityOperationContext -> SendMessageResult -> W -> W);
}.
Arguments PrepareMatrixEvent {W}.
Arguments GetMatrixPreparedEvent {W}.
Arguments MarkMatrixPreparedEventSent {W}.

(** [PreparedMessagePort], with the optional [MatrixEventStatusPort]. *)
Record PreparedMessagePort (W : Type) := {
  PrepareMessage : SendMessageRequest -> M W merror PreparedMessage;
  SendPreparedMessage : PreparedMessage -> M W merror SendMessageResult;
  EventExists : string -> string -> M W merror bool;
  EventStatus : option (PreparedMessage -> M W merror string);
}.
Arguments PrepareMessage {W}.
Arguments SendPreparedMessage {W}.
Arguments EventExists {W}.
Arguments EventStatus {W}.

Section Execute.
Context `{GoText} {W : Type}.
(** The port and the store see the operation in [ctx]. *)
Context (port : PreparedMessagePort W) (store : PreparedStore W).
Context (operation : CapabilityOperationContext) (capability operationName : string).

Definition mark_sent (receipt : SendMessageResult) : M W merror SendMessageResult :=
  let! _ := run (match MarkMatrixPreparedEventSent store with
                 | Some mark => mark operation receipt
                 | None => fun w => w
                 end) in
  ret receipt.

(** A call whose error leaves the acceptance of the event unknown. *)
Definition or_unknown {A} (what : string) (message : PreparedMessage) (m : M W merror A)
    : M W merror A :=
  fun w => match m w with
           | (w, Err e) => (w, Err (event_unknown
               (what +:+ pm_EventID message +:+ ": " +:+ merror_text e)))
           | r => r
           end.

(** Sends the staged event; a rejection is final, any other error is not. *)
Definition send_staged (verb : string) (message : PreparedMessage)
    : M W merror SendMessageResult :=
  let! receipt := (fun w =>
    match SendPreparedMessage port message w with
    | (w, Err (MatrixEventRejected_ text)) => (w, Err (MatrixEventRejected_ text))
    | (w, Err e) => (w, Err (event_unknown
        (verb +:+ " prepared Matrix event " +:+ pm_EventID message +:+ ": " +:+ merror_text e)))
    | r => r
    end) in
  let! receipt := or_unknown "invalid Matrix receipt for " message
                    (reads (fun _ => validatePreparedReceipt message receipt)) in
  mark_sent receipt.

Definition exists_event (message : PreparedMessage) : M W merror bool :=
  or_unknown "reconcile prepared Matrix event " message
    (EventExists port (pm_RoomID message) (pm_EventID message)).

Definition receipt_of (message : PreparedMessage) : SendMessageResult :=
  {| sr_EventID := pm_EventID message; sr_OriginServerTS := pm_OriginServerTS message |}.

(** Whether the event is there, and if not, the same event again. *)
Definition resend_if_absent (message : PreparedMessage) : M W merror SendMessageResult :=
  let! present := exists_event message in
  if present : bool then mark_sent (receipt_of message) else send_staged "resend" message.

(** The staged event of an earlier attempt. *)
Definition reconcile (message : PreparedMessage) : M W merror SendMessageResult :=
  match EventStatus port with
  | None => resend_if_absent message
  | Some status =>
      let! disposition := or_unknown "reconcile prepared Matrix event " message (status message) in
      if str_eqb disposition "accepted" then mark_sent (receipt_of message)
      else if str_eqb disposition "rejected" then fail (event_rejected (pm_EventID message))
      else if str_eqb disposition "unknown" then
        let! present := exists_event message in
        if present : bool then fail (event_unknown (pm_EventID message))
        else resend_if_absent message
      else fail (plain ("prepared Matrix event " +:+ pm_EventID message +:+
                        " returned invalid disposition " +:+ Quote disposition))
  end.

Definition staged_event (request : SendMessageRequest) (prepared : PreparedMessage)
    : PreparedMatrixEvent :=
  {| pe_OperationID := co_OperationID operation; pe_Capability := capability;
     pe_Operation := operationName; pe_OwnerID := co_OwnerID operation;
     pe_Generation := co_Generation operation; pe_RootDigest := co_RootDigest operation;
     pe_LogicalID := sm_LogicalID request; pe_PostID := sm_PostID request;
     pe_State := "prepared"; pe_Attempt := 1; pe_Revision := 1; pe_ReceiptJSON := "";
     pe_Event := prepared |}.

(** The first attempt: prepare, stage, send. *)
Definition stage_and_send (request : SendMessageRequest) : M W merror SendMessageResult :=
  let! prepared := PrepareMessage port request in
  let! _ := reads (fun _ => validatePreparedMessage prepared) in
  let! _ := PrepareMatrixEvent store (staged_event request prepared) in
  send_staged "send" prepared.

(** The body once the port and the store are known to be there. *)
Definition execute_prepared (request : SendMessageRequest) : M W merror SendMessageResult :=
  if negb (operation_complete operation)
  then fail (plain "capability operation context is incomplete")
  else fun w =>
    match GetMatrixPreparedEvent store operation w with
    | (w, Ok (Some existing)) =>
        if negb (str_eqb (pe_Capability existing) capability) ||
           negb (str_eqb (pe_Operation existing) operationName)
        then (w, Err (plain "prepared Matrix event operation binding mismatch"))
        else reconcile (pe_Event existing) w
    | (w, Ok None) | (w, Err NoRows) => stage_and_send request w
    | (w, Err e) => (w, Err e)
    end.
End Execute.

(** Both the port and the store may be nil. *)
Definition ExecutePreparedMatrixMutation `{GoText} {W} (port : option (PreparedMessagePort W))
    (store : option (PreparedStore W)) (operation : CapabilityOperationContext)
    (capability operationName : string) (request : SendMessageRequest)
    : M W merror SendMessageResult :=
  match port, store with
  | Some port, Some store => execute_prepared port store operation capability operationName request
  | _, _ => fail (plain "durable Matrix mutation is unavailable")
  end.

(** ** The PostgreSQL store *)

Module PreparedTable.
(** A row of [p2p_capability_matrix_prepared_events]: the event and
    [pdu_sha256].  [p2p_capability_operations] is its state column. *)
Record row := {
  row_event : PreparedMatrixEvent;
  pdu_sha256 : list Z;
}.

Record tables := {
  prepared_events : gmap string row;
  capability_operations : gmap string string;
}.

Definition set_prepared_events (v : gmap string row) (t : tables) : tables :=
  {| prepared_events := v; capability_operations := capability_operations t |}.

Section Store.
Context `{GoText}.
Implicit Types (t : tables).

Definition sha256Digest (value : string) : list Z := sha256 value.

Definition emptyReceiptJSON (value : string) : string :=
  if str_empty value then "{}" else value.

Definition blank (s : string) : bool := str_empty (trim_space s).

Definition validatePreparedMatrixEvent (event : PreparedMatrixEvent) : result merror unit :=
  let pdu := pe_Event event in
  if blank (pe_OperationID event) || blank (pe_Capability event) || blank (pe_Operation event) ||
     blank (pe_OwnerID event) || (pe_Generation event <=? 0) ||
     negb (byte_len (pe_RootDigest event) =? 32)
  then Err (plain "prepared Matrix event identity fence is incomplete")
  else if blank (pm_EventID pdu) || blank (pm_RoomID pdu) || blank (pm_SenderMXID pdu) ||
          blank (pm_EventType pdu) || blank (pm_RoomVersion pdu)
  then Err (plain "prepared Matrix event metadata is incomplete")
  else if str_empty (pm_EventJSON pdu) ||
          (MaxPreparedMatrixEventBytes <? byte_len (pm_EventJSON pdu)) ||
          negb (ValidJSON (pm_EventJSON pdu)) || negb (byte_len (pm_ContentDigest pdu) =? 32)
  then Err (plain "prepared Matrix event JSON is invalid or exceeds the size limit")
  else Ok tt.

(** Equal PDUs, field by field, under equal fences. *)
Definition preparedMatrixEventEqual (a b : PreparedMatrixEvent) : bool :=
  str_eqb (pe_OperationID a) (pe_OperationID b) && str_eqb (pe_Capability a) (pe_Capability b) &&
  str_eqb (pe_Operation a) (pe_Operation b) && str_eqb (pe_OwnerID a) (pe_OwnerID b) &&
  (pe_Generation a =? pe_Generation b) && str_eqb (pe_LogicalID a) (pe_LogicalID b) &&
  str_eqb (pe_PostID a) (pe_PostID b) && str_eqb (pe_RootDigest a) (pe_RootDigest b) &&
  (let x := pe_Event a in let y := pe_Event b in
   str_eqb (pm_EventID x) (pm_EventID y) && str_eqb (pm_RoomID x) (pm_RoomID y) &&
   str_eqb (pm_SenderMXID x) (pm_SenderMXID y) && str_eqb (pm_EventType x) (pm_EventType y) &&
   str_eqb (pm_MessageType x) (pm_MessageType y) &&
   (pm_OriginServerTS x =? pm_OriginServerTS y) &&
   str_eqb (pm_RoomVersion x) (pm_RoomVersion y) && str_eqb (pm_EventJSON x) (pm_EventJSON y) &&
   str_eqb (pm_ContentDigest x) (pm_ContentDigest y)).

Definition scanPreparedMatrixEvent (r : option row) : result merror PreparedMatrixEvent :=
  match r with
  | None => Err NoRows
  | Some r =>
      if negb (bool_decide (pdu_sha256 r = sha256Digest (pm_EventJSON (pe_Event (row_event r)))))
      then Err (plain "prepared Matrix PDU digest mismatch")
      else let? _ := validatePreparedMatrixEvent (row_event r) in Ok (row_event r)
  end.

Definition inserted (event : PreparedMatrixEvent) : PreparedMatrixEvent :=
  {| pe_OperationID := pe_OperationID event; pe_Capability := pe_Capability event;
     pe_Operation := pe_Operation event; pe_OwnerID := pe_OwnerID event;
     pe_Generation := pe_Generation event; pe_RootDigest := pe_RootDigest event;
     pe_LogicalID := pe_LogicalID event; pe_PostID := pe_PostID event;
     pe_State := if str_empty (pe_State event) then "prepared" else pe_State event;
     pe_Attempt := if pe_Attempt event <=? 0 then 1 else pe_Attempt event;
     pe_Revision := if pe_Revision event <=? 0 then 1 else pe_Revision event;
     pe_ReceiptJSON := jsonb (emptyReceiptJSON (pe_ReceiptJSON event));
     pe_Event := pe_Event event |}.

(** One transaction: it changes nothing when it fails. *)
Definition PrepareMatrixEvent t (event : PreparedMatrixEvent) : tables * result merror unit :=
  match validatePreparedMatrixEvent event with
  | Err e => (t, Err e)
  | Ok _ =>
      match capability_operations t !! pe_OperationID event with
      | None => (t, Err NoRows)
      | Some operationState =>
          if bool_decide (operationState ∈ ["completed"; "failed"; "cancelled"])
          then (t, Err (plain ("operation " +:+ pe_OperationID event +:+ " is already terminal")))
          else match scanPreparedMatrixEvent (prepared_events t !! pe_OperationID event) with
               | Ok existing =>
                   if negb (preparedMatrixEventEqual existing event)
                   then (t, Err (plain ("prepared Matrix event conflicts with operation " +:+
                                        Quote (pe_OperationID event))))
                   else (t, Ok tt)
               | Err NoRows =>
                   (set_prepared_events (<[pe_OperationID event :=
                       {| row_event := inserted event;
                          pdu_sha256 := sha256Digest (pm_EventJSON (pe_Event event)) |}]>
                     (prepared_events t)) t, Ok tt)
               | Err e => (t, Err e)
               end
      end
  end.

Definition fence_complete (o : CapabilityOperationContext) : bool :=
  negb (blank (co_OperationID o) || blank (co_OwnerID o) || (co_Generation o <=? 0) ||
        negb (byte_len (co_RootDigest o) =? 32)).

(** [WHERE operation_id=$1 AND owner_id=$2 AND account_generation=$3 AND
    root_request_digest=$4] *)
Definition fenced_row t (o : CapabilityOperationContext) : option row :=
  match prepared_events t !! co_OperationID o with
  | Some r =>
      if str_eqb (pe_OwnerID (row_event r)) (co_OwnerID o) &&
         (pe_Generation (row_event r) =? co_Generation o) &&
         str_eqb (pe_RootDigest (row_event r)) (co_RootDigest o)
      then Some r else None
  | None => None
  end.

Definition incomplete_fence : merror := plain "prepared Matrix event fence is incomplete".

Definition HasMatrixPreparedEvent t (o : CapabilityOperationContext) : result merror bool :=
  if negb (fence_complete o) then Err incomplete_fence
  else Ok (bool_decide (is_Some (fenced_row t o))).

Definition GetMatrixPreparedEvent t (o : CapabilityOperationContext)
    : result merror PreparedMatrixEvent :=
  if negb (fence_complete o) then Err incomplete_fence
  else scanPreparedMatrixEvent (fenced_row t o).

Definition receipt_json (receipt : SendMessageResult) : option string :=
  Marshal (AMap [("EventID", AString (sr_EventID receipt));
                 ("OriginServerTS", AInt64 (sr_OriginServerTS receipt))]).

Definition sent (receipt : string) (event : PreparedMatrixEvent) : PreparedMatrixEvent :=
  {| pe_OperationID := pe_OperationID event; pe_Capability := pe_Capability event;
     pe_Operation := pe_Operation event; pe_OwnerID := pe_OwnerID event;
     pe_Generation := pe_Generation event; pe_RootDigest := pe_RootDigest event;
     pe_LogicalID := pe_LogicalID event; pe_PostID := pe_PostID event;
     pe_State := "sent"; pe_Attempt := pe_Attempt event + 1;
     pe_Revision := pe_Revision event + 1; pe_ReceiptJSON := jsonb receipt;
     pe_Event := pe_Event event |}.

Definition MarkMatrixPreparedEventSent t (o : CapabilityOperationContext)
    (receipt : SendMessageResult) : tables * result merror unit :=
  if negb (fence_complete o) || blank (sr_EventID receipt)
  then (t, Err (plain "prepared Matrix event receipt fence is incomplete"))
  else match receipt_json receipt with
       | None => (t, Err (plain "receipt"))
       | Some json =>
           match fenced_row t o with
           | Some r =>
               if str_eqb (pm_EventID (pe_Event (row_event r))) (sr_EventID receipt)
               then (set_prepared_events (<[co_OperationID o :=
                       {| row_event := sent json (row_event r); pdu_sha256 := pdu_sha256 r |}]>
                       (prepared_events t)) t, Ok tt)
               else (t, Err NoRows)
           | None => (t, Err NoRows)
           end
       end.

Definition DeleteMatrixPreparedEvent t (o : CapabilityOperationContext)
    : tables * result merror unit :=
  if negb (fence_complete o) then (t, Err incomplete_fence)
  else (match fenced_row t o with
        | Some _ => set_prepared_events (delete (co_OperationID o) (prepared_events t)) t
        | None => t
        end, Ok tt).

Definition DeleteMatrixPreparedEventByOperation t (operationID : string)
    : tables * result merror unit :=
  if blank operationID then (t, Err (plain "operation id is required"))
  else (set_prepared_events (delete operationID (prepared_events t)) t, Ok tt).

(** The store as the algorithm sees it, in a world that holds the tables. *)
Definition prepared_store {X} : PreparedStore (tables * X) := {|
  Prepared.PrepareMatrixEvent event := fun '(t, x) =>
    let '(t, r) := PrepareMatrixEvent t event in ((t, x), r);
  Prepared.GetMatrixPreparedEvent o :=
    reads (fun w => match GetMatrixPreparedEvent w.1 o with
                    | Ok event => Ok (Some event)
                    | Err e => Err e
                    end);
  Prepared.MarkMatrixPreparedEventSent :=
    Some (fun o receipt '(t, x) => ((MarkMatrixPreparedEventSent t o receipt).1, x)) |}.
End Store.
End PreparedTable.
