(* ===== verification/PreparedFacts.v ===== *)
(** * Facts about prepared Matrix mutations

    At most one PDU is ever submitted for one capability operation, whatever
    calls fail, whatever other steps run in between and however often the
    operation is attempted; and an attempt that fails with a plain error has
    submitted nothing. *)

From Stdlib Require Import Ascii String ZArith Lia.
From stdpp Require Import base tactics list gmap strings.
From S2P Require Import Prelude GoStrings Values GoSha256 Policy Action Workflow Prepared.
Local Open Scope Z_scope.
Local Open Scope go_scope.

(** ** Rely and guarantee *)

Section Guarantee.
Context {W : Type}.
Context (staged : W -> string -> PreparedMessage -> Prop).
(** What every step of every party does; a PDU that was the operation's stays so. *)
Context (steady : relation W) `{Hpre : !PreOrder steady}.
Context (Hmono : forall w w' op m, steady w w' -> staged w op m -> staged w' op m).

(** A call is steady, and its result satisfies [Q] in the world it leaves. *)
Definition steadily {E A} (m : M W E A) (P : W -> Prop) (Q : A -> W -> Prop) : Prop :=
  forall w, P w -> steady w (m w).1 /\ (forall a, (m w).2 = Ok a -> Q a (m w).1).

Definition always (w : W) : Prop := True.
Definition any_result {A} (a : A) (w : W) : Prop := True.

Lemma steadily_weaken {E A} (m : M W E A) (P P' : W -> Prop) (Q Q' : A -> W -> Prop) :
  steadily m P Q -> (forall w, P' w -> P w) -> (forall a w, Q a w -> Q' a w) -> steadily m P' Q'.
Proof using Type. intros Hm HP HQ w Hw. destruct (Hm w (HP w Hw)). split; eauto. Qed.

Lemma steadily_ret {E A} (a : A) (P : W -> Prop) (Q : A -> W -> Prop) :
  (forall w, P w -> Q a w) -> steadily (ret (E:=E) a) P Q.
Proof using Hpre. intros HQ w Hw. split; [reflexivity|]. simpl. intros ? [= <-]. auto. Qed.

Lemma steadily_fail {E A} (e : E) P (Q : A -> W -> Prop) : steadily (fail e) P Q.
Proof using Hpre. intros w _. split; [reflexivity|]. simpl. discriminate. Qed.

Lemma steadily_bind {E A B} (m : M W E A) (k : A -> M W E B) P Q R :
  steadily m P Q -> (forall a, steadily (k a) (Q a) R) -> steadily (mbind_ m k) P R.
Proof using Hpre.
  intros Hm Hk w Hw. unfold mbind_. destruct (Hm w Hw) as [Hs HQ].
  destruct (m w) as [w' [a|e]]; simpl in *; [|split; [done|discriminate]].
  destruct (Hk a w' (HQ a eq_refl)) as [Hs' HR].
  split; [by etrans|done].
Qed.

(** An assertion that every step keeps can be carried through a call. *)
Definition stable (P : W -> Prop) : Prop := forall w w', steady w w' -> P w -> P w'.

Lemma staged_stable op m : stable (fun w => staged w op m).
Proof using Hmono. intros w w' Hs. by apply Hmono. Qed.

Lemma steadily_frame {E A} (m : M W E A) (P : W -> Prop) (Q : A -> W -> Prop) :
  stable P -> steadily m always Q -> steadily m P (fun a w => P w /\ Q a w).
Proof using Type.
  intros HP Hm w Hw. destruct (Hm w I) as [Hs HQ]. split; [done|].
  intros a Ha. split; [by apply (HP w)|auto].
Qed.

(** [or_unknown] changes the error only. *)
Lemma steadily_or_unknown {A} what message (m : M W merror A) P Q :
  steadily m P Q -> steadily (or_unknown what message m) P Q.
Proof using Type.
  intros Hm w Hw. unfold or_unknown. specialize (Hm w Hw).
  destruct (m w) as [w' [a|e]]; simpl in *; [done|]. split; [apply Hm|discriminate].
Qed.

(** *** The algorithm *)

(** What the store promises: a PDU it returns or accepts is the staged one. *)
Record steady_store (store : PreparedStore W) : Prop := {
  ss_get : forall o, steadily (GetMatrixPreparedEvent store o) always
    (fun r w => forall e, r = Some e -> staged w (co_OperationID o) (pe_Event e));
  ss_prepare : forall e, steadily (PrepareMatrixEvent store e) always
    (fun _ w => staged w (pe_OperationID e) (pe_Event e));
  ss_mark : forall mark o receipt w,
    MarkMatrixPreparedEventSent store = Some mark -> steady w (mark o receipt w);
}.

(** What the port promises for one operation: it submits only what it is given
    to submit. *)
Record steady_port (op : string) (port : PreparedMessagePort W) : Prop := {
  sp_prepare : forall request, steadily (PrepareMessage port request) always any_result;
  sp_send : forall m, steadily (SendPreparedMessage port m) (fun w => staged w op m) any_result;
  sp_exists : forall room event, steadily (EventExists port room event) always any_result;
  sp_status : forall status m, EventStatus port = Some status ->
    steadily (status m) always any_result;
}.

Context `{GoText} (port : PreparedMessagePort W) (store : PreparedStore W).
Context (operation : CapabilityOperationContext) (capability operationName : string).
Context (Hport : steady_port (co_OperationID operation) port) (Hstore : steady_store store).
Notation op := (co_OperationID operation).

(** A receipt names the staged PDU. *)
Definition receipt_staged (receipt : SendMessageResult) (w : W) : Prop :=
  exists m, staged w op m /\ sr_EventID receipt = pm_EventID m.

Lemma mark_sent_steadily receipt :
  steadily (mark_sent store operation receipt) (receipt_staged receipt) receipt_staged.
Proof using Hpre Hmono Hstore.
  intros w Hw. unfold mark_sent, mbind_, run. simpl.
  assert (Hs : steady w (match MarkMatrixPreparedEventSent store with
                         | Some mark => mark operation receipt w | None => w end)).
  { destruct (MarkMatrixPreparedEventSent store) eqn:Hm; [|reflexivity].
    by apply (ss_mark store Hstore). }
  destruct (MarkMatrixPreparedEventSent store); simpl; (split; [done|]); intros ? [= <-];
    destruct Hw as (m & Hm & ?); exists m; split; [by eapply Hmono|done| |done];
    by eapply Hmono.
Qed.

Lemma validatePreparedReceipt_event prepared receipt receipt' :
  validatePreparedReceipt prepared receipt = Ok receipt' ->
  sr_EventID receipt' = pm_EventID prepared.
Proof using Type.
  unfold validatePreparedReceipt. case_match; [discriminate|].
  destruct (str_eqb _ _) eqn:He; simpl; [|discriminate].
  apply bool_decide_eq_true in He. intros [= <-]. by case_match.
Qed.

Lemma send_staged_steadily verb message :
  steadily (send_staged port store operation verb message)
    (fun w => staged w op message) receipt_staged.
Proof using Hpre Hmono Hport Hstore.
  apply steadily_bind with (Q := fun _ w => staged w op message).
  - intros w Hw. destruct (sp_send _ port Hport message w Hw) as [Hs _].
    destruct (SendPreparedMessage port message w) as [w' [r|e]]; simpl in *.
    + split; [done|]. intros _ _. by eapply Hmono.
    + destruct e; simpl; (split; [done|discriminate]).
  - intros receipt. apply steadily_bind with (Q := receipt_staged).
    + apply steadily_or_unknown. intros w Hw. split; [reflexivity|]. simpl.
      intros receipt' Hr. exists message. split; [done|].
      by apply validatePreparedReceipt_event in Hr.
    + intros receipt'. apply mark_sent_steadily.
Qed.

Lemma exists_event_steadily message :
  steadily (exists_event port message) (fun w => staged w op message)
    (fun _ w => staged w op message).
Proof using Hpre Hmono Hport.
  apply steadily_or_unknown.
  eapply steadily_weaken; [apply steadily_frame;
    [apply (staged_stable op message)|apply (sp_exists _ port Hport)]|done|].
  by intros a w [? _].
Qed.

Lemma receipt_of_steadily message :
  steadily (mark_sent store operation (receipt_of message))
    (fun w => staged w op message) receipt_staged.
Proof using Hpre Hmono Hstore.
  eapply steadily_weaken; [apply mark_sent_steadily| |done].
  intros w Hw. by exists message.
Qed.

Lemma resend_if_absent_steadily message :
  steadily (resend_if_absent port store operation message)
    (fun w => staged w op message) receipt_staged.
Proof using Hpre Hmono Hport Hstore.
  eapply steadily_bind; [apply exists_event_steadily|].
  intros [|]; [apply receipt_of_steadily|apply send_staged_steadily].
Qed.

Lemma reconcile_steadily message :
  steadily (reconcile port store operation message)
    (fun w => staged w op message) receipt_staged.
Proof using Hpre Hmono Hport Hstore.
  unfold reconcile. destruct (EventStatus port) as [status|] eqn:Hst;
    [|apply resend_if_absent_steadily].
  eapply steadily_bind with (Q := fun _ w => staged w op message).
  - apply steadily_or_unknown.
    eapply steadily_weaken; [apply steadily_frame;
      [apply (staged_stable op message)|by apply (sp_status _ port Hport)]|done|].
    by intros a w [? _].
  - intros disposition. repeat case_match; try apply steadily_fail; [apply receipt_of_steadily|].
    eapply steadily_bind; [apply exists_event_steadily|].
    intros [|]; [apply steadily_fail|apply resend_if_absent_steadily].
Qed.

Lemma stage_and_send_steadily request :
  steadily (stage_and_send port store operation capability operationName request)
    always receipt_staged.
Proof using Hpre Hmono Hport Hstore.
  eapply steadily_bind; [apply (sp_prepare _ port Hport)|]. intros prepared.
  eapply steadily_bind with (Q := any_result).
  { intros w _. split; [reflexivity|done]. }
  intros []. eapply steadily_bind with (Q := fun _ w => staged w op prepared).
  - eapply steadily_weaken; [apply (ss_prepare store Hstore)|done|]. by intros a w Hst.
  - intros []. apply send_staged_steadily.
Qed.

Lemma execute_prepared_steadily request :
  steadily (execute_prepared port store operation capability operationName request)
    always receipt_staged.
Proof using Hpre Hmono Hport Hstore.
  unfold execute_prepared. case_match; [apply steadily_fail|].
  intros w _. destruct (ss_get store Hstore operation w I) as [Hs Hget].
  destruct (GetMatrixPreparedEvent store operation w) as [w' [[existing|]|e]]; simpl in *.
  - specialize (Hget _ eq_refl existing eq_refl).
    case_match; [split; [done|discriminate]|].
    destruct (reconcile_steadily (pe_Event existing) w' Hget). split; [|done].
    by etrans.
  - destruct (stage_and_send_steadily request w' I). split; [|done]. by etrans.
  - destruct e; try (split; [done|discriminate]).
    destruct (stage_and_send_steadily request w' I). split; [|done]. by etrans.
Qed.
End Guarantee.

(** ** The PostgreSQL store keeps its promise *)

Import PreparedTable.

Lemma preparedMatrixEventEqual_event a b :
  preparedMatrixEventEqual a b = true -> pe_Event a = pe_Event b.
Proof.
  unfold preparedMatrixEventEqual. rewrite !andb_true_iff.
  intros (_ & Heq). destruct (pe_Event a), (pe_Event b). simpl in Heq. unfold str_eqb in Heq.
  rewrite !bool_decide_eq_true, Z.eqb_eq in Heq. destruct_and?. by subst.
Qed.

Section Tables.
Context `{GoText}.
Implicit Types (t : tables) (op : string) (m : PreparedMessage).

(** The PDU of the row of an operation; an operation that is over. *)
Definition row_pdu t op m : Prop :=
  exists r, prepared_events t !! op = Some r /\ pe_Event (row_event r) = m.

Definition terminal_states : list string := ["completed"; "failed"; "cancelled"].

Definition over t op : Prop :=
  exists st, capability_operations t !! op = Some st /\ st ∈ terminal_states.

Lemma row_pdu_unique t op m m' : row_pdu t op m -> row_pdu t op m' -> m = m'.
Proof using Type. intros (r & Hr & <-) (r' & Hr' & <-). congruence. Qed.

(** Only an absent row is reported as no row. *)
Lemma scan_no_rows r : scanPreparedMatrixEvent r = Err NoRows -> r = None.
Proof using Type.
  destruct r as [r|]; [|done]. unfold scanPreparedMatrixEvent, validatePreparedMatrixEvent, rbind.
  repeat case_match; simplify_eq; discriminate.
Qed.

(** Staging: the PDU is the one in the row, or the row is new and the operation
    is not over. *)
Lemma table_prepare t event t' r :
  PrepareMatrixEvent t event = (t', r) ->
  (r = Ok tt -> row_pdu t' (pe_OperationID event) (pe_Event event)) /\
  (t' = t \/
   r = Ok tt /\ prepared_events t !! pe_OperationID event = None /\ ~ over t (pe_OperationID event) /\
   capability_operations t' = capability_operations t /\
   forall op, op <> pe_OperationID event -> prepared_events t' !! op = prepared_events t !! op).
Proof using Type.
  unfold PrepareMatrixEvent. repeat case_match; intros ?; simplify_eq/=;
    try (split; [discriminate|by left]).
  - split; [|by left]. intros _.
    unfold scanPreparedMatrixEvent, rbind in *. repeat case_match; simplify_eq/=.
    match goal with Hn : negb _ = false |- _ =>
      apply negb_false_iff, preparedMatrixEventEqual_event in Hn end.
    by eexists.
  - split; [intros _; eexists; simpl; by rewrite lookup_insert_eq|]. right.
    match goal with Hs : scanPreparedMatrixEvent _ = _ |- _ => apply scan_no_rows in Hs end.
    do 2 (split; [done|]). split; [|split; [done|intros op Hne; simpl; by rewrite lookup_insert_ne]].
    intros (st & Hst & Hin). simplify_eq. by rewrite bool_decide_eq_true_2 in *.
Qed.

Lemma table_get t o e : GetMatrixPreparedEvent t o = Ok e -> row_pdu t (co_OperationID o) (pe_Event e).
Proof using Type.
  unfold GetMatrixPreparedEvent, scanPreparedMatrixEvent, fenced_row, rbind.
  intros Hr. repeat case_match; simplify_eq/=. by eexists.
Qed.

(** A receipt changes no PDU. *)
Lemma table_mark t o receipt :
  let t' := (MarkMatrixPreparedEventSent t o receipt).1 in
  capability_operations t' = capability_operations t /\
  (forall op, prepared_events t' !! op = None <-> prepared_events t !! op = None) /\
  (forall op m, row_pdu t op m -> row_pdu t' op m).
Proof using Type.
  unfold MarkMatrixPreparedEventSent, fenced_row. cbv zeta.
  repeat case_match; simplify_eq/=; try done. split; [done|]. split.
  - intros op. destruct (decide (op = co_OperationID o)) as [->|Hne];
      [rewrite lookup_insert_eq|by rewrite lookup_insert_ne]. split; congruence.
  - intros op m (r' & Hr' & <-). destruct (decide (op = co_OperationID o)) as [->|Hne].
    + eexists. simpl. rewrite lookup_insert_eq. split; [done|]. simpl. congruence.
    + exists r'. simpl. by rewrite lookup_insert_ne.
Qed.
End Tables.

(** *** Stores that lose no row

    A world in which staged PDUs stay where they are. *)
Section Staged.
Context `{GoText} {X : Type}.

Definition staged_in (w : tables * X) (op : string) (m : PreparedMessage) : Prop := row_pdu w.1 op m.

Definition keeps_staged (w w' : tables * X) : Prop :=
  forall op m, staged_in w op m -> staged_in w' op m.

#[global] Instance keeps_staged_pre : PreOrder keeps_staged.
Proof using Type. split; [by intros w op m|]. intros w1 w2 w3 H12 H23 op m Hm. by apply H23, H12. Qed.

Lemma prepared_store_steady : steady_store staged_in keeps_staged prepared_store.
Proof using Type.
  split.
  - intros o [t x] _. split; [by intros op m|]. simpl. destruct (GetMatrixPreparedEvent t o) eqn:Hg; [|done].
    intros ? [= <-] e [= <-]. by apply table_get in Hg.
  - intros e [t x] _. simpl. destruct (PrepareMatrixEvent t e) as [t' r] eqn:Hp. simpl.
    destruct (table_prepare _ _ _ _ Hp) as [Hok Hch]. split; [|by intros [] ->; apply Hok].
    destruct Hch as [->|(_ & Hnone & _ & _ & Hother)]; [by intros op m|]. intros op m (r0 & Hr0 & <-).
    exists r0. split; [|done]. simpl in *. rewrite Hother; [done|]. intros ->. congruence.
  - intros mark o receipt [t x] [= <-] op m. apply (table_mark t o receipt).
Qed.
End Staged.

(** ** All the parties

    The world of the attempts: the tables, the PDUs that the database has handed
    out for an operation (staged for it or read back), the PDUs that were
    submitted to Matrix, and everything else. *)
Record history (X : Type) := {
  handed : list (string * PreparedMessage);
  submitted : list (string * PreparedMessage);
  outside : X;
}.
Arguments handed {X}.
Arguments submitted {X}.
Arguments outside {X}.
Arguments Build_history {X}.

Definition hand {X} (op : string) (m : PreparedMessage) (h : history X) : history X :=
  {| handed := (op, m) :: handed h; submitted := submitted h; outside := outside h |}.
Definition submit {X} (op : string) (m : PreparedMessage) (h : history X) : history X :=
  {| handed := handed h; submitted := (op, m) :: submitted h; outside := outside h |}.
Definition set_outside {X} (x : X) (h : history X) : history X :=
  {| handed := handed h; submitted := submitted h; outside := x |}.

Section Parties.
Context `{GoText} {X : Type}.
Local Notation W := (tables * history X)%type.

(** One step of anybody who shares the database and the port: a PDU is staged or
    read back; a receipt is recorded; a PDU that was handed out for an operation
    is submitted for it; the ledger accepts an operation or moves its state (what
    is over stays over); the staged PDU of an operation that is over is deleted,
    as after a completion or a cancellation; anything else changes. *)
Inductive party : W -> W -> Prop :=
| party_stage t h e t' : PrepareMatrixEvent t e = (t', Ok tt) ->
    party (t, h) (t', hand (pe_OperationID e) (pe_Event e) h)
| party_read t h o e : GetMatrixPreparedEvent t o = Ok e ->
    party (t, h) (t, hand (co_OperationID o) (pe_Event e) h)
| party_mark t h o receipt : party (t, h) ((MarkMatrixPreparedEventSent t o receipt).1, h)
| party_submit t h op m : (op, m) ∈ handed h -> party (t, h) (t, submit op m h)
| party_ledger t h op st : (over t op -> st ∈ terminal_states) ->
    party (t, h) ({| prepared_events := prepared_events t;
                     capability_operations := <[op := st]> (capability_operations t) |}, h)
| party_delete t h op : over t op ->
    party (t, h) ((DeleteMatrixPreparedEventByOperation t op).1, h)
| party_outside t h x : party (t, h) (t, set_outside x h).

(** Every PDU handed out for an operation is still in its row, or the row is gone
    and the operation over; one PDU per operation; only such PDUs submitted. *)
Definition accounted (w : W) : Prop :=
  (forall op m, (op, m) ∈ handed w.2 ->
     row_pdu w.1 op m \/ prepared_events w.1 !! op = None /\ over w.1 op) /\
  (forall op m m', (op, m) ∈ handed w.2 -> (op, m') ∈ handed w.2 -> m = m') /\
  (forall op m, (op, m) ∈ submitted w.2 -> (op, m) ∈ handed w.2).

(** A PDU that is in the row joins those handed out before. *)
Lemma accounted_hand t h op m :
  accounted (t, h) -> row_pdu t op m -> accounted (t, hand op m h).
Proof using Type.
  intros (Hrow & Huniq & Hsub) Hm.
  assert (Hsame : forall m', (op, m') ∈ handed h -> m' = m).
  { intros m' Hin. destruct (Hrow op m' Hin) as [Hr|[Hnone _]]; [by eapply row_pdu_unique|].
    destruct Hm as (r & Hr & _). simpl in Hnone. congruence. }
  split; [|split]; simpl.
  - intros op' m' [[= -> ->]|Hin]%elem_of_cons; [by left|by apply Hrow].
  - intros op' m1 m2 [[= -> ->]|Hin1]%elem_of_cons [[= Heq]|Hin2]%elem_of_cons; subst; try done.
    + symmetry. by apply Hsame.
    + by apply Hsame.
    + by eapply Huniq.
  - intros op' m' Hin. right. by apply Hsub.
Qed.

(** The tables may change as long as the PDUs handed out stay accounted for. *)
Lemma accounted_tables t t' h :
  (forall op m, (op, m) ∈ handed h -> row_pdu t op m \/ prepared_events t !! op = None /\ over t op ->
     row_pdu t' op m \/ prepared_events t' !! op = None /\ over t' op) ->
  accounted (t, h) -> accounted (t', h).
Proof using Type. intros Ht (Hrow & Hrest). split; [|done]. intros op m Hin. by apply Ht, Hrow. Qed.

Lemma prepare_accounted t h e t' r :
  PrepareMatrixEvent t e = (t', r) -> accounted (t, h) -> accounted (t', h).
Proof using Type.
  intros Hp. destruct (table_prepare _ _ _ _ Hp) as [_ [->|(_ & Hnone & Hlive & Hops & Hother)]]; [done|].
  apply accounted_tables. intros op m _ Hacc. unfold row_pdu, over in *. rewrite Hops.
  destruct (decide (op = pe_OperationID e)) as [->|Hne]; [|by rewrite Hother].
  destruct Hacc as [(r0 & Hr0 & _)|[_ Hover]]; [congruence|by destruct Hlive].
Qed.

Lemma party_accounted w w' : party w w' -> accounted w -> accounted w'.
Proof using Type.
  intros [t h e t' Hp|t h o e Hg|t h o receipt|t h op m Hin|t h op st Hst|t h op Hover|t h x] Hacc.
  - apply accounted_hand; [by eapply prepare_accounted|]. by apply (table_prepare _ _ _ _ Hp).
  - apply accounted_hand; [done|]. by eapply table_get.
  - destruct (table_mark t o receipt) as (Hops & Hnone & Hrows).
    revert Hacc. apply accounted_tables. intros op m _ [Hm|[Hn Ho]]; [left; by apply Hrows|].
    right. unfold over. rewrite Hops. split; [by apply Hnone|done].
  - destruct Hacc as (Hrow & Huniq & Hsub). split; [|split]; [done..|]. simpl.
    intros op' m' [[= -> ->]|Hs]%elem_of_cons; [done|by apply Hsub].
  - revert Hacc. apply accounted_tables. intros op' m _ [Hm|[Hn Ho]]; [by left|]. right. split; [done|].
    unfold over. simpl. destruct (decide (op' = op)) as [->|Hne]; [|by rewrite lookup_insert_ne].
    rewrite lookup_insert_eq. eauto.
  - revert Hacc. apply accounted_tables. unfold DeleteMatrixPreparedEventByOperation, row_pdu.
    destruct (blank op); [done|]. simpl. intros op' m _ Hacc. destruct (decide (op' = op)) as [->|Hne].
    + right. by rewrite lookup_delete_eq.
    + by rewrite lookup_delete_ne.
  - exact Hacc.
Qed.

Lemma parties_accounted w w' : rtc party w w' -> accounted w -> accounted w'.
Proof using Type. induction 1; eauto using party_accounted. Qed.

(** What was handed out stays in the history. *)
Definition handed_out (w : W) (op : string) (m : PreparedMessage) : Prop := (op, m) ∈ handed w.2.

Lemma handed_mono w w' op m : rtc party w w' -> handed_out w op m -> handed_out w' op m.
Proof using Type.
  induction 1 as [|w w1 w' Hp _ IH]; [done|]. intros Hin. apply IH. unfold handed_out in *.
  destruct Hp; simpl in *; try done; by right.
Qed.

(** *** The attempts among them *)

(** The store, with the history of what it hands out. *)
Definition recorded_store : PreparedStore W := {|
  Prepared.PrepareMatrixEvent e := fun w =>
    match Prepared.PrepareMatrixEvent prepared_store e w with
    | ((t, h), Ok u) => ((t, hand (pe_OperationID e) (pe_Event e) h), Ok u)
    | r => r
    end;
  Prepared.GetMatrixPreparedEvent o := fun w =>
    match Prepared.GetMatrixPreparedEvent prepared_store o w with
    | ((t, h), Ok (Some e)) => ((t, hand (co_OperationID o) (pe_Event e) h), Ok (Some e))
    | r => r
    end;
  Prepared.MarkMatrixPreparedEventSent := Prepared.MarkMatrixPreparedEventSent prepared_store |}.

(** Any port to the world outside, with the history of what is submitted. *)
Definition on_outside {A} (m : M X merror A) : M W merror A := fun '(t, h) =>
  let '(x, r) := m (outside h) in ((t, set_outside x h), r).

Definition recorded_port (op : string) (port : PreparedMessagePort X) : PreparedMessagePort W := {|
  PrepareMessage request := on_outside (PrepareMessage port request);
  SendPreparedMessage m := fun '(t, h) => on_outside (SendPreparedMessage port m) (t, submit op m h);
  EventExists room event := on_outside (EventExists port room event);
  EventStatus := match EventStatus port with
                 | Some status => Some (fun m => on_outside (status m))
                 | None => None
                 end |}.

Lemma outside_steadily {A} (m : M X merror A) : steadily (rtc party) (on_outside m) always any_result.
Proof using Type.
  intros [t h] _. unfold on_outside. destruct (m (outside h)) as [x r]. split; [|done].
  apply rtc_once, party_outside.
Qed.

Lemma recorded_port_steady op port : steady_port handed_out (rtc party) op (recorded_port op port).
Proof using Type.
  split.
  - intros request. apply outside_steadily.
  - intros m [t h] Hm. simpl.
    destruct (outside_steadily (SendPreparedMessage port m) (t, submit op m h) I) as [Hs _]. simpl in Hs.
    split; [|done]. etrans; [|exact Hs]. apply rtc_once. by apply party_submit.
  - intros room event. apply outside_steadily.
  - intros status m. simpl. destruct (EventStatus port); [|done]. intros [= <-]. apply outside_steadily.
Qed.

Lemma recorded_store_steady : steady_store handed_out (rtc party) recorded_store.
Proof using Type.
  split.
  - intros o [t h] _. simpl. destruct (GetMatrixPreparedEvent t o) as [e|e] eqn:Hg; simpl.
    + split; [by apply rtc_once, party_read|]. intros ? [= <-] e' [= <-]. left.
    + split; [reflexivity|done].
  - intros e [t h] _. simpl. destruct (PrepareMatrixEvent t e) as [t' [[]|err]] eqn:Hp; simpl.
    + split; [by apply rtc_once, party_stage|]. intros _ _. left.
    + split; [|done]. destruct (table_prepare _ _ _ _ Hp) as [_ [->|[? _]]]; [reflexivity|done].
  - intros mark o receipt [t h] [= <-]. apply rtc_once, party_mark.
Qed.

(** A call with steps of other parties and lost connections before it and after
    it: a lost connection is an error that leaves open whether the call took
    effect. *)
Context (around : W -> W * option goerror).

Definition lossy {A} (m : M W merror A) : M W merror A :=
  fun w => match around w with
           | (w, Some e) => (w, Err (Plain e))
           | (w, None) =>
               match m w with
               | (w, r) => match around w with
                           | (w, Some e) => (w, Err (Plain e))
                           | (w, None) => (w, r)
                           end
               end
           end.

Definition lossy_store (store : PreparedStore W) : PreparedStore W := {|
  Prepared.PrepareMatrixEvent event := lossy (Prepared.PrepareMatrixEvent store event);
  Prepared.GetMatrixPreparedEvent o := lossy (Prepared.GetMatrixPreparedEvent store o);
  Prepared.MarkMatrixPreparedEventSent :=
    match Prepared.MarkMatrixPreparedEventSent store with
    | Some mark => Some (fun o receipt w => match around w with
                                            | (w, Some _) => w
                                            | (w, None) => mark o receipt w
                                            end)
    | None => None
    end |}.

Definition lossy_port (port : PreparedMessagePort W) : PreparedMessagePort W := {|
  PrepareMessage request := lossy (PrepareMessage port request);
  SendPreparedMessage m := lossy (SendPreparedMessage port m);
  EventExists room event := lossy (EventExists port room event);
  EventStatus := match EventStatus port with
                 | Some status => Some (fun m => lossy (status m))
                 | None => None
                 end |}.

Context (Haround : forall w, rtc party w (around w).1).

Lemma steadily_lossy {A} (m : M W merror A) P Q :
  stable (rtc party) P -> (forall a, stable (rtc party) (Q a)) ->
  steadily (rtc party) m P Q -> steadily (rtc party) (lossy m) P Q.
Proof using Haround.
  intros HP HQ Hm w Hw. unfold lossy. pose proof (Haround w) as H0.
  destruct (around w) as [w0 [e|]]; simpl in *; [split; [done|discriminate]|].
  destruct (Hm w0 (HP w w0 H0 Hw)) as [H1 HQ1]. destruct (m w0) as [w1 r]; simpl in *.
  pose proof (Haround w1) as H2.
  assert (Hs : rtc party w (around w1).1) by (etrans; [exact H0|by etrans]).
  destruct (around w1) as [w2 [e|]]; simpl in *; (split; [done|]); [discriminate|].
  intros a Ha. by apply (HQ a w1), HQ1.
Qed.

Lemma handed_stable op m : stable (rtc party) (fun w => handed_out w op m).
Proof using Type. intros w w'. apply handed_mono. Qed.

Lemma lossy_store_steady store :
  steady_store handed_out (rtc party) store -> steady_store handed_out (rtc party) (lossy_store store).
Proof using Haround.
  intros Hs. split; simpl.
  - intros o. apply steadily_lossy; [done| |apply Hs].
    intros r w w' Hw Hr e He. apply (handed_stable _ _ w w' Hw). auto.
  - intros e. apply steadily_lossy; [done| |apply Hs]. intros _. apply handed_stable.
  - intros mark o receipt w. destruct (Prepared.MarkMatrixPreparedEventSent store) eqn:Hm; [|done].
    intros [= <-]. pose proof (Haround w) as H0.
    destruct (around w) as [w0 [e|]]; simpl in *; [done|]. etrans; [done|]. by apply (ss_mark _ _ store Hs).
Qed.

Lemma lossy_port_steady op port :
  steady_port handed_out (rtc party) op port -> steady_port handed_out (rtc party) op (lossy_port port).
Proof using Haround.
  intros Hp. split; simpl.
  - intros request. by apply steadily_lossy, (sp_prepare _ _ _ _ Hp).
  - intros m. apply steadily_lossy; [apply handed_stable|done|apply Hp].
  - intros room event. by apply steadily_lossy, (sp_exists _ _ _ _ Hp).
  - intros status m. destruct (EventStatus port) eqn:Hst; [|done]. intros [= <-].
    by apply steadily_lossy, (sp_status _ _ _ _ Hp).
Qed.
End Parties.

(** ** Attempts *)

Record attempt := {
  at_operation : CapabilityOperationContext;
  at_capability : string;
  at_name : string;
  at_request : SendMessageRequest;
}.

Definition at_id (a : attempt) : string := co_OperationID (at_operation a).

Section Attempts.
Context `{GoText} {X : Type}.
Local Notation W := (tables * history X)%type.
(** The port sees the operation in [ctx]. *)
Context (around : W -> W * option goerror) (port : CapabilityOperationContext -> PreparedMessagePort X).

Definition attempt_once (a : attempt) : M W merror SendMessageResult :=
  ExecutePreparedMatrixMutation
    (Some (lossy_port around (recorded_port (at_id a) (port (at_operation a)))))
    (Some (lossy_store around recorded_store)) (at_operation a) (at_capability a) (at_name a)
    (at_request a).

(** The receipts, each with the operation it was returned for. *)
Fixpoint attempts (l : list attempt) (w : W) : W * list (string * SendMessageResult) :=
  match l with
  | [] => (w, [])
  | a :: l =>
      let '(w, r) := attempt_once a w in
      let '(w, receipts) := attempts l w in
      (w, match r with Ok receipt => (at_id a, receipt) :: receipts | Err _ => receipts end)
  end.

Context (Haround : forall w, rtc party w (around w).1).

Lemma attempts_steady l : forall w,
  rtc party w (attempts l w).1 /\
  (forall op receipt, (op, receipt) ∈ (attempts l w).2 ->
     exists m, handed_out (attempts l w).1 op m /\ sr_EventID receipt = pm_EventID m).
Proof using Haround.
  induction l as [|a l IH]; intros w; simpl.
  { split; [reflexivity|]. intros op receipt Hin. by apply elem_of_nil in Hin. }
  destruct (execute_prepared_steadily handed_out (rtc party) handed_mono
    (lossy_port around (recorded_port (at_id a) (port (at_operation a))))
    (lossy_store around recorded_store) (at_operation a) (at_capability a) (at_name a)
    (lossy_port_steady around Haround _ _ (recorded_port_steady _ _))
    (lossy_store_steady around Haround _ recorded_store_steady) (at_request a) w I) as [Hs Hr].
  unfold attempt_once, ExecutePreparedMatrixMutation.
  destruct (execute_prepared _ _ _ _ _ _ w) as [w1 r]; simpl in *.
  destruct (IH w1) as [Hs1 Hr1]. destruct (attempts l w1) as [w2 receipts]; simpl in *.
  split; [by etrans|]. intros op receipt Hin. destruct r as [r|e]; [|auto].
  apply elem_of_cons in Hin as [[= -> ->]|Hin]; [|auto].
  destruct (Hr r eq_refl) as (m & Hm & Heq). exists m. split; [|done]. by eapply handed_mono.
Qed.
End Attempts.

(** Nothing handed out or submitted yet. *)
Definition fresh {X} (x : X) : history X := {| handed := []; submitted := []; outside := x |}.

(** C5.  The crash-safety claim of [ExecutePreparedMatrixMutation], with the
    PostgreSQL store.  Start from any tables, before anything was handed out or
    submitted, and attempt any operations any number of times, with whatever
    requests and whatever Matrix port; before and after every call of the
    database and of the port the connection may be lost and other parties may
    act: stage and read back PDUs, submit what they were handed, record
    receipts, move operations in the ledger as long as what is over stays over,
    and delete the staged PDU of an operation that is over ([party]).  Then all
    PDUs submitted to Matrix for one operation, by the attempts or by others,
    are the same PDU; every receipt that an attempt returns for the operation
    names that PDU; receipts of one operation agree; and the attempts themselves
    only did what the others may do. *)
Theorem one_pdu_per_operation `{GoText} {X}
    (around : tables * history X -> (tables * history X) * option goerror)
    (port : CapabilityOperationContext -> PreparedMessagePort X)
    (Haround : forall w, rtc party w (around w).1)
    (l : list attempt) (t : tables) (x : X) :
  let '(w', receipts) := attempts around port l (t, fresh x) in
  (forall op m m', (op, m) ∈ submitted w'.2 -> (op, m') ∈ submitted w'.2 -> m = m') /\
  (forall op m receipt, (op, m) ∈ submitted w'.2 -> (op, receipt) ∈ receipts ->
     sr_EventID receipt = pm_EventID m) /\
  (forall op receipt receipt', (op, receipt) ∈ receipts -> (op, receipt') ∈ receipts ->
     sr_EventID receipt = sr_EventID receipt') /\
  rtc party (t, fresh x) w'.
Proof.
  pose proof (attempts_steady around port Haround l (t, fresh x)) as [Hs Hr].
  destruct (attempts around port l (t, fresh x)) as [w' receipts]; simpl in *.
  assert (Hacc : accounted w').
  { eapply parties_accounted; [exact Hs|]. split; [|split]; simpl; set_solver. }
  destruct Hacc as (_ & Huniq & Hsub). split; [|split; [|split; [|exact Hs]]].
  - intros op m m' Hm Hm'. eapply Huniq; by apply Hsub.
  - intros op m receipt Hm (m' & Hm' & ->)%Hr. f_equal. eapply Huniq; [exact Hm'|by apply Hsub].
  - intros op r r' (m & Hm & ->)%Hr (m' & Hm' & ->)%Hr. f_equal. by eapply Huniq.
Qed.


(** A port whose every preparation makes a new PDU, whose first submission goes
    out and is then reported as failed, and which never finds the event; it
    counts preparations and submissions. *)
Module Demo.
#[export] Instance text : GoText := {|
  Marshal := fun _ => Some "{}"; Unmarshal := fun _ => None; ValidJSON := fun _ => true;
  Quote := fun s => s; jsonb := fun s => s |}.

Definition digest : string := "0123456789abcdef0123456789abcdef".

Definition message (n : nat) : PreparedMessage :=
  {| pm_EventID := match n with O => "$a" | _ => "$b" end; pm_RoomID := "!r"; pm_SenderMXID := "@u:h";
     pm_EventType := "m.room.message"; pm_MessageType := "m.text"; pm_OriginServerTS := 5;
     pm_RoomVersion := "10"; pm_EventJSON := "{}"; pm_ContentDigest := digest |}.

Definition counts : Type := nat * nat.

Definition port (o : CapabilityOperationContext) : PreparedMessagePort counts := {|
  PrepareMessage _ := fun '(n, k) => ((S n, k), Ok (message n));
  SendPreparedMessage m := fun '(n, k) =>
    ((n, S k), match k with
               | O => Err (plain "connection reset")
               | _ => Ok {| sr_EventID := pm_EventID m; sr_OriginServerTS := 0 |}
               end);
  EventExists _ _ := ret false;
  EventStatus := None |}.

Definition operation : CapabilityOperationContext :=
  {| co_OperationID := "op1"; co_OwnerID := "@u:h"; co_Generation := 1; co_RootDigest := digest |}.

Definition once : attempt :=
  {| at_operation := operation; at_capability := "channel"; at_name := "comment";
     at_request := {| sm_SenderMXID := "@u:h"; sm_RoomID := "!r"; sm_EventType := "m.room.message";
       sm_MessageType := "m.text"; sm_Content := ∅; sm_Timestamp := 5; sm_LogicalID := "l";
       sm_PostID := "p" |} |}.

Definition running : tables :=
  {| prepared_events := ∅; capability_operations := {[ "op1" := "running" ]} |}.

(** Once two submissions are out, the ledger completes the operation and the
    staged PDU is deleted. *)
Definition complete (t : tables) : tables :=
  {| prepared_events := prepared_events t;
     capability_operations := <["op1" := "completed"]> (capability_operations t) |}.

Definition finishing (w : tables * history counts) : (tables * history counts) * option goerror :=
  let '(t, h) := w in
  if (2 <=? length (submitted h))%nat
  then (((DeleteMatrixPreparedEventByOperation (complete t) "op1").1, h), None)
  else (w, None).

Lemma finishing_party w : rtc party w (finishing w).1.
Proof.
  destruct w as [t h]. unfold finishing. destruct (_ <=? _)%nat; [|reflexivity].
  eapply rtc_l; [apply (party_ledger t h "op1" "completed")|].
  { intros _. unfold terminal_states. left. }
  apply rtc_once, party_delete. exists "completed". simpl. rewrite lookup_insert_eq. split; [done|left].
Qed.

Definition finished : (tables * history counts) * list (string * SendMessageResult) :=
  attempts finishing port [once; once; once] (running, fresh (O, O)).

(** The same port in a world with the tables and no history. *)
Definition world : Type := tables * counts.

Definition lift {A} (m : M counts merror A) : M world merror A := fun '(t, x) =>
  let '(x, r) := m x in ((t, x), r).

Definition lifted_port : PreparedMessagePort world := {|
  PrepareMessage request := lift (PrepareMessage (port operation) request);
  SendPreparedMessage m := lift (SendPreparedMessage (port operation) m);
  EventExists room event := lift (EventExists (port operation) room event);
  EventStatus := None |}.

Lemma lifted_steadily {A} (m : M counts merror A) P : steadily keeps_staged (lift m) P any_result.
Proof. intros [t x] _. unfold lift. destruct (m x). split; [by intros op msg|done]. Qed.

Lemma lifted_port_steady : steady_port staged_in keeps_staged (co_OperationID operation) lifted_port.
Proof. split; [..|done]; intros; apply lifted_steadily. Qed.

Definition start : world := (running, (O, O)).

(** Without the operation's ledger row. *)
Definition unledgered : world :=
  ({| prepared_events := ∅; capability_operations := ∅ |}, (O, O)).

Definition submissions (w : world) : nat := w.2.2.
End Demo.

#[local] Existing Instance Demo.text.

(** Three attempts at one operation: the first loses the reply, the second sends
    the same PDU again, and the third, after the operation was completed and the
    staged PDU deleted, makes a new PDU that is not sent. *)
Lemma one_pdu_per_operation_witness :
  (submitted Demo.finished.1.2 = [("op1", Demo.message 0); ("op1", Demo.message 0)] /\
   Demo.finished.2 = [("op1", {| sr_EventID := "$a"; sr_OriginServerTS := 5 |})] /\
   prepared_events Demo.finished.1.1 !! "op1" = None /\ outside Demo.finished.1.2 = (2, 2)%nat) /\
  (let '(w', receipts) := Demo.finished in
   (forall op m m', (op, m) ∈ submitted w'.2 -> (op, m') ∈ submitted w'.2 -> m = m') /\
   (forall op m receipt, (op, m) ∈ submitted w'.2 -> (op, receipt) ∈ receipts ->
      sr_EventID receipt = pm_EventID m) /\
   (forall op receipt receipt', (op, receipt) ∈ receipts -> (op, receipt') ∈ receipts ->
      sr_EventID receipt = sr_EventID receipt') /\
   rtc party (Demo.running, fresh (O, O)) w').
Proof.
  split; [vm_compute; done|].
  apply (one_pdu_per_operation Demo.finishing Demo.port Demo.finishing_party).
Defined.

(** ** Errors *)

Definition final_or_unknown (e : merror) : Prop :=
  match e with
  | MatrixEventUnknown_ _ | MatrixEventRejected_ _ => True
  | _ => False
  end.

Section Silent.
Context `{GoText} {W L : Type} (log : W -> L).
Context (port : PreparedMessagePort W) (store : PreparedStore W).
Context (operation : CapabilityOperationContext) (capability operationName : string).

(** Calls that submit nothing. *)
Definition silent {E A} (m : M W E A) : Prop := forall w, log (m w).1 = log w.

(** Every call but the submission is silent. *)
Record silent_calls : Prop := {
  sc_prepare : forall request, silent (PrepareMessage port request);
  sc_exists : forall room event, silent (EventExists port room event);
  sc_status : forall status m, EventStatus port = Some status -> silent (status m);
  sc_get : forall o, silent (Prepared.GetMatrixPreparedEvent store o);
  sc_stage : forall e, silent (Prepared.PrepareMatrixEvent store e);
}.
Context (Hsilent : silent_calls).

(** An error is final or unknown, or nothing was submitted. *)
Definition honest {A} (m : M W merror A) : Prop :=
  forall w, match (m w).2 with
            | Ok _ => True
            | Err e => final_or_unknown e \/ log (m w).1 = log w
            end.

Lemma honest_silent {A} (m : M W merror A) : silent m -> honest m.
Proof using Type. intros Hm w. case_match; auto. Qed.

Lemma honest_bind {A B} (m : M W merror A) (k : A -> M W merror B) :
  silent m -> (forall a, honest (k a)) -> honest (mbind_ m k).
Proof using Type.
  intros Hm Hk w. unfold mbind_. specialize (Hm w). destruct (m w) as [w' [a|e]]; simpl in *; [|auto].
  specialize (Hk a w'). case_match; [done|]. by rewrite <- Hm.
Qed.

Lemma silent_or_unknown {A} what message (m : M W merror A) :
  silent m -> silent (or_unknown what message m).
Proof using Type.
  intros Hm w. unfold or_unknown. specialize (Hm w). by destruct (m w) as [w' [a|e]].
Qed.

Lemma honest_mark_sent receipt : honest (mark_sent store operation receipt).
Proof using Type. by intros w. Qed.

Lemma honest_send_staged verb message :
  honest (send_staged port store operation verb message).
Proof using Type.
  intros w. unfold send_staged, mbind_, or_unknown, reads.
  destruct (SendPreparedMessage port message w) as [w' [r|e]]; simpl.
  - destruct (validatePreparedReceipt message r); simpl; [done|by left].
  - destruct e; simpl; by left.
Qed.

Lemma silent_exists_event message : silent (exists_event port message).
Proof using Hsilent. by apply silent_or_unknown, (sc_exists Hsilent). Qed.

Lemma honest_resend message : honest (resend_if_absent port store operation message).
Proof using Hsilent.
  apply honest_bind; [apply silent_exists_event|].
  intros [|]; [apply honest_mark_sent|apply honest_send_staged].
Qed.

Lemma honest_reconcile message : honest (reconcile port store operation message).
Proof using Hsilent.
  unfold reconcile. destruct (EventStatus port) eqn:Hst; [|apply honest_resend].
  apply honest_bind; [by apply silent_or_unknown, (sc_status Hsilent)|]. intros disposition.
  repeat case_match; try by apply honest_silent.
  { apply honest_mark_sent. }
  apply honest_bind; [apply silent_exists_event|].
  intros [|]; [by apply honest_silent|apply honest_resend].
Qed.

Lemma honest_stage_and_send request :
  honest (stage_and_send port store operation capability operationName request).
Proof using Hsilent.
  apply honest_bind; [apply Hsilent|]. intros prepared.
  apply honest_bind; [done|]. intros _. apply honest_bind; [apply Hsilent|]. intros _.
  apply honest_send_staged.
Qed.
End Silent.

(** The error contract of [ExecutePreparedMatrixMutation]: when only the
    submission itself writes to Matrix, an error that is neither "acceptance
    unknown" nor "rejected" means that this attempt submitted nothing, so the
    operation may be failed without leaving an unaccounted event behind. *)
Theorem plain_error_submits_nothing `{GoText} {W L : Type} (log : W -> L)
    (port : PreparedMessagePort W) (store : PreparedStore W)
    (Hsilent : silent_calls log port store) operation capability operationName request w w' e
    (Hrun : ExecutePreparedMatrixMutation (Some port) (Some store) operation capability
              operationName request w = (w', Err e))
    (He : ~ final_or_unknown e) :
  log w' = log w.
Proof.
  assert (Hh : honest log (ExecutePreparedMatrixMutation (Some port) (Some store) operation
                 capability operationName request)).
  { unfold ExecutePreparedMatrixMutation, execute_prepared. case_match; [by apply honest_silent|].
    clear Hrun w. intros w. pose proof (sc_get _ _ _ Hsilent operation w) as Hget.
    destruct (Prepared.GetMatrixPreparedEvent store operation w) as [w1 [[existing|]|e1]];
      simpl in *; rewrite <- Hget.
    - destruct (negb _ || negb _); [by right|]. by apply honest_reconcile.
    - by apply honest_stage_and_send.
    - destruct e1; try (by right). by apply honest_stage_and_send. }
  specialize (Hh w). rewrite Hrun in Hh. simpl in Hh. by destruct Hh.
Qed.

(** An operation that the ledger does not know: nothing is staged or sent. *)
Import Demo.
Lemma plain_error_submits_nothing_witness :
  Demo.submissions (ExecutePreparedMatrixMutation (Some Demo.lifted_port) (Some prepared_store)
    Demo.operation "channel" "comment" (at_request Demo.once) Demo.unledgered).1 =
  Demo.submissions Demo.unledgered.
Proof.
  apply (plain_error_submits_nothing Demo.submissions Demo.lifted_port prepared_store)
    with (operation := Demo.operation) (capability := "channel") (operationName := "comment")
         (request := at_request Demo.once) (e := NoRows).
  - split.
    + by intros request [t [n k]].
    + by intros room event [t [n k]].
    + done.
    + done.
    + intros e [t x]. unfold prepared_store. simpl. by destruct (PrepareMatrixEvent t e).
  - vm_compute. reflexivity.
  - simpl. intros [].
Defined.
