(* ===== verification/Conversation.v ===== *)
(** * Conversations

    [p2p/internal/conversation]: the conversation module over any store that
    implements [ConversationStore], and the view it presents of a record,
    hydrated with the related contact, group, channel and member facts. *)

From Stdlib Require Import Ascii String ZArith Lia.
From stdpp Require Import base tactics list gmap strings.
From S2P Require Import Prelude GoStrings Values Domain Policy Action MemoryTables.
Local Open Scope Z_scope.
Local Open Scope go_scope.

Module Caps.
Record ConversationCapabilities := mk {
  Open : bool;
  Send : bool;
  SendMedia : bool;
  Call : bool;
  Invite : bool;
  ManageMembers : bool;
  Rename : bool;
  RemoveMembers : bool;
  Leave : bool;
  Delete : bool;
  PostCreate : bool;
  CommentCreate : bool;
  ReactionToggle : bool;
  PostRecall : bool;
  CommentRecall : bool;
  CommentsEnabled : bool;
}.
#[global] Instance ConversationCapabilities_eq_dec : EqDecision ConversationCapabilities.
Proof. solve_decision. Defined.
End Caps.

Module CView.
Record ConversationView := mk {
  ConversationID : string;
  MatrixRoomID : string;
  Kind : string;
  Lifecycle : string;
  PeerMXID : string;
  MemberCount : Z;
  Membership : string;
  RelationshipStatus : string;
  Role : string;
  HydrationState : string;
  HydrationReason : string;
  Capabilities : Caps.ConversationCapabilities;
  Title : string;
  AvatarURL : string;
  LastEventID : string;
  LastMessage : string;
  LastActivityAt : Z;
  ProjectionState : string;
  ProjectionReason : string;
  ChannelType : string;
  CommentsEnabled : bool;
}.
Definition set_PeerMXID (v : string) (r : ConversationView) : ConversationView :=
  {| ConversationID := ConversationID r; MatrixRoomID := MatrixRoomID r;
     Kind := Kind r; Lifecycle := Lifecycle r; PeerMXID := v;
     MemberCount := MemberCount r; Membership := Membership r;
     RelationshipStatus := RelationshipStatus r; Role := Role r;
     HydrationState := HydrationState r; HydrationReason := HydrationReason r;
     Capabilities := Capabilities r; Title := Title r; AvatarURL := AvatarURL r;
     LastEventID := LastEventID r; LastMessage := LastMessage r;
     LastActivityAt := LastActivityAt r; ProjectionState := ProjectionState r;
     ProjectionReason := ProjectionReason r; ChannelType := ChannelType r;
     CommentsEnabled := CommentsEnabled r |}.
Definition set_MemberCount (v : Z) (r : ConversationView) : ConversationView :=
  {| ConversationID := ConversationID r; MatrixRoomID := MatrixRoomID r;
     Kind := Kind r; Lifecycle := Lifecycle r; PeerMXID := PeerMXID r;
     MemberCount := v; Membership := Membership r;
     RelationshipStatus := RelationshipStatus r; Role := Role r;
     HydrationState := HydrationState r; HydrationReason := HydrationReason r;
     Capabilities := Capabilities r; Title := Title r; AvatarURL := AvatarURL r;
     LastEventID := LastEventID r; LastMessage := LastMessage r;
     LastActivityAt := LastActivityAt r; ProjectionState := ProjectionState r;
     ProjectionReason := ProjectionReason r; ChannelType := ChannelType r;
     CommentsEnabled := CommentsEnabled r |}.
Definition set_Membership (v : string) (r : ConversationView) : ConversationView :=
  {| ConversationID := ConversationID r; MatrixRoomID := MatrixRoomID r;
     Kind := Kind r; Lifecycle := Lifecycle r; PeerMXID := PeerMXID r;
     MemberCount := MemberCount r; Membership := v;
     RelationshipStatus := RelationshipStatus r; Role := Role r;
     HydrationState := HydrationState r; HydrationReason := HydrationReason r;
     Capabilities := Capabilities r; Title := Title r; AvatarURL := AvatarURL r;
     LastEventID := LastEventID r; LastMessage := LastMessage r;
     LastActivityAt := LastActivityAt r; ProjectionState := ProjectionState r;
     ProjectionReason := ProjectionReason r; ChannelType := ChannelType r;
     CommentsEnabled := CommentsEnabled r |}.
Definition set_RelationshipStatus (v : string) (r : ConversationView) : ConversationView :=
  {| ConversationID := ConversationID r; MatrixRoomID := MatrixRoomID r;
     Kind := Kind r; Lifecycle := Lifecycle r; PeerMXID := PeerMXID r;
     MemberCount := MemberCount r; Membership := Membership r;
     RelationshipStatus := v; Role := Role r; HydrationState := HydrationState r;
     HydrationReason := HydrationReason r; Capabilities := Capabilities r;
     Title := Title r; AvatarURL := AvatarURL r; LastEventID := LastEventID r;
     LastMessage := LastMessage r; LastActivityAt := LastActivityAt r;
     ProjectionState := ProjectionState r; ProjectionReason := ProjectionReason r;
     ChannelType := ChannelType r; CommentsEnabled := CommentsEnabled r |}.
Definition set_Role (v : string) (r : ConversationView) : ConversationView :=
  {| ConversationID := ConversationID r; MatrixRoomID := MatrixRoomID r;
     Kind := Kind r; Lifecycle := Lifecycle r; PeerMXID := PeerMXID r;
     MemberCount := MemberCount r; Membership := Membership r;
     RelationshipStatus := RelationshipStatus r; Role := v;
     HydrationState := HydrationState r; HydrationReason := HydrationReason r;
     Capabilities := Capabilities r; Title := Title r; AvatarURL := AvatarURL r;
     LastEventID := LastEventID r; LastMessage := LastMessage r;
     LastActivityAt := LastActivityAt r; ProjectionState := ProjectionState r;
     ProjectionReason := ProjectionReason r; ChannelType := ChannelType r;
     CommentsEnabled := CommentsEnabled r |}.
Definition set_HydrationState (v : string) (r : ConversationView) : ConversationView :=
  {| ConversationID := ConversationID r; MatrixRoomID := MatrixRoomID r;
     Kind := Kind r; Lifecycle := Lifecycle r; PeerMXID := PeerMXID r;
     MemberCount := MemberCount r; Membership := Membership r;
     RelationshipStatus := RelationshipStatus r; Role := Role r;
     HydrationState := v; HydrationReason := HydrationReason r;
     Capabilities := Capabilities r; Title := Title r; AvatarURL := AvatarURL r;
     LastEventID := LastEventID r; LastMessage := LastMessage r;
     LastActivityAt := LastActivityAt r; ProjectionState := ProjectionState r;
     ProjectionReason := ProjectionReason r; ChannelType := ChannelType r;
     CommentsEnabled := CommentsEnabled r |}.
Definition set_HydrationReason (v : string) (r : ConversationView) : ConversationView :=
  {| ConversationID := ConversationID r; MatrixRoomID := MatrixRoomID r;
     Kind := Kind r; Lifecycle := Lifecycle r; PeerMXID := PeerMXID r;
     MemberCount := MemberCount r; Membership := Membership r;
     RelationshipStatus := RelationshipStatus r; Role := Role r;
     HydrationState := HydrationState r; HydrationReason := v;
     Capabilities := Capabilities r; Title := Title r; AvatarURL := AvatarURL r;
     LastEventID := LastEventID r; LastMessage := LastMessage r;
     LastActivityAt := LastActivityAt r; ProjectionState := ProjectionState r;
     ProjectionReason := ProjectionReason r; ChannelType := ChannelType r;
     CommentsEnabled := CommentsEnabled r |}.
Definition set_Capabilities (v : Caps.ConversationCapabilities) (r : ConversationView) : ConversationView :=
  {| ConversationID := ConversationID r; MatrixRoomID := MatrixRoomID r;
     Kind := Kind r; Lifecycle := Lifecycle r; PeerMXID := PeerMXID r;
     MemberCount := MemberCount r; Membership := Membership r;
     RelationshipStatus := RelationshipStatus r; Role := Role r;
     HydrationState := HydrationState r; HydrationReason := HydrationReason r;
     Capabilities := v; Title := Title r; AvatarURL := AvatarURL r;
     LastEventID := LastEventID r; LastMessage := LastMessage r;
     LastActivityAt := LastActivityAt r; ProjectionState := ProjectionState r;
     ProjectionReason := ProjectionReason r; ChannelType := ChannelType r;
     CommentsEnabled := CommentsEnabled r |}.
Definition set_Title (v : string) (r : ConversationView) : ConversationView :=
  {| ConversationID := ConversationID r; MatrixRoomID := MatrixRoomID r;
     Kind := Kind r; Lifecycle := Lifecycle r; PeerMXID := PeerMXID r;
     MemberCount := MemberCount r; Membership := Membership r;
     RelationshipStatus := RelationshipStatus r; Role := Role r;
     HydrationState := HydrationState r; HydrationReason := HydrationReason r;
     Capabilities := Capabilities r; Title := v; AvatarURL := AvatarURL r;
     LastEventID := LastEventID r; LastMessage := LastMessage r;
     LastActivityAt := LastActivityAt r; ProjectionState := ProjectionState r;
     ProjectionReason := ProjectionReason r; ChannelType := ChannelType r;
     CommentsEnabled := CommentsEnabled r |}.
Definition set_AvatarURL (v : string) (r : ConversationView) : ConversationView :=
  {| ConversationID := ConversationID r; MatrixRoomID := MatrixRoomID r;
     Kind := Kind r; Lifecycle := Lifecycle r; PeerMXID := PeerMXID r;
     MemberCount := MemberCount r; Membership := Membership r;
     RelationshipStatus := RelationshipStatus r; Role := Role r;
     HydrationState := HydrationState r; HydrationReason := HydrationReason r;
     Capabilities := Capabilities r; Title := Title r; AvatarURL := v;
     LastEventID := LastEventID r; LastMessage := LastMessage r;
     LastActivityAt := LastActivityAt r; ProjectionState := ProjectionState r;
     ProjectionReason := ProjectionReason r; ChannelType := ChannelType r;
     CommentsEnabled := CommentsEnabled r |}.
Definition set_ChannelType (v : string) (r : ConversationView) : ConversationView :=
  {| ConversationID := ConversationID r; MatrixRoomID := MatrixRoomID r;
     Kind := Kind r; Lifecycle := Lifecycle r; PeerMXID := PeerMXID r;
     MemberCount := MemberCount r; Membership := Membership r;
     RelationshipStatus := RelationshipStatus r; Role := Role r;
     HydrationState := HydrationState r; HydrationReason := HydrationReason r;
     Capabilities := Capabilities r; Title := Title r; AvatarURL := AvatarURL r;
     LastEventID := LastEventID r; LastMessage := LastMessage r;
     LastActivityAt := LastActivityAt r; ProjectionState := ProjectionState r;
     ProjectionReason := ProjectionReason r; ChannelType := v;
     CommentsEnabled := CommentsEnabled r |}.
Definition set_CommentsEnabled (v : bool) (r : ConversationView) : ConversationView :=
  {| ConversationID := ConversationID r; MatrixRoomID := MatrixRoomID r;
     Kind := Kind r; Lifecycle := Lifecycle r; PeerMXID := PeerMXID r;
     MemberCount := MemberCount r; Membership := Membership r;
     RelationshipStatus := RelationshipStatus r; Role := Role r;
     HydrationState := HydrationState r; HydrationReason := HydrationReason r;
     Capabilities := Capabilities r; Title := Title r; AvatarURL := AvatarURL r;
     LastEventID := LastEventID r; LastMessage := LastMessage r;
     LastActivityAt := LastActivityAt r; ProjectionState := ProjectionState r;
     ProjectionReason := ProjectionReason r; ChannelType := ChannelType r;
     CommentsEnabled := v |}.
#[global] Instance ConversationView_eq_dec : EqDecision ConversationView.
Proof. solve_decision. Defined.
End CView.

(** [conversation.Store] *)
Class ConversationStore (S : Type) := {
  UpsertConversation : Z -> S -> Conv.ConversationRecord -> S * result goerror unit;
  SetConversationCreator : S -> string -> string -> S * result goerror unit;
  GetConversationByID : S -> string -> result goerror (option Conv.ConversationRecord);
  GetConversationByRoomID : S -> string -> result goerror (option Conv.ConversationRecord);
  ListConversations : S -> result goerror (list Conv.ConversationRecord);
  DeleteConversationByRoomID : S -> string -> S * result goerror unit;
}.

#[export] Instance memory_conversation_store `{GoRange} : ConversationStore T.tables := {
  UpsertConversation := MemoryTables.UpsertConversation;
  SetConversationCreator := MemoryTables.SetConversationCreator;
  GetConversationByID s id := Ok (MemoryTables.GetConversationByID s id);
  GetConversationByRoomID s room := Ok (MemoryTables.GetConversationByRoomID s room);
  ListConversations s := Ok (MemoryTables.ListConversations s);
  DeleteConversationByRoomID s room := (MemoryTables.DeleteConversationByRoomID s room, Ok ());
}.

Module Conversation.
(** [Hydrator]: the related product facts. *)
Record Hydrator (S : Type) := {
  ContactByRoom : S -> string -> result goerror (option Contact.ContactRecord);
  GroupByRoom : S -> string -> result goerror (option Group.GroupRecord);
  ChannelByRoom : S -> string -> result goerror (option Chan.Channel);
  CountJoinedMembers : S -> string -> string -> result goerror Z;
  Member_ : S -> string -> string -> result goerror (option Member.MemberRecord);
  OwnerMXID : S -> string;
}.
Arguments ContactByRoom {S}.
Arguments GroupByRoom {S}.
Arguments ChannelByRoom {S}.
Arguments CountJoinedMembers {S}.
Arguments Member_ {S}.
Arguments OwnerMXID {S}.

Definition trimmedFallback (value fallback : string) : string :=
  if negb (str_empty (trim_space value)) then trim_space value else fallback.

Definition no_capabilities : Caps.ConversationCapabilities :=
  {| Caps.Open := false; Caps.Send := false; Caps.SendMedia := false; Caps.Call := false;
     Caps.Invite := false; Caps.ManageMembers := false; Caps.Rename := false;
     Caps.RemoveMembers := false; Caps.Leave := false; Caps.Delete := false;
     Caps.PostCreate := false; Caps.CommentCreate := false; Caps.ReactionToggle := false;
     Caps.PostRecall := false; Caps.CommentRecall := false; Caps.CommentsEnabled := false |}.

Definition conversationViewFromRecord (r : Conv.ConversationRecord) : CView.ConversationView :=
  {| CView.ConversationID := Conv.ConversationID r; CView.MatrixRoomID := Conv.MatrixRoomID r;
     CView.Kind := Conv.Kind r; CView.Lifecycle := Conv.Lifecycle r;
     CView.PeerMXID := Conv.PeerMXID r; CView.MemberCount := 0; CView.Membership := "";
     CView.RelationshipStatus := ""; CView.Role := ""; CView.HydrationState := "";
     CView.HydrationReason := ""; CView.Capabilities := no_capabilities;
     CView.Title := Conv.Title r; CView.AvatarURL := Conv.AvatarURL r;
     CView.LastEventID := Conv.LastEventID r; CView.LastMessage := Conv.LastMessage r;
     CView.LastActivityAt := Conv.LastActivityAt r;
     CView.ProjectionState := Conv.ProjectionState r;
     CView.ProjectionReason := Conv.ProjectionReason r; CView.ChannelType := "";
     CView.CommentsEnabled := false |}.

Definition directMembership (status : string) : string :=
  let s := to_lower (trim_space status) in
  if str_eqb s "accepted" then "join"
  else if str_eqb s "pending_inbound" || str_eqb s "pending_outbound" || str_eqb s "pending"
  then "pending"
  else if str_eqb s "rejected" || str_eqb s "reject" then "reject"
  else trim_space status.

Definition hydration (view : CView.ConversationView) : string * string :=
  if negb (str_empty (CView.ProjectionState view)) &&
     negb (str_eqb (CView.ProjectionState view) "ready")
  then (CView.ProjectionState view, CView.ProjectionReason view)
  else if str_eqb (CView.Kind view) "direct" &&
          str_empty (trim_space (CView.PeerMXID view)) &&
          str_empty (trim_space (CView.RelationshipStatus view))
  then ("pending", "direct_relationship_missing")
  else if (str_eqb (CView.Kind view) "group" || str_eqb (CView.Kind view) "channel") &&
          str_empty (trim_space (CView.Membership view))
  then ("pending", "owner_membership_missing")
  else ("ready", "").

Definition capabilities (view : CView.ConversationView) : Caps.ConversationCapabilities :=
  let active := str_eqb (CView.Lifecycle view) "active" in
  let ready := str_eqb (CView.HydrationState view) "ready" in
  if str_eqb (CView.Kind view) "system" then
    {| Caps.Open := ready && active; Caps.Send := false; Caps.SendMedia := false;
       Caps.Call := false; Caps.Invite := false; Caps.ManageMembers := false;
       Caps.Rename := false; Caps.RemoveMembers := false; Caps.Leave := false;
       Caps.Delete := false; Caps.PostCreate := false; Caps.CommentCreate := false;
       Caps.ReactionToggle := false; Caps.PostRecall := false; Caps.CommentRecall := false;
       Caps.CommentsEnabled := false |}
  else
    let joined := MemberMembershipJoined (CView.Membership view) in
    let owner := ProductOwnerRole (CView.Role view) in
    let isDirect := str_eqb (CView.Kind view) "direct" in
    let isChannel := str_eqb (CView.Kind view) "channel" in
    let open := if isDirect
                then ready && active && equal_fold (CView.RelationshipStatus view) "accepted"
                else ready && active && joined in
    let memberConversation := str_eqb (CView.Kind view) "group" || isChannel in
    let canCall := open && negb isChannel in
    let manageMembers := open && owner && memberConversation in
    let leave := open && memberConversation in
    let deleteConversation := if isDirect then open else manageMembers in
    {| Caps.Open := open; Caps.Send := open; Caps.SendMedia := open; Caps.Call := canCall;
       Caps.Invite := manageMembers; Caps.ManageMembers := manageMembers;
       Caps.Rename := manageMembers; Caps.RemoveMembers := manageMembers; Caps.Leave := leave;
       Caps.Delete := deleteConversation; Caps.PostCreate := open && owner && isChannel;
       Caps.CommentCreate := open && isChannel && CView.CommentsEnabled view;
       Caps.ReactionToggle := open && isChannel; Caps.PostRecall := open && owner && isChannel;
       Caps.CommentRecall := open && owner && isChannel;
       Caps.CommentsEnabled := isChannel && CView.CommentsEnabled view |}.

Definition finalizeView (view : CView.ConversationView) : CView.ConversationView :=
  let '(state, reason) := hydration view in
  let view := CView.set_HydrationReason reason (CView.set_HydrationState state view) in
  CView.set_Capabilities (capabilities view) view.

Section Module_.
Context {S : Type} `{ConversationStore S} (hydrator : Hydrator S).
Implicit Types s : S.

Definition directView s (view : CView.ConversationView) : result goerror CView.ConversationView :=
  let? contact := if str_empty (trim_space (CView.MatrixRoomID view)) then Ok None
                else ContactByRoom hydrator s (CView.MatrixRoomID view) in
  let view := match contact with
            | Some c =>
                CView.set_Membership (directMembership (Contact.Status c))
                  (CView.set_RelationshipStatus (Contact.Status c)
                  (CView.set_AvatarURL (trimmedFallback (Contact.AvatarURL c) (CView.AvatarURL view))
                  (CView.set_Title (trimmedFallback (Contact.DisplayName c) (CView.Title view))
                  (CView.set_PeerMXID (trimmedFallback (Contact.PeerMXID c) (CView.PeerMXID view))
                     view))))
            | None => CView.set_Membership "join" view
            end in
  Ok (CView.set_Role "member" (CView.set_MemberCount 2 view)).

Definition hydrateMembership s (view : CView.ConversationView) (channelID : string)
  : result goerror CView.ConversationView :=
  let? joined := CountJoinedMembers hydrator s (CView.MatrixRoomID view) channelID in
  let view := if 0 <? joined then CView.set_MemberCount joined view else view in
  let ownerMXID := OwnerMXID hydrator s in
  if str_empty (CView.MatrixRoomID view) || str_empty ownerMXID then Ok view
  else
  let? member := Member_ hydrator s (CView.MatrixRoomID view) ownerMXID in
  Ok (match member with
      | Some m =>
          if negb (MemberHidden (Member.Membership m))
          then CView.set_Role (NormalizeProductMemberRole (Member.Role m))
                 (CView.set_Membership (Member.Membership m) view)
          else view
      | None => view
      end).

Definition groupView s (view : CView.ConversationView) : result goerror CView.ConversationView :=
  let? group := GroupByRoom hydrator s (CView.MatrixRoomID view) in
  let view := match group with
            | Some g => if 0 <? Group.MemberCount g
                        then CView.set_MemberCount (Group.MemberCount g) view else view
            | None => view
            end in
  hydrateMembership s view "".

Definition channelView s (view : CView.ConversationView) : result goerror CView.ConversationView :=
  let? channel := ChannelByRoom hydrator s (CView.MatrixRoomID view) in
  match channel with
  | Some ch =>
    let view := CView.set_CommentsEnabled (Chan.CommentsEnabled ch)
                  (CView.set_ChannelType (trimmedFallback (Chan.ChannelType ch) "chat")
                  (CView.set_AvatarURL (trimmedFallback (Chan.AvatarURL ch) (CView.AvatarURL view))
                  (CView.set_Title (trimmedFallback (Chan.Name ch) (CView.Title view)) view))) in
    let view := if 0 <? Chan.MemberCount ch
                then CView.set_MemberCount (Chan.MemberCount ch) view else view in
    hydrateMembership s view (Chan.ChannelID ch)
  | None => hydrateMembership s view ""
  end.

Definition View s (record : Conv.ConversationRecord) : result goerror CView.ConversationView :=
  let view := conversationViewFromRecord record in
  let? view := if str_eqb (Conv.Kind record) "direct" then directView s view
             else if str_eqb (Conv.Kind record) "group" then groupView s view
             else if str_eqb (Conv.Kind record) "channel" then channelView s view
             else Ok view in
  Ok (finalizeView view).

Definition Save (now : Z) s (record : Conv.ConversationRecord) : S * result goerror unit :=
  UpsertConversation now s (NormalizeConversationRecord now record).

Definition SetCreator s (roomID creatorMXID : string) : S * result goerror unit :=
  let roomID := trim_space roomID in
  let creatorMXID := trim_space creatorMXID in
  if str_empty roomID then (s, Ok ()) else SetConversationCreator s roomID creatorMXID.

Definition DeleteKindByRoom s (roomID kind : string) : S * result goerror unit :=
  if str_empty roomID then (s, Ok ())
  else match GetConversationByRoomID s roomID with
     | Err e => (s, Err e)
     | Ok None => (s, Ok ())
     | Ok (Some record) =>
         if negb (str_eqb (Conv.Kind record) kind) then (s, Ok ())
         else DeleteConversationByRoomID s roomID
     end.

Definition ListRecords s : result goerror (list Conv.ConversationRecord) := ListConversations s.

Definition GetRecord s (conversationID roomID : string)
  : result goerror (option Conv.ConversationRecord) :=
  if negb (str_empty conversationID) then GetConversationByID s conversationID
  else GetConversationByRoomID s roomID.

Fixpoint views s (records : list Conv.ConversationRecord)
  : result goerror (list CView.ConversationView) :=
  match records with
  | [] => Ok []
  | r :: records => let? v := View s r in let? vs := views s records in Ok (v :: vs)
  end.

Definition internal {A} (r : result goerror A) : result Api.Error A :=
  match r with
  | Ok a => Ok a
  | Err e => Err (Api.InternalError (error_text e))
  end.

Definition handleList s : result Api.Error (list CView.ConversationView) :=
  let? records := internal (ListRecords s) in internal (views s records).

Definition handleGet s (params : content) : result Api.Error CView.ConversationView :=
  let conversationID := Params.get_string params "conversation_id" in
  let roomID := Params.get_string params "room_id" in
  if str_empty conversationID && str_empty roomID
  then Err (Api.BadRequest "conversation_id or room_id is required")
  else
  let? record := internal (GetRecord s conversationID roomID) in
  match record with
  | None => Err (Api.StatusError 404 "conversation not found")
  | Some record => internal (View s record)
  end.

(** The operation map and the view of the room's conversation, if any. *)
Definition Operation s (action status roomID : string)
  : result goerror (content * option CView.ConversationView) :=
  let roomID := trim_space roomID in
  let operation : content := <["action" := AString action]> (<["status" := AString status]>
                             {["room_id" := AString roomID]}) in
  if str_empty roomID then Ok (operation, None)
  else
  let? record := GetRecord s "" roomID in
  match record with
  | None => Ok (operation, None)
  | Some record =>
      let? view := View s record in
      Ok (<["conversation_id" := AString (CView.ConversationID view)]> operation, Some view)
  end.
(** [AttachOperation] writes the operation, and the view if there is one, into
    a reply under construction. *)
Inductive entry :=
| EValue (v : any)
| EOperation (operation : content)
| EView (view : CView.ConversationView).

Definition AttachOperation s (reply : gmap string entry) (action status roomID : string)
    : result goerror (gmap string entry) :=
  let? (operation, view) := Operation s action status roomID in
  let reply := <["operation" := EOperation operation]> reply in
  Ok (match view with
      | Some view => <["conversation" := EView view]> reply
      | None => reply
      end).
End Module_.
End Conversation.
