(* ===== verification/Blocks.v ===== *)
(** * Blocked contacts

    [p2p/internal/blocks]: the [blocks.*] actions and the lookups the contact
    and policy code use, over any store that implements [BlockStore]. *)

From Stdlib Require Import Ascii String ZArith Lia.
From stdpp Require Import base tactics list gmap strings.
From S2P Require Import Prelude GoStrings Values Domain GoTime Policy Action MemoryTables.
Local Open Scope Z_scope.
Local Open Scope go_scope.

(** [blocks.Store] *)
Class BlockStore (S : Type) := {
  UpsertBlock : S -> Block.BlockRecord -> S * result goerror unit;
  DeleteBlock : S -> string -> string -> S * result goerror bool;
  ListBlocks : S -> result goerror (list Block.BlockRecord);
}.

#[export] Instance memory_block_store `{GoRange} : BlockStore T.tables := {
  UpsertBlock s block := (MemoryTables.UpsertBlock s block, Ok ());
  DeleteBlock s targetType targetID :=
    let '(s, removed) := MemoryTables.DeleteBlock s targetType targetID in (s, Ok removed);
  ListBlocks s := Ok (MemoryTables.ListBlocks s);
}.

Module Blocks.
Section Module_.
Context {S : Type} `{BlockStore S}.
(** [ContactLookup] reads a contact by peer; it may be unset. *)
Context (lookupContact : option (S -> string -> result goerror (option Contact.ContactRecord))).

Definition internal {A} (r : result goerror A) : result Api.Error A :=
  match r with
  | Ok a => Ok a
  | Err e => Err (Api.InternalError (error_text e))
  end.

(** The request's record before a contact is looked up: type, identifiers and
    presentation; the peer is the target. *)
Definition block_of_params (params : content) : result Api.Error Block.BlockRecord :=
  let get := Params.get_string params in
  let rawTargetType := FallbackString (get "target_type") (get "type") in
  if str_empty rawTargetType then Err (Api.BadRequest "target_type is required")
  else
    let targetType := NormalizeBlockTargetType rawTargetType in
    if str_empty targetType then Err (Api.BadRequest "target_type must be contact")
    else
      let targetID := get "target_id" in
      let memberID := Params.FirstString params ["user_id"; "user_mxid"; "peer_mxid"; "mxid"] in
      let memberID := if str_empty memberID
                      then Params.FirstListString params
                             ["user_ids"; "user_mxids"; "peer_mxids"; "invitees"]
                      else memberID in
      let peerMXID := FallbackString (FallbackString (get "peer_mxid") (get "mxid"))
                        (FallbackString memberID targetID) in
      if str_empty peerMXID then Err (Api.BadRequest "peer_mxid is required")
      else Ok {| Block.TargetType := targetType; Block.TargetID := targetID;
                 Block.RoomID := get "room_id"; Block.ChannelID := get "channel_id";
                 Block.PeerMXID := peerMXID;
                 Block.DisplayName := FallbackString (get "display_name") (get "name");
                 Block.AvatarURL := get "avatar_url"; Block.CreatedAt := 0 |}.

(** The contact's room, name and picture where the request gives none. *)
Definition with_contact (contact : option Contact.ContactRecord) (block : Block.BlockRecord)
    : Block.BlockRecord :=
  match contact with
  | None => block
  | Some c =>
      Block.set_AvatarURL (FallbackString (Block.AvatarURL block) (Contact.AvatarURL c))
        (Block.set_DisplayName (FallbackString (Block.DisplayName block) (Contact.DisplayName c))
        (Block.set_RoomID (FallbackString (Block.RoomID block) (Contact.RoomID c)) block))
  end.

Definition recordFromParams (s : S) (params : content) : result Api.Error Block.BlockRecord :=
  let? block := block_of_params params in
  let? contact := match lookupContact with
                  | None => Ok None
                  | Some lookup => internal (lookup s (Block.PeerMXID block))
                  end in
  let block := with_contact contact block in
  let block := Block.set_TargetID (Block.PeerMXID block) block in
  let displayName := trim_space (Block.DisplayName block) in
  Ok (Block.set_DisplayName (if str_empty displayName
                             then DisplayNameFromMXID (Block.PeerMXID block)
                             else displayName) block).

Definition handleAdd (now : Z) (s : S) (params : content)
    : S * result Api.Error Block.BlockRecord :=
  match recordFromParams s params with
  | Err e => (s, Err e)
  | Ok block =>
      let block := if Block.CreatedAt block =? 0
                   then Block.set_CreatedAt (unix_milli now) block else block in
      match UpsertBlock s block with
      | (s, Err e) => (s, internal (Err e))
      | (s, Ok _) => (s, Ok block)
      end
  end.

(** The result carries [removed] and the target. *)
Definition handleRemove (s : S) (params : content)
    : S * result Api.Error (bool * string * string) :=
  match recordFromParams s params with
  | Err e => (s, Err e)
  | Ok block =>
      match DeleteBlock s (Block.TargetType block) (Block.TargetID block) with
      | (s, Err e) => (s, internal (Err e))
      | (s, Ok removed) => (s, Ok (removed, Block.TargetType block, Block.TargetID block))
      end
  end.

Definition handleList (s : S) : result Api.Error (list Block.BlockRecord) :=
  let? blocks := internal (ListBlocks s) in
  Ok (List.filter (fun block => str_eqb (Block.TargetType block) "contact") blocks).

(** The trimmed, non-empty identifiers of [Exists]. *)
Definition identifier_set (identifiers : list string) : gset string :=
  foldl (fun (ids : gset string) identifier =>
    let identifier := trim_space identifier in
    if str_empty identifier then ids else {[identifier]} ∪ ids) ∅ identifiers.

Definition names_any (ids : gset string) (block : Block.BlockRecord) : bool :=
  existsb (fun candidate => bool_decide (trim_space candidate ∈ ids))
    [Block.TargetID block; Block.RoomID block; Block.ChannelID block; Block.PeerMXID block].

Definition Exists_ (s : S) (targetType : string) (identifiers : list string)
    : result goerror bool :=
  let targetType := NormalizeBlockTargetType targetType in
  if str_empty targetType then Ok false
  else
    let ids := identifier_set identifiers in
    if bool_decide (ids = ∅) then Ok false
    else
      let? blocks := ListBlocks s in
      Ok (existsb (fun block => str_eqb (Block.TargetType block) targetType && names_any ids block)
            blocks).

Definition ExistsInRoom (s : S) (targetType peerMXID roomID : string) : result goerror bool :=
  let targetType := NormalizeBlockTargetType targetType in
  let peerMXID := trim_space peerMXID in
  let roomID := trim_space roomID in
  if str_empty targetType || str_empty peerMXID || str_empty roomID then Ok false
  else
    let? blocks := ListBlocks s in
    Ok (existsb (fun block =>
          str_eqb (Block.TargetType block) targetType &&
          str_eqb (trim_space (Block.RoomID block)) roomID &&
          (negb (str_eqb targetType "contact") ||
           str_eqb (trim_space (Block.PeerMXID block)) peerMXID)) blocks).
End Module_.
End Blocks.
