(* ===== verification/Contacts.v ===== *)
(** * Contacts: data and readers

    [p2p/internal/contacts]: the public view of a contact, the request and
    port types of the module, and the readers over any [ContactStore]. *)

From Stdlib Require Import Ascii String ZArith Lia.
From stdpp Require Import base tactics list gmap strings.
From S2P Require Import Prelude GoStrings Values Domain Policy Action MemoryTables Workflow Conversation.
Local Open Scope Z_scope.
Local Open Scope go_scope.

(** ** Stores *)

(** [Store] with the two optional interfaces a store may implement; [Z] is
    the clock of a projection. *)
Class ContactStore (S : Type) := {
  UpsertContact : S -> Contact.ContactRecord -> S * result goerror unit;
  ListContacts : S -> result goerror (list Contact.ContactRecord);
  CompareAndSwapContact :
    option (S -> Contact.ContactRecord -> Contact.ContactRecord -> S * result goerror bool);
  CompareAndSwapContactProjection :
    option (Z -> S -> Contact.ContactRecord -> Contact.ContactRecord ->
            S * result goerror bool);
}.

(** The memory store implements both. *)
#[export] Instance memory_contact_store `{GoRange} : ContactStore T.tables := {
  UpsertContact s c := (MemoryTables.UpsertContact s c, Ok ());
  ListContacts s := Ok (MemoryTables.ListContacts s);
  CompareAndSwapContact := Some (fun s contact expected =>
    let '(s, saved) := MemoryTables.CompareAndSwapContact s contact expected in (s, Ok saved));
  CompareAndSwapContactProjection :=
    Some MemoryTables.CompareAndSwapContactProjection;
}.

(** A store beside a Matrix state [X] that only the ports touch. *)
Definition lift_store {S X R} (f : S -> S * R) (w : S * X) : (S * X) * R :=
  let '(s, r) := f w.1 in ((s, w.2), r).

#[export] Instance pair_contact_store {S X} `{ContactStore S} : ContactStore (S * X) := {
  UpsertContact w c := lift_store (fun s => UpsertContact s c) w;
  ListContacts w := ListContacts w.1;
  CompareAndSwapContact :=
    match CompareAndSwapContact with
    | Some swap => Some (fun w contact expected => lift_store (fun s => swap s contact expected) w)
    | None => None
    end;
  CompareAndSwapContactProjection :=
    match CompareAndSwapContactProjection with
    | Some swap => Some (fun now w contact expected =>
                           lift_store (fun s => swap now s contact expected) w)
    | None => None
    end;
}.

#[export] Instance pair_conversation_store {S X} `{ConversationStore S}
    : ConversationStore (S * X) := {
  UpsertConversation now w r := lift_store (fun s => UpsertConversation now s r) w;
  SetConversationCreator w room creator :=
    lift_store (fun s => SetConversationCreator s room creator) w;
  GetConversationByID w id := GetConversationByID w.1 id;
  GetConversationByRoomID w room := GetConversationByRoomID w.1 room;
  ListConversations w := ListConversations w.1;
  DeleteConversationByRoomID w room :=
    lift_store (fun s => DeleteConversationByRoomID s room) w;
}.

(** ** Data *)

Module ContactView.
Record View := mk {
  PeerMXID : string;
  DisplayName : string;
  DisplayNameOverride : bool;
  AvatarURL : string;
  Domain : string;
  RoomID : string;
  Status : string;
  Remark : string;
  Operation : content;
  Conversation : option CView.ConversationView;
  OperationID : string;
  CurrentRoomID : string;
  ErrorCode : string;
  RequestID : string;
}.
Definition set_Status (v : string) (r : View) : View :=
  {| PeerMXID := PeerMXID r; DisplayName := DisplayName r;
     DisplayNameOverride := DisplayNameOverride r; AvatarURL := AvatarURL r;
     Domain := Domain r; RoomID := RoomID r; Status := v; Remark := Remark r;
     Operation := Operation r; Conversation := Conversation r;
     OperationID := OperationID r; CurrentRoomID := CurrentRoomID r;
     ErrorCode := ErrorCode r; RequestID := RequestID r |}.
Definition set_Operation (v : content) (r : View) : View :=
  {| PeerMXID := PeerMXID r; DisplayName := DisplayName r;
     DisplayNameOverride := DisplayNameOverride r; AvatarURL := AvatarURL r;
     Domain := Domain r; RoomID := RoomID r; Status := Status r;
     Remark := Remark r; Operation := v; Conversation := Conversation r;
     OperationID := OperationID r; CurrentRoomID := CurrentRoomID r;
     ErrorCode := ErrorCode r; RequestID := RequestID r |}.
Definition set_Conversation (v : option CView.ConversationView) (r : View) : View :=
  {| PeerMXID := PeerMXID r; DisplayName := DisplayName r;
     DisplayNameOverride := DisplayNameOverride r; AvatarURL := AvatarURL r;
     Domain := Domain r; RoomID := RoomID r; Status := Status r;
     Remark := Remark r; Operation := Operation r; Conversation := v;
     OperationID := OperationID r; CurrentRoomID := CurrentRoomID r;
     ErrorCode := ErrorCode r; RequestID := RequestID r |}.
Definition set_CurrentRoomID (v : string) (r : View) : View :=
  {| PeerMXID := PeerMXID r; DisplayName := DisplayName r;
     DisplayNameOverride := DisplayNameOverride r; AvatarURL := AvatarURL r;
     Domain := Domain r; RoomID := RoomID r; Status := Status r;
     Remark := Remark r; Operation := Operation r; Conversation := Conversation r;
     OperationID := OperationID r; CurrentRoomID := v; ErrorCode := ErrorCode r;
     RequestID := RequestID r |}.
Definition set_ErrorCode (v : string) (r : View) : View :=
  {| PeerMXID := PeerMXID r; DisplayName := DisplayName r;
     DisplayNameOverride := DisplayNameOverride r; AvatarURL := AvatarURL r;
     Domain := Domain r; RoomID := RoomID r; Status := Status r;
     Remark := Remark r; Operation := Operation r; Conversation := Conversation r;
     OperationID := OperationID r; CurrentRoomID := CurrentRoomID r;
     ErrorCode := v; RequestID := RequestID r |}.
Definition set_OperationID (v : string) (r : View) : View :=
  {| PeerMXID := PeerMXID r; DisplayName := DisplayName r;
     DisplayNameOverride := DisplayNameOverride r; AvatarURL := AvatarURL r;
     Domain := Domain r; RoomID := RoomID r; Status := Status r;
     Remark := Remark r; Operation := Operation r; Conversation := Conversation r;
     OperationID := v; CurrentRoomID := CurrentRoomID r; ErrorCode := ErrorCode r;
     RequestID := RequestID r |}.
End ContactView.

(** [LocalProfileSnapshot] *)
Record LocalProfileSnapshot := {
  MXID : string;
  ProfileName : string;
  ProfileAvatar : string;
}.

(** The zero value. *)
Definition no_profile : LocalProfileSnapshot :=
  {| MXID := ""; ProfileName := ""; ProfileAvatar := "" |}.

Record DirectRoomCreateRequest := {
  CreatePeer : string;
  CreateName : string;
  CreateRemark : string;
  FallbackRoomID : string;
}.

Inductive DirectRoomJoinMode := DirectRoomJoinNormal | DirectRoomJoinReactivation.

Inductive DirectRoomJoinKind :=
| DirectRoomJoinUnknown
| DirectRoomJoinSucceeded
| DirectRoomJoinInviteRequired
| DirectRoomJoinRetainedUnavailable
| DirectRoomJoinFailed.
#[global] Instance DirectRoomJoinKind_eq_dec : EqDecision DirectRoomJoinKind.
Proof. solve_decision. Defined.

Record DirectRoomJoinRequest := {
  JoinRoomID : string;
  JoinProfile : LocalProfileSnapshot;
  JoinServerNames : list string;
  JoinMode : DirectRoomJoinMode;
  UseRoomServerFallback : bool;
}.

Record DirectRoomJoinOutcome := {
  JoinKind : DirectRoomJoinKind;
  JoinedRoomID : string;
  JoinFailure : option Api.Error;
}.

Record PeerReactivationRequest := {
  ReactivateContact : Contact.ContactRecord;
  RequesterMXID : string;
  RemoteNodeBaseURL : string;
  ReactivateName : string;
  ReactivateAvatar : string;
  ReactivateDomain : string;
  ReactivateRemark : string;
}.

Record PeerReactivationResult := {
  PendingInbound : bool;
  NotRetained : bool;
  ReactivatedRoomID : string;
}.

(** What an action returns: a contact view, a status map with the operation
    and the conversation of the room, or the list of contacts. *)
Inductive reply :=
| RView (view : ContactView.View)
| RStatus (status : string) (roomID : option string) (operation : content)
    (conversation : option CView.ConversationView)
| RContacts (views : list ContactView.View).

Module Contacts.

(** The zero value of a contact, as a failed lookup returns it. *)
Definition zero_contact : Contact.ContactRecord :=
  {| Contact.PeerMXID := ""; Contact.DisplayName := ""; Contact.DisplayNameOverride := false;
     Contact.AvatarURL := ""; Contact.Domain := ""; Contact.RoomID := ""; Contact.Status := "";
     Contact.Remark := ""; Contact.RequestID := "" |}.

Definition ViewFromRecord (r : Contact.ContactRecord) : ContactView.View :=
  {| ContactView.PeerMXID := Contact.PeerMXID r; ContactView.DisplayName := Contact.DisplayName r;
     ContactView.DisplayNameOverride := Contact.DisplayNameOverride r;
     ContactView.AvatarURL := Contact.AvatarURL r; ContactView.Domain := Contact.Domain r;
     ContactView.RoomID := Contact.RoomID r; ContactView.Status := Contact.Status r;
     ContactView.Remark := Contact.Remark r; ContactView.Operation := ∅;
     ContactView.Conversation := None; ContactView.OperationID := "";
     ContactView.CurrentRoomID := ""; ContactView.ErrorCode := "";
     ContactView.RequestID := Contact.RequestID r |}.

Definition RecordFromView (v : ContactView.View) : Contact.ContactRecord :=
  {| Contact.PeerMXID := ContactView.PeerMXID v; Contact.DisplayName := ContactView.DisplayName v;
     Contact.DisplayNameOverride := ContactView.DisplayNameOverride v;
     Contact.AvatarURL := ContactView.AvatarURL v; Contact.Domain := ContactView.Domain v;
     Contact.RoomID := ContactView.RoomID v; Contact.Status := ContactView.Status v;
     Contact.Remark := ContactView.Remark v; Contact.RequestID := ContactView.RequestID v |}.

Definition ViewsFromRecords : list Contact.ContactRecord -> list ContactView.View :=
  map ViewFromRecord.

Definition acceptedStatus (status : string) : bool := equal_fold (trim_space status) "accepted".

Definition statusRank (status : string) : Z :=
  let s := to_lower (trim_space status) in
  if str_eqb s "accepted" then 4
  else if str_eqb s "pending_inbound" || str_eqb s "joining" then 3
  else if str_eqb s "pending_outbound" then 2
  else if str_eqb s "rejected" || str_eqb s "reject" then 1
  else 0.

Definition fallbackRequestString (value fallback : string) : string :=
  if str_empty (trim_space value) then fallback else trim_space value.

Definition requestRemark (params : content) : string :=
  Params.FirstString params ["remark"; "request_message"; "message"; "reason"].

(** A field that is only filled when it is empty. *)
Definition or_given (value given : string) : string := if str_empty value then given else value.

(** A field that a non-empty parameter replaces. *)
Definition replaced_by (value given : string) : string := if str_empty given then value else given.

Definition mergeRequestFields (c : Contact.ContactRecord) (params : content)
    (fallbackDomain : string) : Contact.ContactRecord :=
  let get := Params.get_string params in
  {| Contact.PeerMXID := Contact.PeerMXID c;
     Contact.DisplayName := replaced_by (Contact.DisplayName c) (get "display_name");
     Contact.DisplayNameOverride := Contact.DisplayNameOverride c;
     Contact.AvatarURL := replaced_by (Contact.AvatarURL c) (get "avatar_url");
     Contact.Domain := if negb (str_empty (get "domain")) then get "domain"
                       else or_given (Contact.Domain c) fallbackDomain;
     Contact.RoomID := Contact.RoomID c; Contact.Status := Contact.Status c;
     Contact.Remark := replaced_by (Contact.Remark c) (requestRemark params);
     Contact.RequestID := replaced_by (Contact.RequestID c) (get "request_id") |}.

Definition peerReactivationRequest (c : Contact.ContactRecord) (params : content)
    (requesterMXID : string) : PeerReactivationRequest :=
  let get := Params.get_string params in
  {| ReactivateContact :=
       Contact.set_RequestID (fallbackRequestString (get "request_id") (Contact.RequestID c)) c;
     RequesterMXID := requesterMXID; RemoteNodeBaseURL := get "remote_node_base_url";
     ReactivateName := get "display_name"; ReactivateAvatar := get "avatar_url";
     ReactivateDomain := get "domain"; ReactivateRemark := requestRemark params |}.

Definition contactByPeer (contacts : list Contact.ContactRecord) (peerMXID : string)
    : option Contact.ContactRecord :=
  first_match (fun c => str_eqb (Contact.PeerMXID c) peerMXID) contacts.

(** [appendRoomID]: the rooms seen so far are those in the list. *)
Definition appendRoomID (contact : Contact.ContactRecord) (roomIDs : list string)
    (roomID : string) : list string :=
  if str_empty roomID || str_eqb roomID (Contact.RoomID contact) || bool_decide (roomID ∈ roomIDs)
  then roomIDs else roomIDs ++ [roomID].

Definition replacementDirectRoomIDs (contact : Contact.ContactRecord)
    (existingContacts : list Contact.ContactRecord)
    (existingConversations : list Conv.ConversationRecord) : list string :=
  if str_empty (Contact.PeerMXID contact) then []
  else
    let roomIDs := foldl (fun roomIDs existing =>
      if str_eqb (Contact.PeerMXID existing) (Contact.PeerMXID contact)
      then appendRoomID contact roomIDs (Contact.RoomID existing) else roomIDs)
      [] existingContacts in
    foldl (fun roomIDs existing =>
      if str_eqb (Conv.Kind existing) "direct" &&
         str_eqb (Conv.PeerMXID existing) (Contact.PeerMXID contact)
      then appendRoomID contact roomIDs (Conv.MatrixRoomID existing) else roomIDs)
      roomIDs existingConversations.

(** The numbers of [DirectRoomJoinKind] in decimal. *)
Definition join_kind_text (k : DirectRoomJoinKind) : string :=
  match k with
  | DirectRoomJoinUnknown => "0"
  | DirectRoomJoinSucceeded => "1"
  | DirectRoomJoinInviteRequired => "2"
  | DirectRoomJoinRetainedUnavailable => "3"
  | DirectRoomJoinFailed => "4"
  end.

Definition directRoomJoinFailure (outcome : DirectRoomJoinOutcome) : Api.Error :=
  match JoinFailure outcome with
  | Some e => e
  | None => Api.InternalError ("direct room join returned outcome " +:+
                               join_kind_text (JoinKind outcome) +:+ " without failure")
  end.

(** ** The visible list ([dedupeByPeer]) *)

Definition dedupe_key (c : Contact.ContactRecord) : string :=
  let key := trim_space (Contact.PeerMXID c) in
  if str_empty key then trim_space (Contact.RoomID c) else key.

Definition fill_presentation (existing c : Contact.ContactRecord) : Contact.ContactRecord :=
  Contact.set_Remark (or_given (Contact.Remark existing) (Contact.Remark c))
    (Contact.set_Domain (or_given (Contact.Domain existing) (Contact.Domain c))
    (Contact.set_AvatarURL (or_given (Contact.AvatarURL existing) (Contact.AvatarURL c))
    (Contact.set_DisplayName (or_given (Contact.DisplayName existing) (Contact.DisplayName c))
       existing))).

Definition dedupe_step (byPeer : gmap string Contact.ContactRecord) (c : Contact.ContactRecord)
    : gmap string Contact.ContactRecord :=
  let key := dedupe_key c in
  if str_empty key then byPeer
  else match byPeer !! key with
       | None => <[key := c]> byPeer
       | Some existing =>
           if statusRank (Contact.Status existing) <? statusRank (Contact.Status c)
           then <[key := c]> byPeer
           else if statusRank (Contact.Status c) =? statusRank (Contact.Status existing)
           then <[key := fill_presentation existing c]> byPeer
           else byPeer
       end.

Definition contact_less (a b : Contact.ContactRecord) : bool :=
  let left_ := to_lower (Contact.DisplayName a) in
  let right_ := to_lower (Contact.DisplayName b) in
  if str_eqb left_ right_ then str_ltb (Contact.PeerMXID a) (Contact.PeerMXID b)
  else str_ltb left_ right_.

Definition dedupeByPeer `{GoRange} (contacts : list Contact.ContactRecord)
    : list Contact.ContactRecord :=
  if (length contacts <=? 1)%nat then contacts
  else stable_sort contact_less (go_values (foldl dedupe_step ∅ contacts)).

Section Readers.
Context {S : Type} `{ContactStore S} `{GoRange}.

Definition ListRaw (s : S) : result goerror (list Contact.ContactRecord) := ListContacts s.

Definition ListVisible (s : S) : result goerror (list Contact.ContactRecord) :=
  let? contacts := ListRaw s in
  Ok (dedupeByPeer (List.filter (fun c => negb (ContactDeleted (Contact.Status c))) contacts)).

Definition LookupByRoom (s : S) (roomID : string) : result goerror (option Contact.ContactRecord) :=
  let roomID := trim_space roomID in
  if str_empty roomID then Ok None
  else let? contacts := ListRaw s in
       Ok (first_match (fun c => str_eqb (Contact.RoomID c) roomID) contacts).

(** The contact of the peer with the highest rank; the first among equals. *)
Definition best_of (peerMXID : string) (found c : Contact.ContactRecord) : Contact.ContactRecord :=
  if str_eqb (Contact.PeerMXID c) peerMXID &&
     (str_empty (Contact.PeerMXID found) ||
      (statusRank (Contact.Status found) <? statusRank (Contact.Status c)))
  then c else found.

Definition LookupByPeer (s : S) (peerMXID : string) : result goerror (option Contact.ContactRecord) :=
  let peerMXID := trim_space peerMXID in
  if str_empty peerMXID then Ok None
  else
    let? contacts := ListRaw s in
    let found := foldl (best_of peerMXID) zero_contact contacts in
    Ok (if str_empty (Contact.PeerMXID found) then None else Some found).

Definition lookupDecisionContact (s : S) (roomID peerMXID : string)
    : result goerror (option Contact.ContactRecord) :=
  let? byRoom := if str_empty (trim_space roomID) then Ok None else LookupByRoom s roomID in
  let? contact := match byRoom with
                  | Some c => Ok (Some c)
                  | None => if str_empty (trim_space peerMXID) then Ok None
                            else LookupByPeer s peerMXID
                  end in
  Ok (match contact with
      | Some c => if str_empty (trim_space (Contact.RoomID c)) then None else Some c
      | None => None
      end).
End Readers.
End Contacts.
