(* ===== verification/ContactWorkflows.v ===== *)
(** * Contact workflows

    [p2p/internal/contacts]: saving a contact with its conversation, requests,
    decisions on requests, restoration, deletion and updates.  The ports to
    Matrix, to the peer's node and to the other modules act on the whole
    world, so other requests may run during a port call. *)

From Stdlib Require Import Ascii String ZArith Lia.
From stdpp Require Import base tactics list gmap strings.
From S2P Require Import Prelude GoStrings Values Domain Policy Action MemoryTables Workflow.
From S2P Require Import OperationIdentity Conversation Contacts.
Local Open Scope Z_scope.
Local Open Scope go_scope.

(** [Config]: a port that is not set is [None]. *)
Record Config (W : Type) := {
  ServerName : string;
  deleteGroup : option (string -> M W goerror unit);
  leaveRoom : option (string -> M W Api.Error unit);
  acceptRoom : option (Contact.ContactRecord -> list string -> M W Api.Error string);
  verifyAccepted : bool;
  createRoom : option (DirectRoomCreateRequest -> M W Api.Error string);
  inviteRoom : option (Contact.ContactRecord -> M W Api.Error unit);
  joinRoom : option (DirectRoomJoinRequest -> W -> W * DirectRoomJoinOutcome);
  newDirectRoomID : option (W -> W * string);
  localProfile : option (W -> LocalProfileSnapshot);
  reactivatePeer : option (PeerReactivationRequest -> M W Api.Error PeerReactivationResult);
  reactivateRoom : option (LocalProfileSnapshot -> string -> string -> M W Api.Error unit);
  checkPeerBlocked : option (string -> M W goerror bool);
  matrixJoined : option (string -> string -> M W goerror bool);
}.
Arguments ServerName {W}.
Arguments deleteGroup {W}.
Arguments leaveRoom {W}.
Arguments acceptRoom {W}.
Arguments verifyAccepted {W}.
Arguments createRoom {W}.
Arguments inviteRoom {W}.
Arguments joinRoom {W}.
Arguments newDirectRoomID {W}.
Arguments localProfile {W}.
Arguments reactivatePeer {W}.
Arguments reactivateRoom {W}.
Arguments checkPeerBlocked {W}.
Arguments matrixJoined {W}.

Module ContactFlow.
Import Contacts.
Section Module_.
Context {W : Type} `{ContactStore W} `{ConversationStore W} `{GoRange}.
Context (hydrator : Conversation.Hydrator W).
(** [time.Now()] in milliseconds, when a record is saved. *)
Context (clock : W -> Z).
(** What other requests do while this one waits for the lock of a key. *)
Context (waiting : string -> W -> W).
Context (cfg : Config W).

Definition SerializePeer {E A} (peerMXID : string) (fn : M W E A) : M W E A :=
  let! _ := run (waiting (trim_space peerMXID)) in fn.

(** ** Persistence ([module.go]) *)

Definition upsert_contact (c : Contact.ContactRecord) : M W goerror unit :=
  fun w => UpsertContact w c.

Definition delete_kind (roomID kind : string) : M W goerror unit :=
  fun w => Conversation.DeleteKindByRoom w roomID kind.

Definition save_conversation (record : Conv.ConversationRecord) : M W goerror unit :=
  fun w => Conversation.Save (clock w) w record.

(** Whether the contact was written: a swap can find another contact. *)
Definition write_contact (contact : Contact.ContactRecord)
    (expected : option Contact.ContactRecord) (existingContacts : list Contact.ContactRecord)
    : M W goerror bool :=
  match expected with
  | None => let! _ := upsert_contact contact in ret true
  | Some expected =>
      match CompareAndSwapContact with
      | Some swap => fun w => swap w contact expected
      | None =>
          match contactByPeer existingContacts (Contact.PeerMXID expected) with
          | Some current =>
              if negb (str_eqb (Contact.RoomID current) (Contact.RoomID expected)) ||
                 negb (str_eqb (Contact.RequestID current) (Contact.RequestID expected)) ||
                 negb (equal_fold (trim_space (Contact.Status current))
                         (trim_space (Contact.Status expected)))
              then ret false
              else let! _ := upsert_contact contact in ret true
          | None => ret false
          end
      end
  end.

Definition save (contact : Contact.ContactRecord) (expected : option Contact.ContactRecord)
    : M W goerror bool :=
  let! existingContacts := reads ListContacts in
  let! existingConversations := reads Conversation.ListRecords in
  let replaced := replacementDirectRoomIDs contact existingContacts existingConversations in
  let! written := write_contact contact expected existingContacts in
  if negb written then ret false
  else
    let! _ := for_each (fun roomID => delete_kind roomID "direct") replaced in
    let! _ := if str_empty (Contact.RoomID contact) then ret tt
              else
                let! _ := when_set (deleteGroup cfg) (fun f => f (Contact.RoomID contact)) in
                delete_kind (Contact.RoomID contact) "group" in
    let! _ := save_conversation (ConversationFromContact contact) in
    ret true.

Definition Save (contact : Contact.ContactRecord) : M W goerror unit :=
  let! _ := save contact None in ret tt.

Definition SaveProjectionIfCurrent (contact expected : Contact.ContactRecord)
    : M W goerror bool :=
  match CompareAndSwapContactProjection with
  | Some swap => fun w => swap (clock w) w contact expected
  | None => save contact (Some expected)
  end.

Definition EnsureAcceptedProjection (contact : Contact.ContactRecord)
    : M W goerror Contact.ContactRecord :=
  if negb (acceptedStatus (Contact.Status contact)) then ret contact
  else
    let! saved := SaveProjectionIfCurrent contact contact in
    if saved : bool then ret contact
    else
      let! current := reads (fun w => LookupByPeer w (Contact.PeerMXID contact)) in
      match current with
      | None => fail (ErrOther "accepted contact disappeared while restoring conversation projection")
      | Some c => ret c
      end.

(** The contact to present and whether it is the decided one. *)
Definition saveDecision (contact expected : Contact.ContactRecord) (authoritativeAccepted : bool)
    : M W goerror (Contact.ContactRecord * bool) :=
  if str_empty (Contact.PeerMXID expected) then
    let! _ := Save contact in ret (contact, true)
  else
    let! saved := SaveProjectionIfCurrent contact expected in
    if saved : bool then ret (contact, true)
    else
      let! current := reads (fun w => LookupByPeer w (Contact.PeerMXID expected)) in
      let! current :=
        match current with
        | None => if str_eqb (Contact.PeerMXID contact) (Contact.PeerMXID expected) then ret None
                  else reads (fun w => LookupByPeer w (Contact.PeerMXID contact))
        | Some c => ret (Some c)
        end in
      match current with
      | None => ret (zero_contact, false)
      | Some current =>
          if authoritativeAccepted && acceptedStatus (Contact.Status contact) &&
             str_eqb (Contact.RequestID current) (Contact.RequestID expected) &&
             negb (equal_fold (trim_space (Contact.Status current)) "deleted")
          then
            let! saved := SaveProjectionIfCurrent contact current in
            if saved : bool then ret (contact, true)
            else
              let! current := reads (fun w => LookupByPeer w (Contact.PeerMXID contact)) in
              ret (default zero_contact current, false)
          else ret (current, false)
      end.

(** ** Presentation ([reader.go]) *)

Definition operation_of (action status roomID : string)
    : M W goerror (content * option CView.ConversationView) :=
  reads (fun w => Conversation.Operation hydrator w action status roomID).

Definition HydrateView (action : string) (contact : Contact.ContactRecord)
    : M W goerror ContactView.View :=
  let! (operation, conversation) :=
    operation_of action (Contact.Status contact) (Contact.RoomID contact) in
  ret (ContactView.set_Conversation conversation
         (ContactView.set_Operation operation (ViewFromRecord contact))).

Definition viewWithOperation (action : string) (contact : Contact.ContactRecord)
    : M W Api.Error ContactView.View :=
  internal (HydrateView action contact).

Definition handleList : M W Api.Error reply :=
  let! contacts := internal (reads ListVisible) in
  ret (RContacts (ViewsFromRecords contacts)).

Definition statusOperationResult (action status roomID : string) : M W Api.Error reply :=
  let! (operation, conversation) := internal (operation_of action status roomID) in
  ret (RStatus "ok" None operation conversation).

Definition profile_now : M W Api.Error LocalProfileSnapshot :=
  reads (fun w => Ok (match localProfile cfg with Some f => f w | None => no_profile end)).

Definition join (f : DirectRoomJoinRequest -> W -> W * DirectRoomJoinOutcome)
    (r : DirectRoomJoinRequest) : M W Api.Error DirectRoomJoinOutcome :=
  fun w => let '(w, outcome) := f r w in (w, Ok outcome).

Definition join_request (roomID : string) (profile : LocalProfileSnapshot) (params : content)
    (mode : DirectRoomJoinMode) (fallback : bool) : DirectRoomJoinRequest :=
  {| JoinRoomID := roomID; JoinProfile := profile;
     JoinServerNames := Params.get_strings params "server_names"; JoinMode := mode;
     UseRoomServerFallback := fallback |}.

Definition is_kind (outcome : DirectRoomJoinOutcome) (k : DirectRoomJoinKind) : bool :=
  bool_decide (JoinKind outcome = k).

(** ** Outbound requests ([request.go]) *)

Definition CreateRequest (peerMXID : string) (params : content) (domain : string)
    : M W Api.Error ContactView.View :=
  let get := Params.get_string params in
  let! fallbackRoomID :=
    match newDirectRoomID cfg with
    | Some f => fun w => let '(w, id) := f w in (w, Ok id)
    | None => ret ""
    end in
  let remark := requestRemark params in
  let! roomID :=
    match createRoom cfg with
    | Some f => f {| CreatePeer := peerMXID; CreateName := get "display_name";
                     CreateRemark := remark; FallbackRoomID := fallbackRoomID |}
    | None => ret fallbackRoomID
    end in
  let contact :=
    {| Contact.PeerMXID := peerMXID; Contact.DisplayName := get "display_name";
       Contact.DisplayNameOverride := false; Contact.AvatarURL := get "avatar_url";
       Contact.Domain := domain; Contact.RoomID := roomID; Contact.Status := "pending_outbound";
       Contact.Remark := remark; Contact.RequestID := get "request_id" |} in
  let! _ := internal (Save contact) in
  viewWithOperation "contacts.request" contact.

Definition replacement_params (contact : Contact.ContactRecord) (params : content)
    (fallbackDomain : string) : content :=
  let get := Params.get_string params in
  let next := params in
  let next := if str_empty (get "display_name") &&
                 negb (str_empty (trim_space (Contact.DisplayName contact)))
              then <["display_name" := AString (Contact.DisplayName contact)]> next else next in
  let next := if str_empty (get "avatar_url") &&
                 negb (str_empty (trim_space (Contact.AvatarURL contact)))
              then <["avatar_url" := AString (Contact.AvatarURL contact)]> next else next in
  if str_empty (get "domain")
  then <["domain" := AString (fallbackRequestString (Contact.Domain contact) fallbackDomain)]> next
  else next.

Definition CreateReplacementRequest (contact : Contact.ContactRecord) (params : content)
    (fallbackDomain : string) : M W Api.Error ContactView.View :=
  let next := replacement_params contact params fallbackDomain in
  CreateRequest (Contact.PeerMXID contact) next
    (fallbackRequestString (Params.get_string next "domain") fallbackDomain).

Definition existingRequestView (contact : Contact.ContactRecord)
    : M W Api.Error ContactView.View :=
  viewWithOperation "contacts.request" contact.

Definition ResolveExistingRequest (contact : Contact.ContactRecord) (params : content)
    (fallbackDomain : string) : M W Api.Error ContactView.View :=
  let! contact := if acceptedStatus (Contact.Status contact)
                  then internal (EnsureAcceptedProjection contact) else ret contact in
  if negb (acceptedStatus (Contact.Status contact)) ||
     str_empty (Params.get_string params "remote_node_base_url") ||
     str_eqb (DomainFromMXID (Contact.PeerMXID contact)) (ServerName cfg)
  then existingRequestView contact
  else
    let! profile := profile_now in
    match reactivatePeer cfg with
    | None => existingRequestView contact
    | Some reactivate =>
        let! peer := reactivate (peerReactivationRequest contact params (MXID profile)) in
        if PendingInbound peer || NotRetained peer
        then CreateReplacementRequest contact params fallbackDomain
        else existingRequestView contact
    end.

(** The merged contact, invited again when asked, is saved and presented. *)
Definition invite_and_save (contact : Contact.ContactRecord) (invite : bool)
    : M W Api.Error ContactView.View :=
  let! _ := if invite then when_set (inviteRoom cfg) (fun f => f contact) else ret tt in
  let! _ := internal (Save contact) in
  viewWithOperation "contacts.request" contact.

Definition ResendPendingOutbound (contact : Contact.ContactRecord) (params : content)
    (fallbackDomain : string) : M W Api.Error ContactView.View :=
  let contact := mergeRequestFields contact params fallbackDomain in
  invite_and_save contact (negb (str_empty (Contact.RoomID contact))).

Definition RequestPeerApproval (contact : Contact.ContactRecord) (params : content)
    (fallbackDomain : string) (sendMatrixInvite : bool) : M W Api.Error ContactView.View :=
  if str_empty (trim_space (Contact.RoomID contact))
  then CreateRequest (Contact.PeerMXID contact) params fallbackDomain
  else invite_and_save (Contact.set_Status "pending_outbound"
                          (mergeRequestFields contact params fallbackDomain)) sendMatrixInvite.

(** ** Accepting an inbound request ([accept.go]) *)

Definition not_configured : Api.Error :=
  Api.InternalError "peer reactivation is not configured".

Definition reactivateDeletedPeer (contact : Contact.ContactRecord) (params : content)
    (requesterMXID : string) : M W Api.Error PeerReactivationResult :=
  match reactivatePeer cfg with
  | None => fail not_configured
  | Some reactivate => reactivate (peerReactivationRequest contact params requesterMXID)
  end.

(** An accepted contact, saved and presented. *)
Definition save_accepted (contact : Contact.ContactRecord) : M W Api.Error ContactView.View :=
  let! _ := internal (Save contact) in
  viewWithOperation "contacts.request" contact.

(** The rest of [AcceptPendingInbound] once the room is joined. *)
Definition accept_joined (contact : Contact.ContactRecord) (params : content)
    : M W Api.Error ContactView.View :=
  let get := Params.get_string params in
  save_accepted
    (Contact.set_Remark "" (Contact.set_Status "accepted"
    (Contact.set_Domain (or_given (Contact.Domain contact) (get "domain"))
    (Contact.set_AvatarURL (or_given (Contact.AvatarURL contact) (get "avatar_url"))
    (Contact.set_DisplayName (or_given (Contact.DisplayName contact) (get "display_name"))
       contact))))).

(** A successful join gives the room; anything else is the join's failure. *)
Definition joined_room (outcome : DirectRoomJoinOutcome) : M W Api.Error string :=
  if is_kind outcome DirectRoomJoinSucceeded then ret (JoinedRoomID outcome)
  else fail (directRoomJoinFailure outcome).

Definition AcceptPendingInbound (contact : Contact.ContactRecord) (params : content)
    : M W Api.Error ContactView.View :=
  match joinRoom cfg with
  | Some f =>
      if str_empty (Contact.RoomID contact) then accept_joined contact params
      else
        let! profile := profile_now in
        let request mode := join_request (Contact.RoomID contact) profile params mode false in
        let! outcome := join f (request DirectRoomJoinNormal) in
        if is_kind outcome DirectRoomJoinInviteRequired then
          let! peer := reactivateDeletedPeer contact params (MXID profile) in
          let fallbackDomain := fallbackRequestString (Params.get_string params "domain")
                                  (Contact.Domain contact) in
          if PendingInbound peer then RequestPeerApproval contact params fallbackDomain false
          else if NotRetained peer then RequestPeerApproval contact params fallbackDomain true
          else
            let! outcome := join f (request DirectRoomJoinReactivation) in
            let! room := joined_room outcome in
            accept_joined (Contact.set_RoomID room contact) params
        else
          let! room := joined_room outcome in
          accept_joined (Contact.set_RoomID room contact) params
  | None => accept_joined contact params
  end.

(** ** Restoring contacts ([request_resolution.go]) *)

(** The rest of [RestoreDeleted] once the room is joined. *)
Definition restore_joined (contact : Contact.ContactRecord) (params : content)
    (fallbackDomain : string) : M W Api.Error ContactView.View :=
  let get := Params.get_string params in
  save_accepted
    (Contact.set_RequestID (fallbackRequestString (get "request_id") (Contact.RequestID contact))
    (Contact.set_Remark "" (Contact.set_Status "accepted"
    (Contact.set_Domain (if negb (str_empty (get "domain")) then get "domain"
                         else or_given (Contact.Domain contact) fallbackDomain)
    (Contact.set_AvatarURL (replaced_by (Contact.AvatarURL contact) (get "avatar_url"))
    (Contact.set_DisplayName (replaced_by (Contact.DisplayName contact) (get "display_name"))
       contact)))))).

Definition RestoreDeleted (contact : Contact.ContactRecord) (params : content)
    (fallbackDomain : string) : M W Api.Error ContactView.View :=
  let get := Params.get_string params in
  match joinRoom cfg with
  | Some f =>
      if str_empty (Contact.RoomID contact) then restore_joined contact params fallbackDomain
      else
        let! profile := profile_now in
        let request := join_request (Contact.RoomID contact) profile params in
        let replacementDomain :=
          fallbackRequestString (fallbackRequestString (get "domain") (Contact.Domain contact))
            fallbackDomain in
        let proactive := negb (str_empty (get "remote_node_base_url")) &&
          negb (str_eqb (DomainFromMXID (Contact.PeerMXID contact)) (ServerName cfg)) in
        if proactive then
          let! peer := reactivateDeletedPeer contact params (MXID profile) in
          if NotRetained peer || PendingInbound peer
          then CreateReplacementRequest contact params replacementDomain
          else
            let! outcome := join f (request DirectRoomJoinReactivation true) in
            let! room := joined_room outcome in
            restore_joined (Contact.set_RoomID room contact) params fallbackDomain
        else
          let! outcome := join f (request DirectRoomJoinNormal false) in
          if is_kind outcome DirectRoomJoinInviteRequired then
            let! peer := reactivateDeletedPeer contact params (MXID profile) in
            if PendingInbound peer then RequestPeerApproval contact params replacementDomain false
            else if NotRetained peer
            then CreateReplacementRequest contact params replacementDomain
            else
              let! outcome := join f (request DirectRoomJoinReactivation false) in
              let! room := joined_room outcome in
              restore_joined (Contact.set_RoomID room contact) params fallbackDomain
          else
            let! room := joined_room outcome in
            restore_joined (Contact.set_RoomID room contact) params fallbackDomain
  | None => restore_joined contact params fallbackDomain
  end.

(** The accepted contact in a room the peer still has. *)
Definition retained_contact (peerMXID : string) (params : content) (domain roomID : string)
    : Contact.ContactRecord :=
  {| Contact.PeerMXID := peerMXID; Contact.DisplayName := Params.get_string params "display_name";
     Contact.DisplayNameOverride := false;
     Contact.AvatarURL := Params.get_string params "avatar_url"; Contact.Domain := domain;
     Contact.RoomID := roomID; Contact.Status := "accepted"; Contact.Remark := "";
     Contact.RequestID := "" |}.

(** The contact the peer's node is asked about when there is none. *)
Definition probe_contact (peerMXID domain : string) : Contact.ContactRecord :=
  {| Contact.PeerMXID := peerMXID; Contact.DisplayName := "";
     Contact.DisplayNameOverride := false; Contact.AvatarURL := ""; Contact.Domain := domain;
     Contact.RoomID := ""; Contact.Status := ""; Contact.Remark := ""; Contact.RequestID := "" |}.

(** [None] when the caller should create a fresh request. *)
Definition RestoreRetainedPeer (peerMXID : string) (params : content) (domain : string)
    : M W Api.Error (option ContactView.View) :=
  match reactivatePeer cfg with
  | None => ret None
  | Some reactivate =>
      if str_empty (Params.get_string params "remote_node_base_url") || str_empty domain ||
         str_eqb domain (ServerName cfg)
      then ret None
      else
        let! profile := profile_now in
        let probe := probe_contact peerMXID domain in
        let! peer := reactivate (peerReactivationRequest probe params (MXID profile)) in
        if NotRetained peer || PendingInbound peer ||
           str_empty (trim_space (ReactivatedRoomID peer))
        then ret None
        else
          let roomID := ReactivatedRoomID peer in
          match joinRoom cfg with
          | None =>
              let! view := save_accepted (retained_contact peerMXID params domain roomID) in
              ret (Some view)
          | Some f =>
              let! outcome :=
                join f (join_request roomID profile params DirectRoomJoinReactivation true) in
              if is_kind outcome DirectRoomJoinRetainedUnavailable then
                let! view := CreateReplacementRequest
                               (retained_contact peerMXID params domain roomID) params domain in
                ret (Some view)
              else
                let! room := joined_room outcome in
                let! view := save_accepted (retained_contact peerMXID params domain room) in
                ret (Some view)
          end
  end.

(** ** contacts.request *)

Definition requestForPeer (peerMXID : string) (params : content)
    : M W Api.Error ContactView.View :=
  match checkPeerBlocked cfg with
  | None => fail (Api.InternalError "peer block checker is not configured")
  | Some check =>
      let! blocked := internal (check peerMXID) in
      if blocked : bool then fail (Api.StatusError 403 "already blocked")
      else
        let domain := Params.get_string params "domain" in
        let domain := if str_empty domain then DomainFromMXID peerMXID else domain in
        let! existing := internal (reads (fun w => LookupByPeer w peerMXID)) in
        match existing with
        | Some existing =>
            let status := to_lower (trim_space (Contact.Status existing)) in
            if str_eqb status "deleted" then RestoreDeleted existing params domain
            else if str_eqb status "pending_inbound" then AcceptPendingInbound existing params
            else if str_eqb status "pending_outbound"
            then ResendPendingOutbound existing params domain
            else ResolveExistingRequest existing params
                   (fallbackRequestString domain (Contact.Domain existing))
        | None =>
            let! restored := RestoreRetainedPeer peerMXID params domain in
            match restored with
            | Some view => ret view
            | None => CreateRequest peerMXID params domain
            end
        end
  end.

Definition Request (params : content) : M W Api.Error reply :=
  let peerMXID := Params.get_string params "mxid" in
  if str_empty peerMXID then fail (Api.BadRequest "mxid is required")
  else match localProfile cfg with
       | None => fail (Api.InternalError "local contact profile is not configured")
       | Some _ =>
           let! profile := profile_now in
           if str_eqb peerMXID (MXID profile)
           then fail (Api.BadRequest "mxid must be a remote peer")
           else
             let! view := SerializePeer peerMXID (requestForPeer peerMXID params) in
             ret (RView view)
       end.

(** ** Decisions on a request ([accept.go], [request_resolution.go]) *)

Definition serializeRoomPeerMutation {A} (params : content) (mutate : M W Api.Error A)
    : M W Api.Error A :=
  let peerMXID := Params.FirstString params ["peer_mxid"; "mxid"] in
  let roomID := Params.get_string params "room_id" in
  let! contact := if str_empty roomID then ret None
                  else internal (reads (fun w => LookupByRoom w roomID)) in
  let peerMXID := match contact with
                  | Some c => if str_empty (Contact.PeerMXID c) then peerMXID
                              else Contact.PeerMXID c
                  | None => peerMXID
                  end in
  SerializePeer (FallbackString peerMXID roomID) mutate.

(** A contact that is still joining is presented with the pending join. *)
Definition contactDecisionView (action : string) (contact : Contact.ContactRecord)
    : M W Api.Error ContactView.View :=
  let! view := viewWithOperation action contact in
  ret (if equal_fold (trim_space (Contact.Status contact)) "joining"
       then ContactView.set_ErrorCode Identity.MatrixJoinUnconfirmedCode
              (ContactView.set_Status "joining" view)
       else view).

(** The decided contact: fields of the request where the stored contact has
    none, the name the other way around. *)
Definition decided (existing : Contact.ContactRecord) (params : content)
    (peerMXID roomID status remark : string) : Contact.ContactRecord :=
  let get := Params.get_string params in
  {| Contact.PeerMXID := peerMXID;
     Contact.DisplayName := replaced_by (get "display_name") (Contact.DisplayName existing);
     Contact.DisplayNameOverride := false;
     Contact.AvatarURL := or_given (get "avatar_url") (Contact.AvatarURL existing);
     Contact.Domain := or_given (get "domain") (Contact.Domain existing);
     Contact.RoomID := roomID; Contact.Status := status; Contact.Remark := remark;
     Contact.RequestID :=
       fallbackRequestString (Contact.RequestID existing) (get "request_id") |}.

(** A decision is saved against the contact it was taken on; the contact that
    won is presented. *)
Definition settle_decision (action : string) (contact existing : Contact.ContactRecord)
    (authoritativeAccepted : bool) : M W Api.Error ContactView.View :=
  let! (current, saved) := internal (saveDecision contact existing authoritativeAccepted) in
  if saved : bool then viewWithOperation action contact
  else contactDecisionView action current.

(** The room to accept in, or [None] when the join is still unconfirmed. *)
Definition accepted_room (existing : Contact.ContactRecord) (params : content)
    : M W Api.Error (option string) :=
  match acceptRoom cfg with
  | None => ret (Some (Contact.RoomID existing))
  | Some f =>
      if str_empty (Contact.RoomID existing) then ret (Some (Contact.RoomID existing))
      else fun w =>
        match f existing (Params.get_strings params "server_names") w with
        | (w, Err e) =>
            if str_eqb (Api.Code e) Identity.MatrixJoinUnconfirmedCode then (w, Ok None)
            else (w, Err e)
        | (w, Ok resolvedRoomID) =>
            let roomID := trim_space resolvedRoomID in
            if str_empty roomID then (w, Err (Api.InternalError "accepted direct room is empty"))
            else (w, Ok (Some roomID))
        end
  end.

Definition settle_unconfirmed (existing : Contact.ContactRecord) (params : content)
    : M W Api.Error ContactView.View :=
  let responseContact :=
    Contact.set_RequestID
      (fallbackRequestString (Contact.RequestID existing) (Params.get_string params "request_id"))
      (Contact.set_Status "joining" existing) in
  let! (current, saved) := internal (saveDecision responseContact existing false) in
  if saved : bool then
    let! view := viewWithOperation "contacts.requests.accept" responseContact in
    ret (ContactView.set_CurrentRoomID (Contact.RoomID existing)
           (ContactView.set_ErrorCode Identity.MatrixJoinUnconfirmedCode view))
  else contactDecisionView "contacts.requests.accept" current.

Definition requestAcceptForPeer (params : content) : M W Api.Error ContactView.View :=
  let peerMXID := Params.FirstString params ["peer_mxid"; "mxid"] in
  let! existing := internal (reads (fun w =>
    lookupDecisionContact w (Params.get_string params "room_id") peerMXID)) in
  match existing with
  | None => fail (Api.CodedError 404 Identity.RequestNotFoundCode "contact request not found")
  | Some existing =>
      let peerMXID := or_given peerMXID (Contact.PeerMXID existing) in
      if ContactDeleted (Contact.Status existing)
      then fail (Api.CodedError 410 Identity.RequestExpiredCode "contact request expired")
      else if acceptedStatus (Contact.Status existing) &&
              (negb (verifyAccepted cfg) || negb (bool_decide (is_Some (acceptRoom cfg))) ||
               str_empty (Contact.RoomID existing))
      then viewWithOperation "contacts.requests.accept" existing
      else
        let! room := accepted_room existing params in
        match room with
        | None => settle_unconfirmed existing params
        | Some roomID =>
            settle_decision "contacts.requests.accept"
              (decided existing params peerMXID roomID "accepted" "") existing true
        end
  end.

Definition handleRequestAccept (params : content) : M W Api.Error reply :=
  let! view := serializeRoomPeerMutation params (requestAcceptForPeer params) in
  ret (RView view).

(** [None] when the membership could not be verified. *)
Definition matrixContactJoined (existing : Contact.ContactRecord) : M W Api.Error (option bool) :=
  match matrixJoined cfg, localProfile cfg with
  | Some joined, Some _ =>
      if str_empty (Contact.RoomID existing) || str_empty (Contact.PeerMXID existing)
      then ret None
      else
        let! profile := profile_now in
        let ownerMXID := trim_space (MXID profile) in
        if str_empty ownerMXID then ret None
        else
          let! b := internal (joined (Contact.RoomID existing) ownerMXID) in
          ret (Some b)
  | _, _ => ret None
  end.

(** The contact to present when Matrix says that the room is joined. *)
Definition acceptedContactFromMatrix (existing : Contact.ContactRecord)
    : M W Api.Error (option Contact.ContactRecord) :=
  let! joined := matrixContactJoined existing in
  match joined with
  | Some true =>
      let accepted := Contact.set_Remark "" (Contact.set_Status "accepted" existing) in
      let! (current, saved) := internal (saveDecision accepted existing true) in
      ret (Some (if saved : bool then accepted else current))
  | _ => ret None
  end.

(** The rejection of a request that is neither accepted nor settled. *)
Definition reject_open (existing : Contact.ContactRecord) (params : content) (peerMXID : string)
    : M W Api.Error ContactView.View :=
  let status := trim_space (Contact.Status existing) in
  if equal_fold status "joining" then
    let! view := viewWithOperation "contacts.requests.reject" existing in
    ret (ContactView.set_ErrorCode Identity.MatrixJoinUnconfirmedCode
           (ContactView.set_Status "joining" view))
  else if equal_fold status "rejected" || equal_fold status "reject"
  then viewWithOperation "contacts.requests.reject" existing
  else
    settle_decision "contacts.requests.reject"
      (decided existing params (or_given peerMXID (Contact.PeerMXID existing))
         (Contact.RoomID existing) "rejected" (Contact.Remark existing)) existing false.

Definition requestRejectForPeer (params : content) : M W Api.Error ContactView.View :=
  let peerMXID := Params.FirstString params ["peer_mxid"; "mxid"] in
  let! existing := internal (reads (fun w =>
    lookupDecisionContact w (Params.get_string params "room_id") peerMXID)) in
  match existing with
  | None => fail (Api.CodedError 404 Identity.RequestNotFoundCode "contact request not found")
  | Some existing =>
      if ContactDeleted (Contact.Status existing)
      then fail (Api.CodedError 410 Identity.RequestExpiredCode "contact request expired")
      else if acceptedStatus (Contact.Status existing) then
        let! stale := if verifyAccepted cfg
                      then let! joined := matrixContactJoined existing in
                           ret (bool_decide (joined = Some false))
                      else ret false in
        if stale : bool then reject_open existing params peerMXID
        else viewWithOperation "contacts.requests.reject" existing
      else
        let! current := acceptedContactFromMatrix existing in
        match current with
        | Some current => contactDecisionView "contacts.requests.reject" current
        | None => reject_open existing params peerMXID
        end
  end.

Definition handleRequestReject (params : content) : M W Api.Error reply :=
  let! view := serializeRoomPeerMutation params (requestRejectForPeer params) in
  ret (RView view).

(** ** Deletion and update ([delete.go], [request_resolution.go]) *)

(** The contact of the room, or one made from the request. *)
Definition contact_to_delete (params : content) : M W Api.Error Contact.ContactRecord :=
  let get := Params.get_string params in
  let roomID := get "room_id" in
  let! contact := internal (reads (fun w => LookupByRoom w roomID)) in
  ret (match contact with
       | Some c => c
       | None =>
           {| Contact.PeerMXID := Params.FirstString params ["peer_mxid"; "mxid"];
              Contact.DisplayName := get "display_name"; Contact.DisplayNameOverride := false;
              Contact.AvatarURL := get "avatar_url"; Contact.Domain := get "domain";
              Contact.RoomID := roomID; Contact.Status := "";
              Contact.Remark := requestRemark params; Contact.RequestID := "" |}
       end).

Definition save_deleted (action : string) (contact : Contact.ContactRecord) (params : content)
    : M W Api.Error reply :=
  let get := Params.get_string params in
  let contact :=
    Contact.set_Domain (or_given (Contact.Domain contact) (get "domain"))
    (Contact.set_AvatarURL (or_given (Contact.AvatarURL contact) (get "avatar_url"))
    (Contact.set_DisplayName (or_given (Contact.DisplayName contact) (get "display_name"))
    (Contact.set_Status "deleted" contact))) in
  let! _ := internal (Save contact) in
  statusOperationResult action (Contact.Status contact) (Contact.RoomID contact).

Definition requestDeleteForPeer (params : content) : M W Api.Error reply :=
  let! contact := contact_to_delete params in
  if acceptedStatus (Contact.Status contact)
  then statusOperationResult "contacts.requests.delete" (Contact.Status contact)
         (Contact.RoomID contact)
  else save_deleted "contacts.requests.delete" contact params.

Definition handleRequestDelete (params : content) : M W Api.Error reply :=
  serializeRoomPeerMutation params (requestDeleteForPeer params).

Definition deleteForPeer (params : content) : M W Api.Error reply :=
  let! contact := contact_to_delete params in
  let! _ := if negb (ContactDeleted (Contact.Status contact)) &&
               negb (str_empty (Contact.RoomID contact))
            then when_set (leaveRoom cfg) (fun f => f (Contact.RoomID contact)) else ret tt in
  save_deleted "contacts.delete" contact params.

Definition Delete (params : content) : M W Api.Error reply :=
  serializeRoomPeerMutation params (deleteForPeer params).

Definition updateForPeer (roomID displayName domain avatarURL : string)
    : M W Api.Error ContactView.View :=
  let! contact := internal (reads (fun w => LookupByRoom w roomID)) in
  match contact with
  | None => fail (Api.StatusError 404 "contact not found")
  | Some contact =>
      if negb (acceptedStatus (Contact.Status contact))
      then fail (Api.StatusError 403 "contact is not accepted")
      else
        let contact :=
          Contact.set_AvatarURL (replaced_by (Contact.AvatarURL contact) avatarURL)
          (Contact.set_Domain (replaced_by (Contact.Domain contact) domain)
          (Contact.set_DisplayNameOverride true
          (Contact.set_DisplayName displayName contact))) in
        let! _ := internal (Save contact) in
        viewWithOperation "contacts.update" contact
  end.

Definition handleUpdate (params : content) : M W Api.Error reply :=
  let get := Params.get_string params in
  let roomID := get "room_id" in
  if str_empty roomID then fail (Api.BadRequest "room_id is required")
  else
    let displayName := get "display_name" in
    if str_empty displayName then fail (Api.BadRequest "display_name is required")
    else
      let! contact := internal (reads (fun w => LookupByRoom w roomID)) in
      match contact with
      | None => fail (Api.StatusError 404 "contact not found")
      | Some contact =>
          let! view := SerializePeer (Contact.PeerMXID contact)
                         (updateForPeer roomID displayName (get "domain") (get "avatar_url")) in
          ret (RView view)
      end.

(** ** The peer side of a request ([accept.go]) *)

Definition reactivationResult (status roomID : string) : M W Api.Error reply :=
  let! (operation, conversation) :=
    internal (operation_of "contacts.reactivate" status roomID) in
  ret (RStatus status (Some roomID) operation conversation).

Definition no_retained : Api.Error := Api.StatusError 404 "retained contact not found".

(** The contact a peer asks to be restored, as a new inbound request. *)
Definition reopened (contact : Contact.ContactRecord) (params : content)
    (requesterMXID : string) : Contact.ContactRecord :=
  Contact.set_RequestID
    (replaced_by (Contact.RequestID contact) (Params.get_string params "request_id"))
  (Contact.set_Status "pending_inbound"
  (Contact.set_Domain (or_given (Contact.Domain contact) (DomainFromMXID requesterMXID))
  (Contact.set_DisplayName
     (or_given (Contact.DisplayName contact) (DisplayNameFromMXID requesterMXID)) contact))).

Definition handleReactivate (params : content) : M W Api.Error reply :=
  let roomID := Params.get_string params "room_id" in
  let requesterMXID := Params.get_string params "requester_mxid" in
  if str_empty requesterMXID then fail (Api.BadRequest "requester_mxid is required")
  else
    let! profile := profile_now in
    if str_eqb requesterMXID (MXID profile)
    then fail (Api.BadRequest "requester_mxid must be a remote peer")
    else
      let! contact := internal (reads (fun w => LookupByPeer w requesterMXID)) in
      match contact with
      | None => fail no_retained
      | Some contact =>
          if negb (str_empty roomID) && negb (str_eqb (Contact.RoomID contact) roomID)
          then fail no_retained
          else if str_empty roomID && negb (acceptedStatus (Contact.Status contact))
          then fail no_retained
          else
            let roomID := or_given roomID (Contact.RoomID contact) in
            if ContactDeleted (Contact.Status contact) then fail no_retained
            else if negb (acceptedStatus (Contact.Status contact)) then
              let! _ := internal (Save (reopened contact params requesterMXID)) in
              reactivationResult "pending_inbound" roomID
            else
              let! _ := when_set (reactivateRoom cfg) (fun f => f profile roomID requesterMXID) in
              reactivationResult "invited" roomID
      end.

(** [Handlers]: one request to the module. *)
Inductive request :=
| QDelete (params : content)
| QList
| QReactivate (params : content)
| QRequest (params : content)
| QUpdate (params : content)
| QAccept (params : content)
| QRequestDelete (params : content)
| QReject (params : content).

Definition serve (q : request) : M W Api.Error reply :=
  match q with
  | QDelete params => Delete params
  | QList => handleList
  | QReactivate params => handleReactivate params
  | QRequest params => Request params
  | QUpdate params => handleUpdate params
  | QAccept params => handleRequestAccept params
  | QRequestDelete params => handleRequestDelete params
  | QReject params => handleRequestReject params
  end.
End Module_.
End ContactFlow.
