(* ===== verification/Rooms.v ===== *)
(** * Channels and groups: persistence

    The store side of [p2p/internal/channels/module.go] and
    [p2p/internal/groups/module.go]: a room record is saved together with its
    conversation, and the counts of a room follow its members. *)

From Stdlib Require Import Ascii String ZArith Lia.
From stdpp Require Import base tactics list gmap strings.
From S2P Require Import Prelude GoStrings Values Domain Policy Action MemoryTables Workflow.
From S2P Require Import Conversation Contacts.
Local Open Scope Z_scope.
Local Open Scope go_scope.

(** [fallback] of both modules returns the value as it is. *)
Definition room_fallback (value fallbackValue : string) : string :=
  if str_empty (trim_space value) then fallbackValue else value.

Module Channels.
Section Store.
Context `{GoRange}.
Implicit Types (s : T.tables) (now : Z) (channel : Chan.Channel).

Definition Save now s channel : T.tables * result goerror unit :=
  Conversation.Save now (MemoryTables.UpsertChannel s channel) (ConversationFromChannel channel).

Definition Delete s (channelID : string) : T.tables :=
  MemoryTables.DeleteChannel s (trim_space channelID).

Definition ListJoined s (userID : string) : list Chan.Channel :=
  MemoryTables.ListJoinedChannelsForUser s (trim_space userID).

Definition ListPublic s (userID : string) : list Chan.Channel :=
  MemoryTables.ListPublicChannelsForOwner s (trim_space userID).

Definition ByIDOrRoom s (channelID roomID : string) : option Chan.Channel :=
  MemoryTables.GetChannelByIDOrRoom s (trim_space channelID) (trim_space roomID).

(** [Channel{}] *)
Definition zero_channel : Chan.Channel :=
  {| Chan.ChannelID := ""; Chan.RoomID := ""; Chan.Name := ""; Chan.Description := "";
     Chan.AvatarURL := ""; Chan.Visibility := ""; Chan.JoinPolicy := ""; Chan.ChannelType := "";
     Chan.CommentsEnabled := false; Chan.Muted := false; Chan.MemberCount := 0;
     Chan.PendingJoinCount := 0; Chan.IsOwned := false; Chan.Role := "";
     Chan.MemberStatus := "" |}.

Definition Snapshot s (channelID : string) : Chan.Channel :=
  let channelID := trim_space channelID in
  if str_empty channelID then zero_channel else default zero_channel (ByIDOrRoom s channelID "").

(** Stale counts are refreshed unless the room has no members at all. *)
Definition WithCurrentCounts now s channel : T.tables * result goerror Chan.Channel :=
  if str_empty (trim_space (Chan.ChannelID channel)) then (s, Ok channel)
  else
    let '(joined, pending) :=
      MemoryTables.CountProductMembers s (Chan.RoomID channel) (Chan.ChannelID channel) in
    if (joined =? 0) && (pending =? 0) then (s, Ok channel)
    else if (Chan.MemberCount channel =? joined) && (Chan.PendingJoinCount channel =? pending)
    then (s, Ok channel)
    else
      let channel := Chan.set_PendingJoinCount pending (Chan.set_MemberCount joined channel) in
      let '(s, r) := Save now s channel in
      (s, let? _ := r in Ok channel).

Definition RefreshCounts now s (channelID : string) : T.tables * result goerror unit :=
  let channelID := trim_space channelID in
  if str_empty channelID then (s, Ok ())
  else match ByIDOrRoom s channelID "" with
       | None => (s, Ok ())
       | Some channel =>
           let '(joined, pending) :=
             MemoryTables.CountProductMembers s (Chan.RoomID channel) channelID in
           Save now s (Chan.set_PendingJoinCount pending (Chan.set_MemberCount joined channel))
       end.
End Store.
End Channels.

Module Groups.
(** [View]: the record with its response-only fields. *)
Record View (B : Type) := mkView {
  group : Group.GroupRecord;
  Operation : option content;
  Conversation_ : option CView.ConversationView;
  AgentBinding : option B;
  AgentBindingError : string;
}.
Arguments mkView {B}.
Arguments group {B}.
Arguments Operation {B}.
Arguments Conversation_ {B}.
Arguments AgentBinding {B}.
Arguments AgentBindingError {B}.

Definition ViewFromRecord {B} (record : Group.GroupRecord) : View B :=
  mkView record None None None "".

Definition RecordFromView {B} (view : View B) : Group.GroupRecord := group view.

Section Store.
Context `{GoRange}.
Implicit Types (s : T.tables) (now : Z).

Definition Save {B} now s (view : View B) : T.tables * result goerror unit :=
  let record := RecordFromView view in
  Conversation.Save now (MemoryTables.UpsertGroup s record) (ConversationFromGroup record).

Definition Delete s (roomID : string) : T.tables * result goerror unit :=
  Conversation.DeleteKindByRoom (MemoryTables.DeleteGroup s roomID) roomID "group".

Definition ListJoined {B} s (userID : string) : list (View B) :=
  map ViewFromRecord (MemoryTables.ListJoinedGroupsForUser s userID).

Definition ByRoom {B} s (roomID : string) : option (View B) :=
  ViewFromRecord <$> MemoryTables.GetGroupByRoom s roomID.
End Store.
End Groups.
