(* ===== verification/RoomWorkflows.v ===== *)
(** * Channel and group workflows

    The actions of [p2p/internal/channels] (creation, update, policy,
    dissolution and the public directory) and of [p2p/internal/groups].  The
    store is the memory store, the rest of the world is reached through the
    ports, all of which the service sets. *)

From Stdlib Require Import Ascii String ZArith Lia.
From stdpp Require Import base tactics list gmap strings.
From S2P Require Import Prelude GoStrings Values Domain Policy Action MemoryTables Workflow.
From S2P Require Import Conversation Contacts Rooms.
Local Open Scope Z_scope.
Local Open Scope go_scope.

(** A change of the store as a step of a workflow. *)
Definition store_step {X E A} (f : T.tables -> T.tables * result E A) : M (T.tables * X) E A :=
  lift_store f.

(** A read of the world that cannot fail. *)
Definition asks {W E A} (f : W -> A) : M W E A := reads (fun w => Ok (f w)).

(** [if v := params.String(key); v != "" { field = v }] *)
Definition given (params : content) (key stored : string) : string :=
  Contacts.replaced_by stored (Params.get_string params key).

(** [if _, exists := raw[key]; exists { field = params.Bool(key) }] *)
Definition given_bool (params : content) (key : string) (stored : bool) : bool :=
  match params !! key with
  | Some _ => Params.get_bool params key
  | None => stored
  end.

Module ChannelFlow.
Record Config (W : Type) := {
  NewChannelID : W -> W * string;
  CreateRoom : Chan.Channel -> M W Api.Error string;
  SaveOwnerMember : string -> string -> M W goerror unit;
  PublishState : Chan.Channel -> bool -> M W goerror unit;
  PublishHistory : Chan.Channel -> M W goerror unit;
  SetMemberMute : string -> string -> bool -> M W Api.Error unit;
  RequireOwner : string -> M W Api.Error unit;
  OwnerMXID : W -> string;
  RemotePublicGet : string -> string -> content -> M W Api.Error (option Chan.Channel);
  FetchRoomChannel : string -> M W Api.Error (option Chan.Channel);
  RemoteUserChannels : string -> content -> M W Api.Error (string * list Chan.Channel);
  IsMatrixRoomID : string -> bool;
}.
Arguments NewChannelID {W}.
Arguments CreateRoom {W}.
Arguments SaveOwnerMember {W}.
Arguments PublishState {W}.
Arguments PublishHistory {W}.
Arguments SetMemberMute {W}.
Arguments RequireOwner {W}.
Arguments OwnerMXID {W}.
Arguments RemotePublicGet {W}.
Arguments FetchRoomChannel {W}.
Arguments RemoteUserChannels {W}.
Arguments IsMatrixRoomID {W}.

(** The results of the handlers. *)
Inductive reply :=
| RChannel (channel : Chan.Channel)
| RChannels (channels : list Chan.Channel)
| RPolicy (channel : Chan.Channel)              (* status ok, channel_id, room_id, muted *)
| RDissolved (channel : Chan.Channel)
| RUserChannels (userID : string) (channels : list Chan.Channel).

Section Module_.
Context `{GoRange} {X : Type}.
Local Notation world := (T.tables * X)%type.
Context (clock : world -> Z) (cfg : Config world).

Definition save (channel : Chan.Channel) : M world goerror unit :=
  fun w => store_step (fun s => Channels.Save (clock w) s channel) w.

Definition current_counts (channel : Chan.Channel) : M world goerror Chan.Channel :=
  fun w => store_step (fun s => Channels.WithCurrentCounts (clock w) s channel) w.

Definition lookup (channelID roomID : string) : M world Api.Error Chan.Channel :=
  fun w => (w, match Channels.ByIDOrRoom w.1 channelID roomID with
               | Some channel => Ok channel
               | None => Err (Api.StatusError 404 "channel not found")
               end).

Definition publishState (channel : Chan.Channel) (dissolved : bool) : M world goerror unit :=
  if str_empty (trim_space (Chan.RoomID channel)) then ret tt
  else PublishState cfg channel dissolved.

Definition no_target : Api.Error := Api.BadRequest "channel_id or room_id is required".

(** The channel of a request, which must name one. *)
Definition requested (raw : content) : M world Api.Error Chan.Channel :=
  let channelID := Params.get_string raw "channel_id" in
  let roomID := Params.get_string raw "room_id" in
  if str_empty channelID && str_empty roomID then fail no_target else lookup channelID roomID.

(** The channel [channels.create] makes, still without its new room. *)
Definition new_channel (channelID : string) (raw : content) : Chan.Channel :=
  let get := Params.get_string raw in
  {| Chan.ChannelID := channelID; Chan.RoomID := get "room_id";
     Chan.Name := room_fallback (get "name") channelID; Chan.Description := get "description";
     Chan.AvatarURL := get "avatar_url"; Chan.Visibility := room_fallback (get "visibility") "public";
     Chan.JoinPolicy := room_fallback (get "join_policy") "open";
     Chan.ChannelType := room_fallback (get "channel_type") "post";
     Chan.CommentsEnabled := given_bool raw "comments_enabled" true; Chan.Muted := false;
     Chan.MemberCount := 1; Chan.PendingJoinCount := 0; Chan.IsOwned := true;
     Chan.Role := "owner"; Chan.MemberStatus := "join" |}.

Definition Create (raw : content) : M world Api.Error reply :=
  let! channelID := if str_empty (Params.get_string raw "channel_id")
                    then fun w => let '(w, id) := NewChannelID cfg w in (w, Ok (trim_space id))
                    else ret (Params.get_string raw "channel_id") in
  let channel := new_channel channelID raw in
  let existingRoom := negb (str_empty (Params.get_string raw "room_id")) in
  let! roomID := if existingRoom then ret (Params.get_string raw "room_id")
                 else CreateRoom cfg channel in
  let channel := Chan.set_RoomID roomID channel in
  let! _ := internal (save channel) in
  let! _ := internal (SaveOwnerMember cfg (Chan.RoomID channel) (Chan.ChannelID channel)) in
  let! _ := if existingRoom then internal (PublishHistory cfg channel) else ret tt in
  ret (RChannel channel).

Definition updated (channel : Chan.Channel) (raw : content) : Chan.Channel :=
  {| Chan.ChannelID := Chan.ChannelID channel; Chan.RoomID := Chan.RoomID channel;
     Chan.Name := given raw "name" (Chan.Name channel);
     Chan.Description := given raw "description" (Chan.Description channel);
     Chan.AvatarURL := given raw "avatar_url" (Chan.AvatarURL channel);
     Chan.Visibility := given raw "visibility" (Chan.Visibility channel);
     Chan.JoinPolicy := given raw "join_policy" (Chan.JoinPolicy channel);
     Chan.ChannelType := Chan.ChannelType channel;
     Chan.CommentsEnabled := given_bool raw "comments_enabled" (Chan.CommentsEnabled channel);
     Chan.Muted := given_bool raw "muted" (Chan.Muted channel);
     Chan.MemberCount := Chan.MemberCount channel;
     Chan.PendingJoinCount := Chan.PendingJoinCount channel; Chan.IsOwned := Chan.IsOwned channel;
     Chan.Role := Chan.Role channel; Chan.MemberStatus := Chan.MemberStatus channel |}.

Definition Update (raw : content) : M world Api.Error reply :=
  let! channel := requested raw in
  let! _ := RequireOwner cfg (Chan.RoomID channel) in
  let channel := updated channel raw in
  let! _ := internal (save channel) in
  let! _ := internal (publishState channel false) in
  ret (RChannel channel).

Definition handleList : M world Api.Error reply :=
  asks (fun w => RChannels (Channels.ListJoined w.1 (OwnerMXID cfg w))).

Definition policyHandler (muted : bool) (raw : content) : M world Api.Error reply :=
  let! channel := requested raw in
  let channel := Chan.set_Muted muted channel in
  let! _ := internal (save channel) in
  let! _ := SetMemberMute cfg (Chan.RoomID channel) (Chan.ChannelID channel) muted in
  ret (RPolicy channel).

Definition Dissolve (raw : content) : M world Api.Error reply :=
  let! channel := requested raw in
  let! _ := RequireOwner cfg (Chan.RoomID channel) in
  let! _ := internal (publishState channel true) in
  let! _ := run (fun w => (Channels.Delete w.1 (Chan.ChannelID channel), w.2)) in
  ret (RDissolved channel).

(** ** The public directory ([public.go]) *)

Definition not_found : Api.Error := Api.StatusError 404 "channel not found".

Definition visiblePublicChannel (channel : Chan.Channel) : M world Api.Error Chan.Channel :=
  if negb (equal_fold (Chan.Visibility channel) "public") then fail not_found
  else internal (current_counts channel).

Definition publicGet (raw : content) : M world Api.Error Chan.Channel :=
  let channelID := Params.get_string raw "channel_id" in
  let roomID := Params.get_string raw "room_id" in
  if str_empty channelID && str_empty roomID then fail no_target
  else
    let! local := asks (fun w => Channels.ByIDOrRoom w.1 channelID roomID) in
    match local with
    | Some channel => visiblePublicChannel channel
    | None =>
        let! remote := RemotePublicGet cfg channelID roomID raw in
        match remote with
        | Some channel => visiblePublicChannel channel
        | None =>
            let! fetched := if str_empty roomID then ret None else FetchRoomChannel cfg roomID in
            match fetched with
            | Some channel =>
                let! _ := internal (save channel) in
                visiblePublicChannel channel
            | None => fail not_found
            end
        end
    end.

Definition PublicGet (raw : content) : M world Api.Error reply :=
  let! channel := publicGet raw in ret (RChannel channel).

Definition refreshed (channel : Chan.Channel) : M world Api.Error (option Chan.Channel) :=
  let! channel := internal (current_counts channel) in ret (Some channel).

Definition PublicSearch (raw : content) : M world Api.Error reply :=
  let rawQuery := Params.get_string raw "q" in
  let query := to_lower rawQuery in
  let limit := Params.get_int64 raw "limit" in
  let limit := if (limit <=? 0) || (100 <? limit) then 20 else limit in
  if IsMatrixRoomID cfg rawQuery then
    fun w =>
      match publicGet (<["room_id" := AString rawQuery]>
              {["remote_node_base_url" :=
                  AString (Params.get_string raw "remote_node_base_url")]}) w with
      | (w, Ok channel) => (w, Ok (RChannels [channel]))
      | (w, Err e) => if Api.Status e =? 404 then (w, Ok (RChannels [])) else (w, Err e)
      end
  else
    let! results := asks (fun w => MemoryTables.SearchPublicChannels w.1 query limit) in
    let! results := collect refreshed results in
    ret (RChannels results).

Definition UserPublicChannels (raw : content) : M world Api.Error reply :=
  let userID := Params.FirstString raw ["user_id"; "user_mxid"; "mxid"] in
  if str_empty userID then fail (Api.BadRequest "user_id is required")
  else if negb (str_empty (Params.get_string raw "remote_node_base_url")) then
    let! (remoteUserID, channels) := RemoteUserChannels cfg userID raw in
    ret (RUserChannels (room_fallback remoteUserID userID) channels)
  else
    let! channels := asks (fun w => Channels.ListPublic w.1 userID) in
    let! channels := collect refreshed channels in
    ret (RUserChannels userID channels).

(** [Handlers] *)
Definition serve (action : string) (raw : content) : option (M world Api.Error reply) :=
  if str_eqb action "channels.create" then Some (Create raw)
  else if str_eqb action "channels.update" then Some (Update raw)
  else if str_eqb action "channels.list" then Some handleList
  else if str_eqb action "channels.dissolve" then Some (Dissolve raw)
  else if str_eqb action "channels.mute" then Some (policyHandler true raw)
  else if str_eqb action "channels.unmute" then Some (policyHandler false raw)
  else if str_eqb action "channels.public.get" then Some (PublicGet raw)
  else if str_eqb action "channels.public.search" then Some (PublicSearch raw)
  else if str_eqb action "users.public_channels" then Some (UserPublicChannels raw)
  else None.
End Module_.
End ChannelFlow.

Module GroupFlow.
(** [B] is the type of agent bindings. *)
Record Config (W B : Type) := {
  CreateRoom : Group.GroupRecord -> M W Api.Error string;
  SaveOwnerMember : string -> M W goerror unit;
  PublishState : Group.GroupRecord -> bool -> M W goerror unit;
  SetMemberMute : string -> bool -> M W Api.Error unit;
  RequireOwner : string -> M W Api.Error unit;
  OwnerMXID : W -> string;
  CreateAgentBinding : string -> bool -> W -> W * option B * option Api.Error;
  BeforeDissolve : string -> M W goerror unit;
}.
Arguments CreateRoom {W B}.
Arguments SaveOwnerMember {W B}.
Arguments PublishState {W B}.
Arguments SetMemberMute {W B}.
Arguments RequireOwner {W B}.
Arguments OwnerMXID {W B}.
Arguments CreateAgentBinding {W B}.
Arguments BeforeDissolve {W B}.

Inductive reply (B : Type) :=
| RGroup (view : Groups.View B)
| RGroups (views : list (Groups.View B))
| RPolicy (view : Groups.View B)                (* status ok, room_id, muted *)
| RDissolved (view : Groups.View B).
Arguments RGroup {B}.
Arguments RGroups {B}.
Arguments RPolicy {B}.
Arguments RDissolved {B}.

Section Module_.
Context `{GoRange} {X B : Type}.
Local Notation world := (T.tables * X)%type.
Context (hydrator : Conversation.Hydrator world) (clock : world -> Z) (cfg : Config world B).

Definition save (record : Group.GroupRecord) : M world goerror unit :=
  fun w => store_step (fun s => Groups.Save (clock w) s (Groups.ViewFromRecord (B:=B) record)) w.

Definition lookup (roomID : string) : M world Api.Error Group.GroupRecord :=
  fun w => (w, match Groups.ByRoom (B:=B) w.1 roomID with
               | Some view => Ok (Groups.RecordFromView view)
               | None => Err (Api.StatusError 404 "group not found")
               end).

Definition publishState (record : Group.GroupRecord) (dissolved : bool) : M world goerror unit :=
  if str_empty (trim_space (Group.RoomID record)) then ret tt
  else PublishState cfg record dissolved.

Definition requested (raw : content) : M world Api.Error Group.GroupRecord :=
  let roomID := Params.get_string raw "room_id" in
  if str_empty roomID then fail (Api.BadRequest "room_id is required") else lookup roomID.

Definition WithOperation (record : Group.GroupRecord) (action status : string)
    : M world goerror (Groups.View B) :=
  let! (operation, conversation) :=
    reads (fun w => Conversation.Operation hydrator w action status (Group.RoomID record)) in
  ret (Groups.mkView record (Some operation) conversation None "").

(** [agent_enabled] must be a JSON boolean. *)
Definition agent_enabled_ok (raw : content) : bool :=
  match raw !! "agent_enabled" with
  | None | Some (ABool _) => true
  | Some _ => false
  end.

Definition new_group (raw : content) : Group.GroupRecord :=
  let get := Params.get_string raw in
  {| Group.RoomID := get "room_id";
     Group.Name := room_fallback (Params.FirstString raw ["name"; "group_name"]) "Group";
     Group.Topic := get "topic"; Group.AvatarURL := get "avatar_url"; Group.MemberCount := 1;
     Group.InvitePolicy := room_fallback (get "invite_policy") "member"; Group.Muted := false |}.

(** The group in its room; a group without a name is named after the room. *)
Definition placed (record : Group.GroupRecord) (roomID name : string) : Group.GroupRecord :=
  {| Group.RoomID := roomID;
     Group.Name := if str_empty (Group.Name record) ||
                      (str_eqb (Group.Name record) "Group" && str_empty name)
                   then room_fallback name roomID else Group.Name record;
     Group.Topic := Group.Topic record; Group.AvatarURL := Group.AvatarURL record;
     Group.MemberCount := Group.MemberCount record;
     Group.InvitePolicy := Group.InvitePolicy record; Group.Muted := Group.Muted record |}.

(** The binding of the native agent; a failure is only reported. *)
Definition bind_agent (roomID : string) (enabled : bool) (view : Groups.View B)
    : M world Api.Error (Groups.View B) :=
  fun w =>
    let '(w, binding, e) := CreateAgentBinding cfg roomID enabled w in
    (w, Ok (Groups.mkView (Groups.group view) (Groups.Operation view) (Groups.Conversation_ view)
              binding (match e with
                       | Some _ => "group_agent_enable_incomplete"
                       | None => Groups.AgentBindingError view
                       end))).

Definition Create (raw : content) : M world Api.Error (reply B) :=
  if negb (agent_enabled_ok raw) then fail (Api.BadRequest "agent_enabled must be a boolean")
  else
    let needsStatePublish := negb (str_empty (Params.get_string raw "room_id")) in
    let record := new_group raw in
    let! roomID := if needsStatePublish then ret (Params.get_string raw "room_id")
                   else CreateRoom cfg record in
    let record := placed record roomID (Params.FirstString raw ["name"; "group_name"]) in
    let! _ := internal (save record) in
    let! _ := internal (SaveOwnerMember cfg (Group.RoomID record)) in
    let! _ := if needsStatePublish then internal (publishState record false) else ret tt in
    let! view := internal (WithOperation record "groups.create" "ok") in
    let! view := bind_agent roomID (Params.get_bool raw "agent_enabled") view in
    ret (RGroup view).

Definition updated (record : Group.GroupRecord) (raw : content) : Group.GroupRecord :=
  {| Group.RoomID := Group.RoomID record;
     Group.Name := Contacts.replaced_by (Group.Name record)
                     (Params.FirstString raw ["name"; "group_name"]);
     Group.Topic := given raw "topic" (Group.Topic record);
     Group.AvatarURL := given raw "avatar_url" (Group.AvatarURL record);
     Group.MemberCount := Group.MemberCount record;
     Group.InvitePolicy := given raw "invite_policy" (Group.InvitePolicy record);
     Group.Muted := given_bool raw "muted" (Group.Muted record) |}.

Definition Update (raw : content) : M world Api.Error (reply B) :=
  let! record := requested raw in
  let! _ := RequireOwner cfg (Group.RoomID record) in
  let record := updated record raw in
  let! _ := internal (save record) in
  let! _ := internal (publishState record false) in
  ret (RGroup (Groups.ViewFromRecord record)).

Definition handleList : M world Api.Error (reply B) :=
  asks (fun w => RGroups (Groups.ListJoined w.1 (OwnerMXID cfg w))).

(** [groups.mute] and [groups.unmute] *)
Definition mute_policy (muted : bool) (raw : content) : M world Api.Error (reply B) :=
  let! record := requested raw in
  let record := Group.set_Muted muted record in
  let! _ := internal (save record) in
  let! _ := SetMemberMute cfg (Params.get_string raw "room_id") (Group.Muted record) in
  ret (RPolicy (Groups.ViewFromRecord record)).

(** [groups.invite_policy.update] *)
Definition invite_policy (raw : content) : M world Api.Error (reply B) :=
  let! record := requested raw in
  let record := Group.set_InvitePolicy (given raw "invite_policy" (Group.InvitePolicy record))
                  record in
  let! _ := internal (save record) in
  let! _ := internal (publishState record false) in
  ret (RGroup (Groups.ViewFromRecord record)).

Definition Dissolve (raw : content) : M world Api.Error (reply B) :=
  let! record := requested raw in
  let! _ := RequireOwner cfg (Group.RoomID record) in
  let! _ := internal (BeforeDissolve cfg (Params.get_string raw "room_id")) in
  let! _ := internal (publishState record true) in
  let! _ := internal (store_step (fun s => Groups.Delete s (Group.RoomID record))) in
  ret (RDissolved (Groups.ViewFromRecord record)).

(** [Handlers] *)
Definition serve (action : string) (raw : content) : option (M world Api.Error (reply B)) :=
  if str_eqb action "groups.create" then Some (Create raw)
  else if str_eqb action "groups.update" then Some (Update raw)
  else if str_eqb action "groups.list" then Some handleList
  else if str_eqb action "groups.dissolve" then Some (Dissolve raw)
  else if str_eqb action "groups.mute" then Some (mute_policy true raw)
  else if str_eqb action "groups.unmute" then Some (mute_policy false raw)
  else if str_eqb action "groups.invite_policy.update" then Some (invite_policy raw)
  else None.
End Module_.
End GroupFlow.
