(* ===== verification/Members.v ===== *)
(** * Members: data, listing and persistence

    [p2p/internal/members]: the reply of a member action, the pure parts of
    the module and the member list; [p2p/service_member_persistence.go] and
    [p2p/service_member_mutation.go]: how the service stores a member. *)

From Stdlib Require Import Ascii String ZArith Lia.
From stdpp Require Import base tactics list gmap strings.
From S2P Require Import Prelude GoStrings Values Domain Policy Action MemoryTables Workflow.
From S2P Require Import OperationIdentity Conversation Contacts Rooms.
Local Open Scope Z_scope.
Local Open Scope go_scope.

(** The map a member action returns, by its keys; [status] is empty and the
    others are [None] when the key is absent.  The keys [grant_id],
    [channel_id] and [share_room_id] only occur with [grant] and repeat its
    fields. *)
Module Reply.
Record t := mk {
  status : string;
  member : option Member.MemberRecord;
  members : option (list Member.MemberRecord);
  channel : option Chan.Channel;
  room_id : option string;
  error_code : option string;
  needs_rebuild : option bool;
  rebuild_generation : option string;
  grant : option Grant.ChannelInviteGrant;
  operation : option content;
  conversation : option CView.ConversationView;
}.
(** The empty map. *)
Definition empty : t :=
  {| status := ""; member := None; members := None; channel := None; room_id := None;
     error_code := None; needs_rebuild := None; rebuild_generation := None; grant := None;
     operation := None; conversation := None |}.
Definition set_status (v : string) (r : t) : t :=
  {| status := v; member := member r; members := members r; channel := channel r;
     room_id := room_id r; error_code := error_code r; needs_rebuild := needs_rebuild r;
     rebuild_generation := rebuild_generation r; grant := grant r; operation := operation r;
     conversation := conversation r |}.
Definition set_member (v : Member.MemberRecord) (r : t) : t :=
  {| status := status r; member := Some v; members := members r; channel := channel r;
     room_id := room_id r; error_code := error_code r; needs_rebuild := needs_rebuild r;
     rebuild_generation := rebuild_generation r; grant := grant r; operation := operation r;
     conversation := conversation r |}.
Definition set_members (v : list Member.MemberRecord) (r : t) : t :=
  {| status := status r; member := member r; members := Some v; channel := channel r;
     room_id := room_id r; error_code := error_code r; needs_rebuild := needs_rebuild r;
     rebuild_generation := rebuild_generation r; grant := grant r; operation := operation r;
     conversation := conversation r |}.
Definition set_channel (v : Chan.Channel) (r : t) : t :=
  {| status := status r; member := member r; members := members r; channel := Some v;
     room_id := room_id r; error_code := error_code r; needs_rebuild := needs_rebuild r;
     rebuild_generation := rebuild_generation r; grant := grant r; operation := operation r;
     conversation := conversation r |}.
Definition set_room_id (v : string) (r : t) : t :=
  {| status := status r; member := member r; members := members r; channel := channel r;
     room_id := Some v; error_code := error_code r; needs_rebuild := needs_rebuild r;
     rebuild_generation := rebuild_generation r; grant := grant r; operation := operation r;
     conversation := conversation r |}.
Definition set_error_code (v : string) (r : t) : t :=
  {| status := status r; member := member r; members := members r; channel := channel r;
     room_id := room_id r; error_code := Some v; needs_rebuild := needs_rebuild r;
     rebuild_generation := rebuild_generation r; grant := grant r; operation := operation r;
     conversation := conversation r |}.
Definition set_rebuild (needed : bool) (generation : string) (r : t) : t :=
  {| status := status r; member := member r; members := members r; channel := channel r;
     room_id := room_id r; error_code := error_code r; needs_rebuild := Some needed;
     rebuild_generation := Some generation; grant := grant r; operation := operation r;
     conversation := conversation r |}.
Definition set_grant (v : Grant.ChannelInviteGrant) (r : t) : t :=
  {| status := status r; member := member r; members := members r; channel := channel r;
     room_id := room_id r; error_code := error_code r; needs_rebuild := needs_rebuild r;
     rebuild_generation := rebuild_generation r; grant := Some v; operation := operation r;
     conversation := conversation r |}.
Definition set_operation (v : content) (c : option CView.ConversationView) (r : t) : t :=
  {| status := status r; member := member r; members := members r; channel := channel r;
     room_id := room_id r; error_code := error_code r; needs_rebuild := needs_rebuild r;
     rebuild_generation := rebuild_generation r; grant := grant r; operation := Some v;
     conversation := match c with Some c => Some c | None => conversation r end |}.
End Reply.

Module Members.

(** ** Classification of memberships *)

Definition canonical_membership (membership : string) : string := to_lower (trim_space membership).

Definition removedMembership (membership : string) : bool :=
  bool_decide (canonical_membership membership ∈ ["remove"; "removed"; "ban"; "banned"]).

Definition leftMembership (membership : string) : bool :=
  bool_decide (canonical_membership membership ∈ ["leave"; "left"]).

Definition joinRequestMutationAllowed (approved : bool) (membership : string) : bool :=
  let membership := canonical_membership membership in
  if approved
  then bool_decide (membership ∈ ["pending"; "approved"; "joining"; "join_failed"; "join"])
  else bool_decide (membership ∈ ["pending"; "reject"; "rejected"]).

Definition publicJoinGenerationMayRestart (membership : string) : bool :=
  bool_decide (canonical_membership membership ∈ ["reject"; "rejected"; "leave"; "left"]).

Definition rebuildGenerationMaySupersede (membership : string) : bool :=
  negb (bool_decide (canonical_membership membership ∈
    ["pending"; "approved"; "joining"; "join_failed"])).

Definition removedMemberHasFreshInvite (scope : string) (params : content) : bool :=
  let given key := negb (str_empty (Params.get_string params key)) in
  str_eqb scope "channel" && (given "grant_id" || given "share_room_id" || given "via_room_id").

(** ** Parameters *)

Definition firstMemberID (params : content) : string :=
  let userID := Params.FirstString params ["user_id"; "user_mxid"; "peer_mxid"; "mxid"] in
  if str_empty userID
  then Params.FirstListString params ["user_ids"; "user_mxids"; "peer_mxids"; "invitees"]
  else userID.

(** [add]: the users seen are those in the list. *)
Definition add_member_id (users : list string) (userID : string) : list string :=
  let userID := trim_space userID in
  if str_empty userID || bool_decide (userID ∈ users) then users else users ++ [userID].

Definition inviteMemberIDs (params : content) : list string :=
  let users := foldl add_member_id []
    (map (Params.get_string params) ["user_id"; "user_mxid"; "peer_mxid"; "mxid"]) in
  foldl (fun users key => foldl add_member_id users (Params.get_strings params key)) users
    ["user_ids"; "user_mxids"; "peer_mxids"; "invitees"; "invite"].

Definition ApplyMemberProfile (member : Member.MemberRecord) (params : content)
    : Member.MemberRecord :=
  let get := Params.get_string params in
  Member.set_Domain (Contacts.replaced_by (Member.Domain member) (get "domain"))
    (Member.set_AvatarURL (Contacts.replaced_by (Member.AvatarURL member) (get "avatar_url"))
    (Member.set_DisplayName (Contacts.replaced_by (Member.DisplayName member) (get "display_name"))
       member)).

(** [fallback] trims the value it returns. *)
Definition fallback (value defaultValue : string) : string :=
  if str_empty (trim_space value) then defaultValue else trim_space value.

(** ** The member list *)

Definition singleMemberRoomID (requestedRoomID : string) (members : list Member.MemberRecord)
    : string :=
  (fix loop (roomID : string) (members : list Member.MemberRecord) : string :=
     match members with
     | [] => roomID
     | m :: members =>
         let memberRoomID := trim_space (Member.RoomID m) in
         if str_empty memberRoomID then loop roomID members
         else if str_empty roomID then loop memberRoomID members
         else if negb (str_eqb memberRoomID roomID) then ""
         else loop roomID members
     end) (trim_space requestedRoomID) members.

Definition canonicalMemberRole (member : Member.MemberRecord) (ownerMXID : string) : string :=
  if str_empty ownerMXID then NormalizeProductMemberRole (Member.Role member)
  else if str_eqb (trim_space (Member.UserID member)) ownerMXID then "owner" else "member".

(** The comparison of [SortByOwnerThenJoinOrder]. *)
Definition owner_then_join (ownerMXID : string) (left_ right_ : Member.MemberRecord) : bool :=
  let is_owner m := str_eqb (trim_space (Member.UserID m)) ownerMXID in
  if negb (str_empty ownerMXID) && negb (Bool.eqb (is_owner left_) (is_owner right_))
  then is_owner left_
  else MemoryTables.member_less left_ right_.

Definition SortByOwnerThenJoinOrder (members : list Member.MemberRecord) (ownerMXID : string)
    : list Member.MemberRecord :=
  stable_sort (owner_then_join (trim_space ownerMXID)) members.

Definition member_filter (members : list Member.MemberRecord) (status role ownerMXID : string)
    : list Member.MemberRecord :=
  let ownerMXID := trim_space ownerMXID in
  let normalized :=
    List.filter (fun m =>
      negb (negb (str_empty status) && negb (equal_fold (Member.Membership m) status)) &&
      negb (negb (str_empty role) && negb (equal_fold (Member.Role m) role)))
      (map (fun m => Member.set_Role (canonicalMemberRole m ownerMXID) m) members) in
  SortByOwnerThenJoinOrder normalized ownerMXID.

(** ** Persistence ([service_member_persistence.go]) *)

Definition memberStartsNewRequestGeneration (previous next : string) : bool :=
  bool_decide (canonical_membership next ∈ ["invite"; "pending"]) &&
  negb (bool_decide (canonical_membership previous ∈
    ["invite"; "pending"; "approved"; "joining"; "join_failed"])).

Definition mergeMemberPersistence (member existing : Member.MemberRecord) : Member.MemberRecord :=
  let joinedNow := MemberMembershipJoined (Member.Membership member) in
  let wasJoined := MemberMembershipJoined (Member.Membership existing) in
  let keep_joined := (0 <? Member.JoinedAt existing) &&
    negb (memberStartsNewRequestGeneration (Member.Membership existing)
            (Member.Membership member)) &&
    negb (joinedNow && negb wasJoined) in
  let member := if keep_joined then Member.set_JoinedAt (Member.JoinedAt existing) member
                else member in
  let member := if str_empty (Member.RequesterNodeBaseURL member)
                then Member.set_RequesterNodeBaseURL (Member.RequesterNodeBaseURL existing) member
                else member in
  let member := if str_empty (Member.RequestID member)
                then Member.set_RequestID (Member.RequestID existing) member else member in
  let member := if removedMembership (Member.Membership existing) &&
                   leftMembership (Member.Membership member)
                then Member.set_Membership (Member.Membership existing) member else member in
  if ProductOwnerRole (Member.Role existing) && negb (ProductOwnerRole (Member.Role member)) &&
     negb (MemberHidden (Member.Membership existing)) &&
     negb (MemberHidden (Member.Membership member))
  then Member.set_Role (Member.Role existing) member else member.

Section Persistence.
Context `{GoRange}.
(** [now] is the clock in milliseconds, [s] the memory store. *)
Implicit Types (s : T.tables) (now : Z).

(** The normalisation every save starts with. *)
Definition normalize_saved now (member : Member.MemberRecord) : Member.MemberRecord :=
  let member := Member.set_Role (NormalizeProductMemberRole (Member.Role member))
    (Member.set_Membership (NormalizeMemberMembership (Member.Membership member)) member) in
  if Member.JoinedAt member =? 0 then Member.set_JoinedAt now member else member.

Definition refreshStoredGroupCounts s (roomID : string) : T.tables :=
  let roomID := trim_space roomID in
  if str_empty roomID then s
  else match MemoryTables.GetGroupByRoom s roomID with
       | None => s
       | Some target =>
           MemoryTables.UpsertGroup s
             (Group.set_MemberCount (MemoryTables.CountProductMembers s roomID "").1 target)
       end.

Definition refresh_counts now s (member : Member.MemberRecord) : T.tables * result goerror unit :=
  if str_empty (Member.ChannelID member)
  then (refreshStoredGroupCounts s (Member.RoomID member), Ok ())
  else Channels.RefreshCounts now s (Member.ChannelID member).

(** [Service.lookupMember] *)
Definition lookupMember s (roomID userID : string) : option Member.MemberRecord :=
  if str_empty roomID || str_empty userID then None
  else MemoryTables.LookupMember s roomID userID.

Definition saveMember now s (member : Member.MemberRecord) : T.tables * result goerror unit :=
  let member := normalize_saved now member in
  let stored := if negb (str_empty (Member.RoomID member)) && negb (str_empty (Member.UserID member))
                then MemoryTables.LookupMember s (Member.RoomID member) (Member.UserID member)
                else None in
  let member := match stored with
                | Some stored => mergeMemberPersistence member stored
                | None => member
                end in
  refresh_counts now (MemoryTables.UpsertMember s member) member.

Definition saveMemberIfState now s (member : Member.MemberRecord)
    (expectedRequestID expectedMembership : string) : T.tables * result goerror bool :=
  let member := normalize_saved now member in
  match MemoryTables.LookupMember s (Member.RoomID member) (Member.UserID member) with
  | None => (s, Ok false)
  | Some stored =>
      if negb (str_eqb (Member.RequestID stored) expectedRequestID) ||
         (negb (str_empty expectedMembership) &&
          negb (equal_fold (trim_space (Member.Membership stored)) (trim_space expectedMembership)))
      then (s, Ok false)
      else
        let member := mergeMemberPersistence member stored in
        match MemoryTables.CompareAndSwapMemberGeneration s member expectedRequestID
                expectedMembership with
        | (s, false) => (s, Ok false)
        | (s, true) =>
            let '(s, r) := refresh_counts now s member in
            (s, let? _ := r in Ok true)
        end
  end.

Definition saveMemberIfAbsent now s (member : Member.MemberRecord)
    : T.tables * result goerror bool :=
  let member := normalize_saved now member in
  match MemoryTables.InsertMemberIfAbsent s member with
  | (s, false) => (s, Ok false)
  | (s, true) =>
      let '(s, r) := refresh_counts now s member in
      (s, let? _ := r in Ok true)
  end.

(** ** Helpers of [service_member_mutation.go] *)

Definition requireOwnerMember s (ownerMXID roomID : string) : result Api.Error unit :=
  match lookupMember s roomID ownerMXID with
  | Some member =>
      if negb (equal_fold (Member.Role member) "owner") || MemberHidden (Member.Membership member)
      then Err (Api.StatusError 403 "owner role is required") else Ok ()
  | None => Err (Api.StatusError 403 "owner role is required")
  end.

Definition memberTarget s (params : content) : string * string :=
  let roomID := Params.get_string params "room_id" in
  let channelID := Params.get_string params "channel_id" in
  let roomID := if str_empty roomID && negb (str_empty channelID)
                then match Channels.ByIDOrRoom s channelID "" with
                     | Some ch => Chan.RoomID ch
                     | None => roomID
                     end
                else roomID in
  let channelID := if str_empty channelID && negb (str_empty roomID)
                   then match Channels.ByIDOrRoom s "" roomID with
                        | Some ch => Chan.ChannelID ch
                        | None => channelID
                        end
                   else channelID in
  (roomID, channelID).

Definition memberRecordFor (roomID channelID userID : string) : Member.MemberRecord :=
  {| Member.RoomID := roomID; Member.ChannelID := channelID; Member.UserID := userID;
     Member.DisplayName := DisplayNameFromMXID userID; Member.AvatarURL := "";
     Member.Domain := DomainFromMXID userID; Member.Membership := "join";
     Member.Role := "member"; Member.Muted := false; Member.JoinedAt := 0;
     Member.RequesterNodeBaseURL := ""; Member.RequestID := "" |}.

Definition applyLocalOwnerMemberProfile (ownerMXID displayName avatarURL serverName : string)
    (member : Member.MemberRecord) : Member.MemberRecord :=
  if str_empty (trim_space ownerMXID) || negb (str_eqb (Member.UserID member) ownerMXID)
  then member
  else
    Member.set_Domain (Contacts.or_given (Member.Domain member) serverName)
      (Member.set_AvatarURL (Contacts.replaced_by (Member.AvatarURL member) (trim_space avatarURL))
      (Member.set_DisplayName (Contacts.replaced_by (Member.DisplayName member)
                                 (trim_space displayName)) member)).
End Persistence.
End Members.
