(* ===== verification/MemberWorkflows.v ===== *)
(** * Member workflows

    [p2p/internal/members]: the member list, policy and lifecycle changes,
    decisions on join requests, invitations, grants, joins, public join
    requests and reactivation of a retained room.  Every port acts on the
    whole world: other requests may run during a port call.

    The service sets every port ([service.go]), so the checks for missing
    dependencies do not fire and the ports are plain fields. *)

From Stdlib Require Import Ascii String ZArith Lia.
From stdpp Require Import base tactics list gmap strings.
From S2P Require Import Prelude GoStrings Values Domain Policy Action MemoryTables Workflow.
From S2P Require Import OperationIdentity Conversation Contacts Members.
Local Open Scope Z_scope.
Local Open Scope go_scope.

Module MemberFlow.
Import Members.

(** The member after the invitation was sent. *)
Definition InviteSender (W : Type) : Type :=
  Member.MemberRecord -> content -> bool -> M W Api.Error Member.MemberRecord.

(** [Config] and [Store].  [JoinRetained] also returns the member it changed
    when it fails; [CompleteJoinRequest] returns a map when it succeeds. *)
Record Config (W : Type) := {
  ListMembers : string -> string -> M W goerror (list Member.MemberRecord);
  UpsertChannelInviteGrant : Grant.ChannelInviteGrant -> M W goerror unit;
  ListChannelInviteGrants : M W goerror (list Grant.ChannelInviteGrant);
  ResolveTarget : content -> M W goerror (string * string);
  NewMember : string -> string -> string -> Member.MemberRecord;
  LookupMember : string -> string -> M W goerror (option Member.MemberRecord);
  SaveMember : Member.MemberRecord -> M W goerror unit;
  SaveMemberGeneration : Member.MemberRecord -> string -> string -> M W goerror bool;
  PublishPolicy : Member.MemberRecord -> M W Api.Error unit;
  Operation : string -> string -> string -> M W goerror (content * option CView.ConversationView);
  ResolveRoomOwner : string -> M W goerror string;
  OwnerMXID : W -> string;
  KickMember : string -> string -> string -> string -> M W Api.Error unit;
  LeaveMember : string -> string -> M W Api.Error unit;
  PublishJoinRequest : string -> string -> string -> string -> string -> M W Api.Error unit;
  CompleteJoinRequest : bool -> Member.MemberRecord -> content -> M W Api.Error Reply.t;
  LookupChannel : string -> string -> M W goerror (option Chan.Channel);
  RequireOwner : string -> M W Api.Error unit;
  RejectBlocked : string -> list string -> M W Api.Error unit;
  PrepareInvite : string -> string -> string -> M W Api.Error (InviteSender W);
  ShareRoomMembers : string -> M W goerror (list Member.MemberRecord);
  ChannelSnapshot : string -> W -> W * Chan.Channel;
  ApplyLocalProfile : Member.MemberRecord -> W -> Member.MemberRecord;
  MatrixJoined : string -> string -> M W goerror bool;
  JoinRetained : string -> Member.MemberRecord -> content ->
                 W -> W * Member.MemberRecord * option Api.Error;
  SaveRetainedMetadata : string -> Member.MemberRecord -> content -> M W Api.Error unit;
  ForwardPublicJoinRequest : content -> M W Api.Error (option Reply.t);
  EmitJoinRequestChanged : Member.MemberRecord -> string -> W -> W;
  NewGrantID : W -> W * string;
  NewRequestID : W -> W * string;
  Now : W -> Z;
}.
Arguments ListMembers {W}.
Arguments UpsertChannelInviteGrant {W}.
Arguments ListChannelInviteGrants {W}.
Arguments ResolveTarget {W}.
Arguments NewMember {W}.
Arguments LookupMember {W}.
Arguments SaveMember {W}.
Arguments SaveMemberGeneration {W}.
Arguments PublishPolicy {W}.
Arguments Operation {W}.
Arguments ResolveRoomOwner {W}.
Arguments OwnerMXID {W}.
Arguments KickMember {W}.
Arguments LeaveMember {W}.
Arguments PublishJoinRequest {W}.
Arguments CompleteJoinRequest {W}.
Arguments LookupChannel {W}.
Arguments RequireOwner {W}.
Arguments RejectBlocked {W}.
Arguments PrepareInvite {W}.
Arguments ShareRoomMembers {W}.
Arguments ChannelSnapshot {W}.
Arguments ApplyLocalProfile {W}.
Arguments MatrixJoined {W}.
Arguments JoinRetained {W}.
Arguments SaveRetainedMetadata {W}.
Arguments ForwardPublicJoinRequest {W}.
Arguments EmitJoinRequestChanged {W}.
Arguments NewGrantID {W}.
Arguments NewRequestID {W}.
Arguments Now {W}.

(** [lifecycleSpec] *)
Record lifecycleSpec := {
  scope_ : string;
  membership_ : string;
  status_ : string;
  forceOwner : bool;
  requireInvite : bool;
  kick : bool;
  leave : bool;
}.

Definition lifecycleSpecs (action : string) : option lifecycleSpec :=
  let left_ scope := {| scope_ := scope; membership_ := "leave"; status_ := "ok";
    forceOwner := true; requireInvite := false; kick := false; leave := true |} in
  let removed scope := {| scope_ := scope; membership_ := "remove"; status_ := "ok";
    forceOwner := false; requireInvite := false; kick := true; leave := false |} in
  if str_eqb action "channels.leave" then Some (left_ "channel")
  else if str_eqb action "channels.member.remove" then Some (removed "channel")
  else if str_eqb action "groups.invite.reject" then
    Some {| scope_ := "group"; membership_ := "reject"; status_ := "rejected";
            forceOwner := true; requireInvite := true; kick := false; leave := false |}
  else if str_eqb action "groups.leave" then Some (left_ "group")
  else if str_eqb action "groups.member.remove" then Some (removed "group")
  else None.

Section Module_.
Context {W : Type} `{MatrixIDs} (cfg : Config W).
Local Notation Mem := Member.MemberRecord.

(** ** Shared steps *)

Definition resultWithStatus (status : string) (member : Mem) : Reply.t :=
  Reply.set_member member (Reply.set_status status Reply.empty).

Definition HydrateResult (result : Reply.t) (action status roomID : string)
    : M W goerror Reply.t :=
  let! (operation, conversation) := Operation cfg action status roomID in
  ret (Reply.set_operation operation conversation result).

Definition attachOperation (result : Reply.t) (action status roomID : string)
    : M W Api.Error Reply.t :=
  internal (HydrateResult result action status roomID).

Definition resultWithOperation (action status : string) (member : Mem) : M W Api.Error Reply.t :=
  attachOperation (resultWithStatus status member) action status (Member.RoomID member).

(** [result["channel"] = ChannelSnapshot(...)] *)
Definition with_snapshot (channelID : string) (result : Reply.t) : M W Api.Error Reply.t :=
  fun w => let '(w, channel) := ChannelSnapshot cfg channelID w in
           (w, Ok (Reply.set_channel channel result)).

Definition owner_now : M W Api.Error string := fun w => (w, Ok (OwnerMXID cfg w)).

Definition local_profile (member : Mem) : M W Api.Error Mem :=
  fun w => (w, Ok (ApplyLocalProfile cfg member w)).

Definition no_target : Api.Error := Api.BadRequest "room_id or channel_id is required".

(** [userID] is evaluated after the target is known. *)
Definition loadMember (scope : string) (raw : content) (userID : M W Api.Error string)
    : M W Api.Error (Mem * bool) :=
  let! (roomID, channelID) := internal (ResolveTarget cfg raw) in
  if str_empty roomID && str_empty channelID then fail no_target
  else
    let! resolvedUserID := userID in
    if str_empty resolvedUserID then fail (Api.BadRequest "user_id is required")
    else
      let! existing := internal (LookupMember cfg roomID resolvedUserID) in
      let member :=
        match existing with
        | Some existing => if str_empty channelID then existing
                           else Member.set_ChannelID channelID existing
        | None => NewMember cfg roomID channelID resolvedUserID
        end in
      ret (if str_eqb scope "group" then Member.set_ChannelID "" member else member,
           bool_decide (is_Some existing)).

Definition request_user (raw : content) : M W Api.Error string := ret (firstMemberID raw).

(** ** List ([module.go]) *)

Definition List_ (raw : content) : M W Api.Error Reply.t :=
  let! (roomID, channelID) := internal (ResolveTarget cfg raw) in
  let! members := internal (ListMembers cfg roomID channelID) in
  let ownerRoomID := singleMemberRoomID roomID members in
  let! ownerMXID := if str_empty ownerRoomID then ret ""
                    else internal (ResolveRoomOwner cfg ownerRoomID) in
  let visible := List.filter (fun m => negb (MemberHidden (Member.Membership m))) members in
  let status := Params.FirstString raw ["status"; "membership"] in
  ret (Reply.set_members
         (member_filter visible status (Params.get_string raw "role") ownerMXID) Reply.empty).

(** ** Mute and unmute ([mutation.go]) *)

Definition mutate (scope action : string) (muted : bool) (raw : content)
    : M W Api.Error Reply.t :=
  let! (member, _) := loadMember scope raw (request_user raw) in
  let membership := trim_space (Member.Membership member) in
  let member := Member.set_Muted muted
    (Member.set_Membership (if str_empty membership then "join" else membership) member) in
  let! _ := internal (SaveMember cfg member) in
  let! _ := PublishPolicy cfg member in
  resultWithOperation action "ok" member.

(** ** Decisions on join requests ([mutation.go]) *)

(** The two attempts of [repairMatrixJoinedMember]. *)
Fixpoint repair_attempts (attempts : nat) (member : Mem) : M W Api.Error Mem :=
  match attempts with
  | O => fail (Api.InternalError "matrix joined member changed during projection repair")
  | S attempts =>
      let joined := Member.set_Membership "join" member in
      let! saved := internal (SaveMemberGeneration cfg joined (Member.RequestID member)
                                (Member.Membership member)) in
      if saved : bool then ret joined
      else
        let! current := internal (LookupMember cfg (Member.RoomID member) (Member.UserID member)) in
        match current with
        | None => fail (Api.InternalError
            "matrix joined member disappeared during projection repair")
        | Some current =>
            if equal_fold (trim_space (Member.Membership current)) "join" then ret current
            else repair_attempts attempts current
        end
  end.

Definition repairMatrixJoinedMember (member : Mem) : M W Api.Error Mem :=
  repair_attempts 2 member.

Definition joinRequestResult (status : string) (member : Mem) : M W Api.Error Reply.t :=
  let result := resultWithStatus status member in
  let result := if str_eqb status "joining"
                then Reply.set_error_code Identity.JoinResultUnconfirmedCode result
                else result in
  with_snapshot (Member.ChannelID member) result.

(** The status of a stored "join", by the Matrix membership. *)
Definition join_status (member : Mem) : M W Api.Error string :=
  let! joined := internal (MatrixJoined cfg (Member.RoomID member) (Member.UserID member)) in
  ret (if joined : bool then "joined" else "joining").

Definition currentJoinRequestResult (action : string) (member : Mem) : M W Api.Error Reply.t :=
  let status := canonical_membership (Member.Membership member) in
  let! status :=
    if str_eqb status "reject" || str_eqb status "rejected" then ret "rejected"
    else if str_eqb status "join" then join_status member
    else ret status in
  let! result := joinRequestResult status member in
  let result := if str_eqb status "join_failed"
                then Reply.set_error_code Identity.MatrixJoinFailedCode result else result in
  attachOperation result action status (Member.RoomID member).

(** The reply and status of a decision that was already taken the other way. *)
Definition replayedJoinRequestResult (approved : bool) (membership : string) (member : Mem)
    : option (Reply.t * string) :=
  if approved then
    if str_eqb membership "reject" || str_eqb membership "rejected"
    then Some (resultWithStatus "rejected" member, "rejected") else None
  else if str_eqb membership "approved" then Some (resultWithStatus membership member, membership)
  else if str_eqb membership "joining"
  then Some (Reply.set_error_code Identity.JoinResultUnconfirmedCode
               (resultWithStatus membership member), membership)
  else if str_eqb membership "join_failed"
  then Some (Reply.set_error_code Identity.MatrixJoinFailedCode
               (resultWithStatus membership member), membership)
  else None.

(** An approval of a member that is joined, as Matrix or the store says. *)
Definition complete_joined (action defaultStatus : string) (member : Mem) (raw : content)
    : M W Api.Error Reply.t :=
  let! result := CompleteJoinRequest cfg true member raw in
  let status := trim_space (Reply.status result) in
  if str_empty status
  then attachOperation (Reply.set_status defaultStatus result) action defaultStatus
         (Member.RoomID member)
  else attachOperation result action status (Member.RoomID member).

(** The decision is saved against the state it was taken on, published and
    completed. *)
Definition settle_join_request (action : string) (approved : bool) (member : Mem)
    (expectedRequestID membership : string) (raw : content) : M W Api.Error Reply.t :=
  let member := Member.set_Membership (if approved then "approved" else "reject") member in
  let! saved := internal (SaveMemberGeneration cfg member expectedRequestID membership) in
  if negb saved then
    let! current := internal (LookupMember cfg (Member.RoomID member) (Member.UserID member)) in
    match current with
    | None => fail (Api.InternalError "join request disappeared during state transition")
    | Some current => currentJoinRequestResult action current
    end
  else
    let! _ := PublishJoinRequest cfg (Member.RoomID member) (Member.UserID member)
                (if approved then "approved" else "rejected")
                (Params.get_string raw "reason") (Member.RequestID member) in
    let! result := CompleteJoinRequest cfg approved member raw in
    let current := trim_space (Reply.status result) in
    let '(result, status) :=
      if approved then (result, if str_empty current then "approved" else current)
      else if str_empty current || equal_fold current "reject"
      then (Reply.set_status "rejected" result, "rejected")
      else (result, current) in
    attachOperation result action status (Member.RoomID member).

(** The decision on a request that Matrix does not report as joined. *)
Definition decide_join_request (action : string) (approved : bool) (member : Mem) (raw : content)
    : M W Api.Error Reply.t :=
  let requestID := Params.get_string raw "request_id" in
  let expectedRequestID := Member.RequestID member in
  if negb (str_empty requestID) && negb (str_empty (Member.RequestID member)) &&
     negb (str_eqb requestID (Member.RequestID member))
  then currentJoinRequestResult action member
  else
    let member := if str_empty (Member.RequestID member) && negb (str_empty requestID)
                  then Member.set_RequestID requestID member else member in
    let membership := canonical_membership (Member.Membership member) in
    if approved && str_eqb membership "join"
    then complete_joined action "joining" member raw
    else if negb approved && str_eqb membership "join" then
      let! status := join_status member in
      let! result := joinRequestResult status member in
      attachOperation result action status (Member.RoomID member)
    else
      match replayedJoinRequestResult approved membership member with
      | Some (result, status) =>
          let! result := with_snapshot (Member.ChannelID member) result in
          attachOperation result action status (Member.RoomID member)
      | None =>
          if negb (joinRequestMutationAllowed approved membership)
          then fail (Api.CodedError 410 Identity.RequestExpiredCode "join request expired")
          else settle_join_request action approved member expectedRequestID membership raw
      end.

Definition handleJoinRequest (action : string) (raw : content) : M W Api.Error Reply.t :=
  let approved := str_eqb action "channels.join_request.approve" in
  if negb approved && negb (str_eqb action "channels.join_request.reject")
  then fail (Api.InternalError "unknown channel join-request action")
  else
    let! (member, found) := loadMember "channel" raw (request_user raw) in
    if negb found
    then fail (Api.CodedError 404 Identity.RequestNotFoundCode "join request not found")
    else
      let! joined := if approved then ret false
                     else internal (MatrixJoined cfg (Member.RoomID member) (Member.UserID member)) in
      if joined : bool then
        let! member := repairMatrixJoinedMember member in
        complete_joined action "joined" member raw
      else decide_join_request action approved member raw.

(** ** Leaving, removal and refused invitations ([mutation.go]) *)

(** The rest of a lifecycle action once the invitation was checked. *)
Definition apply_lifecycle (ls : lifecycleSpec) (action : string) (member : Mem) (raw : content)
    : M W Api.Error Reply.t :=
  if (leave ls || kick ls) && equal_fold (Member.Role member) "owner"
  then fail (Api.StatusError 409
    (scope_ ls +:+ " owner cannot leave; dissolve the " +:+ scope_ ls +:+ " instead"))
  else
    let member := Member.set_Membership (membership_ ls) member in
    let! _ := if kick ls then
                let! owner := owner_now in
                KickMember cfg (Member.RoomID member) owner (Member.UserID member)
                  (Params.get_string raw "reason")
              else ret tt in
    let! _ := if leave ls then LeaveMember cfg (Member.RoomID member) (Member.UserID member)
              else ret tt in
    let! _ := internal (SaveMember cfg member) in
    resultWithOperation action (status_ ls) member.

(** An invitation can be refused once, unless Matrix has the member joined. *)
Definition refuse_invite (ls : lifecycleSpec) (action : string) (member : Mem) (found : bool)
    (raw : content) : M W Api.Error Reply.t :=
  let membership := canonical_membership (Member.Membership member) in
  let! joined := if found
                 then internal (MatrixJoined cfg (Member.RoomID member) (Member.UserID member))
                 else ret false in
  if joined : bool then
    let! member := repairMatrixJoinedMember member in
    resultWithOperation action "joined" member
  else if found && (str_eqb membership "reject" || str_eqb membership "rejected")
  then resultWithOperation action (status_ ls) member
  else if negb found
  then fail (Api.CodedError 404 Identity.RequestNotFoundCode (scope_ ls +:+ " invite not found"))
  else if negb (str_eqb membership "invite")
  then fail (Api.CodedError 410 Identity.RequestExpiredCode (scope_ ls +:+ " invite expired"))
  else apply_lifecycle ls action member raw.

Definition HandleLifecycle (action : string) (raw : content) : M W Api.Error Reply.t :=
  match lifecycleSpecs action with
  | None => fail (Api.InternalError "unknown member lifecycle action")
  | Some ls =>
      let! (member, found) := loadMember (scope_ ls) raw
        (if forceOwner ls then owner_now else request_user raw) in
      if requireInvite ls then refuse_invite ls action member found raw
      else apply_lifecycle ls action member raw
  end.

(** ** Joining ([join.go]) *)

Definition grant_matches (params : content) (grant : Grant.ChannelInviteGrant) : bool :=
  let wanted given stored := str_empty given || str_eqb stored given in
  wanted (Params.get_string params "grant_id") (Grant.GrantID grant) &&
  wanted (Params.FirstString params ["share_room_id"; "via_room_id"]) (Grant.ShareRoomID grant) &&
  wanted (Params.get_string params "room_id") (Grant.RoomID grant) &&
  wanted (Params.get_string params "channel_id") (Grant.ChannelID grant).

Definition lookupChannelInviteGrant (params : content)
    : M W goerror (option Grant.ChannelInviteGrant) :=
  let! grants := ListChannelInviteGrants cfg in
  ret (find (grant_matches params) grants).

(** The request map is shared: what is written here is read by the later
    steps and passed on to [JoinRetained]. *)
Definition target_from_grant (scope : string) (target : string * string) (raw : content)
    : M W Api.Error (string * string * content) :=
  let '(roomID, channelID) := target in
  if str_eqb scope "channel" && str_empty roomID && str_empty channelID then
    let! grant := internal (lookupChannelInviteGrant raw) in
    match grant with
    | Some grant =>
        ret (Grant.RoomID grant, Grant.ChannelID grant,
             <["channel_id" := AString (Grant.ChannelID grant)]>
             (<["room_id" := AString (Grant.RoomID grant)]> raw))
    | None => ret (roomID, channelID, raw)
    end
  else ret (roomID, channelID, raw).

Definition completeChannelTarget (roomID channelID : string) (raw : content)
    : M W Api.Error (string * string * content) :=
  let! (channelID, raw) :=
    if str_empty channelID && negb (str_empty roomID) then
      let! channel := internal (LookupChannel cfg "" roomID) in
      ret (match channel with
           | Some ch => (Chan.ChannelID ch, <["channel_id" := AString (Chan.ChannelID ch)]> raw)
           | None => (channelID, raw)
           end)
    else ret (channelID, raw) in
  if str_empty roomID && negb (str_empty channelID) then
    let! channel := internal (LookupChannel cfg channelID "") in
    ret (match channel with
         | Some ch => (Chan.RoomID ch, channelID, <["room_id" := AString (Chan.RoomID ch)]> raw)
         | None => (roomID, channelID, raw)
         end)
  else ret (roomID, channelID, raw).

Definition requireRecordedGroupInvite (roomID userID : string) (params : content)
    : M W Api.Error unit :=
  if str_empty (Params.get_string params "invite_event_id") &&
     str_empty (Params.get_string params "direct_room_id")
  then ret tt
  else
    let! existing := internal (LookupMember cfg roomID userID) in
    let expired := Api.CodedError 410 Identity.RequestExpiredCode
                     "group invite is missing or expired" in
    match existing with
    | None => fail expired
    | Some existing =>
        let membership := trim_space (Member.Membership existing) in
        if equal_fold membership "invite" || equal_fold membership "join" ||
           leftMembership (Member.Membership existing)
        then ret tt else fail expired
    end.

Definition requireChannelInviteGrant (roomID channelID userID : string) (params : content)
    : M W Api.Error unit :=
  if negb (removedMemberHasFreshInvite "channel" params) then ret tt
  else
    let! grant := internal (lookupChannelInviteGrant params) in
    match grant with
    | None =>
        let! existing := internal (LookupMember cfg roomID userID) in
        let allowed := match existing with
                       | Some existing =>
                           let membership := trim_space (Member.Membership existing) in
                           equal_fold membership "invite" ||
                           ((removedMembership membership || leftMembership membership) &&
                            removedMemberHasFreshInvite "channel" params)
                       | None => false
                       end in
        if allowed then ret tt
        else fail (Api.CodedError 410 Identity.RequestExpiredCode
                     "channel invite grant is missing or expired")
    | Some grant =>
        if negb (str_empty roomID) && negb (str_eqb (Grant.RoomID grant) roomID)
        then fail (Api.StatusError 403 "channel invite grant room mismatch")
        else if negb (str_empty channelID) && negb (str_eqb (Grant.ChannelID grant) channelID)
        then fail (Api.StatusError 403 "channel invite grant channel mismatch")
        else
          let! member := internal (LookupMember cfg (Grant.ShareRoomID grant) userID) in
          match member with
          | Some member =>
              if equal_fold (trim_space (Member.Membership member)) "join" then ret tt
              else fail (Api.StatusError 403 "user is not joined to the share room")
          | None => fail (Api.StatusError 403 "user is not joined to the share room")
          end
    end.

(** The reply once the room was joined, or the join is unconfirmed. *)
Definition joined_reply (scope status : string) (code : option string) (member : Mem)
    : M W Api.Error Reply.t :=
  let result := Reply.set_room_id (Member.RoomID member) (resultWithStatus status member) in
  let result := match code with
                | Some code => Reply.set_error_code code result
                | None => result
                end in
  let! result := if str_eqb scope "channel" then with_snapshot (Member.ChannelID member) result
                 else ret result in
  attachOperation result (scope +:+ "s.join") status (Member.RoomID member).

(** [JoinRetained] and the reply. *)
Definition join_retained (scope : string) (member : Mem) (raw : content) : M W Api.Error Reply.t :=
  fun w =>
    match JoinRetained cfg scope member raw w with
    | (w, member, None) => joined_reply scope "ok" None member w
    | (w, member, Some e) =>
        if str_eqb (Api.Code e) Identity.MatrixJoinUnconfirmedCode
        then joined_reply scope "joining" (Some Identity.MatrixJoinUnconfirmedCode) member w
        else (w, Err e)
    end.

(** The member that joins, from the stored one. *)
Definition joining_member (scope roomID channelID userID : string) (existing : option Mem)
    (params : content) : Mem :=
  let member := match existing with
                | Some existing => existing
                | None => NewMember cfg roomID channelID userID
                end in
  let member := Member.set_Membership "join" member in
  let member := if str_eqb scope "group" then Member.set_ChannelID "" member else member in
  ApplyMemberProfile member params.

Definition join_target (scope roomID channelID userID : string) (raw : content)
    : M W Api.Error Reply.t :=
  let! _ := if str_eqb scope "group" then requireRecordedGroupInvite roomID userID raw
            else ret tt in
  let! _ := if str_eqb scope "channel"
            then requireChannelInviteGrant roomID channelID userID raw else ret tt in
  let! existing := internal (LookupMember cfg roomID userID) in
  let removed := match existing with
                 | Some existing => removedMembership (Member.Membership existing)
                 | None => false
                 end in
  if removed && (str_eqb scope "group" || negb (removedMemberHasFreshInvite scope raw))
  then fail (Api.StatusError 403 (scope +:+ " member was removed"))
  else
    let! member := local_profile (joining_member scope roomID channelID userID existing raw) in
    join_retained scope member raw.

Definition Join (scope : string) (raw : content) : M W Api.Error Reply.t :=
  let! target := internal (ResolveTarget cfg raw) in
  let! (roomID, channelID, raw) := target_from_grant scope target raw in
  if str_empty roomID && str_empty channelID then fail no_target
  else
    let! (roomID, channelID, raw) :=
      if str_eqb scope "channel" then completeChannelTarget roomID channelID raw
      else ret (roomID, channelID, raw) in
    let! userID := if str_empty (firstMemberID raw) then owner_now else request_user raw in
    join_target scope roomID channelID userID raw.

(** ** Invitations ([invites.go]) *)

Definition native_ying_refused : Api.Error :=
  Api.StatusError 403 "Native Ying can only be enabled by the group owner".

Definition invite_one (scope roomID channelID : string) (sendInvite : InviteSender W)
    (raw : content) (userID : string) : M W Api.Error (option Mem) :=
  let! _ := RejectBlocked cfg "contact" [userID] in
  let! stored := internal (LookupMember cfg roomID userID) in
  let member := match stored with
                | None => NewMember cfg roomID channelID userID
                | Some member => if str_empty channelID then member
                                 else Member.set_ChannelID channelID member
                end in
  let member := Member.set_Membership "invite" member in
  let member := if str_eqb scope "group" then Member.set_ChannelID "" member else member in
  let! member := sendInvite (ApplyMemberProfile member raw) raw
                   (Params.get_bool raw "is_direct") in
  let! _ := internal (SaveMember cfg member) in
  ret (Some member).

Definition Invite (scope : string) (raw : content) : M W Api.Error Reply.t :=
  let! (roomID, channelID) := internal (ResolveTarget cfg raw) in
  if str_empty roomID && str_empty channelID then fail no_target
  else
    let users := inviteMemberIDs raw in
    if bool_decide (users = []) then fail (Api.BadRequest "user_id is required")
    else if str_eqb scope "group" && existsb IsNativeYingMXID users
    then fail native_ying_refused
    else
      let! roomID :=
        if str_eqb scope "channel" && str_empty roomID && negb (str_empty channelID) then
          let! channel := internal (LookupChannel cfg channelID "") in
          ret (match channel with Some ch => Chan.RoomID ch | None => roomID end)
        else ret roomID in
      let! sendInvite := PrepareInvite cfg scope roomID channelID in
      let! members := collect (invite_one scope roomID channelID sendInvite raw) users in
      attachOperation (Reply.set_members members (Reply.set_status "ok" Reply.empty))
        (scope +:+ "s.invite") "ok" roomID.

(** One member of the share room; [None] when it is skipped. *)
Definition invite_share_member (channel : Chan.Channel) (ownerMXID : string)
    (sendInvite : InviteSender W) (raw : content) (shareMember : Mem)
    : M W Api.Error (option Mem) :=
  if str_empty (Member.UserID shareMember) || str_eqb (Member.UserID shareMember) ownerMXID ||
     negb (equal_fold (trim_space (Member.Membership shareMember)) "join")
  then ret None
  else
    let! existing := internal (LookupMember cfg (Chan.RoomID channel)
                                 (Member.UserID shareMember)) in
    let there := match existing with
                 | Some existing => equal_fold (Member.Membership existing) "join" ||
                                    equal_fold (Member.Membership existing) "invite"
                 | None => false
                 end in
    if there then ret None
    else
      let member := match existing with
                    | Some existing => Member.set_ChannelID (Chan.ChannelID channel) existing
                    | None => NewMember cfg (Chan.RoomID channel) (Chan.ChannelID channel)
                                (Member.UserID shareMember)
                    end in
      let member := Member.set_Membership "invite" member in
      let member := Member.set_Role (fallback (Member.Role member) "member") member in
      let member := Member.set_Domain (fallback (Member.Domain shareMember) (Member.Domain member))
        (Member.set_AvatarURL (fallback (Member.AvatarURL shareMember) (Member.AvatarURL member))
        (Member.set_DisplayName
           (fallback (Member.DisplayName shareMember) (Member.DisplayName member)) member)) in
      let! member := sendInvite member raw false in
      let! _ := internal (SaveMember cfg member) in
      ret (Some member).

(** The grant is stored before any invitation is sent. *)
Definition grant_and_invite (channel : Chan.Channel) (ownerMXID shareRoomID grantID : string)
    (raw : content) : M W Api.Error Reply.t :=
  let! createdAt := reads (fun w => Ok (Now cfg w)) in
  let grant := {| Grant.GrantID := grantID; Grant.ChannelID := Chan.ChannelID channel;
                  Grant.RoomID := Chan.RoomID channel; Grant.ShareRoomID := shareRoomID;
                  Grant.CreatedBy := ownerMXID; Grant.CreatedAt := createdAt |} in
  let! _ := internal (UpsertChannelInviteGrant cfg grant) in
  let! shareMembers := internal (ShareRoomMembers cfg shareRoomID) in
  let! sendInvite := PrepareInvite cfg "channel" (Chan.RoomID channel) (Chan.ChannelID channel) in
  let! invited := collect (invite_share_member channel ownerMXID sendInvite raw) shareMembers in
  ret (Reply.set_members invited (Reply.set_channel channel (Reply.set_grant grant
         (Reply.set_room_id (Grant.RoomID grant) (Reply.set_status "ok" Reply.empty))))).

Definition ChannelInviteGrantCreate (raw : content) : M W Api.Error Reply.t :=
  let! (roomID, channelID) := internal (ResolveTarget cfg raw) in
  if str_empty roomID && str_empty channelID then fail no_target
  else
    let shareRoomID := Params.FirstString raw ["share_room_id"; "via_room_id"] in
    if str_empty shareRoomID then fail (Api.BadRequest "share_room_id is required")
    else
      let! channel := internal (LookupChannel cfg channelID roomID) in
      match channel with
      | None => fail (Api.StatusError 404 "channel not found")
      | Some channel =>
          let! _ := RequireOwner cfg (Chan.RoomID channel) in
          let! ownerMXID := owner_now in
          let! ownerShareMember := internal (LookupMember cfg shareRoomID ownerMXID) in
          let owner_joined := match ownerShareMember with
                              | Some m => equal_fold (trim_space (Member.Membership m)) "join"
                              | None => false
                              end in
          if negb owner_joined
          then fail (Api.StatusError 403 "owner must be joined to the share room")
          else
            let! grantID := if str_empty (Params.get_string raw "grant_id")
                            then fun w => let '(w, id) := NewGrantID cfg w in (w, Ok (trim_space id))
                            else ret (Params.get_string raw "grant_id") in
            grant_and_invite channel ownerMXID shareRoomID grantID raw
      end.

(** ** Public join requests ([public_join.go]) *)

Definition is_open (channel : Chan.Channel) : bool := equal_fold (Chan.JoinPolicy channel) "open".

Definition currentPublicJoinState (member : Mem) (channel : Chan.Channel)
    : M W Api.Error Reply.t :=
  let status := canonical_membership (Member.Membership member) in
  let result := Reply.set_channel channel (resultWithStatus status member) in
  if str_eqb status "join" then
    let! joined := internal (MatrixJoined cfg (Member.RoomID member) (Member.UserID member)) in
    ret (if joined : bool
         then Reply.set_room_id (Member.RoomID member) (Reply.set_status "joined" result)
         else Reply.set_error_code Identity.JoinResultUnconfirmedCode
                (Reply.set_status "joining" result))
  else if str_eqb status "reject" || str_eqb status "rejected"
  then ret (Reply.set_status "rejected" result)
  else if str_eqb status "joining"
  then ret (Reply.set_error_code Identity.JoinResultUnconfirmedCode result)
  else if str_eqb status "join_failed"
  then ret (Reply.set_error_code Identity.MatrixJoinFailedCode result)
  else ret result.

(** The stored member after a lost write, with the error when it is gone. *)
Definition current_member (roomID userID gone : string) : M W Api.Error Mem :=
  let! current := internal (LookupMember cfg roomID userID) in
  match current with
  | None => fail (Api.InternalError gone)
  | Some current => ret current
  end.

(** [requestID], or a fresh one. *)
Definition chosen_request_id (requestID : string) : M W Api.Error string :=
  if negb (str_empty requestID) then ret requestID
  else
    let! id := (fun w => let '(w, id) := NewRequestID cfg w in (w, Ok (trim_space id))) in
    if str_empty id
    then fail (Api.InternalError "channel join request ID generator returned an empty ID")
    else ret id.

(** The new or restarted request, saved, published and completed when the
    channel is open. *)
Definition record_request (channel : Chan.Channel) (existing : option Mem) (newGeneration : bool)
    (userID requestID : string) (raw : content) : M W Api.Error Reply.t :=
  let roomID := Chan.RoomID channel in
  let channelID := Chan.ChannelID channel in
  let get := Params.get_string raw in
  let! now := reads (fun w => Ok (Now cfg w)) in
  let member := match existing with
                | None => NewMember cfg roomID channelID userID
                | Some existing => if newGeneration then Member.set_JoinedAt now existing
                                   else existing
                end in
  let status := if is_open channel then "approved" else "pending" in
  let member := Member.set_Membership status member in
  let member := Member.set_RequestID requestID
    (Member.set_Role (fallback (Member.Role member) "member") member) in
  let requesterNodeBaseURL := fallback (get "requester_node_base_url")
                                (get "applicant_node_base_url") in
  let member := if negb (str_empty requesterNodeBaseURL) &&
                   (newGeneration || str_empty (Member.RequesterNodeBaseURL member))
                then Member.set_RequesterNodeBaseURL requesterNodeBaseURL member else member in
  let member := ApplyMemberProfile member raw in
  let! saved :=
    match existing, newGeneration with
    | Some existing, true =>
        internal (SaveMemberGeneration cfg member (Member.RequestID existing)
                    (Member.Membership existing))
    | _, _ => let! _ := internal (SaveMember cfg member) in ret true
    end in
  if negb saved then
    let! current := current_member roomID userID
                      "channel join generation disappeared during restart" in
    currentPublicJoinState current channel
  else
    let! _ := PublishJoinRequest cfg roomID userID status (get "reason")
                (Member.RequestID member) in
    if is_open channel then
      let! result := CompleteJoinRequest cfg true member raw in
      with_snapshot channelID result
    else
      let role := NormalizeProductMemberRole (Member.Role member) in
      let channel := Chan.set_IsOwned (ProductOwnerRole role)
        (Chan.set_Role role (Chan.set_MemberStatus (Member.Membership member) channel)) in
      ret (Reply.set_channel channel (resultWithStatus status member)).

(** What a request of a user with a stored request of the same generation
    gets; [None] when a record is written. *)
Definition replay_request (channel : Chan.Channel) (userID : string) (existing : Mem)
    (raw : content) : option (M W Api.Error Reply.t) :=
  let status := canonical_membership (Member.Membership existing) in
  let reply status := ret (Reply.set_channel channel (resultWithStatus status existing)) in
  let resume := if is_open channel then CompleteJoinRequest cfg true existing raw
                else currentPublicJoinState existing channel in
  if str_eqb status "join" then Some (
    let! joined := internal (MatrixJoined cfg (Chan.RoomID channel) userID) in
    if joined : bool
    then ret (Reply.set_channel channel
                (Reply.set_room_id (Chan.RoomID channel) (resultWithStatus "joined" existing)))
    else resume)
  else if str_eqb status "reject" || str_eqb status "rejected" then Some (reply "rejected")
  else if str_eqb status "pending" then if is_open channel then None else Some (reply "pending")
  else if str_eqb status "approved" || str_eqb status "joining" || str_eqb status "join_failed"
  then Some resume
  else None.

(** A stored request without an ID is bound to [requestID] first; the lost
    race is answered with the stored state. *)
Definition bind_request (channel : Chan.Channel) (userID requestID : string)
    (existing : option Mem) (newGeneration : bool)
    : M W Api.Error (option Mem + Reply.t) :=
  match existing with
  | Some member =>
      if str_empty (Member.RequestID member) && negb newGeneration then
        let bound := Member.set_RequestID requestID member in
        let! saved := internal (SaveMemberGeneration cfg bound "" (Member.Membership member)) in
        if saved : bool then ret (inl (Some bound))
        else
          let! current := current_member (Chan.RoomID channel) userID
                            "channel join generation disappeared while binding request ID" in
          let! reply := currentPublicJoinState current channel in
          ret (inr reply)
      else ret (inl existing)
  | None => ret (inl None)
  end.

(** A stored request of another generation that may not be restarted. *)
Definition fenced_request (requestID : string) (existing : Mem) : bool :=
  negb (str_empty (Member.RequestID existing)) && negb (str_empty requestID) &&
  negb (str_eqb (Member.RequestID existing) requestID) &&
  negb (publicJoinGenerationMayRestart (Member.Membership existing)).

Definition restarts_request (requestID : string) (existing : Mem) : bool :=
  negb (str_empty requestID) && negb (str_eqb (Member.RequestID existing) requestID) &&
  publicJoinGenerationMayRestart (Member.Membership existing).

(** The steps after the request ID is bound. *)
Definition answer_request (channel : Chan.Channel) (existing : option Mem) (newGeneration : bool)
    (userID requestID : string) (raw : content) : M W Api.Error Reply.t :=
  let record := record_request channel existing newGeneration userID requestID raw in
  match existing with
  | None => record
  | Some existing =>
      if removedMembership (Member.Membership existing) then
        let existing := if str_empty (Chan.ChannelID channel) then existing
                        else Member.set_ChannelID (Chan.ChannelID channel) existing in
        let! _ := PublishJoinRequest cfg (Chan.RoomID channel) userID "rejected"
                    (Params.get_string raw "reason") (Member.RequestID existing) in
        ret (resultWithStatus "rejected" existing)
      else if newGeneration then record
      else match replay_request channel userID existing raw with
           | Some reply => reply
           | None => record
           end
  end.

(** The request at the owner's node, once the user may ask. *)
Definition public_request (channel : Chan.Channel) (userID : string) (raw : content)
    : M W Api.Error Reply.t :=
  let! existing := internal (LookupMember cfg (Chan.RoomID channel) userID) in
  let given := Params.get_string raw "request_id" in
  let fresh :=
    let stored := match existing with Some m => Member.RequestID m | None => "" end in
    let newGeneration := match existing with
                         | Some m => restarts_request given m
                         | None => false
                         end in
    let! requestID := chosen_request_id (if str_empty given then stored else given) in
    let raw := <["request_id" := AString requestID]> raw in
    let! bound := bind_request channel userID requestID existing newGeneration in
    match bound with
    | inl existing => answer_request channel existing newGeneration userID requestID raw
    | inr reply => ret reply
    end in
  match existing with
  | Some m => if fenced_request given m then currentPublicJoinState m channel else fresh
  | None => fresh
  end.

Definition ChannelPublicJoinRequest (raw : content) : M W Api.Error Reply.t :=
  let! (roomID, channelID) := internal (ResolveTarget cfg raw) in
  if str_empty roomID && str_empty channelID then fail no_target
  else
    let! (userID, raw) :=
      if str_empty (firstMemberID raw) then
        let! owner := owner_now in ret (owner, <["user_mxid" := AString owner]> raw)
      else ret (firstMemberID raw, raw) in
    let! remote := ForwardPublicJoinRequest cfg raw in
    match remote with
    | Some reply => ret reply
    | None =>
        let! channel := internal (LookupChannel cfg channelID roomID) in
        match channel with
        | None => fail (Api.StatusError 404 "channel not found")
        | Some channel =>
            if negb (equal_fold (Chan.Visibility channel) "public")
            then fail (Api.StatusError 403 "channel is private")
            else if equal_fold (Chan.JoinPolicy channel) "invite"
            then fail (Api.StatusError 403 "channel requires invite")
            else if str_empty userID then fail (Api.BadRequest "user_id is required")
            else
              let! _ := RejectBlocked cfg "contact" [userID] in
              public_request channel userID raw
        end
    end.

(** ** The owner's answer at the requester's node ([public_join.go]) *)

Definition snapshot_of (channelID : string) : M W Api.Error Chan.Channel :=
  fun w => let '(w, channel) := ChannelSnapshot cfg channelID w in (w, Ok channel).

Definition current_state_of (member : Mem) : M W Api.Error Reply.t :=
  let! channel := snapshot_of (Member.ChannelID member) in
  currentPublicJoinState member channel.

Definition rejected_with_snapshot (member : Mem) : M W Api.Error Reply.t :=
  with_snapshot (Member.ChannelID member) (resultWithStatus "rejected" member).

Definition expired : Api.Error :=
  Api.CodedError 410 Identity.RequestExpiredCode "join request expired".

(** The refusal of a request that is still pending, or stored as joined while
    Matrix says otherwise. *)
Definition refuse_pending (roomID userID : string) (member : Mem)
    (expectedRequestID expectedMembership : string) : M W Api.Error Reply.t :=
  let member := Member.set_Membership "reject" member in
  let! saved := internal (SaveMemberGeneration cfg member expectedRequestID expectedMembership) in
  if negb saved then
    let! current := current_member roomID userID
                      "join request disappeared during rejected callback settlement" in
    current_state_of current
  else
    let! _ := run (EmitJoinRequestChanged cfg member "rejected") in
    rejected_with_snapshot member.

Definition result_rejected (roomID userID memberStatus : string) (member : Mem)
    (expectedRequestID expectedMembership : string) (raw : content) : M W Api.Error Reply.t :=
  let! joined := internal (MatrixJoined cfg (Member.RoomID member) (Member.UserID member)) in
  if joined : bool
  then CompleteJoinRequest cfg true (Member.set_Membership "join" member) raw
  else if str_eqb memberStatus "reject" || str_eqb memberStatus "rejected"
  then rejected_with_snapshot member
  else if str_eqb memberStatus "invite" then fail expired
  else if bool_decide (memberStatus ∈ ["approved"; "joining"; "join_failed"])
  then current_state_of member
  else refuse_pending roomID userID member expectedRequestID expectedMembership.

Definition apply_result (roomID channelID userID : string) (member : Mem)
    (expectedRequestID expectedMembership : string) (raw : content) : M W Api.Error Reply.t :=
  let memberStatus := canonical_membership (Member.Membership member) in
  if negb (bool_decide (memberStatus ∈
       ["pending"; "approved"; "joining"; "join_failed"; "invite"; "join"; "reject"; "rejected"]))
  then fail expired
  else
    let! member := local_profile (if str_empty channelID then member
                                  else Member.set_ChannelID channelID member) in
    let status := to_lower (Params.get_string raw "status") in
    if str_eqb status "rejected"
    then result_rejected roomID userID memberStatus member expectedRequestID expectedMembership raw
    else if bool_decide (status ∈ ["approved"; "joining"; "joined"])
    then CompleteJoinRequest cfg true member raw
    else fail (Api.BadRequest "status must be approved or rejected").

Definition ChannelPublicJoinResult (raw : content) : M W Api.Error Reply.t :=
  let! (roomID, channelID) := internal (ResolveTarget cfg raw) in
  if str_empty roomID && str_empty channelID then fail no_target
  else
    let! ownerMXID := owner_now in
    let userID := if str_empty (firstMemberID raw) then ownerMXID else firstMemberID raw in
    if negb (str_eqb userID ownerMXID)
    then fail (Api.StatusError 403 "join result user must be local owner")
    else
      let! found := internal (LookupMember cfg roomID userID) in
      match found with
      | None => fail (Api.CodedError 404 Identity.RequestNotFoundCode "join request not found")
      | Some member =>
          let requestID := Params.get_string raw "request_id" in
          if negb (str_empty (Member.RequestID member)) && negb (str_empty requestID) &&
             negb (str_eqb (Member.RequestID member) requestID)
          then current_state_of member
          else if str_empty (Member.RequestID member) && negb (str_empty requestID) then
            let bound := Member.set_RequestID requestID member in
            let! saved := internal (SaveMemberGeneration cfg bound (Member.RequestID member)
                                      (Member.Membership member)) in
            if negb saved then
              let! current := current_member roomID userID
                                "join request disappeared while binding callback generation" in
              current_state_of current
            else apply_result roomID channelID userID bound requestID (Member.Membership member) raw
          else apply_result roomID channelID userID member (Member.RequestID member)
                 (Member.Membership member) raw
      end.

(** ** Reactivation of a retained room ([reactivation.go]) *)

(** The member is saved with the room's metadata and presented. *)
Definition save_reactivated (scope status : string) (member : Mem) (raw : content)
    (rebuild : option (bool * string)) : M W Api.Error Reply.t :=
  let member := if str_eqb scope "group" then Member.set_ChannelID "" member else member in
  let! member := local_profile (ApplyMemberProfile member raw) in
  let! _ := internal (SaveMember cfg member) in
  let! _ := SaveRetainedMetadata cfg scope member raw in
  let result := Reply.set_room_id (Member.RoomID member) (resultWithStatus status member) in
  let result := match rebuild with
                | Some (needed, generation) => Reply.set_rebuild needed generation result
                | None => result
                end in
  let! result := if str_eqb scope "channel" then with_snapshot (Member.ChannelID member) result
                 else ret result in
  attachOperation result (scope +:+ "s.reactivate") status (Member.RoomID member).

(** A rebuild of the room under a generation. *)
Definition rebuild_room (scope roomID userID generation : string) (found : bool) (member : Mem)
    (raw : content) : M W Api.Error Reply.t :=
  let! joined := internal (MatrixJoined cfg roomID userID) in
  if joined : bool then
    let! now := reads (fun w => Ok (Now cfg w)) in
    let member := Member.set_Membership "join" member in
    let member := if Member.JoinedAt member =? 0 then Member.set_JoinedAt now member else member in
    save_reactivated scope "joined" member raw (Some (false, generation))
  else if found && negb (str_empty (Member.RequestID member)) &&
          negb (str_eqb (Member.RequestID member) generation) &&
          negb (rebuildGenerationMaySupersede (Member.Membership member))
  then fail (Api.StatusError 409 "rebuild generation conflicts with current room recovery")
  else save_reactivated scope "invite"
         (Member.set_Membership "invite" (Member.set_RequestID generation member)) raw
         (Some (true, generation)).

Definition RoomReactivate (raw : content) : M W Api.Error Reply.t :=
  let get := Params.get_string raw in
  let roomID := get "room_id" in
  let scope := to_lower (get "room_type") in
  let scope := if str_empty scope then to_lower (get "scope") else scope in
  if str_empty roomID || negb (str_eqb scope "group" || str_eqb scope "channel")
  then fail (Api.BadRequest "room_id and room_type are required")
  else
    let! ownerMXID := owner_now in
    let userID := if str_empty (firstMemberID raw) then ownerMXID else firstMemberID raw in
    if negb (str_eqb userID ownerMXID)
    then fail (Api.StatusError 403 "room reactivation user must be local owner")
    else
      let channelID := get "channel_id" in
      let generation := get "rebuild_generation" in
      if negb (str_empty generation) && negb (Identity.ValidRebuildGeneration generation)
      then fail (Api.BadRequest "rebuild_generation is invalid")
      else
        let! stored := internal (LookupMember cfg roomID userID) in
        let member := match stored with
                      | None => NewMember cfg roomID channelID userID
                      | Some member => if str_empty channelID then member
                                       else Member.set_ChannelID channelID member
                      end in
        if str_empty generation
        then save_reactivated scope "invite" (Member.set_Membership "invite" member) raw None
        else rebuild_room scope roomID userID generation (bool_decide (is_Some stored)) member raw.

(** ** [Handlers] *)

Definition serve (action : string) (raw : content) : option (M W Api.Error Reply.t) :=
  if str_eqb action "channels.invite" then Some (Invite "channel" raw)
  else if str_eqb action "channels.invite_grant.create" then Some (ChannelInviteGrantCreate raw)
  else if str_eqb action "channels.join" then Some (Join "channel" raw)
  else if str_eqb action "channels.public.join_request" then Some (ChannelPublicJoinRequest raw)
  else if str_eqb action "channels.public.join_result" then Some (ChannelPublicJoinResult raw)
  else if str_eqb action "channels.members" then Some (List_ raw)
  else if str_eqb action "channels.leave" then Some (HandleLifecycle action raw)
  else if str_eqb action "channels.member.remove" then Some (HandleLifecycle action raw)
  else if str_eqb action "channels.join_request.approve" then Some (handleJoinRequest action raw)
  else if str_eqb action "channels.join_request.reject" then Some (handleJoinRequest action raw)
  else if str_eqb action "channels.member.mute" then Some (mutate "channel" action true raw)
  else if str_eqb action "channels.member.unmute" then Some (mutate "channel" action false raw)
  else if str_eqb action "groups.members" then Some (List_ raw)
  else if str_eqb action "groups.leave" then Some (HandleLifecycle action raw)
  else if str_eqb action "groups.member.remove" then Some (HandleLifecycle action raw)
  else if str_eqb action "groups.invite.reject" then Some (HandleLifecycle action raw)
  else if str_eqb action "groups.invite" then Some (Invite "group" raw)
  else if str_eqb action "groups.join" then Some (Join "group" raw)
  else if str_eqb action "groups.member.mute" then Some (mutate "group" action true raw)
  else if str_eqb action "groups.member.unmute" then Some (mutate "group" action false raw)
  else if str_eqb action "rooms.reactivate" then Some (RoomReactivate raw)
  else None.
End Module_.
End MemberFlow.
