(* ===== verification/Content.v ===== *)
(** * Channel content: responses, media and Matrix contents

    The data side of [p2p/internal/channels/content_module.go] and
    [content_workflows.go]: the response shapes of posts and comments with
    their conversions from and to the stored records, the JSON of media and
    mentions, the Matrix content of a post or comment, page parameters and
    visibilities. *)

From Stdlib Require Import Ascii String ZArith Lia.
From stdpp Require Import base tactics list gmap strings.
From S2P Require Import Prelude GoStrings Values Domain Policy Action Workflow Prepared.
From S2P Require Import Conversation Rooms.
Local Open Scope Z_scope.
Local Open Scope go_scope.

Module CPost.
Record Post := mk {
  PostID : string;
  ChannelID : string;
  RoomID : string;
  EventID : string;
  AuthorMXID : string;
  AuthorName : string;
  Title : string;
  Body : string;
  MessageType : string;
  MediaJSON : string;
  Visibility : string;
  CommentsEnabled : bool;
  OriginServerTS : Z;
  CommentCount : Z;
  ReactionCount : Z;
  LikeCount : Z;
  ReactedByMe : bool;
  FavoriteCount : Z;
  FavoritedByMe : bool;
  Operation : option content;
  Conversation_ : option CView.ConversationView;
}.

Definition set_CommentCount (v : Z) (p : Post) : Post :=
  {| PostID := PostID p; ChannelID := ChannelID p; RoomID := RoomID p; EventID := EventID p;
     AuthorMXID := AuthorMXID p; AuthorName := AuthorName p; Title := Title p; Body := Body p;
     MessageType := MessageType p; MediaJSON := MediaJSON p; Visibility := Visibility p;
     CommentsEnabled := CommentsEnabled p; OriginServerTS := OriginServerTS p; CommentCount := v;
     ReactionCount := ReactionCount p; LikeCount := LikeCount p; ReactedByMe := ReactedByMe p;
     FavoriteCount := FavoriteCount p; FavoritedByMe := FavoritedByMe p;
     Operation := Operation p; Conversation_ := Conversation_ p |}.

Definition set_Reactions (v : Z) (p : Post) : Post :=
  {| PostID := PostID p; ChannelID := ChannelID p; RoomID := RoomID p; EventID := EventID p;
     AuthorMXID := AuthorMXID p; AuthorName := AuthorName p; Title := Title p; Body := Body p;
     MessageType := MessageType p; MediaJSON := MediaJSON p; Visibility := Visibility p;
     CommentsEnabled := CommentsEnabled p; OriginServerTS := OriginServerTS p;
     CommentCount := CommentCount p; ReactionCount := v; LikeCount := v;
     ReactedByMe := ReactedByMe p; FavoriteCount := FavoriteCount p;
     FavoritedByMe := FavoritedByMe p; Operation := Operation p;
     Conversation_ := Conversation_ p |}.

Definition set_ReactedByMe (v : bool) (p : Post) : Post :=
  {| PostID := PostID p; ChannelID := ChannelID p; RoomID := RoomID p; EventID := EventID p;
     AuthorMXID := AuthorMXID p; AuthorName := AuthorName p; Title := Title p; Body := Body p;
     MessageType := MessageType p; MediaJSON := MediaJSON p; Visibility := Visibility p;
     CommentsEnabled := CommentsEnabled p; OriginServerTS := OriginServerTS p;
     CommentCount := CommentCount p; ReactionCount := ReactionCount p; LikeCount := LikeCount p;
     ReactedByMe := v; FavoriteCount := FavoriteCount p; FavoritedByMe := FavoritedByMe p;
     Operation := Operation p; Conversation_ := Conversation_ p |}.

Definition set_FavoriteCount (v : Z) (p : Post) : Post :=
  {| PostID := PostID p; ChannelID := ChannelID p; RoomID := RoomID p; EventID := EventID p;
     AuthorMXID := AuthorMXID p; AuthorName := AuthorName p; Title := Title p; Body := Body p;
     MessageType := MessageType p; MediaJSON := MediaJSON p; Visibility := Visibility p;
     CommentsEnabled := CommentsEnabled p; OriginServerTS := OriginServerTS p;
     CommentCount := CommentCount p; ReactionCount := ReactionCount p; LikeCount := LikeCount p;
     ReactedByMe := ReactedByMe p; FavoriteCount := v; FavoritedByMe := FavoritedByMe p;
     Operation := Operation p; Conversation_ := Conversation_ p |}.

Definition set_FavoritedByMe (v : bool) (p : Post) : Post :=
  {| PostID := PostID p; ChannelID := ChannelID p; RoomID := RoomID p; EventID := EventID p;
     AuthorMXID := AuthorMXID p; AuthorName := AuthorName p; Title := Title p; Body := Body p;
     MessageType := MessageType p; MediaJSON := MediaJSON p; Visibility := Visibility p;
     CommentsEnabled := CommentsEnabled p; OriginServerTS := OriginServerTS p;
     CommentCount := CommentCount p; ReactionCount := ReactionCount p; LikeCount := LikeCount p;
     ReactedByMe := ReactedByMe p; FavoriteCount := FavoriteCount p; FavoritedByMe := v;
     Operation := Operation p; Conversation_ := Conversation_ p |}.

Definition set_Operation (operation : content) (view : option CView.ConversationView) (p : Post) : Post :=
  {| PostID := PostID p; ChannelID := ChannelID p; RoomID := RoomID p; EventID := EventID p;
     AuthorMXID := AuthorMXID p; AuthorName := AuthorName p; Title := Title p; Body := Body p;
     MessageType := MessageType p; MediaJSON := MediaJSON p; Visibility := Visibility p;
     CommentsEnabled := CommentsEnabled p; OriginServerTS := OriginServerTS p;
     CommentCount := CommentCount p; ReactionCount := ReactionCount p; LikeCount := LikeCount p;
     ReactedByMe := ReactedByMe p; FavoriteCount := FavoriteCount p;
     FavoritedByMe := FavoritedByMe p; Operation := Some operation; Conversation_ := view |}.

End CPost.

Module CComment.
Record Comment := mk {
  CommentID : string;
  PostID : string;
  ChannelID : string;
  EventID : string;
  AuthorMXID : string;
  AuthorName : string;
  Body : string;
  MessageType : string;
  MediaJSON : string;
  ReplyToCommentID : string;
  ReplyToAuthorMXID : string;
  MentionsJSON : string;
  OriginServerTS : Z;
  ReactionCount : Z;
  ReactedByMe : bool;
  Operation : option content;
  Conversation_ : option CView.ConversationView;
}.

Definition set_ReactionCount (v : Z) (p : Comment) : Comment :=
  {| CommentID := CommentID p; PostID := PostID p; ChannelID := ChannelID p;
     EventID := EventID p; AuthorMXID := AuthorMXID p; AuthorName := AuthorName p;
     Body := Body p; MessageType := MessageType p; MediaJSON := MediaJSON p;
     ReplyToCommentID := ReplyToCommentID p; ReplyToAuthorMXID := ReplyToAuthorMXID p;
     MentionsJSON := MentionsJSON p; OriginServerTS := OriginServerTS p; ReactionCount := v;
     ReactedByMe := ReactedByMe p; Operation := Operation p; Conversation_ := Conversation_ p |}.

Definition set_ReactedByMe (v : bool) (p : Comment) : Comment :=
  {| CommentID := CommentID p; PostID := PostID p; ChannelID := ChannelID p;
     EventID := EventID p; AuthorMXID := AuthorMXID p; AuthorName := AuthorName p;
     Body := Body p; MessageType := MessageType p; MediaJSON := MediaJSON p;
     ReplyToCommentID := ReplyToCommentID p; ReplyToAuthorMXID := ReplyToAuthorMXID p;
     MentionsJSON := MentionsJSON p; OriginServerTS := OriginServerTS p;
     ReactionCount := ReactionCount p; ReactedByMe := v; Operation := Operation p;
     Conversation_ := Conversation_ p |}.

Definition set_Operation (operation : content) (view : option CView.ConversationView) (p : Comment) : Comment :=
  {| CommentID := CommentID p; PostID := PostID p; ChannelID := ChannelID p;
     EventID := EventID p; AuthorMXID := AuthorMXID p; AuthorName := AuthorName p;
     Body := Body p; MessageType := MessageType p; MediaJSON := MediaJSON p;
     ReplyToCommentID := ReplyToCommentID p; ReplyToAuthorMXID := ReplyToAuthorMXID p;
     MentionsJSON := MentionsJSON p; OriginServerTS := OriginServerTS p;
     ReactionCount := ReactionCount p; ReactedByMe := ReactedByMe p; Operation := Some operation;
     Conversation_ := view |}.

End CComment.

Definition postFromRecord (record : Post.ChannelPostRecord) : CPost.Post :=
  {| CPost.PostID := Post.PostID record; CPost.ChannelID := Post.ChannelID record;
     CPost.RoomID := Post.RoomID record; CPost.EventID := Post.EventID record;
     CPost.AuthorMXID := Post.AuthorMXID record; CPost.AuthorName := Post.AuthorName record;
     CPost.Title := Post.Title record; CPost.Body := Post.Body record;
     CPost.MessageType := Post.MessageType record; CPost.MediaJSON := Post.MediaJSON record;
     CPost.Visibility := NormalizeChannelPostVisibility (Post.Visibility record);
     CPost.CommentsEnabled := Post.CommentsEnabled record;
     CPost.OriginServerTS := Post.OriginServerTS record;
     CPost.CommentCount := Post.CommentCount record; CPost.ReactionCount := 0;
     CPost.LikeCount := 0; CPost.ReactedByMe := false; CPost.FavoriteCount := 0;
     CPost.FavoritedByMe := false; CPost.Operation := None; CPost.Conversation_ := None |}.

Definition postRecord (record : CPost.Post) : Post.ChannelPostRecord :=
  {| Post.PostID := CPost.PostID record; Post.ChannelID := CPost.ChannelID record;
     Post.RoomID := CPost.RoomID record; Post.EventID := CPost.EventID record;
     Post.AuthorMXID := CPost.AuthorMXID record; Post.AuthorName := CPost.AuthorName record;
     Post.Title := CPost.Title record; Post.Body := CPost.Body record;
     Post.MessageType := CPost.MessageType record; Post.MediaJSON := CPost.MediaJSON record;
     Post.Visibility := NormalizeChannelPostVisibility (CPost.Visibility record);
     Post.CommentsEnabled := CPost.CommentsEnabled record; Post.CommentsEnabledSet := true;
     Post.SettingsUpdated := false; Post.OriginServerTS := CPost.OriginServerTS record;
     Post.CommentCount := CPost.CommentCount record |}.

Definition commentFromRecord (record : Comment.ChannelCommentRecord) : CComment.Comment :=
  {| CComment.CommentID := Comment.CommentID record; CComment.PostID := Comment.PostID record;
     CComment.ChannelID := Comment.ChannelID record; CComment.EventID := Comment.EventID record;
     CComment.AuthorMXID := Comment.AuthorMXID record;
     CComment.AuthorName := Comment.AuthorName record; CComment.Body := Comment.Body record;
     CComment.MessageType := Comment.MessageType record;
     CComment.MediaJSON := Comment.MediaJSON record;
     CComment.ReplyToCommentID := Comment.ReplyToCommentID record;
     CComment.ReplyToAuthorMXID := Comment.ReplyToAuthorMXID record;
     CComment.MentionsJSON := Comment.MentionsJSON record;
     CComment.OriginServerTS := Comment.OriginServerTS record; CComment.ReactionCount := 0;
     CComment.ReactedByMe := false; CComment.Operation := None;
     CComment.Conversation_ := None |}.

Definition commentRecord (record : CComment.Comment) : Comment.ChannelCommentRecord :=
  {| Comment.CommentID := CComment.CommentID record; Comment.PostID := CComment.PostID record;
     Comment.ChannelID := CComment.ChannelID record; Comment.EventID := CComment.EventID record;
     Comment.AuthorMXID := CComment.AuthorMXID record;
     Comment.AuthorName := CComment.AuthorName record; Comment.Body := CComment.Body record;
     Comment.MessageType := CComment.MessageType record;
     Comment.MediaJSON := CComment.MediaJSON record;
     Comment.ReplyToCommentID := CComment.ReplyToCommentID record;
     Comment.ReplyToAuthorMXID := CComment.ReplyToAuthorMXID record;
     Comment.MentionsJSON := CComment.MentionsJSON record;
     Comment.OriginServerTS := CComment.OriginServerTS record |}.

Definition PostsFromRecords (records : list Post.ChannelPostRecord) : list CPost.Post :=
  map postFromRecord records.

Definition CommentsFromRecords (records : list Comment.ChannelCommentRecord)
    : list CComment.Comment :=
  map commentFromRecord records.

(** ** Media and mentions *)

Section Json.
Context `{GoRange} `{GoText}.

(** [json.Unmarshal] into a [map[string]any], and [json.Marshal] of that map:
    [null] leaves the nil map. *)
Definition normalized_object (text : string) : option (string * content) :=
  match Unmarshal text with
  | Some ANil => (fun raw => (raw, ∅)) <$> Marshal ANil
  | Some (AMap entries) =>
      let media := object_map entries in
      (fun raw => (raw, media)) <$> Marshal (AMap (go_range media))
  | _ => None
  end.

(** The text and the object; the nil map is the empty one. *)
Definition mediaPayload (value : any) : option (string * content) :=
  match value with
  | ANil => Some ("", ∅)
  | AString text =>
      let text := trim_space text in
      if str_empty text then Some ("", ∅) else normalized_object text
  | _ => match Marshal value with
         | Some raw => normalized_object raw
         | None => None
         end
  end.

(** The same for a [[]any]. *)
Definition normalized_array (text : string) : option string :=
  match Unmarshal text with
  | Some ANil => Marshal ANil
  | Some (AList items) => Marshal (AList items)
  | _ => None
  end.

Definition jsonArray (value : any) : option string :=
  match value with
  | ANil => Some "[]"
  | AString text =>
      let text := trim_space text in
      if str_empty text then Some "[]" else normalized_array text
  | _ => match Marshal value with
         | Some raw => normalized_array raw
         | None => None
         end
  end.

Definition image_keys : list string :=
  ["url"; "mxc"; "mxc_url"; "image_url"; "media_url"; "thumbnail_url"].

Fixpoint first_url (media : content) (keys : list string) : string :=
  match keys with
  | [] => ""
  | key :: keys =>
      match get media key with
      | AString value => if str_empty (trim_space value) then first_url media keys
                         else trim_space value
      | _ => first_url media keys
      end
  end.

Definition mediaImageURL (media : content) : string := first_url media image_keys.

Definition image_item (item : any) : bool :=
  match item with
  | AString value => negb (str_empty (trim_space value))
  | AMap value => negb (str_empty (mediaImageURL (object_map value)))
  | _ => false
  end.

Definition hasImageMediaEntry (media : content) : bool :=
  negb (str_empty (mediaImageURL media)) ||
  match get media "images" with
  | AList items => existsb image_item items
  | _ => false
  end.

(** ** The Matrix content of a post or comment *)

Definition mediaMessageType (messageType : string) : bool :=
  bool_decide (trim_space messageType ∈
    ["image"; "m.image"; "video"; "m.video"; "audio"; "m.audio"; "file"; "m.file"]).

Definition matrixMessageType (messageType : string) (media : bool) : string :=
  let kind := trim_space messageType in
  if negb media then "m.text"
  else if bool_decide (kind ∈ ["image"; "m.image"]) then "m.image"
  else if bool_decide (kind ∈ ["video"; "m.video"]) then "m.video"
  else if bool_decide (kind ∈ ["audio"; "m.audio"]) then "m.audio"
  else "m.file".

Definition reserved_keys : list string :=
  ["body"; "msgtype"; "p2p_kind"; "client_type"; "media_json"].

(** [content[key] == nil] *)
Definition unset (c : content) (key : string) : bool :=
  match c !! key with
  | None | Some ANil => true
  | _ => false
  end.

(** One round of the loop over the media object. *)
Definition add_media (c : content) (kv : string * any) : content :=
  let '(key, value) := kv in
  if bool_decide (key ∈ reserved_keys) then c
  else if str_eqb key "mxc" && unset c "url" then <["url" := value]> c
  else <[key := value]> c.

Definition channelMessageContent (kind body messageType mediaJSON : string) (media : content)
    : content :=
  let c : content :=
    <["msgtype" := AString (matrixMessageType messageType
                     (mediaMessageType messageType || negb (bool_decide (media = ∅))))]>
    (<["body" := AString body]> (<["p2p_kind" := AString kind]>
      {["client_type" := AString messageType]})) in
  let c := if str_empty mediaJSON then c else <["media_json" := AString mediaJSON]> c in
  foldl add_media c (go_range media).
End Json.

(** ** Request parameters *)

(** [strings.ReplaceAll(s, string(c), "")] *)
Fixpoint remove_all (c : ascii) (s : string) : string :=
  match s with
  | EmptyString => EmptyString
  | String a s => if Ascii.eqb a c then remove_all c s else String a (remove_all c s)
  end.

Definition visibility_public := "public".
Definition visibility_private := "private".

Definition validatedPostVisibility (value : string) : option string :=
  let value := to_lower (trim_space value) in
  if str_empty value || str_eqb value visibility_private then Some visibility_private
  else if str_eqb value visibility_public then Some visibility_public
  else None.

(** [page], [pageSize] and [offset]. *)
Definition postPageParams (raw : content) : result Api.Error (Z * Z * Z) :=
  let page := Params.get_int64 raw "page" in
  let page := if page <=? 0 then 1 else page in
  let pageSize := Params.get_int64 raw "page_size" in
  let pageSize := if pageSize <=? 0 then Params.get_int64 raw "limit" else pageSize in
  let pageSize := if pageSize <=? 0 then 5 else pageSize in
  let pageSize := if 100 <? pageSize then 100 else pageSize in
  if int64_max / pageSize <? page then Err (Api.BadRequest "page is too large")
  else Ok (page, pageSize, (page - 1) * pageSize).
