(* ===== verification/ContentFlow.v ===== *)
(** * Channel content workflows

    [p2p/internal/channels/content_workflows.go] and [content_reactions.go]:
    the actions on channel posts, comments and reactions and the projection of
    their Matrix events, over the interfaces the module is given.  Any of them
    may be nil. *)

From Stdlib Require Import Ascii String ZArith Lia.
From stdpp Require Import base tactics list gmap strings pretty.
From S2P Require Import Prelude GoStrings Values Domain GoTime Policy Action RoomState.
From S2P Require Import MemoryTables ChannelContent Workflow Prepared.
From S2P Require Import Conversation Rooms Content.
Local Open Scope Z_scope.
Local Open Scope go_scope.

Record ContentOwner := {
  co_MXID : string;
  co_DisplayName : string;
  co_AgentMXID : string;
  co_AgentDisplayName : string;
}.

(** ** Interfaces *)

Record ContentStore (W : Type) := {
  cs_InsertChannelPost : Post.ChannelPostRecord -> M W goerror unit;
  cs_ApplyChannelPostSettings : PostSettings.ChannelPostSettingsRecord -> M W goerror unit;
  cs_GetChannelPostByID : string -> string -> M W goerror (option Post.ChannelPostRecord);
  cs_GetChannelPostByEventID : string -> string -> M W goerror (option Post.ChannelPostRecord);
  cs_ListChannelPosts : string -> M W goerror (list Post.ChannelPostRecord);
  cs_ListChannelPostsPage : string -> Z -> Z -> Z -> string -> Z ->
    M W goerror (list Post.ChannelPostRecord * bool);
  cs_ListChannelPostsOffsetPage : string -> Z -> Z ->
    M W goerror (list Post.ChannelPostRecord * bool);
  cs_ListChannelPostsByVisibilityPage : string -> string -> Z -> Z ->
    M W goerror (list Post.ChannelPostRecord * bool);
  cs_InsertChannelComment : Comment.ChannelCommentRecord -> M W goerror unit;
  cs_GetChannelCommentByID : string -> string -> M W goerror (option Comment.ChannelCommentRecord);
  cs_GetChannelCommentByEventID : string -> string ->
    M W goerror (option Comment.ChannelCommentRecord);
  cs_ListChannelComments : string -> M W goerror (list Comment.ChannelCommentRecord);
  cs_ListChannelCommentsPage : string -> Z -> Z -> Z -> string -> Z ->
    M W goerror (list Comment.ChannelCommentRecord * bool);
  cs_DeleteChannelPost : string -> M W goerror bool;
  cs_DeleteChannelComment : string -> M W goerror bool;
  cs_UpsertReaction : Reaction.ReactionRecord -> M W goerror unit;
  cs_GetReaction : string -> string -> string -> string ->
    M W goerror (option Reaction.ReactionRecord);
  cs_DeactivateReactionByEventID : string -> M W goerror bool;
  cs_CountActiveReactions : string -> string -> string -> M W goerror Z;
  cs_ListReactions : string -> M W goerror (list Reaction.ReactionRecord);
}.
Arguments cs_InsertChannelPost {W}.
Arguments cs_ApplyChannelPostSettings {W}.
Arguments cs_GetChannelPostByID {W}.
Arguments cs_GetChannelPostByEventID {W}.
Arguments cs_ListChannelPosts {W}.
Arguments cs_ListChannelPostsPage {W}.
Arguments cs_ListChannelPostsOffsetPage {W}.
Arguments cs_ListChannelPostsByVisibilityPage {W}.
Arguments cs_InsertChannelComment {W}.
Arguments cs_GetChannelCommentByID {W}.
Arguments cs_GetChannelCommentByEventID {W}.
Arguments cs_ListChannelComments {W}.
Arguments cs_ListChannelCommentsPage {W}.
Arguments cs_DeleteChannelPost {W}.
Arguments cs_DeleteChannelComment {W}.
Arguments cs_UpsertReaction {W}.
Arguments cs_GetReaction {W}.
Arguments cs_DeactivateReactionByEventID {W}.
Arguments cs_CountActiveReactions {W}.
Arguments cs_ListReactions {W}.

Record ChannelCatalog (W : Type) := {
  cc_ByIDOrRoom : string -> string -> M W goerror (option Chan.Channel);
  cc_WithCurrentCounts : Chan.Channel -> M W goerror Chan.Channel;
}.
Arguments cc_ByIDOrRoom {W}.
Arguments cc_WithCurrentCounts {W}.

Record RedactEventRequest := {
  re_RoomID : string;
  re_EventID : string;
  re_SenderMXID : string;
  re_Reason : string;
  re_Timestamp : Z;
}.

(** [MatrixContentPort]; [mp_prepared] is the outcome of the assertion to
    [PreparedMessagePort]. *)
Record MatrixContentPort (W : Type) := {
  mp_SendMessage : SendMessageRequest -> M W goerror SendMessageResult;
  mp_SendStateEvent : string -> string -> RoomState.StateEvent -> Z -> M W goerror unit;
  mp_RedactEvent : RedactEventRequest -> M W goerror string;
  mp_prepared : option (PreparedMessagePort W);
}.
Arguments mp_SendMessage {W}.
Arguments mp_SendStateEvent {W}.
Arguments mp_RedactEvent {W}.
Arguments mp_prepared {W}.

Record ContentConversationPort (W : Type) := {
  cv_Operation : string -> string -> string ->
    M W goerror (content * option CView.ConversationView);
  cv_AttachOperation : gmap string Conversation.entry -> string -> string -> string ->
    M W goerror (gmap string Conversation.entry);
}.
Arguments cv_Operation {W}.
Arguments cv_AttachOperation {W}.

Record ContentConfig (W : Type) := {
  cf_Owner : option (W -> ContentOwner);
  cf_Matrix : option (W -> option (MatrixContentPort W));
  cf_Now : W -> Z;                 (* [time.Now] when unset *)
  cf_NewToken : option (string -> W -> W * string);
  cf_NewEventID : option (string -> string);
  cf_RequireJoined : option (string -> M W Api.Error unit);
  cf_AuthorizeRecall : option (string -> string -> M W Api.Error unit);
  cf_MapTransportError : option (goerror -> Api.Error);
  cf_PreparedMatrixStore : option (PreparedStore W);
}.
Arguments cf_Owner {W}.
Arguments cf_Matrix {W}.
Arguments cf_Now {W}.
Arguments cf_NewToken {W}.
Arguments cf_NewEventID {W}.
Arguments cf_RequireJoined {W}.
Arguments cf_AuthorizeRecall {W}.
Arguments cf_MapTransportError {W}.
Arguments cf_PreparedMatrixStore {W}.

Module ContentFlow.
Definition actionPostsCreate := "channels.posts.create".
Definition actionPostUpdate := "channels.posts.update".
Definition actionPostsRecall := "channels.posts.recall".
Definition actionCommentsRecall := "channels.comments.recall".
Definition actionCommentsCreate := "channels.comments.create".
Definition actionPostReaction := "channels.post_reaction.toggle".
Definition actionCommentReaction := "channels.comment_reaction.toggle".

Record ReactionHistory := {
  rh_Reaction : Reaction.ReactionRecord;
  rh_Channel : option Chan.Channel;
  rh_Post : option CPost.Post;
  rh_Comment : option CComment.Comment;
}.

(** [page_visibility] and [page_next] are absent keys when [None]. *)
Record PostsPage := {
  page_posts : list CPost.Post;
  page_visibility : option string;
  page_number : Z;
  page_size : Z;
  page_has_more : bool;
  page_next : option Z;
}.

(** The results of the handlers. *)
Inductive reply :=
| RPost (post : CPost.Post)
| RPosts (posts : list CPost.Post)
| RPostsPage (page : PostsPage)
| RComment (comment : CComment.Comment)
| RComments (comments : list CComment.Comment)
| RMap (result : gmap string Conversation.entry)
| RReactions (history : list ReactionHistory).

Record ProjectionEvent := {
  ev_RoomID : string;
  ev_EventID : string;
  ev_StateKey : string;
  ev_SenderMXID : string;
  ev_OriginServerTS : Z;
  ev_Content : content;
  ev_Body : string;
  ev_MessageType : string;
}.

Section Module_.
Context `{GoRange} `{GoText} {W : Type}.
Context (store_ : option (ContentStore W)) (channels : option (ChannelCatalog W)).
Context (matrix_ : option (MatrixContentPort W)).
Context (conversation : option (ContentConversationPort W)) (config : ContentConfig W).
Local Notation M := (M W).

Definition asks {E A} (f : W -> A) : M E A := reads (fun w => Ok (f w)).

Definition zero_owner : ContentOwner :=
  {| co_MXID := ""; co_DisplayName := ""; co_AgentMXID := ""; co_AgentDisplayName := "" |}.

Definition owner (w : W) : ContentOwner :=
  match cf_Owner config with
  | None => zero_owner
  | Some f => f w
  end.

Definition matrixPort (w : W) : option (MatrixContentPort W) :=
  match cf_Matrix config with
  | Some f => f w
  | None => matrix_
  end.

Definition now (w : W) : Z := cf_Now config w.

Definition token {E} (prefix : string) : M E string :=
  match cf_NewToken config with
  | Some f => fun w => let '(w, t) := f prefix w in (w, Ok t)
  | None => asks (fun w => prefix +:+ "_" +:+ pretty (unix_nano (now w)))
  end.

Definition eventID (contentID : string) : string :=
  match cf_NewEventID config with
  | Some f => f contentID
  | None => "$" +:+ trim_space contentID
  end.

Definition transportError (err : goerror) : Api.Error :=
  match cf_MapTransportError config with
  | Some f => f err
  | None => Api.InternalError (error_text err)
  end.

Definition transported {A} (m : M goerror A) : M Api.Error A :=
  fun w => match m w with
           | (w, Ok a) => (w, Ok a)
           | (w, Err e) => (w, Err (transportError e))
           end.

Definition requireJoined (roomID : string) : M Api.Error unit :=
  let roomID := trim_space roomID in
  match cf_RequireJoined config with
  | Some f => if str_empty roomID then ret tt else f roomID
  | None => ret tt
  end.

Definition channelDeleted (channelID roomID : string) : M Api.Error bool :=
  let channelID := trim_space channelID in
  let roomID := trim_space roomID in
  match channels with
  | Some catalog =>
      if str_empty channelID && str_empty roomID then ret false
      else let! found := internal (cc_ByIDOrRoom catalog channelID roomID) in
           ret (negb (bool_decide (is_Some found)))
  | None => ret false
  end.

Definition no_catalog : Api.Error := Api.InternalError "channel catalog is not configured".
Definition no_store : goerror := ErrOther "channel content store is not configured".
Definition no_conversation : goerror :=
  ErrOther "channel content conversation port is not configured".

Definition roomIDForChannel (channelID fallbackRoomID : string) : M Api.Error string :=
  let roomID := trim_space fallbackRoomID in
  if negb (str_empty roomID) then ret roomID
  else
  let channelID := trim_space channelID in
  if str_empty channelID then ret ""
  else match channels with
       | None => fail no_catalog
       | Some catalog =>
           let! channel := internal (cc_ByIDOrRoom catalog channelID "") in
           ret (match channel with Some channel => Chan.RoomID channel | None => "" end)
       end.

(** A call of the store, which may be nil. *)
Definition with_store {A} (f : ContentStore W -> M goerror A) : M goerror A :=
  match store_ with
  | Some s => f s
  | None => fail no_store
  end.

Definition not_found (what : string) : Api.Error := Api.StatusError 404 (what +:+ " not found").

(** ** Lookups *)

Definition PostByID (postID channelID : string) : M goerror (option CPost.Post) :=
  with_store (fun s =>
    let! record := cs_GetChannelPostByID s postID channelID in
    ret (postFromRecord <$> record)).

Definition PostByEventID (eventID channelID : string) : M goerror (option CPost.Post) :=
  if str_empty (trim_space eventID) then ret None
  else with_store (fun s =>
    let! record := cs_GetChannelPostByEventID s (trim_space eventID) channelID in
    ret (postFromRecord <$> record)).

Definition CommentByID (commentID postID : string) : M goerror (option CComment.Comment) :=
  with_store (fun s =>
    let! record := cs_GetChannelCommentByID s commentID postID in
    ret (commentFromRecord <$> record)).

Definition CommentByEventID (eventID channelID : string) : M goerror (option CComment.Comment) :=
  if str_empty (trim_space eventID) then ret None
  else with_store (fun s =>
    let! record := cs_GetChannelCommentByEventID s (trim_space eventID) channelID in
    ret (commentFromRecord <$> record)).

Record reaction_target := {
  rt_Type : string;
  rt_ID : string;
  rt_PostID : string;
  rt_CommentID : string;
  rt_ChannelID : string;
}.

Definition ReactionTargetByEventID (eventID channelID : string) : M goerror reaction_target :=
  let! comment := CommentByEventID eventID channelID in
  match comment with
  | Some c => ret {| rt_Type := "comment"; rt_ID := CComment.CommentID c;
                     rt_PostID := CComment.PostID c; rt_CommentID := CComment.CommentID c;
                     rt_ChannelID := CComment.ChannelID c |}
  | None =>
      let! post := PostByEventID eventID channelID in
      ret (match post with
           | Some p => {| rt_Type := "post"; rt_ID := CPost.PostID p; rt_PostID := CPost.PostID p;
                          rt_CommentID := ""; rt_ChannelID := CPost.ChannelID p |}
           | None => {| rt_Type := ""; rt_ID := ""; rt_PostID := ""; rt_CommentID := "";
                        rt_ChannelID := "" |}
           end)
  end.

(** The room of the comment's channel, when the catalog knows it. *)
Definition room_of_channel (channelID : string) : M goerror string :=
  match channels with
  | Some catalog =>
      if str_empty channelID then ret ""
      else let! channel := cc_ByIDOrRoom catalog channelID "" in
           ret (match channel with Some channel => Chan.RoomID channel | None => "" end)
  | None => ret ""
  end.

Definition RoomIDForComment (comment : CComment.Comment) (fallbackRoomID : string)
    : M goerror string :=
  let fallbackRoomID := trim_space fallbackRoomID in
  if negb (str_empty fallbackRoomID) then ret fallbackRoomID
  else
  let! post := if str_empty (CComment.PostID comment) then ret None
               else PostByID (CComment.PostID comment) (CComment.ChannelID comment) in
  match post with
  | Some post => if str_empty (CPost.RoomID post) then room_of_channel (CComment.ChannelID comment)
                 else ret (CPost.RoomID post)
  | None => room_of_channel (CComment.ChannelID comment)
  end.

(** ** Enrichment: a failed read leaves the field as it is *)

Definition try_ {E A} (m : M goerror A) : M E (option A) :=
  fun w => match m w with
           | (w, Ok a) => (w, Ok (Some a))
           | (w, Err _) => (w, Ok None)
           end.

Definition updated {A B} (f : A -> B -> B) (v : option A) (b : B) : B :=
  match v with Some a => f a b | None => b end.

Definition listCommentsForPost (postID : string) : M goerror (list CComment.Comment) :=
  with_store (fun s =>
    let! records := cs_ListChannelComments s postID in
    ret (CommentsFromRecords records)).

(** The owner's reaction, if there is an owner. *)
Definition my_reaction {E} (s : ContentStore W) (targetType targetID reaction ownerMXID : string)
    : M E (option bool) :=
  if str_empty ownerMXID then ret None
  else let! r := try_ (cs_GetReaction s targetType targetID reaction ownerMXID) in
       ret (match r with Some (Some reaction) => Some (Reaction.Active reaction) | _ => None end).

Definition enrich_post {E} (ownerMXID : string) (post : CPost.Post) : M E CPost.Post :=
  let id := CPost.PostID post in
  let! comments := try_ (listCommentsForPost id) in
  let post := updated CPost.set_CommentCount ((fun l => Z.of_nat (length l)) <$> comments) post in
  match store_ with
  | None => ret post
  | Some s =>
      let! likes := try_ (cs_CountActiveReactions s "post" id "like") in
      let post := updated CPost.set_Reactions likes post in
      let! liked := my_reaction s "post" id "like" ownerMXID in
      let post := updated CPost.set_ReactedByMe liked post in
      let! favorites := try_ (cs_CountActiveReactions s "post" id "favorite") in
      let post := updated CPost.set_FavoriteCount favorites post in
      let! favorited := my_reaction s "post" id "favorite" ownerMXID in
      ret (updated CPost.set_FavoritedByMe favorited post)
  end.

Fixpoint map_each {E A B} (f : A -> M E B) (l : list A) : M E (list B) :=
  match l with
  | [] => ret []
  | x :: l => let! y := f x in let! ys := map_each f l in ret (y :: ys)
  end.

Definition EnrichPosts {E} (posts : list CPost.Post) (ownerMXID : string) : M E (list CPost.Post) :=
  map_each (enrich_post ownerMXID) posts.

Definition enrich_comment {E} (s : ContentStore W) (ownerMXID : string)
    (comment : CComment.Comment) : M E CComment.Comment :=
  let id := CComment.CommentID comment in
  let! likes := try_ (cs_CountActiveReactions s "comment" id "like") in
  let comment := updated CComment.set_ReactionCount likes comment in
  let! liked := my_reaction s "comment" id "like" ownerMXID in
  ret (updated CComment.set_ReactedByMe liked comment).

Definition EnrichComments {E} (comments : list CComment.Comment) (ownerMXID : string)
    : M E (list CComment.Comment) :=
  match store_ with
  | None => ret comments
  | Some s => map_each (enrich_comment s ownerMXID) comments
  end.

(** ** The operation of the reply *)

Definition mutationResult (action roomID : string) : M Api.Error reply :=
  match conversation with
  | None => fail (Api.InternalError (error_text no_conversation))
  | Some port =>
      let! result := internal (cv_AttachOperation port
        {["status" := Conversation.EValue (AString "ok")]} action "ok" roomID) in
      ret (RMap result)
  end.

Definition operation_of (action status roomID : string)
    : M goerror (content * option CView.ConversationView) :=
  match conversation with
  | None => fail no_conversation
  | Some port => cv_Operation port action status roomID
  end.

Definition attachPostOperation (post : CPost.Post) (action status roomID : string)
    : M goerror CPost.Post :=
  let! (operation, view) := operation_of action status roomID in
  ret (CPost.set_Operation operation view post).

Definition attachCommentOperation (comment : CComment.Comment) (action status roomID : string)
    : M goerror CComment.Comment :=
  let! (operation, view) := operation_of action status roomID in
  ret (CComment.set_Operation operation view comment).

(** ** Posts *)

Definition bad_visibility : Api.Error := Api.BadRequest "visibility must be public or private".

Definition post_content (channelID postID title visibility body messageType mediaJSON : string)
    (media : content) : content :=
  <["comments_enabled" := ABool true]> (<["visibility" := AString visibility]>
  (<["post_title" := AString title]> (<["post_id" := AString postID]>
  (<["channel_id" := AString channelID]>
     (channelMessageContent "channel_post" body messageType mediaJSON media))))).

(** The event and its time: of the message sent, or made up without Matrix. *)
Definition sent_or (matrix : option (MatrixContentPort W)) (roomID : string)
    (made_up : SendMessageResult) (send : MatrixContentPort W -> M Api.Error SendMessageResult)
    : M Api.Error SendMessageResult :=
  match matrix with
  | Some matrix => if str_empty roomID then ret made_up else send matrix
  | None => ret made_up
  end.

Definition created_post (channelID postID roomID : string) (result : SendMessageResult)
    (authorMXID authorName title body messageType mediaJSON visibility : string) : CPost.Post :=
  {| CPost.PostID := postID; CPost.ChannelID := channelID; CPost.RoomID := roomID;
     CPost.EventID := sr_EventID result; CPost.AuthorMXID := authorMXID;
     CPost.AuthorName := authorName; CPost.Title := title; CPost.Body := body;
     CPost.MessageType := messageType; CPost.MediaJSON := mediaJSON;
     CPost.Visibility := visibility; CPost.CommentsEnabled := true;
     CPost.OriginServerTS := sr_OriginServerTS result; CPost.CommentCount := 0;
     CPost.ReactionCount := 0; CPost.LikeCount := 0; CPost.ReactedByMe := false;
     CPost.FavoriteCount := 0; CPost.FavoritedByMe := false; CPost.Operation := None;
     CPost.Conversation_ := None |}.

Definition CreatePost (raw : content) : M Api.Error reply :=
  let get_ := Params.get_string raw in
  let! now := asks now in
  let channelID := room_fallback (get_ "channel_id") "channel" in
  let! t := token "post" in
  let postID := "post_" +:+ t in
  let! owner := asks owner in
  let! roomID := roomIDForChannel channelID (get_ "room_id") in
  let title := get_ "title" in
  let body := room_fallback (get_ "body") (get_ "content") in
  let messageType := room_fallback (get_ "message_type") "text" in
  if match raw !! "visibility" with
     | None | Some ANil | Some (AString _) => false
     | Some _ => true
     end then fail bad_visibility
  else match validatedPostVisibility (get_ "visibility") with
  | None => fail bad_visibility
  | Some visibility =>
  match mediaPayload (get raw "media_json") with
  | None => fail (Api.BadRequest "media_json is invalid")
  | Some (mediaJSON, media) =>
  if str_empty title && str_empty body && negb (hasImageMediaEntry media)
  then fail (Api.BadRequest "title, body, or image media is required")
  else
  let! matrix := asks matrixPort in
  let! result := sent_or matrix roomID
    {| sr_EventID := eventID postID; sr_OriginServerTS := unix_milli now |}
    (fun matrix => transported (mp_SendMessage matrix
      {| sm_SenderMXID := co_MXID owner; sm_RoomID := roomID; sm_EventType := "";
         sm_MessageType := messageType;
         sm_Content := post_content channelID postID title visibility body messageType
                         mediaJSON media;
         sm_Timestamp := now; sm_LogicalID := ""; sm_PostID := "" |})) in
  let post := created_post channelID postID roomID result (co_MXID owner) (co_DisplayName owner)
                title body messageType mediaJSON visibility in
  let! _ := internal (with_store (fun s => cs_InsertChannelPost s (postRecord post))) in
  let! post := internal (attachPostOperation post actionPostsCreate "ok" roomID) in
  ret (RPost post)
  end
  end.

(** [visibility] and [comments_enabled] of an update, each absent or valid. *)
Definition updated_visibility (raw : content) : result Api.Error (option string) :=
  match raw !! "visibility" with
  | None => Ok None
  | Some (AString _) =>
      match validatedPostVisibility (Params.get_string raw "visibility") with
      | Some normalized =>
          if str_empty (trim_space (Params.get_string raw "visibility")) then Err bad_visibility
          else Ok (Some normalized)
      | None => Err bad_visibility
      end
  | Some _ => Err bad_visibility
  end.

Definition updated_comments (raw : content) : result Api.Error (option bool) :=
  match raw !! "comments_enabled" with
  | None => Ok None
  | Some (ABool enabled) => Ok (Some enabled)
  | Some _ => Err (Api.BadRequest "comments_enabled must be boolean")
  end.

Definition settings_input (record : Post.ChannelPostRecord) (visibility : string)
    (commentsEnabled : bool) (now : Z) : RoomState.ChannelPostSettingsInput :=
  {| RoomState.ci_PostID := Post.PostID record; RoomState.ci_ChannelID := Post.ChannelID record;
     RoomState.ci_RoomID := Post.RoomID record; RoomState.ci_PostEventID := Post.EventID record;
     RoomState.ci_Visibility := visibility; RoomState.ci_CommentsEnabled := commentsEnabled;
     RoomState.ci_UpdatedAt := now |}.

Definition settings_record (record : Post.ChannelPostRecord) (visibility : string)
    (commentsEnabled : bool) (now : Z) : PostSettings.ChannelPostSettingsRecord :=
  {| PostSettings.PostID := Post.PostID record; PostSettings.ChannelID := Post.ChannelID record;
     PostSettings.RoomID := Post.RoomID record; PostSettings.PostEventID := Post.EventID record;
     PostSettings.Visibility := visibility; PostSettings.CommentsEnabled := commentsEnabled;
     PostSettings.UpdatedAt := unix_milli now |}.

Definition UpdatePost (raw : content) : M Api.Error reply :=
  let postID := Params.get_string raw "post_id" in
  if str_empty postID then fail (Api.BadRequest "post_id is required")
  else
  let! visibility := reads (fun _ => updated_visibility raw) in
  let! commentsEnabled := reads (fun _ => updated_comments raw) in
  match visibility, commentsEnabled with
  | None, None => fail (Api.BadRequest "visibility or comments_enabled is required")
  | _, _ =>
  let! record := internal (with_store (fun s =>
    cs_GetChannelPostByID s postID (Params.get_string raw "channel_id"))) in
  match record with
  | None => fail (not_found "post")
  | Some record =>
  let! _ := when_set (cf_AuthorizeRecall config)
              (fun f => f (Post.RoomID record) (Post.AuthorMXID record)) in
  let! now := asks now in
  let effectiveVisibility :=
    default (NormalizeChannelPostVisibility (Post.Visibility record)) visibility in
  let effectiveCommentsEnabled := default (Post.CommentsEnabled record) commentsEnabled in
  let settingsState := RoomState.ChannelPostSettings
    (settings_input record effectiveVisibility effectiveCommentsEnabled now) in
  let! matrix := asks matrixPort in
  let! sender := asks (fun w => co_MXID (owner w)) in
  let! _ := match matrix with
            | Some matrix =>
                if str_empty (Post.RoomID record) then ret tt
                else transported (mp_SendStateEvent matrix (Post.RoomID record) sender
                                    settingsState now)
            | None => ret tt
            end in
  let! _ := internal (with_store (fun s => cs_ApplyChannelPostSettings s
              (settings_record record effectiveVisibility effectiveCommentsEnabled now))) in
  let post := postFromRecord (Post.set_CommentsEnabledSet true
    (Post.set_CommentsEnabled effectiveCommentsEnabled
      (Post.set_Visibility effectiveVisibility record))) in
  let! ownerMXID := asks (fun w => co_MXID (owner w)) in
  let! post := enrich_post ownerMXID post in
  let! post := internal (attachPostOperation post actionPostUpdate "ok" (Post.RoomID record)) in
  ret (RPost post)
  end
  end.

(** A page of posts out of the store's answer. *)
Definition posts_page (visibility : option string) (ownerMXID : string) (page pageSize : Z)
    (m : M goerror (list Post.ChannelPostRecord * bool)) : M Api.Error PostsPage :=
  let! (records, hasMore) := internal m in
  let! posts := EnrichPosts (PostsFromRecords records) ownerMXID in
  ret {| page_posts := posts; page_visibility := visibility; page_number := page;
         page_size := pageSize; page_has_more := hasMore;
         page_next := if hasMore : bool then Some (wrap64 (page + 1)) else None |}.

Definition postsOffsetPage (s : ContentStore W) (channelID : string) (raw : content)
    (ownerMXID : string) : M Api.Error PostsPage :=
  let! (page, pageSize, offset) := reads (fun _ => postPageParams raw) in
  posts_page None ownerMXID page pageSize (cs_ListChannelPostsOffsetPage s channelID offset pageSize).

Definition Posts (raw : content) : M Api.Error reply :=
  let channelID := Params.get_string raw "channel_id" in
  match store_ with
  | None => ret (RPosts [])
  | Some s =>
      if has raw "visibility"
      then fail (Api.BadRequest "visibility is only supported by channels.public.posts.list")
      else
      let! ownerMXID := asks (fun w => co_MXID (owner w)) in
      if has raw "page" || has raw "page_size"
      then let! page := postsOffsetPage s channelID raw ownerMXID in ret (RPostsPage page)
      else
      let! records := try_ (cs_ListChannelPosts s channelID) in
      match records with
      | None => ret (RPosts [])
      | Some records =>
          let! posts := EnrichPosts (PostsFromRecords records) ownerMXID in ret (RPosts posts)
      end
  end.

Definition postsByVisibilityPage (s : ContentStore W) (channelID visibility : string)
    (raw : content) (ownerMXID : string) : M Api.Error PostsPage :=
  let! (page, pageSize, offset) := reads (fun _ => postPageParams raw) in
  posts_page (Some visibility) ownerMXID page pageSize
    (cs_ListChannelPostsByVisibilityPage s channelID visibility offset pageSize).

Definition PublicPosts (channelID : string) (raw : content) : M Api.Error PostsPage :=
  match store_ with
  | None => ret {| page_posts := []; page_visibility := Some visibility_public; page_number := 1;
                   page_size := 5; page_has_more := false; page_next := None |}
  | Some s => postsByVisibilityPage s (trim_space channelID) visibility_public raw ""
  end.

Definition PostPage (channelID : string) (fromTS snapshotTS cursorTS : Z) (cursorID : string)
    (limit : Z) : M goerror (list CPost.Post * bool) :=
  with_store (fun s =>
    let! (records, hasMore) :=
      cs_ListChannelPostsPage s channelID fromTS snapshotTS cursorTS cursorID limit in
    let! ownerMXID := asks (fun w => co_MXID (owner w)) in
    let! posts := EnrichPosts (PostsFromRecords records) ownerMXID in
    ret (posts, hasMore)).

(** ** Comments *)

Record comment_author := {
  ca_CommentID : string;
  ca_AuthorMXID : string;
  ca_AuthorName : string;
}.

(** Who writes the comment, and its id: the service identity of the agent for a
    capability operation, whose id fixes the comment's. *)
Definition comment_identity (operation : option CapabilityOperationContext) (commentID : string)
    (owner : ContentOwner) : result Api.Error comment_author :=
  match operation with
  | None => Ok {| ca_CommentID := commentID; ca_AuthorMXID := co_MXID owner;
                  ca_AuthorName := co_DisplayName owner |}
  | Some operation =>
      let senderMXID := trim_space (co_AgentMXID owner) in
      if str_empty senderMXID
      then Err (Api.InternalError "agent Matrix identity is unavailable")
      else Ok {| ca_CommentID := "comment_" +:+ remove_all "-"%char (co_OperationID operation);
                 ca_AuthorMXID := senderMXID;
                 ca_AuthorName := room_fallback (co_AgentDisplayName owner) senderMXID |}
  end.

(** [mentions], or [mentions_json] when the request has no [mentions]. *)
Definition mentions_of (raw : content) : result Api.Error string :=
  match jsonArray (get raw "mentions") with
  | None => Err (Api.BadRequest "mentions is invalid")
  | Some mentionsJSON =>
      if has raw "mentions" then Ok mentionsJSON
      else match jsonArray (get raw "mentions_json") with
           | Some mentionsJSON => Ok mentionsJSON
           | None => Err (Api.BadRequest "mentions_json is invalid")
           end
  end.

Definition comment_content (agent : bool) (comment : CComment.Comment) (media : content)
    : content :=
  let c := <["mentions_json" := AString (CComment.MentionsJSON comment)]>
    (<["reply_to_author_mxid" := AString (CComment.ReplyToAuthorMXID comment)]>
    (<["reply_to_comment_id" := AString (CComment.ReplyToCommentID comment)]>
    (<["comment_id" := AString (CComment.CommentID comment)]>
    (<["post_id" := AString (CComment.PostID comment)]>
    (<["channel_id" := AString (CComment.ChannelID comment)]>
      (channelMessageContent "channel_comment" (CComment.Body comment)
         (CComment.MessageType comment) (CComment.MediaJSON comment) media)))))) in
  if agent then <["io.dirextalk.gateway_source" := AString "native_agent"]>
                  (<["io.dirextalk.agent_gateway" := ABool true]> c)
  else c.

(** An error of the prepared write, as the error that is mapped. *)
Definition prepared_errors {A} (m : M merror A) : M goerror A :=
  fun w => match m w with
           | (w, Ok a) => (w, Ok a)
           | (w, Err e) => (w, Err (merror_error e))
           end.

Definition send_comment (operation : option CapabilityOperationContext)
    (matrix : MatrixContentPort W) (request : SendMessageRequest) : M goerror SendMessageResult :=
  match operation with
  | None => mp_SendMessage matrix request
  | Some operation =>
      match mp_prepared matrix, cf_PreparedMatrixStore config with
      | Some prepared, Some prepared_store =>
          prepared_errors (ExecutePreparedMatrixMutation (Some prepared) (Some prepared_store)
            operation "product.channel_comments.v1" "create" request)
      | _, _ => fail (ErrOther "durable Matrix mutation is unavailable")
      end
  end.

(** The row of a comment, or the row that is already there. *)
Definition insert_comment (comment : CComment.Comment) : M goerror CComment.Comment :=
  with_store (fun s w =>
    match cs_InsertChannelComment s (commentRecord comment) w with
    | (w, Ok _) => (w, Ok comment)
    | (w, Err e) =>
        match cs_GetChannelCommentByID s (CComment.CommentID comment)
                (CComment.ChannelID comment) w with
        | (w, Ok (Some existing)) =>
            if str_eqb (Comment.EventID existing) (CComment.EventID comment)
            then (w, Ok (commentFromRecord existing)) else (w, Err e)
        | (w, _) => (w, Err e)
        end
    end).

Definition CreateComment (ctx : option CapabilityOperationContext) (raw : content)
    : M Api.Error reply :=
  let get_ := Params.get_string raw in
  let! now := asks now in
  let! t := token "comment" in
  let! owner := asks owner in
  let postID := get_ "post_id" in
  if str_empty postID then fail (Api.BadRequest "post_id is required")
  else
  let! post := internal (PostByID postID (get_ "channel_id")) in
  match post with
  | None => fail (not_found "post")
  | Some post =>
  if negb (CPost.CommentsEnabled post)
  then fail (Api.StatusError 403 "comments are disabled for this post")
  else
  let channelID := room_fallback (get_ "channel_id") (CPost.ChannelID post) in
  let body := room_fallback (get_ "body") (get_ "content") in
  let messageType := room_fallback (get_ "message_type") "text" in
  match mediaPayload (get raw "media_json") with
  | None => fail (Api.BadRequest "media_json is invalid")
  | Some (mediaJSON, media) =>
  let! mentionsJSON := reads (fun _ => mentions_of raw) in
  let operation := CapabilityOperationContextFrom ctx in
  let! author := reads (fun _ => comment_identity operation ("comment_" +:+ t) owner) in
  let comment eventID originServerTS :=
    {| CComment.CommentID := ca_CommentID author; CComment.PostID := postID;
       CComment.ChannelID := channelID; CComment.EventID := eventID;
       CComment.AuthorMXID := ca_AuthorMXID author; CComment.AuthorName := ca_AuthorName author;
       CComment.Body := body; CComment.MessageType := messageType;
       CComment.MediaJSON := mediaJSON;
       CComment.ReplyToCommentID := get_ "reply_to_comment_id";
       CComment.ReplyToAuthorMXID := get_ "reply_to_author_mxid";
       CComment.MentionsJSON := mentionsJSON; CComment.OriginServerTS := originServerTS;
       CComment.ReactionCount := 0; CComment.ReactedByMe := false; CComment.Operation := None;
       CComment.Conversation_ := None |} in
  let made_up := {| sr_EventID := eventID (ca_CommentID author);
                    sr_OriginServerTS := unix_milli now |} in
  let! roomID := roomIDForChannel channelID (room_fallback (get_ "room_id") (CPost.RoomID post)) in
  let! _ := requireJoined roomID in
  let! matrix := asks matrixPort in
  let! result := sent_or matrix roomID made_up (fun matrix =>
    transported (send_comment operation matrix
      {| sm_SenderMXID := ca_AuthorMXID author; sm_RoomID := roomID; sm_EventType := "";
         sm_MessageType := messageType;
         sm_Content := comment_content (bool_decide (is_Some operation)) (comment "" 0) media;
         sm_Timestamp := now; sm_LogicalID := ca_CommentID author; sm_PostID := postID |})) in
  let! comment := internal (insert_comment
    (comment (sr_EventID result) (sr_OriginServerTS result))) in
  let! comment := internal (attachCommentOperation comment actionCommentsCreate "ok" roomID) in
  ret (RComment comment)
  end
  end.

Definition Comments (raw : content) : M Api.Error reply :=
  match store_ with
  | None => ret (RComments [])
  | Some s =>
      let! records := try_ (cs_ListChannelComments s (Params.get_string raw "post_id")) in
      match records with
      | None => ret (RComments [])
      | Some records =>
          let! ownerMXID := asks (fun w => co_MXID (owner w)) in
          let! comments := EnrichComments (CommentsFromRecords records) ownerMXID in
          ret (RComments comments)
      end
  end.

Definition CommentPage (postID : string) (fromTS snapshotTS cursorTS : Z) (cursorID : string)
    (limit : Z) : M goerror (list CComment.Comment * bool) :=
  with_store (fun s =>
    let! (records, hasMore) :=
      cs_ListChannelCommentsPage s postID fromTS snapshotTS cursorTS cursorID limit in
    let! ownerMXID := asks (fun w => co_MXID (owner w)) in
    let! comments := EnrichComments (CommentsFromRecords records) ownerMXID in
    ret (comments, hasMore)).

Definition mine (ownerMXID channelID : string) (comment : CComment.Comment) : bool :=
  negb (negb (str_eqb (CComment.AuthorMXID comment) ownerMXID) ||
        negb (str_empty channelID) && negb (str_eqb (CComment.ChannelID comment) channelID)).

Definition MyComments (raw : content) : M Api.Error reply :=
  let! ownerMXID := asks (fun w => co_MXID (owner w)) in
  match store_ with
  | None => ret (RComments [])
  | Some s =>
      let! records := try_ (cs_ListChannelComments s (Params.get_string raw "post_id")) in
      ret (RComments (match records with
        | None => []
        | Some records => List.filter (mine ownerMXID (Params.get_string raw "channel_id"))
                            (CommentsFromRecords records)
        end))
  end.

(** ** Recall *)

Definition authorizeRecall (roomID authorMXID : string) : M Api.Error unit :=
  let! matrix := asks matrixPort in
  match matrix, cf_AuthorizeRecall config with
  | None, Some f => f roomID authorMXID
  | _, _ => ret tt
  end.

Definition redact (roomID eventID reason : string) : M goerror unit :=
  let! matrix := asks matrixPort in
  match matrix with
  | Some matrix =>
      if str_empty roomID || str_empty eventID then ret tt
      else
      let! sender := asks (fun w => co_MXID (owner w)) in
      let! now := asks now in
      let! _ := mp_RedactEvent matrix
        {| re_RoomID := roomID; re_EventID := eventID; re_SenderMXID := sender;
           re_Reason := reason; re_Timestamp := now |} in
      ret tt
  | None => ret tt
  end.

Definition recall_post (action : string) (raw : content) : M Api.Error reply :=
  let postID := Params.get_string raw "post_id" in
  if str_empty postID then fail (Api.BadRequest "post_id is required")
  else
  let! post := transported (PostByID postID (Params.get_string raw "channel_id")) in
  match post with
  | None => fail (not_found "post")
  | Some post =>
      let! _ := authorizeRecall (CPost.RoomID post) (CPost.AuthorMXID post) in
      let! _ := transported (redact (CPost.RoomID post) (CPost.EventID post)
                               (Params.get_string raw "reason")) in
      let! _ := internal (with_store (fun s => cs_DeleteChannelPost s postID)) in
      mutationResult action (CPost.RoomID post)
  end.

Definition recall_comment (action : string) (raw : content) : M Api.Error reply :=
  let commentID := Params.get_string raw "comment_id" in
  if str_empty commentID then fail (Api.BadRequest "comment_id is required")
  else
  let! comment := internal (CommentByID commentID (Params.get_string raw "post_id")) in
  match comment with
  | None => fail (not_found "comment")
  | Some comment =>
      let! roomID := internal (RoomIDForComment comment (Params.get_string raw "room_id")) in
      let! ownerMXID := asks (fun w => co_MXID (owner w)) in
      let! orphanedOwnComment :=
        if str_eqb (CComment.AuthorMXID comment) ownerMXID
        then channelDeleted (CComment.ChannelID comment) roomID else ret false in
      let! _ := if orphanedOwnComment : bool then ret tt
                else
                let! _ := authorizeRecall roomID (CComment.AuthorMXID comment) in
                transported (redact roomID (CComment.EventID comment)
                               (Params.get_string raw "reason")) in
      let! _ := internal (with_store (fun s => cs_DeleteChannelComment s commentID)) in
      mutationResult action roomID
  end.

Definition Recall (action : string) (raw : content) : M Api.Error reply :=
  if str_eqb action actionPostsRecall then recall_post action raw else recall_comment action raw.

(** ** Reactions *)

Record toggle_target := {
  tt_EventID : string;
  tt_RoomID : string;
  tt_ChannelID : string;
  tt_PostID : string;
  tt_CommentID : string;
  tt_missingPost : bool;
}.

(** The target of a toggle of a post that is gone: the stored reaction may only
    be withdrawn. *)
Definition missing_post_target (existing : option Reaction.ReactionRecord)
    (channelID commentID : string) : M Api.Error toggle_target :=
  match existing with
  | None => fail (not_found "post")
  | Some existing =>
      let storedChannelID := trim_space (Reaction.ChannelID existing) in
      if str_empty storedChannelID ||
         negb (str_empty channelID) && negb (str_eqb channelID storedChannelID)
      then fail (not_found "post")
      else match channels with
           | None => fail no_catalog
           | Some catalog =>
               let! channel := internal (cc_ByIDOrRoom catalog storedChannelID "") in
               match channel with
               | None => fail (not_found "channel")
               | Some channel =>
                   ret {| tt_EventID := ""; tt_RoomID := Chan.RoomID channel;
                          tt_ChannelID := storedChannelID;
                          tt_PostID := room_fallback (Reaction.PostID existing)
                                         (Reaction.TargetID existing);
                          tt_CommentID := commentID; tt_missingPost := true |}
               end
           end
  end.

Definition post_target (existing : option Reaction.ReactionRecord)
    (targetID roomID channelID commentID : string) : M Api.Error toggle_target :=
  let! post := internal (PostByID targetID channelID) in
  match post with
  | None => missing_post_target existing channelID commentID
  | Some post =>
      ret {| tt_EventID := CPost.EventID post; tt_RoomID := room_fallback roomID (CPost.RoomID post);
             tt_ChannelID := room_fallback channelID (CPost.ChannelID post);
             tt_PostID := CPost.PostID post; tt_CommentID := commentID; tt_missingPost := false |}
  end.

Definition comment_target (targetID roomID channelID postID : string)
    : M Api.Error toggle_target :=
  let! comment := internal (CommentByID targetID postID) in
  match comment with
  | None => fail (not_found "comment")
  | Some comment =>
      let! roomID := internal (RoomIDForComment comment roomID) in
      ret {| tt_EventID := CComment.EventID comment; tt_RoomID := roomID;
             tt_ChannelID := room_fallback channelID (CComment.ChannelID comment);
             tt_PostID := room_fallback postID (CComment.PostID comment);
             tt_CommentID := CComment.CommentID comment; tt_missingPost := false |}
  end.

(** The record the toggle stores, before its event is known. *)
Definition toggled (existing : option Reaction.ReactionRecord) (withdraw : bool)
    (targetType targetID reactionName userID createdAt : string) (t : toggle_target)
    : Reaction.ReactionRecord :=
  match existing with
  | Some existing =>
      Reaction.set_Active (if withdraw then false else negb (Reaction.Active existing)) existing
  | None =>
      {| Reaction.EventID := ""; Reaction.TargetType := targetType; Reaction.TargetID := targetID;
         Reaction.ChannelID := tt_ChannelID t; Reaction.PostID := tt_PostID t;
         Reaction.CommentID := tt_CommentID t; Reaction.Reaction := reactionName;
         Reaction.UserID := userID; Reaction.Active := true; Reaction.CreatedAt := createdAt |}
  end.

Definition set_event (eventID : string) (r : Reaction.ReactionRecord) : Reaction.ReactionRecord :=
  {| Reaction.EventID := eventID; Reaction.TargetType := Reaction.TargetType r;
     Reaction.TargetID := Reaction.TargetID r; Reaction.ChannelID := Reaction.ChannelID r;
     Reaction.PostID := Reaction.PostID r; Reaction.CommentID := Reaction.CommentID r;
     Reaction.Reaction := Reaction.Reaction r; Reaction.UserID := Reaction.UserID r;
     Reaction.Active := Reaction.Active r; Reaction.CreatedAt := Reaction.CreatedAt r |}.

Definition reaction_content (reactionName : string) (active : bool) (t : toggle_target) : content :=
  <["m.relates_to" := AMap [("rel_type", AString "m.annotation");
                            ("event_id", AString (tt_EventID t)); ("key", AString reactionName)]]>
  (<["channel_id" := AString (tt_ChannelID t)]> (<["post_id" := AString (tt_PostID t)]>
  (<["comment_id" := AString (tt_CommentID t)]> (<["reaction" := AString reactionName]>
    {["active" := ABool active]})))).

(** The reaction event, and the id the record gets. *)
Definition send_reaction (withdraw : bool) (userID reactionName : string) (active : bool)
    (t : toggle_target) : M Api.Error string :=
  let! matrix := asks matrixPort in
  match matrix with
  | Some matrix =>
      if withdraw || str_empty (tt_RoomID t) || str_empty (tt_EventID t) then ret ""
      else
      let! now := asks now in
      let! result := transported (mp_SendMessage matrix
        {| sm_SenderMXID := userID; sm_RoomID := tt_RoomID t; sm_EventType := "m.reaction";
           sm_MessageType := "m.reaction"; sm_Content := reaction_content reactionName active t;
           sm_Timestamp := now; sm_LogicalID := ""; sm_PostID := "" |}) in
      ret (sr_EventID result)
  | None => ret ""
  end.

Definition ToggleReaction (action : string) (raw : content) : M Api.Error reply :=
  let get_ := Params.get_string raw in
  let reactionName := room_fallback (get_ "reaction") "like" in
  let onComment := str_eqb action actionCommentReaction in
  let targetType := if onComment then "comment" else "post" in
  let targetID := if onComment then get_ "comment_id" else get_ "post_id" in
  if str_empty targetID then fail (Api.BadRequest (targetType +:+ "_id is required"))
  else match store_ with
  | None => fail (Api.InternalError (error_text no_store))
  | Some s =>
  let! userID := asks (fun w => co_MXID (owner w)) in
  let! existing := internal (cs_GetReaction s targetType targetID reactionName userID) in
  let! target := if onComment
                 then comment_target targetID (get_ "room_id") (get_ "channel_id") (get_ "post_id")
                 else post_target existing targetID (get_ "room_id") (get_ "channel_id")
                        (get_ "comment_id") in
  let! orphanedChannelCleanup :=
    if match existing with Some r => Reaction.Active r | None => false end &&
       negb (tt_missingPost target)
    then channelDeleted (tt_ChannelID target) (tt_RoomID target) else ret false in
  let! _ := if orphanedChannelCleanup : bool then ret tt else requireJoined (tt_RoomID target) in
  let withdraw := tt_missingPost target || orphanedChannelCleanup in
  let! createdAt := asks (fun w => format_rfc3339nano (now w)) in
  let record := toggled existing withdraw targetType targetID reactionName userID createdAt
                  target in
  let! reactionEventID :=
    send_reaction withdraw userID reactionName (Reaction.Active record) target in
  let record := if tt_missingPost target then record else set_event reactionEventID record in
  let! _ := internal (cs_UpsertReaction s record) in
  let! count := internal (cs_CountActiveReactions s targetType targetID reactionName) in
  let result : gmap string Conversation.entry :=
    <["post_id" := Conversation.EValue (AString (Reaction.PostID record))]>
    (<["comment_id" := Conversation.EValue (AString (Reaction.CommentID record))]>
    (<["channel_id" := Conversation.EValue (AString (Reaction.ChannelID record))]>
    (<["reaction" := Conversation.EValue (AString (Reaction.Reaction record))]>
    (<["active" := Conversation.EValue (ABool (Reaction.Active record))]>
      {["reaction_count" := Conversation.EValue (AInt64 count)]})))) in
  match conversation with
  | None => fail (Api.InternalError (error_text no_conversation))
  | Some port =>
      let! result := internal (cv_AttachOperation port result action "ok" (tt_RoomID target)) in
      ret (RMap result)
  end
  end.

(** *** History *)

Definition historyChannel {E} (channelID : string) : M E (option Chan.Channel) :=
  match channels with
  | Some catalog =>
      if str_empty channelID then ret None
      else
      let! channel := try_ (cc_ByIDOrRoom catalog channelID "") in
      match channel with
      | Some (Some channel) =>
          let! enriched := try_ (cc_WithCurrentCounts catalog channel) in
          ret (Some (default channel enriched))
      | _ => ret None
      end
  | None => ret None
  end.

(** The post, enriched, if it can be found. *)
Definition history_post {E} (postID channelID ownerMXID : string) : M E (option CPost.Post) :=
  if str_empty postID then ret None
  else
  let! post := try_ (PostByID postID channelID) in
  match post with
  | Some (Some post) => let! post := enrich_post ownerMXID post in ret (Some post)
  | _ => ret None
  end.

Definition history_comment {E} (commentID postID ownerMXID : string)
    : M E (option CComment.Comment) :=
  if str_empty commentID then ret None
  else
  let! comment := try_ (CommentByID commentID postID) in
  match comment with
  | Some (Some comment) =>
      let! comments := EnrichComments [comment] ownerMXID in
      ret (head comments)
  | _ => ret None
  end.

Definition own_or_target (wanted targetType own target : string) : string :=
  let own := trim_space own in
  if equal_fold targetType wanted && str_empty own then trim_space target else own.

Definition history_item {E} (ownerMXID : string) (reaction : Reaction.ReactionRecord)
    : M E ReactionHistory :=
  let channelID := trim_space (Reaction.ChannelID reaction) in
  let postID := own_or_target "post" (Reaction.TargetType reaction) (Reaction.PostID reaction)
                  (Reaction.TargetID reaction) in
  let commentID := own_or_target "comment" (Reaction.TargetType reaction)
                     (Reaction.CommentID reaction) (Reaction.TargetID reaction) in
  let! channel := historyChannel channelID in
  let! post := history_post postID channelID ownerMXID in
  let channelID := match post with
                   | Some p => room_fallback channelID (CPost.ChannelID p) | None => channelID end in
  let! comment := history_comment commentID postID ownerMXID in
  let '(postID, channelID) :=
    match comment with
    | Some c => (room_fallback postID (CComment.PostID c),
                 room_fallback channelID (CComment.ChannelID c))
    | None => (postID, channelID)
    end in
  let! (post, channelID) :=
    match post with
    | Some p => ret (Some p, channelID)
    | None =>
        let! post := history_post postID channelID ownerMXID in
        ret (post, match post with
                   | Some p => room_fallback channelID (CPost.ChannelID p) | None => channelID end)
    end in
  let! channel := match channel with
                  | Some c => ret (Some c)
                  | None => historyChannel channelID
                  end in
  ret {| rh_Reaction := reaction; rh_Channel := channel; rh_Post := post; rh_Comment := comment |}.

Definition ReactionHistory_ {E} (reactions : list Reaction.ReactionRecord) (ownerMXID : string)
    : M E (list ReactionHistory) :=
  map_each (history_item ownerMXID) reactions.

Definition MyReactions (_ : content) : M Api.Error reply :=
  let! userID := asks (fun w => co_MXID (owner w)) in
  match store_ with
  | None => ret (RReactions [])
  | Some s =>
      let! reactions := try_ (cs_ListReactions s userID) in
      match reactions with
      | None => ret (RReactions [])
      | Some reactions =>
          let! history := ReactionHistory_ reactions userID in ret (RReactions history)
      end
  end.

(** ** Projection of Matrix events *)

Definition ProjectPostSettings (event : ProjectionEvent) : M goerror unit :=
  with_store (fun s =>
    let params := ev_Content event in
    let contentPostID := Params.get_string params "post_id" in
    let stateKey := trim_space (ev_StateKey event) in
    let postID := if str_empty stateKey then contentPostID else stateKey in
    if negb (str_empty stateKey) && negb (str_empty contentPostID) &&
       negb (str_eqb contentPostID postID) then ret tt
    else
    let postEventID := Params.get_string params "post_event_id" in
    match validatedPostVisibility (Params.get_string params "visibility"),
          get params "comments_enabled" with
    | Some visibility, ABool commentsEnabled =>
        if str_empty postID || str_empty postEventID then ret tt
        else cs_ApplyChannelPostSettings s
          {| PostSettings.PostID := postID;
             PostSettings.ChannelID := Params.get_string params "channel_id";
             PostSettings.RoomID := ev_RoomID event; PostSettings.PostEventID := postEventID;
             PostSettings.Visibility := visibility;
             PostSettings.CommentsEnabled := commentsEnabled;
             PostSettings.UpdatedAt := ev_OriginServerTS event |}
    | _, _ => ret tt
    end).

Definition projected_id (prefix id eventID : string) : string :=
  if str_empty id then prefix +:+ trim_prefix eventID "$" else id.

Definition projected_post (event : ProjectionEvent) : Post.ChannelPostRecord :=
  let get_ := Params.get_string (ev_Content event) in
  {| Post.PostID := projected_id "post_" (get_ "post_id") (ev_EventID event);
     Post.ChannelID := get_ "channel_id"; Post.RoomID := ev_RoomID event;
     Post.EventID := ev_EventID event; Post.AuthorMXID := ev_SenderMXID event;
     Post.AuthorName := get_ "sender_name"; Post.Title := get_ "post_title";
     Post.Body := ev_Body event; Post.MessageType := ev_MessageType event;
     Post.MediaJSON := get_ "media_json";
     Post.Visibility := NormalizeChannelPostVisibility (get_ "visibility");
     Post.CommentsEnabled := if has (ev_Content event) "comments_enabled"
                             then Params.get_bool (ev_Content event) "comments_enabled" else true;
     Post.CommentsEnabledSet := true; Post.SettingsUpdated := false;
     Post.OriginServerTS := ev_OriginServerTS event; Post.CommentCount := 0 |}.

Definition ProjectPost (event : ProjectionEvent) : M goerror unit :=
  with_store (fun s => cs_InsertChannelPost s (projected_post event)).

Definition projected_mentions (params : content) : string :=
  match params !! "mentions_json" with
  | Some raw => default "[]" (jsonArray raw)
  | None => match params !! "mentions" with
            | Some raw => default "[]" (jsonArray raw)
            | None => "[]"
            end
  end.

Definition projected_comment (event : ProjectionEvent) : Comment.ChannelCommentRecord :=
  let get_ := Params.get_string (ev_Content event) in
  {| Comment.CommentID := projected_id "comment_" (get_ "comment_id") (ev_EventID event);
     Comment.PostID := get_ "post_id"; Comment.ChannelID := get_ "channel_id";
     Comment.EventID := ev_EventID event; Comment.AuthorMXID := ev_SenderMXID event;
     Comment.AuthorName := get_ "sender_name"; Comment.Body := ev_Body event;
     Comment.MessageType := ev_MessageType event; Comment.MediaJSON := get_ "media_json";
     Comment.ReplyToCommentID := get_ "reply_to_comment_id";
     Comment.ReplyToAuthorMXID := get_ "reply_to_author_mxid";
     Comment.MentionsJSON := projected_mentions (ev_Content event);
     Comment.OriginServerTS := ev_OriginServerTS event |}.

Definition ProjectComment (event : ProjectionEvent) : M goerror unit :=
  with_store (fun s =>
    let get_ := Params.get_string (ev_Content event) in
    let! post := PostByID (get_ "post_id") (get_ "channel_id") in
    if match post with Some post => negb (CPost.CommentsEnabled post) | None => false end
    then ret tt
    else cs_InsertChannelComment s (projected_comment event)).

(** What a reaction event reacts to; [None] if nothing. *)
Definition projected_target (event : ProjectionEvent) (relation : content)
    : M goerror reaction_target :=
  let get_ := Params.get_string (ev_Content event) in
  let direct :=
    {| rt_Type := if str_empty (get_ "comment_id") then "post" else "comment";
       rt_ID := if str_empty (get_ "comment_id") then get_ "post_id" else get_ "comment_id";
       rt_PostID := get_ "post_id"; rt_CommentID := get_ "comment_id";
       rt_ChannelID := get_ "channel_id" |} in
  if negb (str_empty (rt_ID direct)) then ret direct
  else
  let relatedEventID := Params.get_string relation "event_id" in
  let! resolved := ReactionTargetByEventID relatedEventID (get_ "channel_id") in
  ret (if str_empty (rt_ID resolved)
       then {| rt_Type := rt_Type direct; rt_ID := relatedEventID; rt_PostID := rt_PostID direct;
               rt_CommentID := rt_CommentID direct; rt_ChannelID := rt_ChannelID direct |}
       else {| rt_Type := rt_Type resolved; rt_ID := rt_ID resolved;
               rt_PostID := rt_PostID resolved; rt_CommentID := rt_CommentID resolved;
               rt_ChannelID := room_fallback (get_ "channel_id") (rt_ChannelID resolved) |}).

Definition ProjectReaction (event : ProjectionEvent) : M goerror unit :=
  with_store (fun s =>
    let params := ev_Content event in
    let relation := match get params "m.relates_to" with AMap l => object_map l | _ => ∅ end in
    let reactionName := room_fallback (Params.get_string relation "key")
                          (room_fallback (Params.get_string params "reaction") "like") in
    let! target := projected_target event relation in
    if str_empty (rt_ID target) then ret tt
    else
    let active := if has params "active" then Params.get_bool params "active" else true in
    let! now := asks now in
    let createdAt := if 0 <? ev_OriginServerTS event then of_unix_milli (ev_OriginServerTS event)
                     else now in
    cs_UpsertReaction s
      {| Reaction.EventID := ev_EventID event; Reaction.TargetType := rt_Type target;
         Reaction.TargetID := rt_ID target; Reaction.ChannelID := rt_ChannelID target;
         Reaction.PostID := rt_PostID target; Reaction.CommentID := rt_CommentID target;
         Reaction.Reaction := reactionName; Reaction.UserID := ev_SenderMXID event;
         Reaction.Active := active; Reaction.CreatedAt := format_rfc3339nano createdAt |}).

Definition RemoveProjectedEvent (eventID : string) : M goerror bool :=
  if str_empty (trim_space eventID) then ret false
  else with_store (fun s =>
    let! postRemoved := cs_DeleteChannelPost s eventID in
    let! commentRemoved := cs_DeleteChannelComment s eventID in
    let! reactionRemoved := cs_DeactivateReactionByEventID s eventID in
    ret (postRemoved || commentRemoved || reactionRemoved)).
End Module_.
End ContentFlow.
