(* ===== verification/Projector.v ===== *)
(** * The Matrix event projector

    [p2p/internal/projector]: roomserver output becomes product records and
    product events.  The dependencies of the module may be nil; an event is
    given by what the projector reads of it. *)

From Stdlib Require Import Ascii String ZArith Lia.
From stdpp Require Import base tactics list gmap strings.
From S2P Require Import Prelude GoStrings Values Domain GoTime Policy Action RoomState Projection.
From S2P Require Import Workflow Rooms ContentFlow.
Local Open Scope Z_scope.
Local Open Scope go_scope.

(** ** Events *)

(** An entry of [unsigned.invite_room_state], its fields still undecoded. *)
Record StrippedState := {
  ss_type : any;
  ss_sender : any;
  ss_state_key : any;
  ss_content : any;
}.

(** [types.HeaderedEvent]; [re_Unsigned] is [None] when there is no unsigned
    object with such a list. *)
Record RoomEvent := {
  re_Type : string;
  re_RoomID : string;
  re_EventID : string;
  re_StateKey : option string;
  re_SenderID : string;
  re_OriginServerTS : Z;
  re_Content : result goerror (list (string * any));
  re_Unsigned : option (list StrippedState);
}.

(** [roomserverAPI.OutputEvent], as far as the projector reads it. *)
Record OutputEvent := {
  oe_Type : string;
  oe_RedactedEvent : option string;
  oe_NewInviteEvent : option (option RoomEvent);
  oe_NewRoomEvent : option (option RoomEvent);
}.

(** [json.Unmarshal] of a string or object field of a struct. *)
Definition string_field (v : any) : option string :=
  match v with
  | AString s => Some s
  | ANil => Some ""
  | _ => None
  end.

Definition object_field (v : any) : option content :=
  match v with
  | AMap l => Some (object_map l)
  | ANil => Some ∅
  | _ => None
  end.

Record InviteState := {
  is_Type : string;
  is_Sender : string;
  is_StateKey : string;
  is_Content : content;
}.

(** The fields a caller does not declare are not decoded. *)
Definition decode_state (sender state_key : bool) (s : StrippedState) : option InviteState :=
  match string_field (ss_type s), object_field (ss_content s),
        (if sender then string_field (ss_sender s) else Some ""),
        (if state_key then string_field (ss_state_key s) else Some "") with
  | Some type_, Some c, Some sender, Some key =>
      Some {| is_Type := type_; is_Sender := sender; is_StateKey := key; is_Content := c |}
  | _, _, _, _ => None
  end.

Definition inviteRoomState (sender state_key : bool) (event : RoomEvent)
    : option (list InviteState) :=
  match re_Unsigned event with
  | None => None
  | Some states => mapM (decode_state sender state_key) states
  end.

(** ** Dependencies *)

Record IdentitySnapshot := {
  id_OwnerMXID : string;
  id_OwnerDisplayName : string;
  id_OwnerAvatarURL : string;
  id_AgentRoomID : string;
}.

Inductive ReinviteDisposition := ReinviteRetained | ReinviteReplacementRequired.

Record ConversationPort (W : Type) := {
  pc_GetRecord : string -> string -> M W goerror (option Conv.ConversationRecord);
  pc_Save : Conv.ConversationRecord -> M W goerror unit;
  pc_SetCreator : string -> string -> M W goerror unit;
}.
Arguments pc_GetRecord {W}.
Arguments pc_Save {W}.
Arguments pc_SetCreator {W}.

Record ChannelPort (W : Type) := {
  pch_ByIDOrRoom : string -> string -> M W goerror (option Chan.Channel);
  pch_UpsertProjection : Chan.Channel -> M W goerror unit;
  pch_SaveWithConversation : Chan.Channel -> M W goerror unit;
  pch_Delete : string -> M W goerror unit;
}.
Arguments pch_ByIDOrRoom {W}.
Arguments pch_UpsertProjection {W}.
Arguments pch_SaveWithConversation {W}.
Arguments pch_Delete {W}.

Record ChannelContentPort (W : Type) := {
  pcc_ProjectPost : ContentFlow.ProjectionEvent -> M W goerror unit;
  pcc_ProjectPostSettings : ContentFlow.ProjectionEvent -> M W goerror unit;
  pcc_ProjectComment : ContentFlow.ProjectionEvent -> M W goerror unit;
  pcc_ProjectReaction : ContentFlow.ProjectionEvent -> M W goerror unit;
  pcc_RemoveProjectedEvent : string -> M W goerror bool;
}.
Arguments pcc_ProjectPost {W}.
Arguments pcc_ProjectPostSettings {W}.
Arguments pcc_ProjectComment {W}.
Arguments pcc_ProjectReaction {W}.
Arguments pcc_RemoveProjectedEvent {W}.

Record GroupPort (W : Type) := {
  pg_ByRoom : string -> M W goerror (option Group.GroupRecord);
  pg_Save : Group.GroupRecord -> M W goerror unit;
  pg_Delete : string -> M W goerror unit;
}.
Arguments pg_ByRoom {W}.
Arguments pg_Save {W}.
Arguments pg_Delete {W}.

Record ContactPort (W : Type) := {
  pk_WithPeer : string -> M W goerror unit -> M W goerror unit;
  pk_ListRaw : M W goerror (list Contact.ContactRecord);
  pk_LookupByRoom : string -> M W goerror (option Contact.ContactRecord);
  pk_Save : Contact.ContactRecord -> M W goerror unit;
  pk_SaveProjectionIfCurrent : Contact.ContactRecord -> Contact.ContactRecord -> M W goerror bool;
}.
Arguments pk_WithPeer {W}.
Arguments pk_ListRaw {W}.
Arguments pk_LookupByRoom {W}.
Arguments pk_Save {W}.
Arguments pk_SaveProjectionIfCurrent {W}.

Record MemberPort (W : Type) := {
  pm_Lookup : string -> string -> M W goerror (option Member.MemberRecord);
  pm_Save : Member.MemberRecord -> M W goerror unit;
  pm_SaveProjectionIfAbsent : Member.MemberRecord -> M W goerror bool;
  pm_SaveProjectionIfCurrent : Member.MemberRecord -> Member.MemberRecord -> M W goerror bool;
}.
Arguments pm_Lookup {W}.
Arguments pm_Save {W}.
Arguments pm_SaveProjectionIfAbsent {W}.
Arguments pm_SaveProjectionIfCurrent {W}.

Record DirectRoomPort (W : Type) := {
  pd_ReinviteAcceptedContact : Contact.ContactRecord -> IdentitySnapshot ->
    M W goerror ReinviteDisposition;
  pd_JoinReplacementRoom : string -> IdentitySnapshot -> M W goerror string;
}.
Arguments pd_ReinviteAcceptedContact {W}.
Arguments pd_JoinReplacementRoom {W}.

Record Dependencies (W : Type) := {
  Events : option (Event.EventRecord -> M W goerror unit);
  Conversations : option (ConversationPort W);
  Channels_ : option (ChannelPort W);
  ChannelContent_ : option (ChannelContentPort W);
  Groups_ : option (GroupPort W);
  Contacts_ : option (ContactPort W);
  Members_ : option (MemberPort W);
  Blocks_ : option (string -> list string -> M W goerror bool);
  DirectRooms : option (DirectRoomPort W);
  Identity : option (W -> IdentitySnapshot);
  Now : W -> Z;
}.
Arguments Events {W}.
Arguments Conversations {W}.
Arguments Channels_ {W}.
Arguments ChannelContent_ {W}.
Arguments Groups_ {W}.
Arguments Contacts_ {W}.
Arguments Members_ {W}.
Arguments Blocks_ {W}.
Arguments DirectRooms {W}.
Arguments Identity {W}.
Arguments Now {W}.

Module Projector.
Notation textValue := Params.String.
Notation boolValue := Params.Bool.
Notation fallbackText := RoomState.fallbackString.

Definition projectedEventDedupeKey (eventType eventID subject : string) : string :=
  let eventType := trim_space eventType in
  let eventID := trim_space eventID in
  let subject := trim_space subject in
  if str_empty eventType || str_empty eventID then ""
  else if str_empty subject then eventType +:+ ":" +:+ eventID
  else eventType +:+ ":" +:+ eventID +:+ ":" +:+ subject.

Definition acceptedContact (status : string) : bool := equal_fold (trim_space status) "accepted".
Definition deletedContact (status : string) : bool := equal_fold (trim_space status) "deleted".

Definition product_event (type_ roomID eventID dedupeKey : string) (payload : content)
    : Event.EventRecord :=
  {| Event.Seq := 0; Event.Type_ := type_; Event.RoomID := roomID; Event.EventID := eventID;
     Event.DedupeKey := dedupeKey; Event.Payload := payload; Event.CreatedAt := "" |}.

Definition conversationKindFromStateKind (kind : string) : string :=
  if bool_decide (kind ∈ ["direct"; "group"; "channel"]) then kind else "".

Definition groupOrChannelConversation (kind : string) : bool :=
  str_eqb kind "group" || str_eqb kind "channel".

Definition not_configured (what : string) : goerror := ErrOther (what +:+ " is not configured").

Section Module_.
Context {W : Type} `{MatrixIDs} (deps : Dependencies W).
Local Notation M := (M W goerror).
Implicit Types (event : RoomEvent) (identity : IdentitySnapshot).

Definition asks {A} (f : W -> A) : M A := reads (fun w => Ok (f w)).

Definition appendEvent (e : Event.EventRecord) : M unit :=
  match Events deps with
  | Some append => append e
  | None => fail (not_configured "projector event sink")
  end.

Definition zero_identity : IdentitySnapshot :=
  {| id_OwnerMXID := ""; id_OwnerDisplayName := ""; id_OwnerAvatarURL := "";
     id_AgentRoomID := "" |}.

Definition identity_of (w : W) : IdentitySnapshot :=
  match Identity deps with
  | Some f => f w
  | None => zero_identity
  end.

Definition eventTime event (w : W) : Z :=
  if 0 <? re_OriginServerTS event then of_unix_milli (re_OriginServerTS event) else Now deps w.

(** The content of an event, which must be a JSON object. *)
Definition content_of event : M content := reads (fun _ => result_map object_map (re_Content event)).

(** A failed read, ignored. *)
Definition attempt {A} (m : M (option A)) : M (option A) :=
  fun w => match m w with
           | (w, Ok a) => (w, Ok a)
           | (w, Err _) => (w, Ok None)
           end.

Definition with_port {P A} (what : string) (port : option P) (f : P -> M A) : M A :=
  match port with
  | Some p => f p
  | None => fail (not_configured what)
  end.

Definition channelIDForRoom (roomID : string) : M string :=
  let roomID := trim_space roomID in
  match Channels_ deps with
  | Some port =>
      if str_empty roomID then ret ""
      else let! channel := attempt (pch_ByIDOrRoom port "" roomID) in
           ret (match channel with Some channel => Chan.ChannelID channel | None => "" end)
  | None => ret ""
  end.

(** ** Rooms *)

Definition validFullMXID (value : string) : string :=
  match NewUserID (trim_space value) with
  | Ok userID => userID
  | Err _ => ""
  end.

Definition pending_conversation (roomID kind : string) (at_ : Z) : Conv.ConversationRecord :=
  {| Conv.ConversationID := ""; Conv.MatrixRoomID := roomID; Conv.Kind := kind;
     Conv.Lifecycle := "active"; Conv.CreatedByMXID := ""; Conv.PeerMXID := ""; Conv.Title := "";
     Conv.AvatarURL := ""; Conv.LastEventID := ""; Conv.LastMessage := "";
     Conv.LastActivityAt := 0; Conv.ProjectionState := "pending";
     Conv.ProjectionReason := "room_profile_pending"; Conv.CreatedAt := at_;
     Conv.UpdatedAt := at_ |}.

(** The kind of the room's conversation, once the stored one is consulted;
    [None] when there is nothing to project. *)
Definition created_kind (roomID kind : string) (record : option Conv.ConversationRecord)
    : result goerror (option string) :=
  match record with
  | Some record =>
      if negb (groupOrChannelConversation (Conv.Kind record)) then Ok None
      else if groupOrChannelConversation kind && negb (str_eqb kind (Conv.Kind record))
      then Err (ErrOther ("conversation kind conflict for room " +:+ roomID +:+ ": existing " +:+
                          Conv.Kind record +:+ ", create event " +:+ kind))
      else Ok (Some (Conv.Kind record))
  | None => Ok (if groupOrChannelConversation kind then Some kind else None)
  end.

Definition projectRoomCreate event : M unit :=
  match re_StateKey event with
  | Some EmptyString =>
      let! c := content_of event in
      let kind := conversationKindFromStateKind
                    (RoomState.RoomKindFromRoomType (textValue (get c "type"))) in
      match Conversations deps with
      | None => if groupOrChannelConversation kind
                then fail (not_configured "conversation projection port") else ret tt
      | Some port =>
          let roomID := re_RoomID event in
          let! record := pc_GetRecord port "" roomID in
          let! kind := reads (fun _ => created_kind roomID kind record) in
          match kind with
          | None => ret tt
          | Some kind =>
              let! _ := match record with
                        | Some _ => ret tt
                        | None =>
                            let! at_ := asks (fun w => unix_milli (eventTime event w)) in
                            pc_Save port (pending_conversation roomID kind at_)
                        end in
              let creatorMXID := validFullMXID (re_SenderID event) in
              if str_empty creatorMXID then ret tt else pc_SetCreator port roomID creatorMXID
          end
      end
  | _ => ret tt
  end.

(** ** Messages and channel content *)

Definition isAgentRoom (roomID : string) : M bool :=
  let roomID := trim_space roomID in
  asks (fun w => negb (str_empty roomID) &&
                 str_eqb roomID (trim_space (id_AgentRoomID (identity_of w)))).

(** A group or a contact of the room, if the port is there. *)
Definition found {P A} (port : option P) (f : P -> M (option A)) : M bool :=
  match port with
  | Some p => let! r := attempt (f p) in ret (bool_decide (is_Some r))
  | None => ret false
  end.

Definition shouldProjectRoomMessage (roomID : string) (c : content) : M bool :=
  if negb (str_empty (textValue (get c "p2p_kind"))) ||
     negb (str_empty (textValue (get c "channel_id"))) then ret true
  else
  let! channelID := channelIDForRoom roomID in
  if negb (str_empty channelID) then ret true
  else
  let! group := found (Groups_ deps) (fun p => pg_ByRoom p roomID) in
  if group : bool then ret true
  else found (Contacts_ deps) (fun p => pk_LookupByRoom p roomID).

Definition conversationActivityPreview (body msgType : string) : string :=
  let body := trim_space body in
  let kind := to_lower (trim_space msgType) in
  if negb (str_empty body) then body
  else if bool_decide (kind ∈ ["m.image"; "image"]) then "图片"
  else if bool_decide (kind ∈ ["m.video"; "video"]) then "视频"
  else if bool_decide (kind ∈ ["m.audio"; "audio"]) then "语音"
  else if bool_decide (kind ∈ ["m.file"; "file"]) then "文件"
  else "".

Definition with_activity (eventID : string) (at_ : Z) (message : string) (updatedAt : Z)
    (r : Conv.ConversationRecord) : Conv.ConversationRecord :=
  {| Conv.ConversationID := Conv.ConversationID r; Conv.MatrixRoomID := Conv.MatrixRoomID r;
     Conv.Kind := Conv.Kind r; Conv.Lifecycle := Conv.Lifecycle r;
     Conv.CreatedByMXID := Conv.CreatedByMXID r; Conv.PeerMXID := Conv.PeerMXID r;
     Conv.Title := Conv.Title r; Conv.AvatarURL := Conv.AvatarURL r;
     Conv.LastEventID := eventID; Conv.LastMessage := message; Conv.LastActivityAt := at_;
     Conv.ProjectionState := Conv.ProjectionState r;
     Conv.ProjectionReason := Conv.ProjectionReason r; Conv.CreatedAt := Conv.CreatedAt r;
     Conv.UpdatedAt := updatedAt |}.

Definition projectConversationActivity event (body msgType : string) : M unit :=
  with_port "conversation projection port" (Conversations deps) (fun port =>
    let! record := pc_GetRecord port "" (re_RoomID event) in
    match record with
    | None => ret tt
    | Some record =>
        let! now := asks (fun w => unix_milli (Now deps w)) in
        pc_Save port (with_activity (re_EventID event) (re_OriginServerTS event)
                        (conversationActivityPreview body msgType) now record)
    end).

Definition projection_event event (stateKey : string) (c : content) (body msgType : string)
    : ContentFlow.ProjectionEvent :=
  {| ContentFlow.ev_RoomID := re_RoomID event; ContentFlow.ev_EventID := re_EventID event;
     ContentFlow.ev_StateKey := stateKey; ContentFlow.ev_SenderMXID := re_SenderID event;
     ContentFlow.ev_OriginServerTS := re_OriginServerTS event; ContentFlow.ev_Content := c;
     ContentFlow.ev_Body := body; ContentFlow.ev_MessageType := msgType |}.

Definition no_content_module : string := "channel content module".

(** The message type: of the client, of Matrix, or [text]. *)
Definition message_type (c : content) : string :=
  let t := fallbackText (textValue (get c "client_type")) (textValue (get c "msgtype")) in
  if str_empty t then "text" else t.

Definition projectMessage event : M unit :=
  let! c := content_of event in
  let! agent := isAgentRoom (re_RoomID event) in
  if agent : bool then ret tt
  else
  let! project := shouldProjectRoomMessage (re_RoomID event) c in
  if negb project then ret tt
  else
  let body := textValue (get c "body") in
  let msgType := message_type c in
  let kind := textValue (get c "p2p_kind") in
  let! _ := if str_empty kind then projectConversationActivity event body msgType else ret tt in
  if str_eqb kind "channel_post" then
    with_port no_content_module (ChannelContent_ deps) (fun port =>
      pcc_ProjectPost port (projection_event event "" c body msgType))
  else if str_eqb kind "channel_comment" then
    with_port no_content_module (ChannelContent_ deps) (fun port =>
      pcc_ProjectComment port (projection_event event "" c body msgType))
  else ret tt.

Definition projectChannelPostSettings event : M unit :=
  with_port no_content_module (ChannelContent_ deps) (fun port =>
    let! c := content_of event in
    pcc_ProjectPostSettings port
      (projection_event event (default "" (re_StateKey event)) c "" "")).

Definition projectReaction event : M unit :=
  let! c := content_of event in
  with_port no_content_module (ChannelContent_ deps) (fun port =>
    pcc_ProjectReaction port (projection_event event "" c "" "")).

Definition removeProjectedEvent (eventID : string) : M unit :=
  if str_empty eventID then ret tt
  else with_port no_content_module (ChannelContent_ deps) (fun port =>
    let! removed := pcc_RemoveProjectedEvent port eventID in
    if negb removed then ret tt
    else appendEvent (product_event "room.redaction.projected" "" eventID
           (projectedEventDedupeKey "room.redaction.projected" eventID "")
           {["redacted_event_id" := AString eventID]})).

(** ** Direct contacts *)

Definition contactRequestRemark (c : content) : string :=
  Params.FirstString c ["remark"; "request_message"; "message"; "reason"].

(** [ContactRecord] with the fields the projector sets. *)
Definition inbound_contact (peer displayName avatarURL domain roomID remark requestID : string)
    : Contact.ContactRecord :=
  {| Contact.PeerMXID := peer; Contact.DisplayName := displayName;
     Contact.DisplayNameOverride := false; Contact.AvatarURL := avatarURL;
     Contact.Domain := domain; Contact.RoomID := roomID; Contact.Status := "pending_inbound";
     Contact.Remark := remark; Contact.RequestID := requestID |}.

Definition contactRequestFromContent (roomID sender : string) (c : content) (ownerMXID : string)
    : option Contact.ContactRecord :=
  let requester := trim_space sender in
  if str_empty requester || str_eqb requester ownerMXID then None
  else
  let target := textValue (get c "target_mxid") in
  if negb (str_empty target) && negb (str_eqb target ownerMXID) then None
  else
  let claimed := textValue (get c "requester_mxid") in
  let trusted := str_empty claimed || str_eqb claimed requester in
  let displayName := DisplayNameFromMXID requester in
  Some (inbound_contact requester
          (if trusted then fallbackText (textValue (get c "display_name")) displayName
           else displayName)
          (if trusted then textValue (get c "avatar_url") else "")
          (DomainFromMXID requester) roomID
          (if trusted then contactRequestRemark c else "") "").

Fixpoint first_some {A B} (f : A -> option B) (l : list A) : option B :=
  match l with
  | [] => None
  | x :: l => match f x with Some y => Some y | None => first_some f l end
  end.

Definition contactRequestFromInvite event identity : option Contact.ContactRecord :=
  match inviteRoomState true false event with
  | None => None
  | Some states =>
      first_some (fun state =>
        if str_eqb (is_Type state) DirextalkRoomProfileEventType &&
           str_eqb (textValue (get (is_Content state) "room_type")) DirextalkRoomTypeDirect
        then contactRequestFromContent (re_RoomID event) (re_SenderID event) (is_Content state)
               (id_OwnerMXID identity)
        else None) states
  end.

(** The member state of the requester in the invite. *)
Definition requester_state (requester : string) (state : InviteState) : option content :=
  let membership := textValue (get (is_Content state) "membership") in
  if negb (str_eqb (is_Type state) "m.room.member") ||
     negb (str_eqb (is_StateKey state) requester) && negb (str_eqb (is_Sender state) requester) ||
     negb (str_empty membership) && negb (equal_fold membership "join")
  then None else Some (is_Content state).

Definition directContactFromInvite event identity : option Contact.ContactRecord :=
  match inviteRoomState true true event with
  | None => None
  | Some states =>
      let requester := re_SenderID event in
      if str_empty requester || str_eqb requester (id_OwnerMXID identity) then None
      else
      let c := default ∅ (first_some (requester_state requester) states) in
      Some (inbound_contact requester
              (fallbackText (textValue (get c "displayname")) (DisplayNameFromMXID requester))
              (textValue (get c "avatar_url")) (DomainFromMXID requester) (re_RoomID event) "" "")
  end.

Definition reinviteAcceptedContactToRetainedRoom (contact : Contact.ContactRecord) identity
    : M bool :=
  match DirectRooms deps with
  | Some port =>
      if str_empty (trim_space (Contact.RoomID contact)) ||
         str_empty (trim_space (Contact.PeerMXID contact)) then ret true
      else
      let! disposition := pd_ReinviteAcceptedContact port contact identity in
      ret (match disposition with ReinviteReplacementRequired => false | _ => true end)
  | None => ret true
  end.

Definition replacement_contact (existing invite : Contact.ContactRecord) (roomID : string)
    : Contact.ContactRecord :=
  let filled v := negb (str_empty (trim_space v)) in
  {| Contact.PeerMXID := Contact.PeerMXID existing;
     Contact.DisplayName := if negb (Contact.DisplayNameOverride existing) &&
                               filled (Contact.DisplayName invite)
                            then Contact.DisplayName invite else Contact.DisplayName existing;
     Contact.DisplayNameOverride := Contact.DisplayNameOverride existing;
     Contact.AvatarURL := if filled (Contact.AvatarURL invite) then Contact.AvatarURL invite
                          else Contact.AvatarURL existing;
     Contact.Domain := if filled (Contact.Domain existing) then Contact.Domain existing
                       else Contact.Domain invite;
     Contact.RoomID := roomID; Contact.Status := "accepted"; Contact.Remark := "";
     Contact.RequestID := Contact.RequestID existing |}.

Definition acceptReplacementDirectInvite (contacts : ContactPort W)
    (existing invite : Contact.ContactRecord) identity : M unit :=
  let roomID := trim_space (Contact.RoomID invite) in
  if str_empty roomID then ret tt
  else
  let! roomID := match DirectRooms deps with
                 | Some port =>
                     let! joined := pd_JoinReplacementRoom port roomID identity in
                     ret (if str_empty (trim_space joined) then roomID else joined)
                 | None => ret roomID
                 end in
  pk_Save contacts (replacement_contact existing invite roomID).

(** The contacts of the peer, in order: the first that is neither deleted nor
    rejected decides. *)
Fixpoint decide_inbound (contacts : ContactPort W) (contact : Contact.ContactRecord) identity
    (l : list Contact.ContactRecord) (otherwise : M unit) : M unit :=
  match l with
  | [] => otherwise
  | existing :: l =>
      let status := trim_space (Contact.Status existing) in
      if negb (str_eqb (Contact.PeerMXID existing) (Contact.PeerMXID contact))
      then decide_inbound contacts contact identity l otherwise
      else if acceptedContact (Contact.Status existing) then
        let! retained := reinviteAcceptedContactToRetainedRoom existing identity in
        if retained : bool then ret tt
        else acceptReplacementDirectInvite contacts existing contact identity
      else if equal_fold status "pending_outbound"
      then acceptReplacementDirectInvite contacts existing contact identity
      else if negb (deletedContact (Contact.Status existing)) &&
              negb (equal_fold status "rejected") && negb (equal_fold status "reject")
      then ret tt
      else decide_inbound contacts contact identity l otherwise
  end.

Definition savePendingInboundContactForPeer (contacts : ContactPort W)
    (contact : Contact.ContactRecord) identity : M unit :=
  with_port "block projection port" (Blocks_ deps) (fun exists_ =>
    let! blocked := exists_ "contact" [Contact.PeerMXID contact] in
    if blocked : bool then ret tt
    else
    let contact := Contact.set_Status "pending_inbound" contact in
    let! all := pk_ListRaw contacts in
    decide_inbound contacts contact identity all
      (let! _ := pk_Save contacts contact in
       appendEvent (product_event "contact.requested" (Contact.RoomID contact) "" ""
         (<["room_id" := AString (Contact.RoomID contact)]>
         (<["peer_mxid" := AString (Contact.PeerMXID contact)]>
         (<["display_name" := AString (Contact.DisplayName contact)]>
         (<["avatar_url" := AString (Contact.AvatarURL contact)]>
         (<["domain" := AString (Contact.Domain contact)]>
         (<["status" := AString (Contact.Status contact)]>
           {["remark" := AString (Contact.Remark contact)]}))))))))).

Definition savePendingInboundContact (contact : Contact.ContactRecord) identity : M unit :=
  with_port "contact projection port" (Contacts_ deps) (fun contacts =>
    pk_WithPeer contacts (Contact.PeerMXID contact)
      (savePendingInboundContactForPeer contacts contact identity)).

(** ** Members *)

Definition preservePublicJoinWorkflowOnInvite (existing : Member.MemberRecord)
    (eventRequestID : string) : bool :=
  negb (str_empty (trim_space (Member.RequestID existing))) &&
  str_eqb (trim_space eventRequestID) (trim_space (Member.RequestID existing)) &&
  bool_decide (to_lower (trim_space (Member.Membership existing)) ∈
    ["pending"; "approved"; "joining"; "join_failed"; "reject"; "rejected"; "join"]).

Definition PublicJoinRequestIDContentKey := "io.dirextalk.public_join_request_id".

(** The member an event is about: an override in the content, the state key,
    or the sender. *)
Definition member_user event (c : content) : string :=
  let userID := match re_StateKey event with
                | Some key => UserIDFromStateKey key
                | None => ""
                end in
  let override := textValue (get c "user_id") in
  let userID := if str_empty override then userID else override in
  if str_empty userID then re_SenderID event else userID.

(** A marked invite of another generation than the stored one. *)
Definition stale_invite (existing : option Member.MemberRecord) (c : content) : bool :=
  let eventRequestID := textValue (get c PublicJoinRequestIDContentKey) in
  equal_fold (textValue (get c "membership")) "invite" && negb (str_empty eventRequestID) &&
  match existing with
  | Some existing => negb (str_empty (Member.RequestID existing)) &&
                     negb (str_eqb (Member.RequestID existing) eventRequestID)
  | None => false
  end.

(** The record of the event over the stored one. *)
Definition projected_member event (c : content) (userID channelID : string)
    (stored : option Member.MemberRecord) (at_ : Z) : Member.MemberRecord :=
  let existing := default (Projection.bare_member "" "" "") stored in
  let text key old := if has c key then textValue (get c key) else old in
  let role := if str_empty (textValue (get c "role")) then Member.Role existing
              else textValue (get c "role") in
  let membership := NormalizeMemberMembership (fallbackText (textValue (get c "membership"))
                      (fallbackText (Member.Membership existing) "join")) in
  let eventRequestID := textValue (get c PublicJoinRequestIDContentKey) in
  let '(membership, requestID) :=
    if equal_fold membership "invite" then
      if preservePublicJoinWorkflowOnInvite existing eventRequestID
      then (Member.Membership existing, Member.RequestID existing)
      else (membership, if str_empty eventRequestID then re_EventID event else eventRequestID)
    else (membership, Member.RequestID existing) in
  let joined := MemberMembershipJoined
    (NormalizeMemberMembership (fallbackText (textValue (get c "membership"))
       (fallbackText (Member.Membership existing) "join"))) in
  {| Member.RoomID := re_RoomID event;
     Member.ChannelID := if str_empty channelID then Member.ChannelID existing else channelID;
     Member.UserID := userID;
     Member.DisplayName := text "displayname" (Member.DisplayName existing);
     Member.AvatarURL := text "avatar_url" (Member.AvatarURL existing);
     Member.Domain := fallbackText (Member.Domain existing) (DomainFromMXID userID);
     Member.Membership := membership; Member.Role := fallbackText role "member";
     Member.Muted := if has c "muted" then boolValue (get c "muted") else Member.Muted existing;
     Member.JoinedAt := if (Member.JoinedAt existing =? 0) ||
                           joined && negb (MemberMembershipJoined (Member.Membership existing))
                        then at_ else Member.JoinedAt existing;
     Member.RequesterNodeBaseURL := Member.RequesterNodeBaseURL existing;
     Member.RequestID := requestID |}.

(** The contact of an invite into a direct room, if it is one. *)
Definition inbound_of_invite event (c : content) identity : option Contact.ContactRecord :=
  let requested contact := Contact.set_RequestID (re_EventID event) contact in
  match contactRequestFromInvite event identity with
  | Some contact => Some (requested contact)
  | None =>
      if boolValue (get c "is_direct")
      then Some (match directContactFromInvite event identity with
                 | Some contact => requested contact
                 | None => inbound_contact (re_SenderID event)
                             (DisplayNameFromMXID (re_SenderID event)) ""
                             (DomainFromMXID (re_SenderID event)) (re_RoomID event) ""
                             (re_EventID event)
                 end)
      else None
  end.

Definition contactAcceptProjectionPending (status : string) : bool :=
  bool_decide (to_lower (trim_space status) ∈ ["pending_inbound"; "joining"; "reject"; "rejected"]).

Definition accepted_contact (contact : Contact.ContactRecord) : Contact.ContactRecord :=
  Contact.set_Remark "" (Contact.set_Status "accepted" contact).

Definition projectOwnerDirectContactJoin (member : Member.MemberRecord) : M unit :=
  with_port "contact projection port" (Contacts_ deps) (fun contacts =>
    let! contact := pk_LookupByRoom contacts (Member.RoomID member) in
    match contact with
    | None => ret tt
    | Some contact =>
        if negb (contactAcceptProjectionPending (Contact.Status contact)) then ret tt
        else pk_WithPeer contacts (Contact.PeerMXID contact)
          (let! current := pk_LookupByRoom contacts (Member.RoomID member) in
           match current with
           | None => ret tt
           | Some current =>
               if negb (contactAcceptProjectionPending (Contact.Status current)) then ret tt
               else let! _ := pk_SaveProjectionIfCurrent contacts (accepted_contact current)
                                current in ret tt
           end)
    end).

(** The contact with what the member event tells about the peer. *)
Definition peer_contact (contact : Contact.ContactRecord) (member : Member.MemberRecord)
    (c : content) : Contact.ContactRecord :=
  let contact := if str_empty (Contact.PeerMXID contact)
                 then Contact.set_PeerMXID (Member.UserID member) contact else contact in
  let contact := if negb (str_empty (Member.DisplayName member)) &&
                    negb (Contact.DisplayNameOverride contact)
                 then Contact.set_DisplayName (Member.DisplayName member) contact else contact in
  let contact := if has c "avatar_url"
                 then Contact.set_AvatarURL (Member.AvatarURL member) contact else contact in
  let contact := if str_empty (Contact.Domain contact)
                 then Contact.set_Domain (DomainFromMXID (Member.UserID member)) contact
                 else contact in
  if equal_fold (Contact.Status contact) "pending_outbound" then accepted_contact contact
  else contact.

(** [changed]: some assignment of [peer_contact] was made. *)
Definition peer_changed (contact : Contact.ContactRecord) (member : Member.MemberRecord)
    (c : content) : bool :=
  str_empty (Contact.PeerMXID contact) ||
  negb (str_empty (Member.DisplayName member)) && negb (Contact.DisplayNameOverride contact) &&
    negb (str_eqb (Contact.DisplayName contact) (Member.DisplayName member)) ||
  has c "avatar_url" && negb (str_eqb (Contact.AvatarURL contact) (Member.AvatarURL member)) ||
  str_empty (Contact.Domain contact) ||
  equal_fold (Contact.Status contact) "pending_outbound".

Definition projectDirectContactMemberForPeer (contacts : ContactPort W)
    (member : Member.MemberRecord) (c : content) : M unit :=
  let! contact := pk_LookupByRoom contacts (Member.RoomID member) in
  match contact with
  | None => ret tt
  | Some contact =>
      if negb (str_empty (Contact.PeerMXID contact)) &&
         negb (str_eqb (Contact.PeerMXID contact) (Member.UserID member)) then ret tt
      else if negb (peer_changed contact member c) then ret tt
      else let! _ := pk_SaveProjectionIfCurrent contacts (peer_contact contact member c) contact in
           ret tt
  end.

Definition projectDirectContactMember (member : Member.MemberRecord) (c : content) : M unit :=
  with_port "contact projection port" (Contacts_ deps) (fun contacts =>
    pk_WithPeer contacts (Member.UserID member)
      (projectDirectContactMemberForPeer contacts member c)).

Definition productInviteFromInvite event : option content :=
  match inviteRoomState false false event with
  | None => None
  | Some states =>
      first_some (fun state =>
        let roomType := textValue (get (is_Content state) "room_type") in
        if str_eqb (is_Type state) DirextalkRoomProfileEventType &&
           (str_eqb roomType DirextalkRoomTypeGroup || str_eqb roomType DirextalkRoomTypeChannel)
        then Some (is_Content state) else None) states
  end.

Definition invited_group event (c : content) : Group.GroupRecord :=
  {| Group.RoomID := fallbackText (textValue (get c "room_id")) (re_RoomID event);
     Group.Name := fallbackText (textValue (get c "name")) (re_RoomID event);
     Group.Topic := textValue (get c "topic"); Group.AvatarURL := textValue (get c "avatar_url");
     Group.MemberCount := 0;
     Group.InvitePolicy := fallbackText (textValue (get c "invite_policy")) "member";
     Group.Muted := false |}.

Definition invited_channel event (c : content) (member : Member.MemberRecord) : Chan.Channel :=
  {| Chan.ChannelID := fallbackText (textValue (get c "channel_id")) (re_RoomID event);
     Chan.RoomID := fallbackText (textValue (get c "room_id")) (re_RoomID event);
     Chan.Name := fallbackText (textValue (get c "name")) (re_RoomID event);
     Chan.Description := textValue (get c "description");
     Chan.AvatarURL := textValue (get c "avatar_url");
     Chan.Visibility := fallbackText (textValue (get c "visibility")) "public";
     Chan.JoinPolicy := fallbackText (textValue (get c "join_policy")) "invite";
     Chan.ChannelType := fallbackText (textValue (get c "channel_type")) "post";
     Chan.CommentsEnabled := boolValue (get c "comments_enabled"); Chan.Muted := false;
     Chan.MemberCount := 0; Chan.PendingJoinCount := 0; Chan.IsOwned := false;
     Chan.Role := fallbackText (Member.Role member) "member"; Chan.MemberStatus := "invite" |}.

(** The member of a group or channel invite, with the room it names. *)
Definition projectProductInvite event (member : Member.MemberRecord)
    : M (option Member.MemberRecord) :=
  match productInviteFromInvite event with
  | None => ret None
  | Some c =>
      if str_eqb (textValue (get c "room_type")) DirextalkRoomTypeGroup then
        with_port "group projection port" (Groups_ deps) (fun port =>
          let group := invited_group event c in
          let! _ := pg_Save port group in
          ret (Some (Member.set_ChannelID "" (Member.set_RoomID (Group.RoomID group) member))))
      else if str_eqb (textValue (get c "room_type")) DirextalkRoomTypeChannel then
        with_port "channel projection port" (Channels_ deps) (fun port =>
          let channel := invited_channel event c member in
          let! _ := pch_SaveWithConversation port channel in
          ret (Some (Member.set_ChannelID (Chan.ChannelID channel)
                       (Member.set_RoomID (Chan.RoomID channel) member))))
      else ret None
  end.

(** An append whose error is ignored. *)
Definition best_effort (m : M unit) : M unit :=
  fun w => ((m w).1, Ok tt).

Definition member_event event (member : Member.MemberRecord) : Event.EventRecord :=
  product_event "room.member.projected" (Member.RoomID member) (re_EventID event)
    (projectedEventDedupeKey "room.member.projected" (re_EventID event) (Member.UserID member))
    (<["user_id" := AString (Member.UserID member)]>
    (<["membership" := AString (Member.Membership member)]>
      {["channel_id" := AString (Member.ChannelID member)]})).

(** What follows once the member is saved. *)
Definition after_member event (c : content) identity (member : Member.MemberRecord) : M unit :=
  let owner := str_eqb (Member.UserID member) (id_OwnerMXID identity) in
  let! invited := if equal_fold (Member.Membership member) "invite" &&
                     negb (boolValue (get c "is_direct")) && owner
                  then projectProductInvite event member else ret None in
  match invited with
  | Some updated => with_port "member projection port" (Members_ deps)
                      (fun port => pm_Save port updated)
  | None =>
      if str_empty (Member.ChannelID member) && equal_fold (Member.Membership member) "join" &&
         negb (str_empty (Member.UserID member))
      then if owner then projectOwnerDirectContactJoin member
           else projectDirectContactMember member c
      else ret tt
  end.

Definition projectMember event : M unit :=
  let! c := content_of event in
  let! identity := asks identity_of in
  let userID := member_user event c in
  let! channelID := if str_empty (textValue (get c "channel_id"))
                    then channelIDForRoom (re_RoomID event)
                    else ret (textValue (get c "channel_id")) in
  with_port "member projection port" (Members_ deps) (fun members =>
    let! stored := pm_Lookup members (re_RoomID event) userID in
    if stale_invite stored c then ret tt
    else
    let! at_ := asks (fun w => unix_milli (eventTime event w)) in
    let member := projected_member event c userID channelID stored at_ in
    match (if str_empty (Member.ChannelID member) &&
              equal_fold (Member.Membership member) "invite" &&
              str_eqb userID (id_OwnerMXID identity)
           then inbound_of_invite event c identity else None) with
    | Some contact => savePendingInboundContact contact identity
    | None =>
        let! _ := pm_Save members member in
        let! _ := best_effort (appendEvent (member_event event member)) in
        after_member event c identity member
    end).

(** ** Profiles, policies and join requests *)

Definition profile_conversation event (kind : string) (c : content) (at_ : Z)
    : Conv.ConversationRecord :=
  {| Conv.ConversationID := ""; Conv.MatrixRoomID := re_RoomID event; Conv.Kind := kind;
     Conv.Lifecycle := if boolValue (get c "dissolved") then "dissolved" else "active";
     Conv.CreatedByMXID := ""; Conv.PeerMXID := "";
     Conv.Title := fallbackText (textValue (get c "name")) (textValue (get c "display_name"));
     Conv.AvatarURL := textValue (get c "avatar_url"); Conv.LastEventID := "";
     Conv.LastMessage := ""; Conv.LastActivityAt := 0; Conv.ProjectionState := "ready";
     Conv.ProjectionReason := ""; Conv.CreatedAt := at_; Conv.UpdatedAt := at_ |}.

Definition projectConversationProfile event (kind : string) (c : content) : M unit :=
  with_port "conversation projection port" (Conversations deps) (fun port =>
    let! at_ := asks (fun w => unix_milli (eventTime event w)) in
    pc_Save port (profile_conversation event kind c at_)).

Definition markDirectContactDeleted (roomID peerMXID : string) : M unit :=
  with_port "contact projection port" (Contacts_ deps) (fun contacts =>
    let! key := if str_empty (trim_space peerMXID)
                then let! contact := pk_LookupByRoom contacts roomID in
                     ret (Contact.PeerMXID <$> contact)
                else ret (Some (trim_space peerMXID)) in
    match key with
    | None => ret tt
    | Some key =>
        pk_WithPeer contacts key
          (let! contact := pk_LookupByRoom contacts roomID in
           match contact with
           | None => ret tt
           | Some contact =>
               if negb (str_empty peerMXID) && negb (str_empty (Contact.PeerMXID contact)) &&
                  negb (str_eqb (Contact.PeerMXID contact) peerMXID) then ret tt
               else pk_Save contacts (Contact.set_Status "deleted"
                      (if str_empty peerMXID then contact
                       else Contact.set_PeerMXID peerMXID contact))
           end)
    end).

(** Who deleted the account, when the profile does not say. *)
Definition deleted_peer (profile : RoomState.RoomProfileContent) (ownerMXID : string) : string :=
  let other v := negb (str_empty v) && negb (str_eqb v ownerMXID) in
  if negb (str_empty (RoomState.DeletedMXID profile)) then RoomState.DeletedMXID profile
  else if other (RoomState.RequesterMXID profile) then RoomState.RequesterMXID profile
  else if other (RoomState.TargetMXID profile) then RoomState.TargetMXID profile
  else "".

Definition profile_changed (roomID eventID subject : string) (payload : content)
    : Event.EventRecord :=
  product_event "profile.changed" roomID eventID
    (projectedEventDedupeKey "profile.changed" eventID subject) payload.

Definition projectDirectProfileContent event (profile : RoomState.RoomProfileContent) : M unit :=
  with_port "group projection port" (Groups_ deps) (fun groups =>
    let roomID := re_RoomID event in
    let! _ := pg_Delete groups roomID in
    let! _ := if RoomState.Dissolved profile && RoomState.AccountDeleted profile
              then let! owner := asks (fun w => id_OwnerMXID (identity_of w)) in
                   markDirectContactDeleted roomID (deleted_peer profile owner)
              else ret tt in
    appendEvent (profile_changed roomID (re_EventID event) roomID
      (<["room_type" := AString DirextalkRoomTypeDirect]>
        {["dissolved" := ABool (RoomState.Dissolved profile)]}))).

Definition projectChannelProfileContent event (profile : RoomState.RoomProfileContent) : M unit :=
  with_port "channel projection port" (Channels_ deps) (fun port =>
    let roomID := re_RoomID event in
    let! channelID :=
      if str_empty (RoomState.ChannelID profile)
      then let! existing := attempt (pch_ByIDOrRoom port "" roomID) in
           ret (match existing with Some ch => Chan.ChannelID ch | None => "" end)
      else ret (RoomState.ChannelID profile) in
    let channelID := if str_empty channelID then roomID else channelID in
    let! existing := attempt (pch_ByIDOrRoom port channelID roomID) in
    if RoomState.Dissolved profile then pch_Delete port channelID
    else
    let channel := Projection.ChannelProfile roomID channelID
                     (default Rooms.Channels.zero_channel existing) (RoomState.Raw profile) in
    let! _ := pch_UpsertProjection port channel in
    appendEvent (profile_changed (Chan.RoomID channel) (re_EventID event) (Chan.ChannelID channel)
      (<["room_type" := AString DirextalkRoomTypeChannel]>
      (<["channel_id" := AString (Chan.ChannelID channel)]> {["dissolved" := ABool false]})))).

Definition zero_group : Group.GroupRecord :=
  {| Group.RoomID := ""; Group.Name := ""; Group.Topic := ""; Group.AvatarURL := "";
     Group.MemberCount := 0; Group.InvitePolicy := ""; Group.Muted := false |}.

Definition projectGroupProfileContent event (profile : RoomState.RoomProfileContent) : M unit :=
  with_port "group projection port" (Groups_ deps) (fun port =>
    let roomID := re_RoomID event in
    if RoomState.Dissolved profile then pg_Delete port roomID
    else
    let! existing := attempt (pg_ByRoom port roomID) in
    let group := Projection.GroupProfile roomID (default zero_group existing)
                   (RoomState.Raw profile) in
    let! _ := pg_Save port group in
    appendEvent (profile_changed (Group.RoomID group) (re_EventID event) (Group.RoomID group)
      (<["room_type" := AString DirextalkRoomTypeGroup]> {["dissolved" := ABool false]}))).

Definition projectRoomProfileState event : M unit :=
  let! profile := reads (fun _ => RoomState.ParseRoomProfileContent (re_Content event)) in
  let kind := conversationKindFromStateKind (RoomState.Kind profile) in
  if str_empty kind then ret tt
  else
  let! _ := if str_eqb kind "direct"
            then with_port "group projection port" (Groups_ deps)
                   (fun port => pg_Delete port (re_RoomID event))
            else ret tt in
  let! _ := projectConversationProfile event kind (RoomState.Raw profile) in
  if str_eqb kind "channel" then projectChannelProfileContent event profile
  else if str_eqb kind "group" then projectGroupProfileContent event profile
  else projectDirectProfileContent event profile.

Definition projectMemberPolicyState event : M unit :=
  let! policy := reads (fun _ =>
    RoomState.ParseMemberPolicyContent (re_Content event) (re_StateKey event)) in
  if str_empty (RoomState.mp_UserID policy) then ret tt
  else with_port "member projection port" (Members_ deps) (fun port =>
    let! stored := pm_Lookup port (re_RoomID event) (RoomState.mp_UserID policy) in
    let! now := asks (eventTime event) in
    let member := Projection.MemberPolicy (re_RoomID event) (RoomState.mp_UserID policy) stored
                    (RoomState.mp_Raw policy) now in
    let! _ := pm_Save port member in
    appendEvent (product_event "room.member_policy.projected" (Member.RoomID member)
      (re_EventID event)
      (projectedEventDedupeKey "room.member_policy.projected" (re_EventID event)
         (Member.UserID member))
      (<["user_id" := AString (Member.UserID member)]>
      (<["role" := AString (Member.Role member)]> {["muted" := ABool (Member.Muted member)]})))).

(** The guarded save of a join request's member; false when it changed nothing. *)
Definition save_join_request (port : MemberPort W) (stored : option Member.MemberRecord)
    (member : Member.MemberRecord) : M bool :=
  match stored with
  | Some expected => if bool_decide (member = expected) then ret false
                     else pm_SaveProjectionIfCurrent port member expected
  | None => pm_SaveProjectionIfAbsent port member
  end.

Definition projectJoinRequestState event : M unit :=
  let! request := reads (fun _ =>
    RoomState.ParseJoinRequestContent (re_Content event) (re_StateKey event)) in
  let userID := RoomState.jr_UserID request in
  if str_empty userID then ret tt
  else with_port "member projection port" (Members_ deps) (fun port =>
    let! stored := pm_Lookup port (re_RoomID event) userID in
    let! now := asks (eventTime event) in
    match Projection.JoinRequestMember (re_RoomID event) (RoomState.jr_ChannelID request) userID
            stored (RoomState.jr_Status request) (RoomState.jr_RequestID request) now with
    | None => ret tt
    | Some member =>
        let! saved := save_join_request port stored member in
        if negb saved then ret tt
        else appendEvent (product_event "channel.join_request.changed" (re_RoomID event)
          (re_EventID event)
          (projectedEventDedupeKey "channel.join_request.changed" (re_EventID event) userID)
          (<["user_id" := AString userID]>
            {["status" := AString (RoomState.jr_Status request)]}))
    end).

(** ** Dispatch *)

Definition has_key event : bool := bool_decide (is_Some (re_StateKey event)).

Definition ProjectRoomEvent (event : option RoomEvent) : M unit :=
  match event with
  | None => ret tt
  | Some event =>
      let t := re_Type event in
      if str_eqb t MRoomCreate then projectRoomCreate event
      else if str_eqb t "m.room.message" then projectMessage event
      else if str_eqb t "m.reaction" then projectReaction event
      else if str_eqb t "m.room.member" then
        if has_key event then projectMember event else ret tt
      else if str_eqb t DirextalkRoomProfileEventType then
        if has_key event then projectRoomProfileState event else ret tt
      else if str_eqb t DirextalkChannelPostSettingsEventType then
        if has_key event then projectChannelPostSettings event else ret tt
      else if str_eqb t DirextalkMemberPolicyEventType then
        if has_key event then projectMemberPolicyState event else ret tt
      else if str_eqb t DirextalkJoinRequestEventType then
        if has_key event then projectJoinRequestState event else ret tt
      else ret tt
  end.

Definition ProjectOutputEvent (output : OutputEvent) : M unit :=
  match (if str_eqb (oe_Type output) "redacted_event" then oe_RedactedEvent output else None) with
  | Some eventID => removeProjectedEvent eventID
  | None =>
  match (if str_eqb (oe_Type output) "new_invite_event" then oe_NewInviteEvent output else None) with
  | Some event => ProjectRoomEvent event
  | None =>
  match (if str_eqb (oe_Type output) "new_room_event" then oe_NewRoomEvent output else None) with
  | Some event => ProjectRoomEvent event
  | None => ret tt
  end
  end
  end.

End Module_.

(** ** The consumer *)

Section Consumer.
Context {W : Type} (projectOutputEvent : option (OutputEvent -> M W goerror unit)).

(** A message that does not decode is dropped; a failed projection stops the
    batch, which is then delivered again as a whole. *)
Definition processMessage (msg : option OutputEvent) (w : W) : W * bool :=
  match msg with
  | None => (w, true)
  | Some output =>
      match projectOutputEvent with
      | None => (w, false)
      | Some project =>
          match project output w with
          | (w, Ok _) => (w, true)
          | (w, Err _) => (w, false)
          end
      end
  end.

Fixpoint onMessage (msgs : list (option OutputEvent)) (w : W) : W * bool :=
  match msgs with
  | [] => (w, true)
  | msg :: msgs =>
      match processMessage msg w with
      | (w, false) => (w, false)
      | (w, true) => onMessage msgs w
      end
  end.
End Consumer.
End Projector.
