(* ===== verification/ServiceWiring.v ===== *)
(** * How the service puts the modules together

    [p2p/service.go] and [p2p/conversation_service.go]: the facts a
    conversation view is hydrated with, the contact lookup of the blocks
    module and the configuration of the contacts module, over the memory
    store.  The Matrix side of the contacts ports
    ([service_contact_direct_room_adapter.go]) is a parameter. *)

From Stdlib Require Import Ascii String ZArith Lia.
From stdpp Require Import base tactics list gmap strings.
From S2P Require Import Prelude GoStrings Values Domain Policy Action MemoryTables Workflow.
From S2P Require Import Conversation Blocks Contacts ContactWorkflows.
Local Open Scope Z_scope.
Local Open Scope go_scope.

#[export] Instance pair_block_store {S X} `{BlockStore S} : BlockStore (S * X) := {
  UpsertBlock w block := lift_store (fun s => UpsertBlock s block) w;
  DeleteBlock w targetType targetID := lift_store (fun s => DeleteBlock s targetType targetID) w;
  ListBlocks w := ListBlocks w.1;
}.

Module Wiring.
(** The service's own fields and the Matrix side of the world. *)
Record Service (X : Type) := {
  ownerMXID : string;
  profileName : string;
  profileAvatar : string;
  matrix : X;
}.
Arguments ownerMXID {X}.
Arguments profileName {X}.
Arguments profileAvatar {X}.
Arguments matrix {X}.

Section Service_.
Context `{GoRange} {X : Type}.
Local Notation world := (T.tables * Service X)%type.

(** The conversions between stored contacts or groups and their views lose no
    stored field, so the lookups return the stored records. *)
Definition serviceConversationHydrator : Conversation.Hydrator world := {|
  Conversation.ContactByRoom w room :=
    let? contact := Contacts.LookupByRoom w room in
    Ok (match contact with
        | Some c => Some (Contacts.RecordFromView (Contacts.ViewFromRecord c))
        | None => None
        end);
  Conversation.GroupByRoom w room := Ok (MemoryTables.GetGroupByRoom w.1 room);
  Conversation.ChannelByRoom w room :=
    Ok (MemoryTables.GetChannelByIDOrRoom w.1 "" (trim_space room));
  Conversation.CountJoinedMembers w room channel :=
    Ok (MemoryTables.CountJoinedMembers w.1 room channel);
  Conversation.Member_ w room user :=
    Ok (if str_empty room || str_empty user then None
        else MemoryTables.LookupMember w.1 room user);
  Conversation.OwnerMXID w := ownerMXID w.2;
|}.

Definition localContactProfileSnapshot (w : world) : LocalProfileSnapshot :=
  {| MXID := ownerMXID w.2; ProfileName := profileName w.2; ProfileAvatar := profileAvatar w.2 |}.

(** [LookupContact] of the blocks module. *)
Definition blocksLookupContact (w : world) (peerMXID : string)
    : result goerror (option Contact.ContactRecord) :=
  let? contact := Contacts.LookupByPeer w peerMXID in
  Ok (match contact with
      | Some c => Some (Contacts.RecordFromView (Contacts.ViewFromRecord c))
      | None => None
      end).

(** [CheckPeerBlocked] of the contacts module. *)
Definition contactsCheckPeerBlocked (peerMXID : string) : M world goerror bool :=
  reads (fun w => Blocks.Exists_ w "contact" [peerMXID]).

(** [DeleteGroup] of the contacts module. *)
Definition contactsDeleteGroup (roomID : string) : M world goerror unit :=
  run (fun w => (MemoryTables.DeleteGroup w.1 roomID, w.2)).

(** The Matrix adapters of the service. *)
Record MatrixPorts := {
  hasTransport : bool;
  matrixLeaveRoom : string -> M world Api.Error unit;
  acceptDirectContactRoom : Contact.ContactRecord -> list string -> M world Api.Error string;
  createContactDirectRoom : DirectRoomCreateRequest -> M world Api.Error string;
  inviteContactDirectRoom : Contact.ContactRecord -> M world Api.Error unit;
  joinContactDirectRoomTransport : DirectRoomJoinRequest -> world -> world * DirectRoomJoinOutcome;
  randomDirectRoomID : world -> world * string;
  reactivatePeerContact : PeerReactivationRequest -> M world Api.Error PeerReactivationResult;
  reactivateRetainedDirectRoom :
    LocalProfileSnapshot -> string -> string -> M world Api.Error unit;
  matrixMemberJoined : string -> string -> M world goerror bool;
}.

Definition contactsConfig (serverName : string) (ports : MatrixPorts) : Config world := {|
  ServerName := serverName;
  deleteGroup := Some contactsDeleteGroup;
  leaveRoom := Some (if hasTransport ports then matrixLeaveRoom ports else fun _ => ret tt);
  acceptRoom := Some (acceptDirectContactRoom ports);
  verifyAccepted := hasTransport ports;
  createRoom := Some (createContactDirectRoom ports);
  inviteRoom := Some (inviteContactDirectRoom ports);
  joinRoom := if hasTransport ports then Some (joinContactDirectRoomTransport ports) else None;
  newDirectRoomID := Some (randomDirectRoomID ports);
  localProfile := Some localContactProfileSnapshot;
  reactivatePeer := Some (reactivatePeerContact ports);
  reactivateRoom := Some (reactivateRetainedDirectRoom ports);
  checkPeerBlocked := Some contactsCheckPeerBlocked;
  matrixJoined := Some (matrixMemberJoined ports);
|}.
End Service_.
Arguments MatrixPorts : clear implicits.
End Wiring.
