(* ===== verification/RoomWiring.v ===== *)
(** * The service's adapters for rooms and members

    [p2p/service_groups.go], [service_channels.go], [service_member_*.go] and
    [service_room_reactivation.go]: how the channels, groups and members
    modules reach the store and Matrix.  The Matrix transport is a record of
    ports and may be absent; joining a retained room, completing an approved
    request and the calls to other nodes are ports too. *)

From Stdlib Require Import Ascii String ZArith Lia.
From stdpp Require Import base tactics list gmap strings.
From S2P Require Import Prelude GoStrings Values Domain Policy Action MemoryTables Workflow.
From S2P Require Import GoTime RoomState OperationIdentity Conversation Blocks Contacts.
From S2P Require Import Rooms RoomWorkflows Members MemberWorkflows ServiceWiring.
Import Members.
Local Open Scope Z_scope.
Local Open Scope go_scope.

(** [historyVisibilityStateEvent] *)
Definition historyVisibilityStateEvent (visibility : string) : RoomState.StateEvent :=
  {| RoomState.Type_ := "m.room.history_visibility"; RoomState.StateKey := "";
     RoomState.EvContent := {["history_visibility" := AString visibility]} |}.

Definition roomProfileForGroup (group : Group.GroupRecord) (dissolved : bool)
    : RoomState.StateEvent :=
  RoomState.GroupRoomProfile
    {| RoomState.gp_RoomID := Group.RoomID group; RoomState.gp_Name := Group.Name group;
       RoomState.gp_Topic := Group.Topic group; RoomState.gp_AvatarURL := Group.AvatarURL group;
       RoomState.gp_InvitePolicy := Group.InvitePolicy group;
       RoomState.gp_Muted := Group.Muted group |} dissolved.

Definition dirextalkRoomType (kind : string) : string :=
  let kind := to_lower (trim_space kind) in
  if bool_decide (kind ∈ ["direct"; "dm"; "contact"]) then DirextalkRoomTypeDirect
  else if str_eqb kind "group" then DirextalkRoomTypeGroup
  else if str_eqb kind "channel" then DirextalkRoomTypeChannel
  else "".

(** The fields the product sets of a [CreateRoomRequest]. *)
Record CreateRoomRequest := {
  cr_Name : string;
  cr_Topic : string;
  cr_Visibility : string;
  cr_RoomType : string;
  cr_IsDirect : bool;
  cr_InitialState : list RoomState.StateEvent;
  cr_CreatorMXID : string;
  cr_CreatorDisplayName : string;
  cr_CreatorAvatarURL : string;
}.

(** [dirextalktransport.Transport], as far as these adapters use it;
    [ReadRoomCreator] and [JoinedRoomReady] are optional interfaces. *)
Record Transport (W : Type) := {
  SendStateEvent : string -> string -> RoomState.StateEvent -> M W goerror unit;
  TransportCreateRoom : CreateRoomRequest -> M W goerror string;
  KickUser : string -> string -> string -> string -> M W goerror unit;
  LeaveRoom : string -> string -> M W goerror unit;
  GetRoomChannel : string -> M W goerror (option Chan.Channel);
  ListRoomMembers : string -> M W goerror (list Member.MemberRecord);
  ReadRoomCreator : option (string -> M W goerror string);
  JoinedRoomReady : option (string -> string -> M W goerror bool);
}.
Arguments SendStateEvent {W}.
Arguments TransportCreateRoom {W}.
Arguments KickUser {W}.
Arguments LeaveRoom {W}.
Arguments GetRoomChannel {W}.
Arguments ListRoomMembers {W}.
Arguments ReadRoomCreator {W}.
Arguments JoinedRoomReady {W}.

Definition transportWriteError (err : goerror) : Api.Error :=
  match err with
  | PolicyError code message => Api.StatusError (if code <=? 0 then 403 else code) message
  | _ => Api.InternalError (error_text err)
  end.

(** An error of the transport as the error of an action. *)
Definition transported {W A} (m : M W goerror A) : M W Api.Error A :=
  fun w => match m w with
           | (w, Ok a) => (w, Ok a)
           | (w, Err e) => (w, Err (transportWriteError e))
           end.

(** [errors.New(apiErr.Error)] *)
Definition as_goerror {W A} (m : M W Api.Error A) : M W goerror A :=
  fun w => match m w with
           | (w, Ok a) => (w, Ok a)
           | (w, Err e) => (w, Err (ErrOther (Api.Error_ e)))
           end.

(** [domainFromMatrixID]: what follows the first colon after the sigil. *)
Definition domainFromMatrixID (id sigil : string) : string :=
  match cut ":" (trim_prefix id sigil) with
  | Some (_, domain) => domain
  | None => ""
  end.

(** Fields a fresh channel lacks come from the stored one. *)
Definition mergeRefreshedChannel (ch existing : Chan.Channel) : Chan.Channel :=
  let or field := Contacts.or_given (field ch) (field existing) in
  {| Chan.ChannelID := Chan.ChannelID ch; Chan.RoomID := Chan.RoomID ch; Chan.Name := or Chan.Name;
     Chan.Description := or Chan.Description; Chan.AvatarURL := or Chan.AvatarURL;
     Chan.Visibility := or Chan.Visibility; Chan.JoinPolicy := or Chan.JoinPolicy;
     Chan.ChannelType := or Chan.ChannelType;
     Chan.CommentsEnabled := Chan.CommentsEnabled ch || Chan.CommentsEnabled existing;
     Chan.Muted := Chan.Muted ch || Chan.Muted existing; Chan.MemberCount := Chan.MemberCount ch;
     Chan.PendingJoinCount := Chan.PendingJoinCount ch; Chan.IsOwned := Chan.IsOwned ch;
     Chan.Role := Chan.Role ch; Chan.MemberStatus := Chan.MemberStatus ch |}.

Definition mergeRefreshedMember (member existing : Member.MemberRecord) : Member.MemberRecord :=
  Member.set_Muted (Member.Muted member || Member.Muted existing)
  (Member.set_Domain (Contacts.or_given (Member.Domain member) (Member.Domain existing))
  (Member.set_AvatarURL (Contacts.or_given (Member.AvatarURL member) (Member.AvatarURL existing))
  (Member.set_DisplayName
     (Contacts.or_given (Member.DisplayName member) (Member.DisplayName existing)) member))).

Module RoomWiring.
Import Wiring.
Section Service_.
Context `{GoRange} `{MatrixIDs} {X B : Type}.
Local Notation world := (T.tables * Service X)%type.
Context (serverName : string) (transport : option (Transport world)).
(** [time.Now()] in nanoseconds. *)
Context (now : world -> Z).
(** [randomToken] *)
Context (randomToken : string -> world -> world * string).

Definition clock (w : world) : Z := unix_milli (now w).

(** ** Persistence *)

Definition save_member (member : Member.MemberRecord) : M world goerror unit :=
  fun w => store_step (fun s => saveMember (clock w) s member) w.

Definition save_member_generation (member : Member.MemberRecord)
    (expectedRequestID expectedMembership : string) : M world goerror bool :=
  fun w => store_step (fun s =>
    saveMemberIfState (clock w) s member expectedRequestID expectedMembership) w.

Definition lookup_member (roomID userID : string) : M world goerror (option Member.MemberRecord) :=
  asks (fun w => lookupMember w.1 roomID userID).

Definition owner_member (w : world) (roomID channelID : string) : Member.MemberRecord :=
  {| Member.RoomID := roomID; Member.ChannelID := channelID; Member.UserID := ownerMXID w.2;
     Member.DisplayName := profileName w.2; Member.AvatarURL := profileAvatar w.2;
     Member.Domain := serverName; Member.Membership := "join"; Member.Role := "owner";
     Member.Muted := false; Member.JoinedAt := clock w; Member.RequesterNodeBaseURL := "";
     Member.RequestID := "" |}.

Definition saveOwnerMember (roomID channelID : string) : M world goerror unit :=
  fun w => save_member (owner_member w roomID channelID) w.

(** ** Rooms *)

Definition ensureProductRoom (kind : string) (req : CreateRoomRequest) : M world Api.Error string :=
  match transport with
  | Some t =>
      fun w => internal (TransportCreateRoom t
        {| cr_Name := cr_Name req; cr_Topic := cr_Topic req; cr_Visibility := cr_Visibility req;
           cr_RoomType := Contacts.or_given (cr_RoomType req) (dirextalkRoomType kind);
           cr_IsDirect := cr_IsDirect req;
           cr_InitialState := cr_InitialState req; cr_CreatorMXID := ownerMXID w.2;
           cr_CreatorDisplayName := Contacts.or_given (cr_CreatorDisplayName req) (profileName w.2);
           cr_CreatorAvatarURL := Contacts.or_given (cr_CreatorAvatarURL req) (profileAvatar w.2) |}) w
  | None =>
      fun w => let '(w, token) := randomToken "room" w in
               (w, Ok ("!" +:+ kind +:+ "-" +:+ token +:+ ":" +:+ serverName))
  end.

Definition createGroupRoom (group : Group.GroupRecord) : M world Api.Error string :=
  ensureProductRoom "group"
    {| cr_Name := Group.Name group; cr_Topic := Group.Topic group; cr_Visibility := "private";
       cr_RoomType := DirextalkRoomTypeGroup; cr_IsDirect := false;
       cr_InitialState := [historyVisibilityStateEvent "joined"; roomProfileForGroup group false];
       cr_CreatorMXID := ""; cr_CreatorDisplayName := ""; cr_CreatorAvatarURL := "" |}.

Definition createChannelRoom (ch : Chan.Channel) : M world Api.Error string :=
  ensureProductRoom "channel"
    {| cr_Name := Chan.Name ch; cr_Topic := Chan.Description ch;
       cr_Visibility := Chan.Visibility ch; cr_RoomType := DirextalkRoomTypeChannel;
       cr_IsDirect := false;
       cr_InitialState := [historyVisibilityStateEvent "shared";
                           RoomState.ChannelRoomProfile ch false];
       cr_CreatorMXID := ""; cr_CreatorDisplayName := ""; cr_CreatorAvatarURL := "" |}.

(** A state event of the room sent by the local owner. *)
Definition publish (roomID : string) (event : RoomState.StateEvent) : M world goerror unit :=
  match transport with
  | None => ret tt
  | Some t => if str_empty (trim_space roomID) then ret tt
              else fun w => SendStateEvent t roomID (ownerMXID w.2) event w
  end.

Definition publishGroupState (group : Group.GroupRecord) (dissolved : bool)
    : M world goerror unit :=
  publish (Group.RoomID group) (roomProfileForGroup group dissolved).

Definition publishChannelState (ch : Chan.Channel) (dissolved : bool) : M world goerror unit :=
  publish (Chan.RoomID ch) (RoomState.ChannelRoomProfile ch dissolved).

Definition publishChannelHistoryVisibilityState (ch : Chan.Channel) : M world goerror unit :=
  publish (Chan.RoomID ch) (historyVisibilityStateEvent "shared").

Definition publishMemberPolicyState (member : Member.MemberRecord) : M world Api.Error unit :=
  if str_empty (trim_space (Member.UserID member)) then ret tt
  else fun w => if str_empty (trim_space (ownerMXID w.2)) then (w, Ok tt)
                else internal (publish (Member.RoomID member)
                                 (RoomState.MemberPolicyState member)) w.

Definition publishJoinRequestState (roomID userID status reason requestID : string)
    : M world Api.Error unit :=
  if negb (bool_decide (is_Some transport)) || str_empty (trim_space roomID) ||
     str_empty (trim_space userID)
  then ret tt
  else
    let status := to_lower (trim_space status) in
    if negb (bool_decide (status ∈ ["pending"; "approved"; "rejected"]))
    then fail (Api.BadRequest "invalid join request status")
    else fun w => if str_empty (trim_space (ownerMXID w.2)) then (w, Ok tt)
                  else internal (publish roomID
                         (RoomState.JoinRequestState roomID userID status reason requestID
                            (now w))) w.

(** One member of [setProductMemberMute]. *)
Definition mute_member (muted : bool) (member : Member.MemberRecord) : M world goerror unit :=
  if MemberHidden (Member.Membership member) || ProductOwnerRole (Member.Role member) then ret tt
  else
    let member := Member.set_Muted muted member in
    let! _ := save_member member in
    as_goerror (publishMemberPolicyState member).

Definition setProductMemberMute (roomID channelID : string) (muted : bool)
    : M world goerror unit :=
  let! members := asks (fun w => MemoryTables.ListMembers w.1 roomID channelID) in
  for_each (mute_member muted) members.

Definition fetchRoomChannel (roomID : string) : M world Api.Error (option Chan.Channel) :=
  match transport with
  | None => ret None
  | Some t => fun w =>
      match GetRoomChannel t roomID w with
      | (w, Ok channel) => (w, Ok channel)
      | (w, Err e) =>
          let roomServer := domainFromMatrixID roomID "!" in
          if negb (str_empty roomServer) && negb (str_eqb roomServer serverName)
          then (w, Err (Api.StatusError 404 "channel not found"))
          else (w, Err (Api.InternalError (error_text e)))
      end
  end.

(** The owners of the channels of this server, repaired at start. *)
Definition repair_owner (ch : Chan.Channel) : M world goerror unit :=
  fun w =>
    if negb (equal_fold (domainFromMatrixID (Chan.RoomID ch) "!") serverName) then (w, Ok tt)
    else match MemoryTables.LookupMember w.1 (Chan.RoomID ch) (ownerMXID w.2) with
         | None => saveOwnerMember (Chan.RoomID ch) (Chan.ChannelID ch) w
         | Some member =>
             if MemberHidden (Member.Membership member) || ProductOwnerRole (Member.Role member)
             then (w, Ok tt)
             else save_member (Member.set_Role "owner" (Member.set_ChannelID
                    (RoomState.fallbackString (Member.ChannelID member) (Chan.ChannelID ch))
                    member)) w
         end.

Definition repairLocalChannelOwnerRoles : M world goerror unit :=
  fun w => if str_empty (trim_space (ownerMXID w.2)) then (w, Ok tt)
           else for_each repair_owner (MemoryTables.ListChannels w.1) w.

(** ** Members *)

Definition kickMember (roomID senderMXID targetMXID reason : string) : M world Api.Error unit :=
  match transport with
  | None => ret tt
  | Some t => transported (KickUser t roomID senderMXID targetMXID reason)
  end.

Definition leaveMember (roomID userMXID : string) : M world Api.Error unit :=
  match transport with
  | None => ret tt
  | Some t => transported (LeaveRoom t roomID userMXID)
  end.

Definition rejectIfBlocked (targetType : string) (identifiers : list string)
    : M world Api.Error unit :=
  let! blocked := internal (reads (fun w => Blocks.Exists_ w targetType identifiers)) in
  if blocked : bool then fail (Api.StatusError 403 "already blocked") else ret tt.

Definition matrixMemberJoined (roomID userID : string) : M world goerror bool :=
  match transport with
  | None => ret false
  | Some t =>
      if str_empty (trim_space roomID) || str_empty (trim_space userID) then ret false
      else match JoinedRoomReady t with
           | Some ready => ready roomID userID
           | None =>
               let! members := ListRoomMembers t roomID in
               ret (existsb (fun m => str_eqb (Member.UserID m) userID &&
                                      equal_fold (trim_space (Member.Membership m)) "join") members)
           end
  end.

Definition set_creator (roomID creatorMXID : string) : M world goerror unit :=
  fun w => Conversation.SetCreator w roomID creatorMXID.

Definition resolveRoomOwner (roomID : string) : M world goerror string :=
  let roomID := trim_space roomID in
  if str_empty roomID then ret ""
  else
    let! record := reads (fun w => Conversation.GetRecord w "" roomID) in
    match record with
    | None => ret ""
    | Some record =>
        let stored := trim_space (Conv.CreatedByMXID record) in
        if negb (str_eqb (Conv.Kind record) "group" || str_eqb (Conv.Kind record) "channel")
        then ret ""
        else match transport with
             | None => ret stored
             | Some t =>
                 match ReadRoomCreator t with
                 | None =>
                     let! _ := if str_empty stored then ret tt else set_creator roomID "" in
                     ret ""
                 | Some read =>
                     let! creator := read roomID in
                     let creator := trim_space creator in
                     let! _ := if str_eqb stored creator then ret tt
                               else set_creator roomID creator in
                     ret creator
                 end
             end
    end.

(** [shareRoomMembersForInviteGrant]: a Matrix member replaces the stored
    one, with the profile the stored one has. *)
Definition share_member (shareRoomID : string) (member : Member.MemberRecord)
    : Member.MemberRecord :=
  Member.set_Role (Contacts.or_given (Member.Role member) "member")
  (Member.set_Membership (Contacts.or_given (Member.Membership member) "join")
  (Member.set_ChannelID "" (Member.set_RoomID shareRoomID member))).

(** [byUserID] keeps the last index of a user, and the index of an appended
    member. *)
Definition index_of (userID : string) (members : list Member.MemberRecord) : option nat :=
  foldl (fun found '(i, m) => if str_eqb (Member.UserID m) userID then Some i else found)
    None (imap (fun i m => (i, m)) members).

Definition merge_matrix_member (shareRoomID : string) (members : list Member.MemberRecord)
    (member : Member.MemberRecord) : list Member.MemberRecord :=
  if str_empty (Member.UserID member) then members
  else
    let member := share_member shareRoomID member in
    match index_of (Member.UserID member) members with
    | Some i =>
        match members !! i with
        | Some existing => <[i := mergeRefreshedMember member existing]> members
        | None => members
        end
    | None => members ++ [member]
    end.

Definition shareRoomMembersForInviteGrant (shareRoomID : string)
    : M world goerror (list Member.MemberRecord) :=
  let! members := asks (fun w => MemoryTables.ListMembers w.1 shareRoomID "") in
  match transport with
  | None => ret members
  | Some t =>
      if str_empty shareRoomID then ret members
      else
        let! matrixMembers := ListRoomMembers t shareRoomID in
        ret (SortByOwnerThenJoinOrder
               (foldl (merge_matrix_member shareRoomID) members matrixMembers) "")
  end.

(** ** Metadata of a retained room *)

Definition save_group (record : Group.GroupRecord) : M world goerror unit :=
  fun w => store_step (fun s => Groups.Save (clock w) s (Groups.ViewFromRecord (B:=unit) record)) w.

Definition save_channel (channel : Chan.Channel) : M world goerror unit :=
  fun w => store_step (fun s => Channels.Save (clock w) s channel) w.

Definition joined_group (stored : option Group.GroupRecord) (member : Member.MemberRecord)
    (params : content) : Group.GroupRecord :=
  let get := Params.get_string params in
  let fallback := RoomState.fallbackString in
  let name := fallback (get "name") (fallback (get "group_name") (get "room_name")) in
  match stored with
  | None =>
      {| Group.RoomID := Member.RoomID member; Group.Name := fallback name (Member.RoomID member);
         Group.Topic := get "topic"; Group.AvatarURL := get "avatar_url"; Group.MemberCount := 1;
         Group.InvitePolicy := fallback (get "invite_policy") "member"; Group.Muted := false |}
  | Some group =>
      {| Group.RoomID := Group.RoomID group;
         Group.Name := Contacts.replaced_by (Group.Name group) name;
         Group.Topic := given params "topic" (Group.Topic group);
         Group.AvatarURL := given params "avatar_url" (Group.AvatarURL group);
         Group.MemberCount := if Group.MemberCount group =? 0 then 1 else Group.MemberCount group;
         Group.InvitePolicy := Group.InvitePolicy group; Group.Muted := Group.Muted group |}
  end.

Definition ensureJoinedGroupRecord (member : Member.MemberRecord) (params : content)
    : M world goerror unit :=
  if str_empty (Member.RoomID member) then ret tt
  else
    let! stored := asks (fun w => MemoryTables.GetGroupByRoom w.1 (Member.RoomID member)) in
    save_group (joined_group stored member params).

(** The channel of a retained room before the stored one is merged in. *)
Definition retained_channel (memberStatus : string) (member : Member.MemberRecord)
    (params : content) : Chan.Channel :=
  let get := Params.get_string params in
  let fallback := RoomState.fallbackString in
  {| Chan.ChannelID := fallback (Member.ChannelID member) (Member.RoomID member);
     Chan.RoomID := Member.RoomID member; Chan.Name := fallback (get "name") (Member.RoomID member);
     Chan.Description := get "description"; Chan.AvatarURL := get "avatar_url";
     Chan.Visibility := fallback (get "visibility") "private";
     Chan.JoinPolicy := fallback (get "join_policy") "invite";
     Chan.ChannelType := fallback (get "channel_type") "post";
     Chan.CommentsEnabled := Params.get_bool params "comments_enabled"; Chan.Muted := false;
     Chan.MemberCount := 0; Chan.PendingJoinCount := 0; Chan.IsOwned := false;
     Chan.Role := fallback (Member.Role member) "member"; Chan.MemberStatus := memberStatus |}.

Definition saveRetainedRoomInviteMetadata (scope : string) (member : Member.MemberRecord)
    (params : content) : M world Api.Error unit :=
  if str_eqb scope "group" then internal (ensureJoinedGroupRecord member params)
  else if str_eqb scope "channel" then
    let memberStatus := if equal_fold (trim_space (Member.Membership member)) "join"
                        then "join" else "invite" in
    let ch := retained_channel memberStatus member params in
    let! existing := asks (fun w => Channels.ByIDOrRoom w.1 (Chan.ChannelID ch) (Chan.RoomID ch)) in
    internal (save_channel (match existing with
                            | Some existing => mergeRefreshedChannel ch existing
                            | None => ch
                            end))
  else ret tt.

(** ** The modules' configurations ([service.go]) *)

(** Joining, completion, invitations and other nodes. *)
Record MemberPorts := {
  joinAndProjectRetainedRoom : string -> Member.MemberRecord -> content ->
    world -> world * Member.MemberRecord * option Api.Error;
  completeChannelJoinRequest : bool -> Member.MemberRecord -> content -> M world Api.Error Reply.t;
  prepareMemberInvite : string -> string -> string ->
    M world Api.Error (MemberFlow.InviteSender world);
  remoteChannelJoinRequest : content -> M world Api.Error (option Reply.t);
  emitJoinRequestChanged : Member.MemberRecord -> string -> world -> world;
}.

Definition token (prefix kind : string) (w : world) : world * string :=
  let '(w, token) := randomToken kind w in (w, prefix +:+ token).

Definition membersConfig (ports : MemberPorts) : MemberFlow.Config world := {|
  MemberFlow.ListMembers roomID channelID :=
    asks (fun w => MemoryTables.ListMembers w.1 roomID channelID);
  MemberFlow.UpsertChannelInviteGrant grant :=
    run (fun w => (MemoryTables.UpsertChannelInviteGrant w.1 grant, w.2));
  MemberFlow.ListChannelInviteGrants := asks (fun w => MemoryTables.ListChannelInviteGrants w.1);
  MemberFlow.ResolveTarget raw := asks (fun w => memberTarget w.1 raw);
  MemberFlow.NewMember := memberRecordFor;
  MemberFlow.LookupMember := lookup_member;
  MemberFlow.SaveMember := save_member;
  MemberFlow.SaveMemberGeneration := save_member_generation;
  MemberFlow.PublishPolicy := publishMemberPolicyState;
  MemberFlow.Operation action status roomID :=
    reads (fun w => Conversation.Operation serviceConversationHydrator w action status roomID);
  MemberFlow.ResolveRoomOwner := resolveRoomOwner;
  MemberFlow.OwnerMXID w := ownerMXID w.2;
  MemberFlow.KickMember := kickMember;
  MemberFlow.LeaveMember := leaveMember;
  MemberFlow.PublishJoinRequest := publishJoinRequestState;
  MemberFlow.CompleteJoinRequest := completeChannelJoinRequest ports;
  MemberFlow.LookupChannel channelID roomID :=
    asks (fun w => Channels.ByIDOrRoom w.1 channelID roomID);
  MemberFlow.RequireOwner roomID :=
    reads (fun w => requireOwnerMember w.1 (ownerMXID w.2) roomID);
  MemberFlow.RejectBlocked := rejectIfBlocked;
  MemberFlow.PrepareInvite := prepareMemberInvite ports;
  MemberFlow.ShareRoomMembers := shareRoomMembersForInviteGrant;
  MemberFlow.ChannelSnapshot channelID w := (w, Channels.Snapshot w.1 channelID);
  MemberFlow.ApplyLocalProfile member w :=
    applyLocalOwnerMemberProfile (ownerMXID w.2) (profileName w.2) (profileAvatar w.2) serverName
      member;
  MemberFlow.MatrixJoined := matrixMemberJoined;
  MemberFlow.JoinRetained := joinAndProjectRetainedRoom ports;
  MemberFlow.SaveRetainedMetadata := saveRetainedRoomInviteMetadata;
  MemberFlow.ForwardPublicJoinRequest := remoteChannelJoinRequest ports;
  MemberFlow.EmitJoinRequestChanged := emitJoinRequestChanged ports;
  MemberFlow.NewGrantID := token "grant_" "channel_invite";
  MemberFlow.NewRequestID := token "request_" "channel_join";
  MemberFlow.Now := clock;
|}.

Record ChannelPorts := {
  remotePublicChannelGet : string -> string -> content -> M world Api.Error (option Chan.Channel);
  remoteUserPublicChannels : string -> content -> M world Api.Error (string * list Chan.Channel);
  matrixRoomIDQuery : string -> bool;
}.

Definition channelsConfig (ports : ChannelPorts) : ChannelFlow.Config world := {|
  ChannelFlow.NewChannelID := token "ch_" "channel";
  ChannelFlow.CreateRoom := createChannelRoom;
  ChannelFlow.SaveOwnerMember := saveOwnerMember;
  ChannelFlow.PublishState := publishChannelState;
  ChannelFlow.PublishHistory := publishChannelHistoryVisibilityState;
  ChannelFlow.SetMemberMute roomID channelID muted :=
    internal (setProductMemberMute roomID channelID muted);
  ChannelFlow.RequireOwner roomID :=
    reads (fun w => requireOwnerMember w.1 (ownerMXID w.2) roomID);
  ChannelFlow.OwnerMXID w := ownerMXID w.2;
  ChannelFlow.RemotePublicGet := remotePublicChannelGet ports;
  ChannelFlow.FetchRoomChannel := fetchRoomChannel;
  ChannelFlow.RemoteUserChannels := remoteUserPublicChannels ports;
  ChannelFlow.IsMatrixRoomID := matrixRoomIDQuery ports;
|}.

(** The group agent is a port ([service_group_agent.go]). *)
Record AgentPorts := {
  createGroupAgentBinding : string -> bool -> world -> world * option B * option Api.Error;
  invalidateGroupAgent : string -> M world goerror unit;
}.

Definition groupsConfig (ports : AgentPorts) : GroupFlow.Config world B := {|
  GroupFlow.CreateRoom := createGroupRoom;
  GroupFlow.SaveOwnerMember roomID := saveOwnerMember roomID "";
  GroupFlow.PublishState := publishGroupState;
  GroupFlow.SetMemberMute roomID muted := internal (setProductMemberMute roomID "" muted);
  GroupFlow.RequireOwner roomID :=
    reads (fun w => requireOwnerMember w.1 (ownerMXID w.2) roomID);
  GroupFlow.OwnerMXID w := ownerMXID w.2;
  GroupFlow.CreateAgentBinding := createGroupAgentBinding ports;
  GroupFlow.BeforeDissolve := invalidateGroupAgent ports;
|}.
End Service_.
Arguments MemberPorts : clear implicits.
Arguments ChannelPorts : clear implicits.
Arguments AgentPorts : clear implicits.
End RoomWiring.
