(* ===== verification/ContentWiring.v ===== *)
(** * Channel content in the service

    The memory store as the content store of the module, the ports the service
    gives it ([p2p/service.go]) and the public post listing with its remote
    form ([p2p/service_channels.go]). *)

From Stdlib Require Import Ascii String ZArith Lia.
From stdpp Require Import base tactics list gmap strings.
From S2P Require Import Prelude GoStrings Values Domain GoTime Policy Action RoomState.
From S2P Require Import MemoryTables ChannelContent Workflow RemotePublic Prepared.
From S2P Require Import Conversation Blocks Contacts ContactWorkflows Rooms RoomWorkflows.
From S2P Require Import Members MemberWorkflows Content ContentFlow ServiceWiring RoomWiring.
Local Open Scope Z_scope.
Local Open Scope go_scope.

Module ContentWiring.
Import Members Wiring.
Section Service_.
Context `{GoRange} `{GoText} {X : Type}.
(** The tables of posts and comments are part of the memory store; the rest of
    the world is [X]. *)
Local Notation world := (T.tables * Service (ChannelContent.store * X))%type.

Definition content_of (w : world) : ChannelContent.store := (matrix w.2).1.

Definition set_content (c : ChannelContent.store) (w : world) : world :=
  (w.1, {| ownerMXID := ownerMXID w.2; profileName := profileName w.2;
           profileAvatar := profileAvatar w.2; matrix := (c, (matrix w.2).2) |}).

(** A change of posts and comments. *)
Definition writes_content (f : ChannelContent.store -> ChannelContent.store)
    : M world goerror unit :=
  run (fun w => set_content (f (content_of w)) w).

Definition removes_content (f : ChannelContent.store -> ChannelContent.store * bool)
    : M world goerror bool :=
  fun w => let '(c, removed) := f (content_of w) in (set_content c w, Ok removed).

(** A page; a slice bound out of range is a panic. *)
Definition page_or_panic {A} (f : ChannelContent.store -> option A) : M world goerror A :=
  reads (fun w => match f (content_of w) with
                  | Some page => Ok page
                  | None => Err (ErrOther "slice bounds out of range")
                  end).

Definition memory_content_store : ContentStore world := {|
  cs_InsertChannelPost post := writes_content (fun c => ChannelContent.InsertChannelPost c post);
  cs_ApplyChannelPostSettings settings :=
    writes_content (fun c => ChannelContent.ApplyChannelPostSettings c settings);
  cs_GetChannelPostByID postID channelID :=
    asks (fun w => ChannelContent.GetChannelPostByID (content_of w) postID channelID);
  cs_GetChannelPostByEventID eventID channelID :=
    asks (fun w => ChannelContent.GetChannelPostByEventID (content_of w) eventID channelID);
  cs_ListChannelPosts channelID :=
    asks (fun w => ChannelContent.ListChannelPosts (content_of w) channelID);
  cs_ListChannelPostsPage channelID fromTS snapshotTS cursorTS cursorID limit :=
    asks (fun w => ChannelContent.ListChannelPostsPage (content_of w) channelID fromTS snapshotTS
                     cursorTS cursorID limit);
  cs_ListChannelPostsOffsetPage channelID offset limit :=
    page_or_panic (fun c => ChannelContent.ListChannelPostsOffsetPage c channelID offset limit);
  cs_ListChannelPostsByVisibilityPage channelID visibility offset limit :=
    page_or_panic (fun c =>
      ChannelContent.ListChannelPostsByVisibilityPage c channelID visibility offset limit);
  cs_InsertChannelComment comment :=
    writes_content (fun c => ChannelContent.InsertChannelComment c comment);
  cs_GetChannelCommentByID commentID postID :=
    asks (fun w => ChannelContent.GetChannelCommentByID (content_of w) commentID postID);
  cs_GetChannelCommentByEventID eventID channelID :=
    asks (fun w => ChannelContent.GetChannelCommentByEventID (content_of w) eventID channelID);
  cs_ListChannelComments postID :=
    asks (fun w => ChannelContent.ListChannelComments (content_of w) postID);
  cs_ListChannelCommentsPage postID fromTS snapshotTS cursorTS cursorID limit :=
    asks (fun w => ChannelContent.ListChannelCommentsPage (content_of w) postID fromTS snapshotTS
                     cursorTS cursorID limit);
  cs_DeleteChannelPost postID :=
    removes_content (fun c => ChannelContent.DeleteChannelPost c postID);
  cs_DeleteChannelComment commentID :=
    removes_content (fun c => ChannelContent.DeleteChannelComment c commentID);
  cs_UpsertReaction reaction := run (fun w => (MemoryTables.UpsertReaction w.1 reaction, w.2));
  cs_GetReaction targetType targetID reaction userID :=
    asks (fun w => MemoryTables.GetReaction w.1 targetType targetID reaction userID);
  cs_DeactivateReactionByEventID eventID := fun w =>
    let '(s, found) := MemoryTables.DeactivateReactionByEventID w.1 eventID in
    ((s, w.2), Ok found);
  cs_CountActiveReactions targetType targetID reaction :=
    asks (fun w => MemoryTables.CountActiveReactions w.1 targetType targetID reaction);
  cs_ListReactions userID := asks (fun w => MemoryTables.ListReactions w.1 userID);
|}.

Context (serverName : string) (now : world -> Z).
Context (randomToken : string -> world -> world * string).
Context (transport : option (MatrixContentPort world)) (preparedMatrixStore : option (PreparedStore world)).
(** [OnlineAgentIdentity(s.agentConfig).DisplayName] *)
Context (agentDisplayName : world -> string).

Definition content_catalog : ChannelCatalog world := {|
  cc_ByIDOrRoom channelID roomID := asks (fun w => Channels.ByIDOrRoom w.1 channelID roomID);
  cc_WithCurrentCounts channel := fun w =>
    store_step (fun s => Channels.WithCurrentCounts (unix_milli (now w)) s channel) w;
|}.

Definition content_conversation : ContentConversationPort world := {|
  cv_Operation action status roomID :=
    reads (fun w => Conversation.Operation serviceConversationHydrator w action status roomID);
  cv_AttachOperation reply action status roomID :=
    reads (fun w => Conversation.AttachOperation serviceConversationHydrator w reply action
                      status roomID);
|}.

Definition authorizeChannelContentRecall (roomID authorMXID : string) : M world Api.Error unit :=
  reads (fun w =>
    if negb (str_empty (ownerMXID w.2)) && str_eqb (ownerMXID w.2) authorMXID then Ok tt
    else match requireOwnerMember w.1 (ownerMXID w.2) roomID with
         | Ok _ => Ok tt
         | Err e =>
             if negb (Api.Status e =? 403) then Err e
             else Err (Api.StatusError 403 "content author or channel owner role is required")
         end).

Definition requireJoinedChannelContent (roomID : string) : M world Api.Error unit :=
  reads (fun w =>
    match lookupMember w.1 (trim_space roomID) (ownerMXID w.2) with
    | Some member =>
        if equal_fold (trim_space (Member.Membership member)) "join" then Ok tt
        else Err (Api.StatusError 403 "channel membership is required")
    | None => Err (Api.StatusError 403 "channel membership is required")
    end).

Definition agentMXIDLocked : string := "@agent:" +:+ trim_space serverName.

Definition contentConfig : ContentConfig world := {|
  cf_Owner := Some (fun w => {| co_MXID := ownerMXID w.2; co_DisplayName := profileName w.2;
                                co_AgentMXID := agentMXIDLocked;
                                co_AgentDisplayName := agentDisplayName w |});
  cf_Matrix := Some (fun _ => transport);
  cf_Now := now;
  cf_NewToken := Some randomToken;
  cf_NewEventID := Some (fun contentID => "$" +:+ contentID +:+ ":" +:+ serverName);
  cf_RequireJoined := Some requireJoinedChannelContent;
  cf_AuthorizeRecall := Some authorizeChannelContentRecall;
  cf_MapTransportError := Some transportWriteError;
  cf_PreparedMatrixStore := preparedMatrixStore;
|}.

(** ** Public posts *)

(** [publicChannelPostsPage] *)
Record publicChannelPostsPage := {
  pp_ChannelID : string;
  pp_RoomID : string;
  pp_Page : ContentFlow.PostsPage;
}.

(** [spec.NewRoomID(id)] and its [Domain()]; an HTTP call of another node,
    with its status. *)
Record RemotePorts := {
  room_domain : string -> option string;
  remotePublicAction : string -> string -> content ->
    world -> world * (Z * result goerror publicChannelPostsPage);
}.
Context (remote : RemotePorts).

Definition is_public (visibility : string) : bool :=
  equal_fold (trim_space visibility) visibility_public.

Definition bad_gateway (message : string) : Api.Error := Api.StatusError 502 message.

(** The checks on the page of another node. *)
Definition checkedPage (channelID roomID : string) (page : publicChannelPostsPage)
    : result Api.Error publicChannelPostsPage :=
  if negb (str_empty (pp_RoomID page)) && negb (str_eqb (pp_RoomID page) roomID)
  then Err (bad_gateway "target node returned posts for a different room")
  else if negb (str_empty (pp_ChannelID page)) && negb (str_empty channelID) &&
          negb (str_eqb (pp_ChannelID page) channelID)
  then Err (bad_gateway "target node returned posts for a different channel")
  else if negb (is_public (default "" (ContentFlow.page_visibility (pp_Page page))))
  then Err (bad_gateway "target node returned a non-public post page")
  else if existsb (fun post =>
            negb (is_public (CPost.Visibility post)) ||
            negb (str_empty (CPost.RoomID post)) && negb (str_eqb (CPost.RoomID post) roomID) ||
            negb (str_empty (pp_ChannelID page)) && negb (str_empty (CPost.ChannelID post)) &&
            negb (str_eqb (CPost.ChannelID post) (pp_ChannelID page)))
          (ContentFlow.page_posts (pp_Page page))
  then Err (bad_gateway "target node returned invalid public post data")
  else Ok {| pp_ChannelID := if str_empty (pp_ChannelID page) then channelID
                             else pp_ChannelID page;
             pp_RoomID := roomID; pp_Page := pp_Page page |}.

Definition remotePublicChannelPosts (channelID roomID : string) (params : content)
    : M world Api.Error publicChannelPostsPage :=
  match Remote.roomServerFromMatrixRoomID (room_domain remote) roomID with
  | None => fail (Api.BadRequest "valid Matrix room_id is required")
  | Some roomServer =>
      let forward : content := <["room_id" := AString roomID]> params in
      let forward := if str_empty channelID then forward
                     else <["channel_id" := AString channelID]> forward in
      fun w =>
        let '(w, (status, r)) :=
          remotePublicAction remote roomServer "channels.public.posts.list" forward w in
        (w, match r with
            | Err e =>
                if negb (status =? 0) && negb (status =? 502)
                then Err (Api.StatusError status (error_text e))
                else Err (bad_gateway (error_text e))
            | Ok page =>
                if negb (status =? 200)
                then Err (Api.StatusError status "target node public posts lookup failed")
                else checkedPage channelID roomID page
            end)
  end.

Definition local_posts (channelID : string) (raw : content)
    : M world Api.Error ContentFlow.PostsPage :=
  ContentFlow.PublicPosts (Some memory_content_store) channelID raw.

Definition find_channel (channelID roomID : string) : M world Api.Error Chan.Channel :=
  reads (fun w => match Channels.ByIDOrRoom w.1 channelID roomID with
                  | Some ch => Ok ch
                  | None => Err (Api.StatusError 404 "channel not found")
                  end).

Definition publicChannelPosts (params : content) : M world Api.Error publicChannelPostsPage :=
  let channelID := Params.get_string params "channel_id" in
  let roomID := Params.get_string params "room_id" in
  if str_empty channelID && str_empty roomID
  then fail (Api.BadRequest "channel_id or room_id is required")
  else
  let! (channelID, roomID) :=
    if str_empty roomID
    then let! ch := find_channel channelID "" in ret (Chan.ChannelID ch, Chan.RoomID ch)
    else ret (channelID, roomID) in
  if match Remote.roomServerFromMatrixRoomID (room_domain remote) roomID with
     | Some server => negb (str_eqb server serverName)
     | None => false
     end
  then remotePublicChannelPosts channelID roomID params
  else
  let! ch := find_channel channelID roomID in
  let! page := local_posts (Chan.ChannelID ch) params in
  ret {| pp_ChannelID := Chan.ChannelID ch; pp_RoomID := Chan.RoomID ch; pp_Page := page |}.
End Service_.
End ContentWiring.
