(* ===== verification/ProjectorWiring.v ===== *)
(** * The projector in the service

    The ports the service gives the projector ([p2p/projector_ports.go],
    [p2p/service.go]): the memory store, the event log and the direct-room
    adapters, and the account gate of [p2p/projector.go].  The group agent,
    which sees an event after the projector, is a port. *)

From Stdlib Require Import Ascii String ZArith Lia.
From stdpp Require Import base tactics list gmap strings.
From S2P Require Import Prelude GoStrings Values Domain GoTime Policy Action RoomState.
From S2P Require Import EventStream MemoryTables ChannelContent Workflow Prepared.
From S2P Require Import Conversation Blocks Contacts ContactWorkflows Rooms RoomWorkflows.
From S2P Require Import Members MemberWorkflows Content ContentFlow ServiceWiring RoomWiring.
From S2P Require Import ContentWiring Projector.
Local Open Scope Z_scope.
Local Open Scope go_scope.

(** [isAlreadyJoinedRoomError] *)
Definition isAlreadyJoinedRoomError (err : goerror) : bool :=
  contains (to_lower (trim_space (error_text err))) "already joined".

Definition isSenderNotJoinedDirextalkRoom (err : goerror) : bool :=
  match err with
  | PolicyError code message =>
      (code =? 403) && str_eqb message "sender is not joined to the dirextalk room"
  | _ => false
  end.

(** The fields the projector sets of an invite and a join. *)
Record DirectInvite := {
  dv_RoomID : string;
  dv_InviterMXID : string;
  dv_InviteeMXID : string;
  dv_IsDirect : bool;
  dv_State : RoomState.StateEvent;
}.

Record DirectJoin := {
  dj_RoomIDOrAlias : string;
  dj_UserMXID : string;
  dj_DisplayName : string;
  dj_AvatarURL : string;
  dj_ServerNames : list string;
}.

(** [JoinRoom] returns a result beside its error. *)
Record DirectTransport (W : Type) := {
  dt_InviteUser : DirectInvite -> M W goerror unit;
  dt_JoinRoom : DirectJoin -> W -> W * (string * option goerror);
}.
Arguments dt_InviteUser {W}.
Arguments dt_JoinRoom {W}.

Definition roomProfileForDirect (name requesterMXID targetMXID displayName avatarURL remark : string)
    (dissolved : bool) : RoomState.StateEvent :=
  RoomState.DirectRoomProfile
    {| RoomState.di_Name := name; RoomState.di_RequesterMXID := requesterMXID;
       RoomState.di_TargetMXID := targetMXID; RoomState.di_RequesterDisplayName := displayName;
       RoomState.di_RequesterAvatarURL := avatarURL; RoomState.di_Remark := remark;
       RoomState.di_Dissolved := dissolved; RoomState.di_AccountDeleted := false;
       RoomState.di_DeletedMXID := "" |}.

Module ProjectorWiring.
Import Members Wiring ContentWiring.
Section Service_.
Context `{GoRange} `{GoText} `{MatrixIDs} {Y : Type}.
(** The event log is part of the world beside the rest, [Y]. *)
Local Notation events_module := (@Events.Module MemoryEvents.store).
Local Notation world := (T.tables * Service (ChannelContent.store * (events_module * Y)))%type.
Context (serverName : string) (now : world -> Z) (waiting : string -> world -> world).
Context (contacts_config : Config world).
Context (transport : option (DirectTransport world)).
(** [service.agentRoomID]; the server of a room id, for joins. *)
Context (agentRoomID : world -> string) (roomServer : string -> option string).
Context (content_config : ContentConfig world).

Definition clock (w : world) : Z := unix_milli (now w).

Definition set_events (m : events_module) (w : world) : world :=
  let s := w.2 in
  (w.1, {| ownerMXID := ownerMXID s; profileName := profileName s;
           profileAvatar := profileAvatar s;
           matrix := ((Wiring.matrix s).1, (m, (Wiring.matrix s).2.2)) |}).

Definition append_event (e : Event.EventRecord) : M world goerror unit := fun w =>
  let '(m, r) := Events.Append (now w) (Wiring.matrix w.2).2.1 e in (set_events m w, r).

Definition projector_conversations : ConversationPort world := {|
  pc_GetRecord conversationID roomID :=
    reads (fun w => Conversation.GetRecord w conversationID roomID);
  pc_Save record := fun w => Conversation.Save (clock w) w record;
  pc_SetCreator roomID creatorMXID := fun w => Conversation.SetCreator w roomID creatorMXID;
|}.

Definition projector_channels : ChannelPort world := {|
  pch_ByIDOrRoom channelID roomID :=
    RoomWorkflows.asks (fun w => Channels.ByIDOrRoom w.1 channelID roomID);
  pch_UpsertProjection channel := run (fun w => (MemoryTables.UpsertChannel w.1 channel, w.2));
  pch_SaveWithConversation channel :=
    fun w => store_step (fun s => Channels.Save (clock w) s channel) w;
  pch_Delete channelID := run (fun w => (Channels.Delete w.1 channelID, w.2));
|}.

Definition projector_groups : GroupPort world := {|
  pg_ByRoom roomID :=
    RoomWorkflows.asks (fun w => Groups.RecordFromView (B := unit) <$> Groups.ByRoom w.1 roomID);
  pg_Save group := fun w => store_step (fun s =>
    Groups.Save (clock w) s (Groups.ViewFromRecord (B := unit) group)) w;
  pg_Delete roomID := store_step (fun s => Groups.Delete s roomID);
|}.

Definition projector_contacts : ContactPort world := {|
  pk_WithPeer peerMXID fn := ContactFlow.SerializePeer waiting peerMXID fn;
  pk_ListRaw := reads Contacts.ListRaw;
  pk_LookupByRoom roomID := reads (fun w => Contacts.LookupByRoom w roomID);
  pk_Save contact := ContactFlow.Save clock contacts_config contact;
  pk_SaveProjectionIfCurrent contact expected :=
    ContactFlow.SaveProjectionIfCurrent clock contacts_config contact expected;
|}.

Definition projector_members : MemberPort world := {|
  pm_Lookup roomID userID := RoomWorkflows.asks (fun w => lookupMember w.1 roomID userID);
  pm_Save member := fun w => store_step (fun s => saveMember (clock w) s member) w;
  pm_SaveProjectionIfAbsent member :=
    fun w => store_step (fun s => saveMemberIfAbsent (clock w) s member) w;
  pm_SaveProjectionIfCurrent member expected := fun w => store_step (fun s =>
    saveMemberIfState (clock w) s member (Member.RequestID expected)
      (Member.Membership expected)) w;
|}.

Definition projector_content : ChannelContentPort world := {|
  pcc_ProjectPost := ContentFlow.ProjectPost (Some memory_content_store);
  pcc_ProjectPostSettings := ContentFlow.ProjectPostSettings (Some memory_content_store);
  pcc_ProjectComment := ContentFlow.ProjectComment (Some memory_content_store);
  pcc_ProjectReaction := ContentFlow.ProjectReaction (Some memory_content_store) content_config;
  pcc_RemoveProjectedEvent := ContentFlow.RemoveProjectedEvent (Some memory_content_store);
|}.

Definition ReinviteAcceptedContact (contact : Contact.ContactRecord) (identity : IdentitySnapshot)
    : M world goerror ReinviteDisposition :=
  match transport with
  | Some t =>
      if str_empty (trim_space (Contact.RoomID contact)) ||
         str_empty (trim_space (Contact.PeerMXID contact)) then ret ReinviteRetained
      else fun w =>
        let directName := RoomState.fallbackString (id_OwnerDisplayName identity)
                            (id_OwnerMXID identity) in
        match dt_InviteUser t
          {| dv_RoomID := Contact.RoomID contact; dv_InviterMXID := id_OwnerMXID identity;
             dv_InviteeMXID := Contact.PeerMXID contact; dv_IsDirect := true;
             dv_State := roomProfileForDirect directName (id_OwnerMXID identity)
                           (Contact.PeerMXID contact) (id_OwnerDisplayName identity)
                           (id_OwnerAvatarURL identity) "" false |} w with
        | (w, Ok _) => (w, Ok ReinviteRetained)
        | (w, Err e) =>
            if isAlreadyJoinedRoomError e || isSenderNotJoinedDirextalkRoom e
            then (w, Ok ReinviteReplacementRequired) else (w, Err e)
        end
  | None => ret ReinviteRetained
  end.

Definition JoinReplacementRoom (roomID : string) (identity : IdentitySnapshot)
    : M world goerror string :=
  let roomID := trim_space roomID in
  match transport with
  | None => ret roomID
  | Some t => fun w =>
      let '(w, (joined, err)) := dt_JoinRoom t
        {| dj_RoomIDOrAlias := roomID; dj_UserMXID := id_OwnerMXID identity;
           dj_DisplayName := id_OwnerDisplayName identity;
           dj_AvatarURL := id_OwnerAvatarURL identity;
           dj_ServerNames := match roomServer roomID with
                             | Some server => if str_empty server then [] else [server]
                             | None => []
                             end |} w in
      match err with
      | Some e => if negb (isAlreadyJoinedRoomError e) then (w, Err e)
                  else (w, Ok (if str_empty (trim_space joined) then roomID
                               else trim_space joined))
      | None => (w, Ok (if str_empty (trim_space joined) then roomID else trim_space joined))
      end
  end.

Definition projector_identity (w : world) : IdentitySnapshot :=
  {| id_OwnerMXID := ownerMXID w.2; id_OwnerDisplayName := profileName w.2;
     id_OwnerAvatarURL := profileAvatar w.2; id_AgentRoomID := agentRoomID w |}.

Definition projectorDependencies : Dependencies world := {|
  Projector.Events := Some append_event;
  Conversations := Some projector_conversations;
  Channels_ := Some projector_channels;
  ChannelContent_ := Some projector_content;
  Groups_ := Some projector_groups;
  Contacts_ := Some projector_contacts;
  Members_ := Some projector_members;
  Blocks_ := Some (fun targetType ids => reads (fun w => Blocks.Exists_ w targetType ids));
  DirectRooms := Some {| pd_ReinviteAcceptedContact := ReinviteAcceptedContact;
                         pd_JoinReplacementRoom := JoinReplacementRoom |};
  Identity := Some projector_identity;
  Now := now;
|}.

(** ** The service's gate *)

(** [s.accountDeprovisioned], and the group agent: what it does with a redacted
    event and with a room event. *)
Record AgentProjection := {
  accountIsDeprovisioned : world -> bool;
  cancelGroupAgentRequests : string -> M world goerror unit;
  projectGroupAgentEvent : option RoomEvent -> M world goerror unit;
}.

Definition ProjectOutputEvent (agent : AgentProjection) (output : OutputEvent)
    : M world goerror unit := fun w =>
  if accountIsDeprovisioned agent w then (w, Ok tt)
  else (
    let! _ := Projector.ProjectOutputEvent projectorDependencies output in
    match (if str_eqb (oe_Type output) "redacted_event" then oe_RedactedEvent output else None) with
    | Some eventID => cancelGroupAgentRequests agent eventID
    | None =>
        match (if str_eqb (oe_Type output) "new_room_event" then oe_NewRoomEvent output
               else None) with
        | Some event => projectGroupAgentEvent agent event
        | None => ret tt
        end
    end) w.

Definition ProjectRoomEvent (agent : AgentProjection) (event : option RoomEvent)
    : M world goerror unit := fun w =>
  if accountIsDeprovisioned agent w then (w, Ok tt)
  else (
    let! _ := Projector.ProjectRoomEvent projectorDependencies event in
    projectGroupAgentEvent agent event) w.
End Service_.
End ProjectorWiring.
