(* ===== verification/MemberFacts.v ===== *)
(** * Members: theorems about persistence and decisions

    What a save writes, and that the decisions on join requests are fenced by
    the state they were taken on, whatever runs in between. *)

From Stdlib Require Import Ascii String ZArith Lia.
From stdpp Require Import base tactics list gmap strings.
From S2P Require Import Prelude GoStrings GoCase Values Domain Policy Action MemoryTables Workflow.
From S2P Require Import PolicyFacts MemoryTablesFacts Conversation Contacts Rooms Members MemberWorkflows.
Import Members MemberFlow.
Local Open Scope Z_scope.
Local Open Scope go_scope.

Local Notation Mem := Member.MemberRecord.
Local Notation row := MemoryTables.member_key.

(** ** Persistence *)

Lemma canonical_idemp m : canonical_membership (canonical_membership m) = canonical_membership m.
Proof. apply lower_trim_idemp. Qed.

Lemma Normalize_canonical m :
  NormalizeMemberMembership m =
  if str_eqb (canonical_membership m) "joined" then "join" else canonical_membership m.
Proof. done. Qed.

Lemma Normalize_idemp m :
  NormalizeMemberMembership (NormalizeMemberMembership m) = NormalizeMemberMembership m.
Proof.
  rewrite !Normalize_canonical. destruct (str_eqb (canonical_membership m) "joined") eqn:E; [done|].
  by rewrite canonical_idemp, E.
Qed.

Section Persistence.
Context `{GoRange}.
Implicit Types (s : T.tables) (m : Mem).

(** The counts of a room do not touch its members. *)
Lemma Save_conversation_members now s r :
  T.members (Conversation.Save now s r).1 = T.members s.
Proof.
  unfold Conversation.Save. cbn. destruct (UpsertConversation_cases now s
    (NormalizeConversationRecord now r)) as [[_ [e Hs]]|[_ Hs]]; cbn in *; by rewrite Hs.
Qed.

Lemma refresh_counts_members now s m : T.members (refresh_counts now s m).1 = T.members s.
Proof.
  unfold refresh_counts. destruct (str_empty _).
  - unfold refreshStoredGroupCounts. destruct (str_empty _); [done|].
    by destruct (MemoryTables.GetGroupByRoom _ _).
  - unfold Channels.RefreshCounts. destruct (str_empty _); [done|].
    destruct (Channels.ByIDOrRoom _ _ _) as [ch|]; [|done].
    destruct (MemoryTables.CountProductMembers _ _ _). unfold Channels.Save.
    by rewrite Save_conversation_members.
Qed.

(** The row a save stores over [old]. *)
Definition stored_row (now : Z) (m : Mem) (old : option Mem) : Mem :=
  let m := normalize_saved now m in
  MemoryTables.normalizeMemberRecord
    (match old with Some old => mergeMemberPersistence m old | None => m end).

Lemma normalize_saved_key now m : row (normalize_saved now m) = row m.
Proof. unfold normalize_saved. by destruct (_ =? 0). Qed.

Lemma merge_key m old : row (mergeMemberPersistence m old) = row m.
Proof.
  unfold mergeMemberPersistence. cbv zeta.
  repeat match goal with |- context [if ?b then _ else _] => destruct b end; done.
Qed.

Lemma stored_row_key now m old : row (stored_row now m old) = row m.
Proof.
  unfold stored_row. destruct old as [old|]; cbv zeta;
    [transitivity (row (mergeMemberPersistence (normalize_saved now m) old));
     [done|rewrite merge_key]|]; apply normalize_saved_key.
Qed.

(** A save writes one row. *)
Lemma saveMember_members now s m :
  Member.RoomID m <> "" -> Member.UserID m <> "" ->
  T.members (saveMember now s m).1 =
    <[row m := stored_row now m (T.members s !! row m)]> (T.members s).
Proof.
  intros Hr Hu. unfold saveMember. rewrite refresh_counts_members.
  assert (Member.RoomID (normalize_saved now m) = Member.RoomID m /\
          Member.UserID (normalize_saved now m) = Member.UserID m) as [Er Eu]
    by (unfold normalize_saved; by destruct (_ =? 0)).
  rewrite Er, Eu. unfold str_empty. rewrite !bool_decide_eq_false_2 by done. cbn [negb andb].
  unfold MemoryTables.LookupMember, MemoryTables.UpsertMember. cbn [T.members T.set_members].
  change (MemoryTables.memoryMemberKey (Member.RoomID m) (Member.UserID m)) with (row m).
  f_equal. fold (stored_row now m (T.members s !! row m)). apply stored_row_key.
Qed.

Lemma merge_membership m old :
  leftMembership (Member.Membership m) = false ->
  Member.Membership (mergeMemberPersistence m old) = Member.Membership m.
Proof.
  intros Hl. unfold mergeMemberPersistence. cbv zeta.
  repeat match goal with
  | |- context [if ?b then _ else _] => destruct b eqn:?
  end; cbn in *; try done;
  repeat match goal with
  | H : (_ && _) = true |- _ => apply andb_true_iff in H as [? ?]
  end; congruence.
Qed.

Lemma merge_request m old :
  Member.RequestID (mergeMemberPersistence m old) =
  (if str_empty (Member.RequestID m) then Member.RequestID old else Member.RequestID m).
Proof.
  unfold mergeMemberPersistence. cbv zeta.
  repeat match goal with |- context [if ?b then _ else _] => destruct b eqn:? end;
    cbn in *; congruence.
Qed.

(** A save under a generation writes one row, or nothing. *)
Lemma saveMemberIfState_cases now s m requestID membership :
  let r := saveMemberIfState now s m requestID membership in
  r = (s, Ok false) \/
  exists old, T.members s !! row m = Some old /\ Member.RequestID old = requestID /\
    (membership = "" \/
     equal_fold (trim_space (Member.Membership old)) (trim_space membership) = true) /\
    r.2 <> Ok false /\
    T.members r.1 = <[row m := stored_row now m (Some old)]> (T.members s).
Proof.
  cbv zeta. unfold saveMemberIfState.
  change (MemoryTables.LookupMember s (Member.RoomID (normalize_saved now m))
    (Member.UserID (normalize_saved now m))) with (T.members s !! row (normalize_saved now m)).
  rewrite normalize_saved_key. destruct (T.members s !! row m) as [old|] eqn:Hold; [|by left].
  destruct (_ || _) eqn:Ec; [by left|]. apply orb_false_iff in Ec as [Ec1 Ec2].
  apply negb_false_iff in Ec1.
  assert (membership = "" \/ equal_fold (trim_space (Member.Membership old))
            (trim_space membership) = true) as Hm.
  { destruct (str_empty membership) eqn:E; [str_bool; by left|].
    right. by destruct (equal_fold _ _). }
  str_bool.
  destruct (CAS_member_spec s (mergeMemberPersistence (normalize_saved now m) old) requestID
    membership) as [(c & Hc & _ & Hr)|[_ Hr]]; cbv zeta in *; rewrite Hr; [|by left].
  right. exists old. split_and!; try done.
  - destruct (refresh_counts _ _ _) as [s' [[]|e]]; done.
  - match goal with |- context [refresh_counts ?n ?t ?x] =>
      pose proof (refresh_counts_members n t x) as Hm';
      destruct (refresh_counts n t x) as [s' r'] end.
    cbn in Hm' |- *. rewrite Hm'. f_equal.
    change (row (MemoryTables.normalizeMemberRecord
      (mergeMemberPersistence (normalize_saved now m) old)))
      with (row (mergeMemberPersistence (normalize_saved now m) old)).
    by rewrite merge_key, normalize_saved_key.
Qed.
End Persistence.

(** ** Decisions on join requests *)

(** The world of a request: the store, the rows this request replaced with
    the rows it wrote, and everything else. *)
Section Watched.
Context `{GoRange} {X : Type}.
Local Notation world := (T.tables * list (Mem * Mem) * X)%type.

Definition written (w : world) : list (Mem * Mem) := w.1.2.

(** [saveMemberIfState], with the write on record.  [others] is what other
    requests do before the row is locked. *)
Definition watched_swap (others : world -> world) (clock : world -> Z) (m : Mem)
    (requestID membership : string) : M world goerror bool :=
  fun w =>
    let '(s, log, x) := others w in
    let '(s', r) := saveMemberIfState (clock w) s m requestID membership in
    let log := match r, T.members s !! row m, T.members s' !! row m with
               | Ok false, _, _ => log
               | _, Some old, Some new => log ++ [(old, new)]
               | _, _, _ => log
               end in
    ((s', log, x), r).

(** A step that writes no member under a generation. *)
Definition quiet {E A} (m : M world E A) : Prop := forall w, written (m w).1 = written w.

(** The ports used by the decisions. *)
Record ports_quiet (cfg : Config world) : Prop := {
  q_target : forall raw, quiet (ResolveTarget cfg raw);
  q_lookup : forall room user, quiet (LookupMember cfg room user);
  q_joined : forall room user, quiet (MatrixJoined cfg room user);
  q_complete : forall b m raw, quiet (CompleteJoinRequest cfg b m raw);
  q_publish : forall a b c d e, quiet (PublishJoinRequest cfg a b c d e);
  q_operation : forall a b c, quiet (Operation cfg a b c);
  q_snapshot : forall c w, written (ChannelSnapshot cfg c w).1 = written w;
}.

Lemma quiet_ret {E A} (a : A) : quiet (E:=E) (ret a).
Proof. done. Qed.

Lemma quiet_fail {E A} (e : E) : quiet (A:=A) (fail e).
Proof. done. Qed.

Lemma quiet_bind {E A B} (m : M world E A) (k : A -> M world E B) :
  quiet m -> (forall a, quiet (k a)) -> quiet (mbind_ m k).
Proof.
  intros Hm Hk w. specialize (Hm w). unfold mbind_. destruct (m w) as [w' [a|e]]; [|done].
  by rewrite Hk.
Qed.

Lemma quiet_internal {A} (m : M world goerror A) : quiet m -> quiet (internal m).
Proof. intros Hm w. specialize (Hm w). unfold internal. by destruct (m w) as [w' [a|e]]. Qed.

(** At most one write, and it satisfies [G]. *)
Definition one_more (G : Mem -> Mem -> Prop) (before after : list (Mem * Mem)) : Prop :=
  after = before \/ exists old new, after = before ++ [(old, new)] /\ G old new.

Definition adds (G : Mem -> Mem -> Prop) {E A} (m : M world E A) : Prop :=
  forall w, one_more G (written w) (written (m w).1).

Lemma adds_quiet G {E A} (m : M world E A) : quiet m -> adds G m.
Proof. intros Hm w. left. apply Hm. Qed.

Lemma adds_bind G {E A B} (m : M world E A) (k : A -> M world E B) :
  quiet m -> (forall a w, (m w).2 = Ok a -> adds G (k a)) -> adds G (mbind_ m k).
Proof.
  intros Hm Hk w. specialize (Hm w). unfold mbind_.
  destruct (m w) as [w' [a|e]] eqn:E1; [|by left]. rewrite <- Hm. eapply (Hk a w). by rewrite E1.
Qed.

Lemma adds_then G {E A B} (m : M world E A) (k : A -> M world E B) :
  adds G m -> (forall a, quiet (k a)) -> adds G (mbind_ m k).
Proof.
  intros Hm Hk w. specialize (Hm w). unfold mbind_.
  destruct (m w) as [w' [a|e]]; [|done]. rewrite Hk. exact Hm.
Qed.

(** A swap that may be lost. *)
Lemma adds_swap G {E A} (m : M world E bool) (k : bool -> M world E A) :
  (forall w, (m w).2 = Ok false -> written (m w).1 = written w) ->
  adds G m -> quiet (k true) -> adds G (k false) -> adds G (mbind_ m k).
Proof.
  intros Hf Hm Ht Hk w. specialize (Hm w). specialize (Hf w). unfold mbind_.
  destruct (m w) as [w' [[]|e]]; [rewrite Ht; exact Hm| |done]. rewrite <- Hf by done. apply Hk.
Qed.

Section Decisions.
Context (cfg : Config world) (others : world -> world) (clock : world -> Z).
Context (Hothers : forall w, written (others w) = written w).
Context (Hswap : SaveMemberGeneration cfg = watched_swap others clock).
Context (Hquiet : ports_quiet cfg).

Lemma swap_lost m requestID membership w :
  (internal (SaveMemberGeneration cfg m requestID membership) w).2 = Ok false ->
  written (internal (SaveMemberGeneration cfg m requestID membership) w).1 = written w.
Proof.
  rewrite Hswap. unfold internal, watched_swap. specialize (Hothers w).
  destruct (others w) as [[s log] x]. destruct (saveMemberIfState _ _ _ _ _) as [s' [[]|e]]; try done.
Qed.

(** What a swap writes. *)
Lemma swap_adds (G : Mem -> Mem -> Prop) m requestID membership :
  (forall now old, Member.RequestID old = requestID ->
     membership = "" \/
     equal_fold (trim_space (Member.Membership old)) (trim_space membership) = true ->
     G old (stored_row now m (Some old))) ->
  adds G (internal (SaveMemberGeneration cfg m requestID membership)).
Proof.
  intros HG w. rewrite Hswap. unfold internal, watched_swap. specialize (Hothers w).
  destruct (others w) as [[s log] x]. unfold written in *. cbn in Hothers. subst log.
  destruct (saveMemberIfState_cases (clock w) s m requestID membership)
    as [Hr|(old & Hold & Hreq & Hm & Hne & Hs)]; cbv zeta in *.
  - rewrite Hr. by left.
  - right. exists old, (stored_row (clock w) m (Some old)). split; [|by apply HG].
    destruct (saveMemberIfState _ _ _ _ _) as [s' r]. cbn in Hne, Hs. rewrite Hold, Hs.
    rewrite lookup_insert_eq. by destruct r as [[]|e].
Qed.

Ltac quiet_step :=
  lazymatch goal with
  | |- quiet (mbind_ _ _) => apply quiet_bind; [|intros]
  | |- quiet (internal _) => apply quiet_internal
  | |- quiet (ret _) => apply quiet_ret
  | |- quiet (fail _) => apply quiet_fail
  | |- quiet (if ?b then _ else _) => destruct b
  | |- quiet (match ?x with _ => _ end) => destruct x
  | |- quiet (ResolveTarget _ _) => apply q_target, Hquiet
  | |- quiet (LookupMember _ _ _) => apply q_lookup, Hquiet
  | |- quiet (MatrixJoined _ _ _) => apply q_joined, Hquiet
  | |- quiet (CompleteJoinRequest _ _ _ _) => apply q_complete, Hquiet
  | |- quiet (PublishJoinRequest _ _ _ _ _ _) => apply q_publish, Hquiet
  | |- quiet (Operation _ _ _ _) => apply q_operation, Hquiet
  end.

Lemma with_snapshot_quiet c r : quiet (with_snapshot cfg c r).
Proof.
  intros w. unfold with_snapshot. pose proof (q_snapshot cfg Hquiet c w) as Hs.
  by destruct (ChannelSnapshot cfg c w).
Qed.

Ltac quiets := repeat first [quiet_step | apply with_snapshot_quiet].

Lemma attach_quiet r a st room : quiet (attachOperation cfg r a st room).
Proof. unfold attachOperation, HydrateResult. quiets. Qed.

Lemma load_quiet scope raw : quiet (loadMember cfg scope raw (request_user raw)).
Proof. unfold loadMember, request_user. quiets. Qed.

Lemma joinRequestResult_quiet st m : quiet (joinRequestResult cfg st m).
Proof. apply with_snapshot_quiet. Qed.

Lemma current_quiet a m : quiet (currentJoinRequestResult cfg a m).
Proof.
  unfold currentJoinRequestResult, join_status.
  repeat first [quiet_step | apply joinRequestResult_quiet | apply attach_quiet].
Qed.

Lemma complete_quiet a st m raw : quiet (complete_joined cfg a st m raw).
Proof. unfold complete_joined. repeat first [quiet_step | apply attach_quiet]. Qed.

(** The stored membership is one of the words, whatever its case. *)
Definition reads_as (m : Mem) (words : list string) : Prop :=
  exists word, word ∈ words /\ equal_fold (trim_space (Member.Membership m)) word = true.

(** A stored request keeps its generation. *)
Definition same_generation (old new : Mem) : Prop :=
  Member.RequestID old = "" \/ Member.RequestID new = Member.RequestID old.

Definition matrix_joined_once : Prop :=
  exists room user w, (MatrixJoined cfg room user w).2 = Ok true.

(** The writes a decision may make. *)
Definition decision_allowed (approved : bool) (old new : Mem) : Prop :=
  same_generation old new /\
  if approved
  then Member.Membership new = "approved" /\
       reads_as old ["pending"; "approved"; "joining"; "join_failed"]
  else (Member.Membership new = "reject" /\ reads_as old ["pending"; "reject"; "rejected"]) \/
       (Member.Membership new = "join" /\ matrix_joined_once).

Lemma stored_membership now m old x :
  Member.Membership m = x -> leftMembership (NormalizeMemberMembership x) = false ->
  Member.Membership (stored_row now m (Some old)) = NormalizeMemberMembership x.
Proof using Type.
  intros <- Hl. unfold stored_row. cbn.
  assert (Member.Membership (normalize_saved now m) =
          NormalizeMemberMembership (Member.Membership m)) as E
    by (unfold normalize_saved; by destruct (_ =? 0)).
  rewrite merge_membership by (by rewrite E). rewrite E. apply Normalize_idemp.
Qed.

Lemma stored_request now m old :
  Member.RequestID (stored_row now m (Some old)) =
  (if str_empty (Member.RequestID m) then Member.RequestID old else Member.RequestID m).
Proof using Type.
  unfold stored_row. cbn. rewrite merge_request. unfold normalize_saved. by destruct (_ =? 0).
Qed.

(** A swap of the request that was read keeps its generation. *)
Lemma swap_same_generation now m old :
  Member.RequestID m = Member.RequestID old \/ Member.RequestID old = "" ->
  same_generation old (stored_row now m (Some old)).
Proof using Type.
  intros Hm. unfold same_generation. rewrite stored_request.
  destruct Hm as [->| ->]; [right|by left]. by destruct (str_empty _).
Qed.

Lemma repair_adds n m :
  matrix_joined_once -> adds (decision_allowed false) (repair_attempts cfg n m).
Proof.
  intros Hj. revert m. induction n as [|n IH]; intros m; cbn [repair_attempts].
  { apply adds_quiet, quiet_fail. }
  apply adds_swap; [apply swap_lost| |apply quiet_ret|].
  - apply swap_adds. intros now old Hreq _. split; [apply swap_same_generation; by left|].
    right. split; [by apply (stored_membership _ _ _ "join")|done].
  - apply adds_bind; [quiets|]. intros current w _. destruct current as [c|].
    + destruct (equal_fold _ _); [apply adds_quiet, quiet_ret|apply IH].
    + apply adds_quiet, quiet_fail.
Qed.

Lemma settle_adds action (approved : bool) m expected membership raw :
  expected = Member.RequestID m \/ expected = "" ->
  (forall old, equal_fold (trim_space (Member.Membership old)) (trim_space membership) = true ->
     reads_as old (if approved then ["pending"; "approved"; "joining"; "join_failed"]
                   else ["pending"; "reject"; "rejected"])) ->
  membership <> "" ->
  adds (decision_allowed approved)
    (settle_join_request cfg action approved m expected membership raw).
Proof.
  intros Hreq Hold Hne. unfold settle_join_request.
  apply adds_swap; [apply swap_lost| | |].
  - apply swap_adds. intros now old Hro [?|Hm]; [done|]. apply Hold in Hm.
    split; [apply swap_same_generation; cbn; destruct Hreq; subst; auto|].
    destruct approved; [split; [|done]|left; split; [|done]];
      by rewrite (stored_membership _ _ _ _ eq_refl).
  - cbn [negb]. repeat first [apply attach_quiet | quiet_step].
  - cbn [negb]. apply adds_quiet. repeat first [quiet_step | apply current_quiet].
Qed.

Lemma canonical_trim m : trim_space (canonical_membership m) = canonical_membership m.
Proof using Type. apply trim_lower_trim. Qed.

Lemma decide_adds action approved m raw :
  adds (decision_allowed approved) (decide_join_request cfg action approved m raw).
Proof.
  unfold decide_join_request. cbv zeta. set (id := Params.get_string raw "request_id").
  destruct (_ && _ && _) eqn:E1; [apply adds_quiet, current_quiet|].
  set (m' := if str_empty (Member.RequestID m) && negb (str_empty id)
             then Member.set_RequestID id m else m).
  assert (Member.RequestID m = Member.RequestID m' \/ Member.RequestID m = "") as Hreq.
  { unfold m'. destruct (str_empty (Member.RequestID m)) eqn:E; [right; by str_bool|by left]. }
  assert (Member.Membership m' = Member.Membership m) as Hmem.
  { unfold m'. by destruct (str_empty (Member.RequestID m) && negb (str_empty id)). }
  rewrite Hmem. set (x := canonical_membership (Member.Membership m)).
  destruct (approved && str_eqb x "join") eqn:E2; [apply adds_quiet, complete_quiet|].
  destruct (negb approved && str_eqb x "join") eqn:E3.
  { apply adds_quiet. unfold join_status.
    repeat first [quiet_step | apply joinRequestResult_quiet | apply attach_quiet]. }
  destruct (replayedJoinRequestResult approved x m') as [[r st]|].
  { apply adds_quiet. quiets. apply attach_quiet. }
  destruct (joinRequestMutationAllowed approved x) eqn:E4; cbn [negb]; [|apply adds_quiet, quiet_fail].
  assert (canonical_membership x = x) as Hx by apply canonical_idemp.
  assert (Hne : x <> "").
  { intros ->. destruct approved; vm_compute in E4; discriminate. }
  apply settle_adds; [done| |done]. intros old Hold. unfold x in Hold. rewrite canonical_trim in Hold.
  fold x in Hold. exists x. split; [|done]. clearbody x. unfold joinRequestMutationAllowed in E4.
  rewrite Hx in E4. destruct approved; apply bool_decide_eq_true in E4; [|done].
  cbn in E2. str_bool. set_solver.
Qed.

Lemma handle_adds action raw :
  adds (decision_allowed (str_eqb action "channels.join_request.approve"))
    (handleJoinRequest cfg action raw).
Proof.
  unfold handleJoinRequest. destruct (_ && _); [apply adds_quiet, quiet_fail|].
  apply adds_bind; [apply load_quiet|]. intros [m found] w1 _.
  destruct (negb found); [apply adds_quiet, quiet_fail|].
  destruct (str_eqb action _) eqn:E.
  { apply adds_bind; [apply quiet_ret|]. intros b w2 [= <-]. apply decide_adds. }
  apply adds_bind; [quiets|]. intros joined w2 Hj. destruct joined; [|apply decide_adds].
  assert (matrix_joined_once) as Honce.
  { exists (Member.RoomID m), (Member.UserID m), w2. unfold internal in Hj.
    by destruct (MatrixJoined cfg _ _ w2) as [? [?|?]]; simplify_eq/=. }
  apply adds_then; [by apply repair_adds|]. intros m'. apply complete_quiet.
Qed.
End Decisions.
End Watched.

(** Decisions on join requests are fenced.  Whatever other requests do
    between its steps, approving or rejecting a join request writes at most one
    member row, by a swap.  An approval only turns a row that at that moment is
    pending, approved, joining or join_failed into "approved"; a rejection only
    turns a pending or rejected row into "reject", unless Matrix reported the
    member as joined, in which case the row becomes "join".  A row that carries
    a request ID keeps it. *)
Theorem join_request_decisions_guarded `{GoRange} {X : Type}
    (cfg : Config (T.tables * list (Mem * Mem) * X))
    (others : T.tables * list (Mem * Mem) * X -> T.tables * list (Mem * Mem) * X)
    (clock : T.tables * list (Mem * Mem) * X -> Z) action raw w :
  (forall w, written (others w) = written w) ->
  SaveMemberGeneration cfg = watched_swap others clock -> ports_quiet cfg ->
  written w = [] ->
  let log := written (handleJoinRequest cfg action raw w).1 in
  log = [] \/
  exists old new, log = [(old, new)] /\
    decision_allowed cfg (str_eqb action "channels.join_request.approve") old new.
Proof.
  intros Ho Hs Hq Hw. cbv zeta.
  destruct (handle_adds cfg others clock Ho Hs Hq action raw w) as [E|(old & new & E & Hd)];
    rewrite Hw in E; eauto.
Qed.

(** A request of [@a:x] for the channel [c] in the room [!r:x], approved while
    another request marks the owner's row. *)
Module JoinDemo.
Local Notation W := (T.tables * list (Mem * Mem) * unit)%type.
Definition row_of (user membership : string) : Mem :=
  Member.set_RequestID "q1" (Member.set_Membership membership (memberRecordFor "!r:x" "c" user)).
Definition tables_of (rows : list Mem) : T.tables :=
  {| T.readMarks := ∅; T.conversations := ∅; T.channels := ∅; T.inviteGrants := ∅;
     T.contacts := ∅; T.blocks := ∅; T.groups := ∅; T.calls := ∅; T.favorites := ∅;
     T.follows := ∅; T.reactions := ∅;
     T.members := list_to_map (map (fun m => (row m, m)) rows) |}.
Definition start : W := (tables_of [row_of "@a:x" "pending"; row_of "@b:x" "pending"], [], ()).
Definition others (w : W) : W :=
  (MemoryTables.UpsertMember w.1.1 (row_of "@b:x" "join"), w.1.2, w.2).
Definition clock (w : W) : Z := 1767225600000.
Definition request : content := {["user_id" := AString "@a:x"]}.

Definition config : Config W := {|
  ListMembers _ _ := ret []; UpsertChannelInviteGrant _ := ret (); ListChannelInviteGrants := ret [];
  ResolveTarget _ := ret ("!r:x", "c"); NewMember := memberRecordFor;
  LookupMember room user := reads (fun w => Ok (lookupMember w.1.1 room user));
  SaveMember _ := ret (); SaveMemberGeneration := watched_swap others clock;
  PublishPolicy _ := ret (); Operation _ _ _ := ret (∅, None); ResolveRoomOwner _ := ret "";
  OwnerMXID _ := "@o:x"; KickMember _ _ _ _ := ret (); LeaveMember _ _ := ret ();
  PublishJoinRequest _ _ _ _ _ := ret ();
  CompleteJoinRequest _ m _ := ret (resultWithStatus "approved" m);
  LookupChannel _ _ := ret None; RequireOwner _ := ret (); RejectBlocked _ _ := ret ();
  PrepareInvite _ _ _ := fail (Api.BadRequest "unused"); ShareRoomMembers _ := ret [];
  ChannelSnapshot _ w := (w, Channels.zero_channel); ApplyLocalProfile m _ := m;
  MatrixJoined _ _ := ret false; JoinRetained _ m _ w := (w, m, None);
  SaveRetainedMetadata _ _ _ := ret (); ForwardPublicJoinRequest _ := ret None;
  EmitJoinRequestChanged _ _ w := w; NewGrantID w := (w, "g"); NewRequestID w := (w, "q");
  Now := clock |}.
End JoinDemo.

Lemma join_request_decisions_witness :
  (exists old new, written (handleJoinRequest JoinDemo.config "channels.join_request.approve"
                      JoinDemo.request JoinDemo.start).1 = [(old, new)]) /\
  (let log := written (handleJoinRequest JoinDemo.config "channels.join_request.approve"
                         JoinDemo.request JoinDemo.start).1 in
   log = [] \/ exists old new, log = [(old, new)] /\
     decision_allowed JoinDemo.config
       (str_eqb "channels.join_request.approve" "channels.join_request.approve") old new).
Proof.
  split; [vm_compute; eauto|].
  apply (join_request_decisions_guarded JoinDemo.config JoinDemo.others JoinDemo.clock);
    [done|done|by split|done].
Defined.
