(* ===== verification/MemberFlowFacts.v ===== *)
(** * Members: theorems about the workflows

    Over the memory store with the service's adapters: a removed member stays
    out, leaving and removal, the member list and the grants of a channel. *)

From Stdlib Require Import Ascii String ZArith Lia.
From stdpp Require Import base tactics list gmap strings.
From S2P Require Import Prelude GoStrings GoCase Values Domain Policy Action MemoryTables Workflow.
From S2P Require Import PolicyFacts MemoryTablesFacts Conversation Blocks Contacts Rooms RoomWorkflows.
From S2P Require Import Members MemberWorkflows ServiceWiring RoomWiring MemberFacts.
Import Members MemberFlow RoomWiring Wiring.
Local Open Scope Z_scope.
Local Open Scope go_scope.

Local Notation Mem := Member.MemberRecord.
Local Notation row := MemoryTables.member_key.

(** ** Keys of members *)

(** A Matrix room ID, and a user ID without the separator of the keys. *)
Definition well_named (room user : string) : Prop :=
  has_prefix room "!" = true /\ user <> "" /\ contains user "|" = false.

(** The classes of memberships are read in normal form. *)
Lemma removed_trim m : removedMembership (trim_space m) = removedMembership m.
Proof. unfold removedMembership, canonical_membership. by rewrite trim_space_idemp. Qed.

Lemma removed_normalized m : removedMembership (NormalizeMemberMembership m) = removedMembership m.
Proof.
  unfold removedMembership. rewrite Normalize_canonical.
  destruct (str_eqb (canonical_membership m) "joined") eqn:E; [|by rewrite canonical_idemp].
  str_bool. by rewrite E.
Qed.

Lemma left_normalized m : leftMembership (NormalizeMemberMembership m) = leftMembership m.
Proof.
  unfold leftMembership. rewrite Normalize_canonical.
  destruct (str_eqb (canonical_membership m) "joined") eqn:E; [|by rewrite canonical_idemp].
  str_bool. by rewrite E.
Qed.

(** A removed row stays removed when the member is saved as removed or left. *)
Lemma stored_removed now m old :
  removedMembership (Member.Membership old) = true ->
  removedMembership (Member.Membership m) = true \/ leftMembership (Member.Membership m) = true ->
  removedMembership (Member.Membership (stored_row now m (Some old))) = true.
Proof.
  intros Hold Hm. unfold stored_row. cbn. rewrite removed_normalized.
  assert (Member.Membership (normalize_saved now m) =
          NormalizeMemberMembership (Member.Membership m)) as E
    by (unfold normalize_saved; by destruct (_ =? 0)).
  destruct (leftMembership (Member.Membership m)) eqn:El.
  - unfold mergeMemberPersistence. cbv zeta.
    repeat match goal with |- context [if ?b then _ else _] => destruct b eqn:? end; cbn in *;
      try done; exfalso;
      repeat match goal with
      | H : context [Member.Membership (normalize_saved _ _)] |- _ => rewrite E in H
      end; rewrite ?left_normalized, ?Hold, ?El in *; done.
  - rewrite merge_membership by (by rewrite E, left_normalized). rewrite E, removed_normalized.
    by destruct Hm.
Qed.

Lemma contains_last r : contains (r +:+ "|") "|" = true.
Proof.
  induction r as [|a r IH]; [done|].
  change (has_prefix (String a (r +:+ "|")) "|" || contains (r +:+ "|") "|" = true).
  by rewrite IH, orb_true_r.
Qed.

Lemma last_separator r t u : r +:+ "|" = t +:+ u -> u <> "" -> contains u "|" = true.
Proof.
  revert r. induction t as [|a t IH]; intros r Hr Hu.
  { change (r +:+ "|" = u) in Hr. subst u. apply contains_last. }
  change (r +:+ "|" = String a (t +:+ u)) in Hr. destruct r as [|b r].
  - injection Hr as _ Hr. by destruct t as [|c t], u.
  - change (String b (r +:+ "|") = String a (t +:+ u)) in Hr. injection Hr as _ Hr. by apply (IH r).
Qed.

Lemma str_app_assoc a b c : (a +:+ b) +:+ c = a +:+ (b +:+ c).
Proof. induction a as [|x a IH]; [done|]. exact (f_equal (String x) IH). Qed.

(** No other way to split the key of a well-named member has an empty part. *)
Lemma key_parts room user room' user' :
  well_named room user ->
  MemoryTables.memoryMemberKey room' user' = MemoryTables.memoryMemberKey room user ->
  room' <> "" /\ user' <> "".
Proof.
  intros (Hroom & Hne & Hc) Hk. unfold MemoryTables.memoryMemberKey in Hk. split; intros ->.
  - destruct room as [|a room]; [done|]. injection Hk as <- _. done.
  - change (room' +:+ "|" = room +:+ ("|" +:+ user)) in Hk. rewrite <- str_app_assoc in Hk.
    by rewrite (last_separator _ _ _ Hk Hne) in Hc.
Qed.

(** ** A removed member *)

Section Removed.
Context `{GoRange} `{MatrixIDs} {X : Type}.
Local Notation world := (T.tables * Service X)%type.
Context (serverName : string) (transport : option (Transport world)) (now : world -> Z).
Context (randomToken : string -> world -> world * string) (ports : MemberPorts X).
Context (room user : string).
Local Notation cfg := (membersConfig serverName transport now randomToken ports).
Local Notation k := (MemoryTables.memoryMemberKey room user).

(** The member is stored as removed, and every row under its own key. *)
Definition removed (w : world) : Prop :=
  members_ok (T.members w.1) /\
  exists m, T.members w.1 !! k = Some m /\ removedMembership (Member.Membership m) = true.
Local Notation P := removed.

(** What the rest of the world does keeps it, except that a member that is
    not the removed one may be joined and completed; and Matrix does not
    report the removed member as joined. *)
Record world_keeps_removed : Prop := {
  wk_send : forall t a b c, transport = Some t -> keeps P (SendStateEvent t a b c);
  wk_kick : forall t a b c d, transport = Some t -> keeps P (KickUser t a b c d);
  wk_leave : forall t a b, transport = Some t -> keeps P (LeaveRoom t a b);
  wk_members : forall t a, transport = Some t -> keeps P (ListRoomMembers t a);
  wk_creator : forall t f a, transport = Some t -> ReadRoomCreator t = Some f -> keeps P (f a);
  wk_ready : forall t f a b, transport = Some t -> JoinedRoomReady t = Some f -> keeps P (f a b);
  wk_join : forall scope m raw w, row m <> k -> P w ->
    P (joinAndProjectRetainedRoom ports scope m raw w).1.1;
  wk_complete : forall b m raw, row m <> k -> keeps P (completeChannelJoinRequest ports b m raw);
  wk_forward : forall raw, keeps P (remoteChannelJoinRequest ports raw);
  wk_emit : forall m st w, P w -> P (emitJoinRequestChanged ports m st w);
  wk_token : forall p w, P w -> P (randomToken p w).1;
  wk_not_joined : forall room' user' w, MemoryTables.memoryMemberKey room' user' = k ->
    (RoomWiring.matrixMemberJoined transport room' user' w).2 <> Ok true;
}.
Context (Hname : well_named room user) (Hworld : world_keeps_removed).

(** A member that, if it is the removed one, still says so. *)
Definition kept (m : Mem) : Prop :=
  row m = k -> removedMembership (Member.Membership m) = true.

Lemma members_keep {E A} (m : M world E A) :
  (forall w, T.members (m w).1.1 = T.members w.1) -> keeps P m.
Proof using Type. intros Hm w Hw. red. by rewrite !Hm. Qed.

Lemma removed_insert (w : world) x m :
  P w -> row x = row m -> (row m = k -> removedMembership (Member.Membership x) = true) ->
  forall s', T.members s' = <[row m := x]> (T.members w.1) -> P (s', w.2).
Proof using Type.
  intros [Hok (old & Hold & Hr)] Hx Hm s' Hs. split; cbn; rewrite Hs.
  - rewrite <- Hx. by apply members_ok_insert.
  - destruct (decide (row m = k)) as [Hk|Hk].
    + exists x. split; [by rewrite Hk, lookup_insert_eq|auto].
    + exists old. by rewrite lookup_insert_ne.
Qed.

Lemma save_member_keeps m :
  (row m = k -> removedMembership (Member.Membership m) = true \/
                leftMembership (Member.Membership m) = true) ->
  keeps P (save_member now m).
Proof using Hname.
  intros Hm [s x] Hw. unfold save_member, store_step, lift_store. cbn.
  assert (exists y, row y = row m /\
    T.members (saveMember (clock now (s, x)) s m).1 = <[row m := y]> (T.members s) /\
    (row m = k -> removedMembership (Member.Membership y) = true)) as (y & Hy & Hs & Hr).
  { destruct (decide (row m = k)) as [Hk|Hk].
    - destruct (key_parts _ _ _ _ Hname Hk) as [Hr Hu].
      exists (stored_row (clock now (s, x)) m (T.members s !! row m)).
      split_and!; [apply stored_row_key|by apply saveMember_members|]. intros _.
      destruct Hw as [_ (old & Hold & Hro)]. cbn in Hold. rewrite Hk, Hold.
      apply stored_removed; [done|auto].
    - unfold saveMember. rewrite refresh_counts_members. cbn.
      match goal with |- context [MemoryTables.normalizeMemberRecord ?z] => exists
        (MemoryTables.normalizeMemberRecord z); assert (row z = row m) as Hz end.
      { match goal with |- row (match ?o with _ => _ end) = _ => destruct o end;
          by rewrite ?merge_key, normalize_saved_key. }
      split_and!; [done|by rewrite <- Hz|done]. }
  destruct (saveMember _ s m) as [s' r]. cbn in *. by apply (removed_insert (s, x) y m).
Qed.

Lemma swap_keeps m requestID membership :
  kept m -> keeps P (save_member_generation now m requestID membership).
Proof using Type.
  intros Hm [s x] Hw. unfold save_member_generation, store_step, lift_store. cbn.
  destruct (saveMemberIfState_cases (clock now (s, x)) s m requestID membership)
    as [Hr|(old & Hold & _ & _ & _ & Hs)]; cbv zeta in *; [by rewrite Hr|].
  destruct (saveMemberIfState _ _ _ _ _) as [s' r]. cbn in *.
  eapply (removed_insert (s, x)); [done| |..|exact Hs]; [apply stored_row_key|].
  intros Hk. apply stored_removed; [|left; by apply Hm].
  destruct Hw as [_ (old' & Hold' & Hro)]. cbn in Hold'. rewrite Hk, Hold' in Hold. by simplify_eq.
Qed.

(** Looking a member up gives one that is kept, or shows that another member
    is meant. *)
Lemma lookup_yields room' user' :
  yields P (lookup_member room' user' (X:=X)) (fun found =>
    match found with
    | Some m => row m = MemoryTables.memoryMemberKey room' user' /\ kept m
    | None => room' <> "" -> user' <> "" -> MemoryTables.memoryMemberKey room' user' <> k
    end).
Proof using Type.
  intros w Hw. split; [done|]. intros found. unfold lookup_member, asks, reads, lookupMember. cbn.
  destruct (str_empty room' || str_empty user') eqn:E; [intros [= <-]|intros [= <-]].
  { intros Hr Hu. apply orb_true_iff in E as [E|E]; by str_bool. }
  destruct Hw as [Hok (old & Hold & Hro)]. unfold MemoryTables.LookupMember.
  destruct (T.members w.1 !! MemoryTables.memoryMemberKey room' user') as [m|] eqn:Em.
  - pose proof (Hok _ _ Em) as Hrow. cbn beta iota. split; [done|]. intros Hk.
    rewrite Hrow, Hk, Hold in Em. by simplify_eq.
  - intros _ _ Hk. by rewrite Hk, Hold in Em.
Qed.

(** The ports that do not write members. *)
Lemma publish_keeps room' event : keeps P (publish transport room' event).
Proof using Hworld.
  unfold publish. destruct transport as [t|] eqn:Et; [|apply keeps_ret].
  destruct (str_empty _); [apply keeps_ret|]. intros w Hw. by apply (wk_send Hworld).
Qed.

Lemma publish_policy_keeps m : keeps P (PublishPolicy cfg m).
Proof using Hworld.
  cbn. unfold publishMemberPolicyState. destruct (str_empty _); [apply keeps_ret|].
  intros w Hw. destruct (str_empty _); [done|]. apply keeps_internal; [|done]. apply publish_keeps.
Qed.

Lemma publish_request_keeps a b c d e : keeps P (PublishJoinRequest cfg a b c d e).
Proof using Hworld.
  cbn. unfold publishJoinRequestState. destruct (_ || _); [apply keeps_ret|].
  destruct (negb _); [apply keeps_fail|]. intros w Hw. destruct (str_empty _); [done|].
  apply keeps_internal; [|done]. apply publish_keeps.
Qed.

Lemma transported_keeps {A} (m : M world goerror A) : keeps P m -> keeps P (transported m).
Proof using Type.
  intros Hm w Hw. specialize (Hm w Hw). unfold transported. by destruct (m w) as [w' [a|e]].
Qed.

Lemma kick_keeps a b c d : keeps P (KickMember cfg a b c d).
Proof using Hworld.
  cbn. unfold kickMember. destruct transport as [t|] eqn:Et; [|apply keeps_ret].
  apply transported_keeps. intros w Hw. by apply (wk_kick Hworld).
Qed.

Lemma leave_keeps a b : keeps P (LeaveMember cfg a b).
Proof using Hworld.
  cbn. unfold leaveMember. destruct transport as [t|] eqn:Et; [|apply keeps_ret].
  apply transported_keeps. intros w Hw. by apply (wk_leave Hworld).
Qed.

Lemma joined_keeps a b : keeps P (MatrixJoined cfg a b).
Proof using Hworld.
  cbn. unfold RoomWiring.matrixMemberJoined. destruct transport as [t|] eqn:Et; [|apply keeps_ret].
  destruct (_ || _); [apply keeps_ret|]. destruct (JoinedRoomReady t) as [f|] eqn:Ef.
  - by eapply (wk_ready Hworld).
  - apply keeps_bind; [by apply (wk_members Hworld)|]. intros l. apply keeps_ret.
Qed.

Lemma owner_keeps a : keeps P (ResolveRoomOwner cfg a).
Proof using Hworld.
  assert (Hset : forall r c, keeps P (set_creator r c (X:=X))).
  { intros r c. apply members_keep. intros [s x]. unfold set_creator, Conversation.SetCreator. cbn.
    destruct (str_empty _); [done|]. unfold lift_store, MemoryTables.SetConversationCreator. cbn.
    by destruct (first_match _ _) as [[id rec]|]. }
  cbn. unfold resolveRoomOwner. destruct (str_empty _); [apply keeps_ret|].
  apply keeps_bind; [apply keeps_reads|]. intros [r|]; [|apply keeps_ret].
  destruct (negb _); [apply keeps_ret|]. destruct transport as [t|] eqn:Et; [|apply keeps_ret].
  destruct (ReadRoomCreator t) as [f|] eqn:Ef.
  - apply keeps_bind; [by eapply (wk_creator Hworld)|]. intros c.
    apply keeps_bind; [destruct (str_eqb _ _); [apply keeps_ret|apply Hset]|]. intros ?. apply keeps_ret.
  - apply keeps_bind; [destruct (str_empty _); [apply keeps_ret|apply Hset]|]. intros ?. apply keeps_ret.
Qed.

Lemma blocked_keeps t l : keeps P (RejectBlocked cfg t l).
Proof using Type.
  cbn. unfold rejectIfBlocked. apply keeps_bind; [apply keeps_internal, keeps_reads|].
  intros []; [apply keeps_fail|apply keeps_ret].
Qed.

Lemma snapshot_keeps c r : keeps P (with_snapshot cfg c r).
Proof using Type. by intros w Hw. Qed.

Lemma token_keeps {E} (f : string -> string) a b :
  keeps P (fun w => let '(w, id) := token randomToken a b w in (w, Ok (E:=E) (f id))).
Proof using Hworld.
  intros w Hw. unfold token. pose proof (wk_token Hworld b w Hw) as Ht.
  by destruct (randomToken b w).
Qed.

Ltac flow :=
  repeat lazymatch goal with
  | |- keeps P (mbind_ _ _) => apply keeps_bind; [|intros]
  | |- keeps P (internal _) => apply keeps_internal
  | |- keeps P (ret _) => apply keeps_ret
  | |- keeps P (fail _) => apply keeps_fail
  | |- keeps P (reads _) => apply keeps_reads
  | |- keeps P (if ?b then _ else _) => destruct b
  | |- keeps P (match ?x with _ => _ end) => destruct x
  | |- keeps P (ResolveTarget _ _) => apply keeps_reads
  | |- keeps P (LookupMember _ _ _) => apply keeps_reads
  | |- keeps P (LookupChannel _ _ _) => apply keeps_reads
  | |- keeps P (ListMembers _ _ _) => apply keeps_reads
  | |- keeps P (Operation _ _ _ _) => apply keeps_reads
  | |- keeps P (owner_now _) => by intros ? ?
  | |- keeps P (local_profile _ _) => by intros ? ?
  | |- keeps P (MatrixJoined _ _ _) => apply joined_keeps
  | |- keeps P (PublishPolicy _ _) => apply publish_policy_keeps
  | |- keeps P (PublishJoinRequest _ _ _ _ _ _) => apply publish_request_keeps
  | |- keeps P (KickMember _ _ _ _ _) => apply kick_keeps
  | |- keeps P (LeaveMember _ _ _) => apply leave_keeps
  | |- keeps P (ResolveRoomOwner _ _) => apply owner_keeps
  | |- keeps P (RejectBlocked _ _ _) => apply blocked_keeps
  | |- keeps P (with_snapshot _ _ _) => apply snapshot_keeps
  | |- keeps P (SaveMember _ _) => apply save_member_keeps
  | |- keeps P (SaveMemberGeneration _ _ _ _) => apply swap_keeps
  | |- keeps P (ForwardPublicJoinRequest _ _) => apply (wk_forward Hworld)
  | |- keeps P (CompleteJoinRequest _ _ _ _) => apply (wk_complete Hworld)
  | |- keeps P (attachOperation _ _ _ _ _) => unfold attachOperation, HydrateResult
  | |- keeps P (resultWithOperation _ _ _ _) => unfold resultWithOperation
  | |- keeps P (request_user _) => apply keeps_ret
  end.

Lemma List_keeps raw : keeps P (List_ cfg raw).
Proof using Hworld. unfold List_. flow. Qed.

(** The actions that can bring a member back. *)
Definition readmitting : list string :=
  ["channels.invite"; "channels.invite_grant.create"; "channels.join"; "groups.invite";
   "rooms.reactivate"].

(** A member looked up, or a new one in its place. *)
Definition kept_at (room' user' : string) (found : option Mem) : Prop :=
  match found with
  | Some m => row m = MemoryTables.memoryMemberKey room' user' /\ kept m
  | None => MemoryTables.memoryMemberKey room' user' <> k
  end.

Lemma lookup_kept room' user' :
  yields P (internal (LookupMember cfg room' user')) (kept_at room' user').
Proof using Hname.
  apply yields_internal. intros w Hw. destruct (lookup_yields room' user' w Hw) as [H1 H2].
  split; [done|]. intros found Hf. specialize (H2 found Hf). destruct found as [m|]; [done|].
  intros Hk. destruct (key_parts _ _ _ _ Hname Hk). by apply H2.
Qed.

Lemma kept_same m m' :
  row m' = row m -> Member.Membership m' = Member.Membership m -> kept m -> kept m'.
Proof using Type. unfold kept. intros -> ->. done. Qed.

(** What [loadMember] gives. *)
Lemma load_yields scope raw (u : M world Api.Error string) :
  keeps P u -> yields P (loadMember cfg scope raw u) (fun r => kept r.1).
Proof using Hname.
  intros Hu. unfold loadMember.
  eapply yields_bind; [apply keeps_yields, keeps_internal, keeps_reads|]. intros [room' ch] _.
  destruct (_ && _); [apply yields_fail|].
  eapply yields_bind; [by apply keeps_yields|]. intros user' _.
  destruct (str_empty user'); [apply yields_fail|].
  eapply yields_bind; [apply lookup_kept|]. intros found Hf. apply yields_ret. cbn.
  assert (forall m, kept m -> kept (if str_eqb scope "group" then Member.set_ChannelID "" m else m))
    as Hs by (intros m; destruct (str_eqb _ _); done).
  apply Hs. destruct found as [m|]; cbn in Hf.
  - destruct Hf as [_ Hf]. by destruct (str_empty ch).
  - intros Hk. destruct Hf. exact Hk.
Qed.

Lemma request_keeps raw : keeps P (request_user raw).
Proof using Type. apply keeps_ret. Qed.

Lemma mutate_keeps scope action muted raw : keeps P (mutate cfg scope action muted raw).
Proof using Hname Hworld.
  unfold mutate. eapply keeps_bind_yields; [apply load_yields, request_keeps|].
  intros [m found] Hm. cbn in Hm.
  apply keeps_bind; [apply keeps_internal, save_member_keeps|intros; flow]. intros Hk. left.
  specialize (Hm Hk). cbn. destruct (str_empty (trim_space (Member.Membership m))) eqn:E.
  - rewrite <- removed_trim in Hm. str_bool. by rewrite E in Hm.
  - by rewrite removed_trim.
Qed.

(** Matrix reports only other members as joined. *)
Lemma joined_yields m :
  yields P (internal (MatrixJoined cfg (Member.RoomID m) (Member.UserID m)))
    (fun b => b = true -> row m <> k).
Proof using Hworld.
  apply yields_internal. intros w Hw. split; [by apply joined_keeps|]. intros b Hb -> Hk.
  by apply (wk_not_joined Hworld _ _ w Hk).
Qed.

Lemma repair_yields n m : row m <> k -> yields P (repair_attempts cfg n m) (fun m' => row m' <> k).
Proof using Hname Hworld.
  revert m. induction n as [|n IH]; intros m Hm; cbn [repair_attempts]; [apply yields_fail|].
  eapply yields_bind; [apply keeps_yields, keeps_internal, swap_keeps; by intros Hk|].
  intros [|] _; [by apply yields_ret|].
  eapply yields_bind; [apply lookup_kept|]. intros [c|] Hc; [|apply yields_fail].
  destruct Hc as [Hc _]. assert (row c <> k) by (rewrite Hc; exact Hm).
  destruct (equal_fold _ _); [by apply yields_ret|by apply IH].
Qed.

(** The classes that exclude each other. *)
Lemma not_removed m words :
  kept m -> canonical_membership (Member.Membership m) ∈ words ->
  forallb (fun x => negb (bool_decide (x ∈ ["remove"; "removed"; "ban"; "banned"]))) words = true ->
  row m <> k.
Proof using Type.
  intros Hm Hw Hall Hk. specialize (Hm Hk). unfold removedMembership in Hm.
  rewrite forallb_forall in Hall. apply list_elem_of_In in Hw. specialize (Hall _ Hw).
  apply negb_true_iff in Hall. congruence.
Qed.

Lemma apply_keeps ls action m raw :
  (row m = k -> removedMembership (membership_ ls) = true \/ leftMembership (membership_ ls) = true) ->
  keeps P (apply_lifecycle cfg ls action m raw).
Proof using Hname Hworld. intros Hm. unfold apply_lifecycle. flow. exact Hm. Qed.

Lemma lifecycle_keeps action raw : keeps P (HandleLifecycle cfg action raw).
Proof using Hname Hworld.
  unfold HandleLifecycle. destruct (lifecycleSpecs action) as [ls|] eqn:El; [|flow].
  eapply keeps_bind_yields; [apply load_yields; destruct (forceOwner ls); flow|].
  intros [m found] Hm. cbn in Hm.
  destruct (requireInvite ls) eqn:Er.
  - unfold refuse_invite. eapply keeps_bind_yields with (Q := fun b => b = true -> row m <> k).
    { destruct found; [apply joined_yields|by apply yields_ret]. }
    intros [|] Hj.
    + eapply keeps_bind_yields; [apply repair_yields; auto|]. intros m' _. flow.
    + destruct (found && _); [flow|]. destruct (negb found); [flow|].
      destruct (negb (str_eqb _ "invite")) eqn:Ei; [flow|]. apply apply_keeps. intros Hk. exfalso.
      apply (not_removed m ["invite"]); [done| |done..]. apply negb_false_iff in Ei. str_bool.
      rewrite Ei. by left.
  - apply apply_keeps. intros _. unfold lifecycleSpecs in El.
    repeat match type of El with (if ?b then _ else _) = _ => destruct b end;
      simplify_eq/=; vm_compute; auto.
Qed.

(** ** Join requests *)

Lemma complete_keeps action st m raw : row m <> k -> keeps P (complete_joined cfg action st m raw).
Proof using Hworld. intros Hm. unfold complete_joined. flow. exact Hm. Qed.

Lemma current_keeps action m : keeps P (currentJoinRequestResult cfg action m).
Proof using Hworld. unfold currentJoinRequestResult, join_status, joinRequestResult. flow. Qed.

Lemma settle_request_keeps action approved m e x raw :
  row m <> k -> keeps P (settle_join_request cfg action approved m e x raw).
Proof using Hname Hworld.
  intros Hm. unfold settle_join_request. flow; [by intros ?|apply current_keeps|exact Hm].
Qed.

Lemma decide_keeps action approved m raw :
  kept m -> keeps P (decide_join_request cfg action approved m raw).
Proof using Hname Hworld.
  intros Hm. unfold decide_join_request. cbv zeta. set (id := Params.get_string raw "request_id").
  destruct (_ && _ && _); [apply current_keeps|].
  set (m' := if str_empty (Member.RequestID m) && negb (str_empty id)
             then Member.set_RequestID id m else m).
  assert (kept m') as Hm'.
  { unfold m'. by destruct (str_empty (Member.RequestID m) && negb (str_empty id)). }
  clearbody m'. destruct (approved && _) eqn:E1.
  { apply complete_keeps, (not_removed m' ["join"]); [done| |done]. str_bool.
    match goal with H : _ = "join" |- _ => rewrite H end. by left. }
  destruct (negb approved && _); [unfold join_status, joinRequestResult; flow|].
  destruct (replayedJoinRequestResult _ _ _) as [[r st]|]; [flow|].
  destruct (joinRequestMutationAllowed _ _) eqn:E4; cbn [negb]; [|flow].
  apply settle_request_keeps. unfold joinRequestMutationAllowed in E4. rewrite canonical_idemp in E4.
  destruct approved; apply bool_decide_eq_true in E4; by eapply not_removed.
Qed.

Lemma join_request_keeps action raw : keeps P (handleJoinRequest cfg action raw).
Proof using Hname Hworld.
  unfold handleJoinRequest. destruct (_ && _); [flow|].
  eapply keeps_bind_yields; [apply load_yields, request_keeps|]. intros [m found] Hm. cbn in Hm.
  destruct (negb found); [flow|].
  eapply keeps_bind_yields with (Q := fun b => b = true -> row m <> k).
  { destruct (str_eqb _ _); [by apply yields_ret|apply joined_yields]. }
  intros [|] Hj; [|by apply decide_keeps].
  eapply keeps_bind_yields; [apply repair_yields; auto|]. intros m' Hm'. by apply complete_keeps.
Qed.

(** ** Joining a group *)

Lemma profile_row w m : row (ApplyLocalProfile cfg m w) = row m.
Proof using Type. cbn. unfold applyLocalOwnerMemberProfile. by destruct (_ || _). Qed.

Lemma profile_yields m :
  row m <> k -> yields P (local_profile cfg m) (fun m' => row m' <> k).
Proof using Type.
  intros Hm w Hw. split; [done|]. intros m' Hm'.
  change (Ok (E:=Api.Error) (ApplyLocalProfile cfg m w) = Ok m') in Hm'.
  rewrite <- (profile_row w m) in Hm. congruence.
Qed.

Lemma join_retained_keeps scope m raw : row m <> k -> keeps P (join_retained cfg scope m raw).
Proof using Hworld.
  intros Hm w Hw. unfold join_retained. pose proof (wk_join Hworld scope m raw w Hm Hw) as Hj.
  cbn [MemberFlow.JoinRetained membersConfig].
  destruct (joinAndProjectRetainedRoom ports scope m raw w) as [[w' m'] e].
  assert (forall sc st c, keeps P (joined_reply cfg sc st c m')) as Hreply
    by (intros; unfold joined_reply; flow).
  destruct e as [e|]; [|by apply Hreply]. destruct (str_eqb _ _); [by apply Hreply|done].
Qed.

Lemma join_group_keeps raw : keeps P (Join cfg "group" raw).
Proof using Hname Hworld.
  unfold Join. apply keeps_bind; [flow|]. intros [room0 ch0]. unfold target_from_grant.
  cbn [str_eqb]. change (str_eqb "group" "channel") with false. cbn [andb].
  apply keeps_bind; [flow|]. intros [[room' ch] raw']. destruct (_ && _); [flow|].
  apply keeps_bind; [flow|]. intros [[room1 ch1] raw1]. apply keeps_bind; [flow|]. intros user'.
  unfold join_target. apply keeps_bind; [unfold requireRecordedGroupInvite; flow|]. intros ?.
  apply keeps_bind; [apply keeps_ret|]. intros ?.
  eapply keeps_bind_yields; [apply lookup_kept|]. intros found Hf.
  change (str_eqb "group" "group") with true. cbn [orb]. rewrite andb_true_r.
  assert (match found with Some m => removedMembership (Member.Membership m) | None => false end
          = false -> row (joining_member cfg "group" room1 ch1 user' found raw1) <> k) as Hrow.
  { destruct found as [m|]; cbn in Hf.
    - destruct Hf as [_ Hm]. intros Hr Hk. change (row m = k) in Hk. by rewrite (Hm Hk) in Hr.
    - intros _. exact Hf. }
  match goal with |- keeps P (if ?b then _ else _) => destruct b eqn:Eb end; [flow|].
  eapply keeps_bind_yields; [by apply profile_yields, Hrow|]. intros m' Hm'. by apply join_retained_keeps.
Qed.

(** ** Public join requests *)

Lemma current_state_keeps m ch : keeps P (currentPublicJoinState cfg m ch).
Proof using Hworld. unfold currentPublicJoinState. flow. Qed.

Lemma current_member_keeps room' user' e : keeps P (current_member cfg room' user' e).
Proof using Type. unfold current_member. flow. Qed.

Lemma chosen_keeps id : keeps P (chosen_request_id cfg id).
Proof using Hworld.
  unfold chosen_request_id. destruct (negb _); [flow|].
  apply keeps_bind; [apply (token_keeps trim_space)|]. intros id'. flow.
Qed.

Lemma record_keeps ch existing fresh user' id raw :
  kept_at (Chan.RoomID ch) user' existing ->
  (forall m, existing = Some m -> row m <> k) ->
  keeps P (record_request cfg ch existing fresh user' id raw).
Proof using Hname Hworld.
  intros Hat Hout. unfold record_request. apply keeps_bind; [flow|]. intros now'.
  match goal with |- context [ApplyMemberProfile ?x raw] => set (m0 := ApplyMemberProfile x raw) end.
  assert (row m0 <> k) as Hm0.
  { assert (row m0 = match existing with
                     | Some m => row m
                     | None => MemoryTables.memoryMemberKey (Chan.RoomID ch) user'
                     end) as ->.
    { unfold m0. destruct existing as [m|]; [destruct fresh|];
        match goal with |- context [if ?b then _ else _] => destruct b end; done. }
    destruct existing as [m|]; [by apply Hout|exact Hat]. }
  clearbody m0. apply keeps_bind.
  { destruct existing as [m|]; [destruct fresh|]; flow; by intros ?. }
  intros saved. destruct (negb saved).
  { apply keeps_bind; [apply current_member_keeps|]. intros c. apply current_state_keeps. }
  flow. exact Hm0.
Qed.

Lemma replay_keeps ch user' m raw r :
  row m <> k -> replay_request cfg ch user' m raw = Some r -> keeps P r.
Proof using Hworld.
  intros Hm. unfold replay_request. cbv zeta.
  assert (keeps P (if is_open ch then CompleteJoinRequest cfg true m raw
                   else currentPublicJoinState cfg m ch)) as Hresume
    by (destruct (is_open ch); [by apply (wk_complete Hworld)|apply current_state_keeps]).
  repeat match goal with |- (if ?b then _ else _) = _ -> _ => destruct b end;
    intros [= <-];
    lazymatch goal with
    | |- keeps P (ret _) => apply keeps_ret
    | |- keeps P (mbind_ _ _) => idtac
    | |- _ => apply Hresume
    end.
  apply keeps_bind; [apply keeps_internal, joined_keeps|]. intros [|]; [flow|apply Hresume].
Qed.

Lemma public_request_keeps ch user' raw : keeps P (public_request cfg ch user' raw).
Proof using Hname Hworld.
  unfold public_request. eapply keeps_bind_yields; [apply lookup_kept|]. intros existing Hat.
  match goal with |- keeps P (match _ with Some m => if _ then _ else ?f | None => _ end) =>
    set (fresh := f) end.
  assert (keeps P fresh) as Hfresh.
  { unfold fresh. apply keeps_bind; [apply chosen_keeps|]. intros id.
    eapply keeps_bind_yields with (Q := fun b => match b with
      | inl e => kept_at (Chan.RoomID ch) user' e | inr _ => True end).
    - unfold bind_request. destruct existing as [m|]; [|by apply yields_ret].
      destruct Hat as [Hrow Hm]. destruct (_ && _); [|by apply yields_ret].
      eapply yields_bind; [apply keeps_yields, keeps_internal, swap_keeps; exact Hm|].
      intros [|] _; [by apply yields_ret|].
      eapply yields_bind; [apply keeps_yields, current_member_keeps|]. intros c _.
      eapply yields_bind; [apply keeps_yields, current_state_keeps|]. intros r _. by apply yields_ret.
    - intros [e|r] He; [|flow]. unfold answer_request. destruct e as [m|].
      + destruct (removedMembership (Member.Membership m)) eqn:Er; [flow|].
        assert (row m <> k) as Hm.
        { intros Hk. destruct He as [_ He]. by rewrite (He Hk) in Er. }
        assert (forall b, keeps P (record_request cfg ch (Some m) b user' id
                  (<["request_id" := AString id]> raw))) as Hrec.
        { intros b. apply record_keeps; [done|]. by intros m' [= <-]. }
        match goal with |- context [if ?b then _ else _] => destruct b end; [apply Hrec|].
        destruct (replay_request _ _ _ _ _) as [r|] eqn:Erep; [|apply Hrec].
        by eapply replay_keeps.
      + by apply record_keeps. }
  destruct existing as [m|]; [|done]. destruct (fenced_request _ _); [apply current_state_keeps|done].
Qed.

Lemma public_join_keeps raw : keeps P (ChannelPublicJoinRequest cfg raw).
Proof using Hname Hworld.
  unfold ChannelPublicJoinRequest. flow. apply public_request_keeps.
Qed.

(** ** Answers to public join requests *)

Lemma state_of_keeps m : keeps P (current_state_of cfg m).
Proof using Hworld.
  unfold current_state_of. apply keeps_bind; [by intros w Hw|]. intros c. apply current_state_keeps.
Qed.

Lemma apply_result_keeps room' ch user' m e1 e2 raw :
  kept m -> keeps P (apply_result cfg room' ch user' m e1 e2 raw).
Proof using Hname Hworld.
  intros Hm. unfold apply_result. cbv zeta.
  destruct (bool_decide _) eqn:Ein; cbn [negb]; [|flow]. apply bool_decide_eq_true in Ein.
  assert (row m <> k) as Hrow by (by eapply not_removed).
  eapply keeps_bind_yields; [apply profile_yields; by destruct (str_empty ch)|]. intros m' Hm'. destruct (str_eqb _ _); [|flow; exact Hm'].
  unfold result_rejected, refuse_pending, rejected_with_snapshot.
  flow; try apply state_of_keeps; try exact Hm'; try (by intros ?).
  - apply current_member_keeps.
  - apply keeps_run. intros w Hw. by apply (wk_emit Hworld).
Qed.

Lemma public_result_keeps raw : keeps P (ChannelPublicJoinResult cfg raw).
Proof using Hname Hworld.
  unfold ChannelPublicJoinResult. apply keeps_bind; [flow|]. intros [room' ch].
  destruct (_ && _); [flow|]. apply keeps_bind; [flow|]. intros owner.
  destruct (negb _); [flow|]. eapply keeps_bind_yields; [apply lookup_kept|].
  intros [m|] Hm; [|flow]. destruct Hm as [_ Hm].
  destruct (_ && _ && _); [apply state_of_keeps|]. destruct (_ && _).
  - apply keeps_bind; [apply keeps_internal, swap_keeps, Hm|]. intros saved.
    destruct (negb saved); [|by apply apply_result_keeps].
    apply keeps_bind; [apply current_member_keeps|]. intros c. apply state_of_keeps.
  - by apply apply_result_keeps.
Qed.

Lemma serve_keeps action raw :
  action ∉ readmitting ->
  match serve cfg action raw with Some m => keeps P m | None => True end.
Proof using Hname Hworld.
  intros Ha. unfold serve.
  repeat match goal with |- context [if str_eqb action ?a then _ else _] =>
    destruct (str_eqb action a) eqn:?; [str_bool; subst action|] end;
  lazymatch goal with
  | |- True => exact I
  | |- keeps _ (List_ _ _) => apply List_keeps
  | |- keeps _ (HandleLifecycle _ _ _) => apply lifecycle_keeps
  | |- keeps _ (handleJoinRequest _ _ _) => apply join_request_keeps
  | |- keeps _ (mutate _ _ _ _ _) => apply mutate_keeps
  | |- keeps _ (Join _ "group" _) => apply join_group_keeps
  | |- keeps _ (ChannelPublicJoinRequest _ _) => apply public_join_keeps
  | |- keeps _ (ChannelPublicJoinResult _ _) => apply public_result_keeps
  | |- _ => exfalso; apply Ha; apply (bool_decide_unpack _); exact I
  end.
Qed.
End Removed.

(** One request after the other; an action the module does not know changes
    nothing. *)
Definition serve_all `{MatrixIDs} {W} (cfg : Config W) (requests : list (string * content)) (w : W)
    : W :=
  foldl (fun w '(action, raw) =>
    match serve cfg action raw with Some m => (m w).1 | None => w end) w requests.

(** C20.  A removed member stays out.  Once a member is stored as removed or
    banned, no sequence of the other member actions (joining the group,
    leaving, refusing or repeating invitations, mutes, removals, join requests
    and their answers, whoever sends them and with whatever parameters) makes
    the row anything but removed, as long as Matrix does not report the member
    as joined: only an invitation, a grant, a channel join or a reactivation
    of the room can. *)
Theorem removed_member_stays_out `{GoRange} `{MatrixIDs} {X : Type} (serverName : string)
    (transport : option (Transport (T.tables * Service X))) now randomToken (ports : MemberPorts X)
    room user requests w :
  well_named room user ->
  world_keeps_removed transport randomToken ports room user ->
  Forall (fun r => r.1 ∉ readmitting) requests ->
  removed room user w ->
  removed room user
    (serve_all (membersConfig serverName transport now randomToken ports) requests w).
Proof.
  intros Hn Hw Hreq. revert w. induction Hreq as [|[action raw] reqs Ha _ IH]; intros w Hr; [done|].
  apply IH. pose proof (serve_keeps serverName transport now randomToken ports room user Hn Hw
    action raw Ha) as Hs. cbn [fst] in Ha. destruct (serve _ action raw) as [m|]; [by apply Hs|done].
Qed.

(** ** A concrete node

    [@o:x] owns the node; transport and other nodes are absent. *)
Module NodeDemo.
Local Notation W := (T.tables * Service unit)%type.
Definition member (user membership role : string) : Mem :=
  Member.set_Role role (Member.set_Membership membership (memberRecordFor "!g:x" "" user)).
Definition node (rows : list Mem) : W :=
  (JoinDemo.tables_of rows,
   {| ownerMXID := "@o:x"; profileName := "O"; profileAvatar := ""; matrix := () |}).
Definition now (w : W) : Z := 1767225600000000000.
Definition random (p : string) (w : W) : W * string := (w, p +:+ "_0").
Definition ports : MemberPorts unit := {|
  joinAndProjectRetainedRoom scope m raw w := (w, m, None);
  completeChannelJoinRequest _ m _ := ret (resultWithStatus "joined" m);
  prepareMemberInvite _ _ _ := ret (fun m _ _ => ret m);
  remoteChannelJoinRequest _ := ret None;
  emitJoinRequestChanged _ _ w := w |}.
Definition config `{MatrixIDs} : Config W := membersConfig "x" None now random ports.
Definition group_request : content := {["room_id" := AString "!g:x"]}.
End NodeDemo.

Lemma removed_member_witness :
  removed (X:=unit) "!g:x" "@o:x" (NodeDemo.node [NodeDemo.member "@o:x" "remove" "member"]) /\
  removed "!g:x" "@o:x"
    (serve_all (H:=Demo.ids) (NodeDemo.config (H:=Demo.ids))
       [("groups.join", NodeDemo.group_request); ("groups.leave", NodeDemo.group_request)]
       (NodeDemo.node [NodeDemo.member "@o:x" "remove" "member"])).
Proof.
  assert (removed (X:=unit) "!g:x" "@o:x"
    (NodeDemo.node [NodeDemo.member "@o:x" "remove" "member"])) as Hr.
  { split; [|eexists; split; [vm_compute|]; reflexivity].
    intros key m Hm. cbn in Hm. apply lookup_insert_Some in Hm as [[<- <-]|[_ Hm]]; [done|].
    by rewrite lookup_empty in Hm. }
  split; [exact Hr|].
  apply (removed_member_stays_out (H0:=Demo.ids) "x" None NodeDemo.now NodeDemo.random NodeDemo.ports);
    [by split_and!| |repeat constructor; unfold readmitting; set_solver|exact Hr].
  split; intros; first [discriminate | assumption | by intros ? ?].
Defined.
