(* ===== verification/MemberActionFacts.v ===== *)
(** * Members: theorems about single actions

    The member list, leaving and removal, and who may join a group or a
    channel, over the memory store with the service's adapters. *)

From Stdlib Require Import Ascii String ZArith Lia Sorted.
From stdpp Require Import base tactics list gmap strings.
From S2P Require Import Prelude GoStrings GoCase Values Domain Policy Action MemoryTables Workflow OperationIdentity.
From S2P Require Import PolicyFacts MemoryTablesFacts Conversation Contacts Rooms RoomWorkflows.
From S2P Require Import Members MemberWorkflows ServiceWiring RoomWiring MemberFacts MemberFlowFacts.
Import Members MemberFlow RoomWiring Wiring.
Local Open Scope Z_scope.
Local Open Scope go_scope.

Local Notation Mem := Member.MemberRecord.
Local Notation row := MemoryTables.member_key.

(** ** The member list *)

Lemma owner_then_join_asym o a b :
  owner_then_join o a b = true -> owner_then_join o b a = false.
Proof.
  unfold owner_then_join.
  destruct (str_empty o), (str_eqb (trim_space (Member.UserID a)) o),
    (str_eqb (trim_space (Member.UserID b)) o); cbn; try done; apply member_less_asym.
Qed.

Lemma owner_then_join_trans o a b c :
  not_after (owner_then_join o) a b -> not_after (owner_then_join o) b c ->
  not_after (owner_then_join o) a c.
Proof.
  unfold not_after, owner_then_join.
  destruct (str_empty o), (str_eqb (trim_space (Member.UserID a)) o),
    (str_eqb (trim_space (Member.UserID b)) o), (str_eqb (trim_space (Member.UserID c)) o);
    cbn; try done; apply member_less_trans.
Qed.

(** The rows of one room name that room. *)
Lemma single_room roomID l :
  Forall (fun m => Member.RoomID m = roomID) l -> trim_space roomID <> "" ->
  singleMemberRoomID roomID l = trim_space roomID.
Proof.
  intros Hl Hne. unfold singleMemberRoomID. induction Hl as [|m l Hm _ IH]; [done|].
  cbn [Member.RoomID]. rewrite Hm. rewrite (bool_decide_eq_false_2 _ Hne : str_empty _ = false).
  rewrite (proj2 (str_eqb_true _ _) eq_refl). exact IH.
Qed.

(** What a listed member satisfies, read off its stored row. *)
Definition listed (raw : content) (owner : string) (stored m : Mem) : Prop :=
  m = Member.set_Role (canonicalMemberRole stored (trim_space owner)) stored /\
  MemberHidden (Member.Membership stored) = false /\
  (Params.FirstString raw ["status"; "membership"] <> "" ->
   equal_fold (Member.Membership m) (Params.FirstString raw ["status"; "membership"]) = true) /\
  (Params.get_string raw "role" <> "" ->
   equal_fold (Member.Role m) (Params.get_string raw "role") = true).

Lemma elem_of_member_filter l raw owner m :
  m ∈ member_filter (List.filter (fun m => negb (MemberHidden (Member.Membership m))) l)
        (Params.FirstString raw ["status"; "membership"]) (Params.get_string raw "role") owner <->
  exists x, x ∈ l /\ listed raw owner x m.
Proof.
  unfold member_filter, SortByOwnerThenJoinOrder, listed.
  rewrite elem_of_stable_sort, list_elem_of_In, List.filter_In, List.in_map_iff.
  assert (forall s (b : bool), (negb (negb (str_empty s) && negb b) = true) <-> (s <> "" -> b = true))
    as Hopt.
  { intros s b. destruct (str_empty s) eqn:E; str_bool; destruct b; cbn; naive_solver. }
  split.
  - intros [(x & <- & Hx%List.filter_In) [Hs Hr]%andb_prop]. exists x.
    rewrite <- list_elem_of_In in Hx. destruct Hx as [Hx Hh%negb_true_iff].
    split_and!; [done..|by apply Hopt|by apply Hopt].
  - intros (x & Hx & -> & Hh & Hs & Hr). split.
    + exists x. split; [done|]. apply List.filter_In. rewrite <- list_elem_of_In. by rewrite Hh.
    + apply andb_true_intro. split; by apply Hopt.
Qed.

Section Actions.
Context `{GoRange} {X : Type}.
Local Notation world := (T.tables * Service X)%type.
Context (serverName : string) (transport : option (Transport world)) (now : world -> Z).
Context (randomToken : string -> world -> world * string) (ports : MemberPorts X).
Local Notation cfg := (membersConfig serverName transport now randomToken ports).

(** ** Leaving and removal *)

(** The member an action works on, from the stored one. *)
Definition loaded (scope channelID : string) (m : Mem) : Mem :=
  let m := if str_empty channelID then m else Member.set_ChannelID channelID m in
  if str_eqb scope "group" then Member.set_ChannelID "" m else m.

Lemma load_stored scope raw (u : M world Api.Error string) w room' ch user' m :
  memberTarget w.1 raw = (room', ch) -> room' <> "" -> user' <> "" ->
  u w = (w, Ok user') -> lookupMember w.1 room' user' = Some m ->
  loadMember cfg scope raw u w = (w, Ok (loaded scope ch m, true)).
Proof using Type.
  intros Ht Hr Hu Hw Hm. unfold loadMember, mbind_, internal.
  change (ResolveTarget cfg raw w) with (w, Ok (E:=goerror) (memberTarget w.1 raw)). rewrite Ht.
  cbn beta iota. assert (forall x, x <> "" -> str_empty x = false) as He
    by (intros; by apply bool_decide_eq_false_2).
  rewrite (He room') by done. cbn [andb]. rewrite Hw. cbn beta iota. rewrite (He user') by done.
  change (LookupMember cfg room' user' w) with (w, Ok (E:=goerror) (lookupMember w.1 room' user')).
  rewrite Hm. done.
Qed.

(** The user of a leave or removal. *)
Definition lifecycle_user (ls : lifecycleSpec) (raw : content) (w : world) : string :=
  if forceOwner ls then ownerMXID w.2 else firstMemberID raw.

(** The call to Matrix before the row is written. *)
Definition matrix_step (ls : lifecycleSpec) (m : Mem) (raw : content) : M world Api.Error unit :=
  fun w => if kick ls
           then kickMember transport (Member.RoomID m) (ownerMXID w.2) (Member.UserID m)
                  (Params.get_string raw "reason") w
           else leaveMember transport (Member.RoomID m) (Member.UserID m) w.

Lemma loaded_fields scope ch m :
  Member.RoomID (loaded scope ch m) = Member.RoomID m /\
  Member.UserID (loaded scope ch m) = Member.UserID m /\
  Member.Role (loaded scope ch m) = Member.Role m.
Proof using Type. unfold loaded. by destruct (str_empty ch), (str_eqb scope "group"). Qed.

(** The write and the reply that end a leave or removal. *)
Lemma save_and_reply action status m w :
  Member.RoomID m <> "" -> Member.UserID m <> "" ->
  let r := mbind_ (internal (save_member now m)) (fun _ => resultWithOperation cfg action status m) w in
  T.members r.1.1 = <[row m := stored_row (clock now w) m (T.members w.1 !! row m)]> (T.members w.1) /\
  forall reply, r.2 = Ok reply -> Reply.status reply = status /\ Reply.member reply = Some m.
Proof using Type.
  intros Hr Hu. cbv zeta. unfold mbind_, internal.
  assert (T.members (save_member now m w).1.1 =
    <[row m := stored_row (clock now w) m (T.members w.1 !! row m)]> (T.members w.1)) as Hs.
  { unfold save_member, store_step, lift_store. destruct w as [s x]. cbn [fst snd].
    pose proof (saveMember_members (clock now (s, x)) s m Hr Hu) as Hm.
    destruct (saveMember _ s m) as [s' o]. exact Hm. }
  destruct (save_member now m w) as [w1 [[]|e]]; [|done]. cbn [fst] in Hs.
  unfold resultWithOperation, attachOperation, HydrateResult, mbind_, internal.
  change (Operation cfg action status (Member.RoomID m) w1) with (w1,
    Conversation.Operation serviceConversationHydrator w1 action status (Member.RoomID m)).
  destruct (Conversation.Operation _ _ _ _ _) as [[op conv]|e]; [|done].
  split; [exact Hs|]. by intros reply [= <-].
Qed.

(** The leave and removal actions: one call to Matrix, no check of an
    invitation. *)
Lemma lifecycle_shape action ls :
  lifecycleSpecs action = Some ls -> requireInvite ls = false ->
  leave ls = negb (kick ls) /\ status_ ls = "ok".
Proof using Type.
  unfold lifecycleSpecs. intros El Hr.
  repeat match type of El with (if ?b then _ else _) = _ => destruct b end; by simplify_eq/=.
Qed.

(** The action on a stored member. *)
Lemma lifecycle_run action ls raw w room' ch m :
  lifecycleSpecs action = Some ls -> requireInvite ls = false ->
  memberTarget w.1 raw = (room', ch) -> room' <> "" -> lifecycle_user ls raw w <> "" ->
  lookupMember w.1 room' (lifecycle_user ls raw w) = Some m ->
  HandleLifecycle cfg action raw w =
    apply_lifecycle cfg ls action (loaded (scope_ ls) ch m) raw w.
Proof using Type.
  intros El Hr Ht Hroom Hu Hm. unfold HandleLifecycle. rewrite El. unfold mbind_ at 1.
  erewrite load_stored; [|exact Ht|exact Hroom|exact Hu| |exact Hm]; [by rewrite Hr|].
  unfold lifecycle_user. by destruct (forceOwner ls).
Qed.

Lemma lifecycle_owner ls action m raw w :
  leave ls = negb (kick ls) -> equal_fold (Member.Role m) "owner" = true ->
  apply_lifecycle cfg ls action m raw w =
    (w, Err (Api.StatusError 409
      (scope_ ls +:+ " owner cannot leave; dissolve the " +:+ scope_ ls +:+ " instead"))).
Proof using Type.
  intros Hl Ho. unfold apply_lifecycle. rewrite Ho, Hl. by destruct (kick ls).
Qed.

Lemma lifecycle_other ls action m raw w :
  leave ls = negb (kick ls) -> equal_fold (Member.Role m) "owner" = false ->
  let m' := Member.set_Membership (membership_ ls) m in
  apply_lifecycle cfg ls action m raw w =
    mbind_ (matrix_step ls m raw) (fun _ => mbind_ (internal (save_member now m'))
      (fun _ => resultWithOperation cfg action (status_ ls) m')) w.
Proof using Type.
  intros Hl Ho. cbv zeta. unfold apply_lifecycle, matrix_step. rewrite Ho, andb_false_r, Hl.
  unfold mbind_, ret. destruct (kick ls); cbn [negb].
  - change (owner_now cfg w) with (w, Ok (E:=Api.Error) (ownerMXID w.2)).
    change (KickMember cfg) with (kickMember transport).
    cbn [Member.RoomID Member.UserID Member.set_Membership].
    destruct (kickMember _ _ _ _ _ w) as [w1 [[]|e]]; reflexivity.
  - change (LeaveMember cfg) with (leaveMember transport).
    by destruct (leaveMember _ _ _ w) as [w1 [[]|e]].
Qed.

(** Leaving and removal.  The owner of a group or channel can neither
    leave nor be removed: the action fails with a conflict, before Matrix is
    called and with nothing changed.  For any other stored member Matrix is
    called first: if it refuses, the action fails with that error and writes
    nothing; if it accepts, exactly the member's row is written, as left or
    removed (a removed member who leaves stays removed), and the reply shows
    the member with the new membership. *)
Theorem leaving_and_removal action ls raw w room' ch m :
  lifecycleSpecs action = Some ls -> requireInvite ls = false ->
  memberTarget w.1 raw = (room', ch) -> room' <> "" -> lifecycle_user ls raw w <> "" ->
  lookupMember w.1 room' (lifecycle_user ls raw w) = Some m ->
  Member.RoomID m = room' -> Member.UserID m = lifecycle_user ls raw w ->
  let r := HandleLifecycle cfg action raw w in
  let gone := Member.set_Membership (membership_ ls) (loaded (scope_ ls) ch m) in
  (equal_fold (Member.Role m) "owner" = true ->
     r.1 = w /\ exists e, r.2 = Err e /\ Api.Status e = 409) /\
  (equal_fold (Member.Role m) "owner" = false ->
     match matrix_step ls (loaded (scope_ ls) ch m) raw w with
     | (w1, Err e) => r = (w1, Err e)
     | (w1, Ok _) =>
         T.members r.1.1 =
           <[row m := stored_row (clock now w1) gone (T.members w1.1 !! row m)]> (T.members w1.1) /\
         forall reply, r.2 = Ok reply -> Reply.status reply = "ok" /\ Reply.member reply = Some gone
     end).
Proof using Type.
  intros El Hr Ht Hroom Hu Hm HrID HuID. cbv zeta.
  destruct (lifecycle_shape _ _ El Hr) as [Hl Hst].
  rewrite (lifecycle_run _ _ _ _ _ _ _ El Hr Ht Hroom Hu Hm).
  destruct (loaded_fields (scope_ ls) ch m) as (F1 & F2 & F3). split; intros Ho.
  - rewrite lifecycle_owner by (done || by rewrite F3). eauto.
  - rewrite lifecycle_other by (done || by rewrite F3). unfold mbind_.
    destruct (matrix_step ls _ raw w) as [w1 [[]|e]]; [|reflexivity].
    set (gone := Member.set_Membership (membership_ ls) (loaded (scope_ ls) ch m)).
    assert (row gone = row m) as Hrow
      by (unfold gone, MemoryTables.member_key; cbn; by rewrite F1, F2).
    destruct (save_and_reply action (status_ ls) gone w1) as [Hs Hreply];
      [unfold gone; cbn; by rewrite F1, HrID|unfold gone; cbn; by rewrite F2, HuID|].
    rewrite Hrow, Hst in *. split; [exact Hs|exact Hreply].
Qed.

(** The member list.  For a room, the list holds exactly the stored
    members of the room (and of the channel, where one is given) that have not
    left, been removed, rejected or banned, and that pass the filters of the
    request on membership and role; the role shown is the canonical one (the
    resolved owner is the owner, everyone else a member), whatever is stored;
    and the owner comes first, then the members by join time. *)
Theorem member_list raw w room' ch w1 owner :
  memberTarget w.1 raw = (room', ch) -> trim_space room' <> "" ->
  resolveRoomOwner transport (trim_space room') w = (w1, Ok owner) ->
  exists l, List_ cfg raw w = (w1, Ok (Reply.set_members l Reply.empty)) /\
    StronglySorted (fun a b => owner_then_join (trim_space owner) b a = false) l /\
    forall m, m ∈ l <->
      exists stored, (exists k, T.members w.1 !! k = Some stored) /\
        Member.RoomID stored = room' /\ (ch <> "" -> Member.ChannelID stored = ch) /\
        listed raw owner stored m.
Proof using Type.
  intros Ht Hne Ho. unfold List_, mbind_, internal, ret.
  change (ResolveTarget cfg raw w) with (w, Ok (E:=goerror) (memberTarget w.1 raw)). rewrite Ht.
  cbv iota beta.
  change (ListMembers cfg room' ch w) with
    (w, Ok (E:=goerror) (MemoryTables.ListMembers w.1 room' ch)). cbv iota beta.
  assert (room' <> "") as Hroom by (by intros ->).
  rewrite single_room; [|apply Forall_forall; intros m Hm;
    by apply elem_of_ListMembers in Hm as (_ & ? & _)|done].
  rewrite (bool_decide_eq_false_2 _ Hne : str_empty _ = false).
  change (ResolveRoomOwner cfg) with (resolveRoomOwner (X:=X) transport). rewrite Ho.
  eexists. split; [reflexivity|]. split.
  - rewrite <- (trim_space_idemp owner).
    apply stable_sort_sorted; [apply owner_then_join_asym|apply owner_then_join_trans].
  - intros m. rewrite elem_of_member_filter. split.
    + intros (x & (Hx & Hr & Hc)%elem_of_ListMembers & Hl); eauto 10.
    + intros (x & Hx & Hr & Hc & Hl). exists x. split; [|done]. by apply elem_of_ListMembers.
Qed.
(** ** Who may join *)

(** The stored membership of a user is of one of the classes. *)
Definition stored_as (s : T.tables) (roomID userID : string) (classes : string -> bool) : bool :=
  match lookupMember s roomID userID with
  | Some m => classes (trim_space (Member.Membership m))
  | None => false
  end.

(** A group: not removed, and where the request names an invitation, one that
    is stored (or already accepted, or left). *)
Definition group_admits (s : T.tables) (roomID userID : string) (params : content) : bool :=
  let named key := negb (str_empty (Params.get_string params key)) in
  negb (stored_as s roomID userID removedMembership) &&
  (negb (named "invite_event_id" || named "direct_room_id") ||
   stored_as s roomID userID (fun x => equal_fold x "invite" || equal_fold x "join" ||
                                       leftMembership x)).

(** A channel: without a grant, not removed; with one, joined to the room the
    grant was shared in, or, when the node has no such grant, invited, removed
    or left before. *)
Definition channel_admits (s : T.tables) (roomID channelID userID : string) (params : content)
    : bool :=
  if removedMemberHasFreshInvite "channel" params then
    match find (grant_matches params) (MemoryTables.ListChannelInviteGrants s) with
    | Some grant =>
        (str_empty roomID || str_eqb (Grant.RoomID grant) roomID) &&
        (str_empty channelID || str_eqb (Grant.ChannelID grant) channelID) &&
        stored_as s (Grant.ShareRoomID grant) userID (fun x => equal_fold x "join")
    | None => stored_as s roomID userID
                (fun x => equal_fold x "invite" || removedMembership x || leftMembership x)
    end
  else negb (stored_as s roomID userID removedMembership).

Lemma removed_guard (s : T.tables) roomID userID :
  match lookupMember s roomID userID with
  | Some m => removedMembership (Member.Membership m)
  | None => false
  end = stored_as s roomID userID removedMembership.
Proof using Type.
  unfold stored_as. destruct (lookupMember s roomID userID) as [m|]; [|done].
  by rewrite removed_trim.
Qed.

Definition joining (scope roomID channelID userID : string) (raw : content) (w : world) : Mem :=
  ApplyLocalProfile cfg (joining_member cfg scope roomID channelID userID
    (lookupMember w.1 roomID userID) raw) w.

(** A guard that passes, or the error it fails with. *)
Ltac refused :=
  first [exists (Api.StatusError 403 ""); split; [by left|reflexivity]
        |eexists; split; [|reflexivity]; cbn; auto].

Lemma group_guard roomID userID raw w :
  exists e : Api.Error, (Api.Status e = 403 \/ Api.Status e = 410) /\
  requireRecordedGroupInvite cfg roomID userID raw w =
    (w, if (str_empty (Params.get_string raw "invite_event_id") &&
            str_empty (Params.get_string raw "direct_room_id")) ||
           stored_as w.1 roomID userID (fun x => equal_fold x "invite" || equal_fold x "join" ||
                                       leftMembership x)
        then Ok tt else Err e).
Proof using Type.
  exists (Api.CodedError 410 Identity.RequestExpiredCode "group invite is missing or expired").
  split; [by right|]. unfold requireRecordedGroupInvite.
  destruct (str_empty _ && str_empty _); [done|]. unfold mbind_, internal.
  change (LookupMember cfg roomID userID w) with
    (w, Ok (E:=goerror) (lookupMember w.1 roomID userID)).
  cbv iota beta. unfold stored_as. destruct (lookupMember w.1 roomID userID) as [m|]; [|done].
  unfold leftMembership, canonical_membership. rewrite trim_space_idemp. by destruct (_ || _).
Qed.

Lemma channel_guard roomID channelID userID raw w :
  removedMemberHasFreshInvite "channel" raw = true ->
  exists e : Api.Error, (Api.Status e = 403 \/ Api.Status e = 410) /\
  requireChannelInviteGrant cfg roomID channelID userID raw w =
    (w, if channel_admits w.1 roomID channelID userID raw then Ok tt else Err e).
Proof using Type.
  intros Hg. unfold requireChannelInviteGrant, channel_admits, lookupChannelInviteGrant. rewrite Hg.
  cbv iota beta. cbn [negb]. unfold mbind_, internal, ret, fail.
  change (ListChannelInviteGrants cfg w) with
    (w, Ok (E:=goerror) (MemoryTables.ListChannelInviteGrants w.1)). cbv iota beta.
  destruct (find _ _) as [g|].
  - assert (LookupMember cfg (Grant.ShareRoomID g) userID w =
      (w, Ok (lookupMember w.1 (Grant.ShareRoomID g) userID))) as Hshare by done.
    unfold stored_as.
    destruct (str_empty roomID), (str_eqb (Grant.RoomID g) roomID), (str_empty channelID),
      (str_eqb (Grant.ChannelID g) channelID); cbn [negb andb orb]; try (by refused);
      rewrite Hshare; (destruct (lookupMember _ _ _) as [m|]; [|by refused]);
      destruct (equal_fold (trim_space (Member.Membership m)) "join"); refused.
  - change (LookupMember cfg roomID userID w) with
      (w, Ok (E:=goerror) (lookupMember w.1 roomID userID)).
    unfold stored_as. destruct (lookupMember _ _ _) as [m|]; [|cbn; refused].
    rewrite andb_true_r, orb_assoc. destruct (_ || _); refused.
Qed.

(** C24.  Who may join.  A join runs its guards in order, and they decide
    exactly as follows.  A group admits anyone who is not stored as removed;
    where the request names an invitation, only someone whose row is invited,
    joined or left.  A channel, for a request without a grant, admits anyone
    who is not removed; for a request with one, only a user who is joined to
    the room the stored grant was shared in, the grant being the one for this
    room and channel, or, when the node stores no such grant, someone it has
    as invited, removed or left.  A user who is not admitted gets an error of
    status 403 or 410 and nothing changes; a user who is admitted is joined to
    Matrix with a row that says joined. *)
Theorem who_may_join scope roomID channelID userID raw w :
  scope = "group" \/ scope = "channel" ->
  let admits := if str_eqb scope "group" then group_admits w.1 roomID userID raw
                else channel_admits w.1 roomID channelID userID raw in
  let r := join_target cfg scope roomID channelID userID raw w in
  if admits then r = join_retained cfg scope (joining scope roomID channelID userID raw w) raw w
  else exists e, r = (w, Err e) /\ (Api.Status e = 403 \/ Api.Status e = 410).
Proof using Type.
  intros Hs. cbv zeta. unfold join_target, mbind_, internal, ret, fail.
  change (LookupMember cfg roomID userID) with (lookup_member roomID userID (X:=X)).
  unfold lookup_member, asks, reads. destruct Hs as [-> | ->]; cbn [str_eqb].
  - change (str_eqb "group" "group") with true. change (str_eqb "group" "channel") with false.
    cbv iota. destruct (group_guard roomID userID raw w) as (e & He & ->).
    unfold group_admits. rewrite removed_guard. cbn [orb].
    destruct (str_empty (Params.get_string raw "invite_event_id")),
      (str_empty (Params.get_string raw "direct_room_id")),
      (stored_as w.1 roomID userID removedMembership),
      (stored_as w.1 roomID userID (fun x => _)); cbn; eauto.
  - change (str_eqb "channel" "group") with false. change (str_eqb "channel" "channel") with true.
    cbv iota. destruct (removedMemberHasFreshInvite "channel" raw) eqn:Hg.
    + destruct (channel_guard roomID channelID userID raw w Hg) as (e & He & ->).
      destruct (channel_admits w.1 roomID channelID userID raw); [|eauto].
      cbn [negb orb]. by rewrite andb_false_r.
    + unfold requireChannelInviteGrant, channel_admits. rewrite Hg. cbn [negb orb]. unfold ret.
      rewrite removed_guard, andb_true_r.
      destruct (stored_as w.1 roomID userID removedMembership); cbn [negb]; [eauto|done].
Qed.
End Actions.

Lemma leaving_and_removal_witness :
  exists reply,
    (HandleLifecycle (NodeDemo.config (H:=Demo.ids)) "groups.leave" NodeDemo.group_request
       (NodeDemo.node [NodeDemo.member "@o:x" "join" "member"])).2 = Ok reply /\
    Reply.status reply = "ok" /\
    option_map Member.Membership (Reply.member reply) = Some "leave".
Proof.
  eexists. split; [vm_compute; reflexivity|].
  pose (w := NodeDemo.node [NodeDemo.member "@o:x" "join" "member"]).
  destruct (leaving_and_removal "x" None NodeDemo.now NodeDemo.random NodeDemo.ports
    "groups.leave" (default (Build_lifecycleSpec "" "" "" false false false false)
       (lifecycleSpecs "groups.leave")) NodeDemo.group_request w "!g:x" ""
    (NodeDemo.member "@o:x" "join" "member")) as [_ Hother];
    [reflexivity|reflexivity|vm_compute; reflexivity|discriminate|discriminate
    |vm_compute; reflexivity|reflexivity|reflexivity|].
  specialize (Hother ltac:(vm_compute; reflexivity)).
  change (matrix_step (X:=unit) None _ _ _ w) with (w, Ok (E:=Api.Error) tt) in Hother.
  cbv iota beta in Hother. destruct Hother as [_ Hreply].
  edestruct Hreply as [Hs Hm]; [vm_compute; reflexivity|]. split; [exact Hs|]. by rewrite Hm.
Defined.

Lemma member_list_witness :
  exists l,
    List_ (NodeDemo.config (H:=Demo.ids)) NodeDemo.group_request
      (NodeDemo.node [NodeDemo.member "@o:x" "join" "member"; NodeDemo.member "@p:x" "remove" "member"])
      = (NodeDemo.node [NodeDemo.member "@o:x" "join" "member"; NodeDemo.member "@p:x" "remove" "member"],
         Ok (Reply.set_members l Reply.empty)) /\
    NodeDemo.member "@o:x" "join" "member" ∈ l.
Proof.
  pose (w := NodeDemo.node
    [NodeDemo.member "@o:x" "join" "member"; NodeDemo.member "@p:x" "remove" "member"]).
  destruct (member_list "x" None NodeDemo.now NodeDemo.random NodeDemo.ports NodeDemo.group_request
    w "!g:x" "" w "") as (l & Hl & _ & Hin);
    [vm_compute; reflexivity|discriminate|vm_compute; reflexivity|].
  exists l. split; [exact Hl|]. apply Hin. exists (NodeDemo.member "@o:x" "join" "member").
  split; [exists "!g:x|@o:x"; vm_compute; reflexivity|]. split; [reflexivity|]. split; [done|].
  split_and!; [vm_compute; reflexivity..|intros Hne; by destruct Hne|intros Hne; by destruct Hne].
Defined.

Lemma who_may_join_witness :
  join_target (NodeDemo.config (H:=Demo.ids)) "group" "!g:x" "" "@o:x" NodeDemo.group_request
    (NodeDemo.node [NodeDemo.member "@o:x" "invite" "member"]) =
  join_retained (NodeDemo.config (H:=Demo.ids)) "group"
    (joining "x" None NodeDemo.now NodeDemo.random NodeDemo.ports "group" "!g:x" "" "@o:x"
       NodeDemo.group_request (NodeDemo.node [NodeDemo.member "@o:x" "invite" "member"]))
    NodeDemo.group_request (NodeDemo.node [NodeDemo.member "@o:x" "invite" "member"]).
Proof.
  exact (who_may_join "x" None NodeDemo.now NodeDemo.random NodeDemo.ports "group" "!g:x" "" "@o:x"
    NodeDemo.group_request (NodeDemo.node [NodeDemo.member "@o:x" "invite" "member"])
    (or_introl eq_refl)).
Defined.
