(* ===== verification/RoomFlowFacts.v ===== *)
(** * Channels and groups: theorems

    Only the owner of a room changes or dissolves it; muting a channel mutes
    exactly its visible members other than the owner. *)

From Stdlib Require Import Ascii String ZArith Lia.
From stdpp Require Import base tactics list gmap strings.
From S2P Require Import Prelude GoStrings Values Domain Policy Action MemoryTables Workflow.
From S2P Require Import RoomState PolicyFacts MemoryTablesFacts Conversation Contacts Rooms.
From S2P Require Import RoomWorkflows Members ServiceWiring RoomWiring MemberFacts MemberFlowFacts.
Import Members RoomWiring Wiring.
Local Open Scope Z_scope.
Local Open Scope go_scope.

Local Notation Mem := Member.MemberRecord.
Local Notation row := MemoryTables.member_key.

(** The members a mute of the room is for. *)
Definition mutable (m : Mem) : bool :=
  negb (MemberHidden (Member.Membership m) || ProductOwnerRole (Member.Role m)).

Lemma stored_muted now m old : Member.Muted (stored_row now m old) = Member.Muted m.
Proof.
  unfold stored_row. cbn.
  assert (Member.Muted (normalize_saved now m) = Member.Muted m) as E
    by (unfold normalize_saved; by destruct (_ =? 0)).
  destruct old as [old|]; [|done]. rewrite <- E. unfold mergeMemberPersistence. cbv zeta.
  repeat match goal with |- context [if ?b then _ else _] => destruct b end; done.
Qed.

Section Rooms.
Context `{GoRange} {X : Type}.
Local Notation world := (T.tables * Service X)%type.
Context (serverName : string) (transport : option (Transport world)) (now : world -> Z).
Context (randomToken : string -> world -> world * string) (ports : ChannelPorts X).
Local Notation cfg := (channelsConfig serverName transport now randomToken ports).

(** Sending a state event leaves the members of the store as they are. *)
Definition events_keep_members : Prop :=
  forall t room sender event w, transport = Some t ->
    T.members (SendStateEvent t room sender event w).1.1 = T.members w.1.

Lemma publish_members room event w :
  events_keep_members -> T.members (publish transport room event w).1.1 = T.members w.1.
Proof using Type.
  intros Hq. unfold publish. destruct transport as [t|] eqn:Et; [|done].
  destruct (str_empty _); [done|]. by apply Hq.
Qed.

(** The row a save writes, also for a row without a name. *)
Lemma save_member_row (m : Mem) (w : world) :
  exists y, row y = row m /\ Member.Muted y = Member.Muted m /\
    T.members (save_member now m w).1.1 = <[row m := y]> (T.members w.1).
Proof using Type.
  destruct w as [s x]. unfold save_member, store_step, lift_store. cbn [fst snd].
  set (c := clock now (s, x)).
  assert (exists old, T.members (saveMember c s m).1 =
    <[row m := stored_row c m old]> (T.members s)) as [old Hs].
  { unfold saveMember. rewrite refresh_counts_members. cbv zeta.
    set (o := if _ && _ then _ else _). exists o.
    change (T.members (MemoryTables.UpsertMember s ?x)) with (<[row (MemoryTables.normalizeMemberRecord x) := MemoryTables.normalizeMemberRecord x]> (T.members s)).
    fold (stored_row c m o). by rewrite stored_row_key. }
  exists (stored_row c m old). split; [apply stored_row_key|]. split; [apply stored_muted|].
  destruct (saveMember c s m) as [s' r]. exact Hs.
Qed.

Lemma mute_member_row muted (m : Mem) (w : world) :
  events_keep_members ->
  let r := mute_member transport now muted m w in
  if mutable m
  then exists y, row y = row m /\ Member.Muted y = muted /\
         T.members r.1.1 = <[row m := y]> (T.members w.1)
  else r = (w, Ok tt).
Proof using Type.
  intros Hq. cbv zeta. unfold mutable, mute_member. destruct (_ || _); [done|]. cbn [negb].
  destruct (save_member_row (Member.set_Muted muted m) w) as (y & Hy & Hm & Hs).
  exists y. split; [exact Hy|]. split; [exact Hm|]. unfold mbind_.
  destruct (save_member now (Member.set_Muted muted m) w) as [w1 [[]|e]]; [|exact Hs].
  cbn [fst] in Hs. change (row (Member.set_Muted muted m)) with (row m) in Hs. rewrite <- Hs.
  unfold as_goerror, publishMemberPolicyState. destruct (str_empty _); [done|].
  destruct (str_empty _); [done|]. unfold internal.
  pose proof (publish_members (Member.RoomID (Member.set_Muted muted m))
    (RoomState.MemberPolicyState (Member.set_Muted muted m)) w1 Hq) as Hp.
  by destruct (publish _ _ _ w1) as [w2 [[]|e]].
Qed.

(** The loop over the members. *)
Lemma mute_loop muted l (w w' : world) :
  events_keep_members ->
  for_each (mute_member transport now muted) l w = (w', Ok tt) ->
  forall k,
    (k ∈ row <$> List.filter mutable l ->
       exists y, T.members w'.1 !! k = Some y /\ row y = k /\ Member.Muted y = muted) /\
    (k ∉ row <$> List.filter mutable l -> T.members w'.1 !! k = T.members w.1 !! k).
Proof using Type.
  intros Hq. revert w. induction l as [|m l IH]; intros w.
  { intros [= <-] k. split; [by intros ?%elem_of_nil|done]. }
  cbn [for_each]. unfold mbind_. pose proof (mute_member_row muted m w Hq) as Hm. cbv zeta in Hm.
  destruct (mute_member transport now muted m w) as [w1 [[]|e]] eqn:E; [|done].
  intros Hl k. destruct (IH w1 Hl k) as [IH1 IH2]. cbn [List.filter].
  destruct (mutable m) eqn:Em; [|injection Hm as ->; by split].
  destruct Hm as (y & Hy & Hmu & Hs). cbn [fst] in Hs. cbn [fmap list_fmap].
  destruct (decide (k ∈ row <$> List.filter mutable l)) as [Hin|Hin].
  - split; [auto|]. intros Hn. exfalso. apply Hn. by right.
  - rewrite (IH2 Hin), Hs. split.
    + intros [-> | ?]%elem_of_cons; [|done]. exists y. by rewrite lookup_insert_eq.
    + intros [Hne _]%not_elem_of_cons. by rewrite lookup_insert_ne.
Qed.

(** Muting a channel.  When [channels.mute] or [channels.unmute] succeeds,
    every member of the channel who has not left or been removed and is not
    an owner is stored with the new setting, and every other row, of this room
    or another, is exactly what it was. *)
Theorem muting_a_channel muted raw ch w w' reply :
  events_keep_members -> members_ok (T.members w.1) ->
  ChannelFlow.requested (X:=Service X) raw w = (w, Ok ch) -> Chan.RoomID ch <> "" ->
  ChannelFlow.policyHandler (clock now) cfg muted raw w = (w', Ok reply) ->
  forall k,
    match T.members w.1 !! k with
    | Some m =>
        if MemoryTables.in_scope (Chan.RoomID ch) (Chan.ChannelID ch) m && mutable m
        then exists y, T.members w'.1 !! k = Some y /\ row y = k /\ Member.Muted y = muted
        else T.members w'.1 !! k = Some m
    | None => T.members w'.1 !! k = None
    end.
Proof using Type.
  intros Hq Hok Hreq Hroom. unfold ChannelFlow.policyHandler, mbind_. rewrite Hreq. cbv iota beta.
  assert (T.members (ChannelFlow.save (clock now) (Chan.set_Muted muted ch) w).1.1 = T.members w.1)
    as Hs.
  { destruct w as [s x]. unfold ChannelFlow.save, store_step, lift_store, Channels.Save. cbn [fst snd].
    pose proof (Save_conversation_members (clock now (s, x))
      (MemoryTables.UpsertChannel s (Chan.set_Muted muted ch))
      (ConversationFromChannel (Chan.set_Muted muted ch))) as Hc.
    by destruct (Conversation.Save _ _ _) as [s' r]. }
  unfold internal at 1. destruct (ChannelFlow.save _ _ w) as [w1 [[]|e]]; [|done]. cbn [fst] in Hs.
  cbn [channelsConfig ChannelFlow.SetMemberMute]. unfold internal, setProductMemberMute, mbind_, asks, reads.
  set (l := MemoryTables.ListMembers w1.1 (Chan.RoomID ch) (Chan.ChannelID ch)).
  change (MemoryTables.ListMembers w1.1 _ _) with l.
  destruct (for_each _ l w1) as [w2 [[]|e]] eqn:El; [|done]. intros [= <- _] k.
  destruct (mute_loop muted l w1 w2 Hq El k) as [H1 H2]. rewrite Hs in H2.
  assert (k ∈ row <$> List.filter mutable l <-> exists m, T.members w.1 !! k = Some m /\
    MemoryTables.in_scope (Chan.RoomID ch) (Chan.ChannelID ch) m && mutable m = true) as Hk.
  { rewrite list_elem_of_fmap. split.
    - intros (m & -> & Hm). apply list_elem_of_In, List.filter_In in Hm as [Hm Hmu].
      apply list_elem_of_In in Hm. unfold l, MemoryTables.ListMembers in Hm.
      unfold MemoryTables.sortMemoryMembers in Hm. rewrite elem_of_stable_sort in Hm.
      apply list_elem_of_In, List.filter_In in Hm as [Hm Hsc].
      apply list_elem_of_In, elem_of_go_values in Hm as [key Hm]. rewrite Hs in Hm.
      exists m. rewrite <- (Hok _ _ Hm). by rewrite Hsc, Hmu.
    - intros (m & Hm & [Hsc Hmu]%andb_prop). exists m. split; [by rewrite (Hok _ _ Hm)|].
      apply list_elem_of_In, List.filter_In. split; [|done]. apply list_elem_of_In. unfold l.
      unfold MemoryTables.ListMembers, MemoryTables.sortMemoryMembers. rewrite elem_of_stable_sort.
      apply list_elem_of_In, List.filter_In. split; [|done]. apply list_elem_of_In, elem_of_go_values.
      exists k. by rewrite Hs. }
  destruct (T.members w.1 !! k) as [m|] eqn:Em.
  - destruct (_ && mutable m) eqn:Esc; [apply H1, Hk; eauto|]. apply H2. rewrite Hk.
    intros (m' & [= <-] & Hc). congruence.
  - apply H2. rewrite Hk. by intros (m' & ? & _).
Qed.
(** Saving a channel puts it in the table, whatever happens to its
    conversation. *)
Lemma channel_saved (ch : Chan.Channel) (w : world) :
  T.channels (ChannelFlow.save (clock now) ch w).1.1 =
  <[Chan.ChannelID ch := ch]> (T.channels w.1).
Proof using Type.
  destruct w as [s x]. unfold ChannelFlow.save, store_step, lift_store, Channels.Save, Conversation.Save.
  cbn [fst snd].
  change (@UpsertConversation T.tables _) with MemoryTables.UpsertConversation.
  destruct (UpsertConversation_cases (clock now (s, x)) (MemoryTables.UpsertChannel s ch)
    (NormalizeConversationRecord (clock now (s, x)) (ConversationFromChannel ch)))
    as [[_ [e Hs]]|[_ Hs]]; cbv zeta in Hs; by rewrite Hs.
Qed.

(** The profile of the channel, sent to its room. *)
Definition channel_profile (ch : Chan.Channel) (dissolved : bool) : M world Api.Error unit :=
  internal (publish transport (Chan.RoomID ch) (RoomState.ChannelRoomProfile ch dissolved)).

Lemma publish_blank room event w :
  str_empty (trim_space room) = true -> publish transport room event w = (w, Ok tt).
Proof using Type. intros Hr. unfold publish. rewrite Hr. by destruct transport. Qed.

Lemma publishState_profile (ch : Chan.Channel) dissolved w :
  internal (ChannelFlow.publishState cfg ch dissolved) w = channel_profile ch dissolved w.
Proof using Type.
  unfold ChannelFlow.publishState, channel_profile, internal.
  destruct (str_empty (trim_space (Chan.RoomID ch))) eqn:E; [by rewrite publish_blank|done].
Qed.

(** What the owner of a channel may do.  Unless the local user's own row in
    the channel is a visible owner row, updating and dissolving fail with 403
    and change nothing.  An update by the owner stores the channel with the
    given fields replaced, then sends exactly that profile to the room, and
    replies with it.  Dissolving sends the profile marked dissolved first: if
    Matrix refuses, the action fails and the channel stays; only once Matrix
    has accepted is the channel deleted. *)
Theorem channel_owner_actions raw ch (w : world) :
  ChannelFlow.requested (X:=Service X) raw w = (w, Ok ch) ->
  let update := ChannelFlow.Update (clock now) cfg raw w in
  let dissolve := ChannelFlow.Dissolve cfg raw w in
  let new := ChannelFlow.updated ch raw in
  match requireOwnerMember w.1 (ownerMXID w.2) (Chan.RoomID ch) with
  | Err e => Api.Status e = 403 /\ update = (w, Err e) /\ dissolve = (w, Err e)
  | Ok _ =>
      (exists w1 saved, T.channels w1.1 = <[Chan.ChannelID ch := new]> (T.channels w.1) /\
         update = match saved with
                  | Err e => (w1, Err e)
                  | Ok tt => mbind_ (channel_profile new false)
                               (fun _ => ret (ChannelFlow.RChannel new)) w1
                  end) /\
      match channel_profile ch true w with
      | (w1, Err e) => dissolve = (w1, Err e)
      | (w1, Ok tt) => dissolve = ((Channels.Delete w1.1 (Chan.ChannelID ch), w1.2),
                                   Ok (ChannelFlow.RDissolved ch))
      end
  end.
Proof using Type.
  intros Hreq. cbv zeta. unfold ChannelFlow.Update, ChannelFlow.Dissolve, mbind_. rewrite Hreq.
  cbv iota beta.
  change (ChannelFlow.RequireOwner cfg (Chan.RoomID ch) w) with
    (w, requireOwnerMember w.1 (ownerMXID w.2) (Chan.RoomID ch)).
  destruct (requireOwnerMember w.1 (ownerMXID w.2) (Chan.RoomID ch)) as [[]|e] eqn:Eo; cbv iota beta.
  - split.
    + pose proof (channel_saved (ChannelFlow.updated ch raw) w) as Hs. unfold internal at 1.
      destruct (ChannelFlow.save _ _ w) as [w1 [[]|e]]; cbn [fst] in Hs.
      * exists w1, (Ok tt). split; [exact Hs|]. by rewrite publishState_profile.
      * exists w1, (Err (Api.InternalError (error_text e))). by split.
    + rewrite publishState_profile. by destruct (channel_profile ch true w) as [w1 [[]|e]].
  - split; [|by split]. unfold requireOwnerMember in Eo.
    destruct (lookupMember _ _ _) as [m|]; [destruct (_ || _)|]; by simplify_eq.
Qed.
End Rooms.

(** ** A concrete node

    [@o:x] owns the channel [c1]; [@p:x] is a member of it. *)
Module ChannelDemo.
Local Notation W := (T.tables * Service unit)%type.
Definition member (user role : string) : Mem :=
  Member.set_Role role (memberRecordFor "!c:x" "c1" user).
Definition channel : Chan.Channel := ChannelFlow.new_channel "c1" {["room_id" := AString "!c:x"]}.
Definition node : W :=
  (MemoryTables.UpsertChannel
     (JoinDemo.tables_of [member "@o:x" "owner"; member "@p:x" "member"]) channel,
   {| ownerMXID := "@o:x"; profileName := "O"; profileAvatar := ""; matrix := () |}).
Definition ports : ChannelPorts unit := {|
  remotePublicChannelGet _ _ _ := ret None;
  remoteUserPublicChannels user _ := ret (user, []);
  matrixRoomIDQuery _ := false |}.
(** A Matrix server that refuses every event. *)
Definition refusing : Transport W := {|
  SendStateEvent _ _ _ := fail (ErrOther "refused");
  TransportCreateRoom _ := fail (ErrOther "refused");
  KickUser _ _ _ _ := fail (ErrOther "refused");
  LeaveRoom _ _ := fail (ErrOther "refused");
  GetRoomChannel _ := fail (ErrOther "refused");
  ListRoomMembers _ := fail (ErrOther "refused");
  ReadRoomCreator := None;
  JoinedRoomReady := None |}.
Definition config (transport : option (Transport W)) : ChannelFlow.Config W :=
  channelsConfig "x" transport NodeDemo.now NodeDemo.random ports.
Definition request : content := {["channel_id" := AString "c1"]}.
End ChannelDemo.

Lemma demo_requested :
  ChannelFlow.requested ChannelDemo.request ChannelDemo.node =
  (ChannelDemo.node, Ok ChannelDemo.channel).
Proof. vm_compute. reflexivity. Qed.

Lemma muting_a_channel_witness :
  exists w' reply y,
    ChannelFlow.policyHandler (clock NodeDemo.now) (ChannelDemo.config None) true
      ChannelDemo.request ChannelDemo.node = (w', Ok reply) /\
    T.members w'.1 !! "!c:x|@p:x" = Some y /\ Member.Muted y = true.
Proof.
  eexists _, _. 
  assert (members_ok (T.members ChannelDemo.node.1)) as Hok.
  { intros key m Hm. cbn in Hm. apply lookup_insert_Some in Hm as [[<- <-]|[_ Hm]]; [done|].
    apply lookup_insert_Some in Hm as [[<- <-]|[_ Hm]]; [done|]. by rewrite lookup_empty in Hm. }
  pose proof (muting_a_channel "x" None NodeDemo.now NodeDemo.random ChannelDemo.ports true
    ChannelDemo.request ChannelDemo.channel ChannelDemo.node
    (ChannelFlow.policyHandler (clock NodeDemo.now) (ChannelDemo.config None) true
      ChannelDemo.request ChannelDemo.node).1 (ChannelFlow.RPolicy (Chan.set_Muted true ChannelDemo.channel))
    ltac:(by intros ?) Hok demo_requested ltac:(discriminate) ltac:(vm_compute; reflexivity)
    "!c:x|@p:x") as Hk.
  destruct Hk as (y & Hy & _ & Hm). exists y. split; [|by split]. vm_compute. reflexivity.
Defined.

Lemma channel_owner_actions_witness :
  ChannelFlow.Dissolve (ChannelDemo.config (Some ChannelDemo.refusing)) ChannelDemo.request
    ChannelDemo.node = (ChannelDemo.node, Err (Api.InternalError "refused")).
Proof.
  exact (proj2 (channel_owner_actions "x" (Some ChannelDemo.refusing) NodeDemo.now NodeDemo.random
    ChannelDemo.ports ChannelDemo.request ChannelDemo.channel ChannelDemo.node demo_requested)).
Defined.

(** Muting is not Matrix-first: when Matrix refuses the first policy event, the
    action fails, and the channel is stored as muted all the same. *)
Lemma mute_precedes_matrix :
  let r := ChannelFlow.policyHandler (clock NodeDemo.now)
             (ChannelDemo.config (Some ChannelDemo.refusing)) true
             ChannelDemo.request ChannelDemo.node in
  r.2 = Err (Api.InternalError "internal error: refused") /\
  Chan.Muted <$> Channels.ByIDOrRoom r.1.1 "c1" "" = Some true.
Proof. vm_compute. by split. Qed.
