(* ===== verification/ContactsFacts.v ===== *)
(** * Contacts: theorems

    The workflows over the memory store keep one contact per peer, a saved
    contact and its conversation agree, and decisions are fenced. *)

From Stdlib Require Import Ascii String ZArith Lia.
From stdpp Require Import base tactics list gmap strings.
From S2P Require Import Prelude GoStrings Values Domain Policy PolicyFacts Action MemoryTables Workflow.
From S2P Require Import OperationIdentity Conversation Contacts ContactWorkflows MemoryTablesFacts.
Import Contacts ContactFlow.
Local Open Scope Z_scope.
Local Open Scope go_scope.

(** The ports keep an invariant of the world. *)
Record ports_keep {W} (P : W -> Prop) (cfg : Config W) : Prop := {
  keep_deleteGroup : forall f room, deleteGroup cfg = Some f -> keeps P (f room);
  keep_leaveRoom : forall f room, leaveRoom cfg = Some f -> keeps P (f room);
  keep_acceptRoom : forall f c names, acceptRoom cfg = Some f -> keeps P (f c names);
  keep_createRoom : forall f r, createRoom cfg = Some f -> keeps P (f r);
  keep_inviteRoom : forall f c, inviteRoom cfg = Some f -> keeps P (f c);
  keep_joinRoom : forall f r w, joinRoom cfg = Some f -> P w -> P (f r w).1;
  keep_newDirectRoomID : forall f w, newDirectRoomID cfg = Some f -> P w -> P (f w).1;
  keep_reactivatePeer : forall f r, reactivatePeer cfg = Some f -> keeps P (f r);
  keep_reactivateRoom : forall f p room peer, reactivateRoom cfg = Some f ->
    keeps P (f p room peer);
  keep_checkPeerBlocked : forall f peer, checkPeerBlocked cfg = Some f -> keeps P (f peer);
  keep_matrixJoined : forall f room user, matrixJoined cfg = Some f -> keeps P (f room user);
}.

Lemma or_given_same a b : a = "" \/ a = b -> or_given a b = b.
Proof. intros [-> | ->]; [done|]. unfold or_given. by destruct (str_empty b). Qed.

Section Flow.
Context `{GoRange} {X : Type}.
Local Notation world := (T.tables * X)%type.
Context (hydrator : Conversation.Hydrator world) (clock : world -> Z).
Context (waiting : string -> world -> world) (cfg : Config world).

(** Every contact is filed under its room, no peer has two contacts, and the
    stored peers have no surrounding space. *)
Definition contacts_in_order (w : world) : Prop :=
  contacts_ok (T.contacts w.1) /\
  forall k c, T.contacts w.1 !! k = Some c -> trimmed (Contact.PeerMXID c).

(** One write of anybody else: the contacts are as they were, cleared by a reset
    of the store, or changed by one operation of the store, with a peer that has
    no surrounding space; a swap leaves the contact to the peer it expects. *)
Definition written (op : contact_op) : Contact.ContactRecord :=
  match op with COUpsert c | COSwap c _ | COProject _ c _ => c end.

Inductive contact_write : world -> world -> Prop :=
| write_beside w w' : T.contacts w'.1 = T.contacts w.1 -> contact_write w w'
| write_reset w w' : T.contacts w'.1 = ∅ -> contact_write w w'
| write_contact_op op w w' :
    keeps_peer op -> trimmed (Contact.PeerMXID (written op)) ->
    T.contacts w'.1 = T.contacts (contact_step w.1 op) -> contact_write w w'.

Definition moves : world -> world -> Prop := rtc contact_write.

Lemma trimmed_step (s : T.tables) op :
  trimmed (Contact.PeerMXID (written op)) ->
  (forall k c, T.contacts s !! k = Some c -> trimmed (Contact.PeerMXID c)) ->
  forall k c, T.contacts (contact_step s op) !! k = Some c -> trimmed (Contact.PeerMXID c).
Proof.
  intros Ht Hall k c. destruct op as [d|d e|now d e]; cbn.
  - intros [[_ <-]|[_ Hk]]%lookup_insert_Some; [done|].
    destruct (negb _); [apply map_lookup_filter_Some in Hk as [Hk _]|]; eapply Hall, Hk.
  - unfold MemoryTables.CompareAndSwapContact.
    destruct (MemoryTables.expected_contact s e) as [k'|]; cbn; [|apply Hall].
    intros [[_ <-]|[_ [_ Hk]%lookup_delete_Some]]%lookup_insert_Some; [done|]. eapply Hall, Hk.
  - unfold MemoryTables.CompareAndSwapContactProjection.
    destruct (MemoryTables.validateConversationRecord _ _); cbn; [|apply Hall].
    destruct (MemoryTables.expected_contact s e) as [k'|]; cbn; [|apply Hall].
    intros [[_ <-]|[_ [_ Hk]%lookup_delete_Some]]%lookup_insert_Some; [done|]. eapply Hall, Hk.
Qed.

Lemma empty_in_order (w : world) : T.contacts w.1 = ∅ -> contacts_in_order w.
Proof. intros Hw. split; rewrite Hw; [split|]; intros *; by rewrite lookup_empty. Qed.

Lemma write_in_order w w' : contact_write w w' -> contacts_in_order w -> contacts_in_order w'.
Proof.
  intros [w1 w1' Hs|w1 w1' Hs|op w1 w1' Hp Ht Hs] [Hok Hall].
  - split; by rewrite Hs.
  - by apply empty_in_order.
  - split; rewrite Hs; [by apply contact_step_ok|by apply trimmed_step].
Qed.

Lemma moves_in_order w w' : moves w w' -> contacts_in_order w -> contacts_in_order w'.
Proof. induction 1; eauto using write_in_order. Qed.

(** The worlds that such writes lead to from one in order. *)
Context (w0 : world).
Definition since (w : world) : Prop := contacts_in_order w0 /\ moves w0 w.
Local Notation P := since.

Lemma since_in_order w : P w -> contacts_in_order w.
Proof. intros [H0 Hm]. by eapply moves_in_order. Qed.

Lemma since_write w w' : P w -> contact_write w w' -> P w'.
Proof. intros [H0 Hm] Hw. split; [done|]. by eapply rtc_r. Qed.

(** ** The store *)

Lemma upsert_keeps contact :
  trimmed (Contact.PeerMXID contact) -> keeps P (upsert_contact contact).
Proof. intros Ht [s x] Hw. apply (since_write _ _ Hw). by apply (write_contact_op (COUpsert contact)). Qed.

Lemma projection_keeps contact expected :
  trimmed (Contact.PeerMXID contact) -> Contact.PeerMXID contact = Contact.PeerMXID expected ->
  keeps P (SaveProjectionIfCurrent clock cfg contact expected).
Proof.
  intros Ht Hp [s x] Hw. apply (since_write _ _ Hw).
  apply (write_contact_op (COProject (clock (s, x)) contact expected)); [done..|].
  cbn. unfold lift_store. by destruct (MemoryTables.CompareAndSwapContactProjection _ _ _ _).
Qed.

Lemma contacts_untouched (m : M world goerror unit) :
  (forall w, T.contacts (m w).1.1 = T.contacts w.1) -> keeps P m.
Proof. intros Hm w Hw. apply (since_write _ _ Hw). by apply write_beside. Qed.

Lemma delete_kind_keeps room kind : keeps P (delete_kind room kind).
Proof.
  apply contacts_untouched. intros [s x]. unfold delete_kind, Conversation.DeleteKindByRoom. cbn.
  destruct (str_empty room); [done|].
  destruct (MemoryTables.GetConversationByRoomID s room); [|done]. by destruct (negb _).
Qed.

Lemma save_conversation_keeps r : keeps P (save_conversation clock r).
Proof.
  apply contacts_untouched. intros [s x]. cbn. unfold lift_store.
  destruct (UpsertConversation_cases (clock (s, x)) s
    (NormalizeConversationRecord (clock (s, x)) r)) as [[_ [e Hs]]|[_ Hs]]; cbn in *; by rewrite Hs.
Qed.

(** Looking a peer up gives a stored contact of that peer. *)
Lemma best_of_spec peer found l :
  let r := foldl (best_of peer) found l in
  r = found \/ (r ∈ l /\ Contact.PeerMXID r = peer).
Proof.
  cbv zeta. revert found. induction l as [|c l IH]; intros found; [by left|]. cbn [foldl].
  destruct (IH (best_of peer found c)) as [->|[H1 H2]]; [|right; split; [by right|done]].
  unfold best_of. destruct (str_eqb _ _ && _) eqn:E; [|by left].
  apply andb_true_iff in E as [E _]. str_bool. right. split; [by left|done].
Qed.

Lemma LookupByPeer_Some (w : world) peer c :
  LookupByPeer w peer = Ok (Some c) ->
  Contact.PeerMXID c = trim_space peer /\ Contact.PeerMXID c <> "" /\
  exists k, T.contacts w.1 !! k = Some c.
Proof.
  unfold LookupByPeer, ListRaw. cbn. destruct (str_empty (trim_space peer)); [done|].
  pose proof (best_of_spec (trim_space peer) zero_contact (MemoryTables.ListContacts w.1)) as Hr.
  cbv zeta in Hr. revert Hr. generalize (foldl (best_of (trim_space peer)) zero_contact
    (MemoryTables.ListContacts w.1)). intros r Hr.
  destruct (str_empty (Contact.PeerMXID r)) eqn:E; [done|].
  intros [= <-]. str_bool. destruct Hr as [Hr|[Hin Hp]]; [by rewrite Hr in E|].
  split_and!; [done..|]. by apply elem_of_go_values.
Qed.

Lemma LookupByRoom_Some (w : world) room c :
  LookupByRoom w room = Ok (Some c) ->
  Contact.RoomID c = trim_space room /\ exists k, T.contacts w.1 !! k = Some c.
Proof.
  unfold LookupByRoom, ListRaw. cbn. destruct (str_empty _); [done|].
  intros [= [Hin Hr]%first_match_Some]. str_bool. split; [done|]. by apply elem_of_go_values.
Qed.

Lemma lookupDecision_Some (w : world) room peer c :
  lookupDecisionContact w room peer = Ok (Some c) ->
  trim_space (Contact.RoomID c) <> "" /\ (exists k, T.contacts w.1 !! k = Some c) /\
  (LookupByRoom w room = Ok (Some c) \/ Contact.PeerMXID c = trim_space peer).
Proof.
  unfold lookupDecisionContact. intros (byRoom & H1 & H2)%rbind_Ok_inv.
  apply rbind_Ok_inv in H2 as (found & H2 & H3). destruct found as [c'|]; [|done].
  destruct (str_empty (trim_space (Contact.RoomID c'))) eqn:E; [done|]. injection H3 as ->.
  str_bool. split; [done|]. destruct byRoom as [c0|].
  - injection H2 as ->. destruct (str_empty (trim_space room)); [done|].
    split; [eapply LookupByRoom_Some, H1|by left].
  - destruct (str_empty (trim_space peer)); [done|].
    apply LookupByPeer_Some in H2 as (? & _ & ?). auto.
Qed.

Lemma stored_trimmed (w : world) k c :
  P w -> T.contacts w.1 !! k = Some c -> trimmed (Contact.PeerMXID c).
Proof. intros Hw. apply (since_in_order w Hw). Qed.

Lemma peer_lookup_yields peer :
  yields P (reads (fun w : world => LookupByPeer w peer))
    (fun c => forall c', c = Some c' -> trimmed (Contact.PeerMXID c') /\
       Contact.PeerMXID c' = trim_space peer).
Proof.
  intros w Hw. split; [done|]. intros c Hc c' ->.
  apply LookupByPeer_Some in Hc as (Hp & _ & _). split; [rewrite Hp; apply trimmed_trim|done].
Qed.

Lemma room_lookup_yields room :
  yields P (reads (fun w : world => LookupByRoom w room))
    (fun c => forall c', c = Some c' -> trimmed (Contact.PeerMXID c')).
Proof.
  intros w Hw. split; [done|]. intros c Hc c' ->.
  apply LookupByRoom_Some in Hc as (_ & k & Hk). by eapply stored_trimmed.
Qed.

(** ** The workflows *)

Context (Hports : ports_keep P cfg) (Hwait : forall key w, P w -> P (waiting key w)).

Lemma save_keeps contact :
  trimmed (Contact.PeerMXID contact) -> keeps P (Save clock cfg contact).
Proof using Hports.
  intros Ht. apply keeps_bind; [|intros; apply keeps_ret].
  apply keeps_bind; [apply keeps_reads|intros ?]. apply keeps_bind; [apply keeps_reads|intros ?].
  cbv zeta. cbn [write_contact].
  apply keeps_bind; [apply keeps_bind; [by apply upsert_keeps|intros; apply keeps_ret]|].
  intros []; cbn [negb]; [|apply keeps_ret].
  apply keeps_bind; [apply keeps_for_each; intros; apply delete_kind_keeps|intros _].
  apply keeps_bind; [|intros _; apply keeps_bind;
    [apply save_conversation_keeps|intros; apply keeps_ret]].
  destruct (str_empty _); [apply keeps_ret|].
  apply keeps_bind; [|intros _; apply delete_kind_keeps].
  apply keeps_when. intros f Hf. by apply (keep_deleteGroup _ _ Hports).
Qed.

Lemma view_keeps action contact : keeps P (viewWithOperation hydrator action contact).
Proof.
  apply keeps_internal, keeps_bind; [apply keeps_reads|]. intros [? ?]. apply keeps_ret.
Qed.

Lemma save_view_keeps action contact :
  trimmed (Contact.PeerMXID contact) ->
  keeps P (mbind_ (internal (Save clock cfg contact))
                  (fun _ => viewWithOperation hydrator action contact)).
Proof using Hports.
  intros Ht. apply keeps_bind; [by apply keeps_internal, save_keeps|intros _; apply view_keeps].
Qed.

Lemma profile_keeps : keeps P (profile_now cfg).
Proof. apply keeps_reads. Qed.

Lemma join_keeps f r : joinRoom cfg = Some f -> keeps P (join f r).
Proof using Hports.
  intros Hf w Hw. unfold join. pose proof (keep_joinRoom _ _ Hports f r w Hf Hw).
  by destruct (f r w).
Qed.

Lemma CreateRequest_keeps peer params domain :
  trimmed peer -> keeps P (CreateRequest hydrator clock cfg peer params domain).
Proof using Hports.
  intros Ht. unfold CreateRequest. cbv zeta. apply keeps_bind.
  { destruct (newDirectRoomID cfg) as [f|] eqn:Hf; [|apply keeps_ret]. intros w Hw.
    pose proof (keep_newDirectRoomID _ _ Hports f w Hf Hw). by destruct (f w). }
  intros fallback. apply keeps_bind.
  { destruct (createRoom cfg) as [f|] eqn:Hf; [|apply keeps_ret].
    by apply (keep_createRoom _ _ Hports). }
  intros room. by apply save_view_keeps.
Qed.

Lemma CreateReplacementRequest_keeps contact params domain :
  trimmed (Contact.PeerMXID contact) ->
  keeps P (CreateReplacementRequest hydrator clock cfg contact params domain).
Proof using Hports. apply CreateRequest_keeps. Qed.

Lemma invite_and_save_keeps contact invite :
  trimmed (Contact.PeerMXID contact) ->
  keeps P (invite_and_save hydrator clock cfg contact invite).
Proof using Hports.
  intros Ht. apply keeps_bind; [|intros _; by apply save_view_keeps].
  destruct invite; [|apply keeps_ret]. apply keeps_when. intros f Hf.
  by apply (keep_inviteRoom _ _ Hports).
Qed.

Lemma RequestPeerApproval_keeps contact params domain invite :
  trimmed (Contact.PeerMXID contact) ->
  keeps P (RequestPeerApproval hydrator clock cfg contact params domain invite).
Proof using Hports.
  intros Ht. unfold RequestPeerApproval. destruct (str_empty _).
  - by apply CreateRequest_keeps.
  - by apply invite_and_save_keeps.
Qed.

Lemma reactivate_keeps contact params peer :
  keeps P (reactivateDeletedPeer cfg contact params peer).
Proof using Hports.
  unfold reactivateDeletedPeer. destruct (reactivatePeer cfg) as [f|] eqn:Hf; [|apply keeps_fail].
  by apply (keep_reactivatePeer _ _ Hports).
Qed.

Lemma accept_joined_keeps contact params :
  trimmed (Contact.PeerMXID contact) -> keeps P (accept_joined hydrator clock cfg contact params).
Proof using Hports. intros Ht. by apply save_view_keeps. Qed.

Lemma restore_joined_keeps contact params domain :
  trimmed (Contact.PeerMXID contact) ->
  keeps P (restore_joined hydrator clock cfg contact params domain).
Proof using Hports. intros Ht. by apply save_view_keeps. Qed.

Lemma joined_room_keeps outcome : keeps P (joined_room outcome).
Proof. unfold joined_room. destruct (is_kind _ _); [apply keeps_ret|apply keeps_fail]. Qed.

(** The steps of a restoration, one after the other. *)
Ltac flow_step Ht :=
  lazymatch goal with
  | |- keeps _ (ret _) => apply keeps_ret
  | |- keeps _ (fail _) => apply keeps_fail
  | |- keeps _ (mbind_ (internal (Save _ _ _)) _) => apply save_view_keeps; exact Ht
  | |- keeps _ (mbind_ _ _) => apply keeps_bind; [|intros ?]
  | |- keeps _ (if ?b then _ else _) => destruct b
  | |- keeps _ (let _ := _ in _) => cbv zeta
  | |- keeps _ (profile_now _) => apply profile_keeps
  | |- keeps _ (reactivateDeletedPeer _ _ _ _) => apply reactivate_keeps
  | |- keeps _ (joined_room _) => apply joined_room_keeps
  | |- keeps _ (join _ _) => by apply join_keeps
  | |- keeps _ (viewWithOperation _ _ _) => apply view_keeps
  | |- keeps _ (existingRequestView _ _) => apply view_keeps
  | |- keeps _ (accept_joined _ _ _ _ _) => apply accept_joined_keeps; exact Ht
  | |- keeps _ (save_accepted _ _ _ _) => apply save_view_keeps; exact Ht
  | |- keeps _ (restore_joined _ _ _ _ _ _) => apply restore_joined_keeps; exact Ht
  | |- keeps _ (RequestPeerApproval _ _ _ _ _ _ _) => apply RequestPeerApproval_keeps; exact Ht
  | |- keeps _ (CreateReplacementRequest _ _ _ _ _ _) =>
      apply CreateReplacementRequest_keeps; exact Ht
  | |- keeps _ (CreateRequest _ _ _ _ _ _) => apply CreateRequest_keeps; exact Ht
  end.
Ltac flow Ht := repeat flow_step Ht.

Lemma AcceptPendingInbound_keeps contact params :
  trimmed (Contact.PeerMXID contact) ->
  keeps P (AcceptPendingInbound hydrator clock cfg contact params).
Proof using Hports.
  intros Ht. unfold AcceptPendingInbound.
  destruct (joinRoom cfg) as [f|] eqn:Hf; flow Ht.
Qed.

Lemma RestoreDeleted_keeps contact params domain :
  trimmed (Contact.PeerMXID contact) ->
  keeps P (RestoreDeleted hydrator clock cfg contact params domain).
Proof using Hports.
  intros Ht. unfold RestoreDeleted. cbv zeta.
  destruct (joinRoom cfg) as [f|] eqn:Hf; flow Ht.
Qed.

Lemma RestoreRetainedPeer_keeps peer params domain :
  trimmed peer -> keeps P (RestoreRetainedPeer hydrator clock cfg peer params domain).
Proof using Hports.
  intros Ht. unfold RestoreRetainedPeer. cbv zeta.
  destruct (reactivatePeer cfg) as [g|] eqn:Hg; [|apply keeps_ret].
  destruct (_ || _); [apply keeps_ret|]. apply keeps_bind; [apply profile_keeps|intros profile].
  apply keeps_bind; [by apply (keep_reactivatePeer _ _ Hports)|intros reply].
  destruct (joinRoom cfg) as [f|] eqn:Hf; flow Ht.
Qed.

Lemma ensure_yields contact :
  trimmed (Contact.PeerMXID contact) ->
  yields P (internal (EnsureAcceptedProjection clock cfg contact))
    (fun c => trimmed (Contact.PeerMXID c)).
Proof.
  intros Ht. apply yields_internal. intros w Hw. unfold EnsureAcceptedProjection.
  destruct (negb _); [split; [done|]; by intros ? [= <-]|].
  pose proof (projection_keeps contact contact Ht eq_refl w Hw) as Hk. unfold mbind_ at 1 3.
  destruct (SaveProjectionIfCurrent _ _ _ _ w) as [w1 [[]|e]]; cbn in Hk |- *;
    [split; [done|]; by intros ? [= <-]| |done].
  destruct (peer_lookup_yields (Contact.PeerMXID contact) w1 Hk) as [_ Hy].
  unfold mbind_, reads in *. cbn in *.
  destruct (LookupByPeer w1 _) as [[c|]|e]; cbn; (split; [done|]); intros a [= <-].
  by apply (Hy (Some c) eq_refl c).
Qed.

Lemma ResolveExisting_keeps contact params domain :
  trimmed (Contact.PeerMXID contact) ->
  keeps P (ResolveExistingRequest hydrator clock cfg contact params domain).
Proof using Hports.
  intros Ht0. unfold ResolveExistingRequest.
  apply keeps_bind_yields with (Q := fun c => trimmed (Contact.PeerMXID c)).
  { destruct (acceptedStatus _); [by apply ensure_yields|].
    intros w Hw. split; [done|]. by intros ? [= <-]. }
  clear contact Ht0. intros contact Ht. destruct (_ || _); [apply view_keeps|].
  apply keeps_bind; [apply profile_keeps|intros profile].
  destruct (reactivatePeer cfg) as [f|] eqn:Hf; [|apply view_keeps].
  apply keeps_bind; [by apply (keep_reactivatePeer _ _ Hports)|intros reply]. flow Ht.
Qed.

Lemma requestForPeer_keeps peer params :
  trimmed peer -> keeps P (requestForPeer hydrator clock cfg peer params).
Proof using Hports.
  intros Hp. unfold requestForPeer. cbv zeta.
  destruct (checkPeerBlocked cfg) as [check|] eqn:Hc; [|apply keeps_fail].
  apply keeps_bind; [by apply keeps_internal, (keep_checkPeerBlocked _ _ Hports)|].
  intros []; [apply keeps_fail|].
  eapply keeps_bind_yields; [apply yields_internal, peer_lookup_yields|].
  intros [existing|] Hex; cbv beta in Hex.
  - destruct (Hex existing eq_refl) as [Ht _].
    repeat match goal with |- keeps _ (if ?b then _ else _) => destruct b end.
    + by apply RestoreDeleted_keeps.
    + by apply AcceptPendingInbound_keeps.
    + by apply invite_and_save_keeps.
    + by apply ResolveExisting_keeps.
  - apply keeps_bind; [by apply RestoreRetainedPeer_keeps|].
    intros [view|]; [apply keeps_ret|by apply CreateRequest_keeps].
Qed.

Lemma serialize_keeps {E A} key (m : M world E A) :
  keeps P m -> keeps P (SerializePeer waiting key m).
Proof using Hwait.
  intros Hm. apply keeps_bind; [|by intros _]. apply keeps_run. apply Hwait.
Qed.

Lemma Request_keeps params : keeps P (Request hydrator clock waiting cfg params).
Proof using Hports Hwait.
  unfold Request. cbv zeta. destruct (str_empty _); [apply keeps_fail|].
  destruct (localProfile cfg); [|apply keeps_fail].
  apply keeps_bind; [apply profile_keeps|intros profile]. destruct (str_eqb _ _); [apply keeps_fail|].
  apply keeps_bind; [|intros; apply keeps_ret].
  apply serialize_keeps, requestForPeer_keeps, get_string_trimmed.
Qed.

(** ** Decisions *)

Lemma saveDecision_keeps contact expected authoritative :
  trimmed (Contact.PeerMXID contact) -> Contact.PeerMXID contact = Contact.PeerMXID expected ->
  keeps P (saveDecision clock cfg contact expected authoritative).
Proof using Hports.
  intros Ht Hp. unfold saveDecision. destruct (str_empty _).
  { apply keeps_bind; [by apply save_keeps|intros; apply keeps_ret]. }
  apply keeps_bind; [by apply projection_keeps|intros []; [apply keeps_ret|]].
  eapply keeps_bind_yields; [apply peer_lookup_yields|]. intros current Hc. cbv beta in Hc.
  apply keeps_bind_yields with (Q := fun c => forall c', c = Some c' ->
    Contact.PeerMXID c' = Contact.PeerMXID contact).
  { rewrite Hp, (proj2 (str_eqb_true _ _) eq_refl).
    destruct current as [c|]; intros w Hw; (split; [done|]); intros ? [= <-]; [|done].
    intros c' [= <-]. destruct (Hc c eq_refl) as [_ ->]. rewrite <- Hp. apply Ht. }
  clear current Hc. intros [current|] Hc; [|apply keeps_ret].
  destruct (_ && _); [|apply keeps_ret].
  apply keeps_bind; [apply projection_keeps; [done|]; symmetry; by apply Hc|].
  intros []; [apply keeps_ret|]. apply keeps_bind; [apply keeps_reads|intros; apply keeps_ret].
Qed.

Lemma decision_view_keeps action contact : keeps P (contactDecisionView hydrator action contact).
Proof. apply keeps_bind; [apply view_keeps|intros; apply keeps_ret]. Qed.

Lemma settle_keeps action contact existing authoritative :
  trimmed (Contact.PeerMXID contact) -> Contact.PeerMXID contact = Contact.PeerMXID existing ->
  keeps P (settle_decision hydrator clock cfg action contact existing authoritative).
Proof using Hports.
  intros Ht Hp. apply keeps_bind; [by apply keeps_internal, saveDecision_keeps|].
  intros [current []]; [apply view_keeps|apply decision_view_keeps].
Qed.

Lemma settle_unconfirmed_keeps existing params :
  trimmed (Contact.PeerMXID existing) ->
  keeps P (settle_unconfirmed hydrator clock cfg existing params).
Proof using Hports.
  intros Ht. apply keeps_bind; [by apply keeps_internal, saveDecision_keeps|].
  intros [current []]; [|apply decision_view_keeps].
  apply keeps_bind; [apply view_keeps|intros; apply keeps_ret].
Qed.

Lemma accepted_room_keeps existing params : keeps P (accepted_room cfg existing params).
Proof using Hports.
  unfold accepted_room. destruct (acceptRoom cfg) as [f|] eqn:Hf; [|apply keeps_ret].
  destruct (str_empty _); [apply keeps_ret|]. intros w Hw.
  pose proof (keep_acceptRoom _ _ Hports f existing (Params.get_strings params "server_names")
    Hf w Hw) as Hk.
  destruct (f _ _ w) as [w' [room|e]]; cbn in *; [by destruct (str_empty _)|by destruct (str_eqb _ _)].
Qed.

Lemma matrix_joined_keeps existing : keeps P (matrixContactJoined cfg existing).
Proof using Hports.
  unfold matrixContactJoined. destruct (matrixJoined cfg) as [f|] eqn:Hf; [|apply keeps_ret].
  destruct (localProfile cfg); [|apply keeps_ret]. destruct (_ || _); [apply keeps_ret|].
  apply keeps_bind; [apply profile_keeps|intros profile]. cbv zeta.
  destruct (str_empty _); [apply keeps_ret|].
  apply keeps_bind; [by apply keeps_internal, (keep_matrixJoined _ _ Hports)|].
  intros; apply keeps_ret.
Qed.

Lemma accepted_from_matrix_keeps existing :
  trimmed (Contact.PeerMXID existing) -> keeps P (acceptedContactFromMatrix clock cfg existing).
Proof using Hports.
  intros Ht. apply keeps_bind; [apply matrix_joined_keeps|].
  intros [[]|]; [|apply keeps_ret..]. cbv zeta.
  apply keeps_bind; [by apply keeps_internal, saveDecision_keeps|].
  intros [current saved]. apply keeps_ret.
Qed.

Lemma reject_open_keeps existing params peer :
  trimmed (Contact.PeerMXID existing) -> peer = "" \/ peer = Contact.PeerMXID existing ->
  keeps P (reject_open hydrator clock cfg existing params peer).
Proof using Hports.
  intros Ht Hp. unfold reject_open. cbv zeta. destruct (equal_fold _ _).
  { apply keeps_bind; [apply view_keeps|intros; apply keeps_ret]. }
  destruct (_ || _); [apply view_keeps|].
  apply settle_keeps; cbn; by rewrite or_given_same.
Qed.

(** A decision that names the room of a contact names no other peer. *)
Definition names_its_peer (params : content) (w : world) : Prop :=
  let peer := Params.FirstString params ["peer_mxid"; "mxid"] in
  forall c, LookupByRoom w (Params.get_string params "room_id") = Ok (Some c) ->
    peer = "" \/ peer = Contact.PeerMXID c.

Lemma decision_contact params w existing :
  P w -> names_its_peer params w ->
  let peer := Params.FirstString params ["peer_mxid"; "mxid"] in
  lookupDecisionContact w (Params.get_string params "room_id") peer = Ok (Some existing) ->
  trimmed (Contact.PeerMXID existing) /\ (peer = "" \/ peer = Contact.PeerMXID existing).
Proof.
  cbv zeta. intros Hw Hn (_ & [k Hk] & Hor)%lookupDecision_Some.
  split; [by eapply stored_trimmed|]. destruct Hor as [Hr| ->]; [by apply Hn|].
  right. symmetry. apply FirstString_trimmed.
Qed.

(** Running a workflow whose first step reads the world. *)
Lemma keeps_after_read {A B} (f : world -> result goerror A) (k : A -> M world Api.Error B) w :
  P w -> (forall a, f w = Ok a -> keeps P (k a)) -> P (mbind_ (internal (reads f)) k w).1.
Proof.
  intros Hw Hk. unfold mbind_, internal, reads. destruct (f w) as [a|e]; [|done]. by apply Hk.
Qed.

Lemma accept_in_order params w :
  P w -> names_its_peer params w -> P (requestAcceptForPeer hydrator clock cfg params w).1.
Proof using Hports.
  intros Hw Hn. unfold requestAcceptForPeer. cbv zeta. apply keeps_after_read; [done|].
  intros [existing|] Hex; [|apply keeps_fail].
  destruct (decision_contact _ _ _ Hw Hn Hex) as [Ht Hp].
  destruct (ContactDeleted _); [apply keeps_fail|]. destruct (_ && _); [apply view_keeps|].
  apply keeps_bind; [apply accepted_room_keeps|].
  intros [room|]; [|by apply settle_unconfirmed_keeps].
  apply settle_keeps; cbn [decided Contact.PeerMXID]; by rewrite or_given_same.
Qed.

Lemma reject_in_order params w :
  P w -> names_its_peer params w -> P (requestRejectForPeer hydrator clock cfg params w).1.
Proof using Hports.
  intros Hw Hn. unfold requestRejectForPeer. cbv zeta. apply keeps_after_read; [done|].
  intros [existing|] Hex; [|apply keeps_fail].
  destruct (decision_contact _ _ _ Hw Hn Hex) as [Ht Hp].
  destruct (ContactDeleted _); [apply keeps_fail|]. destruct (acceptedStatus _).
  - apply keeps_bind.
    { destruct (verifyAccepted cfg); [|apply keeps_ret].
      apply keeps_bind; [apply matrix_joined_keeps|intros; apply keeps_ret]. }
    intros []; [by apply reject_open_keeps|apply view_keeps].
  - apply keeps_bind; [by apply accepted_from_matrix_keeps|].
    intros [current|]; [apply decision_view_keeps|by apply reject_open_keeps].
Qed.

(** The lookup that picks the lock, then the workflow in the world the lock
    is obtained in. *)
Lemma serialized_in_order {A} params (m : M world Api.Error A) w :
  P w -> (forall key, P (m (waiting key w)).1) ->
  P (serializeRoomPeerMutation waiting params m w).1.
Proof using Hwait.
  intros Hw Hm. unfold serializeRoomPeerMutation. cbv zeta.
  destruct (str_empty (Params.get_string params "room_id")).
  - apply Hm.
  - unfold mbind_ at 1, internal, reads. destruct (LookupByRoom w _); [apply Hm|done].
Qed.

Lemma save_deleted_keeps action contact params :
  trimmed (Contact.PeerMXID contact) ->
  keeps P (save_deleted hydrator clock cfg action contact params).
Proof using Hports.
  intros Ht. apply keeps_bind; [by apply keeps_internal, save_keeps|intros _].
  apply keeps_bind; [apply keeps_internal, keeps_reads|]. intros [? ?]. apply keeps_ret.
Qed.

Lemma contact_to_delete_yields params :
  yields P (contact_to_delete params) (fun c => trimmed (Contact.PeerMXID c)).
Proof.
  intros w Hw. unfold contact_to_delete, mbind_, internal, reads, ret.
  destruct (room_lookup_yields (Params.get_string params "room_id") w Hw) as [_ Hy].
  unfold reads in Hy. cbn in Hy |- *.
  destruct (LookupByRoom w _) as [[c|]|e]; cbn; (split; [done|]); intros a [= <-].
  - by apply (Hy (Some c) eq_refl).
  - exact (FirstString_trimmed params ["peer_mxid"; "mxid"]).
Qed.

Lemma status_result_keeps action status room :
  keeps P (statusOperationResult hydrator action status room).
Proof.
  apply keeps_bind; [apply keeps_internal, keeps_reads|]. intros [? ?]. apply keeps_ret.
Qed.

Lemma requestDelete_keeps params : keeps P (requestDeleteForPeer hydrator clock cfg params).
Proof using Hports.
  eapply keeps_bind_yields; [apply contact_to_delete_yields|]. intros c Ht. cbv beta in Ht.
  destruct (acceptedStatus _); [apply status_result_keeps|by apply save_deleted_keeps].
Qed.

Lemma delete_keeps params : keeps P (deleteForPeer hydrator clock cfg params).
Proof using Hports.
  eapply keeps_bind_yields; [apply contact_to_delete_yields|]. intros c Ht. cbv beta in Ht.
  apply keeps_bind; [|intros _; by apply save_deleted_keeps].
  destruct (_ && _); [|apply keeps_ret]. apply keeps_when. intros f Hf.
  by apply (keep_leaveRoom _ _ Hports).
Qed.

Lemma update_keeps room name domain avatar :
  keeps P (updateForPeer hydrator clock cfg room name domain avatar).
Proof using Hports.
  eapply keeps_bind_yields; [apply yields_internal, room_lookup_yields|].
  intros [c|] Ht; [|apply keeps_fail]. cbv beta in Ht.
  destruct (negb _); [apply keeps_fail|]. apply save_view_keeps. by apply (Ht c).
Qed.

Lemma handleUpdate_keeps params : keeps P (handleUpdate hydrator clock waiting cfg params).
Proof using Hports Hwait.
  unfold handleUpdate. cbv zeta. destruct (str_empty _); [apply keeps_fail|].
  destruct (str_empty _); [apply keeps_fail|].
  apply keeps_bind; [apply keeps_internal, keeps_reads|]. intros [c|]; [|apply keeps_fail].
  apply keeps_bind; [apply serialize_keeps, update_keeps|intros; apply keeps_ret].
Qed.

Lemma handleReactivate_keeps params : keeps P (handleReactivate hydrator clock cfg params).
Proof using Hports.
  assert (Hres : forall status room, keeps P (reactivationResult hydrator status room)).
  { intros. apply keeps_bind; [apply keeps_internal, keeps_reads|]. intros [? ?]. apply keeps_ret. }
  unfold handleReactivate. cbv zeta. destruct (str_empty _); [apply keeps_fail|].
  apply keeps_bind; [apply profile_keeps|intros profile]. destruct (str_eqb _ _); [apply keeps_fail|].
  eapply keeps_bind_yields; [apply yields_internal, peer_lookup_yields|].
  intros [c|] Hc; [|apply keeps_fail]. destruct (Hc c eq_refl) as [Ht _].
  destruct (_ && _); [apply keeps_fail|]. destruct (_ && _); [apply keeps_fail|].
  destruct (ContactDeleted _); [apply keeps_fail|]. destruct (negb _).
  - apply keeps_bind; [by apply keeps_internal, save_keeps|intros _; apply Hres].
  - apply keeps_bind; [|intros _; apply Hres]. apply keeps_when. intros f Hf.
    by apply (keep_reactivateRoom _ _ Hports).
Qed.

(** A decision addresses one contact in the world it finds when it has
    obtained its lock; other requests are free. *)
Definition well_addressed (q : request) (w : world) : Prop :=
  match q with
  | QAccept params | QReject params => forall key, names_its_peer params (waiting key w)
  | _ => True
  end.

Lemma serve_in_order q w :
  P w -> well_addressed q w -> P (serve hydrator clock waiting cfg q w).1.
Proof using Hports Hwait.
  intros Hw Hq. destruct q as [ps| |ps|ps|ps|ps|ps|ps]; cbn [serve well_addressed] in *.
  - apply serialized_in_order; [done|]. intros key. by apply delete_keeps, Hwait.
  - revert w Hw Hq. intros w Hw _. unfold handleList, mbind_, internal, reads, ret.
    by destruct (ListVisible w).
  - by apply handleReactivate_keeps.
  - by apply Request_keeps.
  - by apply handleUpdate_keeps.
  - revert Hw. enough (P w -> P (serializeRoomPeerMutation waiting ps
      (requestAcceptForPeer hydrator clock cfg ps) w).1) as Hs.
    { intros Hw. specialize (Hs Hw). unfold handleRequestAccept, mbind_, ret.
      by destruct (serializeRoomPeerMutation _ _ _ w) as [w' [v|e]]. }
    intros Hw. apply serialized_in_order; [done|]. intros key. apply accept_in_order; [by apply Hwait|].
    apply Hq.
  - apply serialized_in_order; [done|]. intros key. by apply requestDelete_keeps, Hwait.
  - revert Hw. enough (P w -> P (serializeRoomPeerMutation waiting ps
      (requestRejectForPeer hydrator clock cfg ps) w).1) as Hs.
    { intros Hw. specialize (Hs Hw). unfold handleRequestReject, mbind_, ret.
      by destruct (serializeRoomPeerMutation _ _ _ w) as [w' [v|e]]. }
    intros Hw. apply serialized_in_order; [done|]. intros key. apply reject_in_order; [by apply Hwait|].
    apply Hq.
Qed.

End Flow.

Section Reach.
Context `{GoRange} {X : Type}.
Local Notation world := (T.tables * X)%type.
Context (hydrator : Conversation.Hydrator world) (clock : world -> Z).
Context (waiting : string -> world -> world) (cfg : Config world).

(** The worlds the module can reach from a store without contacts, with others
    writing between the requests. *)
Inductive reachable : world -> Prop :=
| reach_start w : T.contacts w.1 = ∅ -> reachable w
| reach_serve w q : reachable w -> well_addressed waiting q w ->
    reachable (serve hydrator clock waiting cfg q w).1
| reach_others w w' : reachable w -> contact_write w w' -> reachable w'.

(** A port that writes contacts only as others do. *)
Lemma ports_since w0 : ports_keep (moves w0) cfg -> ports_keep (since w0) cfg.
Proof using Type.
  assert (Hk : forall {E A} (m : M world E A), keeps (moves w0) m -> keeps (since w0) m).
  { intros E A m Hm w [H0 Hw]. split; [done|by apply Hm]. }
  intros [H1 H2 H3 H4 H5 H6 H7 H8 H9 H10 H11]. split; try (intros; apply Hk; by eauto).
  - intros f r w Hf [Hw0 Hw]. split; [done|by apply H6].
  - intros f w Hf [Hw0 Hw]. split; [done|by apply H7].
Qed.

Lemma serve_moves q w :
  (forall w, ports_keep (moves w) cfg) -> (forall key w, moves w (waiting key w)) ->
  contacts_in_order w -> well_addressed waiting q w -> moves w (serve hydrator clock waiting cfg q w).1.
Proof using Type.
  intros Hports Hwait Hw Hq. apply (serve_in_order hydrator clock waiting cfg w).
  - by apply ports_since.
  - intros key v [H0 Hv]. split; [done|]. by etrans.
  - split; [done|apply rtc_refl].
  - done.
Qed.
End Reach.

(** C8.  Let the ports (Matrix, the peers' nodes, the rooms) and the requests
    that run in between answer whatever they like, and write contacts only
    through the store: an upsert, or a swap that leaves the contact to the peer
    it expects, of a contact whose peer has no surrounding space, or a reset
    ([contact_write]).  Let every decision that names both a room and a peer
    name the peer of the contact in that room.  Then in every world that the
    requests of the module reach from a store without contacts, every contact is
    filed under its room, no peer has two contacts and no stored peer has
    surrounding space; and what a request itself does to the contacts, ports
    included, is a sequence of such writes. *)
Theorem contact_workflows_keep_order `{GoRange} {X : Type} hydrator clock waiting
    (cfg : Config (T.tables * X)) w :
  (forall w, ports_keep (moves w) cfg) -> (forall key w, moves w (waiting key w)) ->
  reachable hydrator clock waiting cfg w ->
  contacts_in_order w /\
  forall q, well_addressed waiting q w -> moves w (serve hydrator clock waiting cfg q w).1.
Proof.
  intros Hports Hwait Hreach. assert (Hw : contacts_in_order w).
  { induction Hreach as [w Hw|w q _ IH Hq|w w' _ IH Hw].
    - by apply empty_in_order.
    - eapply moves_in_order; [|exact IH]. by apply serve_moves.
    - by eapply write_in_order. }
  split; [done|]. intros q Hq. by apply serve_moves.
Qed.
