(* ===== verification/ContactProjectionFacts.v ===== *)
(** * A saved contact and its conversation

    What [Save] of the contacts module leaves in the memory store: the peer's
    only contact, its direct conversation, and no live conversation with the
    peer in another room. *)

From Stdlib Require Import Ascii String ZArith Lia.
From stdpp Require Import base tactics list gmap strings.
From S2P Require Import Prelude GoStrings Values Domain Policy PolicyFacts Action MemoryTables Workflow.
From S2P Require Import OperationIdentity Conversation Contacts ContactWorkflows.
From S2P Require Import MemoryTablesFacts ContactsFacts.
Import Contacts ContactFlow.
Local Open Scope Z_scope.
Local Open Scope go_scope.

#[local] Opaque ConversationIDForRoomID.

Section Projection.
Context `{GoRange} {X : Type}.
Local Notation world := (T.tables * X)%type.
Implicit Types (w : world) (contact : Contact.ContactRecord) (x : Conv.ConversationRecord).

(** ** Removing the conversations of a room *)

(** The conversations that are not of that kind in one of the rooms. *)
Definition without (rooms : list string) (kind : string)
    (m : gmap string Conv.ConversationRecord) : gmap string Conv.ConversationRecord :=
  filter (fun kv => ~ (Conv.MatrixRoomID kv.2 ∈ rooms /\ Conv.Kind kv.2 = kind)) m.

Lemma without_nil kind m : without [] kind m = m.
Proof.
  apply map_filter_id. intros k x _ [Hin _]. by apply not_elem_of_nil in Hin.
Qed.

Lemma without_cons room rooms kind m :
  without rooms kind (without [room] kind m) = without (room :: rooms) kind m.
Proof.
  unfold without. rewrite map_filter_filter. apply map_filter_ext. intros k x _. cbn.
  rewrite !elem_of_cons. pose proof (not_elem_of_nil (Conv.MatrixRoomID x)). tauto.
Qed.

Lemma without_ok rooms kind m : conversations_ok m -> conversations_ok (without rooms kind m).
Proof. apply conversations_ok_filter. Qed.

(** The world with other conversations. *)
Definition with_conversations (m : gmap string Conv.ConversationRecord) w : world :=
  (T.set_conversations m w.1, w.2).

Lemma conversation_of_room w room x :
  MemoryTables.GetConversationByRoomID w.1 room = Some x ->
  exists k, T.conversations w.1 !! k = Some x /\ Conv.MatrixRoomID x = room.
Proof.
  unfold MemoryTables.GetConversationByRoomID. intros ([k y] & Hf & [= <-])%fmap_Some.
  apply first_match_Some in Hf as [Hin Hr]. unfold MemoryTables.in_room in Hr. str_bool.
  exists k. split; [by apply elem_of_go_range|done].
Qed.

Lemma no_conversation_of_room w room k x :
  MemoryTables.GetConversationByRoomID w.1 room = None ->
  T.conversations w.1 !! k = Some x -> Conv.MatrixRoomID x <> room.
Proof.
  unfold MemoryTables.GetConversationByRoomID. intros Hf%fmap_None Hk Hr.
  apply (proj1 (first_match_None _ _)) with (x := (k, x)) in Hf;
    [|by apply elem_of_go_range].
  unfold MemoryTables.in_room in Hf. str_bool. done.
Qed.

Lemma set_same_conversations (s : T.tables) :
  T.set_conversations (T.conversations s) s = s.
Proof. by destruct s. Qed.

Lemma delete_kind_effect w room kind :
  conversations_ok (T.conversations w.1) -> room <> "" ->
  delete_kind room kind w =
    (with_conversations (without [room] kind (T.conversations w.1)) w, Ok ()).
Proof.
  intros [_ Hkind] Hne. unfold delete_kind, Conversation.DeleteKindByRoom. cbn.
  destruct (str_empty room) eqn:E; str_bool; [done|].
  assert (Hsame : (forall k x, T.conversations w.1 !! k = Some x -> Conv.MatrixRoomID x = room ->
      Conv.Kind x <> kind) ->
      w = with_conversations (without [room] kind (T.conversations w.1)) w).
  { intros Hno. unfold with_conversations, without. rewrite map_filter_id.
    - rewrite set_same_conversations. by destruct w.
    - intros k x Hk [Hr Hx]. cbn in Hr, Hx. apply list_elem_of_singleton in Hr. eapply Hno; eauto. }
  destruct (MemoryTables.GetConversationByRoomID w.1 room) as [x|] eqn:Hg.
  - apply conversation_of_room in Hg as (k & Hk & Hr).
    destruct (negb (str_eqb (Conv.Kind x) kind)) eqn:Ek; str_bool.
    + rewrite <- Hsame; [done|]. intros k' x' Hk' Hr'.
      rewrite (Hkind k' k x' x Hk' Hk); congruence.
    + unfold lift_store, MemoryTables.DeleteConversationByRoomID, with_conversations, without.
      do 3 f_equal. apply map_filter_ext. intros k' x' Hk'. cbn.
      rewrite list_elem_of_singleton. split; [by intros ? [? _]|].
      intros Hn Hr'. apply Hn. split; [done|]. rewrite <- Ek.
      apply (Hkind k' k x' x Hk' Hk). congruence.
  - rewrite <- Hsame; [done|]. intros k x Hk Hr.
    by destruct (no_conversation_of_room _ _ _ _ Hg Hk Hr).
Qed.

Lemma delete_kinds_effect rooms kind w :
  conversations_ok (T.conversations w.1) -> "" ∉ rooms ->
  for_each (fun room => delete_kind room kind) rooms w =
    (with_conversations (without rooms kind (T.conversations w.1)) w, Ok ()).
Proof.
  revert w. induction rooms as [|room rooms IH]; intros w Hok Hne; cbn [for_each].
  - rewrite without_nil. unfold with_conversations. rewrite set_same_conversations. by destruct w.
  - apply not_elem_of_cons in Hne as [Hne Hr]. unfold mbind_.
    rewrite delete_kind_effect by done. rewrite IH; [|by apply without_ok|done].
    unfold with_conversations. cbn. by rewrite without_cons.
Qed.

(** ** The replaced rooms *)

Lemma appendRoomID_elem contact rooms room r :
  r ∈ appendRoomID contact rooms room <->
  r ∈ rooms \/ (r = room /\ room <> "" /\ room <> Contact.RoomID contact).
Proof.
  unfold appendRoomID. destruct (_ || _) eqn:E.
  - split; [by left|]. intros [?|(-> & H1 & H2)]; [done|].
    apply orb_true_iff in E as [E|E]; [|by apply bool_decide_eq_true in E].
    str_bool. destruct E as [E|E]; str_bool; done.
  - apply orb_false_iff in E as [E _]. str_bool. rewrite elem_of_app, list_elem_of_singleton.
    split; [intros [?| ->]; [by left|by right]|].
    intros [?|(-> & _)]; auto.
Qed.

(** A loop that appends the rooms of the matching entries. *)
Lemma append_loop_elem {A} contact (p : A -> bool) (room_of : A -> string) l acc r :
  r ∈ foldl (fun rooms a => if p a then appendRoomID contact rooms (room_of a) else rooms) acc l <->
  r ∈ acc \/ (r <> "" /\ r <> Contact.RoomID contact /\
              exists a, a ∈ l /\ p a = true /\ room_of a = r).
Proof.
  revert acc. induction l as [|a l IH]; intros acc; cbn [foldl].
  - split; [by left|]. intros [?|(_ & _ & a & Ha & _)]; [done|]. by apply not_elem_of_nil in Ha.
  - rewrite IH. destruct (p a) eqn:Ep; [rewrite appendRoomID_elem|]; split.
    + intros [[?|(-> & ? & ?)]|(? & ? & b & ? & ?)]; [by left| |]; right; split_and!; try done.
      * exists a. split_and!; [by left|done..].
      * exists b. split; [by right|done].
    + intros [?|(? & ? & b & [->|Hb]%elem_of_cons & Hp & <-)]; [by left; left|by left; right|].
      right. split_and!; [done..|]. eauto.
    + intros [?|(? & ? & b & ? & ?)]; [by left|]. right. split_and!; [done..|].
      exists b. split; [by right|done].
    + intros [?|(? & ? & b & [->|Hb]%elem_of_cons & Hp & <-)]; [by left|congruence|].
      right. split_and!; [done..|]. eauto.
Qed.

Lemma replaced_rooms_elem contact contacts conversations r :
  Contact.PeerMXID contact <> "" ->
  r ∈ replacementDirectRoomIDs contact contacts conversations <->
  r <> "" /\ r <> Contact.RoomID contact /\
  ((exists c, c ∈ contacts /\ Contact.PeerMXID c = Contact.PeerMXID contact /\
      Contact.RoomID c = r) \/
   (exists x, x ∈ conversations /\ Conv.Kind x = "direct" /\
      Conv.PeerMXID x = Contact.PeerMXID contact /\ Conv.MatrixRoomID x = r)).
Proof.
  intros Hp. unfold replacementDirectRoomIDs.
  destruct (str_empty _) eqn:E; str_bool; [done|]. rewrite !append_loop_elem.
  setoid_rewrite andb_true_iff. setoid_rewrite str_eqb_true. split.
  - intros [[Hn|(? & ? & c & ? & ? & ?)]|(? & ? & x & ? & [? ?] & ?)];
      [by apply not_elem_of_nil in Hn| |]; split_and!; try done; [left|right]; eauto 10.
  - intros (? & ? & [(c & ? & ? & ?)|(x & ? & ? & ? & ?)]);
      [left; right|right]; split_and!; try done; eauto 10.
Qed.

(** ** Save *)

Context (clock : world -> Z) (cfg : Config world).

(** Removing a group succeeds and touches neither contacts nor conversations. *)
Definition group_port_apart : Prop :=
  forall f room w, deleteGroup cfg = Some f -> exists w',
    f room w = (w', Ok ()) /\ T.contacts w'.1 = T.contacts w.1 /\
    T.conversations w'.1 = T.conversations w.1.

(** The rooms a saved contact replaces. *)
Definition replaced_rooms w contact : list string :=
  replacementDirectRoomIDs contact (MemoryTables.ListContacts w.1)
    (MemoryTables.ListConversations w.1).

(** The conversations that are left when the contact's own is saved. *)
Definition cleared w contact : gmap string Conv.ConversationRecord :=
  without [Contact.RoomID contact] "group"
    (without (replaced_rooms w contact) "direct" (T.conversations w.1)).

Lemma replaced_rooms_nonempty w contact : "" ∉ replaced_rooms w contact.
Proof using Type.
  unfold replaced_rooms. destruct (decide (Contact.PeerMXID contact = "")) as [E|E].
  - unfold replacementDirectRoomIDs. rewrite E. apply not_elem_of_nil.
  - rewrite replaced_rooms_elem by done. by intros (? & _).
Qed.

(** Everything but the last step of [Save]. *)
Lemma save_before_conversation w contact :
  conversations_ok (T.conversations w.1) -> Contact.RoomID contact <> "" -> group_port_apart ->
  exists w3,
    T.contacts w3.1 = T.contacts (MemoryTables.UpsertContact w.1 contact) /\
    T.conversations w3.1 = cleared w contact /\
    Save clock cfg contact w = save_conversation clock (ConversationFromContact contact) w3.
Proof.
  intros Hok Hroom Hport.
  set (w1 := (MemoryTables.UpsertContact w.1 contact, w.2) : world).
  set (w2 := with_conversations (without (replaced_rooms w contact) "direct"
               (T.conversations w.1)) w1).
  assert (Hg : exists w2', when_set (deleteGroup cfg) (fun f => f (Contact.RoomID contact)) w2 =
      (w2', Ok ()) /\ T.contacts w2'.1 = T.contacts w2.1 /\
      T.conversations w2'.1 = T.conversations w2.1).
  { unfold when_set. destruct (deleteGroup cfg) as [f|] eqn:Hf; [|by exists w2].
    apply (Hport f _ w2 Hf). }
  destruct Hg as (w2' & Hrun & Hc & Hv).
  exists (with_conversations (cleared w contact) w2').
  split_and!; [by cbn; rewrite Hc|done|].
  assert (Hdel : delete_kind (Contact.RoomID contact) "group" w2' =
      (with_conversations (cleared w contact) w2', Ok ())).
  { rewrite delete_kind_effect; [by rewrite Hv| |done]. rewrite Hv. by apply without_ok. }
  assert (Hreplaced : for_each (fun room => delete_kind room "direct") (replaced_rooms w contact) w1
      = (w2, Ok ())).
  { by apply delete_kinds_effect; [|apply replaced_rooms_nonempty]. }
  unfold Save, save, mbind_ at 1 2, reads.
  cbn [ListContacts pair_contact_store memory_contact_store]. unfold mbind_ at 1, reads.
  unfold Conversation.ListRecords. cbn [ListConversations pair_conversation_store
    memory_conversation_store]. fold (replaced_rooms w contact).
  unfold mbind_ at 1. cbn [write_contact]. unfold mbind_ at 1, upsert_contact, ret at 1.
  cbn [UpsertContact pair_contact_store memory_contact_store]. unfold lift_store at 1. fold w1.
  cbn [negb]. unfold mbind_ at 1. rewrite Hreplaced.
  destruct (str_empty (Contact.RoomID contact)) eqn:E; str_bool; [done|].
  unfold mbind_ at 1. unfold mbind_ at 1. rewrite Hrun, Hdel. unfold mbind_ at 1.
  by destruct (save_conversation _ _ _) as [w4 [[]|e]].
Qed.

Lemma cleared_lookup w contact k x :
  cleared w contact !! k = Some x <->
  T.conversations w.1 !! k = Some x /\
  ~ (Conv.MatrixRoomID x ∈ replaced_rooms w contact /\ Conv.Kind x = "direct") /\
  ~ (Conv.MatrixRoomID x = Contact.RoomID contact /\ Conv.Kind x = "group").
Proof using Type.
  unfold cleared, without. rewrite !map_lookup_filter_Some. cbn.
  rewrite list_elem_of_singleton. clear clock.
  split; [intros [[? ?] ?]|intros (? & ? & ?)]; auto.
Qed.

(** The room has a conversation that is neither direct nor a group's. *)
Definition foreign_conversation w contact : Prop :=
  exists k x, T.conversations w.1 !! k = Some x /\
    Conv.MatrixRoomID x = Contact.RoomID contact /\ Conv.Kind x <> "direct" /\
    Conv.Kind x <> "group".

(** The direct conversation of a saved contact. *)
Definition projection_of contact x : Prop :=
  Conv.MatrixRoomID x = Contact.RoomID contact /\ Conv.Kind x = "direct" /\
  Conv.PeerMXID x = Contact.PeerMXID contact /\
  Conv.Lifecycle x = Conv.Lifecycle (ConversationFromContact contact).

(** A live direct conversation with the peer in another room is cleared. *)
Lemma cleared_peer w contact k x :
  Contact.PeerMXID contact <> "" -> cleared w contact !! k = Some x ->
  Conv.Kind x = "direct" -> Conv.PeerMXID x = Contact.PeerMXID contact ->
  Conv.MatrixRoomID x = Contact.RoomID contact \/ Conv.MatrixRoomID x = "" \/
  Conv.Lifecycle x = "deleted".
Proof using Type.
  intros Hp (Hk & Hd & _)%cleared_lookup Hkind Hpeer.
  destruct (decide (Conv.MatrixRoomID x = Contact.RoomID contact)); [by left|right].
  destruct (decide (Conv.MatrixRoomID x = "")); [by left|right].
  destruct (decide (Conv.Lifecycle x = "deleted")) as [?|Hl]; [done|].
  exfalso. apply Hd. split; [|done]. unfold replaced_rooms. rewrite replaced_rooms_elem by done.
  split_and!; [done..|]. right. exists x. split_and!; try done.
  unfold MemoryTables.ListConversations. apply elem_of_stable_sort.
  apply list_elem_of_In, filter_In. split.
  - apply list_elem_of_In, elem_of_go_values. eauto.
  - apply negb_true_iff, str_eqb_false, Hl.
Qed.

(** The record that is filed for a contact whose identifiers are canonical. *)
Lemma normalized_projection contact now :
  trimmed (Contact.PeerMXID contact) -> trimmed (Contact.RoomID contact) ->
  projection_of contact (NormalizeConversationRecord now (NormalizeConversationRecord now
    (ConversationFromContact contact))).
Proof using Type.
  intros Hp Hr. unfold projection_of, trimmed in *.
  cbn [NormalizeConversationRecord ConversationFromContact Conv.MatrixRoomID Conv.Kind
    Conv.PeerMXID Conv.Lifecycle]. rewrite !trim_space_idemp. split_and!; [done..|].
  by destruct (ContactDeleted _); [|destruct (negb _)].
Qed.

(** Filing keeps what makes a record the projection of a contact. *)
Lemma filed_projection contact m n :
  Contact.PeerMXID contact <> "" -> projection_of contact n -> projection_of contact (filed m n).
Proof using Type.
  intros Hp (Hr & Hk & Hpeer & Hl). unfold filed. destruct (m !! _) as [e|]; [|done].
  destruct (merge_fields e n) as (_ & E1 & E2 & E3 & _ & E4 & _).
  unfold projection_of. rewrite E1, E2, E3, E4, Hpeer.
  destruct (str_empty (Contact.PeerMXID contact)) eqn:E; str_bool; done.
Qed.

Lemma conflict_is_foreign w contact w3 n :
  T.conversations w3.1 = cleared w contact -> projection_of contact n ->
  conflicting w3.1 n <-> foreign_conversation w contact.
Proof using Type.
  intros Hv (Hr & Hk & _). unfold conflicting, foreign_conversation. rewrite Hv, Hr, Hk. split.
  - intros (k & x & (Hx & _ & Hg)%cleared_lookup & Hroom & Hkind). exists k, x. split_and!; try done.
    intros Hgroup. by apply Hg.
  - intros (k & x & Hx & Hroom & H1 & H2). exists k, x. split_and!; try done.
    apply cleared_lookup. split_and!; [done| |]; by intros [_ ?].
Qed.
End Projection.

(** Saving a contact over the memory store, with canonical identifiers
    and a group port that keeps to groups.  Whatever the outcome, the contact
    is stored as the only contact of its peer and every contact of another
    room and peer is kept.  The save fails exactly when the room has a
    conversation that is neither direct nor a group's.  Otherwise the room's
    direct conversation shows the peer with the lifecycle of the contact's
    status, all conversations of the room are direct, and any other direct
    conversation with the peer is deleted or has no room. *)
Theorem saved_contact_is_projected `{GoRange} {X : Type} (clock : T.tables * X -> Z)
    (cfg : Config (T.tables * X)) (w w' : T.tables * X) contact r :
  conversations_ok (T.conversations w.1) -> group_port_apart cfg ->
  trimmed (Contact.PeerMXID contact) -> Contact.PeerMXID contact <> "" ->
  trimmed (Contact.RoomID contact) -> Contact.RoomID contact <> "" ->
  Save clock cfg contact w = (w', r) ->
  (forall k c, T.contacts w'.1 !! k = Some c <->
     (k = Contact.RoomID contact /\ c = contact) \/
     (k <> Contact.RoomID contact /\ Contact.PeerMXID c <> Contact.PeerMXID contact /\
      T.contacts w.1 !! k = Some c)) /\
  ((exists e, r = Err e) <-> foreign_conversation w contact) /\
  (r = Ok () ->
     (exists k x, T.conversations w'.1 !! k = Some x /\ projection_of contact x) /\
     (forall k x, T.conversations w'.1 !! k = Some x ->
        Conv.MatrixRoomID x = Contact.RoomID contact -> Conv.Kind x = "direct") /\
     (forall k x, T.conversations w'.1 !! k = Some x -> Conv.Kind x = "direct" ->
        Conv.PeerMXID x = Contact.PeerMXID contact ->
        Conv.MatrixRoomID x = Contact.RoomID contact \/ Conv.MatrixRoomID x = "" \/
        Conv.Lifecycle x = "deleted")).
Proof.
  intros Hok Hport Htp Hp Htr Hr Hsave.
  destruct (save_before_conversation clock cfg w contact Hok Hr Hport) as (w3 & Hc & Hv & Heq).
  rewrite Heq in Hsave. clear Heq. unfold save_conversation, Conversation.Save in Hsave.
  cbn [UpsertConversation pair_conversation_store memory_conversation_store] in Hsave.
  unfold lift_store in Hsave. set (now := clock w3) in *.
  pose proof (normalized_projection contact now Htp Htr) as Hn.
  set (n0 := NormalizeConversationRecord now (ConversationFromContact contact)) in *.
  set (n := NormalizeConversationRecord now n0) in *.
  pose proof (conflict_is_foreign w contact w3 n Hv Hn) as Hconf.
  assert (Hcontacts : T.contacts w'.1 = T.contacts w3.1).
  { destruct (UpsertConversation_cases now w3.1 n0) as [[_ [e E]]|[_ E]];
      rewrite E in Hsave; by injection Hsave as <- _. }
  split_and!.
  - intros k c. rewrite Hcontacts, Hc. unfold MemoryTables.UpsertContact.
    destruct (str_empty (Contact.PeerMXID contact)) eqn:E; str_bool; [done|]. cbn.
    rewrite lookup_insert_Some, map_lookup_filter_Some. cbn. split.
    + intros [[<- <-]|(? & ? & [Hkr|?])]; [by left|by subst|by right].
    + intros [[-> ->]|(? & ? & ?)]; [by left|right; auto].
  - rewrite <- Hconf.
    destruct (UpsertConversation_cases now w3.1 n0) as [[Hcf [e E]]|[Hcf E]];
      rewrite E in Hsave; injection Hsave as <- <-; fold n in Hcf; split; try done; [eauto|].
    by intros [? ?].
  - intros ->.
    destruct (UpsertConversation_cases now w3.1 n0) as [[_ [e E]]|[Hcf E]];
      rewrite E in Hsave; [discriminate|]. injection Hsave as <-. fold n in Hcf.
    cbn. fold n. rewrite file_conversation_eq.
    pose proof (filed_projection contact (T.conversations w3.1) n Hp Hn) as Hf.
    split_and!.
    + exists (Conv.ConversationID n), (filed (T.conversations w3.1) n).
      split; [apply lookup_insert_eq|done].
    + intros k x [[_ <-]|[_ Hx]]%lookup_insert_Some Hroom; [apply Hf|].
      destruct (decide (Conv.Kind x = "direct")) as [?|Hne]; [done|]. exfalso. apply Hcf.
      destruct Hn as (Hn1 & Hn2 & _). exists k, x. rewrite Hn1, Hn2. done.
    + intros k x [[_ <-]|[_ Hx]]%lookup_insert_Some Hd Hpeer; [left; apply Hf|].
      rewrite Hv in Hx. by eapply cleared_peer.
Qed.
