(* ===== verification/ServiceFacts.v ===== *)
(** * The wired service: theorems

    Which conversations the owner may write in and manage, that a blocked
    peer cannot be asked to be a contact, and what happens when a decision
    names a room and another peer. *)

From Stdlib Require Import Ascii String ZArith Lia.
From stdpp Require Import base tactics list gmap strings.
From S2P Require Import Prelude GoStrings Values Domain Policy PolicyFacts Action MemoryTables Workflow.
From S2P Require Import Conversation Blocks Contacts ContactWorkflows ServiceWiring.
From S2P Require Import MemoryTablesFacts ContactsFacts ContactProjectionFacts.
Import Wiring.
Local Open Scope Z_scope.
Local Open Scope go_scope.

Section Service_.
Context `{GoRange} {X : Type}.
Local Notation world := (T.tables * Service X)%type.
Implicit Types (w : world) (record : Conv.ConversationRecord) (view : CView.ConversationView).

(** ** Conversations *)

(** The owner's membership of the room, as the store has it. *)
Definition owner_member w (room : string) (m : Member.MemberRecord) : Prop :=
  room <> "" /\ ownerMXID w.2 <> "" /\
  MemoryTables.LookupMember w.1 room (ownerMXID w.2) = Some m /\
  MemberHidden (Member.Membership m) = false.

(** The record is live and its projection has not failed. *)
Definition live record : Prop :=
  Conv.Lifecycle record = "active" /\
  (Conv.ProjectionState record = "" \/ Conv.ProjectionState record = "ready").

(** The room's contact is accepted. *)
Definition accepted_contact w (room : string) : Prop :=
  room <> "" /\ exists c, T.contacts w.1 !! room = Some c /\
    equal_fold (Contact.Status c) "accepted" = true.

Definition group_or_channel record : Prop :=
  Conv.Kind record = "group" \/ Conv.Kind record = "channel".

(** Direct rooms need an accepted contact, groups and channels the owner's
    joined membership; other conversations cannot be written in. *)
Definition may_send w record : Prop :=
  live record /\
  ((Conv.Kind record = "direct" /\ accepted_contact w (trim_space (Conv.MatrixRoomID record))) \/
   (group_or_channel record /\ exists m, owner_member w (Conv.MatrixRoomID record) m /\
      MemberMembershipJoined (Member.Membership m) = true)).

(** Only the owner of a group or channel manages it. *)
Definition may_manage w record : Prop :=
  may_send w record /\ group_or_channel record /\
  exists m, owner_member w (Conv.MatrixRoomID record) m /\
    ProductOwnerRole (Member.Role m) = true.

(** Under the invariant of the contact table a room has one contact. *)
Lemma LookupByRoom_exact w room :
  contacts_ok (T.contacts w.1) ->
  Contacts.LookupByRoom w room =
    Ok (if str_empty (trim_space room) then None else T.contacts w.1 !! trim_space room).
Proof.
  intros [Hk _]. unfold Contacts.LookupByRoom, Contacts.ListRaw. cbn.
  destruct (str_empty (trim_space room)); [done|]. f_equal.
  destruct (first_match _ _) as [c|] eqn:Hf; symmetry.
  - apply first_match_Some in Hf as [Hin Hr]. str_bool.
    apply elem_of_go_values in Hin as [k Hkc]. rewrite <- Hr. by rewrite (Hk k c Hkc).
  - destruct (T.contacts w.1 !! trim_space room) as [c|] eqn:Hc; [|done].
    apply (proj1 (first_match_None _ _)) with (x := c) in Hf; [|apply elem_of_go_values; eauto].
    rewrite (Hk _ _ Hc) in Hf. by str_bool.
Qed.

(** What the capabilities say, from the fields they are computed from. *)
Lemma send_capability view :
  Caps.Send (Conversation.capabilities view) = true <->
  CView.Kind view <> "system" /\ CView.HydrationState view = "ready" /\
  CView.Lifecycle view = "active" /\
  (if str_eqb (CView.Kind view) "direct"
   then equal_fold (CView.RelationshipStatus view) "accepted"
   else MemberMembershipJoined (CView.Membership view)) = true.
Proof.
  unfold Conversation.capabilities. cbv zeta.
  destruct (str_eqb (CView.Kind view) "system") eqn:Es; str_bool.
  { cbn. split; [done|]. by intros [? _]. }
  cbn. rewrite <- (str_eqb_true (CView.HydrationState view)),
    <- (str_eqb_true (CView.Lifecycle view)).
  destruct (str_eqb (CView.Kind view) "direct"); rewrite !andb_true_iff; tauto.
Qed.

Lemma manage_capability view :
  Caps.ManageMembers (Conversation.capabilities view) = true <->
  Caps.Send (Conversation.capabilities view) = true /\
  (CView.Kind view = "group" \/ CView.Kind view = "channel") /\
  ProductOwnerRole (CView.Role view) = true.
Proof.
  unfold Conversation.capabilities. cbv zeta.
  destruct (str_eqb (CView.Kind view) "system") eqn:Es; str_bool.
  { cbn. split; [done|]. by intros [? _]. }
  cbn. rewrite !andb_true_iff, orb_true_iff, !str_eqb_true. tauto.
Qed.

Lemma hydration_ready view :
  (Conversation.hydration view).1 = "ready" <->
  (CView.ProjectionState view = "" \/ CView.ProjectionState view = "ready") /\
  (CView.Kind view = "direct" ->
     trim_space (CView.PeerMXID view) <> "" \/ trim_space (CView.RelationshipStatus view) <> "") /\
  (CView.Kind view = "group" \/ CView.Kind view = "channel" ->
     trim_space (CView.Membership view) <> "").
Proof.
  unfold Conversation.hydration.
  destruct (str_empty (CView.ProjectionState view)) eqn:E1; cbn [negb andb].
  all: try destruct (str_eqb (CView.ProjectionState view) "ready") eqn:E2; cbn [negb andb fst].
  all: str_bool; try (split; [done|by intros [[?|?] _]]).
  all: destruct (str_eqb (CView.Kind view) "direct") eqn:Ed; cbn [andb].
  all: try destruct (str_empty (trim_space (CView.PeerMXID view))) eqn:Ep; cbn [andb].
  all: try destruct (str_empty (trim_space (CView.RelationshipStatus view))) eqn:Er; cbn [andb fst].
  all: try (str_bool; split; [done|]; intros (_ & Hd & _); exfalso; destruct (Hd Ed); done).
  all: destruct (str_eqb (CView.Kind view) "group" || str_eqb (CView.Kind view) "channel") eqn:Eg;
    cbn [andb].
  all: try destruct (str_empty (trim_space (CView.Membership view))) eqn:Em; cbn [fst].
  all: rewrite ?orb_true_iff, ?orb_false_iff, ?str_eqb_true, ?str_eqb_false in Eg.
  all: str_bool; split; [intros Hr|intros (_ & Hd & Hm)]; try done; try (by exfalso; apply Hm).
  all: split_and!; auto; intros Hk; tauto.
Qed.

(** The fields that finalisation keeps. *)
Lemma finalizeView_send view :
  Caps.Send (CView.Capabilities (Conversation.finalizeView view)) = true <->
  CView.Kind view <> "system" /\ (Conversation.hydration view).1 = "ready" /\
  CView.Lifecycle view = "active" /\
  (if str_eqb (CView.Kind view) "direct"
   then equal_fold (CView.RelationshipStatus view) "accepted"
   else MemberMembershipJoined (CView.Membership view)) = true.
Proof.
  unfold Conversation.finalizeView. destruct (Conversation.hydration view) as [state reason].
  cbn [CView.set_Capabilities CView.Capabilities].
  exact (send_capability (CView.set_HydrationReason reason (CView.set_HydrationState state view))).
Qed.

Lemma finalizeView_manage view :
  Caps.ManageMembers (CView.Capabilities (Conversation.finalizeView view)) = true <->
  Caps.Send (CView.Capabilities (Conversation.finalizeView view)) = true /\
  (CView.Kind view = "group" \/ CView.Kind view = "channel") /\
  ProductOwnerRole (CView.Role view) = true.
Proof.
  unfold Conversation.finalizeView. destruct (Conversation.hydration view) as [state reason].
  cbn [CView.set_Capabilities CView.Capabilities].
  exact (manage_capability (CView.set_HydrationReason reason (CView.set_HydrationState state view))).
Qed.

(** ** Hydrated views *)

(** Two views agree on what hydration does not change. *)
Definition same_record (v v' : CView.ConversationView) : Prop :=
  CView.Kind v' = CView.Kind v /\ CView.Lifecycle v' = CView.Lifecycle v /\
  CView.ProjectionState v' = CView.ProjectionState v /\
  CView.MatrixRoomID v' = CView.MatrixRoomID v.

Lemma directView_spec w view :
  contacts_ok (T.contacts w.1) -> CView.RelationshipStatus view = "" ->
  exists v, Conversation.directView serviceConversationHydrator w view = Ok v /\
    same_record view v /\
    (equal_fold (CView.RelationshipStatus v) "accepted" = true <->
     accepted_contact w (trim_space (CView.MatrixRoomID view))).
Proof.
  intros Hok Hrel. unfold Conversation.directView, accepted_contact.
  destruct (str_empty (trim_space (CView.MatrixRoomID view))) eqn:E; cbn.
  { eexists. split_and!; [done..|]. cbn. rewrite Hrel. str_bool. split; [done|by intros [? _]]. }
  rewrite LookupByRoom_exact by done. rewrite E. str_bool. cbn.
  destruct (T.contacts w.1 !! _) as [c|]; cbn; eexists; (split_and!; [done..|]); cbn.
  - split; [intros Hs; split; [done|]; by exists c|by intros (_ & ? & [= <-] & ?)].
  - rewrite Hrel. split; [done|by intros (_ & ? & ? & _)].
Qed.

Lemma hydrateMembership_spec w view channel :
  CView.Membership view = "" -> CView.Role view = "" ->
  exists v, Conversation.hydrateMembership serviceConversationHydrator w view channel = Ok v /\
    same_record view v /\
    (forall m, owner_member w (CView.MatrixRoomID view) m ->
       CView.Membership v = Member.Membership m /\
       CView.Role v = NormalizeProductMemberRole (Member.Role m)) /\
    ((forall m, ~ owner_member w (CView.MatrixRoomID view) m) ->
       CView.Membership v = "" /\ CView.Role v = "").
Proof.
  intros Hm Hr. unfold Conversation.hydrateMembership, owner_member. cbn.
  set (view' := if 0 <? _ then _ else view).
  assert (Hv : same_record view view' /\ CView.Membership view' = "" /\ CView.Role view' = "").
  { unfold view'. destruct (0 <? _); done. }
  clearbody view'. destruct Hv as ((Hk & Hl & Hp & Hroom) & Hm' & Hr'). rewrite Hroom.
  destruct (str_empty (CView.MatrixRoomID view) || str_empty (ownerMXID w.2)) eqn:E; str_bool.
  { exists view'. split_and!; try done. intros m (H1 & H2 & _). destruct E as [E|E]; str_bool; done. }
  cbn. destruct (MemoryTables.LookupMember _ _ _) as [m|]; cbn.
  - destruct (MemberHidden (Member.Membership m)) eqn:Eh; cbn; eexists; (split_and!; try done); cbn.
    + intros m' (_ & _ & [= <-] & Hh). congruence.
    + intros m' (_ & _ & [= <-] & _). done.
    + intros Hno. exfalso. by apply (Hno m).
  - eexists. split_and!; try done. by intros m (_ & _ & ? & _).
Qed.

Lemma owner_member_cases w room :
  (exists m, owner_member w room m) \/ (forall m, ~ owner_member w room m).
Proof.
  unfold owner_member. destruct (decide (room = "")); [right; by intros m (? & _)|].
  destruct (decide (ownerMXID w.2 = "")); [right; by intros m (_ & ? & _)|].
  destruct (MemoryTables.LookupMember _ _ _) as [m|]; [|right; by intros m (_ & _ & ? & _)].
  destruct (MemberHidden (Member.Membership m)) eqn:E; [right|left; by exists m].
  intros m' (_ & _ & [= <-] & ?). congruence.
Qed.

Lemma owner_member_unique w room m m' :
  owner_member w room m -> owner_member w room m' -> m = m'.
Proof. intros (_ & _ & H1 & _) (_ & _ & H2 & _). congruence. Qed.

(** The capabilities of a view with the owner's membership filled in. *)
Lemma member_capabilities w record view v :
  group_or_channel record -> same_record (Conversation.conversationViewFromRecord record) view ->
  same_record view v ->
  (forall m, owner_member w (CView.MatrixRoomID view) m ->
     CView.Membership v = Member.Membership m /\
     CView.Role v = NormalizeProductMemberRole (Member.Role m)) ->
  ((forall m, ~ owner_member w (CView.MatrixRoomID view) m) ->
     CView.Membership v = "" /\ CView.Role v = "") ->
  let caps := CView.Capabilities (Conversation.finalizeView v) in
  (Caps.Send caps = true <-> may_send w record) /\
  (Caps.ManageMembers caps = true <-> may_manage w record).
Proof.
  intros Hg (K1 & L1 & P1 & R1) (K2 & L2 & P2 & R2) Hsome Hnone. cbv zeta.
  rewrite R1 in Hsome, Hnone. cbn in K1, L1, P1, R1, Hsome, Hnone.
  rewrite K1 in K2. rewrite L1 in L2. rewrite P1 in P2. clear R2.
  assert (Hdirect : str_eqb (CView.Kind v) "direct" = false).
  { rewrite K2. apply str_eqb_false. by destruct Hg as [-> | ->]. }
  assert (Hsend : Caps.Send (CView.Capabilities (Conversation.finalizeView v)) = true <->
      may_send w record).
  { rewrite finalizeView_send, hydration_ready, Hdirect. unfold may_send, live.
    rewrite K2, L2, P2.
    assert (Hd : Conv.Kind record <> "direct" /\ Conv.Kind record <> "system").
    { by destruct Hg as [-> | ->]. }
    destruct (owner_member_cases w (Conv.MatrixRoomID record)) as [[m Hm]|Hno].
    - destruct (Hsome m Hm) as [-> _].
      assert (Hne : MemberMembershipJoined (Member.Membership m) = true ->
        trim_space (Member.Membership m) <> "").
      { intros Hj E. unfold MemberMembershipJoined in Hj. by rewrite E in Hj. }
      split.
      + intros (_ & (Hps & _ & _) & Hl & Hj). split; [done|]. right. split; [done|]. by exists m.
      + intros [[Hl Hps] [[? _]|[_ (m' & Hm' & Hj)]]]; [by destruct Hd|].
        rewrite (owner_member_unique _ _ _ _ Hm' Hm) in Hj.
        split_and!; try done; [by destruct Hd..|]. intros _. by apply Hne.
    - destruct (Hnone Hno) as [-> _]. split; [by intros (_ & _ & _ & ?)|].
      intros [_ [[? _]|[_ (m & Hm & _)]]]; [by destruct Hd|]. by destruct (Hno m). }
  split; [done|]. rewrite finalizeView_manage, Hsend, K2. unfold may_manage.
  destruct (owner_member_cases w (Conv.MatrixRoomID record)) as [[m Hm]|Hno].
  - destruct (Hsome m Hm) as [_ ->].
    assert (Hrole : ProductOwnerRole (NormalizeProductMemberRole (Member.Role m)) =
      ProductOwnerRole (Member.Role m)).
    { unfold NormalizeProductMemberRole. by destruct (ProductOwnerRole (Member.Role m)). }
    rewrite Hrole. split; intros (Hs & _ & Ho); (split_and!; [done..|]); [by exists m|].
    destruct Ho as (m' & Hm' & ?). by rewrite (owner_member_unique _ _ _ _ Hm Hm').
  - destruct (Hnone Hno) as [_ ->]. split; [by intros (_ & _ & ?)|].
    intros (_ & _ & m & Hm & _). by destruct (Hno m).
Qed.

Lemma direct_capabilities w record v :
  Conv.Kind record = "direct" ->
  same_record (Conversation.conversationViewFromRecord record) v ->
  (equal_fold (CView.RelationshipStatus v) "accepted" = true <->
     accepted_contact w (trim_space (Conv.MatrixRoomID record))) ->
  let caps := CView.Capabilities (Conversation.finalizeView v) in
  (Caps.Send caps = true <-> may_send w record) /\
  (Caps.ManageMembers caps = true <-> may_manage w record).
Proof.
  intros Hk (K & L & P & _) Hrel. cbv zeta. cbn in K, L, P. rewrite Hk in K.
  assert (Hg : ~ group_or_channel record) by (unfold group_or_channel; rewrite Hk; by intros [?|?]).
  split.
  - rewrite finalizeView_send, hydration_ready. unfold may_send, live. rewrite K, L, P.
    cbn [str_eqb]. rewrite (proj2 (str_eqb_true "direct" "direct") eq_refl), Hrel. split.
    + intros (_ & (Hps & _ & _) & Hl & Hc). auto.
    + intros [[Hl Hps] [[_ Hc]|[? _]]]; [|done]. split_and!; try done; [|by intros [?|?]].
      intros _. right. apply Hrel in Hc. unfold equal_fold in Hc. apply bool_decide_eq_true in Hc.
      by eapply equal_fold_word with (a := "a"%char); [..|exact Hc].
  - rewrite finalizeView_manage, K. unfold may_manage.
    split; [by intros (_ & [?|?] & _)|by intros (_ & ? & _)].
Qed.

Lemma channel_view_start w record view :
  same_record (Conversation.conversationViewFromRecord record) view ->
  group_or_channel record -> CView.Membership view = "" -> CView.Role view = "" ->
  forall channel, exists v,
    Conversation.hydrateMembership serviceConversationHydrator w view channel = Ok v /\
    let caps := CView.Capabilities (Conversation.finalizeView v) in
    (Caps.Send caps = true <-> may_send w record) /\
    (Caps.ManageMembers caps = true <-> may_manage w record).
Proof.
  intros Hsame Hg Hm Hr channel.
  destruct (hydrateMembership_spec w view channel Hm Hr) as (v & Hv & Hs & H1 & H2).
  exists v. split; [done|]. by eapply member_capabilities.
Qed.

(** C23.  The view of a conversation never fails over the memory store, and
    its capabilities are exactly these: the owner may write in a live
    conversation that is a direct room with an accepted contact, or a group or
    channel in which the stored membership of the owner is joined; the owner
    may manage members exactly in such a group or channel whose stored
    membership has the owner role. *)
Theorem conversation_capabilities_exact w record :
  contacts_ok (T.contacts w.1) ->
  exists view, Conversation.View serviceConversationHydrator w record = Ok view /\
    (Caps.Send (CView.Capabilities view) = true <-> may_send w record) /\
    (Caps.ManageMembers (CView.Capabilities view) = true <-> may_manage w record).
Proof.
  intros Hok. unfold Conversation.View. cbv zeta.
  destruct (str_eqb (Conv.Kind record) "direct") eqn:Ed; str_bool.
  { destruct (directView_spec w (Conversation.conversationViewFromRecord record) Hok eq_refl)
      as (v & -> & Hs & Hrel). eexists. split; [done|]. by apply direct_capabilities. }
  destruct (str_eqb (Conv.Kind record) "group") eqn:Eg; str_bool.
  { unfold Conversation.groupView. cbn [rbind Conversation.GroupByRoom serviceConversationHydrator].
    edestruct (channel_view_start w record) as (v & Hv & Hcaps);
      [| | | |rewrite Hv; eexists; split; [done|exact Hcaps]];
      try (destruct (MemoryTables.GetGroupByRoom _ _); [destruct (0 <? _)|]; done).
    by left. }
  destruct (str_eqb (Conv.Kind record) "channel") eqn:Ec; str_bool.
  { unfold Conversation.channelView.
    cbn [rbind Conversation.ChannelByRoom serviceConversationHydrator].
    destruct (MemoryTables.GetChannelByIDOrRoom _ _ _) as [ch|];
      (edestruct (channel_view_start w record) as (v & Hv & Hcaps);
       [| | | |rewrite Hv; eexists; split; [done|exact Hcaps]]);
      try (by right); try done; destruct (0 <? _); done. }
  eexists. split; [done|].
  assert (Hno : ~ may_send w record).
  { intros [_ [[? _]|[[?|?] _]]]; done. }
  assert (Hsend : Caps.Send (CView.Capabilities (Conversation.finalizeView
      (Conversation.conversationViewFromRecord record))) = true <-> may_send w record).
  { rewrite finalizeView_send. cbn [CView.Kind Conversation.conversationViewFromRecord].
    rewrite (proj2 (str_eqb_false _ _) Ed). split; [by intros (_ & _ & _ & ?)|done]. }
  split; [done|]. rewrite finalizeView_manage, Hsend. split; [by intros (? & _)|by intros (? & _)].
Qed.

(** ** Blocked peers *)

(** A stored contact block mentions the peer. *)
Definition names_peer (peer : string) (b : Block.BlockRecord) : Prop :=
  Block.TargetType b = "contact" /\
  peer ∈ map trim_space [Block.TargetID b; Block.RoomID b; Block.ChannelID b; Block.PeerMXID b].

Lemma Exists_peer w peer :
  trimmed peer -> peer <> "" ->
  exists b, Blocks.Exists_ w "contact" [peer] = Ok b /\
    (b = true <-> exists k r, T.blocks w.1 !! k = Some r /\ names_peer peer r).
Proof.
  intros Ht Hne. unfold Blocks.Exists_.
  change (NormalizeBlockTargetType "contact") with "contact". cbn [str_empty].
  assert (Hids : Blocks.identifier_set [peer] = {[peer]}).
  { unfold Blocks.identifier_set. cbn [foldl]. rewrite Ht.
    destruct (str_empty peer) eqn:E; str_bool; [done|]. set_solver. }
  rewrite Hids. destruct (str_empty "contact") eqn:E0; [done|].
  rewrite bool_decide_false by set_solver. cbn [ListBlocks pair_block_store memory_block_store rbind].
  eexists. split; [done|]. rewrite existsb_exists. split.
  - intros (r & Hin & Hr). apply andb_true_iff in Hr as [Hr Hn]. str_bool.
    apply list_elem_of_In, elem_of_stable_sort, elem_of_go_values in Hin as [k Hk].
    exists k, r. split; [done|]. split; [done|]. unfold Blocks.names_any in Hn.
    apply existsb_exists in Hn as (c & Hc & Hd). apply bool_decide_eq_true in Hd.
    apply list_elem_of_In, in_map_iff. exists c. split; [set_solver|done].
  - intros (k & r & Hk & Hr & Hn). exists r. split.
    { apply list_elem_of_In, elem_of_stable_sort, elem_of_go_values. eauto. }
    apply andb_true_iff. split; [by apply str_eqb_true|]. apply existsb_exists.
    apply list_elem_of_In, in_map_iff in Hn as (c & Hc & Hin). exists c. split; [done|].
    apply bool_decide_eq_true. set_solver.
Qed.

Lemma FirstListString_trimmed params keys : trimmed (Params.FirstListString params keys).
Proof.
  induction keys as [|key keys IH]; cbn; [apply trimmed_empty|].
  destruct (Params.get_strings params key) as [|v vs] eqn:E; [done|].
  assert (Hin : v ∈ Params.get_strings params key) by (rewrite E; by left).
  assert (Hn : forall l, v ∈ Params.normalizedStrings l -> trimmed v).
  { intros l Hv. apply (proj2 (normalizedStrings_loop_spec ∅ l)) in Hv as (_ & _ & Hv).
    apply list_elem_of_fmap in Hv as (u & -> & _). apply trimmed_trim. }
  unfold Params.get_strings, Params.Strings in Hin.
  destruct (get params key); try (by apply not_elem_of_nil in Hin); by eapply Hn.
Qed.

Lemma FallbackString_trimmed a b : trimmed a -> trimmed b -> trimmed (FallbackString a b).
Proof. unfold FallbackString. by destruct (str_empty (trim_space a)). Qed.

(** The block a request describes: a contact block of a canonical peer. *)
Lemma block_of_params_spec params block :
  Blocks.block_of_params params = Ok block ->
  Block.TargetType block = "contact" /\ trimmed (Block.PeerMXID block) /\
  Block.PeerMXID block <> "".
Proof.
  unfold Blocks.block_of_params. cbv zeta. destruct (str_empty _); [done|].
  destruct (str_empty (NormalizeBlockTargetType _)) eqn:Et; [done|].
  match goal with |- context [str_empty (FallbackString (FallbackString ?a ?b) ?c)] =>
    set (peer := FallbackString (FallbackString a b) c) end.
  assert (Hp : trimmed peer).
  { apply FallbackString_trimmed; [apply FallbackString_trimmed; apply get_string_trimmed|].
    apply FallbackString_trimmed; [|apply get_string_trimmed].
    destruct (str_empty (Params.FirstString _ _));
      [apply FirstListString_trimmed|apply FirstString_trimmed]. }
  destruct (str_empty peer) eqn:Ep; [done|]. intros [= <-]. cbn. str_bool. split_and!; [|done..].
  unfold NormalizeBlockTargetType in Et |- *. by destruct (bool_decide _).
Qed.

Lemma recordFromParams_spec w params block :
  Blocks.recordFromParams (Some blocksLookupContact) w params = Ok block ->
  Block.TargetType block = "contact" /\ Block.TargetID block = Block.PeerMXID block /\
  trimmed (Block.PeerMXID block) /\ Block.PeerMXID block <> "".
Proof.
  unfold Blocks.recordFromParams. intros (b & Hb & Hrest)%rbind_Ok_inv.
  apply rbind_Ok_inv in Hrest as (contact & _ & [= <-]).
  apply block_of_params_spec in Hb as (Ht & Hp & Hne). by destruct contact.
Qed.

Lemma handleAdd_spec w w1 now params block :
  Blocks.handleAdd (Some blocksLookupContact) now w params = (w1, Ok block) ->
  Block.TargetType block = "contact" /\ Block.TargetID block = Block.PeerMXID block /\
  trimmed (Block.PeerMXID block) /\ Block.PeerMXID block <> "" /\
  w1 = (MemoryTables.UpsertBlock w.1 block, w.2) /\
  exists stamped, Blocks.recordFromParams (Some blocksLookupContact) w params = Ok stamped /\
    Block.TargetID stamped = Block.TargetID block.
Proof.
  unfold Blocks.handleAdd.
  destruct (Blocks.recordFromParams _ w params) as [b|e] eqn:Hb; [|done].
  destruct (recordFromParams_spec _ _ _ Hb) as (H1 & H2 & H3 & H4).
  set (b' := if Block.CreatedAt b =? 0 then _ else b).
  assert (Hb' : Block.TargetType b' = Block.TargetType b /\ Block.TargetID b' = Block.TargetID b /\
    Block.PeerMXID b' = Block.PeerMXID b) by (unfold b'; by destruct (_ =? _)).
  clearbody b'. destruct Hb' as (E1 & E2 & E3). cbn. unfold lift_store. cbn. intros [= <- <-].
  rewrite E1, E2, E3. split_and!; try done. by exists b.
Qed.

(** The lookups a block request makes do not read blocks. *)
Lemma recordFromParams_contacts w w' params :
  T.contacts w'.1 = T.contacts w.1 ->
  Blocks.recordFromParams (Some blocksLookupContact) w' params =
  Blocks.recordFromParams (Some blocksLookupContact) w params.
Proof.
  intros Hc. unfold Blocks.recordFromParams, blocksLookupContact, Contacts.LookupByPeer,
    Contacts.ListRaw. cbn [ListContacts pair_contact_store memory_contact_store].
  unfold MemoryTables.ListContacts. by rewrite Hc.
Qed.
End Service_.

(** A peer that was blocked with blocks.add cannot be asked to be a
    contact: contacts.request answers 403 and does nothing but wait for its
    turn, whatever the ports would do.  Removing the block with the same
    request removes it, and the peer counts as blocked afterwards exactly when
    another stored block mentions it. *)
Theorem blocked_peer_is_refused `{GoRange} {X : Type} hydrator clock waiting serverName
    (ports : MatrixPorts X) (w w1 : T.tables * Service X) now params block request :
  Blocks.handleAdd (Some blocksLookupContact) now w params = (w1, Ok block) ->
  (forall key v, T.blocks (waiting key v).1 = T.blocks v.1) ->
  let peer := Block.PeerMXID block in
  Params.get_string request "mxid" = peer -> peer <> ownerMXID w.2 ->
  ContactFlow.Request hydrator clock waiting (contactsConfig serverName ports) request w1 =
    (waiting peer w1, Err (Api.StatusError 403 "already blocked")) /\
  exists w2, Blocks.handleRemove (Some blocksLookupContact) w1 params =
      (w2, Ok (true, "contact", peer)) /\
    exists b, Blocks.Exists_ w2 "contact" [peer] = Ok b /\
      (b = true <-> exists k r, T.blocks w.1 !! k = Some r /\ k <> BlockKey "contact" peer /\
         names_peer peer r).
Proof.
  intros Hadd Hwait peer Hreq Howner.
  destruct (handleAdd_spec _ _ _ _ _ Hadd) as (Htt & Hid & Ht & Hne & -> & b0 & Hb0 & Hb0id).
  fold peer in Hid, Ht, Hne. set (w1 := (MemoryTables.UpsertBlock w.1 block, w.2)).
  assert (Hstored : T.blocks w1.1 = <[BlockKey "contact" peer := block]> (T.blocks w.1)).
  { cbn. by rewrite Htt, Hid. }
  split.
  - assert (Hblocked : Blocks.Exists_ (waiting peer w1) "contact" [peer] = Ok true).
    { destruct (Exists_peer (waiting peer w1) peer Ht Hne) as ([] & -> & Hex); [done|].
      exfalso. enough (false = true) by done. apply Hex. rewrite Hwait, Hstored.
      exists (BlockKey "contact" peer), block. split; [apply lookup_insert_eq|].
      split; [done|]. rewrite Hid. cbn. unfold trimmed in Ht. fold peer. rewrite Ht. by left. }
    unfold ContactFlow.Request. rewrite Hreq.
    destruct (str_empty peer) eqn:E; str_bool; [done|]. cbn [localProfile contactsConfig].
    unfold mbind_ at 1, ContactFlow.profile_now, reads. cbn [localProfile contactsConfig MXID
      localContactProfileSnapshot]. change (ownerMXID w1.2) with (ownerMXID w.2).
    rewrite (proj2 (str_eqb_false _ _) Howner). unfold mbind_ at 1, ContactFlow.SerializePeer.
    unfold mbind_ at 1, run. unfold trimmed in Ht. rewrite Ht.
    unfold ContactFlow.requestForPeer. cbn [checkPeerBlocked contactsConfig].
    unfold mbind_ at 1, internal, contactsCheckPeerBlocked, reads. by rewrite Hblocked.
  - unfold Blocks.handleRemove.
    rewrite (recordFromParams_contacts w w1 params eq_refl), Hb0.
    destruct (recordFromParams_spec _ _ _ Hb0) as (Ht0 & _). rewrite Ht0, Hb0id, Hid. cbn.
    unfold lift_store. cbn. rewrite Htt, Hid, lookup_insert_eq. eexists. split; [done|].
    match goal with |- context [Blocks.Exists_ ?w2 _ _] => set (v := w2) end.
    destruct (Exists_peer v peer Ht Hne) as (b & -> & Hex). exists b. split; [done|].
    rewrite Hex. cbn. split.
    + intros (k & r & [Hk Hr]%lookup_delete_Some & Hn).
      rewrite lookup_insert_ne in Hr by done. exists k, r. done.
    + intros (k & r & Hr & Hk & Hn). exists k, r. split; [|done]. apply lookup_delete_Some.
      split; [done|]. by rewrite lookup_insert_ne.
Qed.

(** ** A decision that names another peer *)

Section Demo.
Local Notation world := (T.tables * Service unit)%type.

(** Without a Matrix transport the adapters answer with the room they are
    given, and the peers' nodes are not reached. *)
Definition offline : MatrixPorts unit := {|
  hasTransport := false;
  matrixLeaveRoom _ := ret tt;
  acceptDirectContactRoom c _ := ret (Contact.RoomID c);
  createContactDirectRoom r := ret (FallbackRoomID r);
  inviteContactDirectRoom _ := ret tt;
  joinContactDirectRoomTransport r w :=
    (w, {| JoinKind := DirectRoomJoinSucceeded; JoinedRoomID := JoinRoomID r;
           JoinFailure := None |});
  randomDirectRoomID w := (w, "!new:x");
  reactivatePeerContact _ := fail (Api.StatusError 502 "unreachable");
  reactivateRetainedDirectRoom _ _ _ := ret tt;
  matrixMemberJoined _ _ := ret false;
|}.

Definition demo_peer (peer room status : string) : Contact.ContactRecord :=
  {| Contact.PeerMXID := peer; Contact.DisplayName := peer; Contact.DisplayNameOverride := false;
     Contact.AvatarURL := ""; Contact.Domain := "x"; Contact.RoomID := room;
     Contact.Status := status; Contact.Remark := ""; Contact.RequestID := "" |}.

Definition demo_service : Service unit :=
  {| ownerMXID := "@me:x"; profileName := "Me"; profileAvatar := ""; matrix := tt |}.

Definition demo_world : world :=
  (MemoryTables.UpsertContact
     (MemoryTables.UpsertContact T.NewMemoryStore (demo_peer "@a:x" "!a:x" "pending_inbound"))
     (demo_peer "@b:x" "!b:x" "accepted"), demo_service).

Definition demo_serve (q : ContactFlow.request) (w : world) : world * result Api.Error reply :=
  ContactFlow.serve serviceConversationHydrator (fun _ => 1000) (fun _ w => w)
    (contactsConfig "x" offline) q w.

Definition mixed_decision : content :=
  <["room_id" := AString "!a:x"]> {["peer_mxid" := AString "@b:x"]}.

Lemma demo_world_in_order : contacts_in_order demo_world.
Proof.
  split; [by repeat apply UpsertContact_ok|].
  intros k c. unfold demo_world. cbn [fst].
  change (T.contacts (MemoryTables.UpsertContact (MemoryTables.UpsertContact T.NewMemoryStore
    (demo_peer "@a:x" "!a:x" "pending_inbound")) (demo_peer "@b:x" "!b:x" "accepted")))
    with (<["!b:x" := demo_peer "@b:x" "!b:x" "accepted"]>
      (<["!a:x" := demo_peer "@a:x" "!a:x" "pending_inbound"]> (∅ : gmap string _))).
  intros [[_ <-]|[_ [[_ <-]|[_ Hk]]%lookup_insert_Some]]%lookup_insert_Some; [done..|].
  by rewrite lookup_empty in Hk.
Qed.

(** Accepting the request of one peer while naming another peer succeeds: the
    contact of the room is given to the other peer, which then has two
    contacts, and the peer that asked has none. *)
Lemma mixed_decision_duplicates_peer :
  contacts_in_order demo_world /\
  (exists view, (demo_serve (ContactFlow.QAccept mixed_decision) demo_world).2 = Ok (RView view) /\
     ContactView.Status view = "accepted" /\ ContactView.PeerMXID view = "@b:x") /\
  let s := (demo_serve (ContactFlow.QAccept mixed_decision) demo_world).1.1 in
  (Contact.PeerMXID <$> T.contacts s !! "!a:x") = Some "@b:x" /\
  (Contact.PeerMXID <$> T.contacts s !! "!b:x") = Some "@b:x" /\
  Contacts.LookupByPeer (s, demo_service) "@a:x" = Ok None.
Proof.
  split; [apply demo_world_in_order|]. split; [|vm_compute; done].
  eexists. split_and!; [vm_compute; reflexivity|reflexivity..].
Qed.

(** ** Witnesses *)

Lemma conversation_capabilities_witness :
  contacts_ok (T.contacts demo_world.1) /\
  exists view, Conversation.View serviceConversationHydrator demo_world
      (ConversationFromContact (demo_peer "@b:x" "!b:x" "accepted")) = Ok view /\
    (Caps.Send (CView.Capabilities view) = true <->
       may_send demo_world (ConversationFromContact (demo_peer "@b:x" "!b:x" "accepted"))) /\
    (Caps.ManageMembers (CView.Capabilities view) = true <->
       may_manage demo_world (ConversationFromContact (demo_peer "@b:x" "!b:x" "accepted"))).
Proof.
  split; [apply demo_world_in_order|].
  refine (conversation_capabilities_exact demo_world _ _). apply demo_world_in_order.
Defined.

Definition block_request : content :=
  <["target_type" := AString "contact"]> {["peer_mxid" := AString "@c:x"]}.

Definition demo_block : Block.BlockRecord :=
  {| Block.TargetType := "contact"; Block.TargetID := "@c:x"; Block.RoomID := "";
     Block.ChannelID := ""; Block.PeerMXID := "@c:x"; Block.DisplayName := "c";
     Block.AvatarURL := ""; Block.CreatedAt := 7 |}.

Definition contact_request : content := {["mxid" := AString "@c:x"]}.

Lemma blocked_peer_witness :
  let w1 : world := (MemoryTables.UpsertBlock demo_world.1 demo_block, demo_service) in
  ContactFlow.Request serviceConversationHydrator (fun _ => 1000) (fun _ w => w)
    (contactsConfig "x" offline) contact_request w1 =
    (w1, Err (Api.StatusError 403 "already blocked")).
Proof.
  refine (proj1 (blocked_peer_is_refused serviceConversationHydrator (fun _ => 1000)
    (fun _ w => w) "x" offline demo_world _ 7000000 block_request demo_block contact_request
    _ _ _ _)).
  - vm_compute. reflexivity.
  - reflexivity.
  - vm_compute. reflexivity.
  - vm_compute. discriminate.
Defined.

Lemma offline_ports_move v : ports_keep (moves v) (contactsConfig "x" offline).
Proof.
  split; intros f *; intros [= <-]; try (intros w Hw); try exact Hw.
  - eapply rtc_r; [exact Hw|]. by apply write_beside.
  - done.
Qed.

(** While a request waits for its lock, another one saves a contact. *)
Definition meanwhile (key : string) (w : world) : world :=
  (MemoryTables.UpsertContact w.1 (demo_peer "@d:x" "!d:x" "accepted"), w.2).

Lemma meanwhile_moves key w : moves w (meanwhile key w).
Proof. by apply rtc_once, (write_contact_op (COUpsert (demo_peer "@d:x" "!d:x" "accepted"))). Qed.

Lemma contact_workflows_witness :
  let w := (ContactFlow.serve serviceConversationHydrator (fun _ => 1000) meanwhile
    (contactsConfig "x" offline) (ContactFlow.QRequest contact_request) (T.NewMemoryStore, demo_service)).1 in
  size (T.contacts w.1) = 2%nat /\ contacts_in_order w.
Proof.
  cbv zeta. split; [vm_compute; reflexivity|].
  refine (proj1 (contact_workflows_keep_order serviceConversationHydrator (fun _ => 1000) meanwhile
    (contactsConfig "x" offline) _ offline_ports_move meanwhile_moves _)).
  apply reach_serve; [apply reach_start; reflexivity|exact I].
Defined.

Lemma saved_contact_witness :
  let c := demo_peer "@c:x" "!c:x" "accepted" in
  let out := ContactFlow.Save (fun _ => 1000) (contactsConfig "x" offline) c demo_world in
  (exists e, out.2 = Err e) <-> foreign_conversation demo_world c.
Proof.
  refine (proj1 (proj2 (saved_contact_is_projected (fun _ => 1000) (contactsConfig "x" offline)
    demo_world _ (demo_peer "@c:x" "!c:x" "accepted") _ _ _ _ _ _ _ (surjective_pairing _)))).
  - split; intros *; change (T.conversations demo_world.1) with
      (∅ : gmap string Conv.ConversationRecord); by rewrite lookup_empty.
  - intros f room w [= <-]. exists (MemoryTables.DeleteGroup w.1 room, w.2). split_and!; reflexivity.
  - vm_compute. reflexivity.
  - discriminate.
  - vm_compute. reflexivity.
  - discriminate.
Defined.
End Demo.
