(* ===== verification/ProjectorFacts.v ===== *)
(** * What the projector may do to the product records

    The rules every projected event follows: who can become a room's creator,
    and which events leave the records alone.  The first part is proved of any
    ports that keep a promise, the rest discharges the promise for the ports
    of the service over the memory store. *)

From Stdlib Require Import Ascii String ZArith Lia.
From stdpp Require Import base tactics list gmap strings.
From S2P Require Import Prelude GoStrings Values Domain GoTime Policy PolicyFacts.
From S2P Require Import Action RoomState Projection.
From S2P Require Import EventStream MemoryTables MemoryTablesFacts ChannelContent Workflow Prepared.
From S2P Require Import Conversation Blocks Contacts ContactWorkflows Rooms RoomWorkflows.
From S2P Require Import Members MemberWorkflows Content ContentFlow ServiceWiring RoomWiring.
From S2P Require Import ContentWiring Projector ProjectorWiring.
Local Open Scope Z_scope.
Local Open Scope go_scope.

(** ** Ports that keep a promise *)

(** A rule for conversation records, and for the creators they may be given:
    what the store and the projector do to a record respects it. *)
Class ConversationRule (ok : Conv.ConversationRecord -> Prop) (creator : string -> Prop) := {
  rule_normalize : forall now r, ok r -> ok (NormalizeConversationRecord now r);
  rule_merge : forall old new, ok old -> ok new -> ok (MemoryTables.mergeMemoryConversationUpdate old new);
  rule_creator : forall c r, creator c -> ok r -> ok (Conv.set_CreatedByMXID (trim_space c) r);
  rule_activity : forall id at_ m u r, ok r -> ok (Projector.with_activity id at_ m u r);
  rule_pending : forall room kind at_, Projector.groupOrChannelConversation kind = true ->
    ok (Projector.pending_conversation room kind at_);
  rule_profile : forall event kind c at_, Projector.conversationKindFromStateKind kind = kind ->
    kind <> "" -> ok (Projector.profile_conversation event kind c at_);
  rule_contact : forall c, ok (ConversationFromContact c);
  rule_room : forall kind room title avatar, Projector.groupOrChannelConversation kind = true ->
    ok (conversation_of kind room title avatar);
}.

(** The ports keep [P], a save of a conversation only for records in the rule. *)
Record rule_ports {W} (P : W -> Prop) (ok : Conv.ConversationRecord -> Prop)
    (creator : string -> Prop) (deps : Dependencies W) : Prop := {
  cp_append : forall f e, Events deps = Some f -> keeps P (f e);
  cp_read : forall p id room, Conversations deps = Some p ->
    yields P (pc_GetRecord p id room) (fun r => forall x, r = Some x -> ok x);
  cp_save : forall p r, Conversations deps = Some p -> ok r -> keeps P (pc_Save p r);
  cp_creator : forall p room c, Conversations deps = Some p -> creator c ->
    keeps P (pc_SetCreator p room c);
  cp_channels : forall p, Channels_ deps = Some p ->
    (forall a b, keeps P (pch_ByIDOrRoom p a b)) /\ (forall a, keeps P (pch_UpsertProjection p a)) /\
    (forall a, keeps P (pch_SaveWithConversation p a)) /\ (forall a, keeps P (pch_Delete p a));
  cp_content : forall p, ChannelContent_ deps = Some p ->
    (forall a, keeps P (pcc_ProjectPost p a)) /\ (forall a, keeps P (pcc_ProjectPostSettings p a)) /\
    (forall a, keeps P (pcc_ProjectComment p a)) /\ (forall a, keeps P (pcc_ProjectReaction p a)) /\
    (forall a, keeps P (pcc_RemoveProjectedEvent p a));
  cp_groups : forall p, Groups_ deps = Some p ->
    (forall a, keeps P (pg_ByRoom p a)) /\ (forall a, keeps P (pg_Save p a)) /\
    (forall a, keeps P (pg_Delete p a));
  cp_contacts : forall p, Contacts_ deps = Some p ->
    (forall a f, keeps P f -> keeps P (pk_WithPeer p a f)) /\ keeps P (pk_ListRaw p) /\
    (forall a, keeps P (pk_LookupByRoom p a)) /\ (forall a, keeps P (pk_Save p a)) /\
    (forall a b, keeps P (pk_SaveProjectionIfCurrent p a b));
  cp_members : forall p, Members_ deps = Some p ->
    (forall a b, keeps P (pm_Lookup p a b)) /\ (forall a, keeps P (pm_Save p a)) /\
    (forall a, keeps P (pm_SaveProjectionIfAbsent p a)) /\
    (forall a b, keeps P (pm_SaveProjectionIfCurrent p a b));
  cp_blocks : forall f a b, Blocks_ deps = Some f -> keeps P (f a b);
  cp_rooms : forall p, DirectRooms deps = Some p ->
    (forall a b, keeps P (pd_ReinviteAcceptedContact p a b)) /\
    (forall a b, keeps P (pd_JoinReplacementRoom p a b));
}.

(** The sender a creation event names. *)
Definition creation_sender (event : option RoomEvent) : option string :=
  match event with
  | Some event => if str_eqb (re_Type event) MRoomCreate then Some (re_SenderID event) else None
  | None => None
  end.

Section Promise.
Context {W : Type} `{MatrixIDs} (deps : Dependencies W) (P : W -> Prop).
Context {ok : Conv.ConversationRecord -> Prop} {creator : string -> Prop}.
Context {Hrule : ConversationRule ok creator} (Hp : rule_ports P ok creator deps).
Import Projector.

Lemma keeps_with_port {X A} what (port : option X) (f : X -> M W goerror A) :
  (forall p, port = Some p -> keeps P (f p)) -> keeps P (with_port what port f).
Proof using Type. destruct port; cbn; [auto|intros _; apply keeps_fail]. Qed.

Lemma keeps_attempt {A} (m : M W goerror (option A)) : keeps P m -> keeps P (attempt m).
Proof using Type.
  intros Hm w Hw. specialize (Hm w Hw). unfold attempt. by destruct (m w) as [? [?|?]].
Qed.

Lemma keeps_best_effort (m : M W goerror unit) : keeps P m -> keeps P (best_effort m).
Proof using Type. intros Hm w Hw. exact (Hm w Hw). Qed.

Lemma keeps_found {X A} (port : option X) (f : X -> M W goerror (option A)) :
  (forall p, port = Some p -> keeps P (f p)) -> keeps P (found port f).
Proof using Type.
  intros Hf. unfold found. destruct port; [|apply keeps_ret].
  apply keeps_bind; [by apply keeps_attempt, Hf|intros ?; apply keeps_ret].
Qed.

(** One step of the search for the port a workflow calls. *)
Ltac port_step :=
  match goal with
  | |- keeps _ (match ?x with _ => _ end) => destruct x eqn:?
  | |- keeps _ (mbind_ _ _) => apply keeps_bind; [|intros ?]
  | |- keeps _ (with_port _ _ _) => apply keeps_with_port; intros ? ?
  | |- keeps _ (attempt _) => apply keeps_attempt
  | |- keeps _ (best_effort _) => apply keeps_best_effort
  | |- keeps _ (found _ _) => apply keeps_found; intros ? ?
  | |- keeps _ (ret _) => apply keeps_ret
  | |- keeps _ (fail _) => apply keeps_fail
  | |- keeps _ (reads _) => apply keeps_reads
  | |- keeps _ (asks _) => apply keeps_reads
  | |- keeps _ (content_of _) => apply keeps_reads
  | |- keeps _ (isAgentRoom _ _) => apply keeps_reads
  | Hc : Channels_ _ = Some _ |- _ => solve [eapply (cp_channels _ _ _ _ Hp _ Hc)]
  | Hc : ChannelContent_ _ = Some _ |- _ => solve [eapply (cp_content _ _ _ _ Hp _ Hc)]
  | Hc : Groups_ _ = Some _ |- _ => solve [eapply (cp_groups _ _ _ _ Hp _ Hc)]
  | Hc : Members_ _ = Some _ |- _ => solve [eapply (cp_members _ _ _ _ Hp _ Hc)]
  | Hc : DirectRooms _ = Some _ |- _ => solve [eapply (cp_rooms _ _ _ _ Hp _ Hc)]
  | Hc : Contacts_ _ = Some ?p |- keeps _ (pk_WithPeer ?p _ _) =>
      apply (proj1 (cp_contacts _ _ _ _ Hp _ Hc))
  | Hc : Contacts_ _ = Some _ |- _ => solve [eapply (proj2 (cp_contacts _ _ _ _ Hp _ Hc))]
  | Hc : Blocks_ _ = Some _ |- _ => solve [eapply (cp_blocks _ _ _ _ Hp _ _ _ Hc)]
  | Hc : Events _ = Some _ |- _ => solve [eapply (cp_append _ _ _ _ Hp _ _ Hc)]
  | Hc : Conversations _ = Some _ |- keeps _ (pc_GetRecord _ _ _) =>
      intros ? ?; by apply (cp_read _ _ _ _ Hp _ _ _ Hc)
  | Hc : Conversations _ = Some _ |- keeps _ (pc_Save _ _) =>
      apply (cp_save _ _ _ _ Hp _ _ Hc)
  end.
Ltac projects := cbv zeta; repeat (port_step; cbv zeta); auto.

Lemma append_keeps e : keeps P (appendEvent deps e).
Proof using Hp. unfold appendEvent. projects. Qed.
Hint Resolve append_keeps : core.

Lemma channel_id_keeps room : keeps P (channelIDForRoom deps room).
Proof using Hp. unfold channelIDForRoom. projects. Qed.
Hint Resolve channel_id_keeps : core.

Lemma created_kind_product room kind record k :
  created_kind room kind record = Ok (Some k) -> groupOrChannelConversation k = true.
Proof using Type.
  unfold created_kind. destruct record as [r|].
  - destruct (groupOrChannelConversation (Conv.Kind r)) eqn:E; cbn; [|done].
    destruct (_ && _); [done|]. by intros [= <-].
  - destruct (groupOrChannelConversation kind) eqn:E; [|done]. by intros [= <-].
Qed.

Lemma create_keeps event :
  creator (validFullMXID (re_SenderID event)) -> keeps P (projectRoomCreate deps event).
Proof using Hrule Hp.
  intros Hs. unfold projectRoomCreate. destruct (re_StateKey event) as [[|]|]; [|apply keeps_ret..].
  apply keeps_bind; [apply keeps_reads|intros c]. cbv zeta.
  destruct (Conversations deps) as [port|] eqn:Hc; [|projects].
  apply keeps_bind; [by port_step|intros record].
  eapply (keeps_bind_yields _ _ _ (fun k => forall x, k = Some x ->
            groupOrChannelConversation x = true)).
  { intros w Hw. split; [done|]. intros a Ha x ->. exact (created_kind_product _ _ _ _ Ha). }
  intros [k|] Hk; [|apply keeps_ret]. projects.
  - apply rule_pending; auto.
  - by apply (cp_creator _ _ _ _ Hp).
Qed.

Lemma activity_keeps event body kind : keeps P (projectConversationActivity deps event body kind).
Proof using Hrule Hp.
  unfold projectConversationActivity. apply keeps_with_port. intros p Hc.
  eapply keeps_bind_yields; [apply (cp_read _ _ _ _ Hp _ _ _ Hc)|]. intros r Hr.
  projects. apply rule_activity; auto.
Qed.

Lemma message_keeps event : keeps P (projectMessage deps event).
Proof using Hrule Hp. unfold projectMessage, shouldProjectRoomMessage. projects. apply activity_keeps. Qed.

(** *** Contacts *)

Lemma replacement_keeps p existing invite identity :
  Contacts_ deps = Some p -> keeps P (acceptReplacementDirectInvite deps p existing invite identity).
Proof using Hp. intros Hc. unfold acceptReplacementDirectInvite. projects. Qed.
Hint Resolve replacement_keeps : core.

Lemma inbound_keeps p contact identity l otherwise :
  Contacts_ deps = Some p -> keeps P otherwise ->
  keeps P (decide_inbound deps p contact identity l otherwise).
Proof using Hp.
  intros Hc Ho. induction l as [|existing l IH]; cbn [decide_inbound]; [done|].
  unfold reinviteAcceptedContactToRetainedRoom. projects.
Qed.
Hint Resolve inbound_keeps : core.

Lemma pending_keeps contact identity : keeps P (savePendingInboundContact deps contact identity).
Proof using Hp.
  unfold savePendingInboundContact, savePendingInboundContactForPeer. projects.
  apply inbound_keeps; [done|]. projects.
Qed.
Hint Resolve pending_keeps : core.

Lemma owner_join_keeps member : keeps P (projectOwnerDirectContactJoin deps member).
Proof using Hp. unfold projectOwnerDirectContactJoin. projects. Qed.

Lemma peer_keeps member c : keeps P (projectDirectContactMember deps member c).
Proof using Hp.
  unfold projectDirectContactMember, projectDirectContactMemberForPeer. projects.
Qed.
Hint Resolve owner_join_keeps peer_keeps : core.

Lemma deleted_keeps room peer : keeps P (markDirectContactDeleted deps room peer).
Proof using Hp. unfold markDirectContactDeleted. projects. Qed.
Hint Resolve deleted_keeps : core.

(** *** State events *)

Lemma member_keeps event : keeps P (projectMember deps event).
Proof using Hp. unfold projectMember, after_member, projectProductInvite. projects. Qed.

Lemma state_kind_stable kind :
  conversationKindFromStateKind (conversationKindFromStateKind kind) =
  conversationKindFromStateKind kind.
Proof using Type. unfold conversationKindFromStateKind. by repeat case_bool_decide. Qed.

Lemma profile_state_keeps event : keeps P (projectRoomProfileState deps event).
Proof using Hrule Hp.
  unfold projectRoomProfileState, projectConversationProfile, projectChannelProfileContent,
    projectGroupProfileContent, projectDirectProfileContent. projects.
  apply rule_profile; [apply state_kind_stable|]. by apply str_empty_false.
Qed.

Lemma policy_keeps event : keeps P (projectMemberPolicyState deps event).
Proof using Hp. unfold projectMemberPolicyState. projects. Qed.

Lemma request_state_keeps event : keeps P (projectJoinRequestState deps event).
Proof using Hp. unfold projectJoinRequestState, save_join_request. projects. Qed.

Lemma settings_keeps event : keeps P (projectChannelPostSettings deps event).
Proof using Hp. unfold projectChannelPostSettings. projects. Qed.

Lemma reaction_keeps event : keeps P (projectReaction deps event).
Proof using Hp. unfold projectReaction. projects. Qed.

Lemma removal_keeps eventID : keeps P (removeProjectedEvent deps eventID).
Proof using Hp. unfold removeProjectedEvent. projects. Qed.

Lemma event_keeps event :
  (forall sender, creation_sender event = Some sender -> creator (validFullMXID sender)) ->
  keeps P (ProjectRoomEvent deps event).
Proof using Hrule Hp.
  intros Hs. unfold ProjectRoomEvent. destruct event as [event|]; [|apply keeps_ret].
  cbv zeta. destruct (str_eqb (re_Type event) MRoomCreate) eqn:E.
  { apply create_keeps, Hs. unfold creation_sender. by rewrite E. }
  repeat match goal with |- keeps _ (if ?b then _ else _) => destruct b end;
    auto using message_keeps, reaction_keeps, member_keeps, profile_state_keeps, settings_keeps,
      policy_keeps, request_state_keeps, keeps_ret.
Qed.
End Promise.

(** ** The memory store *)

(** Every stored conversation is in the rule. *)
Definition all_conversations (ok : Conv.ConversationRecord -> Prop) (s : T.tables) : Prop :=
  forall k r, T.conversations s !! k = Some r -> ok r.

Section Store.
Context `{GoRange} {ok : Conv.ConversationRecord -> Prop} {creator : string -> Prop}.
Context {Hrule : ConversationRule ok creator}.
Local Notation Q := (all_conversations ok).
Implicit Types s : T.tables.

Lemma file_ruled m r :
  (forall k x, m !! k = Some x -> ok x) -> ok r ->
  forall k x, MemoryTables.file_conversation m r !! k = Some x -> ok x.
Proof using Hrule.
  intros Hm Hr k x. rewrite file_conversation_eq. intros [[_ <-]|[_ Hx]]%lookup_insert_Some;
    [|by eapply Hm].
  unfold filed. destruct (m !! _) as [e|] eqn:He; [|done].
  apply rule_merge; [by eapply Hm|done].
Qed.

Lemma upsert_ruled now s r :
  Q s -> ok r -> Q (MemoryTables.UpsertConversation now s r).1.
Proof using Hrule.
  intros Hs Hr. destruct (UpsertConversation_cases now s r) as [[_ [e ->]]|[_ ->]]; [done|].
  intros k x. apply file_ruled; [done|]. by apply rule_normalize.
Qed.

Lemma save_ruled now s r :
  Q s -> ok r -> Q (Conversation.Save now s r).1.
Proof using Hrule. intros Hs Hr. apply upsert_ruled; [done|]. by apply rule_normalize. Qed.

Lemma set_ruled s room c : Q s -> creator c -> Q (Conversation.SetCreator s room c).1.
Proof using Hrule.
  intros Hs Hc. unfold Conversation.SetCreator. cbv zeta. destruct (str_empty _); [done|].
  cbn. unfold MemoryTables.SetConversationCreator.
  destruct (first_match _ _) as [[id r]|] eqn:Hf; [|done]. intros k x. cbn.
  intros [[_ <-]|[_ Hx]]%lookup_insert_Some; [|by eapply Hs].
  apply rule_creator; [done|]. apply first_match_Some in Hf as [Hin _].
  apply elem_of_go_range in Hin. by eapply Hs.
Qed.

Lemma delete_ruled s room : Q s -> Q (MemoryTables.DeleteConversationByRoomID s room).
Proof using Hrule. intros Hs k x [Hx _]%map_lookup_filter_Some. by eapply Hs. Qed.

Lemma delete_kind_ruled s room kind :
  Q s -> Q (Conversation.DeleteKindByRoom s room kind).1.
Proof using Hrule.
  intros Hs. unfold Conversation.DeleteKindByRoom. branches; try done. by apply delete_ruled.
Qed.

Lemma projection_ruled now s contact expected :
  Q s -> Q (MemoryTables.CompareAndSwapContactProjection now s contact expected).1.
Proof using Hrule.
  intros Hs. unfold MemoryTables.CompareAndSwapContactProjection. branches; try done. cbn.
  intros k x. apply file_ruled; [|apply rule_normalize, rule_contact].
  intros k' y [Hy _]%map_lookup_filter_Some. by eapply Hs.
Qed.

Lemma get_ruled s id room :
  Q s -> forall r, Conversation.GetRecord s id room = Ok (Some r) -> ok r.
Proof using Hrule.
  intros Hs r. unfold Conversation.GetRecord. destruct (negb _); cbn; intros [= Hr].
  - by eapply Hs.
  - unfold MemoryTables.GetConversationByRoomID in Hr.
    destruct (first_match _ _) as [[k x]|] eqn:Hf; [|done]. injection Hr as [= <-].
    apply first_match_Some in Hf as [Hin _]. apply elem_of_go_range in Hin. by eapply Hs.
Qed.

Lemma channel_ruled now s channel : Q s -> Q (Channels.Save now s channel).1.
Proof using Hrule. intros Hs. apply save_ruled; [done|by apply rule_room]. Qed.

Lemma group_ruled {B} now s (view : Groups.View B) : Q s -> Q (Groups.Save now s view).1.
Proof using Hrule. intros Hs. apply save_ruled; [done|by apply rule_room]. Qed.

Lemma counts_ruled now s m : Q s -> Q (Members.refresh_counts now s m).1.
Proof using Hrule.
  intros Hs. unfold Members.refresh_counts. destruct (str_empty _).
  - unfold Members.refreshStoredGroupCounts. by branches.
  - unfold Channels.RefreshCounts. branches; try done. by apply channel_ruled.
Qed.
End Store.

(** ** The service's ports *)

Section Service_.
Context `{GoRange} `{GoText} `{MatrixIDs} {Y : Type}.
Local Notation world :=
  (T.tables * Wiring.Service (ChannelContent.store * (@Events.Module MemoryEvents.store * Y)))%type.
Context (now : world -> Z) (waiting : string -> world -> world) (contacts_config : Config world).
Context (transport : option (DirectTransport world)).
Context (agentRoomID : world -> string) (roomServer : string -> option string).
Context (content_config : ContentConfig world).
Context {ok : Conv.ConversationRecord -> Prop} {creator : string -> Prop}.
Context {Hrule : ConversationRule ok creator}.
Local Notation Q := (fun w : world => all_conversations ok w.1).
Local Notation deps := (ProjectorWiring.projectorDependencies now waiting contacts_config transport
  agentRoomID roomServer content_config).

(** A step of the store keeps what the store operation keeps. *)
Lemma lift_ruled {E A} (f : world -> T.tables -> T.tables * result E A) :
  (forall w s, all_conversations ok s -> all_conversations ok (f w s).1) ->
  keeps Q (fun w : world => lift_store (f w) w).
Proof using Hrule.
  intros Hf [s x] Hw. specialize (Hf (s, x) s Hw). unfold lift_store. cbn.
  by destruct (f (s, x) s).
Qed.

Lemma untouched {E A} (m : M world E A) :
  (forall w, T.conversations (m w).1.1 = T.conversations w.1) -> keeps Q m.
Proof using Hrule. intros Hm w Hw k r. rewrite Hm. apply Hw. Qed.

(** What the other actors and the Matrix side do keeps the creators. *)
Record outside_keeps : Prop := {
  out_waiting : forall key (w : world), Q w -> Q (waiting key w);
  out_group : forall f room, deleteGroup contacts_config = Some f -> keeps Q (f room);
  out_invite : forall t r, transport = Some t -> keeps Q (dt_InviteUser t r);
  out_join : forall t r (w : world), transport = Some t -> Q w -> Q (dt_JoinRoom t r w).1;
}.
Context (Hout : outside_keeps).

Lemma contact_kind_ruled room kind :
  keeps Q (ContactFlow.delete_kind (W := world) room kind).
Proof using Hrule.
  intros [s x] Hw. unfold ContactFlow.delete_kind, Conversation.DeleteKindByRoom. cbn.
  branches; try done. by apply delete_ruled.
Qed.

Lemma conversation_save_ruled (r : Conv.ConversationRecord) :
  ok r -> keeps Q (ContactFlow.save_conversation (ProjectorWiring.clock now) r).
Proof using Hrule.
  intros Hr. apply (lift_ruled (fun w s => Conversation.Save (ProjectorWiring.clock now w) s r)).
  intros w s Hs. by apply save_ruled.
Qed.

Lemma contact_save_ruled contact :
  keeps Q (ContactFlow.Save (ProjectorWiring.clock now) contacts_config contact).
Proof using Hrule Hout.
  apply keeps_bind; [|intros ?; apply keeps_ret].
  apply keeps_bind; [apply keeps_reads|intros ?]. apply keeps_bind; [apply keeps_reads|intros ?].
  cbv zeta. cbn [ContactFlow.write_contact].
  apply keeps_bind; [apply keeps_bind; [by apply untouched|intros ?; apply keeps_ret]|].
  intros []; cbn [negb]; [|apply keeps_ret].
  apply keeps_bind; [apply keeps_for_each; intros ?; apply contact_kind_ruled|intros _].
  apply keeps_bind; [|intros _; apply keeps_bind;
    [apply conversation_save_ruled, rule_contact|intros ?; apply keeps_ret]].
  destruct (str_empty _); [apply keeps_ret|].
  apply keeps_bind; [|intros _; apply contact_kind_ruled].
  apply keeps_when. intros f Hf. by apply (out_group Hout).
Qed.

(** The tables of posts and comments are not those of conversations. *)
Local Notation store := (ContentWiring.memory_content_store
  (X := @Events.Module MemoryEvents.store * Y)).

Lemma remove_ruled eventID : keeps Q (ContentFlow.RemoveProjectedEvent (Some store) eventID).
Proof using Hrule.
  unfold ContentFlow.RemoveProjectedEvent. destruct (str_empty _); [apply keeps_ret|]. cbn.
  apply keeps_bind; [|intros ?; apply keeps_bind; [|intros ?; apply keeps_bind;
    [|intros ?; apply keeps_ret]]]; apply untouched; intros w.
  - unfold ContentWiring.removes_content. by destruct (ChannelContent.DeleteChannelPost _ _).
  - unfold ContentWiring.removes_content. by destruct (ChannelContent.DeleteChannelComment _ _).
  - cbn. unfold MemoryTables.DeactivateReactionByEventID.
    by destruct (first_match _ _) as [[? ?]|].
Qed.

Lemma reaction_ruled event :
  keeps Q (ContentFlow.ProjectReaction (Some store) content_config event).
Proof using Hrule.
  unfold ContentFlow.ProjectReaction, ContentFlow.projected_target,
    ContentFlow.ReactionTargetByEventID, ContentFlow.CommentByEventID, ContentFlow.PostByEventID.
  cbn [ContentFlow.with_store]. cbv zeta.
  repeat first
    [ apply keeps_ret | apply keeps_reads | apply keeps_bind; [|intros ?]
    | match goal with |- keeps _ (match ?x with _ => _ end) => destruct x end ].
  by apply untouched.
Qed.

Lemma comment_ruled event : keeps Q (ContentFlow.ProjectComment (Some store) event).
Proof using Hrule.
  unfold ContentFlow.ProjectComment, ContentFlow.PostByID. cbn [ContentFlow.with_store].
  apply keeps_bind; [apply keeps_bind; [apply keeps_reads|intros ?; apply keeps_ret]|intros ?].
  case_match; [apply keeps_ret|by apply untouched].
Qed.

Lemma post_settings_ruled event : keeps Q (ContentFlow.ProjectPostSettings (Some store) event).
Proof using Hrule.
  unfold ContentFlow.ProjectPostSettings. cbn [ContentFlow.with_store]. cbv zeta.
  repeat match goal with |- keeps _ (match ?x with _ => _ end) => destruct x end;
    first [apply keeps_ret|by apply untouched].
Qed.

(** Saving a member only refreshes the counts of its room. *)
Lemma counted_ruled {A} at_ s member (k : result goerror unit -> A) :
  all_conversations ok s ->
  all_conversations ok (let '(s, r) := Members.refresh_counts at_ s member in (s, k r)).1.
Proof using Hrule.
  intros Hs. assert (Hc := counts_ruled at_ s member Hs).
  by destruct (Members.refresh_counts at_ s member).
Qed.

Lemma insert_ruled s member :
  all_conversations ok s -> all_conversations ok (MemoryTables.InsertMemberIfAbsent s member).1.
Proof using Hrule. intros Hs. unfold MemoryTables.InsertMemberIfAbsent. by branches. Qed.

Lemma swap_ruled s member request membership :
  all_conversations ok s ->
  all_conversations ok (MemoryTables.CompareAndSwapMemberGeneration s member request membership).1.
Proof using Hrule. intros Hs. unfold MemoryTables.CompareAndSwapMemberGeneration. by branches. Qed.

Lemma member_ruled at_ s member :
  all_conversations ok s ->
  all_conversations ok (Members.saveMember at_ s member).1 /\
  all_conversations ok (Members.saveMemberIfAbsent at_ s member).1 /\
  forall request membership,
    all_conversations ok (Members.saveMemberIfState at_ s member request membership).1.
Proof using Hrule.
  intros Hs. split_and!; [by apply counts_ruled| |intros request membership].
  - assert (Hin := insert_ruled s (Members.normalize_saved at_ member) Hs).
    unfold Members.saveMemberIfAbsent. cbv zeta.
    destruct (MemoryTables.InsertMemberIfAbsent _ _) as [s' []]; [|done]. by apply counted_ruled.
  - unfold Members.saveMemberIfState. cbv zeta. case_match; [|done]. case_match; [done|].
    assert (Hin := swap_ruled s (Members.mergeMemberPersistence
      (Members.normalize_saved at_ member) m) request membership Hs).
    destruct (MemoryTables.CompareAndSwapMemberGeneration _ _ _ _) as [s' []]; [|done].
    by apply counted_ruled.
Qed.

Lemma reinvite_ruled contact identity :
  keeps Q (ProjectorWiring.ReinviteAcceptedContact transport contact identity).
Proof using Hrule Hout.
  unfold ProjectorWiring.ReinviteAcceptedContact. destruct transport as [t|] eqn:Ht;
    [|apply keeps_ret].
  destruct (_ || _); [apply keeps_ret|]. intros w Hw.
  match goal with |- context [dt_InviteUser t ?r w] => assert (Hi := out_invite Hout t r Ht w Hw) end.
  destruct (dt_InviteUser _ _ _) as [w' [?|?]]; [done|]. by destruct (_ || _).
Qed.

Lemma replacement_join_ruled room identity :
  keeps Q (ProjectorWiring.JoinReplacementRoom transport roomServer room identity).
Proof using Hrule Hout.
  unfold ProjectorWiring.JoinReplacementRoom. destruct transport as [t|] eqn:Ht;
    [|apply keeps_ret]. intros w Hw.
  match goal with |- context [dt_JoinRoom t ?r w] => assert (Hi := out_join Hout t r w Ht Hw) end.
  destruct (dt_JoinRoom _ _ _) as [w' [j [e|]]]; [|done]. by destruct (negb _).
Qed.

Lemma append_ruled e : keeps Q (ProjectorWiring.append_event now e).
Proof using Hrule.
  apply untouched. intros w. unfold ProjectorWiring.append_event. by destruct (Events.Append _ _ _).
Qed.

Lemma service_ports : rule_ports Q ok creator deps.
Proof using Hrule Hout.
  split; cbn.
  - intros f e [= <-]. apply append_ruled.
  - intros p id room [= <-] w Hw. split; [done|]. cbn. intros a Ha x ->.
    exact (get_ruled w.1 id room Hw x Ha).
  - intros p r [= <-] Hr. by apply conversation_save_ruled.
  - intros p room c [= <-] Hc [s x] Hw. assert (Hs := set_ruled s room c Hw Hc).
    revert Hs. cbn. unfold Conversation.SetCreator. cbv zeta. destruct (str_empty _); [done|].
    cbn. unfold lift_store. by destruct (MemoryTables.SetConversationCreator _ _ _).
  - intros p [= <-]. split_and!; intros; [apply keeps_reads|by apply untouched| |by apply untouched].
    apply (lift_ruled (fun w s => Channels.Save (ProjectorWiring.clock now w) s _)).
    intros w s Hs. by apply channel_ruled.
  - intros p [= <-]. split_and!; intros a; [by apply untouched|apply post_settings_ruled|
      apply comment_ruled|apply reaction_ruled|apply remove_ruled].
  - intros p [= <-]. split_and!; intros a; [apply keeps_reads| |].
    + apply (lift_ruled (fun w s => Groups.Save (ProjectorWiring.clock now w) s
        (Groups.ViewFromRecord (B := unit) a))). intros w s Hs. by apply group_ruled.
    + apply (lift_ruled (fun _ s => Groups.Delete s a)). intros _ s Hs.
      by apply delete_kind_ruled.
  - intros p [= <-]. split_and!; [intros a f Hf|apply keeps_reads|intros a; apply keeps_reads|
      intros a; apply contact_save_ruled|intros a b].
    + apply keeps_bind; [|done]. apply keeps_run. intros w. apply (out_waiting Hout).
    + apply (lift_ruled (fun w s => MemoryTables.CompareAndSwapContactProjection
        (ProjectorWiring.clock now w) s a b)). intros w s. apply projection_ruled.
  - intros p [= <-]. split_and!; [intros a b; apply keeps_reads|intros a|intros a|intros a b].
    + apply (lift_ruled (fun w s => Members.saveMember (ProjectorWiring.clock now w) s a)).
      intros w s Hs. by apply member_ruled.
    + apply (lift_ruled (fun w s => Members.saveMemberIfAbsent
        (ProjectorWiring.clock now w) s a)). intros w s Hs. by apply member_ruled.
    + apply (lift_ruled (fun w s => Members.saveMemberIfState
        (ProjectorWiring.clock now w) s a (Member.RequestID b) (Member.Membership b))).
      intros w s Hs. by apply member_ruled.
  - intros f a b [= <-]. apply keeps_reads.
  - intros p [= <-]. split; intros a b; [apply reinvite_ruled|apply replacement_join_ruled].
Qed.

(** ** The consumer of room server output *)

Context (agent : ProjectorWiring.AgentProjection (Y := Y)).

(** The group agent works on tables of its own. *)
Record agent_keeps : Prop := {
  agent_cancel : forall id, keeps Q (ProjectorWiring.cancelGroupAgentRequests agent id);
  agent_event : forall e, keeps Q (ProjectorWiring.projectGroupAgentEvent agent e);
}.
Context (Hagent : agent_keeps).

Definition service_handler : OutputEvent -> M world goerror unit :=
  ProjectorWiring.ProjectOutputEvent now waiting contacts_config transport agentRoomID roomServer
    content_config agent.

(** The event an output carries to the projector. *)
Definition carried (output : OutputEvent) : option RoomEvent :=
  match (if str_eqb (oe_Type output) "new_invite_event" then oe_NewInviteEvent output else None) with
  | Some event => event
  | None => match (if str_eqb (oe_Type output) "new_room_event" then oe_NewRoomEvent output
                   else None) with
            | Some event => event
            | None => None
            end
  end.

Lemma output_ruled output :
  (forall sender, creation_sender (carried output) = Some sender ->
     creator (Projector.validFullMXID sender)) ->
  keeps Q (service_handler output).
Proof using Hrule Hout Hagent.
  intros Hs w Hw. unfold service_handler, ProjectorWiring.ProjectOutputEvent.
  destruct (ProjectorWiring.accountIsDeprovisioned agent w); [done|].
  refine (keeps_bind Q _ _ _ _ w Hw).
  - unfold Projector.ProjectOutputEvent. unfold carried in Hs.
    repeat (case_match; try discriminate); auto using keeps_ret.
    all: try (by apply (removal_keeps deps Q service_ports)).
    all: apply (event_keeps deps Q service_ports); auto.
  - intros _. repeat case_match; auto using keeps_ret, agent_cancel, agent_event.
Qed.

Lemma batch_ruled msgs w :
  (forall output sender, Some output ∈ msgs -> creation_sender (carried output) = Some sender ->
     creator (Projector.validFullMXID sender)) ->
  Q w -> Q (Projector.onMessage (Some service_handler) msgs w).1.
Proof using Hrule Hout Hagent.
  revert w. induction msgs as [|msg msgs IH]; intros w Hs Hw; [done|].
  cbn [Projector.onMessage]. unfold Projector.processMessage.
  destruct msg as [output|]; [|apply IH; [|done]; intros ? ? ?; apply Hs; by right].
  assert (Ho := output_ruled output (fun s => Hs output s (list_elem_of_here _ _)) w Hw).
  destruct (service_handler output w) as [w' [?|?]]; [|done].
  apply IH; [|done]. intros o sender Hin. apply Hs. by right.
Qed.
End Service_.

(** ** Two rules *)

(** [c] is empty or a known creator, spaces around it aside. *)
Definition credited (known : string -> Prop) (c : string) : Prop :=
  trim_space c = "" \/ known (trim_space c).

Lemma credited_trim known c : credited known c -> credited known (trim_space c).
Proof. unfold credited. by rewrite trim_space_idemp. Qed.

#[export] Instance credited_rule known :
  ConversationRule (fun r => credited known (Conv.CreatedByMXID r)) (credited known).
Proof.
  split; try by (intros; left).
  - intros now r Hr. by apply credited_trim.
  - intros old new Ho Hn. destruct (merge_fields old new) as (_ & _ & _ & _ & -> & _).
    by destruct (str_empty _).
  - intros c r Hc _. by apply credited_trim.
  - by intros id at_ m u r Hr.
Qed.

(** The kind, the lifecycle and the projection state are of the given lists. *)
Record well_typed (kinds lifecycles states : list string) (r : Conv.ConversationRecord) : Prop := {
  wt_kind : Conv.Kind r ∈ kinds;
  wt_lifecycle : Conv.Lifecycle r ∈ lifecycles;
  wt_state : Conv.ProjectionState r ∈ states;
}.

(** The lists have at least the values the projector works with. *)
Record projected_values (kinds lifecycles states : list string) : Prop := {
  pv_kinds : ["direct"; "group"; "channel"] ⊆ kinds;
  pv_lifecycles : ["active"; "pending"; "dissolved"; "deleted"] ⊆ lifecycles;
  pv_states : ["ready"; "pending"] ⊆ states;
}.

Lemma product_kind kind :
  Projector.groupOrChannelConversation kind = true -> kind ∈ ["direct"; "group"; "channel"].
Proof.
  unfold Projector.groupOrChannelConversation. rewrite orb_true_iff, !str_eqb_true.
  intros [-> | ->]; set_solver.
Qed.

Lemma well_typed_rule kinds lifecycles states :
  projected_values kinds lifecycles states ->
  ConversationRule (well_typed kinds lifecycles states) (fun _ => True).
Proof.
  intros [HK HL HS]. split.
  - intros now r [Hk Hl Hs]. split; cbn; [done| |]; case_match; set_solver.
  - intros old new _ [Hk Hl Hs].
    destruct (merge_fields old new) as (_ & _ & Ek & El & _ & _ & _ & _ & _ & _ & _ & _ & _ & Es & _).
    split; by rewrite ?Ek, ?El, ?Es.
  - by intros c r _ [].
  - by intros id at_ m u r [].
  - intros room kind at_ Hk. split; cbn; [by apply HK, product_kind|set_solver..].
  - intros event kind c at_ Hk Hne. split; cbn; [apply HK|case_match; set_solver|set_solver].
    unfold Projector.conversationKindFromStateKind in Hk. case_bool_decide; [done|congruence].
  - intros c. split; cbn; [set_solver|repeat case_match; set_solver|set_solver].
  - intros kind room title avatar Hk. split; cbn; [by apply HK, product_kind|set_solver..].
Qed.

(** ** Every batch *)

Section Batches.
Context `{GoRange} `{GoText} `{MatrixIDs} {Y : Type}.
Local Notation world :=
  (T.tables * Wiring.Service (ChannelContent.store * (@Events.Module MemoryEvents.store * Y)))%type.
Context (now : world -> Z) (waiting : string -> world -> world) (contacts_config : Config world).
Context (transport : option (DirectTransport world)).
Context (agentRoomID : world -> string) (roomServer : string -> option string).
Context (content_config : ContentConfig world).
Context (agent : ProjectorWiring.AgentProjection (Y := Y)).
Local Notation handler := (service_handler now waiting contacts_config transport agentRoomID
  roomServer content_config agent).

(** [c] sent the creation event of a room of the batch. *)
Definition created_by (msgs : list (option OutputEvent)) (c : string) : Prop :=
  exists output event user, Some output ∈ msgs /\ carried output = Some event /\
    re_Type event = MRoomCreate /\ NewUserID (trim_space (re_SenderID event)) = Ok user /\
    c = trim_space user.

(** A room's creator comes from the room's creation event: after any
    batch of room server output, every conversation's creator is empty, was
    known before, or is the sender of an [m.room.create] event of the batch,
    provided that what runs between the projector's steps and on the Matrix
    side keeps this. *)
Theorem creators_come_from_creation_events (known : string -> Prop) msgs w :
  let allowed c := known c \/ created_by msgs c in
  outside_keeps waiting contacts_config transport
    (ok := fun r => credited allowed (Conv.CreatedByMXID r)) ->
  agent_keeps agent (ok := fun r => credited allowed (Conv.CreatedByMXID r)) ->
  (forall k r, T.conversations w.1 !! k = Some r -> credited known (Conv.CreatedByMXID r)) ->
  forall k r, T.conversations (Projector.onMessage (Some handler) msgs w).1.1 !! k = Some r ->
    credited allowed (Conv.CreatedByMXID r).
Proof.
  intros allowed Hout Hagent Hw.
  apply (batch_ruled now waiting contacts_config transport agentRoomID roomServer content_config
           (Hrule := credited_rule allowed) Hout agent Hagent).
  - intros output sender Hin. unfold creation_sender.
    destruct (carried output) as [event|] eqn:Hc; [|done].
    destruct (str_eqb _ _) eqn:Ht; [|done]. intros [= <-]. unfold Projector.validFullMXID.
    destruct (NewUserID _) as [user|] eqn:Hu; [|by left]. right. right.
    apply str_eqb_true in Ht. by exists output, event, user.
  - intros k r Hr. destruct (Hw k r Hr) as [He|Hk]; [by left|right; by left].
Qed.

(** What others do to the conversation table between two states of the
    service: a row found afterwards was there before, or they wrote it with
    values of the lists.  Rows may come, change and go. *)
Definition others_write (ok : Conv.ConversationRecord -> Prop) (w w' : world) : Prop :=
  forall k r, T.conversations w'.1 !! k = Some r -> T.conversations w.1 !! k = Some r \/ ok r.

Record outside_writes (ok : Conv.ConversationRecord -> Prop) : Prop := {
  ow_waiting : forall key w, others_write ok w (waiting key w);
  ow_group : forall f room w, deleteGroup contacts_config = Some f -> others_write ok w (f room w).1;
  ow_invite : forall t r w, transport = Some t -> others_write ok w (dt_InviteUser t r w).1;
  ow_join : forall t r w, transport = Some t -> others_write ok w (dt_JoinRoom t r w).1;
  ow_cancel : forall id w, others_write ok w (ProjectorWiring.cancelGroupAgentRequests agent id w).1;
  ow_event : forall e w, others_write ok w (ProjectorWiring.projectGroupAgentEvent agent e w).1;
}.

Lemma others_keep ok w w' :
  others_write ok w w' -> all_conversations ok w.1 -> all_conversations ok w'.1.
Proof. intros Ho Hw k r Hr. destruct (Ho k r Hr) as [Hk|Hk]; [by apply (Hw k)|done]. Qed.

Lemma outside_writes_keep ok :
  outside_writes ok ->
  outside_keeps waiting contacts_config transport (ok := ok) /\ agent_keeps agent (ok := ok).
Proof.
  intros [Hw Hg Hi Hj Hc He].
  split; split; intros; try intros ? ?; eapply others_keep; eauto.
Qed.

(** C33.  The projector stays within the product's enumerations and adds
    nothing of its own to them: take any lists of kinds, lifecycles and
    projection states that have direct, group and channel; active, pending,
    dissolved and deleted; ready and pending.  If the stored conversations are
    within the lists and the rows other requests, the group agent and Matrix
    write meanwhile are too, then after any batch of room server output, the
    ones that stop in the middle included, every stored conversation is
    within them.  So the table stays within the enumerations of the domain
    (where the reports write rows of kind system), and where nobody else
    writes an agent or system kind, a left or blocked lifecycle or a conflict
    or failed state, projecting does not either. *)
Theorem projected_conversations_well_typed kinds lifecycles states msgs w :
  projected_values kinds lifecycles states ->
  outside_writes (well_typed kinds lifecycles states) ->
  all_conversations (well_typed kinds lifecycles states) w.1 ->
  all_conversations (well_typed kinds lifecycles states)
    (Projector.onMessage (Some handler) msgs w).1.1.
Proof.
  intros Hv Ho Hw. destruct (outside_writes_keep _ Ho) as [Hout Hagent].
  by apply (batch_ruled now waiting contacts_config transport agentRoomID roomServer content_config
           (Hrule := well_typed_rule _ _ _ Hv) Hout agent Hagent).
Qed.
End Batches.

(** ** A batch *)

Module ProjectorDemo.
#[export] Instance ids : MatrixIDs := {|
  NewUserID := fun s => if has_prefix s "@" then Ok s else Err (ErrOther "invalid user id");
  NewRoomID := fun s => Ok s;
  SplitID := fun _ => Err (ErrOther "not an id") |}.

#[export] Instance demo_text : GoText := {|
  Marshal := fun _ => Some "{}"; Unmarshal := fun _ => None; ValidJSON := fun _ => true;
  Quote := fun s => s; jsonb := fun s => s |}.

Definition world : Type :=
  T.tables * Wiring.Service (ChannelContent.store * (@Events.Module MemoryEvents.store * unit)).

Definition start : world :=
  (T.NewMemoryStore,
   {| Wiring.ownerMXID := "@me:h"; Wiring.profileName := "Me"; Wiring.profileAvatar := "";
      Wiring.matrix := (ChannelContent.empty,
        (Events.New (Some MemoryEvents.empty) {| Events.RetentionMaxRows := 0; Events.RetentionPruneOnWrite := false |},
         tt)) |}).

Definition contacts : Config world :=
  {| ServerName := "h"; deleteGroup := None; leaveRoom := None; acceptRoom := None;
     verifyAccepted := false; createRoom := None; inviteRoom := None; joinRoom := None;
     newDirectRoomID := None; localProfile := None; reactivatePeer := None;
     reactivateRoom := None; checkPeerBlocked := None; matrixJoined := None |}.

Definition channel_content : ContentConfig world :=
  ContentWiring.contentConfig "h" (fun _ => 0) (fun prefix w => (w, prefix +:+ "1")) None None
    (fun _ => "Agent").

(** A service without Matrix side and without group agents. *)
Definition agent : ProjectorWiring.AgentProjection (Y := unit) :=
  {| ProjectorWiring.accountIsDeprovisioned := fun _ => false;
     ProjectorWiring.cancelGroupAgentRequests := fun _ => ret tt;
     ProjectorWiring.projectGroupAgentEvent := fun _ => ret tt |}.

Definition event (type_ : string) (key : option string) (l : list (string * any)) : RoomEvent :=
  {| re_Type := type_; re_RoomID := "!g:h"; re_EventID := "$" +:+ type_; re_StateKey := key;
     re_SenderID := "@me:h"; re_OriginServerTS := 5; re_Content := Ok l; re_Unsigned := None |}.

Definition output (e : RoomEvent) : option OutputEvent :=
  Some {| oe_Type := "new_room_event"; oe_RedactedEvent := None; oe_NewInviteEvent := None;
          oe_NewRoomEvent := Some (Some e) |}.

Definition batch : list (option OutputEvent) :=
  [output (event MRoomCreate (Some "") [("type", AString DirextalkRoomTypeGroup)]);
   None;
   output (event DirextalkRoomProfileEventType (Some "")
     [("room_type", AString DirextalkRoomTypeGroup); ("name", AString "Friends")]);
   output (event "m.room.message" None [("body", AString "hello")])].

Definition handler : OutputEvent -> M world goerror unit :=
  service_handler (fun _ => 0) (fun _ w => w) contacts None (fun _ => "!agent:h") (fun _ => None)
    channel_content agent.

Definition outcome : world * bool := Projector.onMessage (Some handler) batch start.
End ProjectorDemo.
#[local] Existing Instance ProjectorDemo.ids.
#[local] Existing Instance ProjectorDemo.demo_text.

Definition demo_records : list Conv.ConversationRecord :=
  (map_to_list (T.conversations ProjectorDemo.outcome.1.1)).*2.

(** The group of the batch, its creator and its last message. *)
Lemma creators_come_from_creation_events_witness :
  (forall k r, T.conversations ProjectorDemo.outcome.1.1 !! k = Some r ->
     credited (fun c => False \/ created_by ProjectorDemo.batch c) (Conv.CreatedByMXID r)) /\
  Conv.CreatedByMXID <$> demo_records = ["@me:h"] /\ Conv.LastMessage <$> demo_records = ["hello"].
Proof.
  split; [|split; vm_compute; reflexivity]. unfold ProjectorDemo.outcome, ProjectorDemo.handler.
  apply (creators_come_from_creation_events (fun _ => 0) (fun _ w => w) ProjectorDemo.contacts None
    (fun _ => "!agent:h") (fun _ => None) ProjectorDemo.channel_content ProjectorDemo.agent
    (fun _ => False) ProjectorDemo.batch ProjectorDemo.start).
  - split; try done.
  - split; intros ?; apply keeps_ret.
  - intros k r Hr. vm_compute in Hr. destruct k; discriminate.
Defined.

(** Report notices: the table starts with a row of kind system, and whenever
    the projector waits for a peer's lock another one is filed. *)
Definition system_row (room : string) : Conv.ConversationRecord :=
  conversation_of "system" room "System notifications" "".
Definition with_system (room : string) (w : ProjectorDemo.world) : ProjectorDemo.world :=
  (T.set_conversations (<[room := system_row room]> (T.conversations w.1)) w.1, w.2).

Definition typed_outcome : ProjectorDemo.world * bool :=
  Projector.onMessage (Some (service_handler (fun _ => 0) with_system ProjectorDemo.contacts None
    (fun _ => "!agent:h") (fun _ => None) ProjectorDemo.channel_content ProjectorDemo.agent))
    ProjectorDemo.batch (with_system "!sys:h" ProjectorDemo.start).

Lemma system_row_typed room :
  well_typed ConversationKinds ConversationLifecycles ConversationProjectionStates (system_row room).
Proof. split; cbn; set_solver. Qed.

Lemma with_system_writes room w :
  others_write (well_typed ConversationKinds ConversationLifecycles ConversationProjectionStates)
    w (with_system room w).
Proof.
  intros k r. unfold with_system. cbn. destruct (decide (k = room)) as [->|Hne].
  - rewrite lookup_insert_eq. intros [= <-]. right. apply system_row_typed.
  - rewrite lookup_insert_ne by done. by left.
Qed.

Lemma projected_conversations_well_typed_witness :
  all_conversations
    (well_typed ConversationKinds ConversationLifecycles ConversationProjectionStates)
    typed_outcome.1.1 /\
  Conv.Kind <$> (map_to_list (T.conversations typed_outcome.1.1)).*2 ≡ₚ ["group"; "system"] /\
  typed_outcome.2 = true.
Proof.
  split; [|split; [|vm_compute; reflexivity]].
  - unfold typed_outcome.
    apply (projected_conversations_well_typed (fun _ => 0) with_system ProjectorDemo.contacts None
      (fun _ => "!agent:h") (fun _ => None) ProjectorDemo.channel_content ProjectorDemo.agent
      ConversationKinds ConversationLifecycles ConversationProjectionStates
      ProjectorDemo.batch (with_system "!sys:h" ProjectorDemo.start)).
    + split; set_solver.
    + split; try done; intros; [apply with_system_writes|intros ? ? ?; by left..].
    + apply (others_keep _ _ _ (with_system_writes "!sys:h" ProjectorDemo.start)).
      intros k r Hr. vm_compute in Hr. destruct k; discriminate.
  - vm_compute. solve_Permutation.
Defined.
