(* ===== verification/ProjectorReplayFacts.v ===== *)
(** * Redelivered events

    The room server's output is delivered at least once: a batch that failed
    is delivered again from its first message.  Channel content is projected
    so that an event seen again changes nothing. *)

From Stdlib Require Import Ascii String ZArith Lia.
From stdpp Require Import base tactics list gmap strings.
From S2P Require Import Prelude GoStrings Values Domain GoTime Policy PolicyFacts Action RoomState.
From S2P Require Import EventStream MemoryTables ChannelContent ChannelContentFacts Workflow Prepared.
From S2P Require Import Conversation Blocks Contacts ContactWorkflows Rooms RoomWorkflows.
From S2P Require Import Members MemberWorkflows Content ContentFlow ServiceWiring RoomWiring.
From S2P Require Import ContentWiring Projector ProjectorWiring ProjectorFacts.
Local Open Scope Z_scope.
Local Open Scope go_scope.

(** ** The store *)

Section Store.
Implicit Types (s : ChannelContent.store) (post : Post.ChannelPostRecord).
Import ChannelContent.

(** Explicit settings are complete. *)
Definition complete post : Prop := Post.SettingsUpdated post = true ->
  Post.CommentsEnabledSet post = true.

Lemma with_settings_same post :
  complete post -> Post.SettingsUpdated post = true ->
  with_settings (Post.Visibility post) (Post.CommentsEnabled post) post = post.
Proof. intros Hc Hu. specialize (Hc Hu). destruct post; cbn in *. by subst. Qed.

Lemma put_post_twice post l : complete post -> put_post post (put_post post l) = put_post post l.
Proof.
  intros Hc. induction l as [|p l IH]; cbn.
  - rewrite (proj2 (str_eqb_true _ _) eq_refl).
    destruct (Post.SettingsUpdated post) eqn:E; [by rewrite with_settings_same|done].
  - destruct (str_eqb (Post.PostID p) (Post.PostID post)) eqn:E; cbn; [|by rewrite E, IH].
    destruct (Post.SettingsUpdated p) eqn:Hp; cbn; rewrite (proj2 (str_eqb_true _ _) eq_refl);
      [done|].
    destruct (Post.SettingsUpdated post) eqn:Hu; [by rewrite with_settings_same|done].
Qed.

Lemma insert_post_twice s post : InsertChannelPost (InsertChannelPost s post) post = InsertChannelPost s post.
Proof.
  unfold InsertChannelPost. cbn [postSettings set_posts]. cbv zeta. unfold set_posts. cbn.
  f_equal. apply put_post_twice. unfold complete.
  repeat case_match; cbn; try done; unfold normalizeChannelPostRecord in *; repeat case_match; done.
Qed.

Lemma settle_twice st l : settle_post st (settle_post st l) = settle_post st l.
Proof.
  induction l as [|p l IH]; cbn; [done|]. destruct (_ && _) eqn:E; cbn; rewrite E; [done|by rewrite IH].
Qed.

Lemma apply_settings_twice s st :
  ApplyChannelPostSettings (ApplyChannelPostSettings s st) st = ApplyChannelPostSettings s st.
Proof.
  unfold ApplyChannelPostSettings. cbv zeta. set (n := normalize_settings st).
  destruct (postSettings s !! PostSettings.PostID n) as [current|] eqn:Hl.
  - destruct (_ <? _) eqn:Hlt; [by rewrite Hl, Hlt|]. cbn.
    rewrite lookup_insert_eq, Z.ltb_irrefl, settle_twice. f_equal. apply insert_insert_eq.
  - cbn. rewrite lookup_insert_eq, Z.ltb_irrefl, settle_twice. f_equal. apply insert_insert_eq.
Qed.
End Store.

Lemma put_comment_twice c l :
  ChannelContent.put_comment c (ChannelContent.put_comment c l) = ChannelContent.put_comment c l.
Proof.
  induction l as [|x l IH]; cbn; [by rewrite (proj2 (str_eqb_true _ _) eq_refl)|].
  destruct (str_eqb (Comment.CommentID x) (Comment.CommentID c)) eqn:E; cbn;
    [by rewrite (proj2 (str_eqb_true _ _) eq_refl)|by rewrite E, IH].
Qed.

(** ** The projector *)

Section Service_.
Context `{GoRange} `{GoText} `{MatrixIDs} {Y : Type}.
Local Notation world :=
  (T.tables * Wiring.Service (ChannelContent.store * (@Events.Module MemoryEvents.store * Y)))%type.
Context (now : world -> Z) (waiting : string -> world -> world) (contacts_config : Config world).
Context (transport : option (DirectTransport world)).
Context (agentRoomID : world -> string) (roomServer : string -> option string).
Context (content_config : ContentConfig world).
Local Notation deps := (ProjectorWiring.projectorDependencies now waiting contacts_config transport
  agentRoomID roomServer content_config).
Local Notation store := (ContentWiring.memory_content_store
  (X := @Events.Module MemoryEvents.store * Y)).
Implicit Types (w : world) (event : RoomEvent).

(** Running a step again where it succeeded changes nothing. *)
Definition absorbs (m : M world goerror unit) : Prop :=
  forall w w', m w = (w', Ok tt) -> m w' = (w', Ok tt).

Lemma absorbs_ret : absorbs (ret tt).
Proof using Type. by intros w w' [= ->]. Qed.

Lemma absorbs_content (f : ChannelContent.store -> ChannelContent.store) :
  (forall s, f (f s) = f s) -> absorbs (ContentWiring.writes_content f).
Proof using Type.
  intros Hf [s sv] w' [= <-]. unfold ContentWiring.writes_content, run. f_equal.
  unfold ContentWiring.set_content, ContentWiring.content_of. cbn. by rewrite Hf.
Qed.

Lemma post_absorbed e : absorbs (ContentFlow.ProjectPost (Some store) e).
Proof using Type. apply absorbs_content. intros s. apply insert_post_twice. Qed.

Lemma settings_absorbed e : absorbs (ContentFlow.ProjectPostSettings (Some store) e).
Proof using Type.
  unfold ContentFlow.ProjectPostSettings. cbn [ContentFlow.with_store]. cbv zeta.
  repeat match goal with |- absorbs (match ?x with _ => _ end) => destruct x end;
    try apply absorbs_ret.
  apply absorbs_content. intros st. cbv beta. by rewrite apply_settings_twice.
Qed.

(** A comment leaves the posts, which decide whether it is admitted. *)
Lemma comment_absorbed e : absorbs (ContentFlow.ProjectComment (Some store) e).
Proof using Type.
  intros [s sv] w'. unfold ContentFlow.ProjectComment, ContentFlow.PostByID, mbind_. cbn.
  destruct (match _ with Some _ => _ | None => false end) eqn:E.
  - intros [= <-]. cbn. by rewrite E.
  - intros [= <-]. cbn. unfold ContentWiring.content_of in *. cbn in *.
    change (ChannelContent.GetChannelPostByID (ChannelContent.InsertChannelComment ?a ?b) ?c ?d)
      with (ChannelContent.GetChannelPostByID a c d). rewrite E.
    unfold ContentWiring.writes_content, run, ContentWiring.set_content, ContentWiring.content_of.
    cbn. unfold ChannelContent.InsertChannelComment. cbn. by rewrite put_comment_twice.
Qed.

(** What a reaction reacts to is read from the posts and comments only. *)
Lemma target_reads e relation w :
  exists t, ContentFlow.projected_target (Some store) e relation w = (w, Ok t) /\
    forall w2, ContentWiring.content_of w2 = ContentWiring.content_of w ->
      ContentFlow.projected_target (Some store) e relation w2 = (w2, Ok t).
Proof using Type.
  unfold ContentFlow.projected_target. cbv zeta.
  match goal with |- context [if ?b then _ else _] => destruct b end; [by eexists|].
  unfold ContentFlow.ReactionTargetByEventID, ContentFlow.CommentByEventID,
    ContentFlow.PostByEventID, mbind_. cbn.
  destruct (str_empty _); cbn; [by eexists|].
  destruct (ChannelContent.GetChannelCommentByEventID (ContentWiring.content_of w) _ _) eqn:E; cbn.
  { eexists. split; [done|]. intros w2 Hw. rewrite Hw, E. done. }
  eexists. split; [done|]. intros w2 Hw. rewrite Hw, E. cbn. by rewrite Hw.
Qed.

Lemma reaction_absorbed e :
  0 < ContentFlow.ev_OriginServerTS e ->
  absorbs (ContentFlow.ProjectReaction (Some store) content_config e).
Proof using Type.
  intros Hts w w'. unfold ContentFlow.ProjectReaction, ContentFlow.with_store. cbv zeta.
  set (relation := match get _ _ with AMap l => _ | _ => _ end).
  destruct (target_reads e relation w) as (t & Ht & Hsame). unfold mbind_ at 1 3.
  rewrite Ht. destruct (str_empty (ContentFlow.rt_ID t)) eqn:Et.
  { intros [= <-]. by rewrite Ht, Et. }
  unfold mbind_, ContentFlow.asks, reads. cbn. rewrite (proj2 (Z.ltb_lt _ _) Hts).
  intros [= <-]. rewrite Hsame; [|done]. rewrite Et. cbn.
  unfold run. cbn. unfold MemoryTables.UpsertReaction. cbn. by rewrite insert_insert_eq.
Qed.

(** ** Events *)

(** The events that carry channel content: posts and comments as messages,
    reactions and post settings. *)
Definition channel_content event : Prop :=
  match re_Content event with
  | Ok l =>
      re_Type event = "m.reaction" \/
      re_Type event = DirextalkChannelPostSettingsEventType \/
      re_Type event = "m.room.message" /\
        Params.String (get (object_map l) "p2p_kind") ∈ ["channel_post"; "channel_comment"]
  | Err _ => False
  end.

Lemma message_absorbed event l :
  re_Content event = Ok l ->
  Params.String (get (object_map l) "p2p_kind") ∈ ["channel_post"; "channel_comment"] ->
  (forall w1 w2, agentRoomID w1 = agentRoomID w2) ->
  absorbs (Projector.projectMessage deps event).
Proof using Type.
  intros Hl Hk Hroom.
  assert (Hne : str_empty (Params.String (get (object_map l) "p2p_kind")) = false).
  { apply str_empty_false. intros He. rewrite He in Hk. set_solver. }
  unfold Projector.projectMessage, Projector.content_of, Projector.isAgentRoom,
    Projector.shouldProjectRoomMessage, Projector.asks, mbind_, reads, absorbs.
  intros w w'. rewrite Hl. cbn. rewrite Hne. cbn. rewrite (Hroom w' w).
  destruct (_ && _); [by intros [= <-]|]. cbn.
  apply elem_of_cons in Hk as [->|Hk]; cbn; [apply post_absorbed|].
  apply list_elem_of_singleton in Hk as ->.
  exact (comment_absorbed (Projector.projection_event event "" (object_map l)
    (Params.String (get (object_map l) "body")) (Projector.message_type (object_map l))) w w').
Qed.

(** The handlers of content events. *)
Lemma dispatch event :
  (re_Type event = "m.reaction" ->
     Projector.ProjectRoomEvent deps (Some event) = Projector.projectReaction deps event) /\
  (re_Type event = DirextalkChannelPostSettingsEventType ->
     Projector.ProjectRoomEvent deps (Some event) =
     if Projector.has_key event then Projector.projectChannelPostSettings deps event
     else ret tt) /\
  (re_Type event = "m.room.message" ->
     Projector.ProjectRoomEvent deps (Some event) = Projector.projectMessage deps event).
Proof using Type. unfold Projector.ProjectRoomEvent. by split_and!; intros ->. Qed.

(** C31.  At-least-once delivery is absorbed for channel content: an event
    with a post, a comment, a reaction or post settings that was projected
    changes nothing when it is projected again right after. *)
Theorem redelivered_content_is_absorbed event w w' :
  channel_content event -> 0 < re_OriginServerTS event ->
  (forall w1 w2, agentRoomID w1 = agentRoomID w2) ->
  Projector.ProjectRoomEvent deps (Some event) w = (w', Ok tt) ->
  Projector.ProjectRoomEvent deps (Some event) w' = (w', Ok tt).
Proof using Type.
  intros Hc Hts Hroom. unfold channel_content in Hc.
  destruct (re_Content event) as [l|] eqn:Hl; [|done].
  assert (Hdone : forall (m : M world goerror unit), absorbs m -> m w = (w', Ok tt) ->
            m w' = (w', Ok tt)) by (intros m Hm; apply Hm).
  destruct (dispatch event) as (Hr & Hs & Hm).
  destruct Hc as [Ht|[Ht|[Ht Hk]]]; [rewrite (Hr Ht)|rewrite (Hs Ht)|rewrite (Hm Ht)].
  - unfold Projector.projectReaction, Projector.content_of, mbind_, reads. rewrite Hl.
    by apply Hdone, reaction_absorbed.
  - destruct (Projector.has_key event); [|by apply Hdone, absorbs_ret].
    unfold Projector.projectChannelPostSettings, Projector.content_of, Projector.with_port.
    cbn [ChannelContent_]. unfold mbind_, reads. rewrite Hl. apply Hdone, settings_absorbed.
  - apply Hdone. by apply message_absorbed with (l := l).
Qed.
End Service_.

(** ** A post and its echo *)

Section Echo.
Context `{GoRange} `{GoText}.

(** The media of a message do not reach its reserved keys. *)
Lemma media_untouched key (l : list (string * any)) (c : content) :
  key <> "url" -> key ∈ reserved_keys \/ key ∉ l.*1 -> foldl add_media c l !! key = c !! key.
Proof.
  intros Hurl. revert c. induction l as [|[k v] l IH]; intros c Hk; [done|]. cbn.
  rewrite IH by set_solver. case_bool_decide as Hr; [done|].
  assert (k <> key) by (destruct Hk; set_solver).
  destruct (_ && _); by apply lookup_insert_ne.
Qed.

(** What a message says under the keys its media cannot set. *)
Lemma message_keys kind body messageType mediaJSON media :
  let c := channelMessageContent kind body messageType mediaJSON media in
  c !! "body" = Some (AString body) /\ c !! "client_type" = Some (AString messageType) /\
  default (AString "") (c !! "media_json") = AString mediaJSON /\
  (media !! "sender_name" = None -> c !! "sender_name" = None).
Proof.
  intros c. unfold c, channelMessageContent. split_and!.
  1-3: rewrite media_untouched; [|done|left; set_solver].
  1-3: destruct (str_empty mediaJSON) eqn:E; try done.
  - by apply str_empty_true in E as ->.
  - intros Hn. rewrite media_untouched; [by destruct (str_empty mediaJSON)|done|].
    right. rewrite list_elem_of_fmap. intros ([k v] & Hk & Hin%elem_of_go_range).
    cbn in Hk. congruence.
Qed.

Lemma post_keys channelID postID title visibility body messageType mediaJSON media :
  let c := ContentFlow.post_content channelID postID title visibility body messageType mediaJSON
             media in
  c !! "channel_id" = Some (AString channelID) /\ c !! "post_id" = Some (AString postID) /\
  c !! "post_title" = Some (AString title) /\ c !! "visibility" = Some (AString visibility) /\
  c !! "comments_enabled" = Some (ABool true) /\
  forall key, key ∉ ["comments_enabled"; "visibility"; "post_title"; "post_id"; "channel_id"] ->
    c !! key = channelMessageContent "channel_post" body messageType mediaJSON media !! key.
Proof.
  intros c. unfold c, ContentFlow.post_content. split_and!; try by simplify_map_eq.
  intros key Hk. by rewrite !lookup_insert_ne by set_solver.
Qed.

(** A post and its echo agree up to the author's name: projecting the
    Matrix event that creating a post sends rebuilds the stored record, except
    that the author's display name, which no event carries, is blanked. *)
Theorem echoed_post_loses_the_author_name event channelID postID title visibility body
    messageType mediaJSON media (name : string) :
  Forall trimmed [channelID; postID; title; visibility; body; messageType; mediaJSON] ->
  postID <> "" -> messageType <> "" -> media !! "sender_name" = None ->
  let c := ContentFlow.post_content channelID postID title visibility body messageType mediaJSON
             media in
  let result := {| sr_EventID := re_EventID event; sr_OriginServerTS := re_OriginServerTS event |} in
  let stored author := postRecord (ContentFlow.created_post channelID postID (re_RoomID event) result
                         (re_SenderID event) author title body messageType mediaJSON visibility) in
  ContentFlow.projected_post (Projector.projection_event event "" c
    (Params.String (get c "body")) (Projector.message_type c)) = stored "" /\
  Post.AuthorName (stored name) = name.
Proof.
  intros Ht Hid Hty Hname c result stored. split; [|done].
  rewrite !Forall_cons in Ht. destruct Ht as (H1 & H2 & H3 & H4 & H5 & H6 & H7 & _).
  destruct (message_keys "channel_post" body messageType mediaJSON media) as (Hb & Hc & Hm & Hn).
  specialize (Hn Hname).
  set (m := channelMessageContent "channel_post" body messageType mediaJSON media) in *.
  destruct (post_keys channelID postID title visibility body messageType mediaJSON media)
    as (Kc & Ki & Kt & Kv & Ke & Hkey). fold c in Kc, Ki, Kt, Kv, Ke. fold c m in Hkey.
  assert (Hs : forall key v, c !! key = Some (AString v) -> trimmed v ->
    Params.get_string c key = v /\ Params.String (get c key) = v).
  { intros key v Hv Hv'. unfold Params.get_string, get. by rewrite Hv. }
  assert (Hbody := proj2 (Hs "body" body ltac:(rewrite Hkey; [done|set_solver]) H5)).
  assert (Htype := proj2 (Hs "client_type" messageType
                     ltac:(rewrite Hkey; [done|set_solver]) H6)).
  assert (Hmedia : Params.get_string c "media_json" = mediaJSON).
  { unfold Params.get_string, get. rewrite Hkey by set_solver.
    destruct (m !! "media_json"); cbn in Hm |- *; [by rewrite Hm|]. by injection Hm as <-. }
  assert (Hsender : Params.get_string c "sender_name" = "").
  { unfold Params.get_string, get. rewrite Hkey by set_solver. by rewrite Hn. }
  assert (Hmt : Projector.message_type c = messageType).
  { unfold Projector.message_type, RoomState.fallbackString. rewrite Htype, H6.
    rewrite !(proj2 (str_empty_false _) Hty). done. }
  unfold ContentFlow.projected_post, stored, ContentFlow.created_post, postRecord. cbn.
  rewrite Hbody, Hmt, Hmedia, Hsender.
  rewrite (proj1 (Hs _ _ Kc H1)), (proj1 (Hs _ _ Ki H2)), (proj1 (Hs _ _ Kt H3)),
    (proj1 (Hs _ _ Kv H4)).
  unfold ContentFlow.projected_id, has, Params.get_bool, get. rewrite Ke.
  by rewrite (proj2 (str_empty_false _) Hid).
Qed.
End Echo.

#[local] Existing Instance ProjectorDemo.ids.
#[local] Existing Instance ProjectorDemo.demo_text.

(** A post delivered twice, and a post and its echo. *)
Module ReplayDemo.
Import ProjectorDemo.

Definition post_event : RoomEvent :=
  event "m.room.message" None
    [("p2p_kind", AString "channel_post"); ("channel_id", AString "c1");
     ("post_id", AString "post_1"); ("body", AString "hi"); ("client_type", AString "text")].

Definition deps : Dependencies world :=
  ProjectorWiring.projectorDependencies (fun _ => 0) (fun _ w => w) contacts None
    (fun _ => "!agent:h") (fun _ => None) channel_content.

Definition once : world * result goerror unit :=
  Projector.ProjectRoomEvent deps (Some post_event) start.
End ReplayDemo.

Lemma redelivered_content_is_absorbed_witness :
  map Post.PostID (ChannelContent.posts (ContentWiring.content_of ReplayDemo.once.1)) = ["post_1"] /\
  Projector.ProjectRoomEvent ReplayDemo.deps (Some ReplayDemo.post_event) ReplayDemo.once.1 =
    (ReplayDemo.once.1, Ok tt).
Proof.
  split; [vm_compute; reflexivity|].
  apply (redelivered_content_is_absorbed (fun _ => 0) (fun _ w => w) ProjectorDemo.contacts None
    (fun _ => "!agent:h") (fun _ => None) ProjectorDemo.channel_content ReplayDemo.post_event
    ProjectorDemo.start).
  - right. right. split; [reflexivity|]. vm_compute. left.
  - reflexivity.
  - reflexivity.
  - vm_compute. reflexivity.
Defined.

Lemma echoed_post_loses_the_author_name_witness :
  let stored author := postRecord (ContentFlow.created_post "c1" "post_1" "!g:h"
    {| sr_EventID := "$m.room.message"; sr_OriginServerTS := 5 |} "@me:h" author "T" "hi" "text" ""
    "public") in
  let c := ContentFlow.post_content "c1" "post_1" "T" "public" "hi" "text" "" ∅ in
  ContentFlow.projected_post (Projector.projection_event ReplayDemo.post_event "" c "hi" "text")
    = stored "" /\ stored "Me" <> stored "".
Proof.
  intros stored c. split; [|discriminate].
  refine (proj1 (echoed_post_loses_the_author_name ReplayDemo.post_event "c1" "post_1" "T" "public"
    "hi" "text" "" ∅ "Me" _ _ _ _)); [|done..].
  repeat constructor.
Defined.
