(* ===== verification/ContentFacts.v ===== *)
(** * Facts about channel content

    Pages and their bounds, what the public listing shows, reactions, the
    authorship of comments and their retries, and recall. *)

From Stdlib Require Import Ascii String ZArith Lia.
From stdpp Require Import base tactics list gmap strings.
From S2P Require Import Prelude GoStrings Values Domain GoTime Policy Action RoomState.
From S2P Require Import MemoryTables ChannelContent Workflow Prepared PreparedFacts.
From S2P Require Import Conversation Blocks Contacts ContactWorkflows Rooms RoomWorkflows.
From S2P Require Import Members MemberWorkflows Content ContentFlow ServiceWiring RoomWiring.
From S2P Require Import ContentWiring.
Local Open Scope Z_scope.
Local Open Scope go_scope.
Import Wiring ContentWiring.

(** ** Page parameters *)

(** A valid page lies in range, offset and end included. *)
Lemma postPageParams_range raw page size offset :
  postPageParams raw = Ok (page, size, offset) ->
  1 <= size <= 100 /\ 1 <= page /\ offset = (page - 1) * size /\ page * size <= int64_max.
Proof.
  unfold postPageParams.
  set (p := if Params.get_int64 raw "page" <=? 0 then 1 else Params.get_int64 raw "page").
  set (s0 := if Params.get_int64 raw "page_size" <=? 0 then Params.get_int64 raw "limit" else _).
  set (s1 := if s0 <=? 0 then 5 else s0). set (s := if 100 <? s1 then 100 else s1).
  assert (1 <= p) by (unfold p; destruct (Z.leb_spec (Params.get_int64 raw "page") 0); lia).
  assert (1 <= s1) by (unfold s1; destruct (Z.leb_spec s0 0); lia).
  assert (1 <= s <= 100) by (unfold s; destruct (Z.ltb_spec 100 s1); lia).
  destruct (Z.ltb_spec (int64_max / s) p) as [?|Hp]; [discriminate|]. intros [= <- <- <-].
  repeat split; try lia.
  transitivity ((int64_max / s) * s); [nia|]. pose proof (Z.mul_div_le int64_max s). lia.
Qed.

(** A page in range is a slice, and never a panic. *)
Lemma offset_page_slice offset limit l :
  0 <= offset -> 0 <= limit ->
  ChannelContent.offset_page offset limit l =
  Some (take (Z.to_nat limit) (drop (Z.to_nat offset) l),
        offset + limit <? Z.of_nat (length l)).
Proof.
  intros Ho Hl. unfold ChannelContent.offset_page.
  destruct (Z.leb_spec (Z.of_nat (length l)) offset) as [Hd|Hd].
  - rewrite drop_ge, take_nil by lia. f_equal. f_equal. symmetry. apply Z.ltb_ge. lia.
  - rewrite (proj2 (Z.ltb_ge offset 0)) by lia. rewrite length_drop.
    destruct (Z.ltb_spec limit (Z.of_nat (length l - Z.to_nat offset))) as [Hm|Hm].
    + rewrite (proj2 (Z.ltb_ge limit 0)) by lia. f_equal. f_equal. symmetry. apply Z.ltb_lt. lia.
    + rewrite take_ge by (rewrite length_drop; lia).
      f_equal. f_equal. symmetry. apply Z.ltb_ge. lia.
Qed.

(** Consecutive slices make up the list. *)
Lemma slices_concat {A} (l : list A) n k :
  concat (map (fun i => take n (drop (i * n) l)) (seq 0 k)) = take (k * n) l.
Proof.
  induction k as [|k IH]; [done|].
  rewrite seq_S, map_app, concat_app, IH. simpl. rewrite app_nil_r, (Nat.add_comm n).
  by rewrite take_take_drop.
Qed.

(** ** Enrichment on the memory store *)

Section Memory.
Context `{GoRange} {X : Type}.
Local Notation world := (T.tables * Service (ChannelContent.store * X))%type.
Implicit Types (w : world).

Definition my_flag w (id reaction owner : string) (stored : bool) : bool :=
  if str_empty owner then stored
  else match MemoryTables.GetReaction w.1 "post" id reaction owner with
       | Some r => Reaction.Active r
       | None => stored
       end.

(** What [EnrichPosts] makes of a post. *)
Definition enriched w (owner : string) (p : CPost.Post) : CPost.Post :=
  let id := CPost.PostID p in
  CPost.set_FavoritedByMe (my_flag w id "favorite" owner (CPost.FavoritedByMe p))
  (CPost.set_FavoriteCount (MemoryTables.CountActiveReactions w.1 "post" id "favorite")
  (CPost.set_ReactedByMe (my_flag w id "like" owner (CPost.ReactedByMe p))
  (CPost.set_Reactions (MemoryTables.CountActiveReactions w.1 "post" id "like")
  (CPost.set_CommentCount
     (Z.of_nat (length (ChannelContent.ListChannelComments (content_of w) id))) p)))).

Lemma enrich_post_memory {E} owner p w :
  ContentFlow.enrich_post (E:=E) (Some memory_content_store) owner p w =
  (w, Ok (enriched w owner p)).
Proof using Type.
  unfold ContentFlow.enrich_post, enriched, my_flag, ContentFlow.my_reaction,
    ContentFlow.listCommentsForPost, ContentFlow.with_store, ContentFlow.try_, mbind_.
  cbn -[MemoryTables.GetReaction MemoryTables.CountActiveReactions].
  unfold CommentsFromRecords. rewrite length_map.
  destruct p. destruct (str_empty owner); cbn -[MemoryTables.GetReaction MemoryTables.CountActiveReactions];
    [done|].
  unfold ContentFlow.try_, RoomWorkflows.asks, reads, mbind_.
  cbn -[MemoryTables.GetReaction MemoryTables.CountActiveReactions].
  by destruct (MemoryTables.GetReaction _ _ _ "like" _), (MemoryTables.GetReaction _ _ _ "favorite" _).
Qed.

Lemma map_each_pure {E A B} (f : A -> M world E B) (g : A -> B) w l :
  (forall a, f a w = (w, Ok (g a))) -> ContentFlow.map_each f l w = (w, Ok (map g l)).
Proof using Type.
  intros Hf. induction l as [|a l IH]; [done|]. simpl. unfold mbind_. by rewrite Hf, IH.
Qed.

Lemma EnrichPosts_memory {E} posts owner w :
  ContentFlow.EnrichPosts (E:=E) (Some memory_content_store) posts owner w =
  (w, Ok (map (enriched w owner) posts)).
Proof using Type. apply map_each_pure. intros p. apply enrich_post_memory. Qed.

(** The posts of a channel, newest first. *)
Definition newest_first w (channelID : string) : list Post.ChannelPostRecord :=
  stable_sort (ChannelContent.newer ChannelContent.post_key)
    (ChannelContent.ListChannelPosts (content_of w) channelID).

Context (matrix_ : option (MatrixContentPort world)) (config : ContentConfig world).
Notation owner_of := (fun w => co_MXID (ContentFlow.owner config w)).

Lemma Posts_page_memory raw w page size offset :
  postPageParams raw = Ok (page, size, offset) -> has raw "visibility" = false ->
  has raw "page" || has raw "page_size" = true ->
  let l := newest_first w (Params.get_string raw "channel_id") in
  ContentFlow.Posts (Some memory_content_store) config raw w =
  (w, Ok (ContentFlow.RPostsPage
    {| ContentFlow.page_posts := map (enriched w (owner_of w))
         (PostsFromRecords (take (Z.to_nat size) (drop (Z.to_nat offset) l)));
       ContentFlow.page_visibility := None; ContentFlow.page_number := page;
       ContentFlow.page_size := size;
       ContentFlow.page_has_more := page * size <? Z.of_nat (length l);
       ContentFlow.page_next := if page * size <? Z.of_nat (length l)
                                then Some (wrap64 (page + 1)) else None |})).
Proof using Type.
  intros Hp Hv Hpage l. pose proof (postPageParams_range raw _ _ _ Hp) as (Hs & Hpg & Ho & _).
  unfold ContentFlow.Posts. rewrite Hv. unfold mbind_ at 1. simpl. rewrite Hpage.
  unfold ContentFlow.postsOffsetPage, mbind_, reads. rewrite Hp.
  unfold ContentFlow.posts_page, mbind_, internal. cbn -[stable_sort].
  unfold page_or_panic, reads, ChannelContent.ListChannelPostsOffsetPage. fold (newest_first w (Params.get_string raw "channel_id")).
  fold l. rewrite offset_page_slice by nia.
  rewrite EnrichPosts_memory. cbn. replace (offset + size) with (page * size) by nia. done.
Qed.
End Memory.

(** ** Pages are slices of the listing *)

Definition page_request (channelID : string) (size page : Z) : content :=
  <["channel_id" := AString channelID]> (<["page_size" := AInt64 size]> {["page" := AInt64 page]}).

(** The posts and [has_more] of a reply. *)
Definition page_of (r : result Api.Error ContentFlow.reply) : list CPost.Post * bool :=
  match r with
  | Ok (ContentFlow.RPostsPage page) =>
      (ContentFlow.page_posts page, ContentFlow.page_has_more page)
  | _ => ([], false)
  end.

Lemma page_request_params channelID size page :
  1 <= size <= 100 -> 1 <= page -> page * size <= int64_max ->
  postPageParams (page_request channelID size page) = Ok (page, size, (page - 1) * size).
Proof.
  intros Hs Hp Hm. unfold postPageParams, page_request.
  change (Params.get_int64 _ "page") with page.
  change (Params.get_int64 _ "page_size") with size.
  rewrite (proj2 (Z.leb_gt page 0)), (proj2 (Z.leb_gt size 0)) by lia. cbn zeta.
  rewrite (proj2 (Z.leb_gt size 0)), (proj2 (Z.ltb_ge 100 size)) by lia.
  rewrite (proj2 (Z.ltb_ge (int64_max / size) page)); [done|].
  apply Z.div_le_lower_bound; lia.
Qed.

(** C32.  Reading a channel page by page is the same as reading its listing: for
    any page size the pages 1..k of [channels.posts.list], put together, are
    the first [k * size] posts of the channel's newest-first listing, each
    enriched for the owner, none twice and none left out, and a page announces
    more exactly when posts remain after it. *)
Theorem posts_pages_are_the_listing `{GoRange} {X}
    (config : ContentConfig (T.tables * Service (ChannelContent.store * X)))
    channelID size k w
    (Hsize : 1 <= size <= 100) (Hrange : Z.of_nat k * size <= int64_max) :
  let l := newest_first w (trim_space channelID) in
  let read i := page_of (ContentFlow.Posts (Some memory_content_store) config
                           (page_request channelID size (Z.of_nat i + 1)) w).2 in
  concat (map (fun i => (read i).1) (seq 0 k)) =
    map (enriched w (co_MXID (ContentFlow.owner config w)))
      (PostsFromRecords (take (k * Z.to_nat size) l)) /\
  (forall i, (i < k)%nat -> (read i).2 = ((Z.of_nat i + 1) * size <? Z.of_nat (length l))).
Proof.
  intros l read.
  assert (Hread : forall i, (i < k)%nat -> read i =
    (map (enriched w (co_MXID (ContentFlow.owner config w)))
       (PostsFromRecords (take (Z.to_nat size) (drop (i * Z.to_nat size) l))),
     (Z.of_nat i + 1) * size <? Z.of_nat (length l))).
  { intros i Hi. unfold read.
    rewrite (Posts_page_memory config _ w (Z.of_nat i + 1) size (Z.of_nat i * size)).
    - cbn [fst snd page_of ContentFlow.page_posts ContentFlow.page_has_more].
      change (Params.get_string _ "channel_id") with (trim_space channelID). fold l.
      by replace (Z.to_nat (Z.of_nat i * size)) with (i * Z.to_nat size)%nat by nia.
    - rewrite page_request_params by nia. f_equal. f_equal. nia.
    - done.
    - done. }
  split; [|intros i Hi; by rewrite Hread].
  rewrite <- (slices_concat l (Z.to_nat size) k).
  unfold PostsFromRecords. rewrite concat_map, concat_map, !map_map. f_equal.
  apply map_ext_in. intros i Hi%in_seq. by rewrite Hread by lia.
Qed.

(** Page requests stay in range: whatever numbers a client sends, a paged
    [channels.posts.list] either rejects the page as too large or answers with
    at most [page_size <= 100] posts; the product [page * page_size] and, when
    more posts follow, the next page fit in [int64], and no slice bound is out
    of range. *)
Theorem post_pages_in_range `{GoRange} {X}
    (config : ContentConfig (T.tables * Service (ChannelContent.store * X))) raw w
    (Hv : has raw "visibility" = false) (Hpaged : has raw "page" || has raw "page_size" = true)
    (Hlen : Z.of_nat (length (ChannelContent.posts (content_of w))) <= int64_max) :
  match ContentFlow.Posts (Some memory_content_store) config raw w with
  | (w', Ok (ContentFlow.RPostsPage p)) =>
      w' = w /\ 1 <= ContentFlow.page_size p <= 100 /\
      Z.of_nat (length (ContentFlow.page_posts p)) <= ContentFlow.page_size p /\
      1 <= ContentFlow.page_number p /\
      ContentFlow.page_number p * ContentFlow.page_size p <= int64_max /\
      ContentFlow.page_next p =
        (if ContentFlow.page_has_more p then Some (ContentFlow.page_number p + 1) else None)
  | (w', Err e) => w' = w /\ e = Api.BadRequest "page is too large"
  | _ => False
  end.
Proof.
  destruct (postPageParams raw) as [[[page size] offset]|e] eqn:Hp.
  - rewrite (Posts_page_memory config raw w page size offset Hp Hv Hpaged).
    pose proof (postPageParams_range raw _ _ _ Hp) as (Hs & Hpg & Ho & Hm).
    cbn [ContentFlow.page_posts ContentFlow.page_size ContentFlow.page_number
         ContentFlow.page_next ContentFlow.page_has_more].
    set (l := newest_first w _). repeat split; try lia.
    { unfold PostsFromRecords. rewrite !length_map, length_take. lia. }
    destruct (Z.ltb_spec (page * size) (Z.of_nat (length l))) as [Hmore|?]; [|done].
    f_equal. apply wrap64_id.
    assert (length l <= length (ChannelContent.posts (content_of w)))%nat.
    { unfold l, newest_first. rewrite (Permutation_length (stable_sort_perm _ _)).
      apply List.filter_length_le. }
    split; unfold int64_min in *; nia.
  - unfold ContentFlow.Posts. rewrite Hv. unfold mbind_ at 1. simpl. rewrite Hpaged.
    unfold ContentFlow.postsOffsetPage, mbind_, reads. rewrite Hp. split; [done|].
    revert Hp. unfold postPageParams. case_match; congruence.
Qed.

(** ** Public posts *)

Section Public.
Context `{GoRange} {X : Type}.
Local Notation world := (T.tables * Service (ChannelContent.store * X))%type.
Implicit Types (w : world).

(** Enrichment without an owner shows counts only. *)
Lemma enriched_public w p :
  CPost.Visibility (enriched w "" p) = CPost.Visibility p /\
  CPost.ChannelID (enriched w "" p) = CPost.ChannelID p /\
  CPost.ReactedByMe (enriched w "" p) = CPost.ReactedByMe p /\
  CPost.FavoritedByMe (enriched w "" p) = CPost.FavoritedByMe p.
Proof using Type. by destruct p. Qed.

Definition public_post (channelID : string) (p : CPost.Post) : Prop :=
  CPost.Visibility p = visibility_public /\ CPost.ChannelID p = channelID /\
  CPost.ReactedByMe p = false /\ CPost.FavoritedByMe p = false.

Lemma visible_record_public channelID r :
  str_eqb (Post.ChannelID r) channelID &&
  str_eqb (Post.Visibility (ChannelContent.normalizeChannelPostRecord r)) visibility_public = true ->
  public_post channelID (postFromRecord r).
Proof using Type.
  intros [Hc Hv]%andb_true_iff. apply bool_decide_eq_true in Hc, Hv.
  assert (Hn : NormalizeChannelPostVisibility (Post.Visibility r) = visibility_public).
  { rewrite <- Hv. unfold ChannelContent.normalizeChannelPostRecord. by case_match. }
  by repeat split.
Qed.

(** What the listing of one channel returns. *)
Lemma PublicPosts_public channelID raw w w' page :
  ContentFlow.PublicPosts (Some memory_content_store) channelID raw w = (w', Ok page) ->
  Forall (public_post (trim_space channelID)) (ContentFlow.page_posts page).
Proof using Type.
  unfold ContentFlow.PublicPosts, ContentFlow.postsByVisibilityPage, mbind_ at 1, reads.
  destruct (postPageParams raw) as [[[pg size] offset]|e] eqn:Hp; [|discriminate].
  pose proof (postPageParams_range raw _ _ _ Hp) as (Hs & Hpg & Ho & _).
  unfold ContentFlow.posts_page, mbind_ at 1, internal. cbn -[stable_sort str_eqb].
  unfold page_or_panic, reads, ChannelContent.ListChannelPostsByVisibilityPage.
  rewrite offset_page_slice by nia. unfold mbind_. rewrite EnrichPosts_memory.
  intros [= <- <-]. cbn [ContentFlow.page_posts]. unfold PostsFromRecords. rewrite map_map.
  apply Forall_map, Forall_take, Forall_drop.
  rewrite stable_sort_perm.
  apply Forall_forall. intros r Hr%list_elem_of_In. apply filter_In in Hr as [_ Hr].
  apply visible_record_public in Hr as (H1 & H2 & H3 & H4).
  destruct (enriched_public w (postFromRecord r)) as (E1 & E2 & E3 & E4).
  repeat split; congruence.
Qed.

Lemma checkedPage_public channelID roomID page page' :
  checkedPage channelID roomID page = Ok page' ->
  Forall (fun p => is_public (CPost.Visibility p) = true) (ContentFlow.page_posts (pp_Page page')).
Proof using Type.
  unfold checkedPage. do 3 (case_match; [discriminate|]).
  match goal with |- context [existsb ?f ?l] => destruct (existsb f l) eqn:He end; [discriminate|].
  intros [= <-]. cbn. apply Forall_forall. intros p Hp%list_elem_of_In.
  apply not_true_iff_false in He. destruct (is_public (CPost.Visibility p)) eqn:Hv; [done|]. exfalso. apply He.
  apply existsb_exists. exists p. by rewrite Hv.
Qed.
End Public.

(** The unauthenticated [channels.public.posts.list] shows public posts
    only: every post it returns, from this node or relayed from another node
    whatever that node answers, is public. *)
Theorem public_listing_is_public `{GoRange} {X} serverName
    (remote : RemotePorts) params (w w' : T.tables * Service (ChannelContent.store * X)) page
    (Hrun : publicChannelPosts serverName remote params w = (w', Ok page)) :
  Forall (fun p => is_public (CPost.Visibility p) = true) (ContentFlow.page_posts (pp_Page page)).
Proof.
  revert Hrun. unfold publicChannelPosts. destruct (str_empty _ && str_empty _); [discriminate|].
  intros Hrun. unfold mbind_ at 1 in Hrun.
  match type of Hrun with context [(if ?b then ?x else ?y) w] =>
    destruct ((if b then x else y) w) as [w1 [[channelID roomID]|e]]; [|discriminate] end.
  match type of Hrun with context [if ?b then remotePublicChannelPosts _ _ _ _ else _] =>
    destruct b end.
  - unfold remotePublicChannelPosts in Hrun. case_match; [|discriminate].
    destruct (remotePublicAction _ _ _ _ _) as [w2 [status [p|e]]];
      [|by repeat case_match].
    case_match; [discriminate|]. injection Hrun as _ Hc. by eapply checkedPage_public.
  - unfold mbind_ in Hrun.
    destruct (find_channel channelID roomID w1) as [w2 [ch|e]]; [|discriminate].
    destruct (local_posts (Chan.ChannelID ch) params w2) as [w3 [p|e]] eqn:Hl; [|discriminate].
    injection Hrun as _ <-. apply PublicPosts_public in Hl. cbn.
    eapply Forall_impl; [exact Hl|]. by intros p0 (-> & _).
Qed.

(** ** Witnesses *)

Module ContentDemo.
Definition post (id visibility : string) (ts : Z) : Post.ChannelPostRecord :=
  {| Post.PostID := id; Post.ChannelID := "c1"; Post.RoomID := "!c1:h"; Post.EventID := "$" +:+ id;
     Post.AuthorMXID := "@me:h"; Post.AuthorName := "Me"; Post.Title := "t"; Post.Body := "b";
     Post.MessageType := "text"; Post.MediaJSON := ""; Post.Visibility := visibility;
     Post.CommentsEnabled := true; Post.CommentsEnabledSet := true; Post.SettingsUpdated := false;
     Post.OriginServerTS := ts; Post.CommentCount := 0 |}.

Definition store : ChannelContent.store :=
  {| ChannelContent.posts := [post "p1" "public" 10; post "p2" "private" 20; post "p3" "public" 30];
     ChannelContent.comments := []; ChannelContent.postSettings := ∅ |}.

Definition channel : Chan.Channel :=
  {| Chan.ChannelID := "c1"; Chan.RoomID := "!c1:h"; Chan.Name := "c"; Chan.Description := "";
     Chan.AvatarURL := ""; Chan.Visibility := "public"; Chan.JoinPolicy := "open";
     Chan.ChannelType := "post"; Chan.CommentsEnabled := true; Chan.Muted := false;
     Chan.MemberCount := 1; Chan.PendingJoinCount := 0; Chan.IsOwned := true;
     Chan.Role := "owner"; Chan.MemberStatus := "join" |}.

Definition member : Member.MemberRecord :=
  {| Member.RoomID := "!c1:h"; Member.ChannelID := "c1"; Member.UserID := "@me:h";
     Member.DisplayName := ""; Member.AvatarURL := ""; Member.Domain := "h";
     Member.Membership := "join"; Member.Role := "owner"; Member.Muted := false;
     Member.JoinedAt := 0; Member.RequesterNodeBaseURL := ""; Member.RequestID := "" |}.

Definition tables : T.tables :=
  MemoryTables.UpsertMember (MemoryTables.UpsertChannel T.NewMemoryStore channel) member.

Definition world : Type := T.tables * Service (ChannelContent.store * nat).

Definition start : world :=
  (tables, {| ownerMXID := "@me:h"; profileName := "Me"; profileAvatar := "";
              matrix := (store, O) |}).

Definition token (prefix : string) (w : world) : world * string := (w, prefix +:+ "1").

(** The service without a Matrix transport. *)
Definition config : ContentConfig world :=
  contentConfig "h" (fun _ => 0) token None None (fun _ => "Agent").

Definition no_remote : @RemotePorts nat := {|
  room_domain := fun _ => None;
  remotePublicAction := fun _ _ _ w => (w, (502, Err (ErrOther "offline"))) |}.
End ContentDemo.
Import ContentDemo.

(** Three posts in pages of one. *)
Lemma posts_pages_are_the_listing_witness :
  let read i := page_of (ContentFlow.Posts (Some memory_content_store) config
                           (page_request "c1" 1 (Z.of_nat i + 1)) start).2 in
  map CPost.PostID (concat (map (fun i => (read i).1) (seq 0 3))) = ["p3"; "p2"; "p1"].
Proof.
  intros read.
  destruct (posts_pages_are_the_listing config "c1" 1 3 start ltac:(lia)
              ltac:(unfold int64_max; lia)) as [Hpages _].
  unfold read. rewrite Hpages. vm_compute. reflexivity.
Defined.

(** The last page a page size of 100 allows. *)
Lemma post_pages_in_range_witness :
  match ContentFlow.Posts (Some memory_content_store) config
          (page_request "c1" 100 (int64_max / 100)) start with
  | (_, Ok (ContentFlow.RPostsPage p)) => ContentFlow.page_next p = None
  | _ => False
  end.
Proof.
  pose proof (post_pages_in_range config (page_request "c1" 100 (int64_max / 100)) start
    eq_refl eq_refl ltac:(vm_compute; discriminate)) as Hp.
  revert Hp. vm_compute. intros (_ & _ & _ & _ & _ & Hn). exact Hn.
Defined.

(** The private post is not among the public ones. *)
Lemma public_listing_is_public_witness :
  exists w' page,
    publicChannelPosts "h" no_remote {["channel_id" := AString "c1"]} start = (w', Ok page) /\
    map CPost.PostID (ContentFlow.page_posts (pp_Page page)) = ["p3"; "p1"] /\
    Forall (fun p => is_public (CPost.Visibility p) = true)
      (ContentFlow.page_posts (pp_Page page)).
Proof.
  eexists _, _. split; [vm_compute; reflexivity|]. split; [reflexivity|].
  eapply (public_listing_is_public "h" no_remote {["channel_id" := AString "c1"]} start).
  vm_compute. reflexivity.
Defined.
