(* ===== verification/ContentReactionFacts.v ===== *)
(** * Facts about reactions on channel content

    What a toggle does to the reaction table, on every branch: a reaction is
    flipped, or withdrawn when its target or its channel is gone. *)

From Stdlib Require Import Ascii String ZArith Lia.
From stdpp Require Import base tactics list gmap strings.
From S2P Require Import Prelude GoStrings Values Domain GoTime Policy Action RoomState.
From S2P Require Import MemoryTables ChannelContent Workflow Prepared.
From S2P Require Import Conversation Blocks Contacts ContactWorkflows Rooms RoomWorkflows.
From S2P Require Import Members MemberWorkflows Content ContentFlow ServiceWiring RoomWiring.
From S2P Require Import ContentWiring ContentFacts.
Local Open Scope Z_scope.
Local Open Scope go_scope.
Import Wiring ContentWiring ContentFlow.

(** ** Calls that only read *)

Section ReadOnly.
Context {W : Type}.

Definition read_only {E A} (m : M W E A) : Prop := forall w, (m w).1 = w.

Lemma read_only_ret {E A} (a : A) : read_only (ret (E:=E) a).
Proof using Type. done. Qed.

Lemma read_only_fail {E A} (e : E) : read_only (fail (A:=A) e).
Proof using Type. done. Qed.

Lemma read_only_reads {E A} (f : W -> result E A) : read_only (reads f).
Proof using Type. done. Qed.

Lemma read_only_bind {E A B} (m : M W E A) (k : A -> M W E B) :
  read_only m -> (forall a, read_only (k a)) -> read_only (mbind_ m k).
Proof using Type.
  intros Hm Hk w. unfold mbind_. specialize (Hm w). destruct (m w) as [w' [a|e]]; simpl in *; subst; [|done].
  apply Hk.
Qed.

Lemma read_only_internal {A} (m : M W goerror A) : read_only m -> read_only (internal m).
Proof using Type. intros Hm w. unfold internal. specialize (Hm w). by destruct (m w) as [w' [a|e]]. Qed.

Lemma read_only_try {E A} (m : M W goerror A) : read_only m -> read_only (try_ (E:=E) m).
Proof using Type. intros Hm w. unfold try_. specialize (Hm w). by destruct (m w) as [w' [a|e]]. Qed.

(** A successful read leaves the world. *)
Lemma read_only_Ok {E A} (m : M W E A) w w' a : read_only m -> m w = (w', Ok a) -> w' = w.
Proof using Type. intros Hm Hw. specialize (Hm w). by rewrite Hw in Hm. Qed.
End ReadOnly.

Create HintDb read_only discriminated.
#[export] Hint Resolve read_only_ret read_only_fail read_only_reads read_only_bind
  read_only_internal read_only_try : read_only.

Ltac reading :=
  repeat match goal with
  | |- read_only (mbind_ _ _) => apply read_only_bind; [|intros ?]
  | |- read_only (internal _) => apply read_only_internal
  | |- read_only (try_ _) => apply read_only_try
  | |- read_only (ret _) => apply read_only_ret
  | |- read_only (fail _) => apply read_only_fail
  | |- read_only (reads _) => apply read_only_reads
  | |- read_only (ContentFlow.asks _) => apply read_only_reads
  | |- read_only (RoomWorkflows.asks _) => apply read_only_reads
  | |- read_only (cs_GetChannelPostByID _ _ _) => apply read_only_reads
  | |- read_only (cs_GetChannelCommentByID _ _ _) => apply read_only_reads
  | |- read_only (cs_GetReaction _ _ _ _ _) => apply read_only_reads
  | |- read_only (cc_ByIDOrRoom _ _ _) => apply read_only_reads
  | |- read_only (match ?x with _ => _ end) => destruct x
  end.

(** The result of a bind whose first step only reads. *)
Lemma bind_reading {W E A B} (m : M W E A) (k : A -> M W E B) w w' b :
  read_only m -> mbind_ m k w = (w', Ok b) ->
  exists a, m w = (w, Ok a) /\ k a w = (w', Ok b).
Proof.
  intros Hm (w1 & a & H1 & H2)%mbind_Ok. pose proof (read_only_Ok m w w1 a Hm H1) as ->. eauto.
Qed.

Section Toggle.
Context `{GoRange} {X : Type}.
Local Notation world := (T.tables * Service (ChannelContent.store * X))%type.
Context (serverName : string) (now : world -> Z).
Context (randomToken : string -> world -> world * string).
Context (transport : option (MatrixContentPort world)).
Context (preparedMatrixStore : option (PreparedStore world)) (agentDisplayName : world -> string).
Implicit Types (w : world).

Notation config := (contentConfig serverName now randomToken transport preparedMatrixStore
                      agentDisplayName).
Notation toggle := (ToggleReaction (Some memory_content_store) (Some (content_catalog now)) None
                      (Some content_conversation) config).

(** Every reaction is stored under its own key. *)
Definition reactions_keyed (m : gmap string Reaction.ReactionRecord) : Prop :=
  forall k r, m !! k = Some r ->
    k = MemoryTables.memoryReactionKey (Reaction.TargetType r) (Reaction.TargetID r)
          (Reaction.Reaction r) (Reaction.UserID r).

Lemma post_target_reads existing targetID roomID channelID commentID :
  read_only (post_target (Some memory_content_store) (Some (content_catalog now)) existing
    targetID roomID channelID commentID).
Proof using Type. unfold post_target, missing_post_target, PostByID, with_store. reading. Qed.

Lemma comment_target_reads targetID roomID channelID postID :
  read_only (comment_target (Some memory_content_store) (Some (content_catalog now))
    targetID roomID channelID postID).
Proof using Type.
  unfold comment_target, CommentByID, RoomIDForComment, PostByID, with_store, room_of_channel.
  reading.
Qed.

(** A target is present unless its post is gone. *)
Lemma post_target_present existing targetID roomID channelID commentID w w' t :
  post_target (Some memory_content_store) (Some (content_catalog now)) existing targetID roomID
    channelID commentID w = (w', Ok t) ->
  tt_missingPost t =
    negb (bool_decide (is_Some
      (ChannelContent.GetChannelPostByID (content_of w) targetID channelID))) /\
  (tt_missingPost t = true -> is_Some existing).
Proof using Type.
  unfold post_target, PostByID, with_store, mbind_ at 1, internal. cbn.
  destruct (ChannelContent.GetChannelPostByID _ _ _); cbn; [by intros [= <- <-]|].
  unfold missing_post_target. destruct existing as [r|]; [|discriminate].
  case_match; [discriminate|]. unfold mbind_, internal. cbn.
  destruct (Channels.ByIDOrRoom _ _ _); [|discriminate]. by intros [= <- <-].
Qed.

Lemma comment_target_present targetID roomID channelID postID w w' t :
  comment_target (Some memory_content_store) (Some (content_catalog now)) targetID roomID
    channelID postID w = (w', Ok t) ->
  tt_missingPost t = false.
Proof using Type.
  unfold comment_target. intros (c & _ & Hrun)%bind_reading;
    [|unfold CommentByID, with_store; by reading].
  destruct c as [c|]; [|discriminate].
  apply mbind_Ok in Hrun as (w1 & room & _ & Hrun). by injection Hrun as _ <-.
Qed.

(** The state of one reaction: no row is an inactive reaction. *)
Definition reaction_active (t : T.tables) (targetType targetID reaction user : string) : bool :=
  match MemoryTables.GetReaction t targetType targetID reaction user with
  | Some r => Reaction.Active r
  | None => false
  end.

Context (Htransport : forall t request w, transport = Some t ->
  (mp_SendMessage t request w).1.1 = w.1).

Lemma send_reaction_tables withdraw userID reaction active t w w' e :
  send_reaction None config withdraw userID reaction active t w = (w', Ok e) -> w'.1 = w.1.
Proof using Htransport.
  unfold send_reaction. intros (p & Hp & Hrun)%bind_reading; [|by reading].
  injection Hp as <-. unfold matrixPort in Hrun. cbn in Hrun.
  destruct transport as [tr|] eqn:Htr; [|by injection Hrun as <-].
  case_match; [by injection Hrun as <-|].
  apply bind_reading in Hrun as (n & _ & Hrun); [|by reading].
  apply mbind_Ok in Hrun as (w1 & res & Hs & [= <- _]).
  unfold transported in Hs. pose proof (Htransport tr) as Ht.
  match type of Hs with context [mp_SendMessage tr ?req w] => specialize (Ht req w eq_refl) end.
  destruct (mp_SendMessage tr _ w) as [w2 [?|?]]; [|discriminate]. by injection Hs as <-.
Qed.

(** The key of the record a toggle writes. *)
Lemma toggled_key existing withdraw targetType targetID reaction userID createdAt t e :
  (forall r, existing = Some r ->
     MemoryTables.memoryReactionKey targetType targetID reaction userID =
     MemoryTables.memoryReactionKey (Reaction.TargetType r) (Reaction.TargetID r)
       (Reaction.Reaction r) (Reaction.UserID r)) ->
  let r := toggled existing withdraw targetType targetID reaction userID createdAt t in
  let r := if tt_missingPost t then r else set_event e r in
  MemoryTables.memoryReactionKey (Reaction.TargetType r) (Reaction.TargetID r)
    (Reaction.Reaction r) (Reaction.UserID r) =
  MemoryTables.memoryReactionKey targetType targetID reaction userID.
Proof using Type.
  intros Hex. destruct existing as [r|]; cbn; destruct (tt_missingPost t); cbn; try done;
    symmetry; by apply Hex.
Qed.

Lemma toggled_active existing withdraw targetType targetID reaction userID createdAt t e :
  let r := toggled existing withdraw targetType targetID reaction userID createdAt t in
  Reaction.Active (if tt_missingPost t then r else set_event e r) =
  match existing with
  | Some r => if withdraw then false else negb (Reaction.Active r)
  | None => true
  end.
Proof using Type. by destruct existing, (tt_missingPost t). Qed.
End Toggle.

Section ToggleEffect.
Context `{GoRange} {X : Type}.
Local Notation world := (T.tables * Service (ChannelContent.store * X))%type.
Context (serverName : string) (now : world -> Z).
Context (randomToken : string -> world -> world * string).
Context (transport : option (MatrixContentPort world)).
Context (preparedMatrixStore : option (PreparedStore world)) (agentDisplayName : world -> string).

(** [channels.post_reaction.toggle] and its sibling in the service. *)
Definition service_toggle (action : string) (raw : content) : M world Api.Error reply :=
  ToggleReaction (Some memory_content_store) (Some (content_catalog now)) None
    (Some content_conversation)
    (contentConfig serverName now randomToken transport preparedMatrixStore agentDisplayName)
    action raw.

Definition toggle_type (action : string) : string :=
  if str_eqb action actionCommentReaction then "comment" else "post".
Definition toggle_id (action : string) (raw : content) : string :=
  Params.get_string raw (if str_eqb action actionCommentReaction then "comment_id" else "post_id").
Definition toggle_name (raw : content) : string :=
  room_fallback (Params.get_string raw "reaction") "like".

(** A comment that a toggle finds is there; a post may be gone. *)
Definition target_present (w : world) (action : string) (raw : content) : bool :=
  str_eqb action actionCommentReaction ||
  bool_decide (is_Some (ChannelContent.GetChannelPostByID (content_of w)
    (toggle_id action raw) (Params.get_string raw "channel_id"))).

(** The reply carries the state and the count. *)
Definition toggle_reply (r : reply) (active : bool) (count : Z) : Prop :=
  exists m, r = RMap m /\ m !! "active" = Some (Conversation.EValue (ABool active)) /\
            m !! "reaction_count" = Some (Conversation.EValue (AInt64 count)).

Lemma AttachOperation_keeps (w : world) reply0 action status roomID reply1 key :
  key <> "operation" -> key <> "conversation" ->
  Conversation.AttachOperation serviceConversationHydrator w reply0 action status roomID =
    Ok reply1 ->
  reply1 !! key = (reply0 : gmap string Conversation.entry) !! key.
Proof using Type.
  intros H1 H2. unfold Conversation.AttachOperation, rbind.
  destruct (Conversation.Operation _ _ _ _ _) as [[op view]|e]; [|discriminate].
  intros [= <-]. destruct view; by rewrite ?lookup_insert_ne.
Qed.
Context (Htransport : forall t request w, transport = Some t ->
  (mp_SendMessage t request w).1.1 = w.1).

Definition existing_reaction (w : world) (action : string) (raw : content)
    : option Reaction.ReactionRecord :=
  MemoryTables.GetReaction w.1 (toggle_type action) (toggle_id action raw) (toggle_name raw)
    (ownerMXID w.2).

(** The record a toggle stores for a target. *)
Definition stored_reaction (w : world) (action : string) (raw : content) (t : toggle_target)
    (orphan : bool) (createdAt e : string) : Reaction.ReactionRecord :=
  let r := toggled (existing_reaction w action raw) (tt_missingPost t || orphan)
             (toggle_type action) (toggle_id action raw) (toggle_name raw) (ownerMXID w.2)
             createdAt t in
  if tt_missingPost t then r else set_event e r.

(** What is known of the target once it is found. *)
Lemma target_found w action raw t w' :
  (if str_eqb action actionCommentReaction
   then comment_target (Some memory_content_store) (Some (content_catalog now))
          (toggle_id action raw) (Params.get_string raw "room_id")
          (Params.get_string raw "channel_id") (Params.get_string raw "post_id")
   else post_target (Some memory_content_store) (Some (content_catalog now))
          (existing_reaction w action raw) (toggle_id action raw)
          (Params.get_string raw "room_id") (Params.get_string raw "channel_id")
          (Params.get_string raw "comment_id")) w = (w', Ok t) ->
  negb (tt_missingPost t) = target_present w action raw /\
  (tt_missingPost t = true -> is_Some (existing_reaction w action raw)).
Proof using Type.
  unfold target_present. destruct (str_eqb action actionCommentReaction); intros Ht.
  - by rewrite (comment_target_present _ _ _ _ _ _ _ _ Ht).
  - destruct (post_target_present _ _ _ _ _ _ _ _ _ Ht) as [-> Hsome].
    by rewrite negb_involutive.
Qed.

(** A successful toggle writes one record, and replies with it. *)
Lemma service_toggle_inv action raw w w' r :
  service_toggle action raw w = (w', Ok r) ->
  exists t orphan createdAt e w1 m,
    let r1 := stored_reaction w action raw t orphan createdAt e in
    negb (tt_missingPost t) = target_present w action raw /\
    (tt_missingPost t = true -> is_Some (existing_reaction w action raw)) /\
    (orphan = true -> match existing_reaction w action raw with
                      | Some r => Reaction.Active r | None => false end = true) /\
    w1.1 = w.1 /\ w' = (MemoryTables.UpsertReaction w1.1 r1, w1.2) /\ r = RMap m /\
    m !! "active" = Some (Conversation.EValue (ABool (Reaction.Active r1))) /\
    m !! "reaction_count" = Some (Conversation.EValue (AInt64
      (MemoryTables.CountActiveReactions w'.1 (toggle_type action) (toggle_id action raw)
         (toggle_name raw)))).
Proof using Htransport.
  unfold service_toggle, ToggleReaction. fold (toggle_type action). fold (toggle_name raw).
  replace (if str_eqb action actionCommentReaction then Params.get_string raw "comment_id"
           else Params.get_string raw "post_id") with (toggle_id action raw)
    by (unfold toggle_id; by destruct (str_eqb action actionCommentReaction)).
  destruct (str_empty _); [discriminate|].
  intros (user & [= <-] & Hrun)%bind_reading; [|by reading].
  apply bind_reading in Hrun as (existing & Hex & Hrun); [|by reading].
  apply internal_Ok in Hex. injection Hex as Hex.
  change (existing_reaction w action raw = existing) in Hex. subst existing.
  apply bind_reading in Hrun as (t & Ht & Hrun);
    [|destruct (str_eqb action _); [apply comment_target_reads|apply post_target_reads]].
  apply target_found in Ht as [Hpresent Hsome].
  apply bind_reading in Hrun as (orphan & Horphan & Hrun); [|unfold channelDeleted; by reading].
  apply bind_reading in Hrun as ([] & _ & Hrun);
    [|unfold requireJoined; destruct orphan; [by reading|]; cbn; by reading].
  apply bind_reading in Hrun as (createdAt & _ & Hrun); [|by reading].
  apply mbind_Ok in Hrun as (w1 & e & Hsend & Hrun).
  apply send_reaction_tables in Hsend; [|done].
  apply mbind_Ok in Hrun as (w2 & [] & Hup & Hrun). apply internal_Ok in Hup.
  injection Hup as <-.
  apply bind_reading in Hrun as (count & Hcount & Hrun); [|by apply read_only_internal].
  apply internal_Ok in Hcount. injection Hcount as <-.
  apply bind_reading in Hrun as (m & Hm & Hrun); [|by apply read_only_internal].
  apply internal_Ok in Hm. injection Hm as Hm. injection Hrun as <- <-.
  exists t, orphan, createdAt, e, w1, m. repeat split; try done.
  - intros ->. destruct (match existing_reaction w action raw with Some _ => _ | None => _ end);
      [done|discriminate].
  - by rewrite (AttachOperation_keeps _ _ _ _ _ _ "active") by (exact Hm || done).
  - by rewrite (AttachOperation_keeps _ _ _ _ _ _ "reaction_count") by (exact Hm || done).
Qed.

(** It is active when the reaction was not and the target is there. *)
Lemma stored_reaction_active w action raw t orphan createdAt e :
  negb (tt_missingPost t) = target_present w action raw ->
  (tt_missingPost t = true -> is_Some (existing_reaction w action raw)) ->
  (orphan = true -> match existing_reaction w action raw with
                    | Some r => Reaction.Active r | None => false end = true) ->
  Reaction.Active (stored_reaction w action raw t orphan createdAt e) =
  negb (reaction_active w.1 (toggle_type action) (toggle_id action raw) (toggle_name raw)
          (ownerMXID w.2)) && target_present w action raw.
Proof using Type.
  intros <- Hsome Horphan. unfold stored_reaction. rewrite toggled_active. unfold reaction_active.
  fold (existing_reaction w action raw).
  destruct (existing_reaction w action raw) as [r|].
  - destruct (tt_missingPost t); simpl; [by rewrite andb_false_r|].
    destruct orphan; simpl; [by rewrite Horphan|by rewrite andb_true_r].
  - destruct (tt_missingPost t); [by destruct (Hsome eq_refl)|done].
Qed.

Lemma stored_reaction_key w action raw t orphan createdAt e :
  reactions_keyed (T.reactions w.1) ->
  let r := stored_reaction w action raw t orphan createdAt e in
  MemoryTables.memoryReactionKey (Reaction.TargetType r) (Reaction.TargetID r)
    (Reaction.Reaction r) (Reaction.UserID r) =
  MemoryTables.memoryReactionKey (toggle_type action) (toggle_id action raw) (toggle_name raw)
    (ownerMXID w.2).
Proof using Type. intros Hkeyed. apply toggled_key. intros r Hr. by apply Hkeyed in Hr. Qed.
End ToggleEffect.

(** What a reaction toggle does, on every successful path: the owner's
    reaction on the target becomes active exactly when it was not active and
    its post still exists (a reaction on a deleted post, and an active one in
    a dissolved channel, can only be withdrawn); no other reaction changes; the
    rows stay under their keys; and the reply states the new state and the new
    number of active reactions. *)
Theorem toggle_reaction_effect `{GoRange} {X} serverName now randomToken
    (transport : option (MatrixContentPort (T.tables * Service (ChannelContent.store * X))))
    prepared agentName
    (Htransport : forall t request w, transport = Some t ->
       (mp_SendMessage t request w).1.1 = w.1)
    action raw w w' r
    (Hkeyed : reactions_keyed (T.reactions w.1))
    (Hrun : service_toggle serverName now randomToken transport prepared agentName action raw w
            = (w', Ok r)) :
  let type_ := toggle_type action in let id := toggle_id action raw in
  let name := toggle_name raw in let user := ownerMXID w.2 in
  let active := negb (reaction_active w.1 type_ id name user) && target_present w action raw in
  reactions_keyed (T.reactions w'.1) /\
  reaction_active w'.1 type_ id name user = active /\
  (forall key, key <> MemoryTables.memoryReactionKey type_ id name user ->
     T.reactions w'.1 !! key = T.reactions w.1 !! key) /\
  toggle_reply r active (MemoryTables.CountActiveReactions w'.1 type_ id name).
Proof.
  intros type_ id name user active.
  apply service_toggle_inv in Hrun; [|done].
  destruct Hrun as (t & orphan & at_ & e & w1 & m & Hp & Hs & Ho & Hw & -> & -> & Hma & Hmc).
  set (r1 := stored_reaction w action raw t orphan at_ e) in *.
  assert (Hactive : Reaction.Active r1 = active) by by apply stored_reaction_active.
  set (key := MemoryTables.memoryReactionKey type_ id name user).
  assert (Hreactions : T.reactions (MemoryTables.UpsertReaction w1.1 r1) =
                       <[key := r1]> (T.reactions w.1)).
  { unfold MemoryTables.UpsertReaction. cbn. unfold r1. by rewrite stored_reaction_key, Hw. }
  repeat split; cbn [fst].
  - rewrite Hreactions. intros k r [[<- <-]|[Hne Hr]]%lookup_insert_Some; [|by apply Hkeyed].
    unfold r1. by rewrite stored_reaction_key.
  - unfold reaction_active, MemoryTables.GetReaction. fold key.
    by rewrite Hreactions, lookup_insert_eq.
  - intros k Hk. rewrite Hreactions. by rewrite lookup_insert_ne.
  - exists m. rewrite <- Hactive. by repeat split.
Qed.

Import ContentDemo.

(** A first like, without a transport. *)
Lemma toggle_reaction_effect_witness :
  let r := service_toggle "h" (fun _ => 0) token None None (fun _ => "Agent")
             actionPostReaction {["post_id" := AString "p1"]} start in
  reaction_active r.1.1 "post" "p1" "like" "@me:h" = true.
Proof.
  intros r.
  assert (Hr : exists m, r = (r.1, Ok (RMap m))) by (eexists; vm_compute; reflexivity).
  destruct Hr as [m Hr].
  assert (Hk : reactions_keyed (T.reactions (start : world).1)) by (intros k r0; vm_compute; done).
  destruct (toggle_reaction_effect "h" (fun _ => 0) token None None (fun _ => "Agent")
    ltac:(discriminate) actionPostReaction {["post_id" := AString "p1"]} start r.1 (RMap m) Hk Hr)
    as (_ & Ha & _).
  etransitivity; [exact Ha|]. vm_compute. reflexivity.
Defined.
