(* ===== verification/ContentCommentFacts.v ===== *)
(** * Facts about channel comments and posts

    A retried agent comment is one comment; who may comment and as whom; the
    echo of a settings event; recall in a dissolved channel. *)

From Stdlib Require Import Ascii String ZArith Lia.
From stdpp Require Import base tactics list gmap strings.
From S2P Require Import Prelude GoStrings Values Domain GoTime Policy Action RoomState.
From S2P Require Import MemoryTables ChannelContent ChannelContentFacts Workflow Prepared PreparedFacts.
From S2P Require Import Conversation Blocks Contacts ContactWorkflows Rooms RoomWorkflows.
From S2P Require Import Members MemberWorkflows Content ContentFlow ServiceWiring RoomWiring.
From S2P Require Import ContentWiring ContentFacts ContentReactionFacts.
Local Open Scope Z_scope.
Local Open Scope go_scope.
Import Wiring ContentWiring ContentFlow.

(** ** One comment per operation *)

Section Retry.
Context `{GoRange} `{GoText} {W : Type}.
Context (staged : W -> string -> PreparedMessage -> Prop).
Context (steady : relation W) `{Hpre : !PreOrder steady}.
Context (Hmono : forall w w' op m, steady w w' -> staged w op m -> staged w' op m).
Notation steadily := (steadily steady).
Local Notation steadily_bind := (PreparedFacts.steadily_bind steady).
Local Notation steadily_fail := (PreparedFacts.steadily_fail steady).
Local Notation steadily_ret := (PreparedFacts.steadily_ret steady).

(** A call that stages and submits nothing. *)
Definition uninvolved {E A} (m : M W E A) : Prop := steadily m always any_result.

Lemma uninvolved_reads {E A} (f : W -> result E A) : uninvolved (reads f).
Proof using Hpre. intros w _. split; [reflexivity|done]. Qed.

Lemma uninvolved_ret {E A} (a : A) : uninvolved (ret (E:=E) a).
Proof using Hpre. apply uninvolved_reads. Qed.

Lemma uninvolved_fail {E A} (e : E) : uninvolved (fail (A:=A) e).
Proof using Hpre. apply uninvolved_reads. Qed.

Lemma uninvolved_then {E A B} (m : M W E A) (k : A -> M W E B) R :
  uninvolved m -> (forall a, steadily (k a) always R) -> steadily (mbind_ m k) always R.
Proof using Hpre.
  intros Hm Hk. eapply steadily_bind; [exact Hm|]. intros a.
  eapply steadily_weaken; [apply Hk|intros ? _; exact I|done].
Qed.

Lemma steadily_pure {E A} (m : M W E A) (phi : Prop) Q :
  (phi -> steadily m always Q) -> steadily m (fun _ => phi) Q.
Proof using Hpre. intros Hm w Hphi. by apply (Hm Hphi). Qed.

(** A fact about the result that the world does not matter for. *)
Lemma pure_then {E A B} (m : M W E A) (k : A -> M W E B) (phi : A -> Prop) R :
  steadily m always (fun a _ => phi a) -> (forall a, phi a -> steadily (k a) always R) ->
  steadily (mbind_ m k) always R.
Proof using Hpre.
  intros Hm Hk. eapply steadily_bind; [exact Hm|]. intros a.
  apply (steadily_pure (k a) (phi a)), Hk.
Qed.

Lemma steadily_internal {A} (m : M W goerror A) P Q :
  steadily m P Q -> steadily (internal m) P Q.
Proof using Hpre.
  intros Hm w Hw. unfold internal. specialize (Hm w Hw).
  destruct (m w) as [w' [a|e]]; simpl in *; (split; [apply Hm|]); [|discriminate].
  intros ? [= <-]. by apply Hm.
Qed.

(** Mapping the error does not matter. *)
Lemma steadily_transported config {A} (m : M W goerror A) P Q :
  steadily m P Q -> steadily (ContentFlow.transported config m) P Q.
Proof using Hpre.
  intros Hm w Hw. unfold ContentFlow.transported. specialize (Hm w Hw).
  destruct (m w) as [w' [a|e]]; simpl in *; (split; [apply Hm|]); [|discriminate].
  intros ? [= <-]. by apply Hm.
Qed.

Context (store : ContentStore W) (channels : option (ChannelCatalog W)).
Context (matrix_ : option (MatrixContentPort W)).
Context (conversation : option (ContentConversationPort W)) (config : ContentConfig W).
(** The port sees the operation in [ctx]. *)
Context (prepared : PreparedStore W) (operation : CapabilityOperationContext).

(** Everything the module calls around the prepared write leaves staged and
    submitted PDUs alone; the prepared write itself keeps its promises. *)
Record comment_ports : Prop := {
  cp_post : forall a b, uninvolved (cs_GetChannelPostByID store a b);
  cp_insert : forall c, uninvolved (cs_InsertChannelComment store c);
  cp_get : forall a b, uninvolved (cs_GetChannelCommentByID store a b);
  cp_catalog : forall c a b, channels = Some c -> uninvolved (cc_ByIDOrRoom c a b);
  cp_operation : forall c a b d, conversation = Some c -> uninvolved (cv_Operation c a b d);
  cp_joined : forall f a, cf_RequireJoined config = Some f -> uninvolved (f a);
  cp_token : forall f p w, cf_NewToken config = Some f -> steady w (f p w).1;
  cp_prepared : cf_PreparedMatrixStore config = Some prepared;
  cp_store : steady_store staged steady prepared;
  cp_port : forall w m p, matrixPort matrix_ config w = Some m -> mp_prepared m = Some p ->
    steady_port staged steady (co_OperationID operation) p;
}.
Context (Hports : comment_ports).

Lemma token_uninvolved {E} prefix : uninvolved (token (E:=E) config prefix).
Proof using Hpre Hmono Hports.
  unfold token. destruct (cf_NewToken config) as [f|] eqn:Hf; [|apply uninvolved_reads].
  intros w _. pose proof (cp_token Hports f prefix w Hf). by destruct (f prefix w).
Qed.

Lemma roomIDForChannel_uninvolved channelID roomID :
  uninvolved (roomIDForChannel channels channelID roomID).
Proof using Hpre Hmono Hports.
  unfold roomIDForChannel. case_match; [apply uninvolved_ret|]. case_match; [apply uninvolved_ret|].
  destruct channels as [c|] eqn:Hc; [|apply uninvolved_fail].
  apply uninvolved_then; [by apply steadily_internal, (cp_catalog Hports)|].
  intros a. apply uninvolved_ret.
Qed.

Lemma PostByID_uninvolved postID channelID : uninvolved (PostByID (Some store) postID channelID).
Proof using Hpre Hmono Hports.
  apply uninvolved_then; [apply (cp_post Hports)|]. intros a. apply uninvolved_ret.
Qed.

Lemma requireJoined_uninvolved roomID : uninvolved (requireJoined config roomID).
Proof using Hpre Hmono Hports.
  unfold requireJoined. destruct (cf_RequireJoined config) eqn:Hf; [|apply uninvolved_ret].
  case_match; [apply uninvolved_ret|by apply (cp_joined Hports)].
Qed.

(** A comment that carries the event staged for the operation. *)
Definition carries (op : string) (c : CComment.Comment) (w : W) : Prop :=
  exists m, staged w op m /\ CComment.EventID c = pm_EventID m.

Lemma carries_stable op c : stable steady (carries op c).
Proof using Hpre Hmono.
  intros w w' Hs (m & Hm & He). exists m. split; [|done].
  by eapply Hmono.
Qed.

Lemma insert_comment_carries op comment :
  steadily (insert_comment (Some store) comment) (carries op comment) (carries op).
Proof using Hpre Hmono Hports.
  intros w Hw. unfold insert_comment. simpl.
  destruct (cp_insert Hports (commentRecord comment) w I) as [Hs1 _].
  destruct (cs_InsertChannelComment store _ w) as [w1 [[]|e]]; simpl in *.
  - split; [done|]. intros a [= <-]. by apply (carries_stable op comment w w1).
  - destruct (cp_get Hports (CComment.CommentID comment) (CComment.ChannelID comment) w1 I) as [Hs2 _].
    assert (Hs : steady w
      (cs_GetChannelCommentByID store (CComment.CommentID comment) (CComment.ChannelID comment) w1).1)
      by by etrans.
    destruct (cs_GetChannelCommentByID store _ _ w1) as [w2 [[existing|]|e']]; simpl in *;
      try (split; [done|discriminate]).
    destruct (str_eqb _ _) eqn:He; (split; [done|]); [|discriminate].
    apply bool_decide_eq_true in He. intros a [= <-].
    destruct (carries_stable op comment w w2 Hs Hw) as (m & Hm & Hme).
    exists m. split; [done|]. cbn. congruence.
Qed.

Lemma attach_carries op comment action status roomID :
  steadily (attachCommentOperation conversation comment action status roomID)
    (carries op comment) (carries op).
Proof using Hpre Hmono Hports.
  unfold attachCommentOperation, operation_of. destruct conversation as [c|] eqn:Hc.
  - intros w Hw. unfold mbind_.
    destruct (cp_operation Hports c action status roomID Hc w I) as [Hs _].
    destruct (cv_Operation c _ _ _ w) as [w1 [[map_ view]|e]]; simpl in *;
      [|split; [done|discriminate]].
    split; [done|]. intros a [= <-].
    destruct (carries_stable op comment w w1 Hs Hw) as (m & Hm & Hme). by exists m.
  - intros w Hw. split; [reflexivity|discriminate].
Qed.

(** The prepared write of a comment. *)
Lemma send_comment_receipt (w0 : W) matrix request :
  matrixPort matrix_ config w0 = Some matrix ->
  steadily (send_comment config (Some operation) matrix request) always
    (receipt_staged staged operation).
Proof using Hpre Hmono Hports.
  intros Hm. unfold send_comment. rewrite (cp_prepared Hports).
  destruct (mp_prepared matrix) as [p|] eqn:Hp; [|apply steadily_fail].
  pose proof (execute_prepared_steadily staged steady Hmono p prepared operation
    "product.channel_comments.v1" "create" (cp_port Hports w0 matrix p Hm Hp)
    (cp_store Hports) request) as Hx.
  intros w Hw. unfold prepared_errors. cbn [ExecutePreparedMatrixMutation].
  specialize (Hx w Hw). destruct (execute_prepared _ _ _ _ _ _ w) as [w' [a|e]]; simpl in *;
    (split; [apply Hx|]); [|discriminate].
  intros ? [= <-]. by apply Hx.
Qed.

(** The room a request names is the room of the comment. *)
Lemma requested_room raw channelID other :
  Params.get_string raw "room_id" <> "" ->
  roomIDForChannel (W:=W) channels channelID
    (room_fallback (Params.get_string raw "room_id") other) =
  ret (Params.get_string raw "room_id").
Proof using Hpre Hmono.
  set (r := Params.get_string raw "room_id"). intros Hne.
  assert (Ht : trim_space r = r) by apply get_string_trimmed.
  assert (He : str_empty r = false) by by apply bool_decide_eq_false_2.
  unfold roomIDForChannel, room_fallback. by rewrite Ht, He, Ht, He.
Qed.

Lemma comment_carries raw :
  operation_complete operation = true -> Params.get_string raw "room_id" <> "" ->
  (forall w, is_Some (matrixPort matrix_ config w)) ->
  steadily (CreateComment (Some store) channels matrix_ conversation config (Some operation) raw)
    always (fun r w => exists c, r = RComment c /\ carries (co_OperationID operation) c w).
Proof using Hpre Hmono Hports.
  intros Hop Hroom Hmatrix. unfold CreateComment, CapabilityOperationContextFrom. rewrite Hop.
  apply uninvolved_then; [apply uninvolved_reads|]. intros now_.
  apply uninvolved_then; [apply token_uninvolved|]. intros t.
  apply uninvolved_then; [apply uninvolved_reads|]. intros owner_.
  case_match; [apply steadily_fail|].
  apply uninvolved_then; [apply steadily_internal, PostByID_uninvolved|]. intros [post|];
    [|apply steadily_fail].
  case_match; [apply steadily_fail|]. case_match; [|apply steadily_fail]. destruct p as [json media].
  apply uninvolved_then; [apply uninvolved_reads|]. intros mentions.
  apply uninvolved_then; [apply uninvolved_reads|]. intros author.
  rewrite requested_room by done.
  apply (pure_then _ _ (fun room => room = Params.get_string raw "room_id"));
    [by apply steadily_ret|]. intros room ->.
  apply uninvolved_then; [apply requireJoined_uninvolved|]. intros [].
  apply (pure_then _ _ (fun m => exists w, matrixPort matrix_ config w = m)).
  { intros w _. split; [reflexivity|]. intros m [= <-]. by exists w. }
  intros m [w0 Hm]. destruct (Hmatrix w0) as [port Hport]. rewrite Hport in Hm. subst m.
  cbn [sent_or]. unfold str_empty. rewrite bool_decide_eq_false_2 by done.
  eapply steadily_bind; [by apply steadily_transported, (send_comment_receipt w0)|].
  intros receipt. eapply steadily_bind with (Q := fun c w => carries (co_OperationID operation) c w).
  { apply steadily_internal. eapply steadily_weaken; [apply insert_comment_carries| |done].
    intros w (msg & Hmsg & He). by exists msg. }
  intros comment. eapply steadily_bind; [apply steadily_internal, attach_carries|].
  intros c. apply steadily_ret. intros w Hc. by exists c.
Qed.
End Retry.

(** A retried agent comment is one comment: under one capability operation,
    any two successful [channels.comments.create] calls, with whatever bodies
    and however far apart, as long as everything in between leaves the staged
    PDUs in place, return comments that carry the same Matrix event. *)
Theorem agent_comment_is_one_comment `{GoRange} `{GoText} {W : Type}
    (staged : W -> string -> PreparedMessage -> Prop)
    (steady : relation W) (Hpre : PreOrder steady)
    (Hmono : forall w w' op m, steady w w' -> staged w op m -> staged w' op m)
    (Hunique : forall w op m m', staged w op m -> staged w op m' -> m = m')
    store channels matrix_ conversation config prepared operation
    (Hports : comment_ports staged steady store channels matrix_ conversation config prepared
                operation)
    (Hoperation : operation_complete operation = true)
    (Hmatrix : forall w, is_Some (matrixPort matrix_ config w))
    raw1 raw2 w1 w2 w3 w4 c1 c2
    (Hroom1 : Params.get_string raw1 "room_id" <> "")
    (Hroom2 : Params.get_string raw2 "room_id" <> "")
    (Hrun1 : CreateComment (Some store) channels matrix_ conversation config (Some operation) raw1
               w1 = (w2, Ok (RComment c1)))
    (Hbetween : steady w2 w3)
    (Hrun2 : CreateComment (Some store) channels matrix_ conversation config (Some operation) raw2
               w3 = (w4, Ok (RComment c2))) :
  CComment.EventID c1 = CComment.EventID c2.
Proof.
  pose proof (comment_carries _ _ Hmono _ _ _ _ _ _ _ Hports raw1 Hoperation Hroom1 Hmatrix w1 I)
    as [_ Hc1].
  pose proof (comment_carries _ _ Hmono _ _ _ _ _ _ _ Hports raw2 Hoperation Hroom2 Hmatrix w3 I)
    as [Hs2 Hc2].
  rewrite Hrun1 in Hc1. rewrite Hrun2 in Hs2, Hc2. simpl in *.
  destruct (Hc1 _ eq_refl) as (? & [= <-] & m1 & Hm1 & ->).
  destruct (Hc2 _ eq_refl) as (? & [= <-] & m2 & Hm2 & ->).
  f_equal. apply (Hunique w4 (co_OperationID operation)); [|done].
  eapply Hmono; [exact Hs2|]. by eapply Hmono.
Qed.

(** A store that has one post and accepts every comment, a port whose first
    submission is reported as failed. *)
Module RetryDemo.
Export PreparedFacts.Demo.
Definition store : ContentStore Demo.world := {|
  cs_InsertChannelPost _ := ret tt;
  cs_ApplyChannelPostSettings _ := ret tt;
  cs_GetChannelPostByID _ _ := ret (Some (ContentDemo.post "p1" "public" 10));
  cs_GetChannelPostByEventID _ _ := ret None;
  cs_ListChannelPosts _ := ret [];
  cs_ListChannelPostsPage _ _ _ _ _ _ := ret ([], false);
  cs_ListChannelPostsOffsetPage _ _ _ := ret ([], false);
  cs_ListChannelPostsByVisibilityPage _ _ _ _ := ret ([], false);
  cs_InsertChannelComment _ := ret tt;
  cs_GetChannelCommentByID _ _ := ret None;
  cs_GetChannelCommentByEventID _ _ := ret None;
  cs_ListChannelComments _ := ret [];
  cs_ListChannelCommentsPage _ _ _ _ _ _ := ret ([], false);
  cs_DeleteChannelPost _ := ret false;
  cs_DeleteChannelComment _ := ret false;
  cs_UpsertReaction _ := ret tt;
  cs_GetReaction _ _ _ _ := ret None;
  cs_DeactivateReactionByEventID _ := ret false;
  cs_CountActiveReactions _ _ _ := ret 0;
  cs_ListReactions _ := ret [];
|}.

Definition matrix : MatrixContentPort Demo.world := {|
  mp_SendMessage _ := fail (ErrOther "not prepared");
  mp_SendStateEvent _ _ _ _ := ret tt;
  mp_RedactEvent _ := ret "";
  mp_prepared := Some Demo.lifted_port |}.

Definition config : ContentConfig Demo.world := {|
  cf_Owner := Some (fun _ => {| co_MXID := "@me:h"; co_DisplayName := "Me";
                                co_AgentMXID := "@agent:h"; co_AgentDisplayName := "Agent" |});
  cf_Matrix := Some (fun _ => Some matrix); cf_Now _ := 0; cf_NewToken := None;
  cf_NewEventID := None; cf_RequireJoined := None; cf_AuthorizeRecall := None;
  cf_MapTransportError := None;
  cf_PreparedMatrixStore := Some PreparedTable.prepared_store |}.

Definition conversation : ContentConversationPort Demo.world := {|
  cv_Operation _ _ _ := ret (∅, None); cv_AttachOperation reply _ _ _ := ret reply |}.

Definition create (raw : content) : M Demo.world Api.Error reply :=
  CreateComment (Some store) None None (Some conversation) config (Some Demo.operation) raw.

Definition raw (body : string) : content :=
  <["room_id" := AString "!r"]> (<["post_id" := AString "p1"]> {["body" := AString body]}).

Lemma ports : comment_ports staged_in keeps_staged store None None (Some conversation) config
                PreparedTable.prepared_store Demo.operation.
Proof.
  split; try discriminate.
  - intros a b. apply (uninvolved_ret keeps_staged).
  - intros c. apply (uninvolved_ret keeps_staged).
  - intros a b. apply (uninvolved_ret keeps_staged).
  - intros c a b d [= <-]. apply (uninvolved_ret keeps_staged).
  - done.
  - apply prepared_store_steady.
  - intros w m p [= <-] [= <-]. apply Demo.lifted_port_steady.
Qed.

(** After a first call that failed in the middle. *)
Definition world1 : Demo.world := (create (raw "one") Demo.start).1.
Definition run2 : Demo.world * result Api.Error reply := create (raw "two") world1.
Definition run3 : Demo.world * result Api.Error reply := create (raw "three") run2.1.

Definition comment_of (r : result Api.Error reply) : option CComment.Comment :=
  match r with Ok (RComment c) => Some c | _ => None end.
End RetryDemo.

Lemma agent_comment_is_one_comment_witness :
  exists c2 c3,
    RetryDemo.comment_of RetryDemo.run2.2 = Some c2 /\
    RetryDemo.comment_of RetryDemo.run3.2 = Some c3 /\
    CComment.Body c2 = "two" /\ CComment.Body c3 = "three" /\
    CComment.EventID c2 = CComment.EventID c3.
Proof.
  eexists _, _. split; [vm_compute; reflexivity|]. split; [vm_compute; reflexivity|].
  split; [reflexivity|]. split; [reflexivity|].
  eapply (agent_comment_is_one_comment (H0 := Demo.text) staged_in keeps_staged _
    (fun w w' op m Hk Hm => Hk op m Hm) (fun w => row_pdu_unique w.1) RetryDemo.store None None (Some RetryDemo.conversation)
    RetryDemo.config PreparedTable.prepared_store Demo.operation RetryDemo.ports eq_refl)
    with (raw1 := RetryDemo.raw "two") (raw2 := RetryDemo.raw "three") (w1 := RetryDemo.world1)
         (w2 := RetryDemo.run2.1) (w3 := RetryDemo.run2.1) (w4 := RetryDemo.run3.1).
  - intros w. by eexists.
  - discriminate.
  - discriminate.
  - vm_compute. reflexivity.
  - reflexivity.
  - vm_compute. reflexivity.
Defined.

(** ** Who may comment, and as whom *)

(** The row of a comment can be read back. *)
Lemma put_comment_first c l :
  first_match (fun d => str_eqb (Comment.CommentID d) (Comment.CommentID c) &&
                        ChannelContent.scoped "" (Comment.PostID d))
    (ChannelContent.put_comment c l) = Some c.
Proof.
  assert (Hc : str_eqb (Comment.CommentID c) (Comment.CommentID c) = true)
    by by apply bool_decide_eq_true_2.
  induction l as [|d l IH]; cbn -[str_eqb]; [by rewrite Hc|].
  destruct (str_eqb (Comment.CommentID d) (Comment.CommentID c)) eqn:Hd; cbn -[str_eqb];
    [by rewrite Hc|]. by rewrite Hd.
Qed.

Lemma inserted_comment_found s c :
  Comment.CommentID c <> "" ->
  ChannelContent.GetChannelCommentByID (ChannelContent.InsertChannelComment s c)
    (Comment.CommentID c) "" = Some c.
Proof.
  intros Hne. unfold ChannelContent.GetChannelCommentByID.
  assert (He : str_empty (Comment.CommentID c) = false) by by apply bool_decide_eq_false_2.
  rewrite He. apply put_comment_first.
Qed.

Section Admission.
Context `{GoRange} `{GoText} {X : Type}.
Local Notation world := (T.tables * Service (ChannelContent.store * X))%type.
Context (serverName : string) (now : world -> Z).
Context (randomToken : string -> world -> world * string).
Context (transport : option (MatrixContentPort world)).
Context (preparedMatrixStore : option (PreparedStore world)) (agentDisplayName : world -> string).
Notation config := (contentConfig serverName now randomToken transport preparedMatrixStore
                      agentDisplayName).

(** [channels.comments.create] in the service. *)
Definition service_comment (ctx : option CapabilityOperationContext) (raw : content)
    : M world Api.Error reply :=
  CreateComment (Some memory_content_store) (Some (content_catalog now)) None
    (Some content_conversation) config ctx raw.

(** The product store and the owner are the same. *)
Definition same_store (w w' : world) : Prop :=
  w'.1 = w.1 /\ content_of w' = content_of w /\ ownerMXID w'.2 = ownerMXID w.2.

(** Random tokens and Matrix writes leave the product store alone. *)
Record outside_store : Prop := {
  os_token : forall p w, same_store w (randomToken p w).1;
  os_send : forall op m request w, transport = Some m ->
    same_store w (send_comment config op m request w).1;
}.

Context (Houtside : outside_store).

Lemma same_store_refl w : same_store w w.
Proof using Type. done. Qed.

Lemma same_store_trans w1 w2 w3 : same_store w1 w2 -> same_store w2 w3 -> same_store w1 w3.
Proof using Type. unfold same_store. intuition congruence. Qed.

Lemma sent_comment_same op roomID made_up request w w' receipt :
  sent_or transport roomID made_up
    (fun m => ContentFlow.transported config (send_comment config op m request)) w
  = (w', Ok receipt) -> same_store w w'.
Proof using Houtside.
  unfold sent_or. destruct transport as [m|] eqn:Ht; [|by intros [= <- _]].
  case_match; [by intros [= <- _]|]. unfold ContentFlow.transported. rewrite <- Ht.
  pose proof (os_send Houtside op m request w Ht) as Hs. intros Hrun.
  destruct (send_comment _ op m request w) as [w1 [a|e]]; [|discriminate].
  by injection Hrun as <- _.
Qed.

Definition comment_room (raw : content) (post : Post.ChannelPostRecord) : string :=
  trim_space (room_fallback (Params.get_string raw "room_id") (Post.RoomID post)).

(** The owner is in the room, when the room is known. *)
Definition joined_room (w : world) (roomID : string) : Prop :=
  roomID <> "" -> exists member, Members.lookupMember w.1 roomID (ownerMXID w.2) = Some member /\
    equal_fold (trim_space (Member.Membership member)) "join" = true.

Lemma roomID_known channelID roomID w w' room :
  roomIDForChannel (Some (content_catalog now)) channelID roomID w = (w', Ok room) ->
  trim_space roomID <> "" -> room = trim_space roomID.
Proof using Type.
  unfold roomIDForChannel. intros Hrun Hne. unfold str_empty in Hrun.
  rewrite bool_decide_eq_false_2 in Hrun by done. by injection Hrun as _ <-.
Qed.

Lemma requireJoined_joined roomID w w' :
  requireJoined config roomID w = (w', Ok tt) -> trim_space roomID = roomID ->
  joined_room w roomID.
Proof using Type.
  intros Hrun Ht Hne. unfold requireJoined in Hrun. cbn in Hrun. rewrite Ht in Hrun.
  unfold str_empty in Hrun. rewrite bool_decide_eq_false_2 in Hrun by done.
  unfold requireJoinedChannelContent, reads in Hrun. rewrite Ht in Hrun.
  injection Hrun as _ Hrun. destruct (Members.lookupMember _ _ _) as [m|]; [|discriminate].
  destruct (equal_fold _ _) eqn:He; [|discriminate]. by exists m.
Qed.

(** Who signs the comment. *)
Definition signed (ctx : option CapabilityOperationContext) (w : world) (c : CComment.Comment)
    : Prop :=
  match CapabilityOperationContextFrom ctx with
  | Some op => CComment.AuthorMXID c = trim_space (agentMXIDLocked serverName) /\
               CComment.CommentID c = "comment_" +:+ remove_all "-"%char (co_OperationID op)
  | None => CComment.AuthorMXID c = ownerMXID w.2
  end.

Lemma comment_identity_signed ctx id w author c :
  comment_identity (CapabilityOperationContextFrom ctx) id (owner config w) = Ok author ->
  CComment.AuthorMXID c = ca_AuthorMXID author -> CComment.CommentID c = ca_CommentID author ->
  signed ctx w c.
Proof using Type.
  unfold comment_identity, signed. intros Ha -> ->.
  destruct (CapabilityOperationContextFrom ctx); [|by injection Ha as <-].
  case_match; [discriminate|]. by injection Ha as <-.
Qed.

Lemma signed_owner ctx w w' c :
  ownerMXID w.2 = ownerMXID w'.2 -> signed ctx w' c -> signed ctx w c.
Proof using Type. unfold signed. by intros ->. Qed.

Lemma token_same prefix w w' t :
  token (E:=Api.Error) config prefix w = (w', Ok t) -> same_store w w'.
Proof using Houtside.
  unfold token. cbn. pose proof (os_token Houtside prefix w) as Hs.
  destruct (randomToken prefix w). by intros [= <- _].
Qed.

Lemma service_comment_inv ctx raw w w' r :
  service_comment ctx raw w = (w', Ok r) ->
  exists post c,
    r = RComment c /\
    ChannelContent.GetChannelPostByID (content_of w) (Params.get_string raw "post_id")
      (Params.get_string raw "channel_id") = Some post /\
    Post.CommentsEnabled post = true /\ joined_room w (comment_room raw post) /\
    signed ctx w c /\ CComment.PostID c = Params.get_string raw "post_id" /\
    w'.1 = w.1 /\
    content_of w' = ChannelContent.InsertChannelComment (content_of w) (commentRecord c).
Proof using Houtside.
  unfold service_comment, CreateComment.
  intros (n & _ & Hrun)%bind_reading; [|by reading].
  apply mbind_Ok in Hrun as (w1 & t & Ht & Hrun). apply token_same in Ht as (Ht1 & Ht2 & Ht3).
  apply bind_reading in Hrun as (ow & [= <-] & Hrun); [|by reading].
  destruct (str_empty _); [discriminate|].
  apply bind_reading in Hrun as (post & Hpost & Hrun);
    [|unfold PostByID, with_store; by reading].
  unfold PostByID, with_store in Hpost. apply internal_Ok in Hpost.
  apply bind_reading in Hpost as (record & [= Hrecord] & [= <-]); [|by reading].
  destruct record as [record|]; [|discriminate]. cbn [fmap option_fmap option_map] in Hrun.
  destruct (negb _) eqn:Henabled in Hrun; [discriminate|].
  destruct (mediaPayload _) as [[json media]|]; [|discriminate].
  apply bind_reading in Hrun as (mentions & _ & Hrun); [|by reading].
  apply bind_reading in Hrun as (author & [= Hauthor] & Hrun); [|by reading].
  apply bind_reading in Hrun as (room & Hroom & Hrun);
    [|unfold roomIDForChannel; by reading].
  apply bind_reading in Hrun as ([] & Hjoined & Hrun);
    [|unfold requireJoined; cbn; by reading].
  apply bind_reading in Hrun as (m & [= <-] & Hrun); [|by reading].
  apply mbind_Ok in Hrun as (w2 & receipt & Hsent & Hrun).
  apply sent_comment_same in Hsent as (Hs1 & Hs2 & Hs3).
  apply mbind_Ok in Hrun as (w3 & comment & Hinsert & Hrun). apply internal_Ok in Hinsert.
  injection Hinsert as <- <-.
  apply bind_reading in Hrun as (c & Hattach & Hrun);
    [|apply read_only_internal; unfold attachCommentOperation; by reading].
  apply internal_Ok in Hattach. unfold attachCommentOperation in Hattach.
  apply bind_reading in Hattach as ([map_ view] & _ & Hattach); [|by reading].
  injection Hattach as <-. injection Hrun as <- <-.
  exists record. eexists. split; [reflexivity|].
  rewrite Ht2 in Hrecord. split; [exact Hrecord|].
  split; [by apply negb_false_iff in Henabled|]. split.
  { intros Hne. pose proof (roomID_known _ _ _ _ _ Hroom Hne) as ->.
    unfold joined_room in *. rewrite <- Ht1, <- Ht3.
    apply (requireJoined_joined _ _ _ Hjoined); [apply trim_space_idemp|done]. }
  split; [|split; [done|split; [cbn; congruence|]]].
  - eapply signed_owner; [symmetry; exact Ht3|]. by eapply comment_identity_signed.
  - cbn. by rewrite Hs2, Ht2.
Qed.
End Admission.

(** Who may comment and as whom, in the service: a comment that
    [channels.comments.create] returns is on an existing post whose comments
    are enabled; when its room is known the owner has joined it; it is signed
    by the owner, or, inside a capability operation, by the service's agent
    and named after the operation; it is the only change to the product store,
    and it can be read back under its id. *)
Theorem comment_admission `{GoRange} `{GoText} {X} serverName now randomToken
    (transport : option (MatrixContentPort (T.tables * Service (ChannelContent.store * X))))
    prepared agentName
    (Houtside : outside_store serverName now randomToken transport prepared agentName)
    ctx raw w w' r
    (Hrun : service_comment serverName now randomToken transport prepared agentName ctx raw w
            = (w', Ok r)) :
  exists post c,
    r = RComment c /\
    ChannelContent.GetChannelPostByID (content_of w) (Params.get_string raw "post_id")
      (Params.get_string raw "channel_id") = Some post /\
    Post.CommentsEnabled post = true /\ joined_room w (comment_room raw post) /\
    signed serverName ctx w c /\ CComment.PostID c = Params.get_string raw "post_id" /\
    w'.1 = w.1 /\
    content_of w' = ChannelContent.InsertChannelComment (content_of w) (commentRecord c) /\
    (CComment.CommentID c <> "" ->
     ChannelContent.GetChannelCommentByID (content_of w') (CComment.CommentID c) "" =
       Some (commentRecord c)).
Proof.
  apply service_comment_inv in Hrun as (post & c & H1 & H2 & H3 & H4 & H5 & H6 & H7 & H8); [|done].
  exists post, c. do 8 (split; [done|]). intros Hne. rewrite H8.
  by apply (inserted_comment_found _ (commentRecord c)).
Qed.

#[local] Existing Instance Demo.text.

(** A comment of the owner, without a transport. *)
Lemma comment_admission_witness :
  let raw : content := <["post_id" := AString "p1"]> {["body" := AString "hi"]} in
  let r := service_comment (H0 := Demo.text) "h" (fun _ => 0) ContentDemo.token None None
             (fun _ => "Agent") None raw ContentDemo.start in
  ChannelContent.GetChannelCommentByID (content_of r.1) "comment_comment1" "" <> None.
Proof.
  intros raw r.
  assert (Hr : exists c, r = (r.1, Ok (RComment c)) /\ CComment.CommentID c = "comment_comment1")
    by (eexists; split; vm_compute; reflexivity).
  destruct Hr as (c & Hr & Hid).
  assert (Ho : outside_store (X:=nat) "h" (fun _ => 0) ContentDemo.token None None (fun _ => "Agent"))
    by by split.
  destruct (comment_admission "h" (fun _ => 0) ContentDemo.token None None (fun _ => "Agent") Ho
    None raw ContentDemo.start r.1 (RComment c) Hr)
    as (post & c' & [= <-] & _ & _ & _ & _ & _ & _ & _ & Hback).
  rewrite Hid in Hback. rewrite Hback by discriminate. discriminate.
Defined.

(** ** The echo of a settings change *)

(** The state event of a settings change, as it comes back. *)
Definition settings_echo (record : Post.ChannelPostRecord) (visibility : string)
    (commentsEnabled : bool) (now ts : Z) : ProjectionEvent :=
  let event := RoomState.ChannelPostSettings
                 (settings_input record visibility commentsEnabled now) in
  {| ev_RoomID := Post.RoomID record; ev_EventID := ""; ev_StateKey := RoomState.StateKey event;
     ev_SenderMXID := ""; ev_OriginServerTS := ts; ev_Content := RoomState.EvContent event;
     ev_Body := ""; ev_MessageType := "" |}.

(** The settings a node writes when it updates a post are the settings
    every node reads back from the state event it publishes: projecting the
    event applies the very record [UpdatePost] applies, up to the clock, so
    the node's own echo changes nothing and other nodes agree with it. *)
Theorem settings_event_roundtrip {W} (s : ContentStore W) record visibility commentsEnabled now ts
    (Hpost : trimmed (Post.PostID record)) (Hpost' : Post.PostID record <> "")
    (Hevent : trimmed (Post.EventID record)) (Hevent' : Post.EventID record <> "")
    (Hchannel : trimmed (Post.ChannelID record))
    (Hv : visibility = visibility_public \/ visibility = visibility_private) :
  let applied := settings_record record visibility commentsEnabled now in
  ProjectPostSettings (Some s) (settings_echo record visibility commentsEnabled now ts) =
  cs_ApplyChannelPostSettings s
    {| PostSettings.PostID := PostSettings.PostID applied;
       PostSettings.ChannelID := PostSettings.ChannelID applied;
       PostSettings.RoomID := PostSettings.RoomID applied;
       PostSettings.PostEventID := PostSettings.PostEventID applied;
       PostSettings.Visibility := PostSettings.Visibility applied;
       PostSettings.CommentsEnabled := PostSettings.CommentsEnabled applied;
       PostSettings.UpdatedAt := ts |}.
Proof.
  intros applied. unfold trimmed in *. unfold ProjectPostSettings, with_store. cbn zeta.
  cbn [settings_echo ev_Content ev_StateKey ev_RoomID ev_OriginServerTS RoomState.EvContent
       RoomState.StateKey RoomState.ChannelPostSettings settings_input RoomState.ci_PostID
       RoomState.ci_ChannelID RoomState.ci_RoomID RoomState.ci_PostEventID
       RoomState.ci_Visibility RoomState.ci_CommentsEnabled RoomState.ci_UpdatedAt].
  change (Params.get_string _ "post_id") with (trim_space (trim_space (Post.PostID record))).
  change (Params.get_string _ "post_event_id") with (trim_space (trim_space (Post.EventID record))).
  change (Params.get_string _ "channel_id") with (trim_space (trim_space (Post.ChannelID record))).
  change (Params.get_string _ "visibility") with
    (trim_space (RoomState.fallbackString visibility "private")).
  change (get _ "comments_enabled") with (ABool commentsEnabled).
  rewrite !trim_space_idemp, Hpost, Hevent, Hchannel. unfold str_empty, str_eqb.
  rewrite !(bool_decide_eq_false_2 (Post.PostID record = "")) by done.
  rewrite !(bool_decide_eq_false_2 (Post.EventID record = "")) by done.
  rewrite bool_decide_eq_true_2 by done. by destruct Hv as [-> | ->].
Qed.

Lemma settings_event_roundtrip_witness :
  content_of (ProjectPostSettings (Some memory_content_store)
     (settings_echo (ContentDemo.post "p1" "public" 10) "private" false 5000000 5)
     ContentDemo.start).1 =
  ChannelContent.ApplyChannelPostSettings ContentDemo.store
    (settings_record (ContentDemo.post "p1" "public" 10) "private" false 5000000).
Proof.
  rewrite (settings_event_roundtrip memory_content_store (ContentDemo.post "p1" "public" 10)
    "private" false 5000000 5); [reflexivity|reflexivity|discriminate|reflexivity|discriminate|
    reflexivity|by right].
Defined.

(** ** The recovery after a failed insertion *)

(** The lookup after a failed insertion passes the channel where the store
    expects the post, so the row that is there is not found. *)
Lemma comment_recovery_misses_row {W} (s : ContentStore W) (c : ChannelContent.store)
    comment w w1 e :
  cs_InsertChannelComment s (commentRecord comment) w = (w1, Err e) ->
  (forall a b, cs_GetChannelCommentByID s a b w1 =
               (w1, Ok (ChannelContent.GetChannelCommentByID c a b))) ->
  ChannelContent.comments c = [commentRecord comment] ->
  CComment.ChannelID comment <> "" -> CComment.ChannelID comment <> CComment.PostID comment ->
  insert_comment (Some s) comment w = (w1, Err e).
Proof.
  intros Hi Hg Hc Hne Hpost. unfold insert_comment. simpl. rewrite Hi, Hg.
  assert (Hnone : ChannelContent.GetChannelCommentByID c (CComment.CommentID comment)
                    (CComment.ChannelID comment) = None); [|by rewrite Hnone].
  unfold ChannelContent.GetChannelCommentByID. case_match; [done|]. rewrite Hc.
  unfold first_match, ChannelContent.scoped, str_empty, str_eqb.
  rewrite (bool_decide_eq_false_2 (CComment.ChannelID comment = "")) by done.
  rewrite (bool_decide_eq_false_2 (Comment.PostID _ = _)) by (cbn; congruence).
  by rewrite andb_false_r.
Qed.
