(* ===== verification/Recovery.v ===== *)
(** * Execution of recoverable operations

    [p2p/service_operation_recovery.go]: how the service answers a request
    for a recoverable action from the durable record of its operation, claims
    the operation and its business workflow, runs the handler and settles the
    record, and how it presents an operation that another request holds.

    The world is arbitrary.  [OperationStore] is the durable table with
    whatever other processes do to it around a call; handlers, locks and
    Matrix are functions on the world. *)

From Stdlib Require Import Ascii String ZArith Lia.
From stdpp Require Import base tactics list gmap strings.
From S2P Require Import Prelude GoStrings Values Domain Policy Action Operations.
From S2P Require Import OperationIdentity Workflow RemotePublic Conversation Contacts.
Local Open Scope Z_scope.
Local Open Scope go_scope.

Module Recovery.
Import Identity.

Definition operationLeaseDurationMillis : Z := 90000.
Definition httpStatusConflict : Z := 409.
Definition OperationIDConflictCode := "operation_id_conflict".

(** ** Results of handlers

    A [map[string]any] whose values are decoded JSON, nested objects or the
    product's own records. *)
Inductive value :=
| VAny (a : any)
| VObject (c : content)
| VMember (m : Member.MemberRecord)
| VChannel (c : Chan.Channel)
| VConversation (c : CView.ConversationView).
Abbreviation object := (gmap string value).

(** [trimString(m[key])] *)
Definition text (m : object) (key : string) : string :=
  match m !! key with
  | Some (VAny a) => trimString a
  | _ => ""
  end.

Definition vtext (s : string) : value := VAny (AString s).

(** What a handler returns: the view of a contact, a map, or anything else. *)
Inductive outcome :=
| OView (view : ContactView.View)
| OMap (m : object)
| OOther (a : any).

(** [encoding/json] on these results; the objects that [map[string]json.RawMessage]
    holds are texts. *)
Class ResultCodec := {
  MarshalResult : outcome -> result goerror string;
  UnmarshalView : string -> result goerror ContactView.View;
  UnmarshalObject : string -> result goerror (gmap string string);
  UnmarshalMember : string -> result goerror Member.MemberRecord;
  UnmarshalChannel : string -> result goerror Chan.Channel;
  UnmarshalConversation : string -> result goerror CView.ConversationView;
  DecodeNumber : string -> result goerror any;
}.

Section Codec.
Context `{GoRange} `{ResultCodec}.

Definition decode_value (key raw : string) : result goerror value :=
  if str_eqb key "member" then result_map VMember (UnmarshalMember raw)
  else if str_eqb key "channel" then result_map VChannel (UnmarshalChannel raw)
  else if str_eqb key "conversation" then result_map VConversation (UnmarshalConversation raw)
  else result_map VAny (DecodeNumber raw).

Definition decode_values (raw : list (string * string)) : result goerror object :=
  foldl (fun (acc : result goerror object) kv =>
           let? m := acc in
           let? v := decode_value kv.1 kv.2 in
           Ok (<[kv.1 := v]> m)) (Ok ∅) raw.

Definition decodeRecoverableOperationResult (action resultJSON : string)
    : result goerror outcome :=
  if has_prefix action "contacts." then result_map OView (UnmarshalView resultJSON)
  else
    let? raw := UnmarshalObject resultJSON in
    result_map OMap (decode_values (go_range raw)).
End Codec.

(** ** Errors *)

Definition operationPersistenceError (record : Op.Record_) (err : goerror) : Api.Error :=
  {| Api.Status := 500; Api.Error_ := "internal error: " +:+ error_text err;
     Api.Code := OperationRecoveryCode; Api.OperationID := Op.OperationID record;
     Api.CurrentRoomID := fallbackString (Op.CurrentRoomID record) (Op.RoomID record) |}.

Definition conflictError (record : Op.Record_) : Api.Error :=
  {| Api.Status := httpStatusConflict;
     Api.Error_ := "operation_id belongs to a different request";
     Api.Code := OperationIDConflictCode; Api.OperationID := Op.OperationID record;
     Api.CurrentRoomID := "" |}.

(** A failed step is reported with the operation that can be retried. *)
Definition persisted {W A} (record : Op.Record_) (m : M W goerror A) : M W Api.Error A :=
  fun w => match m w with
           | (w, Ok a) => (w, Ok a)
           | (w, Err e) => (w, Err (operationPersistenceError record e))
           end.

(** The error of a step as a value: [x, err := f()]. *)
Definition attempt {W E E' A} (m : M W E A) : M W E' (result E A) :=
  fun w => let '(w, r) := m w in (w, Ok r).

(** ** What a result says of its operation *)

(** The result with its recovery keys, its status, room and error code. *)
Definition operationResultMetadata (r : outcome) (record : Op.Record_)
    : outcome * string * string * string :=
  let from a b :=
    let room := Op.CurrentRoomID record in
    fallbackString (if str_empty room then fallbackString a b else room) (Op.RoomID record) in
  match r with
  | OMap m =>
      let currentRoomID := from (text m "current_room_id") (text m "room_id") in
      let m' := <["operation_id" := vtext (Op.OperationID record)]> m in
      let m' := if str_empty currentRoomID then m'
                else <["current_room_id" := vtext currentRoomID]> m' in
      (OMap m', text m "status", fallbackString currentRoomID (Op.RoomID record),
       text m "error_code")
  | OView v =>
      let currentRoomID := from (ContactView.CurrentRoomID v) (ContactView.RoomID v) in
      (OView (ContactView.set_CurrentRoomID currentRoomID
                (ContactView.set_OperationID (Op.OperationID record) v)),
       ContactView.Status v, fallbackString currentRoomID (Op.RoomID record),
       ContactView.ErrorCode v)
  | OOther a => (OOther a, "", fallbackString (Op.CurrentRoomID record) (Op.RoomID record), "")
  end.

Definition retainedRoomRebuildReconcilingResult (record : Op.Record_) : object :=
  let currentRoomID := fallbackString (Op.CurrentRoomID record) (Op.RoomID record) in
  let result : object :=
    <["operation_id" := vtext (Op.OperationID record)]>
    (<["error_code" := vtext OperationRecoveryCode]> {["status" := vtext "joining"]}) in
  if str_empty currentRoomID then result
  else <["current_room_id" := vtext currentRoomID]> (<["room_id" := vtext currentRoomID]> result).

(** ** The service around the loop *)

(** [directory] is what lookups find at the moment; the contacts module is
    set exactly when its lookups are.  [Operation] is the conversation
    presentation of the members module and [GetRecord] the lookup of the
    conversation module, if these are set.  [pause] waits 50 milliseconds for
    the holder of a workflow and says whether the two seconds are over. *)
Record Ports (W : Type) := {
  directory : W -> Directory;
  now : W -> Z;
  later : W -> Z;
  HydrateView : string -> Contact.ContactRecord -> M W goerror ContactView.View;
  Operation : option (string -> string -> string ->
                M W goerror (content * option CView.ConversationView));
  GetRecord : option (string -> string -> M W goerror (option Conv.ConversationRecord));
  hasTransport : bool;
  matrixMemberJoined : string -> string -> M W goerror bool;
  channelSnapshot : string -> W -> W * Chan.Channel;
  randomToken : string -> W -> W * string;
  waitExpired : W -> bool;
  pause : W -> W * bool;
  lockRecoverableOperation : string -> W -> W;
  unlockRecoverableOperation : string -> W -> W;
}.
Arguments directory {W}.
Arguments now {W}.
Arguments later {W}.
Arguments HydrateView {W}.
Arguments Operation {W}.
Arguments GetRecord {W}.
Arguments hasTransport {W}.
Arguments matrixMemberJoined {W}.
Arguments channelSnapshot {W}.
Arguments randomToken {W}.
Arguments waitExpired {W}.
Arguments pause {W}.
Arguments lockRecoverableOperation {W}.
Arguments unlockRecoverableOperation {W}.

(** The local variables that deferred calls read. *)
Record locals := {
  record : Op.Record_;
  workflow : option Tracker.Tracker_;
}.

Section Service_.
Context `{GoRange} `{ResultCodec} {W : Type} `{OperationStore W} (ports : Ports W).

(** A handler reads from its context the channel a preflight resolved and the
    tracker of the operation, which it shares with the loop: it can advance
    the tracker, not replace it. *)
Definition actionHandler : Type :=
  option Chan.Channel -> content -> M (W * option Tracker.Tracker_) Api.Error outcome.

Definition member_of (roomID userID : string) : M W goerror (option Member.MemberRecord) :=
  reads (fun w => lookupMember (directory ports w) roomID userID).

(** The contact of a contact operation, when the module is set. *)
Definition contact_of (action peerMXID : string) : M W goerror (option Contact.ContactRecord) :=
  reads (fun w =>
    match contactsModule (directory ports w) with
    | Some contacts =>
        if has_prefix action "contacts." then LookupByPeer contacts peerMXID else Ok None
    | None => Ok None
    end).

Definition hasContacts : M W goerror bool :=
  reads (fun w =>
    Ok (match contactsModule (directory ports w) with Some _ => true | None => false end)).

(** ** Presentation *)

(** [HydrateResult] of the members module on a map. *)
Definition HydrateResult
    (operation : string -> string -> string -> M W goerror (content * option CView.ConversationView))
    (r : object) (action status roomID : string) : M W goerror object :=
  let! (op, conversation) := operation action status roomID in
  let r : object := <["operation" := VObject op]> r in
  ret (match conversation with
       | Some c => <["conversation" := VConversation c]> r
       | None => r
       end).

Definition hydrateMemberRecoveryResult (record : Op.Record_) (r : object) : M W goerror object :=
  match Operation ports with
  | None => fail (ErrOther "member recovery presentation is not configured")
  | Some operation =>
      let status := to_lower (trim_space (text r "status")) in
      let status := if str_empty status then "joining" else status in
      let roomID :=
        fallbackString (text r "current_room_id")
          (fallbackString (text r "room_id")
             (fallbackString (Op.CurrentRoomID record) (Op.RoomID record))) in
      HydrateResult operation r (Op.Action record) status roomID
  end.

Definition hydrateContactRecoveryView (record : Op.Record_) (view : ContactView.View)
    : M W goerror ContactView.View :=
  let! configured := hasContacts in
  if negb configured
  then fail (ErrOther "contact recovery presentation is not configured")
  else
  let! hydrated := HydrateView ports (Op.Action record) (Contacts.RecordFromView view) in
  ret (ContactView.set_ErrorCode (ContactView.ErrorCode view)
      (ContactView.set_CurrentRoomID
         (fallbackString (ContactView.CurrentRoomID view)
            (fallbackString (ContactView.RoomID view)
               (fallbackString (Op.CurrentRoomID record) (Op.RoomID record))))
      (ContactView.set_OperationID
         (fallbackString (ContactView.OperationID view) (Op.OperationID record))
         hydrated))).

(** The keys that the state of a member adds to a result. *)
Definition memberStatusKeys (member : Member.MemberRecord) (r : object) : M W goerror object :=
  let status := to_lower (trim_space (Member.Membership member)) in
  let code c := ret (<["error_code" := vtext c]> r) in
  if str_eqb status "join" then
    let! joined := matrixMemberJoined ports (Member.RoomID member) (Member.UserID member) in
    ret (if joined : bool
         then <["room_id" := vtext (Member.RoomID member)]> (<["status" := vtext "joined"]> r)
         else <["error_code" := vtext JoinResultUnconfirmedCode]>
                (<["status" := vtext "joining"]> r))
  else if str_eqb status "reject" || str_eqb status "rejected"
  then ret (<["status" := vtext "rejected"]> r)
  else if str_eqb status "joining" then code JoinResultUnconfirmedCode
  else if str_eqb status "join_failed" then code MatrixJoinFailedCode
  else ret r.

(** [result["channel"] = s.channelSnapshot(...)] for a channel's member *)
Definition channelKey (channelID : string) (r : object) : M W goerror object := fun w =>
  if str_empty channelID then (w, Ok r)
  else let '(w, ch) := channelSnapshot ports channelID w in
       (w, Ok (<["channel" := VChannel ch]> r)).

Definition memberCurrentResult (record : Op.Record_) : M W goerror outcome :=
  let! member := member_of (Op.RoomID record) (Op.UserID record) in
  match member with
  | None => fail (ErrOther "operation generation was superseded but current member is missing")
  | Some member =>
      let r : object :=
        <["current_room_id" := vtext (Member.RoomID member)]>
        (<["operation_id" := vtext (Op.OperationID record)]>
        (<["member" := VMember member]>
        {["status" := vtext (to_lower (trim_space (Member.Membership member)))]})) in
      let! r := memberStatusKeys member r in
      let! r := channelKey (Member.ChannelID member) r in
      let! r := hydrateMemberRecoveryResult record r in
      ret (OMap r)
  end.

Definition supersededOperationCurrentResult (record : Op.Record_) : M W goerror outcome :=
  let! contact := contact_of (Op.Action record) (Op.PeerMXID record) in
  match contact with
  | Some contact =>
      let! view := HydrateView ports (Op.Action record) contact in
      let view := ContactView.set_CurrentRoomID (Contact.RoomID contact)
                    (ContactView.set_OperationID (Op.OperationID record) view) in
      ret (OView (if equal_fold (trim_space (Contact.Status contact)) "joining"
                  then ContactView.set_ErrorCode MatrixJoinUnconfirmedCode view else view))
  | None => memberCurrentResult record
  end.

(** The view of an operation that is still under way. *)
Definition joiningView (record : Op.Record_) (roomID errorCode : string) : ContactView.View :=
  {| ContactView.PeerMXID := Op.PeerMXID record; ContactView.DisplayName := "";
     ContactView.DisplayNameOverride := false; ContactView.AvatarURL := "";
     ContactView.Domain := ""; ContactView.RoomID := roomID; ContactView.Status := "joining";
     ContactView.Remark := ""; ContactView.Operation := ∅; ContactView.Conversation := None;
     ContactView.OperationID := Op.OperationID record; ContactView.CurrentRoomID := roomID;
     ContactView.ErrorCode := errorCode; ContactView.RequestID := "" |}.

(** ... and its map. *)
Definition joiningObject (record : Op.Record_) (roomID errorCode : string) : object :=
  let r : object :=
    <["operation_id" := vtext (Op.OperationID record)]>
    (<["error_code" := vtext errorCode]> {["status" := vtext "joining"]}) in
  if str_empty roomID then r
  else <["room_id" := vtext roomID]> (<["current_room_id" := vtext roomID]> r).

Definition hydratedMap (record : Op.Record_) (r : object) : M W Api.Error outcome :=
  let! r := persisted record (hydrateMemberRecoveryResult record r) in
  ret (OMap r).

Definition hydratedView (record : Op.Record_) (v : ContactView.View) : M W Api.Error outcome :=
  let! v := persisted record (hydrateContactRecoveryView record v) in
  ret (OView v).

(** [decodeRecoverableOperationResult] as a step. *)
Definition decoded (record : Op.Record_) (action : string) : M W Api.Error outcome :=
  persisted record (reads (fun _ => decodeRecoverableOperationResult action (Op.ResultJSON record))).

(** ** Is a completed operation still current? *)

Definition status_is (s t : string) : bool := equal_fold (trim_space s) t.

(** Matrix agrees that the user is, or is not, in the room; without a
    transport there is nothing to ask. *)
Definition matrixConfirms (expected : bool) (roomID userID : string) : M W goerror bool :=
  if hasTransport ports then
    let! joined := matrixMemberJoined ports roomID userID in
    ret (Bool.eqb joined expected)
  else ret true.

Definition retainedInviteStillCurrent (record : Op.Record_) : M W goerror bool :=
  let! member := member_of (Op.RoomID record) (Op.UserID record) in
  match member with
  | None => ret false
  | Some member =>
      if negb (str_eqb (Member.RequestID member) (Op.RequestID record)) then ret false
      else
        let membership := to_lower (trim_space (Member.Membership member)) in
        if str_eqb membership "invite"
        then matrixConfirms false (Op.RoomID record) (Op.UserID record)
        else if str_eqb membership "join"
        then matrixConfirms true (Op.RoomID record) (Op.UserID record)
        else ret false
  end.

Definition owner_now : M W goerror string :=
  reads (fun w => Ok (OwnerMXID (directory ports w))).

(** A check that must hold before the next one is made. *)
Definition and_then (check : M W goerror bool) (next : M W goerror bool) : M W goerror bool :=
  let! ok := check in if ok : bool then next else ret false.

(** ... that is made only when [b]. *)
Definition guarded (b : bool) (check : M W goerror bool) : M W goerror bool :=
  if b then check else ret true.

Definition contactStillCurrent (record : Op.Record_) (view : ContactView.View)
    : M W goerror bool :=
  let action := Op.Action record in
  let status := ContactView.Status view in
  if str_eqb action "contacts.request" && status_is status "pending_outbound" then ret false
  else
  let! contact := contact_of action (ContactView.PeerMXID view) in
  match contact with
  | None => ret false
  | Some contact =>
      let room := Contact.RoomID contact in
      if negb (str_eqb room (ContactView.RoomID view)) ||
         negb (equal_fold (trim_space (Contact.Status contact)) (trim_space status))
      then ret false
      else
      let reject := str_eqb action "contacts.requests.reject" in
      let owner_joined expected :=
        let! owner := owner_now in matrixConfirms expected room owner in
      and_then (guarded (reject && (status_is status "reject" || status_is status "rejected"))
                  (owner_joined false))
      (and_then (guarded (reject && status_is status "accepted") (owner_joined true))
      (guarded (str_eqb action "contacts.requests.accept" && status_is status "accepted" &&
                hasTransport ports)
         (and_then (owner_joined true)
            (match GetRecord ports with
             | None => ret true
             | Some get_record =>
                 let! found := get_record "" room in
                 ret (match found with Some _ => true | None => false end)
             end))))
  end.

Definition rejectedStillCurrent (record : Op.Record_) : M W goerror bool :=
  let! member := member_of (Op.RoomID record) (Op.UserID record) in
  match member with
  | None => ret false
  | Some member =>
      let membership := to_lower (trim_space (Member.Membership member)) in
      if negb (str_eqb membership "reject") && negb (str_eqb membership "rejected")
      then ret false
      else matrixConfirms false (Op.RoomID record) (Op.UserID record)
  end.

Definition outcome_status (r : outcome) : string :=
  match r with
  | OMap m => text m "status"
  | OView v => ContactView.Status v
  | OOther _ => ""
  end.

Definition outcome_room (r : outcome) : string :=
  match r with
  | OMap m => fallbackString (text m "current_room_id") (text m "room_id")
  | OView v => fallbackString (ContactView.CurrentRoomID v) (ContactView.RoomID v)
  | OOther _ => ""
  end.

Definition completedOperationStillCurrent (record : Op.Record_) (r : outcome)
    : M W goerror bool :=
  let status := outcome_status r in
  let room := Op.CurrentRoomID record in
  let currentRoomID :=
    fallbackString (if str_empty room then outcome_room r else room) (Op.RoomID record) in
  if retainedRoomInviteAction (Op.Action record) then retainedInviteStillCurrent record
  else if has_prefix (Op.Action record) "contacts." then
    match r with
    | OView view =>
        let! configured := hasContacts in
        if configured : bool then contactStillCurrent record view else ret false
    | _ => ret false
    end
  else if (str_eqb status "rejected" || str_eqb status "reject") &&
          negb (str_empty (Op.RoomID record)) && negb (str_empty (Op.UserID record))
  then rejectedStillCurrent record
  else
    let canonical := to_lower (trim_space status) in
    let confirms := matrixConfirms true currentRoomID (Op.UserID record) in
    if one_of canonical ["joined"; "accepted"; "pending_inbound"; "pending_outbound"]
    then confirms
    else if str_eqb canonical "ok"
    then if str_eqb (Op.Action record) "groups.invite.reject" then ret true else confirms
    else ret false.

(** ** Operations that another request holds *)

(** The cached result of a completed operation, while it is current. *)
Definition currentCached (record : Op.Record_) (action : string) : M W Api.Error (option outcome) :=
  let! cached := decoded record action in
  let! current := persisted record (completedOperationStillCurrent record cached) in
  ret (if current : bool then Some cached else None).

Definition completed (record : Op.Record_) : bool :=
  str_eqb (Op.Status record) operationStatusCompleted && negb (str_empty (Op.ResultJSON record)).

(** [Some] answer, or what follows. *)
Definition or_else (m : M W Api.Error (option outcome)) (next : M W Api.Error outcome)
    : M W Api.Error outcome :=
  let! answer := m in
  match answer with Some r => ret r | None => next end.

Definition operationInFlightResult (record : Op.Record_) : M W Api.Error outcome :=
  let action := Op.Action record in
  if retainedRoomInviteAction action then
    or_else (if completed record then currentCached record action else ret None)
      (hydratedMap record (retainedRoomRebuildReconcilingResult record))
  else
  or_else
    (if str_empty (Op.ResultJSON record) then ret None
     else if negb (str_eqb (Op.Status record) operationStatusCompleted)
     then let! cached := decoded record action in ret (Some cached)
     else currentCached record action)
  (let! current := attempt (supersededOperationCurrentResult record) in
   match current with
   | Ok r => ret r
   | Err _ =>
       let currentRoomID := fallbackString (Op.CurrentRoomID record) (Op.RoomID record) in
       if has_prefix action "contacts."
       then hydratedView record (joiningView record currentRoomID OperationRecoveryCode)
       else hydratedMap record (joiningObject record currentRoomID OperationRecoveryCode)
   end).

(** What a current result becomes while its workflow is busy. *)
Definition busyView (record : Op.Record_) (v : ContactView.View) : ContactView.View :=
  let status := ContactView.Status v in
  let v := if negb (str_eqb (Op.Action record) "contacts.request") &&
              negb (equal_fold status "accepted") && negb (equal_fold status "rejected") &&
              negb (equal_fold status "joining")
           then ContactView.set_ErrorCode MatrixJoinUnconfirmedCode
                  (ContactView.set_Status "joining" v) else v in
  ContactView.set_OperationID (Op.OperationID record) v.

Definition busyObject (record : Op.Record_) (m : object) : object :=
  let status := to_lower (text m "status") in
  let m := if one_of status ["approved"; "joined"; "rejected"; "joining"; "join_failed"] then m
           else <["error_code" := vtext JoinResultUnconfirmedCode]>
                  (<["status" := vtext "joining"]> m) in
  <["operation_id" := vtext (Op.OperationID record)]> m.

(** The result of a retained room invitation another process completed. *)
Definition storedCompletion (record : Op.Record_) : M W Api.Error (option outcome) :=
  let! stored := persisted record (reads (fun w => LookupOperation w (Op.OperationID record))) in
  match stored with
  | Some stored =>
      if str_eqb (Op.Action stored) (Op.Action record) &&
         negb (operationIdentityConflict stored record) && completed stored
      then currentCached stored (Op.Action stored) else ret None
  | None => ret None
  end.

Definition operationWorkflowBusyResult (record : Op.Record_) : M W Api.Error outcome :=
  if retainedRoomInviteAction (Op.Action record) then
    or_else (storedCompletion record)
      (hydratedMap record (retainedRoomRebuildReconcilingResult record))
  else
  let! current := attempt (supersededOperationCurrentResult record) in
  let busy :=
    if has_prefix (Op.Action record) "contacts."
    then hydratedView record (joiningView record (Op.RoomID record)
           (if str_eqb (Op.Action record) "contacts.request" then OperationRecoveryCode
            else MatrixJoinUnconfirmedCode))
    else hydratedMap record
           (joiningObject record (Op.RoomID record) JoinResultUnconfirmedCode) in
  match current with
  | Ok (OView v) => hydratedView record (busyView record v)
  | Ok (OMap m) => hydratedMap record (busyObject record m)
  | _ => busy
  end.

(** ** The business workflow *)

Definition record_for (action : string) (params : content) : M W Api.Error Op.Record_ :=
  reads (fun w => operationRecordFor (directory ports w) (now ports w) action params).

Definition token_of {E} (prefix kind : string) : M W E string :=
  fun w => let '(w, t) := randomToken ports kind w in (w, Ok (prefix +:+ t)).

(** Claim the workflow row, waiting for its holder.  Every wait takes 50
    milliseconds, so forty of them exhaust the two seconds. *)
Fixpoint claimWorkflow (attempts : nat) (record workflowRecord : Op.Record_) (owner : string)
    : M W Api.Error (option Tracker.Tracker_) := fun w =>
  match attempts with
  | O => (w, Ok None)
  | S attempts =>
      match ClaimOperation (now ports w) w workflowRecord owner operationLeaseDurationMillis with
      | (w, Err e) =>
          if waitExpired ports w then (w, Ok None)
          else (w, Err (operationPersistenceError record e))
      | (w, Ok (claimedRecord, true)) =>
          (w, Ok (Some (Tracker.NewTracker owner claimedRecord operationLeaseDurationMillis)))
      | (w, Ok (_, false)) =>
          let '(w, expired) := pause ports w in
          if expired : bool then (w, Ok None)
          else claimWorkflow attempts record workflowRecord owner w
      end
  end.

(** [None] when the workflow is busy; otherwise its tracker, if the operation
    has a workflow. *)
Definition acquireDurableBusinessWorkflow (record : Op.Record_)
    : M W Api.Error (option (option Tracker.Tracker_)) :=
  let! advance :=
    if str_eqb (Op.Action record) "channels.public.join_request"
    then persisted record (reads (fun w =>
           publicJoinCanAdvanceTerminalGeneration (directory ports w) record))
    else ret false in
  if advance : bool then ret (Some None)
  else
  let! workflowRecord := reads (fun w => Ok (durableBusinessWorkflowRecord (now ports w) record)) in
  match workflowRecord with
  | None => ret (Some None)
  | Some workflowRecord =>
      let! owner := token_of "workflow_" "claim" in
      let! t := claimWorkflow 41 record workflowRecord owner in
      ret (option_map Some t)
  end.

(** ** Answers that do not run the handler *)

(** A delayed callback for another generation; [None] when it is not one. *)
Definition publicJoinResultGenerationMismatch (action : string) (params : content)
    (record : Op.Record_) : M W Api.Error (option outcome) :=
  if negb (str_eqb action "channels.public.join_result") || str_empty (Op.BaseRequestID record)
  then ret None
  else
    let explicitRequestID := trimString (get params "request_id") in
    if str_empty explicitRequestID || str_eqb explicitRequestID (Op.RequestID record)
    then ret None
    else
      let! current := persisted record (supersededOperationCurrentResult record) in
      ret (Some current).

(** The answer for a stored operation of an older generation. *)
Definition supersededAnswer (action : string) (record : Op.Record_) : M W Api.Error outcome :=
  let current := persisted record (supersededOperationCurrentResult record) in
  if retainedRoomInviteAction (Op.Action record)
  then hydratedMap record (retainedRoomRebuildReconcilingResult record)
  else if str_eqb (Op.Action record) "channels.public.join_request" then current
  else if negb (str_empty (Op.ResultJSON record)) then decoded record action
  else current.

(** A completed operation: its answer, or whether a contact starts over. *)
Definition completedAnswer (action : string) (record : Op.Record_)
    : M W Api.Error (outcome + bool) :=
  if negb (completed record) then ret (inr false)
  else
  let! cached := currentCached record action in
  match cached with
  | Some cached => ret (inl cached)
  | None =>
      let restart := inr (has_prefix action "contacts.") in
      if str_eqb action "contacts.request" then
        let! current := persisted record (supersededOperationCurrentResult record) in
        ret (match current with
             | OView view => if ContactDeleted (ContactView.Status view) then inl current else restart
             | _ => restart
             end)
      else ret restart
  end.

(** ** The loop *)

Local Notation St := (W * locals)%type.

Definition on_world {E A} (m : M W E A) : M St E A :=
  fun st => let '(w, r) := m st.1 in ((w, st.2), r).

Definition get_record {E} : M St E Op.Record_ := reads (fun st => Ok (record st.2)).

Definition set_record {E} (r : Op.Record_) : M St E unit :=
  run (fun st => (st.1, {| record := r; workflow := workflow st.2 |})).

(** [defer f()]: [f] runs whatever the outcome and may replace it. *)
Definition deferred {S E A} (f : S -> result E A -> S * result E A) (m : M S E A) : M S E A :=
  fun s => let '(s, r) := m s in f s r.

(** A release whose failure replaces the outcome. *)
Definition released {A} (r : result Api.Error A) (record : Op.Record_) (e : result goerror unit)
    : result Api.Error A :=
  match e with
  | Ok _ => r
  | Err e => Err (operationPersistenceError record e)
  end.

Definition tracker_update (status phase currentRoomID errorCode resultJSON : string)
    : M (W * Tracker.Tracker_) goerror unit := fun st =>
  let '(w, t, r) := Tracker.Update (now ports st.1) (later ports st.1) st.1 st.2
                      status phase currentRoomID errorCode resultJSON in
  ((w, t), r).

Definition snapshot {E} : M (W * Tracker.Tracker_) E Op.Record_ :=
  reads (fun st => Ok (Tracker.Snapshot st.2)).

(** An update; its failure is reported for the tracker's record. *)
Definition settled (status phase currentRoomID errorCode resultJSON : string)
    : M (W * Tracker.Tracker_) Api.Error unit := fun st =>
  match tracker_update status phase currentRoomID errorCode resultJSON st with
  | (st, Ok _) => (st, Ok tt)
  | (st, Err e) => (st, Err (operationPersistenceError (Tracker.Snapshot st.2) e))
  end.

(** The handler failed. *)
Definition settleFailure (apiErr : Api.Error) : M (W * Tracker.Tracker_) Api.Error outcome :=
  let! current := snapshot in
  let recovering := operationNeedsRecovery (Op.Phase current) in
  let status := if recovering then operationStatusReconciling else operationStatusFailed in
  let code := if recovering && str_empty (Api.Code apiErr) then OperationRecoveryCode
              else Api.Code apiErr in
  let! _ := settled status (Op.Phase current) (Op.CurrentRoomID current) code "" in
  fail {| Api.Status := Api.Status apiErr; Api.Error_ := Api.Error_ apiErr; Api.Code := code;
          Api.OperationID := Op.OperationID current;
          Api.CurrentRoomID :=
            fallbackString (Api.CurrentRoomID apiErr) (Op.CurrentRoomID current) |}.

(** The handler returned. *)
Definition settleResult (r : outcome) : M (W * Tracker.Tracker_) Api.Error outcome :=
  let! current := snapshot in
  let '(r, status, currentRoomID, resultErrorCode) := operationResultMetadata r current in
  let! resultJSON :=
    reads (fun st => match MarshalResult r with
                     | Ok text => Ok text
                     | Err e => Err (operationPersistenceError (Tracker.Snapshot st.2) e)
                     end) in
  let reconcile := operationResultNeedsReconciliation status resultErrorCode in
  let! _ := settled (if reconcile then operationStatusReconciling else operationStatusCompleted)
              (if reconcile then Op.Phase current else operationPhaseCompleted)
              currentRoomID resultErrorCode resultJSON in
  ret r.

(** The parameters the handler sees. *)
Definition handlerParameters (action : string) (params : content) (record : Op.Record_) : content :=
  if str_eqb action "channels.public.join_request" ||
     str_empty (trimString (get params "request_id")) ||
     str_eqb action "channels.public.join_result" && str_empty (Op.BaseRequestID record)
  then <["request_id" := AString (Op.RequestID record)]> params else params.

Definition runHandler (handler : actionHandler) (pre : option Chan.Channel) (params : content)
    : M (W * Tracker.Tracker_) Api.Error outcome := fun st =>
  let '((w, t), r) := handler pre params (st.1, Some st.2) in
  match r with
  | Err e => settleFailure e (w, default st.2 t)
  | Ok r => settleResult r (w, default st.2 t)
  end.

(** [tracker.Release] when the operation is left. *)
Definition withTracker (t : Tracker.Tracker_) (m : M (W * Tracker.Tracker_) Api.Error outcome)
    : M W Api.Error outcome := fun w =>
  let '((w, t), r) := m (w, t) in
  let '(w, t, e) := Tracker.Release (now ports w) (later ports w) w t in
  (w, released r (Tracker.Snapshot t) e).

(** Renew the workflow's lease before the handler runs. *)
Definition heartbeat : M St Api.Error unit := fun st =>
  match workflow st.2 with
  | None => (st, Ok tt)
  | Some t =>
      let '(w, t, e) := Tracker.Heartbeat (now ports st.1) (later ports st.1) st.1 t in
      ((w, {| record := record st.2; workflow := Some t |}), released (Ok tt) (record st.2) e)
  end.

(** [withTracker] around steps that also use the local variables. *)
Definition tracked (t : Tracker.Tracker_) (before : M St Api.Error unit)
    (body : Op.Record_ -> M (W * Tracker.Tracker_) Api.Error outcome) : M St Api.Error outcome :=
  fun st =>
  match before st with
  | (st, Err e) => on_world (withTracker t (fail e)) st
  | (st, Ok _) => on_world (withTracker t (body (record st.2))) st
  end.

(** A completed contact operation that is no longer current starts over. *)
Definition restarted (reset : bool) (now : Z) (r : Op.Record_) : Op.Record_ :=
  if reset
  then Op.set_UpdatedAt now (Op.set_ErrorCode "" (Op.set_ResultJSON "" (Op.set_CurrentRoomID ""
         (Op.set_Phase operationPhasePrepared (Op.set_Status operationStatusRunning r)))))
  else r.

Definition claimAndRun (action : string) (params : content) (handler : actionHandler)
    (pre : option Chan.Channel) (reset : bool) : M St Api.Error outcome :=
  let! current := get_record in
  let! owner := on_world (token_of "claim_" "operation") in
  let! (claimedRecord, claimed) := on_world (persisted current (fun w =>
    ClaimOperation (now ports w) w current owner operationLeaseDurationMillis)) in
  if negb (str_eqb (Op.Action claimedRecord) action) ||
     operationIdentityConflict claimedRecord current
  then fail (conflictError current)
  else if negb claimed then on_world (operationInFlightResult claimedRecord)
  else
  let! time := reads (fun st => Ok (now ports st.1)) in
  let claimedRecord := restarted reset time claimedRecord in
  let! _ := set_record claimedRecord in
  tracked (Tracker.NewTracker owner claimedRecord operationLeaseDurationMillis) heartbeat
    (fun record => runHandler handler pre (handlerParameters action params record)).

(** The stored operation replaces the derived record; whether there is one. *)
Definition loadStored (action : string) : M St Api.Error bool :=
  let! current := get_record in
  let! stored := on_world (persisted current (reads (fun w =>
                   LookupOperation w (Op.OperationID current)))) in
  match stored with
  | None => ret false
  | Some stored =>
      if negb (str_eqb (Op.Action stored) action) || operationIdentityConflict stored current
      then fail (conflictError current)
      else let! _ := set_record stored in ret true
  end.

Definition lockedOperation (action : string) (params : content) (handler : actionHandler)
    (pre : option Chan.Channel) : M St Api.Error outcome :=
  let! found := loadStored action in
  let! current := get_record in
  let! superseded :=
    if found : bool
    then on_world (persisted current (reads (fun w =>
           operationGenerationSuperseded (directory ports w) current)))
    else ret false in
  if superseded : bool then on_world (supersededAnswer action current)
  else
  let! answer := on_world (completedAnswer action current) in
  match answer with
  | inl r => ret r
  | inr reset => claimAndRun action params handler pre reset
  end.

(** Public callbacks resolve their generation again under the workflow. *)
Definition refreshPublic (action : string) (params : content) : M St Api.Error (option outcome) :=
  if str_eqb action "channels.public.join_request" || str_eqb action "channels.public.join_result"
  then
    let! refreshed := on_world (record_for action params) in
    let! _ := set_record refreshed in
    on_world (publicJoinResultGenerationMismatch action params refreshed)
  else ret None.

(** [lockRecoverableOperation] around the locked part. *)
Definition underLock (m : M St Api.Error outcome) : M St Api.Error outcome := fun st =>
  let id := Op.OperationID (record st.2) in
  deferred (fun st r => ((unlockRecoverableOperation ports id st.1, st.2), r)) m
    (lockRecoverableOperation ports id st.1, st.2).

(** [workflow.Release] when the request is left. *)
Definition releaseWorkflow (st : St) (r : result Api.Error outcome)
    : St * result Api.Error outcome :=
  match workflow st.2 with
  | None => (st, r)
  | Some t =>
      let '(w, t, e) := Tracker.Release (now ports st.1) (later ports st.1) st.1 t in
      ((w, {| record := record st.2; workflow := Some t |}), released r (record st.2) e)
  end.

Definition underWorkflow (action : string) (params : content) (handler : actionHandler)
    (pre : option Chan.Channel) : M St Api.Error outcome :=
  deferred releaseWorkflow
    (let! refreshed := refreshPublic action params in
     match refreshed with
     | Some current => ret current
     | None => underLock (lockedOperation action params handler pre)
     end).

Definition handleRecoverableOperation (action : string) (params : content)
    (handler : actionHandler) (pre : option Chan.Channel) : M W Api.Error outcome :=
  let! r := record_for action params in
  let! mismatch := publicJoinResultGenerationMismatch action params r in
  match mismatch with
  | Some current => ret current
  | None =>
      let! acquired := acquireDurableBusinessWorkflow r in
      match acquired with
      | None => operationWorkflowBusyResult r
      | Some t => fun w =>
          let '(st, result_) := underWorkflow action params handler pre
                                  (w, {| record := r; workflow := t |}) in
          (st.1, result_)
      end
  end.

(** ** What handlers do with the tracker *)

Definition markRecoverableOperation (phase currentRoomID : string)
    : M (W * option Tracker.Tracker_) goerror unit := fun st =>
  match st.2 with
  | None => (st, Ok tt)
  | Some t =>
      let current := Tracker.Snapshot t in
      let '((w, t), r) := tracker_update operationStatusRunning phase currentRoomID
                            (Op.ErrorCode current) (Op.ResultJSON current) (st.1, t) in
      ((w, Some t), r)
  end.

Definition recoverableOperationSnapshot {E} : M (W * option Tracker.Tracker_) E (option Op.Record_) :=
  reads (fun st => Ok (option_map Tracker.Snapshot st.2)).

Definition recoverableOperationWriteError (err : goerror)
    : W * option Tracker.Tracker_ -> Api.Error := fun st =>
  match st.2 with
  | Some t => operationPersistenceError (Tracker.Snapshot t) err
  | None => Api.InternalError (error_text err)
  end.

(** ** Dispatch ([Handle] of [service.go])

    [room_domain] parses a room id and gives its domain
    ([gomatrixserverlib/spec]).  The store is set. *)
Record DispatchPorts := {
  serverName : string;
  room_domain : string -> option string;
  ListChannelInviteGrants : M W goerror (list Grant.ChannelInviteGrant);
  remotePublicChannelGet : string -> string -> content -> M W Api.Error (option Chan.Channel);
  rejectIfBlocked : string -> list string -> M W Api.Error unit;
  actions : string -> option actionHandler;
  beginAccountOperation : W -> W;
  finishAccountOperation : W -> W;
  accountIsDeprovisioned : W -> bool;
  lockMemberWorkflow : string -> W -> W;
  unlockMemberWorkflow : string -> W -> W;
}.
Context `{MatrixIDs} (dispatch : DispatchPorts).

Definition target_of (params : content) : M W Api.Error (string * string) :=
  reads (fun w => internal (memberTarget (directory ports w) params)).

Definition owner_ : M W Api.Error string := reads (fun w => Ok (OwnerMXID (directory ports w))).

Definition grant_matches (grantID shareRoomID roomID channelID : string)
    (grant : Grant.ChannelInviteGrant) : bool :=
  let agrees wanted found := str_empty wanted || str_eqb found wanted in
  agrees grantID (Grant.GrantID grant) && agrees shareRoomID (Grant.ShareRoomID grant) &&
  agrees roomID (Grant.RoomID grant) && agrees channelID (Grant.ChannelID grant).

Definition canonicalRecoverableParams (action : string) (params : content)
    : M W Api.Error content :=
  if negb (str_eqb action "channels.join") then ret params
  else
  let! (roomID, channelID) := target_of params in
  if negb (str_empty roomID) && negb (str_empty channelID) then ret params
  else
  let grantID := trimString (get params "grant_id") in
  let shareRoomID := fallbackString (trimString (get params "share_room_id"))
                       (trimString (get params "via_room_id")) in
  if str_empty grantID && str_empty shareRoomID then ret params
  else
  let! grants := Workflow.internal (ListChannelInviteGrants dispatch) in
  ret (match first_match (grant_matches grantID shareRoomID roomID channelID) grants with
       | Some grant => <["channel_id" := AString (Grant.ChannelID grant)]>
                         (<["room_id" := AString (Grant.RoomID grant)]> params)
       | None => params
       end).

(** [request_id], if given, is a string of printable characters. *)
Definition validRequestID (params : content) : bool :=
  match params !! "request_id" with
  | None => true
  | Some (AString s) =>
      str_empty (trim_space s) || publicRequestIDPattern (trim_space s)
  | Some _ => false
  end.

(** [spec.NewUserID(userID, true)] succeeds. *)
Definition validUserID (userID : string) : bool :=
  match NewUserID userID with Ok _ => true | Err _ => false end.

Definition validResultStatus (params : content) : bool :=
  one_of (to_lower (trimString (get params "status")))
    ["rejected"; "approved"; "joining"; "joined"].

Definition require (b : bool) (e : Api.Error) : M W Api.Error unit :=
  if b then ret tt else fail e.

(** [firstMemberID], or the owner. *)
Definition member_or_owner (params : content) : M W Api.Error string :=
  let! owner := owner_ in
  ret (if str_empty (firstMemberID params) then owner else firstMemberID params).

Definition room_or_channel_required := Api.BadRequest "room_id or channel_id is required".

Definition validatePublicRecoveryShape (action : string) (params : content)
    : M W Api.Error unit :=
  let roomID := trimString (get params "room_id") in
  let channelID := trimString (get params "channel_id") in
  let isResult := str_eqb action "channels.public.join_result" in
  let! _ := require (negb (str_empty roomID && str_empty channelID)) room_or_channel_required in
  let! _ := require (str_empty roomID || bool_decide (is_Some (Remote.roomServerFromMatrixRoomID (room_domain dispatch) roomID)))
              (Api.BadRequest "valid Matrix room_id is required") in
  let! userID := member_or_owner params in
  let! _ := require (negb (str_empty userID)) (Api.BadRequest "user_id is required") in
  let! _ := require (validUserID userID) (Api.BadRequest "valid user_id is required") in
  let! owner := owner_ in
  let! _ := require (negb (isResult && negb (str_eqb userID owner)))
              (Api.StatusError 403 "join result user must be local owner") in
  let! _ := require (validRequestID params) (Api.BadRequest "request_id is invalid") in
  require (negb isResult || validResultStatus params)
    (Api.BadRequest "status must be approved or rejected").

(** The channel that a preflight resolved on another node. *)
Definition preflightPublicChannelJoinRequest (params : content)
    : M W Api.Error (option Chan.Channel) :=
  let! (roomID, channelID) := target_of params in
  let! _ := require (negb (str_empty roomID && str_empty channelID)) room_or_channel_required in
  let! userID := member_or_owner params in
  let! _ := require (negb (str_empty userID)) (Api.BadRequest "user_id is required") in
  let! _ := require (validUserID userID) (Api.BadRequest "valid user_id is required") in
  let! _ := require (validRequestID params) (Api.BadRequest "request_id is invalid") in
  let invite_only ch := equal_fold (Chan.JoinPolicy ch) "invite" in
  let requires_invite := Api.StatusError 403 "channel requires invite" in
  let not_found := Api.StatusError 404 "channel not found" in
  let locally :=
    let! ch := reads (fun w =>
                 internal (channelByIDOrRoom (directory ports w) channelID roomID)) in
    match ch with
    | None => fail not_found
    | Some ch =>
        let! _ := require (equal_fold (Chan.Visibility ch) "public")
                    (Api.StatusError 403 "channel is private") in
        let! _ := require (negb (invite_only ch)) requires_invite in
        let! _ := rejectIfBlocked dispatch "contact" [userID] in
        ret None
    end in
  if str_empty roomID then locally
  else
  match Remote.roomServerFromMatrixRoomID (room_domain dispatch) roomID with
  | None => fail (Api.BadRequest "valid Matrix room_id is required")
  | Some roomServer =>
      if str_eqb roomServer (serverName dispatch) then locally
      else
      let! ch := remotePublicChannelGet dispatch channelID roomID params in
      match ch with
      | None => fail not_found
      | Some ch =>
          let! _ := require (negb (invite_only ch)) requires_invite in
          ret (Some ch)
      end
  end.

Definition preflightPublicChannelJoinResult (params : content) : M W Api.Error unit :=
  let! (roomID, channelID) := target_of params in
  let! _ := require (negb (str_empty roomID && str_empty channelID)) room_or_channel_required in
  let! owner := owner_ in
  let userID := if str_empty (firstMemberID params) then owner else firstMemberID params in
  let! _ := require (str_eqb userID owner)
              (Api.StatusError 403 "join result user must be local owner") in
  let! member := reads (fun w => internal (lookupMember (directory ports w) roomID userID)) in
  match member with
  | None => fail (Api.CodedError 404 RequestNotFoundCode "join request not found")
  | Some member =>
      let! _ := require (one_of (to_lower (trim_space (Member.Membership member)))
                           ["pending"; "approved"; "joining"; "join_failed"; "invite"; "join";
                            "reject"; "rejected"])
                  (Api.CodedError 410 RequestExpiredCode "join request expired") in
      require (validResultStatus params) (Api.BadRequest "status must be approved or rejected")
  end.

Definition preflightRecoverablePublicAction (action : string) (params : content)
    : M W Api.Error (option Chan.Channel) :=
  let request := str_eqb action "channels.public.join_request" in
  if negb request && negb (str_eqb action "channels.public.join_result") then ret None
  else
  let! _ := validatePublicRecoveryShape action params in
  let! r := record_for action params in
  let! stored := persisted r (reads (fun w => LookupOperation w (Op.OperationID r))) in
  match stored with
  | Some _ => ret None
  | None =>
      if request then preflightPublicChannelJoinRequest params
      else let! _ := preflightPublicChannelJoinResult params in ret None
  end.

(** The key of the member workflow lock; [None] when there is none to take. *)
Definition memberWorkflowKey (action : string) (params : content) : M W Api.Error (option string) :=
  if negb (memberWorkflowProductAction action) &&
     negb (explicitRetainedRoomRebuildAction action params) then ret None
  else
  let! (roomID, channelID) := target_of params in
  let! owner := owner_ in
  let roomID := fallbackString roomID (trimString (get params "room_id")) in
  let channelID := fallbackString channelID (trimString (get params "channel_id")) in
  let userID := firstMemberID params in
  let userID :=
    if str_empty userID &&
       one_of action ["groups.join"; "groups.invite.reject"; "channels.join";
                      "channels.public.join_request"] then owner else userID in
  ret (if str_empty roomID && str_empty channelID || str_empty userID then None
       else Some (join_nul [roomID; channelID; userID])).

(** [lockMemberWorkflowForAction] with its deferred release. *)
Definition lockMemberWorkflowForAction (action : string) (params : content)
    (m : M W Api.Error outcome) : M W Api.Error outcome :=
  let! key := memberWorkflowKey action params in
  match key with
  | None => m
  | Some key => fun w =>
      deferred (fun w r => (unlockMemberWorkflow dispatch key w, r)) m
        (lockMemberWorkflow dispatch key w)
  end.

(** A handler outside the loop has no tracker. *)
Definition untracked (handler : actionHandler) (pre : option Chan.Channel) (params : content)
    : M W Api.Error outcome :=
  fun w => let '(st, r) := handler pre params (w, None) in (st.1, r).

Definition dispatched (action : string) (params : content) (handler : actionHandler)
    : M W Api.Error outcome :=
  let! params := canonicalRecoverableParams action params in
  let! pre := preflightRecoverablePublicAction action params in
  match validateExplicitRetainedRoomRebuild action params with
  | Some rebuildErr => fail rebuildErr
  | None =>
      lockMemberWorkflowForAction action params
        (if recoverableProductAction action || explicitRetainedRoomRebuildAction action params
         then handleRecoverableOperation action params handler pre
         else untracked handler pre params)
  end.

Definition Handle (action : string) (params : content) : M W Api.Error outcome :=
  let action := trim_space action in
  match actions dispatch action with
  | None => fail (Api.BadRequest "unknown action")
  | Some handler =>
      if str_eqb action "portal.account.delete" then untracked handler None params
      else fun w =>
        deferred (fun w r => (finishAccountOperation dispatch w, r))
          (fun w => if accountIsDeprovisioned dispatch w
                    then (w, Err (Api.StatusError 401 "M_UNKNOWN_TOKEN"))
                    else dispatched action params handler w)
          (beginAccountOperation dispatch w)
  end.
End Service_.
Arguments DispatchPorts : clear implicits.
End Recovery.
