(* ===== verification/RecoveryFacts.v ===== *)
(** * Theorems on the execution of recoverable operations

    The operations table is the memory table; before every write that reaches
    it other processes may act ([others]).  Leases are never left behind, a
    settled result is replayed, a held operation is not run twice, a failure
    is recorded, and a forged callback changes nothing. *)

From Stdlib Require Import Ascii String ZArith Lia.
From stdpp Require Import base tactics list gmap strings.
From S2P Require Import Prelude GoStrings Values Domain Policy Action Operations.
From S2P Require Import OperationIdentity Workflow Conversation Contacts PolicyFacts OperationsFacts Recovery.
Local Open Scope Z_scope.
Local Open Scope go_scope.

Module RecoveryFacts.
Import Identity Recovery.
Abbreviation table := MemoryOperations.store.

(** The memory table inside a world, with other processes around it. *)
Definition shared_store {X : Type} (others : table * X -> table * X)
    : OperationStore (table * X) := {|
  LookupOperation w id := MemoryOperations.LookupOperation w.1 id;
  ClaimOperation now w r owner d :=
    let w := others w in
    let '(s, result_) := MemoryOperations.ClaimOperation now w.1 r owner d in
    ((s, w.2), result_);
  CompareAndSwapOperation now now' w r rev owner d :=
    let w := others w in
    let '(s, result_) := MemoryOperations.CompareAndSwapOperation now now' w.1 r rev owner d in
    ((s, w.2), result_);
|}.

Lemma keeps_persisted {W A} (P : W -> Prop) r (m : M W goerror A) :
  keeps P m -> keeps P (persisted r m).
Proof.
  intros Hm w Hw. specialize (Hm w Hw). unfold persisted. by destruct (m w) as [w' [a|e]].
Qed.

Lemma keeps_attempt_step {W E E' A} (P : W -> Prop) (m : M W E A) :
  keeps P m -> keeps P (attempt (E' := E') m).
Proof. intros Hm w Hw. specialize (Hm w Hw). unfold attempt. by destruct (m w). Qed.

Create HintDb looks discriminated.

Ltac looks :=
  repeat first
  [ progress intros
  | solve [auto 1 with looks nocore]
  | apply keeps_bind | apply keeps_persisted | apply keeps_attempt_step
  | progress (cbv zeta)
  | match goal with
    | |- keeps _ (match ?x with _ => _ end) => destruct x eqn:?
    | |- keeps _ (let '(_, _) := ?x in _) => destruct x
    | |- keeps _ (if ?x then _ else _) => destruct x
    end ].

(** ** Steps that only look

    A property of the world that the ports keep is kept by every step that
    presents a result. *)
Section Looks.
Context `{GoRange} `{ResultCodec} {W : Type} `{OperationStore W} (ports : Ports W).
Context (P : W -> Prop).

Record kept_by_ports : Prop := {
  kp_view : forall action contact, keeps P (HydrateView ports action contact);
  kp_operation : forall f, Operation ports = Some f ->
                 forall action status roomID, keeps P (f action status roomID);
  kp_record : forall f, GetRecord ports = Some f -> forall id roomID, keeps P (f id roomID);
  kp_joined : forall roomID userID, keeps P (matrixMemberJoined ports roomID userID);
  kp_snapshot : forall channelID w, P w -> P (channelSnapshot ports channelID w).1;
  kp_token : forall kind w, P w -> P (randomToken ports kind w).1;
}.
Context (Hkeeps : kept_by_ports).


Lemma keeps_joined roomID userID : keeps P (matrixMemberJoined ports roomID userID).
Proof using Hkeeps. apply (kp_joined Hkeeps). Qed.

Lemma keeps_view action contact : keeps P (HydrateView ports action contact).
Proof using Hkeeps. apply (kp_view Hkeeps). Qed.

#[local] Hint Resolve keeps_ret keeps_fail keeps_reads keeps_joined keeps_view : looks.

Lemma keeps_hydrateMember r m : keeps P (hydrateMemberRecoveryResult ports r m).
Proof using Hkeeps.
  unfold hydrateMemberRecoveryResult, HydrateResult. looks.
  by apply (kp_operation Hkeeps).
Qed.
#[local] Hint Resolve keeps_hydrateMember : looks.

Lemma keeps_hydrateContact r v : keeps P (hydrateContactRecoveryView ports r v).
Proof using Hkeeps. unfold hydrateContactRecoveryView, hasContacts. looks. Qed.
#[local] Hint Resolve keeps_hydrateContact : looks.

Lemma keeps_channelKey channelID r : keeps P (channelKey ports channelID r).
Proof using Hkeeps.
  intros w Hw. unfold channelKey. destruct (str_empty channelID); [done|].
  pose proof (kp_snapshot Hkeeps channelID w Hw) as Hs.
  by destruct (channelSnapshot ports channelID w).
Qed.
#[local] Hint Resolve keeps_channelKey : looks.

Lemma keeps_superseded r : keeps P (supersededOperationCurrentResult ports r).
Proof using Hkeeps.
  unfold supersededOperationCurrentResult, memberCurrentResult, memberStatusKeys, contact_of,
    member_of. looks.
Qed.
#[local] Hint Resolve keeps_superseded : looks.

Lemma keeps_confirms b roomID userID : keeps P (matrixConfirms ports b roomID userID).
Proof using Hkeeps. unfold matrixConfirms. looks. Qed.
#[local] Hint Resolve keeps_confirms : looks.

Lemma keeps_stillCurrent r o : keeps P (completedOperationStillCurrent ports r o).
Proof using Hkeeps.
  unfold completedOperationStillCurrent, retainedInviteStillCurrent, rejectedStillCurrent,
    contactStillCurrent, hasContacts, contact_of, member_of, and_then, guarded, owner_now.
  looks. by apply (kp_record Hkeeps).
Qed.
#[local] Hint Resolve keeps_stillCurrent : looks.

Lemma keeps_hydratedMap r m : keeps P (hydratedMap ports r m).
Proof using Hkeeps. unfold hydratedMap. looks. Qed.
#[local] Hint Resolve keeps_hydratedMap : looks.

Lemma keeps_hydratedView r v : keeps P (hydratedView ports r v).
Proof using Hkeeps. unfold hydratedView. looks. Qed.
#[local] Hint Resolve keeps_hydratedView : looks.

Lemma keeps_currentCached r action : keeps P (currentCached ports r action).
Proof using Hkeeps. unfold currentCached, decoded. looks. Qed.
#[local] Hint Resolve keeps_currentCached : looks.

Lemma keeps_inFlight r : keeps P (operationInFlightResult ports r).
Proof using Hkeeps.
  unfold operationInFlightResult, or_else, decoded. looks.
Qed.
#[local] Hint Resolve keeps_inFlight : looks.

Lemma keeps_busy r : keeps P (operationWorkflowBusyResult ports r).
Proof using Hkeeps.
  unfold operationWorkflowBusyResult, or_else, storedCompletion. looks.
Qed.
#[local] Hint Resolve keeps_busy : looks.

Lemma keeps_mismatch action params r :
  keeps P (publicJoinResultGenerationMismatch ports action params r).
Proof using Hkeeps. unfold publicJoinResultGenerationMismatch. looks. Qed.
#[local] Hint Resolve keeps_mismatch : looks.

Lemma keeps_supersededAnswer action r : keeps P (supersededAnswer ports action r).
Proof using Hkeeps.
  unfold supersededAnswer, decoded. looks.
Qed.
#[local] Hint Resolve keeps_supersededAnswer : looks.

Lemma keeps_completedAnswer action r : keeps P (completedAnswer ports action r).
Proof using Hkeeps.
  unfold completedAnswer. looks.
Qed.
#[local] Hint Resolve keeps_completedAnswer : looks.

Lemma keeps_token {E} prefix kind : keeps P (token_of (E := E) ports prefix kind).
Proof using Hkeeps.
  intros w Hw. pose proof (kp_token Hkeeps kind w Hw) as Ht.
  unfold token_of. by destruct (randomToken ports kind w).
Qed.
#[local] Hint Resolve keeps_token : looks.
End Looks.

#[export] Hint Resolve keeps_ret keeps_fail keeps_reads keeps_stillCurrent keeps_hydratedMap
  keeps_hydratedView keeps_currentCached keeps_superseded keeps_inFlight keeps_busy
  keeps_mismatch keeps_supersededAnswer keeps_completedAnswer keeps_token : looks.

Section Leases.
Context `{GoRange} `{ResultCodec} {X : Type} (others : table * X -> table * X).
Local Notation W := (table * X)%type.
Local Instance store : OperationStore W := shared_store others.
Context (ports : Ports W).
(** The lease owners of one request. *)
Context (ours : string -> Prop).

(** ** Leases and the trackers that hold them *)

Definition live (w : W) (id : string) (r : Op.Record_) : Prop :=
  w.1 !! id = Some r /\ now ports w < Op.LeaseUntil r.

(** A tracker of the request. *)
Definition good (t : Tracker.Tracker_) : Prop :=
  Tracker.owner t <> "" /\ Op.LeaseOwner (Tracker.record t) = Tracker.owner t /\
  0 < Tracker.leaseDurationMillis t.

Definition covers (t : Tracker.Tracker_) (id : string) (r : Op.Record_) : Prop :=
  id = Op.OperationID (Tracker.record t) /\ Op.LeaseOwner r = Tracker.owner t /\
  Op.Revision r = Op.Revision (Tracker.record t).

(** Every live lease of the request is held by one of its trackers. *)
Definition holds (ts : list Tracker.Tracker_) (w : W) : Prop :=
  forall id r, live w id r -> ours (Op.LeaseOwner r) -> exists t, t ∈ ts /\ covers t id r.

(** No live lease belongs to the request. *)
Definition unleased (w : W) : Prop :=
  forall id r, live w id r -> ~ ours (Op.LeaseOwner r).

(** What other processes do: they neither take nor change our leases. *)
Definition gentle (f : W -> W) : Prop :=
  forall w id r, live (f w) id r -> ours (Op.LeaseOwner r) -> live w id r.

Definition gentle_step {E A} (m : M W E A) : Prop := gentle (fun w => (m w).1).

Record gentle_ports : Prop := {
  gp_others : gentle others;
  gp_view : forall action contact, gentle_step (HydrateView ports action contact);
  gp_operation : forall f, Operation ports = Some f ->
                 forall action status roomID, gentle_step (f action status roomID);
  gp_record : forall f, GetRecord ports = Some f -> forall id roomID, gentle_step (f id roomID);
  gp_joined : forall roomID userID, gentle_step (matrixMemberJoined ports roomID userID);
  gp_snapshot : forall channelID, gentle (fun w => (channelSnapshot ports channelID w).1);
  gp_token : forall kind, gentle (fun w => (randomToken ports kind w).1);
  gp_pause : gentle (fun w => (pause ports w).1);
  gp_lock : forall id, gentle (lockRecoverableOperation ports id);
  gp_unlock : forall id, gentle (unlockRecoverableOperation ports id);
  gp_now : forall s s' x, now ports (s, x) = now ports (s', x);
  gp_tokens : forall kind w, ours ("workflow_" +:+ (randomToken ports kind w).2) /\
                             ours ("claim_" +:+ (randomToken ports kind w).2);
  gp_unowned : ~ ours "";
}.
Context (Hports : gentle_ports).

Lemma holds_gentle ts f w : gentle f -> holds ts w -> holds ts (f w).
Proof using Type. intros Hf Hw id r Hl Ho. apply Hw; [by apply Hf|done]. Qed.

Lemma holds_gentle_pair {A} ts (f : W -> W * A) w :
  gentle (fun w => (f w).1) -> holds ts w -> holds ts (f w).1.
Proof using Type. intros Hf. apply (holds_gentle ts (fun w => (f w).1) w Hf). Qed.

Lemma keeps_gentle {E A} ts (m : M W E A) : gentle_step m -> keeps (holds ts) m.
Proof using Type. intros Hm w Hw. by apply (holds_gentle ts (fun w => (m w).1)). Qed.

Lemma ports_keep ts : kept_by_ports ports (holds ts).
Proof using Hports.
  split; intros.
  - apply keeps_gentle, (gp_view Hports).
  - by apply keeps_gentle, (gp_operation Hports).
  - by apply keeps_gentle, (gp_record Hports).
  - apply keeps_gentle, (gp_joined Hports).
  - by apply holds_gentle_pair; [apply (gp_snapshot Hports)|].
  - by apply holds_gentle_pair; [apply (gp_token Hports)|].
Qed.

Lemma holds_nil w : unleased w <-> holds [] w.
Proof using Type.
  split; [intros Hw id r Hl Ho; by destruct (Hw id r Hl)|].
  intros Hw id r Hl Ho. destruct (Hw id r Hl Ho) as (t & Ht & _). by apply elem_of_nil in Ht.
Qed.

Lemma holds_weaken ts t w : holds ts w -> holds (t :: ts) w.
Proof using Type.
  intros Hw id r Hl Ho. destruct (Hw id r Hl Ho) as (t' & Hin & Hc).
  exists t'. split; [by right|done].
Qed.

(** A write of one row. *)
Lemma holds_insert ts s x id r :
  holds ts (s, x) ->
  (now ports (s, x) < Op.LeaseUntil r -> ours (Op.LeaseOwner r) ->
   exists t, t ∈ ts /\ covers t id r) ->
  holds ts (<[id := r]> s, x).
Proof using Hports.
  intros Hw Hr id' r' [Hl Ht] Ho. rewrite (gp_now Hports _ s) in Ht. simpl in Hl.
  destruct (decide (id = id')) as [<-|Hne].
  - rewrite lookup_insert_eq in Hl. simplify_eq. by apply Hr.
  - rewrite lookup_insert_ne in Hl by done. by apply Hw.
Qed.

Lemma lease_spec owner t d : owner <> "" -> 0 < d ->
  MemoryOperations.lease owner t d = (owner, wrap64 (t + d)).
Proof using Type.
  intros Ho Hd. unfold MemoryOperations.lease.
  apply str_empty_false in Ho. rewrite Ho. by rewrite (proj2 (Z.ltb_lt 0 d) Hd).
Qed.

(** ** Claims and trackers *)

Lemma claim_holds ts w r owner d c w' :
  ours owner -> 0 < d -> holds ts w ->
  ClaimOperation (now ports w) w r owner d = (w', Ok (c, true)) ->
  forall c', Op.OperationID c' = Op.OperationID c -> Op.Revision c' = Op.Revision c ->
  Op.LeaseOwner c' = Op.LeaseOwner c ->
  good (Tracker.NewTracker owner c' d) /\ holds (Tracker.NewTracker owner c' d :: ts) w'.
Proof using Hports.
  intros Ho Hd Hw Hc c' H1 H2 H3.
  assert (Hne : owner <> "") by (intros ->; by apply (gp_unowned Hports)).
  assert (Hrow : Op.LeaseOwner c = owner /\ w' = (<[Op.OperationID c := c]> (others w).1, (others w).2)).
  { simpl in Hc. destruct ((others w).1 !! Op.OperationID r) as [k|] eqn:E.
    - pose proof (ClaimOperation_taken (now ports w) (others w).1 r k owner d E) as [[_ Hk]|[_ Hk]];
        simpl in Hk; rewrite Hk in Hc; simplify_eq.
      unfold renewed. rewrite lease_spec by done. done.
    - pose proof (ClaimOperation_new (now ports w) (others w).1 r owner d E) as Hk.
      simpl in Hk. rewrite Hk in Hc. simplify_eq. rewrite lease_spec by done. done. }
  destruct Hrow as [Hl ->]. split; [split_and!; simpl; congruence|].
  apply holds_insert; [destruct (others w) eqn:Eo; simpl; rewrite <- Eo|].
  - apply holds_weaken, holds_gentle; [apply (gp_others Hports)|done].
  - intros _ _. exists (Tracker.NewTracker owner c' d). split; [left|].
    unfold covers. simpl. split_and!; congruence.
Qed.

Lemma claim_kept ts w r owner d : holds ts w ->
  (forall c, (ClaimOperation (now ports w) w r owner d).2 <> Ok (c, true)) ->
  holds ts (ClaimOperation (now ports w) w r owner d).1.
Proof using Hports.
  intros Hw Hn. pose proof (holds_gentle ts others w (gp_others Hports) Hw) as Ho.
  simpl in *. destruct ((others w).1 !! Op.OperationID r) as [k|] eqn:E.
  - pose proof (ClaimOperation_taken (now ports w) (others w).1 r k owner d E) as [[_ Hk]|[_ Hk]];
      simpl in Hk; rewrite Hk in *; [by edestruct Hn|]. by destruct (others w).
  - pose proof (ClaimOperation_new (now ports w) (others w).1 r owner d E) as Hk.
    simpl in Hk. rewrite Hk in Hn. by edestruct Hn.
Qed.

(** A write of the row that a tracker covers. *)
Lemma holds_swap t ts ts' s x r :
  holds (t :: ts) (s, x) -> ts ⊆ ts' ->
  (now ports (s, x) < Op.LeaseUntil r -> ours (Op.LeaseOwner r) ->
   exists t', t' ∈ ts' /\ covers t' (Op.OperationID (Tracker.record t)) r) ->
  holds ts' (<[Op.OperationID (Tracker.record t) := r]> s, x).
Proof using Hports.
  intros Hw Hsub Hr id r' [Hl Ht] Ho. rewrite (gp_now Hports _ s) in Ht. simpl in Hl.
  destruct (decide (Op.OperationID (Tracker.record t) = id)) as [<-|Hne].
  - rewrite lookup_insert_eq in Hl. simplify_eq. by apply Hr.
  - rewrite lookup_insert_ne in Hl by done.
    destruct (Hw id r' (conj Hl Ht) Ho) as (t' & [->|Hin]%elem_of_cons & Hc);
      [by destruct Hc as [-> _]|]. exists t'. split; [by apply Hsub|done].
Qed.

(** A write through a tracker succeeds on the row the tracker knows, and
    fails only when the tracker's lease is gone. *)
Lemma swap_holds ts w t r d e :
  holds (t :: ts) w -> Op.OperationID r = Op.OperationID (Tracker.record t) ->
  let o := Tracker.settle t
      (CompareAndSwapOperation (now ports w) (later ports w) w r
         (Op.Revision (Tracker.record t)) (Tracker.owner t) d) e in
  (exists c, let n := swapped (later ports w) c r d in
     o = ((<[Op.OperationID (Tracker.record t) := n]> (others w).1, (others w).2),
          Tracker.with_record t n, Ok tt)) \/
  (o.1.2 = t /\ o.2 = Err e /\ holds ts o.1.1).
Proof using Hports.
  intros Hw Hid.
  pose proof (holds_gentle _ others w (gp_others Hports) Hw) as Ho.
  simpl. pose proof (CompareAndSwap_cases (now ports w) (later ports w) (others w).1 r
    (Op.Revision (Tracker.record t)) (Tracker.owner t) d) as [(c & Hc & Hs & Hk)|[Hs Hk]];
    simpl in Hk; rewrite Hk; simpl; [left; exists c; by rewrite Hid|right].
  split_and!; [done..|]. destruct (others w) as [s x] eqn:Eo. simpl in *.
  intros id r' Hl Hr'. destruct (Ho id r' Hl Hr') as (t' & [->|Hin]%elem_of_cons & Hc); [|eauto].
  destruct Hc as (-> & Hown & Hrev). exfalso.
  apply (Hs r'); [rewrite Hid; apply Hl|]. split_and!; [done..|].
  rewrite <- Eo in Hl. by apply (gp_others Hports) in Hl as [_ ?].
Qed.

Lemma updated_lease_owner time r status phase room code json :
  Op.LeaseOwner (Tracker.updated time r status phase room code json) = Op.LeaseOwner r.
Proof using Type.
  unfold Tracker.updated. by destruct (str_empty status), (str_empty phase), (str_empty room).
Qed.

(** A tracker that renews its lease holds it. *)
Lemma renewed_holds ts t w c r :
  good t -> holds (t :: ts) w -> Op.OperationID r = Op.OperationID (Tracker.record t) ->
  Op.LeaseOwner r = Tracker.owner t ->
  let n := swapped (later ports w) c r (Tracker.leaseDurationMillis t) in
  good (Tracker.with_record t n) /\
  holds (Tracker.with_record t n :: ts)
    (<[Op.OperationID (Tracker.record t) := n]> (others w).1, (others w).2).
Proof using Hports.
  intros (Hne & Hlo & Hd) Hw Hid Hr n.
  assert (Hn : Op.LeaseOwner n = Tracker.owner t)
    by (unfold n, swapped; rewrite Hr, lease_spec; done).
  split; [split_and!; done|].
  apply holds_swap with ts; [|by intros x Hx; right|].
  - pose proof (holds_gentle _ others w (gp_others Hports) Hw) as Ho. by destruct (others w).
  - intros _ _. eexists. split; [left|]. split_and!; simpl; [by rewrite Hid|done|done].
Qed.

Lemma update_holds ts w t status phase room code json :
  good t -> holds (t :: ts) w ->
  let o := Tracker.Update (now ports w) (later ports w) w t status phase room code json in
  good o.1.2 /\ holds (o.1.2 :: ts) o.1.1.
Proof using Hports.
  intros Hg Hw. unfold Tracker.Update.
  edestruct swap_holds as [[c ->]|(-> & _ & Hk)]; [done|apply updated_id| |].
  - apply renewed_holds; [done|done|apply updated_id|].
    rewrite updated_lease_owner. apply Hg.
  - split; [done|]. by apply holds_weaken.
Qed.

Lemma release_holds ts w t :
  good t -> holds (t :: ts) w ->
  holds ts (Tracker.Release (now ports w) (later ports w) w t).1.1.
Proof using Hports.
  intros (Hne & Hlo & Hd) Hw. unfold Tracker.Release.
  rewrite Hlo, (proj2 (str_empty_false _)) by done.
  edestruct swap_holds as [[c ->]|(_ & _ & Hk)]; [done|done| |done].
  apply holds_swap with ts; [|done|].
  - pose proof (holds_gentle _ others w (gp_others Hports) Hw) as Ho. by destruct (others w).
  - intros _ Ho. by apply (gp_unowned Hports) in Ho.
Qed.

(** ** The loop keeps track of its leases *)

(** A tracker in use, besides those of [ts]. *)
Definition in_use (ts : list Tracker.Tracker_) (st : W * Tracker.Tracker_) : Prop :=
  good st.2 /\ holds (st.2 :: ts) st.1.

(** Handlers may act on the world and advance the tracker they are given. *)
Definition honest (handler : actionHandler (W := W)) : Prop :=
  forall pre params ts w t, in_use ts (w, t) ->
  let o := handler pre params (w, Some t) in in_use ts (o.1.1, default t o.1.2).

Lemma keeps_settled ts status phase room code json :
  keeps (in_use ts) (settled ports status phase room code json).
Proof using Hports.
  intros [w t] [Hg Hw]. unfold settled, tracker_update. simpl.
  pose proof (update_holds ts w t status phase room code json Hg Hw) as [Hg' Hw'].
  destruct (Tracker.Update _ _ _ _ _ _ _ _ _) as [[w' t'] [u|e]]; by split.
Qed.

Lemma keeps_settleFailure ts e : keeps (in_use ts) (settleFailure ports e).
Proof using Hports.
  unfold settleFailure, snapshot. apply keeps_bind; [apply keeps_reads|]. intros r.
  apply keeps_bind; [apply keeps_settled|]. intros _. apply keeps_fail.
Qed.

Lemma keeps_settleResult ts o : keeps (in_use ts) (settleResult ports o).
Proof using Hports.
  unfold settleResult, snapshot. apply keeps_bind; [apply keeps_reads|]. intros r.
  destruct (operationResultMetadata o r) as [[[o' status] room] code].
  apply keeps_bind; [apply keeps_reads|]. intros json.
  apply keeps_bind; [apply keeps_settled|]. intros _. apply keeps_ret.
Qed.

Lemma keeps_runHandler ts handler pre params :
  honest handler -> keeps (in_use ts) (runHandler ports handler pre params).
Proof using Hports.
  intros Hh [w t] Hw. pose proof (Hh pre params ts w t Hw) as Hr. unfold runHandler. simpl in *.
  destruct (handler pre params (w, Some t)) as [[w' t'] [o|e]];
    [by apply keeps_settleResult|by apply keeps_settleFailure].
Qed.

Lemma withTracker_holds ts t w m :
  keeps (in_use ts) m -> in_use ts (w, t) -> holds ts (withTracker ports t m w).1.
Proof using Hports.
  intros Hm Hw. specialize (Hm (w, t) Hw). unfold withTracker.
  destruct (m (w, t)) as [[w' t'] r]. destruct Hm as [Hg Hh].
  pose proof (release_holds ts w' t' Hg Hh) as Hr. simpl in *.
  by destruct (Tracker.Release _ _ _ _) as [[w'' t''] e].
Qed.

(** ** The local variables *)

Definition held_by (l : locals) : list Tracker.Tracker_ :=
  match workflow l with Some t => [t] | None => [] end.

(** The workflow's tracker is in use, besides those of [ts]. *)
Definition held (ts : list Tracker.Tracker_) (st : W * locals) : Prop :=
  Forall good (held_by st.2) /\ holds (held_by st.2 ++ ts) st.1.

Lemma keeps_on_world {E A} ts (m : M W E A) :
  (forall ts, keeps (holds ts) m) -> keeps (held ts) (on_world m).
Proof using Type.
  intros Hm [w l] [Hg Hw]. specialize (Hm _ w Hw). unfold on_world. simpl in *.
  by destruct (m w) as [w' r].
Qed.

Lemma keeps_set_record {E} ts r : keeps (held ts) (set_record (E := E) r).
Proof using Type. by intros [w l] [Hg Hw]. Qed.

Lemma keeps_heartbeat ts : keeps (held ts) (heartbeat ports).
Proof using Hports.
  intros [w [r [t|]]] [Hg Hw]; [|done]. simpl in *. apply Forall_cons in Hg as [Hg _].
  unfold heartbeat, Tracker.Heartbeat. simpl.
  pose proof (update_holds ts w t (Op.Status (Tracker.Snapshot t)) (Op.Phase (Tracker.Snapshot t))
    (Op.CurrentRoomID (Tracker.Snapshot t)) (Op.ErrorCode (Tracker.Snapshot t))
    (Op.ResultJSON (Tracker.Snapshot t)) Hg Hw) as [Hg' Hw'].
  destruct (Tracker.Update _ _ _ _ _ _ _ _ _) as [[w' t'] e].
  split; [by constructor|done].
Qed.

#[local] Instance holds_perm : Proper ((≡ₚ) ==> eq ==> iff) holds.
Proof using Type.
  intros ts ts' Hp w ? <-. unfold holds. by setoid_rewrite Hp.
Qed.

Lemma on_world_state {E A} (m : M W E A) st : (on_world m st).1 = ((m st.1).1, st.2).
Proof using Type. unfold on_world. by destruct (m st.1). Qed.

(** The operation's tracker joins the workflow's. *)
Lemma tracked_held t body w l :
  (forall r ts, keeps (in_use ts) (body r)) -> good t -> held [t] (w, l) ->
  held [] (tracked ports t (heartbeat ports) body (w, l)).1.
Proof using Hports.
  intros Hb Hg Hw. pose proof (keeps_heartbeat [t] (w, l) Hw) as Hk. unfold tracked.
  destruct (heartbeat ports (w, l)) as [[w' l'] [u|e]]; destruct Hk as [Hg' Hw'];
    rewrite on_world_state; simpl in *; rewrite Permutation_app_comm in Hw';
    (split; [done|]); simpl; rewrite app_nil_r;
    (apply withTracker_holds; [first [apply Hb|apply keeps_fail]|by split]).
Qed.

(** ** The whole request *)

Lemma yields_token {E} kind :
  yields (fun w => holds [] w) (token_of (E := E) ports "workflow_" kind) ours /\
  forall ts, yields (held ts) (on_world (token_of (E := E) ports "claim_" kind)) ours.
Proof using Hports.
  split.
  - intros w Hw. split; [by apply (keeps_token ports _ (ports_keep _))|]. unfold token_of.
    pose proof (gp_tokens Hports kind w) as [Ht _].
    destruct (randomToken ports kind w) as [w' k]. by intros ? [= <-].
  - intros ts [w l] Hw. split; [by apply keeps_on_world; [intros; apply (keeps_token ports _ (ports_keep _))|]|].
    unfold on_world, token_of. simpl. pose proof (gp_tokens Hports kind w) as [_ Ht].
    destruct (randomToken ports kind w) as [w' k]. by intros ? [= <-].
Qed.

Lemma mismatch_conflict c r :
  MemoryOperations.identity_mismatch c r = false ->
  Op.Action c = Op.Action r /\ operationIdentityConflict c r = false.
Proof using Type.
  unfold MemoryOperations.identity_mismatch, operationIdentityConflict, conflictingOperationValue.
  intros Hm. repeat rewrite orb_false_iff in Hm. destruct Hm as [[[[Ha H1] H2] H3] H4].
  split; [by apply negb_false_iff, str_eqb_true in Ha|].
  assert (Hf : forall a b, negb (str_empty b) && negb (str_eqb a b) = false ->
            (if str_empty a then negb (str_empty b)
             else negb (str_empty b) && negb (str_eqb a b)) = false).
  { intros a b Hab. destruct (str_empty a) eqn:Ea; [|done]. destruct (str_empty b) eqn:Eb; [done|].
    simpl in Hab. str_bool. congruence. }
  by rewrite !Hf.
Qed.

Lemma mismatch_claimed r t d owner :
  MemoryOperations.identity_mismatch
    (MemoryOperations.with_lease (Op.set_Revision 1 r) (MemoryOperations.lease owner t d)) r = false.
Proof using Type.
  unfold MemoryOperations.identity_mismatch. simpl.
  assert (Hs : forall s, str_eqb s s = true) by (intros s; by apply str_eqb_true).
  rewrite !Hs, !andb_false_r. done.
Qed.

(** The claim of the operation: a claimed record is held from here on. *)
Lemma claim_step_held r owner st :
  ours owner -> held [] st ->
  let o := on_world (persisted r (fun w =>
    ClaimOperation (now ports w) w r owner operationLeaseDurationMillis)) st in
  (forall c, o.2 = Ok (c, true) ->
   forall c', Op.OperationID c' = Op.OperationID c -> Op.Revision c' = Op.Revision c ->
   Op.LeaseOwner c' = Op.LeaseOwner c ->
   good (Tracker.NewTracker owner c' operationLeaseDurationMillis) /\
   held [Tracker.NewTracker owner c' operationLeaseDurationMillis] o.1) /\
  ((forall c, o.2 <> Ok (c, true)) -> held [] o.1).
Proof using Hports.
  destruct st as [w l]. intros Ho [Hg Hw]. simpl in Hg, Hw. rewrite app_nil_r in Hw.
  unfold on_world, persisted. cbn [fst snd].
  pose proof (claim_kept _ w r owner operationLeaseDurationMillis Hw) as Hk.
  pose proof (claim_holds (held_by l) w r owner operationLeaseDurationMillis) as Hc.
  destruct (ClaimOperation (now ports w) w r owner operationLeaseDurationMillis)
    as [w' [[c b]|e]]; cbn [fst snd] in *; (split; [|intros Hn]).
  - intros c0 [= <- ->] c' H1 H2 H3.
    destruct (Hc c w' Ho eq_refl Hw eq_refl c' H1 H2 H3) as [Hg' Hh]. split; [done|].
    split; [done|]. simpl. by rewrite Permutation_app_comm.
  - split; [done|]. simpl. rewrite app_nil_r. apply Hk. intros c0 [= -> ->]. by eapply Hn.
  - done.
  - split; [done|]. simpl. rewrite app_nil_r. by apply Hk.
Qed.

Lemma claim_agrees w r owner d w' c :
  ClaimOperation (now ports w) w r owner d = (w', Ok (c, true)) ->
  Op.Action c = Op.Action r /\ operationIdentityConflict c r = false.
Proof using Type.
  intros Hc. assert (Hm : MemoryOperations.identity_mismatch c r = false).
  { simpl in Hc. destruct ((others w).1 !! Op.OperationID r) as [k|] eqn:E.
    - pose proof (ClaimOperation_taken (now ports w) (others w).1 r k owner d E) as [[[Hm _] Hk]|[_ Hk]];
        simpl in Hk; rewrite Hk in Hc; by simplify_eq.
    - pose proof (ClaimOperation_new (now ports w) (others w).1 r owner d E) as Hk.
      simpl in Hk. rewrite Hk in Hc. simplify_eq. apply mismatch_claimed. }
  by apply mismatch_conflict.
Qed.

Lemma restarted_identity reset time c :
  Op.OperationID (restarted reset time c) = Op.OperationID c /\
  Op.Revision (restarted reset time c) = Op.Revision c /\
  Op.LeaseOwner (restarted reset time c) = Op.LeaseOwner c.
Proof using Type. by destruct reset. Qed.

Section Run.
Context (handler : actionHandler (W := W)) (Hhandler : honest handler).

(** The record in hand belongs to the action. *)
Definition held_for (action : string) (st : W * locals) : Prop :=
  held [] st /\ Op.Action (record st.2) = action.

Lemma claimAndRun_held action params pre reset st :
  held_for action st -> held [] (claimAndRun ports action params handler pre reset st).1.
Proof using Hports Hhandler.
  intros [Hst Ha]. unfold claimAndRun, get_record, reads. unfold mbind_ at 1.
  destruct (proj2 (yields_token (E := Api.Error) "operation") [] st Hst) as [Ht Ho].
  assert (Hr : (on_world (token_of (E := Api.Error) ports "claim_" "operation") st).1.2 = st.2)
    by (by rewrite on_world_state).
  unfold mbind_ at 1. destruct (on_world (token_of ports "claim_" "operation") st)
    as [st1 [owner|e]]; cbn [fst snd] in *; [|done]. specialize (Ho owner eq_refl).
  pose proof (claim_step_held (record st.2) owner st1 Ho Ht) as [Hc Hk].
  assert (Hg : forall c, (on_world (persisted (record st.2) (fun w =>
    ClaimOperation (now ports w) w (record st.2) owner operationLeaseDurationMillis)) st1).2 =
    Ok (c, true) -> Op.Action c = Op.Action (record st.2) /\
      operationIdentityConflict c (record st.2) = false).
  { intros c. unfold on_world, persisted.
    destruct (ClaimOperation _ _ _ _ _) as [w' [[c' b]|e]] eqn:E; cbn; [|done].
    intros [= -> ->]. by apply claim_agrees in E. }
  unfold mbind_ at 1. destruct (on_world (persisted _ _) st1) as [st2 [[c b]|e]];
    cbn [fst snd] in *; [|by apply Hk].
  destruct b.
  - destruct (Hg c eq_refl) as [Hca ->]. rewrite Hca, Ha, (proj2 (str_eqb_true _ _)) by done.
    cbn [negb orb]. unfold reads. unfold mbind_ at 1.
    destruct (restarted_identity reset (now ports st2.1) c) as (H1 & H2 & H3).
    destruct (Hc c eq_refl _ H1 H2 H3) as [Hgood Hheld].
    unfold set_record, run. unfold mbind_ at 1.
    apply tracked_held; [|done|apply Hheld]. intros r ts. by apply keeps_runHandler.
  - assert (held [] st2) by (by apply Hk; intros ? ?).
    destruct (negb _ || _); [done|]. cbn [negb].
    apply keeps_on_world; [|done]. intros. apply (keeps_inFlight ports _ (ports_keep _)).
Qed.

(** A last step that may leave [P] for the weaker [Q]. *)
Lemma keeps_then {S E A B} (P Q : S -> Prop) (m : M S E A) (k : A -> M S E B) s :
  keeps P m -> (forall s, P s -> Q s) -> (forall a s, P s -> Q (k a s).1) ->
  P s -> Q (mbind_ m k s).1.
Proof using Type.
  intros Hm HPQ Hk Hs. specialize (Hm s Hs). unfold mbind_.
  destruct (m s) as [s' [a|e]]; [by apply Hk|by apply HPQ].
Qed.

Lemma held_for_on_world {E A} action (m : M W E A) :
  (forall ts, keeps (holds ts) m) -> keeps (held_for action) (on_world m).
Proof using Type.
  intros Hm st [Hst Ha]. split; [by apply keeps_on_world|by rewrite on_world_state].
Qed.

Lemma keeps_loadStored action : keeps (held_for action) (loadStored (W := W) action).
Proof using Type.
  intros st [Hst Ha]. unfold loadStored, get_record, reads, persisted, on_world, mbind_. simpl.
  destruct (st.1.1 !! _) as [stored|]; [|done].
  destruct (str_eqb (Op.Action stored) action) eqn:E; [|done]. simpl.
  destruct (operationIdentityConflict _ _); [done|].
  apply str_eqb_true in E. split; [|done]. destruct Hst as [Hg Hw]. by split.
Qed.

Lemma lockedOperation_held action params pre st :
  held_for action st -> held [] (lockedOperation ports action params handler pre st).1.
Proof using Hports Hhandler.
  assert (Hweak : forall st, held_for action st -> held [] st) by (by intros ? []).
  apply keeps_then; [apply keeps_loadStored|done|]. intros found st1.
  apply keeps_then; [apply keeps_reads|done|]. intros current st2.
  apply keeps_then; [|done|].
  { destruct found; [|apply keeps_ret]. apply held_for_on_world. intros. looks. }
  intros [] st3.
  { intros []. apply keeps_on_world; [|done]. intros. apply (keeps_supersededAnswer ports _ (ports_keep _)). }
  apply keeps_then; [|done|].
  { apply held_for_on_world. intros. apply (keeps_completedAnswer ports _ (ports_keep _)). }
  intros [o|reset] st4 H4; [by apply Hweak|by apply claimAndRun_held].
Qed.

Lemma record_for_action (w : W) action params r :
  (record_for ports action params w).2 = Ok r -> Op.Action r = action.
Proof using Type.
  unfold record_for, reads, operationRecordFor. cbn [snd].
  intros (provided & _ & Hr)%rbind_Ok_inv.
  apply rbind_Ok_inv in Hr as (target & _ & Hr).
  apply rbind_Ok_inv in Hr as ([[[base request] peer] room] & _ & Hr).
  apply rbind_Ok_inv in Hr as (member & _ & Hr).
  destruct (memberGeneration _ _ _ _ _ _ member) as [[base' request'] joined].
  by injection Hr as <-.
Qed.

Lemma keeps_refreshPublic action params :
  keeps (held_for action) (refreshPublic ports action params).
Proof using Hports.
  unfold refreshPublic. destruct (_ || _); [|apply keeps_ret].
  eapply (keeps_bind_yields _ _ _ (fun r => Op.Action r = action)).
  - intros st Hst. split; [apply held_for_on_world; [intros; apply keeps_reads|done]|].
    intros r. apply record_for_action.
  - intros r Hr. apply keeps_bind.
    + intros st [[Hg Hw] _]. by split.
    + intros _. apply held_for_on_world. intros. apply (keeps_mismatch ports _ (ports_keep _)).
Qed.

Lemma underLock_held action params pre st :
  held_for action st ->
  held [] (underLock ports (lockedOperation ports action params handler pre) st).1.
Proof using Hports Hhandler.
  intros [[Hg Hw] Ha]. unfold underLock, deferred.
  set (id := Op.OperationID (record st.2)).
  assert (Hl : held [] (lockedOperation ports action params handler pre
                          (lockRecoverableOperation ports id st.1, st.2)).1).
  { apply lockedOperation_held. split; [|done]. split; [done|].
    apply holds_gentle; [apply (gp_lock Hports)|done]. }
  destruct (lockedOperation _ _ _ _ _ _) as [[w' l'] r]. destruct Hl as [Hg' Hw'].
  split; [done|]. apply holds_gentle; [apply (gp_unlock Hports)|done].
Qed.

Lemma underWorkflow_quiet action params pre st :
  held_for action st -> holds [] (underWorkflow ports action params handler pre st).1.1.
Proof using Hports Hhandler.
  intros Hst. unfold underWorkflow, deferred.
  assert (Hl : held [] ((let! refreshed := refreshPublic ports action params in
     match refreshed with
     | Some current => ret current
     | None => underLock ports (lockedOperation ports action params handler pre)
     end) st).1).
  { apply (keeps_then (held_for action)); [apply keeps_refreshPublic|by intros ? []| |done].
    intros [o|] st' Hst'; [by destruct Hst'|by apply underLock_held]. }
  destruct (mbind_ _ _ st) as [[w [r [t|]]] o]; destruct Hl as [Hg Hw]; [|done].
  unfold releaseWorkflow. simpl in *. apply Forall_cons in Hg as [Hg _].
  pose proof (release_holds [] w t Hg Hw) as Hr. by destruct (Tracker.Release _ _ _ _) as [[] ?].
Qed.

(** ** The workflow's own claim *)

(** A step whose outcome says what holds afterwards. *)
Definition ensures {E A} (P : W -> Prop) (m : M W E A) (Q : result E A -> W -> Prop) : Prop :=
  forall w, P w -> Q (m w).2 (m w).1.

Lemma ensures_bind {E A B} P (m : M W E A) (k : A -> M W E B) Q :
  keeps P m -> (forall e w, P w -> Q (Err e) w) -> (forall a, ensures P (k a) Q) ->
  ensures P (mbind_ m k) Q.
Proof using Type.
  intros Hm He Hk w Hw. specialize (Hm w Hw). unfold mbind_.
  destruct (m w) as [w' [a|e]]; [by apply Hk|by apply He].
Qed.

Lemma claimWorkflow_held attempts r workflowRecord owner w :
  ours owner -> holds [] w ->
  let o := claimWorkflow ports attempts r workflowRecord owner w in
  match o.2 with
  | Ok (Some t) => good t /\ holds [t] o.1
  | _ => holds [] o.1
  end.
Proof using Hports.
  intros Ho. revert w. induction attempts as [|n IH]; intros w Hw; [done|]. cbn [claimWorkflow].
  pose proof (claim_kept [] w workflowRecord owner operationLeaseDurationMillis Hw) as Hk.
  pose proof (claim_holds [] w workflowRecord owner operationLeaseDurationMillis) as Hc.
  destruct (ClaimOperation (now ports w) w workflowRecord owner operationLeaseDurationMillis)
    as [w' [[c []]|e]]; cbn [fst snd] in *.
  - by apply (Hc c w' Ho eq_refl Hw eq_refl c).
  - specialize (Hk ltac:(done)). pose proof (holds_gentle_pair [] _ w' (gp_pause Hports) Hk) as Hp.
    destruct (pause ports w') as [w'' []]; [done|]. by apply IH.
  - specialize (Hk ltac:(done)). by destruct (waitExpired ports w').
Qed.

(** With its workflow acquired a request holds exactly that. *)
Definition acquired (o : result Api.Error (option (option Tracker.Tracker_))) (w : W) : Prop :=
  match o with
  | Ok (Some t) => forall r, held [] (w, {| record := r; workflow := t |})
  | _ => holds [] w
  end.

Lemma acquire_held r : ensures (holds []) (acquireDurableBusinessWorkflow ports r) acquired.
Proof using Hports.
  assert (Hnone : ensures (holds []) (ret (Some None)) acquired) by (by intros w Hw r').
  apply ensures_bind; [looks|done|]. intros []; [done|].
  apply ensures_bind; [apply keeps_reads|done|]. intros [workflowRecord|]; [|done].
  intros w Hw. destruct (proj1 (yields_token (E := Api.Error) "claim") w Hw) as [Hw1 Ho].
  unfold ensures, acquired, mbind_. destruct (token_of ports "workflow_" "claim" w) as [w1 [owner|e]];
    cbn [fst snd] in *; [|done].
  pose proof (claimWorkflow_held 41 r workflowRecord owner w1 (Ho owner eq_refl) Hw1) as Hc.
  cbv zeta in Hc.
  destruct (claimWorkflow ports 41 r workflowRecord owner w1) as [w2 [[t|]|e]];
    cbn [fst snd] in *; [|done|done].
  intros r'. split; [constructor; [apply Hc|constructor]|apply Hc].
Qed.

(** C7.  No request leaves a lease behind.  Whatever happens to a recoverable
    operation (the result is replayed, the id is refused, the workflow is
    busy, the handler fails, Matrix fails, a lease is lost to another process),
    when the request is answered no live lease in the operations table belongs
    to it, so other requests are never kept waiting by a request that is over. *)
Theorem no_lease_left_behind action params pre w :
  unleased w -> unleased (handleRecoverableOperation ports action params handler pre w).1.
Proof using Hports Hhandler.
  rewrite !holds_nil. intros Hw. unfold handleRecoverableOperation.
  pose proof (record_for_action w action params) as Ha. unfold mbind_ at 1.
  destruct (record_for ports action params w) as [w1 [r|e]] eqn:E; cbn [fst snd] in *;
    unfold record_for, reads in E; simplify_eq; [|done].
  revert Hw. apply (keeps_bind (holds [])); [apply (keeps_mismatch ports _ (ports_keep _))|].
  intros [o|]; [apply keeps_ret|]. intros w Hw.
  pose proof (acquire_held r w Hw) as Hacq. unfold mbind_.
  destruct (acquireDurableBusinessWorkflow ports r w) as [w2 [[t|]|e]]; cbn [fst snd] in *;
    [|by apply (keeps_busy ports _ (ports_keep _))|done].
  pose proof (underWorkflow_quiet action params pre (w2, {| record := r; workflow := t |})) as Hq.
  destruct (underWorkflow _ _ _ _ _ _) as [[w3 l3] o]. apply Hq. split; [apply Hacq|by apply Ha].
Qed.
End Run.

(** Marking the progress of an operation is what an honest handler does. *)
Lemma mark_in_use ts w t phase roomID :
  in_use ts (w, t) ->
  let o := markRecoverableOperation ports phase roomID (w, Some t) in
  in_use ts (o.1.1, default t o.1.2).
Proof using Hports.
  intros [Hg Hw]. unfold markRecoverableOperation, tracker_update. cbn [fst snd].
  pose proof (update_holds ts w t operationStatusRunning phase roomID
    (Op.ErrorCode (Tracker.Snapshot t)) (Op.ResultJSON (Tracker.Snapshot t)) Hg Hw) as [Hg' Hw'].
  by destruct (Tracker.Update _ _ _ _ _ _ _ _ _) as [[w' t'] e].
Qed.
End Leases.

(** ** An example *)
Module Demo.
Definition codec : ResultCodec := {|
  MarshalResult _ := Ok "{}";
  UnmarshalView _ := Err (ErrOther "not a view");
  UnmarshalObject _ := Ok ∅;
  UnmarshalMember _ := Err (ErrOther "not a member");
  UnmarshalChannel _ := Err (ErrOther "not a channel");
  UnmarshalConversation _ := Err (ErrOther "not a conversation");
  DecodeNumber _ := Ok ANil;
|}.

Definition directory : Directory := {|
  channelByIDOrRoom _ _ := Ok None;
  contactsModule := None;
  memberStore := None;
  OwnerMXID := "@me:here";
|}.

(** The clock is the rest of the world. *)
Definition ports : Ports (table * Z) := {|
  Recovery.directory _ := directory;
  now w := w.2;
  later w := w.2;
  HydrateView _ contact := ret (Contacts.ViewFromRecord contact);
  Operation := Some (fun _ _ _ => ret (∅, None));
  GetRecord := None;
  hasTransport := false;
  matrixMemberJoined _ _ := ret true;
  channelSnapshot _ w := (w, Chan.mk "" "" "" "" "" "" "" "" false false 0 0 false "" "");
  randomToken _ w := (w, "t");
  waitExpired _ := false;
  pause w := (w, true);
  lockRecoverableOperation _ w := w;
  unlockRecoverableOperation _ w := w;
|}.

Definition others : table * Z -> table * Z := fun w => w.
#[local] Instance store : OperationStore (table * Z) := shared_store others.

(** A join that reached Matrix and then failed. *)
Definition handler : actionHandler (W := table * Z) := fun _ _ st =>
  let '(st, _) := markRecoverableOperation ports operationPhaseMatrixCommitted "!r:here" st in
  (st, Err (Api.StatusError 502 "projection failed")).

Definition params : content := {["room_id" := AString "!r:here"]}.
Definition ours (owner : string) : Prop := owner = "workflow_t" \/ owner = "claim_t".
Definition start : table * Z := (∅, 1000).
End Demo.

#[local] Existing Instance Demo.store.
#[local] Existing Instance Demo.codec.

Lemma demo_gentle : gentle_ports Demo.others Demo.ports Demo.ours.
Proof.
  assert (Hid : gentle Demo.ports Demo.ours (fun w => w)) by (by intros w id r).
  split; intros; simpl in *; simplify_eq; try exact Hid.
  - done.
  - split; [by left|by right].
  - by intros [|].
Qed.

Lemma demo_honest : honest Demo.ports Demo.ours Demo.handler.
Proof.
  intros pre params ts w t Hw.
  pose proof (mark_in_use Demo.others Demo.ports Demo.ours demo_gentle ts w t
    operationPhaseMatrixCommitted "!r:here" Hw) as Hm.
  unfold Demo.handler.
  by destruct (markRecoverableOperation Demo.ports operationPhaseMatrixCommitted "!r:here"
    (w, Some t)) as [[w' t'] e].
Qed.

Lemma no_lease_left_behind_witness :
  unleased Demo.ports Demo.ours Demo.start /\
  unleased Demo.ports Demo.ours
    (handleRecoverableOperation Demo.ports "groups.join" Demo.params Demo.handler None
       Demo.start).1.
Proof.
  assert (Hs : unleased Demo.ports Demo.ours Demo.start).
  { intros id r [Hl _]. unfold Demo.start in Hl. cbn [fst] in Hl.
    rewrite lookup_empty in Hl. discriminate Hl. }
  split; [exact Hs|].
  exact (no_lease_left_behind Demo.others Demo.ports Demo.ours demo_gentle Demo.handler
           demo_honest "groups.join" Demo.params None Demo.start Hs).
Defined.
End RecoveryFacts.
