(* ===== verification/RecoveryRunFacts.v ===== *)
(** * Theorems on what a recoverable operation runs and records

    A held operation is not run a second time, a settled result is replayed, a
    failure is recorded so that it can be recovered, and a callback nobody
    waits for is refused. *)

From Stdlib Require Import Ascii String ZArith Lia.
From stdpp Require Import base tactics list gmap strings.
From S2P Require Import Prelude GoStrings Values Domain Policy Action Operations.
From S2P Require Import OperationIdentity Workflow Conversation Contacts PolicyFacts.
From S2P Require Import OperationsFacts Recovery RecoveryFacts.
Local Open Scope Z_scope.
Local Open Scope go_scope.

Module RecoveryRunFacts.
Import Identity Recovery RecoveryFacts.

(** ** Steps that agree *)

(** Two continuations that agree where [P] holds. *)
Lemma bind_agree {S E A B} (P : S -> Prop) (m : M S E A) (k k' : A -> M S E B) s :
  keeps P m -> (forall a s, P s -> k a s = k' a s) -> P s -> mbind_ m k s = mbind_ m k' s.
Proof.
  intros Hm Hk Hs. specialize (Hm s Hs). unfold mbind_.
  destruct (m s) as [s' [a|e]]; [by apply Hk|done].
Qed.

(** ** Operations that another process holds *)

Section Held.
Context `{GoRange} `{ResultCodec} {X : Type} (others : table * X -> table * X).
Local Notation W := (table * X)%type.
Local Instance store : OperationStore W := shared_store others.
Context (ports : Ports W) (id holder : string).

(** [holder] has a live lease on the operation. *)
Definition leased_elsewhere (w : W) : Prop :=
  holder <> "" /\
  exists c, w.1 !! id = Some c /\ Op.OperationID c = id /\ Op.LeaseOwner c = holder /\
            now ports w < Op.LeaseUntil c.

(** The lease outlives what else happens, and tokens are fresh. *)
Record lease_lasts : Prop := {
  ll_ports : kept_by_ports ports leased_elsewhere;
  ll_others : forall w, leased_elsewhere w -> leased_elsewhere (others w);
  ll_clock : forall w, now ports w <= now ports (others w);
  ll_fresh : forall kind w, "claim_" +:+ (randomToken ports kind w).2 <> holder;
}.
Context (Hlasts : lease_lasts).

(** The request is for that operation. *)
Definition for_held (st : W * locals) : Prop :=
  leased_elsewhere st.1 /\ Op.OperationID (record st.2) = id.

Lemma keeps_for_held {E A} (m : M W E A) : keeps leased_elsewhere m -> keeps for_held (on_world m).
Proof using Type. intros Hm st [Hl Hid]. rewrite on_world_state. split; [by apply Hm|done]. Qed.

Lemma keeps_load_held action : keeps for_held (loadStored (W := W) action).
Proof using Type.
  intros [w l] [Hl Hid]. unfold loadStored, get_record, reads, persisted, on_world, mbind_. simpl in *.
  rewrite Hid. destruct Hl as (Ho & c & Hc & Hcid & Hrest). rewrite Hc.
  assert (Hl : leased_elsewhere w) by (split; [done|]; by exists c).
  destruct (_ || _); by split.
Qed.

(** The claim fails and says who holds the operation. *)
Lemma claim_refused w r owner d :
  leased_elsewhere w -> Op.OperationID r = id -> owner <> holder ->
  exists c, ClaimOperation (now ports w) w r owner d = (others w, Ok (c, false)) /\
            Op.OperationID c = id.
Proof using Hlasts.
  intros Hl Hid Hne. pose proof (ll_clock Hlasts w) as Ht.
  apply (ll_others Hlasts) in Hl as (Ho & c & Hc & Hcid & Hown & Hlive).
  exists c. split; [|done]. simpl. rewrite <- Hid in Hc.
  pose proof (ClaimOperation_taken (now ports w) (others w).1 r c owner d Hc) as [[[_ Hk] _]|[_ Hk]].
  - exfalso. rewrite Hown in Hk. destruct Hk as [?|[?|?]]; [done|congruence|lia].
  - simpl in Hk. rewrite Hk. by destruct (others w).
Qed.

Lemma claimAndRun_held_agree action params pre reset h h' st :
  for_held st ->
  claimAndRun ports action params h pre reset st = claimAndRun ports action params h' pre reset st.
Proof using Hlasts.
  intros [Hl Hid]. unfold claimAndRun, get_record, reads, token_of, on_world, persisted, mbind_.
  cbn [fst snd].
  pose proof (kp_token _ _ (ll_ports Hlasts) "operation" st.1 Hl) as Hl'.
  pose proof (ll_fresh Hlasts "operation" st.1) as Hf.
  destruct (randomToken ports "operation" st.1) as [w k]. cbn [fst snd] in *.
  destruct (claim_refused w (record st.2) ("claim_" +:+ k) operationLeaseDurationMillis Hl' Hid Hf)
    as (c & -> & _). by destruct (_ || _).
Qed.

(** An operation that another process holds is not run again.  While a
    live lease of another owner is on the operation, what a request answers
    and what it does to the world do not depend on its handler: the handler
    is not called, whatever the stored record, the generation and the clock
    say. *)
Theorem held_operation_is_not_run action params pre h h' st :
  for_held st ->
  lockedOperation ports action params h pre st = lockedOperation ports action params h' pre st.
Proof using Hlasts.
  apply bind_agree; [apply keeps_load_held|]. intros found st1.
  apply bind_agree; [apply keeps_reads|]. intros current st2.
  apply bind_agree.
  { destruct found; [|apply keeps_ret]. apply keeps_for_held, keeps_persisted, keeps_reads. }
  intros [] st3 H3; [done|]. revert H3.
  apply bind_agree.
  { apply keeps_for_held, (keeps_completedAnswer ports _ (ll_ports Hlasts)). }
  intros [o|reset] st4 H4; [done|]. by apply claimAndRun_held_agree.
Qed.
End Held.

(** ** What is recorded *)

Section Settled.
Context `{GoRange} `{ResultCodec} {X : Type} (others : table * X -> table * X).
Local Notation W := (table * X)%type.
Local Instance settled_store : OperationStore W := shared_store others.
Context (ports : Ports W).

(** A write through a tracker. *)
Lemma settle_cases w t r rev owner d e :
  let n c := swapped (later ports w) c r d in
  let o := Tracker.settle t
    (CompareAndSwapOperation (now ports w) (later ports w) w r rev owner d) e in
  (exists c, (others w).1 !! Op.OperationID r = Some c /\ swappable (now ports w) c rev owner /\
     o = ((<[Op.OperationID r := n c]> (others w).1, (others w).2),
          Tracker.with_record t (n c), Ok tt)) \/
  ((forall c, (others w).1 !! Op.OperationID r = Some c -> ~ swappable (now ports w) c rev owner) /\
   o = (others w, t, Err e)).
Proof using Type.
  simpl. pose proof (CompareAndSwap_cases (now ports w) (later ports w) (others w).1 r rev owner d)
    as [(c & Hc & Hs & Hk)|[Hs Hk]]; simpl in Hk; rewrite Hk; simpl.
  - left. by exists c.
  - right. split; [done|]. by destruct (others w).
Qed.

(** What an update leaves when it succeeds. *)
Lemma updated_row w t status phase room code json w' t' :
  Tracker.Update (now ports w) (later ports w) w t status phase room code json = (w', t', Ok tt) ->
  let r := Tracker.updated (now ports w) (Tracker.record t) status phase room code json in
  w'.1 !! Op.OperationID (Tracker.record t) = Some (Tracker.record t') /\
  Tracker.owner t' = Tracker.owner t /\
  Op.OperationID (Tracker.record t') = Op.OperationID (Tracker.record t) /\
  Op.Action (Tracker.record t') = Op.Action r /\ Op.Status (Tracker.record t') = Op.Status r /\
  Op.Phase (Tracker.record t') = Op.Phase r /\ Op.ErrorCode (Tracker.record t') = code /\
  Op.ResultJSON (Tracker.record t') = json.
Proof using Type.
  unfold Tracker.Update. cbv zeta.
  pose proof (updated_id (now ports w) (Tracker.record t) status phase room code json) as Hid.
  assert (Hcode : Op.ErrorCode (Tracker.updated (now ports w) (Tracker.record t) status phase room
    code json) = code /\ Op.ResultJSON (Tracker.updated (now ports w) (Tracker.record t) status phase
    room code json) = json) by done.
  set (r := Tracker.updated _ _ _ _ _ _ _) in *. clearbody r. destruct Hcode as [Hc Hj].
  destruct (settle_cases w t r (Op.Revision (Tracker.record t)) (Tracker.owner t)
      (Tracker.leaseDurationMillis t) Tracker.lost) as [(c & _ & _ & ->)|[_ ->]];
    [|discriminate]. intros [= <- <-].
  rewrite Hid. split; [apply lookup_insert_eq|]. by split_and!.
Qed.

(** A release keeps everything but the lease, the revision and the time. *)
Lemma released_row w t w' t' :
  w.1 !! Op.OperationID (Tracker.record t) = Some (Tracker.record t) ->
  Tracker.Release (now ports w) (later ports w) w t = (w', t', Ok tt) ->
  exists row, w'.1 !! Op.OperationID (Tracker.record t) = Some row /\
    Op.LeaseOwner row = "" /\
    Op.OperationID row = Op.OperationID (Tracker.record t) /\
    Op.Action row = Op.Action (Tracker.record t) /\ Op.Status row = Op.Status (Tracker.record t) /\
    Op.Phase row = Op.Phase (Tracker.record t) /\
    Op.ErrorCode row = Op.ErrorCode (Tracker.record t) /\
    Op.ResultJSON row = Op.ResultJSON (Tracker.record t).
Proof using Type.
  intros Hrow. unfold Tracker.Release. destruct (str_empty _) eqn:E.
  - intros [= <- <-]. exists (Tracker.record t). apply bool_decide_eq_true in E. by split_and!.
  - set (r := Op.set_UpdatedAt _ _).
    destruct (settle_cases w t r (Op.Revision (Tracker.record t)) (Tracker.owner t) 0
      Tracker.lost_releasing) as [(c & Hc & Hs & ->)|[_ ->]]; [|discriminate].
    intros [= <- <-]. cbn [fst snd]. eexists. change (Op.OperationID r) with (Op.OperationID (Tracker.record t)).
    split; [apply lookup_insert_eq|]. by split_and!.
Qed.

Lemma settled_Ok status phase room code json st st' :
  settled ports status phase room code json st = (st', Ok tt) ->
  Tracker.Update (now ports st.1) (later ports st.1) st.1 st.2 status phase room code json =
    (st'.1, st'.2, Ok tt).
Proof using Type.
  unfold settled, tracker_update. destruct (Tracker.Update _ _ _ _ _ _ _ _ _) as [[w' t'] [[]|e]];
    [by intros [= <-]|discriminate].
Qed.

(** A result that was settled is in the table. *)
Lemma settleResult_Ok o st st' r :
  settleResult ports o st = (st', Ok r) ->
  exists json, MarshalResult r = Ok json /\ Op.ResultJSON (Tracker.record st'.2) = json /\
  Op.OperationID (Tracker.record st'.2) = Op.OperationID (Tracker.record st.2) /\
  st'.1.1 !! Op.OperationID (Tracker.record st.2) = Some (Tracker.record st'.2).
Proof using Type.
  unfold settleResult. intros (st1 & cur & Hcur & Hr)%mbind_Ok. injection Hcur as <- <-.
  destruct (operationResultMetadata o _) as [[[o' status] room] code].
  apply mbind_Ok in Hr as (st2 & json & Hj & Hr). unfold reads in Hj.
  destruct (MarshalResult o') as [text_|e] eqn:Em; [|discriminate]. injection Hj as <- <-.
  apply mbind_Ok in Hr as (st3 & [] & Hs & Hr). injection Hr as <- <-.
  apply settled_Ok, updated_row in Hs as (Hrow & _ & Hid & _ & _ & _ & _ & Hjson).
  exists text_. by split_and!.
Qed.

Lemma withTracker_Ok t m w w' r :
  withTracker ports t m w = (w', Ok r) ->
  exists w1 t1 t2, m (w, t) = ((w1, t1), Ok r) /\
    Tracker.Release (now ports w1) (later ports w1) w1 t1 = (w', t2, Ok tt).
Proof using Type.
  unfold withTracker. destruct (m (w, t)) as [[w1 t1] o] eqn:Em.
  destruct (Tracker.Release _ _ _ _) as [[w2 t2] [[]|e]] eqn:Er; [|discriminate].
  intros [= -> ->]. eauto.
Qed.

(** A completed operation that is current is answered with what its text
    decodes to, or with the error of the decoder. *)
Lemma completed_is_replayed action params h pre w l row :
  w.1 !! Op.OperationID (record l) = Some row -> Op.Action row = action ->
  operationIdentityConflict row (record l) = false ->
  operationGenerationSuperseded (directory ports w) row = Ok false ->
  completed row = true ->
  match decodeRecoverableOperationResult action (Op.ResultJSON row) with
  | Ok r => forall w', completedOperationStillCurrent ports row r w = (w', Ok true) ->
      lockedOperation ports action params h pre (w, l) =
        ((w', {| record := row; workflow := workflow l |}), Ok r)
  | Err e =>
      lockedOperation ports action params h pre (w, l) =
        ((w, {| record := row; workflow := workflow l |}), Err (operationPersistenceError row e))
  end.
Proof using Type.
  intros Hrow <- Hconf Hsup Hdone.
  destruct (decodeRecoverableOperationResult _ _) as [r|e] eqn:Hdec; [intros w' Hcur|].
  all: unfold lockedOperation, loadStored, get_record, set_record, completedAnswer, currentCached, decoded,
    reads, run, persisted, on_world, mbind_, ret; cbn [fst snd LookupOperation settled_store
    shared_store MemoryOperations.LookupOperation]; unfold MemoryOperations.LookupOperation.
  all: rewrite Hrow, (proj2 (str_eqb_true _ _)) by done; rewrite Hconf; cbn [negb orb fst snd record].
  all: rewrite Hsup, Hdone; cbn [negb fst snd]; rewrite Hdec; cbn [fst snd].
  - by rewrite Hcur.
  - done.
Qed.

(** C18.  A settled result is replayed.  After a request ran its handler and
    answered [r], the operation's row is free and holds the JSON text of [r].
    Take any later request for the operation that finds this row, completed,
    not superseded and naming the same request and action, with a text that is
    not empty.  Its handler, whatever it is, is not called: when the text decodes
    to a result that still describes the current state the request is answered
    with exactly that, and when the text does not decode it fails with a
    persistence error of the operation.  (What the text decodes to is the
    decoder's word; the numbers of [r] and nested objects come back as generic
    JSON values.) *)
Theorem settled_result_is_replayed h pre params t w o w1 t1 w2 r :
  h pre params (w, Some t) = ((w1, Some t1), Ok o) ->
  withTracker ports t (runHandler ports h pre params) w = (w2, Ok r) ->
  exists row json,
    w2.1 !! Op.OperationID (Tracker.record t1) = Some row /\ Op.LeaseOwner row = "" /\
    MarshalResult r = Ok json /\ Op.ResultJSON row = json /\
    forall w3 l action params' h' pre',
      w3.1 !! Op.OperationID (record l) = Some row -> json <> "" ->
      Op.Status row = operationStatusCompleted -> Op.Action row = action ->
      operationIdentityConflict row (record l) = false ->
      operationGenerationSuperseded (directory ports w3) row = Ok false ->
      let answered := lockedOperation ports action params' h' pre' (w3, l) in
      let locals' := {| record := row; workflow := workflow l |} in
      match decodeRecoverableOperationResult action json with
      | Ok r' => forall w4, completedOperationStillCurrent ports row r' w3 = (w4, Ok true) ->
          answered = ((w4, locals'), Ok r')
      | Err e => answered = ((w3, locals'), Err (operationPersistenceError row e))
      end.
Proof using Type.
  intros Hh (wa & ta & tb & Hrun & Hrel)%withTracker_Ok.
  unfold runHandler in Hrun. cbn [fst snd] in Hrun. rewrite Hh in Hrun.
  change (default t (Some t1)) with t1 in Hrun.
  apply settleResult_Ok in Hrun as (json & Hm & Hj & Hid & Hset). cbn [fst snd] in *.
  rewrite <- Hid in Hset.
  apply released_row in Hrel as (row & Hrow & Hlo & _ & _ & _ & _ & _ & Hj'); [|done].
  exists row, json. rewrite <- Hid. split; [done|]. split; [done|]. split; [done|]. split; [congruence|].
  intros w3 l action params' h' pre' Hrow3 Hne Hst Hact Hconf Hsup. cbv zeta.
  assert (Hjson : Op.ResultJSON row = json) by congruence. rewrite <- Hjson in Hne |- *.
  apply completed_is_replayed; try done. unfold completed. rewrite Hst.
  by apply andb_true_iff; split; [by apply str_eqb_true|apply negb_true_iff, bool_decide_eq_false].
Qed.

(** ** Failures *)

(** The tracker knows the row and its lease is live. *)
Definition synced (w : W) (t : Tracker.Tracker_) : Prop :=
  good t /\
  exists c, w.1 !! Op.OperationID (Tracker.record t) = Some c /\
            swappable (now ports w) c (Op.Revision (Tracker.record t)) (Tracker.owner t).

(** Nobody else writes the row. *)
Definition undisturbed (id : string) : Prop := forall w, (others w).1 !! id = w.1 !! id.

(** A lease renewed at [w] outlasts the write that renews it. *)
Definition prompt (w : W) (d : Z) : Prop :=
  forall s, now ports (s, (others w).2) < wrap64 (later ports w + d).

Lemma update_succeeds w t status phase room code json :
  synced w t -> undisturbed (Op.OperationID (Tracker.record t)) ->
  prompt w (Tracker.leaseDurationMillis t) ->
  exists w' t',
    Tracker.Update (now ports w) (later ports w) w t status phase room code json = (w', t', Ok tt) /\
    synced w' t'.
Proof using Type.
  intros [(Hne & Hlo & Hd) (c & Hc & Hs)] Hrow Htime. unfold Tracker.Update.
  pose proof (updated_id (now ports w) (Tracker.record t) status phase room code json) as Hid.
  pose proof (updated_lease_owner (now ports w) (Tracker.record t) status phase room code json) as Hl.
  set (r := Tracker.updated _ _ _ _ _ _ _) in *. clearbody r.
  destruct (settle_cases w t r (Op.Revision (Tracker.record t)) (Tracker.owner t)
      (Tracker.leaseDurationMillis t) Tracker.lost) as [(k & _ & _ & ->)|[Hn _]].
  - do 2 eexists. split; [done|].
    assert (Hlease : MemoryOperations.lease (Op.LeaseOwner r) (later ports w)
              (Tracker.leaseDurationMillis t) = (Tracker.owner t,
              wrap64 (later ports w + Tracker.leaseDurationMillis t)))
      by (rewrite Hl, Hlo; by apply lease_spec).
    unfold swapped. rewrite Hlease. split; [by split_and!|].
    eexists. split; [apply lookup_insert_eq|]. split_and!; [done..|]. simpl. apply Htime.
  - exfalso. apply (Hn c); [|done]. by rewrite Hid, Hrow.
Qed.

Lemma release_succeeds w t :
  synced w t -> undisturbed (Op.OperationID (Tracker.record t)) ->
  exists w' t', Tracker.Release (now ports w) (later ports w) w t = (w', t', Ok tt).
Proof using Type.
  intros [(Hne & Hlo & Hd) (c & Hc & Hs)] Hrow. unfold Tracker.Release.
  rewrite Hlo, (proj2 (str_empty_false _)) by done. set (r := Op.set_UpdatedAt _ _).
  destruct (settle_cases w t r (Op.Revision (Tracker.record t)) (Tracker.owner t) 0
      Tracker.lost_releasing) as [(k & _ & _ & ->)|[Hn _]]; [by eauto|].
  exfalso. apply (Hn c); [|done]. change (Op.OperationID r) with (Op.OperationID (Tracker.record t)).
  by rewrite Hrow.
Qed.

Lemma updated_status time r status phase room code json :
  status <> "" -> Op.Status (Tracker.updated time r status phase room code json) = status.
Proof using Type.
  intros Hs. unfold Tracker.updated. rewrite (proj2 (str_empty_false status) Hs).
  by destruct (str_empty phase), (str_empty room).
Qed.

Lemma updated_phase time r status room code json :
  Op.Phase (Tracker.updated time r status (Op.Phase r) room code json) = Op.Phase r.
Proof using Type.
  unfold Tracker.updated. by destruct (str_empty status), (str_empty (Op.Phase r)), (str_empty room).
Qed.

(** The code that a failure is recorded and reported with. *)
Definition failure_code (phase : string) (e : Api.Error) : string :=
  if operationNeedsRecovery phase && str_empty (Api.Code e) then OperationRecoveryCode
  else Api.Code e.

Lemma failure_recorded h pre params t w w1 t1 e :
  h pre params (w, Some t) = ((w1, Some t1), Err e) ->
  synced w1 t1 ->
  undisturbed (Op.OperationID (Tracker.record t1)) ->
  prompt w1 (Tracker.leaseDurationMillis t1) ->
  let current := Tracker.record t1 in
  let code := failure_code (Op.Phase current) e in
  let o := withTracker ports t (runHandler ports h pre params) w in
  o.2 = Err {| Api.Status := Api.Status e; Api.Error_ := Api.Error_ e; Api.Code := code;
               Api.OperationID := Op.OperationID current;
               Api.CurrentRoomID :=
                 fallbackString (Api.CurrentRoomID e) (Op.CurrentRoomID current) |} /\
  exists row, o.1.1 !! Op.OperationID current = Some row /\
    Op.Status row = (if operationNeedsRecovery (Op.Phase current) then operationStatusReconciling
                     else operationStatusFailed) /\
    Op.Phase row = Op.Phase current /\ Op.ErrorCode row = code /\ Op.ResultJSON row = "" /\
    Op.LeaseOwner row = "".
Proof using Type.
  intros Hh Hs Hu Hp. cbv zeta. unfold withTracker, runHandler. cbn [fst snd]. rewrite Hh.
  change (default t (Some t1)) with t1.
  set (status := if operationNeedsRecovery _ then _ else _).
  set (current := Tracker.record t1) in *.
  edestruct (update_succeeds w1 t1 status (Op.Phase current) (Op.CurrentRoomID current)
    (failure_code (Op.Phase current) e) "" Hs Hu Hp) as (w2 & t2 & Hup & Hs2).
  pose proof (updated_row w1 t1 _ _ _ _ _ w2 t2 Hup) as (Hrow & _ & Hid & _ & Hst & Hph & Hcode & Hj).
  fold current in Hrow, Hid, Hst, Hph.
  assert (Hf : settleFailure ports e (w1, t1) = ((w2, t2), Err
    {| Api.Status := Api.Status e; Api.Error_ := Api.Error_ e;
       Api.Code := failure_code (Op.Phase current) e; Api.OperationID := Op.OperationID current;
       Api.CurrentRoomID := fallbackString (Api.CurrentRoomID e) (Op.CurrentRoomID current) |})).
  { unfold settleFailure, snapshot, settled, tracker_update, reads, mbind_, Tracker.Snapshot.
    cbn [fst snd].
    unfold failure_code, status, current in Hup. rewrite Hup. done. }
  rewrite Hf. rewrite <- Hid in Hu.
  destruct (release_succeeds w2 t2 Hs2 Hu) as (w3 & t3 & Hrel). rewrite Hrel.
  split; [done|]. rewrite <- Hid in Hrow.
  destruct (released_row w2 t2 w3 t3 Hrow Hrel)
    as (row & Hrow' & Hlo & _ & _ & Hst' & Hph' & Hcode' & Hj').
  exists row. rewrite <- Hid. split_and!; [done| | |congruence..].
  - rewrite Hst', Hst. apply updated_status. unfold status. by destruct (operationNeedsRecovery _).
  - rewrite Hph', Hph. apply updated_phase.
Qed.

(** The row is no longer the tracker's. *)
Definition lease_lost (w : W) (t : Tracker.Tracker_) : Prop :=
  forall c, (others w).1 !! Op.OperationID (Tracker.record t) = Some c ->
    ~ swappable (now ports w) c (Op.Revision (Tracker.record t)) (Tracker.owner t).

Lemma failure_lost h pre params t w w1 t1 e :
  h pre params (w, Some t) = ((w1, Some t1), Err e) ->
  good t1 -> lease_lost w1 t1 -> lease_lost (others w1) t1 ->
  withTracker ports t (runHandler ports h pre params) w =
    (others (others w1), Err (operationPersistenceError (Tracker.record t1) Tracker.lost_releasing)).
Proof using Type.
  intros Hh (Hne & Hlo & _) Hl1 Hl2. unfold withTracker, runHandler. cbn [fst snd]. rewrite Hh.
  change (default t (Some t1)) with t1.
  assert (Hf : exists e', settleFailure ports e (w1, t1) = ((others w1, t1), Err e')).
  { unfold settleFailure, snapshot, settled, tracker_update, reads, mbind_, Tracker.Snapshot.
    cbn [fst snd]. unfold Tracker.Update.
    match goal with |- context [Tracker.updated ?a ?b ?c ?d ?x ?f ?g] =>
      pose proof (updated_id a b c d x f g) as Hid; set (r := Tracker.updated a b c d x f g) in * end.
    destruct (settle_cases w1 t1 r (Op.Revision (Tracker.record t1)) (Tracker.owner t1)
      (Tracker.leaseDurationMillis t1) Tracker.lost) as [(c & Hc & Hs & _)|[_ Ho]].
    - exfalso. rewrite Hid in Hc. by eapply Hl1.
    - cbv zeta in Ho. rewrite Ho. by eexists. }
  destruct Hf as [e' ->]. unfold Tracker.Release. rewrite Hlo, (proj2 (str_empty_false _)) by done.
  set (r := Op.set_UpdatedAt _ _).
  destruct (settle_cases (others w1) t1 r (Op.Revision (Tracker.record t1)) (Tracker.owner t1) 0
    Tracker.lost_releasing) as [(c & Hc & Hs & _)|[_ Ho]].
  - exfalso. by eapply Hl2.
  - cbv zeta in Ho. by rewrite Ho.
Qed.

(** C19.  A failure is recorded for recovery, by whoever holds the operation.
    Take a handler that fails.  (1) When the operation's lease is live in the
    tracker's name ([synced]), nobody else writes its row ([undisturbed]) and the
    write that renews the lease is released before the lease runs out
    ([prompt]), the caller gets the handler's error with the operation's id, and
    the row says [reconciling] exactly when the operation may have reached Matrix
    by then ([failed] otherwise), keeps its phase and no result, and is free to
    be claimed again.  (2) When the row is no longer the tracker's, taken over or
    at another revision, and stays so, nothing at all is written: the table is
    what the others made of it, and the caller gets a persistence error that
    names the operation, to be retried. *)
Theorem failure_is_recorded h pre params t w w1 t1 e :
  h pre params (w, Some t) = ((w1, Some t1), Err e) -> good t1 ->
  let current := Tracker.record t1 in
  let code := failure_code (Op.Phase current) e in
  let o := withTracker ports t (runHandler ports h pre params) w in
  (synced w1 t1 -> undisturbed (Op.OperationID current) ->
   prompt w1 (Tracker.leaseDurationMillis t1) ->
   o.2 = Err {| Api.Status := Api.Status e; Api.Error_ := Api.Error_ e; Api.Code := code;
                Api.OperationID := Op.OperationID current;
                Api.CurrentRoomID :=
                  fallbackString (Api.CurrentRoomID e) (Op.CurrentRoomID current) |} /\
   exists row, o.1.1 !! Op.OperationID current = Some row /\
     Op.Status row = (if operationNeedsRecovery (Op.Phase current) then operationStatusReconciling
                      else operationStatusFailed) /\
     Op.Phase row = Op.Phase current /\ Op.ErrorCode row = code /\ Op.ResultJSON row = "" /\
     Op.LeaseOwner row = "") /\
  (lease_lost w1 t1 -> lease_lost (others w1) t1 ->
   o = (others (others w1), Err (operationPersistenceError current
     (ErrOther "recoverable operation lease or revision was lost while releasing")))).
Proof using Type.
  intros Hh Hg. cbv zeta. split.
  - intros Hs Hu Hp. exact (failure_recorded h pre params t w w1 t1 e Hh Hs Hu Hp).
  - intros Hl1 Hl2. exact (failure_lost h pre params t w w1 t1 e Hh Hg Hl1 Hl2).
Qed.
End Settled.

(** ** Callbacks nobody waits for *)

Section Dispatch.
Context `{GoRange} `{ResultCodec} `{MatrixIDs} {W : Type} `{OperationStore W}.
Context (ports : Ports W) (dispatch : DispatchPorts W).

(** The step fails and changes nothing. *)
Definition refuses {A} (m : M W Api.Error A) (w : W) : Prop := exists e, m w = (w, Err e).

(** The step changes nothing. *)
Definition looks_only {E A} (m : M W E A) : Prop := forall w, (m w).1 = w.

Lemma refuses_bind {A B} (m : M W Api.Error A) (k : A -> M W Api.Error B) w :
  looks_only m -> (forall a, m w = (w, Ok a) -> refuses (k a) w) -> refuses (mbind_ m k) w.
Proof using Type.
  intros Hm Hk. specialize (Hm w). unfold refuses, mbind_.
  destruct (m w) as [w' [a|e]] eqn:E; simpl in Hm; subst w'; [by apply Hk|by exists e].
Qed.

Lemma refuses_first {A B} (m : M W Api.Error A) (k : A -> M W Api.Error B) w :
  refuses m w -> refuses (mbind_ m k) w.
Proof using Type. intros [e He]. exists e. unfold mbind_. by rewrite He. Qed.

Lemma looks_reads {E A} (f : W -> result E A) : looks_only (reads f).
Proof using Type. done. Qed.

Lemma looks_require b e : looks_only (require b e).
Proof using Type. by destruct b. Qed.

Lemma looks_bind {E A B} (m : M W E A) (k : A -> M W E B) :
  looks_only m -> (forall a, looks_only (k a)) -> looks_only (mbind_ m k).
Proof using Type.
  intros Hm Hk w. specialize (Hm w). unfold mbind_.
  destruct (m w) as [w' [a|e]]; simpl in Hm; subst w'; [by apply Hk|done].
Qed.

Lemma looks_persisted {A} r (f : W -> result goerror A) : looks_only (persisted r (reads f)).
Proof using Type. intros w. unfold persisted, reads. by destruct (f w). Qed.

Lemma looks_validate action params :
  looks_only (validatePublicRecoveryShape ports dispatch action params).
Proof using Type.
  unfold validatePublicRecoveryShape, member_or_owner, owner_.
  repeat first [apply looks_require|apply looks_reads|apply looks_bind|intros ?].
Qed.

(** Memberships that await the result of a join request. *)
Definition awaits_result (membership : string) : bool :=
  one_of (to_lower (trim_space membership))
    ["pending"; "approved"; "joining"; "join_failed"; "invite"; "join"; "reject"; "rejected"].

Lemma preflight_result_refuses params w :
  (forall room channel m, memberTarget (directory ports w) params = Ok (room, channel) ->
     lookupMember (directory ports w) room (OwnerMXID (directory ports w)) = Ok (Some m) ->
     awaits_result (Member.Membership m) = false) ->
  refuses (preflightPublicChannelJoinResult ports params) w.
Proof using Type.
  intros Hm. apply refuses_bind; [apply looks_reads|]. intros [room channel] Ht.
  apply refuses_bind; [apply looks_require|]. intros _ _.
  apply refuses_bind; [apply looks_reads|]. intros owner Howner.
  apply refuses_bind; [apply looks_require|]. intros [] Hreq.
  apply refuses_bind; [apply looks_reads|]. intros [m|] Hfound; [|by eexists].
  apply refuses_first. injection Howner as <-. unfold target_of, owner_, reads, internal in *.
  unfold require, fail in Hreq. destruct (str_eqb _ _) eqn:E in Hreq; [|discriminate].
  apply str_eqb_true in E. rewrite E in Hfound.
  destruct (memberTarget (directory ports w) params) as [tgt|] eqn:Etgt; [|discriminate].
  destruct (lookupMember (directory ports w) room _) as [f|] eqn:Ef; [|discriminate].
  simplify_eq. unfold awaits_result in Hm. rewrite (Hm room channel m eq_refl Ef). by eexists.
Qed.

(** A join result nobody waits for is refused.  When the owner has no
    member row for the named room whose membership awaits the result of a join
    request, and no operation is recorded for the callback, the request fails
    and changes nothing: no operation row is claimed, no workflow is taken and
    no handler runs on the word of an unauthenticated caller. *)
Theorem unexpected_join_result_is_refused handler params w :
  let w0 := beginAccountOperation dispatch w in
  let action := "channels.public.join_result" in
  actions dispatch action = Some handler ->
  (forall r, operationRecordFor (directory ports w0) (now ports w0) action params = Ok r ->
     LookupOperation w0 (Op.OperationID r) = Ok None) ->
  (forall room channel m, memberTarget (directory ports w0) params = Ok (room, channel) ->
     lookupMember (directory ports w0) room (OwnerMXID (directory ports w0)) = Ok (Some m) ->
     awaits_result (Member.Membership m) = false) ->
  exists e, Handle ports dispatch action params w = (finishAccountOperation dispatch w0, Err e).
Proof using Type.
  intros w0 action Hact Hnone Hm.
  assert (Hd : accountIsDeprovisioned dispatch w0 = false ->
               refuses (dispatched ports dispatch action params handler) w0).
  { intros _. apply refuses_bind; [done|]. intros params' [= <-].
    apply refuses_first. apply refuses_bind; [apply looks_validate|]. intros _ _.
    apply refuses_bind; [apply looks_reads|]. intros r Hr.
    apply refuses_bind; [apply looks_persisted|]. intros stored Hs.
    unfold record_for, reads in Hr. injection Hr as Hr. unfold persisted, reads in Hs.
    rewrite (Hnone r Hr) in Hs. injection Hs as <-.
    apply refuses_first. by apply preflight_result_refuses. }
  unfold Handle. change (trim_space action) with action. rewrite Hact.
  change (str_eqb action "portal.account.delete") with false. cbv iota. unfold deferred. fold w0.
  destruct (accountIsDeprovisioned dispatch w0); [by eexists|].
  destruct (Hd eq_refl) as [e ->]. by eexists.
Qed.
End Dispatch.

(** ** Examples *)
Module RunDemo.
(** A text with a field for each of the three keys a join answers with. *)
Fixpoint fields (s acc : string) : list string :=
  match s with
  | EmptyString => [acc]
  | String c s => if Ascii.eqb c ";"%char then acc :: fields s "" else fields s (acc +:+ String c "")
  end.

Definition codec : ResultCodec := {|
  MarshalResult o := match o with
    | OMap m => Ok (text m "status" +:+ ";" +:+ text m "current_room_id" +:+ ";" +:+ text m "operation_id")
    | _ => Err (ErrOther "not a map")
    end;
  UnmarshalView _ := Err (ErrOther "not a view");
  UnmarshalObject s := match fields s "" with
    | [status; room; operation] => Ok (<["status" := status]> (<["current_room_id" := room]>
                                         {["operation_id" := operation]}))
    | _ => Err (ErrOther "unexpected end of JSON input")
    end;
  UnmarshalMember _ := Err (ErrOther "not a member");
  UnmarshalChannel _ := Err (ErrOther "not a channel");
  UnmarshalConversation _ := Err (ErrOther "not a conversation");
  DecodeNumber raw := Ok (AString raw);
|}.

Definition base : Op.Record_ := workflowOperation "op1" "groups.join" "!r:here" "@me:here" "" 0.

Definition leased (owner : string) : Op.Record_ :=
  Op.set_LeaseUntil 5000 (Op.set_LeaseOwner owner (Op.set_Revision 1 base)).

Definition world (owner : string) : table * Z := ({["op1" := leased owner]}, 1000).
Definition locals_ : locals := {| record := base; workflow := None |}.
Definition tracker_ : Tracker.Tracker_ := Tracker.NewTracker "claim_t" (leased "claim_t") 90000.

(** A join that succeeds. *)
Definition joiner : actionHandler (W := table * Z) :=
  fun _ _ st => (st, Ok (OMap {["status" := vtext "joined"]})).

(** A join that fails. *)
Definition failing : actionHandler (W := table * Z) :=
  fun _ _ st => (st, Err (Api.StatusError 502 "no route")).

Definition answer : outcome :=
  OMap (<["current_room_id" := vtext "!r:here"]> (<["operation_id" := vtext "op1"]>
          {["status" := vtext "joined"]})).

Definition ids : MatrixIDs := {|
  NewUserID s := Ok s;
  NewRoomID s := Ok s;
  SplitID s := Ok (s, "here");
|}.

Definition dispatch : DispatchPorts (table * Z) := {|
  serverName := "here";
  room_domain _ := Some "here";
  ListChannelInviteGrants := ret [];
  remotePublicChannelGet _ _ _ := ret None;
  rejectIfBlocked _ _ := ret tt;
  actions _ := Some joiner;
  beginAccountOperation w := w;
  finishAccountOperation w := w;
  accountIsDeprovisioned _ := false;
  lockMemberWorkflow _ w := w;
  unlockMemberWorkflow _ w := w;
|}.

Definition callback : content :=
  <["status" := AString "approved"]> {["room_id" := AString "!r:here"]}.
End RunDemo.

#[local] Existing Instance Demo.store.
#[local] Existing Instance RunDemo.codec.
#[local] Existing Instance RunDemo.ids.

Lemma demo_lease_lasts : lease_lasts Demo.others Demo.ports "op1" "claim_other".
Proof. by split; [split; intros; simpl in *; simplify_eq; try apply keeps_ret|..]. Qed.

Lemma held_operation_witness :
  for_held Demo.ports "op1" "claim_other" (RunDemo.world "claim_other", RunDemo.locals_) /\
  lockedOperation Demo.ports "groups.join" Demo.params Demo.handler None
    (RunDemo.world "claim_other", RunDemo.locals_) =
  lockedOperation Demo.ports "groups.join" Demo.params RunDemo.joiner None
    (RunDemo.world "claim_other", RunDemo.locals_).
Proof.
  assert (Hh : for_held Demo.ports "op1" "claim_other"
                 (RunDemo.world "claim_other", RunDemo.locals_)).
  { split; [|reflexivity]. split; [discriminate|].
    exists (RunDemo.leased "claim_other"). repeat split. }
  split; [exact Hh|].
  exact (held_operation_is_not_run Demo.others Demo.ports "op1" "claim_other" demo_lease_lasts
           "groups.join" Demo.params None Demo.handler RunDemo.joiner _ Hh).
Defined.

(** The world after the join, and the row it left. *)
Definition joined_world : table * Z :=
  (withTracker Demo.ports RunDemo.tracker_ (runHandler Demo.ports RunDemo.joiner None Demo.params)
     (RunDemo.world "claim_t")).1.
Definition joined_row : Op.Record_ := default RunDemo.base (joined_world.1 !! "op1").

Lemma settled_result_witness :
  withTracker Demo.ports RunDemo.tracker_ (runHandler Demo.ports RunDemo.joiner None Demo.params)
    (RunDemo.world "claim_t") = (joined_world, Ok RunDemo.answer) /\
  lockedOperation Demo.ports "groups.join" Demo.params Demo.handler None
    (joined_world, RunDemo.locals_) =
  ((joined_world, {| record := joined_row; workflow := None |}), Ok RunDemo.answer).
Proof.
  assert (Hrun : withTracker Demo.ports RunDemo.tracker_
    (runHandler Demo.ports RunDemo.joiner None Demo.params) (RunDemo.world "claim_t") =
    (joined_world, Ok RunDemo.answer)) by (vm_compute; reflexivity).
  split; [exact Hrun|].
  destruct (settled_result_is_replayed Demo.others Demo.ports RunDemo.joiner None Demo.params
    RunDemo.tracker_ (RunDemo.world "claim_t") (OMap {["status" := vtext "joined"]})
    (RunDemo.world "claim_t") RunDemo.tracker_ joined_world RunDemo.answer eq_refl Hrun)
    as (row & json & Hrow & _ & Hm & Hj & Hreplay).
  change (joined_world.1 !! "op1" = Some row) in Hrow.
  assert (Hr : row = joined_row) by (unfold joined_row; by rewrite Hrow). subst row.
  vm_compute in Hm. injection Hm as <-.
  specialize (Hreplay joined_world RunDemo.locals_ "groups.join" Demo.params Demo.handler None Hrow
    ltac:(discriminate) ltac:(vm_compute; reflexivity) ltac:(vm_compute; reflexivity)
    ltac:(vm_compute; reflexivity) ltac:(vm_compute; reflexivity)). cbv zeta in Hreplay.
  assert (Hdec : decodeRecoverableOperationResult "groups.join" "joined;!r:here;op1" = Ok RunDemo.answer)
    by (vm_compute; reflexivity).
  rewrite Hdec in Hreplay. apply Hreplay. vm_compute. reflexivity.
Defined.

(** The join that reached Matrix and failed. *)
Definition marked : (table * Z) * option Tracker.Tracker_ :=
  (Demo.handler None Demo.params (RunDemo.world "claim_t", Some RunDemo.tracker_)).1.
Definition marked_tracker : Tracker.Tracker_ := default RunDemo.tracker_ marked.2.

(** And one whose operation was taken over by another process meanwhile. *)
Lemma failure_is_recorded_witness :
  (exists row, (withTracker Demo.ports RunDemo.tracker_
      (runHandler Demo.ports Demo.handler None Demo.params) (RunDemo.world "claim_t")).1.1 !! "op1" =
    Some row /\ Op.Status row = "reconciling" /\ Op.LeaseOwner row = "") /\
  (withTracker Demo.ports RunDemo.tracker_
    (runHandler Demo.ports RunDemo.failing None Demo.params) (RunDemo.world "claim_other")).1 =
    RunDemo.world "claim_other".
Proof.
  assert (Hh : Demo.handler None Demo.params (RunDemo.world "claim_t", Some RunDemo.tracker_) =
    ((marked.1, Some marked_tracker), Err (Api.StatusError 502 "projection failed")))
    by (vm_compute; reflexivity).
  assert (Hg : good marked_tracker)
    by (split; [vm_compute; discriminate|split; vm_compute; reflexivity]).
  assert (Hs : synced Demo.ports marked.1 marked_tracker).
  { split; [exact Hg|].
    exists (Tracker.record marked_tracker). split; [vm_compute; reflexivity|].
    split; [vm_compute; reflexivity|split; vm_compute; reflexivity]. }
  split.
  - destruct (failure_is_recorded Demo.others Demo.ports Demo.handler None Demo.params RunDemo.tracker_
      (RunDemo.world "claim_t") marked.1 marked_tracker (Api.StatusError 502 "projection failed")
      Hh Hg) as [Hrec _].
    destruct (Hrec Hs (fun _ => eq_refl) (fun _ => eq_refl)) as [_ (row & Hrow & Hst & _ & _ & _ & Hlo)].
    exists row. split; [exact Hrow|]. split; [exact Hst|exact Hlo].
  - assert (Hlost : lease_lost Demo.others Demo.ports (RunDemo.world "claim_other") RunDemo.tracker_).
    { intros c Hc. vm_compute in Hc. injection Hc as <-. intros (_ & Ho & _). vm_compute in Ho.
      congruence. }
    destruct (failure_is_recorded Demo.others Demo.ports RunDemo.failing None Demo.params
      RunDemo.tracker_ (RunDemo.world "claim_other") (RunDemo.world "claim_other") RunDemo.tracker_
      (Api.StatusError 502 "no route") eq_refl) as [_ Hno].
    { split; [vm_compute; discriminate|split; vm_compute; reflexivity]. }
    exact (f_equal fst (Hno Hlost Hlost)).
Defined.

Lemma unexpected_join_result_witness :
  exists e, Handle Demo.ports RunDemo.dispatch "channels.public.join_result" RunDemo.callback
    Demo.start = (Demo.start, Err e).
Proof.
  apply (unexpected_join_result_is_refused Demo.ports RunDemo.dispatch RunDemo.joiner
           RunDemo.callback Demo.start).
  - reflexivity.
  - intros r _. reflexivity.
  - intros room channel m _ Hm. unfold lookupMember in Hm. simpl in Hm.
    destruct (str_empty room || str_empty "@me:here"); discriminate Hm.
Defined.
End RecoveryRunFacts.
