(* ===== verification/ChannelBackfill.v ===== *)
(** * Content of a channel from its history

    [internal/dirextalkmatrix/message_reader.go], the reader of a room's
    content over the pages of its history, and
    [p2p/service_channel_backfill.go], which projects that content when the
    channel is joined.  A page of [/messages] is a port. *)

From Stdlib Require Import String ZArith Lia.
From stdpp Require Import base tactics list gmap strings.
From S2P Require Import Prelude GoStrings Values Domain Policy Action Operations.
From S2P Require Import OperationIdentity Workflow ContentFlow Projector.
Local Open Scope Z_scope.
Local Open Scope go_scope.

(** The fields of [dirextalkmcp.Event] these functions use. *)
Module HistoryEvent.
Record Event := mk {
  Type_ : string;
  EventID : string;
  RoomID : string;
  Sender : string;
  OriginServerTS : Z;
  EvContent : content;
}.
Definition set_RoomID (v : string) (e : Event) : Event :=
  {| Type_ := Type_ e; EventID := EventID e; RoomID := v; Sender := Sender e;
     OriginServerTS := OriginServerTS e; EvContent := EvContent e |}.
Definition set_Content (v : content) (e : Event) : Event :=
  {| Type_ := Type_ e; EventID := EventID e; RoomID := RoomID e; Sender := Sender e;
     OriginServerTS := OriginServerTS e; EvContent := v |}.
End HistoryEvent.
Abbreviation Event := HistoryEvent.Event.

(** ** The reader *)

Module History.
Import HistoryEvent Identity.

(** [StatusError], or another error of a request. *)
Inductive error :=
| StatusError (StatusCode : Z) (Message : string)
| Other (e : goerror).

(** The events a channel's content is made of. *)
Definition isChannelContent (event : Event) : bool :=
  let text key := trimString (get (EvContent event) key) in
  if str_eqb (Type_ event) "m.room.message"
  then str_eqb (text "p2p_kind") "channel_post" || str_eqb (text "p2p_kind") "channel_comment"
  else if str_eqb (Type_ event) "m.reaction" then
    let relatesTo := match get (EvContent event) "m.relates_to" with
                     | AMap l => object_map l
                     | _ => ∅
                     end in
    negb (str_empty (trimString (get relatesTo "event_id")) && str_empty (text "post_id") &&
          str_empty (text "comment_id"))
  else false.

Definition taken (limit : nat) (roomID : string) (events chunk : list Event) : list Event :=
  take limit (events ++ map (set_RoomID roomID) (List.filter isChannelContent chunk)).

Section Reader.
Context {W : Type}.
(** [accessToken]; [getMessages] with it from a page token: the page and the
    token of its end. *)
Context (accessToken : M W error string).
Context (getMessages : string -> string -> M W error (list Event * string)).

(** The pages from [next]; [None] when the fuel ends before the history. *)
Fixpoint readPages (fuel : nat) (limit : nat) (token roomID : string) (seenTokens : list string)
    (next : string) (events : list Event) : M W error (option (list Event)) :=
  match fuel with
  | O => ret None
  | S fuel =>
      if (limit <=? length events)%nat then ret (Some events)
      else
      let! (chunk, end_) := getMessages token next in
      if bool_decide (chunk = []) then ret (Some events)
      else
      let events := taken limit roomID events chunk in
      if str_empty (trim_space end_) || str_eqb end_ next || bool_decide (end_ ∈ seenTokens)
      then ret (Some events)
      else readPages fuel limit token roomID (end_ :: seenTokens) end_ events
  end.

Definition ListChannelContent (fuel : nat) (roomID : string) (limit : Z)
    : M W error (option (list Event)) :=
  let! token := accessToken in
  readPages fuel (Z.to_nat (if limit <=? 0 then 100 else limit)) token roomID [] "" [].
End Reader.
End History.

(** ** The backfill *)

Module Backfill.
Import HistoryEvent Identity.

Definition maxChannelContentBackfillEvents : Z := 5000.

Definition channelContentBackfillWeight (event : Event) : Z :=
  if str_eqb (Type_ event) "m.reaction" then 2
  else
    let kind := trimString (get (EvContent event) "p2p_kind") in
    if str_eqb kind "channel_post" then 0 else if str_eqb kind "channel_comment" then 1 else 3.

(** [sort.SliceStable]'s order. *)
Definition backfill_before (a b : Event) : bool :=
  let wa := channelContentBackfillWeight a in
  let wb := channelContentBackfillWeight b in
  if negb (wa =? wb) then wa <? wb
  else if negb (OriginServerTS a =? OriginServerTS b) then OriginServerTS a <? OriginServerTS b
  else str_ltb (EventID a) (EventID b).

Definition matrixHistoryRateLimited (e : History.error) : bool :=
  match e with
  | History.StatusError code _ => code =? 429
  | History.Other _ => false
  end.

Section Backfill_.
Context {W : Type}.
(** The reader, if there is one; the channels; the content module, if set;
    [wait] for the next attempt, with the error of a context that ended. *)
Context (reader : option (string -> Z -> M W History.error (list Event))).
Context (channelByIDOrRoom : string -> string -> W -> result goerror (option Chan.Channel)).
Context (contentModule : option (ChannelContentPort W)).
Context (wait : W -> W * option goerror).

(** One more attempt after a rate limit; any other failure leaves nothing to
    project. *)
Definition listJoinedChannelContentBestEffort
    (read : string -> Z -> M W History.error (list Event)) (roomID : string)
    : M W goerror (list Event) := fun w =>
  match read roomID maxChannelContentBackfillEvents w with
  | (w, Ok events) => (w, Ok events)
  | (w, Err e) =>
      if negb (matrixHistoryRateLimited e) then (w, Ok [])
      else
        let '(w, ended) := wait w in
        match ended with
        | Some e => (w, Err e)
        | None =>
            match read roomID maxChannelContentBackfillEvents w with
            | (w, Ok events) => (w, Ok events)
            | (w, Err _) => (w, Ok [])
            end
        end
  end.

Definition projection_of (roomID channelID : string) (event : Event) : Event :=
  let event := if str_empty (RoomID event) then set_RoomID roomID event else event in
  if str_empty (trimString (get (EvContent event) "channel_id")) && negb (str_empty channelID)
  then set_Content (<["channel_id" := AString channelID]> (EvContent event)) event else event.

Definition projection_event (event : Event) : ContentFlow.ProjectionEvent :=
  let text key := trimString (get (EvContent event) key) in
  let type_ := fallbackString (text "client_type") (text "msgtype") in
  {| ContentFlow.ev_RoomID := RoomID event; ContentFlow.ev_EventID := EventID event;
     ContentFlow.ev_StateKey := ""; ContentFlow.ev_SenderMXID := Sender event;
     ContentFlow.ev_OriginServerTS := OriginServerTS event;
     ContentFlow.ev_Content := EvContent event; ContentFlow.ev_Body := text "body";
     ContentFlow.ev_MessageType := if str_empty type_ then "text" else type_ |}.

Definition projectBackfilled (roomID channelID : string) (event : Event) : M W goerror unit :=
  let event := projection_of roomID channelID event in
  match contentModule with
  | None => fail (ErrOther "channel content module is not configured")
  | Some content_ =>
      if str_eqb (Type_ event) "m.room.message" then
        let kind := trimString (get (EvContent event) "p2p_kind") in
        if str_eqb kind "channel_post" then pcc_ProjectPost content_ (projection_event event)
        else if str_eqb kind "channel_comment"
        then pcc_ProjectComment content_ (projection_event event)
        else ret tt
      else if str_eqb (Type_ event) "m.reaction"
      then pcc_ProjectReaction content_ (projection_event event)
      else ret tt
  end.

Definition backfillJoinedChannelContent (roomID channelID : string) : M W goerror unit :=
  if str_empty roomID then ret tt
  else match reader with
  | None => ret tt
  | Some read =>
      let! events := listJoinedChannelContentBestEffort read roomID in
      for_each (projectBackfilled roomID channelID) (stable_sort backfill_before events)
  end.

Definition backfillJoinedPostChannelContent (roomID channelID : string) : M W goerror unit :=
  if str_empty roomID then ret tt
  else
  let! ch := reads (channelByIDOrRoom channelID roomID) in
  match ch with
  | None => ret tt
  | Some ch => backfillJoinedChannelContent roomID (fallbackString channelID (Chan.ChannelID ch))
  end.
End Backfill_.
End Backfill.
