(* ===== verification/MessagePages.v ===== *)
(** * Pages of a room's messages

    [internal/dirextalkmcp/pagination.go], [types.go] and the reader of
    ordinary messages of [internal/dirextalkmatrix/message_reader.go]: which
    messages belong to a page, in which order, and the cursor of the page
    that follows.  [encoding/base64] and [encoding/json] are one parameter. *)

From Stdlib Require Import Ascii String ZArith Lia.
From stdpp Require Import base tactics list gmap strings.
From S2P Require Import Prelude GoStrings Values Domain GoTime Policy Action Operations.
From S2P Require Import OperationIdentity Workflow ChannelBackfill.
Local Open Scope Z_scope.
Local Open Scope go_scope.

Module Mcp.
Import Identity.

Record MessageSummary := {
  EventID : string;
  OriginServerTS : Z;
  CreatedAt : string;
  Sender : string;
  SenderMXID : string;
  SenderDisplayName : string;
  SenderDomain : string;
  SenderLocalpart : string;
  Msg : string;
}.

Record Page := {
  FromTS : Z;
  SnapshotTS : Z;
  CursorTS : Z;
  CursorID : string;
  Limit : Z;
}.

Record MessagePageResult := {
  Messages : list MessageSummary;
  HasMore : bool;
}.

Record CursorPayload := {
  Version : Z;
  Action : string;
  TargetID : string;
  FromTimeMS : Z;
  SnapshotTimeMS : Z;
  LastTimeMS : Z;
  LastID : string;
}.

(** [Error]: a status and a message. *)
Definition BadRequest (message : string) : Z * string := (400, message).
Definition InternalError (e : goerror) : Z * string := (500, error_text e).

(** The JSON text of a payload in unpadded URL base64, and back. *)
Class CursorText := {
  encode_payload : CursorPayload -> result goerror string;
  decode_payload : string -> option CursorPayload;
}.

(** ** Cursors *)

Section Cursors.
Context `{CursorText}.

Definition DecodeCursor (cursor : string) : result (Z * string) CursorPayload :=
  match decode_payload (trim_space cursor) with
  | None => Err (BadRequest "cursor is invalid")
  | Some payload =>
      if negb (Version payload =? 1) then Err (BadRequest "cursor is invalid") else Ok payload
  end.

Definition EncodeCursor (action targetID : string) (page : Page) (lastTS : Z) (lastID : string)
    : result goerror string :=
  encode_payload {| Version := 1; Action := action; TargetID := targetID;
                    FromTimeMS := FromTS page; SnapshotTimeMS := SnapshotTS page;
                    LastTimeMS := lastTS; LastID := lastID |}.

(** [has_more] and, when there is more, [next_cursor]. *)
Definition AttachPagination (action targetID : string) (page : Page) (hasMore : bool)
    (lastTS : Z) (lastID : string) : result (Z * string) (bool * option string) :=
  if negb hasMore || (lastTS <=? 0) || str_empty (trim_space lastID) then Ok (hasMore, None)
  else match EncodeCursor action targetID page lastTS lastID with
       | Ok cursor => Ok (hasMore, Some cursor)
       | Err e => Err (InternalError e)
       end.
End Cursors.

(** ** Membership and order *)

Definition InTimeRange (ts fromTS toTS : Z) : bool :=
  if (0 <? fromTS) && (ts <? fromTS) then false
  else negb ((0 <? toTS) && (toTS <? ts)).

Definition InPage (ts : Z) (id : string) (page : Page) : bool :=
  if negb (InTimeRange ts (FromTS page) (SnapshotTS page)) then false
  else if CursorTS page <=? 0 then true
  else if ts <? CursorTS page then true
  else (ts =? CursorTS page) && str_ltb (trim_space id) (trim_space (CursorID page)).

Definition FormatTime (ts : Z) : string :=
  if ts <=? 0 then "" else format_rfc3339nano (of_unix_milli ts).

Definition splitMXID (mxid : string) : string * string :=
  let withoutSigil := trim_prefix (trim_space mxid) "@" in
  match cut ":"%char withoutSigil with
  | Some (localpart, domain) => (trim_space localpart, trim_space domain)
  | None => (trim_space withoutSigil, "")
  end.

Definition displayNameFromMXID (mxid : string) : string :=
  let '(localpart, _) := splitMXID mxid in
  if str_empty (trim_space localpart) then trim_space mxid else localpart.

Definition OrdinaryMessageSummary (eventType eventID : string) (originServerTS : Z)
    (sender : string) (content_ : content) (page : Page) : option MessageSummary :=
  if negb (str_eqb eventType "m.room.message") || negb (InPage originServerTS eventID page)
  then None
  else if negb (str_empty (trimString (get content_ "p2p_kind"))) then None
  else
  let body := trimString (get content_ "body") in
  if str_empty body then None
  else
  let sender := trim_space sender in
  let '(localpart, domain) := splitMXID sender in
  Some {| EventID := eventID; OriginServerTS := originServerTS;
          CreatedAt := FormatTime originServerTS; Sender := displayNameFromMXID sender;
          SenderMXID := sender; SenderDisplayName := ""; SenderDomain := domain;
          SenderLocalpart := localpart; Msg := body |}.

(** Newest first. *)
Definition newer (a b : MessageSummary) : bool :=
  if OriginServerTS a =? OriginServerTS b then str_ltb (EventID b) (EventID a)
  else OriginServerTS b <? OriginServerTS a.

Definition SortMessageSummaries : list MessageSummary -> list MessageSummary := stable_sort newer.

(** ** The reader of ordinary messages *)

Section Reader.
Context {W : Type}.
Context (accessToken : M W History.error string).
Context (getMessages : string -> string -> M W History.error (list Event * string)).

Definition summaries (page : Page) (chunk : list Event) : list MessageSummary :=
  omap (fun e => OrdinaryMessageSummary (HistoryEvent.Type_ e) (HistoryEvent.EventID e)
                   (HistoryEvent.OriginServerTS e) (HistoryEvent.Sender e)
                   (HistoryEvent.EvContent e) page) chunk.

(** One message more than the page holds tells that there is another page.
    [None] when the fuel ends before the history. *)
Fixpoint readOrdinary (fuel : nat) (page : Page) (token : string) (seenTokens : list string)
    (next : string) (messages : list MessageSummary)
    : M W History.error (option (list MessageSummary)) :=
  match fuel with
  | O => ret None
  | S fuel =>
      let room := S (Z.to_nat (Limit page)) in
      if (room <=? length messages)%nat then ret (Some messages)
      else
      let! (chunk, end_) := getMessages token next in
      if bool_decide (chunk = []) then ret (Some messages)
      else
      let messages := take room (messages ++ summaries page chunk) in
      if str_empty (trim_space end_) || str_eqb end_ next || bool_decide (end_ ∈ seenTokens)
      then ret (Some messages)
      else readOrdinary fuel page token (end_ :: seenTokens) end_ messages
  end.

Definition ListOrdinaryMessages (fuel : nat) (page : Page)
    : M W History.error (option MessagePageResult) :=
  let! token := accessToken in
  let page := if Limit page <=? 0
              then {| FromTS := FromTS page; SnapshotTS := SnapshotTS page;
                      CursorTS := CursorTS page; CursorID := CursorID page; Limit := 50 |}
              else page in
  let! read := readOrdinary fuel page token [] "" [] in
  ret (match read with
       | None => None
       | Some messages =>
           let messages := SortMessageSummaries messages in
           let limit := Z.to_nat (Limit page) in
           Some {| Messages := take limit messages;
                   HasMore := (limit <? length messages)%nat |}
       end).
End Reader.
End Mcp.
