(* ===== verification/GroupAgent.v ===== *)
(** * Group agents

    [internal/dirextalkdomain/group_agent.go], the memory tables of
    [p2p/storage/memory_group_agent.go], the sanitiser of
    [internal/dirextalktransport/group_agent.go] and
    [p2p/service_group_agent.go]: the grant by which the owner of a group
    shares its agent with the members, the requests made under it, and the
    private operations by which the agent reads and answers them.

    The tables have a lock of their own, which a mutation holds while its
    callback runs: a callback works on the rest of the world only. *)

From Stdlib Require Import Ascii String ZArith Lia.
From stdpp Require Import base tactics list gmap strings pretty.
From S2P Require Import Prelude GoStrings Values GoSha256 Domain GoTime GoTimeParse Policy Action.
From S2P Require Import RoomState Operations OperationIdentity Workflow Prepared ChannelBackfill.
From S2P Require Import MessagePages.
Local Open Scope Z_scope.
Local Open Scope go_scope.

(** ** Records *)

Module Binding.
Record GroupAgentBinding := mk {
  RoomID : string;
  Enabled : bool;
  OwnerMXID : string;
  AgentMXID : string;
  DisplayName : string;
  AvatarURL : string;
  Revision : Z;
  MemberPolicy : string;
  Status : string;
  AccountGeneration : Z;
  EnabledAt : Z;
}.
#[global] Instance binding_eq_dec : EqDecision GroupAgentBinding.
Proof. solve_decision. Defined.
End Binding.

Module Request.
Record GroupAgentRequest := mk {
  RequestID : string;
  RoomID : string;
  EventID : string;
  SenderMXID : string;
  OwnerMXID : string;
  AgentMXID : string;
  BindingRevision : Z;
  AccountGeneration : Z;
  OriginServerTS : Z;
  Body : string;
  ScheduledBy : string;
  SenderDisplayName : string;
  Status : string;
  ReplyEventID : string;
  ReplyDigest : string;
}.
Definition set_Body (v : string) (r : GroupAgentRequest) : GroupAgentRequest :=
  {| RequestID := RequestID r; RoomID := RoomID r; EventID := EventID r;
     SenderMXID := SenderMXID r; OwnerMXID := OwnerMXID r; AgentMXID := AgentMXID r;
     BindingRevision := BindingRevision r; AccountGeneration := AccountGeneration r;
     OriginServerTS := OriginServerTS r; Body := v; ScheduledBy := ScheduledBy r;
     SenderDisplayName := SenderDisplayName r; Status := Status r;
     ReplyEventID := ReplyEventID r; ReplyDigest := ReplyDigest r |}.
Definition set_SenderDisplayName (v : string) (r : GroupAgentRequest) : GroupAgentRequest :=
  {| RequestID := RequestID r; RoomID := RoomID r; EventID := EventID r;
     SenderMXID := SenderMXID r; OwnerMXID := OwnerMXID r; AgentMXID := AgentMXID r;
     BindingRevision := BindingRevision r; AccountGeneration := AccountGeneration r;
     OriginServerTS := OriginServerTS r; Body := Body r; ScheduledBy := ScheduledBy r;
     SenderDisplayName := v; Status := Status r;
     ReplyEventID := ReplyEventID r; ReplyDigest := ReplyDigest r |}.
Definition set_Status (v : string) (r : GroupAgentRequest) : GroupAgentRequest :=
  {| RequestID := RequestID r; RoomID := RoomID r; EventID := EventID r;
     SenderMXID := SenderMXID r; OwnerMXID := OwnerMXID r; AgentMXID := AgentMXID r;
     BindingRevision := BindingRevision r; AccountGeneration := AccountGeneration r;
     OriginServerTS := OriginServerTS r; Body := Body r; ScheduledBy := ScheduledBy r;
     SenderDisplayName := SenderDisplayName r; Status := v;
     ReplyEventID := ReplyEventID r; ReplyDigest := ReplyDigest r |}.
Definition set_Reply (event digest : string) (r : GroupAgentRequest) : GroupAgentRequest :=
  {| RequestID := RequestID r; RoomID := RoomID r; EventID := EventID r;
     SenderMXID := SenderMXID r; OwnerMXID := OwnerMXID r; AgentMXID := AgentMXID r;
     BindingRevision := BindingRevision r; AccountGeneration := AccountGeneration r;
     OriginServerTS := OriginServerTS r; Body := Body r; ScheduledBy := ScheduledBy r;
     SenderDisplayName := SenderDisplayName r; Status := Status r;
     ReplyEventID := event; ReplyDigest := digest |}.
End Request.

(** Times are nanoseconds since the epoch. *)
Module Schedule.
Record GroupAgentSchedule := mk {
  RoomID : string;
  ScheduleID : string;
  Name : string;
  Capability : string;
  Cron : string;
  RunAt : option Z;
  Timezone : string;
  NextRunAt : option Z;
  CreatedBy : string;
  BindingRevision : Z;
  UpdatedAt : Z;
}.
End Schedule.

Abbreviation GroupAgentBinding := Binding.GroupAgentBinding.
Abbreviation GroupAgentRequest := Request.GroupAgentRequest.
Abbreviation GroupAgentSchedule := Schedule.GroupAgentSchedule.

(** [ErrGroupAgentConflict], [ErrGroupAgentQueueFull], or another error. *)
Inductive agent_error :=
| ErrGroupAgentConflict
| ErrGroupAgentQueueFull
| Failure_ (e : goerror).

Definition agent_error_text (e : agent_error) : string :=
  match e with
  | ErrGroupAgentConflict => "group agent binding or request conflict"
  | ErrGroupAgentQueueFull =>
      "group Agent request queue is full; retry after pending requests settle"
  | Failure_ e => error_text e
  end.

Definition failure {W A} (message : string) : M W agent_error A := fail (Failure_ (ErrOther message)).

(** ** Display names *)

Module Sanitize.
(** The rune at the front of valid UTF-8, its bytes and the rest. *)
Definition byte (a : ascii) : Z := Z.of_nat (nat_of_ascii a).
Definition continuation (a : ascii) : bool := (128 <=? byte a) && (byte a <=? 191).
Definition low (a : ascii) : Z := byte a mod 64.

Definition next_rune (l : bytes) : option (Z * bytes * bytes) :=
  match l with
  | [] => None
  | a :: l1 =>
      let x := byte a in
      if x <? 128 then Some (x, [a], l1)
      else if (194 <=? x) && (x <=? 223) then
        match l1 with
        | b :: l2 => if continuation b then Some ((x - 192) * 64 + low b, [a; b], l2) else None
        | _ => None
        end
      else if (224 <=? x) && (x <=? 239) then
        match l1 with
        | b :: c :: l3 =>
            let first := if x =? 224 then 160 else 128 in
            let last := if x =? 237 then 159 else 191 in
            if (first <=? byte b) && (byte b <=? last) && continuation c
            then Some (((x - 224) * 64 + low b) * 64 + low c, [a; b; c], l3) else None
        | _ => None
        end
      else if (240 <=? x) && (x <=? 244) then
        match l1 with
        | b :: c :: d :: l4 =>
            let first := if x =? 240 then 144 else 128 in
            let last := if x =? 244 then 143 else 191 in
            if (first <=? byte b) && (byte b <=? last) && continuation c && continuation d
            then Some ((((x - 240) * 64 + low b) * 64 + low c) * 64 + low d, [a; b; c; d], l4)
            else None
        | _ => None
        end
      else None
  end.

(** The runes of a valid string; a string has at most as many runes as bytes. *)
Fixpoint runes (fuel : nat) (l : bytes) : option (list (Z * bytes)) :=
  match l, fuel with
  | [], _ => Some []
  | _, O => None
  | _, S fuel =>
      match next_rune l with
      | None => None
      | Some (r, enc, rest) =>
          match runes fuel rest with
          | None => None
          | Some rs => Some ((r, enc) :: rs)
          end
      end
  end.

(** [unicode.IsSpace], [unicode.IsControl], [utf8.RuneError] *)
Definition is_space (r : Z) : bool :=
  ((9 <=? r) && (r <=? 13)) || (r =? 32) || (r =? 133) || (r =? 160) || (r =? 5760) ||
  ((8192 <=? r) && (r <=? 8202)) || (r =? 8232) || (r =? 8233) || (r =? 8239) || (r =? 8287) ||
  (r =? 12288).
Definition is_control (r : Z) : bool := (r <? 32) || ((127 <=? r) && (r <=? 159)).
Definition rune_error : Z := 65533.

Definition GroupAgentDisplayNameMaxRunes : nat := 64.

(** The runes written so far, whether a space is due. *)
Fixpoint written (rs : list (Z * bytes)) (out : list (Z * bytes)) (space : bool)
    : list (Z * bytes) :=
  match rs with
  | [] => out
  | (r, enc) :: rs =>
      if is_space r || is_control r || (r =? rune_error)
      then written rs out (negb (bool_decide (out = [])))
      else
        let out := if space then out ++ [(32, [" "%char])] else out in
        if (GroupAgentDisplayNameMaxRunes <=? length out)%nat then out
        else written rs (out ++ [(r, enc)]) false
  end.

Definition SanitizeGroupAgentDisplayName (raw : string) : string :=
  let trimmed := trim_space raw in
  let l := list_ascii_of_string trimmed in
  match runes (length l) l with
  | Some (r :: rs) =>
      trim_space (string_of_list_ascii (concat (map snd (written (r :: rs) [] false))))
  | _ => ""
  end.

Example sanitize_line :
  SanitizeGroupAgentDisplayName (" a" +:+ String "010" "b  c ") = "a b c".
Proof. vm_compute. reflexivity. Qed.
End Sanitize.

(** ** The memory tables *)

Module AgentStore.
Record tables := {
  groupAgentBindings : gmap string GroupAgentBinding;
  groupAgentRequests : gmap string GroupAgentRequest;
  groupAgentSchedules : gmap string GroupAgentSchedule;
}.

Definition no_binding : GroupAgentBinding :=
  Binding.mk "" false "" "" "" "" 0 "" "" 0 0.

Definition groupAgentRequestQueueMax : nat := 256.

Definition groupAgentRequestMatches (b : GroupAgentBinding) (r : GroupAgentRequest) : bool :=
  Binding.Enabled b && (Binding.Revision b =? Request.BindingRevision r) &&
  str_eqb (Binding.OwnerMXID b) (Request.OwnerMXID r) &&
  str_eqb (Binding.AgentMXID b) (Request.AgentMXID r) &&
  (Binding.AccountGeneration b =? Request.AccountGeneration r).

(** [s.groupAgentBindings[roomID]] *)
Definition binding_of (s : tables) (roomID : string) : GroupAgentBinding :=
  default no_binding (groupAgentBindings s !! roomID).

Definition GetGroupAgentBinding (s : tables) (roomID : string) : option GroupAgentBinding :=
  groupAgentBindings s !! roomID.

Definition sorted_rooms (s : tables) : list string :=
  stable_sort str_ltb (map fst (map_to_list (groupAgentBindings s))).

Definition ListEnabledGroupAgentBindings (s : tables) (owner : string) (generation limit : Z)
    : list GroupAgentBinding :=
  let enabled := List.filter (fun b =>
    Binding.Enabled b && str_eqb (Binding.OwnerMXID b) owner &&
    (Binding.AccountGeneration b =? generation)) (map (binding_of s) (sorted_rooms s)) in
  take (Z.to_nat (Z.max 1 limit)) enabled.

(** A changed or revoked grant cancels the requests made under another one. *)
Definition cancel_stale (roomID : string) (b : GroupAgentBinding) (r : GroupAgentRequest)
    : GroupAgentRequest :=
  if str_eqb (Request.RoomID r) roomID && str_eqb (Request.Status r) "pending" &&
     (negb (Binding.Enabled b) || negb (Request.BindingRevision r =? Binding.Revision b))
  then Request.set_Status "cancelled" r else r.

Definition with_RoomID (roomID : string) (b : GroupAgentBinding) : GroupAgentBinding :=
  Binding.mk roomID (Binding.Enabled b) (Binding.OwnerMXID b) (Binding.AgentMXID b)
    (Binding.DisplayName b) (Binding.AvatarURL b) (Binding.Revision b) (Binding.MemberPolicy b)
    (Binding.Status b) (Binding.AccountGeneration b) (Binding.EnabledAt b).

Section Mutations.
Context {X : Type}.

Definition MutateGroupAgentBinding {A} (roomID : string)
    (mutate : GroupAgentBinding -> M X agent_error (GroupAgentBinding * A))
    : M (tables * X) agent_error A := fun st =>
  let '(s, x) := st in
  let b := with_RoomID roomID (binding_of s roomID) in
  match mutate b x with
  | (x, Err e) => ((s, x), Err e)
  | (x, Ok (b', a)) =>
      let requests :=
        if negb (Binding.Enabled b') || negb (Binding.Revision b' =? Binding.Revision b)
        then cancel_stale roomID b' <$> groupAgentRequests s else groupAgentRequests s in
      (({| groupAgentBindings := <[roomID := b']> (groupAgentBindings s);
           groupAgentRequests := requests;
           groupAgentSchedules := groupAgentSchedules s |}, x), Ok a)
  end.

Definition set_request (s : tables) (id : string) (r : GroupAgentRequest) : tables :=
  {| groupAgentBindings := groupAgentBindings s;
     groupAgentRequests := <[id := r]> (groupAgentRequests s);
     groupAgentSchedules := groupAgentSchedules s |}.

Definition MutateGroupAgentRequest {A} (id : string)
    (mutate : GroupAgentBinding -> GroupAgentRequest -> M X agent_error (GroupAgentRequest * A))
    : M (tables * X) agent_error A := fun st =>
  let '(s, x) := st in
  match groupAgentRequests s !! id with
  | None => ((s, x), Err ErrGroupAgentConflict)
  | Some r =>
      match mutate (binding_of s (Request.RoomID r)) r x with
      | (x, Err e) => ((s, x), Err e)
      | (x, Ok (r, a)) => ((set_request s id (Request.set_Body "" r), x), Ok a)
      end
  end.
End Mutations.

(** *** Schedules *)

Definition groupAgentScheduleKey (roomID scheduleID : string) : string :=
  roomID +:+ "|" +:+ scheduleID.

Definition set_schedules (s : tables) (m : gmap string GroupAgentSchedule) : tables :=
  {| groupAgentBindings := groupAgentBindings s; groupAgentRequests := groupAgentRequests s;
     groupAgentSchedules := m |}.

Definition UpsertGroupAgentSchedule (s : tables) (schedule : GroupAgentSchedule) : tables :=
  set_schedules s
    (<[groupAgentScheduleKey (Schedule.RoomID schedule) (Schedule.ScheduleID schedule) := schedule]>
       (groupAgentSchedules s)).

Definition RemoveGroupAgentSchedule (s : tables) (roomID scheduleID : string) : tables :=
  set_schedules s (delete (groupAgentScheduleKey roomID scheduleID) (groupAgentSchedules s)).

Definition ListGroupAgentSchedules (s : tables) (roomID : string) (limit : Z)
    : list GroupAgentSchedule :=
  let out := stable_sort (fun a b => str_ltb (Schedule.ScheduleID a) (Schedule.ScheduleID b))
    (List.filter (fun x => str_eqb (Schedule.RoomID x) roomID)
       (map snd (map_to_list (groupAgentSchedules s)))) in
  if 0 <? limit then take (Z.to_nat limit) out else out.

(** *** Requests *)

Definition pending_in (s : tables) (roomID : string) : nat :=
  length (List.filter (fun r => str_eqb (Request.RoomID r) roomID &&
                                str_eqb (Request.Status r) "pending")
            (map snd (map_to_list (groupAgentRequests s)))).

Definition EnqueueGroupAgentRequest (s : tables) (r : GroupAgentRequest)
    : tables * result agent_error bool :=
  if negb (groupAgentRequestMatches (binding_of s (Request.RoomID r)) r) then (s, Ok false)
  else if bool_decide (is_Some (groupAgentRequests s !! Request.RequestID r)) then (s, Ok false)
  else if (groupAgentRequestQueueMax <=? pending_in s (Request.RoomID r))%nat
  then (s, Err ErrGroupAgentQueueFull)
  else
  let scheduled := negb (str_empty (Request.ScheduledBy r)) in
  if scheduled && str_empty (trim_space (Request.Body r)) then (s, Ok false)
  else
    let r := if scheduled then r else Request.set_Body "" r in
    (set_request s (Request.RequestID r) (Request.set_Status "pending" r), Ok true).

Definition ListGroupAgentRequests (s : tables) (owner : string) (generation : Z) (limit : Z)
    (after : string) : list GroupAgentRequest :=
  let requests := stable_sort (fun a b => str_ltb (Request.RequestID a) (Request.RequestID b))
    (List.filter (fun r =>
       str_eqb (Request.OwnerMXID r) owner && (Request.AccountGeneration r =? generation) &&
       str_eqb (Request.Status r) "pending" && str_ltb after (Request.RequestID r) &&
       groupAgentRequestMatches (binding_of s (Request.RoomID r)) r)
       (map snd (map_to_list (groupAgentRequests s)))) in
  take (Z.to_nat limit) requests.

Definition GetGroupAgentRequest (s : tables) (id : string) : option GroupAgentRequest :=
  groupAgentRequests s !! id.

Definition cancel_matching (roomID sender eventID : string) (r : GroupAgentRequest)
    : GroupAgentRequest :=
  let agrees wanted found := str_empty wanted || str_eqb found wanted in
  if str_eqb (Request.Status r) "pending" && agrees roomID (Request.RoomID r) &&
     agrees sender (Request.SenderMXID r) && agrees eventID (Request.EventID r)
  then Request.set_Status "cancelled" r else r.

Definition CancelGroupAgentRequests (s : tables) (roomID sender eventID : string) : tables :=
  {| groupAgentBindings := groupAgentBindings s;
     groupAgentRequests := cancel_matching roomID sender eventID <$> groupAgentRequests s;
     groupAgentSchedules := groupAgentSchedules s |}.
End AgentStore.

(** ** The service *)

Module AgentService.
Import AgentStore Identity.

(** *** What Matrix says of a room and of a message *)

Record GroupAgentMember := {
  gm_MXID : string;
  gm_DisplayName : string;
}.

Record GroupAgentRoom := {
  IsGroup : bool;
  Dissolved : bool;
  RoomOwnerMXID : string;
  OwnerDisplayName : string;
  Members : list GroupAgentMember;
  Joined : gmap string bool;
  JoinedAt : gmap string Z;
  RoomBinding : option GroupAgentBinding;
}.

Definition joined (room : GroupAgentRoom) (user : string) : bool :=
  default false (Joined room !! user).

Record GroupAgentMessage := {
  ms_RoomID : string;
  ms_EventID : string;
  ms_SenderMXID : string;
  ms_SenderDisplayName : string;
  ms_Body : string;
  ms_OriginServerTS : Z;
  ms_Mentions : list string;
  ms_Generated : bool;
}.
Definition no_message : GroupAgentMessage :=
  {| ms_RoomID := ""; ms_EventID := ""; ms_SenderMXID := ""; ms_SenderDisplayName := "";
     ms_Body := ""; ms_OriginServerTS := 0; ms_Mentions := []; ms_Generated := false |}.

(** [GroupAgentReadPort] *)
Record ReadPort (X : Type) := {
  ReadGroupAgentRoom : string -> M X goerror GroupAgentRoom;
  ReadGroupAgentMessage : string -> string -> M X goerror GroupAgentMessage;
}.
Arguments ReadGroupAgentRoom {X}.
Arguments ReadGroupAgentMessage {X}.

(** The rest of the service: [hasTransport] when there is a Matrix transport,
    which may lack the read port and the prepared messages; the group and the
    members of a room for a service without one. *)
Record Ports (X : Type) := {
  hasTransport : bool;
  readPort : option (ReadPort X);
  groupByRoom : string -> X -> result goerror (option Group.GroupRecord);
  ListMembers : string -> X -> result goerror (list Member.MemberRecord);
  OwnerMXID : X -> string;
  accountGeneration : X -> Z;
  now : X -> Z;
  EnsureNativeGroupAgentIdentity : option (string -> M X goerror unit);
  InviteUser : string -> string -> string -> M X goerror unit;
  JoinRoom : string -> string -> string -> M X goerror unit;
  LeaveRoom : string -> string -> M X goerror unit;
  UpdateMemberProfile : string -> string -> string -> X -> X;
  SendStateEvent : string -> string -> RoomState.StateEvent -> M X goerror unit;
  matrixMessages : option (string -> Mcp.Page -> M X goerror Mcp.MessagePageResult);
  preparedPort : option (PreparedMessagePort X);
  preparedMatrixStore : option (PreparedStore X);
  AdmitGroupAgentPublication : string -> GroupAgentRequest -> string -> M X agent_error unit;
  accountIsDeprovisioned : X -> bool;
}.
Arguments hasTransport {X}.
Arguments readPort {X}.
Arguments groupByRoom {X}.
Arguments ListMembers {X}.
Arguments OwnerMXID {X}.
Arguments accountGeneration {X}.
Arguments now {X}.
Arguments EnsureNativeGroupAgentIdentity {X}.
Arguments InviteUser {X}.
Arguments JoinRoom {X}.
Arguments LeaveRoom {X}.
Arguments UpdateMemberProfile {X}.
Arguments SendStateEvent {X}.
Arguments matrixMessages {X}.
Arguments preparedPort {X}.
Arguments preparedMatrixStore {X}.
Arguments AdmitGroupAgentPublication {X}.
Arguments accountIsDeprovisioned {X}.

(** [google/uuid]: whether a text is the canonical form of the UUID it parses
    to, and [uuid.NewSHA1(uuid.NameSpaceURL, name)] as text; [json.Marshal] of
    the number a revision is decoded to. *)
Class AgentText := {
  canonical_uuid : string -> bool;
  uuid_of_name : string -> string;
  decoded_number : Z -> any;
}.

(** The decoded parameters of a private operation; assets are JSON objects. *)
Record groupAgentCapabilityParams := {
  p_RequestID : string;
  p_RoomID : string;
  p_BindingRevision : Z;
  p_Limit : Z;
  p_Body : string;
  p_ActorMXID : string;
  p_Summary : string;
  p_CoveredThroughTS : Z;
  p_MessageCount : Z;
  p_Servers : list any;
  p_Artifacts : list any;
  p_ScheduleID : string;
  p_Name : string;
  p_Capability : string;
  p_Cron : string;
  p_RunAt : string;
  p_Timezone : string;
  p_NextRunAt : string;
  p_CreatedBy : string;
  p_Status : string;
  p_Kind : string;
  p_AfterRequestID : string;
  p_Cursor : string;
  p_AfterTS : Z;
}.

Record RosterMember := {
  rm_MXID : string;
  rm_DisplayName : string;
  rm_Role : string;
}.
Record groupAgentRosterResponse := {
  RosterMembers : list RosterMember;
  Total : Z;
  HasMore : bool;
}.

(** A page of messages with [has_more] and [next_cursor]. *)
Record MessagesPage := {
  mp_Messages : list GroupAgentMessage;
  mp_HasMore : bool;
  mp_NextCursor : option string;
}.

(** The maps these operations return. *)
Inductive reply :=
| RRequests (requests : list GroupAgentRequest) (hasMore : bool) (next : string)
| RRecorded
| RRemoved
| REnqueued (replayed : bool)
| RBindings (owner : string) (bindings : list GroupAgentBinding)
| RMessages (page : MessagesPage)
| RAllowed
| RRevoked
| RCancelled (replayed : bool)
| RMembers (roster : groupAgentRosterResponse)
| RCompleted (status : string)
| RPublished (eventID : string) (replayed : bool).

Definition groupAgentSchedulesMax : Z := 100.
Definition groupAgentSchedulesStateMax : Z := 40.
Definition groupAgentAssetsStateMax : nat := 40.
Definition groupAgentMemoryStateMax : Z := 8192.
Definition groupAgentHistoryMaxLimit : Z := 200.
Definition groupAgentBindingPageSize : Z := 50.
Definition groupAgentMembersDefaultLimit : Z := 50.
Definition groupAgentMembersMaxLimit : Z := 200.
Definition groupAgentScheduledBodyMax : Z := 16000.
Definition groupAgentHistoryCursorAction := "group_agent.history".
Definition GroupAgentStateEventType := "io.dirextalk.group_agent".
Definition GroupAgentSchedulesStateEventType := "io.dirextalk.group_agent_schedules".
Definition GroupAgentAssetsStateEventType := "io.dirextalk.group_agent_assets".
Definition GroupAgentMemoryStateEventType := "io.dirextalk.group_agent_memory".

Definition groupYingRoomDisplayName (ownerDisplayName : string) : string := "Ying".

(** [time.Format(time.RFC3339)] has no fraction. *)
Definition format_rfc3339 (t : Z) : string := format_rfc3339nano (t / ns_per_s * ns_per_s).

Definition groupAgentInteger (raw : any) : option Z :=
  let non_negative n := if 0 <=? n then Some n else None in
  match raw with
  | ANumber text => match parse_int_strict text with Some n => non_negative n | None => None end
  | AInt n | AInt64 n => non_negative n
  | AFloat64 f => match f64_json_int64 f with Some n => non_negative n | None => None end
  | _ => None
  end.

(** The binding Matrix publishes is the one the request was made under. *)
Definition groupAgentMatrixBindingMatches (room : GroupAgentRoom) (b : GroupAgentBinding) : bool :=
  match RoomBinding room with
  | None => false
  | Some m =>
      str_eqb (Binding.RoomID m) (Binding.RoomID b) && Binding.Enabled m &&
      (Binding.Revision m =? Binding.Revision b) &&
      str_eqb (Binding.OwnerMXID m) (Binding.OwnerMXID b) &&
      str_eqb (Binding.AgentMXID m) (Binding.AgentMXID b) &&
      str_eqb (Binding.MemberPolicy m) "all_joined"
  end.

(** *** The roster *)

Definition rank (role : string) : Z :=
  if str_eqb role "owner" then 0 else if str_eqb role "agent" then 2 else 1.

Definition roster_entry (b : GroupAgentBinding) (m : GroupAgentMember) : RosterMember :=
  {| rm_MXID := gm_MXID m;
     rm_DisplayName := Sanitize.SanitizeGroupAgentDisplayName (gm_DisplayName m);
     rm_Role := if str_eqb (gm_MXID m) (Binding.OwnerMXID b) then "owner"
                else if str_eqb (gm_MXID m) (Binding.AgentMXID b) then "agent" else "member" |}.

Definition roster_before (x y : RosterMember) : bool :=
  if negb (rank (rm_Role x) =? rank (rm_Role y)) then rank (rm_Role x) <? rank (rm_Role y)
  else if negb (str_eqb (rm_DisplayName x) (rm_DisplayName y))
  then str_ltb (rm_DisplayName x) (rm_DisplayName y)
  else str_ltb (rm_MXID x) (rm_MXID y).

Definition groupAgentRoster (room : GroupAgentRoom) (b : GroupAgentBinding) (limit : Z)
    : groupAgentRosterResponse :=
  let entries := stable_sort roster_before (map (roster_entry b)
    (List.filter (fun m => joined room (gm_MXID m) && has_prefix (gm_MXID m) "@")
       (Members room))) in
  {| RosterMembers := take (Z.to_nat limit) entries; Total := Z.of_nat (length entries);
     HasMore := limit <? Z.of_nat (length entries) |}.

Section Service_.
Context `{GoRange} `{MatrixIDs} `{GoText} `{AgentText} `{Mcp.CursorText} {X : Type} (ports : Ports X).
Local Notation St := (tables * X)%type.

Definition rest {E A} (m : M X E A) : M St E A :=
  fun st => let '(x, r) := m st.2 in ((st.1, x), r).

(** An error of a port as an error of the agent, and one of the agent as the
    error of an action. *)
Definition lifted {W A} (m : M W goerror A) : M W agent_error A := fun w =>
  match m w with
  | (w, Ok a) => (w, Ok a)
  | (w, Err e) => (w, Err (Failure_ e))
  end.

Definition owner_of {E} : M X E string := reads (fun x => Ok (OwnerMXID ports x)).
Definition generation_of {E} : M X E Z := reads (fun x => Ok (accountGeneration ports x)).
Definition now_of {E} : M X E Z := reads (fun x => Ok (now ports x)).

Definition groupYingMXID (owner : string) : string :=
  match SplitID owner with
  | Ok (_, server) => if str_empty server then "" else "@ying:" +:+ server
  | Err _ => ""
  end.

Definition defaultGroupAgentBinding (roomID owner : string) : GroupAgentBinding :=
  Binding.mk roomID false owner (groupYingMXID owner) "Ying" "" 0 "all_joined" "disabled" 0 0.

Definition isHumanGroupActor (mxid : string) : bool :=
  match SplitID mxid with
  | Ok (local, _) => negb (one_of local ["ying"; "agent"; "system"])
  | Err _ => false
  end.

(** The projected rows of a service without a transport. *)
Definition projected_room (found : bool) (members : list Member.MemberRecord) : GroupAgentRoom :=
  {| IsGroup := found; Dissolved := false;
     RoomOwnerMXID := foldl (fun owner m =>
       if str_eqb (Member.Role m) "owner" && str_eqb (Member.Membership m) "join"
       then Member.UserID m else owner) "" members;
     OwnerDisplayName := ""; Members := [];
     Joined := foldl (fun (j : gmap string bool) m =>
       <[Member.UserID m := str_eqb (Member.Membership m) "join"]> j) ∅ members;
     JoinedAt := ∅; RoomBinding := None |}.

Definition groupAgentRoom (roomID : string) : M X goerror GroupAgentRoom :=
  match readPort ports with
  | Some reader => ReadGroupAgentRoom reader roomID
  | None =>
      if hasTransport ports
      then fail (ErrOther "authoritative group Agent Matrix reader is unavailable")
      else
        let! group := reads (groupByRoom ports roomID) in
        let! members := reads (ListMembers ports roomID) in
        ret (projected_room (match group with Some _ => true | None => false end) members)
  end.

(** *** Reading the grant *)

Definition room_id_of (params : content) : result Api.Error string :=
  let roomID := trimString (get params "room_id") in
  match NewRoomID roomID with
  | Ok _ => Ok roomID
  | Err _ => Err (Api.BadRequest "valid room_id is required")
  end.

(** The room for a member of it. *)
Definition member_room (roomID : string) : M St Api.Error GroupAgentRoom :=
  let! room := rest (Workflow.internal (groupAgentRoom roomID)) in
  let! owner := rest owner_of in
  if negb (IsGroup room) || Dissolved room || negb (joined room owner)
  then fail (Api.StatusError 403 "joined group membership is required") else ret room.

Definition binding_now {E} (roomID : string) : M St E (option GroupAgentBinding) :=
  reads (fun st => Ok (GetGroupAgentBinding st.1 roomID)).

(** The schedules and the revision of the binding. *)
Definition groupAgentSchedules_ (params : content)
    : M St Api.Error (list GroupAgentSchedule * Z) :=
  let! roomID := reads (fun _ => room_id_of params) in
  let! _ := member_room roomID in
  let! b := binding_now roomID in
  match b with
  | Some b =>
      if Binding.Enabled b
      then reads (fun st => Ok (ListGroupAgentSchedules st.1 roomID groupAgentSchedulesMax,
                                Binding.Revision b))
      else ret ([], 0)
  | None => ret ([], 0)
  end.

Definition disabled_next (b : GroupAgentBinding) : GroupAgentBinding :=
  Binding.mk (Binding.RoomID b) false (Binding.OwnerMXID b) (Binding.AgentMXID b)
    (Binding.DisplayName b) (Binding.AvatarURL b) (wrap64 (Binding.Revision b + 1))
    (Binding.MemberPolicy b) "disabled" (Binding.AccountGeneration b) (Binding.EnabledAt b).

Definition invalidateGroupAgent (roomID : string) : M St agent_error unit :=
  MutateGroupAgentBinding roomID (fun b =>
    ret (if Binding.Enabled b then disabled_next b else b, tt)).

Definition as_internal {A} (m : M St agent_error A) : M St Api.Error A := fun st =>
  match m st with
  | (st, Ok a) => (st, Ok a)
  | (st, Err e) => (st, Err (Api.InternalError (agent_error_text e)))
  end.

(** The binding Matrix publishes, when it is one a client may see. *)
Definition published_binding (roomID : string) (room : GroupAgentRoom) : GroupAgentBinding :=
  let default_ := defaultGroupAgentBinding roomID (RoomOwnerMXID room) in
  match RoomBinding room with
  | Some b =>
      if str_eqb (Binding.RoomID b) roomID &&
         str_eqb (Binding.OwnerMXID b) (RoomOwnerMXID room) &&
         str_eqb (Binding.AgentMXID b) (groupYingMXID (RoomOwnerMXID room)) &&
         str_eqb (Binding.MemberPolicy b) "all_joined" && (0 <? Binding.Revision b) &&
         joined room (Binding.AgentMXID b)
      then b else default_
  | None => default_
  end.

Definition groupAgentGet (params : content) : M St Api.Error GroupAgentBinding :=
  let! roomID := reads (fun _ => room_id_of params) in
  let! room := member_room roomID in
  let! b := binding_now roomID in
  let! owner := rest owner_of in
  let! generation := rest generation_of in
  match b with
  | Some b =>
      if str_eqb (Binding.OwnerMXID b) owner then
        if Binding.Enabled b &&
           (negb (str_eqb (RoomOwnerMXID room) (Binding.OwnerMXID b)) ||
            negb (joined room (Binding.AgentMXID b)) && hasTransport ports ||
            negb (Binding.AccountGeneration b =? generation))
        then
          let! _ := as_internal (invalidateGroupAgent roomID) in
          ret (disabled_next b)
        else ret b
      else ret (published_binding roomID room)
  | None => ret (published_binding roomID room)
  end.

(** *** Changing the grant *)

Definition ensureGroupYingJoined (roomID owner : string) : M X goerror unit :=
  if negb (hasTransport ports) then ret tt
  else
  let agent := groupYingMXID owner in
  match EnsureNativeGroupAgentIdentity ports with
  | None => fail (ErrOther "Native Ying Matrix identity provisioner is unavailable")
  | Some ensure =>
      let! _ := ensure agent in
      let! room := groupAgentRoom roomID in
      let displayName := groupYingRoomDisplayName (OwnerDisplayName room) in
      let! _ :=
        if joined room agent then ret tt
        else
          let! _ := InviteUser ports roomID owner agent in
          let! _ := JoinRoom ports roomID agent displayName in
          let! room := groupAgentRoom roomID in
          if joined room agent then ret tt
          else fail (ErrOther "Native Ying Matrix join is not yet authoritative") in
      run (UpdateMemberProfile ports roomID agent displayName)
  end.

Definition binding_content (b : GroupAgentBinding) : content :=
  {["room_id" := AString (Binding.RoomID b);
    "enabled" := ABool (Binding.Enabled b);
    "owner_mxid" := AString (Binding.OwnerMXID b);
    "agent_mxid" := AString (Binding.AgentMXID b);
    "display_name" := AString (Binding.DisplayName b);
    "avatar_url" := AString (Binding.AvatarURL b);
    "revision" := decoded_number (Binding.Revision b);
    "member_policy" := AString (Binding.MemberPolicy b);
    "status" := AString (Binding.Status b)]}.

Definition state_event (type_ : string) (c : content) : RoomState.StateEvent :=
  {| RoomState.Type_ := type_; RoomState.StateKey := ""; RoomState.EvContent := c |}.

(** A state event in the owner's name. *)
Definition send_state (roomID type_ : string) (c : Z -> content) : M X goerror unit :=
  if negb (hasTransport ports) then ret tt
  else
  let! owner := owner_of in
  let! time := now_of in
  SendStateEvent ports roomID owner (state_event type_ (c time)).

Definition publishGroupAgentState (b : GroupAgentBinding) : M X goerror unit :=
  send_state (Binding.RoomID b) GroupAgentStateEventType (fun _ => binding_content b).

(** The parameters of an update: the room, the switch and the revision the
    client saw ([-1] when it gives none). *)
Definition update_params (params : content) : result Api.Error (string * bool * Z) :=
  let? roomID := room_id_of params in
  match get params "enabled" with
  | ABool enabled =>
      if existsb (fun kv => negb (one_of kv.1 ["room_id"; "enabled"; "expected_revision"]))
           (map_to_list params)
      then Err (Api.BadRequest "unknown group Agent field")
      else match params !! "expected_revision" with
           | None => Ok (roomID, enabled, -1)
           | Some raw =>
               match groupAgentInteger raw with
               | Some expected => Ok (roomID, enabled, expected)
               | None => Err (Api.BadRequest "expected_revision must be a non-negative integer")
               end
           end
  | _ => Err (Api.BadRequest "enabled must be a boolean")
  end.

(** The grant after the owner switched it. *)
Definition switched (enabled : bool) (owner : string) (generation time : Z)
    (b : GroupAgentBinding) : GroupAgentBinding :=
  Binding.mk (Binding.RoomID b) enabled owner (groupYingMXID owner) (Binding.DisplayName b)
    (Binding.AvatarURL b) (wrap64 (Binding.Revision b + 1)) (Binding.MemberPolicy b)
    (if enabled then "enabled" else "disabled") generation
    (if enabled then time else Binding.EnabledAt b).

Definition update_binding (roomID owner : string) (enabled : bool) (expected : Z)
    (b : GroupAgentBinding) : M X agent_error (GroupAgentBinding * GroupAgentBinding) :=
  if (0 <=? expected) && negb (Binding.Revision b =? expected) then fail ErrGroupAgentConflict
  else if negb (str_empty (Binding.OwnerMXID b)) && negb (str_eqb (Binding.OwnerMXID b) owner) &&
          Binding.Enabled b then fail ErrGroupAgentConflict
  else
  let b := if Binding.Revision b =? 0 then defaultGroupAgentBinding roomID owner else b in
  let! generation := generation_of in
  if negb (Bool.eqb (Binding.Enabled b) enabled) ||
     negb (str_eqb (Binding.OwnerMXID b) owner) ||
     negb (Binding.AccountGeneration b =? generation)
  then
    let! _ := if enabled then lifted (ensureGroupYingJoined roomID owner) else ret tt in
    let! generation := generation_of in
    let! time := now_of in
    let b := switched enabled owner generation time b in
    ret (b, b)
  else ret (b, b).

Definition state_sync_failed (message : string) : Api.Error :=
  Api.CodedError 502 "group_agent_state_sync_failed" message.

Definition with_failure {W A} (e : Api.Error) (m : M W goerror A) : M W Api.Error A := fun w =>
  match m w with
  | (w, Ok a) => (w, Ok a)
  | (w, Err _) => (w, Err e)
  end.

Definition groupAgentUpdate (params : content) : M St Api.Error GroupAgentBinding :=
  let! (roomID, enabled, expected) := reads (fun _ => update_params params) in
  let! room := rest (Workflow.internal (groupAgentRoom roomID)) in
  let! owner := rest owner_of in
  if negb (IsGroup room) || Dissolved room || negb (joined room owner) ||
     negb (str_eqb (RoomOwnerMXID room) owner)
  then fail (Api.StatusError 403 "current joined group owner is required")
  else
  let! generation := rest generation_of in
  if enabled && (generation <=? 0)
  then fail (Api.StatusError 503 "Native Ying account generation is unavailable")
  else
  let! b := (fun st =>
    match MutateGroupAgentBinding roomID (update_binding roomID owner enabled expected) st with
    | (st, Err ErrGroupAgentConflict) =>
        (st, Err (Api.StatusError 409 (agent_error_text ErrGroupAgentConflict)))
    | (st, Err e) => (st, Err (Api.InternalError (agent_error_text e)))
    | (st, Ok b) => (st, Ok b)
    end) in
  let! _ := rest (with_failure
    (state_sync_failed "group Agent setting was saved but Matrix state sync failed")
    (publishGroupAgentState b)) in
  let! _ :=
    if negb enabled && hasTransport ports && joined room (Binding.AgentMXID b)
    then rest (with_failure
           (state_sync_failed "group Agent disabled but Matrix leave is pending")
           (LeaveRoom ports roomID (Binding.AgentMXID b)))
    else ret tt in
  ret b.

(** The binding of a new group, also beside an error. *)
Definition createGroupAgentBinding (roomID : string) (enabled : bool) (st : St)
    : St * (GroupAgentBinding * option Api.Error) :=
  if negb enabled then (st, (defaultGroupAgentBinding roomID (OwnerMXID ports st.2), None))
  else
    let params : content := {["room_id" := AString roomID; "enabled" := ABool true]} in
    match groupAgentUpdate params st with
    | (st, Ok b) => (st, (b, None))
    | (st, Err e) =>
        (st, (default (defaultGroupAgentBinding roomID (OwnerMXID ports st.2))
                (GetGroupAgentBinding st.1 roomID), Some e))
    end.

(** *** What the agent publishes of itself *)

Definition publishGroupAgentAssets (roomID : string) (servers artifacts : list any)
    : M X goerror unit :=
  send_state roomID GroupAgentAssetsStateEventType (fun time =>
    {["version" := AInt 1; "servers" := AList (take groupAgentAssetsStateMax servers);
      "artifacts" := AList (take groupAgentAssetsStateMax artifacts);
      "updated_at" := AInt64 time]}).

Definition publishGroupAgentMemory (roomID summary : string) (coveredThroughTS messageCount : Z)
    : M X goerror unit :=
  let trimmed := trim_space summary in
  if negb (hasTransport ports) || str_empty trimmed ||
     (groupAgentMemoryStateMax <? byte_len trimmed) then ret tt
  else send_state roomID GroupAgentMemoryStateEventType (fun time =>
    {["version" := AInt 1; "summary" := AString trimmed;
      "covered_through_ts" := AInt64 coveredThroughTS; "message_count" := AInt messageCount;
      "updated_at" := AInt64 time]}).

Definition schedule_item (s : GroupAgentSchedule) : any :=
  let at_ key t := match t with Some t => [(key, AString (format_rfc3339 t))] | None => [] end in
  AMap ([("schedule_id", AString (Schedule.ScheduleID s)); ("name", AString (Schedule.Name s));
         ("capability", AString (Schedule.Capability s)); ("cron", AString (Schedule.Cron s));
         ("timezone", AString (Schedule.Timezone s));
         ("created_by", AString (Schedule.CreatedBy s))] ++
        at_ "run_at" (Schedule.RunAt s) ++ at_ "next_run_at" (Schedule.NextRunAt s)).

Definition publishGroupAgentSchedules (roomID : string) : M St goerror unit :=
  if negb (hasTransport ports) then ret tt
  else fun st =>
    let schedules := ListGroupAgentSchedules st.1 roomID groupAgentSchedulesStateMax in
    rest (send_state roomID GroupAgentSchedulesStateEventType (fun time =>
      {["version" := AInt 1; "schedules" := AList (map schedule_item schedules);
        "updated_at" := AInt64 time]})) st.

(** *** Reading the room *)

(** A message the agent may see. *)
Definition visible_message (fromTS : Z) (m : Mcp.MessageSummary) : option GroupAgentMessage :=
  let sender := if str_empty (Mcp.SenderMXID m) then Mcp.Sender m else Mcp.SenderMXID m in
  match NewUserID sender with
  | Err _ => None
  | Ok _ =>
      if (Mcp.OriginServerTS m <? fromTS) || str_empty (Mcp.EventID m) ||
         (16000 <? byte_len (Mcp.Msg m)) then None
      else Some {| ms_RoomID := ""; ms_EventID := Mcp.EventID m; ms_SenderMXID := sender;
                   ms_SenderDisplayName :=
                     Sanitize.SanitizeGroupAgentDisplayName (Mcp.SenderDisplayName m);
                   ms_Body := Mcp.Msg m; ms_OriginServerTS := Mcp.OriginServerTS m;
                   ms_Mentions := []; ms_Generated := false |}
  end.

(** The oldest message of a page. *)
Definition oldest (messages : list GroupAgentMessage) : Z * string :=
  foldl (fun '(lastTS, lastID) m =>
    if (0 <? ms_OriginServerTS m) && (ms_OriginServerTS m <? lastTS) || (lastTS =? 0)
    then (ms_OriginServerTS m, ms_EventID m) else (lastTS, lastID)) (0, "") messages.

Definition page_for (roomID : string) (fromTS snapshot limit : Z) (cursor : string)
    : result goerror Mcp.Page :=
  let first := {| Mcp.FromTS := fromTS; Mcp.SnapshotTS := snapshot; Mcp.CursorTS := 0;
                  Mcp.CursorID := ""; Mcp.Limit := limit |} in
  if str_empty (trim_space cursor) then Ok first
  else match Mcp.DecodeCursor cursor with
       | Err _ => Err (ErrOther "invalid transcript cursor")
       | Ok decoded =>
           if negb (str_eqb (Mcp.Action decoded) groupAgentHistoryCursorAction) ||
              negb (str_eqb (Mcp.TargetID decoded) roomID) ||
              (Mcp.SnapshotTimeMS decoded <=? 0) || (Mcp.LastTimeMS decoded <=? 0) ||
              str_empty (trim_space (Mcp.LastID decoded))
           then Err (ErrOther "transcript cursor does not match this room")
           else Ok {| Mcp.FromTS := fromTS; Mcp.SnapshotTS := Mcp.SnapshotTimeMS decoded;
                      Mcp.CursorTS := Mcp.LastTimeMS decoded; Mcp.CursorID := Mcp.LastID decoded;
                      Mcp.Limit := limit |}
       end.

Definition readGroupAgentRoomMessages (roomID : string) (fromTS limit : Z) (cursor : string)
    : M X goerror MessagesPage :=
  match matrixMessages ports with
  | None => fail (ErrOther "Matrix history reader unavailable")
  | Some list_messages =>
      let! snapshot := now_of in
      let! page := reads (fun _ => page_for roomID fromTS snapshot limit cursor) in
      let! pageResult := list_messages roomID page in
      let messages := omap (visible_message fromTS) (Mcp.Messages pageResult) in
      let '(lastTS, lastID) := oldest messages in
      match Mcp.AttachPagination groupAgentHistoryCursorAction roomID page
              (Mcp.HasMore pageResult) lastTS lastID with
      | Err _ => fail (ErrOther "transcript pagination unavailable")
      | Ok (hasMore, next) =>
          ret {| mp_Messages := messages; mp_HasMore := hasMore; mp_NextCursor := next |}
      end
  end.

(** *** Is a request still covered by the grant? *)

Definition room_of {E} (f : goerror -> E) (roomID : string) : M X E GroupAgentRoom := fun x =>
  match groupAgentRoom roomID x with
  | (x, Ok room) => (x, Ok room)
  | (x, Err e) => (x, Err (f e))
  end.

(** The facts of the room a request needs. *)
Definition room_admits (room : GroupAgentRoom) (b : GroupAgentBinding) (sender : string) : bool :=
  IsGroup room && negb (Dissolved room) &&
  str_eqb (RoomOwnerMXID room) (Binding.OwnerMXID b) && joined room (Binding.OwnerMXID b) &&
  joined room (Binding.AgentMXID b) && joined room sender && isHumanGroupActor sender &&
  groupAgentMatrixBindingMatches room b.

(** The facts of the rows. *)
Definition rows_admit (owner : string) (generation revision : Z) (b : GroupAgentBinding)
    (r : GroupAgentRequest) : bool :=
  Binding.Enabled b && (Binding.Revision b =? revision) &&
  (Request.BindingRevision r =? revision) && str_eqb (Binding.OwnerMXID b) owner &&
  str_eqb (Request.OwnerMXID r) (Binding.OwnerMXID b) &&
  (Binding.AccountGeneration b =? generation) && (Request.AccountGeneration r =? generation) &&
  str_eqb (Request.AgentMXID r) (Binding.AgentMXID b) && str_eqb (Request.Status r) "pending".

(** The message behind a request, when the request may run. *)
Definition validateGroupAgentRequest (b : GroupAgentBinding) (r : GroupAgentRequest)
    (revision : Z) : M X agent_error (option GroupAgentMessage) :=
  let! owner := owner_of in
  let! generation := generation_of in
  if negb (rows_admit owner generation revision b r) then ret None
  else
  let! room := room_of Failure_ (Request.RoomID r) in
  if negb (room_admits room b (Request.SenderMXID r)) then ret None
  else if negb (str_empty (Request.ScheduledBy r)) then
    ret (if str_empty (trim_space (Request.Body r)) ||
            (groupAgentScheduledBodyMax <? byte_len (Request.Body r)) then None
         else Some {| ms_RoomID := Request.RoomID r; ms_EventID := Request.EventID r;
                      ms_SenderMXID := Request.SenderMXID r; ms_SenderDisplayName := "";
                      ms_Body := Request.Body r; ms_OriginServerTS := Request.OriginServerTS r;
                      ms_Mentions := [Binding.AgentMXID b]; ms_Generated := false |})
  else match readPort ports with
  | None => failure "group Agent source reader unavailable"
  | Some reader =>
      let! message := lifted (ReadGroupAgentMessage reader (Request.RoomID r) (Request.EventID r)) in
      ret (if str_empty (ms_Body message) ||
              negb (str_eqb (ms_EventID message) (Request.EventID r)) ||
              negb (str_eqb (ms_RoomID message) (Request.RoomID r)) ||
              negb (str_eqb (ms_SenderMXID message) (Request.SenderMXID r)) ||
              ms_Generated message then None else Some message)
  end.

(** *** Messages become requests *)

Record AgentEvent := {
  ae_Type : string;
  ae_RoomID : string;
  ae_EventID : string;
  ae_StateKey : option string;
  ae_StateKeyResolved : option string;
  ae_Membership : option string;
}.

(** The room no longer carries the grant. *)
Definition grant_lost (room : GroupAgentRoom) (b : GroupAgentBinding) (generation : Z) : bool :=
  negb (IsGroup room) || Dissolved room ||
  negb (str_eqb (RoomOwnerMXID room) (Binding.OwnerMXID b)) ||
  negb (joined room (Binding.OwnerMXID b)) ||
  hasTransport ports && negb (joined room (Binding.AgentMXID b)) ||
  negb (Binding.AccountGeneration b =? generation) ||
  hasTransport ports && negb (groupAgentMatrixBindingMatches room b).

(** The member who left, for a membership event that is neither a join nor an
    invitation. *)
Definition departed (event : AgentEvent) : option string :=
  match ae_StateKey event, ae_Membership event with
  | Some key, Some membership =>
      if str_eqb (ae_Type event) "m.room.member" && negb (str_eqb membership "join") &&
         negb (str_eqb membership "invite")
      then Some (default key (ae_StateKeyResolved event)) else None
  | _, _ => None
  end.

Definition request_for (b : GroupAgentBinding) (message : GroupAgentMessage) : GroupAgentRequest :=
  Request.mk
    (uuid_of_name ("dirextalk:group-agent:" +:+ Binding.RoomID b +:+ ":" +:+ ms_EventID message))
    (Binding.RoomID b) (ms_EventID message) (ms_SenderMXID message) (Binding.OwnerMXID b)
    (Binding.AgentMXID b) (Binding.Revision b) (Binding.AccountGeneration b)
    (ms_OriginServerTS message) "" "" "" "" "" "".

Definition enqueue (r : GroupAgentRequest) : M St agent_error bool := fun st =>
  let '(s, res) := EnqueueGroupAgentRequest st.1 r in ((s, st.2), res).

(** A member of the room addresses the agent. *)
Definition addressed (room : GroupAgentRoom) (b : GroupAgentBinding) (m : GroupAgentMessage)
    : bool :=
  negb (str_empty (ms_Body m)) && negb (ms_Generated m) && isHumanGroupActor (ms_SenderMXID m) &&
  joined room (ms_SenderMXID m) && (Binding.EnabledAt b <=? ms_OriginServerTS m) &&
  (byte_len (ms_Body m) <=? 16000) && bool_decide (Binding.AgentMXID b ∈ ms_Mentions m).

Definition projectGroupAgentEvent (event : AgentEvent) : M St agent_error unit :=
  let! b := binding_now (ae_RoomID event) in
  match b with
  | None => ret tt
  | Some b =>
      if negb (Binding.Enabled b) then ret tt
      else
      let! room := rest (room_of Failure_ (Binding.RoomID b)) in
      let! generation := rest generation_of in
      if grant_lost room b generation then invalidateGroupAgent (Binding.RoomID b)
      else match departed event with
      | Some user =>
          match NewUserID user with
          | Err _ => invalidateGroupAgent (Binding.RoomID b)
          | Ok _ => run (fun st => (CancelGroupAgentRequests st.1 (Binding.RoomID b) user "", st.2))
          end
      | None =>
          if negb (str_eqb (ae_Type event) "m.room.message") ||
             bool_decide (is_Some (ae_StateKey event)) then ret tt
          else match readPort ports with
          | None => ret tt
          | Some reader =>
              let! message := rest (lifted
                (ReadGroupAgentMessage reader (Binding.RoomID b) (ae_EventID event))) in
              if addressed room b message
              then let! _ := enqueue (request_for b message) in ret tt
              else ret tt
          end
      end
  end.

(** *** Private operations *)

Definition blank (l : list string) : bool := forallb str_empty l.

(** The grant of a room for the owner of this account. *)
Definition granted (roomID : string) : M St agent_error GroupAgentBinding :=
  let! b := binding_now roomID in
  let! owner := rest owner_of in
  let! generation := rest generation_of in
  match b with
  | Some b =>
      if Binding.Enabled b && str_eqb (Binding.OwnerMXID b) owner &&
         (Binding.AccountGeneration b =? generation)
      then ret b else fail ErrGroupAgentConflict
  | None => fail ErrGroupAgentConflict
  end.

Definition default_limit (limit d : Z) : Z := if limit =? 0 then d else limit.

(** The pending requests that may still run, with what was asked. *)
Fixpoint deliverable (requests : list GroupAgentRequest)
    : M St agent_error (list GroupAgentRequest) :=
  match requests with
  | [] => ret []
  | r :: requests =>
      let! b := binding_now (Request.RoomID r) in
      let! message := match b with
                      | None => ret None
                      | Some b => rest (validateGroupAgentRequest b r (Request.BindingRevision r))
                      end in
      let! others := deliverable requests in
      ret (match message with
           | Some m => Request.set_SenderDisplayName (ms_SenderDisplayName m)
                         (Request.set_Body (ms_Body m) r) :: others
           | None => others
           end)
  end.

Definition pull (p : groupAgentCapabilityParams) : M St agent_error reply :=
  let limit := default_limit (p_Limit p) 10 in
  if negb (blank [p_RequestID p; p_RoomID p; p_Body p; p_Status p; p_Kind p; p_Cursor p]) ||
     negb (p_BindingRevision p =? 0) || negb (p_AfterTS p =? 0)
  then fail ErrGroupAgentConflict
  else if (limit <? 1) || (10 <? limit) then failure "limit must be 1 to 10"
  else if negb (str_empty (p_AfterRequestID p)) && negb (canonical_uuid (p_AfterRequestID p))
  then failure "after_request_id must be a canonical UUID"
  else
  let! owner := rest owner_of in
  let! generation := rest generation_of in
  let! requests := reads (fun st =>
    Ok (ListGroupAgentRequests st.1 owner generation (limit + 1) (p_AfterRequestID p))) in
  let hasMore := limit <? Z.of_nat (length requests) in
  let requests := take (Z.to_nat limit) requests in
  let next := match last requests with Some r => Request.RequestID r | None => "" end in
  let! out := deliverable requests in
  ret (RRequests out hasMore next).

Definition record_assets (p : groupAgentCapabilityParams) : M St agent_error reply :=
  if str_empty (p_RoomID p) ||
     negb (blank [p_RequestID p; p_Body p; p_ActorMXID p; p_Status p; p_Kind p; p_Cursor p;
                  p_AfterRequestID p; p_ScheduleID p; p_Summary p]) ||
     negb (p_AfterTS p =? 0) || negb (p_Limit p =? 0) || negb (p_CoveredThroughTS p =? 0) ||
     negb (p_MessageCount p =? 0)
  then failure "invalid group Agent assets mirror"
  else
  let! _ := granted (p_RoomID p) in
  let! _ := rest (lifted (publishGroupAgentAssets (p_RoomID p) (p_Servers p) (p_Artifacts p))) in
  ret RRecorded.

Definition record_memory (p : groupAgentCapabilityParams) : M St agent_error reply :=
  if str_empty (p_RoomID p) || str_empty (trim_space (p_Summary p)) ||
     (groupAgentMemoryStateMax <? byte_len (p_Summary p)) || (p_CoveredThroughTS p <? 0) ||
     (p_MessageCount p <? 0) ||
     negb (blank [p_RequestID p; p_Body p; p_ActorMXID p; p_Status p; p_Kind p; p_Cursor p;
                  p_AfterRequestID p; p_ScheduleID p]) ||
     negb (p_AfterTS p =? 0) || negb (p_Limit p =? 0)
  then failure "invalid group Agent memory mirror"
  else
  let! _ := granted (p_RoomID p) in
  let! _ := rest (lifted (publishGroupAgentMemory (p_RoomID p) (p_Summary p)
                            (p_CoveredThroughTS p) (p_MessageCount p))) in
  ret RRecorded.

Definition parse_at (raw : string) : result agent_error (option Z) :=
  if str_empty (trim_space raw) then Ok None
  else match parse_rfc3339nano raw with
       | Some t => Ok (Some t)
       | None => Err (Failure_ (ErrOther "invalid group Agent schedule mirror"))
       end.

Definition mirror_schedule (remove : bool) (p : groupAgentCapabilityParams)
    : M St agent_error reply :=
  let invalid {A} : M St agent_error A := failure "invalid group Agent schedule mirror" in
  if str_empty (p_RoomID p) || str_empty (p_ScheduleID p) ||
     negb (blank [p_Body p; p_ActorMXID p; p_Status p; p_Kind p; p_Cursor p; p_AfterRequestID p;
                  p_RequestID p]) || negb (p_AfterTS p =? 0) || negb (p_Limit p =? 0)
  then invalid
  else if negb (canonical_uuid (p_ScheduleID p))
  then failure "schedule_id must be a canonical UUID"
  else
  let! b := granted (p_RoomID p) in
  let publish := lifted (publishGroupAgentSchedules (p_RoomID p)) in
  if remove then
    let! _ := run (fun st =>
      (RemoveGroupAgentSchedule st.1 (p_RoomID p) (p_ScheduleID p), st.2)) in
    let! _ := publish in
    ret RRemoved
  else
  let displayName := trim_space (p_Name p) in
  if str_empty displayName || (512 <? byte_len displayName) ||
     negb (str_empty (p_CreatedBy p)) && negb (isHumanGroupActor (p_CreatedBy p))
  then invalid
  else
  let! runAt := reads (fun _ => parse_at (p_RunAt p)) in
  let! nextRunAt := reads (fun _ => parse_at (p_NextRunAt p)) in
  let! time := rest now_of in
  let schedule := Schedule.mk (p_RoomID p) (p_ScheduleID p) displayName (p_Capability p)
                    (p_Cron p) runAt (p_Timezone p) nextRunAt (p_CreatedBy p)
                    (Binding.Revision b) time in
  let! _ := run (fun st => (UpsertGroupAgentSchedule st.1 schedule, st.2)) in
  let! _ := publish in
  ret RRecorded.

Definition enqueue_scheduled (p : groupAgentCapabilityParams) : M St agent_error reply :=
  if str_empty (p_RequestID p) || str_empty (p_RoomID p) || str_empty (p_Body p) ||
     str_empty (p_ActorMXID p) || (groupAgentScheduledBodyMax <? byte_len (p_Body p)) ||
     negb (p_BindingRevision p =? 0) ||
     negb (blank [p_Status p; p_Kind p; p_Cursor p; p_AfterRequestID p]) ||
     negb (p_AfterTS p =? 0) || negb (p_Limit p =? 0)
  then failure "invalid scheduled group Agent request"
  else if negb (canonical_uuid (p_RequestID p))
  then failure "request_id must be a canonical UUID"
  else
  let! b := granted (p_RoomID p) in
  let! room := rest (room_of Failure_ (p_RoomID p)) in
  if negb (room_admits room b (p_ActorMXID p)) then fail ErrGroupAgentConflict
  else
  let! time := rest now_of in
  let! inserted := enqueue (Request.mk (p_RequestID p) (p_RoomID p)
    ("$scheduled-" +:+ p_RequestID p) (p_ActorMXID p) (Binding.OwnerMXID b)
    (Binding.AgentMXID b) (Binding.Revision b) (Binding.AccountGeneration b) time (p_Body p)
    (p_ActorMXID p) "" "" "" "") in
  ret (REnqueued (negb inserted)).

Definition list_bindings (p : groupAgentCapabilityParams) : M St agent_error reply :=
  if negb (blank [p_RequestID p; p_RoomID p; p_Body p; p_Status p; p_Kind p; p_Cursor p;
                  p_AfterRequestID p]) ||
     negb (p_BindingRevision p =? 0) || negb (p_AfterTS p =? 0)
  then failure "bindings accepts no parameters"
  else
  let! owner := rest owner_of in
  let! generation := rest generation_of in
  reads (fun st => Ok (RBindings owner
    (ListEnabledGroupAgentBindings st.1 owner generation groupAgentBindingPageSize))).

Definition readGroupAgentTranscript (p : groupAgentCapabilityParams) : M St agent_error reply :=
  let roomID := trim_space (p_RoomID p) in
  let limit := default_limit (p_Limit p) 100 in
  if str_empty roomID || negb (has_prefix roomID "!") || (p_BindingRevision p <=? 0) ||
     negb (blank [p_RequestID p; p_Body p; p_Status p; p_Kind p; p_AfterRequestID p])
  then failure "invalid transcript parameters"
  else if (limit <? 1) || (groupAgentHistoryMaxLimit <? limit)
  then failure "invalid transcript limit"
  else
  let! b := granted roomID in
  if negb (Binding.Revision b =? p_BindingRevision p) then fail ErrGroupAgentConflict
  else
  let! room := rest (room_of Failure_ roomID) in
  if negb (IsGroup room) || Dissolved room || negb (joined room (Binding.OwnerMXID b)) ||
     negb (joined room (Binding.AgentMXID b)) then fail ErrGroupAgentConflict
  else
  let! page := rest (lifted (readGroupAgentRoomMessages roomID
    (Z.max (Binding.EnabledAt b) (p_AfterTS p)) limit (p_Cursor p))) in
  ret (RMessages page).

(** *** Operations on one request *)

(** The request after an operation, and its result. *)
Definition outcome : Type := GroupAgentRequest * reply.

(** The request must still be valid once more after a read. *)
Definition still_valid (b : GroupAgentBinding) (r : GroupAgentRequest) (revision : Z)
    : M X agent_error unit :=
  let! message := validateGroupAgentRequest b r revision in
  match message with
  | Some _ => ret tt
  | None => fail ErrGroupAgentConflict
  end.

Definition op_validate (p : groupAgentCapabilityParams) (r : GroupAgentRequest)
    : M X agent_error outcome :=
  if negb (blank [p_Body p; p_Status p; p_Kind p]) || negb (p_Limit p =? 0)
  then failure "validate accepts only request identity" else ret (r, RAllowed).

Definition op_members (p : groupAgentCapabilityParams) (b : GroupAgentBinding)
    (r : GroupAgentRequest) : M X agent_error outcome :=
  let limit := default_limit (p_Limit p) groupAgentMembersDefaultLimit in
  if (limit <? 1) || (groupAgentMembersMaxLimit <? limit) ||
     negb (blank [p_Body p; p_Status p; p_Kind p; p_RoomID p; p_Cursor p]) ||
     negb (p_AfterTS p =? 0)
  then failure "invalid member list parameters"
  else
  let! room := room_of Failure_ (Request.RoomID r) in
  let roster := groupAgentRoster room b limit in
  let! _ := still_valid b r (p_BindingRevision p) in
  ret (r, RMembers roster).

Definition op_history (p : groupAgentCapabilityParams) (b : GroupAgentBinding)
    (r : GroupAgentRequest) : M X agent_error outcome :=
  let limit := default_limit (p_Limit p) 20 in
  if (limit <? 1) || (groupAgentHistoryMaxLimit <? limit) ||
     negb (blank [p_Body p; p_Status p; p_Kind p; p_RoomID p]) || negb (p_AfterTS p =? 0)
  then failure "invalid history parameters"
  else match matrixMessages ports with
  | None => failure "Matrix history reader unavailable"
  | Some _ =>
      let! room := room_of Failure_ (Request.RoomID r) in
      let joinedAt := default 0 (JoinedAt room !! Request.SenderMXID r) in
      let fromTS :=
        if negb (str_eqb (Request.SenderMXID r) (Binding.OwnerMXID b)) &&
           (Binding.EnabledAt b <? joinedAt) then joinedAt else Binding.EnabledAt b in
      let! page := lifted (readGroupAgentRoomMessages (Request.RoomID r) fromTS limit
                             (p_Cursor p)) in
      let! _ := still_valid b r (p_BindingRevision p) in
      ret (r, RMessages page)
  end.

Definition op_complete (p : groupAgentCapabilityParams) (r : GroupAgentRequest)
    : M X agent_error outcome :=
  if negb (str_eqb (p_Status p) "failed") && negb (str_eqb (p_Status p) "cancelled")
  then failure "complete status must be failed or cancelled"
  else if negb (blank [p_Body p; p_Kind p]) || negb (p_Limit p =? 0)
  then failure "invalid complete parameters"
  else ret (Request.set_Status (p_Status p) r, RCompleted (p_Status p)).

(** The kind and status of a publication. *)
Definition publication (p : groupAgentCapabilityParams) : result agent_error (string * string) :=
  let bad message := Err (Failure_ (ErrOther message)) in
  let kind := if str_empty (p_Kind p) then "final" else p_Kind p in
  if str_empty (trim_space (p_Body p)) || (16000 <? byte_len (p_Body p)) || negb (p_Limit p =? 0)
  then bad "reply body must contain 1 to 16000 bytes"
  else if negb (str_eqb kind "final") && negb (str_eqb kind "progress")
  then bad "invalid reply kind"
  else if str_eqb kind "progress" then
    if negb (str_eqb (p_Status p) "working") && negb (str_eqb (p_Status p) "waiting_owner")
    then bad "progress requires working or waiting_owner status" else Ok (kind, p_Status p)
  else
    let status := if str_empty (p_Status p) then "completed" else p_Status p in
    if negb (str_eqb status "completed") && negb (str_eqb status "failed")
    then bad "final requires completed or failed status" else Ok (kind, status).

(** The bytes of a digest as a string. *)
Definition digest_bytes (l : list Z) : string :=
  string_of_list_ascii (map (fun z => ascii_of_nat (Z.to_nat z)) l).

Definition publication_operation (kind status body : string) (r : GroupAgentRequest)
    : CapabilityOperationContext :=
  {| co_OperationID := if str_eqb kind "progress"
                       then uuid_of_name (Request.RequestID r +:+ ":" +:+ status)
                       else Request.RequestID r;
     co_OwnerID := Request.OwnerMXID r; co_Generation := Request.AccountGeneration r;
     co_RootDigest := digest_bytes (sha256 (Request.RequestID r +:+ ":" +:+
       pretty (Request.BindingRevision r) +:+ ":" +:+ kind +:+ ":" +:+ status +:+ ":" +:+ body)) |}.

Definition publication_request (kind status body : string) (r : GroupAgentRequest)
    : SendMessageRequest :=
  {| sm_SenderMXID := Request.AgentMXID r; sm_RoomID := Request.RoomID r;
     sm_EventType := "m.room.message"; sm_MessageType := "m.text";
     sm_Content :=
       {["msgtype" := AString "m.text"; "body" := AString body;
         "msg_type" := AString (if str_eqb kind "progress" then "group_agent_status"
                                else "group_agent_reply");
         "io.dirextalk.group_agent" := AMap
           [("request_id", AString (Request.RequestID r));
            ("binding_revision", AInt64 (Request.BindingRevision r));
            ("owner_mxid", AString (Request.OwnerMXID r));
            ("agent_mxid", AString (Request.AgentMXID r));
            ("kind", AString kind); ("status", AString status)];
         "m.relates_to" := AMap
           [("m.in_reply_to", AMap [("event_id", AString (Request.EventID r))])]]};
     sm_Timestamp := 0; sm_LogicalID := Request.RequestID r; sm_PostID := "" |}.

Definition prepared_failure {A} (m : M X merror A) : M X agent_error A := fun x =>
  match m x with
  | (x, Ok a) => (x, Ok a)
  | (x, Err e) => (x, Err (Failure_ (merror_error e)))
  end.

(** Whether the event was prepared by an earlier attempt. *)
Definition prepared_before (store : PreparedStore X) (operation : CapabilityOperationContext)
    : M X agent_error bool := fun x =>
  match GetMatrixPreparedEvent store operation x with
  | (x, Ok (Some _)) => (x, Ok true)
  | (x, _) => (x, Ok false)
  end.

Definition op_publish (p : groupAgentCapabilityParams) (r : GroupAgentRequest)
    : M X agent_error outcome :=
  let! (kind, status) := reads (fun _ => publication p) in
  match preparedPort ports, preparedMatrixStore ports with
  | Some port, Some store =>
      let operation := publication_operation kind status (p_Body p) r in
      let! _ := AdmitGroupAgentPublication ports (co_OperationID operation) r
                  (co_RootDigest operation) in
      let! before := prepared_before store operation in
      let! receipt := prepared_failure
        (ExecutePreparedMatrixMutation (Some port) (Some store) operation
           "product.group_agent.v1" "publish" (publication_request kind status (p_Body p) r)) in
      let r := if str_eqb kind "final"
               then Request.set_Reply (sr_EventID receipt) (hex (sha256 (p_Body p)))
                      (Request.set_Status "published" r) else r in
      ret (r, RPublished (sr_EventID receipt) before)
  | _, _ => failure "durable group Agent Matrix publisher unavailable"
  end.

(** The answer for a request that was already answered. *)
Definition replay (p : groupAgentCapabilityParams) (r : GroupAgentRequest)
    : M X agent_error outcome :=
  if str_eqb (p_Kind p) "progress" then ret (r, RCancelled true)
  else if negb (str_eqb (Request.ReplyDigest r) (hex (sha256 (p_Body p))))
  then fail ErrGroupAgentConflict
  else ret (r, RPublished (Request.ReplyEventID r) true).

(** The request can no longer run. *)
Definition refused (operation : string) (r : GroupAgentRequest) : M X agent_error outcome :=
  if str_eqb operation "history" then fail ErrGroupAgentConflict
  else
    let r := if str_eqb (Request.Status r) "pending" then Request.set_Status "cancelled" r else r in
    ret (r, if str_eqb operation "validate" then RRevoked else RCancelled false).

Definition invoke (operation : string) (p : groupAgentCapabilityParams)
    (b : GroupAgentBinding) (r : GroupAgentRequest) : M X agent_error outcome :=
  let! owner := owner_of in
  let! generation := generation_of in
  if negb (p_BindingRevision p =? Request.BindingRevision r) ||
     negb (Request.AccountGeneration r =? generation) ||
     negb (str_eqb (Request.OwnerMXID r) owner)
  then fail ErrGroupAgentConflict
  else if str_eqb operation "publish" && str_eqb (Request.Status r) "published" then replay p r
  else
  let! message := validateGroupAgentRequest b r (p_BindingRevision p) in
  match message with
  | None => refused operation r
  | Some _ =>
      if str_eqb operation "validate" then op_validate p r
      else if str_eqb operation "members" then op_members p b r
      else if str_eqb operation "history" then op_history p b r
      else if str_eqb operation "complete" then op_complete p r
      else if str_eqb operation "publish" then op_publish p r
      else failure "unknown private group Agent operation"
  end.

(** A read leaves the request as it is. *)
Definition read_request (operation : string) (p : groupAgentCapabilityParams)
    : M St agent_error reply :=
  let! r := reads (fun st => Ok (GetGroupAgentRequest st.1 (p_RequestID p))) in
  match r with
  | None => ret RRevoked
  | Some r =>
      let! b := binding_now (Request.RoomID r) in
      match b with
      | None => ret RRevoked
      | Some b => let! (_, result_) := rest (invoke operation p b r) in ret result_
      end
  end.

Definition request_operation (operation : string) (p : groupAgentCapabilityParams)
    : M St agent_error reply :=
  if negb (canonical_uuid (p_RequestID p)) || (p_BindingRevision p <=? 0) ||
     negb (str_empty (p_AfterRequestID p))
  then failure "request_id and binding_revision are required"
  else if one_of operation ["validate"; "history"; "members"] then read_request operation p
  else MutateGroupAgentRequest (p_RequestID p) (invoke operation p).

Definition capability (operation : string) (p : groupAgentCapabilityParams)
    : M St agent_error reply :=
  if str_eqb operation "pull" then pull p
  else if str_eqb operation "record_assets" then record_assets p
  else if str_eqb operation "record_memory" then record_memory p
  else if str_eqb operation "record_schedule" then mirror_schedule false p
  else if str_eqb operation "remove_schedule" then mirror_schedule true p
  else if str_eqb operation "enqueue" then enqueue_scheduled p
  else if str_eqb operation "bindings" then list_bindings p
  else if str_eqb operation "transcript" then readGroupAgentTranscript p
  else request_operation operation p.

(** [decode] is [encoding/json] with unknown fields refused. *)
Definition InvokeGroupAgentCapability (decode : string -> result goerror groupAgentCapabilityParams)
    (operation raw : string) : M St agent_error reply := fun st =>
  if accountIsDeprovisioned ports st.2 then (st, Err ErrGroupAgentConflict)
  else match decode raw with
       | Err e => failure ("invalid group Agent request: " +:+ error_text e) st
       | Ok p => capability operation p st
       end.
End Service_.
End AgentService.
