(* ===== verification/RetainedJoin.v ===== *)
(** * Joining retained rooms

    [p2p/service_room_reactivation.go], [p2p/service_channel_join.go], the
    invitations of [p2p/service_member_invites.go] and the join request that
    [p2p/remote_public.go] forwards: how a member row follows what Matrix says
    of a membership, under a durable claim and fenced by the generation of
    the request ([RequestID]).

    The state is the world with the tracker of the operation the request
    runs in, if it runs in one ([Recovery]).  Deployments have a store. *)

From Stdlib Require Import Ascii String ZArith Lia.
From stdpp Require Import base tactics list gmap strings.
From S2P Require Import Prelude GoStrings Values GoSha256 Domain Policy Action RoomState.
From S2P Require Import Operations OperationIdentity MemoryTables Workflow RemotePublic.
From S2P Require Import Conversation Contacts Rooms Members RoomWiring ProjectorWiring Recovery.
Local Open Scope Z_scope.
Local Open Scope go_scope.

Module RetainedJoin.
Import Identity Recovery.

(** The zero [memberRecord]. *)
Definition no_member : Member.MemberRecord :=
  {| Member.RoomID := ""; Member.ChannelID := ""; Member.UserID := ""; Member.DisplayName := "";
     Member.AvatarURL := ""; Member.Domain := ""; Member.Membership := ""; Member.Role := "";
     Member.Muted := false; Member.JoinedAt := 0; Member.RequesterNodeBaseURL := "";
     Member.RequestID := "" |}.

(** ** Errors of the Matrix transport *)

(** [interrupted]: the error is a cancelled or expired context or a network
    timeout ([errors.Is], [net.Error]). *)
Record TransportError := {
  cause : goerror;
  interrupted : bool;
}.

Definition dquote : string := String "034"%char EmptyString.

Definition message_of (err : goerror) : string := to_lower (trim_space (error_text err)).

Definition isAlreadyLeftRoomError (err : goerror) : bool :=
  contains (message_of err) "not joined to the room" &&
  contains (message_of err) ("membership is " +:+ dquote +:+ "leave" +:+ dquote).

Definition isDirectRoomJoinRequiresInvite (err : goerror) : bool :=
  match err with
  | PolicyError code message =>
      (code =? 403) && str_eqb message "direct room join requires invite"
  | _ => false
  end.

Definition isRoomJoinRequiresInvite (err : goerror) : bool :=
  isDirectRoomJoinRequiresInvite err ||
  contains (message_of err) ("join rule " +:+ dquote +:+ "invite" +:+ dquote +:+ " forbids it").

Definition isFederatedJoinInProgress (err : goerror) : bool :=
  contains (message_of err) "already a federated join to this room in progress" ||
  contains (message_of err) "federated join in progress".

Definition isRetainedRoomJoinRetryable (err : goerror) : bool :=
  isRoomJoinRequiresInvite err || isFederatedJoinInProgress err.

Definition ambiguousChannelJoinTransportError (err : TransportError) : bool :=
  let message := message_of (cause err) in
  interrupted err || contains message "timeout" || contains message "timed out" ||
  contains message "deadline exceeded" || contains message "unexpected eof" ||
  str_eqb message "eof".

(** ** Requests to Matrix *)

Record JoinRoomRequest := {
  jr_RoomIDOrAlias : string;
  jr_UserMXID : string;
  jr_DisplayName : string;
  jr_AvatarURL : string;
  jr_ServerNames : list string;
}.

Record InviteUserRequest := {
  iv_RoomID : string;
  iv_InviterMXID : string;
  iv_InviteeMXID : string;
  iv_Reason : string;
  iv_IsDirect : bool;
  iv_PublicJoinRequestID : string;
  iv_InviteRoomState : list RoomState.StateEvent;
}.

(** The answer of [rooms.reactivate] and of [channels.public.join_request]. *)
Record Reactivation := {
  ra_Status : string;
  ra_NeedsRebuild : option bool;
  ra_RebuildGeneration : string;
}.
Record JoinAnswer := {
  ja_Status : string;
  ja_Member : Member.MemberRecord;
  ja_Channel : Chan.Channel;
  ja_Error : string;
  ja_ErrorCode : string;
}.

(** The service around a join.  [JoinRoom] returns a room beside its error.
    [retry_wait] waits before the next attempt; it gives the error of the
    context when that ends first. *)
Record JoinPorts (W : Type) := {
  node : Remote.ChannelPorts W;
  homeserver : string;
  JoinRoom : JoinRoomRequest -> W -> W * (string * option TransportError);
  InviteUser : InviteUserRequest -> M W TransportError unit;
  KickUser : string -> string -> string -> string -> Z -> M W goerror unit;
  ListRoomMembers : string -> M W goerror (list Member.MemberRecord);
  GetRoomChannel : string -> M W goerror (option Chan.Channel);
  saveMember : Member.MemberRecord -> M W goerror unit;
  saveMemberIfState : Member.MemberRecord -> string -> string -> M W goerror bool;
  groupByRoom : string -> W -> result goerror (option Group.GroupRecord);
  ensureJoinedGroupRecord : Member.MemberRecord -> content -> M W goerror unit;
  backfillJoinedPostChannelContent : string -> string -> M W goerror unit;
  retry_wait : W -> W * option TransportError;
  decode_reactivation : string -> result goerror Reactivation;
  decode_map : string -> result goerror (option object);
  decode_join : string -> result goerror JoinAnswer;
}.
Arguments node {W}.
Arguments homeserver {W}.
Arguments JoinRoom {W}.
Arguments InviteUser {W}.
Arguments KickUser {W}.
Arguments ListRoomMembers {W}.
Arguments GetRoomChannel {W}.
Arguments saveMember {W}.
Arguments saveMemberIfState {W}.
Arguments groupByRoom {W}.
Arguments ensureJoinedGroupRecord {W}.
Arguments backfillJoinedPostChannelContent {W}.
Arguments retry_wait {W}.
Arguments decode_reactivation {W}.
Arguments decode_map {W}.
Arguments decode_join {W}.

(** [retainedRoomJoinAttempt]; the value and the error a function returns. *)
Record retainedRoomJoinAttempt := {
  Member_ : Member.MemberRecord;
  Stale : bool;
  Busy : bool;
  Final : bool;
}.
Definition no_attempt : retainedRoomJoinAttempt :=
  {| Member_ := no_member; Stale := false; Busy := false; Final := false |}.
Definition stale_attempt (m : Member.MemberRecord) : retainedRoomJoinAttempt :=
  {| Member_ := m; Stale := true; Busy := false; Final := true |}.
Definition final_attempt (m : Member.MemberRecord) : retainedRoomJoinAttempt :=
  {| Member_ := m; Stale := false; Busy := false; Final := true |}.
Definition returned : Type := retainedRoomJoinAttempt * option Api.Error.

(** The error of a step in the terms of its caller. *)
Definition map_error {S E E' A} (f : E -> E') (m : M S E A) : M S E' A :=
  fun s => match m s with
           | (s, Ok a) => (s, Ok a)
           | (s, Err e) => (s, Err (f e))
           end.

(** ** Memberships *)

Definition canonical (membership : string) : string := to_lower (trim_space membership).

Definition is_join (membership : string) : bool := equal_fold (trim_space membership) "join".

Definition retainedRoomMatrixJoinClaimable (membership : string) : bool :=
  one_of (canonical membership)
    ["invite"; "pending"; "approved"; "joining"; "join_failed"; "join"].

Definition preserveActivePublicJoinOnRoomInviteRefresh (existing refreshed : Member.MemberRecord)
    : bool :=
  if negb (equal_fold (trim_space (Member.Membership refreshed)) "invite") ||
     str_empty (trim_space (Member.RequestID existing)) then false
  else one_of (canonical (Member.Membership existing))
         ["pending"; "approved"; "joining"; "join_failed"; "join"; "reject"; "rejected"].

Definition channelJoinGenerationMayRestart (membership : string) : bool :=
  one_of (canonical membership) ["reject"; "rejected"; "leave"; "left"].

(** Both requests are known and they are different. *)
Definition other_generation (requestID current : string) : bool :=
  negb (str_empty requestID) && negb (str_empty current) && negb (str_eqb requestID current).

Section Service_.
Context `{GoRange} `{ResultCodec} {W : Type} `{OperationStore W} (ports : Ports W).
Context `{Remote.NetText} `{Remote.RemoteText} (client : Remote.Client W) (join : JoinPorts W).
Local Notation St := (W * option Tracker.Tracker_)%type.

(** A step on the world. *)
Definition on_store {E A} (m : M W E A) : M St E A :=
  fun st => let '(w, r) := m st.1 in ((w, st.2), r).

(** A failed write of the operation's own record. *)
Definition written {A} (m : M St goerror A) : M St Api.Error A :=
  fun st => match m st with
            | (st, Ok a) => (st, Ok a)
            | (st, Err e) => (st, Err (recoverableOperationWriteError e st))
            end.

Definition mark (phase roomID : string) : M St Api.Error unit :=
  written (markRecoverableOperation ports phase roomID).

(** [return result, err] *)
Definition aborts {A} (result_ : retainedRoomJoinAttempt) (m : M St Api.Error A)
    : M St returned A :=
  map_error (fun e => (result_, Some e)) m.

Definition lookup_row (roomID userID : string) : M St Api.Error (option Member.MemberRecord) :=
  on_store (Workflow.internal (member_of ports roomID userID)).

Definition matrix_joined (member : Member.MemberRecord) : M St Api.Error bool :=
  on_store (transported (matrixMemberJoined ports (Member.RoomID member) (Member.UserID member))).

Definition internal_error (message : string) : Api.Error := Api.InternalError message.

Definition unconfirmed (message : string) : Api.Error :=
  Api.CodedError 409 MatrixJoinUnconfirmedCode message.

Definition snapshot_of {E} (channelID : string) : M St E Chan.Channel :=
  fun st => let '(w, ch) := channelSnapshot ports channelID st.1 in ((w, st.2), Ok ch).

Definition clock {E} : M St E Z := reads (fun st => Ok (now ports st.1)).

Definition retainedRoomServerNames (params : content) (roomID : string) : list string :=
  let serverNames := Params.Strings (get params "server_names") in
  if bool_decide (serverNames = []) then
    match Remote.roomServerFromMatrixRoomID (Remote.room_domain (node join)) roomID with
    | Some server => if str_empty server then [] else [server]
    | None => []
    end
  else serverNames.

Definition channelJoinServerNames (value : any) (roomID : string) : list string :=
  let names := List.filter (fun name => negb (str_empty name)) (map trim_space (Params.Strings value)) in
  if bool_decide (names = []) then
    match Remote.roomServerFromMatrixRoomID (Remote.room_domain (node join)) roomID with
    | Some server => [server]
    | None => []
    end
  else names.

(** ** The Matrix join *)

(** [attempts] is what is left of [maxAttempts]. *)
Fixpoint joinRoomWithRetry (attempts : nat) (req : JoinRoomRequest) (w : W)
    : W * (string * option TransportError) :=
  match attempts with
  | O => (w, ("", None))
  | S attempts =>
      let '(w, (roomID, err)) := JoinRoom join req w in
      match err with
      | None => (w, (roomID, err))
      | Some e =>
          if negb (isRetainedRoomJoinRetryable (cause e)) || (attempts =? 0)%nat
          then (w, (roomID, err))
          else
            let '(w, ended) := retry_wait join w in
            match ended with
            | Some e => (w, ("", Some e))
            | None => joinRoomWithRetry attempts req w
            end
      end
  end.

(** The room of an operation that already changed Matrix. *)
Definition committed_room (operation : option Op.Record_) (member : Member.MemberRecord)
    : Member.MemberRecord :=
  match operation with
  | Some operation =>
      if operationHasExternalCommit (Op.Phase operation) &&
         negb (str_empty (Op.CurrentRoomID operation))
      then Member.set_RoomID (Op.CurrentRoomID operation) member else member
  | None => member
  end.

Definition carrying {A} (member : Member.MemberRecord) (m : M St Api.Error A)
    : M St (Member.MemberRecord * Api.Error) A :=
  map_error (fun e => (member, e)) m.

(** What a failed [JoinRoom] means. *)
Definition joinFailure (member : Member.MemberRecord) (joinErr : TransportError)
    : M St Api.Error unit :=
  if negb (isAlreadyJoinedRoomError (cause joinErr)) then
    if ambiguousChannelJoinTransportError joinErr || isFederatedJoinInProgress (cause joinErr)
    then
      let! _ := mark operationPhaseMatrixUnconfirmed (Member.RoomID member) in
      fail (unconfirmed "Matrix join could not be confirmed locally")
    else fail (transportWriteError (cause joinErr))
  else
  let! confirmed := matrix_joined member in
  if confirmed : bool then ret tt
  else fail (unconfirmed "Matrix join could not be confirmed locally").

Definition joinMatrixRoom (member : Member.MemberRecord) (params : content)
    : M St Api.Error string := fun st =>
  let req := {| jr_RoomIDOrAlias := fallbackString (Member.RoomID member) (Member.ChannelID member);
                jr_UserMXID := Member.UserID member;
                jr_DisplayName := Member.DisplayName member;
                jr_AvatarURL := Member.AvatarURL member;
                jr_ServerNames := retainedRoomServerNames params (Member.RoomID member) |} in
  let '(w, (roomID, joinErr)) := joinRoomWithRetry 10 req st.1 in
  (let! _ := match joinErr with
             | Some e => joinFailure member e
             | None => ret tt
             end in
   ret roomID) (w, st.2).

(** The member with the room that was joined, also beside an error. *)
Definition commitRetainedRoomMatrixJoin (member : Member.MemberRecord) (params : content)
    : M St (Member.MemberRecord * Api.Error) Member.MemberRecord :=
  let! operation := recoverableOperationSnapshot in
  let member := committed_room operation member in
  if negb (hasTransport ports) then ret member
  else
  let! joined := carrying member (matrix_joined member) in
  let! member :=
    if joined : bool then ret member
    else
      let! roomID := carrying member (joinMatrixRoom member params) in
      ret (if str_empty roomID then member else Member.set_RoomID roomID member) in
  let! _ := carrying member (mark operationPhaseMatrixCommitted (Member.RoomID member)) in
  ret member.

(** ** The claim of a join *)

Definition matrixJoinWorkflowRecord (time : Z) (member : Member.MemberRecord) : Op.Record_ :=
  {| Op.OperationID := "_workflow_matrix_join_" +:+ digest16 (join_nul
       [Member.RoomID member; Member.UserID member; Member.RequestID member]);
     Op.Action := "_workflow.matrix_join"; Op.Status := operationStatusRunning;
     Op.Phase := operationPhasePrepared; Op.RoomID := Member.RoomID member;
     Op.CurrentRoomID := ""; Op.UserID := Member.UserID member; Op.PeerMXID := "";
     Op.RequestID := Member.RequestID member; Op.BaseRequestID := ""; Op.ResultJSON := "";
     Op.ErrorCode := ""; Op.Revision := 0; Op.LeaseOwner := ""; Op.LeaseUntil := 0;
     Op.CreatedAt := time; Op.UpdatedAt := time |}.

(** Every wait takes 50 milliseconds, so forty exhaust the two seconds. *)
Fixpoint claimMatrixJoin (attempts : nat) (record : Op.Record_) (owner : string)
    : M W goerror (option Tracker.Tracker_) := fun w =>
  match attempts with
  | O => (w, Ok None)
  | S attempts =>
      match ClaimOperation (now ports w) w record owner operationLeaseDurationMillis with
      | (w, Err e) => if waitExpired ports w then (w, Ok None) else (w, Err e)
      | (w, Ok (claimedRecord, true)) =>
          (w, Ok (Some (Tracker.NewTracker owner claimedRecord operationLeaseDurationMillis)))
      | (w, Ok (_, false)) =>
          let '(w, expired) := pause ports w in
          if expired : bool then (w, Ok None) else claimMatrixJoin attempts record owner w
      end
  end.

(** [None]: another request holds the join. *)
Definition acquireMatrixJoinWorkflow (member : Member.MemberRecord)
    : M W goerror (option Tracker.Tracker_) :=
  let! record := reads (fun w => Ok (matrixJoinWorkflowRecord (now ports w) member)) in
  let! owner := token_of ports "matrix_join_" "claim" in
  claimMatrixJoin 41 record owner.

(** [workflow.Release] when the join is left; its failure is reported when
    nothing else failed. *)
Definition releasing (t : Tracker.Tracker_) (m : M St returned retainedRoomJoinAttempt)
    : M St returned retainedRoomJoinAttempt := fun st =>
  let '((w, op), r) := m st in
  let '(w, _, e) := Tracker.Release (now ports w) (later ports w) w t in
  ((w, op),
   match e, r with
   | Err e, Ok a => Err (a, Some (recoverableOperationWriteError e (w, op)))
   | Err e, Err (a, None) => Err (a, Some (recoverableOperationWriteError e (w, op)))
   | _, _ => r
   end).

(** ** A join of one generation *)

(** The row belongs to somebody else now. *)
Definition superseded {A} (result_ : retainedRoomJoinAttempt) (missing : string)
    (member : Member.MemberRecord) : M St returned A :=
  let! latest := aborts result_ (lookup_row (Member.RoomID member) (Member.UserID member)) in
  match latest with
  | None => fail (result_, Some (internal_error missing))
  | Some latest => fail (stale_attempt latest, None)
  end.

Definition saved_if (result_ : retainedRoomJoinAttempt) (missing : string)
    (member : Member.MemberRecord) (expectedRequestID expectedMembership : string)
    : M St returned unit :=
  let! saved := aborts result_ (on_store (Workflow.internal
                  (saveMemberIfState join member expectedRequestID expectedMembership))) in
  if saved : bool then ret tt else superseded result_ missing member.

(** The member as the operation knows it. *)
Definition ownGeneration (member : Member.MemberRecord) (params : content)
    : M St returned Member.MemberRecord :=
  let! operation := recoverableOperationSnapshot in
  let member :=
    if str_empty (Member.RequestID member)
    then Member.set_RequestID
           (fallbackString (match operation with Some o => Op.RequestID o | None => "" end)
              (trimString (get params "request_id"))) member
    else member in
  ret (committed_room operation member).

(** The stored row, or a first one that only says a join is under way. *)
Definition establish (member : Member.MemberRecord)
    : M St returned (Member.MemberRecord * Member.MemberRecord) :=
  let find := aborts no_attempt (lookup_row (Member.RoomID member) (Member.UserID member)) in
  let! current := find in
  match current with
  | Some current => ret (member, current)
  | None =>
      let! _ := aborts no_attempt (on_store (Workflow.internal
                  (saveMember join (Member.set_Membership "joining" member)))) in
      let! current := find in
      match current with
      | None => fail (no_attempt, Some (internal_error
                        "retained-room join generation was not persisted"))
      | Some current => ret (current, current)
      end
  end.

(** Another request holds the join: the row it wrote, once Matrix confirms. *)
Definition awaitOther (member : Member.MemberRecord) : M St returned Member.MemberRecord :=
  let! joined := aborts no_attempt (matrix_joined member) in
  let! current := aborts no_attempt (lookup_row (Member.RoomID member) (Member.UserID member)) in
  match current with
  | None => fail (no_attempt, Some (internal_error
                    "retained-room join generation disappeared while waiting"))
  | Some current =>
      if other_generation (Member.RequestID member) (Member.RequestID current)
      then fail (stale_attempt current, None)
      else if negb joined
      then fail ({| Member_ := current; Stale := false; Busy := true; Final := true |},
                 Some (unconfirmed "Matrix join is already in progress"))
      else ret current
  end.

(** The row is marked as joining before Matrix is asked. *)
Definition claimGeneration (member : Member.MemberRecord) : M St returned Member.MemberRecord :=
  let! current := aborts no_attempt (lookup_row (Member.RoomID member) (Member.UserID member)) in
  match current with
  | None => fail (no_attempt, Some (internal_error
                    "retained-room join generation disappeared after claim"))
  | Some current =>
      if other_generation (Member.RequestID member) (Member.RequestID current) ||
         negb (retainedRoomMatrixJoinClaimable (Member.Membership current))
      then fail (stale_attempt current, None)
      else
        let claim := Member.set_Membership "joining"
                       (Member.set_RequestID
                          (fallbackString (Member.RequestID current) (Member.RequestID member))
                          member) in
        let! _ := saved_if no_attempt "retained-room join generation disappeared during claim"
                    claim (Member.RequestID current) (Member.Membership current) in
        ret claim
  end.

(** The Matrix side of the join: the member, whether Matrix has it joined and
    the error to report. *)
Definition matrixSide (result_ : retainedRoomJoinAttempt) (matrixJoined : bool)
    (member : Member.MemberRecord) (params : content)
    : M St returned (Member.MemberRecord * bool * option Api.Error) :=
  if negb matrixJoined then fun st =>
    match commitRetainedRoomMatrixJoin member params st with
    | (st, Ok member) => (st, Ok (member, true, None))
    | (st, Err (member, e)) =>
        (let! joined := aborts result_ (matrix_joined member) in
         ret (member, joined, Some e)) st
    end
  else if hasTransport ports then fun st =>
    match mark operationPhaseMatrixCommitted (Member.RoomID member) st with
    | (st, Ok _) => (st, Ok (member, true, None))
    | (st, Err e) => (st, Ok (member, true, Some e))
    end
  else ret (member, true, None).

Definition settleNotJoined (result_ : retainedRoomJoinAttempt) (member : Member.MemberRecord)
    (matrixErr : option Api.Error) (expectedRequestID expectedMembership : string)
    : M St returned retainedRoomJoinAttempt :=
  let unsure := match matrixErr with
                | Some e => str_eqb (Api.Code e) MatrixJoinUnconfirmedCode
                | None => false
                end in
  let member := Member.set_Membership (if unsure then "joining" else "join_failed") member in
  let! _ := saved_if result_ "retained-room join generation disappeared during failure settlement"
              member expectedRequestID expectedMembership in
  fail (final_attempt member, matrixErr).

(** ** What follows a join *)

Definition refreshRoomChannel (roomID : string) : M W goerror string :=
  if negb (hasTransport ports) || str_empty roomID then ret ""
  else
  let! ch := GetRoomChannel join roomID in
  match ch with
  | None => ret ""
  | Some ch =>
      let! existing := reads (fun w =>
        channelByIDOrRoom (directory ports w) (Chan.ChannelID ch) (Chan.RoomID ch)) in
      let ch := match existing with
                | Some existing => mergeRefreshedChannel ch existing
                | None => ch
                end in
      let! _ := Remote.saveChannel (node join) ch in
      ret (Chan.ChannelID ch)
  end.

(** A member Matrix lists, as a row of this room. *)
Definition listed_member (roomID channelID : string) (member : Member.MemberRecord)
    : Member.MemberRecord :=
  Member.set_Role (fallbackString (Member.Role member) "member")
  (Member.set_Membership (fallbackString (Member.Membership member) "join")
  (Member.set_ChannelID (fallbackString (Member.ChannelID member) channelID)
  (Member.set_RoomID roomID member))).

(** [Some latest]: the target's row belongs to another generation. *)
Definition refreshTarget (roomID : string) (target : Member.MemberRecord)
    (current : option Member.MemberRecord) (member : Member.MemberRecord)
    : M W goerror (option Member.MemberRecord) :=
  match current with
  | None => ret (Some no_member)
  | Some current =>
      if negb (str_eqb (Member.RequestID current) (Member.RequestID target))
      then ret (Some current)
      else if negb (is_join (Member.Membership member)) then ret None
      else
        let member := Member.set_RequestID (Member.RequestID target)
                        (Member.set_Membership "join" member) in
        let! saved := saveMemberIfState join member (Member.RequestID target) "join" in
        if saved : bool then ret None
        else
          let! latest := member_of ports roomID (Member.UserID target) in
          match latest with
          | None => fail (ErrOther "retained-room target disappeared during member refresh")
          | Some latest => ret (Some latest)
          end
  end.

Fixpoint refreshMembers (roomID channelID : string) (target : Member.MemberRecord)
    (members : list Member.MemberRecord) : M W goerror (option Member.MemberRecord) :=
  match members with
  | [] => ret None
  | listed :: members =>
      let member := listed_member roomID channelID listed in
      let! current := member_of ports (Member.RoomID member) (Member.UserID member) in
      let member := match current with
                    | Some current => mergeRefreshedMember member current
                    | None => member
                    end in
      let! stale :=
        if negb (str_eqb (Member.UserID member) (Member.UserID target)) then
          if match current with
             | Some current => preserveActivePublicJoinOnRoomInviteRefresh current member
             | None => false
             end
          then ret None
          else let! _ := saveMember join member in ret None
        else refreshTarget roomID target current member in
      match stale with
      | Some latest => ret (Some latest)
      | None => refreshMembers roomID channelID target members
      end
  end.

Definition refreshRoomMembersForGeneration (roomID channelID : string)
    (target : Member.MemberRecord) : M W goerror (option Member.MemberRecord) :=
  if negb (hasTransport ports) || str_empty roomID then ret None
  else
  let! members := ListRoomMembers join roomID in
  let! stale := refreshMembers roomID channelID target members in
  match stale with
  | Some latest => ret (Some latest)
  | None =>
      let! latest := member_of ports roomID (Member.UserID target) in
      match latest with
      | None => fail (ErrOther "retained-room target disappeared after member refresh")
      | Some latest =>
          ret (if str_eqb (Member.RequestID latest) (Member.RequestID target) then None
               else Some latest)
      end
  end.

(** The projections of a joined channel. *)
Definition projectJoinedChannel (member : Member.MemberRecord)
    : M St returned retainedRoomJoinAttempt :=
  let! refreshedChannelID := aborts (final_attempt member)
    (on_store (Workflow.internal (refreshRoomChannel (Member.RoomID member)))) in
  let! member :=
    if negb (str_empty refreshedChannelID) &&
       negb (str_eqb refreshedChannelID (Member.ChannelID member))
    then
      let refreshed := Member.set_ChannelID refreshedChannelID member in
      let! _ := saved_if (final_attempt member)
                  "retained-room join generation disappeared during channel refresh"
                  refreshed (Member.RequestID member) "join" in
      ret refreshed
    else ret member in
  let! stale := aborts (final_attempt member) (on_store (Workflow.internal
    (refreshRoomMembersForGeneration (Member.RoomID member) (Member.ChannelID member) member))) in
  match stale with
  | Some latest => fail (stale_attempt latest, None)
  | None =>
      let! _ := aborts (final_attempt member) (on_store (Workflow.internal
        (backfillJoinedPostChannelContent join (Member.RoomID member) (Member.ChannelID member)))) in
      ret (final_attempt member)
  end.

Definition projectJoined (scope : string) (member : Member.MemberRecord) (params : content)
    : M St returned retainedRoomJoinAttempt :=
  if str_eqb scope "group" then
    let! _ := aborts (final_attempt member) (on_store (Workflow.internal
      (ensureJoinedGroupRecord join member params))) in
    ret (final_attempt member)
  else if str_eqb scope "channel" then projectJoinedChannel member
  else ret (final_attempt member).

Definition settleJoined (result_ : retainedRoomJoinAttempt) (scope : string)
    (member : Member.MemberRecord) (params : content) (matrixErr : option Api.Error)
    (expectedRequestID expectedMembership : string) : M St returned retainedRoomJoinAttempt :=
  let! time := clock in
  let member := Member.set_Membership "join" member in
  let member := if negb (MemberMembershipJoined expectedMembership) || (Member.JoinedAt member =? 0)
                then Member.set_JoinedAt time member else member in
  let! _ := saved_if result_ "retained-room join generation disappeared during success settlement"
              member expectedRequestID expectedMembership in
  match matrixErr with
  | Some e => fail (final_attempt member, Some e)
  | None => projectJoined scope member params
  end.

Definition settleJoin (result_ : retainedRoomJoinAttempt) (scope : string) (params : content)
    (matrixJoined : bool) (member : Member.MemberRecord)
    (expectedRequestID expectedMembership : string) : M St returned retainedRoomJoinAttempt :=
  let! (member, joined, matrixErr) := matrixSide result_ matrixJoined member params in
  if joined : bool
  then settleJoined result_ scope member params matrixErr expectedRequestID expectedMembership
  else settleNotJoined result_ member matrixErr expectedRequestID expectedMembership.

Definition joinGeneration (scope : string) (member : Member.MemberRecord) (params : content)
    : M St returned retainedRoomJoinAttempt :=
  let! member := ownGeneration member params in
  let! (member, current) := establish member in
  if other_generation (Member.RequestID member) (Member.RequestID current)
  then fail (stale_attempt current, None)
  else
  let member := Member.set_RequestID
                  (fallbackString (Member.RequestID member) (Member.RequestID current)) member in
  let! matrixJoined := if hasTransport ports then aborts no_attempt (matrix_joined member)
                       else ret false in
  if hasTransport ports && negb matrixJoined then
    let! workflow := aborts no_attempt (written (on_store (acquireMatrixJoinWorkflow member))) in
    match workflow with
    | None =>
        let! current := awaitOther member in
        settleJoin (final_attempt current) scope params true current (Member.RequestID current)
          (Member.Membership current)
    | Some t =>
        releasing t
          (let! claim := claimGeneration member in
           settleJoin no_attempt scope params false claim (Member.RequestID claim)
             (Member.Membership claim))
    end
  else settleJoin no_attempt scope params matrixJoined member (Member.RequestID current)
         (Member.Membership current).

Definition joinAndProjectRetainedRoomGeneration (scope : string) (member : Member.MemberRecord)
    (params : content) (st : St) : St * returned :=
  match joinGeneration scope member params st with
  | (st, Ok a) => (st, (a, None))
  | (st, Err r) => (st, r)
  end.

(** The member of the attempt replaces the caller's. *)
Definition joinAndProjectRetainedRoom (scope : string) (member : Member.MemberRecord)
    (params : content) (st : St) : St * (Member.MemberRecord * option Api.Error) :=
  let '(st, (attempt, apiErr)) := joinAndProjectRetainedRoomGeneration scope member params st in
  (st, (Member_ attempt,
        if Stale attempt then
          if is_join (Member.Membership (Member_ attempt)) then None
          else Some (unconfirmed "Matrix join generation changed during settlement")
        else apiErr)).

(** ** Invitations of members who are already joined *)

Record roomReactivationDecision := {
  Status : string;
  NeedsRebuild : bool;
  RebuildGeneration : string;
}.

Definition first_param (params : content) (keys : list string) : string :=
  foldr (fun key rest => let value := trimString (get params key) in
                         if str_empty value then rest else value) "" keys.

(** A call of another node, on the state of a request. *)
Definition call {A} (decode : string -> result goerror A) (serverName action : string)
    (params : content) (st : St) : St * (Z * result Remote.RemoteError A) :=
  let '(w, r) := Remote.remotePublicAction client decode serverName action params st.1 in
  ((w, st.2), r).

Definition reactivationParams (scope : string) (member : Member.MemberRecord) (params : content)
    : content :=
  let base := first_param params
    ["requester_node_base_url"; "applicant_node_base_url"; "remote_node_base_url"] in
  let base := if str_empty base
              then "https://" +:+ DomainFromMXID (Member.UserID member) +:+ "/_p2p" else base in
  {["room_id" := AString (Member.RoomID member);
    "channel_id" := AString (Member.ChannelID member);
    "room_type" := AString scope;
    "user_id" := AString (Member.UserID member);
    "display_name" := AString (Member.DisplayName member);
    "avatar_url" := AString (Member.AvatarURL member);
    "domain" := AString (Member.Domain member);
    "server_names" := AStrings (retainedRoomServerNames params (Member.RoomID member));
    "remote_node_base_url" := AString base;
    "rebuild_generation" := AString (trimString (get params "rebuild_generation"))]}.

(** The profile of the room is added to what the other node is told. *)
Definition with_group (group : Group.GroupRecord) (request : content) : content :=
  <["invite_policy" := AString (Group.InvitePolicy group)]>
  (<["avatar_url" := AString (fallbackString (trimString (get request "avatar_url"))
                                (Group.AvatarURL group))]>
  (<["topic" := AString (Group.Topic group)]>
  (<["name" := AString (Group.Name group)]> request))).

Definition with_channel (ch : Chan.Channel) (request : content) : content :=
  <["comments_enabled" := ABool (Chan.CommentsEnabled ch)]>
  (<["channel_type" := AString (Chan.ChannelType ch)]>
  (<["join_policy" := AString (Chan.JoinPolicy ch)]>
  (<["visibility" := AString (Chan.Visibility ch)]>
  (<["avatar_url" := AString (fallbackString (trimString (get request "avatar_url"))
                                (Chan.AvatarURL ch))]>
  (<["description" := AString (Chan.Description ch)]>
  (<["name" := AString (Chan.Name ch)]>
  (<["channel_id" := AString (Chan.ChannelID ch)]> request))))))).

Definition find_group (roomID : string) : M St goerror (option Group.GroupRecord) :=
  reads (fun st => groupByRoom join roomID st.1).

Definition find_channel (channelID roomID : string) : M St goerror (option Chan.Channel) :=
  reads (fun st => channelByIDOrRoom (directory ports st.1) channelID roomID).

Definition withRoomProfile (scope : string) (member : Member.MemberRecord) (request : content)
    : M St goerror content :=
  if str_eqb scope "group" then
    let! group := find_group (Member.RoomID member) in
    ret (match group with Some group => with_group group request | None => request end)
  else if str_eqb scope "channel" then
    let! ch := find_channel (Member.ChannelID member) (Member.RoomID member) in
    ret (match ch with Some ch => with_channel ch request | None => request end)
  else ret request.

Definition bad_gateway (message : string) : Api.Error := Api.StatusError 502 message.

(** What the other node may answer. *)
Definition reactivationDecision (rebuildGeneration : string) (remote : Reactivation)
    : result Api.Error roomReactivationDecision :=
  let remoteStatus := to_lower (trim_space (ra_Status remote)) in
  match ra_NeedsRebuild remote with
  | Some needs =>
      if negb (str_eqb (ra_RebuildGeneration remote) rebuildGeneration)
      then Err (bad_gateway "target node returned an invalid room reactivation generation")
      else if str_eqb remoteStatus "joined" && needs ||
              str_eqb remoteStatus "invite" && negb needs ||
              negb (str_eqb remoteStatus "joined") && negb (str_eqb remoteStatus "invite")
      then Err (bad_gateway "target node returned an invalid room reactivation decision")
      else Ok {| Status := remoteStatus; NeedsRebuild := needs;
                 RebuildGeneration := ra_RebuildGeneration remote |}
  | None => Err (bad_gateway "target node returned an invalid room reactivation generation")
  end.

Definition notifyRemoteRoomReactivation (scope : string) (member : Member.MemberRecord)
    (params : content) : M St Api.Error roomReactivationDecision :=
  let rebuildGeneration := trimString (get params "rebuild_generation") in
  if negb (ValidRebuildGeneration rebuildGeneration)
  then fail (Api.BadRequest "rebuild_generation is invalid")
  else if str_empty (Member.UserID member) ||
          str_eqb (DomainFromMXID (Member.UserID member)) (Remote.serverName (node join))
  then fail (Api.BadRequest "retained-room rebuild requires a remote member")
  else
  let! request := Workflow.internal
    (withRoomProfile scope member (reactivationParams scope member params)) in
  fun st =>
    let '(st, (status, answer)) :=
      call (decode_reactivation join) (DomainFromMXID (Member.UserID member)) "rooms.reactivate"
        request st in
    (st, match answer with
         | Err e => Err (Remote.gatewayError status e)
         | Ok remote =>
             if negb (status =? 200)
             then Err (Api.StatusError status "target node room reactivation failed")
             else reactivationDecision rebuildGeneration remote
         end).

Definition kickAndInviteStaleJoinedRoomMember (member : Member.MemberRecord)
    (inviteReq : InviteUserRequest) : M St Api.Error unit :=
  if negb (hasTransport ports) then ret tt
  else
  let! time := clock in
  let! kicked := on_store (attempt (KickUser join (Member.RoomID member)
    (iv_InviterMXID inviteReq) (Member.UserID member) "reactivate rebuilt member invite" time)) in
  match kicked with
  | Err e => if isAlreadyLeftRoomError e
             then on_store (map_error (fun e => transportWriteError (cause e))
                              (InviteUser join inviteReq))
             else fail (transportWriteError e)
  | Ok _ => on_store (map_error (fun e => transportWriteError (cause e))
                        (InviteUser join inviteReq))
  end.

(** The member after the invitation Matrix refused. *)
Definition reinviteAlreadyJoinedRoomMember (scope : string) (member : Member.MemberRecord)
    (params : content) (inviteReq : InviteUserRequest) (inviteErr : TransportError)
    : M St Api.Error Member.MemberRecord :=
  let rebuildGeneration := trimString (get params "rebuild_generation") in
  let joined_member := Member.set_Membership "join" member in
  if negb (str_empty rebuildGeneration) && negb (ValidRebuildGeneration rebuildGeneration)
  then fail (Api.BadRequest "rebuild_generation is invalid")
  else
  let! joined := matrix_joined member in
  if negb joined then fail (transportWriteError (cause inviteErr))
  else if str_empty rebuildGeneration || str_eqb (Member.RequestID member) rebuildGeneration
  then ret joined_member
  else
  let! decision := notifyRemoteRoomReactivation scope member params in
  if negb (str_eqb (RebuildGeneration decision) rebuildGeneration)
  then fail (bad_gateway "target node returned an invalid room reactivation generation")
  else if negb (NeedsRebuild decision) then ret joined_member
  else
  let! _ := kickAndInviteStaleJoinedRoomMember member inviteReq in
  ret (Member.set_RequestID rebuildGeneration (Member.set_Membership "invite" member)).

Definition productInviteRoomState (scope roomID channelID : string)
    : M St Api.Error (list RoomState.StateEvent) :=
  if str_eqb scope "group" then
    let! group := transported (find_group roomID) in
    let group := default {| Group.RoomID := roomID; Group.Name := roomID; Group.Topic := "";
                            Group.AvatarURL := ""; Group.MemberCount := 0;
                            Group.InvitePolicy := "member"; Group.Muted := false |} group in
    ret [roomProfileForGroup group false]
  else if str_eqb scope "channel" then
    let! ch := Workflow.internal (find_channel channelID roomID) in
    match ch with
    | None => fail (Api.StatusError 404 "channel not found")
    | Some ch => ret [RoomState.ChannelRoomProfile ch false]
    end
  else ret [].

Definition memberOwnerMXID {E} : M St E string :=
  reads (fun st => Ok (OwnerMXID (directory ports st.1))).

(** The sender of an invitation. *)
Definition sendMemberInvite (scope : string) (inviteRoomState : list RoomState.StateEvent)
    (member : Member.MemberRecord) (params : content) (isDirect : bool)
    : M St Api.Error Member.MemberRecord :=
  let generation := trimString (get params "rebuild_generation") in
  if negb (str_empty generation) && negb (ValidRebuildGeneration generation)
  then fail (Api.BadRequest "rebuild_generation is invalid")
  else
  let! member :=
    if hasTransport ports then
      let! owner := memberOwnerMXID in
      let inviteReq := {| iv_RoomID := Member.RoomID member; iv_InviterMXID := owner;
                          iv_InviteeMXID := Member.UserID member;
                          iv_Reason := trimString (get params "reason"); iv_IsDirect := isDirect;
                          iv_PublicJoinRequestID := ""; iv_InviteRoomState := inviteRoomState |} in
      let! invited := on_store (attempt (InviteUser join inviteReq)) in
      match invited with
      | Ok _ => ret member
      | Err e =>
          if negb (isAlreadyJoinedRoomError (cause e)) then fail (transportWriteError (cause e))
          else reinviteAlreadyJoinedRoomMember scope member params inviteReq e
      end
    else ret member in
  if str_empty generation then ret member
  else
    let! _ := mark operationPhaseMatrixCommitted (Member.RoomID member) in
    ret (Member.set_RequestID generation member).

Definition prepareMemberInvite (scope roomID channelID : string)
    : M St Api.Error
        (Member.MemberRecord -> content -> bool -> M St Api.Error Member.MemberRecord) :=
  let! inviteRoomState := productInviteRoomState scope roomID channelID in
  ret (sendMemberInvite scope inviteRoomState).

(** ** Settling the join request of a channel *)

(** A handler's map, or the panic of an assignment to a nil map. *)
Inductive answer :=
| Answer (m : object)
| NilMapWrite.

Definition join_result (status : string) (member : Member.MemberRecord) (ch : Chan.Channel)
    : object :=
  {["status" := vtext status; "member" := VMember member; "channel" := VChannel ch]}.

Definition with_room (roomID : string) (m : object) : object := <["room_id" := vtext roomID]> m.

Definition with_error (message code : string) (m : object) : object :=
  <["error" := vtext message]> (<["error_code" := vtext code]> m).

(** The answer for a row that belongs to another generation. *)
Definition currentChannelJoinResult (current : Member.MemberRecord) : M St Api.Error object :=
  let status := canonical (Member.Membership current) in
  let! ch := snapshot_of (Member.ChannelID current) in
  let r := join_result status current ch in
  let code c (m : object) : object := <["error_code" := vtext c]> m in
  let status_ s (m : object) : object := <["status" := vtext s]> m in
  if str_eqb status "join" then
    let! joined := matrix_joined current in
    ret (if joined : bool then with_room (Member.RoomID current) (status_ "joined" r)
         else code JoinResultUnconfirmedCode (status_ "joining" r))
  else if one_of status ["reject"; "rejected"] then ret (status_ "rejected" r)
  else if str_eqb status "joining" then ret (code JoinResultUnconfirmedCode r)
  else if str_eqb status "join_failed" then ret (code MatrixJoinFailedCode r)
  else ret r.

(** [Some current]: the row was not written because another generation has it. *)
Definition persistRemoteChannelJoinGeneration (member : Member.MemberRecord)
    (expectedRequestID expectedMembership : string) : M St Api.Error (option object) :=
  let! saved := on_store (Workflow.internal
    (saveMemberIfState join member expectedRequestID expectedMembership)) in
  if saved : bool then ret None
  else
  let! current := lookup_row (Member.RoomID member) (Member.UserID member) in
  match current with
  | None => fail (internal_error "channel join generation disappeared during callback settlement")
  | Some current => let! r := currentChannelJoinResult current in ret (Some r)
  end.

(** Write the row, then answer; or answer with what another generation wrote. *)
Definition persisting (member : Member.MemberRecord) (expectedRequestID expectedMembership : string)
    (next : M St Api.Error answer) : M St Api.Error answer :=
  let! stale := persistRemoteChannelJoinGeneration member expectedRequestID expectedMembership in
  match stale with
  | Some current => ret (Answer current)
  | None => next
  end.

Definition completeLocalApprovedChannelJoin (member : Member.MemberRecord) (params : content)
    : M St Api.Error object := fun st =>
  let '(st, (attempt_, apiErr)) :=
    joinAndProjectRetainedRoomGeneration "channel" member params st in
  let member := Member_ attempt_ in
  if Stale attempt_ then currentChannelJoinResult member st
  else
  let answered (f : object -> object) status :=
    (let! ch := snapshot_of (Member.ChannelID member) in
     ret (f (join_result status member ch))) st in
  match apiErr with
  | None => answered (with_room (Member.RoomID member)) "joined"
  | Some apiErr =>
      if negb (Final attempt_) then (st, Err apiErr)
      else if Busy attempt_ ||
              equal_fold (trim_space (Member.Membership member)) "joining"
      then answered (with_error (Api.Error_ apiErr)
                       (fallbackString (Api.Code apiErr) MatrixJoinUnconfirmedCode)) "joining"
      else if is_join (Member.Membership member)
      then answered (fun m => with_room (Member.RoomID member)
                       (with_error (Api.Error_ apiErr) OperationRecoveryCode m)) "joined"
      else answered (with_error (Api.Error_ apiErr) MatrixJoinFailedCode) "join_failed"
  end.

Definition invite_unconfirmed : Api.Error :=
  Api.CodedError 202 JoinResultUnconfirmedCode "channel invite result is unconfirmed".

Definition approvedInviteFailure (member : Member.MemberRecord) (err : TransportError)
    : M St Api.Error unit :=
  if isAlreadyJoinedRoomError (cause err) then
    let! joined := matrix_joined member in
    if negb joined then fail invite_unconfirmed
    else mark operationPhaseMatrixCommitted (Member.RoomID member)
  else if ambiguousChannelJoinTransportError err then fail invite_unconfirmed
  else fail (transportWriteError (cause err)).

Definition ensureRemoteApprovedChannelInvite (member : Member.MemberRecord) (params : content)
    : M St Api.Error unit :=
  if negb (hasTransport ports) then ret tt
  else if str_empty (trimString (get params "requester_node_base_url")) &&
          str_empty (trimString (get params "applicant_node_base_url")) &&
          str_empty (Member.RequesterNodeBaseURL member) then ret tt
  else
  let! operation := recoverableOperationSnapshot in
  if match operation with
     | Some o => operationHasExternalCommit (Op.Phase o) &&
                 str_eqb (Op.CurrentRoomID o) (Member.RoomID member)
     | None => false
     end
  then ret tt
  else
  let! owner := memberOwnerMXID in
  let! inviteRoomState := productInviteRoomState "channel" (Member.RoomID member)
                            (Member.ChannelID member) in
  let inviteReq := {| iv_RoomID := Member.RoomID member; iv_InviterMXID := owner;
                      iv_InviteeMXID := Member.UserID member;
                      iv_Reason := trimString (get params "reason"); iv_IsDirect := false;
                      iv_PublicJoinRequestID :=
                        fallbackString (trimString (get params "request_id"))
                          (Member.RequestID member);
                      iv_InviteRoomState := inviteRoomState |} in
  let! invited := on_store (attempt (InviteUser join inviteReq)) in
  match invited with
  | Err e => approvedInviteFailure member e
  | Ok _ => mark operationPhaseMatrixCommitted (Member.RoomID member)
  end.

(** A refusal of the other node is final. *)
Definition remoteJoinResultTerminalError (status : Z) (err : option Remote.RemoteError)
    : option Api.Error :=
  if (status <? 400) || (500 <=? status) then None
  else
    let '(message, code, operationID, currentRoomID) :=
      match err with
      | Some (Remote.Refused e) =>
          (Remote.ae_Message e, Remote.ae_Code e, Remote.ae_OperationID e,
           Remote.ae_CurrentRoomID e)
      | _ => (Remote.StatusText status, "", "", "")
      end in
    let code := if str_empty code then
                  if status =? 404 then RequestNotFoundCode
                  else if status =? 410 then RequestExpiredCode else ""
                else code in
    Some {| Api.Status := status; Api.Error_ := message; Api.Code := code;
            Api.OperationID := operationID; Api.CurrentRoomID := currentRoomID |}.

Definition error_of {E A} (r : result E A) : option E :=
  match r with Ok _ => None | Err e => Some e end.

(** [remote["status"]], or the status that was sent. *)
Definition remote_status (remote : option object) (status : string) : string :=
  fallbackString (match remote with Some m => text m "status" | None => "" end) status.

(** Eight attempts at most, while the approved member could not join yet. *)
Fixpoint callbackAttempts (attempts : nat) (serverName status : string) (params : content)
    (st : St) : St * (Z * result Remote.RemoteError (option object)) :=
  match attempts with
  | O => (st, (0, Ok None))
  | S attempts =>
      let '(st, (httpStatus, r)) :=
        call (decode_map join) serverName "channels.public.join_result" params st in
      match r with
      | Err _ => (st, (httpStatus, r))
      | Ok remote =>
          if negb (str_eqb status "approved") || negb (httpStatus =? 200) ||
             negb (equal_fold (remote_status remote status) "join_failed") || (attempts =? 0)%nat
          then (st, (httpStatus, r))
          else
            let '(w, ended) := retry_wait join st.1 in
            match ended with
            | Some e => ((w, st.2), (httpStatus, Err (Remote.Failed (cause e))))
            | None => callbackAttempts attempts serverName status params (w, st.2)
            end
      end
  end.

(** The membership a decision means. *)
Definition membershipOf (status : string) : string :=
  if str_eqb status "joined" then "join"
  else if str_eqb status "rejected" then "reject" else status.

(** The other node could not be asked, or did not accept. *)
Definition callbackFailed (status requestID expectedMembership message : string)
    (member : Member.MemberRecord) : M St Api.Error answer :=
  let member := Member.set_Membership (if str_eqb status "approved" then "joining" else "reject")
                  member in
  persisting member requestID expectedMembership
    (let! ch := snapshot_of (Member.ChannelID member) in
     ret (Answer (with_error message JoinResultUnconfirmedCode
       (join_result (if str_eqb status "rejected" then "rejected" else Member.Membership member)
          member ch)))).

Definition callbackAccepted (status requestID expectedMembership : string)
    (remote : option object) (member : Member.MemberRecord) : M St Api.Error answer :=
  let! _ := mark operationPhaseCallbackAcknowledged (Member.RoomID member) in
  let remoteStatus := remote_status remote status in
  let member := Member.set_Membership (membershipOf remoteStatus) member in
  persisting member requestID expectedMembership
    (match remote with
     | None => ret NilMapWrite
     | Some remote =>
         let! ch := snapshot_of (Member.ChannelID member) in
         let r : object := <["channel" := VChannel ch]> (<["member" := VMember member]> remote) in
         ret (Answer (if equal_fold remoteStatus "join_failed"
                      then <["error_code" := vtext MatrixJoinFailedCode]> r else r))
     end).

(** There is no node to tell: the decision is recorded. *)
Definition recordDecision (status requestID expectedMembership : string)
    (member : Member.MemberRecord) : M St Api.Error answer :=
  let member := Member.set_Membership (membershipOf status) member in
  persisting member requestID expectedMembership
    (let! ch := snapshot_of (Member.ChannelID member) in
     ret (Answer (join_result (if str_eqb status "rejected" then "rejected"
                               else Member.Membership member) member ch))).

Definition callbackParams (base status requestID : string) (member : Member.MemberRecord)
    (params : content) : content :=
  {["room_id" := AString (Member.RoomID member);
    "channel_id" := AString (Member.ChannelID member);
    "user_id" := AString (Member.UserID member);
    "status" := AString status;
    "reason" := AString (trimString (get params "reason"));
    "request_id" := AString requestID;
    "server_names" := AStrings (channelJoinServerNames (get params "server_names")
                                  (Member.RoomID member));
    "remote_node_base_url" := AString base]}.

Definition notifyRemoteChannelJoinResult (member : Member.MemberRecord) (status : string)
    (params : content) : M St Api.Error answer :=
  let expectedMembership := Member.Membership member in
  let! operation := recoverableOperationSnapshot in
  let requestID := fallbackString (trimString (get params "request_id")) (Member.RequestID member) in
  let requestID := match operation with
                   | Some o => if str_empty requestID
                               then fallbackString (Op.RequestID o) (Op.OperationID o)
                               else requestID
                   | None => requestID
                   end in
  let base := trim_space (Member.RequesterNodeBaseURL member) in
  let base := if str_empty base
              then first_param params ["requester_node_base_url"; "applicant_node_base_url"]
              else base in
  if str_empty base then recordDecision status requestID expectedMembership member
  else fun st =>
    let '(st, (httpStatus, r)) :=
      callbackAttempts 8 (DomainFromMXID (Member.UserID member)) status
        (callbackParams base status requestID member params) st in
    match remoteJoinResultTerminalError httpStatus (error_of r) with
    | Some terminalErr => (st, Err terminalErr)
    | None =>
        match r with
        | Err e => callbackFailed status requestID expectedMembership
                     (Remote.remote_error_text e) member st
        | Ok remote =>
            if negb (httpStatus =? 200)
            then callbackFailed status requestID expectedMembership
                   "target node join result failed" member st
            else callbackAccepted status requestID expectedMembership remote member st
        end
    end.

Definition answering (m : M St Api.Error object) : M St Api.Error answer :=
  let! r := m in ret (Answer r).

(** The invitation of a member of another node, then the decision. *)
Definition approveRemoteMember (member : Member.MemberRecord) (params : content)
    : M St Api.Error answer :=
  let! invited := attempt (ensureRemoteApprovedChannelInvite member params) in
  match invited with
  | Err apiErr =>
      if str_eqb (Api.Code apiErr) JoinResultUnconfirmedCode then
        let! ch := snapshot_of (Member.ChannelID member) in
        ret (Answer (with_error (Api.Error_ apiErr) JoinResultUnconfirmedCode
                       (join_result "joining" member ch)))
      else fail apiErr
  | Ok _ => notifyRemoteChannelJoinResult member "approved" params
  end.

Definition completeApprovedChannelJoin (member : Member.MemberRecord) (params : content)
    : M St Api.Error answer :=
  if str_empty (Member.UserID member) then fail (Api.BadRequest "user_id is required")
  else
  let expectedRequestID := Member.RequestID member in
  let expectedMembership := Member.Membership member in
  let local := str_eqb (DomainFromMXID (Member.UserID member)) (Remote.serverName (node join)) in
  let! joined := matrix_joined member in
  if joined : bool then
    if local then answering (completeLocalApprovedChannelJoin member params)
    else
      let member := Member.set_Membership "join" member in
      persisting member expectedRequestID expectedMembership
        (let! ch := snapshot_of (Member.ChannelID member) in
         ret (Answer (with_room (Member.RoomID member) (join_result "joined" member ch))))
  else
  let member := Member.set_Membership "joining" member in
  persisting member expectedRequestID expectedMembership
    (if negb local then approveRemoteMember member params
     else if negb (hasTransport ports) then
       let member := Member.set_Membership "approved" member in
       persisting member expectedRequestID "joining"
         (let! ch := snapshot_of (Member.ChannelID member) in
          ret (Answer (join_result "approved" member ch)))
     else answering (completeLocalApprovedChannelJoin member
            (<["server_names" := AStrings (channelJoinServerNames (get params "server_names")
                                             (Member.RoomID member))]> params))).

Definition completeChannelJoinRequest (approved : bool) (member : Member.MemberRecord)
    (params : content) : M St Api.Error answer :=
  if approved then completeApprovedChannelJoin member params
  else if negb (str_eqb (DomainFromMXID (Member.UserID member)) (Remote.serverName (node join)))
  then notifyRemoteChannelJoinResult member "rejected" params
  else
    let! ch := snapshot_of (Member.ChannelID member) in
    ret (Answer (join_result "rejected" member ch)).

(** ** A join request for a channel of another node *)

(** The channel as its new member sees it. *)
Definition joined_channel (member : Member.MemberRecord) (ch : Chan.Channel) : Chan.Channel :=
  Chan.set_IsOwned (ProductOwnerRole (Member.Role member))
    (Chan.set_Role (NormalizeProductMemberRole (Member.Role member))
       (Chan.set_MemberStatus "join" ch)).

(** What [remoteChannelJoinRequest] carries between its steps. *)
Record joinRequest := {
  rq_member : Member.MemberRecord;
  rq_requestID : string;
  rq_restart : bool;
}.

(** The local row of the request: its generation, state and address. *)
Definition localJoinRequest (time : Z) (requesterBaseURL roomID requestID : string)
    (ch : Chan.Channel) (params : content) (member : Member.MemberRecord) : joinRequest :=
  let member := Member.set_ChannelID (Chan.ChannelID ch) (Member.set_RoomID roomID member) in
  let restart := negb (str_empty requestID) &&
                 negb (str_eqb (Member.RequestID member) requestID) &&
                 channelJoinGenerationMayRestart (Member.Membership member) in
  let '(member, requestID) :=
    if restart
    then (Member.set_Membership "pending"
            (Member.set_JoinedAt time (Member.set_RequestID requestID member)), requestID)
    else if str_empty (Member.RequestID member)
    then (Member.set_RequestID requestID member, requestID)
    else (member, Member.RequestID member) in
  let member := if str_empty (trim_space (Member.Membership member))
                then Member.set_Membership "pending" member else member in
  let member := Member.set_Role (fallbackString (Member.Role member) "member") member in
  let member := if negb (str_empty requesterBaseURL) &&
                   (restart || str_empty (Member.RequesterNodeBaseURL member))
                then Member.set_RequesterNodeBaseURL requesterBaseURL member else member in
  {| rq_member := Members.ApplyMemberProfile member params; rq_requestID := requestID;
     rq_restart := restart |}.

(** The row is written before the other node is asked; [Some] when another
    generation has it. *)
Definition saveJoinRequest (roomID userID : string) (previous : option Member.MemberRecord)
    (rq : joinRequest)
    : M St Api.Error (option object) :=
  match previous with
  | None => let! _ := on_store (Workflow.internal (saveMember join (rq_member rq))) in ret None
  | Some previous =>
      let! saved := on_store (Workflow.internal (saveMemberIfState join (rq_member rq)
                      (Member.RequestID previous) (Member.Membership previous))) in
      if saved : bool then ret None
      else
      let! current := lookup_row roomID userID in
      match current with
      | None => fail (internal_error
                  (if rq_restart rq then "channel join generation disappeared during restart"
                   else "channel join generation disappeared before dispatch"))
      | Some current => let! r := currentChannelJoinResult current in ret (Some r)
      end
  end.

Definition forwardJoinParams (rq : joinRequest) (params : content) : content :=
  let params := if str_empty (rq_requestID rq) then params
                else <["request_id" := AString (rq_requestID rq)]> params in
  let base := Member.RequesterNodeBaseURL (rq_member rq) in
  if str_empty (trimString (get params "requester_node_base_url")) && negb (str_empty base)
  then <["requester_node_base_url" := AString base]> params else params.

(** The row the other node answers with; the generation stays the local one. *)
Definition answered_member (rq : joinRequest) (roomID : string) (ch : Chan.Channel)
    (remote : JoinAnswer) : Member.MemberRecord :=
  let member := ja_Member remote in
  let or (f : Member.MemberRecord -> string) d := if str_empty (f member) then d else f member in
  Member.set_RequesterNodeBaseURL
    (or Member.RequesterNodeBaseURL (Member.RequesterNodeBaseURL (rq_member rq)))
  (Member.set_RequestID (Member.RequestID (rq_member rq))
  (Member.set_Role (or Member.Role "member")
  (Member.set_Membership
     (or Member.Membership (fallbackString (ja_Status remote) "pending"))
  (Member.set_ChannelID (or Member.ChannelID (Chan.ChannelID ch))
  (Member.set_RoomID (or Member.RoomID roomID) member))))).

(** The other node lets the member in: join the room. *)
Definition joinAdmitted (rq : joinRequest) (roomID : string) (ch : Chan.Channel)
    (params : content) : M St Api.Error object := fun st =>
  let localJoin :=
    Member.set_Membership "approved" (Member.set_ChannelID (Chan.ChannelID ch)
      (Member.set_RoomID roomID (rq_member rq))) in
  let localJoin := Members.ApplyMemberProfile
    (Member.set_Role (fallbackString (Member.Role localJoin) "member") localJoin) params in
  let joinParams : content :=
    <["server_names" := AStrings (channelJoinServerNames (get params "server_names") roomID)]>
      params in
  let '(st, (attempt_, apiErr)) :=
    joinAndProjectRetainedRoomGeneration "channel" localJoin joinParams st in
  let member := Member_ attempt_ in
  if Stale attempt_ then currentChannelJoinResult member st
  else match apiErr with
  | None =>
      (st, Ok (with_room (Member.RoomID member)
                 (join_result "joined" member (joined_channel member ch))))
  | Some apiErr =>
      let message := Api.Error_ apiErr in
      if negb (Final attempt_) then (st, Err apiErr)
      else if Busy attempt_ || equal_fold (trim_space (Member.Membership member)) "joining"
      then (st, Ok (with_error message (fallbackString (Api.Code apiErr) MatrixJoinUnconfirmedCode)
                      (join_result "joining" member ch)))
      else if is_join (Member.Membership member)
      then (st, Ok (with_room (Member.RoomID member)
                      (with_error message OperationRecoveryCode (join_result "joined" member ch))))
      else (st, Ok (with_error message MatrixJoinFailedCode
                      (join_result "join_failed" member ch)))
  end.

(** What the other node decided. *)
Definition recordAnswer (rq : joinRequest) (roomID : string) (ch : Chan.Channel)
    (params : content) (remote : JoinAnswer) : M St Api.Error object :=
  let member := answered_member rq roomID ch remote in
  let remoteStatus := fallbackString (ja_Status remote) (Member.Membership member) in
  if existsb (equal_fold remoteStatus) ["join_failed"; "approved"; "joining"; "joined"]
  then joinAdmitted rq roomID ch params
  else
  let! stale := persistRemoteChannelJoinGeneration member (Member.RequestID (rq_member rq))
                  (Member.Membership (rq_member rq)) in
  match stale with
  | Some current => ret current
  | None =>
      let known := negb (str_empty (Chan.ChannelID (ja_Channel remote))) in
      let ch := if known then ja_Channel remote else ch in
      let! _ := if known then on_store (Workflow.internal (Remote.saveChannel (node join) ch))
                else ret tt in
      let r := join_result remoteStatus member ch in
      let r : object := if str_empty (ja_Error remote) then r
                        else <["error" := vtext (ja_Error remote)]> r in
      ret (if str_empty (ja_ErrorCode remote) then r
           else <["error_code" := vtext (ja_ErrorCode remote)]> r)
  end.

Definition dispatchJoinRequest (rq : joinRequest) (roomServer roomID : string) (ch : Chan.Channel)
    (params : content) : M St Api.Error object := fun st =>
  let '(st, (status, r)) :=
    call (decode_join join) roomServer "channels.public.join_request"
      (forwardJoinParams rq params) st in
  match r with
  | Err e => (st, Err (match remoteJoinResultTerminalError status (Some e) with
                       | Some terminalErr => terminalErr
                       | None => Remote.gatewayError status e
                       end))
  | Ok remote =>
      if negb (status =? 200)
      then (st, Err (Api.StatusError status "target node public channel join request failed"))
      else recordAnswer rq roomID ch params remote st
  end.

(** The row of the request as it is: [inl] when the member is already in. *)
Definition previousJoin (roomID userID : string) (ch : Chan.Channel)
    (previous : option Member.MemberRecord) : M St Api.Error (object + Member.MemberRecord) :=
  match previous with
  | None => ret (inr (Member.set_Membership "pending"
                        (Members.memberRecordFor roomID (Chan.ChannelID ch) userID)))
  | Some member =>
      if is_join (Member.Membership member) then
        let! joined := on_store (Workflow.internal (matrixMemberJoined ports roomID userID)) in
        if joined : bool
        then ret (inl (with_room roomID (join_result "joined"
                         (Member.set_ChannelID (Chan.ChannelID ch) member)
                         (joined_channel member ch))))
        else ret (inr (Member.set_Membership "joining" member))
      else ret (inr member)
  end.

Definition forwardRequestID (params : content) : M St Api.Error string :=
  let! operation := recoverableOperationSnapshot in
  let requestID := trimString (get params "request_id") in
  ret (match operation with
       | Some o => if str_empty requestID then fallbackString (Op.RequestID o) (Op.OperationID o)
                   else requestID
       | None => requestID
       end).

Definition requestRemoteJoin (roomServer roomID : string) (ch : Chan.Channel) (params : content)
    : M St Api.Error object :=
  let! owner := memberOwnerMXID in
  let userID := if str_empty (Members.firstMemberID params) then owner
                else Members.firstMemberID params in
  if str_empty userID then fail (Api.BadRequest "user_id is required")
  else
  let! previous := lookup_row roomID userID in
  let! found := previousJoin roomID userID ch previous in
  match found with
  | inl r => ret r
  | inr member =>
      let! requestID := forwardRequestID params in
      let! time := clock in
      let rq := localJoinRequest time (Remote.publicP2PBaseURL (homeserver join)) roomID
                  requestID ch params member in
      let! stale := saveJoinRequest roomID userID previous rq in
      match stale with
      | Some current => ret current
      | None => dispatchJoinRequest rq roomServer roomID ch params
      end
  end.

(** [None]: the channel is on this node.  [pre] is the channel of the
    preflight. *)
Definition remoteChannelJoinRequest (pre : option Chan.Channel) (params : content)
    : M St Api.Error (option object) :=
  let roomID := trimString (get params "room_id") in
  if str_empty roomID then ret None
  else match Remote.roomServerFromMatrixRoomID (Remote.room_domain (node join)) roomID with
  | None => fail (Api.BadRequest "valid Matrix room_id is required")
  | Some roomServer =>
      if str_eqb roomServer (Remote.serverName (node join)) then ret None
      else
      let! ch := match Remote.publicJoinPreflightChannel pre roomID with
                 | Some ch => ret (Some ch)
                 | None => on_store (Remote.remotePublicChannelGet client (node join)
                             (trimString (get params "channel_id")) roomID params)
                 end in
      match ch with
      | None => fail (Api.StatusError 404 "channel not found")
      | Some ch => let! r := requestRemoteJoin roomServer roomID ch params in ret (Some r)
      end
  end.
End Service_.
End RetainedJoin.
