(* ===== verification/CapabilityLedger.v ===== *)
(** * The ledger of capability operations

    [internal/productcapability/operations.go]: the operations that an agent
    starts through the capability service, their states, the event stream of
    each and its watchers.  The ledger is in PostgreSQL ([durable]) or in the
    memory of the process.  A transaction of PostgreSQL is one step that has
    its whole effect or none: [outage] says which transactions fail, and the
    statements inside are written out.  [protojson] is taken to give back the
    event it was given. *)

From Stdlib Require Import Ascii String ZArith Lia.
From stdpp Require Import base tactics list gmap strings.
From S2P Require Import Prelude GoStrings GoCase Values Domain Policy Action Workflow Prepared.
Local Open Scope Z_scope.
Local Open Scope go_scope.

Module Ledger.

(** ** Data of the capability protocol *)

Inductive OperationState :=
| UNSPECIFIED | PENDING | RUNNING | COMPLETED | FAILED | CANCELLED | UNCERTAIN.
#[global] Instance OperationState_eq_dec : EqDecision OperationState.
Proof. solve_decision. Defined.

Inductive ErrorCode :=
| INVALID_ARGUMENT | TRUST_FAILED | PERMISSION_DENIED | NOT_FOUND | CONFLICT | NOT_READY
| UNAVAILABLE | RESOURCE_EXHAUSTED | CYCLE_DETECTED | PRECONDITION_FAILED | UPSTREAM_FAILED.
#[global] Instance ErrorCode_eq_dec : EqDecision ErrorCode.
Proof. solve_decision. Defined.

(** The name of a code, [Code.String()]. *)
Definition code_text (c : ErrorCode) : string :=
  match c with
  | INVALID_ARGUMENT => "ERROR_CODE_INVALID_ARGUMENT"
  | TRUST_FAILED => "ERROR_CODE_TRUST_FAILED"
  | PERMISSION_DENIED => "ERROR_CODE_PERMISSION_DENIED"
  | NOT_FOUND => "ERROR_CODE_NOT_FOUND"
  | CONFLICT => "ERROR_CODE_CONFLICT"
  | NOT_READY => "ERROR_CODE_NOT_READY"
  | UNAVAILABLE => "ERROR_CODE_UNAVAILABLE"
  | RESOURCE_EXHAUSTED => "ERROR_CODE_RESOURCE_EXHAUSTED"
  | CYCLE_DETECTED => "ERROR_CODE_CYCLE_DETECTED"
  | PRECONDITION_FAILED => "ERROR_CODE_PRECONDITION_FAILED"
  | UPSTREAM_FAILED => "ERROR_CODE_UPSTREAM_FAILED"
  end.

Record CapabilityError := capabilityError { ce_Code : ErrorCode; ce_Message : string }.
#[global] Instance CapabilityError_eq_dec : EqDecision CapabilityError.
Proof. solve_decision. Defined.

(** [WatchOperationEvent] and its payload. *)
Inductive payload :=
| Accepted (state : OperationState)
| Progress (state error_code error_message : string)
| ResultEvent (json : string)
| ErrorEvent (e : CapabilityError)
| CancelledEvent (reason : string).

Record WatchOperationEvent := {
  we_OperationId : string;
  we_Sequence : Z;
  we_TimestampUnixMs : Z;
  we_Event : payload;
}.

Definition set_Sequence (n : Z) (e : WatchOperationEvent) : WatchOperationEvent :=
  {| we_OperationId := we_OperationId e; we_Sequence := n;
     we_TimestampUnixMs := we_TimestampUnixMs e; we_Event := we_Event e |}.

Definition isTerminalEvent (e : WatchOperationEvent) : bool :=
  match we_Event e with
  | ResultEvent _ | ErrorEvent _ | CancelledEvent _ => true
  | Accepted _ | Progress _ _ _ => false
  end.

(** ** Records *)

Record operationRecord := {
  ID : string;
  Capability : string;
  Operation : string;
  OwnerID : string;
  Generation : Z;
  RootDigest : string;
  Digest : string;
  State : OperationState;
  Result : string;
  Err_ : option CapabilityError;
  Revision : Z;
  UpdatedAt : Z;
  Created : bool;
}.

Definition set_State (state : OperationState) (result : string) (e : option CapabilityError)
    (revision time : Z) (r : operationRecord) : operationRecord :=
  {| ID := ID r; Capability := Capability r; Operation := Operation r; OwnerID := OwnerID r;
     Generation := Generation r; RootDigest := RootDigest r; Digest := Digest r;
     State := state; Result := result; Err_ := e; Revision := revision; UpdatedAt := time;
     Created := Created r |}.

Definition set_Created (v : bool) (r : operationRecord) : operationRecord :=
  {| ID := ID r; Capability := Capability r; Operation := Operation r; OwnerID := OwnerID r;
     Generation := Generation r; RootDigest := RootDigest r; Digest := Digest r;
     State := State r; Result := Result r; Err_ := Err_ r; Revision := Revision r;
     UpdatedAt := UpdatedAt r; Created := v |}.

Definition operationStateString (state : OperationState) : string :=
  match state with
  | UNSPECIFIED => "unspecified" | PENDING => "pending" | RUNNING => "running"
  | COMPLETED => "completed" | FAILED => "failed" | CANCELLED => "cancelled"
  | UNCERTAIN => "uncertain"
  end.

Definition operationStateFromString (state : string) : OperationState :=
  let s := to_lower state in
  if str_eqb s "pending" then PENDING
  else if str_eqb s "running" then RUNNING
  else if str_eqb s "completed" then COMPLETED
  else if str_eqb s "failed" then FAILED
  else if str_eqb s "cancelled" then CANCELLED
  else if str_eqb s "uncertain" then UNCERTAIN
  else UNSPECIFIED.

Definition operationStateTerminal (state : OperationState) : bool :=
  match state with
  | COMPLETED | FAILED | CANCELLED => true
  | _ => false
  end.

(** The fence of a retry: same capability, operation, owner, generation and
    business digest. *)
Definition operationMatches (existing requested : operationRecord) : bool :=
  let root r := if str_empty (RootDigest r) then Digest r else RootDigest r in
  str_eqb (Capability existing) (Capability requested) &&
  str_eqb (Operation existing) (Operation requested) &&
  str_eqb (OwnerID existing) (OwnerID requested) &&
  (Generation existing =? Generation requested) && str_eqb (root existing) (root requested).

Definition isPreparedMatrixMutation (capabilityID operationID : string) : bool :=
  let c := trim_space capabilityID in
  let o := trim_space operationID in
  str_eqb c "product.messages.v1" && str_eqb o "send" ||
  str_eqb c "product.channel_comments.v1" && str_eqb o "create" ||
  str_eqb c "product.spi.messages_send.v1" && str_eqb o "invoke" ||
  str_eqb c "product.spi.channel_comments_create.v1" && str_eqb o "invoke".

(** *** Events *)

Definition event_of (operationID : string) (time : Z) (p : payload) : WatchOperationEvent :=
  {| we_OperationId := operationID; we_Sequence := 0; we_TimestampUnixMs := time; we_Event := p |}.

Definition acceptedEvent : WatchOperationEvent := event_of "" 0 (Accepted PENDING).

Definition uncertainEvent (id : string) (e : option CapabilityError) (time : Z)
    : WatchOperationEvent :=
  event_of id time (match e with
                    | Some e => Progress "uncertain" (code_text (ce_Code e)) (ce_Message e)
                    | None => Progress "uncertain" "" ""
                    end).

Definition terminalEvent (result : string) (e : option CapabilityError) : WatchOperationEvent :=
  event_of "" 0 (match e with Some e => ErrorEvent e | None => ResultEvent result end).

Definition cancelledEvent (id : string) (time : Z) : WatchOperationEvent :=
  event_of id time (CancelledEvent "cancelled by caller").

(** ** The state *)

(** A row of [p2p_capability_operations]. *)
Record row := {
  row_id : string;
  row_capability : string;
  row_operation : string;
  row_owner : string;
  row_generation : Z;
  row_root_digest : string;
  row_digest : string;
  row_state : string;
  row_result : option string;
  row_error_code : string;
  row_error_message : string;
  row_revision : Z;
  row_updated_at : Z;
}.

(** A buffered channel: its capacity and what is in it. *)
Record watcher := {
  w_capacity : nat;
  w_queue : list WatchOperationEvent;
}.

(** The two tables and the fields of [operationStore]; [cancels] are the
    registered cancel functions, [interrupted] the calls of them. *)
Record store := {
  rows : gmap string row;
  logs : gmap string (list WatchOperationEvent);
  records : gmap string operationRecord;
  events : gmap string (list WatchOperationEvent);
  watchers : gmap string (list watcher);
  cancels : gset string;
  interrupted : list string;
}.

Definition set_rows v (s : store) : store :=
  {| rows := v; logs := logs s; records := records s; events := events s;
     watchers := watchers s; cancels := cancels s; interrupted := interrupted s |}.
Definition set_logs v (s : store) : store :=
  {| rows := rows s; logs := v; records := records s; events := events s;
     watchers := watchers s; cancels := cancels s; interrupted := interrupted s |}.
Definition set_records v (s : store) : store :=
  {| rows := rows s; logs := logs s; records := v; events := events s;
     watchers := watchers s; cancels := cancels s; interrupted := interrupted s |}.
Definition set_stream v ws (s : store) : store :=
  {| rows := rows s; logs := logs s; records := records s; events := v;
     watchers := ws; cancels := cancels s; interrupted := interrupted s |}.
Definition set_cancels v (s : store) : store :=
  {| rows := rows s; logs := logs s; records := records s; events := events s;
     watchers := watchers s; cancels := v; interrupted := interrupted s |}.
Definition set_interrupted v (s : store) : store :=
  {| rows := rows s; logs := logs s; records := records s; events := events s;
     watchers := watchers s; cancels := cancels s; interrupted := v |}.

Definition newOperationStore (rs : gmap string row) (ls : gmap string (list WatchOperationEvent))
    : store :=
  {| rows := rs; logs := ls; records := ∅; events := ∅; watchers := ∅; cancels := ∅;
     interrupted := [] |}.

Inductive lerror :=
| ErrNoRows
| errOperationConflict
| errOperationPrepared
| Failed (e : goerror).

Definition lerror_text (e : lerror) : string :=
  match e with
  | ErrNoRows => "sql: no rows in result set"
  | errOperationConflict => "operation id already exists with a different request or owner"
  | errOperationPrepared => "operation has a prepared Matrix mutation"
  | Failed e => error_text e
  end.

(** The staged Matrix events of operations: the cleanup, whose error is
    ignored, and the two probes a store may have. *)
Record PreparedStage (X : Type) := {
  DeleteMatrixPreparedEventByOperation : string -> X -> X;
  HasMatrixPreparedEventTx : option (string -> string -> Z -> string -> X -> result goerror bool);
  HasMatrixPreparedEvent : option (string -> string -> Z -> string -> X -> result goerror bool);
}.
Arguments DeleteMatrixPreparedEventByOperation {X}.
Arguments HasMatrixPreparedEventTx {X}.
Arguments HasMatrixPreparedEvent {X}.

(** ** Rows and records *)

Definition operation_row (r : operationRecord) (state : OperationState) (revision time : Z) : row :=
  {| row_id := ID r; row_capability := Capability r; row_operation := Operation r;
     row_owner := OwnerID r; row_generation := Generation r; row_root_digest := RootDigest r;
     row_digest := Digest r; row_state := operationStateString state; row_result := None;
     row_error_code := ""; row_error_message := ""; row_revision := revision;
     row_updated_at := time |}.

Definition scanOperationRow (w : row) : operationRecord :=
  {| ID := row_id w; Capability := row_capability w; Operation := row_operation w;
     OwnerID := row_owner w; Generation := row_generation w; RootDigest := row_root_digest w;
     Digest := row_digest w; State := operationStateFromString (row_state w);
     Result := default "" (row_result w);
     Err_ := if str_empty (row_error_code w) then None
             else Some (capabilityError UPSTREAM_FAILED (row_error_message w));
     Revision := row_revision w; UpdatedAt := row_updated_at w; Created := false |}.

(** [SET state = ..., result_json = ..., error_code = ..., error_message = ...,
    revision = revision + 1]. *)
Definition update_row (state : string) (res : option string) (code message : string) (time : Z)
    (w : row) : row :=
  {| row_id := row_id w; row_capability := row_capability w; row_operation := row_operation w;
     row_owner := row_owner w; row_generation := row_generation w;
     row_root_digest := row_root_digest w; row_digest := row_digest w; row_state := state;
     row_result := res; row_error_code := code; row_error_message := message;
     row_revision := row_revision w + 1; row_updated_at := time |}.

(** [AND state IN (...)] *)
Definition in_states (states : list string) (w : row) : bool :=
  bool_decide (row_state w ∈ states).

(** ** Operations *)

(** How a transaction ends: left without a commit, or committed with a new
    state. *)
Inductive tx (A : Type) :=
| Leave (r : result lerror A)
| Commit_ (s : store) (a : A).
Arguments Leave {A}.
Arguments Commit_ {A}.

(** What a commit does: it takes effect; it does not, and says so; it takes
    effect and the reply is lost. *)
Inductive commit := Committed | RolledBack (e : goerror) | Unreported (e : goerror).

Section Operations.
Context `{GoText} {X : Type}.
(** Whether there is a database; the staged Matrix events; the clock; commits;
    what others do between two statements that no lock holds together. *)
Context (durable : bool) (prepared : option (PreparedStage X)) (now : X -> Z).
Context (committing : X -> X * commit) (meanwhile : X -> store -> store).
Local Notation St := (store * X)%type.

Definition transaction {A} (body : store -> X -> tx A) : M St lerror A := fun st =>
  let '(s, x) := st in
  match body s x with
  | Leave r => ((s, x), r)
  | Commit_ s' a =>
      match committing x with
      | (x, Committed) => ((s', x), Ok a)
      | (x, RolledBack e) => ((s, x), Err (Failed e))
      | (x, Unreported e) => ((s', x), Err (Failed e))
      end
  end.

Definition update (f : store -> store) : M St lerror unit := run (fun st => (f st.1, st.2)).

(** *** Cancel functions *)

Definition registerCancel (operationID : string) : M St lerror unit :=
  if str_empty (trim_space operationID) then ret tt
  else update (fun s => set_cancels ({[operationID]} ∪ cancels s) s).

Definition clearCancel (operationID : string) : M St lerror unit :=
  update (fun s => set_cancels (cancels s ∖ {[operationID]}) s).

Definition cancelExecution (operationID : string) : M St lerror unit :=
  update (fun s => if bool_decide (operationID ∈ cancels s)
                   then set_interrupted (operationID :: interrupted s) s else s).

(** *** The event stream *)

Definition events_of (s : store) (operationID : string) : list WatchOperationEvent :=
  default [] (events s !! operationID).
Definition log_of (s : store) (operationID : string) : list WatchOperationEvent :=
  default [] (logs s !! operationID).

(** A send to a full channel is dropped. *)
Definition offer (e : WatchOperationEvent) (w : watcher) : watcher :=
  if (length (w_queue w) <? w_capacity w)%nat
  then {| w_capacity := w_capacity w; w_queue := w_queue w ++ [e] |} else w.

Definition cached (operationID : string) (e : WatchOperationEvent) (time : Z) (s : store)
    : WatchOperationEvent :=
  {| we_OperationId := if str_empty (we_OperationId e) then operationID else we_OperationId e;
     we_Sequence := if we_Sequence e =? 0 then Z.of_nat (length (events_of s operationID)) + 1
                    else we_Sequence e;
     we_TimestampUnixMs := if we_TimestampUnixMs e =? 0 then time else we_TimestampUnixMs e;
     we_Event := we_Event e |}.

Definition cache_event (operationID : string) (e : WatchOperationEvent) (time : Z) (s : store)
    : store :=
  let e := cached operationID e time s in
  set_stream (<[operationID := events_of s operationID ++ [e]]> (events s))
    (alter (map (offer e)) operationID (watchers s)) s.

Definition cacheEvent (operationID : string) (e : WatchOperationEvent) : M St lerror unit :=
  run (fun st => (cache_event operationID e (now st.2) st.1, st.2)).

Definition next_sequence (l : list WatchOperationEvent) : Z :=
  foldr Z.max 0 (map we_Sequence l) + 1.

(** Appends one event under the lock of its row; the event as stored. *)
Definition insertOperationEventTx (operationID : string) (e : WatchOperationEvent) (time : Z)
    (s : store) : result lerror (store * WatchOperationEvent) :=
  match rows s !! operationID with
  | None => Err ErrNoRows
  | Some _ =>
      let l := log_of s operationID in
      let e := {| we_OperationId := operationID; we_Sequence := next_sequence l;
                  we_TimestampUnixMs := if we_TimestampUnixMs e =? 0 then time
                                        else we_TimestampUnixMs e;
                  we_Event := we_Event e |} in
      Ok (set_logs (<[operationID := l ++ [e]]> (logs s)) s, e)
  end.

Definition committed_event (operationID : string) (e : WatchOperationEvent) (time : Z) (s : store)
    : tx WatchOperationEvent :=
  match insertOperationEventTx operationID e time s with
  | Err e => Leave (Err e)
  | Ok (s, e) => Commit_ s e
  end.

Definition emit (operationID : string) (e : WatchOperationEvent) : M St lerror unit :=
  let! e := if durable
            then transaction (fun s x => committed_event operationID e (now x) s)
            else ret e in
  cacheEvent operationID e.

Definition loadEvents (operationID : string) (after : Z) (s : store) : list WatchOperationEvent :=
  List.filter (fun e => after <? we_Sequence e) (log_of s operationID).

Definition eventCount (operationID : string) (s : store) : Z :=
  if durable then next_sequence (log_of s operationID) - 1
  else Z.of_nat (length (events_of s operationID)).

(** *** Starting *)

(** A row that is there already: the retry of the same request, or a conflict. *)
Definition replayed (w : row) (record : operationRecord) (s : store)
    : tx (operationRecord * option WatchOperationEvent) :=
  let existing := scanOperationRow w in
  if operationMatches existing record then Commit_ s (existing, None)
  else Leave (Err errOperationConflict).

(** [INSERT ... ON CONFLICT(operation_id) DO NOTHING] and the accepted event. *)
Definition insert_tx (record : operationRecord) (s : store) (x : X)
    : tx (operationRecord * option WatchOperationEvent) :=
  match rows s !! ID record with
  | Some w => replayed w record s
  | None =>
      let time := now x in
      let s := set_rows (<[ID record := operation_row record PENDING 1 time]> (rows s)) s in
      match insertOperationEventTx (ID record) acceptedEvent time s with
      | Err e => Leave (Err e)
      | Ok (s, e) =>
          Commit_ s (set_State PENDING (Result record) (Err_ record) 1 time
                       (set_Created true record), Some e)
      end
  end.

(** The row is looked up first; while there is none, another writer can insert
    it before this one does. *)
Definition start_durable (record : operationRecord)
    : M St lerror (operationRecord * option WatchOperationEvent) := fun st =>
  let '(s, x) := st in
  match rows s !! ID record with
  | Some w => transaction (fun s _ => replayed w record s) (s, x)
  | None => transaction (insert_tx record) (meanwhile x s, x)
  end.

Definition start (record : operationRecord) : M St lerror operationRecord :=
  if str_empty (ID record) || str_empty (RootDigest record) && str_empty (Digest record)
  then fail (Failed (ErrOther "operation id and request digest are required"))
  else if durable then
    let! (r, e) := start_durable record in
    let! _ := when_set e (cacheEvent (ID record)) in
    ret r
  else fun st =>
    let '(s, x) := st in
    match records s !! ID record with
    | Some existing =>
        if operationMatches existing record then (st, Ok (set_Created false existing))
        else (st, Err errOperationConflict)
    | None =>
        let record := set_State PENDING (Result record) (Err_ record) 1 (now x)
                        (set_Created true record) in
        (let! _ := update (fun s => set_records (<[ID record := record]> (records s)) s) in
         let! _ := emit (ID record) acceptedEvent in
         ret record) st
    end.

Definition get_ (operationID : string) (s : store) : result lerror operationRecord :=
  if durable then
    match rows s !! operationID with
    | Some w => Ok (scanOperationRow w)
    | None => Err ErrNoRows
    end
  else match records s !! operationID with
       | Some r => Ok r
       | None => Err ErrNoRows
       end.

(** *** Taking over an uncertain operation *)

Definition claimReplay (operationID : string) : M St lerror bool :=
  if str_empty (trim_space operationID) then fail (Failed (ErrOther "operation id is required"))
  else if durable then
    transaction (fun s x =>
      match rows s !! operationID with
      | Some w =>
          if in_states ["uncertain"] w
          then Commit_ (set_rows (<[operationID := update_row "running" (row_result w)
                 (row_error_code w) (row_error_message w) (now x) w]> (rows s)) s) true
          else Commit_ s false
      | None => Commit_ s false
      end)
  else fun st =>
    let '(s, x) := st in
    match records s !! operationID with
    | Some r =>
        if bool_decide (State r = UNCERTAIN)
        then ((set_records (<[operationID := set_State RUNNING (Result r) (Err_ r) (Revision r + 1)
                              (now x) r]> (records s)) s, x), Ok true)
        else (st, Ok false)
    | None => (st, Ok false)
    end.

(** *** Finishing *)

Definition delete_prepared (operationID : string) : M St lerror unit :=
  run (fun st => match prepared with
                 | Some p => (st.1, DeleteMatrixPreparedEventByOperation p operationID st.2)
                 | None => st
                 end).

(** [CASE WHEN $2 = '' THEN NULL ELSE $2::jsonb END] *)
Definition to_jsonb (result_ : string) : result lerror (option string) :=
  if str_empty result_ then Ok None
  else if ValidJSON result_ then Ok (Some (jsonb result_))
  else Err (Failed (ErrOther "invalid input syntax for type json")).

Definition live_states : list string := ["pending"; "running"; "uncertain"].

(** [UPDATE ... WHERE operation_id = $ AND state IN (...)] *)
Definition update_in (states : list string) (f : row -> row) (operationID : string) (s : store)
    : store :=
  set_rows (alter (fun w => if in_states states w then f w else w) operationID (rows s)) s.

Definition finish_tx (operationID result_ : string) (e : option CapabilityError) (s : store) (x : X)
    : tx (option WatchOperationEvent) :=
  match rows s !! operationID with
  | None => Leave (Ok None)
  | Some w =>
      if operationStateTerminal (operationStateFromString (row_state w)) then Commit_ s None
      else
        let state := operationStateString (match e with Some _ => FAILED | None => COMPLETED end) in
        let code := match e with Some e => code_text (ce_Code e) | None => "" end in
        let message := match e with Some e => ce_Message e | None => "" end in
        match to_jsonb result_ with
        | Err err => Leave (Err err)
        | Ok json =>
            let s := update_in live_states (update_row state json code message (now x)) operationID s in
            match insertOperationEventTx operationID (terminalEvent result_ e) (now x) s with
            | Err err => Leave (Err err)
            | Ok (s, event) => Commit_ s (Some event)
            end
        end
  end.

Definition finish (operationID result_ : string) (e : option CapabilityError) : M St lerror unit :=
  if durable then
    let! event := transaction (finish_tx operationID result_ e) in
    match event with
    | None => ret tt
    | Some event =>
        let! _ := delete_prepared operationID in
        cacheEvent operationID event
    end
  else fun st =>
    let '(s, x) := st in
    match records s !! operationID with
    | None => (st, Err ErrNoRows)
    | Some r =>
        if operationStateTerminal (State r) then (st, Ok tt)
        else
          let r := set_State (match e with Some _ => FAILED | None => COMPLETED end) result_ e
                     (Revision r + 1) (now x) r in
          (let! _ := update (fun s => set_records (<[operationID := r]> (records s)) s) in
           let! _ := delete_prepared operationID in
           emit operationID (terminalEvent result_ e)) st
    end.

(** *** Uncertain outcomes *)

Definition unknown_acceptance : CapabilityError :=
  capabilityError UPSTREAM_FAILED "Matrix event acceptance is unknown".

Definition uncertain_tx (operationID : string) (e : CapabilityError) (s : store) (x : X)
    : tx (option WatchOperationEvent) :=
  match rows s !! operationID with
  | None => Leave (Err ErrNoRows)
  | Some w =>
      if operationStateTerminal (operationStateFromString (row_state w)) then Commit_ s None
      else
        let s := update_in live_states (fun w => update_row "uncertain" (row_result w)
                   (code_text (ce_Code e)) (ce_Message e) (now x) w) operationID s in
        match insertOperationEventTx operationID (uncertainEvent operationID (Some e) (now x))
                (now x) s with
        | Err err => Leave (Err err)
        | Ok (s, event) => Commit_ s (Some event)
        end
  end.

Definition markUncertain (operationID : string) (e : option CapabilityError) : M St lerror unit :=
  if str_empty (trim_space operationID) then fail ErrNoRows
  else
  let e := default unknown_acceptance e in
  if durable then
    let! event := transaction (uncertain_tx operationID e) in
    when_set event (cacheEvent operationID)
  else fun st =>
    let '(s, x) := st in
    match records s !! operationID with
    | None => (st, Err ErrNoRows)
    | Some r =>
        if operationStateTerminal (State r) then (st, Ok tt)
        else
          let r := set_State UNCERTAIN (Result r) (Some e) (Revision r + 1) (now x) r in
          (let! _ := update (fun s => set_records (<[operationID := r]> (records s)) s) in
           emit operationID (uncertainEvent operationID (Some e) (now x))) st
    end.

(** *** Cancelling *)

(** Whether a staged Matrix event stands in the way of a cancellation. *)
Definition preparedMatrixPresent (r : operationRecord) (x : X) : result goerror bool :=
  match prepared with
  | None => Ok false
  | Some p =>
      if negb (isPreparedMatrixMutation (Capability r) (Operation r)) then Ok false
      else if negb durable then Ok true
      else match HasMatrixPreparedEventTx p with
           | Some probe => probe (ID r) (OwnerID r) (Generation r) (RootDigest r) x
           | None =>
               match HasMatrixPreparedEvent p with
               | Some probe => probe (ID r) (OwnerID r) (Generation r) (RootDigest r) x
               | None => Ok true
               end
           end
  end.

Definition cancel_tx (operationID : string) (s : store) (x : X)
    : tx (option WatchOperationEvent) :=
  match rows s !! operationID with
  | None => Leave (Err ErrNoRows)
  | Some w =>
      if operationStateTerminal (operationStateFromString (row_state w)) ||
         str_eqb (row_state w) "uncertain" then Commit_ s None
      else match preparedMatrixPresent (scanOperationRow w) x with
           | Err e => Leave (Err (Failed e))
           | Ok true => Leave (Err errOperationPrepared)
           | Ok false =>
               let s := update_in ["pending"; "running"] (fun w => update_row "cancelled"
                          (row_result w) (row_error_code w) (row_error_message w) (now x) w)
                          operationID s in
               match insertOperationEventTx operationID (cancelledEvent operationID (now x)) (now x) s with
               | Err err => Leave (Err err)
               | Ok (s, event) => Commit_ s (Some event)
               end
           end
  end.

Definition cancel (operationID : string) : M St lerror unit :=
  if durable then
    let! event := transaction (cancel_tx operationID) in
    match event with
    | None => fail ErrNoRows
    | Some event =>
        let! _ := cancelExecution operationID in
        let! _ := delete_prepared operationID in
        cacheEvent operationID event
    end
  else fun st =>
    let '(s, x) := st in
    match records s !! operationID with
    | None => (st, Err ErrNoRows)
    | Some r =>
        if operationStateTerminal (State r) || bool_decide (State r = UNCERTAIN)
        then (st, Err ErrNoRows)
        else match preparedMatrixPresent r x with
             | Err e => (st, Err (Failed e))
             | Ok true => (st, Err errOperationPrepared)
             | Ok false =>
                 let r := set_State CANCELLED (Result r) (Err_ r) (Revision r + 1) (now x) r in
                 (let! _ := update (fun s => set_records (<[operationID := r]> (records s)) s) in
                  let! _ := cancelExecution operationID in
                  let! _ := delete_prepared operationID in
                  emit operationID (cancelledEvent operationID (now x))) st
             end
    end.

(** *** Watching *)

(** The events to send first: the stored ones, then those only cached. *)
Definition initial_events (after : Z) (stored cached : list WatchOperationEvent)
    : list WatchOperationEvent :=
  foldl (fun l e => if (after <? we_Sequence e) && negb (bool_decide (we_Sequence e ∈ map we_Sequence l))
                    then l ++ [e] else l) stored cached.

(** The stored events are read before the lock of the cache is taken: others
    store and cache events in between. *)
Definition watch (operationID : string) (after : Z) : M St lerror watcher :=
  let! _ := reads (fun st => get_ operationID st.1) in
  fun st =>
    let stored := if durable then loadEvents operationID after st.1 else [] in
    let s := meanwhile st.2 st.1 in
    let initial := initial_events after stored (events_of s operationID) in
    let w := {| w_capacity := (length initial + 16)%nat; w_queue := initial |} in
    ((set_stream (events s)
        (<[operationID := default [] (watchers s !! operationID) ++ [w]]> (watchers s)) s,
      st.2), Ok w).

(** *** The publications of the group agent

    Another writer of the same table, [p2p/storage/storage_group_agent.go]: a
    publication has a row without events of its own, and is completed without
    one when the request it answers is updated. *)

Definition publication_capability : string := "product.group_agent.v1".

Definition publication_row (id owner : string) (generation : Z) (digest : string) (time : Z) : row :=
  {| row_id := id; row_capability := publication_capability; row_operation := "publish";
     row_owner := owner; row_generation := generation; row_root_digest := digest;
     row_digest := digest; row_state := "running"; row_result := None; row_error_code := "";
     row_error_message := ""; row_revision := 1; row_updated_at := time |}.

(** [INSERT ... ON CONFLICT DO NOTHING] *)
Definition insert_publication (id owner : string) (generation : Z) (digest : string) (time : Z)
    (s : store) : store :=
  match rows s !! id with
  | Some _ => s
  | None => set_rows (<[id := publication_row id owner generation digest time]> (rows s)) s
  end.

(** [Ok false] is [ErrGroupAgentConflict]. *)
Definition AdmitGroupAgentPublication (id owner : string) (generation : Z) (digest : string)
    : M St lerror bool :=
  if negb (byte_len digest =? 32) then ret false
  else
    let! _ := transaction (fun s x =>
                Commit_ (insert_publication id owner generation digest (now x) s) tt) in
    fun st =>
      let s := meanwhile st.2 st.1 in
      ((s, st.2), match rows s !! id with
                  | None => Err ErrNoRows
                  | Some w => Ok (str_eqb (row_capability w) publication_capability &&
                                  str_eqb (row_operation w) "publish" &&
                                  str_eqb (row_owner w) owner && (row_generation w =? generation) &&
                                  str_eqb (row_root_digest w) digest)
                  end).

(** [UPDATE p2p_capability_operations SET state='completed', updated_at=NOW()]
    of the publications whose staged event of the request is sent. *)
Definition complete_publications (sent : string -> bool) (time : Z) (s : store) : store :=
  set_rows (map_imap (fun id w => Some
    (if str_eqb (row_capability w) publication_capability && sent id
     then {| row_id := row_id w; row_capability := row_capability w; row_operation := row_operation w;
             row_owner := row_owner w; row_generation := row_generation w;
             row_root_digest := row_root_digest w; row_digest := row_digest w;
             row_state := "completed"; row_result := row_result w;
             row_error_code := row_error_code w; row_error_message := row_error_message w;
             row_revision := row_revision w; row_updated_at := time |}
     else w)) (rows s)) s.

(** *** A restart

    The process is gone with its memory; every row in flight becomes uncertain
    in one transaction, with its event. *)

Definition in_flight (s : store) : list string :=
  map fst (List.filter (fun kw => in_states ["pending"; "running"] kw.2) (map_to_list (rows s))).

Definition restarted_error : CapabilityError :=
  capabilityError UPSTREAM_FAILED "operation was in flight when message-server restarted".

Fixpoint fence (ids : list string) (time : Z) (s : store) (done : list (string * WatchOperationEvent))
    : tx (list (string * WatchOperationEvent)) :=
  match ids with
  | [] => Commit_ s done
  | id :: ids =>
      let s := update_in ["pending"; "running"] (fun w => update_row "uncertain" (row_result w)
                 "SERVICE_RESTARTED" "operation was in flight when message-server restarted"
                 time w) id s in
      match insertOperationEventTx id (uncertainEvent id (Some restarted_error) time) time s with
      | Err e => Leave (Err e)
      | Ok (s, event) => fence ids time s (done ++ [(id, event)])
      end
  end.

(** [ensureSchema] with the tables in place. *)
Definition ensureSchema : M St lerror unit :=
  if negb durable then ret tt
  else
    let! fenced := transaction (fun s x => fence (in_flight s) (now x) s []) in
    for_each (fun ie => cacheEvent ie.1 ie.2) fenced.
End Operations.
End Ledger.
