(* ===== verification/CapabilityServer.v ===== *)
(** * The product capability service

    [internal/productcapability]: the registry of capabilities
    ([registry.go]), the check of a request against the schema of its
    operation ([schema_validation.go]), the digests, permissions and control
    grants of a call ([handlers.go]), and the private channels of the group
    agent and of execution completions ([group_agent.go],
    [agent_execution_completion.go]).  The calls themselves and the
    authentication of the peer ([server.go]) are in [CapabilityCalls].

    The protocol library ([capv1]: digests, signed grants, canonical JSON and
    routes) is the class [Capv1]; the ledger is [CapabilityLedger]. *)

From Stdlib Require Import Ascii String ZArith Lia.
From stdpp Require Import base tactics list gmap strings.
From S2P Require Import Prelude GoStrings GoCase Values GoSha256 Domain GoTime GoTimeParse Policy.
From S2P Require Import Action Workflow.
From S2P Require Import RemotePublic Prepared ChannelBackfill MessagePages GroupAgent CapabilityLedger.
Local Open Scope Z_scope.
Local Open Scope go_scope.

Module Capability.
Import Ledger.

(** ** Messages of the protocol *)

Inductive OperationType := TYPE_UNSPECIFIED | READ | MUTATION.
#[global] Instance OperationType_eq_dec : EqDecision OperationType.
Proof. solve_decision. Defined.

Inductive TargetKind := QUERY | START_OPERATION.
#[global] Instance TargetKind_eq_dec : EqDecision TargetKind.
Proof. solve_decision. Defined.

Record OperationDescriptor := {
  OperationId : string;
  OperationType_ : OperationType;
  RequiredScopes : list string;
  InputSchemaJson : string;
  MaxRequestSizeBytes : Z;
}.

Record CapabilityDescriptor := {
  CapabilityId : string;
  ProtocolVersion : Z;
  SemanticVersion : string;
  Readiness : bool;
  ReadinessReason : string;
  Operations : list OperationDescriptor;
}.

Record CallContext := {
  ChainId : string;
  RootOperationId : string;
  Route : string;
  Hop : Z;
  ParentCallId : string;
  DeadlineUnixMs : Z;
}.

Record PermissionContext := {
  AuthenticatedOwnerId : string;
  GrantedScopes : list string;
  CapabilityGrant : string;
  AccountGeneration : Z;
  RootRequestDigest : string;
}.

(** What a grant for a product operation is bound to. *)
Record ProductGrantBinding := {
  pb_CallContext : CallContext;
  pb_RootOperationID : string;
  pb_ChildOperationID : string;
  pb_OwnerID : string;
  pb_AccountGeneration : Z;
  pb_RequiredScopes : list string;
  pb_CapabilityID : string;
  pb_Operation : string;
  pb_TargetKind : TargetKind;
  pb_RootRequestDigest : string;
  pb_CatalogDigest : string;
  pb_SchemaDigest : string;
}.

Record RootGrantBinding := {
  rb_CallContext : CallContext;
  rb_RootOperationID : string;
  rb_OwnerID : string;
  rb_AccountGeneration : Z;
  rb_RootRequestDigest : string;
  rb_RequiredScopes : list string;
}.

Record OperationControlGrantBinding := {
  cb_CallContext : CallContext;
  cb_OwnerID : string;
  cb_AccountGeneration : Z;
  cb_OperationID : string;
  cb_ControlAction : string;
  cb_ControlScope : string;
}.

Record OperationControlGrant := {
  cg_ChainID : string;
  cg_OwnerID : string;
  cg_AccountGeneration : Z;
  cg_OperationID : string;
  cg_ControlAction : string;
  cg_ControlScope : string;
  cg_EntryRoute : string;
  cg_EntryHop : Z;
  cg_DeadlineUnixMs : Z;
}.

Record Claims := {
  cl_OwnerID : string;
  cl_AccountGeneration : Z;
  cl_Scopes : list string;
  cl_RootCapabilityID : string;
  cl_RootOperation : string;
  cl_CatalogDigest : string;
  cl_SchemaDigest : string;
  cl_ExpiresAtUnixMs : Z;
}.

Record ProductDelegationIssue := {
  di_ParentClaims : Claims;
  di_CallContext : CallContext;
  di_ChildOperationID : string;
  di_CapabilityID : string;
  di_Operation : string;
  di_RequiredScopes : list string;
  di_TargetKind : TargetKind;
  di_RootRequestDigest : string;
  di_CatalogDigest : string;
  di_SchemaDigest : string;
}.

Record ControlEnvelope := {
  env_Action : string;
  env_Grant : string;
  env_ExpiresAtUnixMs : Z;
}.

Record QueryRequest := {
  q_CapabilityId : string;
  q_OperationId : string;
  q_RequestJson : string;
  q_Permission : option PermissionContext;
  q_CallContext : option CallContext;
}.

Record StartOperationRequest := {
  so_CapabilityId : string;
  so_Operation : string;
  so_OperationId : string;
  so_RequestJson : string;
  so_RequestDigest : string;
  so_ExpectedRevision : Z;
  so_Permission : option PermissionContext;
  so_CallContext : option CallContext;
}.

(** [GetOperation], [CancelOperation], [ReconcileOperation] and, with a
    sequence number, [WatchOperation]. *)
Record ControlRequest := {
  c_OperationId : string;
  c_Permission : option PermissionContext;
  c_CallContext : option CallContext;
  c_AfterSequence : Z;
}.

Record ExchangeRequest := {
  x_CapabilityId : string;
  x_Operation : string;
  x_RequestJson : string;
  x_ExpectedRevision : Z;
  x_ParentPermission : option PermissionContext;
  x_CallContext : option CallContext;
  x_ChildOperationId : string;
  x_TargetKind : TargetKind;
}.

Record StartOperationResponse := {
  r_OperationId : string;
  r_State : OperationState;
  r_Error : option CapabilityError;
  r_Replayed : bool;
  r_ControlGrants : list ControlEnvelope;
}.

(** The codes of [status.Error]. *)
Inductive code :=
| InvalidArgument_ | Unauthenticated | PermissionDenied | NotFound_ | AlreadyExists | Unavailable_
| ResourceExhausted_ | FailedPrecondition | DeadlineExceeded | Internal_.

Record status := status_ { st_Code : code; st_Message : string }.

Definition grpcCodeForCapability (c : ErrorCode) : code :=
  match c with
  | INVALID_ARGUMENT => InvalidArgument_
  | TRUST_FAILED => Unauthenticated
  | PERMISSION_DENIED => PermissionDenied
  | NOT_FOUND => NotFound_
  | CONFLICT => AlreadyExists
  | NOT_READY | UNAVAILABLE => Unavailable_
  | RESOURCE_EXHAUSTED => ResourceExhausted_
  | CYCLE_DETECTED | PRECONDITION_FAILED => FailedPrecondition
  | UPSTREAM_FAILED => Internal_
  end.

Definition as_status (e : CapabilityError) : status :=
  status_ (grpcCodeForCapability (ce_Code e)) (ce_Message e).

(** The incoming metadata of a call. *)
Abbreviation metadata := (gmap string (list string)).

(** What the metadata of a call says about its caller. *)
Record CapabilityMetadata := {
  cm_Token : string;
  cm_InstanceID : string;
  cm_AccountGeneration : Z;
}.

Definition firstMetadata (md : metadata) (key : string) : string :=
  match md !! key with Some (v :: _) => v | _ => "" end.

(** ** The protocol library *)

Class Capv1 := {
  NodeMessage : string;
  NodeAgent : string;
  NodeProduct : string;
  RouteSeparator : string;
  route_parts : string -> list string;
  CapabilityAuthorizationMetadata : string;
  CapabilityInstanceMetadata : string;
  CapabilityGenerationMetadata : string;
  ParseCapabilityMetadata : metadata -> result goerror CapabilityMetadata;
  FormatCapabilityToken : string -> option goerror;
  ValidateOperationID : string -> option goerror;
  CanonicalizeJSON : string -> result goerror string;
  ParseBusinessInput : string -> result goerror any;
  ComputeRootRequestDigest :
    Z -> string -> string -> string -> string -> Z -> any -> result goerror string;
  ComputeRequestDigest :
    Z -> string -> string -> string -> string -> Z -> any -> string -> result goerror string;
  marshal_descriptor : CapabilityDescriptor -> option string;
  ValidateProductDelegationExchangeRequest : ExchangeRequest -> option goerror;
  VerifyProductDelegationGrant : string -> string -> Z -> ProductGrantBinding -> result goerror Claims;
  VerifyProductDelegationParent : string -> string -> Z -> RootGrantBinding -> result goerror Claims;
  SignProductDelegationFromParent : ProductDelegationIssue -> string -> result goerror string;
  VerifyProductOperationControlGrant :
    string -> string -> Z -> OperationControlGrantBinding -> result goerror Claims;
  SignOperationControlGrant : OperationControlGrant -> string -> result goerror string;
  ValidateOperationControlGrantEnvelopes : list ControlEnvelope -> Z -> option goerror;
  ValidateCallContext : CallContext -> option goerror;
  ValidateAndAdvanceProductCallContext : CallContext -> result goerror CallContext;
}.

(** The receipt of a terminal agent execution. *)
Record AgentExecutionCompletionReceipt := {
  ec_EventID : string;
  ec_ExecutionID : string;
  ec_RunID : string;
  ec_ConversationID : string;
  ec_TurnID : string;
  ec_TerminalState : string;
  ec_CompletedAt : string;
  ec_PayloadDigest : string;
  ec_OwnerID : string;
  ec_AccountGeneration : Z;
}.

(** JSON: a value decoded with [UseNumber] from the front of a text, whether a
    number is a [float64], the envelope of an operation and its input, a string
    and a reply of the group agent as texts, and a receipt decoded with unknown
    fields refused.  [google/uuid]: the canonical text of a UUID. *)
Class CapabilityText := {
  decode_use_number : string -> option any;
  is_float64 : string -> bool;
  wrap_input : string -> string -> result goerror string;
  json_string : string -> string;
  parse_uuid : string -> option string;
  reply_json : AgentService.reply -> result goerror string;
  decodeAgentExecutionCompletion : string -> result goerror AgentExecutionCompletionReceipt;
}.

(** ** Scopes *)

Definition sameStrings (left right : list string) : bool :=
  bool_decide (stable_sort str_ltb left = stable_sort str_ltb right).

(** One granted scope against one required scope, both trimmed. *)
Definition scope_matches (candidate requirement : string) : bool :=
  str_eqb candidate requirement || str_eqb candidate "*" || str_eqb candidate "product:*" ||
  Remote.has_suffix candidate ":*" &&
    has_prefix requirement (substring 0 (String.length candidate - 1) candidate) ||
  has_prefix requirement "product:" &&
    (str_eqb candidate "agent:read" && Remote.has_suffix requirement ":read" ||
     str_eqb candidate "agent:write" && Remote.has_suffix requirement ":write").

Definition scopesAllow (granted required : list string) : bool :=
  forallb (fun requirement =>
    existsb (fun candidate => scope_matches (trim_space candidate) (trim_space requirement)) granted)
    required.

(** ** The schema of an operation *)

Section Schema.
Context `{GoRange} `{GoText} `{CapabilityText}.

Definition quoted (before name after : string) : goerror :=
  ErrOther (before +:+ Quote name +:+ after).

Definition forged_keys : list string :=
  ["owner_id"; "owner_mxid"; "authenticated_owner_id"; "sender"; "sender_mxid"; "account_generation"].

Definition rejectForgedIdentity (params : content) : option goerror :=
  match first_match (fun key => bool_decide (to_lower (trim_space key) ∈ forged_keys))
          (map fst (go_range params)) with
  | Some key => Some (quoted "request field " key " is server-derived")
  | None => None
  end.

Definition jsonSchemaTypeMatches (expected : string) (value : any) : bool :=
  if str_eqb expected "string" then match value with AString _ => true | _ => false end
  else if str_eqb expected "boolean" then match value with ABool _ => true | _ => false end
  else if str_eqb expected "number" then
    match value with ANumber text => is_float64 text | _ => false end
  else if str_eqb expected "integer" then
    match value with
    | ANumber text => match parse_int_strict text with Some _ => true | None => false end
    | _ => false
    end
  else if str_eqb expected "object" then match value with AMap _ => true | _ => false end
  else if str_eqb expected "array" then match value with AList _ => true | _ => false end
  else if str_eqb expected "null" then match value with ANil => true | _ => false end
  else true.

Definition jsonSchemaEnumMatches (allowed : list any) (value : any) : bool :=
  match Marshal value with
  | None => false
  | Some actual => existsb (fun candidate => match Marshal candidate with
                                             | Some expected => str_eqb actual expected
                                             | None => false
                                             end) allowed
  end.

Definition any_map (v : any) : option content :=
  match v with AMap entries => Some (object_map entries) | _ => None end.

(** The first required field that is missing. *)
Definition missing_required (schema input : content) : option goerror :=
  match get schema "required" with
  | AList required =>
      match first_match (fun v => match v with
                                  | AString name => negb (str_empty (trim_space name)) &&
                                      negb (bool_decide (is_Some (input !! name)))
                                  | _ => false
                                  end) required with
      | Some (AString name) => Some (quoted "required field " name " is missing")
      | _ => None
      end
  | _ => None
  end.

(** What is wrong with one field. *)
Definition field_error (schema : content) (name : string) (value : any) : option goerror :=
  let properties := default ∅ (any_map (get schema "properties")) in
  match any_map (get properties name) with
  | None =>
      match get schema "additionalProperties" with
      | ABool false => Some (quoted "field " name " is not allowed")
      | _ => None
      end
  | Some property =>
      let expected := match get property "type" with AString s => s | _ => "" end in
      if negb (str_empty expected) && negb (jsonSchemaTypeMatches expected value)
      then Some (quoted "field " name " has invalid type")
      else match get property "enum" with
           | AList allowed =>
               if jsonSchemaEnumMatches allowed value then None
               else Some (quoted "field " name " has an unsupported value")
           | _ => None
           end
  end.

Fixpoint first_error {A} (f : A -> option goerror) (l : list A) : option goerror :=
  match l with
  | [] => None
  | x :: l => match f x with Some e => Some e | None => first_error f l end
  end.

Definition validateOperationInput (operation : OperationDescriptor) (raw : string)
    : option goerror :=
  let max := if MaxRequestSizeBytes operation <=? 0 then 1048576 else MaxRequestSizeBytes operation in
  if max <? byte_len raw then Some (ErrOther "request exceeds operation size limit")
  else
  let raw := if str_empty (trim_space raw) then "{}" else raw in
  match decode_use_number raw with
  | Some (AMap entries) =>
      let input := object_map entries in
      match rejectForgedIdentity input with
      | Some e => Some e
      | None =>
          match Unmarshal (InputSchemaJson operation) with
          | Some (AMap schema) =>
              let schema := object_map schema in
              match missing_required schema input with
              | Some e => Some e
              | None => first_error (fun kv => field_error schema kv.1 kv.2) (go_range input)
              end
          | Some ANil => first_error (fun kv => field_error ∅ kv.1 kv.2) (go_range input)
          | _ => Some (ErrOther "operation input schema is invalid")
          end
      end
  | _ => Some (ErrOther "request_json must be a JSON object")
  end.
End Schema.

(** ** The registry *)

Record Provider (X : Type) := {
  Descriptor : CapabilityDescriptor;
  Handler : option CapabilityOperationContext -> string -> M X merror string;
}.
Arguments Descriptor {X}.
Arguments Handler {X}.

Abbreviation Registry X := (gmap string (Provider X)).

Definition Register `{GoText} {X} (provider : option (Provider X)) (r : Registry X)
    : result goerror (Registry X) :=
  match provider with
  | None => Err (ErrOther "provider, descriptor and handler are required")
  | Some p =>
      let id := CapabilityId (Descriptor p) in
      if str_empty id then Err (ErrOther "capability_id is required")
      else if bool_decide (is_Some (r !! id))
      then Err (ErrOther ("capability " +:+ Quote id +:+ " is already registered"))
      else Ok (<[id := p]> r)
  end.

Definition List_ `{GoRange} {X} (r : Registry X) : list CapabilityDescriptor :=
  map Descriptor (go_values r).

Definition Operation_ {X} (r : Registry X) (capabilityID operationID : string)
    : option OperationDescriptor :=
  match r !! capabilityID with
  | None => None
  | Some p => first_match (fun o => str_eqb (OperationId o) operationID) (Operations (Descriptor p))
  end.

Definition resolveProvider {X} (r : Registry X) (capabilityID operationID : string)
    (expected : OperationType) : result CapabilityError (Provider X * OperationDescriptor) :=
  match r !! trim_space capabilityID with
  | None => Err (capabilityError NOT_FOUND "capability not found")
  | Some provider =>
      if negb (Readiness (Descriptor provider))
      then Err (capabilityError NOT_READY (ReadinessReason (Descriptor provider)))
      else match Operation_ r capabilityID operationID with
           | None => Err (capabilityError NOT_FOUND "operation not found")
           | Some operation =>
               if bool_decide (expected <> TYPE_UNSPECIFIED) &&
                  bool_decide (OperationType_ operation <> expected)
               then Err (capabilityError INVALID_ARGUMENT "operation type is not supported by this RPC")
               else Ok (provider, operation)
           end
  end.

(** ** Errors of handlers as public texts *)

(** [strings.Cut] with a separator of several bytes. *)
Fixpoint cut_text (sep s : string) : option (string * string) :=
  match strip_prefix sep s with
  | Some rest => Some (EmptyString, rest)
  | None =>
      match s with
      | EmptyString => None
      | String a s' =>
          match cut_text sep s' with
          | Some (before, after) => Some (String a before, after)
          | None => None
          end
      end
  end.

Definition publicMatrixReceiptError (message : string) : option string :=
  if str_eqb message "matrix transport returned an empty event id"
  then Some "Matrix transport returned an empty event id"
  else match strip_prefix "matrix transport returned event " message with
       | None => None
       | Some receiptIDs =>
           match cut_text " for prepared event " receiptIDs with
           | Some (returned, prepared) =>
               if str_empty returned || str_empty prepared then None
               else Some ("Matrix transport returned event " +:+ receiptIDs)
           | None => None
           end
       end.

Definition capabilityUnknownMatrixErrorSuffix (suffix : string) : string :=
  let receiptPrefix := ": invalid Matrix receipt for " in
  match strip_prefix receiptPrefix suffix with
  | None => suffix
  | Some receipt =>
      match cut_text ": " receipt with
      | Some (preparedEventID, internal) =>
          if str_empty preparedEventID then suffix
          else match publicMatrixReceiptError internal with
               | Some public => receiptPrefix +:+ preparedEventID +:+ ": " +:+ public
               | None => suffix
               end
      | None => suffix
      end
  end.

Definition capabilityInvokeErrorMessage (e : merror) : string :=
  let message := merror_text e in
  let other := default message (publicMatrixReceiptError message) in
  match e with
  | MatrixEventUnknown_ _ =>
      match strip_prefix "matrix event acceptance is unknown" message with
      | Some rest => "Matrix event acceptance is unknown" +:+ capabilityUnknownMatrixErrorSuffix rest
      | None => other
      end
  | MatrixEventRejected_ _ =>
      match strip_prefix "matrix event was rejected" message with
      | Some rest => "Matrix event was rejected" +:+ rest
      | None => other
      end
  | _ => other
  end.

(** ** Completions of agent executions *)

Section Completion.
Context `{GoRange} `{CapabilityText}.

Definition nilUUID : string := "00000000-0000-0000-0000-000000000000".

Definition canonicalNonNilUUID (value : string) : bool :=
  match parse_uuid value with
  | Some text => negb (str_eqb text nilUUID) && str_eqb text value
  | None => false
  end.

(** The zero [time.Time], the first second of the year one. *)
Definition zero_time : Z := -62135596800 * 1000000000.

Definition canonicalCompletionTime (value : string) : result goerror string :=
  match parse_rfc3339nano value with
  | Some t => if t =? zero_time
              then Err (ErrOther "completed_at must be canonical UTC RFC3339Nano")
              else Ok (format_rfc3339nano t)
  | None => Err (ErrOther "completed_at must be canonical UTC RFC3339Nano")
  end.

Definition dq : string := String "034"%char EmptyString.
Definition json_member (name value : string) : string := dq +:+ name +:+ dq +:+ ":" +:+ json_string value.

Definition CanonicalAgentExecutionCompletionDigest (r : AgentExecutionCompletionReceipt)
    : result goerror string :=
  let? completedAt := canonicalCompletionTime (ec_CompletedAt r) in
  Ok (hex (sha256 ("{" +:+ json_member "event_id" (ec_EventID r) +:+ "," +:+
    json_member "execution_id" (ec_ExecutionID r) +:+ "," +:+
    json_member "run_id" (ec_RunID r) +:+ "," +:+
    json_member "conversation_id" (ec_ConversationID r) +:+ "," +:+
    json_member "turn_id" (ec_TurnID r) +:+ "," +:+
    json_member "terminal_state" (ec_TerminalState r) +:+ "," +:+
    json_member "completed_at" completedAt +:+ "}"))).

(** [hex.DecodeString] accepts an even number of digits; of 64 it is enough
    that each is one. *)
Definition hex_digit (a : ascii) : bool :=
  let n := nat_of_ascii a in
  ((48 <=? n) && (n <=? 57) || (97 <=? n) && (n <=? 102) || (65 <=? n) && (n <=? 70))%nat.

Definition identities (r : AgentExecutionCompletionReceipt) : gmap string string :=
  {["event_id" := ec_EventID r; "execution_id" := ec_ExecutionID r; "run_id" := ec_RunID r;
    "conversation_id" := ec_ConversationID r; "turn_id" := ec_TurnID r]}.

Definition Validate (r : AgentExecutionCompletionReceipt) : option goerror :=
  match first_match (fun kv => negb (canonicalNonNilUUID kv.2)) (go_range (identities r)) with
  | Some (name, _) => Some (ErrOther (name +:+ " must be a canonical lowercase non-nil UUID"))
  | None =>
  if negb (bool_decide (ec_TerminalState r ∈ ["succeeded"; "failed"; "canceled"]))
  then Some (ErrOther "terminal_state is invalid")
  else match canonicalCompletionTime (ec_CompletedAt r) with
  | Err e => Some e
  | Ok completedAt =>
  if negb (str_eqb completedAt (ec_CompletedAt r))
  then Some (ErrOther "completed_at must be canonical UTC RFC3339Nano")
  else if negb (byte_len (ec_PayloadDigest r) =? 64) ||
          negb (str_eqb (to_lower (ec_PayloadDigest r)) (ec_PayloadDigest r)) ||
          negb (forallb hex_digit (list_ascii_of_string (ec_PayloadDigest r)))
  then Some (ErrOther "payload_digest must be lowercase 64-hex")
  else match CanonicalAgentExecutionCompletionDigest r with
  | Ok want =>
      if negb (str_eqb (ec_PayloadDigest r) want)
      then Some (ErrOther "payload_digest does not match completion payload")
      else if str_empty (trim_space (ec_OwnerID r)) ||
              negb (str_eqb (ec_OwnerID r) (trim_space (ec_OwnerID r)))
      then Some (ErrOther "owner_id is required")
      else if ec_AccountGeneration r <=? 0
      then Some (ErrOther "account_generation must be positive") else None
  | Err _ => Some (ErrOther "payload_digest does not match completion payload")
  end
  end
  end.
End Completion.

(** ** The server *)

(** An error of the completion callback. *)
Inductive completion_error := CompletionConflict (text : string) | CompletionFailed.

Record Config (X : Type) := {
  GrantPublicKey : string;
  GrantPrivateKey : string;
  ServiceOwnerID : string;
  ExpectedAccountGeneration : Z;
  PeerCommonName : string;
  PeerInstanceID : string;
  InstanceID : string;
  RecordAgentExecutionCompletion :
    option (AgentExecutionCompletionReceipt -> M X completion_error bool);
  InvokeGroupAgentCapability : option (string -> string -> M X agent_error AgentService.reply);
  acquireReadSem : X -> option status;
  acquireMutationSem : X -> option status;
}.
Arguments GrantPublicKey {X}.
Arguments GrantPrivateKey {X}.
Arguments ServiceOwnerID {X}.
Arguments ExpectedAccountGeneration {X}.
Arguments PeerCommonName {X}.
Arguments PeerInstanceID {X}.
Arguments InstanceID {X}.
Arguments RecordAgentExecutionCompletion {X}.
Arguments InvokeGroupAgentCapability {X}.
Arguments acquireReadSem {X}.
Arguments acquireMutationSem {X}.

Definition ed25519_PublicKeySize : Z := 32.
Definition sha256_Size : Z := 32.

Definition sha_text (s : string) : string := AgentService.digest_bytes (sha256 s).

Section Server.
Context `{GoRange} `{GoText} `{CapabilityText} `{Capv1} {X : Type}.
Context (cfg : Config X) (registry : Registry X) (now : X -> Z).

(** *** The catalog *)

Definition sorted_descriptors : list CapabilityDescriptor :=
  stable_sort (fun a b => str_ltb (CapabilityId a) (CapabilityId b)) (List_ registry).

Fixpoint encode_all (l : list CapabilityDescriptor) : option string :=
  match l with
  | [] => Some ""
  | d :: l => match marshal_descriptor d, encode_all l with
              | Some encoded, Some rest => Some (encoded +:+ rest)
              | _, _ => None
              end
  end.

Definition catalogDigest : string :=
  match encode_all sorted_descriptors with
  | Some encoded => sha_text encoded
  | None => ""
  end.

Definition DescribeCapabilities : list CapabilityDescriptor * Z * string :=
  (sorted_descriptors, 1, catalogDigest).

(** *** Digests of a request *)

Definition rootRequestDigest (d : CapabilityDescriptor) (o : OperationDescriptor)
    (requestJSON : string) (expectedRevision : Z) : result goerror string :=
  let? input := ParseBusinessInput requestJSON in
  ComputeRootRequestDigest (ProtocolVersion d) (CapabilityId d) (SemanticVersion d)
    (sha_text (InputSchemaJson o)) (OperationId o) expectedRevision input.

Definition canonicalRequestDigest (req : StartOperationRequest) (d : CapabilityDescriptor)
    (o : OperationDescriptor) (requestJSON : string) : result goerror string :=
  let? input := ParseBusinessInput requestJSON in
  ComputeRequestDigest (ProtocolVersion d) (CapabilityId d) (SemanticVersion d)
    (sha_text (InputSchemaJson o)) (OperationId o) (so_ExpectedRevision req) input
    (sha_text (match so_Permission req with Some p => CapabilityGrant p | None => "" end)).

(** *** Permissions *)

Definition validatePermissionMetadata (md : option metadata) (permission : PermissionContext)
    : option CapabilityError :=
  match md with
  | None => Some (capabilityError TRUST_FAILED "capability metadata is required")
  | Some md =>
      let mismatch :=
        Some (capabilityError TRUST_FAILED "permission generation does not match authenticated peer") in
      match parse_int_strict (trim_space (firstMetadata md CapabilityGenerationMetadata)) with
      | Some generation =>
          if generation =? AccountGeneration permission then None else mismatch
      | None => mismatch
      end
  end.

(** The checks that come before a grant is looked at. *)
Definition grant_present (what : string) (permission : option PermissionContext)
    (call : option CallContext) : result CapabilityError (PermissionContext * CallContext) :=
  match permission with
  | Some p =>
      if str_empty (trim_space (AuthenticatedOwnerId p))
      then Err (capabilityError PERMISSION_DENIED "permission context required")
      else if negb (byte_len (GrantPublicKey cfg) =? ed25519_PublicKeySize) ||
              str_empty (CapabilityGrant p)
      then Err (capabilityError TRUST_FAILED what)
      else match call with
           | Some c =>
               if str_empty (trim_space (RootOperationId c))
               then Err (capabilityError INVALID_ARGUMENT "call_context root operation is required")
               else Ok (p, c)
           | None => Err (capabilityError INVALID_ARGUMENT "call_context root operation is required")
           end
  | None => Err (capabilityError PERMISSION_DENIED "permission context required")
  end.

(** What the grant of a request must be bound to. *)
Definition product_binding (p : PermissionContext) (c : CallContext) (d : CapabilityDescriptor)
    (o : OperationDescriptor) (rootDigest childOperationID : string) (target : TargetKind)
    : ProductGrantBinding :=
  {| pb_CallContext := c; pb_RootOperationID := RootOperationId c;
     pb_ChildOperationID := childOperationID; pb_OwnerID := AuthenticatedOwnerId p;
     pb_AccountGeneration := AccountGeneration p; pb_RequiredScopes := GrantedScopes p;
     pb_CapabilityID := CapabilityId d; pb_Operation := OperationId o; pb_TargetKind := target;
     pb_RootRequestDigest := rootDigest; pb_CatalogDigest := catalogDigest;
     pb_SchemaDigest := sha_text (InputSchemaJson o) |}.

Definition validateRootPermission (md : option metadata) (permission : option PermissionContext)
    (call : option CallContext) (d : CapabilityDescriptor) (o : OperationDescriptor)
    (requestJSON : string) (expectedRevision : Z) (childOperationID : string) (target : TargetKind)
    (time : Z) : result CapabilityError PermissionContext :=
  let? (p, c) := grant_present "signed capability grant is required" permission call in
  match validatePermissionMetadata md p with
  | Some e => Err e
  | None =>
  match rootRequestDigest d o requestJSON expectedRevision with
  | Err e => Err (capabilityError INVALID_ARGUMENT (error_text e))
  | Ok rootDigest =>
      if negb (byte_len (RootRequestDigest p) =? sha256_Size) ||
         negb (str_eqb (RootRequestDigest p) rootDigest)
      then Err (capabilityError TRUST_FAILED "product root request digest does not match permission")
      else match VerifyProductDelegationGrant (CapabilityGrant p) (GrantPublicKey cfg) time
                   (product_binding p c d o rootDigest childOperationID target) with
           | Err _ => Err (capabilityError TRUST_FAILED "capability grant binding failed")
           | Ok claims =>
               if negb (str_eqb (cl_OwnerID claims) (AuthenticatedOwnerId p)) ||
                  negb (cl_AccountGeneration claims =? AccountGeneration p)
               then Err (capabilityError TRUST_FAILED "capability grant verification failed")
               else if negb (sameStrings (cl_Scopes claims) (GrantedScopes p))
               then Err (capabilityError TRUST_FAILED "permission scopes do not match grant")
               else Ok p
           end
  end
  end.

Definition control_binding (p : PermissionContext) (c : CallContext) (operationID action : string)
    : OperationControlGrantBinding :=
  {| cb_CallContext := c; cb_OwnerID := AuthenticatedOwnerId p;
     cb_AccountGeneration := AccountGeneration p; cb_OperationID := operationID;
     cb_ControlAction := action; cb_ControlScope := "operation:control:" +:+ action |}.

Definition validateControlPermission (md : option metadata) (permission : option PermissionContext)
    (call : option CallContext) (operationID action : string) (time : Z)
    : result CapabilityError PermissionContext :=
  let? (p, c) := grant_present "signed operation control grant is required" permission call in
  match validatePermissionMetadata md p with
  | Some e => Err e
  | None =>
      match VerifyProductOperationControlGrant (CapabilityGrant p) (GrantPublicKey cfg) time
              (control_binding p c (trim_space operationID) (trim_space action)) with
      | Err _ => Err (capabilityError TRUST_FAILED "operation control grant binding failed")
      | Ok _ => Ok p
      end
  end.

(** *** Control grants *)

Definition productGrantEntry (call : CallContext) : result goerror (string * Z) :=
  if str_empty (trim_space (Route call)) then Err (ErrOther "product call route is required")
  else match route_parts (Route call) with
       | [] => Err (ErrOther "product call route is invalid")
       | node :: _ =>
           if str_eqb node NodeMessage || str_eqb node NodeAgent then Ok (node, 1)
           else Err (ErrOther "product call route has an invalid entry node")
       end.

Definition control_grant (p : PermissionContext) (c : CallContext) (operationID entryRoute : string)
    (entryHop : Z) (time : Z) (action : string) : result goerror ControlEnvelope :=
  let? grant := SignOperationControlGrant
    {| cg_ChainID := ChainId c; cg_OwnerID := AuthenticatedOwnerId p;
       cg_AccountGeneration := AccountGeneration p; cg_OperationID := operationID;
       cg_ControlAction := action; cg_ControlScope := "operation:control:" +:+ action;
       cg_EntryRoute := entryRoute; cg_EntryHop := entryHop;
       cg_DeadlineUnixMs := DeadlineUnixMs c |} (GrantPrivateKey cfg) in
  match VerifyProductOperationControlGrant grant (GrantPublicKey cfg) time
          (control_binding p c operationID action) with
  | Ok claims => Ok {| env_Action := action; env_Grant := grant;
                       env_ExpiresAtUnixMs := cl_ExpiresAtUnixMs claims |}
  | Err e => Err (ErrOther ("verify freshly signed " +:+ action +:+ " control grant: " +:+ error_text e))
  end.

Fixpoint collect_results {A B} (f : A -> result goerror B) (l : list A) : result goerror (list B) :=
  match l with
  | [] => Ok []
  | a :: l => let? b := f a in let? bs := collect_results f l in Ok (b :: bs)
  end.

Definition issueOperationControlGrants (call : option CallContext)
    (permission : option PermissionContext) (operationID : string) (time : Z)
    : result goerror (list ControlEnvelope) :=
  match call, permission with
  | Some c, Some p =>
      if str_empty (trim_space operationID)
      then Err (ErrOther "operation control grant binding is incomplete")
      else
        let? (entryRoute, entryHop) := productGrantEntry c in
        let? grants := collect_results (control_grant p c operationID entryRoute entryHop time)
                         ["get"; "watch"; "cancel"; "reconcile"] in
        match ValidateOperationControlGrantEnvelopes grants time with
        | Some e => Err e
        | None => Ok grants
        end
  | _, _ => Err (ErrOther "operation control grant binding is incomplete")
  end.

(** *** The private channel of the group agent *)

Definition groupAgentCapability : string := "product.group_agent.v1".

(** [Route], [Hop] and parent of a call that comes straight from the agent. *)
Definition fresh_agent_route (c : CallContext) : bool :=
  str_eqb (Route c) (NodeAgent +:+ RouteSeparator +:+ NodeProduct) && (Hop c =? 2) &&
  str_empty (ParentCallId c).

Definition is_canonical (raw : string) : bool :=
  match CanonicalizeJSON raw with Ok canonical => str_eqb canonical raw | Err _ => false end.

Definition validatePrivateGroupAgent (call : option CallContext)
    (permission : option PermissionContext) (raw : string)
    : result CapabilityError (string -> string -> M X agent_error AgentService.reply) :=
  match permission with
  | Some _ => Err (capabilityError PERMISSION_DENIED
      "private group Agent channel does not accept owner or model permission")
  | None =>
  if negb (match call with
           | Some c => fresh_agent_route c &&
               match ValidateOperationID (RootOperationId c) with None => true | Some _ => false end
           | None => false
           end)
  then Err (capabilityError PERMISSION_DENIED
         "private group Agent channel requires a fresh Agent service route")
  else match InvokeGroupAgentCapability cfg with
  | Some invoke =>
      if str_empty (trim_space (ServiceOwnerID cfg)) || (ExpectedAccountGeneration cfg <=? 0)
      then Err (capabilityError NOT_READY "private group Agent channel is unavailable")
      else if str_empty raw || (32768 <? byte_len raw)
      then Err (capabilityError INVALID_ARGUMENT "invalid private group Agent request size")
      else if negb (is_canonical raw)
      then Err (capabilityError INVALID_ARGUMENT "request_json must be canonical JSON")
      else Ok invoke
  | None => Err (capabilityError NOT_READY "private group Agent channel is unavailable")
  end
  end.

(** [strings.Map] with line breaks and tabs as spaces: a byte that is not part
    of a rune becomes the replacement character. *)
Fixpoint one_line (fuel : nat) (l : bytes) : bytes :=
  match fuel with
  | O => []
  | S fuel =>
      match l with
      | [] => []
      | _ :: tail =>
          match Sanitize.next_rune l with
          | Some (r, enc, rest) =>
              (if (r =? 10) || (r =? 13) || (r =? 9) then [" "%char] else enc) ++ one_line fuel rest
          | None => ["239"%char; "191"%char; "189"%char] ++ one_line fuel tail
          end
      end
  end.

Definition boundedGroupAgentReason (e : agent_error) : string :=
  let text := list_ascii_of_string (trim_space (agent_error_text e)) in
  let reason := one_line (length text) text in
  if bool_decide (reason = []) then "group Agent operation failed"
  else string_of_list_ascii (take 200 reason).

Definition groupAgentCapabilityError (e : agent_error) : CapabilityError :=
  match e with
  | ErrGroupAgentConflict => capabilityError CONFLICT "group Agent binding or request conflict"
  | _ => capabilityError UPSTREAM_FAILED (boundedGroupAgentReason e)
  end.

Definition private_queries : list string :=
  ["pull"; "validate"; "history"; "members"; "bindings"; "transcript"].
Definition private_mutations : list string :=
  ["publish"; "complete"; "enqueue"; "record_schedule"; "remove_schedule"; "record_memory";
   "record_assets"].

(** The answer to a query: a JSON text or an error. *)
Definition queryGroupAgent (req : QueryRequest) (x : X) : X * result CapabilityError string :=
  match validatePrivateGroupAgent (q_CallContext req) (q_Permission req) (q_RequestJson req) with
  | Err e => (x, Err e)
  | Ok invoke =>
      if negb (bool_decide (q_OperationId req ∈ private_queries))
      then (x, Err (capabilityError NOT_FOUND "private group Agent query is unavailable"))
      else match invoke (q_OperationId req) (q_RequestJson req) x with
           | (x, Err e) => (x, Err (groupAgentCapabilityError e))
           | (x, Ok value) =>
               match (let? raw := reply_json value in CanonicalizeJSON raw) with
               | Ok raw => (x, Ok raw)
               | Err e => (x, Err (groupAgentCapabilityError (Failure_ e)))
               end
           end
  end.

Definition start_response (id : string) (state : OperationState) (e : option CapabilityError)
    (replayed : bool) : StartOperationResponse :=
  {| r_OperationId := id; r_State := state; r_Error := e; r_Replayed := replayed;
     r_ControlGrants := [] |}.

Definition failed_start (req : StartOperationRequest) (e : CapabilityError) : StartOperationResponse :=
  start_response (so_OperationId req) FAILED (Some e) false.

(** [result["status"] == "cancelled"] and [result["replayed"]]. *)
Definition reply_cancelled (r : AgentService.reply) : bool :=
  match r with
  | AgentService.RCancelled _ => true
  | AgentService.RCompleted status => str_eqb status "cancelled"
  | _ => false
  end.
Definition reply_replayed (r : AgentService.reply) : bool :=
  match r with
  | AgentService.RCancelled replayed | AgentService.RPublished _ replayed
  | AgentService.REnqueued replayed => replayed
  | _ => false
  end.

Definition digest_matches (req : StartOperationRequest) : bool :=
  str_eqb (so_RequestDigest req) (sha_text (so_RequestJson req)).

Definition startGroupAgent (req : StartOperationRequest) (x : X) : X * StartOperationResponse :=
  match validatePrivateGroupAgent (so_CallContext req) (so_Permission req) (so_RequestJson req) with
  | Err e => (x, failed_start req e)
  | Ok invoke =>
      if negb (match ValidateOperationID (so_OperationId req) with None => true | Some _ => false end) ||
         negb (match so_CallContext req with
               | Some c => str_eqb (RootOperationId c) (so_OperationId req)
               | None => false
               end) || negb (so_ExpectedRevision req =? 0)
      then (x, failed_start req
              (capabilityError INVALID_ARGUMENT "invalid private group Agent operation identity"))
      else if negb (bool_decide (so_Operation req ∈ private_mutations))
      then (x, failed_start req
              (capabilityError NOT_FOUND "private group Agent mutation is unavailable"))
      else if negb (digest_matches req)
      then (x, failed_start req (capabilityError CONFLICT "request digest mismatch"))
      else match invoke (so_Operation req) (so_RequestJson req) x with
           | (x, Err e) => (x, failed_start req (groupAgentCapabilityError e))
           | (x, Ok value) =>
               if str_eqb (so_Operation req) "publish" && reply_cancelled value
               then (x, failed_start req
                       (capabilityError PERMISSION_DENIED "group Agent request was revoked"))
               else (x, start_response (so_OperationId req) COMPLETED None (reply_replayed value))
           end
  end.

(** *** The private channel of completions *)

Definition agentExecutionCompletionCapability : string := "product.agent_execution.v1".
Definition agentExecutionCompletionOperation : string := "record_completion".
Definition maxAgentExecutionCompletionBytes : Z := 8192.

Definition with_owner (owner : string) (generation : Z) (r : AgentExecutionCompletionReceipt)
    : AgentExecutionCompletionReceipt :=
  {| ec_EventID := ec_EventID r; ec_ExecutionID := ec_ExecutionID r; ec_RunID := ec_RunID r;
     ec_ConversationID := ec_ConversationID r; ec_TurnID := ec_TurnID r;
     ec_TerminalState := ec_TerminalState r; ec_CompletedAt := ec_CompletedAt r;
     ec_PayloadDigest := ec_PayloadDigest r; ec_OwnerID := owner;
     ec_AccountGeneration := generation |}.

(** The receipt to record, or why there is none. *)
Definition completion_receipt (req : StartOperationRequest)
    : result CapabilityError
        (AgentExecutionCompletionReceipt * (AgentExecutionCompletionReceipt -> M X completion_error bool)) :=
  let bad c message := Err (capabilityError c message) in
  if negb (str_eqb (so_Operation req) agentExecutionCompletionOperation)
  then bad NOT_FOUND "private completion operation is not available"
  else if bool_decide (is_Some (so_Permission req))
  then bad PERMISSION_DENIED "private completion callback does not accept owner or model permission"
  else if negb (match ValidateOperationID (so_OperationId req) with None => true | Some _ => false end)
  then bad INVALID_ARGUMENT "operation_id must be a canonical UUID"
  else if negb (match so_CallContext req with
                | Some c => fresh_agent_route c && str_eqb (RootOperationId c) (so_OperationId req)
                | None => false
                end)
  then bad PERMISSION_DENIED "private completion callback requires a fresh Agent service route"
  else if negb (so_ExpectedRevision req =? 0)
  then bad INVALID_ARGUMENT "expected_revision is not supported"
  else match RecordAgentExecutionCompletion cfg with
  | Some record =>
      if str_empty (trim_space (ServiceOwnerID cfg)) ||
         negb (str_eqb (ServiceOwnerID cfg) (trim_space (ServiceOwnerID cfg))) ||
         (ExpectedAccountGeneration cfg <=? 0)
      then bad NOT_READY "private completion callback is not configured"
      else if str_empty (so_RequestJson req) ||
              (maxAgentExecutionCompletionBytes <? byte_len (so_RequestJson req))
      then bad INVALID_ARGUMENT "completion request size is invalid"
      else if negb (is_canonical (so_RequestJson req))
      then bad INVALID_ARGUMENT "request_json must be RFC 8785 canonical JSON"
      else if negb (digest_matches req)
      then bad CONFLICT "request_digest does not match request_json"
      else match decodeAgentExecutionCompletion (so_RequestJson req) with
      | Err e => bad INVALID_ARGUMENT (error_text e)
      | Ok receipt =>
          if negb (str_eqb (so_OperationId req) (ec_EventID receipt))
          then bad CONFLICT "operation_id must equal completion event_id"
          else
            let receipt := with_owner (ServiceOwnerID cfg) (ExpectedAccountGeneration cfg) receipt in
            match Validate receipt with
            | Some e => bad INVALID_ARGUMENT (error_text e)
            | None => Ok (receipt, record)
            end
      end
  | None => bad NOT_READY "private completion callback is not configured"
  end.

Definition recordAgentExecutionCompletion (req : StartOperationRequest) (x : X)
    : X * StartOperationResponse :=
  match completion_receipt req with
  | Err e => (x, failed_start req e)
  | Ok (receipt, record) =>
      match record receipt x with
      | (x, Ok replayed) => (x, start_response (so_OperationId req) COMPLETED None replayed)
      | (x, Err (CompletionConflict text)) =>
          (x, failed_start req (capabilityError CONFLICT text))
      | (x, Err CompletionFailed) =>
          (x, failed_start req (capabilityError UPSTREAM_FAILED "record completion failed"))
      end
  end.
End Server.
End Capability.
