(* ===== verification/CapabilityCalls.v ===== *)
(** * The calls of the capability service

    [internal/productcapability/handlers.go] and [server.go]: the calls by
    which an agent exchanges a grant, queries a capability, starts an
    operation, follows, cancels and reconciles it, and what every call passes
    first: the certificate, token, instance and account generation of the
    peer, and the route of the call.

    The state is the ledger and the world the handlers of the capabilities
    change.  The goroutine that runs a started operation is a [task] of the
    answer: [run_task] is its body, taken at any later time.  How a handler
    reacts to the cancellation of its context is part of the handler. *)

From Stdlib Require Import Ascii String ZArith Lia.
From stdpp Require Import base tactics list gmap strings.
From S2P Require Import Prelude GoStrings GoCase Values GoSha256 Domain GoTime GoTimeParse Policy.
From S2P Require Import Action Workflow.
From S2P Require Import RemotePublic Prepared ChannelBackfill MessagePages GroupAgent CapabilityLedger.
From S2P Require Import CapabilityServer.
Local Open Scope Z_scope.
Local Open Scope go_scope.

Module CapabilityCalls.
Import Ledger Capability.

(** ** Data *)

(** The permission a parent grant was exchanged for, and when it expires. *)
Record ExchangeProductDelegationResponse := {
  ProductPermission : PermissionContext;
  ExpiresAtUnixMs : Z;
}.

Record GetOperationResponse := {
  g_OperationId : string;
  g_State : OperationState;
  g_ResultJson : string;
  g_Sequence : Z;
  g_Error : option CapabilityError;
}.

Record ReconcileOperationResponse := {
  rec_State : OperationState;
  rec_ResultJson : string;
  rec_Error : option CapabilityError;
}.

(** The goroutine of a started operation. *)
Record task (X : Type) := {
  t_record : operationRecord;
  t_provider : Provider X;
  t_operation : string;
  t_requestJSON : string;
}.
Arguments t_record {X}.
Arguments t_provider {X}.
Arguments t_operation {X}.
Arguments t_requestJSON {X}.

(** What the transport knows about the peer of a call. *)
Record TLSInfo := {
  VerifiedChains : nat;
  PeerCertificates : list string;  (* the common name of each *)
}.

Record peer := {
  AuthInfo : option TLSInfo;
}.

(** Without a peer, without metadata. *)
Record incoming := {
  in_peer : option peer;
  in_metadata : option metadata;
}.

Definition constantTimeEqual (left right : string) : bool :=
  (byte_len left =? byte_len right) &&
  (fold_left (fun value ab => Z.lor value (Z.lxor (Z.of_nat (nat_of_ascii ab.1))
                                                  (Z.of_nat (nat_of_ascii ab.2))))
     (combine (list_ascii_of_string left) (list_ascii_of_string right)) 0 =? 0).

Definition refused (c : code) (message : string) : status := status_ c message.

Section Calls.
Context `{GoRange} `{GoText} `{CapabilityText} `{Capv1} {X : Type}.
Context (cfg : Config X) (registry : Registry X) (token : string).
Context (durable : bool) (prepared : option (PreparedStage X)) (now : X -> Z).
Context (committing : X -> X * commit) (meanwhile : X -> store -> store).
Local Notation St := (store * X)%type.

(** A call that only changes the world of the handlers. *)
Definition on_world {A} (f : X -> X * A) : M St status A := fun st =>
  let '(x, a) := f st.2 in ((st.1, x), Ok a).

(** A call of the ledger whose error is ignored. *)
Definition ignoring {A} (m : M St lerror A) : M St status unit := fun st => ((m st).1, Ok tt).

Definition acquire (sem : X -> option status) : M St status unit :=
  reads (fun st => match sem st.2 with Some e => Err e | None => Ok tt end).

Definition time_of : M St status Z := reads (fun st => Ok (now st.2)).

(** An omitted input is the empty object. *)
Definition request_or_empty (raw : string) : string := if str_empty raw then "{}" else raw.

(** ** Queries *)

(** The handler of a query and its input, once everything about the request
    is in order. *)
Definition admit_query (md : option metadata) (req : QueryRequest) (time : Z)
    : result CapabilityError (Provider X * string) :=
  let? (provider, operation) := resolveProvider registry (q_CapabilityId req) (q_OperationId req) READ in
  let requestJSON := request_or_empty (q_RequestJson req) in
  match validateOperationInput operation requestJSON with
  | Some e => Err (capabilityError INVALID_ARGUMENT (error_text e))
  | None =>
      let? p := validateRootPermission cfg registry md (q_Permission req) (q_CallContext req)
                  (Descriptor provider) operation requestJSON 0 "" QUERY time in
      if negb (scopesAllow (GrantedScopes p) (RequiredScopes operation))
      then Err (capabilityError PERMISSION_DENIED "required capability scope is missing")
      else match wrap_input (OperationId operation) requestJSON with
           | Err e => Err (capabilityError INVALID_ARGUMENT (error_text e))
           | Ok wrapped => Ok (provider, wrapped)
           end
  end.

Definition invoke_query (provider : Provider X) (wrapped : string) (x : X)
    : X * result CapabilityError string :=
  match Handler provider None wrapped x with
  | (x, Ok result_) => (x, Ok result_)
  | (x, Err e) => (x, Err (capabilityError UPSTREAM_FAILED (merror_text e)))
  end.

Definition Query (md : option metadata) (req : option QueryRequest)
    : M St status (result CapabilityError string) :=
  let! _ := acquire (acquireReadSem cfg) in
  match req with
  | None => fail (refused InvalidArgument_ "request is required")
  | Some req =>
      if str_eqb (q_CapabilityId req) groupAgentCapability
      then on_world (queryGroupAgent cfg req)
      else
        let! time := time_of in
        match admit_query md req time with
        | Err e => ret (Err e)
        | Ok (provider, wrapped) => on_world (invoke_query provider wrapped)
        end
  end.

(** ** Starting an operation *)

(** Others go on while the handler runs. *)
Definition executeOperation (record : operationRecord) (provider : Provider X)
    (operationIDName requestJSON : string) : M St status unit := fun st =>
  let operation := {| co_OperationID := ID record; co_OwnerID := OwnerID record;
                      co_Generation := Generation record; co_RootDigest := RootDigest record |} in
  let finish := finish durable prepared now committing (ID record) in
  match wrap_input operationIDName requestJSON with
  | Err e => ignoring (finish "" (Some (capabilityError INVALID_ARGUMENT (error_text e)))) st
  | Ok wrapped =>
      match Handler provider (Some operation) wrapped st.2 with
      | (x, Ok result_) => ignoring (finish result_ None) (meanwhile x st.1, x)
      | (x, Err e) =>
          let public := capabilityError UPSTREAM_FAILED (capabilityInvokeErrorMessage e) in
          match e with
          | MatrixEventUnknown_ _ =>
              ignoring (markUncertain durable now committing (ID record) (Some public))
                (meanwhile x st.1, x)
          | _ => ignoring (finish "" (Some public)) (meanwhile x st.1, x)
          end
      end
  end.

(** [go func() { ... }()] *)
Definition run_task (t : task X) : M St status unit :=
  let! _ := executeOperation (t_record t) (t_provider t) (t_operation t) (t_requestJSON t) in
  ignoring (clearCancel (ID (t_record t))).

Definition startOperationResponse (call : option CallContext) (permission : option PermissionContext)
    (record : operationRecord) : M St status StartOperationResponse :=
  let! time := time_of in
  match issueOperationControlGrants cfg call permission (ID record) time with
  | Err _ => fail (refused Internal_ "issue operation control grants")
  | Ok grants => ret {| r_OperationId := ID record; r_State := State record; r_Error := Err_ record;
                        r_Replayed := negb (Created record); r_ControlGrants := grants |}
  end.

(** The handler of a mutation, its input and the record to put in the ledger. *)
Record admitted := {
  a_provider : Provider X;
  a_operation : string;
  a_requestJSON : string;
  a_record : operationRecord;
}.

Definition new_record (req : StartOperationRequest) (p : PermissionContext) (operation : string)
    (rootDigest digest : string) : operationRecord :=
  {| ID := so_OperationId req; Ledger.Capability := so_CapabilityId req; Operation := operation;
     OwnerID := AuthenticatedOwnerId p; Generation := AccountGeneration p; RootDigest := rootDigest;
     Digest := digest; State := UNSPECIFIED; Result := ""; Err_ := None; Revision := 0;
     UpdatedAt := 0; Created := false |}.

(** The refusal of a request: its answer has the id of the operation and the
    state [FAILED], but for a request without an id. *)
Definition admit_start (md : option metadata) (req : StartOperationRequest) (time : Z)
    : result StartOperationResponse admitted :=
  let failed c message := Err (failed_start req (capabilityError c message)) in
  match resolveProvider registry (so_CapabilityId req) (so_Operation req) MUTATION with
  | Err e => Err (failed_start req e)
  | Ok (provider, operation) =>
  if str_empty (trim_space (so_OperationId req))
  then Err (start_response "" UNSPECIFIED
              (Some (capabilityError INVALID_ARGUMENT "operation_id is required")) false)
  else
  let requestJSON := request_or_empty (so_RequestJson req) in
  match validateOperationInput operation requestJSON with
  | Some e => failed INVALID_ARGUMENT (error_text e)
  | None =>
  match validateRootPermission cfg registry md (so_Permission req) (so_CallContext req)
          (Descriptor provider) operation requestJSON (so_ExpectedRevision req) (so_OperationId req)
          START_OPERATION time with
  | Err e => Err (failed_start req e)
  | Ok p =>
  if negb (scopesAllow (GrantedScopes p) (RequiredScopes operation))
  then failed PERMISSION_DENIED "required capability scope is missing"
  else match canonicalRequestDigest req (Descriptor provider) operation requestJSON with
  | Err e => failed INVALID_ARGUMENT (error_text e)
  | Ok digest =>
  if negb (str_empty (so_RequestDigest req)) && negb (str_eqb (so_RequestDigest req) digest)
  then failed CONFLICT "request_digest does not match request_json"
  else match rootRequestDigest (Descriptor provider) operation requestJSON (so_ExpectedRevision req) with
  | Err e => failed INVALID_ARGUMENT (error_text e)
  | Ok rootDigest =>
      Ok {| a_provider := provider; a_operation := OperationId operation;
            a_requestJSON := requestJSON;
            a_record := new_record req p (OperationId operation) rootDigest digest |}
  end
  end
  end
  end
  end.

Definition ledger_start_failed (req : StartOperationRequest) (e : lerror) : StartOperationResponse :=
  failed_start req (capabilityError (match e with errOperationConflict => CONFLICT
                                                | _ => UPSTREAM_FAILED end) (lerror_text e)).

(** An operation that is there already.  One that a restart left uncertain is
    claimed and run once more, when its Matrix event was staged. *)
Definition replay_operation (req : StartOperationRequest) (a : admitted) (existing : operationRecord)
    : M St status unit :=
  if isPreparedMatrixMutation (so_CapabilityId req) (a_operation a) &&
     bool_decide (State existing = UNCERTAIN)
  then fun st =>
    match claimReplay durable now committing (ID existing) st with
    | (st, Err _) => (st, Err (refused Internal_ "claim uncertain Matrix operation"))
    | (st, Ok true) => executeOperation existing (a_provider a) (a_operation a) (a_requestJSON a) st
    | (st, Ok false) => (st, Ok tt)
    end
  else ret tt.

(** The answer, and the goroutine that was started: it runs whatever the
    answer is. *)
Definition started : Type := result status StartOperationResponse * option (task X).

Definition start_admitted (req : StartOperationRequest) (a : admitted) (st : St) : St * started :=
  let answer existing := startOperationResponse (so_CallContext req) (so_Permission req) existing in
  let alone m st := let '(st, r) := m st in (st, (r, None)) in
  match start durable now committing meanwhile (a_record a) st with
  | (st, Err e) => (st, (Ok (ledger_start_failed req e), None))
  | (st, Ok existing) =>
      if negb (Created existing)
      then alone (let! _ := replay_operation req a existing in answer existing) st
      else if negb (bool_decide (State existing = PENDING)) then alone (answer existing) st
      else
        let st := (registerCancel (ID existing) st).1 in
        let '(st, r) := answer existing st in
        (st, (r, Some {| t_record := existing; t_provider := a_provider a;
                         t_operation := a_operation a; t_requestJSON := a_requestJSON a |}))
  end.

Definition StartOperation (md : option metadata) (req : option StartOperationRequest) (st : St)
    : St * started :=
  let alone (m : M St status StartOperationResponse) := let '(st, r) := m st in (st, (r, None)) in
  match acquireMutationSem cfg st.2 with
  | Some e => (st, (Err e, None))
  | None =>
  match req with
  | None => alone (fail (refused InvalidArgument_ "request is required"))
  | Some req =>
      if str_eqb (so_CapabilityId req) agentExecutionCompletionCapability
      then alone (on_world (recordAgentExecutionCompletion cfg req))
      else if str_eqb (so_CapabilityId req) groupAgentCapability
      then alone (on_world (startGroupAgent cfg req))
      else match admit_start md req (now st.2) with
           | Err r => alone (ret r)
           | Ok a => start_admitted req a st
           end
  end
  end.

(** ** Following an operation *)

Definition not_owner (record : operationRecord) (p : PermissionContext) : bool :=
  negb (str_eqb (OwnerID record) (AuthenticatedOwnerId p)) ||
  negb (Generation record =? AccountGeneration p).

(** What every call about an operation starts with: the control grant, the
    record, and its owner. *)
Definition controlled (md : option metadata) (req : ControlRequest) (action : string)
    : M St status operationRecord := reads (fun st =>
  match validateControlPermission cfg md (c_Permission req) (c_CallContext req) (c_OperationId req)
          action (now st.2) with
  | Err e => Err (as_status e)
  | Ok p =>
      match get_ durable (c_OperationId req) st.1 with
      | Err _ => Err (refused NotFound_ "operation not found")
      | Ok record => if not_owner record p
                     then Err (refused PermissionDenied "operation owner mismatch") else Ok record
      end
  end).

Definition required (req : option ControlRequest) : M St status ControlRequest :=
  match req with
  | Some req => ret req
  | None => fail (refused InvalidArgument_ "request is required")
  end.

Definition GetOperation (md : option metadata) (req : option ControlRequest)
    : M St status GetOperationResponse :=
  let! req := required req in
  let! record := controlled md req "get" in
  reads (fun st => Ok {| g_OperationId := ID record; g_State := State record;
                         g_ResultJson := Result record;
                         g_Sequence := eventCount durable (ID record) st.1;
                         g_Error := Err_ record |}).

Definition CancelOperation (md : option metadata) (req : option ControlRequest)
    : M St status OperationState :=
  let! req := required req in
  let! _ := controlled md req "cancel" in
  fun st => match cancel durable prepared now committing (c_OperationId req) st with
            | (st, Err e) => (st, Err (refused FailedPrecondition (lerror_text e)))
            | (st, Ok _) => (st, Ok CANCELLED)
            end.

Definition ReconcileOperation (md : option metadata) (req : option ControlRequest)
    : M St status ReconcileOperationResponse :=
  let! req := required req in
  let! record := controlled md req "reconcile" in
  ret {| rec_State := State record; rec_ResultJson := Result record; rec_Error := Err_ record |}.

(** *** Routes *)

(** The call context of a request as the handlers see it: advanced to this
    node. *)
Definition validateCallContext (call : option CallContext) : result status CallContext :=
  match call with
  | None => Err (refused InvalidArgument_ "call_context is required")
  | Some c =>
      match ValidateCallContext c with
      | Some e => Err (refused InvalidArgument_ ("invalid call_context: " +:+ error_text e))
      | None =>
          match ValidateAndAdvanceProductCallContext c with
          | Ok advanced => Ok advanced
          | Err e => if str_eqb (error_text e) "cycle detected"
                     then Err (refused FailedPrecondition "CYCLE_DETECTED")
                     else Err (refused InvalidArgument_ ("invalid call path: " +:+ error_text e))
          end
      end
  end.

Definition set_control_call (c : CallContext) (req : ControlRequest) : ControlRequest :=
  {| c_OperationId := c_OperationId req; c_Permission := c_Permission req;
     c_CallContext := Some c; c_AfterSequence := c_AfterSequence req |}.

(** [for event := range events]: events are sent one after the other up to a
    terminal one or an error; [false] when the channel is empty and the loop
    waits. *)
Fixpoint drain (send : WatchOperationEvent -> M X goerror unit) (l : list WatchOperationEvent) (x : X)
    : X * (nat * result goerror bool) :=
  match l with
  | [] => (x, (0%nat, Ok false))
  | e :: l =>
      match send e x with
      | (x, Err err) => (x, (1%nat, Err err))
      | (x, Ok _) =>
          if isTerminalEvent e then (x, (1%nat, Ok true))
          else let '(x, (n, r)) := drain send l x in (x, (S n, r))
      end
  end.

(** The events received from the channel at position [i]. *)
Definition received (operationID : string) (i n : nat) (s : store) : store :=
  set_stream (events s)
    (alter (alter (fun w => {| w_capacity := w_capacity w; w_queue := drop n (w_queue w) |}) i)
       operationID (watchers s)) s.

(** The channel is taken off the list of watchers when the call ends. *)
Definition unwatch (operationID : string) (i : nat) (s : store) : store :=
  set_stream (events s) (alter (fun l => take i l ++ drop (S i) l) operationID (watchers s)) s.

(** The stream up to the point where it waits for further events ([Ok false])
    or ends. *)
Definition WatchOperation (md : option metadata) (send : WatchOperationEvent -> M X goerror unit)
    (req : option ControlRequest) : M St status (result goerror bool) :=
  let! req := required req in
  let! c := reads (fun _ => validateCallContext (c_CallContext req)) in
  let req := set_control_call c req in
  let! _ := controlled md req "watch" in
  fun st =>
    let id := c_OperationId req in
    match watch durable meanwhile id (c_AfterSequence req) st with
    | (st, Err _) => (st, Err (refused NotFound_ "operation events not found"))
    | ((s, x), Ok w) =>
        let i := (length (default [] (watchers s !! id)) - 1)%nat in
        let '(x, (n, r)) := drain send (w_queue w) x in
        let s := match r with
                 | Ok false => received id i n s
                 | _ => unwatch id i s
                 end in
        ((s, x), Ok r)
    end.

(** ** Exchanging a grant *)

Definition root_binding (p : PermissionContext) (c : CallContext) : RootGrantBinding :=
  {| rb_CallContext := c; rb_RootOperationID := RootOperationId c;
     rb_OwnerID := AuthenticatedOwnerId p; rb_AccountGeneration := AccountGeneration p;
     rb_RootRequestDigest := RootRequestDigest p; rb_RequiredScopes := GrantedScopes p |}.

(** The claims of the parent grant, when it covers the operation. *)
Definition parent_claims (md : option metadata) (req : ExchangeRequest)
    (operation : OperationDescriptor) (time : Z)
    : result status (PermissionContext * CallContext * Claims) :=
  match x_ParentPermission req with
  | None => Err (refused PermissionDenied "parent permission context required")
  | Some p =>
  if str_empty (trim_space (AuthenticatedOwnerId p))
  then Err (refused PermissionDenied "parent permission context required")
  else match x_CallContext req with
  | None => Err (refused InvalidArgument_ "call_context is required")
  | Some c =>
  match validatePermissionMetadata md p with
  | Some e => Err (as_status e)
  | None =>
  if negb (byte_len (RootRequestDigest p) =? sha256_Size)
  then Err (refused Unauthenticated "parent root request digest is required")
  else match VerifyProductDelegationParent (CapabilityGrant p) (GrantPublicKey cfg) time
               (root_binding p c) with
  | Err _ => Err (refused Unauthenticated "parent capability grant binding failed")
  | Ok claims =>
      if negb (sameStrings (cl_Scopes claims) (GrantedScopes p))
      then Err (refused Unauthenticated "parent capability grant binding failed")
      else if negb (has_prefix (cl_RootCapabilityID claims) "agent.") ||
              negb (scopesAllow (cl_Scopes claims) ["agent:product:execute"])
      then Err (refused PermissionDenied "parent grant cannot delegate Product capability")
      else if negb (scopesAllow (cl_Scopes claims) (RequiredScopes operation))
      then Err (refused PermissionDenied "parent grant does not cover Product operation scope")
      else Ok (p, c, claims)
  end
  end
  end
  end.

Definition delegation_issue (req : ExchangeRequest) (c : CallContext) (parent : Claims)
    (operation : OperationDescriptor) (rootDigest : string) : ProductDelegationIssue :=
  {| di_ParentClaims := parent; di_CallContext := c; di_ChildOperationID := x_ChildOperationId req;
     di_CapabilityID := x_CapabilityId req; di_Operation := OperationId operation;
     di_RequiredScopes := RequiredScopes operation; di_TargetKind := x_TargetKind req;
     di_RootRequestDigest := rootDigest; di_CatalogDigest := catalogDigest registry;
     di_SchemaDigest := sha_text (InputSchemaJson operation) |}.

Definition delegation_binding (req : ExchangeRequest) (p : PermissionContext) (c : CallContext)
    (operation : OperationDescriptor) (rootDigest : string) : ProductGrantBinding :=
  {| pb_CallContext := c; pb_RootOperationID := RootOperationId c;
     pb_ChildOperationID := x_ChildOperationId req; pb_OwnerID := AuthenticatedOwnerId p;
     pb_AccountGeneration := AccountGeneration p; pb_RequiredScopes := RequiredScopes operation;
     pb_CapabilityID := x_CapabilityId req; pb_Operation := OperationId operation;
     pb_TargetKind := x_TargetKind req; pb_RootRequestDigest := rootDigest;
     pb_CatalogDigest := catalogDigest registry;
     pb_SchemaDigest := sha_text (InputSchemaJson operation) |}.

(** The child grant, signed and verified against its binding. *)
Definition issue_child (req : ExchangeRequest) (p : PermissionContext) (c : CallContext)
    (parent : Claims) (operation : OperationDescriptor) (rootDigest : string) (time : Z)
    : result status ExchangeProductDelegationResponse :=
  match SignProductDelegationFromParent (delegation_issue req c parent operation rootDigest)
          (GrantPrivateKey cfg) with
  | Err _ => Err (refused Internal_ "issue Product delegation")
  | Ok childGrant =>
      let failed := Err (refused Internal_ "issued Product delegation failed exact binding") in
      match VerifyProductDelegationGrant childGrant (GrantPublicKey cfg) time
              (delegation_binding req p c operation rootDigest) with
      | Err _ => failed
      | Ok claims =>
          if negb (str_eqb (cl_RootCapabilityID claims) (x_CapabilityId req)) ||
             negb (str_eqb (cl_RootOperation claims) (OperationId operation)) ||
             negb (str_eqb (cl_CatalogDigest claims) (catalogDigest registry)) ||
             negb (str_eqb (cl_SchemaDigest claims) (sha_text (InputSchemaJson operation)))
          then failed
          else Ok {| ProductPermission :=
                       {| AuthenticatedOwnerId := AuthenticatedOwnerId p;
                          GrantedScopes := RequiredScopes operation; CapabilityGrant := childGrant;
                          AccountGeneration := AccountGeneration p; RootRequestDigest := rootDigest |};
                     ExpiresAtUnixMs := cl_ExpiresAtUnixMs claims |}
      end
  end.

Definition set_exchange_json (raw : string) (req : ExchangeRequest) : ExchangeRequest :=
  {| x_CapabilityId := x_CapabilityId req; x_Operation := x_Operation req; x_RequestJson := raw;
     x_ExpectedRevision := x_ExpectedRevision req; x_ParentPermission := x_ParentPermission req;
     x_CallContext := x_CallContext req; x_ChildOperationId := x_ChildOperationId req;
     x_TargetKind := x_TargetKind req |}.

Definition exchange (md : option metadata) (req : ExchangeRequest) (time : Z)
    : result status ExchangeProductDelegationResponse :=
  match resolveProvider registry (x_CapabilityId req) (x_Operation req) TYPE_UNSPECIFIED with
  | Err e => Err (as_status e)
  | Ok (provider, operation) =>
  let requestJSON := request_or_empty (x_RequestJson req) in
  match ValidateProductDelegationExchangeRequest (set_exchange_json requestJSON req) with
  | Some e => Err (refused InvalidArgument_ (error_text e))
  | None =>
  match validateOperationInput operation requestJSON with
  | Some e => Err (refused InvalidArgument_ (error_text e))
  | None =>
  let? (pc, parent) := parent_claims md req operation time in
  match rootRequestDigest (Descriptor provider) operation requestJSON (x_ExpectedRevision req) with
  | Err e => Err (refused InvalidArgument_ (error_text e))
  | Ok rootDigest => issue_child req pc.1 pc.2 parent operation rootDigest time
  end
  end
  end
  end.

Definition ExchangeProductDelegation (md : option metadata) (req : option ExchangeRequest)
    : M St status ExchangeProductDelegationResponse :=
  let! _ := acquire (acquireMutationSem cfg) in
  match req with
  | None => fail (refused InvalidArgument_ "request is required")
  | Some req => reads (fun st => exchange md req (now st.2))
  end.

(** ** The peer *)

Definition configPeerCommonName : string :=
  if str_empty (trim_space (PeerCommonName cfg)) then "agent-client" else trim_space (PeerCommonName cfg).

(** The part of the metadata that speaks about the caller. *)
Definition direction_metadata (md : metadata) : metadata :=
  let keep key := default [] (md !! key) in
  {[CapabilityAuthorizationMetadata := keep CapabilityAuthorizationMetadata;
    CapabilityInstanceMetadata := keep CapabilityInstanceMetadata;
    CapabilityGenerationMetadata := keep CapabilityGenerationMetadata]}.

Definition expected_peer : string :=
  if str_empty (trim_space (PeerInstanceID cfg)) then trim_space (InstanceID cfg)
  else trim_space (PeerInstanceID cfg).

(** The token, instance and generation of the caller. *)
Definition check_metadata (md : metadata) : option status :=
  let bad := Some (refused Unauthenticated "invalid capability direction metadata") in
  match ParseCapabilityMetadata (direction_metadata md) with
  | Err _ => bad
  | Ok parsed =>
      if negb (constantTimeEqual (cm_Token parsed) token) then bad
      else
        let peerID := trim_space (cm_InstanceID parsed) in
        if str_empty peerID || str_empty expected_peer || negb (str_eqb peerID expected_peer)
        then Some (refused Unauthenticated "invalid capability peer instance")
        else if (0 <? ExpectedAccountGeneration cfg) &&
                negb (cm_AccountGeneration parsed =? ExpectedAccountGeneration cfg)
        then Some (refused Unauthenticated "stale account generation") else None
  end.

Definition authenticate (i : incoming) : option status :=
  match in_peer i with
  | None => Some (refused Unauthenticated "no peer info")
  | Some p =>
  match AuthInfo p with
  | None => Some (refused Unauthenticated "no TLS info")
  | Some tls =>
  if (VerifiedChains tls =? 0)%nat then Some (refused Unauthenticated "no verified chains")
  else match PeerCertificates tls with
  | [] => Some (refused Unauthenticated "client certificate unavailable")
  | name :: _ =>
  if negb (str_eqb name configPeerCommonName)
  then Some (refused Unauthenticated ("invalid client CN: " +:+ name))
  else if str_empty (PeerInstanceID cfg) && str_empty (InstanceID cfg)
  then Some (refused Unauthenticated "peer instance id is not configured")
  else match in_metadata i with
  | None => Some (refused Unauthenticated "capability metadata is required")
  | Some md => check_metadata md
  end
  end
  end
  end.

(** ** Calls as they arrive *)

Inductive request :=
| DescribeRequest (call : option CallContext)
| RequestExchange (req : ExchangeRequest)
| RequestQuery (req : QueryRequest)
| RequestStart (req : StartOperationRequest)
| RequestGet (req : ControlRequest)
| RequestCancel (req : ControlRequest)
| RequestReconcile (req : ControlRequest).

Inductive response :=
| Described (capabilities : list CapabilityDescriptor) (version : Z) (digest : string)
| Exchanged (r : ExchangeProductDelegationResponse)
| Queried (r : result CapabilityError string)
| Started (r : StartOperationResponse)
| Got (r : GetOperationResponse)
| CancelledTo (state : OperationState)
| Reconciled (r : ReconcileOperationResponse).

Definition call_context (r : request) : option CallContext :=
  match r with
  | DescribeRequest call => call
  | RequestExchange req => x_CallContext req
  | RequestQuery req => q_CallContext req
  | RequestStart req => so_CallContext req
  | RequestGet req | RequestCancel req | RequestReconcile req => c_CallContext req
  end.

Definition setRequestCallContext (c : CallContext) (r : request) : request :=
  match r with
  | DescribeRequest _ => DescribeRequest (Some c)
  | RequestExchange req => RequestExchange
      {| x_CapabilityId := x_CapabilityId req; x_Operation := x_Operation req;
         x_RequestJson := x_RequestJson req; x_ExpectedRevision := x_ExpectedRevision req;
         x_ParentPermission := x_ParentPermission req; x_CallContext := Some c;
         x_ChildOperationId := x_ChildOperationId req; x_TargetKind := x_TargetKind req |}
  | RequestQuery req => RequestQuery
      {| q_CapabilityId := q_CapabilityId req; q_OperationId := q_OperationId req;
         q_RequestJson := q_RequestJson req; q_Permission := q_Permission req;
         q_CallContext := Some c |}
  | RequestStart req => RequestStart
      {| so_CapabilityId := so_CapabilityId req; so_Operation := so_Operation req;
         so_OperationId := so_OperationId req; so_RequestJson := so_RequestJson req;
         so_RequestDigest := so_RequestDigest req; so_ExpectedRevision := so_ExpectedRevision req;
         so_Permission := so_Permission req; so_CallContext := Some c |}
  | RequestGet req => RequestGet (set_control_call c req)
  | RequestCancel req => RequestCancel (set_control_call c req)
  | RequestReconcile req => RequestReconcile (set_control_call c req)
  end.

Definition is_describe (r : request) : bool :=
  match r with DescribeRequest _ => true | _ => false end.

Definition answers {A} (f : A -> response) (m : M St status A) (st : St)
    : St * (result status response * option (task X)) :=
  match m st with
  | (st, Ok a) => (st, (Ok (f a), None))
  | (st, Err e) => (st, (Err e, None))
  end.

(** The method of a request. *)
Definition handle (md : option metadata) (r : request) (st : St)
    : St * (result status response * option (task X)) :=
  match r with
  | DescribeRequest _ =>
      let '(l, version, digest) := DescribeCapabilities registry in
      (st, (Ok (Described l version digest), None))
  | RequestExchange req => answers Exchanged (ExchangeProductDelegation md (Some req)) st
  | RequestQuery req => answers Queried (Query md (Some req)) st
  | RequestStart req =>
      let '(st, (r, t)) := StartOperation md (Some req) st in
      (st, (let? r := r in Ok (Started r), t))
  | RequestGet req => answers Got (GetOperation md (Some req)) st
  | RequestCancel req => answers CancelledTo (CancelOperation md (Some req)) st
  | RequestReconcile req => answers Reconciled (ReconcileOperation md (Some req)) st
  end.

Definition unaryInterceptor (ready : bool) (i : incoming) (r : request) (st : St)
    : St * (result status response * option (task X)) :=
  match authenticate i with
  | Some e => (st, (Err e, None))
  | None =>
      match validateCallContext (call_context r) with
      | Err e => (st, (Err e, None))
      | Ok c =>
          if negb (is_describe r) && negb ready
          then (st, (Err (refused Unavailable_ "service not ready"), None))
          else handle (in_metadata i) (setRequestCallContext c r) st
      end
  end.

Definition streamInterceptor (ready : bool) (i : incoming)
    (send : WatchOperationEvent -> M X goerror unit) (req : ControlRequest)
    : M St status (result goerror bool) :=
  match authenticate i with
  | Some e => fail e
  | None => if negb ready then fail (refused Unavailable_ "service not ready")
            else WatchOperation (in_metadata i) send (Some req)
  end.
End Calls.
End CapabilityCalls.
