(* ===== verification/Social.v ===== *)
(** * Favourites, follows, read markers and reports

    [p2p/internal/social]: the [favorites.*] and [follows.*] actions;
    [p2p/service_profile_sync.go]: the read marker of a room;
    [p2p/internal/reports]: the submission of a report.  Each module works on
    a store it is given ([SocialStore], [MarkerStore], the ports of a report);
    the memory tables are one. *)

From Stdlib Require Import Ascii String ZArith Lia.
From stdpp Require Import base tactics list gmap strings.
From S2P Require Import Prelude GoStrings GoCase Values Domain GoTime Policy Action MemoryTables Workflow.
Local Open Scope Z_scope.
Local Open Scope go_scope.

(** [social.Store] *)
Class SocialStore (S : Type) := {
  UpsertFavorite : Favorite.FavoriteRecord -> M S goerror unit;
  FindFavoriteByEvent : string -> string -> S -> result goerror (option Favorite.FavoriteRecord);
  ListFavorites : string -> S -> result goerror (list Favorite.FavoriteRecord);
  DeleteFavorite : Z -> M S goerror unit;
  UpsertFollow : Follow.FollowRecord -> M S goerror unit;
  ListFollows : S -> result goerror (list Follow.FollowRecord);
  DeleteFollow : string -> M S goerror unit;
}.

#[export] Instance memory_social_store `{GoRange} : SocialStore T.tables := {
  UpsertFavorite favorite := run (fun s => MemoryTables.UpsertFavorite s favorite);
  FindFavoriteByEvent eventID roomID s := Ok (MemoryTables.FindFavoriteByEvent s eventID roomID);
  ListFavorites messageType s := Ok (MemoryTables.ListFavorites s messageType);
  DeleteFavorite id := run (fun s => MemoryTables.DeleteFavorite s id);
  UpsertFollow follow := run (fun s => MemoryTables.UpsertFollow s follow);
  ListFollows s := Ok (MemoryTables.ListFollows s);
  DeleteFollow domain := run (fun s => MemoryTables.DeleteFollow s domain);
}.

(** ** Favourites and follows *)

Module Social.
(** [social.Module] with its store: the last id it gave, and whether the
    stored ids were looked at. *)
Record state (S : Type) := {
  store : S;
  lastFavoriteID : Z;
  favoriteIDsSet : bool;
}.
Arguments store {S}.
Arguments lastFavoriteID {S}.
Arguments favoriteIDsSet {S}.

Section Module_.
Context {S : Type} `{SocialStore S}.
Local Notation St := (state S).

Definition on_store {E A} (m : M S E A) : M St E A := fun st =>
  let '(s, r) := m (store st) in
  ({| store := s; lastFavoriteID := lastFavoriteID st; favoriteIDsSet := favoriteIDsSet st |}, r).

Definition remember (id : Z) (set : bool) (st : St) : St :=
  {| store := store st; lastFavoriteID := id; favoriteIDsSet := set |}.

Definition max_id (id : Z) (favorites : list Favorite.FavoriteRecord) : Z :=
  fold_left (fun last f => if last <? Favorite.ID f then Favorite.ID f else last) favorites id.

(** The stored ids, once. *)
Definition load_ids : M St goerror unit := fun st =>
  if favoriteIDsSet st then (st, Ok tt)
  else match ListFavorites "" (store st) with
       | Err e => (st, Err e)
       | Ok favorites => (remember (max_id (lastFavoriteID st) favorites) true st, Ok tt)
       end.

Definition nextFavoriteIDLocked (now : Z) : M St goerror Z :=
  let! _ := load_ids in
  fun st =>
    let id := unix_milli now in
    let id := if id <=? lastFavoriteID st then wrap64 (lastFavoriteID st + 1) else id in
    (remember id (favoriteIDsSet st) st, Ok id).

Definition favorite_of (params : content) (now : Z) (id : Z) (createdAt : string)
    : Favorite.FavoriteRecord :=
  {| Favorite.ID := id; Favorite.EventID := Params.get_string params "event_id";
     Favorite.RoomID := Params.get_string params "room_id";
     Favorite.SenderID := Params.get_string params "sender_id";
     Favorite.SenderName := Params.get_string params "sender_name";
     Favorite.Content := Params.get_string params "content";
     Favorite.MessageType := Params.get_string params "message_type";
     Favorite.OriginServerTS := Params.get_int64 params "origin_server_ts";
     Favorite.CreatedAt := createdAt |}.

(** The id and creation time of a favourite: those of the favourite that the
    event has already, or new ones. *)
Definition favorite_identity (params : content) (now : Z) : M St goerror (Z * string) :=
  let fresh := let! id := nextFavoriteIDLocked now in ret (id, format_rfc3339nano now) in
  if str_empty (Params.get_string params "event_id") then fresh
  else
    let! existing := reads (fun st => FindFavoriteByEvent (Params.get_string params "event_id")
                                        (Params.get_string params "room_id") (store st)) in
    match existing with
    | None => fresh
    | Some f => fun st =>
        let st := if lastFavoriteID st <? Favorite.ID f
                  then remember (Favorite.ID f) (favoriteIDsSet st) st else st in
        (st, Ok (Favorite.ID f, if str_empty (Favorite.CreatedAt f) then format_rfc3339nano now
                                else Favorite.CreatedAt f))
    end.

Definition handleFavoritesAdd (now : Z) (params : content) : M St Api.Error Favorite.FavoriteRecord :=
  let! (id, createdAt) := internal (favorite_identity params now) in
  let favorite := favorite_of params now id createdAt in
  let! _ := internal (on_store (UpsertFavorite favorite)) in
  ret favorite.

Definition handleFavoritesList (params : content) : M St Api.Error (list Favorite.FavoriteRecord) :=
  internal (reads (fun st => ListFavorites (trim_space (Params.get_string params "message_type")) (store st))).

Definition handleFavoritesDelete (params : content) : M St Api.Error unit :=
  internal (on_store (DeleteFavorite (Params.get_int64 params "id"))).

Definition handleFavoritesDeleteBatch (params : content) : M St Api.Error (list Z) :=
  let ids := Params.Int64s (get params "ids") in
  if (length ids =? 0)%nat then fail (Api.BadRequest "ids is required")
  else if (500 <? length ids)%nat then fail (Api.BadRequest "ids is too large")
  else
    let! _ := internal (for_each (fun id => on_store (DeleteFavorite id)) ids) in
    ret ids.

Definition handleFollowsList : M St Api.Error (list Follow.FollowRecord) :=
  internal (reads (fun st => ListFollows (store st))).

Definition handleFollowsAdd (now : Z) (params : content) : M St Api.Error Follow.FollowRecord :=
  let domain := Params.get_string params "domain" in
  if str_empty domain then fail (Api.BadRequest "domain is required")
  else
    let follow := {| Follow.Domain := domain; Follow.CreatedAt := format_rfc3339nano now |} in
    let! _ := internal (on_store (UpsertFollow follow)) in
    ret follow.

Definition handleFollowsRemove (params : content) : M St Api.Error unit :=
  internal (on_store (DeleteFollow (Params.get_string params "domain"))).
End Module_.
End Social.

(** ** Read markers *)

Class MarkerStore (S : Type) := {
  SaveReadMarker : Marker.ReadMarker -> M S goerror unit;
  GetReadMarker : string -> S -> result goerror (option Marker.ReadMarker);
}.

#[export] Instance memory_marker_store `{GoRange} : MarkerStore T.tables := {
  SaveReadMarker marker := run (fun s => MemoryTables.SaveReadMarker s marker);
  GetReadMarker roomID s := Ok (MemoryTables.GetReadMarker s roomID);
}.

Module ReadMarkers.
(** The place of an event in the order of its room: topological position,
    stream position and time. *)
Definition position : Type := Z * Z * Z.

Section Service.
Context {S : Type} `{MarkerStore S}.
(** [ResolveReadMarkerPosition]: unset, or the place of an event in a room. *)
Context (resolver : option (string -> string -> result goerror (option position))).

Definition usable (p : position) : bool :=
  let '(topological, stream, _) := p in (0 <=? topological) && (0 <? stream).

Definition place (roomID eventID : string) (p : position) : Marker.ReadMarker :=
  let '(topological, stream, ts) := p in
  {| Marker.RoomID := roomID; Marker.EventID := eventID; Marker.OriginServerTS := ts;
     Marker.TopologicalPosition := topological; Marker.StreamPosition := stream |}.

Definition unresolvable : goerror :=
  ErrOther "stored read marker cannot be resolved into authoritative room order".

(** A stored marker from before positions were kept gets its position. *)
Definition upgrade (resolve : string -> string -> result goerror (option position))
    (current : Marker.ReadMarker) : M S Api.Error unit :=
  if 0 <? Marker.StreamPosition current then ret tt
  else match resolve (Marker.RoomID current) (Marker.EventID current) with
       | Err e => fail (Api.InternalError (error_text e))
       | Ok (Some p) =>
           if usable p
           then internal (SaveReadMarker (place (Marker.RoomID current) (Marker.EventID current) p))
           else fail (Api.InternalError (error_text unresolvable))
       | Ok None => fail (Api.InternalError (error_text unresolvable))
       end.

Definition updateReadMarker (params : content) : M S Api.Error unit :=
  let roomID := Params.get_string params "room_id" in
  let eventID := Params.get_string params "event_id" in
  if str_empty roomID || str_empty eventID
  then fail (Api.BadRequest "room_id and event_id are required")
  else match resolver with
  | None => fail (Api.InternalError "read marker position resolver is not configured")
  | Some resolve =>
      match resolve roomID eventID with
      | Err e => fail (Api.InternalError (error_text e))
      | Ok (Some p) =>
          if negb (usable p) then fail (Api.BadRequest "event_id cannot be resolved in room_id")
          else
            let! current := internal (reads (GetReadMarker roomID)) in
            let! _ := when_set current (upgrade resolve) in
            internal (SaveReadMarker (place roomID eventID p))
      | Ok None => fail (Api.BadRequest "event_id cannot be resolved in room_id")
      end
  end.
End Service.
End ReadMarkers.

(** ** Reports *)

Module Reports.
Record ReportRecord := {
  ReportID : string;
  TargetType : string;
  TargetRoomID : string;
  TargetChannelID : string;
  TargetName : string;
  ReporterMXID : string;
  ReporterDisplayName : string;
  Reason : string;
  Body : string;
  ImageURLs : list string;
  SystemRoomID : string;
  EventID : string;
  OriginServerTS : Z;
  CreatedAt : string;
}.

Record Target := {
  t_RoomID : string;
  t_ChannelID : string;
  t_Name : string;
}.

Record SystemRoom := {
  sys_RoomID : string;
  sys_SenderMXID : string;
}.

(** The notice to the owner. *)
Record Notice := {
  n_SenderMXID : string;
  n_RoomID : string;
  n_EventType : string;
  n_MessageType : string;
  n_Content : content;
  n_Timestamp : Z;
}.

(** The ports of the module; [InsertReport] may be unset. *)
Record Ports (W : Type) := {
  Group : string -> M W goerror (option Target);
  Channel : string -> string -> M W goerror (option Target);
  Ensure : M W goerror SystemRoom;
  SendMessage : Notice -> M W goerror (string * Z);
  InsertReport : option (ReportRecord -> M W goerror unit);
  SaveConversation : Conv.ConversationRecord -> M W goerror unit;
  NewReportID : W -> string;
  now : W -> Z;
  transportError : goerror -> Api.Error;
}.
Arguments Group {W}.
Arguments Channel {W}.
Arguments Ensure {W}.
Arguments SendMessage {W}.
Arguments InsertReport {W}.
Arguments SaveConversation {W}.
Arguments NewReportID {W}.
Arguments now {W}.
Arguments transportError {W}.

Definition SystemRoomName : string := "System Notification".

Definition fallback (value defaultValue : string) : string :=
  if str_empty (trim_space value) then defaultValue else trim_space value.

Definition report_text (r : ReportRecord) : string :=
  fallback (Body r) "A report has been submitted for a group or channel you manage.".

Definition notificationContent (r : ReportRecord) : content :=
  {["msgtype" := AString "m.notice"; "body" := AString (report_text r);
    "msg_type" := AString "report"; "client_type" := AString "report";
    "p2p_kind" := AString "system_report"; "report_id" := AString (ReportID r);
    "target_type" := AString (TargetType r); "target_room_id" := AString (TargetRoomID r)]} ∪
  {["target_channel_id" := AString (TargetChannelID r); "target_name" := AString (TargetName r);
    "reporter_mxid" := AString (ReporterMXID r);
    "reporter_display_name" := AString (ReporterDisplayName r); "reason" := AString (Reason r);
    "report_time" := AString (CreatedAt r); "image_urls" := AStrings (ImageURLs r)]}.

Definition set_sent (eventID : string) (ts : Z) (r : ReportRecord) : ReportRecord :=
  {| ReportID := ReportID r; TargetType := TargetType r; TargetRoomID := TargetRoomID r;
     TargetChannelID := TargetChannelID r; TargetName := TargetName r; ReporterMXID := ReporterMXID r;
     ReporterDisplayName := ReporterDisplayName r; Reason := Reason r; Body := Body r;
     ImageURLs := ImageURLs r; SystemRoomID := SystemRoomID r; EventID := eventID;
     OriginServerTS := ts; CreatedAt := CreatedAt r |}.

Section Module_.
Context {W : Type} (p : Ports W).

Definition resolveTarget (targetType channelID roomID : string) : M W Api.Error Target :=
  let found what m := let! t := internal m in
    match t with Some t => ret t | None => fail (Api.StatusError 404 what) end in
  if str_eqb targetType "group" then found "group not found" (Group p roomID)
  else if str_eqb targetType "channel" then found "channel not found" (Channel p channelID roomID)
  else fail (Api.BadRequest "target_type must be group or channel").

Definition report_of (params : content) (targetType : string) (target : Target) (room : SystemRoom)
    (id : string) (time : Z) : ReportRecord :=
  {| ReportID := id; TargetType := targetType; TargetRoomID := t_RoomID target;
     TargetChannelID := t_ChannelID target; TargetName := t_Name target;
     ReporterMXID := Params.FirstString params ["reporter_mxid"; "user_mxid"];
     ReporterDisplayName := Params.FirstString params ["reporter_display_name"; "display_name"];
     Reason := Params.FirstString params ["reason"; "report_reason"];
     Body := Params.get_string params "body"; ImageURLs := Params.get_strings params "image_urls";
     SystemRoomID := sys_RoomID room; EventID := ""; OriginServerTS := 0;
     CreatedAt := format_rfc3339nano time |}.

Definition system_conversation (room : SystemRoom) (r : ReportRecord) (time : Z)
    : Conv.ConversationRecord :=
  Conv.mk "" (sys_RoomID room) "system" "active" "" "" SystemRoomName "" (EventID r) (report_text r)
    (OriginServerTS r) "ready" "" (unix_milli time) (unix_milli time).

(** The notice is sent, then the report stored and the conversation of the
    system room brought up to date. *)
Definition deliver (room : SystemRoom) (report : ReportRecord) (time : Z)
    : M W Api.Error ReportRecord := fun w =>
  match SendMessage p {| n_SenderMXID := sys_SenderMXID room; n_RoomID := sys_RoomID room;
                         n_EventType := "m.room.message"; n_MessageType := "m.notice";
                         n_Content := notificationContent report; n_Timestamp := time |} w with
  | (w, Err e) => (w, Err (transportError p e))
  | (w, Ok (event, ts)) =>
      let report := set_sent (trim_space event) (if ts <=? 0 then unix_milli time else ts) report in
      (let! _ := when_set (InsertReport p) (fun insert => internal (insert report)) in
       let! _ := internal (SaveConversation p (system_conversation room report time)) in
       ret report) w
  end.

Definition Submit (params : content) : M W Api.Error ReportRecord :=
  let roomID := Params.get_string params "room_id" in
  let channelID := Params.get_string params "channel_id" in
  let asked := to_lower (Params.FirstString params ["target_type"; "room_type"]) in
  if str_empty roomID && str_empty channelID
  then fail (Api.BadRequest "room_id or channel_id is required")
  else
    let targetType := if str_empty asked then (if str_empty channelID then "group" else "channel")
                      else asked in
    let! target := resolveTarget targetType channelID roomID in
    let! room := internal (Ensure p) in
    if str_empty (trim_space (sys_RoomID room))
    then fail (Api.InternalError "system room is not available")
    else fun w =>
      deliver room (report_of params targetType target room (NewReportID p w) (now p w)) (now p w) w.
End Module_.
End Reports.
