(* ===== verification/Portal.v ===== *)
(** * The portal of the owner

    [p2p/internal/portal] and its wiring [p2p/service_portal.go]: the password
    of the owner, the session that follows from it and the credentials file;
    [p2p/internal/profile] with its part of [p2p/service_profile_sync.go]: the
    profile of the owner; [SavePortal] of [p2p/storage/memory_portal.go].

    The lock of the service is taken for each step by itself, so that other
    requests run between steps: [others] is what they do before each of them.
    The session gate is held from the choice of a device to the end of an
    action, and from the rotation of a password to its credentials file. *)

From Stdlib Require Import Ascii String ZArith Lia.
From stdpp Require Import base tactics list gmap strings.
From S2P Require Import Prelude GoStrings GoCase Values Domain GoTime Policy Action MemoryTables Workflow.
Local Open Scope Z_scope.
Local Open Scope go_scope.

Module Portal.

(** ** Data *)

Record OwnerProfile := {
  UserID : string;
  DisplayName : string;
  ProfileDomain : string;
  AvatarURL : string;
  Gender : string;
  Birthday : string;
  Phone : string;
  Email : string;
}.

Section Data.
(** The configuration of the agent and the build of the client are passed on
    unread; [clientBuild{}] is the empty build. *)
Context {AgentConfig ClientBuild : Type}.

(** [servicePortalState], with the home server of the service. *)
Record servicePortalState := {
  initialized : bool;
  password : string;
  accessToken : string;
  matrixDeviceID : string;
  agentToken : string;
  ownerMXID : string;
  agentRoomID : string;
  systemRoomID : string;
  profile : OwnerProfile;
  agentConfig : AgentConfig;
  clientBuild : ClientBuild;
  portalSessionGeneration : Z;
  homeserver : string;
}.

(** [dirextalkdomain.PortalState], what is stored. *)
Record PortalState := {
  ps_Initialized : bool;
  ps_Password : string;
  ps_AccessToken : string;
  ps_MatrixDeviceID : string;
  ps_AgentToken : string;
  ps_OwnerMXID : string;
  ps_AgentRoomID : string;
  ps_SystemRoomID : string;
  ps_Profile : OwnerProfile;
  ps_AgentConfig : AgentConfig;
  ps_ClientBuild : ClientBuild;
}.

Record Session := {
  AccessToken : string;
  DeviceID : string;
  SessionUserID : string;
  Homeserver : string;
  AgentRoomID : string;
  SystemRoomID : string;
  Password : string;
  Initialized : bool;
}.

Definition Response (s : Session) : content :=
  {["access_token" := AString (AccessToken s); "device_id" := AString (DeviceID s);
    "user_id" := AString (SessionUserID s); "homeserver" := AString (Homeserver s);
    "agent_room_id" := AString (AgentRoomID s); "system_room_id" := AString (SystemRoomID s);
    "password" := AString (Password s); "initialized" := ABool (Initialized s)]}.

Record Credentials := {
  GeneratedAt : Z;
  OwnerUserID : string;
  cr_UserID : string;
  cr_Homeserver : string;
  cr_AccessToken : string;
  cr_DeviceID : string;
  cr_AgentToken : string;
  cr_Password : string;
  cr_AgentRoomID : string;
  cr_SystemRoomID : string;
}.

Record DeletedCredentials := {
  DeletedAt : Z;
  del_OwnerUserID : string;
  del_UserID : string;
  del_Homeserver : string;
}.

Inductive file := NoFile | Current (c : Credentials) | Deleted (c : DeletedCredentials).

(** The service, its store and file, and the rest of the world. *)
Record world (X : Type) := {
  svc : servicePortalState;
  saved : option PortalState;
  credentialsFile : file;
  ext : X;
}.
Arguments svc {X}.
Arguments saved {X}.
Arguments credentialsFile {X}.
Arguments ext {X}.

Definition portalStateLocked (s : servicePortalState) : PortalState :=
  {| ps_Initialized := initialized s; ps_Password := password s; ps_AccessToken := accessToken s;
     ps_MatrixDeviceID := HTTP.cleanMatrixDeviceID (matrixDeviceID s); ps_AgentToken := agentToken s;
     ps_OwnerMXID := ownerMXID s; ps_AgentRoomID := agentRoomID s; ps_SystemRoomID := systemRoomID s;
     ps_Profile := profile s; ps_AgentConfig := agentConfig s; ps_ClientBuild := clientBuild s |}.

Definition session_of (s : servicePortalState) : Session :=
  {| AccessToken := accessToken s; DeviceID := HTTP.cleanMatrixDeviceID (matrixDeviceID s);
     SessionUserID := ownerMXID s; Homeserver := homeserver s; AgentRoomID := agentRoomID s;
     SystemRoomID := systemRoomID s; Password := password s; Initialized := initialized s |}.

Record Snapshot := { State : PortalState; SnapshotSession : Session }.

Definition snapshotLocked (s : servicePortalState) : Snapshot :=
  {| State := portalStateLocked s; SnapshotSession := session_of s |}.

Definition set_profile (v : OwnerProfile) (s : servicePortalState) : servicePortalState :=
  {| initialized := initialized s; password := password s; accessToken := accessToken s;
     matrixDeviceID := matrixDeviceID s; agentToken := agentToken s; ownerMXID := ownerMXID s;
     agentRoomID := agentRoomID s; systemRoomID := systemRoomID s; profile := v;
     agentConfig := agentConfig s; clientBuild := clientBuild s;
     portalSessionGeneration := portalSessionGeneration s; homeserver := homeserver s |}.

(** ** The store *)

(** A stored build stays with its device. *)
Definition SavePortal (state : PortalState) (saved : option PortalState) : PortalState :=
  match saved with
  | Some old =>
      if str_eqb (ps_MatrixDeviceID old) (ps_MatrixDeviceID state)
      then {| ps_Initialized := ps_Initialized state; ps_Password := ps_Password state;
              ps_AccessToken := ps_AccessToken state; ps_MatrixDeviceID := ps_MatrixDeviceID state;
              ps_AgentToken := ps_AgentToken state; ps_OwnerMXID := ps_OwnerMXID state;
              ps_AgentRoomID := ps_AgentRoomID state; ps_SystemRoomID := ps_SystemRoomID state;
              ps_Profile := ps_Profile state; ps_AgentConfig := ps_AgentConfig state;
              ps_ClientBuild := ps_ClientBuild old |}
      else state
  | None => state
  end.

(** ** The wiring and the module *)

Section Service.
Context {X : Type} (emptyBuild : ClientBuild).
(** Whether the service has a store and the path of the credentials file;
    whether a write of either fails; the clock and the random tokens; the
    issuer of Matrix sessions, which may be unset; the other requests. *)
Context (hasStore : bool) (credentialsPath : string).
Context (saving writing : X -> X * option goerror) (now : X -> Z).
Context (randomToken : string -> X -> X * string).
Context (issuer : option (string -> string -> string -> string -> bool -> M X goerror string)).
Local Notation W := (world X).
Context (others : W -> W).

Definition set_svc (f : servicePortalState -> servicePortalState) (w : W) : W :=
  {| svc := f (svc w); saved := saved w; credentialsFile := credentialsFile w; ext := ext w |}.
Definition set_ext (x : X) (w : W) : W :=
  {| svc := svc w; saved := saved w; credentialsFile := credentialsFile w; ext := x |}.

(** Other requests, whenever the lock of the service is free. *)
Definition meanwhile {E} : M W E unit := run others.

Definition random (prefix : string) {E} : M W E string := fun w =>
  let '(x, token) := randomToken prefix (ext w) in (set_ext x w, Ok token).

Definition Save (state : PortalState) : M W goerror unit := fun w =>
  if negb hasStore then (w, Ok tt)
  else match saving (ext w) with
       | (x, Some e) => (set_ext x w, Err e)
       | (x, None) => ({| svc := svc w; saved := Some (SavePortal state (saved w));
                          credentialsFile := credentialsFile w; ext := x |}, Ok tt)
       end.

(** [writeAtomicJSON]: the file is replaced whole, or stays. *)
Definition writeAtomicJSON (f : file) : M W goerror unit := fun w =>
  if str_empty (trim_space credentialsPath) then (w, Ok tt)
  else match writing (ext w) with
       | (x, Some e) => (set_ext x w, Err e)
       | (x, None) => ({| svc := svc w; saved := saved w; credentialsFile := f; ext := x |}, Ok tt)
       end.

Definition current_credentials (s : servicePortalState) (time : Z) : Credentials :=
  {| GeneratedAt := time; OwnerUserID := ownerMXID s; cr_UserID := ownerMXID s;
     cr_Homeserver := homeserver s; cr_AccessToken := accessToken s;
     cr_DeviceID := HTTP.matrixPortalDeviceID; cr_AgentToken := agentToken s;
     cr_Password := password s; cr_AgentRoomID := agentRoomID s; cr_SystemRoomID := systemRoomID s |}.

Definition WriteCurrent : M W goerror unit :=
  let! _ := meanwhile in
  fun w => writeAtomicJSON (Current (current_credentials (svc w) (now (ext w)))) w.

Definition WriteDeleted : M W goerror unit :=
  let! _ := meanwhile in
  fun w => writeAtomicJSON (Deleted {| DeletedAt := now (ext w); del_OwnerUserID := ownerMXID (svc w);
    del_UserID := ownerMXID (svc w); del_Homeserver := homeserver (svc w) |}) w.

Definition Authenticate (password_ : string) {E} : M W E (option Snapshot) :=
  let! _ := meanwhile in
  reads (fun w => Ok (if str_eqb password_ (password (svc w)) then Some (snapshotLocked (svc w)) else None)).

Definition rotated (newPassword token : string) (s : servicePortalState) : servicePortalState :=
  {| initialized := true; password := newPassword; accessToken := token;
     matrixDeviceID := matrixDeviceID s; agentToken := agentToken s; ownerMXID := ownerMXID s;
     agentRoomID := agentRoomID s; systemRoomID := systemRoomID s; profile := profile s;
     agentConfig := agentConfig s; clientBuild := clientBuild s;
     portalSessionGeneration := (portalSessionGeneration s + 1) mod 2 ^ 64; homeserver := homeserver s |}.

Definition RotatePassword (oldPassword newPassword : string) {E} : M W E (option Snapshot) :=
  let! _ := meanwhile in
  fun w =>
    if str_empty oldPassword || negb (str_eqb oldPassword (password (svc w))) then (w, Ok None)
    else (let! token := random "p2p_access" in
          let! _ := run (set_svc (rotated newPassword token)) in
          reads (fun w => Ok (Some (snapshotLocked (svc w))))) w.

Definition committed (token deviceID : string) (s : servicePortalState) : servicePortalState :=
  {| initialized := initialized s; password := password s; accessToken := token;
     matrixDeviceID := deviceID; agentToken := agentToken s; ownerMXID := ownerMXID s;
     agentRoomID := agentRoomID s; systemRoomID := systemRoomID s; profile := profile s;
     agentConfig := agentConfig s;
     clientBuild := if str_eqb (matrixDeviceID s) deviceID then clientBuild s else emptyBuild;
     portalSessionGeneration := (portalSessionGeneration s + 1) mod 2 ^ 64; homeserver := homeserver s |}.

Definition CommitMatrixSession (token deviceID : string) {E} : M W E Snapshot :=
  let! _ := meanwhile in
  let! _ := run (set_svc (committed token deviceID)) in
  reads (fun w => Ok (snapshotLocked (svc w))).

(** The token of a new Matrix session of the owner; [None] without an issuer. *)
Definition EnsureOwnerSession (deviceID : string) (revoke : bool) : M W goerror (option string) :=
  let! _ := meanwhile in
  match issuer with
  | None => ret None
  | Some ensure => fun w =>
      let p := profile (svc w) in
      match ensure (UserID p) (DisplayName p) (AvatarURL p) deviceID revoke (ext w) with
      | (x, Ok token) => (set_ext x w, Ok (Some token))
      | (x, Err e) => (set_ext x w, Err e)
      end
  end.

Definition requestedMatrixDeviceID (params : content) {E} : M W E string :=
  let deviceID := Params.get_string params "device_id" in
  if str_empty deviceID
  then let! token := random "device" in ret ("PORTALIM" +:+ trim_prefix token "device_")
  else ret (HTTP.cleanMatrixDeviceID deviceID).

Definition set_DeviceID (v : string) (s : Session) : Session :=
  {| AccessToken := AccessToken s; DeviceID := v; SessionUserID := SessionUserID s;
     Homeserver := Homeserver s; AgentRoomID := AgentRoomID s; SystemRoomID := SystemRoomID s;
     Password := Password s; Initialized := Initialized s |}.

Definition refreshMatrixSession (session : Session) (params : content) : M W Api.Error Session :=
  let! _ := meanwhile in
  let! deviceID := requestedMatrixDeviceID params in
  let! token := internal (EnsureOwnerSession deviceID true) in
  match token with
  | None => ret (set_DeviceID deviceID session)
  | Some token =>
      let! snapshot := CommitMatrixSession token deviceID in
      let! _ := internal (Save (State snapshot)) in
      let! _ := internal WriteCurrent in
      ret (SnapshotSession snapshot)
  end.

Definition invalid {A} : M W Api.Error A := fail (Api.StatusError 401 "password invalid").

Definition bootstrap (params : content) : M W Api.Error Session :=
  let password_ := Params.FirstString params ["password"; "token"] in
  if str_empty password_ then fail (Api.BadRequest "password is required")
  else
    let! snapshot := Authenticate password_ in
    match snapshot with
    | None => invalid
    | Some snapshot =>
        let! _ := internal (Save (State snapshot)) in
        let! _ := internal WriteCurrent in
        refreshMatrixSession (SnapshotSession snapshot) params
    end.

Definition auth (params : content) : M W Api.Error Session :=
  let password_ := Params.get_string params "password" in
  let! snapshot := Authenticate password_ in
  match snapshot with
  | None => invalid
  | Some snapshot => if str_empty password_ then invalid
                     else refreshMatrixSession (SnapshotSession snapshot) params
  end.

Definition changePassword (params : content) : M W Api.Error Session :=
  let newPassword := Params.get_string params "new_password" in
  if str_empty newPassword then fail (Api.BadRequest "new_password is required")
  else
    let! snapshot := RotatePassword (Params.get_string params "old_password") newPassword in
    match snapshot with
    | None => invalid
    | Some snapshot =>
        let! _ := internal (Save (State snapshot)) in
        let! _ := internal WriteCurrent in
        refreshMatrixSession (SnapshotSession snapshot) params
    end.

(** [portal.status]: what the service says about itself. *)
Context (storeMode : string) (projectorStarted matrixPolicy : bool).

Definition status : M W Api.Error content :=
  let! _ := meanwhile in
  reads (fun w => Ok
    {["initialized" := ABool (initialized (svc w)); "user_id" := AString (ownerMXID (svc w));
      "homeserver" := AString (homeserver (svc w)); "store_mode" := AString storeMode;
      "projector_started" := ABool projectorStarted;
      "policy_index_mode" := AString (if matrixPolicy then "matrix_state" else "unavailable");
      "policy_index_ready" := ABool matrixPolicy; "event_stream_ready" := ABool true]}).

(** ** The profile *)

(** [UpdateMatrixProfile] of the issuer, when it has it; the members of the
    owner, their store and the transport. *)
Record ProfilePorts := {
  UpdateMatrixProfile : option (string -> string -> string -> M X goerror unit);
  ListMembersForUser : string -> X -> result goerror (list Member.MemberRecord);
  saveMember : Member.MemberRecord -> M X goerror unit;
  UpdateMemberProfile : option (string -> string -> string -> string -> X -> X);
}.
Context (pp : ProfilePorts).

Definition on_ext {A} (m : M X goerror A) : M W goerror A := fun w =>
  let '(x, r) := m (ext w) in (set_ext x w, r).

Definition Commit (f : OwnerProfile -> OwnerProfile) : M W goerror OwnerProfile :=
  let! _ := meanwhile in
  let! _ := run (set_svc (fun s => set_profile (f (profile s)) s)) in
  fun w => (let! _ := Save (portalStateLocked (svc w)) in ret (profile (svc w))) w.

Definition UpdateMatrix (p : OwnerProfile) : M W goerror unit :=
  when_set (UpdateMatrixProfile pp) (fun update => on_ext (update (UserID p) (DisplayName p) (AvatarURL p))).

(** A failure of the transport is passed over. *)
Definition update_member (p : OwnerProfile) (m : Member.MemberRecord) : M W goerror unit :=
  let m := Member.set_AvatarURL (AvatarURL p) (Member.set_DisplayName (DisplayName p) m) in
  let! _ := on_ext (saveMember pp m) in
  when_set (UpdateMemberProfile pp) (fun update =>
    on_ext (run (update (Member.RoomID m) (UserID p) (DisplayName p) (AvatarURL p)))).

Definition UpdateMembers (p : OwnerProfile) : M W goerror unit :=
  let userID := trim_space (UserID p) in
  if str_empty userID then ret tt
  else
    let! members := reads (fun w => ListMembersForUser pp userID (ext w)) in
    for_each (update_member p) members.

Definition changed_profile (params : content) (p : OwnerProfile) : OwnerProfile :=
  let name := Params.get_string params "display_name" in
  {| UserID := UserID p; DisplayName := if str_empty name then DisplayName p else name;
     ProfileDomain := ProfileDomain p; AvatarURL := Params.get_string params "avatar_url";
     Gender := Params.get_string params "gender"; Birthday := Params.get_string params "birthday";
     Phone := Params.get_string params "phone"; Email := Params.get_string params "email" |}.

Definition get_profile : M W Api.Error OwnerProfile :=
  let! _ := meanwhile in reads (fun w => Ok (profile (svc w))).

Definition update_profile (params : content) : M W Api.Error OwnerProfile :=
  let! current := internal (Commit (changed_profile params)) in
  let! _ := internal (UpdateMatrix current) in
  let! _ := internal (UpdateMembers current) in
  ret current.

Definition WellKnown (p : OwnerProfile) : content :=
  {["matrix_user_id" := AString (UserID p); "mxid" := AString (UserID p); "user_id" := AString (UserID p);
    "display_name" := AString (DisplayName p); "avatar_url" := AString (AvatarURL p)]}.
End Service.
End Data.
Arguments svc {AgentConfig ClientBuild X}.
Arguments saved {AgentConfig ClientBuild X}.
Arguments credentialsFile {AgentConfig ClientBuild X}.
Arguments ext {AgentConfig ClientBuild X}.
Arguments servicePortalState : clear implicits.
Arguments PortalState : clear implicits.
Arguments world : clear implicits.
Arguments ProfilePorts : clear implicits.
End Portal.
