(* ===== verification/RemotePublicFacts.v ===== *)
(** * Theorems on calls of other nodes

    What a call of another node posts, and where; and that the addresses a
    redirect names are not checked. *)

From Stdlib Require Import Ascii String ZArith Lia.
From stdpp Require Import base tactics list gmap strings.
From S2P Require Import Prelude GoStrings Values Domain Policy PolicyFacts Action Operations.
From S2P Require Import OperationIdentity Workflow RemotePublic.
Local Open Scope Z_scope.
Local Open Scope go_scope.

Lemma list_of_app s t :
  list_ascii_of_string (s +:+ t) = list_ascii_of_string s ++ list_ascii_of_string t.
Proof. induction s as [|a s IH]; [done|]. simpl. by rewrite <- IH. Qed.

Lemma of_list_app l k :
  string_of_list_ascii (l ++ k) = string_of_list_ascii l +:+ string_of_list_ascii k.
Proof. induction l as [|a l IH]; [done|]. simpl. by rewrite IH. Qed.

Lemma has_suffix_spec s k : Remote.has_suffix s k = true <-> exists p, s = p +:+ k.
Proof.
  unfold Remote.has_suffix. rewrite bool_decide_eq_true.
  set (l := list_ascii_of_string s). set (n := (length l - length (list_ascii_of_string k))%nat).
  split.
  - intros Hd. exists (string_of_list_ascii (take n l)).
    rewrite <- (string_of_list_ascii_of_string k), <- Hd, <- of_list_app, take_drop.
    symmetry. apply string_of_list_ascii_of_string.
  - intros [p Hp]. subst n l. rewrite Hp, list_of_app, length_app.
    by rewrite Nat.add_sub, drop_app_length.
Qed.

Module RemotePublicFacts.
Import Identity Remote.

(** ** Slashes *)

Fixpoint slashes (n : nat) : string :=
  match n with O => "" | S n => String "/" (slashes n) end.

(** [base] is [path] without the slashes it ends in. *)
Definition without_slashes (path base : string) : Prop :=
  (exists n, path = base +:+ slashes n) /\ ~ exists p, base = p +:+ "/".

Lemma slashes_of n : slashes n = string_of_list_ascii (replicate n "/"%char).
Proof. induction n as [|n IH]; cbn; [done|]. by rewrite IH. Qed.

Lemma drop_slashes_spec l :
  exists n, l = replicate n "/"%char ++ drop_slashes l /\ head (drop_slashes l) <> Some "/"%char.
Proof.
  induction l as [|a l (n & Hl & Hh)]; [by exists 0%nat|]. cbn.
  destruct (Ascii.eqb_spec a "/") as [->|Hne].
  - exists (S n). cbn. by rewrite <- Hl.
  - exists 0%nat. split; [done|]. by intros [= ->].
Qed.

Lemma trim_slashes_spec s : without_slashes s (trim_slashes s).
Proof.
  unfold trim_slashes. destruct (drop_slashes_spec (rev (list_ascii_of_string s))) as (n & Hl & Hh).
  set (d := drop_slashes _) in *. split.
  - exists n. transitivity (string_of_list_ascii (rev d ++ replicate n "/"%char)).
    + rewrite <- (string_of_list_ascii_of_string s) at 1. f_equal.
      rewrite <- (rev_involutive (list_ascii_of_string s)), Hl, rev_app_distr. f_equal.
      rewrite rev_alt. apply (reverse_replicate n).
    + by rewrite of_list_app, slashes_of.
  - intros [p Hp]. apply (f_equal list_ascii_of_string) in Hp.
    rewrite list_ascii_of_string_of_list_ascii, list_of_app in Hp.
    apply (f_equal (@rev ascii)) in Hp. rewrite rev_involutive, rev_app_distr in Hp.
    rewrite Hp in Hh. by apply Hh.
Qed.

Section Calls.
Context `{NetText} `{RemoteText} {W : Type} (client : Client W).

(** ** The address *)

(** A host outside the reserved ranges: a name that is neither empty nor
    localhost nor below it, or a numeric address [netip] says nothing special
    of. *)
Record public_host (host : string) : Prop := {
  ph_given : host <> "";
  ph_name : to_lower host <> "localhost" /\ ~ exists p, to_lower host = p +:+ ".localhost";
  ph_address : forall addr, ParseAddr host = Some addr ->
    IsPrivate addr = false /\ IsLoopback addr = false /\ IsLinkLocalUnicast addr = false /\
    IsLinkLocalMulticast addr = false /\ IsMulticast addr = false /\
    IsUnspecified addr = false /\ IsGlobalUnicast addr = true;
}.

(** The parameter [remote_node_base_url] names [url]. *)
Record names_address (params : content) (url : URL) : Prop := {
  na_given : trimString (get params "remote_node_base_url") <> "";
  na_parsed : exists parsed base,
    url_Parse (trim_space (trimString (get params "remote_node_base_url"))) = Some parsed /\
    without_slashes (if decide (Path parsed = "" \/ Path parsed = "/") then "/_p2p" else Path parsed)
      base /\
    url = {| Scheme := Scheme parsed; hasUser := hasUser parsed; Host := Host parsed;
             Hostname := Hostname parsed; Path := base +:+ "/query"; RawQuery := ""; Fragment := "" |};
  na_scheme : Scheme url = "http" \/ Scheme url = "https";
  na_user : hasUser url = false;
  na_host : Host url <> "";
  na_public : remoteAllowPrivate client = false -> public_host (trim_space (Hostname url));
}.

(** [forward] has every parameter but the address. *)
Definition forwards (params forward : content) : Prop :=
  forward !! "remote_node_base_url" = None /\
  forall key, key <> "remote_node_base_url" -> forward !! key = params !! key.

Lemma uses_private_false base :
  remoteNodeBaseURLUsesPrivateHost base = false <-> public_host (trim_space (Hostname base)).
Proof using Type.
  unfold remoteNodeBaseURLUsesPrivateHost. cbv zeta. set (host := trim_space _).
  destruct (str_empty host) eqn:He.
  { apply str_empty_true in He. split; [done|]. by intros [? _ _]. }
  apply str_empty_false in He. destruct (_ || _) eqn:Hl.
  { split; [done|]. intros [_ [H1 H2] _]. apply orb_true_iff in Hl as [Hl|Hl].
    - by apply str_eqb_true in Hl.
    - by apply has_suffix_spec in Hl. }
  apply orb_false_iff in Hl as [Hl Hs]. apply str_eqb_false in Hl.
  assert (Hn : ~ exists p, to_lower host = p +:+ ".localhost").
  { intros Hp. apply has_suffix_spec in Hp. congruence. }
  destruct (ParseAddr host) as [addr|] eqn:Ha.
  - rewrite !orb_false_iff, negb_false_iff. split.
    + intros ((((((? & ?) & ?) & ?) & ?) & ?) & ?). split; [done..|]. intros ?. rewrite Ha. by intros [= <-].
    + intros [_ _ Hd]. destruct (Hd addr Ha) as (? & ? & ? & ? & ? & ? & ?). by split_and!.
  - split; [|done]. intros _. split; [done..|]. intros ?. by rewrite Ha.
Qed.

Lemma default_path path :
  (if str_empty path || str_eqb path "/" then "/_p2p" else path) =
  (if decide (path = "" \/ path = "/") then "/_p2p" else path).
Proof using Type.
  destruct (decide _) as [Hd|Hd].
  - destruct Hd as [-> | ->]; done.
  - rewrite (proj2 (str_empty_false path)), (proj2 (str_eqb_false path "/")); tauto.
Qed.

(** The address rules accept exactly the addresses that are named. *)
Lemma remoteNodeBaseURL_exact server params :
  trim_space server <> "" ->
  match remoteNodeBaseURL (remoteAllowPrivate client) server params with
  | Ok base => names_address params (queryURL base)
  | Err e => Api.Status e = 400 /\ forall url, ~ names_address params url
  end.
Proof using Type.
  intros Hserver. unfold remoteNodeBaseURL, normalizeRemoteNodeBaseURL, remoteNodeBaseURLParam.
  rewrite (proj2 (str_empty_false _) Hserver).
  destruct (str_empty (trimString _)) eqn:Hraw.
  { apply str_empty_true in Hraw. split; [done|]. by intros url [Hg _ _ _ _ _]. }
  apply str_empty_false in Hraw.
  destruct (url_Parse (trim_space _)) as [u|] eqn:Hu.
  2: { split; [done|]. intros url [_ (? & ? & Hp & _) _ _ _ _]. by rewrite Hu in Hp. }
  assert (Hnamed : forall url, names_address params url ->
    Scheme url = Scheme u /\ hasUser url = hasUser u /\ Host url = Host u /\ Hostname url = Hostname u).
  { intros url [_ (parsed & base & Hp & _ & ->) _ _ _ _]. rewrite Hu in Hp. by injection Hp as <-. }
  destruct (_ || hasUser u) eqn:Hempty.
  { split; [done|]. intros url Hn. destruct (Hnamed url Hn) as (Es & Eu & Eh & _).
    destruct Hn as [_ _ Hs Hus Hh _]. rewrite Eu in Hus. rewrite Es in Hs. rewrite Eh in Hh.
    rewrite Hus, orb_false_r in Hempty. apply orb_true_iff in Hempty as [He|He];
      apply str_empty_true in He; [|done]. rewrite He in Hs. by destruct Hs. }
  apply orb_false_iff in Hempty as [Hhost Huser]. apply orb_false_iff in Hhost as [_ Hhost].
  destruct (negb (str_eqb _ _) && _) eqn:Hscheme.
  { split; [done|]. intros url Hn. destruct (Hnamed url Hn) as (Es & _).
    destruct Hn as [_ _ Hs _ _ _]. rewrite Es in Hs. rewrite andb_true_iff, !negb_true_iff, !str_eqb_false in Hscheme.
    tauto. }
  assert (Hs : Scheme u = "http" \/ Scheme u = "https").
  { apply andb_false_iff in Hscheme as [Hs|Hs]; apply negb_false_iff, str_eqb_true in Hs; auto. }
  destruct (negb (remoteAllowPrivate client) && _) eqn:Hprivate.
  - apply andb_true_iff in Hprivate as [Hallow Hprivate]. apply negb_true_iff in Hallow.
    split; [done|]. intros url Hn. destruct (Hnamed url Hn) as (_ & _ & _ & Eh).
    destruct Hn as [_ _ _ _ _ Hpub]. specialize (Hpub Hallow). rewrite Eh in Hpub.
    apply (uses_private_false u) in Hpub. exact (eq_true_false_abs _ Hprivate Hpub).
  - split; cbn; try done.
    + exists u. eexists. split; [done|]. rewrite default_path. split; [apply trim_slashes_spec|done].
    + by apply str_empty_false.
    + intros Hallow. rewrite Hallow in Hprivate. by apply uses_private_false in Hprivate.
Qed.

Lemma forward_exact params :
  trimString (get params "remote_node_base_url") <> "" ->
  exists forward, remotePublicForwardParams params = Some forward /\ forwards params forward.
Proof using Type.
  intros Hraw. unfold remotePublicForwardParams. rewrite bool_decide_false.
  - exists (delete "remote_node_base_url" params). split; [done|].
    split; [apply lookup_delete_eq|]. intros key Hk. by apply lookup_delete_ne.
  - intros ->. by apply Hraw.
Qed.

(** How an answer of the HTTP client is reported. *)
Definition reported {A} (decode : string -> result goerror A) (answer : result goerror (Z * string))
    (report : Z * result RemoteError A) : Prop :=
  match answer with
  | Err e => report = (502, Err (Failed e))
  | Ok (status, body) =>
      (status <> 200 -> report = (status, Err (Refused (remotePublicError body status)))) /\
      (status = 200 -> match decode body with
                       | Ok a => report = (200, Ok a)
                       | Err e => report = (502, Err (Failed e))
                       end)
  end.

(** C35.  A call of another node posts to the address its
    [remote_node_base_url] names or posts nothing.  It posts exactly when the
    room's server is known, the parameter parses to an HTTP or HTTPS address
    with a host and without user information, whose host is public unless the
    service allows private ones (neither empty nor localhost nor below it, and
    if numeric then not private, loopback, link-local, multicast or
    unspecified but global unicast), and the envelope can be encoded.  Then it
    posts once: to that scheme and host, at the path of the address ([/_p2p]
    where it has none) less its trailing slashes plus [/query], with no query
    or fragment, the envelope of the action with every parameter but the
    address; the report is 502 and the error where there is no answer or no
    readable one, the answer's status and error where it is not 200, and the
    decoded answer otherwise.  In every other case the answer is 400 and
    nothing is posted.  This is about the request the service makes: where the
    HTTP client follows a redirect, the address it is sent to is not
    checked, see [redirects_are_not_checked]. *)
Theorem remote_calls_stay_public {A} (decode : string -> result goerror A) server action params w :
  let '(w', report) := remotePublicAction client decode server action params w in
  (exists url forward body,
     trim_space server <> "" /\ names_address params url /\ forwards params forward /\
     marshal_envelope action (Some forward) = Ok body /\
     w' = (Do client url body w).1 /\ reported decode (Do client url body w).2 report) \/
  (w' = w /\ report.1 = 400 /\ (exists e, report.2 = Err (Failed e)) /\
   (trim_space server = "" \/ (forall url, ~ names_address params url) \/
    exists forward e, forwards params forward /\ marshal_envelope action (Some forward) = Err e)).
Proof using Type.
  unfold remotePublicAction.
  destruct (decide (trim_space server = "")) as [He|Hserver].
  { unfold remoteNodeBaseURL. rewrite (proj2 (str_empty_true _) He). right. eauto 8. }
  pose proof (remoteNodeBaseURL_exact server params Hserver) as Hb.
  destruct (remoteNodeBaseURL _ server params) as [base|e]; [|right; destruct Hb; cbn; eauto 8].
  destruct (forward_exact params (na_given _ _ Hb)) as (forward & -> & Hf).
  destruct (marshal_envelope _ _) as [body|e] eqn:Hm; [|right; cbn; eauto 12].
  destruct (Do client (queryURL base) body w) as [w' answer] eqn:Hdo.
  assert (Hw : w' = (Do client (queryURL base) body w).1) by by rewrite Hdo.
  assert (Ha : answer = (Do client (queryURL base) body w).2) by by rewrite Hdo.
  assert (Hpost : forall report, reported decode answer report -> exists url forward body,
    trim_space server <> "" /\ names_address params url /\ forwards params forward /\
    marshal_envelope action (Some forward) = Ok body /\
    w' = (Do client url body w).1 /\ reported decode (Do client url body w).2 report).
  { intros report Hr. exists (queryURL base), forward, body. rewrite <- Ha. eauto 8. }
  destruct answer as [[status text]|e]; [|left; by apply Hpost].
  destruct (Z.eqb_spec status 200) as [->|Hne]; cbn [negb].
  - destruct (decode text) as [a|e] eqn:Hd; left; apply Hpost; split; rewrite ?Hd; done.
  - left. apply Hpost. by split.
Qed.
End Calls.

(** ** An example: a client that records where it was sent *)
Module Demo.
Definition parsed (text : string) : option URL :=
  if str_eqb text "https://peer.example"
  then Some {| Scheme := "https"; hasUser := false; Host := "peer.example";
               Hostname := "peer.example"; Path := ""; RawQuery := "a=b"; Fragment := "f" |}
  else if str_eqb text "http://localhost/x"
  then Some {| Scheme := "http"; hasUser := false; Host := "localhost"; Hostname := "localhost";
               Path := "/x"; RawQuery := ""; Fragment := "" |}
  else None.
#[local] Instance net : NetText :=
  {| url_Parse := parsed; url_String u := Scheme u +:+ "://" +:+ Host u +:+ Path u;
     ParseAddr _ := None |}.
#[local] Instance text : RemoteText :=
  {| unmarshal_payload _ := None; marshal_envelope action _ := Ok action; StatusText _ := "" |}.
Definition client : Client (list URL) :=
  {| remoteAllowPrivate := false; Do url _ w := (url :: w, Ok (200, "answer")) |}.
Definition params (address : string) : content :=
  {["remote_node_base_url" := AString address]}.
Definition call (client : Client (list URL)) (address : string) : list URL :=
  (remotePublicAction client (fun s => Ok s) "peer.example" "channels.public.get"
     (params address) []).1.

(** A node that sends its callers on to a host of the caller's own network. *)
Definition redirecting : Client (list URL) :=
  newRemotePublicHTTPClient
    (fun rq w => (rq_URL rq :: w,
       if str_eqb (Host (rq_URL rq)) "peer.example" then Ok (307, "", "http://localhost/x")
       else Ok (200, "secret", "")))
    (fun _ location => url_Parse location) false.
End Demo.
#[local] Existing Instance Demo.net.
#[local] Existing Instance Demo.text.

Example demo_reaches_peer :
  map url_String (Demo.call Demo.client "https://peer.example") = ["https://peer.example/_p2p/query"].
Proof. vm_compute. reflexivity. Qed.

Example demo_refuses_localhost : Demo.call Demo.client "http://localhost/x" = [].
Proof. vm_compute. reflexivity. Qed.

(** Private hosts are not allowed and the call refuses localhost, but the
    client of the service follows a redirect there. *)
Example redirects_are_not_checked :
  map url_String (Demo.call Demo.redirecting "https://peer.example") =
    ["http://localhost/x"; "https://peer.example/_p2p/query"] /\
  Demo.call Demo.redirecting "http://localhost/x" = [].
Proof. vm_compute. done. Qed.
End RemotePublicFacts.
