(* ===== verification/ChannelBackfillFacts.v ===== *)
(** * Theorems on reading a channel's history *)

From Stdlib Require Import String ZArith Lia.
From stdpp Require Import base tactics list gmap strings sorting.
From S2P Require Import Prelude GoStrings Values Domain Policy Action Operations.
From S2P Require Import OperationIdentity Workflow ChannelContentFacts ContentFlow Projector ChannelBackfill.
Local Open Scope Z_scope.
Local Open Scope go_scope.

Module ChannelBackfillFacts.
Import HistoryEvent.

Section Reader.
Context {W : Type} (accessToken : M W History.error string).
Context (getMessages : string -> string -> M W History.error (list Event * string)).

(** The tokens a server gives out. *)
Definition tokens_in (T : list string) : Prop :=
  forall token next w w' chunk end_,
    getMessages token next w = (w', Ok (chunk, end_)) -> end_ ∈ T.

Lemma readPages_ends T token roomID limit :
  tokens_in T -> forall fuel seen next events w,
  NoDup seen -> seen ⊆ T -> (length T < fuel + length seen)%nat ->
  (History.readPages getMessages fuel limit token roomID seen next events w).2 <> Ok None.
Proof using Type.
  intros HT. induction fuel as [|fuel IH]; intros seen next events w Hnd Hsub Hlen.
  { pose proof (submseteq_length _ _ (NoDup_submseteq seen T Hnd Hsub)). lia. }
  cbn [History.readPages]. destruct (_ <=? _)%nat; [done|]. unfold mbind_.
  destruct (getMessages token next w) as [w' [[chunk end_]|e]] eqn:Hg; [|done].
  case_bool_decide; [done|]. destruct (_ || _) eqn:Hstop; [done|].
  apply orb_false_iff in Hstop as [_ Hnew]. apply bool_decide_eq_false in Hnew.
  apply IH; [by constructor| |cbn; lia].
  intros t Ht. apply elem_of_cons in Ht as [->|Ht]; [exact (HT _ _ _ _ _ _ Hg)|by apply Hsub].
Qed.

(** What has been read so far. *)
Definition read_ok (limit : nat) (roomID : string) (events : list Event) : Prop :=
  (length events <= limit)%nat /\
  Forall (fun e => History.isChannelContent e = true /\ RoomID e = roomID) events.

Lemma content_set_RoomID roomID e :
  History.isChannelContent (set_RoomID roomID e) = History.isChannelContent e.
Proof using Type. done. Qed.

Lemma taken_ok limit roomID events chunk :
  read_ok limit roomID events -> read_ok limit roomID (History.taken limit roomID events chunk).
Proof using Type.
  intros [_ Hall]. unfold History.taken. split; [rewrite length_take; lia|].
  apply Forall_take, Forall_app. split; [done|]. rewrite Forall_forall. intros e He.
  apply list_elem_of_In, in_map_iff in He as (e' & <- & He'). apply filter_In in He' as [_ Hc].
  by rewrite content_set_RoomID.
Qed.

Lemma readPages_ok limit token roomID fuel : forall seen next events w l,
  read_ok limit roomID events ->
  (History.readPages getMessages fuel limit token roomID seen next events w).2 = Ok (Some l) ->
  read_ok limit roomID l.
Proof using Type.
  induction fuel as [|fuel IH]; intros seen next events w l Hok; [done|].
  cbn [History.readPages]. destruct (_ <=? _)%nat; [by intros [= <-]|]. unfold mbind_.
  destruct (getMessages token next w) as [w' [[chunk end_]|e]]; [|done].
  case_bool_decide; [by intros [= <-]|]. destruct (_ || _).
  - intros [= <-]. by apply taken_ok.
  - apply IH. by apply taken_ok.
Qed.

(** C36.  Reading the content of a channel ends when the server gives out
    finitely many page tokens, however it repeats or orders its pages: one
    page more than there are tokens is enough.  What is read is then at most
    the limit, and only posts, comments and reactions of the room asked for. *)
Theorem history_reading_ends T fuel roomID limit w :
  tokens_in T -> (length T < fuel)%nat ->
  match (History.ListChannelContent accessToken getMessages fuel roomID limit w).2 with
  | Ok (Some events) =>
      read_ok (Z.to_nat (if limit <=? 0 then 100 else limit)) roomID events
  | Ok None => False
  | Err _ => True
  end.
Proof using Type.
  intros HT Hfuel. unfold History.ListChannelContent, mbind_.
  destruct (accessToken w) as [w1 [token|e]]; [|done].
  match goal with |- match ?r with _ => _ end => destruct r as [[events|]|e] eqn:Hr end; [| |done].
  - revert Hr. apply readPages_ok. split; [cbn; lia|constructor].
  - revert Hr. apply (readPages_ends T); [done|constructor|set_solver|cbn; lia].
Qed.
End Reader.

(** A server that repeats a page. *)
Module Demo.
Definition post (id : string) : Event :=
  {| Type_ := "m.room.message"; EventID := id; RoomID := ""; Sender := "@a:b"; OriginServerTS := 1;
     EvContent := {["p2p_kind" := AString "channel_post"]} |}.
Definition pages (token next : string) : M unit History.error (list Event * string) :=
  ret ([post next], "t").
End Demo.

Lemma history_reading_ends_witness :
  match (History.ListChannelContent (ret "") Demo.pages 2 "!r:b" 0 tt).2 with
  | Ok (Some events) => read_ok 100 "!r:b" events
  | Ok None => False
  | Err _ => True
  end.
Proof.
  refine (history_reading_ends (ret "") Demo.pages ["t"] 2 "!r:b" 0 tt _ _).
  - intros token next w w' chunk end_ [= <- <- <-]. left.
  - cbn. lia.
Defined.

(** ** The backfill *)

(** [not_after] as an order on weight, time and id. *)
Lemma not_after_iff a b :
  not_after Backfill.backfill_before a b <->
  let w := Backfill.channelContentBackfillWeight in
  w a < w b \/ w a = w b /\
    (OriginServerTS a < OriginServerTS b \/
     OriginServerTS a = OriginServerTS b /\ str_ltb (EventID b) (EventID a) = false).
Proof.
  unfold not_after, Backfill.backfill_before. cbv zeta.
  destruct (Z.eqb_spec (Backfill.channelContentBackfillWeight b)
                       (Backfill.channelContentBackfillWeight a)); cbn [negb]; [|lia].
  destruct (Z.eqb_spec (OriginServerTS b) (OriginServerTS a)); cbn [negb]; [|lia].
  intuition lia.
Qed.

Lemma backfill_before_asym a b :
  Backfill.backfill_before a b = true -> Backfill.backfill_before b a = false.
Proof.
  intros Hab. apply not_after_iff. revert Hab. unfold Backfill.backfill_before. cbv zeta.
  destruct (Z.eqb_spec (Backfill.channelContentBackfillWeight a)
                       (Backfill.channelContentBackfillWeight b)); cbn [negb]; [|lia].
  destruct (Z.eqb_spec (OriginServerTS a) (OriginServerTS b)); cbn [negb]; [|lia].
  intros Hs%str_ltb_asym. auto.
Qed.

Lemma backfill_not_after_trans a b c :
  not_after Backfill.backfill_before a b -> not_after Backfill.backfill_before b c ->
  not_after Backfill.backfill_before a c.
Proof.
  rewrite !not_after_iff. cbv zeta.
  intros [?|(? & [?|(? & Hab)])] [?|(? & [?|(? & Hbc)])]; try lia.
  right. split; [lia|]. right. split; [lia|]. exact (str_nlt_trans _ _ _ Hab Hbc).
Qed.

(** Posts are projected before comments and comments before reactions, each
    by age. *)
Theorem backfill_in_order events :
  StronglySorted (fun a b => Backfill.channelContentBackfillWeight a <=
                             Backfill.channelContentBackfillWeight b)
    (stable_sort Backfill.backfill_before events).
Proof.
  pose proof (stable_sort_sorted Backfill.backfill_before backfill_before_asym
    backfill_not_after_trans events) as Hs.
  induction Hs as [|a l Hl IH Ha]; constructor; [done|].
  eapply Forall_impl; [exact Ha|]. intros b Hb%not_after_iff. cbv zeta in Hb. lia.
Qed.
End ChannelBackfillFacts.
