(* ===== verification/RetainedJoinFacts.v ===== *)
(** * Theorems on joining retained rooms

    What is stored and answered as joined was confirmed by Matrix, whatever
    happens between the steps of a join. *)

From Stdlib Require Import Ascii String ZArith Lia.
From stdpp Require Import base tactics list gmap strings.
From S2P Require Import Prelude GoStrings Values Domain Policy Action RoomState.
From S2P Require Import Operations OperationIdentity MemoryTables Workflow RemotePublic.
From S2P Require Import Conversation Contacts Rooms Members RoomWiring ProjectorWiring Recovery.
From S2P Require Import RecoveryFacts RetainedJoin.
Local Open Scope Z_scope.
Local Open Scope go_scope.

Module RetainedJoinFacts.
Import Identity Recovery RetainedJoin.

(** ** Errors of other types *)

Lemma triple_map_error {S E E' A} (f : E -> E') P (m : M S E A) Q R R' :
  triple P m Q R -> (forall e s, R e s -> R' (f e) s) -> triple P (map_error f m) Q R'.
Proof.
  intros Hm HR s Hs. specialize (Hm s Hs). unfold map_error.
  destruct (m s) as [s' [a|e]]; [done|]. by apply HR.
Qed.

Lemma keeps_map_error {S E E' A} (P : S -> Prop) (f : E -> E') (m : M S E A) :
  keeps P m -> keeps P (map_error f m).
Proof. intros Hm s Hs. specialize (Hm s Hs). unfold map_error. by destruct (m s) as [s' [a|e]]. Qed.

Lemma keeps_transported {S A} (P : S -> Prop) (m : M S goerror A) :
  keeps P m -> keeps P (transported m).
Proof. intros Hm s Hs. specialize (Hm s Hs). unfold transported. by destruct (m s) as [s' [a|e]]. Qed.

(** A membership that is stored as joined, or treated as joined. *)
Definition names_join (membership : string) : bool :=
  is_join membership || str_eqb (NormalizeMemberMembership membership) "join".

(** ** Evidence

    [seen room user] is what Matrix said; once said it stays said.  [I] is
    any property of the world that writes keep when they call a member joined
    only with evidence. *)
Section Confirmed.
Context `{GoRange} `{ResultCodec} {W : Type} `{OperationStore W} (ports : Ports W).
Context `{Remote.NetText} `{Remote.RemoteText} (client : Remote.Client W) (join : JoinPorts W).
Context (I : W -> Prop) (seen : string -> string -> W -> Prop).
Local Notation St := (W * option Tracker.Tracker_)%type.

Definition proved (l : list (string * string)) (w : W) : Prop :=
  I w /\ Forall (fun p => seen p.1 p.2 w) l.

Definition calm {E A} (m : M W E A) : Prop := forall l, keeps (proved l) m.

(** The members a listing names as joined. *)
Definition listed_joined (roomID : string) (members : list Member.MemberRecord)
    : list (string * string) :=
  map (fun m => (roomID, Member.UserID m))
    (List.filter (fun m => names_join (fallbackString (Member.Membership m) "join")) members).

Definition evidenced (l : list (string * string)) (m : Member.MemberRecord) : Prop :=
  names_join (Member.Membership m) = true -> (Member.RoomID m, Member.UserID m) ∈ l.

(** What a join relies on: Matrix's answers are evidence, a join names the
    room it joined, rows are filed under their room and user, and the rest of
    the service keeps [I] and what Matrix said. *)
Record confirming : Prop := {
  cf_asked : forall l room user,
    triple (proved l) (matrixMemberJoined ports room user)
      (fun joined => proved (if joined : bool then (room, user) :: l else l)) (fun _ => proved l);
  cf_joined : forall l req w, proved l w ->
    let '(w', (room, err)) := JoinRoom join req w in
    match err with
    | None => room <> "" /\ proved ((room, jr_UserMXID req) :: l) w'
    | Some _ => room = "" /\ proved l w'
    end;
  cf_listed : forall l room,
    triple (proved l) (ListRoomMembers join room)
      (fun members => proved (listed_joined room members ++ l)) (fun _ => proved l);
  cf_save : forall l m, evidenced l m -> keeps (proved l) (saveMember join m);
  cf_swap : forall l m requestID membership,
    evidenced l m -> keeps (proved l) (saveMemberIfState join m requestID membership);
  cf_rows : forall w room user m, I w ->
    lookupMember (directory ports w) room user = Ok (Some m) ->
    Member.RoomID m = room /\ Member.UserID m = user;
  cf_claim : forall time r owner d l w,
    proved l w -> proved l (ClaimOperation time w r owner d).1;
  cf_operation : forall time time' r rev owner d l w,
    proved l w -> proved l (CompareAndSwapOperation time time' w r rev owner d).1;
  cf_snapshot : forall channelID l w, proved l w -> proved l (channelSnapshot ports channelID w).1;
  cf_token : forall kind l w, proved l w -> proved l (randomToken ports kind w).1;
  cf_pause : forall l w, proved l w -> proved l (pause ports w).1;
  cf_wait : forall l w, proved l w -> proved l (retry_wait join w).1;
  cf_channel : forall room, calm (GetRoomChannel join room);
  cf_save_channel : forall ch, calm (Remote.saveChannel (node join) ch);
  cf_group : forall m params, calm (ensureJoinedGroupRecord join m params);
  cf_backfill : forall room channel, calm (backfillJoinedPostChannelContent join room channel);
}.
Context (Hports : confirming).

Definition holding (l : list (string * string)) (st : St) : Prop := proved l st.1.

(** A row that was stored at some time: a lookup gave it. *)
Definition found (m : Member.MemberRecord) : Prop :=
  exists w room user, I w /\ lookupMember (directory ports w) room user = Ok (Some m).

Definition shown (m : Member.MemberRecord) : Prop := is_join (Member.Membership m) = true -> found m.

(** What the outcome of a join says was confirmed: by Matrix, or, when the row
    belongs to somebody else by now (a stale attempt), by the stored row. *)
Definition fair (r : returned) (st : St) : Prop :=
  I st.1 /\
  (Stale r.1 = true -> shown (Member_ r.1)) /\
  (Stale r.1 = false ->
   r.2 = None \/ Final r.1 = true /\ Busy r.1 = false /\
                 is_join (Member.Membership (Member_ r.1)) = true ->
   is_join (Member.Membership (Member_ r.1)) = true /\
   seen (Member.RoomID (Member_ r.1)) (Member.UserID (Member_ r.1)) st.1).

(** A result an error may be returned with. *)
Definition backed (l : list (string * string)) (a : retainedRoomJoinAttempt) : Prop :=
  Stale a = false /\
  (Final a = true -> Busy a = false -> is_join (Member.Membership (Member_ a)) = true ->
   (Member.RoomID (Member_ a), Member.UserID (Member_ a)) ∈ l).

Lemma proved_weaken l l' w : l' ⊆ l -> proved l w -> proved l' w.
Proof using Type.
  intros Hl [HI Hs]. split; [done|]. rewrite Forall_forall in *. intros p Hp. by apply Hs, Hl.
Qed.

Lemma fair_error l a e st : backed l a -> holding l st -> fair (a, Some e) st.
Proof using Type.
  intros [Hfresh Ha] [HI Hs]. split; [done|]. split; [cbn; congruence|]. cbn.
  intros _ [[=]|(Hf & Hb & Hj)]. split; [done|].
  rewrite Forall_forall in Hs. exact (Hs _ (Ha Hf Hb Hj)).
Qed.

Lemma fair_stale l m e st : shown m -> holding l st -> fair (stale_attempt m, e) st.
Proof using Type. intros Hm [HI _]. split; [done|]. by split. Qed.

Lemma backed_none l : backed l no_attempt.
Proof using Type. split; [done|]. by intros [=]. Qed.

Lemma fair_final l m st :
  is_join (Member.Membership m) = true -> (Member.RoomID m, Member.UserID m) ∈ l ->
  holding l st -> fair (final_attempt m, None) st.
Proof using Type.
  intros Hj Hl [HI Hs]. split; [done|]. split; [done|]. intros _ _. split; [done|].
  rewrite Forall_forall in Hs. exact (Hs _ Hl).
Qed.

Lemma backed_final l m :
  (is_join (Member.Membership m) = true -> (Member.RoomID m, Member.UserID m) ∈ l) ->
  backed l (final_attempt m).
Proof using Type. intros Hm. split; [done|]. intros _ _ Hj. by apply Hm. Qed.

(** ** Steps *)

Lemma on_store_triple {E A} l (m : M W E A) Q R :
  triple (proved l) m Q R ->
  triple (holding l) (on_store m) (fun a st => Q a st.1) (fun e st => R e st.1).
Proof using Type.
  intros Hm [w t] Hst. specialize (Hm w Hst). unfold on_store. cbn.
  by destruct (m w) as [w' [a|e]].
Qed.

Lemma keeps_on_store {E A} l (m : M W E A) : keeps (proved l) m -> keeps (holding l) (on_store m).
Proof using Type.
  intros Hm. apply keeps_triple.
  exact (on_store_triple l m (fun _ => proved l) (fun _ => proved l) (triple_keeps _ _ Hm)).
Qed.

Lemma keeps_written {A} l (m : M St goerror A) : keeps (holding l) m -> keeps (holding l) (written m).
Proof using Type.
  intros Hm st Hst. specialize (Hm st Hst). unfold written. by destruct (m st) as [s' [a|e]].
Qed.

Lemma keeps_mark l phase roomID : keeps (holding l) (mark ports phase roomID).
Proof using Hports.
  apply keeps_written. intros [w [t|]] Hst; [|done].
  unfold markRecoverableOperation, tracker_update, Tracker.Update, Tracker.settle. cbn -[proved].
  match goal with |- context [CompareAndSwapOperation ?a ?b ?c ?d ?e ?f ?g] =>
    pose proof (cf_operation Hports a b d e f g l c Hst) as Hc;
    destruct (CompareAndSwapOperation a b c d e f g) as [w' [[r|]|e0]] end; exact Hc.
Qed.

Lemma keeps_member_of l room user : keeps (proved l) (member_of ports room user).
Proof using Type. apply keeps_reads. Qed.

(** A row that is handed on. *)
Definition all_shown (row : option Member.MemberRecord) : Prop := forall m, row = Some m -> shown m.

Lemma member_of_shown l room user : yields (proved l) (member_of ports room user) all_shown.
Proof using Type.
  intros w Hw. split; [done|]. intros row Hrow m -> _. exists w, room, user. split; [apply Hw|done].
Qed.

Lemma lookup_row_rows l room user :
  triple (holding l) (lookup_row ports room user)
    (fun row st => (forall m, row = Some m -> shown m /\ Member.RoomID m = room /\ Member.UserID m = user) /\
                   holding l st)
    (fun _ => holding l).
Proof using Hports.
  intros [w t] Hst. unfold lookup_row, on_store, Workflow.internal, member_of, reads. cbn.
  destruct (lookupMember _ room user) as [row|e] eqn:Hf; [|done].
  split; [|done]. intros m ->. split; [|exact (cf_rows Hports _ _ _ _ (proj1 Hst) Hf)].
  intros _. exists w, room, user. split; [apply Hst|done].
Qed.

Lemma matrix_joined_evidence l m :
  triple (holding l) (matrix_joined ports m)
    (fun joined => holding (if joined : bool then (Member.RoomID m, Member.UserID m) :: l else l))
    (fun _ => holding l).
Proof using Hports.
  intros [w t] Hst. unfold matrix_joined, on_store, transported. cbn.
  pose proof (cf_asked Hports l (Member.RoomID m) (Member.UserID m) w Hst) as Ha.
  by destruct (matrixMemberJoined ports _ _ w) as [w' [b|e]].
Qed.

Lemma aborts_triple {A} l a (m : M St Api.Error A) Q :
  triple (holding l) m Q (fun _ => holding l) -> backed l a ->
  triple (holding l) (aborts a m) Q fair.
Proof using Type.
  intros Hm Ha. eapply triple_map_error; [exact Hm|]. intros e st Hst. by apply (fair_error l).
Qed.

Lemma aborts_keeps {A} l a (m : M St Api.Error A) :
  keeps (holding l) m -> backed l a -> triple (holding l) (aborts a m) (fun _ => holding l) fair.
Proof using Type. intros Hm. by apply aborts_triple, triple_keeps. Qed.

Lemma superseded_fair {A} l a message m (Q : A -> St -> Prop) :
  backed l a -> triple (holding l) (superseded ports a message m) Q fair.
Proof using Hports.
  intros Ha. unfold superseded. eapply triple_bind.
  { apply aborts_triple; [apply lookup_row_rows|done]. }
  intros [latest|]; apply triple_fail; intros st [Hrow Hst].
  - apply (fair_stale l); [|done]. by apply Hrow.
  - by apply (fair_error l).
Qed.

Lemma saved_if_fair l a message m requestID membership :
  backed l a -> evidenced l m ->
  triple (holding l) (saved_if ports join a message m requestID membership)
    (fun _ => holding l) fair.
Proof using Hports.
  intros Ha Hm. unfold saved_if. eapply triple_bind.
  { apply aborts_keeps; [|done]. apply keeps_on_store, keeps_internal, (cf_swap Hports), Hm. }
  intros [|]; [by apply triple_ret|]. by apply superseded_fair.
Qed.

Lemma keeps_release l t st :
  holding l st ->
  proved l (Tracker.Release (now ports st.1) (later ports st.1) st.1 t).1.1.
Proof using Hports.
  intros Hst. unfold Tracker.Release, Tracker.settle. destruct (str_empty _); [done|].
  match goal with |- context [CompareAndSwapOperation ?a ?b ?c ?d ?e ?f ?g] =>
    pose proof (cf_operation Hports a b d e f g l c Hst) as Hc;
    destruct (CompareAndSwapOperation a b c d e f g) as [w' [[r|]|e0]] end; exact Hc.
Qed.

Lemma snapshot_triple {E} (P : St -> Prop) (R : E -> St -> Prop) :
  triple P recoverableOperationSnapshot (fun _ => P) R.
Proof using Type. by intros st Hst. Qed.

(** ** The Matrix join *)

Lemma joinRoomWithRetry_evidence attempts req l w :
  proved l w ->
  let '(w', (room, err)) := joinRoomWithRetry join (S attempts) req w in
  match err with
  | None => room <> "" /\ proved ((room, jr_UserMXID req) :: l) w'
  | Some _ => room = "" /\ proved l w'
  end.
Proof using Hports.
  revert w. induction attempts as [|n IH]; intros w Hw; cbn [joinRoomWithRetry].
  all: pose proof (cf_joined Hports l req w Hw) as Hj;
    destruct (JoinRoom join req w) as [w1 [room [e|]]]; [|exact Hj].
  - by rewrite orb_true_r.
  - rewrite orb_false_r. destruct (negb _); [exact Hj|].
    pose proof (cf_wait Hports l w1 (proj2 Hj)) as Hp.
    destruct (retry_wait join w1) as [w2 [ended|]]; [by split|]. exact (IH w2 Hp).
Qed.

Lemma joinFailure_evidence l m e :
  triple (holding l) (joinFailure ports m e)
    (fun _ => holding ((Member.RoomID m, Member.UserID m) :: l)) (fun _ => holding l).
Proof using Hports.
  unfold joinFailure. destruct (negb _).
  - destruct (_ || _); [|by apply triple_fail].
    eapply triple_bind; [apply triple_keeps, keeps_mark|]. intros ?. by apply triple_fail.
  - eapply triple_bind; [apply matrix_joined_evidence|].
    intros [|]; [by apply triple_ret|by apply triple_fail].
Qed.

(** The member named by a successful join is in evidence. *)
Lemma joinMatrixRoom_evidence l m params :
  triple (holding l) (joinMatrixRoom ports join m params)
    (fun room => holding ((if str_empty room then Member.RoomID m else room, Member.UserID m) :: l))
    (fun _ => holding l).
Proof using Hports.
  intros [w t] Hst. unfold joinMatrixRoom. cbn [fst snd].
  match goal with |- context [joinRoomWithRetry join 10 ?r w] =>
    pose proof (joinRoomWithRetry_evidence 9 r l w Hst) as Hj; set (req := r) in * end.
  destruct (joinRoomWithRetry join 10 req w) as [w1 [room [e|]]]; destruct Hj as [Hr Hw1].
  - subst room. change (str_empty "") with true. cbn iota.
    eapply triple_bind; [apply (joinFailure_evidence l m e)| |exact Hw1].
    intros ?. by apply triple_ret.
  - unfold mbind_, ret. rewrite (bool_decide_false _ Hr : str_empty room = false). exact Hw1.
Qed.

Lemma committed_room_user operation m :
  Member.UserID (committed_room operation m) = Member.UserID m.
Proof using Type. unfold committed_room. destruct operation as [o|]; [|done]. by destruct (_ && _). Qed.

Lemma commit_evidence l m params :
  hasTransport ports = true ->
  triple (holding l) (commitRetainedRoomMatrixJoin ports join m params)
    (fun m' st => Member.UserID m' = Member.UserID m /\
                  holding ((Member.RoomID m', Member.UserID m') :: l) st)
    (fun r => fun st => Member.UserID r.1 = Member.UserID m /\ holding l st).
Proof using Hports.
  intros Ht. unfold commitRetainedRoomMatrixJoin. rewrite Ht. cbn [negb].
  eapply triple_bind; [apply snapshot_triple|].
  intros operation. set (m0 := committed_room operation m).
  assert (Hu : Member.UserID m0 = Member.UserID m) by apply committed_room_user.
  clearbody m0. eapply triple_bind.
  { eapply triple_map_error; [apply matrix_joined_evidence|]. done. }
  intros joined. eapply (triple_bind _ _ _
    (fun m' st => Member.UserID m' = Member.UserID m /\
                  holding ((Member.RoomID m', Member.UserID m') :: l) st)).
  - destruct joined; [by apply triple_ret|].
    eapply triple_bind.
    { eapply triple_map_error; [apply joinMatrixRoom_evidence|]. done. }
    intros room. apply triple_ret. intros st Hst. by destruct (str_empty room).
  - intros m'. apply triple_pure. intros Hm'. eapply triple_bind.
    { eapply triple_map_error; [apply triple_keeps, keeps_mark|].
      intros e st Hst. split; [done|]. refine (proved_weaken _ l _ _ Hst). set_solver. }
    intros ?. by apply triple_ret.
Qed.

(** ** The settlement *)

Lemma matrixSide_evidence l a matrixJoined m params :
  hasTransport ports = true -> backed l a ->
  (matrixJoined = true -> (Member.RoomID m, Member.UserID m) ∈ l) ->
  triple (holding l) (matrixSide ports join a matrixJoined m params)
    (fun r st => (Member.UserID r.1.1 = Member.UserID m /\ (r.1.2 = false -> r.2 <> None)) /\
                 holding (if r.1.2 : bool then (Member.RoomID r.1.1, Member.UserID r.1.1) :: l
                          else l) st)
    fair.
Proof using Hports.
  intros Ht Ha Hm. unfold matrixSide. rewrite Ht. destruct matrixJoined; cbn [negb].
  - intros st Hst. pose proof (keeps_mark l operationPhaseMatrixCommitted (Member.RoomID m) st Hst) as Hk.
    assert (holding ((Member.RoomID m, Member.UserID m) :: l) (mark ports operationPhaseMatrixCommitted
      (Member.RoomID m) st).1) as Hk'.
    { apply (proved_weaken l); [|exact Hk]. specialize (Hm eq_refl). set_solver. }
    destruct (mark ports _ _ st) as [st' [[]|e]]; (split; [by split|exact Hk']).
  - intros st Hst. pose proof (commit_evidence l m params Ht st Hst) as Hc.
    destruct (commitRetainedRoomMatrixJoin ports join m params st) as [st' [m'|[m' e]]].
    { destruct Hc as [Hu Hst']. split; [by split|exact Hst']. }
    destruct Hc as [Hu Hst']. cbn in Hu.
    eapply triple_bind; [apply aborts_triple; [apply matrix_joined_evidence|done]| |exact Hst'].
    intros joined. apply triple_ret. intros st1 Hst1.
    split; [by split|]. by destruct joined.
Qed.

Lemma evidenced_not l m v :
  names_join v = false -> evidenced l (Member.set_Membership v m).
Proof using Type. intros Hv Hj. cbn in Hj. by rewrite Hv in Hj. Qed.

Lemma evidenced_in l m : (Member.RoomID m, Member.UserID m) ∈ l -> evidenced l m.
Proof using Type. by intros Hl _. Qed.

Lemma settleNotJoined_fair l a m matrixErr requestID membership :
  backed l a -> matrixErr <> None ->
  triple (holding l) (settleNotJoined ports join a m matrixErr requestID membership)
    (fun r => fair (r, None)) fair.
Proof using Hports.
  intros Ha He. unfold settleNotJoined.
  match goal with |- context [Member.set_Membership ?x m] => set (v := x) end.
  assert (Hv : names_join v = false /\ is_join v = false)
    by (unfold v; destruct matrixErr as [e|]; [destruct (str_eqb _ _)|]; by vm_compute).
  clearbody v. destruct Hv as [Hv Hi].
  eapply triple_bind; [apply saved_if_fair; [done|by apply evidenced_not]|].
  intros ?. apply triple_fail. intros st Hst. destruct matrixErr as [e|]; [|done].
  apply (fair_error l); [|done]. split; [done|]. intros _ _ Hj. cbn in Hj. by rewrite Hi in Hj.
Qed.

(** ** What follows a join *)

Lemma keeps_refreshRoomChannel l roomID : keeps (proved l) (refreshRoomChannel ports join roomID).
Proof using Hports.
  unfold refreshRoomChannel. destruct (_ || _); [apply keeps_ret|].
  apply keeps_bind; [apply (cf_channel Hports)|]. intros [ch|]; [|apply keeps_ret].
  apply keeps_bind; [apply keeps_reads|]. intros existing.
  apply keeps_bind; [apply (cf_save_channel Hports)|]. intros _. apply keeps_ret.
Qed.

(** A refreshed row of a listed member. *)
Lemma refreshed_evidenced l roomID channelID listed (current : option Member.MemberRecord) :
  (names_join (fallbackString (Member.Membership listed) "join") = true ->
   (roomID, Member.UserID listed) ∈ l) ->
  evidenced l (match current with
               | Some current =>
                   mergeRefreshedMember (listed_member roomID channelID listed) current
               | None => listed_member roomID channelID listed
               end).
Proof using Type. intros Hl Hj. by destruct current; apply Hl. Qed.

Lemma nobody_shown : all_shown None.
Proof using Type. done. Qed.

Lemma refreshTarget_shown l roomID target current m :
  all_shown current ->
  (is_join (Member.Membership m) = true -> (Member.RoomID m, Member.UserID m) ∈ l) ->
  yields (proved l) (refreshTarget ports join roomID target current m) all_shown.
Proof using Hports.
  intros Hcur Hm. unfold refreshTarget.
  destruct current as [current|]; [|apply yields_ret; by intros m' [= <-] [=]].
  destruct (negb _); [by apply yields_ret|].
  destruct (is_join (Member.Membership m)) eqn:Hj; cbn [negb]; [|apply yields_ret, nobody_shown].
  apply (yields_bind _ _ _ (fun _ => True));
    [apply keeps_yields, (cf_swap Hports), evidenced_in, (Hm eq_refl)|].
  intros [|] _; [apply yields_ret, nobody_shown|].
  eapply yields_bind; [apply member_of_shown|].
  intros [latest|] Hl; [by apply yields_ret|apply yields_fail].
Qed.

Lemma refreshMembers_shown l roomID channelID target members :
  listed_joined roomID members ⊆ l ->
  yields (proved l) (refreshMembers ports join roomID channelID target members) all_shown.
Proof using Hports.
  intros Hl. induction members as [|m members IH]; [apply yields_ret, nobody_shown|].
  cbn [refreshMembers].
  assert (Hm : names_join (fallbackString (Member.Membership m) "join") = true ->
               (roomID, Member.UserID m) ∈ l).
  { intros Hj. apply Hl. unfold listed_joined. cbn [List.filter]. rewrite Hj. left. }
  assert (Hl' : listed_joined roomID members ⊆ l).
  { intros p Hp. apply Hl. unfold listed_joined in *. cbn [List.filter].
    destruct (names_join _); [by right|done]. }
  eapply yields_bind; [apply member_of_shown|]. intros current Hcur.
  pose proof (refreshed_evidenced l roomID channelID m current Hm) as He.
  set (row := match current with Some _ => _ | None => _ end) in *. clearbody row.
  eapply (yields_bind _ _ _ all_shown); [|intros [latest|] Hs; [by apply yields_ret|by apply IH]].
  destruct (negb _).
  - destruct (match current with Some _ => _ | None => _ end); [apply yields_ret, nobody_shown|].
    apply (yields_bind _ _ _ (fun _ => True)); [by apply keeps_yields, (cf_save Hports)|].
    intros _ _. apply yields_ret, nobody_shown.
  - apply refreshTarget_shown; [done|]. intros Hj. apply He. unfold names_join. by rewrite Hj.
Qed.

Lemma listing_yields {A} l room (k : list Member.MemberRecord -> M W goerror A) (Q : A -> Prop) :
  (forall members, yields (proved (listed_joined room members ++ l)) (k members) Q) ->
  yields (proved l) (mbind_ (ListRoomMembers join room) k) Q.
Proof using Hports.
  intros Hk w Hw. pose proof (cf_listed Hports l room w Hw) as Hlist. unfold mbind_.
  destruct (ListRoomMembers join room w) as [w1 [members|e]]; [|by split].
  destruct (Hk members w1 Hlist) as [Hw2 Hs]. split; [|exact Hs].
  refine (proved_weaken _ l _ _ Hw2). set_solver.
Qed.

Lemma refreshRoomMembers_shown l roomID channelID target :
  yields (proved l) (refreshRoomMembersForGeneration ports join roomID channelID target) all_shown.
Proof using Hports.
  unfold refreshRoomMembersForGeneration. destruct (_ || _); [apply yields_ret, nobody_shown|].
  apply listing_yields. intros members.
  eapply yields_bind; [apply refreshMembers_shown; set_solver|].
  intros [latest|] Hs; [by apply yields_ret|]. eapply yields_bind; [apply member_of_shown|].
  intros [latest|] Hs'; [|apply yields_fail]. apply yields_ret. by destruct (str_eqb _ _).
Qed.

(** A projection after the join; the member is joined and in evidence. *)
Lemma project_step {A} l m (f : M W goerror A) :
  (Member.RoomID m, Member.UserID m) ∈ l -> keeps (proved l) f ->
  triple (holding l) (aborts (final_attempt m) (on_store (Workflow.internal f)))
    (fun _ => holding l) fair.
Proof using Type.
  intros Hm Hf. apply aborts_keeps; [by apply keeps_on_store, keeps_internal|].
  by apply backed_final.
Qed.

Lemma project_rows l m (f : M W goerror (option Member.MemberRecord)) :
  (Member.RoomID m, Member.UserID m) ∈ l -> yields (proved l) f all_shown ->
  triple (holding l) (aborts (final_attempt m) (on_store (Workflow.internal f)))
    (fun row st => all_shown row /\ holding l st) fair.
Proof using Type.
  intros Hm Hf. apply aborts_triple; [|by apply backed_final]. intros [w t] Hst.
  destruct (Hf w Hst) as [Hw Hs]. unfold on_store, Workflow.internal. cbn [fst snd].
  destruct (f w) as [w' [row|e]]; [|exact Hw]. split; [by apply Hs|exact Hw].
Qed.

Lemma projectJoinedChannel_fair l m :
  is_join (Member.Membership m) = true -> (Member.RoomID m, Member.UserID m) ∈ l ->
  triple (holding l) (projectJoinedChannel ports join m) (fun r => fair (r, None)) fair.
Proof using Hports.
  intros Hj Hm. unfold projectJoinedChannel.
  eapply triple_bind; [apply project_step; [done|apply keeps_refreshRoomChannel]|]. intros channelID.
  eapply (triple_bind _ _ _ (fun m' st => (is_join (Member.Membership m') = true /\
            (Member.RoomID m', Member.UserID m') ∈ l) /\ holding l st)).
  - destruct (_ && _); [|by apply triple_ret].
    eapply triple_bind; [apply saved_if_fair; [by apply backed_final|by apply evidenced_in]|].
    intros ?. by apply triple_ret.
  - intros m'. apply triple_pure. intros [Hj' Hm'].
    eapply triple_bind; [apply project_rows; [done|apply refreshRoomMembers_shown]|].
    intros [latest|]; apply triple_pure; intros Hs;
      [apply triple_fail; intros st Hst; apply (fair_stale l); [by apply Hs|done]|].
    eapply triple_bind; [apply project_step; [done|apply (cf_backfill Hports)]|].
    intros ?. apply triple_ret. intros st Hst. by apply (fair_final l).
Qed.

Lemma projectJoined_fair l scope m params :
  is_join (Member.Membership m) = true -> (Member.RoomID m, Member.UserID m) ∈ l ->
  triple (holding l) (projectJoined ports join scope m params) (fun r => fair (r, None)) fair.
Proof using Hports.
  intros Hj Hm. unfold projectJoined. destruct (str_eqb scope "group").
  - eapply triple_bind; [apply project_step; [done|apply (cf_group Hports)]|].
    intros ?. apply triple_ret. intros st Hst. by apply (fair_final l).
  - destruct (str_eqb scope "channel"); [by apply projectJoinedChannel_fair|].
    apply triple_ret. intros st Hst. by apply (fair_final l).
Qed.

Lemma clock_triple {E} (P : St -> Prop) (R : E -> St -> Prop) :
  triple P (clock ports) (fun _ => P) R.
Proof using Type. by intros st Hst. Qed.

Lemma settleJoined_fair l a scope m params matrixErr requestID membership :
  backed l a -> (Member.RoomID m, Member.UserID m) ∈ l ->
  triple (holding l) (settleJoined ports join a scope m params matrixErr requestID membership)
    (fun r => fair (r, None)) fair.
Proof using Hports.
  intros Ha Hm. unfold settleJoined. eapply triple_bind; [apply clock_triple|]. intros time.
  match goal with |- context [saved_if _ _ _ _ ?x _ _] => set (m' := x) end.
  assert (Hm' : Member.RoomID m' = Member.RoomID m /\ Member.UserID m' = Member.UserID m /\
                Member.Membership m' = "join") by (unfold m'; by destruct (_ || _)).
  clearbody m'. destruct Hm' as (Hr & Hu & Hj). rewrite <- Hr, <- Hu in Hm.
  assert (Hi : is_join (Member.Membership m') = true) by (by rewrite Hj).
  eapply triple_bind; [apply saved_if_fair; [done|by apply evidenced_in]|]. intros ?.
  destruct matrixErr as [e|]; [|by apply projectJoined_fair].
  apply triple_fail. intros st Hst. apply (fair_error l); [by apply backed_final|done].
Qed.

Lemma settleJoin_fair l a scope params matrixJoined m requestID membership :
  hasTransport ports = true -> backed l a ->
  (matrixJoined = true -> (Member.RoomID m, Member.UserID m) ∈ l) ->
  triple (holding l) (settleJoin ports join a scope params matrixJoined m requestID membership)
    (fun r => fair (r, None)) fair.
Proof using Hports.
  intros Ht Ha Hm. unfold settleJoin. eapply triple_bind; [by apply matrixSide_evidence|].
  intros [[m' joined] matrixErr]. apply triple_pure. intros [Hu He]. cbn in Hu, He |- *.
  destruct joined.
  - apply settleJoined_fair; [|set_solver]. split; [apply Ha|]. intros Hf Hb Hj. right. by apply Ha.
  - apply settleNotJoined_fair; [done|by apply He].
Qed.

(** ** The generation *)

Lemma establish_rows l m :
  names_join "joining" = false ->
  triple (holding l) (establish ports join m) (fun r st => shown r.2 /\ holding l st) fair.
Proof using Hports.
  intros Hn. unfold establish.
  eapply triple_bind; [apply aborts_triple; [apply lookup_row_rows|apply backed_none]|].
  intros [current|]; [apply triple_ret; intros st [Hc Hst]; split; [by apply Hc|done]|].
  apply triple_pure. intros _.
  eapply triple_bind.
  { apply aborts_keeps; [|apply backed_none].
    apply keeps_on_store, keeps_internal, (cf_save Hports). by apply evidenced_not. }
  intros ?. eapply triple_bind; [apply aborts_triple; [apply lookup_row_rows|apply backed_none]|].
  intros [current'|]; apply triple_pure; intros Hc.
  - apply triple_ret. intros st Hst. split; [by apply Hc|done].
  - apply triple_fail. intros st Hst. by apply (fair_error l); [apply backed_none|].
Qed.

Lemma awaitOther_evidence l m :
  triple (holding l) (awaitOther ports m)
    (fun current => holding ((Member.RoomID current, Member.UserID current) :: l)) fair.
Proof using Hports.
  unfold awaitOther.
  eapply triple_bind; [apply aborts_triple; [apply matrix_joined_evidence|apply backed_none]|].
  intros joined. set (l' := if joined then (Member.RoomID m, Member.UserID m) :: l else l).
  eapply triple_bind; [apply aborts_triple; [apply (lookup_row_rows l')|apply backed_none]|].
  intros [current|]; apply triple_pure; intros Hc.
  - destruct (Hc current eq_refl) as (Hsh & Hr & Hu).
    destruct (other_generation _ _); [apply triple_fail; intros st Hst; by apply (fair_stale l')|].
    destruct joined; cbn [negb].
    + apply triple_ret. intros st Hst. unfold l' in Hst. by rewrite Hr, Hu.
    + apply triple_fail. intros st Hst. apply (fair_error l'); [|done]. split; [done|]. by intros _ [=].
  - apply triple_fail. intros st Hst. by apply (fair_error l'); [apply backed_none|].
Qed.

Lemma claimGeneration_holds l m :
  triple (holding l) (claimGeneration ports join m) (fun _ => holding l) fair.
Proof using Hports.
  unfold claimGeneration.
  eapply triple_bind; [apply aborts_triple; [apply lookup_row_rows|apply backed_none]|].
  intros [current|]; apply triple_pure; intros Hc.
  - destruct (_ || _);
      [apply triple_fail; intros st Hst; apply (fair_stale l); [by apply Hc|done]|].
    eapply triple_bind; [apply saved_if_fair; [apply backed_none|by apply evidenced_not]|].
    intros ?. by apply triple_ret.
  - apply triple_fail. intros st Hst. by apply (fair_error l); [apply backed_none|].
Qed.

Lemma keeps_claimMatrixJoin l attempts record owner :
  keeps (proved l) (claimMatrixJoin ports attempts record owner).
Proof using Hports.
  induction attempts as [|n IH]; intros w Hw; [done|]. cbn [claimMatrixJoin].
  pose proof (cf_claim Hports (now ports w) record owner operationLeaseDurationMillis l w Hw) as Hc.
  destruct (ClaimOperation _ w record owner _) as [w' [[r []]|e]]; [done| |].
  - pose proof (cf_pause Hports l w' Hc) as Hp. destruct (pause ports w') as [w'' []]; [done|].
    by apply IH.
  - by destruct (waitExpired ports w').
Qed.

Lemma keeps_acquire l m : keeps (proved l) (acquireMatrixJoinWorkflow ports m).
Proof using Hports.
  unfold acquireMatrixJoinWorkflow. apply keeps_bind; [apply keeps_reads|]. intros record.
  apply keeps_bind; [|intros owner; apply keeps_claimMatrixJoin].
  intros w Hw. unfold token_of. pose proof (cf_token Hports "claim" l w Hw) as Ht.
  by destruct (randomToken ports "claim" w).
Qed.

(** A release changes neither [I] nor what Matrix said. *)
Lemma fair_released r w op t :
  fair r (w, op) ->
  fair r ((Tracker.Release (now ports w) (later ports w) w t).1.1, op).
Proof using Hports.
  intros (HI & Hsh & Hs). split; [|split; [exact Hsh|]].
  - exact (proj1 (keeps_release [] t (w, op) (conj HI (Forall_nil_2 _)))).
  - intros Hst Hr. destruct (Hs Hst Hr) as [Hj Hseen]. split; [done|].
    set (p := (Member.RoomID (Member_ r.1), Member.UserID (Member_ r.1))).
    assert (Hp : holding [p] (w, op)) by (split; [done|by apply Forall_singleton]).
    destruct (keeps_release [p] t (w, op) Hp) as [_ Hl].
    exact (proj1 (Forall_cons_1 _ _ _ Hl)).
Qed.

Lemma fair_reported a e st : fair (a, None) st -> fair (a, e) st.
Proof using Type.
  intros (HI & Hsh & Hs). split; [done|]. split; [exact Hsh|]. intros Hst _. apply Hs; [done|by left].
Qed.

Lemma releasing_fair l t m :
  triple (holding l) m (fun r => fair (r, None)) fair ->
  triple (holding l) (releasing ports t m) (fun r => fair (r, None)) fair.
Proof using Hports.
  intros Hm st Hst. specialize (Hm st Hst). unfold releasing.
  destruct (m st) as [[w op] r].
  assert (Hf : match r with Ok a => fair (a, None) (w, op) | Err r => fair r (w, op) end)
    by (by destruct r).
  assert (Hf' : match r with
                | Ok a => fair (a, None) ((Tracker.Release (now ports w) (later ports w) w t).1.1, op)
                | Err r => fair r ((Tracker.Release (now ports w) (later ports w) w t).1.1, op)
                end) by (by destruct r; apply fair_released).
  destruct (Tracker.Release (now ports w) (later ports w) w t) as [[w' t'] [[]|e]]; cbn in Hf'.
  - by destruct r.
  - destruct r as [a|[a [e'|]]]; [by apply fair_reported|done|by apply fair_reported].
Qed.

Lemma ownGeneration_holds l m params :
  triple (holding l) (ownGeneration m params) (fun _ => holding l) fair.
Proof using Type.
  eapply triple_bind; [apply snapshot_triple|]. intros operation. by apply triple_ret.
Qed.

Lemma joinGeneration_fair scope m params :
  hasTransport ports = true ->
  triple (holding []) (joinGeneration ports join scope m params) (fun r => fair (r, None)) fair.
Proof using Hports.
  intros Ht. unfold joinGeneration. rewrite Ht. cbn [andb].
  eapply triple_bind; [apply ownGeneration_holds|].
  intros m0. eapply triple_bind; [by apply establish_rows|]. intros [m1 current].
  apply triple_pure. intros Hsh. cbn in Hsh. destruct (other_generation _ _);
    [apply triple_fail; intros st Hst; by apply (fair_stale [])|].
  set (m2 := Member.set_RequestID _ m1). clearbody m2.
  eapply triple_bind; [apply aborts_triple; [apply matrix_joined_evidence|apply backed_none]|].
  intros [|]; cbn [negb].
  - apply settleJoin_fair; [done|apply backed_none|]. intros _. left.
  - eapply triple_bind.
    { apply aborts_keeps; [|apply backed_none].
      apply keeps_written, keeps_on_store, keeps_acquire. }
    intros [t|].
    + apply releasing_fair. eapply triple_bind; [apply claimGeneration_holds|]. intros claim.
      by apply settleJoin_fair; [|apply backed_none|].
    + eapply triple_bind; [apply awaitOther_evidence|]. intros current'.
      apply settleJoin_fair; [done|apply backed_final; intros _; left|]. intros _. left.
Qed.

Lemma generation_fair scope m params st :
  hasTransport ports = true -> I st.1 ->
  fair (joinAndProjectRetainedRoomGeneration ports join scope m params st).2
    (joinAndProjectRetainedRoomGeneration ports join scope m params st).1.
Proof using Hports.
  intros Ht HI. pose proof (joinGeneration_fair scope m params Ht st (conj HI (Forall_nil_2 _))) as Hf.
  unfold joinAndProjectRetainedRoomGeneration.
  by destruct (joinGeneration ports join scope m params st) as [st' [a|[a e]]].
Qed.

(** C9.  With a Matrix transport, and whatever other requests and Matrix do
    between its steps, a retained room join stores a member as joined only with
    Matrix's word for it: any property [I] of the world that such writes keep is
    kept by the whole join ([confirming] says what is relied on: answers of
    Matrix are evidence, rows are filed under their room and user, the rest
    keeps [I]).  When an attempt that is not stale reports success, or a joined
    member beside a later error, Matrix has said that this member is in this
    room.  When the join as a whole ([joinAndProjectRetainedRoom]) reports
    success, the member it returns is joined, and either the attempt was not
    stale and Matrix has said so, or the attempt was overtaken by another request
    and the member is the row that a lookup of the attempt found stored: in that
    case the word of Matrix is only as good as that row. *)
Theorem joined_means_confirmed scope m params st :
  hasTransport ports = true -> I st.1 ->
  let '(st1, (attempt, e1)) := joinAndProjectRetainedRoomGeneration ports join scope m params st in
  let '(st2, (m', e2)) := joinAndProjectRetainedRoom ports join scope m params st in
  I st2.1 /\ st2 = st1 /\
  (Stale attempt = false ->
   e1 = None \/ Final attempt = true /\ Busy attempt = false /\
                is_join (Member.Membership (Member_ attempt)) = true ->
   is_join (Member.Membership (Member_ attempt)) = true /\
   seen (Member.RoomID (Member_ attempt)) (Member.UserID (Member_ attempt)) st1.1) /\
  (e2 = None ->
   is_join (Member.Membership m') = true /\
   if Stale attempt
   then exists w room user, I w /\ lookupMember (directory ports w) room user = Ok (Some m')
   else seen (Member.RoomID m') (Member.UserID m') st2.1).
Proof using Hports.
  intros Ht HI. pose proof (generation_fair scope m params st Ht HI) as Hf.
  unfold joinAndProjectRetainedRoom.
  destruct (joinAndProjectRetainedRoomGeneration ports join scope m params st) as [st1 [attempt e1]].
  destruct Hf as (HI1 & Hsh & Hs). cbn in *. do 2 (split; [done|]). split; [exact Hs|].
  destruct (Stale attempt); [|intros ->; by apply Hs; [|left]].
  destruct (is_join _) eqn:Hj; [|done]. intros _. split; [done|]. by apply Hsh.
Qed.
End Confirmed.

(** ** An example

    A room server that knows who is joined, and member rows by room and user. *)
Module Demo.
Abbreviation rows := (gmap (string * string) Member.MemberRecord).
Abbreviation world := (RecoveryFacts.table * (rows * list (string * string)))%type.

Definition key (m : Member.MemberRecord) : string * string := (Member.RoomID m, Member.UserID m).

Definition put (m : Member.MemberRecord) (w : world) : world :=
  (w.1, (<[key m := m]> w.2.1, w.2.2)).

Definition swap (m : Member.MemberRecord) (requestID membership : string)
    : M world goerror bool := fun w =>
  match w.2.1 !! key m with
  | Some stored =>
      if str_eqb (Member.RequestID stored) requestID &&
         str_eqb (Member.Membership stored) membership
      then (put m w, Ok true) else (w, Ok false)
  | None => (w, Ok false)
  end.

Definition channel : Chan.Channel :=
  Chan.mk "ch" "!r:here" "" "" "" "" "" "" false false 0 0 false "" "".

Definition ports : Ports world := {|
  Recovery.directory w := {| channelByIDOrRoom _ _ := Ok None; contactsModule := None;
    memberStore := Some (fun room user => Ok (w.2.1 !! (room, user)));
    OwnerMXID := "@me:here" |};
  now _ := 1000; later _ := 1000;
  HydrateView _ contact := ret (Contacts.ViewFromRecord contact);
  Operation := None; GetRecord := None; hasTransport := true;
  matrixMemberJoined room user := reads (fun w => Ok (bool_decide ((room, user) ∈ w.2.2)));
  channelSnapshot _ w := (w, channel); randomToken _ w := (w, "t");
  waitExpired _ := false; pause w := (w, true);
  lockRecoverableOperation _ w := w; unlockRecoverableOperation _ w := w;
|}.

Definition listed (p : string * string) : Member.MemberRecord :=
  Member.set_Membership "join" (Member.set_UserID p.2 (Member.set_RoomID p.1 no_member)).

Definition join : JoinPorts world := {|
  node := {| Remote.serverName := "here"; Remote.room_domain _ := Some "here";
             Remote.saveChannel _ := ret tt; Remote.decode_channel _ := Ok channel;
             Remote.decode_user_channels _ := Err (ErrOther "not used") |};
  homeserver := "https://here";
  JoinRoom req w :=
    if str_empty (jr_RoomIDOrAlias req)
    then (w, ("", Some {| cause := ErrOther "no room"; interrupted := false |}))
    else ((w.1, (w.2.1, (jr_RoomIDOrAlias req, jr_UserMXID req) :: w.2.2)),
          (jr_RoomIDOrAlias req, None));
  InviteUser _ := ret tt; KickUser _ _ _ _ _ := ret tt;
  ListRoomMembers room :=
    reads (fun w => Ok (map listed (List.filter (fun p => str_eqb p.1 room) w.2.2)));
  GetRoomChannel _ := ret (Some channel);
  saveMember m := run (put m); saveMemberIfState := swap;
  groupByRoom _ _ := Ok None; ensureJoinedGroupRecord _ _ := ret tt;
  backfillJoinedPostChannelContent _ _ := ret tt; retry_wait w := (w, None);
  decode_reactivation _ := Err (ErrOther "not used"); decode_map _ := Ok (Some ∅);
  decode_join _ := Err (ErrOther "not used");
|}.

#[local] Instance store : OperationStore world := RecoveryFacts.shared_store (fun w => w).

(** Rows are filed under their keys, and a joined row is a Matrix fact. *)
Definition truthful (w : world) : Prop :=
  forall k m, w.2.1 !! k = Some m ->
    k = key m /\ (names_join (Member.Membership m) = true -> k ∈ w.2.2).

Definition seen (room user : string) (w : world) : Prop := (room, user) ∈ w.2.2.

Definition invited : Member.MemberRecord :=
  Member.mk "!r:here" "ch" "@me:here" "" "" "" "invite" "member" false 0 "" "request_1".
Definition start : world := (∅, ({[key invited := invited]}, [])).
End Demo.

#[local] Existing Instance Demo.store.
#[local] Existing Instance RecoveryFacts.Demo.codec.

Lemma demo_put l m : evidenced l m -> forall w,
  proved Demo.truthful Demo.seen l w -> proved Demo.truthful Demo.seen l (Demo.put m w).
Proof.
  intros He w [HI Hl]. split; [|exact Hl]. intros k m' Hk. unfold Demo.put in *. cbn [fst snd] in *.
  apply lookup_insert_Some in Hk as [[<- <-]|[_ Hk]]; [|by apply HI].
  split; [done|]. intros Hj. rewrite Forall_forall in Hl. exact (Hl _ (He Hj)).
Qed.

(** A write of the operations table. *)
Lemma demo_table l w s :
  proved Demo.truthful Demo.seen l w -> proved Demo.truthful Demo.seen l (s, w.2).
Proof. by destruct w. Qed.

Lemma demo_listed l room w :
  proved Demo.truthful Demo.seen l w ->
  proved Demo.truthful Demo.seen
    (listed_joined room (map Demo.listed (List.filter (fun p => str_eqb p.1 room) w.2.2)) ++ l) w.
Proof.
  intros [HI Hl]. split; [done|]. apply Forall_app. split; [|done].
  rewrite Forall_forall. intros p Hp. unfold listed_joined in Hp.
  apply list_elem_of_In, in_map_iff in Hp as (m & <- & Hm).
  apply filter_In in Hm as [Hm _]. apply in_map_iff in Hm as ([r u] & <- & Hp).
  apply filter_In in Hp as [Hp Hr]. apply bool_decide_eq_true in Hr. cbn in Hr. subst r.
  by apply list_elem_of_In.
Qed.

Lemma demo_confirming : confirming Demo.ports Demo.join Demo.truthful Demo.seen.
Proof.
  split.
  - intros l room user w Hw. cbn. case_bool_decide; [|done]. destruct Hw as [HI Hl].
    split; [done|]. by constructor.
  - intros l req w [HI Hl]. cbn. destruct (str_empty (jr_RoomIDOrAlias req)) eqn:He; [done|].
    split; [by apply bool_decide_eq_false in He|]. split.
    + intros k m Hk. destruct (HI k m Hk) as [Hkey Hj]. split; [done|]. intros Hn. right. auto.
    + constructor; [left|]. eapply Forall_impl; [exact Hl|]. intros p Hp. by right.
  - intros l room w Hw. by apply demo_listed.
  - intros l m He w Hw. by apply demo_put.
  - intros l m requestID membership He w Hw. cbn. unfold Demo.swap.
    destruct (_ !! _) as [stored|]; [|done]. destruct (_ && _); [by apply demo_put|done].
  - intros w room user m HI Hl. unfold lookupMember in Hl. cbn in Hl.
    destruct (_ || _); [discriminate|]. injection Hl as Hl. destruct (HI _ _ Hl) as [Hk _].
    by injection Hk.
  - intros time r owner d l w Hw. cbn.
    destruct (MemoryOperations.ClaimOperation _ _ _ _ _). by apply demo_table.
  - intros time time' r rev owner d l w Hw. cbn.
    destruct (MemoryOperations.CompareAndSwapOperation _ _ _ _ _ _ _). by apply demo_table.
  - by intros channelID l w Hw.
  - by intros kind l w Hw.
  - by intros l w Hw.
  - by intros l w Hw.
  - by intros room l w Hw.
  - by intros ch l w Hw.
  - by intros m params l w Hw.
  - by intros room ch l w Hw.
Qed.

(** The invited member joins: the row says so and Matrix agrees. *)
Lemma joined_means_confirmed_witness :
  let '(st', (m', e)) := joinAndProjectRetainedRoom Demo.ports Demo.join "channel" Demo.invited ∅
                           (Demo.start, None) in
  e = None /\ Demo.truthful st'.1 /\ is_join (Member.Membership m') = true /\
  Demo.seen (Member.RoomID m') (Member.UserID m') st'.1.
Proof.
  assert (Hs : Demo.truthful Demo.start).
  { intros k m Hk. unfold Demo.start in Hk. cbn [fst snd] in Hk.
    apply lookup_singleton_Some in Hk as [<- <-]. by split. }
  pose proof (joined_means_confirmed Demo.ports Demo.join Demo.truthful Demo.seen demo_confirming
    "channel" Demo.invited ∅ (Demo.start, None) eq_refl Hs) as Hc.
  assert (Hfresh : Stale (joinAndProjectRetainedRoomGeneration Demo.ports Demo.join "channel" Demo.invited ∅
    (Demo.start, None)).2.1 = false) by (vm_compute; reflexivity).
  assert (Hok : (joinAndProjectRetainedRoom Demo.ports Demo.join "channel" Demo.invited ∅
    (Demo.start, None)).2.2 = None) by (vm_compute; reflexivity).
  destruct (joinAndProjectRetainedRoomGeneration _ _ _ _ _ _) as [st1 [attempt e1]].
  destruct (joinAndProjectRetainedRoom _ _ _ _ _ _) as [st2 [m' e2]].
  cbn [fst snd] in *. destruct Hc as (HI & _ & _ & Hc). rewrite Hfresh in Hc.
  destruct (Hc Hok) as [Hj Hseen]. split; [exact Hok|]. split; [exact HI|]. by split.
Defined.

Example demo_join_reports_joined :
  let r := (joinAndProjectRetainedRoomGeneration Demo.ports Demo.join "channel" Demo.invited ∅
              (Demo.start, None)).2 in
  (r.2, Stale r.1, Member.Membership (Member_ r.1)) = (None, false, "join").
Proof. vm_compute. reflexivity. Qed.

(** ** Answers of other nodes *)

(** A node that answers every call with the same body. *)
Module Peer.
#[local] Instance net : Remote.NetText := {|
  Remote.url_Parse text := Some {| Remote.Scheme := "https"; Remote.hasUser := false;
    Remote.Host := "there"; Remote.Hostname := "there"; Remote.Path := ""; Remote.RawQuery := "";
    Remote.Fragment := "" |};
  Remote.url_String _ := "https://there/_p2p"; Remote.ParseAddr _ := None |}.
#[local] Instance text : Remote.RemoteText := {|
  Remote.unmarshal_payload _ := None; Remote.marshal_envelope _ _ := Ok "";
  Remote.StatusText _ := "" |}.
Definition client : Remote.Client Demo.world :=
  {| Remote.remoteAllowPrivate := false; Remote.Do _ _ := ret (200, "body") |}.

(** Its answers: a pending request with a joined member; the JSON text [null]. *)
Definition with_answers (answer_ : JoinAnswer) (body : option object) : JoinPorts Demo.world := {|
  node := {| Remote.serverName := "here"; Remote.room_domain _ := Some "there";
             Remote.saveChannel _ := ret tt; Remote.decode_channel _ := Ok Demo.channel;
             Remote.decode_user_channels _ := Err (ErrOther "not used") |};
  homeserver := "https://here"; JoinRoom := JoinRoom Demo.join;
  InviteUser _ := ret tt; KickUser _ _ _ _ _ := ret tt;
  ListRoomMembers := ListRoomMembers Demo.join; GetRoomChannel _ := ret (Some Demo.channel);
  saveMember := saveMember Demo.join; saveMemberIfState := saveMemberIfState Demo.join;
  groupByRoom _ _ := Ok None; ensureJoinedGroupRecord _ _ := ret tt;
  backfillJoinedPostChannelContent _ _ := ret tt; retry_wait w := (w, None);
  decode_reactivation _ := Err (ErrOther "not used"); decode_map _ := Ok body;
  decode_join _ := Ok answer_;
|}.

Definition forged : JoinAnswer :=
  {| ja_Status := "pending";
     ja_Member := Member.set_UserID "@me:here" (Member.set_Membership "join" no_member);
     ja_Channel := Demo.channel; ja_Error := ""; ja_ErrorCode := "" |}.
Definition request : content :=
  {["room_id" := AString "!r:there"; "request_id" := AString "request_2";
    "remote_node_base_url" := AString "https://there"]}.
Definition remote_member : Member.MemberRecord :=
  Member.mk "!r:here" "ch" "@you:there" "" "" "" "pending" "member" false 0 "https://there"
    "request_3".
Definition public : Chan.Channel :=
  Chan.mk "ch" "!r:there" "" "" "" "public" "" "" false false 0 0 false "" "".
Definition pending : Demo.world := (∅, ({[Demo.key remote_member := remote_member]}, [])).
End Peer.
#[local] Existing Instance Peer.net.
#[local] Existing Instance Peer.text.

(** An answer that says the request is pending but shows a joined member is
    stored as joined, although Matrix has nobody in the room. *)
Example forged_membership_is_stored :
  let w := (remoteChannelJoinRequest Demo.ports Peer.client (Peer.with_answers Peer.forged None)
              (Some Peer.public) Peer.request ((∅, (∅, [])), None)).1.1 in
  (option_map Member.Membership (w.2.1 !! ("!r:there", "@me:here")), w.2.2) = (Some "join", []).
Proof. vm_compute. reflexivity. Qed.

(** A node that acknowledges a decision with the JSON text [null] makes the
    handler write to a nil map. *)
Example null_answer_panics :
  (completeChannelJoinRequest Demo.ports Peer.client (Peer.with_answers Peer.forged None) false
     Peer.remote_member ∅ (Peer.pending, None)).2 = Ok NilMapWrite.
Proof. vm_compute. reflexivity. Qed.
End RetainedJoinFacts.
