(* ===== verification/MessagePagesFacts.v ===== *)
(** * Theorems on pages of messages

    Reading a page ends; the pages of a room follow one another without gap
    and without repetition when the cursor is that of the last message. *)

From Stdlib Require Import Ascii String ZArith Lia.
From stdpp Require Import base tactics list gmap strings sorting.
From S2P Require Import Prelude GoStrings Values Domain GoTime Policy PolicyFacts Action Operations.
From S2P Require Import OperationIdentity Workflow ChannelContentFacts ChannelBackfill.
From S2P Require Import ChannelBackfillFacts MessagePages.
Local Open Scope Z_scope.
Local Open Scope go_scope.

Module MessagePagesFacts.
Import Mcp.

(** ** Newest first *)

(** The order of a page and of its cursor: time, then event id. *)
Definition older (ts1 : Z) (id1 : string) (ts2 : Z) (id2 : string) : Prop :=
  ts1 < ts2 \/ ts1 = ts2 /\ str_ltb id1 id2 = true.

Lemma older_trans t1 i1 t2 i2 t3 i3 : older t1 i1 t2 i2 -> older t2 i2 t3 i3 -> older t1 i1 t3 i3.
Proof.
  unfold older. intros [?|[-> H1]] [?|[-> H2]]; try lia.
  right. split; [done|]. by eapply str_ltb_trans.
Qed.

Lemma older_irrefl t i : ~ older t i t i.
Proof. intros [?|[_ Hi]]; [lia|]. by rewrite str_ltb_irrefl in Hi. Qed.

Lemma newer_iff a b :
  newer a b = true <-> older (OriginServerTS b) (EventID b) (OriginServerTS a) (EventID a).
Proof.
  unfold newer, older. destruct (Z.eqb_spec (OriginServerTS a) (OriginServerTS b)) as [He|Hne].
  - rewrite He. split; [by right|]. intros [?|[_ ?]]; [lia|done].
  - rewrite Z.ltb_lt. split; [by left|]. intros [?|[? _]]; lia.
Qed.

Lemma summary_newer_asym a b : newer a b = true -> newer b a = false.
Proof.
  intros Hab. apply not_true_is_false. intros Hba. apply newer_iff in Hab, Hba.
  by eapply older_irrefl, older_trans.
Qed.

Lemma newer_not_after_trans a b c :
  not_after newer a b -> not_after newer b c -> not_after newer a c.
Proof.
  unfold not_after, newer.
  destruct (Z.eqb_spec (OriginServerTS b) (OriginServerTS a)),
    (Z.eqb_spec (OriginServerTS c) (OriginServerTS b)),
    (Z.eqb_spec (OriginServerTS c) (OriginServerTS a)); rewrite ?Z.ltb_ge; try lia.
  intros Hab Hbc. exact (str_nlt_trans _ _ _ Hbc Hab).
Qed.

(** Messages of a room have ids of their own, which carry no white space, and
    a time. *)
Definition proper (all : list MessageSummary) : Prop :=
  NoDup (map EventID all) /\
  Forall (fun m => trim_space (EventID m) = EventID m /\ 0 < OriginServerTS m) all.

(** The messages of a page, newest first. *)
Definition in_page (page : Page) (m : MessageSummary) : bool :=
  InPage (OriginServerTS m) (EventID m) page.
Definition messages_of (page : Page) (all : list MessageSummary) : list MessageSummary :=
  List.filter (in_page page) (SortMessageSummaries all).

(** The page after message [m], as its cursor describes it. *)
Definition page_after (page : Page) (m : MessageSummary) : Page :=
  {| FromTS := FromTS page; SnapshotTS := SnapshotTS page; CursorTS := OriginServerTS m;
     CursorID := EventID m; Limit := Limit page |}.

Lemma in_page_iff page m :
  trim_space (EventID m) = EventID m ->
  in_page page m = true <->
  InTimeRange (OriginServerTS m) (FromTS page) (SnapshotTS page) = true /\
  (CursorTS page <= 0 \/
   older (OriginServerTS m) (EventID m) (CursorTS page) (trim_space (CursorID page))).
Proof.
  intros Htrim. unfold in_page, InPage, older. rewrite Htrim.
  destruct (InTimeRange _ _ _); simpl; [|intuition done].
  destruct (Z.leb_spec (CursorTS page) 0); [intuition auto|].
  destruct (Z.ltb_spec (OriginServerTS m) (CursorTS page)); [intuition auto|].
  rewrite andb_true_iff, Z.eqb_eq. split; [intuition auto|]. intros [_ [?|[?|?]]]; [lia|lia|done].
Qed.

(** What follows [m] on its page is what is older than it. *)
Lemma in_page_after page m x :
  in_page page m = true -> trim_space (EventID m) = EventID m -> 0 < OriginServerTS m ->
  trim_space (EventID x) = EventID x ->
  in_page (page_after page m) x = in_page page x && newer m x.
Proof.
  intros Hm Htm Hpos Htx. apply eq_true_iff_eq. rewrite andb_true_iff, !in_page_iff by done.
  rewrite newer_iff. apply in_page_iff in Hm as [_ Hcur]; [|done]. simpl. rewrite Htm. split.
  - intros [Hr [?|Hold]]; [lia|]. split; [|done]. split; [done|].
    destruct Hcur as [?|Hcur]; [by left|]. right. by eapply older_trans.
  - intros [[Hr _] Hold]. split; [done|]. by right.
Qed.

(** Distinct ids: of two different messages one is newer. *)
Lemma summary_sorted_strict all :
  NoDup (map EventID all) -> StronglySorted (fun a b => newer a b = true) (SortMessageSummaries all).
Proof.
  intros Hnd.
  pose proof (stable_sort_sorted newer summary_newer_asym newer_not_after_trans all) as Hs.
  assert (Hnd' : NoDup (map EventID (SortMessageSummaries all))).
  { unfold SortMessageSummaries. by rewrite stable_sort_perm. }
  unfold SortMessageSummaries in *.
  induction Hs as [|x l Hs IH Hall]; [constructor|]. simpl in Hnd'. apply NoDup_cons in Hnd' as [Hx Hl].
  constructor; [by apply IH|]. apply Forall_forall. intros y Hy.
  rewrite Forall_forall in Hall. specialize (Hall y Hy). unfold not_after, newer in Hall.
  unfold newer. destruct (Z.eqb_spec (OriginServerTS y) (OriginServerTS x)) as [He|Hne].
  - rewrite He, Z.eqb_refl. destruct (str_ltb (EventID y) (EventID x)) eqn:Hlt; [done|].
    exfalso. apply Hx. rewrite (str_ltb_total _ _ Hall Hlt).
    apply list_elem_of_In, in_map, list_elem_of_In, Hy.
  - apply Z.ltb_ge in Hall. rewrite (proj2 (Z.eqb_neq _ _)) by lia. apply Z.ltb_lt. lia.
Qed.

Lemma filter_all {A} (p : A -> bool) l : Forall (fun x => p x = true) l -> List.filter p l = l.
Proof. induction 1 as [|x l Hx _ IH]; simpl; [done|]. by rewrite Hx, IH. Qed.

Lemma filter_none {A} (p : A -> bool) l : Forall (fun x => p x = false) l -> List.filter p l = [].
Proof. induction 1 as [|x l Hx _ IH]; simpl; [done|]. by rewrite Hx. Qed.

Lemma filter_filter_andb {A} (p q : A -> bool) l :
  List.filter q (List.filter p l) = List.filter (fun x => p x && q x) l.
Proof. induction l as [|x l IH]; simpl; [done|]. destruct (p x); simpl; by rewrite IH. Qed.

Lemma sorted_filter {A} (R : A -> A -> Prop) p (l : list A) :
  StronglySorted R l -> StronglySorted R (List.filter p l).
Proof.
  induction 1 as [|x l Hs IH Hall]; simpl; [constructor|]. destruct (p x); [|done].
  constructor; [done|]. rewrite Forall_forall in *. intros y Hy. apply Hall.
  rewrite list_elem_of_In in *. by apply filter_In in Hy as [? _].
Qed.

(** Of a strictly sorted list, the elements after one are those it precedes. *)
Lemma filter_tail (m : MessageSummary) l1 l2 :
  StronglySorted (fun a b => newer a b = true) (l1 ++ m :: l2) ->
  List.filter (newer m) (l1 ++ m :: l2) = l2.
Proof.
  intros Hs. rewrite List.filter_app. simpl.
  assert (Hmm : newer m m = false) by (apply not_true_is_false; intros H; by rewrite (summary_newer_asym _ _ H) in H).
  rewrite Hmm. apply StronglySorted_app in Hs as (Hcross & _ & Hs2).
  apply StronglySorted_cons in Hs2 as [Hall _].
  rewrite filter_none, filter_all by
    (first [done | apply Forall_forall; intros x Hx; apply summary_newer_asym, Hcross; [done|left]]).
  done.
Qed.

(** C37.  The pages of a room follow one another.  For messages with ids of
    their own and a time, when the first [n + 1] messages of a page end with
    [m], the page that the cursor of [m] describes holds exactly the messages
    of the page after those, in the same order: nothing is skipped and nothing
    comes twice, also among messages of the same millisecond. *)
Theorem pages_follow page all n m :
  proper all -> messages_of page all !! n = Some m ->
  messages_of (page_after page m) all = drop (S n) (messages_of page all).
Proof.
  intros [Hnd Hall] Hn.
  pose proof (take_drop_middle _ _ _ Hn) as Hsplit.
  assert (Hin : forall x, x ∈ SortMessageSummaries all -> trim_space (EventID x) = EventID x /\ 0 < OriginServerTS x).
  { intros x Hx. rewrite Forall_forall in Hall. apply Hall. by apply elem_of_stable_sort in Hx. }
  assert (Hm : m ∈ SortMessageSummaries all /\ in_page page m = true).
  { apply list_elem_of_lookup_2, list_elem_of_In, filter_In in Hn.
    by rewrite list_elem_of_In. }
  destruct Hm as [Hmin Hmp]. destruct (Hin m Hmin) as [Htm Hpos].
  assert (Hfilter : messages_of (page_after page m) all = List.filter (newer m) (messages_of page all)).
  { unfold messages_of. rewrite filter_filter_andb. apply filter_ext_in. intros x Hx.
    rewrite <- list_elem_of_In in Hx. apply in_page_after; try done. by apply Hin. }
  rewrite Hfilter. rewrite <- Hsplit at 1. apply filter_tail. rewrite Hsplit.
  by apply sorted_filter, summary_sorted_strict.
Qed.

(** Three messages, two of them of the same millisecond. *)
Module Demo.
Definition message (id : string) (ts : Z) : MessageSummary :=
  {| EventID := id; OriginServerTS := ts; CreatedAt := ""; Sender := "bob"; SenderMXID := "@bob:h";
     SenderDisplayName := ""; SenderDomain := "h"; SenderLocalpart := "bob"; Msg := "hi" |}.
Definition all : list MessageSummary := [message "$a" 5; message "$c" 3; message "$b" 5].
Definition page : Page :=
  {| FromTS := 0; SnapshotTS := 9; CursorTS := 0; CursorID := ""; Limit := 1 |}.
End Demo.

Lemma pages_follow_witness :
  map EventID (messages_of (page_after Demo.page (Demo.message "$b" 5)) Demo.all) = ["$a"; "$c"].
Proof.
  rewrite (pages_follow Demo.page Demo.all 0 (Demo.message "$b" 5)).
  - vm_compute. reflexivity.
  - split; [|repeat constructor; vm_compute; reflexivity].
    apply (bool_decide_unpack _). vm_compute. exact I.
  - vm_compute. reflexivity.
Defined.

(** ** Reading a page *)

Section Reading.
Context {W : Type}.
Context (accessToken : M W History.error string).
Context (getMessages : string -> string -> M W History.error (list Event * string)).

Lemma readOrdinary_ends T page token :
  ChannelBackfillFacts.tokens_in getMessages T -> forall fuel seen next messages w,
  NoDup seen -> seen ⊆ T -> (length T < fuel + length seen)%nat ->
  (readOrdinary getMessages fuel page token seen next messages w).2 <> Ok None.
Proof using Type.
  intros HT. induction fuel as [|fuel IH]; intros seen next messages w Hnd Hsub Hlen.
  { pose proof (submseteq_length _ _ (NoDup_submseteq seen T Hnd Hsub)). lia. }
  cbn [readOrdinary]. destruct (_ <=? _)%nat; [done|]. unfold mbind_.
  destruct (getMessages token next w) as [w' [[chunk end_]|e]] eqn:Hg; [|done].
  case_bool_decide; [done|]. destruct (_ || _ || _) eqn:Hstop; [done|].
  apply orb_false_iff in Hstop as [_ Hnew]. apply bool_decide_eq_false in Hnew.
  apply IH; [by constructor| |cbn; lia].
  intros t Ht. apply elem_of_cons in Ht as [->|Ht]; [exact (HT _ _ _ _ _ _ Hg)|by apply Hsub].
Qed.

(** A text message of the page. *)
Definition readable (page : Page) (m : MessageSummary) : Prop :=
  in_page page m = true /\ Msg m <> "" /\ trimmed (Msg m).

Lemma summary_readable page type id ts sender c m :
  OrdinaryMessageSummary type id ts sender c page = Some m -> readable page m.
Proof using Type.
  unfold OrdinaryMessageSummary. 
  destruct (negb (str_eqb type "m.room.message") || negb (InPage ts id page)) eqn:Hp; [done|].
  destruct (negb (str_empty (Identity.trimString (get c "p2p_kind")))); [done|].
  destruct (str_empty (Identity.trimString (get c "body"))) eqn:Hbody; [done|]. destruct (splitMXID _) as [local domain].
  apply orb_false_iff in Hp as [_ Hp]. apply negb_false_iff in Hp.
  apply bool_decide_eq_false in Hbody. intros Hm. injection Hm as <-.
  split; [exact Hp|]. split; [exact Hbody|]. apply String_trimmed.
Qed.

Lemma readOrdinary_ok page token fuel : forall seen next messages w l,
  Forall (readable page) messages ->
  (readOrdinary getMessages fuel page token seen next messages w).2 = Ok (Some l) ->
  Forall (readable page) l.
Proof using Type.
  induction fuel as [|fuel IH]; intros seen next messages w l Hok; [done|].
  cbn [readOrdinary]. destruct (_ <=? _)%nat; [by intros [= <-]|]. unfold mbind_.
  destruct (getMessages token next w) as [w' [[chunk end_]|e]]; [|done].
  case_bool_decide; [by intros [= <-]|].
  assert (Hnext : Forall (readable page) (take (S (Z.to_nat (Limit page))) (messages ++ summaries page chunk))).
  { apply Forall_take, Forall_app. split; [done|]. apply Forall_forall. intros m Hm.
    apply list_elem_of_omap in Hm as (e & _ & He). by eapply summary_readable. }
  destruct (_ || _ || _); [by intros [= <-]|]. by apply IH.
Qed.

(** Reading ends when the server gives out finitely many page tokens, and what
    is read is at most the limit, newest first, and made of text messages of
    the page. *)
Theorem ordinary_reading_ends T fuel page w :
  ChannelBackfillFacts.tokens_in getMessages T -> (length T < fuel)%nat ->
  match (ListOrdinaryMessages accessToken getMessages fuel page w).2 with
  | Ok (Some r) =>
      let limit := if Limit page <=? 0 then 50 else Limit page in
      Z.of_nat (length (Messages r)) <= limit /\
      StronglySorted (not_after newer) (Messages r) /\ Forall (readable page) (Messages r)
  | Ok None => False
  | Err _ => True
  end.
Proof using Type.
  intros HT Hfuel. unfold ListOrdinaryMessages, mbind_.
  destruct (accessToken w) as [w1 [token|e]]; [|done].
  set (page' := if Limit page <=? 0 then _ else page).
  assert (Hpage : forall m, readable page' m <-> readable page m)
    by (intros m; subst page'; by destruct (Limit page <=? 0)).
  assert (Hlimit : Limit page' = (if Limit page <=? 0 then 50 else Limit page) /\ 0 <= Limit page').
  { subst page'. destruct (Z.leb_spec (Limit page) 0); simpl; split; lia. }
  destruct (readOrdinary _ _ page' token [] "" [] w1) as [w2 [[l|]|e]] eqn:Hr; [| |done].
  - assert (Hok : Forall (readable page') l).
    { apply (readOrdinary_ok page' token fuel [] "" [] w1); [constructor|by rewrite Hr]. }
    simpl. destruct Hlimit as [<- Hpos]. split; [rewrite length_take; lia|].
    pose proof (stable_sort_sorted newer summary_newer_asym newer_not_after_trans l) as Hs.
    rewrite <- (take_drop (Z.to_nat (Limit page')) (stable_sort newer l)) in Hs.
    split; [exact (StronglySorted_app_1_l _ _ _ Hs)|].
    eapply Forall_impl; [|intros m Hm; apply Hpage, Hm].
    apply Forall_take. unfold SortMessageSummaries. by rewrite stable_sort_perm.
  - apply (f_equal snd) in Hr. revert Hr.
    apply (readOrdinary_ends T); [done|constructor|set_solver|cbn; lia].
Qed.
End Reading.
End MessagePagesFacts.
