(* ===== verification/GroupAgentFacts.v ===== *)
(** * Theorems on group agents

    The requests made to a shared agent stay under the grant they were made
    under, the agent answers only under a grant that Matrix and the rows both
    confirm, it reads no more of a room than the asker may, and a request is
    answered once. *)

From Stdlib Require Import Ascii String ZArith Lia.
From stdpp Require Import base tactics list gmap strings pretty.
From S2P Require Import Prelude GoStrings Values GoSha256 Domain GoTime GoTimeParse Policy PolicyFacts Action.
From S2P Require Import RoomState Operations OperationIdentity Workflow Prepared ChannelBackfill.
From S2P Require Import MessagePages GroupAgent.
Local Open Scope Z_scope.
Local Open Scope go_scope.

Module GroupAgentFacts.
Import Identity AgentStore AgentService.

(** ** Display names *)

Section Names.
Import Sanitize.

Definition printable (a : ascii) : Prop := 32 <= byte a /\ byte a <> 127.

(** The runes of UTF-8: one for every byte that does not continue another. *)
Definition leads (a : ascii) : bool := negb (continuation a).
Definition rune_count (l : bytes) : nat := length (List.filter leads l).

Lemma next_rune_spec l r enc rest :
  next_rune l = Some (r, enc, rest) ->
  rune_count enc = 1%nat /\ Forall (fun a => byte a < 128 -> byte a = r) enc.
Proof.
  unfold next_rune, rune_count, leads, continuation.
  destruct l as [|a l1]; [done|]. intros Hn.
  repeat (case_match; try discriminate); injection Hn as <- <- <-; str_bool;
    rewrite ?Z.ltb_lt, ?Z.ltb_ge, ?Z.leb_le, ?Z.leb_gt in *;
    (split; [|repeat (apply Forall_cons_2; [lia|]); apply Forall_nil_2]); simpl;
    repeat match goal with
    | |- context [(?x <=? ?y)] =>
        first [rewrite (proj2 (Z.leb_le x y)) by lia | rewrite (proj2 (Z.leb_gt x y)) by lia]
    end; first [done | exfalso; lia].
Qed.

Definition clean (x : Z * bytes) : Prop := rune_count x.2 = 1%nat /\ Forall printable x.2.

Lemma runes_spec fuel l rs :
  runes fuel l = Some rs ->
  Forall (fun x => rune_count x.2 = 1%nat /\ Forall (fun a => byte a < 128 -> byte a = x.1) x.2) rs.
Proof.
  revert l rs. induction fuel as [|fuel IH]; intros [|a l] rs; cbn [runes]; try (by intros [= <-]).
  destruct (next_rune (a :: l)) as [[[r enc] rest]|] eqn:Hn; [|done].
  destruct (runes fuel rest) as [rs'|] eqn:Hr; [|done]. intros Hrs. injection Hrs as <-.
  constructor; [by apply next_rune_spec in Hn|by eapply IH].
Qed.

Lemma kept_clean r enc :
  rune_count enc = 1%nat -> Forall (fun a => byte a < 128 -> byte a = r) enc ->
  is_control r = false -> clean (r, enc).
Proof.
  intros H1 Henc Hc. split; [done|]. simpl. eapply Forall_impl; [exact Henc|].
  intros a Ha. unfold is_control in Hc. str_bool. unfold printable.
  destruct (Z.lt_ge_cases (byte a) 128) as [Hlt|Hge]; [|lia].
  rewrite (Ha Hlt). apply Z.ltb_ge in H. destruct H0 as [H0|H0]; lia.
Qed.

(** At most 64 clean runes, and perhaps one space after them. *)
Definition bounded (out : list (Z * bytes)) : Prop :=
  exists front tail, out = front ++ tail /\ (length front <= 64)%nat /\ Forall clean front /\
    (tail = [] \/ tail = [(32, [" "%char])]).

Lemma clean_space : clean (32, [" "%char]).
Proof. split; [done|]. repeat constructor; vm_compute; congruence. Qed.

Lemma written_bounded rs out space :
  Forall (fun x => rune_count x.2 = 1%nat /\ Forall (fun a => byte a < 128 -> byte a = x.1) x.2) rs ->
  (length out <= 64)%nat -> Forall clean out -> bounded (written rs out space).
Proof.
  intros Hrs. revert out space. induction Hrs as [|[r enc] rs [H1 Henc] _ IH]; intros out space Hlen Hout.
  - exists out, []. rewrite app_nil_r. do 3 (split; [done|]). by left.
  - cbn [written]. destruct (_ || _ || _) eqn:Hskip; [by apply IH|].
    apply orb_false_iff in Hskip as [Hskip _]. apply orb_false_iff in Hskip as [_ Hctl].
    set (out' := if space then out ++ [(32, [" "%char])] else out).
    destruct (GroupAgentDisplayNameMaxRunes <=? length out')%nat eqn:Hfull.
    + subst out'. destruct space.
      * exists out, [(32, [" "%char])]. do 3 (split; [done|]). by right.
      * exists out, []. rewrite app_nil_r. do 3 (split; [done|]). by left.
    + apply Nat.leb_gt in Hfull. unfold GroupAgentDisplayNameMaxRunes in Hfull. apply IH.
      * rewrite length_app. simpl. lia.
      * apply Forall_app. split; [|by apply Forall_singleton, kept_clean].
        subst out'. destruct space; [|done]. apply Forall_app. split; [done|].
        apply Forall_singleton, clean_space.
Qed.

Lemma trim_left_suffix l : exists k, l = k ++ trim_left l.
Proof. apply strip_suffix. Qed.

Lemma trim_right_space l : trim_right (l ++ [" "%char]) = trim_right l.
Proof. unfold trim_right. by rewrite rev_app_distr. Qed.

(** Trimming a text with a space after it. *)
Lemma trim_bytes_space l : exists l', trim_bytes (l ++ [" "%char]) = trim_right l' /\ exists k, l = k ++ l'.
Proof.
  unfold trim_bytes. destruct (trim_left_suffix (l ++ [" "%char])) as [k Hk].
  destruct (trim_left (l ++ [" "%char])) as [|a l0] eqn:Ht using rev_ind.
  - exists []. split; [done|]. exists l. by rewrite app_nil_r.
  - rewrite app_assoc in Hk. apply app_inj_tail in Hk as [Hk <-]. exists l0.
    split; [apply trim_right_space|by exists k].
Qed.

Lemma trim_bytes_part l : exists k1 k2, l = k1 ++ trim_bytes l ++ k2.
Proof.
  unfold trim_bytes. destruct (trim_left_suffix l) as [k1 Hk1].
  destruct (trim_right_prefix (trim_left l)) as [k2 Hk2]. exists k1, k2. by rewrite <- Hk2, <- Hk1.
Qed.

Lemma rune_count_app l k : rune_count (l ++ k) = (rune_count l + rune_count k)%nat.
Proof. unfold rune_count. by rewrite List.filter_app, length_app. Qed.

Lemma clean_concat front :
  Forall clean front ->
  rune_count (concat (map snd front)) = length front /\ Forall printable (concat (map snd front)).
Proof.
  induction 1 as [|[r enc] front [H1 Hp] _ [IH1 IH2]]; simpl in *; [by repeat constructor|].
  rewrite rune_count_app, H1, IH1. split; [done|]. by apply Forall_app.
Qed.

(** A part of at most 64 clean runes. *)
Lemma bounded_trim out :
  bounded out ->
  (rune_count (trim_bytes (concat (map snd out))) <= 64)%nat /\
  Forall printable (trim_bytes (concat (map snd out))).
Proof.
  intros (front & tail & -> & Hlen & Hclean & Htail).
  destruct (clean_concat front Hclean) as [Hcount Hprint]. rewrite map_app, concat_app.
  assert (Hpart : exists k1 k2, concat (map snd front) =
    k1 ++ trim_bytes (concat (map snd front) ++ concat (map snd tail)) ++ k2).
  { destruct Htail as [->| ->]; simpl; [rewrite app_nil_r; apply trim_bytes_part|].
    destruct (trim_bytes_space (concat (map snd front))) as (l' & -> & k & Hk).
    destruct (trim_right_prefix l') as [k2 Hk2]. exists k, k2. by rewrite <- Hk2, <- Hk. }
  destruct Hpart as (k1 & k2 & Heq). rewrite Heq in Hcount, Hprint.
  rewrite !rune_count_app in Hcount. rewrite !Forall_app in Hprint.
  destruct Hprint as (_ & Hp & _). split; [lia|done].
Qed.

(** C40.  The display name a member chose reaches the agent as one short line:
    whatever the raw text, the sanitised name has at most 64 runes, none of its
    bytes is an ASCII control character (no line break among them), and it has
    no space around it. *)
Theorem display_names_are_one_line raw :
  let name := list_ascii_of_string (SanitizeGroupAgentDisplayName raw) in
  (rune_count name <= 64)%nat /\ Forall printable name /\
  trim_space (SanitizeGroupAgentDisplayName raw) = SanitizeGroupAgentDisplayName raw.
Proof.
  cbv zeta. unfold SanitizeGroupAgentDisplayName.
  assert (Hempty : (rune_count [] <= 64)%nat /\ Forall printable [] /\ trim_space "" = "")
    by (split; [vm_compute; lia|split; [constructor|done]]).
  destruct (runes _ _) as [[|r rs]|] eqn:Hr; [exact Hempty| |exact Hempty].
  apply runes_spec in Hr.
  assert (Hb : bounded (written (r :: rs) [] false)) by (apply written_bounded; [done|simpl; lia|done]).
  apply bounded_trim in Hb as [Hcount Hprint]. unfold trim_space at 1 2.
  rewrite !list_ascii_of_string_of_list_ascii. split; [done|]. split; [done|].
  apply trim_space_idemp.
Qed.
End Names.
(** ** The tables *)

Definition live (r : GroupAgentRequest) : bool := str_eqb (Request.Status r) "pending".

(** Every pending request is covered by the enabled grant of its room, at its
    revision; no room has more than the queue holds; rows carry their keys. *)
Record tables_ok (s : tables) : Prop := {
  ok_granted : forall id r, groupAgentRequests s !! id = Some r -> live r = true ->
    groupAgentRequestMatches (binding_of s (Request.RoomID r)) r = true;
  ok_queue : forall room, (pending_in s room <= groupAgentRequestQueueMax)%nat;
  ok_rooms : forall room b, groupAgentBindings s !! room = Some b -> Binding.RoomID b = room;
  ok_ids : forall id r, groupAgentRequests s !! id = Some r -> Request.RequestID r = id;
}.

(** *** Counting *)

Definition waits_in (room : string) (r : GroupAgentRequest) : bool :=
  str_eqb (Request.RoomID r) room && live r.

Definition waiting (m : gmap string GroupAgentRequest) (room : string) : gset string :=
  dom (filter (fun kr => waits_in room kr.2 = true) m).

Lemma filter_values_length (p : GroupAgentRequest -> bool) (m : gmap string GroupAgentRequest) :
  length (List.filter p (map snd (map_to_list m))) =
  size (dom (filter (fun kr => p kr.2 = true) m)).
Proof.
  rewrite size_dom. induction m as [|k r m Hk IH] using map_ind.
  - by rewrite map_to_list_empty, map_filter_empty, map_size_empty.
  - assert (Hperm : List.filter p (map snd (map_to_list (<[k:=r]> m))) ≡ₚ
                    List.filter p (map snd ((k, r) :: map_to_list m))).
    { apply bool_filter_perm. by rewrite (map_to_list_insert m k r Hk). }
    rewrite (Permutation_length Hperm). simpl. destruct (p r) eqn:Hp; simpl.
    + rewrite map_filter_insert_True by done. rewrite map_size_insert_None; [by rewrite IH|].
      apply map_lookup_filter_None. by left.
    + rewrite map_filter_insert_not' by (simpl; congruence || (intros; simplify_eq)). done.
Qed.

Lemma pending_in_size s room : pending_in s room = size (waiting (groupAgentRequests s) room).
Proof. apply filter_values_length. Qed.

Lemma elem_of_waiting m room id :
  id ∈ waiting m room <-> exists r, m !! id = Some r /\ waits_in room r = true.
Proof.
  unfold waiting. rewrite elem_of_dom. split.
  - intros [r Hr]. apply map_lookup_filter_Some in Hr. by exists r.
  - intros (r & Hr & Hw). exists r. by apply map_lookup_filter_Some.
Qed.

(** When every pending request was pending before, no queue grows. *)
Lemma pending_in_mono s s' room :
  (forall id r', groupAgentRequests s' !! id = Some r' -> waits_in room r' = true ->
     exists r, groupAgentRequests s !! id = Some r /\ waits_in room r = true) ->
  (pending_in s' room <= pending_in s room)%nat.
Proof.
  intros H. rewrite !pending_in_size. apply subseteq_size. intros id Hid.
  apply elem_of_waiting in Hid as (r' & Hr & Hw). apply elem_of_waiting. eauto.
Qed.

Lemma pending_in_insert s id r room :
  (pending_in (set_request s id r) room <= S (pending_in s room))%nat.
Proof.
  rewrite !pending_in_size.
  transitivity (size ({[id]} ∪ waiting (groupAgentRequests s) room)).
  - apply subseteq_size. intros i Hi. apply elem_of_waiting in Hi as (r' & Hr & Hw). simpl in Hr.
    destruct (decide (i = id)) as [->|Hne]; [set_solver|].
    rewrite lookup_insert_ne in Hr by done. apply elem_of_union_r, elem_of_waiting. eauto.
  - rewrite size_union_alt, size_singleton.
    apply le_n_S, subseteq_size. set_solver.
Qed.

(** A request that keeps its identity and does not wake up. *)
Definition settles (r r' : GroupAgentRequest) : Prop :=
  Request.RequestID r' = Request.RequestID r /\ Request.RoomID r' = Request.RoomID r /\
  Request.OwnerMXID r' = Request.OwnerMXID r /\ Request.AgentMXID r' = Request.AgentMXID r /\
  Request.BindingRevision r' = Request.BindingRevision r /\
  Request.AccountGeneration r' = Request.AccountGeneration r /\
  (live r' = true -> live r = true).

Lemma settles_refl r : settles r r.
Proof. by repeat split. Qed.

Lemma settles_trans r1 r2 r3 : settles r1 r2 -> settles r2 r3 -> settles r1 r3.
Proof. unfold settles. intros; destruct_and!; repeat split; try congruence; auto. Qed.

Lemma settles_status r status : status <> "pending" -> settles r (Request.set_Status status r).
Proof.
  intros Hs. repeat split. unfold live. simpl. intros Hl. by apply str_eqb_true in Hl.
Qed.

Lemma settles_body r body : settles r (Request.set_Body body r).
Proof. by repeat split. Qed.

Lemma settles_reply r event digest : settles r (Request.set_Reply event digest r).
Proof. by repeat split. Qed.

Lemma settles_matches b r r' :
  settles r r' -> groupAgentRequestMatches b r' = groupAgentRequestMatches b r.
Proof.
  intros (_ & _ & HO & HA & HR & HG & _). unfold groupAgentRequestMatches. by rewrite HO, HA, HR, HG.
Qed.

Lemma settles_waits room r r' : settles r r' -> waits_in room r' = true -> waits_in room r = true.
Proof.
  intros (_ & Hroom & _ & _ & _ & _ & Hl). unfold waits_in. rewrite Hroom, !andb_true_iff.
  intros [? ?]. auto.
Qed.

(** Settling requests under unchanged grants. *)
Lemma tables_ok_settle s s' :
  groupAgentBindings s' = groupAgentBindings s ->
  (forall id r', groupAgentRequests s' !! id = Some r' ->
     exists r, groupAgentRequests s !! id = Some r /\ settles r r') ->
  tables_ok s -> tables_ok s'.
Proof.
  intros Hb Hreq [Hg Hq Hr Hi]. constructor.
  - intros id r' Hr' Hlive. destruct (Hreq id r' Hr') as (r & Hlook & Hset).
    rewrite (settles_matches _ r) by done. unfold binding_of. rewrite Hb.
    destruct Hset as (_ & -> & _ & _ & _ & _ & Hl). apply (Hg id); auto.
  - intros room. transitivity (pending_in s room); [|done]. apply pending_in_mono.
    intros id r' Hr' Hw. destruct (Hreq id r' Hr') as (r & Hlook & Hset). eauto using settles_waits.
  - intros room b. rewrite Hb. apply Hr.
  - intros id r' Hr'. destruct (Hreq id r' Hr') as (r & Hlook & Hset).
    destruct Hset as [-> _]. by apply Hi.
Qed.

Lemma cancel_matching_settles room sender event r : settles r (cancel_matching room sender event r).
Proof.
  unfold cancel_matching. destruct (_ && _); [by apply settles_status|apply settles_refl].
Qed.

Lemma cancel_ok s room sender event : tables_ok s -> tables_ok (CancelGroupAgentRequests s room sender event).
Proof.
  apply tables_ok_settle; [done|]. intros id r' Hr'. simpl in Hr'.
  rewrite lookup_fmap in Hr'. destruct (groupAgentRequests s !! id) as [r|]; [|done].
  injection Hr' as <-. eauto using cancel_matching_settles.
Qed.

Lemma enqueue_ok s r : tables_ok s -> tables_ok (EnqueueGroupAgentRequest s r).1.
Proof.
  intros Hok. unfold EnqueueGroupAgentRequest.
  destruct (groupAgentRequestMatches _ _) eqn:Hm; [|done]. cbn [negb].
  case_bool_decide as Hnew; [done|].
  destruct (groupAgentRequestQueueMax <=? pending_in s (Request.RoomID r))%nat eqn:Hq; [done|]. apply Nat.leb_gt in Hq.
  destruct (_ && _); [done|]. simpl.
  set (r' := if negb (str_empty (Request.ScheduledBy r)) then r else Request.set_Body "" r).
  assert (Hset : Request.RequestID r' = Request.RequestID r /\ Request.RoomID r' = Request.RoomID r /\
    forall b, groupAgentRequestMatches b r' = groupAgentRequestMatches b r).
  { subst r'. by destruct (negb _). }
  destruct Hset as (Hid & Hroom & Hmatch). destruct Hok as [Hg Hqs Hr Hi]. constructor.
  - intros id q. simpl. destruct (decide (id = Request.RequestID r')) as [->|Hne].
    + rewrite lookup_insert_eq. intros Hq' Hl. injection Hq' as <-. cbn [Request.RoomID Request.set_Status].
      rewrite Hroom. etransitivity; [apply Hmatch|]. exact Hm.
    + rewrite lookup_insert_ne by done. apply Hg.
  - intros room. destruct (decide (room = Request.RoomID r)) as [->|Hne].
    + etransitivity; [apply pending_in_insert|]. lia.
    + etransitivity; [|apply (Hqs room)]. apply pending_in_mono. intros id q. simpl.
      destruct (decide (id = Request.RequestID r')) as [->|Hne']; [|rewrite lookup_insert_ne by done; eauto].
      rewrite lookup_insert_eq. intros Hq' Hw. injection Hq' as <-. unfold waits_in in Hw. simpl in Hw.
      apply andb_true_iff in Hw as [Hw _]. apply str_eqb_true in Hw. congruence.
  - exact Hr.
  - intros id q. simpl. destruct (decide (id = Request.RequestID r')) as [->|Hne].
    + rewrite lookup_insert_eq. intros Hq'. by injection Hq' as <-.
    + rewrite lookup_insert_ne by done. apply Hi.
Qed.

(** *** Changes of a grant *)

(** A change that leaves an enabled grant at its revision leaves whom it is
    for. *)
Definition honest (roomID : string) (b b' : GroupAgentBinding) : Prop :=
  Binding.RoomID b' = roomID /\
  (Binding.Enabled b' = true -> Binding.Revision b' = Binding.Revision b ->
   Binding.OwnerMXID b' = Binding.OwnerMXID b /\ Binding.AgentMXID b' = Binding.AgentMXID b /\
   Binding.AccountGeneration b' = Binding.AccountGeneration b).

(** The requests after a change of the grant of [roomID]. *)
Definition after_change (roomID : string) (b b' : GroupAgentBinding)
    (m : gmap string GroupAgentRequest) : gmap string GroupAgentRequest :=
  if negb (Binding.Enabled b') || negb (Binding.Revision b' =? Binding.Revision b)
  then cancel_stale roomID b' <$> m else m.

Lemma after_change_settles roomID b b' m id r' :
  after_change roomID b b' m !! id = Some r' -> exists r, m !! id = Some r /\ settles r r'.
Proof.
  unfold after_change. destruct (_ || _); [|eauto using settles_refl].
  rewrite lookup_fmap. destruct (m !! id) as [r|]; [|done]. intros Hr'. injection Hr' as <-.
  exists r. split; [done|]. unfold cancel_stale.
  destruct (_ && _); [by apply settles_status|apply settles_refl].
Qed.

Lemma matches_iff b r :
  groupAgentRequestMatches b r = true <->
  Binding.Enabled b = true /\ Binding.Revision b = Request.BindingRevision r /\
  Binding.OwnerMXID b = Request.OwnerMXID r /\ Binding.AgentMXID b = Request.AgentMXID r /\
  Binding.AccountGeneration b = Request.AccountGeneration r.
Proof.
  unfold groupAgentRequestMatches.
  rewrite !andb_true_iff, !str_eqb_true, !Z.eqb_eq. tauto.
Qed.

Lemma cancel_stale_live roomID b r :
  live (cancel_stale roomID b r) = true -> Request.RoomID r = roomID ->
  cancel_stale roomID b r = r /\ Binding.Enabled b = true /\
  Request.BindingRevision r = Binding.Revision b.
Proof.
  intros Hlive Hroom. unfold cancel_stale in *.
  destruct (str_eqb (Request.RoomID r) roomID && str_eqb (Request.Status r) "pending" &&
            (negb (Binding.Enabled b) || negb (Request.BindingRevision r =? Binding.Revision b)))
    eqn:Hstale; [done|].
  split; [done|]. unfold live in Hlive. apply str_eqb_true in Hroom.
  rewrite Hroom, Hlive in Hstale. simpl in Hstale. str_bool.
  split; [done|]. by apply Z.eqb_eq.
Qed.

(** What is still pending in the room was covered before and is covered now. *)
Lemma after_change_covers roomID b b' m id r' :
  honest roomID b b' -> after_change roomID b b' m !! id = Some r' -> live r' = true ->
  Request.RoomID r' = roomID ->
  (forall r, m !! id = Some r -> live r = true -> Request.RoomID r = roomID ->
     groupAgentRequestMatches b r = true) ->
  groupAgentRequestMatches b' r' = true.
Proof.
  intros [_ Hsame] Hr' Hlive Hroom Hcov.
  destruct (after_change_settles _ _ _ _ _ _ Hr') as (r & Hr & Hset).
  assert (Hroom_r : Request.RoomID r = roomID) by (destruct Hset as (_ & <- & _); done).
  assert (Hm : groupAgentRequestMatches b r = true).
  { destruct Hset as (_ & _ & _ & _ & _ & _ & Hl). apply Hcov; auto. }
  apply matches_iff in Hm as (_ & Hrev & HO & HA & HG). unfold after_change in Hr'.
  destruct (negb (Binding.Enabled b') || negb (Binding.Revision b' =? Binding.Revision b)) eqn:Hch.
  - rewrite lookup_fmap, Hr in Hr'. injection Hr' as <-.
    destruct (cancel_stale_live _ _ _ Hlive Hroom_r) as (_ & He & Hsame_rev). exfalso.
    rewrite He in Hch. simpl in Hch. apply negb_true_iff, Z.eqb_neq in Hch. congruence.
  - rewrite Hr in Hr'. injection Hr' as <-. str_bool. apply Z.eqb_eq in H0.
    destruct (Hsame H H0) as (HO' & HA' & HG'). apply matches_iff.
    repeat split; congruence.
Qed.

Lemma change_ok s roomID b' :
  let b := with_RoomID roomID (binding_of s roomID) in
  honest roomID b b' -> tables_ok s ->
  tables_ok {| groupAgentBindings := <[roomID := b']> (groupAgentBindings s);
               groupAgentRequests := after_change roomID b b' (groupAgentRequests s);
               groupAgentSchedules := groupAgentSchedules s |}.
Proof.
  intros b Hh [Hg Hq Hr Hi]. constructor; simpl.
  - intros id r' Hr' Hlive. unfold binding_of; simpl.
    destruct (after_change_settles _ _ _ _ _ _ Hr') as (r & Hlook & Hset).
    destruct (decide (Request.RoomID r' = roomID)) as [Hroom|Hne].
    + rewrite Hroom, lookup_insert_eq. simpl.
      apply (after_change_covers roomID b b' (groupAgentRequests s) id); try done.
      intros q Hq' Hl Hroomq. specialize (Hg id q Hq' Hl). rewrite Hroomq in Hg.
      apply matches_iff in Hg. by apply matches_iff.
    + rewrite lookup_insert_ne by done. rewrite (settles_matches _ r) by done.
      destruct Hset as (_ & -> & _ & _ & _ & _ & Hl). apply (Hg id); auto.
  - intros room. transitivity (pending_in s room); [|done]. apply pending_in_mono. simpl.
    intros id r' Hr' Hw. destruct (after_change_settles _ _ _ _ _ _ Hr') as (r & Hlook & Hset).
    eauto using settles_waits.
  - intros room q. destruct (decide (room = roomID)) as [->|Hne].
    + rewrite lookup_insert_eq. intros Hb. injection Hb as <-. apply Hh.
    + rewrite lookup_insert_ne by done. apply Hr.
  - intros id r' Hr'. destruct (after_change_settles _ _ _ _ _ _ Hr') as (r & Hlook & [-> _]).
    by apply Hi.
Qed.

(** *** The mutations, with their callbacks *)

Section Mutations.
Context {X : Type}.
Local Notation St := (tables * X)%type.
Local Notation ok := (fun st : St => tables_ok st.1).

Lemma mutate_binding_keeps {A} roomID
    (mutate : GroupAgentBinding -> M X agent_error (GroupAgentBinding * A)) :
  (forall b x x' b' a, Binding.RoomID b = roomID -> mutate b x = (x', Ok (b', a)) ->
     honest roomID b b') ->
  keeps ok (MutateGroupAgentBinding roomID mutate).
Proof.
  intros Hmut [s x] Hok. unfold MutateGroupAgentBinding. simpl in Hok.
  destruct (mutate _ x) as [x' [[b' a]|e]] eqn:He; [|done]. simpl.
  apply change_ok; [|done]. by eapply Hmut.
Qed.

Lemma mutate_request_keeps {A} id
    (mutate : GroupAgentBinding -> GroupAgentRequest -> M X agent_error (GroupAgentRequest * A)) :
  (forall b r x x' r' a, mutate b r x = (x', Ok (r', a)) -> settles r r') ->
  keeps ok (MutateGroupAgentRequest id mutate).
Proof.
  intros Hmut [s x] Hok. unfold MutateGroupAgentRequest. simpl in Hok.
  destruct (groupAgentRequests s !! id) as [r|] eqn:Hr; [|done].
  destruct (mutate _ r x) as [x' [[r' a]|e]] eqn:He; [|done].
  apply Hmut in He. revert Hok. apply tables_ok_settle; [done|]. simpl.
  intros i q. destruct (decide (i = id)) as [->|Hne].
  - rewrite lookup_insert_eq. intros Hq. injection Hq as <-. exists r.
    split; [done|]. eapply settles_trans; [done|apply settles_body].
  - rewrite lookup_insert_ne by done. eauto using settles_refl.
Qed.

Lemma keeps_rest {E A} (m : M X E A) : keeps ok (rest m).
Proof. intros [s x] Hok. unfold rest. simpl. by destruct (m x). Qed.

Lemma keeps_enqueue r : keeps ok (enqueue r).
Proof.
  intros [s x] Hok. unfold enqueue. simpl in *. apply (enqueue_ok s r) in Hok.
  by destruct (EnqueueGroupAgentRequest s r).
Qed.

Lemma keeps_lifted {A} (m : M St goerror A) : keeps ok m -> keeps ok (lifted m).
Proof. intros Hm st Hok. specialize (Hm st Hok). unfold lifted. by destruct (m st) as [? [?|?]]. Qed.

Lemma keeps_as_internal {A} (m : M St agent_error A) : keeps ok m -> keeps ok (as_internal m).
Proof. intros Hm st Hok. specialize (Hm st Hok). unfold as_internal. by destruct (m st) as [? [?|?]]. Qed.
End Mutations.

(** ** The operations of the service *)

Lemma wrap64_next z : wrap64 (z + 1) <> z.
Proof. unfold wrap64. intros Hz. Z.div_mod_to_equations. lia. Qed.

Section Operations.
Context `{GoRange} `{MatrixIDs} `{GoText} `{AgentText} `{Mcp.CursorText} {X : Type} (ports : Ports X).
Context (decode : string -> result goerror groupAgentCapabilityParams).
Local Notation St := (tables * X)%type.
Local Notation ok := (fun st : St => tables_ok st.1).

Lemma disabled_next_honest b roomID :
  Binding.RoomID b = roomID -> honest roomID b (disabled_next b).
Proof. by intros <-. Qed.

Lemma honest_refl b roomID : Binding.RoomID b = roomID -> honest roomID b b.
Proof. by intros <-. Qed.

Lemma invalidate_keeps roomID : keeps ok (invalidateGroupAgent (X:=X) roomID).
Proof.
  apply mutate_binding_keeps. intros b x x' b' [] Hroom Hb. injection Hb as <- <-.
  destruct (Binding.Enabled b); [by apply disabled_next_honest|by apply honest_refl].
Qed.

Lemma update_binding_honest roomID owner enabled expected b x x' b' a :
  Binding.RoomID b = roomID ->
  update_binding ports roomID owner enabled expected b x = (x', Ok (b', a)) -> honest roomID b b'.
Proof.
  intros Hroom. unfold update_binding.
  destruct (_ && _); [done|]. destruct (_ && _ && _); [done|].
  set (b0 := if Binding.Revision b =? 0 then _ else b).
  assert (Hb0 : Binding.RoomID b0 = roomID /\ Binding.Revision b0 = Binding.Revision b /\ honest roomID b b0).
  { subst b0. destruct (Binding.Revision b =? 0) eqn:Hz; [apply Z.eqb_eq in Hz|by apply honest_refl in Hroom as ?].
    split; [done|]. split; [done|]. by split. }
  destruct Hb0 as (Hroom0 & Hrev & Hh0). unfold mbind_, generation_of, now_of, reads.
  destruct (_ || _ || _).
  - destruct ((if enabled then _ else ret tt) x) as [x1 [u|e]]; [|done].
    intros Hb. injection Hb as <- <- <-. split; [done|]. simpl. rewrite Hrev.
    intros _ Hw. by apply wrap64_next in Hw.
  - intros Hb. by injection Hb as <- <- <-.
Qed.

(** An operation on a request leaves whose it is and never revives it. *)
Definition outcomes_settle (m : GroupAgentBinding -> GroupAgentRequest -> M X agent_error outcome)
    : Prop :=
  forall b r x x' o, m b r x = (x', Ok o) -> settles r o.1.

Lemma publish_settles p : outcomes_settle (fun _ r => op_publish ports p r).
Proof.
  intros b r x x' o. unfold op_publish. rewrite mbind_Ok.
  intros (x1 & [kind status] & _ & Hrun). revert Hrun.
  destruct (preparedPort ports) as [port|]; [|done].
  destruct (preparedMatrixStore ports) as [store|]; [|done]. rewrite mbind_Ok.
  intros (x2 & [] & _ & Hrun). apply mbind_Ok in Hrun as (x3 & before & _ & Hrun).
  apply mbind_Ok in Hrun as (x4 & receipt & _ & Hrun). injection Hrun as <- <-. simpl.
  destruct (str_eqb kind "final"); [|apply settles_refl].
  eapply settles_trans; [|apply settles_reply]. by apply settles_status.
Qed.

Lemma complete_settles p : outcomes_settle (fun _ r => op_complete p r).
Proof.
  intros b r x x' o. unfold op_complete.
  destruct (str_eqb (p_Status p) "failed") eqn:Hf; simpl.
  - destruct (_ || _); [done|]. intros Ho. injection Ho as <- <-.
    apply str_eqb_true in Hf. apply settles_status. by rewrite Hf.
  - destruct (str_eqb (p_Status p) "cancelled") eqn:Hc; simpl; [|done].
    destruct (_ || _); [done|]. intros Ho. injection Ho as <- <-.
    apply str_eqb_true in Hc. apply settles_status. by rewrite Hc.
Qed.

Lemma read_settles p : outcomes_settle (fun _ r => op_validate p r) /\
  outcomes_settle (op_members ports p) /\ outcomes_settle (op_history ports p).
Proof.
  split; [|split]; intros b r x x' o.
  - unfold op_validate. destruct (_ || _); [done|]. intros Ho. injection Ho as <- <-.
    apply settles_refl.
  - unfold op_members. destruct (_ || _ || _ || _); [done|]. rewrite mbind_Ok.
    intros (x1 & room & _ & Hrun). apply mbind_Ok in Hrun as (x2 & [] & _ & Hrun).
    injection Hrun as <- <-. apply settles_refl.
  - unfold op_history. destruct (_ || _ || _ || _); [done|].
    destruct (matrixMessages ports); [|done]. rewrite mbind_Ok.
    intros (x1 & room & _ & Hrun). apply mbind_Ok in Hrun as (x2 & page & _ & Hrun).
    apply mbind_Ok in Hrun as (x3 & [] & _ & Hrun). injection Hrun as <- <-. apply settles_refl.
Qed.

Lemma replay_settles p : outcomes_settle (fun _ r => replay p r).
Proof.
  intros b r x x' o. unfold replay. destruct (str_eqb _ _); [|destruct (negb _); [done|]];
    intros Ho; injection Ho as <- <-; apply settles_refl.
Qed.

Lemma refused_settles operation : outcomes_settle (fun _ r => refused operation r).
Proof.
  intros b r x x' o. unfold refused. destruct (str_eqb _ _); [done|]. intros Ho.
  injection Ho as <- <-. simpl.
  destruct (str_eqb _ "pending"); [by apply settles_status|apply settles_refl].
Qed.

Lemma invoke_settles operation p : outcomes_settle (invoke ports operation p).
Proof.
  intros b r x x' o. unfold invoke, mbind_, owner_of, generation_of, reads.
  destruct (_ || _ || _); [done|]. destruct (_ && _); [apply (replay_settles p b)|].
  destruct (validateGroupAgentRequest ports b r (p_BindingRevision p) x) as [x1 [[m|]|e]]; [| |done].
  - destruct (read_settles p) as (Hv & Hm & Hh).
    repeat destruct (str_eqb operation _); intros Ho;
      [eapply (Hv b)|eapply (Hm b)|eapply (Hh b)|eapply (complete_settles p b)
      |eapply (publish_settles p b)|done]; exact Ho.
  - intros Ho. by eapply (refused_settles operation b).
Qed.

Ltac flow :=
  repeat first
    [ apply keeps_ret | apply keeps_fail | apply keeps_reads | apply keeps_rest
    | apply keeps_enqueue | apply invalidate_keeps
    | apply keeps_lifted | apply keeps_as_internal
    | apply keeps_bind; [|intros ?]
    | match goal with
      | |- keeps _ (match ?x with _ => _ end) => destruct x
      | |- keeps _ (if ?b then _ else _) => destruct b
      end ].

Lemma member_room_keeps roomID : keeps ok (member_room ports roomID).
Proof. unfold member_room. flow. Qed.

Lemma schedules_keeps params : keeps ok (groupAgentSchedules_ ports params).
Proof. unfold groupAgentSchedules_. flow; apply member_room_keeps. Qed.

Lemma get_keeps params : keeps ok (groupAgentGet ports params).
Proof. unfold groupAgentGet. flow; apply member_room_keeps. Qed.

Lemma agent_update_keeps params : keeps ok (groupAgentUpdate ports params).
Proof.
  unfold groupAgentUpdate. apply keeps_bind; [apply keeps_reads|]. intros [[roomID enabled] expected].
  flow. intros st Hok.
  pose proof (mutate_binding_keeps roomID (update_binding ports roomID a0 enabled expected)
    (fun b x x' b' a => update_binding_honest roomID a0 enabled expected b x x' b' a) st Hok) as Hk.
  by destruct (MutateGroupAgentBinding _ _ st) as [st' [b|[| |]]].
Qed.

Lemma agent_create_keeps roomID enabled st : ok st -> ok (createGroupAgentBinding ports roomID enabled st).1.
Proof.
  intros Hok. unfold createGroupAgentBinding. destruct enabled; [|done]. simpl.
  match goal with |- context [groupAgentUpdate ports ?params st] =>
    pose proof (agent_update_keeps params st Hok) as Hk; destruct (groupAgentUpdate ports params st) as [st' [b|e]]
  end; done.
Qed.

Lemma project_keeps event : keeps ok (projectGroupAgentEvent ports event).
Proof.
  unfold projectGroupAgentEvent. flow; apply keeps_run; intros st Hok; simpl; by apply cancel_ok.
Qed.

Lemma deliverable_keeps requests : keeps ok (deliverable ports requests).
Proof. induction requests; simpl; [apply keeps_ret|]. flow. done. Qed.

(** Schedules are apart. *)
Lemma tables_ok_schedules s m : tables_ok s -> tables_ok (set_schedules s m).
Proof. intros [Hg Hq Hr Hi]. by constructor. Qed.

Lemma publish_schedules_keeps roomID : keeps ok (publishGroupAgentSchedules ports roomID).
Proof. unfold publishGroupAgentSchedules. destruct (negb _); [apply keeps_ret|]. intros st. apply keeps_rest. Qed.

Lemma mirror_keeps remove p : keeps ok (mirror_schedule ports remove p).
Proof.
  unfold mirror_schedule. unfold granted, failure.
  flow; try apply publish_schedules_keeps;
    apply keeps_run; intros st Hok; simpl; by apply tables_ok_schedules.
Qed.

Lemma capability_keeps operation p : keeps ok (capability ports operation p).
Proof.
  unfold capability.
  repeat match goal with |- keeps _ (if ?b then _ else _) => destruct b end; try apply mirror_keeps;
    unfold pull, record_assets, record_memory, enqueue_scheduled, list_bindings,
      readGroupAgentTranscript, request_operation, read_request, granted, failure;
    flow; try apply deliverable_keeps.
  apply mutate_request_keeps. intros b r x x' r' a Ho.
  by apply (invoke_settles operation p b r x x' (r', a)).
Qed.

Lemma invoke_capability_keeps operation raw :
  keeps ok (InvokeGroupAgentCapability ports decode operation raw).
Proof.
  intros st Hok. unfold InvokeGroupAgentCapability. destruct (accountIsDeprovisioned _ _); [done|].
  destruct (decode raw); [by apply capability_keeps|done].
Qed.
End Operations.

(** ** What a grant allows

    The conditions a request runs under, spelled out. *)

Section Grants.
Context `{MatrixIDs}.

(** The request waits, under the enabled grant of this owner and account, for
    the agent of the grant, at the revision. *)
Definition waits_under_grant (owner : string) (generation revision : Z) (b : GroupAgentBinding)
    (r : GroupAgentRequest) : Prop :=
  Binding.Enabled b = true /\ Request.Status r = "pending" /\
  (Binding.Revision b = revision /\ Request.BindingRevision r = revision) /\
  (Binding.OwnerMXID b = owner /\ Request.OwnerMXID r = owner) /\
  (Binding.AccountGeneration b = generation /\ Request.AccountGeneration r = generation) /\
  Request.AgentMXID r = Binding.AgentMXID b.

(** The room is a living group of the owner, with owner, agent and a human
    asker in it, and its state publishes the same grant. *)
Definition room_in_order (room : GroupAgentRoom) (b : GroupAgentBinding) (sender : string) : Prop :=
  IsGroup room = true /\ Dissolved room = false /\ RoomOwnerMXID room = Binding.OwnerMXID b /\
  Forall (fun user => Joined room !! user = Some true)
    [Binding.OwnerMXID b; Binding.AgentMXID b; sender] /\
  (exists local server, SplitID sender = Ok (local, server) /\
     local ∉ ["ying"; "agent"; "system"]) /\
  exists m, RoomBinding room = Some m /\ Binding.RoomID m = Binding.RoomID b /\
    Binding.Enabled m = true /\ Binding.Revision m = Binding.Revision b /\
    Binding.OwnerMXID m = Binding.OwnerMXID b /\ Binding.AgentMXID m = Binding.AgentMXID b /\
    Binding.MemberPolicy m = "all_joined".

Lemma rows_admit_iff owner generation revision b r :
  rows_admit owner generation revision b r = true <->
  waits_under_grant owner generation revision b r.
Proof.
  unfold rows_admit, waits_under_grant. rewrite !andb_true_iff, !str_eqb_true, !Z.eqb_eq.
  intuition congruence.
Qed.

Lemma joined_iff room user : joined room user = true <-> Joined room !! user = Some true.
Proof. unfold joined. by destruct (Joined room !! user) as [[]|]. Qed.

Lemma room_admits_in_order room b sender :
  room_admits room b sender = true -> room_in_order room b sender.
Proof.
  unfold room_admits, isHumanGroupActor, groupAgentMatrixBindingMatches.
  rewrite !andb_true_iff, negb_true_iff, str_eqb_true, !joined_iff.
  intros (((((((Hg & Hd) & Ho) & Hjo) & Hja) & Hjs) & Hh) & Hm).
  do 3 (split; [done|]). split; [by repeat constructor|]. split.
  - destruct (SplitID sender) as [[local server]|]; [|done]. exists local, server.
    split; [done|]. by apply negb_true_iff, bool_decide_eq_false in Hh.
  - destruct (RoomBinding room) as [m|]; [|done]. exists m. split; [done|].
    str_bool. by rewrite Z.eqb_eq in *.
Qed.
End Grants.

(** ** Answers

    The same service with another publisher. *)

Section Publishing.
Context `{GoRange} `{MatrixIDs} `{GoText} `{AgentText} `{Mcp.CursorText} {X : Type} (ports : Ports X).
Context (decode : string -> result goerror groupAgentCapabilityParams).

Definition with_publisher (port : option (PreparedMessagePort X)) (store : option (PreparedStore X))
    (admission : string -> GroupAgentRequest -> string -> M X agent_error unit) : Ports X :=
  {| hasTransport := hasTransport ports; readPort := readPort ports;
     groupByRoom := groupByRoom ports; ListMembers := ListMembers ports;
     OwnerMXID := OwnerMXID ports; accountGeneration := accountGeneration ports;
     now := now ports;
     EnsureNativeGroupAgentIdentity := EnsureNativeGroupAgentIdentity ports;
     InviteUser := InviteUser ports; JoinRoom := JoinRoom ports; LeaveRoom := LeaveRoom ports;
     UpdateMemberProfile := UpdateMemberProfile ports; SendStateEvent := SendStateEvent ports;
     matrixMessages := matrixMessages ports; preparedPort := port;
     preparedMatrixStore := store; AdmitGroupAgentPublication := admission;
     accountIsDeprovisioned := accountIsDeprovisioned ports |}.

(** The rows and Matrix both say that the request may be answered now: the
    grant is enabled at the revision, the room is still the owner's, owner,
    agent and asker are in it, Matrix publishes the same grant, and the
    question is still there and was not written by an agent. *)
Definition may_answer (s : tables) (x : X) (id : string) (revision : Z) : Prop :=
  exists r, groupAgentRequests s !! id = Some r /\
  let b := binding_of s (Request.RoomID r) in
  waits_under_grant (OwnerMXID ports x) (accountGeneration ports x) revision b r /\
  exists x1 room, groupAgentRoom ports (Request.RoomID r) x = (x1, Ok room) /\
  room_in_order room b (Request.SenderMXID r) /\
  (Request.ScheduledBy r = "" -> exists reader x2 message, readPort ports = Some reader /\
     ReadGroupAgentMessage reader (Request.RoomID r) (Request.EventID r) x1 = (x2, Ok message) /\
     ms_EventID message = Request.EventID r /\ ms_RoomID message = Request.RoomID r /\
     ms_SenderMXID message = Request.SenderMXID r /\ ms_Generated message = false).

Lemma validated_message s x id r revision x' message :
  groupAgentRequests s !! id = Some r ->
  validateGroupAgentRequest ports (binding_of s (Request.RoomID r)) r revision x =
    (x', Ok (Some message)) ->
  may_answer s x id revision.
Proof.
  intros Hr Hv. exists r. split; [done|]. cbv zeta.
  set (b := binding_of s (Request.RoomID r)) in *. revert Hv.
  unfold validateGroupAgentRequest, mbind_, owner_of, generation_of, reads, room_of.
  destruct (rows_admit _ _ _ _ _) eqn:Hrows; [|done]. cbn [negb].
  destruct (groupAgentRoom ports (Request.RoomID r) x) as [x1 [room|e]] eqn:Hroom; [|done].
  destruct (room_admits room b (Request.SenderMXID r)) eqn:Hadm; [|done]. cbn [negb].
  apply rows_admit_iff in Hrows. apply room_admits_in_order in Hadm. intros Hv. split; [done|]. exists x1, room. split; [done|]. split; [done|].
  intros Hs. rewrite Hs in Hv. simpl in Hv.
  destruct (readPort ports) as [reader|]; [|done]. unfold lifted in Hv.
  destruct (ReadGroupAgentMessage reader _ _ x1) as [x2 [m|e]] eqn:Hm; [|done].
  destruct (_ || _ || _ || _ || _) eqn:Hbad in Hv; [done|]. injection Hv as <- <-.
  exists reader, x2, m. str_bool. done.
Qed.

(** C15.  The agent publishes only under a grant.  Whatever the operation, a
    run of it does not depend on the publisher at all (the same tables, world
    and result come out whichever port, ledger and admission stand behind it),
    unless the operation is [publish] and the request may be answered: it is
    pending under the enabled grant at the revision given, for this owner and
    account generation, and Matrix shows the room as a live group of the
    owner with the owner, the agent and the asker joined, the same grant
    published, and the question in place. *)
Theorem replies_need_a_grant operation raw st port store admission :
  InvokeGroupAgentCapability (with_publisher port store admission) decode operation raw st =
  InvokeGroupAgentCapability ports decode operation raw st \/
  operation = "publish" /\ exists p, decode raw = Ok p /\
    may_answer st.1 st.2 (p_RequestID p) (p_BindingRevision p).
Proof.
  unfold InvokeGroupAgentCapability. simpl.
  destruct (accountIsDeprovisioned ports st.2); [by left|].
  destruct (decode raw) as [p|e]; [|by left].
  destruct (decide (operation = "publish")) as [->|Hne].
  - unfold capability. simpl. unfold request_operation. destruct (_ || _ || _); [by left|]. simpl.
    destruct st as [s x]. unfold MutateGroupAgentRequest. simpl.
    destruct (groupAgentRequests s !! p_RequestID p) as [r|] eqn:Hr; [|by left].
    destruct (validateGroupAgentRequest ports (binding_of s (Request.RoomID r)) r
                (p_BindingRevision p) x) as [x' [[message|]|e]] eqn:Hv.
    + right. split; [done|]. exists p. split; [done|]. by eapply validated_message.
    + left. unfold invoke, mbind_, owner_of, generation_of, reads. simpl.
      destruct (_ || _ || _); [done|]. destruct (str_eqb _ _); [done|].
      change (validateGroupAgentRequest (with_publisher port store admission))
        with (validateGroupAgentRequest ports). by rewrite Hv.
    + left. unfold invoke, mbind_, owner_of, generation_of, reads. simpl.
      destruct (_ || _ || _); [done|]. destruct (str_eqb _ _); [done|].
      change (validateGroupAgentRequest (with_publisher port store admission))
        with (validateGroupAgentRequest ports). by rewrite Hv.
  - left. unfold capability, request_operation. apply str_eqb_false in Hne.
    repeat match goal with
    | |- (if ?b then _ else _) _ = (if ?b then _ else _) _ => destruct b; [reflexivity|]
    end.
    destruct (one_of operation _).
    + unfold read_request. unfold invoke. rewrite Hne. reflexivity.
    + unfold invoke. rewrite Hne. reflexivity.
Qed.
End Publishing.

(** ** What the agent may read *)

Section Reading.
Context `{GoRange} `{MatrixIDs} `{GoText} `{AgentText} `{Mcp.CursorText} {X : Type} (ports : Ports X).
Context (decode : string -> result goerror groupAgentCapabilityParams).

Lemma visible_from fromTS m m' : visible_message fromTS m = Some m' -> fromTS <= ms_OriginServerTS m'.
Proof.
  unfold visible_message. destruct (NewUserID _); [|done].
  destruct (_ || _ || _) eqn:Hb; [done|]. intros Hm. injection Hm as <-. simpl. str_bool.
  by apply Z.ltb_ge.
Qed.

Lemma page_from roomID fromTS limit cursor x x' page :
  readGroupAgentRoomMessages ports roomID fromTS limit cursor x = (x', Ok page) ->
  Forall (fun m => fromTS <= ms_OriginServerTS m) (mp_Messages page).
Proof.
  unfold readGroupAgentRoomMessages. destruct (matrixMessages ports) as [list_messages|]; [|done].
  unfold mbind_, now_of, reads. destruct (page_for _ _ _ _ _) as [page0|e]; [|done].
  destruct (list_messages roomID page0 x) as [x1 [res|e]]; [|done].
  destruct (oldest _) as [lastTS lastID].
  destruct (Mcp.AttachPagination _ _ _ _ _ _) as [[more next]|e]; [|done].
  intros Hp. injection Hp as <- <-. simpl. apply Forall_forall. intros m Hm.
  apply list_elem_of_omap in Hm as (m0 & _ & Hm). by eapply visible_from.
Qed.

(** A request that is valid now, as [still_valid] sees it. *)
Lemma still_valid_room b r revision x x' :
  still_valid ports b r revision x = (x', Ok tt) ->
  waits_under_grant (OwnerMXID ports x) (accountGeneration ports x) revision b r /\
  exists x1 room, groupAgentRoom ports (Request.RoomID r) x = (x1, Ok room) /\
    room_in_order room b (Request.SenderMXID r).
Proof.
  unfold still_valid, mbind_.
  destruct (validateGroupAgentRequest ports b r revision x) as [x1 [[m|]|e]] eqn:Hv; [|done|done].
  intros _. revert Hv. unfold validateGroupAgentRequest, mbind_, owner_of, generation_of, reads, room_of.
  destruct (rows_admit _ _ _ _ _) eqn:Hrows; [|done]. cbn [negb].
  destruct (groupAgentRoom ports (Request.RoomID r) x) as [x2 [room|e]] eqn:Hroom; [|done].
  destruct (room_admits room b (Request.SenderMXID r)) eqn:Hadm; [|done].
  apply rows_admit_iff in Hrows. apply room_admits_in_order in Hadm. eauto 10.
Qed.

(** C16.  What the agent reads for a member stays within what the member may
    see.  When [history] returns a page, the tables are as before; the request
    is one of an enabled grant; every message of the page is from after the
    grant was enabled and, unless the owner asked, from after the asker last
    joined, as Matrix said when the page was read; and after the page was read
    the asker, the owner and the agent were still in the room under the same
    grant. *)
Theorem history_stays_within_the_grant raw st st' page :
  InvokeGroupAgentCapability ports decode "history" raw st = (st', Ok (RMessages page)) ->
  st'.1 = st.1 /\
  exists p r b, decode raw = Ok p /\
    groupAgentRequests st.1 !! p_RequestID p = Some r /\
    groupAgentBindings st.1 !! Request.RoomID r = Some b /\
    (exists x1 x2 room, groupAgentRoom ports (Request.RoomID r) x1 = (x2, Ok room) /\
     Forall (fun m => Binding.EnabledAt b <= ms_OriginServerTS m /\
       (Request.SenderMXID r <> Binding.OwnerMXID b ->
        default 0 (JoinedAt room !! Request.SenderMXID r) <= ms_OriginServerTS m))
       (mp_Messages page)) /\
    exists x3 x4 room,
      waits_under_grant (OwnerMXID ports x3) (accountGeneration ports x3) (p_BindingRevision p) b r /\
      groupAgentRoom ports (Request.RoomID r) x3 = (x4, Ok room) /\
      room_in_order room b (Request.SenderMXID r).
Proof.
  unfold InvokeGroupAgentCapability. destruct (accountIsDeprovisioned _ _); [done|].
  destruct (decode raw) as [p|e]; [|done]. change (capability ports "history" p st)
    with (request_operation ports "history" p st). unfold request_operation.
  destruct (_ || _ || _); [done|]. change (one_of "history" _) with true. cbv iota.
  destruct st as [s x]. unfold read_request, mbind_, binding_now, reads, GetGroupAgentRequest,
    GetGroupAgentBinding, rest. simpl.
  destruct (groupAgentRequests s !! p_RequestID p) as [r|] eqn:Hr; [|done]. simpl.
  destruct (groupAgentBindings s !! Request.RoomID r) as [b|] eqn:Hb; [|done]. simpl.
  destruct (invoke ports "history" p b r x) as [x' [[r' rep]|e]] eqn:Hi; [|done].
  intros Hres. injection Hres as <- ->. split; [done|]. exists p, r, b.
  do 3 (split; [done|]).
  unfold invoke, mbind_ at 1 2 3, owner_of, generation_of, reads in Hi.
  destruct (_ || _ || _) in Hi; [done|]. simpl in Hi.
  destruct (validateGroupAgentRequest _ _ _ _ _) as [x1 [[m|]|e]] in Hi; [|done|done].
  unfold op_history in Hi. destruct (_ || _ || _ || _) in Hi; [done|].
  destruct (matrixMessages ports) as [lm|]; [|done].
  apply mbind_Ok in Hi as (x2 & room & Hroom & Hi). apply mbind_Ok in Hi as (x3 & pg & Hpg & Hi).
  apply mbind_Ok in Hi as (x4 & [] & Hsv & Hi). injection Hi as <- <- <-.
  unfold room_of in Hroom. destruct (groupAgentRoom ports _ x1) as [x1' [room'|e]] eqn:Hroom'; [|done].
  injection Hroom as -> ->. unfold lifted in Hpg.
  destruct (readGroupAgentRoomMessages _ _ _ _ _ x2) as [x3' [pg'|e]] eqn:Hread in Hpg; [|done].
  injection Hpg as -> ->. apply page_from in Hread. split.
  - exists x1, x2, room. split; [done|]. eapply Forall_impl; [exact Hread|]. intros mm Hts. simpl in Hts.
    destruct (str_eqb (Request.SenderMXID r) (Binding.OwnerMXID b)) eqn:Howner; simpl in Hts.
    + apply str_eqb_true in Howner. split; [lia|congruence].
    + destruct (Binding.EnabledAt b <? _) eqn:Hlt in Hts; split; lia.
  - apply still_valid_room in Hsv as (Hrows & x5 & room' & Hroom5 & Hadm). eauto 10.
Qed.

(** ** One answer *)

(** The fields that identify the request. *)
Definition names_request (p : groupAgentCapabilityParams) (id : string) (revision : Z) : Prop :=
  p_RequestID p = id /\ p_BindingRevision p = revision /\ p_AfterRequestID p = "".

Definition answered (s : tables) (id event digest : string) (revision generation : Z) (owner : string)
    : Prop :=
  exists r, groupAgentRequests s !! id = Some r /\ Request.Status r = "published" /\
    Request.Body r = "" /\ Request.ReplyEventID r = event /\ Request.ReplyDigest r = digest /\
    Request.BindingRevision r = revision /\ Request.AccountGeneration r = generation /\
    Request.OwnerMXID r = owner.

Lemma set_Body_same r : Request.Body r = "" -> Request.set_Body "" r = r.
Proof. destruct r. simpl. by intros ->. Qed.

Lemma answered_replay s x p id event digest revision :
  answered s id event digest revision (accountGeneration ports x) (OwnerMXID ports x) ->
  names_request p id revision -> canonical_uuid id = true -> 0 < revision ->
  p_Kind p <> "progress" ->
  request_operation ports "publish" p (s, x) =
    ((s, x), if bool_decide (digest = hex (sha256 (p_Body p))) then Ok (RPublished event true)
             else Err ErrGroupAgentConflict).
Proof.
  intros (r & Hr & Hst & Hbody & Hev & Hdig & Hrev & Hgen & Hown) (Hid & Hprev & Hafter) Huuid Hpos Hkind.
  unfold request_operation. rewrite Hid, Huuid, Hprev, Hafter. simpl.
  destruct (revision <=? 0) eqn:Hle; [apply Z.leb_le in Hle; lia|]. simpl.
  unfold MutateGroupAgentRequest. rewrite Hr.
  unfold invoke, mbind_, owner_of, generation_of, reads.
  rewrite Hprev, Hrev, Hgen, Hown, !Z.eqb_refl, (proj2 (str_eqb_true _ _) eq_refl), Hst. simpl.
  unfold replay. apply str_eqb_false in Hkind. rewrite Hkind, Hdig. unfold str_eqb.
  case_bool_decide as Hd; simpl; [|done]. rewrite Hev.
  unfold set_request. rewrite set_Body_same, insert_id by done. by destruct s.
Qed.

Lemma publication_final p kind status :
  publication p = Ok (kind, status) -> p_Kind p <> "progress" -> kind = "final".
Proof.
  unfold publication. intros Hp Hkind.
  set (k := if str_empty (p_Kind p) then "final" else p_Kind p) in *.
  assert (Hk : k <> "progress") by (subst k; by destruct (str_empty (p_Kind p))).
  destruct (_ || _ || _) in Hp; [done|].
  destruct (str_eqb k "final") eqn:Hf; simpl in Hp.
  - apply str_eqb_true in Hf. rewrite Hf in *. simpl in Hp.
    destruct (negb _ && negb _) in Hp; [done|]. by injection Hp as <- <-.
  - apply str_eqb_false in Hk. by rewrite Hk in Hp.
Qed.

Lemma publish_outcome p r x x' r' event replayed :
  p_Kind p <> "progress" ->
  op_publish ports p r x = (x', Ok (r', RPublished event replayed)) ->
  r' = Request.set_Reply event (hex (sha256 (p_Body p))) (Request.set_Status "published" r).
Proof.
  intros Hkind Hrun. unfold op_publish in Hrun.
  apply mbind_Ok in Hrun as (x1 & [kind status] & Hp & Hrun). injection Hp as _ Hp.
  apply publication_final in Hp as ->; [|done].
  destruct (preparedPort ports) as [port|]; [|done].
  destruct (preparedMatrixStore ports) as [store|]; [|done].
  apply mbind_Ok in Hrun as (x2 & [] & _ & Hrun). apply mbind_Ok in Hrun as (x3 & before & _ & Hrun).
  apply mbind_Ok in Hrun as (x4 & receipt & _ & Hrun). by injection Hrun as <- <- <- <-.
Qed.

Lemma invoke_publish_outcome p b r x x' r' event replayed :
  p_Kind p <> "progress" ->
  invoke ports "publish" p b r x = (x', Ok (r', RPublished event replayed)) ->
  p_BindingRevision p = Request.BindingRevision r' /\
  Request.AccountGeneration r' = accountGeneration ports x /\
  Request.OwnerMXID r' = OwnerMXID ports x /\ Request.Status r' = "published" /\
  Request.ReplyEventID r' = event /\ Request.ReplyDigest r' = hex (sha256 (p_Body p)).
Proof.
  intros Hkind. unfold invoke, mbind_ at 1 2 3, owner_of, generation_of, reads.
  destruct (_ || _ || _) eqn:Hid; [done|]. simpl.
  apply orb_false_iff in Hid as [Hid Howner]. apply orb_false_iff in Hid as [Hrev Hgen].
  apply negb_false_iff, Z.eqb_eq in Hrev. apply negb_false_iff, Z.eqb_eq in Hgen.
  apply negb_false_iff, str_eqb_true in Howner.
  destruct (str_eqb (Request.Status r) "published") eqn:Hst.
  - apply str_eqb_true in Hst. unfold replay. apply str_eqb_false in Hkind. rewrite Hkind.
    destruct (str_eqb (Request.ReplyDigest r) _) eqn:Hd; [|done]. simpl. intros Hres.
    injection Hres as <- <- <- <-. apply str_eqb_true in Hd. done.
  - destruct (validateGroupAgentRequest _ _ _ _ _) as [x1 [[m|]|e]]; [|done|done].
    intros Hpub. apply publish_outcome in Hpub as ->; [|done]. done.
Qed.

Lemma publish_answers p s x s1 x1 event replayed :
  p_Kind p <> "progress" ->
  request_operation ports "publish" p (s, x) = ((s1, x1), Ok (RPublished event replayed)) ->
  canonical_uuid (p_RequestID p) = true /\ 0 < p_BindingRevision p /\ p_AfterRequestID p = "" /\
  answered s1 (p_RequestID p) event (hex (sha256 (p_Body p))) (p_BindingRevision p)
    (accountGeneration ports x) (OwnerMXID ports x).
Proof.
  intros Hkind. unfold request_operation. destruct (_ || _ || _) eqn:Hbad; [done|]. simpl.
  unfold MutateGroupAgentRequest. destruct (groupAgentRequests s !! p_RequestID p) as [r|]; [|done].
  destruct (invoke ports "publish" p _ r x) as [x' [[r' rep]|e]] eqn:Hi; [|done].
  intros Hres. injection Hres as <- <- ->. apply invoke_publish_outcome in Hi; [|done].
  destruct Hi as (Hrev & Hgen & Hown & Hst & Hev & Hd). str_bool. apply Z.leb_gt in H6.
  do 3 (split; [done|]). exists (Request.set_Body "" r'). simpl. rewrite lookup_insert_eq. done.
Qed.

(** C17.  A request is answered once.  After a final answer was published, in
    any later world with the same owner and account generation the same call
    publishes nothing, leaves tables and world as they are and returns the
    same event as a replay; and a final answer with another text, by its
    SHA-256, is refused as a conflict, again without effect. *)
Theorem answered_once raw p st st1 event replayed :
  decode raw = Ok p -> p_Kind p <> "progress" ->
  InvokeGroupAgentCapability ports decode "publish" raw st = (st1, Ok (RPublished event replayed)) ->
  forall x, accountIsDeprovisioned ports x = false ->
  OwnerMXID ports x = OwnerMXID ports st.2 ->
  accountGeneration ports x = accountGeneration ports st.2 ->
  InvokeGroupAgentCapability ports decode "publish" raw (st1.1, x) =
    ((st1.1, x), Ok (RPublished event true)) /\
  forall raw' p', decode raw' = Ok p' ->
    names_request p' (p_RequestID p) (p_BindingRevision p) -> p_Kind p' <> "progress" ->
    hex (sha256 (p_Body p')) <> hex (sha256 (p_Body p)) ->
    InvokeGroupAgentCapability ports decode "publish" raw' (st1.1, x) =
      ((st1.1, x), Err ErrGroupAgentConflict).
Proof.
  intros Hdec Hkind Hrun x Hdep Hown Hgen. revert Hrun. unfold InvokeGroupAgentCapability.
  rewrite Hdec. destruct (accountIsDeprovisioned ports st.2); [done|]. intros Hrun.
  destruct st as [s x0], st1 as [s1 x1].
  apply (publish_answers p s x0 s1 x1 event replayed Hkind) in Hrun as (Hid & Hpos & Hafter & Hans).
  simpl in *. rewrite <- Hown, <- Hgen in Hans. rewrite Hdep. split.
  - etransitivity; [by apply (answered_replay s1 x p _ _ _ _ Hans)|].
    by rewrite bool_decide_eq_true_2.
  - intros raw' p' -> Hnames Hkind' Hdiff.
    etransitivity; [by apply (answered_replay s1 x p' _ _ _ _ Hans)|].
    by rewrite bool_decide_eq_false_2 by congruence.
Qed.

(** ** Reachable tables *)

Definition no_tables : tables :=
  {| groupAgentBindings := ∅; groupAgentRequests := ∅; groupAgentSchedules := ∅ |}.

(** The calls that reach the tables: the actions, the creation of a group,
    the projected events, a redaction, and the agent's private operations. *)
Inductive call :=
| CallSchedules (params : content)
| CallGet (params : content)
| CallUpdate (params : content)
| CallCreate (roomID : string) (enabled : bool)
| CallProject (event : AgentEvent)
| CallRedact (eventID : string)
| CallInvoke (operation raw : string).

Definition perform (c : call) (st : tables * X) : tables * X :=
  match c with
  | CallSchedules params => (groupAgentSchedules_ ports params st).1
  | CallGet params => (groupAgentGet ports params st).1
  | CallUpdate params => (groupAgentUpdate ports params st).1
  | CallCreate roomID enabled => (createGroupAgentBinding ports roomID enabled st).1
  | CallProject event => (projectGroupAgentEvent ports event st).1
  | CallRedact eventID => (CancelGroupAgentRequests st.1 "" "" eventID, st.2)
  | CallInvoke operation raw => (InvokeGroupAgentCapability ports decode operation raw st).1
  end.

(** Any world may stand behind each call. *)
Inductive reaches : tables -> Prop :=
| reaches_start : reaches no_tables
| reaches_call s x c : reaches s -> reaches (perform c (s, x)).1.

Lemma no_tables_ok : tables_ok no_tables.
Proof.
  constructor; simpl; try (intros ? ?; by rewrite lookup_empty).
  intros room. unfold pending_in. simpl. rewrite map_to_list_empty. simpl. lia.
Qed.

Lemma reaches_ok s : reaches s -> tables_ok s.
Proof.
  induction 1 as [|s x c _ IH]; [apply no_tables_ok|].
  destruct c; simpl.
  - by apply (schedules_keeps ports params (s, x)).
  - by apply (get_keeps ports params (s, x)).
  - by apply (agent_update_keeps ports params (s, x)).
  - by apply (agent_create_keeps ports roomID enabled (s, x)).
  - by apply (project_keeps ports event (s, x)).
  - by apply cancel_ok.
  - by apply (invoke_capability_keeps ports decode operation raw (s, x)).
Qed.

(** C4.  Requests stay under the grant they were made under.  In every state
    that any sequence of calls reaches, with whatever Matrix and the rest of
    the service do in between, every pending request is covered by the
    enabled grant of its room: same revision, owner, agent and account
    generation; a room without an enabled grant has no pending request; and
    no room has more than 256 pending requests. *)
Theorem requests_stay_under_the_grant s : reaches s ->
  (forall id r, groupAgentRequests s !! id = Some r -> Request.Status r = "pending" ->
     exists b, groupAgentBindings s !! Request.RoomID r = Some b /\ Binding.Enabled b = true /\
       Binding.Revision b = Request.BindingRevision r /\
       Binding.OwnerMXID b = Request.OwnerMXID r /\ Binding.AgentMXID b = Request.AgentMXID r /\
       Binding.AccountGeneration b = Request.AccountGeneration r) /\
  (forall room, Binding.Enabled (binding_of s room) = false -> pending_in s room = 0%nat) /\
  (forall room, (pending_in s room <= 256)%nat).
Proof.
  intros Hs. apply reaches_ok in Hs as [Hg Hq _ _]. split; [|split; [|done]].
  - intros id r Hr Hst. specialize (Hg id r Hr (proj2 (str_eqb_true _ _) Hst)).
    apply matches_iff in Hg. unfold binding_of in Hg.
    destruct (groupAgentBindings s !! Request.RoomID r) as [b|]; [by exists b|]. by destruct Hg.
  - intros room Hoff. rewrite pending_in_size. apply size_empty_iff. intros id.
    rewrite elem_of_waiting. split; [|set_solver]. intros (r & Hr & Hw). exfalso.
    unfold waits_in in Hw. apply andb_true_iff in Hw as [Hroom Hl]. apply str_eqb_true in Hroom.
    specialize (Hg id r Hr Hl). apply matches_iff in Hg as [Hon _]. congruence.
Qed.
End Reading.

(** ** A room with a shared agent *)

Module Demo.
#[export] Instance ids : MatrixIDs := {|
  NewUserID := fun s => Ok s; NewRoomID := fun s => Ok s;
  SplitID := fun s =>
    if str_eqb s "@me:h" then Ok ("me", "h") else if str_eqb s "@bob:h" then Ok ("bob", "h")
    else if str_eqb s "@ying:h" then Ok ("ying", "h") else Err (ErrOther "not an id") |}.

#[export] Instance text : GoText := {|
  Marshal := fun _ => Some "{}"; Unmarshal := fun _ => None; ValidJSON := fun _ => true;
  Quote := fun s => s; jsonb := fun s => s |}.

#[export] Instance agent_text : AgentText := {|
  canonical_uuid := fun s => negb (str_empty s); uuid_of_name := fun s => s;
  decoded_number := AInt64 |}.

#[export] Instance cursors : Mcp.CursorText := {|
  Mcp.encode_payload := fun _ => Ok "next"; Mcp.decode_payload := fun _ => None |}.

Definition grant : GroupAgentBinding :=
  Binding.mk "!r" true "@me:h" "@ying:h" "Ying" "" 1 "all_joined" "enabled" 1 10.

Definition room : GroupAgentRoom :=
  {| IsGroup := true; Dissolved := false; RoomOwnerMXID := "@me:h"; OwnerDisplayName := "Me";
     Members := []; Joined := {["@me:h" := true; "@ying:h" := true; "@bob:h" := true]};
     JoinedAt := {["@bob:h" := 15]}; RoomBinding := Some grant |}.

Definition question : GroupAgentMessage :=
  {| ms_RoomID := "!r"; ms_EventID := "$q"; ms_SenderMXID := "@bob:h"; ms_SenderDisplayName := "Bob";
     ms_Body := "what is new?"; ms_OriginServerTS := 20; ms_Mentions := ["@ying:h"];
     ms_Generated := false |}.

Definition summary (event : string) (ts : Z) : Mcp.MessageSummary :=
  {| Mcp.EventID := event; Mcp.OriginServerTS := ts; Mcp.CreatedAt := ""; Mcp.Sender := "bob";
     Mcp.SenderMXID := "@bob:h"; Mcp.SenderDisplayName := "Bob"; Mcp.SenderDomain := "h";
     Mcp.SenderLocalpart := "bob"; Mcp.Msg := "hi" |}.

(** The events staged for publication. *)
Definition world : Type := list PreparedMatrixEvent.

Definition staged (o : CapabilityOperationContext) (w : world) : option PreparedMatrixEvent :=
  List.find (fun e => str_eqb (pe_OperationID e) (co_OperationID o)) w.

Definition store : PreparedStore world := {|
  PrepareMatrixEvent e := run (cons e);
  GetMatrixPreparedEvent o := reads (fun w => Ok (staged o w));
  MarkMatrixPreparedEventSent := None |}.

Definition digest : string := "0123456789abcdef0123456789abcdef".

Definition port : PreparedMessagePort world := {|
  PrepareMessage m := ret {| pm_EventID := "$a"; pm_RoomID := sm_RoomID m;
    pm_SenderMXID := sm_SenderMXID m; pm_EventType := sm_EventType m;
    pm_MessageType := sm_MessageType m; pm_OriginServerTS := 30; pm_RoomVersion := "10";
    pm_EventJSON := "{}"; pm_ContentDigest := digest |};
  SendPreparedMessage m := ret {| sr_EventID := pm_EventID m; sr_OriginServerTS := 0 |};
  EventExists _ _ := ret false;
  EventStatus := None |}.

Definition ports : Ports world := {|
  hasTransport := true;
  readPort := Some {| ReadGroupAgentRoom _ := ret room; ReadGroupAgentMessage _ _ := ret question |};
  groupByRoom _ _ := Ok None; ListMembers _ _ := Ok [];
  OwnerMXID _ := "@me:h"; accountGeneration _ := 1; now _ := 10;
  EnsureNativeGroupAgentIdentity := Some (fun _ => ret tt);
  InviteUser _ _ _ := ret tt; JoinRoom _ _ _ := ret tt; LeaveRoom _ _ := ret tt;
  UpdateMemberProfile _ _ _ w := w; SendStateEvent _ _ _ := ret tt;
  matrixMessages := Some (fun _ _ => ret {| Mcp.Messages := [summary "$2" 17; summary "$1" 12];
                                            Mcp.HasMore := false |});
  preparedPort := Some port; preparedMatrixStore := Some store;
  AdmitGroupAgentPublication _ _ _ := ret tt;
  accountIsDeprovisioned _ := false |}.

Definition asked : string := "dirextalk:group-agent:!r:$q".

Definition params (id room body actor status kind : string) (revision : Z)
    : groupAgentCapabilityParams :=
  {| p_RequestID := id; p_RoomID := room; p_BindingRevision := revision; p_Limit := 0;
     p_Body := body; p_ActorMXID := actor; p_Summary := ""; p_CoveredThroughTS := 0;
     p_MessageCount := 0; p_Servers := []; p_Artifacts := []; p_ScheduleID := ""; p_Name := "";
     p_Capability := ""; p_Cron := ""; p_RunAt := ""; p_Timezone := ""; p_NextRunAt := "";
     p_CreatedBy := ""; p_Status := status; p_Kind := kind; p_AfterRequestID := "";
     p_Cursor := ""; p_AfterTS := 0 |}.

Definition decode (raw : string) : result goerror groupAgentCapabilityParams :=
  if str_eqb raw "answer" then Ok (params asked "" "nothing" "" "" "" 1)
  else if str_eqb raw "another" then Ok (params asked "" "much" "" "" "" 1)
  else if str_eqb raw "history" then Ok (params asked "" "" "" "" "" 1)
  else if str_eqb raw "due" then Ok (params "s1" "!r" "report" "@bob:h" "" "" 0)
  else if str_eqb raw "working" then Ok (params "s1" "" "on it" "" "working" "progress" 1)
  else if str_eqb raw "report" then Ok (params "s1" "" "done" "" "" "" 1)
  else Err (ErrOther "unexpected end of JSON input").

Definition enable : content := {["room_id" := AString "!r"; "enabled" := ABool true]}.
Definition message_event : AgentEvent :=
  {| ae_Type := "m.room.message"; ae_RoomID := "!r"; ae_EventID := "$q"; ae_StateKey := None;
     ae_StateKeyResolved := None; ae_Membership := None |}.

(** The owner shares the agent and Bob asks it something. *)
Definition shared : tables := (perform ports decode (CallUpdate enable) (no_tables, [])).1.
Definition waiting_ : tables := (perform ports decode (CallProject message_event) (shared, [])).1.

Definition invoke_ (operation raw : string) (st : tables * world) :=
  InvokeGroupAgentCapability ports decode operation raw st.
End Demo.
#[local] Existing Instance Demo.ids.
#[local] Existing Instance Demo.text.
#[local] Existing Instance Demo.agent_text.
#[local] Existing Instance Demo.cursors.

Lemma requests_stay_under_the_grant_witness :
  reaches Demo.ports Demo.decode Demo.waiting_ /\ pending_in Demo.waiting_ "!r" = 1%nat /\
  (pending_in Demo.waiting_ "!r" <= 256)%nat.
Proof.
  assert (Hreach : reaches Demo.ports Demo.decode Demo.waiting_).
  { apply (reaches_call Demo.ports Demo.decode Demo.shared []),
      (reaches_call Demo.ports Demo.decode no_tables []), reaches_start. }
  split; [exact Hreach|]. split; [vm_compute; reflexivity|].
  exact (proj2 (proj2 (requests_stay_under_the_grant Demo.ports Demo.decode Demo.waiting_ Hreach)) "!r").
Defined.

(** Bob joined after the first of the two messages, which the agent does not
    see for him. *)
Lemma history_stays_within_the_grant_witness :
  exists st page,
    Demo.invoke_ "history" "history" (Demo.waiting_, []) = (st, Ok (RMessages page)) /\
    map ms_EventID (mp_Messages page) = ["$2"] /\ st.1 = Demo.waiting_.
Proof.
  destruct (Demo.invoke_ "history" "history" (Demo.waiting_, [])) as [st res] eqn:Hrun.
  assert (Hres : exists page, res = Ok (RMessages page) /\ map ms_EventID (mp_Messages page) = ["$2"]).
  { vm_compute in Hrun. injection Hrun as _ <-. by eexists. }
  destruct Hres as (page & -> & Hpage). exists st, page. do 2 (split; [done|]).
  unfold Demo.invoke_ in Hrun.
  pose proof (history_stays_within_the_grant Demo.ports Demo.decode "history"
    (Demo.waiting_, []) st page Hrun) as [Hs _]. exact Hs.
Defined.

Lemma answered_once_witness :
  exists s w,
    Demo.invoke_ "publish" "answer" (Demo.waiting_, []) = ((s, w), Ok (RPublished "$a" false)) /\
    length w = 1%nat /\
    Demo.invoke_ "publish" "answer" (s, []) = ((s, []), Ok (RPublished "$a" true)) /\
    Demo.invoke_ "publish" "another" (s, []) = ((s, []), Err ErrGroupAgentConflict).
Proof.
  destruct (Demo.invoke_ "publish" "answer" (Demo.waiting_, [])) as [[s w] res] eqn:Hrun.
  assert (Hres : res = Ok (RPublished "$a" false) /\ length w = 1%nat).
  { vm_compute in Hrun. injection Hrun as _ <- <-. by split. }
  destruct Hres as [-> Hw].
  pose proof (answered_once Demo.ports Demo.decode "answer" (Demo.params Demo.asked "" "nothing" "" "" "" 1)
    (Demo.waiting_, []) (s, w) "$a" false eq_refl ltac:(discriminate) Hrun [] eq_refl eq_refl eq_refl)
    as [Hsame Hother].
  cbn [fst] in Hother. exists s, w. do 2 (split; [done|]). split; [exact Hsame|].
  unfold Demo.invoke_. eapply Hother; [reflexivity|repeat split|discriminate|].
  vm_compute. discriminate.
Defined.

(** A progress message on a request of a due schedule empties its body in the
    memory tables, so that the answer that follows is refused and the request
    cancelled. *)
Definition due_request : tables := (Demo.invoke_ "enqueue" "due" (Demo.shared, [])).1.1.
Definition after_progress : tables * Demo.world := (Demo.invoke_ "publish" "working" (due_request, [])).1.

Example answer_without_progress :
  (Demo.invoke_ "publish" "report" (due_request, [])).2 = Ok (RPublished "$a" false).
Proof. vm_compute. reflexivity. Qed.

Example progress_cancels_scheduled_request :
  (Demo.invoke_ "publish" "working" (due_request, [])).2 = Ok (RPublished "$a" false) /\
  (Demo.invoke_ "publish" "report" after_progress).2 = Ok (RCancelled false).
Proof. split; vm_compute; reflexivity. Qed.

(** Of the messages of the oldest millisecond of a page the cursor names the
    first, so that the next page starts with the others again. *)
Definition twin (id : string) : GroupAgentMessage :=
  {| ms_RoomID := ""; ms_EventID := id; ms_SenderMXID := "@bob:h"; ms_SenderDisplayName := "";
     ms_Body := "hi"; ms_OriginServerTS := 5; ms_Mentions := []; ms_Generated := false |}.

Example next_page_repeats_a_twin :
  oldest [twin "$b"; twin "$a"] = (5, "$b") /\
  Mcp.InPage 5 "$a" {| Mcp.FromTS := 0; Mcp.SnapshotTS := 9; Mcp.CursorTS := 5;
                       Mcp.CursorID := "$b"; Mcp.Limit := 2 |} = true.
Proof. split; vm_compute; reflexivity. Qed.
End GroupAgentFacts.
