(* ===== verification/CapabilityLedgerFacts.v ===== *)
(** * Theorems on the ledger of capability operations

    Rows and event streams agree in every state the ledger can reach, through
    failed commits, lost replies and restarts; a settled operation stays as it
    is; a watcher is sent the stored events; an operation whose Matrix event
    is staged is not cancelled. *)

From Stdlib Require Import Ascii String ZArith Lia.
From stdpp Require Import base tactics list gmap strings.
From S2P Require Import Prelude GoStrings GoCase Values Domain Policy PolicyFacts Action Workflow.
From S2P Require Import Prepared CapabilityLedger.
Local Open Scope Z_scope.
Local Open Scope go_scope.

Module CapabilityLedgerFacts.
Import Ledger.

(** ** Rows and streams *)

(** A stream that is open: accepted, then only progress. *)
Definition progress (e : WatchOperationEvent) : Prop :=
  match we_Event e with Progress _ _ _ => True | _ => False end.

Definition open_stream (l : list WatchOperationEvent) : Prop :=
  exists e l', l = e :: l' /\ we_Event e = Accepted PENDING /\ Forall progress l'.

(** The state that a last event stands for. *)
Definition closing_state (e : WatchOperationEvent) : option string :=
  match we_Event e with
  | ResultEvent _ => Some "completed"
  | ErrorEvent _ => Some "failed"
  | CancelledEvent _ => Some "cancelled"
  | _ => None
  end.

(** The stream of a row: open while the row is live, closed by one event of
    the row's final state. *)
Inductive agrees : string -> list WatchOperationEvent -> Prop :=
| agrees_live st l : st ∈ live_states -> open_stream l -> agrees st l
| agrees_closed st l e : open_stream l -> closing_state e = Some st -> agrees st (l ++ [e]).

(** Events are numbered from one and carry the operation. *)
Definition numbered (id : string) (l : list WatchOperationEvent) : Prop :=
  map we_Sequence l = map Z.of_nat (seq 1 (length l)) /\
  Forall (fun e => we_OperationId e = id) l.

(** The states of the table's [CHECK]. *)
Definition known_states : list string := live_states ++ ["completed"; "failed"; "cancelled"].

(** A row of the group agent's publications, which has a stream of its own kind. *)
Definition published (w : row) : Prop := row_capability w = publication_capability.

Definition row_ok (s : store) (id : string) : Prop :=
  numbered id (log_of s id) /\
  match rows s !! id with
  | Some w => row_id w = id /\ row_state w ∈ known_states /\
              (~ published w -> agrees (row_state w) (log_of s id))
  | None => log_of s id = []
  end.

(** What is cached was stored. *)
Definition cache_ok (s : store) (id : string) : Prop :=
  Forall (fun e => e ∈ log_of s id) (events_of s id).

Definition ledger_ok (s : store) : Prop := forall id, row_ok s id /\ cache_ok s id.

(** *** Numbers *)

Lemma numbered_next id l : numbered id l -> next_sequence l = Z.of_nat (length l) + 1.
Proof.
  intros [Hseq _]. unfold next_sequence. rewrite Hseq. f_equal.
  assert (Hmax : forall n k, foldr Z.max 0 (map Z.of_nat (seq k n)) =
                 if (n =? 0)%nat then 0 else Z.of_nat (k + n - 1)).
  { induction n as [|n IH]; intros k; [done|]. simpl. rewrite IH.
    destruct n; simpl; lia. }
  rewrite Hmax. destruct (length l); simpl; lia.
Qed.

Lemma numbered_snoc id l e :
  numbered id l -> we_Sequence e = next_sequence l -> we_OperationId e = id ->
  numbered id (l ++ [e]).
Proof.
  intros Hn Hs Hid. pose proof (numbered_next _ _ Hn) as Hnext. destruct Hn as [Hseq Hall]. split.
  - rewrite map_app, length_app, Hseq. simpl. rewrite Nat.add_1_r, seq_S, map_app. simpl.
    rewrite Hs, Hnext. do 2 f_equal. lia.
  - apply Forall_app. split; [done|]. by constructor.
Qed.

Lemma numbered_nil id : numbered id [].
Proof. by split. Qed.

(** *** States *)

Lemma live_not_terminal st : st ∈ live_states -> operationStateTerminal (operationStateFromString st) = false.
Proof.
  intros Hst. unfold live_states in Hst.
  repeat (apply elem_of_cons in Hst as [->|Hst]; [vm_compute; reflexivity|]). by apply elem_of_nil in Hst.
Qed.

Lemma closing_terminal e st :
  closing_state e = Some st -> operationStateTerminal (operationStateFromString st) = true.
Proof. unfold closing_state. destruct (we_Event e); intros [= <-]; vm_compute; reflexivity. Qed.

Lemma known_live st :
  st ∈ known_states -> operationStateTerminal (operationStateFromString st) = false ->
  st ∈ live_states.
Proof.
  unfold known_states. intros [Hst|Hst]%elem_of_app Hlive; [done|].
  repeat (apply elem_of_cons in Hst as [->|Hst]; [by vm_compute in Hlive|]). by apply elem_of_nil in Hst.
Qed.

Lemma live_known st : st ∈ live_states -> st ∈ known_states.
Proof. intros Hst. apply elem_of_app. by left. Qed.

Lemma closing_known e st : closing_state e = Some st -> st ∈ known_states.
Proof.
  unfold closing_state, known_states. destruct (we_Event e); intros [= <-]; apply elem_of_app; right;
    rewrite !elem_of_cons; tauto.
Qed.

Lemma agrees_open st l :
  agrees st l -> operationStateTerminal (operationStateFromString st) = false ->
  st ∈ live_states /\ open_stream l.
Proof.
  intros [st' l' Hst Hl|st' l' e Hl He] Hlive; [done|].
  apply closing_terminal in He. congruence.
Qed.

Lemma open_snoc l e : open_stream l -> progress e -> open_stream (l ++ [e]).
Proof.
  intros (e0 & l' & -> & H0 & Hl) He. exists e0, (l' ++ [e]).
  split; [done|]. split; [done|]. apply Forall_app. split; [done|]. by constructor.
Qed.

(** ** Steps on one operation

    [step s s' id] changes at most the row and the stream of [id]. *)

Definition elsewhere (s s' : store) (id : string) : Prop :=
  forall id', id' <> id -> rows s' !! id' = rows s !! id' /\ log_of s' id' = log_of s id'.

Lemma ledger_step s s' id :
  ledger_ok s -> elsewhere s s' id -> events s' = events s ->
  row_ok s' id -> (forall e, e ∈ log_of s id -> e ∈ log_of s' id) -> ledger_ok s'.
Proof.
  intros Hok Helse Hev Hrow Hgrow id'. destruct (decide (id' = id)) as [->|Hne].
  - split; [done|]. unfold cache_ok, events_of. rewrite Hev.
    eapply Forall_impl; [apply (Hok id)|]. intros e. apply Hgrow.
  - destruct (Helse id' Hne) as [Hr Hl]. destruct (Hok id') as [Hrow' Hcache].
    unfold row_ok, cache_ok, events_of in *. by rewrite Hr, Hl, Hev.
Qed.

(** What an insertion of an event does. *)
Lemma insert_event_inv id e time s s' e' :
  insertOperationEventTx id e time s = Ok (s', e') ->
  rows s' = rows s /\ events s' = events s /\ log_of s' id = log_of s id ++ [e'] /\
  (forall id', id' <> id -> log_of s' id' = log_of s id') /\
  we_Event e' = we_Event e /\ we_OperationId e' = id /\ we_Sequence e' = next_sequence (log_of s id).
Proof.
  unfold insertOperationEventTx. destruct (rows s !! id); [|done]. intros Hi.
  injection Hi as <- <-. unfold log_of; simpl. rewrite lookup_insert_eq.
  repeat split. intros id' Hne. by rewrite lookup_insert_ne by done.
Qed.

Lemma insert_event_total id e time s :
  is_Some (rows s !! id) -> exists s' e', insertOperationEventTx id e time s = Ok (s', e').
Proof. intros [w Hw]. unfold insertOperationEventTx. rewrite Hw. eauto. Qed.

(** A live row gets a new state and its stream the event that goes with it. *)
Lemma settle_step s s1 s' id w w' e time e' :
  ledger_ok s -> rows s !! id = Some w ->
  operationStateTerminal (operationStateFromString (row_state w)) = false ->
  rows s1 = <[id := w']> (rows s) -> events s1 = events s -> logs s1 = logs s ->
  row_id w' = row_id w -> row_capability w' = row_capability w ->
  insertOperationEventTx id e time s1 = Ok (s', e') ->
  (row_state w' ∈ live_states /\ progress e \/ closing_state e = Some (row_state w')) ->
  ledger_ok s'.
Proof.
  intros Hok Hw Hlive Hrows Hevents Hlogs Hid Hcap Hins Hkind.
  destruct (insert_event_inv _ _ _ _ _ _ Hins) as (Hr & Hev & Hlog & Hother & Hpay & Hop & Hseq).
  assert (Hlog1 : forall i, log_of s1 i = log_of s i) by (intros i; unfold log_of; by rewrite Hlogs).
  destruct (Hok id) as [[Hnum Hrow] _]. rewrite Hw in Hrow. destruct Hrow as (Hrid & _ & Hag).
  apply (ledger_step s s' id Hok).
  - intros id' Hne. rewrite Hr, Hrows, lookup_insert_ne, Hother, Hlog1 by done. done.
  - congruence.
  - unfold row_ok. rewrite Hr, Hrows, lookup_insert_eq, Hlog, Hlog1. split.
    + apply numbered_snoc; [done| |done]. by rewrite Hseq, Hlog1.
    + split; [congruence|]. split.
      { destruct Hkind as [[Hst _]|Hst]; [by apply live_known|by eapply closing_known]. }
      unfold published. rewrite Hcap. intros Hpub.
      destruct (agrees_open _ _ (Hag Hpub) Hlive) as [_ Hopen]. destruct Hkind as [[Hst Hp]|Hst].
      * apply agrees_live; [done|]. apply open_snoc; [done|]. unfold progress. by rewrite Hpay.
      * apply agrees_closed; [done|]. unfold closing_state. by rewrite Hpay.
  - intros e0 He0. rewrite Hlog, Hlog1. apply elem_of_app. by left.
Qed.

(** *** In the words of the statements *)

(** [UPDATE ... WHERE operation_id = id AND state IN (states)] on a row in one
    of the states. *)
Lemma update_in_rows states f id s w :
  rows s !! id = Some w -> row_state w ∈ states ->
  rows (update_in states f id s) = <[id := f w]> (rows s).
Proof.
  intros Hw Hin. unfold update_in; simpl. apply map_eq. intros id'.
  destruct (decide (id' = id)) as [->|Hne].
  - rewrite lookup_alter_eq, Hw, lookup_insert_eq. simpl. unfold in_states.
    by rewrite bool_decide_eq_true_2.
  - by rewrite lookup_alter_ne, lookup_insert_ne by done.
Qed.

Lemma nodup_keys_filter {A B} (p : A * B -> bool) (l : list (A * B)) :
  NoDup l.*1 -> NoDup (map fst (List.filter p l)).
Proof.
  induction l as [|x l IH]; simpl; [done|]. intros Hnd. apply NoDup_cons in Hnd as [Hx Hnd].
  destruct (p x); [|by apply IH]. simpl. constructor; [|by apply IH]. intros Hin. apply Hx.
  apply list_elem_of_In, in_map_iff in Hin as (y & Hy & Hin). apply filter_In in Hin as [Hin _].
  rewrite <- Hy. apply list_elem_of_fmap. exists y. split; [done|]. by apply list_elem_of_In.
Qed.

Section Steps.
Context `{GoText} {X : Type}.
Context (prepared : option (PreparedStage X)) (now : X -> Z).

Lemma live_row s id w :
  ledger_ok s -> rows s !! id = Some w ->
  operationStateTerminal (operationStateFromString (row_state w)) = false ->
  row_state w ∈ live_states.
Proof using Type.
  intros Hok Hw Hlive. destruct (Hok id) as [[_ Hrow] _]. rewrite Hw in Hrow.
  destruct Hrow as (_ & Hk & _). by apply known_live.
Qed.

Lemma finish_ok id result_ e s x s' a :
  ledger_ok s -> finish_tx now id result_ e s x = Commit_ s' a -> ledger_ok s'.
Proof using Type.
  intros Hok. unfold finish_tx. destruct (rows s !! id) as [w|] eqn:Hw; [|done].
  destruct (operationStateTerminal _) eqn:Hlive; [by intros [= <- _]|].
  destruct (to_jsonb result_) as [json|]; [|done].
  destruct (insertOperationEventTx _ _ _ _) as [[s2 event]|] eqn:Hins; [|done].
  intros Hc. injection Hc as <- _.
  eapply (settle_step s); [done|done|done|apply update_in_rows; [done|by eapply live_row]|done|done| | |exact Hins|].
  - done.
  - done.
  - right. by destruct e.
Qed.

Lemma uncertain_ok id e s x s' a :
  ledger_ok s -> uncertain_tx now id e s x = Commit_ s' a -> ledger_ok s'.
Proof using Type.
  intros Hok. unfold uncertain_tx. destruct (rows s !! id) as [w|] eqn:Hw; [|done].
  destruct (operationStateTerminal _) eqn:Hlive; [by intros [= <- _]|].
  destruct (insertOperationEventTx _ _ _ _) as [[s2 event]|] eqn:Hins; [|done].
  intros Hc. injection Hc as <- _.
  eapply (settle_step s); [done|done|done|apply update_in_rows; [done|by eapply live_row]|done|done| | |exact Hins|].
  - done.
  - done.
  - left. split; [by repeat constructor|done].
Qed.

Lemma cancel_tx_ok id s x s' a :
  ledger_ok s -> cancel_tx true prepared now id s x = Commit_ s' a -> ledger_ok s'.
Proof using Type.
  intros Hok. unfold cancel_tx. destruct (rows s !! id) as [w|] eqn:Hw; [|done].
  destruct (_ || _) eqn:Hstop; [by intros [= <- _]|]. str_bool.
  destruct (preparedMatrixPresent _ _ _ _) as [[]|]; [done| |done].
  destruct (insertOperationEventTx _ _ _ _) as [[s2 event]|] eqn:Hins; [|done].
  intros Hc. injection Hc as <- _.
  assert (Hin : row_state w ∈ ["pending"; "running"]).
  { pose proof (live_row s id w Hok Hw H0) as Hl. unfold live_states in Hl.
    rewrite !elem_of_cons in *. intuition congruence. }
  eapply (settle_step s); [done|done|done|by apply update_in_rows|done|done| | |exact Hins|by right]; done.
Qed.

Lemma insert_tx_ok record s x s' a :
  ledger_ok s -> insert_tx now record s x = Commit_ s' a -> ledger_ok s'.
Proof using Type.
  intros Hok. unfold insert_tx. destruct (rows s !! ID record) as [w|] eqn:Hw.
  { unfold replayed. destruct (operationMatches _ _); [|done]. by intros [= <- _]. }
  destruct (insertOperationEventTx _ _ _ _) as [[s2 event]|] eqn:Hins; [|done].
  intros Hc. injection Hc as <- _.
  destruct (insert_event_inv _ _ _ _ _ _ Hins) as (Hr & Hev & Hlog & Hother & Hpay & Hop & Hseq).
  simpl in Hr, Hev. destruct (Hok (ID record)) as [[Hnum Hrow] _]. rewrite Hw in Hrow.
  assert (Hempty : forall i, log_of (set_rows (<[ID record:=operation_row record PENDING 1 (now x)]> (rows s)) s) i
                   = log_of s i) by done.
  rewrite Hempty, Hrow in Hlog, Hseq. apply (ledger_step s s2 (ID record) Hok).
  - intros id' Hne. rewrite Hr, lookup_insert_ne, Hother by done. done.
  - done.
  - unfold row_ok. rewrite Hr, lookup_insert_eq, Hlog. split.
    + apply (numbered_snoc _ []); [apply numbered_nil| |done]. by rewrite Hseq.
    + split; [done|]. split; [by left|]. intros _. apply agrees_live; [by left|].
      exists event, []. by rewrite Hpay.
  - rewrite Hrow. intros e He. by apply elem_of_nil in He.
Qed.

Lemma claim_ok id s w time :
  ledger_ok s -> rows s !! id = Some w -> row_state w = "uncertain" ->
  ledger_ok (set_rows (<[id := update_row "running" (row_result w) (row_error_code w)
                               (row_error_message w) time w]> (rows s)) s).
Proof using Type.
  intros Hok Hw Hst. apply (ledger_step s _ id Hok); [|done| |done].
  - intros id' Hne. simpl. by rewrite lookup_insert_ne by done.
  - destruct (Hok id) as [[Hnum Hrow] _]. unfold row_ok, log_of. simpl. rewrite lookup_insert_eq.
    rewrite Hw, Hst in Hrow. destruct Hrow as (Hid & _ & Hag). split; [done|]. split; [done|].
    split; [by right; left|]. intros Hpub. destruct (agrees_open _ _ (Hag Hpub)) as [_ Hopen];
      [by vm_compute|]. apply agrees_live; [by right; left|done].
Qed.

(** The rows of publications are nobody else's. *)
Lemma insert_publication_ok id owner generation digest time s :
  ledger_ok s -> ledger_ok (insert_publication id owner generation digest time s).
Proof using Type.
  intros Hok. unfold insert_publication. destruct (rows s !! id) eqn:Hw; [done|].
  apply (ledger_step s _ id Hok); [|done| |done].
  - intros id' Hne. simpl. by rewrite lookup_insert_ne by done.
  - destruct (Hok id) as [[Hnum _] _]. unfold row_ok, log_of. simpl. rewrite lookup_insert_eq.
    split; [exact Hnum|]. split; [done|]. split; [by right; left|]. by intros [].
Qed.

Lemma complete_publications_rows sent time s id :
  match rows s !! id with
  | None => rows (complete_publications sent time s) !! id = None
  | Some w => exists w', rows (complete_publications sent time s) !! id = Some w' /\
      row_id w' = row_id w /\ row_capability w' = row_capability w /\
      (published w /\ row_state w' = "completed" \/ w' = w)
  end.
Proof using Type.
  unfold complete_publications. cbn [rows set_rows]. rewrite map_lookup_imap.
  destruct (rows s !! id) as [w|]; cbn; [|done].
  destruct (str_eqb _ _ && sent id) eqn:E; eexists; (split; [reflexivity|]); [|by auto].
  str_bool. by repeat split; auto.
Qed.

Lemma complete_publications_ok sent time s :
  ledger_ok s -> ledger_ok (complete_publications sent time s).
Proof using Type.
  intros Hok id. destruct (Hok id) as [[Hnum Hrow] Hcache]. split; [split; [exact Hnum|]|exact Hcache].
  pose proof (complete_publications_rows sent time s id) as Hc.
  destruct (rows s !! id) as [w|]; [|by rewrite Hc].
  destruct Hc as (w' & -> & Hid & Hcap & Hst). destruct Hrow as (Hrid & Hk & Hag).
  split; [congruence|]. unfold published in *. rewrite Hcap. destruct Hst as [[Hpub Hst]| ->]; [|done].
  split; [|by intros []]. rewrite Hst. apply elem_of_app. right. left.
Qed.

(** The fence of a restart, row by row. *)
Lemma fence_ok ids time : forall s done_ s' a,
  ledger_ok s -> NoDup ids ->
  (forall id, id ∈ ids -> exists w, rows s !! id = Some w /\ row_state w ∈ ["pending"; "running"]) ->
  fence ids time s done_ = Commit_ s' a -> ledger_ok s'.
Proof using Type.
  induction ids as [|id ids IH]; intros s done_ s' a Hok Hnd Hall; simpl; [by intros [= <- _]|].
  destruct (Hall id) as (w & Hw & Hst); [left|]. apply NoDup_cons in Hnd as [Hnew Hnd].
  destruct (insertOperationEventTx _ _ _ _) as [[s2 event]|] eqn:Hins; [|done].
  assert (Hrows : rows (update_in ["pending"; "running"] (fun w => update_row "uncertain" (row_result w)
      "SERVICE_RESTARTED" "operation was in flight when message-server restarted" time w) id s) =
      <[id := update_row "uncertain" (row_result w) "SERVICE_RESTARTED"
         "operation was in flight when message-server restarted" time w]> (rows s))
    by by apply (update_in_rows _ (fun w => update_row "uncertain" _ _ _ time w)).
  apply IH; [|done|].
  - eapply (settle_step s); [done|done| |exact Hrows|done|done|done|done|exact Hins|].
    + apply live_not_terminal. unfold live_states. rewrite !elem_of_cons in *. tauto.
    + left. split; [right; right; left|done].
  - intros id' Hid'. destruct (Hall id') as (w' & Hw' & Hst'); [by right|]. exists w'. split; [|done].
    destruct (insert_event_inv _ _ _ _ _ _ Hins) as (-> & _). rewrite Hrows, lookup_insert_ne; [done|].
    by intros ->.
Qed.

Lemma in_flight_spec s : NoDup (in_flight s) /\
  forall id, id ∈ in_flight s -> exists w, rows s !! id = Some w /\ row_state w ∈ ["pending"; "running"].
Proof using Type.
  unfold in_flight. split.
  - apply nodup_keys_filter, NoDup_fst_map_to_list.
  - intros id Hid. apply list_elem_of_In, in_map_iff in Hid as ([id' w] & <- & Hin).
    apply filter_In in Hin as [Hin Hst]. apply list_elem_of_In, elem_of_map_to_list in Hin.
    exists w. split; [done|]. by apply bool_decide_eq_true in Hst.
Qed.
End Steps.

(** ** Every call *)

Section Calls.
Context `{GoText} {X : Type}.
Context (prepared : option (PreparedStage X)) (now : X -> Z).
Context (committing : X -> X * commit) (meanwhile : X -> store -> store).
Local Notation St := (store * X)%type.

Context (Hnow : forall x, 0 < now x).

(** The event that a committed transaction hands to the cache is stored. *)
Definition stored_event (id : string) (s : store) (e : WatchOperationEvent) : Prop :=
  e ∈ log_of s id /\ we_OperationId e = id /\ we_Sequence e <> 0 /\ we_TimestampUnixMs e <> 0.

Lemma insert_event_stored id e x s s' e' :
  insertOperationEventTx id e (now x) s = Ok (s', e') -> stored_event id s' e'.
Proof using Hnow.
  intros Hins. destruct (insert_event_inv _ _ _ _ _ _ Hins) as (_ & _ & Hlog & _ & _ & Hop & Hseq).
  split; [rewrite Hlog; apply elem_of_app; right; left|]. split; [done|]. split.
  - rewrite Hseq. unfold next_sequence.
    assert (Hpos : forall l, 0 <= foldr Z.max 0 l) by (induction l; simpl; lia). specialize (Hpos (map we_Sequence (log_of s id))). lia.
  - revert Hins. unfold insertOperationEventTx. destruct (rows s !! id); [|done]. intros Hins.
    injection Hins as <- <-. simpl. specialize (Hnow x). destruct (Z.eqb_spec (we_TimestampUnixMs e) 0); lia.
Qed.

Lemma cached_stored id s e time : stored_event id s e -> cached id e time s = e.
Proof using Type.
  intros (_ & Hop & Hseq & Hts). unfold cached. rewrite (proj2 (Z.eqb_neq _ _) Hseq).
  rewrite (proj2 (Z.eqb_neq _ _) Hts). destruct e as [op seq ts p]; simpl in *. subst op.
  by destruct (str_empty id).
Qed.

Lemma cache_event_ok id s e time :
  ledger_ok s -> stored_event id s e -> ledger_ok (cache_event id e time s).
Proof using Type.
  intros Hok Hst id'. unfold cache_event. rewrite cached_stored by done.
  destruct (Hok id') as [Hrow Hcache]. split; [exact Hrow|].
  unfold cache_ok, events_of in *; simpl. destruct (decide (id' = id)) as [->|Hne].
  - rewrite lookup_insert_eq. simpl. apply Forall_app. split; [exact Hcache|].
    constructor; [|constructor]. apply Hst.
  - by rewrite lookup_insert_ne by done.
Qed.

(** Rules for the steps of a call. *)
Local Notation ok := (fun st : St => ledger_ok st.1).

Lemma triple_cache id e :
  triple (fun st : St => ledger_ok st.1 /\ stored_event id st.1 e) (cacheEvent now id e)
    (fun _ => ok) (fun _ => ok).
Proof using Type. intros [s x] [Hok Hst]. simpl. by apply cache_event_ok. Qed.

Lemma triple_transaction {A} (body : store -> X -> tx A) (Q : A -> store -> Prop) :
  (forall s x s' a, ledger_ok s -> body s x = Commit_ s' a -> ledger_ok s' /\ Q a s') ->
  (forall s x a, ledger_ok s -> body s x = Leave (Ok a) -> Q a s) ->
  triple ok (transaction committing body) (fun a st => ledger_ok st.1 /\ Q a st.1) (fun _ => ok).
Proof using Type.
  intros Hc Hl [s x] Hok. simpl in Hok. unfold transaction.
  destruct (body s x) as [[a|e]|s' a] eqn:Hb; [by split; [|eapply Hl]|done|].
  destruct (Hc s x s' a Hok Hb). by destruct (committing x) as [x' []].
Qed.

(** The outcome of the transactions that may add an event. *)
Definition maybe_stored (id : string) (e : option WatchOperationEvent) (s : store) : Prop :=
  match e with Some e => stored_event id s e | None => True end.

Ltac stored := match goal with
  | H : insertOperationEventTx _ _ _ _ = Ok _ |- _ => exact (insert_event_stored _ _ _ _ _ _ H)
  end.

Lemma finish_stored id result_ e s x s' a :
  finish_tx now id result_ e s x = Commit_ s' a -> maybe_stored id a s'.
Proof using Hnow.
  unfold finish_tx. destruct (rows s !! id); [|done].
  destruct (operationStateTerminal _); [by intros [= _ <-]|].
  destruct (to_jsonb result_); [|done]. destruct (insertOperationEventTx _ _ _ _) as [[s2 ev]|] eqn:Hins; [|done].
  intros Hc. injection Hc as <- <-. stored.
Qed.

Lemma uncertain_stored id e s x s' a :
  uncertain_tx now id e s x = Commit_ s' a -> maybe_stored id a s'.
Proof using Hnow.
  unfold uncertain_tx. destruct (rows s !! id); [|done].
  destruct (operationStateTerminal _); [by intros [= _ <-]|].
  destruct (insertOperationEventTx _ _ _ _) as [[s2 ev]|] eqn:Hins; [|done].
  intros Hc. injection Hc as <- <-. stored.
Qed.

Lemma cancel_stored id s x s' a :
  cancel_tx true prepared now id s x = Commit_ s' a -> maybe_stored id a s'.
Proof using Hnow.
  unfold cancel_tx. destruct (rows s !! id); [|done]. destruct (_ || _); [by intros [= _ <-]|].
  destruct (preparedMatrixPresent _ _ _ _) as [[]|]; [done| |done].
  destruct (insertOperationEventTx _ _ _ _) as [[s2 ev]|] eqn:Hins; [|done].
  intros Hc. injection Hc as <- <-. stored.
Qed.

Lemma insert_stored record s x s' a :
  insert_tx now record s x = Commit_ s' a -> maybe_stored (ID record) a.2 s'.
Proof using Hnow.
  unfold insert_tx. destruct (rows s !! ID record).
  { unfold replayed. destruct (operationMatches _ _); [|done]. by intros [= _ <-]. }
  destruct (insertOperationEventTx _ _ _ _) as [[s2 ev]|] eqn:Hins; [|done].
  intros Hc. injection Hc as <- <-. stored.
Qed.

Lemma delete_prepared_keeps (P : store -> Prop) id : keeps (fun st : St => P st.1) (delete_prepared prepared id).
Proof using Type. intros [s x] Hs. unfold delete_prepared. simpl. by destruct prepared. Qed.

Lemma finish_keeps id result_ e : keeps ok (finish true prepared now committing id result_ e).
Proof using Hnow.
  apply keeps_triple. unfold finish. eapply triple_bind.
  - apply (triple_transaction _ (maybe_stored id)); [eauto using finish_ok, finish_stored|].
    intros s x a _. unfold finish_tx. destruct (rows s !! id); [|by intros [= <-]].
    destruct (operationStateTerminal _); [done|]. destruct (to_jsonb _); [|done].
    by destruct (insertOperationEventTx _ _ _ _) as [[??]|].
  - intros [event|]; [|by apply triple_ret; intros st []].
    eapply triple_bind; [|intros ?; apply triple_cache].
    eapply triple_post; [apply (triple_keeps (fun st : St => ledger_ok st.1 /\ stored_event id st.1 event))|done|by intros e' st []].
    apply (delete_prepared_keeps (fun s => ledger_ok s /\ stored_event id s event)).
Qed.

Lemma uncertain_keeps id e : keeps ok (markUncertain true now committing id e).
Proof using Hnow.
  apply keeps_triple. unfold markUncertain. destruct (str_empty _); [by apply triple_fail|].
  eapply triple_bind.
  - apply (triple_transaction _ (maybe_stored id)); [eauto using uncertain_ok, uncertain_stored|].
    intros s x a _. unfold uncertain_tx. destruct (rows s !! id); [|done].
    destruct (operationStateTerminal _); [done|].
    by destruct (insertOperationEventTx _ _ _ _) as [[??]|].
  - intros [event|]; [apply triple_cache|by apply triple_ret; intros st []].
Qed.

Lemma interrupt_keeps (P : store -> Prop) id :
  (forall s v, P s -> P (set_interrupted v s)) ->
  keeps (fun st : St => P st.1) (cancelExecution id).
Proof using Type.
  intros HP [s x] Hs. unfold cancelExecution, update, run. simpl. case_bool_decide; [by apply HP|done].
Qed.

Lemma cancel_keeps id : keeps ok (cancel true prepared now committing id).
Proof using Hnow.
  apply keeps_triple. unfold cancel. eapply triple_bind.
  - apply (triple_transaction _ (maybe_stored id)); [eauto using cancel_tx_ok, cancel_stored|].
    intros s x a _. unfold cancel_tx. destruct (rows s !! id); [|done]. destruct (_ || _); [done|].
    destruct (preparedMatrixPresent _ _ _ _) as [[]|]; [done| |done].
    by destruct (insertOperationEventTx _ _ _ _) as [[??]|].
  - intros [event|]; [|by apply triple_fail; intros st []].
    eapply triple_bind; [|intros ?; eapply triple_bind; [|intros ?; apply triple_cache]].
    + eapply triple_post; [apply (triple_keeps (fun st : St => ledger_ok st.1 /\ stored_event id st.1 event))|done|by intros e' st []].
      by apply (interrupt_keeps (fun s => ledger_ok s /\ stored_event id s event)).
    + eapply triple_post; [apply (triple_keeps (fun st : St => ledger_ok st.1 /\ stored_event id st.1 event))|done|by intros e' st []].
      apply (delete_prepared_keeps (fun s => ledger_ok s /\ stored_event id s event)).
Qed.

(** *** Others

    What anybody else does in one step: a transaction of the ledger, a write of
    the group agent, an event that was stored is cached, or a change of the
    process that is none of these. *)
Inductive write : store -> store -> Prop :=
| write_start record x s s' a : insert_tx now record s x = Commit_ s' a -> write s s'
| write_finish id result_ e x s s' a : finish_tx now id result_ e s x = Commit_ s' a -> write s s'
| write_uncertain id e x s s' a : uncertain_tx now id e s x = Commit_ s' a -> write s s'
| write_cancel id x s s' a : cancel_tx true prepared now id s x = Commit_ s' a -> write s s'
| write_claim id time s w : rows s !! id = Some w -> row_state w = "uncertain" ->
    write s (set_rows (<[id := update_row "running" (row_result w) (row_error_code w)
                               (row_error_message w) time w]> (rows s)) s)
| write_publication id owner generation digest time s :
    write s (insert_publication id owner generation digest time s)
| write_published sent time s : write s (complete_publications sent time s)
| write_cache id e time s : stored_event id s e -> write s (cache_event id e time s)
| write_beside s s' : rows s' = rows s -> logs s' = logs s -> events s' = events s -> write s s'.

(** Changes beside the rows, the stored events and the cache. *)
Lemma ledger_ok_beside s s' :
  rows s' = rows s -> logs s' = logs s -> events s' = events s -> ledger_ok s -> ledger_ok s'.
Proof using Type.
  intros Hr Hl He Hok id. specialize (Hok id). unfold row_ok, cache_ok, log_of, events_of in *.
  by rewrite Hr, Hl, He.
Qed.

Lemma write_ok s s' : write s s' -> ledger_ok s -> ledger_ok s'.
Proof using Type.
  intros Hw Hok. destruct Hw; eauto using insert_tx_ok, finish_ok, uncertain_ok, cancel_tx_ok, claim_ok,
    insert_publication_ok, complete_publications_ok, cache_event_ok, ledger_ok_beside.
Qed.

Lemma writes_ok s s' : rtc write s s' -> ledger_ok s -> ledger_ok s'.
Proof using Type. induction 1; eauto using write_ok. Qed.

(** What happens between two statements is a sequence of such steps. *)
Context (Hmeanwhile : forall x s, rtc write s (meanwhile x s)).

Lemma meanwhile_ok x s : ledger_ok s -> ledger_ok (meanwhile x s).
Proof using Hmeanwhile. apply writes_ok, Hmeanwhile. Qed.

Lemma start_keeps record : keeps ok (start true now committing meanwhile record).
Proof using Hnow Hmeanwhile.
  apply keeps_triple. unfold start. destruct (_ || _); [by apply triple_fail|].
  apply (triple_bind _ _ _ (fun a (st : St) => ledger_ok st.1 /\ maybe_stored (ID record) a.2 st.1)).
  - intros [s x] Hok. simpl in Hok. unfold start_durable. destruct (rows s !! ID record) as [w|].
    + refine (triple_transaction (fun s _ => replayed w record s) (fun a => maybe_stored (ID record) a.2) _ _ (s, x) Hok).
      * intros s0 x0 s' a Hs. unfold replayed. destruct (operationMatches _ _); [|done].
        by intros [= <- <-].
      * intros s0 x0 a Hs. unfold replayed. by destruct (operationMatches _ _).
    + refine (triple_transaction (insert_tx now record) (fun a => maybe_stored (ID record) a.2) _ _
        (meanwhile x s, x) (meanwhile_ok x s Hok)); [eauto using insert_tx_ok, insert_stored|].
      intros s0 x0 a Hs. unfold insert_tx, replayed. destruct (rows s0 !! ID record).
      { by destruct (operationMatches _ _). }
      by destruct (insertOperationEventTx _ _ _ _) as [[??]|].
  - intros [r [event|]]; simpl.
    + eapply triple_bind; [apply triple_cache|]. intros ?. by apply triple_ret.
    + eapply triple_bind; [apply (triple_ret _ tt (fun _ => ok) (fun _ => ok)); by intros st []|].
      intros ?. by apply triple_ret.
Qed.

Lemma claim_keeps id : keeps ok (claimReplay true now committing id).
Proof using Type.
  unfold claimReplay. destruct (str_empty _); [apply keeps_fail|].
  intros [s x] Hok. simpl in Hok. unfold transaction.
  assert (Hsame : ledger_ok (let '(x, c) := committing x in
    match c with Committed => (s, x, Ok false) | RolledBack e => (s, x, Err (Failed e))
               | Unreported e => (s, x, Err (Failed e)) end).1.1)
    by (by destruct (committing x) as [x' []]).
  destruct (rows s !! id) as [w|] eqn:Hw; [|exact Hsame].
  destruct (in_states ["uncertain"] w) eqn:Hst; [|exact Hsame].
  apply bool_decide_eq_true, list_elem_of_singleton in Hst.
  pose proof (claim_ok id s w (now x) Hok Hw Hst). by destruct (committing x) as [x' []].
Qed.

Lemma beside_keeps (f : store -> store) :
  (forall s, rows (f s) = rows s /\ logs (f s) = logs s /\ events (f s) = events s) ->
  keeps ok (update (X:=X) f).
Proof using Type. intros Hf [s x] Hok. destruct (Hf s) as (?&?&?). by eapply ledger_ok_beside. Qed.

Lemma register_keeps id : keeps ok (registerCancel (X:=X) id).
Proof using Type. unfold registerCancel. destruct (str_empty _); [apply keeps_ret|]. by apply beside_keeps. Qed.

Lemma clear_keeps id : keeps ok (clearCancel (X:=X) id).
Proof using Type. by apply beside_keeps. Qed.

Lemma watch_keeps id after : keeps ok (watch true meanwhile id after).
Proof using Hmeanwhile.
  apply keeps_bind; [apply keeps_reads|]. intros r [s x] Hok. simpl.
  by eapply ledger_ok_beside, meanwhile_ok.
Qed.

Lemma publication_keeps id owner generation digest :
  keeps ok (AdmitGroupAgentPublication now committing meanwhile id owner generation digest).
Proof using Hmeanwhile.
  unfold AdmitGroupAgentPublication. destruct (negb _); [apply keeps_ret|].
  apply keeps_bind.
  - intros [s x] Hok. simpl in Hok. unfold transaction.
    pose proof (insert_publication_ok id owner generation digest (now x) s Hok).
    by destruct (committing x) as [x' []].
  - intros _ [s x] Hok. simpl. by apply meanwhile_ok.
Qed.

(** *** A restart *)

Lemma stored_grow id s s' e :
  stored_event id s e -> (forall e, e ∈ log_of s id -> e ∈ log_of s' id) -> stored_event id s' e.
Proof using Type. intros [Hin Hrest] Hgrow. split; [by apply Hgrow|done]. Qed.

Lemma fence_stored x ids : forall s done_ s' a,
  Forall (fun ie => stored_event ie.1 s ie.2) done_ ->
  fence ids (now x) s done_ = Commit_ s' a -> Forall (fun ie => stored_event ie.1 s' ie.2) a.
Proof using Hnow.
  induction ids as [|id ids IH]; intros s done_ s' a Hd; simpl; [by intros [= <- <-]|].
  destruct (insertOperationEventTx _ _ _ _) as [[s2 event]|] eqn:Hins; [|done].
  apply IH. apply Forall_app. split; [|constructor; [stored|constructor]].
  destruct (insert_event_inv _ _ _ _ _ _ Hins) as (_ & _ & Hlog & Hother & _).
  eapply Forall_impl; [exact Hd|]. intros [i e] Hst. eapply stored_grow; [exact Hst|]. simpl.
  intros e0 He0. destruct (decide (i = id)) as [->|Hne]; [|by rewrite Hother].
  rewrite Hlog. apply elem_of_app. by left.
Qed.

Lemma restart_keeps : keeps ok (ensureSchema true now committing).
Proof using Hnow.
  apply keeps_triple. unfold ensureSchema. simpl. eapply triple_bind.
  - apply (triple_transaction _ (fun a s => Forall (fun ie => stored_event ie.1 s ie.2) a)).
    + intros s x s' a Hok Hf. destruct (in_flight_spec s) as [Hnd Hall].
      split; [by eapply fence_ok|]. by eapply fence_stored.
    + intros s x a _ Hf. exfalso. revert Hf. generalize (in_flight s) as ids, (@nil (string * WatchOperationEvent)) as d.
      intros ids. revert s. induction ids as [|id ids IH]; intros s d; simpl; [done|].
      destruct (insertOperationEventTx _ _ _ _) as [[??]|]; [apply IH|done].
  - intros fenced st [Hok Hall]. revert st Hok Hall. induction fenced as [|[id e] l IH]; intros [s x] Hok Hall.
    { exact Hok. }
    apply Forall_cons in Hall as [He Hl]. simpl in *. unfold mbind_, cacheEvent, run. simpl.
    apply (IH (_, x)); [by apply cache_event_ok|].
    eapply Forall_impl; [exact Hl|]. intros ie Hst. apply (stored_grow _ s); [exact Hst|]. intros e0 He0. exact He0.
Qed.

(** ** Reachable ledgers *)

Inductive call :=
| Start (record : operationRecord)
| Claim (id : string)
| Finish (id result_ : string) (e : option CapabilityError)
| Uncertain (id : string) (e : option CapabilityError)
| Cancel (id : string)
| Watch (id : string) (after : Z)
| Admit (id owner : string) (generation : Z) (digest : string)
| Register (id : string)
| Clear (id : string)
| Restart.

Definition perform (c : call) (st : St) : St :=
  match c with
  | Start record => (start true now committing meanwhile record st).1
  | Claim id => (claimReplay true now committing id st).1
  | Finish id result_ e => (finish true prepared now committing id result_ e st).1
  | Uncertain id e => (markUncertain true now committing id e st).1
  | Cancel id => (cancel true prepared now committing id st).1
  | Watch id after => (watch true meanwhile id after st).1
  | Admit id owner generation digest =>
      (AdmitGroupAgentPublication now committing meanwhile id owner generation digest st).1
  | Register id => (registerCancel id st).1
  | Clear id => (clearCancel id st).1
  | Restart => (ensureSchema true now committing
                  (newOperationStore (rows st.1) (logs st.1), st.2)).1
  end.

(** Any world may stand behind each call, and others act between the calls. *)
Inductive reaches : store -> Prop :=
| reaches_start : reaches (newOperationStore ∅ ∅)
| reaches_call s x c : reaches s -> reaches (perform c (s, x)).1
| reaches_write s s' : reaches s -> write s s' -> reaches s'.

Lemma restarted_ok s : ledger_ok s -> ledger_ok (newOperationStore (rows s) (logs s)).
Proof using Type. intros Hok id. destruct (Hok id) as [Hrow _]. split; [exact Hrow|constructor]. Qed.

Lemma reached_ledger_ok s : reaches s -> ledger_ok s.
Proof using Hnow Hmeanwhile.
  induction 1 as [|s x c _ IH|s s' _ IH Hw].
  - intros id. split; [|constructor]. split; [apply numbered_nil|done].
  - destruct c; simpl.
    + by apply (start_keeps record (s, x)).
    + by apply (claim_keeps id (s, x)).
    + by apply (finish_keeps id result_ e (s, x)).
    + by apply (uncertain_keeps id e (s, x)).
    + by apply (cancel_keeps id (s, x)).
    + by apply (watch_keeps id after (s, x)).
    + by apply (publication_keeps id owner generation digest (s, x)).
    + by apply (register_keeps id (s, x)).
    + by apply (clear_keeps id (s, x)).
    + by apply (restart_keeps (newOperationStore (rows s) (logs s), x)), restarted_ok.
  - by eapply write_ok.
Qed.

(** C3.  Rows and event streams of the durable ledger agree.  Take any sequence
    of starts, claims, completions, uncertain outcomes, cancellations, watches
    and restarts, with commits that fail or lose their reply, interleaved at
    will with the transactions of other requests and with the group agent's
    writes of the same table (clocks are past 1970).  Then the stored events of
    an operation are numbered 1, 2, 3, ...; there are none without a row; and
    of an operation that is not a publication of the group agent, a pending,
    running or uncertain row has an open stream (accepted, then progress), and
    a completed, failed or cancelled row has an open stream closed by exactly
    one result, error or cancellation.  (The group agent's rows have no stream
    of this kind: [publication_completes_silently].) *)
Theorem streams_agree_with_rows s id :
  reaches s ->
  map we_Sequence (log_of s id) = map Z.of_nat (seq 1 (length (log_of s id))) /\
  match rows s !! id with
  | None => log_of s id = []
  | Some w => row_capability w <> "product.group_agent.v1" -> agrees (row_state w) (log_of s id)
  end.
Proof using Hnow Hmeanwhile.
  intros Hs. destruct (reached_ledger_ok s Hs id) as [[[Hseq _] Hrow] _]. split; [done|].
  destruct (rows s !! id); [by destruct Hrow as (_ & _ & Hag)|done].
Qed.

(** ** Watching *)

(** The stored events after a number are a suffix of the log. *)
Lemma load_is_drop id after s :
  numbered id (log_of s id) -> loadEvents id after s = drop (Z.to_nat after) (log_of s id).
Proof using Type.
  unfold loadEvents. intros [Hseq _]. revert Hseq. generalize (log_of s id) as l. intros l.
  cut (forall k, map we_Sequence l = map Z.of_nat (seq (S k) (length l)) ->
    List.filter (fun e => after <? we_Sequence e) l = drop (Z.to_nat after - k) l).
  { intros Hall Hl. rewrite (Hall 0%nat Hl). f_equal. lia. }
  induction l as [|e l IH]; intros k Hl; simpl; [by rewrite drop_nil|].
  injection Hl as He Hl. rewrite (IH (S k) Hl). destruct (Z.ltb_spec after (we_Sequence e)) as [Ha|Ha].
  - replace (Z.to_nat after - k)%nat with 0%nat by lia.
    replace (Z.to_nat after - S k)%nat with 0%nat by lia. done.
  - replace (Z.to_nat after - k)%nat with (S (Z.to_nat after - S k)) by lia. done.
Qed.

Lemma numbered_nodup id l : numbered id l -> NoDup (map we_Sequence l).
Proof using Type.
  intros [-> _]. apply (NoDup_fmap_2 Z.of_nat), NoDup_seq.
Qed.

(** Merging the cache: the stored events first, then each further number once. *)
Lemma initial_events_spec after evs : forall stored,
  NoDup (map we_Sequence stored) ->
  exists extra, initial_events after stored evs = stored ++ extra /\
    NoDup (map we_Sequence (stored ++ extra)) /\
    Forall (fun e => e ∈ evs /\ after < we_Sequence e /\ we_Sequence e ∉ map we_Sequence stored) extra /\
    Forall (fun e => after < we_Sequence e -> we_Sequence e ∈ map we_Sequence (stored ++ extra)) evs.
Proof using Type.
  unfold initial_events. induction evs as [|e evs IH]; intros stored Hnd; simpl.
  { exists []. rewrite app_nil_r. by repeat split. }
  destruct (Z.ltb_spec after (we_Sequence e)) as [Ha|Ha]; simpl.
  - destruct (decide (we_Sequence e ∈ map we_Sequence stored)) as [Hin|Hin].
    + rewrite bool_decide_eq_true_2 by done. simpl.
      destruct (IH stored Hnd) as (extra & -> & Hn & Hx & Hall). exists extra. repeat split; [done| |].
      * eapply Forall_impl; [exact Hx|]. intros ? (? & ? & ?). split; [by right|done].
      * constructor; [|done]. intros _. rewrite map_app, elem_of_app. by left.
    + rewrite bool_decide_eq_false_2 by done. simpl.
      destruct (IH (stored ++ [e])) as (extra & -> & Hn & Hx & Hall).
      { rewrite map_app. simpl. apply NoDup_app. split; [done|]. split; [|apply NoDup_singleton].
        intros q Hq ->%list_elem_of_singleton. done. }
      exists (e :: extra). rewrite <- app_assoc in *. simpl in *. repeat split; [done| |].
      * constructor; [by split; [left|]|]. eapply Forall_impl; [exact Hx|].
        intros ? (? & ? & Hn'). split; [by right|]. split; [done|]. intros Hq. apply Hn'.
        rewrite map_app, elem_of_app. by left.
      * constructor; [|done]. intros _. rewrite map_app, elem_of_app. right. left.
  - destruct (IH stored Hnd) as (extra & -> & Hn & Hx & Hall). exists extra. repeat split; [done| |].
    + eapply Forall_impl; [exact Hx|]. intros ? (? & ? & ?). split; [by right|done].
    + constructor; [|done]. lia.
Qed.

(** Stored events stay where they are. *)
Lemma write_grows s s' id : ledger_ok s -> write s s' -> log_of s id `prefix_of` log_of s' id.
Proof using Type.
  intros Hok Hw.
  assert (Hone : forall i e time s1 s2 e', insertOperationEventTx i e time s1 = Ok (s2, e') ->
    logs s1 = logs s -> log_of s id `prefix_of` log_of s2 id).
  { intros i e time s1 s2 e' Hi Hl. apply insert_event_inv in Hi as (_ & _ & Hlog & Hother & _).
    assert (Hsame : forall j, log_of s1 j = log_of s j) by (intros j; unfold log_of; by rewrite Hl).
    destruct (decide (id = i)) as [->|Hne]; [|by rewrite Hother, Hsame].
    rewrite Hlog, Hsame. by apply prefix_app_r. }
  destruct Hw as [record x s s' a Ht|i r e x s s' a Ht|i e x s s' a Ht|i x s s' a Ht|i time s w _ _|
    i o g d time s|sent time s|i e time s _|s s' _ Hl _]; try done.
  - unfold insert_tx, replayed in Ht. repeat (case_match; try done); simplify_eq; try done; eauto.
  - unfold finish_tx in Ht. repeat (case_match; try done); simplify_eq; try done; eauto.
  - unfold uncertain_tx in Ht. repeat (case_match; try done); simplify_eq; try done; eauto.
  - unfold cancel_tx in Ht. repeat (case_match; try done); simplify_eq; try done; eauto.
  - unfold insert_publication. by destruct (rows s !! i).
  - unfold log_of. by rewrite Hl.
Qed.

Lemma writes_grow s s' id : ledger_ok s -> rtc write s s' -> log_of s id `prefix_of` log_of s' id.
Proof using Type.
  intros Hok Hw. induction Hw as [s|s s1 s' Hw _ IH]; [done|].
  etrans; [by apply write_grows|]. by eapply IH, write_ok.
Qed.

(** Numbers tell the events of one operation apart. *)
Lemma same_number id l e e' :
  numbered id l -> e ∈ l -> e' ∈ l -> we_Sequence e = we_Sequence e' -> e = e'.
Proof using Type.
  intros Hn (i & Hi)%list_elem_of_lookup (j & Hj)%list_elem_of_lookup Heq.
  pose proof (numbered_nodup _ _ Hn) as Hnd. assert (i = j) as ->; [|congruence].
  eapply (NoDup_lookup _ _ _ (we_Sequence e) Hnd); rewrite list_lookup_fmap; [by rewrite Hi|].
  by rewrite Hj, Heq.
Qed.

(** C30.  A watcher is sent what is stored.  In every state the durable ledger
    reaches, watching an operation from a sequence number, while others store
    and cache events between the read of the table and the lock of the cache,
    hands over first the log of the operation at the read without its first
    [after] events, in order; behind it come only events that were stored
    since; no number comes twice; every event the process had cached by the
    time of the lock is there; and the channel has room for sixteen more. *)
Theorem watch_sends_the_log s (x : X) id after w :
  reaches s -> rows s !! id = Some w ->
  let s' := meanwhile x s in
  exists extra, let queue := drop (Z.to_nat after) (log_of s id) ++ extra in
    (watch true meanwhile id after (s, x)).2 =
      Ok {| w_capacity := (length queue + 16)%nat; w_queue := queue |} /\
    Forall (fun e => e ∈ drop (length (log_of s id)) (log_of s' id)) extra /\
    NoDup (map we_Sequence queue) /\
    Forall (fun e => after < we_Sequence e -> e ∈ queue) (events_of s' id).
Proof using Hnow Hmeanwhile.
  intros Hs Hw s'. pose proof (reached_ledger_ok s Hs) as Hok.
  destruct (Hok id) as [[Hnum _] _]. pose proof (meanwhile_ok x s Hok : ledger_ok s') as Hok'.
  destruct (Hok' id) as [[Hnum' _] Hcache]. unfold cache_ok in Hcache.
  destruct (writes_grow s s' id Hok (Hmeanwhile x s)) as [new Hnew].
  assert (Hnd : NoDup (map we_Sequence (drop (Z.to_nat after) (log_of s id)))).
  { rewrite <- (take_drop (Z.to_nat after) (log_of s id)) in Hnum. apply numbered_nodup in Hnum.
    rewrite map_app in Hnum. by apply NoDup_app in Hnum as (_ & _ & ?). }
  destruct (initial_events_spec after (events_of s' id) _ Hnd) as (extra & Hinit & Hn & Hx & Hall).
  exists extra. cbv zeta. split; [|split; [|split; [done|]]].
  - unfold watch, mbind_, reads, get_. simpl. rewrite Hw. simpl. rewrite load_is_drop by done.
    fold s'. by rewrite Hinit.
  - rewrite Hnew, drop_app_length. rewrite Forall_forall in *. intros e He.
    destruct (Hx e He) as (Hev & Ha & Hnot). specialize (Hcache e Hev). rewrite Hnew in Hcache.
    apply elem_of_app in Hcache as [Hold|]; [|done]. exfalso. apply Hnot.
    rewrite <- (load_is_drop id after s Hnum). apply list_elem_of_In, in_map, filter_In.
    split; [by apply list_elem_of_In|by apply Z.ltb_lt].
  - rewrite Forall_forall in *. intros e He Ha. specialize (Hall e He Ha).
    apply list_elem_of_In, in_map_iff in Hall as (e' & Heq & Hin%list_elem_of_In).
    assert (Hlog : e' ∈ log_of s' id).
    { apply elem_of_app in Hin as [Hin|Hin].
      - rewrite Hnew, <- (take_drop (Z.to_nat after) (log_of s id)), !elem_of_app. by auto.
      - by apply Hcache, (Hx e' Hin). }
    by rewrite <- (same_number id _ e' e Hnum' Hlog (Hcache e He) Heq).
Qed.

(** ** Settled operations *)

(** The row of [id] is settled, with this stream. *)
Definition settled (id : string) (w : row) (l : list WatchOperationEvent) (s : store) : Prop :=
  operationStateTerminal (operationStateFromString (row_state w)) = true /\
  rows s !! id = Some w /\ log_of s id = l.

(** What the group agent does leaves the rows of others alone. *)
Lemma insert_publication_settled id w l id' owner generation digest time s :
  settled id w l s -> settled id w l (insert_publication id' owner generation digest time s).
Proof using Type.
  intros (Ht & Hw & Hl). unfold insert_publication. destruct (rows s !! id') eqn:Hw'; [done|].
  split; [done|]. split; [|done]. simpl. by rewrite lookup_insert_ne by congruence.
Qed.

Lemma complete_publications_settled id w l sent time s :
  ~ published w -> settled id w l s -> settled id w l (complete_publications sent time s).
Proof using Type.
  intros Hpub (Ht & Hw & Hl). pose proof (complete_publications_rows sent time s id) as Hc.
  rewrite Hw in Hc. destruct Hc as (w' & Hw' & _ & _ & [[]| ->]); by repeat split.
Qed.

Lemma settled_elsewhere id w l s s' id' :
  settled id w l s -> elsewhere s s' id' -> id <> id' -> settled id w l s'.
Proof using Type.
  intros (Ht & Hw & Hl) Helse Hne. destruct (Helse id Hne) as [Hr Hg]. by rewrite <- Hr, <- Hg in *.
Qed.

(** A transaction keeps what its committed state keeps. *)
Lemma keeps_transaction {A} (P : store -> Prop) (body : store -> X -> tx A) :
  (forall s x s' a, P s -> body s x = Commit_ s' a -> P s') ->
  keeps (fun st : St => P st.1) (transaction committing body).
Proof using Type.
  intros Hbody [s x] Hs. unfold transaction. destruct (body s x) as [r|s' a] eqn:Hb; [done|].
  simpl in Hs. specialize (Hbody s x s' a Hs Hb). by destruct (committing x) as [x' []].
Qed.

(** The committed state of a transaction on [id'] differs there only, and not
    at all when the row is settled. *)
Definition local_tx {A} (id' : string) (body : store -> X -> tx A) : Prop :=
  forall s x s' a, body s x = Commit_ s' a ->
    elsewhere s s' id' /\ (forall w l, settled id' w l s -> s' = s).

Lemma local_settled {A} id' (body : store -> X -> tx A) id w l :
  local_tx id' body -> keeps (fun st : St => settled id w l st.1) (transaction committing body).
Proof using Type.
  intros Hlocal. apply keeps_transaction. intros s x s' a Hs Hb.
  destruct (Hlocal s x s' a Hb) as [Helse Hsame].
  destruct (decide (id = id')) as [->|Hne]; [by rewrite (Hsame w l Hs)|by eapply settled_elsewhere].
Qed.

Lemma update_insert_elsewhere states f id' e time s s' e' :
  insertOperationEventTx id' e time (update_in states f id' s) = Ok (s', e') -> elsewhere s s' id'.
Proof using Type.
  intros Hins id Hne. destruct (insert_event_inv _ _ _ _ _ _ Hins) as (-> & _ & _ & Hother & _).
  rewrite Hother by done. simpl. by rewrite lookup_alter_ne by done.
Qed.

Lemma finish_local id result_ e : local_tx id (finish_tx now id result_ e).
Proof using Type.
  intros s x s' a. unfold finish_tx. destruct (rows s !! id) as [w|] eqn:Hw; [|done].
  destruct (operationStateTerminal _) eqn:Ht; [by intros [= <- _]|].
  destruct (to_jsonb result_); [|done].
  destruct (insertOperationEventTx _ _ _ _) as [[s2 ev]|] eqn:Hins; [|done].
  intros Hc. injection Hc as <- _. split; [by eapply update_insert_elsewhere|].
  intros w' l (Ht' & Hw' & _). congruence.
Qed.

Lemma uncertain_local id e : local_tx id (uncertain_tx now id e).
Proof using Type.
  intros s x s' a. unfold uncertain_tx. destruct (rows s !! id) as [w|] eqn:Hw; [|done].
  destruct (operationStateTerminal _) eqn:Ht; [by intros [= <- _]|].
  destruct (insertOperationEventTx _ _ _ _) as [[s2 ev]|] eqn:Hins; [|done].
  intros Hc. injection Hc as <- _. split; [by eapply update_insert_elsewhere|].
  intros w' l (Ht' & Hw' & _). congruence.
Qed.

Lemma cancel_local id : local_tx id (cancel_tx true prepared now id).
Proof using Type.
  intros s x s' a. unfold cancel_tx. destruct (rows s !! id) as [w|] eqn:Hw; [|done].
  destruct (_ || _) eqn:Hstop; [by intros [= <- _]|].
  destruct (preparedMatrixPresent _ _ _ _) as [[]|]; [done| |done].
  destruct (insertOperationEventTx _ _ _ _) as [[s2 ev]|] eqn:Hins; [|done].
  intros Hc. injection Hc as <- _. split; [by eapply update_insert_elsewhere|].
  intros w' l (Ht' & Hw' & _). apply orb_false_iff in Hstop as [Hstop _]. congruence.
Qed.

Lemma insert_local record : local_tx (ID record) (insert_tx now record).
Proof using Type.
  intros s x s' a. unfold insert_tx, replayed. destruct (rows s !! ID record) as [w|] eqn:Hw.
  { destruct (operationMatches _ _); [|done]. by intros [= <- _]. }
  destruct (insertOperationEventTx _ _ _ _) as [[s2 ev]|] eqn:Hins; [|done].
  intros Hc. injection Hc as <- _. split; [|intros w l (_ & Hw' & _); congruence].
  intros id Hne. destruct (insert_event_inv _ _ _ _ _ _ Hins) as (-> & _ & _ & Hother & _).
  rewrite Hother by done. simpl. by rewrite lookup_insert_ne by done.
Qed.

Lemma claim_local id :
  local_tx id (fun s x =>
    match rows s !! id with
    | Some w => if in_states ["uncertain"] w
                then Commit_ (set_rows (<[id := update_row "running" (row_result w) (row_error_code w)
                       (row_error_message w) (now x) w]> (rows s)) s) true
                else Commit_ s false
    | None => Commit_ s false
    end).
Proof using Type.
  intros s x s' a. destruct (rows s !! id) as [w|] eqn:Hw; [|by intros [= <- _]].
  destruct (in_states _ w) eqn:Hst; [|by intros [= <- _]]. intros Hc. injection Hc as <- _. split.
  - intros id' Hne. simpl. by rewrite lookup_insert_ne by done.
  - intros w' l (Ht & Hw' & _). exfalso. apply bool_decide_eq_true, list_elem_of_singleton in Hst.
    rewrite Hw in Hw'. injection Hw' as <-. rewrite Hst in Ht. by vm_compute in Ht.
Qed.

Lemma fence_settled id w l time ids : forall s done_ s' a,
  settled id w l s -> id ∉ ids -> fence ids time s done_ = Commit_ s' a -> settled id w l s'.
Proof using Type.
  induction ids as [|i ids IH]; intros s done_ s' a Hs Hnot; simpl; [by intros [= <- _]|].
  destruct (insertOperationEventTx _ _ _ _) as [[s2 ev]|] eqn:Hins; [|done].
  apply not_elem_of_cons in Hnot as [Hne Hnot]. apply IH; [|done].
  eapply settled_elsewhere; [exact Hs|by eapply update_insert_elsewhere|done].
Qed.

Lemma settled_not_in_flight id w l s : settled id w l s -> id ∉ in_flight s.
Proof using Type.
  intros (Ht & Hw & _) Hin. destruct (in_flight_spec s) as [_ Hall].
  destruct (Hall id Hin) as (w' & Hw' & Hst). rewrite Hw in Hw'. injection Hw' as <-.
  rewrite live_not_terminal in Ht; [done|]. unfold live_states. rewrite !elem_of_cons in *. tauto.
Qed.

(** Steps beside the rows and the stored events. *)
Lemma settled_beside id w l (f : store -> store) :
  (forall s, rows (f s) = rows s /\ logs (f s) = logs s) ->
  forall s, settled id w l s -> settled id w l (f s).
Proof using Type.
  intros Hf s. destruct (Hf s) as [Hr Hl]. unfold settled, log_of. by rewrite Hr, Hl.
Qed.

Lemma update_settled id w l (f : store -> store) :
  (forall s, rows (f s) = rows s /\ logs (f s) = logs s) ->
  keeps (fun st : St => settled id w l st.1) (update (X:=X) f).
Proof using Type. intros Hf [s x] Hs. by apply settled_beside. Qed.

Lemma cache_settled id w l id' e :
  keeps (fun st : St => settled id w l st.1) (cacheEvent now id' e).
Proof using Type. intros [s x] Hs. simpl. by apply (settled_beside id w l (cache_event id' e (now x))). Qed.

Ltac settle :=
  repeat first
    [ apply keeps_ret | apply keeps_fail | apply keeps_reads | apply cache_settled
    | apply delete_prepared_keeps | apply update_settled; by intros ?; try case_bool_decide
    | apply (local_settled _ _ _ _ _ (finish_local _ _ _))
    | apply (local_settled _ _ _ _ _ (uncertain_local _ _))
    | apply (local_settled _ _ _ _ _ (cancel_local _))
    | apply (local_settled _ _ _ _ _ (claim_local _))
    | apply keeps_when; intros ? _
    | apply keeps_bind; [|intros ?]
    | match goal with
      | |- keeps _ (match ?x with _ => _ end) => destruct x
      | |- keeps _ (if ?b then _ else _) => destruct b
      end ].

(** A step of the others leaves a settled operation as it is. *)
Lemma local_commit_settled {A} id' (body : store -> X -> tx A) id w l s x s' a :
  local_tx id' body -> body s x = Commit_ s' a -> settled id w l s -> settled id w l s'.
Proof using Type.
  intros Hlocal Hb Hs. destruct (Hlocal s x s' a Hb) as [Helse Hsame].
  destruct (decide (id = id')) as [->|Hne]; [by rewrite (Hsame w l Hs)|by eapply settled_elsewhere].
Qed.

Lemma claimed_settled id w l id' w' f s :
  rows s !! id' = Some w' -> row_state w' = "uncertain" -> settled id w l s ->
  settled id w l (set_rows (<[id' := f]> (rows s)) s).
Proof using Type.
  intros Hw' Hst (Ht & Hw & Hl). split; [done|]. split; [|done]. simpl.
  rewrite lookup_insert_ne; [done|]. intros ->. rewrite Hw in Hw'. injection Hw' as <-.
  rewrite Hst in Ht. by vm_compute in Ht.
Qed.

Lemma write_settled id w l s s' :
  ~ published w -> write s s' -> settled id w l s -> settled id w l s'.
Proof using Type.
  intros Hpub Hw Hs. destruct Hw as [record x s s' a Ht|i r e x s s' a Ht|i e x s s' a Ht|i x s s' a Ht|
    i time s w' Hw' Hst|i o g d time s|sent time s|i e time s _|s s' Hr Hl _].
  - eapply local_commit_settled; [apply insert_local|exact Ht|exact Hs].
  - eapply local_commit_settled; [apply finish_local|exact Ht|exact Hs].
  - eapply local_commit_settled; [apply uncertain_local|exact Ht|exact Hs].
  - eapply local_commit_settled; [apply cancel_local|exact Ht|exact Hs].
  - by eapply claimed_settled.
  - by apply insert_publication_settled.
  - by apply complete_publications_settled.
  - exact Hs.
  - destruct Hs as (Ht & Hw' & Hg). split; [done|]. unfold log_of in *. by rewrite Hr, Hl.
Qed.

Lemma meanwhile_settled id w l x s :
  ~ published w -> settled id w l s -> settled id w l (meanwhile x s).
Proof using Hmeanwhile.
  intros Hpub. induction (Hmeanwhile x s) as [|s0 s1 s2 Hw _ IH]; [done|].
  intros Hs. by eapply IH, write_settled.
Qed.

Lemma call_settled id w l c st :
  ~ published w -> settled id w l st.1 -> settled id w l (perform c st).1.
Proof using Hmeanwhile.
  intros Hpub Hs. set (P := fun st : St => settled id w l st.1). destruct c; simpl.
  - revert st Hs. change (keeps P (start true now committing meanwhile record)).
    unfold start. settle. intros [s x] Hs. unfold start_durable. unfold P in *. simpl in Hs.
    destruct (rows s !! ID record) as [w'|].
    + refine (local_settled (ID record) (fun s _ => replayed w' record s) id w l _ (s, x) Hs).
      intros s0 x0 s' a. unfold replayed. destruct (operationMatches _ _); [|done]. by intros [= <- _].
    + apply (local_settled _ _ id w l (insert_local record) (meanwhile x s, x)). by apply meanwhile_settled.
  - revert st Hs. change (keeps P (claimReplay true now committing id0)). unfold claimReplay. settle.
  - revert st Hs. change (keeps P (finish true prepared now committing id0 result_ e)). unfold finish. settle.
  - revert st Hs. change (keeps P (markUncertain true now committing id0 e)). unfold markUncertain. settle.
  - revert st Hs. change (keeps P (cancel true prepared now committing id0)). unfold cancel, cancelExecution. settle.
  - revert st Hs. change (keeps P (watch true meanwhile id0 after)). apply keeps_bind; [apply keeps_reads|].
    intros r [s x] Hs. exact (meanwhile_settled id w l x s Hpub Hs).
  - revert st Hs.
    change (keeps P (AdmitGroupAgentPublication now committing meanwhile id0 owner generation digest)).
    unfold AdmitGroupAgentPublication. settle.
    + apply keeps_transaction. intros s x s' a' Hs' Hc. injection Hc as <- _. by apply insert_publication_settled.
    + intros [s x] Hs. exact (meanwhile_settled id w l x s Hpub Hs).
  - revert st Hs. change (keeps P (registerCancel id0)). unfold registerCancel. settle.
  - revert st Hs. change (keeps P (clearCancel id0)). unfold clearCancel. settle.
  - assert (Hk : keeps P (ensureSchema true now committing)); [|by apply Hk].
    unfold ensureSchema. simpl. apply keeps_bind.
    + apply keeps_transaction. intros s x s' a Hs' Hf.
      eapply fence_settled; [exact Hs'|by eapply settled_not_in_flight|exact Hf].
    + intros fenced. apply keeps_for_each. intros ie. apply cache_settled.
Qed.

(** One call, in any world, or a step of somebody else. *)
Definition steps (s s' : store) : Prop := (exists x c, s' = (perform c (s, x)).1) \/ write s s'.

(** C10.  A settled operation stays as it is.  Once the row of an operation
    other than a publication of the group agent is completed, failed or
    cancelled, no sequence of calls, late completions, cancellations, retries,
    claims, watches and restarts among them, interleaved at will with the
    transactions of other requests and with the group agent's writes of the
    same table, changes the row (its state, result, error or revision) or adds
    an event to its stream.  (Of a publication the group agent sets the state
    again, from whatever it was: [publication_completes_silently].) *)
Theorem settled_is_final id w l s s' :
  row_capability w <> "product.group_agent.v1" -> settled id w l s -> rtc steps s s' ->
  rows s' !! id = Some w /\ log_of s' id = l.
Proof using Hmeanwhile.
  intros Hpub Hs Hsteps. cut (settled id w l s'); [by intros (_ & ? & ?)|].
  induction Hsteps as [|s s1 s' [(x & c & ->)|Hw] _ IH]; [done| |]; apply IH.
  - by apply call_settled.
  - by eapply write_settled.
Qed.

(** An operation whose Matrix event is staged, or may be, is not cancelled:
    the call fails, its execution is not interrupted, and rows and streams are
    as before. *)
Theorem staged_is_not_cancelled p probe s x id w :
  prepared = Some p -> HasMatrixPreparedEventTx p = Some probe -> rows s !! id = Some w ->
  isPreparedMatrixMutation (row_capability w) (row_operation w) = true ->
  probe (row_id w) (row_owner w) (row_generation w) (row_root_digest w) x <> Ok false ->
  exists x' e, cancel true prepared now committing id (s, x) = ((s, x'), Err e).
Proof using Type.
  intros -> Hprobe Hw Hmut Hstaged. unfold cancel, mbind_, transaction, cancel_tx. rewrite Hw.
  destruct (_ || _); [by destruct (committing x) as [x' []]; eauto|].
  unfold preparedMatrixPresent. simpl. rewrite Hmut, Hprobe. simpl.
  destruct (probe _ _ _ _ x) as [[]|e]; [by eauto|done|by eauto].
Qed.
End Calls.

(** ** An operation

    The reply of its first commit is lost; it is started again, the process
    restarts, a retry claims it and finishes it.  Whenever somebody else gets in
    between, the group agent adds a publication, and the operation, when it is
    there, is finished and the event cached. *)
Module Demo.
#[export] Instance text : GoText := {|
  Marshal := fun _ => Some "{}"; Unmarshal := fun _ => None; ValidJSON := fun _ => true;
  Quote := fun s => s; jsonb := fun s => s |}.

Definition committing (lost : bool) : bool * commit :=
  if lost then (false, Unreported (ErrOther "connection reset")) else (false, Committed).

Definition now (x : bool) : Z := 7.
Definition meanwhile (x : bool) (s : store) : store :=
  let s := insert_publication "pub" "@me:h" 1 "d" 7 s in
  match finish_tx now "op" "{}" None s x with
  | Commit_ s' (Some e) => cache_event "op" e 7 s'
  | _ => s
  end.

Lemma meanwhile_writes x s : rtc (write (X:=bool) None now) s (meanwhile x s).
Proof.
  eapply rtc_l; [exact (write_publication None now "pub" "@me:h" 1 "d" 7 s)|].
  unfold meanwhile. generalize (insert_publication "pub" "@me:h" 1 "d" 7 s) as s1. intros s1.
  destruct (finish_tx now "op" "{}" None s1 x) as [|s2 [e|]] eqn:Hf; [apply rtc_refl| |apply rtc_refl].
  eapply rtc_l; [by eapply write_finish|]. apply rtc_once, write_cache.
  by eapply (finish_stored (X:=bool) now (fun _ => eq_refl) "op" "{}" None s1 x s2 (Some e)).
Qed.

Definition request : operationRecord :=
  {| ID := "op"; Capability := "product.messages.v1"; Operation := "send"; OwnerID := "@me:h";
     Generation := 1; RootDigest := "d"; Digest := "d"; State := UNSPECIFIED; Result := "";
     Err_ := None; Revision := 0; UpdatedAt := 0; Created := false |}.

Definition next (c : call) (lost : bool) (s : store) : store :=
  (perform None now committing meanwhile c (s, lost)).1.

Definition started : store := next (Start request) true (newOperationStore ∅ ∅).
Definition restarted : store := next Restart false (next (Start request) false started).
Definition claimed : store := next (Claim "op") false restarted.
Definition finished : store := next (Finish "op" "{}" None) false claimed.

(** A publication that is cancelled, then completed by the group agent. *)
Definition digest : string := "0123456789abcdef0123456789abcdef".
Definition cancelled : store :=
  next (Cancel "pub") false (next (Admit "pub" "@me:h" 1 digest) false (newOperationStore ∅ ∅)).
Definition completed : store := complete_publications (fun _ => true) 8 cancelled.

Lemma reach c lost s :
  reaches None now committing meanwhile s -> reaches None now committing meanwhile (next c lost s).
Proof. apply (reaches_call None now committing meanwhile s lost c). Qed.

Lemma step_next c lost s : steps None now committing meanwhile s (next c lost s).
Proof. left. by exists lost, c. Qed.

Lemma claimed_reached : reaches None now committing meanwhile claimed.
Proof. repeat apply reach. apply reaches_start. Qed.

Lemma completed_reached : reaches None now committing meanwhile completed.
Proof.
  eapply reaches_write; [|apply write_published]. repeat apply reach. apply reaches_start.
Qed.

Definition row_finished : row :=
  update_row "completed" (Some "{}") "" "" 7
    (update_row "running" None "SERVICE_RESTARTED"
       "operation was in flight when message-server restarted" 7
       (update_row "uncertain" None "SERVICE_RESTARTED"
          "operation was in flight when message-server restarted" 7
          (operation_row request PENDING 1 7))).
End Demo.
#[local] Existing Instance Demo.text.

(** A publication of the group agent: its row says completed, and its stream
    ends with a cancellation; one that was never cancelled has no event. *)
Example publication_completes_silently :
  reaches None Demo.now Demo.committing Demo.meanwhile Demo.completed /\
  option_map row_state (rows Demo.completed !! "pub") = Some "completed" /\
  map we_Event (log_of Demo.completed "pub") = [CancelledEvent "cancelled by caller"] /\
  (let s := complete_publications (fun _ => true) 8
     (Demo.next (Admit "pub" "@me:h" 1 Demo.digest) false (newOperationStore ∅ ∅)) in
   option_map row_state (rows s !! "pub") = Some "completed" /\ log_of s "pub" = []).
Proof. split; [apply Demo.completed_reached|]. vm_compute. done. Qed.

Lemma streams_agree_with_rows_witness :
  map we_Sequence (log_of Demo.finished "op") = [1; 2; 3] /\
  agrees "completed" (log_of Demo.finished "op").
Proof.
  destruct (streams_agree_with_rows None Demo.now Demo.committing Demo.meanwhile (fun _ => eq_refl)
    Demo.meanwhile_writes Demo.finished "op" (Demo.reach _ _ _ Demo.claimed_reached)) as [Hseq Hrow].
  split; [rewrite Hseq; vm_compute; reflexivity|].
  assert (Hw : rows Demo.finished !! "op" = Some Demo.row_finished) by (vm_compute; reflexivity).
  rewrite Hw in Hrow. apply Hrow. discriminate.
Defined.

(** The operation is finished by another request after the table was read. *)
Lemma watch_sends_the_log_witness :
  exists queue,
    (watch true Demo.meanwhile "op" 1 (Demo.claimed, false)).2 =
      Ok {| w_capacity := (length queue + 16)%nat; w_queue := queue |} /\
    map we_Sequence (log_of Demo.claimed "op") = [1; 2] /\ map we_Sequence queue = [2; 3].
Proof.
  destruct (rows Demo.claimed !! "op") as [w|] eqn:Hw; [|by vm_compute in Hw].
  destruct (watch_sends_the_log None Demo.now Demo.committing Demo.meanwhile (fun _ => eq_refl)
    Demo.meanwhile_writes Demo.claimed false "op" 1 w Demo.claimed_reached Hw) as (extra & Hq & _).
  eexists. split; [exact Hq|]. split; [vm_compute; reflexivity|].
  apply (f_equal (fun r => match r with Ok v => map we_Sequence (w_queue v) | Err _ => [] end)) in Hq.
  cbn [w_queue] in Hq. rewrite <- Hq. vm_compute. reflexivity.
Defined.

(** A late failure, a cancellation, another restart and the group agent. *)
Lemma settled_is_final_witness :
  let late := complete_publications (fun _ => true) 9 (Demo.next Restart false (Demo.next (Cancel "op") false
    (Demo.next (Finish "op" "" (Some (capabilityError UPSTREAM_FAILED "late"))) true Demo.finished))) in
  rows late !! "op" = Some Demo.row_finished /\ log_of late "op" = log_of Demo.finished "op".
Proof.
  cbv zeta.
  apply (settled_is_final None Demo.now Demo.committing Demo.meanwhile Demo.meanwhile_writes
    "op" Demo.row_finished (log_of Demo.finished "op") Demo.finished).
  - discriminate.
  - vm_compute. done.
  - eapply rtc_r; [|right; apply write_published].
    do 3 (eapply rtc_r; [|apply Demo.step_next]). apply rtc_refl.
Defined.
End CapabilityLedgerFacts.
