(* ===== verification/CapabilityFacts.v ===== *)
(** * Facts about the capability service

    No call has an effect without an authenticated peer and a grant that was
    signed for it; an exchanged grant is never wider than its parent and is
    accepted for the query it was issued for; a retried operation does not run
    again, and one that runs settles. *)

From Stdlib Require Import Ascii String ZArith Lia.
From stdpp Require Import base tactics list sorting gmap strings.
From S2P Require Import Prelude GoStrings GoCase Values GoSha256 Domain GoTime GoTimeParse Policy.
From S2P Require Import PolicyFacts Action Workflow.
From S2P Require Import RemotePublic RemotePublicFacts Prepared ChannelBackfill MessagePages GroupAgent CapabilityLedger.
From S2P Require Import CapabilityServer CapabilityCalls CapabilityLedgerFacts.
Local Open Scope Z_scope.
Local Open Scope go_scope.

Module CapabilityFacts.
Import Ledger Capability CapabilityCalls.

Import CapabilityLedgerFacts.

(** ** Scopes *)

(** What a granted scope stands for. *)
Inductive covers : string -> string -> Prop :=
| covers_same s : covers s s
| covers_any s : covers "*" s
| covers_product s : covers "product:*" s
| covers_under p s : covers (p +:+ ":*") (p +:+ ":" +:+ s)
| covers_reading s t : "product:" +:+ s = t +:+ ":read" -> covers "agent:read" (t +:+ ":read")
| covers_writing s t : "product:" +:+ s = t +:+ ":write" -> covers "agent:write" (t +:+ ":write").

Definition covered (granted required : list string) : Prop :=
  forall r, r ∈ required -> exists g, g ∈ granted /\ covers (trim_space g) (trim_space r).

Lemma has_prefix_spec s p : has_prefix s p = true <-> exists r, s = p +:+ r.
Proof.
  unfold has_prefix. split.
  - destruct (strip_prefix p s) as [r|] eqn:E; [|done]. intros _. exists r. by apply strip_prefix_Some.
  - intros [r ->]. by rewrite strip_prefix_app.
Qed.

Lemma length_append s t : String.length (s +:+ t) = (String.length s + String.length t)%nat.
Proof. induction s as [|a s IH]; [done|]. simpl. by rewrite IH. Qed.

Lemma substring_front s t n : n = String.length s -> substring 0 n (s +:+ t) = s.
Proof.
  intros ->. induction s as [|a s IH]; simpl; [by destruct t|]. by rewrite IH.
Qed.

Lemma append_assoc_ s t u : (s +:+ t) +:+ u = s +:+ t +:+ u.
Proof. induction s as [|a s IH]; [done|]. exact (f_equal (String a) IH). Qed.

Lemma wildcard_front p : substring 0 (String.length (p +:+ ":*") - 1) (p +:+ ":*") = p +:+ ":".
Proof.
  assert (E : p +:+ ":*" = (p +:+ ":") +:+ "*") by by rewrite append_assoc_.
  rewrite E. apply substring_front. rewrite !length_append. simpl. lia.
Qed.

(** The check decides what a scope stands for. *)
Lemma scope_matches_spec g r : scope_matches g r = true <-> covers g r.
Proof.
  unfold scope_matches. split.
  - intros Hm. repeat (apply orb_true_iff in Hm as [Hm|Hm]).
    + apply str_eqb_true in Hm as ->. constructor.
    + apply str_eqb_true in Hm as ->. constructor.
    + apply str_eqb_true in Hm as ->. constructor.
    + apply andb_true_iff in Hm as [Hs Hp]. apply has_suffix_spec in Hs as [p ->].
      rewrite wildcard_front in Hp. apply has_prefix_spec in Hp as [s ->].
      rewrite append_assoc_. constructor.
    + apply andb_true_iff in Hm as [Hp Hm]. apply has_prefix_spec in Hp as [s ->].
      apply orb_true_iff in Hm as [Hm|Hm]; apply andb_true_iff in Hm as [Hg Hs];
        apply str_eqb_true in Hg as ->; apply has_suffix_spec in Hs as [t Hs]; rewrite Hs;
        by econstructor.
  - intros Hc. destruct Hc as [s|s|s|p s|s t Ht|s t Ht].
    + assert (E : str_eqb s s = true) by by apply str_eqb_true. by rewrite E.
    + by rewrite orb_true_r.
    + by rewrite orb_true_r.
    + assert (Hs : Remote.has_suffix (p +:+ ":*") ":*" = true) by (apply has_suffix_spec; by exists p).
      rewrite Hs, wildcard_front. assert (Hp : has_prefix (p +:+ ":" +:+ s) (p +:+ ":") = true).
      { apply has_prefix_spec. exists s. by rewrite append_assoc_. }
      rewrite Hp. by rewrite orb_true_r.
    + assert (Hs : Remote.has_suffix (t +:+ ":read") ":read" = true)
        by (apply has_suffix_spec; by exists t).
      assert (Hp : has_prefix (t +:+ ":read") "product:" = true)
        by (apply has_prefix_spec; by exists s).
      rewrite Hs, Hp. by rewrite orb_true_r.
    + assert (Hs : Remote.has_suffix (t +:+ ":write") ":write" = true)
        by (apply has_suffix_spec; by exists t).
      assert (Hp : has_prefix (t +:+ ":write") "product:" = true)
        by (apply has_prefix_spec; by exists s).
      rewrite Hs, Hp. by rewrite orb_true_r.
Qed.

Lemma scopesAllow_spec granted required : scopesAllow granted required = true <-> covered granted required.
Proof.
  unfold scopesAllow, covered. rewrite forallb_forall. split.
  - intros Ha r Hr. apply list_elem_of_In, Ha, existsb_exists in Hr as (g & Hg & Hm).
    exists g. rewrite list_elem_of_In. split; [done|]. by apply scope_matches_spec.
  - intros Hc r Hr. rewrite <- list_elem_of_In in Hr. destruct (Hc r Hr) as (g & Hg & Hm).
    apply existsb_exists. exists g. rewrite <- list_elem_of_In. split; [done|]. by apply scope_matches_spec.
Qed.

Lemma covered_refl l : covered l l.
Proof. intros r Hr. exists r. split; [done|constructor]. Qed.

Lemma covered_perm l l' required : l ≡ₚ l' -> covered l required -> covered l' required.
Proof. intros Hp Hc r Hr. destruct (Hc r Hr) as (g & Hg & Hm). exists g. by rewrite <- Hp. Qed.

Lemma sameStrings_perm l r : sameStrings l r = true -> l ≡ₚ r.
Proof.
  unfold sameStrings. intros E. apply bool_decide_eq_true_1 in E.
  by rewrite <- (stable_sort_perm str_ltb l), <- (stable_sort_perm str_ltb r), E.
Qed.

Lemma sameStrings_refl l : sameStrings l l = true.
Proof. by apply bool_decide_eq_true_2. Qed.

(** ** The peer *)



Section Facts.
Context `{GoRange} `{GoText} `{CapabilityText} `{Capv1} {X : Type}.
Context (cfg : Config X) (registry : Registry X) (token : string).
Context (durable : bool) (prepared : option (PreparedStage X)) (now : X -> Z).
Context (committing : X -> X * commit) (meanwhile : X -> store -> store).
Local Notation St := (store * X)%type.



(** ** Grants *)

(** The generation the metadata claims is that of the permission. *)
Definition same_generation (md : option metadata) (p : PermissionContext) : Prop :=
  exists m, md = Some m /\
    parse_int_strict (trim_space (firstMetadata m CapabilityGenerationMetadata)) =
    Some (AccountGeneration p).

Lemma metadata_sound md p : validatePermissionMetadata md p = None -> same_generation md p.
Proof using Type.
  unfold validatePermissionMetadata. destruct md as [m|]; [|done].
  destruct (parse_int_strict _) as [g|] eqn:Hg; [|done].
  destruct (Z.eqb_spec g (AccountGeneration p)) as [->|]; [|done]. intros _. by exists m.
Qed.

(** An operation that the registry offers and is ready for, an input that fits
    its schema, and a grant that was signed for exactly this request of this
    owner, with scopes that cover the operation. *)
Definition granted (md : option metadata) (capabilityID operationID : string) (kind : OperationType)
    (requestJSON : string) (revision : Z) (child : string) (target : TargetKind)
    (permission : option PermissionContext) (call : option CallContext) (time : Z) : Prop :=
  exists provider operation p c digest claims,
    registry !! trim_space capabilityID = Some provider /\ Readiness (Descriptor provider) = true /\
    Operation_ registry capabilityID operationID = Some operation /\ OperationType_ operation = kind /\
    validateOperationInput operation requestJSON = None /\
    permission = Some p /\ call = Some c /\ same_generation md p /\
    rootRequestDigest (Descriptor provider) operation requestJSON revision = Ok digest /\
    RootRequestDigest p = digest /\
    VerifyProductDelegationGrant (CapabilityGrant p) (GrantPublicKey cfg) time
      (product_binding registry p c (Descriptor provider) operation digest child target) = Ok claims /\
    cl_OwnerID claims = AuthenticatedOwnerId p /\ cl_AccountGeneration claims = AccountGeneration p /\
    cl_Scopes claims ≡ₚ GrantedScopes p /\ covered (cl_Scopes claims) (RequiredScopes operation).

Lemma resolve_sound cap op kind provider operation :
  resolveProvider registry cap op kind = Ok (provider, operation) ->
  registry !! trim_space cap = Some provider /\ Readiness (Descriptor provider) = true /\
  Operation_ registry cap op = Some operation /\
  (kind <> TYPE_UNSPECIFIED -> OperationType_ operation = kind).
Proof using Type.
  unfold resolveProvider. intros Hr. destruct (registry !! trim_space cap) as [q|] eqn:Hq; [|done].
  destruct (Readiness (Descriptor q)) eqn:Hready; [|done]. cbn [negb] in Hr.
  destruct (Operation_ registry cap op) as [o|] eqn:Ho; [|done].
  destruct (bool_decide (kind <> TYPE_UNSPECIFIED) && _) eqn:Hk; [done|].
  injection Hr as <- <-. repeat split; try done. intros Hne.
  apply andb_false_iff in Hk as [Hk|Hk]; go_bool; [done|]. by apply dec_stable.
Qed.












Lemma parent_sound md req operation time p c parent :
  parent_claims cfg md req operation time = Ok (p, c, parent) ->
  x_ParentPermission req = Some p /\ x_CallContext req = Some c /\ same_generation md p /\
  VerifyProductDelegationParent (CapabilityGrant p) (GrantPublicKey cfg) time (root_binding p c)
    = Ok parent /\
  cl_Scopes parent ≡ₚ GrantedScopes p /\ (exists rest, cl_RootCapabilityID parent = "agent." +:+ rest) /\
  covered (cl_Scopes parent) ["agent:product:execute"] /\
  covered (cl_Scopes parent) (RequiredScopes operation).
Proof using Type.
  unfold parent_claims. intros Hp. destruct (x_ParentPermission req) as [q|]; [|done].
  destruct (str_empty _); [done|]. destruct (x_CallContext req) as [d|]; [|done].
  destruct (validatePermissionMetadata md q) eqn:Hmd; [done|]. apply metadata_sound in Hmd.
  destruct (negb _); [done|].
  destruct (VerifyProductDelegationParent _ _ _ _) as [claims|] eqn:Hv; [|done].
  destruct (sameStrings _ _) eqn:Hs; [|done]. apply sameStrings_perm in Hs. cbn [negb] in Hp.
  destruct (negb (has_prefix _ _) || _) eqn:Hd; [done|]. go_bool.
  destruct (scopesAllow _ (RequiredScopes operation)) eqn:Hr; [|done].
  injection Hp as <- <- <-. repeat split; try done.
  - by apply has_prefix_spec.
  - by apply scopesAllow_spec.
  - by apply scopesAllow_spec.
Qed.







Lemma exchange_sound md req time r :
  exchange cfg registry md req time = Ok r ->
  exists provider operation p c parent digest,
    resolveProvider registry (x_CapabilityId req) (x_Operation req) TYPE_UNSPECIFIED =
      Ok (provider, operation) /\
    validateOperationInput operation (request_or_empty (x_RequestJson req)) = None /\
    parent_claims cfg md req operation time = Ok (p, c, parent) /\
    rootRequestDigest (Descriptor provider) operation (request_or_empty (x_RequestJson req))
      (x_ExpectedRevision req) = Ok digest /\
    issue_child cfg registry req p c parent operation digest time = Ok r.
Proof using Type.
  unfold exchange. intros Hx.
  destruct (resolveProvider _ _ _ _) as [[provider operation]|]; [|done].
  destruct (ValidateProductDelegationExchangeRequest _); [done|].
  destruct (validateOperationInput _ _) eqn:Hi; [done|].
  destruct (parent_claims _ _ _ _ _) as [[[p c] parent]|] eqn:Hp; [|done]. cbn in Hx.
  destruct (rootRequestDigest _ _ _ _) as [digest|] eqn:Hd; [|done].
  by exists provider, operation, p, c, parent, digest.
Qed.




(** ** Exchanged grants *)

Lemma issue_child_sound req p c parent operation digest time r :
  issue_child cfg registry req p c parent operation digest time = Ok r ->
  let child := ProductPermission r in
  AuthenticatedOwnerId child = AuthenticatedOwnerId p /\
  AccountGeneration child = AccountGeneration p /\ GrantedScopes child = RequiredScopes operation /\
  RootRequestDigest child = digest /\
  exists claims,
    VerifyProductDelegationGrant (CapabilityGrant child) (GrantPublicKey cfg) time
      (delegation_binding registry req p c operation digest) = Ok claims /\
    cl_RootCapabilityID claims = x_CapabilityId req /\ ExpiresAtUnixMs r = cl_ExpiresAtUnixMs claims.
Proof using Type.
  unfold issue_child. intros Hc.
  destruct (SignProductDelegationFromParent _ _) as [grant|]; [|done].
  destruct (VerifyProductDelegationGrant _ _ _ _) as [claims|] eqn:Hv; [|done].
  destruct (negb _ || _ || _ || _) eqn:Hb; [done|]. go_bool. injection Hc as <-.
  repeat split; try done. exists claims. repeat split; try done. by apply str_eqb_true.
Qed.

(** C11.  An exchange never widens a grant.  A successful exchange changes
    nothing, and the permission it returns is for the owner and account
    generation of the parent permission; its scopes are exactly those of the
    operation of the registry that was asked for, each of them covered by a
    scope of the verified parent grant; its root digest is the protocol's digest
    of this capability, operation and schema, the expected revision and the
    business input of the request (an omitted input is the empty object); and
    its grant verifies, at that time, for exactly that owner, call, child
    operation, capability, operation, target, digest, catalog and schema. *)
Theorem delegation_never_widens md req st st' r :
  ExchangeProductDelegation cfg registry now md (Some req) st = (st', Ok r) ->
  let child := ProductPermission r in
  st' = st /\
  exists provider operation p c parent input claims,
    registry !! trim_space (x_CapabilityId req) = Some provider /\
    Operation_ registry (x_CapabilityId req) (x_Operation req) = Some operation /\
    x_ParentPermission req = Some p /\ x_CallContext req = Some c /\
    VerifyProductDelegationParent (CapabilityGrant p) (GrantPublicKey cfg) (now st.2) (root_binding p c)
      = Ok parent /\ cl_Scopes parent ≡ₚ GrantedScopes p /\
    AuthenticatedOwnerId child = AuthenticatedOwnerId p /\
    AccountGeneration child = AccountGeneration p /\
    GrantedScopes child = RequiredScopes operation /\
    covered (cl_Scopes parent) (GrantedScopes child) /\
    ParseBusinessInput (if decide (x_RequestJson req = "") then "{}" else x_RequestJson req) = Ok input /\
    ComputeRootRequestDigest (ProtocolVersion (Descriptor provider)) (CapabilityId (Descriptor provider))
      (SemanticVersion (Descriptor provider)) (sha_text (InputSchemaJson operation))
      (OperationId operation) (x_ExpectedRevision req) input = Ok (RootRequestDigest child) /\
    VerifyProductDelegationGrant (CapabilityGrant child) (GrantPublicKey cfg) (now st.2)
      {| pb_CallContext := c; pb_RootOperationID := RootOperationId c;
         pb_ChildOperationID := x_ChildOperationId req; pb_OwnerID := AuthenticatedOwnerId child;
         pb_AccountGeneration := AccountGeneration child; pb_RequiredScopes := GrantedScopes child;
         pb_CapabilityID := x_CapabilityId req; pb_Operation := OperationId operation;
         pb_TargetKind := x_TargetKind req; pb_RootRequestDigest := RootRequestDigest child;
         pb_CatalogDigest := catalogDigest registry;
         pb_SchemaDigest := sha_text (InputSchemaJson operation) |} = Ok claims.
Proof using Type.
  unfold ExchangeProductDelegation, acquire, reads, mbind_. intros Hx.
  destruct (acquireMutationSem cfg st.2); [done|]. injection Hx as <- Hx. split; [done|].
  apply exchange_sound in Hx as (provider & operation & p & c & parent & digest & Hr & _ & Hp & Hdig & Hc).
  apply resolve_sound in Hr as (Hq & _ & Ho & _).
  apply parent_sound in Hp as (Hp & Hcall & _ & Hv & Hperm & _ & _ & Hcov).
  apply issue_child_sound in Hc as (Ho' & Hg & Hs & Hd & claims & Hvc & _).
  unfold rootRequestDigest in Hdig. destruct (ParseBusinessInput _) as [input|] eqn:Hin in Hdig; [|done].
  exists provider, operation, p, c, parent, input, claims. rewrite Hd, Hs, Ho', Hg.
  repeat split; try done. rewrite <- Hin. f_equal. unfold request_or_empty, str_empty.
  by destruct (decide _); [rewrite bool_decide_eq_true_2|rewrite bool_decide_eq_false_2].
Qed.

(** [New] refuses a key of another size; [Register] files a provider under the
    id of its descriptor. *)
Definition well_configured : Prop :=
  byte_len (GrantPublicKey cfg) = ed25519_PublicKeySize /\
  map_Forall (fun id p => CapabilityId (Descriptor p) = id) registry.

(** The query that an exchange was made for. *)
Definition exchanged_query (req : ExchangeRequest) (child : PermissionContext) : QueryRequest :=
  {| q_CapabilityId := x_CapabilityId req; q_OperationId := x_Operation req;
     q_RequestJson := x_RequestJson req; q_Permission := Some child;
     q_CallContext := x_CallContext req |}.

Lemma sameStrings_of_perm l r : l ≡ₚ r -> sameStrings l r = true.
Proof using Type.
  intros Hp. apply bool_decide_eq_true_2.
  assert (Hsort : forall k, StronglySorted (not_after str_ltb) (stable_sort str_ltb k)).
  { intros k. apply stable_sort_sorted; [apply str_ltb_asym|].
    unfold not_after. intros a b d Hab Hbd. destruct (str_ltb d a) eqn:E; [|done]. exfalso.
    destruct (str_ltb b d) eqn:E2.
    - by rewrite (str_ltb_trans b d a E2 E) in Hab.
    - rewrite (str_ltb_total b d E2 Hbd) in Hab. congruence. }
  apply (StronglySorted_unique_strong (not_after str_ltb)); auto.
  - intros a b _ _ Hab Hba. by apply str_ltb_total.
  - by rewrite !stable_sort_perm.
Qed.

Lemma metadata_complete md p : same_generation md p -> validatePermissionMetadata md p = None.
Proof using Type.
  intros (m & -> & Hg). unfold validatePermissionMetadata. rewrite Hg. by rewrite Z.eqb_refl.
Qed.

Lemma parent_owner md req operation time p c parent :
  parent_claims cfg md req operation time = Ok (p, c, parent) ->
  str_empty (trim_space (AuthenticatedOwnerId p)) = false.
Proof using Type.
  unfold parent_claims. intros Hp. destruct (x_ParentPermission req) as [q|]; [|done].
  destruct (str_empty _) eqn:He; [done|]. destruct (x_CallContext req); [|done].
  repeat (case_match; try done). by injection Hp as <- _ _.
Qed.

Lemma root_permission_complete md p c d o json revision child target time digest claims :
  byte_len (GrantPublicKey cfg) = ed25519_PublicKeySize ->
  str_empty (trim_space (AuthenticatedOwnerId p)) = false -> CapabilityGrant p <> "" ->
  trim_space (RootOperationId c) <> "" -> same_generation md p ->
  rootRequestDigest d o json revision = Ok digest -> RootRequestDigest p = digest ->
  byte_len digest = sha256_Size ->
  VerifyProductDelegationGrant (CapabilityGrant p) (GrantPublicKey cfg) time
    (product_binding registry p c d o digest child target) = Ok claims ->
  cl_OwnerID claims = AuthenticatedOwnerId p -> cl_AccountGeneration claims = AccountGeneration p ->
  cl_Scopes claims ≡ₚ GrantedScopes p ->
  validateRootPermission cfg registry md (Some p) (Some c) d o json revision child target time = Ok p.
Proof using Type.
  intros Hkey Howner Hgrant Hroot Hgen Hd Hdig Hsize Hv Ho Hg Hs.
  unfold validateRootPermission, grant_present. rewrite Howner, Hkey, Z.eqb_refl. cbn [negb orb].
  unfold str_empty. rewrite !bool_decide_eq_false_2 by done. cbn.
  rewrite (metadata_complete _ _ Hgen), Hd, Hdig, Hsize, Z.eqb_refl. unfold str_eqb.
  rewrite bool_decide_eq_true_2 by done. cbn [negb orb]. rewrite Hv.
  rewrite bool_decide_eq_true_2, Hg, Z.eqb_refl by done. cbn [negb orb].
  by rewrite (sameStrings_of_perm _ _ Hs).
Qed.

(** What the query demands of an issued permission beyond what the exchange has
    checked: a digest of the size of SHA-256, a grant, and claims of it that
    name the owner, the generation and the scopes of the permission. *)
Definition fits (child : PermissionContext) (claims : Claims) : Prop :=
  CapabilityGrant child <> "" /\ byte_len (RootRequestDigest child) = 32 /\
  cl_OwnerID claims = AuthenticatedOwnerId child /\
  cl_AccountGeneration claims = AccountGeneration child /\ cl_Scopes claims ≡ₚ GrantedScopes child.

Lemma root_permission_unfit md p c d o json revision child target time digest claims :
  byte_len (GrantPublicKey cfg) = ed25519_PublicKeySize ->
  str_empty (trim_space (AuthenticatedOwnerId p)) = false ->
  trim_space (RootOperationId c) <> "" -> same_generation md p ->
  rootRequestDigest d o json revision = Ok digest -> RootRequestDigest p = digest ->
  VerifyProductDelegationGrant (CapabilityGrant p) (GrantPublicKey cfg) time
    (product_binding registry p c d o digest child target) = Ok claims ->
  ~ fits p claims ->
  exists text, validateRootPermission cfg registry md (Some p) (Some c) d o json revision child target time =
    Err (capabilityError TRUST_FAILED text).
Proof using Type.
  intros Hkey Howner Hroot Hgen Hd Hdig Hv Hunfit.
  unfold validateRootPermission, grant_present. rewrite Howner, Hkey, Z.eqb_refl. cbn [negb orb].
  destruct (str_empty (CapabilityGrant p)) eqn:Hgrant; [by eexists|].
  unfold str_empty at 1. rewrite bool_decide_eq_false_2 by done. cbn.
  rewrite (metadata_complete _ _ Hgen), Hd.
  destruct (negb (byte_len _ =? _) || _) eqn:Hsize; [by eexists|]. rewrite Hv.
  destruct (negb (str_eqb (cl_OwnerID claims) _) || _) eqn:Hclaims; [by eexists|].
  destruct (sameStrings _ _) eqn:Hs; [|by eexists]. exfalso. apply Hunfit. go_bool.
  repeat split; try done.
  - intros He. rewrite He in Hgrant. by vm_compute in Hgrant.
  - by apply str_eqb_true.
  - by apply sameStrings_perm.
Qed.

(** C12.  An exchanged grant is good for the query it was issued for.  Take a
    server with a public key of the right size whose providers are filed under
    their ids, and a successful exchange of a query: target [QUERY], a reading
    operation, no child operation, expected revision 0, a call with a root
    operation, and the id of the capability without surrounding blanks.  Then
    the query with the same capability, operation, input and call and the
    permission that the exchange returned, made at that time with the same
    metadata, passes every check but those of [fits] on the claims of the
    verified grant: when they hold it is admitted (its handler runs, whenever
    the input can be put in its envelope), and otherwise refused as untrusted. *)
Theorem exchanged_grant_is_accepted md req st r :
  well_configured ->
  trim_space (x_CapabilityId req) = x_CapabilityId req ->
  x_TargetKind req = QUERY -> x_ChildOperationId req = "" -> x_ExpectedRevision req = 0 ->
  (exists c, x_CallContext req = Some c /\ trim_space (RootOperationId c) <> "") ->
  (exists o, Operation_ registry (x_CapabilityId req) (x_Operation req) = Some o /\ OperationType_ o = READ) ->
  ExchangeProductDelegation cfg registry now md (Some req) st = (st, Ok r) ->
  let admission := admit_query cfg registry md (exchanged_query req (ProductPermission r)) (now st.2) in
  exists provider operation c claims,
    registry !! x_CapabilityId req = Some provider /\
    Operation_ registry (x_CapabilityId req) (x_Operation req) = Some operation /\
    x_CallContext req = Some c /\
    VerifyProductDelegationGrant (CapabilityGrant (ProductPermission r)) (GrantPublicKey cfg) (now st.2)
      (product_binding registry (ProductPermission r) c (Descriptor provider) operation
         (RootRequestDigest (ProductPermission r)) "" QUERY) = Ok claims /\
    (fits (ProductPermission r) claims ->
       admission = match wrap_input (OperationId operation) (request_or_empty (x_RequestJson req)) with
                   | Ok wrapped => Ok (provider, wrapped)
                   | Err e => Err (capabilityError INVALID_ARGUMENT (error_text e))
                   end) /\
    (~ fits (ProductPermission r) claims ->
       exists text, admission = Err (capabilityError TRUST_FAILED text)).
Proof using Type.
  intros [Hkey Hreg] Htrim Htarget Hchild Hrev (c & Hc & Hroot) (o & Ho & Hread) Hx.
  unfold ExchangeProductDelegation, acquire, reads, mbind_ in Hx.
  destruct (acquireMutationSem cfg st.2); [done|]. injection Hx as Hx.
  apply exchange_sound in Hx as (provider & operation & p & c' & parent & digest & Hr & Hi & Hp & Hd & Hchk).
  pose proof (resolve_sound _ _ _ _ _ Hr) as (Hq & Hready & Ho' & _).
  assert (operation = o) as -> by congruence.
  assert (Hpar := Hp). apply parent_sound in Hpar as (Hpp & Hcc & Hgen & _).
  assert (c' = c) as -> by congruence.
  apply issue_child_sound in Hchk as (How & Hge & Hsc & Hdig & claims & Hv & _).
  rewrite Htrim in Hq.
  assert (Hid : CapabilityId (Descriptor provider) = x_CapabilityId req) by by apply (Hreg _ _ Hq).
  set (child := ProductPermission r) in *.
  assert (Hbind : VerifyProductDelegationGrant (CapabilityGrant child) (GrantPublicKey cfg) (now st.2)
    (product_binding registry child c (Descriptor provider) o digest "" QUERY) = Ok claims).
  { unfold product_binding. rewrite How, Hge, Hsc, Hid, <- Htarget, <- Hchild. exact Hv. }
  assert (Howner : str_empty (trim_space (AuthenticatedOwnerId child)) = false)
    by (rewrite How; by eapply parent_owner).
  assert (Hgen' : same_generation md child) by (destruct Hgen as (m & -> & Hm); exists m; by rewrite Hge).
  exists provider, o, c, claims. do 3 (split; [done|]). split; [by rewrite Hdig|].
  assert (Hquery : forall v, validateRootPermission cfg registry md (Some child) (x_CallContext req)
    (Descriptor provider) o (request_or_empty (x_RequestJson req)) 0 "" QUERY (now st.2) = v ->
    admit_query cfg registry md (exchanged_query req child) (now st.2) =
      let? p := v in
      if negb (scopesAllow (GrantedScopes p) (RequiredScopes o))
      then Err (capabilityError PERMISSION_DENIED "required capability scope is missing")
      else match wrap_input (OperationId o) (request_or_empty (x_RequestJson req)) with
           | Err e => Err (capabilityError INVALID_ARGUMENT (error_text e))
           | Ok wrapped => Ok (provider, wrapped)
           end).
  { intros v <-. unfold admit_query, exchanged_query, resolveProvider.
    cbn [q_CapabilityId q_OperationId q_RequestJson q_Permission q_CallContext].
    rewrite Htrim, Hq, Hready, Ho. cbn [negb].
    rewrite (bool_decide_eq_false_2 (OperationType_ o <> READ)) by (rewrite Hread; tauto).
    rewrite andb_false_r. cbn. by rewrite Hi. }
  rewrite Hrev in Hd. split.
  - intros (Hgrant & Hsize & Hco & Hcg & Hcs). rewrite (Hquery (Ok child)).
    + cbn. rewrite Hsc. by rewrite (proj2 (scopesAllow_spec _ _) (covered_refl _)).
    + rewrite Hc. eapply root_permission_complete; try done. by rewrite <- Hdig.
  - intros Hunfit. destruct (root_permission_unfit md child c (Descriptor provider) o _ 0 "" QUERY
      (now st.2) digest claims Hkey Howner Hroot Hgen' Hd Hdig Hbind Hunfit) as [text Hno].
    exists text. rewrite (Hquery (Err (capabilityError TRUST_FAILED text))); [done|by rewrite Hc].
Qed.

(** ** Operations *)

Lemma admit_start_sound md req time a :
  admit_start cfg registry md req time = Ok a ->
  a_operation a = so_Operation req /\ ID (a_record a) = so_OperationId req.
Proof using Type.
  unfold admit_start. intros Ha.
  destruct (resolveProvider _ _ _ _) as [[provider operation]|] eqn:Hr; [|done].
  apply resolve_sound in Hr as (_ & _ & Ho & _).
  repeat (case_match; try done). injection Ha as <-. split; [|done]. cbn.
  unfold Operation_ in Ho. destruct (registry !! _); [|done].
  apply first_match_Some in Ho as [_ Ho]. by apply str_eqb_true.
Qed.

(** C13.  A retry runs nothing.  A start whose operation is in the durable
    ledger already starts no task, leaves the ledger as it is and changes
    nothing but what the commit of a read changes, whatever the request says
    and however it is answered; the exception is a staged Matrix event that a
    restart left uncertain, which is claimed and run. *)
Theorem retries_run_nothing md req st w st' res t :
  so_CapabilityId req <> agentExecutionCompletionCapability ->
  so_CapabilityId req <> groupAgentCapability ->
  rows st.1 !! so_OperationId req = Some w ->
  (isPreparedMatrixMutation (so_CapabilityId req) (so_Operation req) = true ->
   operationStateFromString (row_state w) <> UNCERTAIN) ->
  StartOperation cfg registry true prepared now committing meanwhile md (Some req) st = (st', (res, t)) ->
  t = None /\ st'.1 = st.1 /\ (st'.2 = st.2 \/ st'.2 = (committing st.2).1).
Proof using Type.
  intros Hp1 Hp2 Hw Hun. unfold StartOperation.
  destruct (acquireMutationSem cfg st.2); [intros [= <- <- <-]; auto|].
  apply str_eqb_false in Hp1, Hp2. rewrite Hp1, Hp2.
  destruct (admit_start cfg registry md req (now st.2)) as [a|r] eqn:Ha; [|intros [= <- <- <-]; auto].
  apply admit_start_sound in Ha as [Hop Hid]. unfold start_admitted, start.
  destruct (str_empty _ || _); [intros [= <- <- <-]; auto|].
  destruct st as [s x]. unfold mbind_ at 1, start_durable, transaction, replayed. rewrite Hid.
  cbn [fst] in Hw. rewrite Hw.
  destruct (operationMatches _ _); [|intros [= <- <- <-]; auto].
  assert (Hidle : replay_operation true prepared now committing meanwhile req a (scanOperationRow w) = ret tt).
  { unfold replay_operation. rewrite Hop.
    destruct (isPreparedMatrixMutation _ _); [|done]. cbn.
    by rewrite bool_decide_eq_false_2 by (by apply Hun). }
  destruct (committing x) as [x' c] eqn:Hc. cbn [snd].
  destruct c as [|e|e]; cbn; rewrite ?Hc; [|intros [= <- <- <-]; rewrite ?Hc; auto..].
  rewrite Hidle. unfold startOperationResponse, time_of, reads, mbind_, ret. cbn.
  destruct (issueOperationControlGrants _ _ _ _ _); intros [= <- <- <-]; auto.
Qed.

(** *** Settlement *)

Context (Hcommits : forall x, (committing x).2 = Committed).

Lemma commits {A} (body : store -> X -> tx A) s x s' a :
  body s x = Commit_ s' a -> transaction committing body (s, x) = ((s', (committing x).1), Ok a).
Proof using Hcommits.
  intros Hb. unfold transaction. rewrite Hb. specialize (Hcommits x).
  destruct (committing x) as [x' c]. cbn in Hcommits. by rewrite Hcommits.
Qed.

(** A live row in a new state with its event. *)
Lemma row_settles id f e time s w :
  rows s !! id = Some w -> row_state w ∈ live_states ->
  exists s' event, insertOperationEventTx id e time (update_in live_states f id s) = Ok (s', event) /\
    rows s' !! id = Some (f w) /\ cancels s' = cancels s.
Proof using Type.
  intros Hw Hlive. pose proof (update_in_rows live_states f id s w Hw Hlive) as Hrows.
  destruct (insert_event_total id e time (update_in live_states f id s)) as (s' & event & Hi).
  { rewrite Hrows, lookup_insert_eq. by eexists. }
  exists s', event. split; [done|]. pose proof Hi as Hinv.
  apply insert_event_inv in Hinv as (Hr & _). split; [by rewrite Hr, Hrows, lookup_insert_eq|].
  unfold insertOperationEventTx in Hi. rewrite Hrows, lookup_insert_eq in Hi.
  by injection Hi as <- _.
Qed.

Lemma finish_settles id result_ e s x w :
  rows s !! id = Some w -> row_state w ∈ live_states ->
  result_ = "" \/ ValidJSON result_ = true ->
  exists s' x', finish true prepared now committing id result_ e (s, x) = ((s', x'), Ok tt) /\
    rows s' !! id = Some (update_row (match e with Some _ => "failed" | None => "completed" end)
      (if str_empty result_ then None else Some (jsonb result_))
      (match e with Some e => code_text (ce_Code e) | None => "" end)
      (match e with Some e => ce_Message e | None => "" end) (now x) w).
Proof using Hcommits.
  intros Hw Hlive Hjson. pose proof (live_not_terminal _ Hlive) as Hnt.
  destruct (row_settles id (update_row (match e with Some _ => "failed" | None => "completed" end)
      (if str_empty result_ then None else Some (jsonb result_))
      (match e with Some e => code_text (ce_Code e) | None => "" end)
      (match e with Some e => ce_Message e | None => "" end) (now x)) (terminalEvent result_ e) (now x)
      s w Hw Hlive) as (s' & event & Hi & Hrow & _).
  assert (Htx : finish_tx now id result_ e s x = Commit_ s' (Some event)).
  { unfold finish_tx. rewrite Hw, Hnt.
    assert (Hto : to_jsonb result_ = Ok (if str_empty result_ then None else Some (jsonb result_))).
    { unfold to_jsonb. destruct (str_empty result_) eqn:E; [done|].
      destruct Hjson as [-> | ->]; [discriminate E|done]. }
    rewrite Hto. destruct e; cbn [operationStateString]; by rewrite Hi. }
  unfold finish, mbind_ at 1. rewrite (commits _ _ _ _ _ Htx).
  unfold delete_prepared, cacheEvent, run, mbind_.
  destruct prepared; eexists _, _; (split; [reflexivity|]); exact Hrow.
Qed.

Lemma uncertain_settles id e s x w :
  trim_space id <> "" -> rows s !! id = Some w -> row_state w ∈ live_states ->
  exists s' x', markUncertain true now committing id (Some e) (s, x) = ((s', x'), Ok tt) /\
    rows s' !! id = Some (update_row "uncertain" (row_result w) (code_text (ce_Code e)) (ce_Message e)
      (now x) w).
Proof using Hcommits.
  intros Hid Hw Hlive. pose proof (live_not_terminal _ Hlive) as Hnt.
  destruct (row_settles id (fun w => update_row "uncertain" (row_result w) (code_text (ce_Code e))
    (ce_Message e) (now x) w) (uncertainEvent id (Some e) (now x)) (now x) s w Hw Hlive)
    as (s' & event & Hi & Hrow & _).
  assert (Htx : uncertain_tx now id e s x = Commit_ s' (Some event)).
  { unfold uncertain_tx. rewrite Hw, Hnt. by rewrite Hi. }
  unfold markUncertain, str_empty. rewrite bool_decide_eq_false_2 by done.
  unfold mbind_. change (default unknown_acceptance (Some e)) with e. rewrite (commits _ _ _ _ _ Htx).
  eexists _, _. split; [reflexivity|]. exact Hrow.
Qed.

(** Nothing happens to a settled row, or for a result that is not JSON. *)
Lemma finish_idle id result_ e s x w :
  rows s !! id = Some w ->
  operationStateTerminal (operationStateFromString (row_state w)) = true \/
  result_ <> "" /\ ValidJSON result_ = false ->
  (finish true prepared now committing id result_ e (s, x)).1.1 = s.
Proof using Hcommits.
  intros Hw Hidle. unfold finish, mbind_, transaction, finish_tx. rewrite Hw.
  pose proof (Hcommits x) as Hc. destruct (committing x) as [x' co]. cbn in Hc. subst co.
  destruct (operationStateTerminal _); [done|]. destruct Hidle as [|[Hne Hno]]; [done|].
  unfold to_jsonb, str_empty. by rewrite bool_decide_eq_false_2, Hno by done.
Qed.

Lemma uncertain_idle id e s x w :
  rows s !! id = Some w ->
  operationStateTerminal (operationStateFromString (row_state w)) = true ->
  (markUncertain true now committing id e (s, x)).1.1 = s.
Proof using Hcommits.
  intros Hw Ht. unfold markUncertain. destruct (str_empty _); [done|].
  unfold mbind_, transaction, uncertain_tx. rewrite Hw, Ht.
  pose proof (Hcommits x) as Hc. destruct (committing x) as [x' co]. cbn in Hc. by subst co.
Qed.

(** The answer of the handler of a task, when its input can be put in the
    envelope; and the ledger as others left it by then. *)
Definition reply (t : task X) (x : X) : option (X * result merror string) :=
  match wrap_input (t_operation t) (t_requestJSON t) with
  | Err _ => None
  | Ok wrapped =>
      Some (Handler (t_provider t) (Some {| co_OperationID := ID (t_record t);
               co_OwnerID := OwnerID (t_record t); co_Generation := Generation (t_record t);
               co_RootDigest := RootDigest (t_record t) |}) wrapped x)
  end.

Definition left_by_others (t : task X) (s : store) (x : X) : store :=
  match reply t x with
  | Some (x', _) => meanwhile x' s
  | None => s
  end.

(** The state and the result that a live operation has after its handler; none
    for a result that PostgreSQL does not take as JSON. *)
Definition outcome (t : task X) (x : X) (w : row) : option (string * option string) :=
  match reply t x with
  | None => Some ("failed", None)
  | Some (_, Ok r) =>
      if decide (r = "") then Some ("completed", None)
      else if ValidJSON r then Some ("completed", Some (jsonb r)) else None
  | Some (_, Err (MatrixEventUnknown_ _)) => Some ("uncertain", row_result w)
  | Some (_, Err _) => Some ("failed", None)
  end.

(** A live row gets the state and the result; another one is left alone. *)
Definition advances (state : string) (result_ : option string) (w w' : row) : Prop :=
  if decide (row_state w ∈ live_states)
  then row_state w' = state /\ row_result w' = result_ /\ row_revision w' = row_revision w + 1
  else w' = w.

Lemma dead_terminal w :
  row_state w ∈ known_states -> row_state w ∉ live_states ->
  operationStateTerminal (operationStateFromString (row_state w)) = true.
Proof using Type.
  intros Hknown Hdead. destruct (operationStateTerminal _) eqn:E; [done|].
  by destruct (Hdead (known_live _ Hknown E)).
Qed.

Lemma ignoring_same {A} (m : M St lerror A) (s : store) (x : X) :
  (m (s, x)).1.1 = s -> exists x', ignoring m (s, x) = ((s, x'), Ok tt).
Proof using Type. unfold ignoring. destruct (m (s, x)) as [[s' x'] r]. cbn. intros ->. by exists x'. Qed.

Lemma finish_advances id result_ e s x w :
  rows s !! id = Some w -> row_state w ∈ known_states -> result_ = "" \/ ValidJSON result_ = true ->
  exists s' x' w', ignoring (finish true prepared now committing id result_ e) (s, x) = ((s', x'), Ok tt) /\
    rows s' !! id = Some w' /\
    advances (match e with Some _ => "failed" | None => "completed" end)
      (if str_empty result_ then None else Some (jsonb result_)) w w'.
Proof using Hcommits.
  intros Hw Hknown Hj. unfold advances. destruct (decide (row_state w ∈ live_states)) as [Hlive|Hdead].
  - destruct (finish_settles id result_ e s x w Hw Hlive Hj) as (s1 & x1 & Hf & Hr). unfold ignoring.
    rewrite Hf. eexists _, _, _. split; [reflexivity|]. split; [exact Hr|]. by destruct e.
  - destruct (ignoring_same (finish true prepared now committing id result_ e) s x) as (x' & Hf).
    { eapply finish_idle; [exact Hw|]. left. by apply dead_terminal. }
    by exists s, x', w.
Qed.

Lemma uncertain_advances id e s x w :
  trim_space id <> "" -> rows s !! id = Some w -> row_state w ∈ known_states ->
  exists s' x' w', ignoring (markUncertain true now committing id (Some e)) (s, x) = ((s', x'), Ok tt) /\
    rows s' !! id = Some w' /\ advances "uncertain" (row_result w) w w'.
Proof using Hcommits.
  intros Hid Hw Hknown. unfold advances. destruct (decide (row_state w ∈ live_states)) as [Hlive|Hdead].
  - destruct (uncertain_settles id e s x w Hid Hw Hlive) as (s1 & x1 & Hf & Hr). unfold ignoring.
    rewrite Hf. eexists _, _, _. split; [reflexivity|]. by split; [exact Hr|].
  - destruct (ignoring_same (markUncertain true now committing id (Some e)) s x) as (x' & Hf).
    { eapply uncertain_idle; [exact Hw|]. by apply dead_terminal. }
    by exists s, x', w.
Qed.

(** The task after its operation: the cancel function is gone. *)
Lemma task_ends (t : task X) (m : M St status unit) (s : store) (x : X) (P : row -> Prop) :
  (exists s1 x1 w', m (s, x) = ((s1, x1), Ok tt) /\ rows s1 !! ID (t_record t) = Some w' /\ P w') ->
  exists s' x' w',
    (let! _ := m in ignoring (clearCancel (ID (t_record t)))) (s, x) = ((s', x'), Ok tt) /\
    rows s' !! ID (t_record t) = Some w' /\ ID (t_record t) ∉ cancels s' /\ P w'.
Proof using Type.
  intros (s1 & x1 & w' & Hm & Hrow & HP). unfold mbind_. rewrite Hm.
  eexists _, _, w'. split; [reflexivity|]. split; [exact Hrow|]. split; [|done].
  cbn. rewrite elem_of_difference, elem_of_singleton. intros [_ Hn]. by apply Hn.
Qed.

(** C14.  A started operation settles.  On the durable ledger with commits that
    succeed, a task ends, whatever others did to the ledger while its handler
    ran, and its operation can no longer be interrupted.  When the row they left
    ([w]) is pending, running or uncertain and the result of the handler is
    empty or valid JSON, the row is completed with that result when the handler
    gave one, uncertain when the acceptance of its Matrix event is unknown, and
    failed otherwise, one revision later.  When the row is settled already, by a
    cancellation for instance, or the result is not JSON, the row stays exactly
    as others left it (in the latter case live: the error is dropped).  The id
    of the operation is not blank, and the state of its row is one of the
    table's. *)
Theorem started_operations_settle t s x w :
  rows (left_by_others t s x) !! ID (t_record t) = Some w -> row_state w ∈ known_states ->
  trim_space (ID (t_record t)) <> "" ->
  exists s' x' w',
    run_task true prepared now committing meanwhile t (s, x) = ((s', x'), Ok tt) /\
    rows s' !! ID (t_record t) = Some w' /\ ID (t_record t) ∉ cancels s' /\
    match outcome t x w with
    | Some (state, result_) =>
        if decide (row_state w ∈ live_states)
        then row_state w' = state /\ row_result w' = result_ /\ row_revision w' = row_revision w + 1
        else w' = w
    | None => w' = w
    end.
Proof using Hcommits.
  intros Hw Hknown Hid. apply task_ends.
  unfold left_by_others, outcome, executeOperation, reply in *.
  destruct (wrap_input _ _) as [wrapped|e]; [|by apply finish_advances; [..|left]].
  destruct (Handler _ _ _ _) as [x1 [r|e]]; cbn [fst snd] in *.
  - destruct (decide (r = "")) as [->|Hne]; [by apply finish_advances; [..|left]|].
    destruct (ValidJSON r) eqn:Hj.
    + destruct (finish_advances (ID (t_record t)) r None (meanwhile x1 s) x1 w Hw Hknown (or_intror Hj))
        as (s' & x' & w' & Hf & Hr & Hadv). exists s', x', w'. split; [exact Hf|]. split; [exact Hr|].
      unfold str_empty in Hadv. by rewrite bool_decide_eq_false_2 in Hadv.
    + destruct (ignoring_same (finish true prepared now committing (ID (t_record t)) r None)
        (meanwhile x1 s) x1) as (x' & Hf); [by eapply finish_idle; [exact Hw|right]|].
      by exists (meanwhile x1 s), x', w.
  - destruct e; [by apply finish_advances; [..|left]|by apply uncertain_advances|
      by apply finish_advances; [..|left]..].
Qed.
End Facts.

(** ** The theorems on a deployment *)

Module Demo.
#[export] Instance text : GoText := {|
  Marshal := fun _ => Some "{}"; Unmarshal := fun _ => Some (AMap []); ValidJSON := fun _ => true;
  Quote := fun s => s; jsonb := fun s => s |}.

#[export] Instance json : CapabilityText := {|
  decode_use_number := fun s => if str_eqb s "{}" then Some (AMap []) else None;
  is_float64 := fun _ => true; wrap_input := fun o i => Ok (o +:+ i); json_string := fun s => s;
  parse_uuid := Some; reply_json := fun _ => Ok "{}";
  decodeAgentExecutionCompletion := fun _ => Err (ErrOther "unexpected end of JSON input") |}.

Definition grant_text (owner capability operation digest child : string) (scopes : list string)
    (target : TargetKind) : string :=
  "grant " +:+ owner +:+ " " +:+ capability +:+ " " +:+ operation +:+ " " +:+ digest +:+ " " +:+ child +:+
  " " +:+ String.concat "," scopes +:+ match target with QUERY => " query" | START_OPERATION => " start" end.

Definition bound_text (b : ProductGrantBinding) : string :=
  grant_text (pb_OwnerID b) (pb_CapabilityID b) (pb_Operation b) (pb_RootRequestDigest b)
    (pb_ChildOperationID b) (pb_RequiredScopes b) (pb_TargetKind b).

Definition bound_claims (b : ProductGrantBinding) : Claims :=
  {| cl_OwnerID := pb_OwnerID b; cl_AccountGeneration := pb_AccountGeneration b;
     cl_Scopes := pb_RequiredScopes b; cl_RootCapabilityID := pb_CapabilityID b;
     cl_RootOperation := pb_Operation b; cl_CatalogDigest := pb_CatalogDigest b;
     cl_SchemaDigest := pb_SchemaDigest b; cl_ExpiresAtUnixMs := 100 |}.

Definition bad {A} : result goerror A := Err (ErrOther "grant verification failed").

Definition digest_text (capability operation : string) : string :=
  let t := capability +:+ "/" +:+ operation in
  if byte_len t =? sha256_Size then t else "0123456789abcdef0123456789abcdef".

Definition control_text (owner operation action : string) : string :=
  "control " +:+ owner +:+ " " +:+ operation +:+ " " +:+ action.

#[export] Instance library : Capv1 := {|
  NodeMessage := "ms"; NodeAgent := "agent"; NodeProduct := "product"; RouteSeparator := ">";
  route_parts := fun r => if has_prefix r "agent" then ["agent"; "product"] else [r];
  CapabilityAuthorizationMetadata := "authorization"; CapabilityInstanceMetadata := "instance";
  CapabilityGenerationMetadata := "generation";
  ParseCapabilityMetadata := fun md =>
    Ok {| cm_Token := firstMetadata md "authorization"; cm_InstanceID := firstMetadata md "instance";
          cm_AccountGeneration := default 0 (parse_int_strict (firstMetadata md "generation")) |};
  FormatCapabilityToken := fun _ => None;
  ValidateOperationID := fun s => if str_empty s then Some (ErrOther "empty") else None;
  CanonicalizeJSON := fun s => Ok s; ParseBusinessInput := fun s => Ok (AString s);
  ComputeRootRequestDigest := fun _ c _ _ o _ _ => Ok (digest_text c o);
  ComputeRequestDigest := fun _ c _ _ o _ _ _ => Ok (digest_text c o);
  marshal_descriptor := fun d => Some (CapabilityId d);
  ValidateProductDelegationExchangeRequest := fun _ => None;
  VerifyProductDelegationGrant := fun g _ _ b => if str_eqb g (bound_text b) then Ok (bound_claims b) else bad;
  VerifyProductDelegationParent := fun g _ _ b =>
    if str_eqb g "parent"
    then Ok {| cl_OwnerID := rb_OwnerID b; cl_AccountGeneration := rb_AccountGeneration b;
               cl_Scopes := rb_RequiredScopes b; cl_RootCapabilityID := "agent.chat.v1";
               cl_RootOperation := "ask"; cl_CatalogDigest := ""; cl_SchemaDigest := "";
               cl_ExpiresAtUnixMs := 200 |} else bad;
  SignProductDelegationFromParent := fun i _ =>
    Ok (grant_text (cl_OwnerID (di_ParentClaims i)) (di_CapabilityID i) (di_Operation i)
          (di_RootRequestDigest i) (di_ChildOperationID i) (di_RequiredScopes i) (di_TargetKind i));
  VerifyProductOperationControlGrant := fun g _ _ b =>
    if str_eqb g (control_text (cb_OwnerID b) (cb_OperationID b) (cb_ControlAction b))
    then Ok {| cl_OwnerID := cb_OwnerID b; cl_AccountGeneration := cb_AccountGeneration b;
               cl_Scopes := [cb_ControlScope b]; cl_RootCapabilityID := ""; cl_RootOperation := "";
               cl_CatalogDigest := ""; cl_SchemaDigest := ""; cl_ExpiresAtUnixMs := 100 |} else bad;
  SignOperationControlGrant := fun g _ =>
    Ok (control_text (cg_OwnerID g) (cg_OperationID g) (cg_ControlAction g));
  ValidateOperationControlGrantEnvelopes := fun _ _ => None;
  ValidateCallContext := fun _ => None;
  ValidateAndAdvanceProductCallContext := fun c => Ok c |}.

(** The calls of handlers. *)
Definition world : Type := list string.

Definition key : string := "0123456789abcdef0123456789abcdef".

Definition cfg : Config world :=
  {| GrantPublicKey := key; GrantPrivateKey := "private"; ServiceOwnerID := "@me:h";
     ExpectedAccountGeneration := 1; PeerCommonName := ""; PeerInstanceID := "agent-1";
     InstanceID := ""; RecordAgentExecutionCompletion := None; InvokeGroupAgentCapability := None;
     acquireReadSem := fun _ => None; acquireMutationSem := fun _ => None |}.

Definition operation (id : string) (kind : OperationType) (scope : string) : OperationDescriptor :=
  {| OperationId := id; OperationType_ := kind; RequiredScopes := [scope]; InputSchemaJson := "{}";
     MaxRequestSizeBytes := 0 |}.

Definition provider (id : string) (o : OperationDescriptor) : Provider world :=
  {| Descriptor := {| CapabilityId := id; ProtocolVersion := 1; SemanticVersion := "1.0.0";
                      Readiness := true; ReadinessReason := ""; Operations := [o] |};
     Handler := fun _ input x => (input :: x, Ok "{}") |}.

Definition registry : Registry world :=
  {["product.contacts.v1" := provider "product.contacts.v1" (operation "list" READ "product:contacts:read");
    "product.rooms.v1" := provider "product.rooms.v1" (operation "mute" MUTATION "product:rooms:write")]}.

Definition call : CallContext :=
  {| ChainId := "chain"; RootOperationId := "root"; Route := "agent>product"; Hop := 2;
     ParentCallId := ""; DeadlineUnixMs := 1000 |}.

Definition parent : PermissionContext :=
  {| AuthenticatedOwnerId := "@me:h"; GrantedScopes := ["agent:product:execute"; "agent:read"];
     CapabilityGrant := "parent"; AccountGeneration := 1; RootRequestDigest := key |}.

Definition md : metadata :=
  {["authorization" := ["token"]; "instance" := ["agent-1"]; "generation" := ["1"]]}.


Definition wish : ExchangeRequest :=
  {| x_CapabilityId := "product.contacts.v1"; x_Operation := "list"; x_RequestJson := "";
     x_ExpectedRevision := 0; x_ParentPermission := Some parent; x_CallContext := Some call;
     x_ChildOperationId := ""; x_TargetKind := QUERY |}.

Definition now (x : world) : Z := 7.
Definition committing (x : world) : world * commit := (x, Committed).
Definition meanwhile (x : world) (s : store) : store := s.

Definition empty : store * world := (newOperationStore ∅ ∅, []).

Definition child : PermissionContext :=
  {| AuthenticatedOwnerId := "@me:h"; GrantedScopes := ["product:contacts:read"];
     CapabilityGrant := grant_text "@me:h" "product.contacts.v1" "list" key "" ["product:contacts:read"] QUERY;
     AccountGeneration := 1; RootRequestDigest := key |}.

Definition muting : StartOperationRequest :=
  {| so_CapabilityId := "product.rooms.v1"; so_Operation := "mute"; so_OperationId := "op";
     so_RequestJson := ""; so_RequestDigest := ""; so_ExpectedRevision := 0;
     so_Permission := Some {| AuthenticatedOwnerId := "@me:h"; GrantedScopes := ["product:rooms:write"];
       CapabilityGrant := grant_text "@me:h" "product.rooms.v1" "mute" key "op" ["product:rooms:write"]
                            START_OPERATION; AccountGeneration := 1; RootRequestDigest := key |};
     so_CallContext := Some call |}.

Definition start_ (st : store * world) :=
  StartOperation cfg registry true None now committing meanwhile (Some md) (Some muting) st.
End Demo.
#[local] Existing Instance Demo.text.
#[local] Existing Instance Demo.json.
#[local] Existing Instance Demo.library.

Lemma delegation_never_widens_witness :
  exists r, ExchangeProductDelegation Demo.cfg Demo.registry Demo.now (Some Demo.md) (Some Demo.wish)
      Demo.empty = (Demo.empty, Ok r) /\
    covered (GrantedScopes Demo.parent) (GrantedScopes (ProductPermission r)).
Proof.
  destruct (ExchangeProductDelegation Demo.cfg Demo.registry Demo.now (Some Demo.md) (Some Demo.wish)
    Demo.empty) as [st [r|e]] eqn:Hx; [|by vm_compute in Hx].
  destruct (delegation_never_widens _ _ _ _ _ _ _ _ Hx) as
    [-> (pr & o & p & c & par & input & claims & _ & _ & Hp & _ & _ & Hperm & _ & _ & _ & Hcov & _)].
  exists r. split; [reflexivity|]. injection Hp as <-. exact (covered_perm _ _ _ Hperm Hcov).
Defined.

Lemma exchanged_grant_is_accepted_witness :
  exists provider wrapped,
    admit_query Demo.cfg Demo.registry (Some Demo.md) (exchanged_query Demo.wish Demo.child) 7 =
      Ok (provider, wrapped) /\ wrapped = "list{}".
Proof.
  destruct (exchanged_grant_is_accepted Demo.cfg Demo.registry Demo.now (Some Demo.md) Demo.wish Demo.empty
    {| ProductPermission := Demo.child; ExpiresAtUnixMs := 100 |})
    as (provider & operation & c & claims & Hp & Ho & Hc & Hv & Ha & _).
  - split; [reflexivity|]. apply map_Forall_insert_2; [reflexivity|]. apply map_Forall_singleton. reflexivity.
  - reflexivity.
  - reflexivity.
  - reflexivity.
  - reflexivity.
  - by exists Demo.call.
  - by eexists.
  - vm_compute. reflexivity.
  - vm_compute in Hp, Ho, Hc. injection Hp as <-. injection Ho as <-. injection Hc as <-.
    vm_compute in Hv. injection Hv as <-. eexists _, _. split; [apply Ha|reflexivity].
    split; [discriminate|]. by repeat split.
Defined.


Lemma retries_run_nothing_witness :
  exists s t res,
    Demo.start_ Demo.empty = ((s, []), (res, Some t)) /\ (Demo.start_ (s, [])).2.2 = None /\
    (Demo.start_ (s, [])).1.1 = s.
Proof.
  destruct (Demo.start_ Demo.empty) as [[s x] [res t]] eqn:Hrun.
  assert (Hw : exists w, rows s !! "op" = Some w /\ x = [] /\ is_Some t).
  { vm_compute in Hrun. injection Hrun as <- <- _ <-. eexists. split; [vm_compute; reflexivity|]. done. }
  destruct Hw as (w & Hw & -> & [t0 ->]). exists s, t0, res. split; [done|].
  destruct (Demo.start_ (s, [])) as [st' [res' t']] eqn:Hagain. unfold Demo.start_ in Hagain.
  destruct (retries_run_nothing _ _ _ _ _ _ _ Demo.muting (s, []) w _ _ _ ltac:(discriminate) ltac:(discriminate)
    Hw ltac:(discriminate) Hagain) as (-> & Hs & _). by split.
Defined.

(** The operation is cancelled while its handler runs. *)
Definition cancelling (x : Demo.world) (s : store) : store :=
  (cancel true None Demo.now Demo.committing "op" (s, x)).1.1.

Lemma started_operations_settle_witness :
  exists s t res s' x' w' s'' x'' w'',
    Demo.start_ Demo.empty = ((s, []), (res, Some t)) /\
    (run_task true None Demo.now Demo.committing Demo.meanwhile t (s, []) = ((s', x'), Ok tt) /\
     rows s' !! "op" = Some w' /\ row_state w' = "completed" /\ row_result w' = Some "{}") /\
    run_task true None Demo.now Demo.committing cancelling t (s, []) = ((s'', x''), Ok tt) /\
    rows s'' !! "op" = Some w'' /\ row_state w'' = "cancelled".
Proof.
  destruct (Demo.start_ Demo.empty) as [[s x] [res t]] eqn:Hrun.
  assert (Hw : exists t0, t = Some t0 /\ x = [] /\ ID (t_record t0) = "op" /\
    reply t0 [] = Some (["mute{}"], Ok "{}") /\
    (exists w, rows s !! "op" = Some w /\ row_state w = "pending") /\
    (exists w, rows (cancelling ["mute{}"] s) !! "op" = Some w /\ row_state w = "cancelled")).
  { vm_compute in Hrun. injection Hrun as <- <- _ <-. eexists. split; [reflexivity|]. split; [reflexivity|].
    split; [reflexivity|]. split; [vm_compute; reflexivity|].
    split; eexists; (split; [vm_compute; reflexivity|]); reflexivity. }
  destruct Hw as (t0 & -> & -> & Hid & Hreply & (w & Hw & Hpend) & (w2 & Hw2 & Hcan)).
  destruct (started_operations_settle None Demo.now Demo.committing Demo.meanwhile ltac:(reflexivity) t0 s [] w)
    as (s1 & x1 & w1 & Hr1 & Hrow1 & _ & Ho1);
    [unfold left_by_others; by rewrite Hreply, Hid|rewrite Hpend; vm_compute; left|by rewrite Hid|].
  destruct (started_operations_settle None Demo.now Demo.committing cancelling ltac:(reflexivity) t0 s [] w2)
    as (s3 & x3 & w3 & Hr3 & Hrow3 & _ & Ho3);
    [unfold left_by_others; by rewrite Hreply, Hid|rewrite Hcan; by do 5 right; left|by rewrite Hid|].
  exists s, t0, res, s1, x1, w1, s3, x3, w3. split; [done|]. rewrite Hid in Hrow1, Hrow3.
  unfold outcome in Ho1, Ho3. rewrite Hreply in Ho1, Ho3. cbn [Demo.text ValidJSON] in Ho1, Ho3.
  rewrite (decide_False (P := "{}" = "")) in Ho1, Ho3 by discriminate.
  rewrite decide_True in Ho1 by (rewrite Hpend; vm_compute; left). destruct Ho1 as (Hs1 & Hres1 & _).
  rewrite decide_False in Ho3.
  - subst w3. split; [|split; [exact Hr3|split; [exact Hrow3|exact Hcan]]].
    split; [exact Hr1|]. split; [exact Hrow1|]. split; [exact Hs1|exact Hres1].
  - rewrite Hcan. unfold live_states. by rewrite !elem_of_cons, elem_of_nil; intros [|[|[|[]]]].
Defined.
End CapabilityFacts.
