(* ===== verification/SocialFacts.v ===== *)
(** * Facts about favourites and read markers

    Adding a favourite never costs another one, and a read marker only
    advances. *)

From Stdlib Require Import Ascii String ZArith Lia.
From stdpp Require Import base tactics list gmap strings.
From S2P Require Import Prelude GoStrings GoCase Values Domain GoTime Policy PolicyFacts Action MemoryTables Workflow.
From S2P Require Import Social.
Local Open Scope Z_scope.
Local Open Scope go_scope.

Module SocialFacts.
Import Social.

(** ** Favourites *)

Section Favorites.
Context `{GoRange}.
Local Notation St := (state T.tables).
Local Notation stored st := (T.favorites (store st)).

(** Favourites are filed under their id, and no id is above the last one given
    once the stored ids were looked at. *)
Definition ids_ok (st : St) : Prop :=
  (forall id f, stored st !! id = Some f -> Favorite.ID f = id) /\
  (favoriteIDsSet st = true -> forall id f, stored st !! id = Some f -> id <= lastFavoriteID st).

(** Ids are still below the end of [int64]. *)
Definition ids_in_range (st : St) : Prop :=
  int64_min <= lastFavoriteID st < int64_max /\ forall id f, stored st !! id = Some f -> id < int64_max.

Lemma max_id_spec l : forall id,
  id <= max_id id l /\ (forall f, f ∈ l -> Favorite.ID f <= max_id id l) /\
  (forall b, id < b -> (forall f, f ∈ l -> Favorite.ID f < b) -> max_id id l < b).
Proof using Type.
  induction l as [|f l IH]; intros id.
  - split; [cbn; lia|]. split; [intros f Hf; by apply elem_of_nil in Hf|]. by intros b Hb _.
  - cbn [max_id fold_left]. fold (max_id (if id <? Favorite.ID f then Favorite.ID f else id) l).
    destruct (IH (if id <? Favorite.ID f then Favorite.ID f else id)) as (H1 & H2 & H3).
    split; [|split].
    + destruct (Z.ltb_spec id (Favorite.ID f)); lia.
    + intros g Hg. apply elem_of_cons in Hg as [->|Hg]; [|by apply H2].
      destruct (Z.ltb_spec id (Favorite.ID f)); lia.
    + intros b Hb Hl. apply H3; [|intros g Hg; apply Hl; by right].
      destruct (Z.ltb_spec id (Favorite.ID f)); [apply Hl; by left|done].
Qed.

Lemma load_ids_spec st :
  ids_ok st -> ids_in_range st ->
  exists last, load_ids st = (remember last true st, Ok tt) /\
    lastFavoriteID st <= last < int64_max /\ forall id f, stored st !! id = Some f -> id <= last.
Proof using Type.
  intros [Hid Hset] [Hlast Hrange]. unfold load_ids. destruct (favoriteIDsSet st) eqn:Hs.
  - exists (lastFavoriteID st). split; [|split; [lia|by apply Hset]].
    unfold remember. destruct st; cbn in *. by subst.
  - cbn. exists (max_id (lastFavoriteID st) (MemoryTables.ListFavorites (store st) "")).
    destruct (max_id_spec (MemoryTables.ListFavorites (store st) "") (lastFavoriteID st)) as (H1 & H2 & H3).
    assert (Hin : forall f, f ∈ MemoryTables.ListFavorites (store st) "" <-> stored st !! Favorite.ID f = Some f).
    { intros f. unfold MemoryTables.ListFavorites. rewrite list_elem_of_In, filter_In, <- list_elem_of_In.
      cbn. rewrite elem_of_go_values. split.
      - intros [[k Hk] _]. by rewrite (Hid _ _ Hk).
      - intros Hk. split; [by eexists|done]. }
    split; [done|]. split; [split; [lia|]|].
    + apply H3; [lia|]. intros f Hf. apply Hin in Hf. by eapply Hrange.
    + intros id f Hf. pose proof (Hid _ _ Hf) as <-. apply H2. by apply Hin.
Qed.

Lemma next_id_spec now st :
  ids_ok st -> ids_in_range st ->
  exists id, nextFavoriteIDLocked now st = (remember id true st, Ok id) /\
    forall k f, stored st !! k = Some f -> k < id.
Proof using Type.
  intros Hok Hr. destruct (load_ids_spec st Hok Hr) as (last & Hl & Hb & Hall).
  unfold nextFavoriteIDLocked, mbind_. rewrite Hl. cbn.
  destruct (Z.leb_spec (unix_milli now) last) as [Hle|Hgt].
  - exists (last + 1). assert (Hw : wrap64 (last + 1) = last + 1).
    { destruct Hr as [Hr _]. unfold wrap64, int64_min, int64_max in *. rewrite Z.mod_small; lia. }
    rewrite Hw. split; [done|]. intros k f Hf. specialize (Hall _ _ Hf). lia.
  - exists (unix_milli now). split; [done|]. intros k f Hf. specialize (Hall _ _ Hf). lia.
Qed.

(** What adding a favourite does: a new id, or that of a favourite of the same
    event. *)
Lemma add_spec now params st :
  ids_ok st -> ids_in_range st ->
  exists st' f, handleFavoritesAdd now params st = (st', Ok f) /\
    stored st' = <[Favorite.ID f := f]> (stored st) /\
    Favorite.EventID f = Params.get_string params "event_id" /\ ids_ok st' /\
    (stored st !! Favorite.ID f = None \/
     exists old, stored st !! Favorite.ID f = Some old /\ Favorite.EventID old = Favorite.EventID f /\
       Favorite.EventID f <> "" /\ Favorite.CreatedAt f = if str_empty (Favorite.CreatedAt old)
                                                         then format_rfc3339nano now else Favorite.CreatedAt old).
Proof using Type.
  intros Hok Hr. unfold handleFavoritesAdd, favorite_identity.
  assert (Hfresh : exists st' f,
    (let! (id, createdAt) := internal (let! id := nextFavoriteIDLocked now in ret (id, format_rfc3339nano now)) in
     let favorite := favorite_of params now id createdAt in
     let! _ := internal (on_store (UpsertFavorite favorite)) in ret favorite) st = (st', Ok f) /\
    stored st' = <[Favorite.ID f := f]> (stored st) /\
    Favorite.EventID f = Params.get_string params "event_id" /\ ids_ok st' /\ stored st !! Favorite.ID f = None).
  { destruct (next_id_spec now st Hok Hr) as (id & Hn & Hnew). destruct Hok as [Hid _].
    unfold mbind_, internal. rewrite Hn. cbn. eexists _, _. split; [reflexivity|]. cbn.
    split; [done|]. split; [done|]. split; [split|].
    - intros k f Hf. cbn in Hf. apply lookup_insert_Some in Hf as [[<- <-]|[_ Hf]]; [done|by apply Hid].
    - intros _ k f Hf. cbn in Hf |- *. apply lookup_insert_Some in Hf as [[<- <-]|[_ Hf]]; [done|].
      specialize (Hnew _ _ Hf). lia.
    - destruct (stored st !! id) as [f|] eqn:Hf; [|done]. specialize (Hnew _ _ Hf). lia. }
  destruct (str_empty (Params.get_string params "event_id")) eqn:He.
  { destruct Hfresh as (st' & f & Hrun & Hs & Hev & Hok' & Hnone). exists st', f.
    split; [exact Hrun|]. repeat split; try done; [apply Hok'|apply Hok'|by left]. }
  unfold mbind_ at 1 2, reads, internal. cbn [FindFavoriteByEvent memory_social_store].
  destruct (MemoryTables.FindFavoriteByEvent (store st) (Params.get_string params "event_id")
    (Params.get_string params "room_id")) as [old|] eqn:Hfind.
  2: { destruct Hfresh as (st' & f & Hrun & Hs & Hev & Hok' & Hnone). exists st', f.
       split; [exact Hrun|]. repeat split; try done; [apply Hok'|apply Hok'|by left]. }
  unfold MemoryTables.FindFavoriteByEvent in Hfind. apply first_match_Some in Hfind as [Hin Hm].
  apply elem_of_go_values in Hin as [k Hk]. destruct Hok as [Hid Hset].
  pose proof (Hid _ _ Hk) as Hkid. rewrite <- Hkid in Hk.
  apply andb_true_iff in Hm as [Hm _]. apply negb_true_iff, orb_false_iff in Hm as [_ Hm].
  apply negb_false_iff, str_eqb_true in Hm.
  unfold mbind_. cbn. eexists _, _. split; [reflexivity|].
  set (st1 := if lastFavoriteID st <? Favorite.ID old then _ else st).
  assert (Hst1 : store st1 = store st) by (unfold st1; by destruct (_ <? _)).
  cbn. rewrite Hst1. cbn. split; [done|]. split; [done|]. split; [split|].
  - intros j f Hf. cbn in Hf. apply lookup_insert_Some in Hf as [[<- <-]|[_ Hf]]; [done|by apply Hid].
  - intros Hs j f Hf. cbn in Hf, Hs |- *. unfold st1 in Hs |- *.
    destruct (Z.ltb_spec (lastFavoriteID st) (Favorite.ID old)) as [Hlt|Hge]; cbn in Hs |- *;
      apply lookup_insert_Some in Hf as [[<- <-]|[_ Hf]]; try lia; specialize (Hset Hs _ _ Hf); lia.
  - right. exists old. split; [done|]. split; [done|]. split; [|done].
    intros Hempty. unfold str_empty in He. by rewrite Hempty in He.
Qed.

Lemma delete_ids_ok id st : ids_ok st -> ids_ok (on_store (DeleteFavorite id) st).1.
Proof using Type.
  intros [Hid Hset]. split; cbn.
  - intros k f Hf. apply lookup_delete_Some in Hf as [_ Hf]. by apply Hid.
  - intros Hs k f Hf. apply lookup_delete_Some in Hf as [_ Hf]. by eapply Hset.
Qed.

(** The states that the actions lead to, from any table of favourites and
    with any clock. *)
Inductive reaches : St -> Prop :=
| reaches_new s : (forall id f, T.favorites s !! id = Some f -> Favorite.ID f = id) ->
    reaches {| store := s; lastFavoriteID := 0; favoriteIDsSet := false |}
| reaches_add now params st : reaches st -> ids_in_range st ->
    reaches (handleFavoritesAdd now params st).1
| reaches_delete params st : reaches st -> reaches (handleFavoritesDelete params st).1
| reaches_batch params st : reaches st -> reaches (handleFavoritesDeleteBatch params st).1.

Lemma reaches_ids_ok st : reaches st -> ids_ok st.
Proof using Type.
  induction 1 as [s Hs|now params st _ IH Hr|params st _ IH|params st _ IH].
  - by split.
  - destruct (add_spec now params st IH Hr) as (st' & f & -> & _ & _ & Hok & _). exact Hok.
  - unfold handleFavoritesDelete. by apply (keeps_internal ids_ok), IH; intros s Hs; apply delete_ids_ok.
  - unfold handleFavoritesDeleteBatch. destruct (_ =? 0)%nat; [done|]. destruct (_ <? _)%nat; [done|].
    apply (keeps_bind ids_ok); [|intros ?; apply keeps_ret|done].
    apply keeps_internal, keeps_for_each. intros id s Hs. by apply delete_ids_ok.
Qed.

(** C38.  Adding a favourite never costs another one.  Whatever was added and
    deleted before, at whatever times (also when the clock stands still or
    goes back, and after a restart with the ids of an earlier process), and
    while ids are below the end of int64, favorites.add succeeds and changes
    the stored favourites only at the id it answers: that id was free, or it is
    the id of a favourite of the same event, whose creation time is kept. *)
Theorem favorites_do_not_collide now params st :
  reaches st -> ids_in_range st ->
  exists st' f, handleFavoritesAdd now params st = (st', Ok f) /\
    stored st' = <[Favorite.ID f := f]> (stored st) /\
    Favorite.EventID f = Params.get_string params "event_id" /\
    (stored st !! Favorite.ID f = None \/
     exists old, stored st !! Favorite.ID f = Some old /\ Favorite.EventID old = Favorite.EventID f /\
       Favorite.EventID f <> "" /\ Favorite.CreatedAt f = if str_empty (Favorite.CreatedAt old)
                                                         then format_rfc3339nano now else Favorite.CreatedAt old).
Proof using Type.
  intros Hst Hr. destruct (add_spec now params st (reaches_ids_ok st Hst) Hr)
    as (st' & f & Hrun & Hs & Hev & _ & Hold). by exists st', f.
Qed.
End Favorites.

(** ** Read markers *)

(** The order of a room: topological position, then stream position. *)
Definition no_later (a b : Z * Z) : Prop := a.1 < b.1 \/ a.1 = b.1 /\ a.2 <= b.2.

Section Markers.
Import ReadMarkers.
Local Notation Resolve := (string -> string -> result goerror (option position)).

(** Where the room server has an event, if it has it at a real position. *)
Definition position_at (resolve : Resolve) (room event : string) : option (Z * Z) :=
  match resolve room event with
  | Ok (Some (topological, stream, _)) =>
      if decide (0 <= topological /\ 0 < stream) then Some (topological, stream) else None
  | _ => None
  end.

Definition stored_position (m : Marker.ReadMarker) : Z * Z :=
  (Marker.TopologicalPosition m, Marker.StreamPosition m).

(** Where a stored marker stands: a marker from before positions were kept
    stands where its event is. *)
Definition stands_at (resolve : Resolve) (m : Marker.ReadMarker) : option (Z * Z) :=
  if decide (0 < Marker.StreamPosition m) then Some (stored_position m)
  else position_at resolve (Marker.RoomID m) (Marker.EventID m).

(** Markers are filed under their rooms, with a position or with the zeros
    the columns were added with. *)
Record sound_mark (room : string) (m : Marker.ReadMarker) : Prop := {
  sk_room : Marker.RoomID m = room;
  sk_position : 0 <= Marker.TopologicalPosition m /\ 0 < Marker.StreamPosition m \/
    stored_position m = (0, 0);
}.
Definition sound_marks (s : T.tables) : Prop :=
  forall room m, T.readMarks s !! room = Some m -> sound_mark room m.

Lemma marker_after_spec a b :
  MemoryTables.readMarkerPositionAfter a b = false <->
  no_later (stored_position a) (stored_position b).
Proof.
  unfold MemoryTables.readMarkerPositionAfter, no_later. cbn.
  rewrite orb_false_iff, andb_false_iff, !Z.ltb_ge, Z.eqb_neq. lia.
Qed.

(** A marker that is put at a position. *)
Lemma position_at_place resolve room event p :
  resolve room event = Ok (Some p) -> usable p = true ->
  position_at resolve room event = Some (stored_position (place room event p)) /\
  sound_mark room (place room event p) /\ 0 < Marker.StreamPosition (place room event p) /\
  Marker.EventID (place room event p) = event.
Proof.
  destruct p as [[t st] ts]. unfold usable, position_at. intros -> Hu.
  apply andb_true_iff in Hu as [Ht%Z.leb_le Hs%Z.ltb_lt]. rewrite decide_True by done.
  repeat split; cbn; auto.
Qed.

Lemma position_at_none resolve room event :
  match resolve room event with Ok (Some p) => usable p = false | _ => True end ->
  position_at resolve room event = None.
Proof.
  unfold position_at. destruct (resolve room event) as [[[[t st] ts]|]|]; try done.
  unfold usable. rewrite andb_false_iff, Z.leb_gt, Z.ltb_ge. intros Hu.
  rewrite decide_False by lia. done.
Qed.

(** A save leaves the later of the stored marker and the new one. *)
Lemma save_later s m :
  sound_marks s -> sound_mark (Marker.RoomID m) m ->
  let s' := MemoryTables.SaveReadMarker s m in
  sound_marks s' /\
  (forall room, room <> Marker.RoomID m -> T.readMarks s' !! room = T.readMarks s !! room) /\
  exists m', T.readMarks s' !! Marker.RoomID m = Some m' /\
    (m' = m \/ T.readMarks s !! Marker.RoomID m = Some m') /\
    no_later (stored_position m) (stored_position m') /\
    forall c, T.readMarks s !! Marker.RoomID m = Some c ->
      no_later (stored_position c) (stored_position m').
Proof.
  intros Hs Hm. cbv zeta. unfold MemoryTables.SaveReadMarker.
  assert (Hput : sound_marks (T.set_readMarks (<[Marker.RoomID m := m]> (T.readMarks s)) s)).
  { intros room c. cbn. destruct (decide (Marker.RoomID m = room)) as [<-|Hne].
    - rewrite lookup_insert_eq. by intros [= <-].
    - rewrite lookup_insert_ne by done. apply Hs. }
  assert (Hrefl : forall p, no_later p p) by (intros p; right; lia).
  destruct (T.readMarks s !! Marker.RoomID m) as [d|] eqn:Hd.
  - destruct (MemoryTables.readMarkerPositionAfter m d) eqn:Ha.
    + split; [done|]. split; [intros room Hr; cbn; by rewrite lookup_insert_ne by done|].
      exists m. cbn. rewrite lookup_insert_eq. split_and!; auto. intros c [= <-].
      unfold MemoryTables.readMarkerPositionAfter in Ha.
      rewrite orb_true_iff, andb_true_iff, !Z.ltb_lt, Z.eqb_eq in Ha. unfold no_later. cbn. lia.
    + split; [done|]. split; [done|]. exists d. split_and!; auto.
      * by apply marker_after_spec.
      * intros c [= <-]. auto.
  - split; [done|]. split; [intros room Hr; cbn; by rewrite lookup_insert_ne by done|].
    exists m. cbn. rewrite lookup_insert_eq. split_and!; auto. by intros c.
Qed.

(** The stored marker of the room gets its position first. *)
Lemma upgraded resolve room s :
  sound_marks s ->
  match when_set (MemoryTables.GetReadMarker s room) (upgrade resolve) s with
  | (s1, Ok _) =>
      sound_marks s1 /\
      (forall other, other <> room -> T.readMarks s1 !! other = T.readMarks s !! other) /\
      match T.readMarks s !! room with
      | None => T.readMarks s1 !! room = None
      | Some c => exists c1, T.readMarks s1 !! room = Some c1 /\
          Marker.EventID c1 = Marker.EventID c /\ 0 < Marker.StreamPosition c1 /\
          stands_at resolve c = Some (stored_position c1)
      end
  | (s1, Err _) =>
      s1 = s /\ exists c, T.readMarks s !! room = Some c /\ stands_at resolve c = None
  end.
Proof.
  intros Hs. unfold MemoryTables.GetReadMarker.
  destruct (T.readMarks s !! room) as [c|] eqn:Hc; cbn [when_set]; [|by cbn].
  destruct (Hs _ _ Hc) as [Hroom Hpos]. unfold upgrade.
  destruct (Z.ltb_spec 0 (Marker.StreamPosition c)) as [Hlt|Hge].
  { cbn. split_and!; try done. exists c. unfold stands_at. by rewrite decide_True. }
  assert (Hat : stands_at resolve c = position_at resolve (Marker.RoomID c) (Marker.EventID c)).
  { unfold stands_at. by rewrite decide_False by lia. }
  pose proof (position_at_none resolve (Marker.RoomID c) (Marker.EventID c)) as Hnone.
  pose proof (position_at_place resolve (Marker.RoomID c) (Marker.EventID c)) as Hplace.
  rewrite <- Hat in Hnone, Hplace.
  destruct (resolve _ _) as [[p|]|e]; [|cbn; eauto..].
  destruct (usable p) eqn:Hu; [|cbn; eauto].
  destruct (Hplace p eq_refl Hu) as (Hp & Hmark & Hst & Hev).
  set (m := place _ _ p) in *. cbn.
  assert (Hm : Marker.RoomID m = room) by (by rewrite (sk_room _ _ Hmark)).
  rewrite <- (sk_room _ _ Hmark) in Hmark.
  destruct (save_later s m Hs Hmark) as (Hs' & Hothers & m' & Hm' & Hcase & Hlater & _).
  rewrite Hm in *. split_and!; try done. exists m'. split; [done|].
  destruct Hcase as [->|Hold]; [done|].
  assert (m' = c) as -> by congruence. exfalso.
  destruct Hpos as [?|Hz]; [lia|]. destruct Hmark as [_ [Hk|Hk]].
  - unfold no_later in Hlater. rewrite Hz in Hlater. cbn in Hlater. lia.
  - injection Hk. lia.
Qed.

(** C39.  A read marker only advances, in the order of its room (topological
    position, then stream position), where a marker from before positions
    were kept stands where the room server has its event.  Take stored markers
    filed under their rooms with a position or the zeros of such an older
    marker, which an update keeps.  An update (with nothing else writing the
    room's marker meanwhile) touches no other room.  It fails
    only where the room or the event is missing, no resolver is set, the event
    has no position in the room, or the stored marker has none; then nothing
    changes.  Where it succeeds, the stored marker has a position, is not
    before the event and not before where the previous marker stood, and
    is one of the two. *)
Theorem read_markers_only_advance
    (resolver : option (string -> string -> result goerror (option position))) params s :
  sound_marks s ->
  let room := Params.get_string params "room_id" in
  let event := Params.get_string params "event_id" in
  let '(s', r) := updateReadMarker resolver params s in
  sound_marks s' /\
  (forall other, other <> room -> T.readMarks s' !! other = T.readMarks s !! other) /\
  match r with
  | Err _ => s' = s /\
      (room = "" \/ event = "" \/ forall resolve, resolver = Some resolve ->
         position_at resolve room event = None \/
         exists c, T.readMarks s !! room = Some c /\ stands_at resolve c = None)
  | Ok _ => exists resolve p m,
      resolver = Some resolve /\ position_at resolve room event = Some p /\
      T.readMarks s' !! room = Some m /\ 0 < Marker.StreamPosition m /\
      no_later p (stored_position m) /\
      match T.readMarks s !! room with
      | None => Marker.EventID m = event /\ stored_position m = p
      | Some c => exists q, stands_at resolve c = Some q /\ no_later q (stored_position m) /\
          (Marker.EventID m = event /\ stored_position m = p \/
           Marker.EventID m = Marker.EventID c /\ stored_position m = q)
      end
  end.
Proof.
  intros Hs room event. unfold updateReadMarker. fold room. fold event.
  destruct (str_empty room) eqn:Hr; [apply str_empty_true in Hr; cbn; split_and!; auto|].
  destruct (str_empty event) eqn:He; [apply str_empty_true in He; cbn; split_and!; auto|]. cbn [orb].
  destruct resolver as [resolve|]; [|cbn; split_and!; try done; right; right; done].
  assert (Hfail : position_at resolve room event = None -> forall r, Some resolve = Some r ->
    position_at r room event = None \/
    exists c, T.readMarks s !! room = Some c /\ stands_at r c = None) by (intros ? r [= <-]; by left).
  pose proof (position_at_none resolve room event) as Hnone.
  pose proof (position_at_place resolve room event) as Hplace.
  destruct (resolve room event) as [[p|]|e]; [|cbn; split_and!; auto..].
  destruct (usable p) eqn:Hu; cbn [negb]; [|cbn; split_and!; auto].
  destruct (Hplace p eq_refl Hu) as (Hat & Hmark & Hst & Hev).
  set (m := place room event p) in *.
  pose proof (upgraded resolve room s Hs) as Hup. unfold mbind_, internal at 1, reads. cbn.
  destruct (when_set _ _ s) as [s1 [u|e]].
  2: { destruct Hup as [-> Hc]. split_and!; try done. right. right. intros r [= <-]. by right. }
  destruct Hup as (Hs1 & Ho1 & Hcur). cbn.
  assert (Hm : Marker.RoomID m = room) by (by rewrite (sk_room _ _ Hmark)).
  rewrite <- Hm in Hmark.
  destruct (save_later s1 m Hs1 Hmark) as (Hs2 & Ho2 & m' & Hm' & Hcase & Hlater & Hprev).
  rewrite Hm in *. split; [done|]. split; [intros other Hne; by rewrite Ho2, Ho1 by done|].
  exists resolve, (stored_position m), m'. split_and!; try done.
  - destruct Hcase as [->|Hc1]; [done|]. destruct (T.readMarks s !! room) as [c|]; [|congruence].
    destruct Hcur as (c1 & Hc1' & _ & ? & _). congruence.
  - destruct (T.readMarks s !! room) as [c|].
    + destruct Hcur as (c1 & Hc1 & Hec & Hsc & Hq). exists (stored_position c1).
      split; [done|]. split; [by apply Hprev|]. destruct Hcase as [->|Hc1']; [by left|].
      right. assert (m' = c1) as -> by congruence. done.
    + destruct Hcase as [->|?]; [done|congruence].
Qed.
End Markers.

(** ** Witnesses *)

Definition params_of (event : string) : content :=
  {["event_id" := AString event; "room_id" := AString "!r"]}.

Definition fresh_module : state T.tables :=
  {| store := T.NewMemoryStore; lastFavoriteID := 0; favoriteIDsSet := false |}.

Definition one_added : state T.tables := (handleFavoritesAdd 5000000 (params_of "$a") fresh_module).1.

(** The clock has not moved: the second favourite gets the next id. *)
Lemma favorites_do_not_collide_witness :
  exists st f, handleFavoritesAdd 5000000 (params_of "$b") one_added = (st, Ok f) /\
    Favorite.ID f = 6 /\ size (T.favorites (store st)) = 2%nat.
Proof.
  assert (Hreach : reaches fresh_module) by (by apply reaches_new).
  assert (H0 : ids_in_range fresh_module) by (split; [vm_compute; split; congruence|done]).
  assert (H1 : ids_in_range one_added).
  { split; [vm_compute; split; congruence|]. intros id f Hf.
    replace (T.favorites (store one_added)) with ({[5 := favorite_of (params_of "$a") 5000000 5
      (format_rfc3339nano 5000000)]} : gmap Z Favorite.FavoriteRecord) in Hf by (vm_compute; reflexivity).
    apply lookup_singleton_Some in Hf as [<- _]. vm_compute. congruence. }
  destruct (favorites_do_not_collide 5000000 (params_of "$b") one_added
    (reaches_add 5000000 (params_of "$a") fresh_module Hreach H0) H1) as (st & f & Hrun & _).
  exists st, f. split; [exact Hrun|]. vm_compute in Hrun. injection Hrun as <- <-. by split.
Defined.

Definition order (room event : string) : result goerror (option ReadMarkers.position) :=
  if str_eqb event "$1" then Ok (Some (1, 10, 100)) else if str_eqb event "$2" then Ok (Some (2, 20, 200))
  else Ok None.

(** A marker at the second event from before positions were kept. *)
Definition old_mark : Marker.ReadMarker :=
  {| Marker.RoomID := "!r"; Marker.EventID := "$2"; Marker.OriginServerTS := 200;
     Marker.TopologicalPosition := 0; Marker.StreamPosition := 0 |}.
Definition old_marks : T.tables := T.set_readMarks {["!r" := old_mark]} T.NewMemoryStore.

(** Reading the first event gives the marker its position and leaves it at the
    second. *)
Lemma read_markers_only_advance_witness :
  exists s, ReadMarkers.updateReadMarker (Some order) (params_of "$1") old_marks = (s, Ok tt) /\
    sound_marks s /\ exists m, T.readMarks s !! "!r" = Some m /\ Marker.EventID m = "$2" /\
      stands_at order old_mark = Some (2, 20) /\ stored_position m = (2, 20).
Proof.
  pose proof (read_markers_only_advance (Some order) (params_of "$1") old_marks) as Hrun.
  destruct (ReadMarkers.updateReadMarker (Some order) (params_of "$1") old_marks) as [s r] eqn:Hs.
  destruct Hrun as (Hsound & _).
  { intros room m Hm. unfold old_marks in Hm. cbn in Hm. apply lookup_singleton_Some in Hm as [<- <-]. split; [done|by right]. }
  vm_compute in Hs. injection Hs as <- <-. eexists. split; [reflexivity|]. split; [exact Hsound|].
  eexists. split; [vm_compute; reflexivity|]. split_and!; vm_compute; done.
Defined.
End SocialFacts.
