(* ===== verification/PortalFacts.v ===== *)
(** * Facts about the portal

    No session without the password; what a new session replaces and where it
    is kept; and a login that overtakes a change of the password. *)

From Stdlib Require Import Ascii String ZArith Lia.
From stdpp Require Import base tactics list gmap strings.
From S2P Require Import Prelude GoStrings GoCase Values Domain GoTime Policy PolicyFacts Action MemoryTables Workflow.
From S2P Require Import Portal.
Local Open Scope Z_scope.
Local Open Scope go_scope.

Module PortalFacts.
Import Portal.

Inductive action := Bootstrap | Auth | ChangePassword.

(** The password a request gives. *)
Definition given (a : action) (params : content) : string :=
  match a with
  | Bootstrap => Params.FirstString params ["password"; "token"]
  | Auth => Params.get_string params "password"
  | ChangePassword => Params.get_string params "old_password"
  end.

Section Facts.
Context {AgentConfig ClientBuild X : Type} (emptyBuild : ClientBuild).
Context (hasStore : bool) (credentialsPath : string).
Context (saving writing : X -> X * option goerror) (now : X -> Z).
Context (randomToken : string -> X -> X * string).
Context (issuer : option (string -> string -> string -> string -> bool -> M X goerror string)).
Local Notation W := (world AgentConfig ClientBuild X).
Implicit Types (w : W).

Definition perform (others : W -> W) (a : action) (params : content) : M W Api.Error Session :=
  match a with
  | Bootstrap => bootstrap emptyBuild hasStore credentialsPath saving writing now randomToken issuer others params
  | Auth => auth emptyBuild hasStore credentialsPath saving writing now randomToken issuer others params
  | ChangePassword =>
      changePassword emptyBuild hasStore credentialsPath saving writing now randomToken issuer others params
  end.

(** C25.  No session without the password.  Whatever other requests do in the
    meantime, a portal action that answers a session, or that does anything to
    the service, its store or its credentials file beyond what the others do,
    was given the password that the service had when it looked. *)
Theorem portal_needs_the_password others a params w w' r :
  perform others a params w = (w', r) ->
  (exists s, r = Ok s) \/ (w' <> w /\ w' <> others w) ->
  given a params <> "" /\ given a params = password (svc (others w)).
Proof using Type.
  assert (Hne : forall s, str_empty s = false -> s <> "") by (intros s Hs ->; discriminate Hs).
  intros Hrun Hdone.
  assert (Hrefused : (w' = w \/ w' = others w) -> (exists e, r = Err e) -> False).
  { intros Hw [e ->]. destruct Hdone as [[s Hs]|[H1 H2]]; [done|]. by destruct Hw. }
  destruct a; cbn [perform given] in *.
  - unfold bootstrap in Hrun. destruct (str_empty _) eqn:He in Hrun.
    { injection Hrun as <- <-. exfalso. apply Hrefused; eauto. }
    unfold Authenticate, meanwhile, run, reads, mbind_ at 1 2 in Hrun.
    destruct (str_eqb _ _) eqn:Hp in Hrun; [split; [by apply Hne|by apply str_eqb_true]|].
    injection Hrun as <- <-. exfalso. apply Hrefused; eauto.
  - unfold auth, Authenticate, meanwhile, run, reads, mbind_ at 1 2 in Hrun.
    destruct (str_eqb _ _) eqn:Hp in Hrun.
    + destruct (str_empty _) eqn:He in Hrun; [|split; [by apply Hne|by apply str_eqb_true]].
      injection Hrun as <- <-. exfalso. apply Hrefused; eauto.
    + injection Hrun as <- <-. exfalso. apply Hrefused; eauto.
  - unfold changePassword in Hrun. destruct (str_empty _) in Hrun.
    { injection Hrun as <- <-. exfalso. apply Hrefused; eauto. }
    unfold RotatePassword, meanwhile, run, mbind_ at 1 2 in Hrun.
    destruct (str_empty _ || negb _) eqn:Hp in Hrun.
    { injection Hrun as <- <-. exfalso. apply Hrefused; eauto. }
    go_bool. split; [by apply Hne|by apply str_eqb_true].
Qed.

(** ** One request at a time *)

Definition quiet (w : W) : W := w.

Lemma save_svc state w w' r : Save hasStore saving state w = (w', r) -> svc w' = svc w.
Proof using Type.
  unfold Save. destruct (negb hasStore); [by intros [= <- _]|].
  destruct (saving (ext w)) as [x [e|]]; by intros [= <- _].
Qed.

Lemma save_stores state w w' :
  Save hasStore saving state w = (w', Ok tt) -> hasStore = true ->
  saved w' = Some (SavePortal state (saved w)) /\ credentialsFile w' = credentialsFile w.
Proof using Type.
  unfold Save. intros Hs ->. cbn in Hs. destruct (saving (ext w)) as [x [e|]]; by injection Hs as <-.
Qed.

Lemma write_svc w w' r :
  WriteCurrent credentialsPath writing now quiet w = (w', r) -> svc w' = svc w /\ saved w' = saved w.
Proof using Type.
  unfold WriteCurrent, meanwhile, run, mbind_, quiet, writeAtomicJSON.
  destruct (str_empty _); [by intros [= <- _]|].
  destruct (writing (ext w)) as [x [e|]]; by intros [= <- _].
Qed.

Lemma write_writes w w' :
  WriteCurrent credentialsPath writing now quiet w = (w', Ok tt) -> trim_space credentialsPath <> "" ->
  exists time, credentialsFile w' = Current (current_credentials (svc w) time).
Proof using Type.
  unfold WriteCurrent, meanwhile, run, mbind_, quiet, writeAtomicJSON, str_empty. intros Hw Hp.
  rewrite bool_decide_eq_false_2 in Hw by done.
  destruct (writing (ext w)) as [x [e|]]; [done|]. injection Hw as <-. by eexists.
Qed.

(** What a refreshed session leaves. *)
Definition session_kept (w' : W) (s : Session) : Prop :=
  s = session_of (svc w') /\
  (hasStore = true -> exists st, saved w' = Some st /\ ps_AccessToken st = AccessToken s /\
     ps_Password st = Password s /\ ps_MatrixDeviceID st = DeviceID s) /\
  (trim_space credentialsPath <> "" -> exists c, credentialsFile w' = Current c /\
     cr_AccessToken c = AccessToken s /\ cr_Password c = Password s).

Lemma random_svc prefix w w' t : random randomToken prefix (E:=Api.Error) w = (w', t) -> svc w' = svc w.
Proof using Type. unfold random. destruct (randomToken _ _). by intros [= <- _]. Qed.

Lemma refresh_svc session params w w' r :
  refreshMatrixSession emptyBuild hasStore credentialsPath saving writing now randomToken issuer quiet
    session params w = (w', r) ->
  svc w' = svc w \/ exists token device, svc w' = committed emptyBuild token device (svc w).
Proof using Type.
  unfold refreshMatrixSession, meanwhile, run, mbind_ at 1 2. unfold quiet at 1.
  destruct (requestedMatrixDeviceID _ _ w) as [w1 [device|e]] eqn:Hd.
  2: { unfold requestedMatrixDeviceID in Hd. destruct (str_empty _) in Hd; [|done].
       unfold mbind_, random in Hd. by destruct (randomToken _ _). }
  assert (Hw1 : svc w1 = svc w).
  { unfold requestedMatrixDeviceID in Hd. destruct (str_empty _) in Hd; [|by injection Hd as <- _].
    unfold mbind_ in Hd. destruct (random _ _ _) as [w2 [t|e]] eqn:Hr; [|done].
    injection Hd as <- _. by eapply random_svc. }
  unfold internal, EnsureOwnerSession, meanwhile, run, mbind_ at 1 2, quiet.
  destruct issuer as [ensure|]; [|intros [= <- _]; by left].
  destruct (ensure _ _ _ _ _ _) as [x [token|e]]; [|intros [= <- _]; left; exact Hw1].
  unfold CommitMatrixSession, meanwhile, run, reads, mbind_, quiet, set_svc. cbn [svc set_ext].
  rewrite Hw1. intros Hr. right. exists token, device.
  destruct (Save _ _ _ _) as [w3 [u|e]] eqn:Hs; apply save_svc in Hs as Hs'; cbn in Hs'.
  2: { by injection Hr as <- _. }
  destruct (WriteCurrent _ _ _ _ w3) as [w4 [u'|e]] eqn:Hc; apply write_svc in Hc as [Hc _];
    injection Hr as <- _; congruence.
Qed.

Lemma refresh_spec session params w w' s :
  issuer <> None ->
  refreshMatrixSession emptyBuild hasStore credentialsPath saving writing now randomToken issuer quiet
    session params w = (w', Ok s) ->
  session_kept w' s /\ password (svc w') = password (svc w) /\ agentToken (svc w') = agentToken (svc w).
Proof using Type.
  intros Hi. unfold refreshMatrixSession, meanwhile, run, mbind_ at 1 2. unfold quiet at 1.
  destruct (requestedMatrixDeviceID _ _ w) as [w1 [device|e]] eqn:Hd; [|done].
  assert (Hw1 : svc w1 = svc w).
  { unfold requestedMatrixDeviceID in Hd. destruct (str_empty _) in Hd; [|by injection Hd as <- _].
    unfold mbind_ in Hd. destruct (random _ _ _) as [w2 [t|e]] eqn:Hr; [|done].
    injection Hd as <- _. by eapply random_svc. }
  unfold internal, EnsureOwnerSession, meanwhile, run, mbind_ at 1 2, quiet.
  destruct issuer as [ensure|]; [|done].
  destruct (ensure _ _ _ _ _ _) as [x [token|e]]; [|done].
  unfold CommitMatrixSession, meanwhile, run, reads, mbind_, quiet, set_svc. cbn [svc set_ext].
  rewrite Hw1.
  destruct (Save _ _ _ _) as [w3 [u|e]] eqn:Hs; [|done]. destruct u.
  pose proof (save_svc _ _ _ _ Hs) as Hs'. cbn in Hs'.
  destruct (WriteCurrent _ _ _ _ w3) as [w4 [u|e]] eqn:Hc; [|done]. destruct u.
  pose proof (write_svc _ _ _ Hc) as [Hc1 Hc2]. intros [= <- <-].
  split; [split; [|split]|].
  - cbn. by rewrite Hc1, Hs'.
  - intros Hst. destruct (save_stores _ _ _ Hs Hst) as [Hsv _]. rewrite Hc2, Hsv. eexists.
    split; [reflexivity|]. unfold SavePortal. cbn. destruct (saved w1) as [old|]; [|done].
    by destruct (str_eqb _ _).
  - intros Hp. destruct (write_writes _ _ Hc Hp) as [time Hf]. rewrite Hf. eexists.
    split; [reflexivity|]. rewrite Hs'. done.
  - by rewrite Hc1, Hs'.
Qed.

Definition credentials_of (s : servicePortalState AgentConfig ClientBuild) : HTTP.credentials :=
  {| HTTP.accessToken := accessToken s; HTTP.agentToken := agentToken s;
     HTTP.matrixDeviceID := matrixDeviceID s;
     HTTP.portalSessionGeneration := portalSessionGeneration s |}.

Definition admits (s : servicePortalState AgentConfig ClientBuild) (token action : string) : bool :=
  (HTTP.authorizeProductAction (credentials_of s) token action).2.

Lemma saved_then_refreshed (snapshot : Snapshot) params w w' s :
  issuer <> None ->
  (let! _ := internal (Save hasStore saving (State snapshot)) in
   let! _ := internal (WriteCurrent credentialsPath writing now quiet) in
   refreshMatrixSession emptyBuild hasStore credentialsPath saving writing now randomToken issuer quiet
     (SnapshotSession snapshot) params) w = (w', Ok s) ->
  session_kept w' s /\ password (svc w') = password (svc w) /\ agentToken (svc w') = agentToken (svc w).
Proof using Type.
  intros Hi. unfold mbind_, internal.
  destruct (Save _ _ _ w) as [w1 [u|e]] eqn:Hs; [|done]. apply save_svc in Hs.
  destruct (WriteCurrent _ _ _ _ w1) as [w2 [u'|e]] eqn:Hc; [|done]. apply write_svc in Hc as [Hc _].
  intros Hr. apply refresh_spec in Hr as (Hk & Hp & Ha); [|done]. rewrite Hp, Ha, Hc, Hs. done.
Qed.

Lemma perform_kept a params w w' s :
  issuer <> None -> perform quiet a params w = (w', Ok s) ->
  session_kept w' s /\ agentToken (svc w') = agentToken (svc w) /\
  password (svc w') = match a with ChangePassword => Params.get_string params "new_password"
                                 | _ => password (svc w) end.
Proof using Type.
  intros Hi. destruct a; cbn [perform].
  - unfold bootstrap. destruct (str_empty _); [done|].
    unfold Authenticate, meanwhile, run, reads, mbind_ at 1 2. unfold quiet at 1 2.
    destruct (str_eqb _ _); [|done]. intros Hr. by apply saved_then_refreshed in Hr as (Hk & Hp & Ha).
  - unfold auth, Authenticate, meanwhile, run, reads, mbind_. unfold quiet at 1 2.
    destruct (str_eqb _ _); [|done]. destruct (str_empty _); [done|]. intros Hr.
    by apply refresh_spec in Hr as (Hk & Hp & Ha).
  - unfold changePassword. destruct (str_empty _); [done|].
    unfold RotatePassword, meanwhile, run, mbind_ at 1 2. change (quiet w) with w.
    destruct (_ || _); [done|]. unfold mbind_ at 1 2, reads. unfold random.
    destruct (randomToken "p2p_access" (ext w)) as [x token]. intros Hr.
    apply saved_then_refreshed in Hr as (Hk & Hp & Ha); [|done]. cbn in Hp, Ha. done.
Qed.

(** *** Without an issuer *)

Lemma device_same params w w' (r : result Api.Error string) :
  requestedMatrixDeviceID randomToken params w = (w', r) ->
  (exists device, r = Ok device) /\ svc w' = svc w /\ saved w' = saved w /\
  credentialsFile w' = credentialsFile w.
Proof using Type.
  unfold requestedMatrixDeviceID. destruct (str_empty _); [|intros [= <- <-]; by eauto].
  unfold mbind_, random. destruct (randomToken _ _). intros [= <- <-]. by eauto.
Qed.

(** The session it was given, for the device that was asked for. *)
Lemma refresh_without session params w w' s :
  issuer = None ->
  refreshMatrixSession emptyBuild hasStore credentialsPath saving writing now randomToken issuer quiet
    session params w = (w', Ok s) ->
  (exists device, s = set_DeviceID device session) /\ svc w' = svc w /\ saved w' = saved w /\
  credentialsFile w' = credentialsFile w.
Proof using Type.
  intros Hi. unfold refreshMatrixSession, meanwhile, run, mbind_ at 1 2. unfold quiet at 1.
  destruct (requestedMatrixDeviceID _ _ w) as [w1 r] eqn:Hd.
  destruct (device_same _ _ _ _ Hd) as [[device ->] Hsame].
  unfold internal, EnsureOwnerSession, meanwhile, run, mbind_, quiet. rewrite Hi.
  intros [= <- <-]. split; [by exists device|done].
Qed.

Lemma saved_without (snapshot : Snapshot) params w w' s :
  issuer = None -> snapshot = snapshotLocked (svc w) ->
  (let! _ := internal (Save hasStore saving (State snapshot)) in
   let! _ := internal (WriteCurrent credentialsPath writing now quiet) in
   refreshMatrixSession emptyBuild hasStore credentialsPath saving writing now randomToken issuer quiet
     (SnapshotSession snapshot) params) w = (w', Ok s) ->
  (exists device, s = set_DeviceID device (session_of (svc w))) /\ svc w' = svc w /\
  (hasStore = true -> saved w' = Some (SavePortal (State snapshot) (saved w))) /\
  (trim_space credentialsPath <> "" ->
     exists time, credentialsFile w' = Current (current_credentials (svc w) time)).
Proof using Type.
  intros Hi ->. unfold mbind_, internal.
  destruct (Save _ _ _ w) as [w1 [[]|e]] eqn:Hs; [|done]. pose proof (save_svc _ _ _ _ Hs) as Hs1.
  destruct (WriteCurrent _ _ _ _ w1) as [w2 [[]|e]] eqn:Hc; [|done].
  pose proof (write_svc _ _ _ Hc) as [Hc1 Hc2].
  intros Hr. apply refresh_without in Hr as (Hdev & H1 & H2 & H3); [|done].
  split; [exact Hdev|]. split; [congruence|]. split.
  - intros Hst. rewrite H2, Hc2. by apply (save_stores _ _ _ Hs).
  - intros Hp. rewrite H3, <- Hs1. by apply (write_writes _ _ Hc).
Qed.

Lemma SavePortal_keys (st : PortalState AgentConfig ClientBuild) old :
  ps_AccessToken (SavePortal st old) = ps_AccessToken st /\
  ps_Password (SavePortal st old) = ps_Password st.
Proof using Type. unfold SavePortal. destruct old as [old|]; [|done]. by destruct (str_eqb _ _). Qed.

(** What an answered session says, and where it is kept: with an issuer always,
    without one only by the actions that save. *)
Definition recorded (w' : W) (s : Session) : Prop :=
  (hasStore = true -> exists st, saved w' = Some st /\ ps_AccessToken st = AccessToken s /\
     ps_Password st = Password s /\ (issuer <> None -> ps_MatrixDeviceID st = DeviceID s)) /\
  (trim_space credentialsPath <> "" -> exists c, credentialsFile w' = Current c /\
     cr_AccessToken c = AccessToken s /\ cr_Password c = Password s).

Lemma saved_recorded params w w' s :
  issuer = None ->
  (let! _ := internal (Save hasStore saving (State (snapshotLocked (svc w)))) in
   let! _ := internal (WriteCurrent credentialsPath writing now quiet) in
   refreshMatrixSession emptyBuild hasStore credentialsPath saving writing now randomToken issuer quiet
     (SnapshotSession (snapshotLocked (svc w))) params) w = (w', Ok s) ->
  (exists device, s = set_DeviceID device (session_of (svc w))) /\ svc w' = svc w /\ recorded w' s.
Proof using Type.
  intros Hi Hr. destruct (saved_without _ _ _ _ _ Hi eq_refl Hr) as ([device ->] & Hsvc & Hst & Hf).
  split; [by exists device|]. split; [done|]. split.
  - intros Hh. exists (SavePortal (portalStateLocked (svc w)) (saved w)). split; [by apply Hst|].
    destruct (SavePortal_keys (portalStateLocked (svc w)) (saved w)) as [-> ->].
    by split_and!.
  - intros Hp. destruct (Hf Hp) as [time ->]. by eexists.
Qed.

Lemma perform_without a params w w' s :
  issuer = None -> perform quiet a params w = (w', Ok s) ->
  (AccessToken s = accessToken (svc w') /\ Password s = password (svc w')) /\
  agentToken (svc w') = agentToken (svc w) /\
  password (svc w') = match a with ChangePassword => Params.get_string params "new_password"
                                 | _ => password (svc w) end /\
  match a with
  | Auth => svc w' = svc w /\ saved w' = saved w /\ credentialsFile w' = credentialsFile w
  | _ => recorded w' s
  end.
Proof using Type.
  intros Hi. destruct a; cbn [perform].
  - unfold bootstrap. destruct (str_empty _); [done|].
    unfold Authenticate, meanwhile, run, reads, mbind_ at 1 2. unfold quiet at 1 2.
    destruct (str_eqb _ _); [|done]. intros Hr.
    destruct (saved_recorded _ _ _ _ Hi Hr) as ([device ->] & -> & Hrec). by split_and!.
  - unfold auth, Authenticate, meanwhile, run, reads, mbind_. unfold quiet at 1 2.
    destruct (str_eqb _ _); [|done]. destruct (str_empty _); [done|]. intros Hr.
    apply refresh_without in Hr as ([device ->] & Hsame); [|done].
    destruct Hsame as (-> & ? & ?). by split_and!.
  - unfold changePassword. destruct (str_empty _); [done|].
    unfold RotatePassword, meanwhile, run, mbind_ at 1 2. change (quiet w) with w.
    destruct (_ || _); [done|]. unfold mbind_ at 1 2, reads. unfold random.
    destruct (randomToken "p2p_access" (ext w)) as [x token]. intros Hr.
    destruct (saved_recorded _ (set_svc (rotated _ token) (set_ext x w)) _ _ Hi Hr)
      as ([device ->] & -> & Hrec). by split_and!.
Qed.

(** C26.  A new session replaces the old one everywhere.  Take a portal action
    that answers a session with no other request in between.  The token and the
    password of the answer are the ones the service has: the token opens every
    action, and no other token opens any, but the token of the agent its own
    actions; a change of the password leaves the new one.  With an issuer of
    Matrix sessions the store (when there is one) and the credentials file (when
    it has a path) hold the token and the password of the answer, and the store
    its device.  Without an issuer they hold the token and the password after a
    bootstrap and a change of the password (of the device the answer alone
    speaks), while a login changes nothing, neither the service nor its store nor
    its file. *)
Theorem new_session_replaces_the_old a params w w' s :
  perform quiet a params w = (w', Ok s) ->
  (forall act, AccessToken s <> "" -> ActionSpecFor act <> None -> admits (svc w') (AccessToken s) act = true) /\
  (forall token act, token <> AccessToken s -> admits (svc w') token act = true ->
     token = agentToken (svc w) /\ AgentAction act = true) /\
  Password s = match a with ChangePassword => Params.get_string params "new_password"
                          | _ => password (svc w) end /\
  password (svc w') = Password s /\
  (issuer <> None \/ a <> Auth ->
   (hasStore = true -> exists st, saved w' = Some st /\ ps_AccessToken st = AccessToken s /\
      ps_Password st = Password s /\ (issuer <> None -> ps_MatrixDeviceID st = DeviceID s)) /\
   (trim_space credentialsPath <> "" -> exists c, credentialsFile w' = Current c /\
      cr_AccessToken c = AccessToken s /\ cr_Password c = Password s)) /\
  (issuer = None -> a = Auth ->
   svc w' = svc w /\ saved w' = saved w /\ credentialsFile w' = credentialsFile w).
Proof using Type.
  intros Hrun.
  assert (Hall : (AccessToken s = accessToken (svc w') /\ Password s = password (svc w')) /\
    agentToken (svc w') = agentToken (svc w) /\
    password (svc w') = match a with ChangePassword => Params.get_string params "new_password"
                                   | _ => password (svc w) end /\
    (issuer <> None \/ a <> Auth -> recorded w' s) /\
    (issuer = None -> a = Auth ->
     svc w' = svc w /\ saved w' = saved w /\ credentialsFile w' = credentialsFile w)).
  { destruct (decide (issuer = None)) as [Hi|Hi].
    - destruct (perform_without a params w w' s Hi Hrun) as (Hk & Ha & Hp & Hrest).
      do 3 (split; [done|]). destruct a; (split; [intros Hor|intros _ Hact]); try done.
      by destruct Hor.
    - apply perform_kept in Hrun as ((Hs & Hst & Hf) & Ha & Hp); [|done].
      split; [by rewrite Hs|]. do 2 (split; [done|]). split; [|done]. intros _. split; [|exact Hf].
      intros Hh. destruct (Hst Hh) as (st & ? & ? & ? & ?). exists st. by split_and!. }
  destruct Hall as ((Htok & Hpass) & Ha & Hp & Hrec & Hauth).
  split; [|split; [|split; [by rewrite Hpass|split; [done|by split]]]].
  - intros act Hne Hspec. unfold admits, HTTP.authorizeProductAction, str_empty. cbn.
    rewrite bool_decide_eq_false_2 by done. destruct (ActionSpecFor act); [|done].
    by rewrite Htok, (proj2 (str_eqb_true _ _) eq_refl).
  - intros token act Hne. unfold admits, HTTP.authorizeProductAction. cbn.
    destruct (str_empty token); [done|]. destruct (ActionSpecFor act); [|done].
    rewrite <- Htok, (proj2 (str_eqb_false _ _) Hne). cbn. intros Had.
    apply andb_true_iff in Had as [H1 H2]. apply str_eqb_true in H1.
    split; [|exact H2]. by rewrite <- Ha.
Qed.

(** A change of the password takes effect even when it is answered with an
    error: from then on the new password is the one. *)
Theorem rotation_survives_errors params w w' r :
  Params.get_string params "new_password" <> "" ->
  Params.get_string params "old_password" <> "" ->
  Params.get_string params "old_password" = password (svc w) ->
  perform quiet ChangePassword params w = (w', r) ->
  password (svc w') = Params.get_string params "new_password".
Proof using Type.
  intros Hnew Hold Hcur. cbn [perform]. unfold changePassword, str_empty.
  rewrite bool_decide_eq_false_2 by done. unfold RotatePassword, meanwhile, run, mbind_ at 1 2.
  change (quiet w) with w. unfold str_empty. rewrite bool_decide_eq_false_2, Hcur by done.
  rewrite (proj2 (str_eqb_true _ _) eq_refl). cbn [negb orb]. unfold mbind_ at 1 2, reads, random.
  destruct (randomToken "p2p_access" (ext w)) as [x token]. cbn [svc set_svc set_ext].
  unfold mbind_, internal.
  destruct (Save _ _ _ _) as [w1 [u|e]] eqn:Hs; apply save_svc in Hs; cbn in Hs.
  2: { intros [= <- _]. by rewrite Hs. }
  destruct (WriteCurrent _ _ _ _ w1) as [w2 [u'|e]] eqn:Hc; apply write_svc in Hc as [Hc _].
  2: { intros [= <- _]. by rewrite Hc, Hs. }
  intros Hr. apply refresh_svc in Hr as [Hr|(t & d & Hr)]; rewrite Hr; cbn; by rewrite Hc, Hs.
Qed.
End Facts.

(** ** The theorems on a service *)

Module Demo.
(** The world counts what happened. *)
Definition fine (n : nat) : nat * option goerror := (n, None).
Definition token (prefix : string) (n : nat) : nat * string :=
  (S n, prefix +:+ (if (n =? 0)%nat then "_a" else "_b")).
Definition issue (user name avatar device : string) (revoke : bool) : M nat goerror string :=
  fun n => (S n, Ok (if (n <? 2)%nat then "syt_1" else "syt_2")).

Definition owner : OwnerProfile :=
  {| UserID := "@me:h"; DisplayName := "Me"; ProfileDomain := "h"; AvatarURL := ""; Gender := "";
     Birthday := ""; Phone := ""; Email := "" |}.

Definition service : servicePortalState unit unit :=
  {| initialized := true; password := "old"; accessToken := "syt_0"; matrixDeviceID := "DEV";
     agentToken := "agent"; ownerMXID := "@me:h"; agentRoomID := "!a"; systemRoomID := "!s";
     profile := owner; agentConfig := tt; clientBuild := tt; portalSessionGeneration := 1;
     homeserver := "https://h" |}.

Definition start : world unit unit nat :=
  {| svc := service; saved := None; credentialsFile := NoFile; ext := 0%nat |}.

Definition act (others : world unit unit nat -> world unit unit nat) (a : action) (params : content) :=
  perform tt true "/portal.json" fine fine (fun _ => 0) token (Some issue) others a params.

Definition rotation : content :=
  {["old_password" := AString "old"; "new_password" := AString "new"; "device_id" := AString "DEV"]}.
Definition login : content := {["password" := AString "old"; "device_id" := AString "PHONE"]}.

(** The owner changes the password after the first step of another request. *)
Definition owner_changes_password (w : world unit unit nat) : world unit unit nat :=
  if (ext w =? 1)%nat then (act quiet ChangePassword rotation w).1
  else {| svc := svc w; saved := saved w; credentialsFile := credentialsFile w; ext := S (ext w) |}.
End Demo.

Lemma portal_needs_the_password_witness :
  exists w s, Demo.act quiet Auth Demo.login Demo.start = (w, Ok s) /\
    given Auth Demo.login = password (svc Demo.start).
Proof.
  destruct (Demo.act quiet Auth Demo.login Demo.start) as [w r] eqn:Hrun.
  assert (Hr : exists s, r = Ok s) by (vm_compute in Hrun; injection Hrun as _ <-; by eexists).
  unfold Demo.act in Hrun.
  pose proof (portal_needs_the_password _ _ _ _ _ _ _ _ quiet Auth Demo.login Demo.start w r Hrun
    (or_introl Hr)) as [_ Hgiven].
  destruct Hr as [s ->]. exists w, s. by split.
Defined.

Lemma new_session_replaces_the_old_witness :
  exists w s, Demo.act quiet ChangePassword Demo.rotation Demo.start = (w, Ok s) /\
    admits (svc w) "syt_0" "contacts.list" = false /\ Password s = "new".
Proof.
  destruct (Demo.act quiet ChangePassword Demo.rotation Demo.start) as [w r] eqn:Hrun.
  assert (Hr : exists s, r = Ok s /\ AccessToken s = "syt_1")
    by (vm_compute in Hrun; injection Hrun as _ <-; by eexists).
  destruct Hr as (s & -> & Htok). unfold Demo.act in Hrun.
  destruct (new_session_replaces_the_old tt true "/portal.json" Demo.fine Demo.fine (fun _ => 0) Demo.token
    (Some Demo.issue) ChangePassword Demo.rotation Demo.start w s Hrun) as (_ & Hother & Hpass & _).
  exists w, s. split; [done|]. split; [|exact Hpass].
  destruct (admits (svc w) "syt_0" "contacts.list") eqn:Had; [|done].
  destruct (Hother "syt_0" "contacts.list" ltac:(by rewrite Htok) Had) as [Hagent _]. done.
Defined.

(** A login with the old password that was checked just before the owner
    changed it still gets a session, which replaces that of the owner, and its
    answer tells the new password. *)
Example overtaken_login_learns_the_new_password :
  exists w s, Demo.act Demo.owner_changes_password Auth Demo.login Demo.start = (w, Ok s) /\
    given Auth Demo.login = "old" /\ Password s = "new" /\ accessToken (svc w) = AccessToken s /\
    password (svc w) = "new".
Proof. eexists _, _. split; [vm_compute; reflexivity|]. vm_compute. repeat split. Qed.
End PortalFacts.
